(* ===== verification/_CoqProject ===== *)
-Q . S2P
Prelude.v
GoStrings.v
GoPath.v
GoStd.v
Capture.v
ApiTypes.v
Registry.v
Admission.v
LlmRoute.v
McpRoute.v
SigV4.v
LlmCall.v
Sse.v
CredTable.v
Budget.v
Daemon.v
Supervisor.v
Netip.v
ProxyProto.v
StateMount.v
Egress.v
EgressShape.v
Bridge.v
DnsCache.v
InvocationCtx.v
InvEvent.v
HealthCheck.v
CloudEvents.v
Delivery.v
WarmPool.v
Dispatcher.v
StatusPub.v
ExtMut.v
Ingress.v
Upstream.v
ExtRecord.v
Downstream.v
EgIdentity.v
CertProvider.v
Xds.v
LlmXds.v
EgExtension.v
SinkRegistry.v
StreamCodec.v
StreamContent.v
ChatStream.v
MessagesStream.v
GeminiStream.v
StreamTranslate.v
SandboxManager.v
SandboxLog.v
KubeStatus.v
Cron.v
Revisions.v
JsonText.v
LlmJson.v
JsonEngine.v
ChatCodec.v
MessagesCodec.v
GeminiCodec.v
BedrockCodec.v
MessagesRoundtrip.v
Decoded.v
Translation.v
