(* ===== verification/Prelude.v ===== *)
(** * A verification of the CLRK agent runtime

    CLRK runs AI agents in gVisor sandboxes on Kubernetes.  Users declare agents,
    worker pools, egress gateways, routes and policies as API objects; worker
    pods run the sandboxes; everything a sandbox sends leaves through a bridge on
    the worker, which enforces the gateway's policy and hands the connection to an
    Envoy gateway; Envoy asks an external processor (ext_proc) which route,
    credentials, budget and tool policy apply to each request.  This library
    models the Go code that makes those decisions and proves it correct.

    ** How the parts interact, and where they are modelled

    Every file holds one module of the same name; sources are under [src/].

    - Writing an object.  The apiserver stamps defaults, then validates:
      [ApiTypes] has the object types ([api/clrk/v1alpha1/types_*.go]) and
      [Admission] the [Default], [Validate] and [ValidateUpdate] hooks
      ([defaults.go], [validation.go]).  Provider names are looked up in
      [Registry] ([internal/extproc/llmcall/registry.go] and the five
      [providers/*/provider.go]).
    - Leaving the sandbox.  A connection reaches the worker as a PROXY v2 frame:
      [ProxyProto] ([internal/egress/proxyproto]) has its encoder and parser.
      [Bridge] ([internal/worker/sandbox/egress_bridge.go], [handleConn]) reads
      the frame, refuses worker-local addresses, asks the sandbox's policy and
      dials.  The policy is a handle of the router in [Egress]
      ([internal/egress/route_table.go], [policy.go], [router.go]); the backends
      come from [EgressShape] ([egress_shape.go], [worker/agents/egress_resolve.go]);
      the host name of an address comes from [DnsCache]
      ([internal/sentrystack/dns_cache.go]).
    - Deciding on a request.  [LlmRoute] ([internal/llmroute], [policyattach],
      [extproc/routetable.go]) finds the rule and the candidate backends,
      [CredTable] ([extproc/credtable.go]) the credentials to inject and to
      redact, [Budget] ([extproc/budget.go]) whether the daily cap is reached, and
      [McpRoute] ([extproc/mcproutetable.go], [parsers/mcp.go]) whether a tool
      call is allowed.  Two streams of the external processor carry the decision
      out.  [Downstream] ([extproc/downstream.go], [server.go]) is the agent-side
      one: it injects credentials at once, or pins the request onto a rule and
      publishes a request state; it translates the response back and emits the
      record ([ExtRecord]: [record.go], [network_server.go]).  [Upstream]
      ([upstream.go], [reqstate.go]) adapts each attempt of Envoy's router to the
      backend it picked: it joins the published state, rewrites or translates the
      body, repoints and authenticates.  Both use the replies, header mutations and
      gates of [ExtMut] ([mutations.go], [signing.go], [translate.go],
      [backendselect.go], [parsers/rewrite.go]), the signatures of [SigV4]
      ([awssigv4]), and the neutral call model of [LlmCall] ([llmcall/types.go],
      [wire.go], [translate.go], [stream.go], [assemble.go], [codec.go]); [Sse]
      ([llmcall/sse.go]) frames event streams.
    - Translating a body.  [JsonText] is the JSON scanner and printer of the standard
      library as far as the codecs use it, [LlmJson] the walk over the members of an
      object and the encoder of an object ([llmcall/wire.go], [codecutil.go]), and
      [ChatCodec], [MessagesCodec], [GeminiCodec] and [BedrockCodec] the request and
      response codecs of the four schemas ([llmcall/providers/*/codec.go]).
      [MessagesRoundtrip] says what an Anthropic backend reads of what it is sent,
      [Decoded] what the decoders promise (the class [Translation.SoundDecoder]), and
      [Translation] joins them to [ExtMut.translateRequest]; [JsonEngine] is an instance
      of the engine behind [jsonx] for examples.  Streams are translated chunk by
      chunk: [StreamCodec] states the contract of a stream decoder and encoder,
      [StreamContent] what their events amount to, [ChatStream], [MessagesStream] and
      [GeminiStream] are the codecs ([providers/*/stream.go]), and [StreamTranslate]
      composes any decoder with any encoder ([llmcall/streamcodec.go]).
    - Configuring Envoy.  [Xds] has the messages of Envoy's configuration that the
      code reads and writes; [LlmXds] ([egextension/llm.go]) builds the routes and
      clusters of the rules that [Downstream] pins to, and [EgExtension]
      ([egextension/server.go] and its hooks) rewrites the listeners, clusters and routes of
      the control plane.  [EgIdentity] ([internal/egidentity]) says on behalf of which
      gateway Envoy calls the controller manager, [CertProvider] ([egpki],
      [certprovider/server.go]) issues the certificates of intercepted hosts, and [SinkRegistry]
      ([extproc/sinks.go]) caches the compiled tables and sinks.
    - Controlling.  [KubeStatus] has the names and conditions the controllers share,
      [Cron] ([controller/taskagent_cron_controller.go]) the schedule of task agents
      and [Revisions] ([taskagent_revision_controller.go],
      [daemonagent_revision_controller.go], [revision_helpers.go]) their revisions.
    - Starting an execution.  Envoy's ingress listener asks [Ingress]
      ([extproc/ingress/server.go], [invpublish.go]), which resolves the agent,
      picks a worker with [HealthCheck] ([internal/healthcheck]) through the
      interface [Ingress.Picker], stamps the attributes of [CloudEvents]
      ([internal/cloudevents]), stores the trace parent in [InvocationCtx]
      ([extproc/invocationctx]) and queues an event of [InvEvent]
      ([internal/invevent]).  The worker's [Dispatcher] ([worker/agents/dispatcher.go],
      [active_counter.go]) admits the request under the agent's cap, obtains a
      sandbox, delivers the envelope of [Delivery] (the same file, and
      [internal/sandbox/metadata]) and drains the response; [StatusPub]
      ([notifier.go], [status.go], [statuspublish.go], [invpublish.go] of
      [worker/agents]) reports its counters back to the health checker.
    - Recording.  [Capture] ([extproc/capture], parts of [record.go] and
      [llmcall/encoding.go]) decides how much of a body is kept and undoes content
      encodings.
    - Running sandboxes.  [WarmPool] ([worker/agents/warmpool.go]) keeps
      pre-created sandboxes; [Daemon] ([worker/agents/daemon_lifecycle.go], [run])
      restarts a daemon; [Supervisor] (the rest of [daemon_lifecycle.go], and
      [watcher.go]) elects the worker that runs it and keeps one loop per daemon;
      [StateMount] ([worker/sandbox/oci_spec.go], [trust.go], [state.go]) builds
      the mounts of a sandbox, [SandboxManager] ([worker/sandbox/manager.go], [labels.go])
      creates, registers and deletes sandboxes, and [SandboxLog] ([log.go],
      [workerlog/path.go]) splits and files their output.
    - [GoStrings], [GoPath], [GoStd] and [Netip] model the functions of Go's standard
      library the code calls ([strings], [path], [path/filepath], [time],
      [sort], [hash/fnv], [encoding/base64], [net/netip]); this file has the outcome type, the machine integers, the
      shared tactics and the lemmas on lists and bytes.

    ** Modelling conventions

    Pure functions are functions.  A Go function with an error result returns an
    [outcome] ([Ok], [Err], or [Panic] for an index out of range) or an [option].
    A method that changes its receiver takes and returns the state.  Integers are
    [Z] with the wrap-around of their width written out where the code can reach
    it ([int32], [int64], [uint16]); durations are nanoseconds; a Go string is a
    sequence of bytes.  Pointers that are shared and updated in place are modelled
    with a store: the policy handles of [Egress], the list elements of
    [DnsCache], the semaphores of [Dispatcher], the entries of [Delivery].
    Concurrent code ([WarmPool], [Supervisor], [Dispatcher], [StatusPub],
    [CertProvider], [SinkRegistry], [SandboxManager], [Cron]) is a
    step relation with one step per section run under the lock, per atomic access
    or per blocking wait, so that a
    theorem about reachable states covers every interleaving.  Iteration over a Go
    map is a choice of order, and the theorems that need it state independence of
    the order.

    Code that is not in the repository is a parameter: the regexp engine
    ([GoPath.RegexpEngine]), the cron parser, the JSON decoder, SHA-256 (a
    collision is a case of [LlmRoute.RuleKey_identifies]) and HMAC, the engine that
    quotes JSON strings ([LlmJson.Jsonx], with its laws), the marshalling of protocol
    messages, the Kubernetes reads, the results of dialling and writing, and the clock.
    The translator and the streams are proved against interfaces ([LlmCall.Codec],
    [ExtMut.Hooks], [Downstream.StreamHooks], [StreamCodec]) that the codecs implement.

    ** What the theorems show

    - [ProxyProto]: a frame the encoder writes is parsed back to the same
      addresses, identity and name, the rest of the stream untouched; the parser
      never panics and terminates on any bytes; the encoder fails exactly on mixed
      families or an oversized payload.
    - [Bridge]: a dial happens only for a live sandbox to a destination that both
      the local filter and the policy accept; worker-local destinations are
      dropped; the backend is told the identity the worker knows, never the one
      the client claims.
    - [Egress]: the compiled table implements the documented meaning of routes and
      default policy ([allowed]), and a rebuild refreshes the handles sandboxes
      already hold.
    - [EgressShape]: section names round trip; the resolved backends are exactly
      the listeners present in spec and status.
    - [DnsCache]: list, map and shared elements implement a bounded
      most-recently-used list, and every answer is found under the name asked for.
    - [WarmPool]: each sandbox the pool creates is handed out at most once or
      deleted, never both, and after shutdown none is left but by a deletion that failed.
    - [Registry], [Admission]: lookups find exactly what was registered; the exact
      conditions of admission; defaulting never changes a verdict.
    - [LlmRoute], [McpRoute], [CredTable], [Budget]: the compiled tables answer as
      the routes say, first match first, whatever the order of policies; admitted
      objects are never inert; credentials stay in their namespace and out of the
      captured record; the counter store implements a daily ledger; a tool call is
      allowed exactly when its policy says so.
    - [SigV4]: the signed string determines the request, up to the encodings AWS
      identifies.  [LlmCall], [Sse]: a request that clears the gates is normalized to
      the canonical form a foreign encoder expects; reassembly of a stream is its
      specification; frames are read back however the bytes are cut.
    - [JsonText], [Decoded], [MessagesRoundtrip], [Translation]: a value that is printed is
      read back, whatever follows it; whatever body of an OpenAI, Anthropic or Gemini
      client is accepted, the body sent to an Anthropic backend is one it accepts and reads
      as the normal form of the client's request, and the count of drops is that of what
      the normalization strips and the encoder has no block for;
      [BedrockCodec]: a model of any name is read back from the path.
    - [StreamCodec], [ChatStream], [MessagesStream], [GeminiStream]: each stream decoder
      yields a well-formed sequence of events however the bytes are cut
      and each encoder turns one into frames of its schema.  [StreamTranslate],
      [StreamContent]: what the payloads of a backend's stream say (text, reasoning,
      finish) is what a client of another schema reads, with the same calls and usage.
    - [Xds], [LlmXds], [EgExtension]: the rule a request is pinned to has a route, its
      clusters exist, an endpoint identifies one candidate, no route or listener is left
      without its cluster, and rewriting twice changes nothing more.  [EgIdentity],
      [CertProvider], [SinkRegistry]: an authority names one gateway; a served leaf is
      for the name asked for, signed by the current authority and valid; what the cache
      answers was compiled from the current objects.
    - [Cron], [Revisions]: no activation fires twice under any interleaving, and a
      waiting entry fires; revisions are never changed, and ten are kept.
      [SandboxManager], [SandboxLog]: the egress table holds exactly the live sandboxes
      under their identities; the lines logged, up to 64 KiB, do not depend on how output
      is cut, and longer ones are cut where they outgrow the buffer.
    - [Upstream], [Downstream]: a published state stays joined to its request; the
      viable candidates of a pin can all serve it, and what else Envoy may pick shares a
      name with one; a cross-schema attempt sends nothing of the agent's body, and of its
      credentials only what a signature skipped for lack of a region would have replaced;
      a signature covers
      the bytes that leave; a translated stream is a reference translation, with one
      error frame and then silence on failure; no emitted record shows a credential.
    - [Daemon], [Supervisor]: restarts are bounded and back off; one loop per
      daemon under every interleaving, one elected worker per status.
    - [StateMount]: the writable mount never overlaps a reserved path.
    - [Dispatcher]: under every interleaving of requests the active counter and
      the semaphores count exactly the admitted requests, no more than the cap run
      while it is unchanged, a request takes a bounded number of steps and waits for
      nothing but its own agent and context, and a finished one was rejected with one
      error, or has emitted one terminal event, answered with at most one error and asked
      the deletion of its sandbox.
    - [HealthCheck]: the sorting routine implements the documented policy, does not
      depend on map order, and finds a worker exactly when a listed one reported in
      time.  [StatusPub]: what it reads is the dispatcher's count, the published
      status is current whenever the publisher is idle, and a retry ends.
    - [Ingress], [InvocationCtx], [CloudEvents], [Delivery], [InvEvent]: the exact
      outcome of every branch of the ingress decision; one identifier and one set
      of attributes from ingress through the worker to the agent and to egress; the
      store answers with the last put within its time to live; both transports
      show an agent the same envelope; a watch filter covers its subjects.
    - [Capture]: chunked capture keeps exactly a prefix or a suffix; decoding
      inverts the encodings of a sender.

    Several theorems record behaviour that differs from what a comment promises
    ([Egress.malformed_cidrs_fail_open], [WarmPool.refill_can_be_lost],
    [WarmPool.recreated_slot_overfills], [Bridge.mapped_destination_not_filtered],
    [Egress.Rebuild_frame], [Admission.agent_status_write_rejected],
    [McpRoute.wildcards_miss_tool_calls], [Daemon.wait_error_ignored],
    [Supervisor.stale_stop_kills_new_loop], [Supervisor.collected_loop_overlaps],
    [Supervisor.foreign_revision_collected], [Capture.appendRing_flag],
    [HealthCheck.Pick_ignores_cached_images], [HealthCheck.at_cap_with_idle_workers],
    [CloudEvents.envelope_keeps_callers_parent], [Delivery.buildCEEnvelope_lost_iff],
    [Delivery.empty_body_data], [Dispatcher.unanswered_success],
    [Dispatcher.unknown_mode_answers_nothing], [Admission.delivery_mode_unchecked],
    [StreamTranslate.opening_text_dropped], [Translation.gemini_payload_uncounted],
    [Ingress.parent_expires_before_deadline], [Sse.ScanSSEData_drops_empty_line],
    [Upstream.unsigned_attempt_keeps_credential],
    [Downstream.oversized_body_skips_policy], [Downstream.namesake_gets_foreign_request],
    [Downstream.unfinished_body_passes_untranslated],
    [Downstream.excluded_stream_is_captured],
    [SandboxManager.losing_create_removes_ca], [Cron.late_patch_reverts_sibling],
    [Cron.registering_forgets_last_fire], [Revisions.kinds_share_revisions],
    [Translation.second_result_lost], [Translation.null_choice_is_named],
    [Translation.null_temperature_lost], [Translation.unmodeled_tools_uncounted]).

    ** Fuel and bounds

    Structural recursion is used wherever the code's loop allows it.  The loops
    of [GoPath.Match] and [GoPath.ParseDuration] get one more unit of fuel than
    the length of their input, and [GoPath.Match_total], [durationTerms_fuel] show
    that any larger fuel gives the same result.  [ProxyProto.parseTLVs] gets the
    length of the payload, which its own lemma shows is enough.  The loop of
    [Netip.parseIPv6] runs at most eight times, since each round stores two of
    sixteen bytes.  [Sse.feedLoop] gets one unit more than the length of the buffer,
    and [Sse.Feed_spec] shows that it suffices.  The scanner of [JsonText] nests as deep as
    the library's own limit allows; the loops over elements and members get the
    length of the text.  The decoders of nested blocks get the depth of the value
    ([MessagesCodec.decodeParts_fuel]).  The hop limit of [DnsCache.followChain] is the code's own.
    Counters are bounded by hypotheses only where the code relies on it (a daily
    total below 2^63, a restart limit below the largest [int32]).

    ** What is not modelled

    Generated clients and deep copies; the CRDs, command line, terminal UI,
    installer and console; controller-runtime wiring, the reconcilers that build
    gateways, deployments and services, and the aggregated apiserver's storage;
    ClickHouse, NATS and OpenTelemetry I/O; gVisor and runsc behind the sandbox
    manager; the user-space network stack of a sandbox but for its answer cache.
    Three simplifications of the standard library are stated where they are made:
    [path.Match] is on ASCII, [ParseDuration] scales a fraction exactly where
    Go uses floating point, and a nil slice is an empty one in [LlmJson]. *)

From stdpp Require Import base list strings gmap.
From Stdlib Require Import ZArith Lia NArith.
From Stdlib.Strings Require Import Byte.

#[global] Open Scope Z_scope.

(** ** Outcomes of fallible Go code

    A Go function that returns [(T, error)] is modelled by [outcome E T]: the
    value, an error of the component's error type, or a run-time panic (an
    index or slice expression out of range). *)

Inductive outcome (E A : Type) : Type :=
| Ok (a : A)
| Err (e : E)
| Panic.
Arguments Ok {E A} a.
Arguments Err {E A} e.
Arguments Panic {E A}.

Definition obind {E A B} (m : outcome E A) (k : A -> outcome E B) : outcome E B :=
  match m with
  | Ok a => k a
  | Err e => Err e
  | Panic => Panic
  end.

Declare Scope clrk_scope.
Delimit Scope clrk_scope with clrk.
Notation "'let!' x ':=' m 'in' k" := (obind m (fun x => k))
  (at level 10, x pattern, m at level 100, k at level 200) : clrk_scope.
#[global] Open Scope clrk_scope.

(** [b1 ; b2 ; ...]: run [k] unless the guard fires, in which case return the
    error: the shape [if cond { return err }] of the sources. *)
Definition guard {E A} (bad : bool) (e : E) (k : outcome E A) : outcome E A :=
  if bad then Err e else k.

Definition is_ok {E A} (m : outcome E A) : bool :=
  match m with Ok _ => true | _ => false end.

Lemma Ok_inj {E A} (a b : A) : Ok (E:=E) a = Ok b -> a = b.
Proof. congruence. Qed.

Lemma obind_Ok_inv {E A B} (m : outcome E A) (k : A -> outcome E B) b :
  obind m k = Ok b -> exists a, m = Ok a /\ k a = Ok b.
Proof. destruct m; cbn; [eauto | discriminate..]. Qed.

Lemma guard_Ok_inv {E A} bad (e : E) (k : outcome E A) a :
  guard bad e k = Ok a -> bad = false /\ k = Ok a.
Proof. destruct bad; cbn; [discriminate | auto]. Qed.

Lemma obind_no_panic {E A B} (m : outcome E A) (k : A -> outcome E B) :
  m <> Panic -> (forall a, m = Ok a -> k a <> Panic) -> obind m k <> Panic.
Proof. destruct m; cbn; intros; eauto; congruence. Qed.

(** ** Tactics *)

(** Case analysis on the scrutinee of a [match] or [if] of the goal or of a
    hypothesis, keeping the equation. *)
Ltac split_if :=
  match goal with
  | |- context [if ?b then _ else _] => destruct b eqn:?
  | H : context [if ?b then _ else _] |- _ => destruct b eqn:?
  end.

Ltac split_match :=
  match goal with
  | |- context [match ?x with _ => _ end] => destruct x eqn:?
  | H : context [match ?x with _ => _ end] |- _ => destruct x eqn:?
  end.

(** Turn boolean tests in the context into propositions. *)
Ltac bool_to_prop :=
  repeat match goal with
  | H : (_ && _)%bool = true |- _ => apply andb_true_iff in H; destruct H
  | H : (_ || _)%bool = false |- _ => apply orb_false_iff in H; destruct H
  | H : negb _ = true |- _ => apply negb_true_iff in H
  | H : negb _ = false |- _ => apply negb_false_iff in H
  | H : (_ <? _) = true |- _ => apply Z.ltb_lt in H
  | H : (_ <? _) = false |- _ => apply Z.ltb_ge in H
  | H : (_ <=? _) = true |- _ => apply Z.leb_le in H
  | H : (_ <=? _) = false |- _ => apply Z.leb_gt in H
  | H : (_ =? _) = true |- _ => apply Z.eqb_eq in H
  | H : (_ =? _) = false |- _ => apply Z.eqb_neq in H
  | H : String.eqb _ _ = true |- _ => apply String.eqb_eq in H
  | H : String.eqb _ _ = false |- _ => apply String.eqb_neq in H
  | H : bool_decide _ = true |- _ => apply bool_decide_eq_true in H
  | H : bool_decide _ = false |- _ => apply bool_decide_eq_false in H
  end.

(** Peel the binds and guards of a successful computation. *)
Ltac inv_ok :=
  repeat match goal with
  | H : obind _ _ = Ok _ |- _ =>
      apply obind_Ok_inv in H; destruct H as (? & ? & H)
  | H : guard _ _ _ = Ok _ |- _ =>
      apply guard_Ok_inv in H; destruct H as [? H]
  | H : Ok _ = Ok _ |- _ => injection H as H; try subst
  | H : Err _ = Ok _ |- _ => discriminate H
  | H : Panic = Ok _ |- _ => discriminate H
  end.

(** ** Machine integers and bytes *)

Definition wrap (w : Z) (z : Z) : Z := z mod 2 ^ w.
Definition uint16 (z : Z) : Z := wrap 16 z.
Definition uint32 (z : Z) : Z := wrap 32 z.
Definition in_range (w : Z) (z : Z) : Prop := 0 <= z < 2 ^ w.

(** [int64]: two's-complement wrap-around. *)
Definition int64 (z : Z) : Z := (z + 2 ^ 63) mod 2 ^ 64 - 2 ^ 63.
Definition int32 (z : Z) : Z := (z + 2 ^ 31) mod 2 ^ 32 - 2 ^ 31.

Lemma wrap_id w z : in_range w z -> wrap w z = z.
Proof. apply Z.mod_small. Qed.

Lemma int32_id z : - 2 ^ 31 <= z < 2 ^ 31 -> int32 z = z.
Proof. intros H. unfold int32. rewrite Z.mod_small; lia. Qed.

Lemma filter_perm {A} (f : A -> bool) l l' : l ≡ₚ l' -> List.filter f l ≡ₚ List.filter f l'.
Proof.
  induction 1 as [|x l l' _ IH|x y l|l l' l'' _ IH1 _ IH2]; cbn; [done| | |by rewrite IH1].
  - destruct (f x); by rewrite ?IH.
  - destruct (f x), (f y); try done. apply perm_swap.
Qed.

Lemma int64_id z : - 2 ^ 63 <= z < 2 ^ 63 -> int64 z = z.
Proof. intros H. unfold int64. rewrite Z.mod_small; lia. Qed.

#[global] Instance byte_eq_dec : EqDecision byte := Byte.byte_eq_dec.

Lemma byte_eqb_ne (a b : byte) : a <> b -> Byte.eqb a b = false.
Proof. intros H. destruct (Byte.eqb a b) eqn:E; [by apply Byte.byte_dec_bl in E|done]. Qed.

Definition Z_of_byte (b : byte) : Z := Z.of_N (Byte.to_N b).
Definition byte_of_Z (z : Z) : byte :=
  match Byte.of_N (Z.to_N (z mod 256)) with Some b => b | None => x00 end.

Lemma Z_of_byte_range b : 0 <= Z_of_byte b < 256.
Proof.
  unfold Z_of_byte. pose proof (Byte.to_N_bounded b). lia.
Qed.

Lemma byte_of_Z_of_byte b : byte_of_Z (Z_of_byte b) = b.
Proof.
  unfold byte_of_Z. rewrite Z.mod_small by apply Z_of_byte_range.
  unfold Z_of_byte. rewrite N2Z.id, Byte.of_to_N. done.
Qed.

Lemma Z_of_byte_of_Z z : Z_of_byte (byte_of_Z z) = z mod 256.
Proof.
  unfold byte_of_Z, Z_of_byte.
  pose proof (Z.mod_pos_bound z 256 ltac:(lia)).
  destruct (Byte.of_N _) as [b|] eqn:E.
  - apply Byte.to_of_N in E. rewrite E. rewrite Z2N.id; lia.
  - apply Byte.of_N_None_iff in E. lia.
Qed.

(** Big-endian encoding ([encoding/binary.BigEndian]). *)
Fixpoint be_split (n : nat) (z : Z) : list byte :=
  match n with
  | O => []
  | S n' => byte_of_Z (Z.shiftr z (8 * Z.of_nat n')) :: be_split n' z
  end.

Fixpoint be_combine (bs : list byte) : Z :=
  match bs with
  | [] => 0
  | b :: t => Z_of_byte b * 2 ^ (8 * Z.of_nat (length t)) + be_combine t
  end.

Lemma length_be_split n z : length (be_split n z) = n.
Proof. induction n; cbn; auto. Qed.

Lemma be_combine_range bs : 0 <= be_combine bs < 2 ^ (8 * Z.of_nat (length bs)).
Proof.
  induction bs as [|b t IH]; [cbn; lia|]. cbn [be_combine length].
  pose proof (Z_of_byte_range b).
  replace (8 * Z.of_nat (S (length t))) with (8 + 8 * Z.of_nat (length t)) by lia.
  rewrite Z.pow_add_r by lia. change (2 ^ 8) with 256. nia.
Qed.

Lemma be_combine_split n z : be_combine (be_split n z) = z mod 2 ^ (8 * Z.of_nat n).
Proof.
  induction n as [|n IH]; cbn [be_split be_combine].
  { rewrite Z.mod_1_r; done. }
  rewrite length_be_split, IH, Z_of_byte_of_Z, Z.shiftr_div_pow2 by lia.
  replace (8 * Z.of_nat (S n)) with (8 * Z.of_nat n + 8) by lia.
  rewrite Z.pow_add_r by lia. change (2 ^ 8) with 256.
  rewrite (Z.rem_mul_r z) by lia. lia.
Qed.

Lemma be_combine_split_id n z :
  0 <= z < 2 ^ (8 * Z.of_nat n) -> be_combine (be_split n z) = z.
Proof. intros. rewrite be_combine_split. by apply Z.mod_small. Qed.
