(* ===== verification/GoStrings.v ===== *)
(** * Strings

    The functions of Go's [strings] package the sources use, on Rocq strings
    (a Go string is a sequence of bytes, an [ascii] is a byte), with the lemmas
    that relate them to concatenation. *)

From Stdlib Require Import ZArith Lia Ascii String List.
From stdpp Require Import base strings list sets.
From S2P Require Import Prelude.

Module GoStrings.
#[local] Open Scope string_scope.
#[local] Arguments String.append : simpl nomatch.

Definition HasPrefix (s p : string) : bool := String.prefix p s.

Fixpoint HasSuffix (s suf : string) : bool :=
  String.eqb s suf
  || match s with EmptyString => false | String _ t => HasSuffix t suf end.

(** [strings.Count(s, c)] for a one-byte [c]. *)
Fixpoint Count (s : string) (c : ascii) : nat :=
  match s with
  | EmptyString => 0
  | String d t => (if Ascii.eqb d c then 1 else 0) + Count t c
  end%nat.

(** [s[n:]] for [n <= len(s)]. *)
Fixpoint drop_str (n : nat) (s : string) : string :=
  match n, s with
  | O, _ => s
  | S n', String _ t => drop_str n' t
  | S _, EmptyString => EmptyString
  end.

(** [s[:n]] for [n <= len(s)]. *)
Fixpoint take_str (n : nat) (s : string) : string :=
  match n, s with
  | S n', String c t => String c (take_str n' t)
  | _, _ => EmptyString
  end.

Definition TrimPrefix (s p : string) : string :=
  if HasPrefix s p then drop_str (String.length p) s else s.

Definition TrimSuffix (s suf : string) : string :=
  if HasSuffix s suf then take_str (String.length s - String.length suf) s else s.

(** [strings.Index(s, sub)]: the first position at which [sub] occurs. *)
Fixpoint Index (s sub : string) : option nat :=
  if HasPrefix s sub then Some 0%nat
  else match s with
       | EmptyString => None
       | String _ t => option_map S (Index t sub)
       end.

(** [strings.LastIndex(s, sub)]: the last one. *)
Fixpoint LastIndex (s sub : string) : option nat :=
  match s with
  | EmptyString => if HasPrefix s sub then Some 0%nat else None
  | String _ t =>
      match LastIndex t sub with
      | Some n => Some (S n)
      | None => if HasPrefix s sub then Some 0%nat else None
      end
  end.

Definition Contains (s sub : string) : bool :=
  match Index s sub with Some _ => true | None => false end.

(** [strings.ToLower] on ASCII letters. *)
Definition lower_ascii (c : ascii) : ascii :=
  let n := N_of_ascii c in
  if (65 <=? n)%N && (n <=? 90)%N then ascii_of_N (n + 32) else c.

Fixpoint ToLower (s : string) : string :=
  match s with
  | EmptyString => EmptyString
  | String c t => String (lower_ascii c) (ToLower t)
  end.

Lemma ToLower_idem s : ToLower (ToLower s) = ToLower s.
Proof.
  induction s as [|c s IH]; cbn; [done|]. rewrite IH. f_equal. by destruct c as [[] [] [] [] [] [] [] []].
Qed.

(** [strings.Split(s, c)] for a one-byte [c]. *)
Fixpoint Split (sep : ascii) (s : string) : list string :=
  match s with
  | EmptyString => [""]
  | String c t =>
      if Ascii.eqb c sep then "" :: Split sep t
      else match Split sep t with
           | [] => [String c ""]
           | x :: xs => String c x :: xs
           end
  end.

(** ** Lemmas *)

Lemma Split_nonempty sep s : Split sep s <> [].
Proof. destruct s as [|c s]; cbn; [done|]. repeat case_match; done. Qed.

Lemma Split_app sep a b :
  Split sep (a ++ String sep b) = (Split sep a ++ Split sep b)%list.
Proof.
  induction a as [|c a IH]; cbn -[Ascii.eqb]; [by rewrite Ascii.eqb_refl|].
  rewrite IH. destruct (Ascii.eqb c sep); [done|].
  destruct (Split sep a) eqn:E; [by apply Split_nonempty in E|done].
Qed.

Lemma str_cons_app c (a b : string) : String c a ++ b = String c (a ++ b).
Proof. reflexivity. Qed.

Lemma str_app_assoc (a b c : string) : (a ++ b) ++ c = a ++ (b ++ c).
Proof. induction a; cbn; congruence. Qed.

Lemma str_app_nil_r (a : string) : a ++ "" = a.
Proof. induction a; cbn; congruence. Qed.
Lemma str_concat_cons (a : string) l : String.concat "" (a :: l) = a ++ String.concat "" l.
Proof. destruct l; cbn [String.concat]; [by rewrite str_app_nil_r|done]. Qed.

Lemma str_length_app (a b : string) :
  String.length (a ++ b) = (String.length a + String.length b)%nat.
Proof. induction a; cbn; congruence. Qed.

Lemma str_app_inj_r (a b c : string) : a ++ c = b ++ c -> a = b.
Proof.
  revert b. induction a as [|x a IH]; intros [|y b]; cbn; try done.
  - intros H. apply (f_equal String.length) in H. cbn in H. rewrite str_length_app in H. lia.
  - intros H. apply (f_equal String.length) in H. cbn in H. rewrite str_length_app in H. lia.
  - intros [= -> H]. f_equal. by apply IH.
Qed.

Lemma HasPrefix_spec s p : HasPrefix s p = true <-> exists t, s = p ++ t.
Proof.
  unfold HasPrefix. revert s. induction p as [|c p IH]; intros s; cbn.
  - destruct s; split; eauto.
  - destruct s as [|d s]; cbn.
    + split; [discriminate|intros [t H]; discriminate].
    + destruct (ascii_dec c d) as [->|Hne].
      * rewrite IH. split; intros [t H]; exists t; congruence.
      * split; [discriminate|intros [t H]; congruence].
Qed.

Lemma HasSuffix_spec s suf : HasSuffix s suf = true <-> exists t, s = t ++ suf.
Proof.
  induction s as [|c s IH]; cbn [HasSuffix].
  - rewrite orb_false_r, String.eqb_eq. split.
    + intros <-. by exists "".
    + intros [[|d t] H]; cbn in H; congruence.
  - rewrite orb_true_iff, IH, String.eqb_eq. split.
    + intros [<-|[t ->]]; [by exists ""|by exists (String c t)].
    + intros [[|d t] H]; cbn in H; [by left|right]. exists t. congruence.
Qed.

Lemma Count_app a b c : Count (a ++ b) c = (Count a c + Count b c)%nat.
Proof. induction a; cbn; lia. Qed.

Lemma drop_str_app a b : drop_str (String.length a) (a ++ b) = b.
Proof. induction a; cbn; auto. Qed.

Lemma take_str_app a b : take_str (String.length a) (a ++ b) = a.
Proof. induction a; cbn; [by destruct b|congruence]. Qed.

Lemma TrimSuffix_app a suf : TrimSuffix (a ++ suf) suf = a.
Proof.
  unfold TrimSuffix. rewrite (proj2 (HasSuffix_spec _ _)) by eauto.
  rewrite str_length_app, Nat.add_sub. apply take_str_app.
Qed.

Lemma TrimPrefix_app p a : TrimPrefix (p ++ a) p = a.
Proof.
  unfold TrimPrefix. rewrite (proj2 (HasPrefix_spec _ _)) by eauto. apply drop_str_app.
Qed.

Lemma Index_Some s sub n :
  Index s sub = Some n -> exists a b, s = a ++ sub ++ b /\ String.length a = n.
Proof.
  revert n. induction s as [|c s IH]; intros n; cbn [Index].
  - destruct (HasPrefix _ _) eqn:E; [|done]. intros [= <-].
    apply HasPrefix_spec in E as [t ->]. by exists "", t.
  - destruct (HasPrefix _ _) eqn:E.
    + intros [= <-]. apply HasPrefix_spec in E as [t ->]. by exists "", t.
    + destruct (Index s sub) as [m|]; [|done]. intros [= <-].
      destruct (IH m eq_refl) as (a & b & -> & Hl). exists (String c a), b. cbn. auto.
Qed.

Lemma Contains_spec s sub : Contains s sub = true <-> exists a b, s = a ++ sub ++ b.
Proof.
  unfold Contains. split.
  - destruct (Index s sub) eqn:E; [|done]. intros _.
    apply Index_Some in E as (a & b & -> & _). eauto.
  - intros (a & b & ->). induction a as [|c a IH].
    + assert (HasPrefix (sub ++ b) sub = true) as H by (apply HasPrefix_spec; eauto).
      change ("" ++ sub ++ b) with (sub ++ b). destruct (sub ++ b); cbn [Index]; by rewrite H.
    + change (String c a ++ sub ++ b) with (String c (a ++ sub ++ b)). cbn [Index].
      destruct (HasPrefix _ _); [done|]. by destruct (Index (a ++ sub ++ b) sub).
Qed.

(** Where an empty element of a split comes from. *)
Lemma Split_empty_tail sep s :
  "" ∈ tail (Split sep s) ->
  (exists a, s = a ++ String sep "") \/ (exists a b, s = a ++ String sep (String sep b)).
Proof.
  induction s as [|c s IH]; cbn -[Ascii.eqb]; [by intros H%not_elem_of_nil|].
  destruct (Ascii.eqb c sep) eqn:E.
  - apply Ascii.eqb_eq in E as ->. cbn [tail]. destruct s as [|d s]; [intros _; left; by exists ""|].
    destruct (Ascii.eqb d sep) eqn:Ed.
    { apply Ascii.eqb_eq in Ed as ->. intros _. right. by exists "", s. }
    intros H. destruct IH as [[a ->]|(a & b & ->)].
    + cbn -[Ascii.eqb] in H |- *. rewrite Ed in H |- *. destruct (Split sep s); cbn in *; [set_solver|].
      apply elem_of_cons in H as [H|H]; [done|done].
    + left. by exists (String sep a).
    + right. by exists (String sep a), b.
  - intros H. destruct IH as [[a ->]|(a & b & ->)].
    + destruct (Split sep s); cbn in *; [set_solver|done].
    + left. by exists (String c a).
    + right. by exists (String c a), b.
Qed.

Lemma Split_empty sep s :
  "" ∈ Split sep s <->
  s = "" \/ (exists a, s = String sep a) \/ (exists a, s = a ++ String sep "")
  \/ (exists a b, s = a ++ String sep (String sep b)).
Proof.
  split.
  - intros H. destruct s as [|c s]; [by left|]. right. cbn -[Ascii.eqb] in H.
    destruct (Ascii.eqb c sep) eqn:E; [apply Ascii.eqb_eq in E as ->; left; eauto|right].
    apply Split_empty_tail. cbn -[Ascii.eqb]. rewrite E.
    destruct (Split sep s) as [|x xs]; [by apply elem_of_cons in H as [|H]|].
    by apply elem_of_cons in H as [|H].
  - intros [->|[[a ->]|[[a ->]|(a & b & ->)]]].
    + set_solver.
    + change (String sep a) with ("" ++ String sep a). rewrite Split_app. set_solver.
    + rewrite Split_app. set_solver.
    + rewrite Split_app. change (String sep b) with ("" ++ String sep b). rewrite Split_app. set_solver.
Qed.

(** A separator that does not occur in the first part determines both parts. *)
Lemma sep_inj (sep : ascii) a b x y :
  Count a sep = 0%nat -> Count b sep = 0%nat ->
  String.append a (String sep x) = String.append b (String sep y) -> a = b /\ x = y.
Proof.
  revert b. induction a as [|c a IH]; intros [|d b]; cbn -[Ascii.eqb]; intros Ha Hb H.
  - by injection H.
  - injection H as <- _. rewrite Ascii.eqb_refl in Hb. lia.
  - injection H as -> _. rewrite Ascii.eqb_refl in Ha. lia.
  - change (String c (String.append a (String sep x)) = String d (String.append b (String sep y))) in H.
    injection H as -> H. destruct (Ascii.eqb d sep); [lia|].
    destruct (IH b ltac:(lia) ltac:(lia) H) as [-> ->]. done.
Qed.

(** [ns + "/" + name] determines both parts when [ns] has no slash. *)
Lemma slash_key_inj ns1 n1 ns2 n2 :
  Count ns1 "/" = 0%nat -> Count ns2 "/" = 0%nat ->
  ns1 ++ "/" ++ n1 = ns2 ++ "/" ++ n2 -> ns1 = ns2 /\ n1 = n2.
Proof. apply sep_inj. Qed.

(** The last occurrence splits the string around the separator. *)
Lemma LastIndex_split s sub n :
  LastIndex s sub = Some n ->
  s = take_str n s ++ sub ++ drop_str (n + String.length sub) s.
Proof.
  assert (forall s, HasPrefix s sub = true -> s = sub ++ drop_str (0 + String.length sub) s) as Hp.
  { intros s0 [t ->]%HasPrefix_spec. cbn [Nat.add]. by rewrite drop_str_app. }
  revert n. induction s as [|c s IH]; intros n; cbn [LastIndex].
  - destruct (HasPrefix "" sub) eqn:E; [|discriminate]. intros [= <-]. by apply Hp.
  - destruct (LastIndex s sub) as [k|].
    + intros [= <-]. cbn [take_str Nat.add drop_str].
      change (String c s = String c (take_str k s ++ sub ++ drop_str (k + String.length sub) s)).
      f_equal. by apply IH.
    + destruct (HasPrefix (String c s) sub) eqn:E; [|discriminate]. intros [= <-]. by apply Hp.
Qed.

(** [strings.ContainsAny]. *)
Definition ContainsAny (s chars : string) : bool :=
  existsb (fun c => negb (Nat.eqb (Count chars c) 0)) (list_ascii_of_string s).

Lemma ContainsAny_char s c : ContainsAny s (String c "") = negb (Nat.eqb (Count s c) 0).
Proof.
  unfold ContainsAny. induction s as [|d s IH]; [done|].
  cbn [list_ascii_of_string existsb]. rewrite IH. cbn [Count]. rewrite (Ascii.eqb_sym c d).
  destruct (Ascii.eqb d c); [done|]. by destruct (Count s c).
Qed.

Lemma HasPrefix_char c s d : HasPrefix (String c s) (String d "") = Ascii.eqb c d.
Proof. unfold HasPrefix. cbn. destruct (ascii_dec d c) as [->|]; [by rewrite Ascii.eqb_refl; destruct s|]. symmetry. by apply Ascii.eqb_neq. Qed.

(** The first and the last position of a character. *)
Lemma Index_char c s n :
  Index s (String c "") = Some n <->
  exists a b, s = a ++ String c b /\ String.length a = n /\ Count a c = 0%nat.
Proof.
  revert n. induction s as [|d s IH]; intros n.
  - split; [done|]. intros ([|] & b & [=] & _).
  - cbn [Index]. rewrite HasPrefix_char. destruct (Ascii.eqb_spec d c) as [->|Hd].
    + split.
      * intros [= <-]. by exists "", s.
      * intros ([|e a] & b & Heq & <- & Hc); [done|]. injection Heq as <- _.
        cbn in Hc. rewrite Ascii.eqb_refl in Hc. lia.
    + split.
      * intros H. destruct (Index s (String c "")) as [k|] eqn:E; [|done]. injection H as <-.
        destruct (proj1 (IH k) eq_refl) as (a & b & -> & <- & Hc). exists (String d a), b. split; [done|].
        split; [done|]. cbn. apply Ascii.eqb_neq in Hd. by rewrite Hd.
      * intros ([|e a] & b & Heq & <- & Hc); injection Heq as <- ->; [done|].
        cbn in Hc. rewrite (proj2 (IH (String.length a))); [done|]. exists a, b.
        apply Ascii.eqb_neq in Hd. rewrite Hd in Hc. done.
Qed.

Lemma LastIndex_None c s : LastIndex s (String c "") = None <-> Count s c = 0%nat.
Proof.
  induction s as [|d s IH]; [done|]. cbn [LastIndex Count]. rewrite HasPrefix_char.
  destruct (LastIndex s _) as [k|].
  - split; [done|]. destruct (Ascii.eqb d c); [done|]. by intros H%IH.
  - destruct (Ascii.eqb d c); [done|]. by rewrite <- IH.
Qed.

Lemma LastIndex_char c s n :
  LastIndex s (String c "") = Some n <->
  exists a b, s = a ++ String c b /\ String.length a = n /\ Count b c = 0%nat.
Proof.
  revert n. induction s as [|d s IH]; intros n.
  - split; [done|]. intros ([|] & b & [=] & _).
  - cbn [LastIndex]. rewrite HasPrefix_char. destruct (LastIndex s (String c "")) as [k|] eqn:E.
    + assert (Count s c <> 0%nat) as Hc by (intros Hc; apply LastIndex_None in Hc; congruence).
      split.
      * intros [= <-]. destruct (proj1 (IH k) eq_refl) as (a & b & -> & <- & Hb). by exists (String d a), b.
      * intros ([|e a] & b & Heq & <- & Hb); injection Heq as <- ->; [done|].
        f_equal. cbn. assert (Some k = Some (String.length a)) as [= ->]; [|done].
        apply IH. by exists a, b.
    + apply LastIndex_None in E. destruct (Ascii.eqb_spec d c) as [->|Hd].
      * split; [intros [= <-]; by exists "", s|].
        intros ([|e a] & b & Heq & <- & Hb); [done|]. injection Heq as <- ->.
        rewrite Count_app in E. cbn in E. rewrite Ascii.eqb_refl in E. lia.
      * split; [done|]. intros ([|e a] & b & Heq & <- & Hb); injection Heq as <- ->; [done|].
        rewrite Count_app in E. cbn in E. rewrite Ascii.eqb_refl in E. lia.
Qed.

(** The reversal of [s] before [acc]: trimming on the right is trimming the
    reversal on the left. *)
Fixpoint str_rev (s acc : string) : string :=
  match s with EmptyString => acc | String c t => str_rev t (String c acc) end.

(** The byte order of Go's string comparison. *)
Lemma ltb_leb a b : String.ltb a b = negb (String.leb b a).
Proof.
  unfold String.ltb, String.leb. rewrite (String.compare_antisym a b).
  by destruct (String.compare b a).
Qed.

Lemma leb_refl a : String.leb a a = true.
Proof. destruct (String.leb_total a a); done. Qed.

Lemma leb_trans a b c : String.leb a b = true -> String.leb b c = true -> String.leb a c = true.
Proof.
  intros H1%Is_true_eq_left H2%Is_true_eq_left. apply Is_true_eq_true.
  change (String.le a c). by transitivity b.
Qed.

Lemma leb_antisym_eq a b : String.leb a b = true -> String.leb b a = true -> a = b.
Proof.
  intros H1%Is_true_eq_left H2%Is_true_eq_left. by apply (anti_symm String.le).
Qed.

End GoStrings.
