(* ===== verification/GoPath.v ===== *)
(** * Paths, globs, durations

    The functions of Go's [path/filepath], [path] and [time] packages the
    admission layer and the route tables use: [filepath.Clean] and [IsAbs] on
    Unix, [path.Match] (patterns and names taken as ASCII, so that a rune is a
    byte), and [time.ParseDuration].  The lemmas characterise clean absolute
    paths by their components and globs without metacharacters. *)

From Stdlib Require Import ZArith Lia Ascii String List.
From stdpp Require Import base strings list.
From S2P Require Import Prelude GoStrings.
Import GoStrings.

Module GoPath.
#[local] Arguments String.append : simpl nomatch.

(** ** Splitting at a separator *)

(** [strings.Split(s, "/")]. *)
Definition split_slash (s : string) : list string := Split "/" s.

Definition join_slash (cs : list string) : string := String.concat "/" cs.

(** ** [filepath.Clean] and [filepath.IsAbs] *)

Definition IsAbs (p : string) : bool := HasPrefix p "/".

(** One path element; [out] is the output so far, last element first. *)
Definition clean_step (rooted : bool) (out : list string) (e : string) : list string :=
  if String.eqb e "" || String.eqb e "." then out
  else if String.eqb e ".." then
    match out with
    | [] => if rooted then [] else [".."]
    | x :: out' => if String.eqb x ".." then ".." :: out else out'
    end
  else e :: out.

Definition Clean (p : string) : string :=
  if String.eqb p "" then "."
  else
    let out := rev (fold_left (clean_step (IsAbs p)) (split_slash p) []) in
    if IsAbs p then String.append "/" (join_slash out)
    else match out with [] => "." | _ => join_slash out end.

(** ** [path.Match] *)

(** [scanChunk]: drop leading stars, then cut at the next star outside a
    character class. *)
Fixpoint drop_stars (p : string) : bool * string :=
  match p with
  | String c t => if Ascii.eqb c "*" then (true, snd (drop_stars t)) else (false, p)
  | EmptyString => (false, p)
  end.

Fixpoint scan (inrange : bool) (p : string) : string * string :=
  match p with
  | EmptyString => (EmptyString, EmptyString)
  | String c t =>
      if Ascii.eqb c "*" && negb inrange then (EmptyString, p)
      else if Ascii.eqb c "\" then
        match t with
        | String d u => let '(a, b) := scan inrange u in (String c (String d a), b)
        | EmptyString => (String c EmptyString, EmptyString)
        end
      else
        let '(a, b) := scan (if Ascii.eqb c "[" then true
                             else if Ascii.eqb c "]" then false else inrange) t in
        (String c a, b)
  end.

Definition scanChunk (p : string) : bool * string * string :=
  let '(star, q) := drop_stars p in
  let '(chunk, rest) := scan false q in
  (star, chunk, rest).

(** [getEsc]: a possibly escaped character of a class; [None] is
    [ErrBadPattern]. *)
Definition getEsc (chunk : string) : option (ascii * string) :=
  match chunk with
  | EmptyString => None
  | String c t =>
      if Ascii.eqb c "-" || Ascii.eqb c "]" then None
      else
        let after := if Ascii.eqb c "\" then t else chunk in
        match after with
        | String r ((String _ _) as n) => Some (r, n)
        | _ => None
        end
  end.

Definition ascii_leb (a b : ascii) : bool := (N_of_ascii a <=? N_of_ascii b)%N.

Definition str_tl (s : string) : string := match s with String _ t => t | EmptyString => s end.

Definition starts (c : ascii) (s : string) : bool :=
  match s with String d _ => Ascii.eqb d c | EmptyString => false end.

(** The ranges of a class up to its closing bracket; the result says whether
    [r] is in one of them.  [fuel] bounds the number of ranges, at most the
    length of the chunk. *)
Fixpoint matchRanges (fuel : nat) (chunk : string) (nrange : nat) (r : ascii) (m : bool)
    : option (bool * string) :=
  match fuel with
  | O => None
  | S fuel' =>
      if starts "]" chunk && negb (nrange =? 0)%nat then Some (m, str_tl chunk)
      else
        match getEsc chunk with
        | None => None
        | Some (lo, c1) =>
            if starts "-" c1 then
              match getEsc (str_tl c1) with
              | None => None
              | Some (hi, c2) =>
                  matchRanges fuel' c2 (S nrange) r (m || (ascii_leb lo r && ascii_leb r hi))
              end
            else matchRanges fuel' c1 (S nrange) r (m || Ascii.eqb lo r)
        end
  end.

(** [matchChunk]: [None] is [ErrBadPattern], [Some None] a mismatch, and
    [Some (Some rest)] a match that leaves [rest].  Once [failed] is set the
    chunk is only checked for well-formedness. *)
Fixpoint matchChunk (fuel : nat) (failed : bool) (chunk s : string) : option (option string) :=
  match fuel with
  | O => None
  | S fuel' =>
      match chunk with
      | EmptyString => Some (if failed then None else Some s)
      | String c t =>
          let failed := failed || String.eqb s "" in
          let hd := match s with String x _ => x | EmptyString => "000"%char end in
          if Ascii.eqb c "[" then
            let negated := starts "^" t in
            let t' := if negated then str_tl t else t in
            match matchRanges (S (String.length t')) t' 0 hd false with
            | None => None
            | Some (m, rest) => matchChunk fuel' (failed || Bool.eqb m negated) rest (str_tl s)
            end
          else if Ascii.eqb c "?" then
            matchChunk fuel' (failed || Ascii.eqb hd "/") t (str_tl s)
          else if Ascii.eqb c "\" then
            match t with
            | EmptyString => None
            | String d u => matchChunk fuel' (failed || negb (Ascii.eqb d hd)) u (str_tl s)
            end
          else matchChunk fuel' (failed || negb (Ascii.eqb c hd)) t (str_tl s)
      end
  end.

Definition match_chunk (chunk s : string) : option (option string) :=
  matchChunk (S (String.length chunk)) false chunk s.

Fixpoint has_slash (s : string) : bool :=
  match s with EmptyString => false | String c t => Ascii.eqb c "/" || has_slash t end.

(** The rest of the pattern is checked for syntax before a mismatch is
    reported. *)
Fixpoint checkRest (fuel : nat) (pattern : string) : option bool :=
  match fuel with
  | O => Some false
  | S fuel' =>
      match pattern with
      | EmptyString => Some false
      | _ =>
          let '(_, chunk, rest) := scanChunk pattern in
          match match_chunk chunk "" with
          | None => None
          | Some _ => checkRest fuel' rest
          end
      end
  end.

(** The positions a star may skip to: [Some (Some t)] when the chunk matches
    after some of them. *)
Fixpoint skipStar (chunk : string) (last : bool) (name : string) : option (option string) :=
  match name with
  | EmptyString => Some None
  | String c t =>
      if Ascii.eqb c "/" then Some None
      else match match_chunk chunk t with
           | None => None
           | Some (Some u) => if last && negb (String.eqb u "") then skipStar chunk last t
                              else Some (Some u)
           | Some None => skipStar chunk last t
           end
  end.

Fixpoint matchLoop (fuel : nat) (pattern name : string) : option bool :=
  match fuel with
  | O => Some false
  | S fuel' =>
      match pattern with
      | EmptyString => Some (String.eqb name "")
      | _ =>
          let '(star, chunk, rest) := scanChunk pattern in
          if star && String.eqb chunk "" then Some (negb (has_slash name))
          else
            match match_chunk chunk name with
            | None => None
            | Some r =>
                match r with
                | Some t =>
                    if String.eqb t "" || negb (String.eqb rest "")
                    then matchLoop fuel' rest t
                    else if star then
                      match skipStar chunk (String.eqb rest "") name with
                      | None => None
                      | Some (Some u) => matchLoop fuel' rest u
                      | Some None => checkRest (S (String.length rest)) rest
                      end
                    else checkRest (S (String.length rest)) rest
                | None =>
                    if star then
                      match skipStar chunk (String.eqb rest "") name with
                      | None => None
                      | Some (Some u) => matchLoop fuel' rest u
                      | Some None => checkRest (S (String.length rest)) rest
                      end
                    else checkRest (S (String.length rest)) rest
                end
            end
      end
  end.

(** [path.Match(pattern, name)]; [None] is [ErrBadPattern].  Every round
    consumes a non-empty chunk or a star, so the length of the pattern bounds
    the number of rounds. *)
Definition Match (pattern name : string) : option bool :=
  matchLoop (S (String.length pattern)) pattern name.

(** ** [time.ParseDuration] (nanoseconds; [None] is an error) *)

Definition is_digit (c : ascii) : bool :=
  let n := N_of_ascii c in (48 <=? n)%N && (n <=? 57)%N.

(** [leadingInt]: the value may not exceed [1 << 63]. *)
Fixpoint leadingInt (v : Z) (s : string) : option (Z * string) :=
  match s with
  | String c t =>
      if is_digit c then
        if (2 ^ 63 / 10) <? v then None
        else let v' := v * 10 + (Z.of_N (N_of_ascii c) - 48) in
             if 2 ^ 63 <? v' then None else leadingInt v' t
      else Some (v, s)
  | EmptyString => Some (v, s)
  end.

(** [leadingFraction]: digits beyond the precision are read and ignored. *)
Fixpoint leadingFraction (f scale : Z) (overflow : bool) (s : string) : Z * Z * string :=
  match s with
  | String c t =>
      if is_digit c then
        if overflow || ((2 ^ 63 - 1) / 10 <? f) then leadingFraction f scale true t
        else let f' := f * 10 + (Z.of_N (N_of_ascii c) - 48) in
             if 2 ^ 63 <? f' then leadingFraction f scale true t
             else leadingFraction f' (scale * 10) false t
      else (f, scale, s)
  | EmptyString => (f, scale, s)
  end.

Fixpoint unitName (s : string) : string * string :=
  match s with
  | String c t =>
      if Ascii.eqb c "." || is_digit c then (EmptyString, s)
      else let '(u, r) := unitName t in (String c u, r)
  | EmptyString => (EmptyString, EmptyString)
  end.

Definition unit_ns (u : string) : option Z :=
  if String.eqb u "ns" then Some 1
  else if String.eqb u "us" || String.eqb u (String "194" (String "181" "s"))
          || String.eqb u (String "206" (String "188" "s")) then Some 1000
  else if String.eqb u "ms" then Some 1000000
  else if String.eqb u "s" then Some 1000000000
  else if String.eqb u "m" then Some 60000000000
  else if String.eqb u "h" then Some 3600000000000
  else None.

(** The terms of the sum.  The fraction is scaled exactly; the Go code scales
    it in floating point. *)
Fixpoint durationTerms (fuel : nat) (d : Z) (s : string) : option Z :=
  match fuel with
  | O => None
  | S fuel' =>
      match s with
      | EmptyString => Some d
      | String c _ =>
          if negb (Ascii.eqb c "." || is_digit c) then None
          else
            match leadingInt 0 s with
            | None => None
            | Some (v, s1) =>
                let pre := is_digit c in
                let '(f, scale, s2, post) :=
                  if starts "." s1 then
                    let '(f, scale, r) := leadingFraction 0 1 false (str_tl s1) in
                    (f, scale, r, negb (String.length (str_tl s1) =? String.length r)%nat)
                  else (0, 1, s1, false) in
                if negb pre && negb post then None
                else
                  let '(u, s3) := unitName s2 in
                  match unit_ns u with
                  | None => None
                  | Some unit =>
                      if 2 ^ 63 / unit <? v then None
                      else
                        let v' := v * unit + f * unit / scale in
                        if (2 ^ 63 <? v') || (2 ^ 63 <? d + v') then None
                        else durationTerms fuel' (d + v') s3
                  end
            end
      end
  end.

Definition ParseDuration (s : string) : option Z :=
  let '(neg, t) := match s with
                   | String "-" t => (true, t)
                   | String "+" t => (false, t)
                   | _ => (false, s)
                   end in
  if String.eqb t "0" then Some 0
  else if String.eqb t "" then None
  else match durationTerms (S (String.length t)) 0 t with
       | None => None
       | Some d => if neg then Some (- d) else if 2 ^ 63 - 1 <? d then None else Some d
       end.

(** ** Regular expressions

    [regexp] as the sources use it for operator-supplied patterns: compilation
    that can fail, and matching.  The engine is an interface; nothing is assumed
    of it. *)
Class RegexpEngine := {
  Regexp : Type;
  Compile : string -> Regexp + string;      (* the error text on the right *)
  MatchString : Regexp -> string -> bool;
}.

(** ** Components of a path *)

(** A component of a clean path. *)
Definition component (c : string) : Prop :=
  c <> "" /\ c <> "." /\ c <> ".." /\ Count c "/" = 0%nat.

(** The absolute path with the given components. *)
Definition abs_path (cs : list string) : string := String.append "/" (join_slash cs).

Lemma split_slash_nonempty s : split_slash s <> [].
Proof. apply Split_nonempty. Qed.

Lemma split_slash_no_slash s : Forall (fun c => Count c "/" = 0%nat) (split_slash s).
Proof.
  unfold split_slash.
  induction s as [|c s IH]; cbn -[Ascii.eqb]; [by repeat constructor|].
  destruct (Ascii.eqb c "/") eqn:E; [by constructor|].
  destruct (Split "/" s) as [|x xs]; [constructor; [cbn -[Ascii.eqb]; by rewrite E|done]|].
  apply Forall_cons in IH as [Hx Hxs]. constructor; [|done]. cbn -[Ascii.eqb]. rewrite E. done.
Qed.

Lemma split_slash_id c : Count c "/" = 0%nat -> split_slash c = [c].
Proof.
  unfold split_slash. induction c as [|d c IH]; cbn -[Ascii.eqb]; [done|].
  destruct (Ascii.eqb d "/"); [lia|]. intros H. by rewrite IH.
Qed.

Lemma split_slash_app a b :
  split_slash (String.append a (String "/" b)) = split_slash a ++ split_slash b.
Proof. apply Split_app. Qed.

Lemma join_slash_cons c cs :
  cs <> [] -> join_slash (c :: cs) = String.append c (String "/" (join_slash cs)).
Proof. destruct cs; [done|]. intros _. reflexivity. Qed.

Lemma join_slash_app cs ds :
  cs <> [] -> ds <> [] ->
  join_slash (cs ++ ds) = String.append (join_slash cs) (String "/" (join_slash ds)).
Proof.
  intros Hc Hd. induction cs as [|c cs IH]; [done|].
  destruct cs as [|c' cs]; [cbn [app]; by rewrite join_slash_cons|].
  cbn [app]. rewrite join_slash_cons by done.
  rewrite (join_slash_cons c (c' :: cs)) by done.
  change (c' :: (cs ++ ds)) with ((c' :: cs) ++ ds). rewrite IH by done.
  rewrite str_app_assoc. reflexivity.
Qed.

Lemma split_join cs :
  cs <> [] -> Forall (fun c => Count c "/" = 0%nat) cs -> split_slash (join_slash cs) = cs.
Proof.
  intros Hne Hf. induction cs as [|c cs IH]; [done|].
  apply Forall_cons in Hf as [Hc Hcs].
  destruct cs as [|d cs]; [cbn; by apply split_slash_id|].
  rewrite join_slash_cons, split_slash_app, IH, split_slash_id by done. done.
Qed.

Lemma components_no_slash cs : Forall component cs -> Forall (fun c => Count c "/" = 0%nat) cs.
Proof. intros H. eapply Forall_impl; [exact H|]. by intros c (_ & _ & _ & ?). Qed.

Lemma clean_step_component out e :
  Count e "/" = 0%nat -> Forall component out -> Forall component (clean_step true out e).
Proof.
  intros He Hout. unfold clean_step.
  destruct (String.eqb e "") eqn:E1; [done|].
  destruct (String.eqb e ".") eqn:E2; [done|]. cbn [orb].
  destruct (String.eqb e "..") eqn:E3.
  - destruct out as [|x out]; [done|]. apply Forall_cons in Hout as [Hx Hout].
    destruct (String.eqb x "..") eqn:E4; [|done].
    apply String.eqb_eq in E4 as ->. by destruct Hx as (_ & _ & Hx & _).
  - bool_to_prop. constructor; [|done]. repeat split; done.
Qed.

Lemma clean_fold_component es : forall out,
  Forall (fun c => Count c "/" = 0%nat) es -> Forall component out ->
  Forall component (fold_left (clean_step true) es out).
Proof.
  induction es as [|e es IH]; intros out Hes Hout; cbn [fold_left]; [done|].
  apply Forall_cons in Hes as [He Hes]. apply IH; [done|]. by apply clean_step_component.
Qed.

Lemma clean_fold_id cs : forall out,
  Forall component cs -> fold_left (clean_step true) cs out = rev cs ++ out.
Proof.
  induction cs as [|c cs IH]; intros out Hcs; cbn [fold_left rev]; [done|].
  apply Forall_cons in Hcs as [(H1 & H2 & H3 & _) Hcs].
  rewrite IH by done. rewrite <- app_assoc. f_equal. unfold clean_step.
  apply String.eqb_neq in H1, H2, H3. by rewrite H1, H2, H3.
Qed.

Lemma IsAbs_spec p : IsAbs p = true <-> exists q, p = String "/" q.
Proof. unfold IsAbs. rewrite HasPrefix_spec. reflexivity. Qed.

(** A clean absolute path is the one with some components. *)
Lemma clean_abs_spec p :
  (IsAbs p = true /\ p = Clean p) <-> exists cs, Forall component cs /\ p = abs_path cs.
Proof.
  split.
  - intros [Ha Hc]. unfold Clean in Hc. rewrite Ha in Hc.
    apply IsAbs_spec in Ha as [q ->]. cbn [String.eqb] in Hc.
    exists (rev (fold_left (clean_step true) (split_slash (String "/" q)) [])).
    split; [|exact Hc]. apply Forall_rev, clean_fold_component; [|done].
    apply split_slash_no_slash.
  - intros (cs & Hcs & ->). split; [apply IsAbs_spec; by exists (join_slash cs)|].
    unfold Clean. rewrite (proj2 (IsAbs_spec _)) by (by exists (join_slash cs)).
    unfold abs_path. destruct cs as [|c cs]; [reflexivity|].
    change (String.append "/" (join_slash (c :: cs))) with (String "/" (join_slash (c :: cs))).
    cbn [String.eqb]. change (String "/" (join_slash (c :: cs)))
      with (String.append "" (String "/" (join_slash (c :: cs)))) at 2.
    rewrite split_slash_app, split_join by (try apply components_no_slash; done).
    rewrite fold_left_app. change (fold_left (clean_step true) (split_slash "") []) with (@nil string).
    rewrite clean_fold_id by done. rewrite app_nil_r, rev_involutive. reflexivity.
Qed.

Lemma abs_path_inj cs ds :
  Forall component cs -> Forall component ds -> abs_path cs = abs_path ds -> cs = ds.
Proof.
  intros Hc Hd H. unfold abs_path in H. injection H as H.
  destruct cs as [|c cs], ds as [|d ds]; [done| | |].
  - exfalso. apply Forall_cons in Hd as [(Hd & _) _].
    destruct ds; [by apply Hd|]. rewrite join_slash_cons in H by done. by destruct d.
  - exfalso. apply Forall_cons in Hc as [(Hc & _) _].
    destruct cs; [by apply Hc|]. rewrite join_slash_cons in H by done. by destruct c.
  - apply (f_equal split_slash) in H.
    rewrite !split_join in H by (try apply components_no_slash; done). done.
Qed.

(** A path extends another by a separator exactly when its components do. *)
Lemma abs_path_prefix cs ds :
  Forall component cs -> Forall component ds -> ds <> [] ->
  HasPrefix (abs_path cs) (String.append (abs_path ds) "/") = true
  <-> exists es, es <> [] /\ cs = ds ++ es.
Proof.
  intros Hc Hd Hne. rewrite HasPrefix_spec. unfold abs_path. split.
  - intros [t H]. rewrite !str_app_assoc in H. injection H as H.
    change (String.append "/" t) with (String "/" t) in H.
    assert (Hcs : cs <> []).
    { intros ->. apply (f_equal String.length) in H. rewrite str_length_app in H. cbn in H. lia. }
    apply (f_equal split_slash) in H.
    rewrite split_slash_app, !split_join in H by (try apply components_no_slash; done).
    exists (split_slash t). split; [apply split_slash_nonempty|done].
  - intros (es & Hes & ->). rewrite join_slash_app by done.
    exists (join_slash es). by rewrite !str_app_assoc.
Qed.

(** ** Globs without metacharacters match literally *)

Definition glob_plain (c : ascii) : bool :=
  negb (Ascii.eqb c "*" || Ascii.eqb c "?" || Ascii.eqb c "[" || Ascii.eqb c "\").

Fixpoint literal (p : string) : bool :=
  match p with EmptyString => true | String c t => glob_plain c && literal t end.

Lemma glob_plain_inv c :
  glob_plain c = true ->
  Ascii.eqb c "*" = false /\ Ascii.eqb c "?" = false /\
  Ascii.eqb c "[" = false /\ Ascii.eqb c "\" = false.
Proof. unfold glob_plain. intros H. bool_to_prop. done. Qed.

Lemma scan_literal p : literal p = true -> scan false p = (p, EmptyString).
Proof.
  induction p as [|c p IH]; cbn -[Ascii.eqb]; [done|]. intros H.
  apply andb_true_iff in H as [(H1 & _ & H3 & H4)%glob_plain_inv Hp].
  rewrite H1, H3, H4. cbn [andb]. destruct (Ascii.eqb c "]"); by rewrite IH.
Qed.

Lemma scanChunk_literal p : literal p = true -> scanChunk p = (false, p, EmptyString).
Proof.
  intros H. unfold scanChunk.
  assert (drop_stars p = (false, p)) as ->.
  { destruct p as [|c p]; [done|]. cbn -[Ascii.eqb] in H.
    apply andb_true_iff in H as [(H1 & _)%glob_plain_inv _].
    cbn -[Ascii.eqb]. by rewrite H1. }
  by rewrite scan_literal.
Qed.

Lemma matchChunk_failed p : forall fuel s,
  literal p = true -> (String.length p < fuel)%nat -> matchChunk fuel true p s = Some None.
Proof.
  induction p as [|c p IH]; intros [|fuel] s Hp Hf; cbn in Hf; try lia; [done|].
  cbn -[Ascii.eqb] in Hp. apply andb_true_iff in Hp as [(_ & H2 & H3 & H4)%glob_plain_inv Hp].
  cbn -[Ascii.eqb String.eqb]. rewrite H3, H2, H4. apply IH; [done|lia].
Qed.

Lemma matchChunk_literal p : forall fuel s,
  literal p = true -> (String.length p < fuel)%nat ->
  matchChunk fuel false p s = Some (if HasPrefix s p then Some (drop_str (String.length p) s) else None).
Proof.
  induction p as [|c p IH]; intros [|fuel] s Hp Hf; cbn in Hf; try lia.
  { by destruct s. }
  cbn -[Ascii.eqb] in Hp. apply andb_true_iff in Hp as [(_ & H2 & H3 & H4)%glob_plain_inv Hp].
  cbn -[Ascii.eqb String.eqb HasPrefix]. rewrite H3, H2, H4.
  destruct s as [|x s]; cbn -[Ascii.eqb].
  - rewrite matchChunk_failed by (done || lia). done.
  - unfold HasPrefix. cbn [String.prefix]. destruct (ascii_dec c x) as [->|Hne].
    + rewrite Ascii.eqb_refl. cbn [negb]. rewrite IH by (done || lia). done.
    + apply Ascii.eqb_neq in Hne as ->. cbn [negb]. by rewrite matchChunk_failed by (done || lia).
Qed.

(** A glob with no metacharacter matches the name it spells and no other. *)
Lemma Match_literal p name : literal p = true -> Match p name = Some (String.eqb p name).
Proof.
  intros Hp. unfold Match. destruct p as [|c p].
  { cbn. by destruct name. }
  cbn [matchLoop String.length]. rewrite scanChunk_literal by done. cbn [andb].
  unfold match_chunk. rewrite matchChunk_literal by (done || lia).
  destruct (HasPrefix name (String c p)) eqn:E.
  - apply HasPrefix_spec in E as [t ->]. rewrite drop_str_app.
    destruct t as [|d t]; cbn [String.eqb orb negb].
    + rewrite str_app_nil_r. rewrite String.eqb_refl. cbn [matchLoop String.length String.eqb orb].
      by rewrite Ascii.eqb_refl.
    + cbn. rewrite Ascii.eqb_refl. f_equal. symmetry. apply String.eqb_neq.
      intros H. apply (f_equal String.length) in H. rewrite str_length_app in H. cbn in H. lia.
  - cbn. f_equal. symmetry. apply (String.eqb_neq (String c p) name). intros <-.
    assert (HasPrefix (String c p) (String c p) = true)
      by (apply HasPrefix_spec; exists ""; by rewrite str_app_nil_r). congruence.
Qed.

(** ** Enough fuel

    Each round of the loops above reads at least one character of the pattern
    (of the duration), so any fuel beyond its length gives the same result: the
    fuel-exhausted case of [Match] and [ParseDuration] is never reached. *)

Lemma str_tl_length s c : starts c s = true -> (S (String.length (str_tl s)) = String.length s)%nat.
Proof. by destruct s. Qed.

Lemma getEsc_length chunk c rest : getEsc chunk = Some (c, rest) -> (String.length rest < String.length chunk)%nat.
Proof.
  destruct chunk as [|x t]; [done|]. cbn -[Ascii.eqb]. destruct (_ || _); [done|].
  destruct (Ascii.eqb x "\").
  - destruct t as [|y [|z n]]; [done..|]. intros [= <- <-]. cbn. lia.
  - destruct t as [|z n]; [done|]. intros [= <- <-]. cbn. lia.
Qed.

Lemma matchRanges_length fuel : forall chunk n r m m' rest,
  matchRanges fuel chunk n r m = Some (m', rest) -> (String.length rest < String.length chunk)%nat.
Proof.
  induction fuel as [|fuel IH]; intros chunk n r m m' rest; cbn [matchRanges]; [done|].
  destruct (starts "]" chunk) eqn:E; cbn [andb].
  1: destruct (negb _); [intros [= <- <-]; apply str_tl_length in E; lia|].
  all: destruct (getEsc chunk) as [[lo c1]|] eqn:E1; [|done]; apply getEsc_length in E1;
    destruct (starts "-" c1) eqn:Ed; [|by intros H%IH; lia];
    apply str_tl_length in Ed; destruct (getEsc (str_tl c1)) as [[hi c2]|] eqn:E2; [|done];
    apply getEsc_length in E2; intros H%IH; lia.
Qed.

Lemma matchRanges_fuel n1 : forall n2 chunk k r m,
  (String.length chunk < n1)%nat -> (String.length chunk < n2)%nat ->
  matchRanges n1 chunk k r m = matchRanges n2 chunk k r m.
Proof.
  induction n1 as [|n1 IH]; intros [|n2] chunk k r m H1 H2; try lia. cbn [matchRanges].
  destruct (_ && _); [done|]. destruct (getEsc chunk) as [[lo c1]|] eqn:E1; [|done]. apply getEsc_length in E1.
  destruct (starts "-" c1) eqn:Ed; [|apply IH; lia]. apply str_tl_length in Ed.
  destruct (getEsc (str_tl c1)) as [[hi c2]|] eqn:E2; [|done]. apply getEsc_length in E2. apply IH; lia.
Qed.

Lemma matchChunk_fuel n1 : forall n2 failed chunk s,
  (String.length chunk < n1)%nat -> (String.length chunk < n2)%nat ->
  matchChunk n1 failed chunk s = matchChunk n2 failed chunk s.
Proof.
  induction n1 as [|n1 IH]; intros [|n2] failed chunk s H1 H2; try lia.
  destruct chunk as [|c t]; [done|]. cbn -[Ascii.eqb String.eqb matchRanges] in *.
  destruct (Ascii.eqb c "["); [|destruct (Ascii.eqb c "?"); [apply IH; lia|]].
  - set (t' := if starts "^" t then str_tl t else t).
    assert (Ht : (String.length t' <= String.length t)%nat).
    { unfold t'. destruct (starts "^" t) eqn:E; [apply str_tl_length in E|]; lia. }
    destruct (matchRanges _ _ _ _ _) as [[m rest]|] eqn:E; [|done].
    apply matchRanges_length in E. apply IH; lia.
  - destruct (Ascii.eqb c "\"); [|apply IH; lia]. destruct t as [|d u]; [done|]. cbn in *. apply IH; lia.
Qed.

Lemma drop_stars_length p :
  (String.length (snd (drop_stars p)) <= String.length p)%nat
  /\ (fst (drop_stars p) = true -> (String.length (snd (drop_stars p)) < String.length p)%nat)
  /\ (fst (drop_stars p) = false -> snd (drop_stars p) = p /\ starts "*" p = false).
Proof.
  induction p as [|c p (IH1 & _ & _)]; cbn -[Ascii.eqb]; [done|]. destruct (Ascii.eqb c "*") eqn:E; cbn.
  - split_and!; [lia|intros _; lia|done].
  - split_and!; [lia|done|by intros _].
Qed.

Lemma scan_length p : forall b,
  (String.length (snd (scan b p)) <= String.length p)%nat.
Proof.
  induction p as [p IH] using (induction_ltof1 _ String.length). unfold ltof in IH. intros b.
  destruct p as [|c t]; cbn -[Ascii.eqb]; [done|].
  destruct (_ && _); [done|]. destruct (Ascii.eqb c "\").
  - destruct t as [|d u]; [cbn; lia|]. pose proof (IH u ltac:(cbn; lia) b) as H.
    destruct (scan b u). cbn in *. lia.
  - match goal with |- context [scan ?b' t] => pose proof (IH t ltac:(cbn; lia) b') as H; destruct (scan b' t) end.
    cbn in *. lia.
Qed.

(** A non-empty pattern loses its stars or its first character. *)
Lemma scanChunk_length p star chunk rest :
  p <> "" -> scanChunk p = (star, chunk, rest) -> (String.length rest < String.length p)%nat.
Proof.
  intros Hp. unfold scanChunk. destruct (drop_stars_length p) as (H1 & H2 & H3).
  destruct (drop_stars p) as [st q]. cbn [fst snd] in *.
  pose proof (scan_length q false) as Hq. destruct (scan false q) as [c r] eqn:Es. cbn [snd] in Hq.
  intros [= <- <- <-]. destruct st; [specialize (H2 eq_refl); lia|]. destruct (H3 eq_refl) as [-> Hs].
  destruct p as [|x t]; [done|]. cbn -[Ascii.eqb] in Hs, Es. rewrite Hs in Es. cbn [andb] in Es.
  destruct (Ascii.eqb x "\").
  - destruct t as [|d u]; [injection Es as <- <-; cbn; lia|].
    pose proof (scan_length u false) as Hu. destruct (scan false u). injection Es as <- <-. cbn in *. lia.
  - match type of Es with context [scan ?b t] => pose proof (scan_length t b) as Hu; destruct (scan b t) end.
    injection Es as <- <-. cbn in *. lia.
Qed.

Lemma checkRest_fuel n1 : forall n2 p,
  (String.length p < n1)%nat -> (String.length p < n2)%nat -> checkRest n1 p = checkRest n2 p.
Proof.
  induction n1 as [|n1 IH]; intros [|n2] p H1 H2; try lia. destruct p as [|c t]; [done|].
  cbn [checkRest]. destruct (scanChunk (String c t)) as [[star chunk] rest] eqn:E.
  apply scanChunk_length in E; [|done]. destruct (match_chunk _ _); [apply IH; lia|done].
Qed.

Lemma matchLoop_fuel n1 : forall n2 p name,
  (String.length p < n1)%nat -> (String.length p < n2)%nat -> matchLoop n1 p name = matchLoop n2 p name.
Proof.
  induction n1 as [|n1 IH]; intros [|n2] p name H1 H2; try lia. destruct p as [|c t]; [done|].
  cbn [matchLoop]. destruct (scanChunk (String c t)) as [[star chunk] rest] eqn:E.
  apply scanChunk_length in E; [|done]. destruct (star && _); [done|].
  assert (Hr : forall u, matchLoop n1 rest u = matchLoop n2 rest u) by (intros u; apply IH; lia).
  destruct (match_chunk chunk name) as [[u|]|]; [destruct (_ || _); [apply Hr|]| |done];
    (destruct star; [|done]; destruct (skipStar _ _ _) as [[v|]|]; [apply Hr|done..]).
Qed.

(** [Match] does not depend on its fuel. *)
Theorem Match_total p name n : (String.length p < n)%nat -> matchLoop n p name = Match p name.
Proof. intros H. apply matchLoop_fuel; lia. Qed.

Lemma leadingInt_length s : forall v v' rest, leadingInt v s = Some (v', rest) ->
  (String.length rest <= String.length s)%nat
  /\ (match s with String c _ => is_digit c | EmptyString => false end = true ->
      (String.length rest < String.length s)%nat).
Proof.
  induction s as [|c t IH]; intros v v' rest; cbn -[is_digit]; [intros [= <- <-]; by split|].
  destruct (is_digit c); [|intros [= <- <-]; split; [cbn; lia|done]].
  destruct (_ <? _)%Z; [done|]. destruct (_ <? _)%Z; [done|]. intros [H _]%IH. split; [lia|intros _; lia].
Qed.

Lemma leadingFraction_length s : forall f sc o, (String.length (snd (leadingFraction f sc o s)) <= String.length s)%nat.
Proof.
  induction s as [|c t IH]; intros f sc o; cbn -[is_digit Z.ltb]; [done|].
  destruct (is_digit c); [|done]. repeat case_match; (etransitivity; [apply IH|lia]).
Qed.

Lemma unitName_length s : (String.length (snd (unitName s)) <= String.length s)%nat.
Proof.
  induction s as [|c t IH]; cbn -[is_digit Ascii.eqb]; [done|]. destruct (_ || _); [done|].
  destruct (unitName t). cbn in *. lia.
Qed.

Lemma durationTerms_fuel n1 : forall n2 d s,
  (String.length s < n1)%nat -> (String.length s < n2)%nat -> durationTerms n1 d s = durationTerms n2 d s.
Proof.
  induction n1 as [|n1 IH]; intros [|n2] d s H1 H2; try lia. destruct s as [|c t]; [done|].
  cbn [durationTerms]. destruct (negb (_ || _)); [done|].
  destruct (leadingInt 0 (String c t)) as [[v s1]|] eqn:E; [|done]. apply leadingInt_length in E as [Hle Hlt].
  assert (Hs : forall f sc s2 (post : bool),
     (if starts "." s1 then
        let '(f, sc, r) := leadingFraction 0 1 false (str_tl s1) in
        (f, sc, r, negb (String.length (str_tl s1) =? String.length r)%nat)
      else (0, 1, s1, false)) = (f, sc, s2, post) ->
     (is_digit c || post) = true -> (String.length s2 < String.length (String c t))%nat).
  { intros f sc s2 post. destruct (starts "." s1) eqn:Ed.
    - pose proof (leadingFraction_length (str_tl s1) 0 1 false) as Hf. apply str_tl_length in Ed.
      destruct (leadingFraction _ _ _ _) as [[f' sc'] r]. cbn [snd] in Hf. intros [= <- <- <- <-] _. lia.
    - intros [= <- <- <- <-] Hd. rewrite orb_false_r in Hd. by apply Hlt. }
  destruct (if starts "." s1 then _ else _) as [[[f sc] s2] post]. specialize (Hs f sc s2 post eq_refl).
  destruct (negb (is_digit c) && negb post) eqn:Ep; [done|].
  assert (Hd : is_digit c || post = true) by (by destruct (is_digit c), post).
  specialize (Hs Hd). pose proof (unitName_length s2) as Hu. destruct (unitName s2) as [u s3]. cbn [snd] in Hu.
  destruct (unit_ns u) as [unit|]; [|done]. repeat (destruct (_ <? _)%Z; [done|]).
  apply IH; lia.
Qed.

End GoPath.
