(* ===== verification/GoStd.v ===== *)
(** * More of Go's standard library

    [strings.Cut], [strings.TrimSpace], [strings.EqualFold] (on ASCII),
    [hash/fnv], [sort.SliceStable] and the first-wins use of [sort.Slice], as the
    dispatcher, the worker picker and the external processor call them. *)

From Stdlib Require Import ZArith Lia Ascii String List.
From Stdlib Require Import Sorting.Permutation Sorting.Sorted.
From stdpp Require Import base strings list sorting.
From S2P Require Import Prelude GoStrings.
Import GoStrings.

Module GoStd.
#[local] Open Scope string_scope.
#[local] Open Scope Z_scope.

(** ** [strings] *)

(** [strings.Cut(s, c)] for a one-byte [c]: before, after and whether found. *)
Fixpoint Cut (s : string) (c : ascii) : string * string * bool :=
  match s with
  | EmptyString => ("", "", false)
  | String d t =>
      if Ascii.eqb d c then ("", t, true)
      else let '(a, b, ok) := Cut t c in (String d a, b, ok)
  end.

(** ASCII white space, as [strings.TrimSpace] trims it. *)
Definition is_space (c : ascii) : bool :=
  let n := N_of_ascii c in ((9 <=? n) && (n <=? 13) || (n =? 32))%N.

Fixpoint TrimLeftSpace (s : string) : string :=
  match s with
  | EmptyString => EmptyString
  | String c t => if is_space c then TrimLeftSpace t else s
  end.

Definition TrimSpace (s : string) : string :=
  str_rev (TrimLeftSpace (str_rev (TrimLeftSpace s) "")) "".

Definition EqualFold (a b : string) : bool := String.eqb (ToLower a) (ToLower b).

(** [strings.SplitN(s, c, 2)[0]] for a one-byte [c]. *)
Definition SplitN2_head (s : string) (c : ascii) : string := fst (fst (Cut s c)).

Lemma Cut_found s c a b :
  Cut s c = (a, b, true) <-> s = (a ++ String c b)%string /\ ~ In c (list_ascii_of_string a).
Proof.
  revert a b. induction s as [|d s IH]; intros a b; cbn -[Ascii.eqb].
  - split; [discriminate | intros [H _]; destruct a; discriminate].
  - destruct (Ascii.eqb d c) eqn:E; [apply Ascii.eqb_eq in E; subst d | apply Ascii.eqb_neq in E].
    + split.
      * intros [= <- <-]. split; [done | intros []].
      * intros [H Hn]. destruct a as [|x a]; cbn in H; [by injection H as -> |].
        injection H as <- ->. destruct Hn. by left.
    + destruct (Cut s c) as [[a' b'] ok] eqn:Ec. split.
      * intros [= <- <- ->]. destruct (proj1 (IH a' b') eq_refl) as [-> Hn].
        split; [done|]. intros [->|H]; [done|]. by apply Hn.
      * intros [H Hn]. destruct a as [|x a]; cbn in H; [by injection H as -> |].
        injection H as <- H. assert (Hc : (a', b', ok) = (a, b, true)); [|by injection Hc as -> -> ->].
        apply IH. split; [done|]. intros Hi. apply Hn. by right.
Qed.

Lemma Cut_app a c b : Count a c = 0%nat -> Cut (a ++ String c b)%string c = (a, b, true).
Proof.
  intros H. apply Cut_found. split; [done|]. induction a as [|d a IH]; cbn -[Ascii.eqb] in *; [tauto|].
  destruct (Ascii.eqb_spec d c) as [->|]; [lia|]. naive_solver.
Qed.

Lemma Cut_not_found s c a b : Cut s c = (a, b, false) <-> a = s /\ b = "" /\ ~ In c (list_ascii_of_string s).
Proof.
  revert a b. induction s as [|d s IH]; intros a b; cbn -[Ascii.eqb].
  - split; [intros [= <- <-]; tauto | intros (-> & -> & _); done].
  - destruct (Ascii.eqb d c) eqn:E; [apply Ascii.eqb_eq in E; subst d | apply Ascii.eqb_neq in E].
    + split; [discriminate | intros (_ & _ & H); destruct H; by left].
    + destruct (Cut s c) as [[a' b'] ok] eqn:Ec. split.
      * intros [= <- <- ->]. destruct (proj1 (IH a' b') eq_refl) as (-> & -> & Hn).
        split; [done|]. split; [done|]. intros [->|H]; tauto.
      * intros (-> & -> & H). assert (Hc : (a', b', ok) = (s, "", false)); [|by injection Hc as -> -> ->].
        apply IH. tauto.
Qed.

(** ** [hash/fnv]: FNV-1a *)

Definition fnv1a (width prime offset : Z) (s : string) : Z :=
  fold_left (fun h c => (Z.lxor h (Z.of_N (N_of_ascii c)) * prime) mod 2 ^ width)
    (list_ascii_of_string s) offset.

Definition fnv32a (s : string) : Z := fnv1a 32 16777619 2166136261 s.
Definition fnv64a (s : string) : Z := fnv1a 64 1099511628211 14695981039346656037 s.

Lemma fnv1a_range width prime offset s :
  0 <= width -> 0 <= offset < 2 ^ width -> 0 <= fnv1a width prime offset s < 2 ^ width.
Proof.
  intros Hw. unfold fnv1a. revert offset.
  induction (list_ascii_of_string s) as [|c l IH]; intros off Ho; cbn [fold_left]; [done|].
  apply IH, Z.mod_pos_bound. lia.
Qed.

Lemma fnv32a_range s : 0 <= fnv32a s < 2 ^ 32.
Proof. apply fnv1a_range; lia. Qed.

(** ** [base64.StdEncoding.EncodeToString] *)

Definition base64_char (n : N) : ascii :=
  ascii_of_N (if (n <? 26)%N then 65 + n else if (n <? 52)%N then 71 + n
              else if (n <? 62)%N then n - 4 else if (n =? 62)%N then 43 else 47)%N.

(** The four characters of a group of three bytes. *)
Definition base64_quad (a b c : N) : ascii * ascii * ascii * ascii :=
  let n := (a * 65536 + b * 256 + c)%N in
  (base64_char (n / 262144), base64_char (n / 4096 mod 64),
   base64_char (n / 64 mod 64), base64_char (n mod 64))%N.

Fixpoint EncodeToString (s : string) : string :=
  match s with
  | String a (String b (String c t)) =>
      let '(w, x, y, z) := base64_quad (N_of_ascii a) (N_of_ascii b) (N_of_ascii c) in
      String w (String x (String y (String z (EncodeToString t))))
  | String a (String b EmptyString) =>
      let '(w, x, y, _) := base64_quad (N_of_ascii a) (N_of_ascii b) 0 in
      String w (String x (String y (String "=" EmptyString)))
  | String a EmptyString =>
      let '(w, x, _, _) := base64_quad (N_of_ascii a) 0 0 in
      String w (String x (String "=" (String "=" EmptyString)))
  | EmptyString => EmptyString
  end.

Example EncodeToString_ex : EncodeToString "any carnal pleas" = "YW55IGNhcm5hbCBwbGVhcw==".
Proof. reflexivity. Qed.

(** ** Sums *)

Definition sumZ (l : list Z) : Z := foldr Z.add 0 l.

Lemma sumZ_app l l' : sumZ (l ++ l') = sumZ l + sumZ l'.
Proof. induction l as [|x l IH]; cbn; [done|]. unfold sumZ in *. lia. Qed.

Lemma sumZ_perm l l' : Permutation l l' -> sumZ l = sumZ l'.
Proof. induction 1; cbn; unfold sumZ in *; lia. Qed.

Lemma sumZ_nonneg l : Forall (fun x => 0 <= x) l -> 0 <= sumZ l.
Proof. induction 1; cbn; unfold sumZ in *; lia. Qed.

Lemma sumZ_ge x l : Forall (fun x => 0 <= x) l -> In x l -> x <= sumZ l.
Proof.
  induction 1 as [|y l Hy Hl IH]; cbn; [done|]. apply sumZ_nonneg in Hl. unfold sumZ in *.
  intros [->|H]; [lia|]. specialize (IH H). lia.
Qed.

(** ** [sort] *)

Section Sort.
Context {A : Type} (less : A -> A -> bool).

(** Insert an element that stood before all of [l]: it stays before the elements
    it is equivalent to. *)
Fixpoint sort_insert (x : A) (l : list A) : list A :=
  match l with
  | [] => [x]
  | y :: t => if less y x then y :: sort_insert x t else x :: l
  end.

(** [sort.SliceStable(l, less)]. *)
Fixpoint SliceStable (l : list A) : list A :=
  match l with [] => [] | x :: t => sort_insert x (SliceStable t) end.

Lemma sort_insert_perm x l : Permutation (sort_insert x l) (x :: l).
Proof.
  induction l as [|y l IH]; cbn; [done|]. destruct (less y x); [|done].
  rewrite IH. constructor.
Qed.

Lemma SliceStable_perm l : Permutation (SliceStable l) l.
Proof. induction l as [|x l IH]; cbn; [done|]. by rewrite sort_insert_perm, IH. Qed.

(** [less] is a strict weak order: what [sort] requires of it. *)
Class StrictWeakOrder : Prop := {
  swo_asym a b : less a b = true -> less b a = false;
  swo_trans a b c : less a b = false -> less b c = false -> less a c = false;
}.

Context `{!StrictWeakOrder}.

#[local] Abbreviation le := (fun a b => less b a = false).

Lemma sort_insert_sorted x l : StronglySorted le l -> StronglySorted le (sort_insert x l).
Proof.
  induction 1 as [|y l Hs IH Hf]; cbn; [repeat constructor|].
  destruct (less y x) eqn:E.
  - constructor; [done|]. rewrite sort_insert_perm. constructor; [by apply swo_asym|done].
  - constructor; [by constructor|]. constructor; [done|].
    eapply Forall_impl; [exact Hf|]. intros z Hz. cbn in Hz. by eapply swo_trans.
Qed.

Lemma SliceStable_sorted l : StronglySorted le (SliceStable l).
Proof. induction l; cbn; [constructor|]. by apply sort_insert_sorted. Qed.

(** The head of the sorted slice is a least element. *)
Lemma SliceStable_head l x t :
  SliceStable l = x :: t -> In x l /\ forall y, In y l -> less y x = false.
Proof.
  intros E. pose proof (SliceStable_sorted l) as Hs. pose proof (SliceStable_perm l) as Hp.
  rewrite E in Hs, Hp. apply StronglySorted_inv in Hs as [_ Hf].
  split; [eapply Permutation_in; [exact Hp|by left]|].
  intros y Hy. apply (Permutation_in _ (Permutation_sym Hp)) in Hy as [<-|Hy].
  - destruct (less x x) eqn:Ex; [|done]. by rewrite <- Ex, (swo_asym x x).
  - rewrite Forall_forall in Hf. by apply Hf, list_elem_of_In.
Qed.

Lemma SliceStable_nil l : SliceStable l = [] <-> l = [].
Proof.
  split; [|by intros ->]. intros E. pose proof (SliceStable_perm l) as Hp.
  rewrite E in Hp. by apply Permutation_nil in Hp.
Qed.

(** Where equivalent elements are equal, the order of the input does not matter. *)
Lemma SliceStable_unique l l' :
  (forall a b, less a b = false -> less b a = false -> a = b) ->
  Permutation l l' -> SliceStable l = SliceStable l'.
Proof.
  intros Heq Hp. apply (StronglySorted_unique_strong le).
  - intros a b _ _ H1 H2. by apply Heq.
  - apply SliceStable_sorted.
  - apply SliceStable_sorted.
  - by rewrite !SliceStable_perm.
Qed.

End Sort.

(** ** Joining and splitting *)

Lemma Split_plain sep s : Count s sep = 0%nat -> Split sep s = [s].
Proof.
  induction s as [|c s IH]; cbn -[Ascii.eqb]; [done|]. destruct (Ascii.eqb c sep); [lia|].
  intros H. by rewrite (IH H).
Qed.

Lemma concat_cons_sep sep x y l :
  String.concat sep (x :: y :: l) = (x ++ sep ++ String.concat sep (y :: l))%string.
Proof. done. Qed.

Lemma Split_concat sep l :
  l <> [] -> Forall (fun s => Count s sep = 0%nat) l -> Split sep (String.concat (String sep "") l) = l.
Proof.
  intros Hne H. induction H as [|x l Hx Hl IH]; [done|]. destruct l as [|y l]; [by apply Split_plain|].
  rewrite concat_cons_sep. change (String sep "" ++ ?t)%string with (String sep t).
  rewrite Split_app, IH, Split_plain; done.
Qed.

Lemma concat_Split sep s : String.concat (String sep "") (Split sep s) = s.
Proof.
  induction s as [|c s IH]; [done|]. cbn -[Ascii.eqb String.concat].
  pose proof (Split_nonempty sep s). destruct (Ascii.eqb c sep) eqn:E.
  - apply Ascii.eqb_eq in E as ->. destruct (Split sep s) as [|x l]; [done|].
    rewrite concat_cons_sep, IH. done.
  - destruct (Split sep s) as [|x [|y l]]; [done|by cbn in *; f_equal|].
    rewrite concat_cons_sep in IH |- *. by rewrite <- IH.
Qed.

Lemma concat_inj sep l l' :
  Forall (fun s => Count s sep = 0%nat) l -> Forall (fun s => Count s sep = 0%nat) l' ->
  l <> [] -> l' <> [] -> String.concat (String sep "") l = String.concat (String sep "") l' -> l = l'.
Proof. intros H H' N N' E. rewrite <- (Split_concat sep l), <- (Split_concat sep l'), E; done. Qed.

Lemma concat_empty_app l s : String.concat "" (l ++ [s]) = (String.concat "" l ++ s)%string.
Proof.
  induction l as [|x l IH]; [done|]. destruct l as [|y l]; [done|].
  change ((x :: y :: l) ++ [s])%list with (x :: ((y :: l) ++ [s]))%list.
  destruct ((y :: l) ++ [s])%list as [|z l'] eqn:E; [done|]. rewrite !concat_cons_sep, IH, str_app_assoc. done.
Qed.

Lemma Count_concat sep (c : ascii) l :
  Count sep c = 0%nat -> Forall (fun s => Count s c = 0%nat) l -> Count (String.concat sep l) c = 0%nat.
Proof.
  intros Hs. induction 1 as [|x l Hx Hl IH]; [done|]. destruct l as [|y l]; [done|].
  rewrite concat_cons_sep, !Count_app. lia.
Qed.


End GoStd.
