(* ===== verification/Capture.v ===== *)
(** * Capturing bodies and headers

    [internal/extproc/capture/capture.go], the ring buffer and header conversion of
    [internal/extproc/record.go], and [internal/extproc/llmcall/encoding.go]: the
    primitives both external processors share.  The decompressors are library
    code, so [inflate] is a parameter. *)

From Stdlib Require Import ZArith Lia Ascii String List.
From stdpp Require Import base strings list gmap.
From S2P Require Import Prelude GoStrings GoStd.
Import GoStrings GoStd.

Module Capture.
#[local] Open Scope string_scope.
#[local] Open Scope Z_scope.
#[local] Open Scope list_scope.

Definition MaxBytesDefault : Z := 64 * 1024.

Definition DefaultIncludedContentTypes : list string :=
  ["application/json"; "application/x-ndjson"; "text/event-stream"].

Definition ContentTypeIncluded (contentType : string) (includedTypes : list string) : bool :=
  match includedTypes with
  | [] => true
  | _ => existsb (fun t => HasPrefix (ToLower contentType) t) includedTypes
  end.

(** ** Bounded buffers *)

Section Buffers.
Context {A : Type}.

(** [len(l)] *)
Definition zlen (l : list A) : Z := Z.of_nat (length l).

(** Keep-first-N: the new buffer, the bytes left, and whether it truncated. *)
Definition AppendBounded (dst src : list A) (left : Z) : list A * Z * bool :=
  if left <=? 0 then (dst, left, 0 <? zlen src)
  else if zlen src <=? left then (dst ++ src, left - zlen src, false)
  else (dst ++ take (Z.to_nat left) src, 0, true).

(** Keep-last-N. *)
Definition appendRing (dst src : list A) (capBytes : Z) : list A * bool :=
  if capBytes <=? 0 then (dst, 0 <? zlen src)
  else if capBytes <=? zlen src then (drop (Z.to_nat (zlen src - capBytes)) src, true)
  else
    let dst := dst ++ src in
    if capBytes <? zlen dst then (drop (Z.to_nat (zlen dst - capBytes)) dst, true) else (dst, false).

(** A body that arrives in chunks, as the callers accumulate it. *)
Fixpoint captureFirst (chunks : list (list A)) (buf : list A) (left : Z) (trunc : bool) : list A * bool :=
  match chunks with
  | [] => (buf, trunc)
  | c :: chunks =>
      let '(buf', left', t) := AppendBounded buf c left in captureFirst chunks buf' left' (trunc || t)
  end.

Fixpoint captureLast (chunks : list (list A)) (buf : list A) (capBytes : Z) (trunc : bool) : list A * bool :=
  match chunks with
  | [] => (buf, trunc)
  | c :: chunks =>
      let '(buf, t) := appendRing buf c capBytes in captureLast chunks buf capBytes (trunc || t)
  end.

(** [a[len(a)-n:]]: the last [n] elements, all when there are fewer. *)
Definition lastn (n : nat) (l : list A) : list A := drop (length l - n) l.

Lemma lastn_length n l : length (lastn n l) = Nat.min n (length l).
Proof. unfold lastn. rewrite length_drop. lia. Qed.

Lemma lastn_all n l : (length l <= n)%nat -> lastn n l = l.
Proof. intros H. unfold lastn. by replace (length l - n)%nat with 0%nat by lia. Qed.

(** Appending to a suffix keeps the suffix of the whole. *)
Lemma lastn_app_lastn n l l' : lastn n (lastn n l ++ l') = lastn n (l ++ l').
Proof.
  destruct (decide (length l <= n)%nat) as [H|H]; [by rewrite (lastn_all n l)|].
  unfold lastn at 1 3. rewrite length_app, lastn_length, length_app.
  unfold lastn. rewrite <- (drop_app_le l l') by lia. rewrite drop_drop. f_equal. lia.
Qed.

Lemma captureFirst_spec chunks buf left trunc :
  0 <= left ->
  captureFirst chunks buf left trunc
  = (buf ++ take (Z.to_nat left) (concat chunks), trunc || (left <? zlen (concat chunks))).
Proof.
  unfold zlen. revert buf left trunc. induction chunks as [|c chunks IH]; intros buf left trunc Hl; cbn.
  { rewrite take_nil, app_nil_r. destruct (Z.ltb left _) eqn:E; [apply Z.ltb_lt in E; lia|]. by rewrite orb_false_r. }
  unfold AppendBounded, zlen. rewrite length_app.
  destruct (Z.leb_spec left 0); [|destruct (Z.leb_spec (Z.of_nat (length c)) left)].
  - assert (left = 0) as -> by lia. rewrite IH by lia. cbn. f_equal. rewrite <- orb_assoc. f_equal.
    destruct (Z.ltb_spec 0 (Z.of_nat (length c))), (Z.ltb_spec 0 (Z.of_nat (length (concat chunks)))),
      (Z.ltb_spec 0 (Z.of_nat (length c + length (concat chunks)))); cbn; lia || done.
  - rewrite IH by lia. rewrite orb_false_r, <- app_assoc. f_equal.
    + f_equal. rewrite take_app. rewrite (take_ge c) by lia. do 2 f_equal. lia.
    + f_equal. destruct (Z.ltb_spec (left - Z.of_nat (length c)) (Z.of_nat (length (concat chunks)))),
        (Z.ltb_spec left (Z.of_nat (length c + length (concat chunks)))); lia || done.
  - rewrite IH by lia. cbn. rewrite take_0, app_nil_r, orb_true_r. cbn. f_equal.
    + f_equal. by rewrite take_app_le by lia.
    + rewrite (proj2 (Z.ltb_lt left _)) by lia. by rewrite orb_true_r.
Qed.

(** The request capture is the first [N] bytes of the body however it is cut
    into chunks, and the truncation flag says exactly whether bytes are missing. *)
Theorem captured_request_prefix (chunks : list (list A)) (n : Z) :
  0 <= n ->
  captureFirst chunks [] n false = (take (Z.to_nat n) (concat chunks), n <? zlen (concat chunks)).
Proof. intros Hn. by rewrite captureFirst_spec. Qed.

Lemma appendRing_spec dst src capBytes :
  0 < capBytes -> zlen dst <= capBytes ->
  fst (appendRing dst src capBytes) = lastn (Z.to_nat capBytes) (dst ++ src)
  /\ (snd (appendRing dst src capBytes) = false -> fst (appendRing dst src capBytes) = dst ++ src).
Proof.
  intros Hc Hd. unfold appendRing, zlen in *. rewrite (proj2 (Z.leb_gt capBytes 0)) by lia.
  destruct (Z.leb_spec capBytes (Z.of_nat (length src))); cbn.
  - split; [|done]. unfold lastn. rewrite length_app, drop_app_ge by lia. f_equal. lia.
  - destruct (Z.ltb_spec capBytes (Z.of_nat (length (dst ++ src)))); cbn.
    + split; [|done]. unfold lastn. f_equal. lia.
    + split; [|done]. symmetry. apply lastn_all. lia.
Qed.

Lemma captureLast_spec chunks seen buf capBytes trunc :
  0 < capBytes -> buf = lastn (Z.to_nat capBytes) seen -> (trunc = false -> buf = seen) ->
  let '(out, t) := captureLast chunks buf capBytes trunc in
  out = lastn (Z.to_nat capBytes) (seen ++ concat chunks) /\ (t = false -> out = seen ++ concat chunks).
Proof.
  intros Hc. revert seen buf trunc. induction chunks as [|c chunks IH]; intros seen buf trunc Hb Ht; cbn.
  { rewrite app_nil_r. auto. }
  assert (Hlen : zlen buf <= capBytes) by (rewrite Hb; unfold zlen; rewrite lastn_length; lia).
  destruct (appendRing_spec buf c capBytes Hc Hlen) as [H1 H2].
  destruct (appendRing buf c capBytes) as [buf' t]. cbn in H1, H2.
  specialize (IH (seen ++ c) buf' (trunc || t)). rewrite <- app_assoc in IH. apply IH.
  - by rewrite H1, Hb, lastn_app_lastn.
  - intros [-> ->]%orb_false_iff. rewrite H2, Ht by done. done.
Qed.

(** The response capture of a stream is the last [N] bytes, however it is cut
    into chunks, and a capture not flagged as truncated is the whole body, so it
    may be decompressed and parsed. *)
Theorem captured_stream_suffix (chunks : list (list A)) (n : Z) :
  0 < n ->
  let '(out, t) := captureLast chunks [] n false in
  out = lastn (Z.to_nat n) (concat chunks) /\ (t = false -> out = concat chunks).
Proof. intros Hn. apply (captureLast_spec chunks [] [] n false); [done| |done]. by rewrite lastn_all by (cbn; lia). Qed.

End Buffers.

Lemma captured_request_prefix_witness :
  captureFirst [[1; 2]%nat; [3; 4; 5]%nat] [] 3 false = ([1; 2; 3]%nat, true).
Proof. rewrite captured_request_prefix by lia. reflexivity. Defined.

Lemma captured_stream_suffix_witness :
  fst (captureLast [[1; 2]%nat; [3; 4; 5]%nat] [] 3 false) = [3; 4; 5]%nat.
Proof.
  pose proof (captured_stream_suffix [[1; 2]%nat; [3; 4; 5]%nat] 3 ltac:(lia)) as H.
  destruct (captureLast _ _ _ _) as [out t]. destruct H as [-> _]. reflexivity.
Defined.

(** The flag is not sticky, as the comment on [appendRing] has it: an empty chunk
    after a trim answers that nothing was dropped.  And a chunk of exactly the
    capacity is flagged although nothing was dropped. *)
Lemma appendRing_flag :
  appendRing [1; 2]%nat [] 2 = ([1; 2]%nat, false) /\ appendRing [] [1; 2]%nat 2 = ([1; 2]%nat, true).
Proof. split; reflexivity. Qed.

(** ** Request lines and header maps *)

Definition SplitPathQuery (p : string) : string * string :=
  let '(path, query, _) := Cut p "?"%char in (path, query).

(** A header of Envoy's [HeaderMap]: the two fields a value may be in. *)
Record HeaderValue := mkHV { hv_Key : string; hv_Value : string; hv_RawValue : string }.

(** [record.go]: the text value wins. *)
Definition headersToMap (h : list HeaderValue) : gmap string string :=
  fold_left (fun m kv =>
    let v := if String.eqb (hv_Value kv) "" && negb (String.eqb (hv_RawValue kv) "")
             then hv_RawValue kv else hv_Value kv in
    <[ToLower (hv_Key kv) := v]> m) h ∅.

(** [ingress/server.go]: the raw value wins. *)
Definition ingressHeadersToMap (h : list HeaderValue) : gmap string string :=
  fold_left (fun m kv =>
    let v := if negb (String.eqb (hv_RawValue kv) "") then hv_RawValue kv else hv_Value kv in
    <[ToLower (hv_Key kv) := v]> m) h ∅.

(** Envoy fills one of the two fields; then both conversions agree. *)
Lemma headersToMap_agree h :
  Forall (fun kv => hv_Value kv = "" \/ hv_RawValue kv = "") h ->
  headersToMap h = ingressHeadersToMap h.
Proof.
  unfold headersToMap, ingressHeadersToMap. generalize (∅ : gmap string string) as m. intros m H. revert m.
  induction H as [|kv h Hkv _ IH]; intros m; cbn; [done|]. rewrite IH. do 3 f_equal.
  destruct (String.eqb_spec (hv_Value kv) "") as [Ev|], (String.eqb_spec (hv_RawValue kv) "") as [Er|]; cbn; try done. tauto.
Qed.

Definition isStreamingContentType (ct : string) : bool :=
  if String.eqb ct "" then false
  else
    let ct := ToLower ct in
    let '(head, _, found) := Cut ct ";"%char in
    let ct := if found then TrimSpace head else ct in
    existsb (String.eqb ct)
      ["text/event-stream"; "application/x-ndjson"; "application/vnd.amazon.eventstream"].

(** ** Content encodings *)

Definition parseEncodings (h : string) : list string :=
  if String.eqb h "" then []
  else List.filter (fun tok => negb (String.eqb tok "" || String.eqb tok "identity"))
         (List.map (fun tok => TrimSpace (ToLower tok)) (Split ","%char h)).

Definition NormalizeContentEncoding (contentEncoding : string) : string :=
  String.concat ", " (parseEncodings contentEncoding).

Section Decode.
(** [inflate body enc] undoes one layer, within the output cap. *)
Context (inflate : string -> string -> option string).

Fixpoint undo (encs : list string) (cur : string) : option string :=
  match encs with
  | [] => Some cur
  | e :: encs => match inflate cur e with Some dec => undo encs dec | None => None end
  end.

(** The body returned when decoding fails is not to be used, so the result is
    [None] then. *)
Definition DecodeBody (body contentEncoding : string) : option string :=
  let encs := parseEncodings contentEncoding in
  if String.eqb body "" || bool_decide (encs = []) then Some body
  else undo (rev encs) body.

(** The sender's side: what a compressor for an encoding is. *)
Context (deflate : string -> string -> string).
Hypothesis inflate_deflate : forall body enc,
  In enc ["gzip"; "x-gzip"; "br"; "zstd"; "deflate"] -> inflate (deflate body enc) enc = Some body.
Hypothesis deflate_nonempty : forall body enc, deflate body enc <> "".

Lemma undo_app l l' cur : undo (l ++ l') cur = match undo l cur with Some d => undo l' d | None => None end.
Proof. revert cur. induction l as [|e l IH]; intros cur; cbn; [done|]. destruct (inflate cur e); [apply IH|done]. Qed.

Lemma undo_layers encs body :
  Forall (fun e => In e ["gzip"; "x-gzip"; "br"; "zstd"; "deflate"]) encs ->
  undo (rev encs) (fold_left deflate encs body) = Some body.
Proof.
  revert body. induction encs as [|e encs IH] using rev_ind; intros body H; [done|].
  apply Forall_app in H as [He Hl]. rewrite rev_app_distr, fold_left_app. cbn.
  rewrite inflate_deflate by (by inversion Hl). by apply IH.
Qed.

(** Undoing a content encoding inverts applying it: for a header that names
    supported encodings, in any spelling and with identity layers anywhere, a body
    the sender encoded layer by layer, left to right, is decoded to the original. *)
Theorem DecodeBody_roundtrip (body contentEncoding : string) :
  Forall (fun e => In e ["gzip"; "x-gzip"; "br"; "zstd"; "deflate"]) (parseEncodings contentEncoding) ->
  DecodeBody (fold_left deflate (parseEncodings contentEncoding) body) contentEncoding = Some body.
Proof.
  intros H. unfold DecodeBody. destruct (parseEncodings contentEncoding) as [|e encs] eqn:E.
  { rewrite bool_decide_eq_true_2 by done. by rewrite orb_true_r. }
  rewrite (bool_decide_eq_false_2 (_ = [])) by done. rewrite orb_false_r.
  destruct (String.eqb_spec (fold_left deflate (e :: encs) body) "") as [Hz|]; [|by apply undo_layers].
  exfalso. destruct (exists_last (l := e :: encs)) as (l & x & Hx); [done|].
  rewrite Hx, fold_left_app in Hz. by apply deflate_nonempty in Hz.
Qed.

End Decode.

(** An encoder that marks each layer, and its inverse. *)
Definition mark (body enc : string) : string := (enc ++ ":" ++ body)%string.
Definition unmark (body enc : string) : option string :=
  if HasPrefix body (enc ++ ":")%string then Some (drop_str (String.length enc + 1) body) else None.

Lemma unmark_mark body enc : unmark (mark body enc) enc = Some body.
Proof.
  unfold unmark, mark. rewrite <- str_app_assoc, (proj2 (HasPrefix_spec _ _)) by eauto.
  replace (String.length enc + 1)%nat with (String.length (enc ++ ":")%string) by (rewrite str_length_app; cbn; lia).
  by rewrite drop_str_app.
Qed.

Lemma DecodeBody_roundtrip_witness :
  DecodeBody unmark (mark (mark "hi" "gzip") "br") "GZIP, identity, br" = Some "hi".
Proof.
  apply (DecodeBody_roundtrip unmark mark) with (body := "hi") (contentEncoding := "GZIP, identity, br").
  - intros body enc H. apply unmark_mark.
  - intros body enc H. unfold mark in H. destruct enc; discriminate H.
  - assert (E : parseEncodings "GZIP, identity, br" = ["gzip"; "br"]) by (vm_compute; reflexivity).
    rewrite E. constructor; [cbn; tauto|]. constructor; [cbn; tauto|constructor].
Defined.

End Capture.
