(* ===== verification/ApiTypes.v ===== *)
(** * API types

    The [v1alpha1] resources the admission layer and the ext_proc data plane
    read ([src/api/clrk/v1alpha1/types_*.go]), one record per Go struct.

    Conventions: a Go pointer is an [option]; a named string type (an "enum")
    is a [string], because the aggregated apiserver does not enforce the enum
    markers and an object can carry any value; [int32]/[int64] fields are [Z]
    and durations are nanoseconds.  A nil slice and an empty one are both [[]]:
    the comparison the update validators use ([Semantic.DeepEqual]) identifies
    them.  The fields of a spec that no modelled operation reads (resource
    quantities, environment, scheduling constraints, ...) are kept together in
    one [..._rest] field, in serialised form, so that equality of two specs is
    equality of all their fields. *)

From Stdlib Require Import ZArith String List.
From stdpp Require Import base strings list gmap countable.
From S2P Require Import Prelude.

Module ApiTypes.

(** ** Names and references *)

(** [types.NamespacedName]. *)
Record NamespacedName := mkNN { nn_namespace : string; nn_name : string }.

#[export] Instance NamespacedName_eq_dec : EqDecision NamespacedName.
Proof. solve_decision. Defined.
#[export] Instance NamespacedName_countable : Countable NamespacedName.
Proof.
  refine (inj_countable' (fun n => (nn_namespace n, nn_name n))
            (fun p => mkNN p.1 p.2) _); by intros [].
Defined.

(** The part of [metav1.ObjectMeta] that is read. *)
Record ObjectMeta := mkMeta {
  Namespace : string;
  Name : string;
  ResourceVersion : string;
}.

(** [gwapiv1.ParentReference]. *)
Record ParentReference := mkParentReference {
  pr_Group : option string;
  pr_Kind : option string;
  pr_Namespace : option string;
  pr_Name : string;
  pr_SectionName : option string;
}.

(** [gwapiv1.BackendRef]. *)
Record BackendRef := mkBackendRef {
  br_Group : option string;
  br_Kind : option string;
  br_Namespace : option string;
  br_Name : string;
  br_Weight : option Z;
}.

(** [gwapiv1.LocalObjectReference]. *)
Record LocalObjectReference := mkLocalRef { lr_Group : string; lr_Kind : string; lr_Name : string }.

(** [gwapiv1a2.LocalPolicyTargetReferenceWithSectionName]. *)
Record PolicyTargetRef := mkTargetRef {
  tr_Group : string;
  tr_Kind : string;
  tr_Name : string;
  tr_SectionName : option string;
}.

(** [SchemeGroupVersion.Group], the API group every clrk reference spells. *)
Definition clrkAPIGroup : string := "clrk.apoxy.dev".

#[export] Instance ParentReference_eq_dec : EqDecision ParentReference.
Proof. solve_decision. Defined.
#[export] Instance BackendRef_eq_dec : EqDecision BackendRef.
Proof. solve_decision. Defined.
#[export] Instance LocalObjectReference_eq_dec : EqDecision LocalObjectReference.
Proof. solve_decision. Defined.
#[export] Instance PolicyTargetRef_eq_dec : EqDecision PolicyTargetRef.
Proof. solve_decision. Defined.

(** ** Agents ([types_shared.go], [types_taskagent.go], [types_daemonagent.go]) *)

Record AgentSandbox := mkAgentSandbox {
  Image : string;
  Command : list string;
  Args : list string;
}.

Record AgentEgressRef := mkEgressRef { GatewayRef : string }.

Record AgentState := mkAgentState {
  st_Backend : string;
  SizeLimitMB : Z;
  MountPath : string;
}.

Record HeaderExtractor := mkHeaderExtractor { he_Name : string; he_Field : string }.
Record BodyExtractor := mkBodyExtractor { JSONPath : string; be_Field : string }.
Record JWTExtractor := mkJWTExtractor { Claim : string; je_Field : string }.

Definition IdentityExtractorTypeHeader : string := "Header".
Definition IdentityExtractorTypeBody : string := "Body".
Definition IdentityExtractorTypeJWT : string := "JWT".

Record IdentityExtractor := mkExtractor {
  ie_Type : string;
  ie_Header : option HeaderExtractor;
  ie_Body : option BodyExtractor;
  ie_JWT : option JWTExtractor;
}.

(** [AgentIdentity] of [types_shared.go]. *)
Record Identity := mkIdentity { Extractors : list IdentityExtractor }.

Record AgentDelivery := mkAgentDelivery { ad_Mode : string }.

Record TaskAgentSpec := mkTaskAgentSpec {
  ta_Sandbox : AgentSandbox;          (* Template.Spec.AgentSandbox *)
  ta_WorkerPoolRef : string;
  ta_Timeout : option Z;
  ta_MaxConcurrent : option Z;
  ta_WarmPoolSize : option Z;
  ta_WarmPoolIdleTTL : option Z;
  ta_Schedule : option string;
  ta_EgressRefs : list AgentEgressRef;
  ta_Identity : option Identity;
  ta_State : option AgentState;
  ta_Delivery : option AgentDelivery;
  ta_rest : string;                   (* Resources, ScheduleInput, Streaming *)
}.

Record TaskAgent := mkTaskAgent { ta_Meta : ObjectMeta; ta_Spec : TaskAgentSpec }.

Definition RestartPolicyAlways : string := "Always".
Definition RestartPolicyOnFailure : string := "OnFailure".
Definition RestartPolicyNever : string := "Never".

Record DaemonAgentSpec := mkDaemonAgentSpec {
  da_Sandbox : AgentSandbox;
  da_WorkerPoolRef : string;
  da_RestartPolicy : string;
  da_MaxRestarts : option Z;
  da_MaxLifetimeSeconds : option Z;
  da_EgressRefs : list AgentEgressRef;
  da_rest : string;
}.

Record DaemonAgent := mkDaemonAgent { da_Meta : ObjectMeta; da_Spec : DaemonAgentSpec }.

(** ** Worker pools ([types_workerpool.go], [workerpool_invariants.go]) *)

(** The name of a [corev1.Volume]; name and path of a [corev1.VolumeMount]. *)
Record Volume := mkVolume { vol_Name : string; vol_rest : string }.
Record VolumeMount := mkVolumeMount { vm_Name : string; vm_MountPath : string; vm_rest : string }.

Record WorkerPodTemplate := mkPodTemplate {
  pt_Image : string;
  ImagePullPolicy : string;
  ServiceAccountName : string;
  ExtraVolumes : list Volume;
  ExtraVolumeMounts : list VolumeMount;
  pt_rest : string;
}.

Record WorkerPoolSpec := mkWorkerPoolSpec {
  Replicas : option Z;
  Template : WorkerPodTemplate;
  MaxExecutionsPerWorker : option Z;
  WarmPool : option Z;
  wp_rest : string;
}.

Record WorkerPool := mkWorkerPool { wp_Meta : ObjectMeta; wp_Spec : WorkerPoolSpec }.

Definition WorkerServiceAccountName : string := "clrk-worker".

Record WorkerReservedVolume := mkReserved { rv_Name : string; rv_MountPath : string }.

Definition WorkerReservedVolumes : list WorkerReservedVolume :=
  [ mkReserved "state" "/var/lib/clrk/state";
    mkReserved "run" "/run/clrk";
    mkReserved "varlog" "/var/log/clrk" ].

(** ** Backends ([types_backend.go]) *)

Definition BackendTypeUpstream : string := "Upstream".
Definition BackendTypeInferencePool : string := "InferencePool".

Record BackendUpstream := mkUpstream { Host : string; Port : Z }.
Record ModelRewrite := mkRewrite { From : string; To : string }.
Record BackendBodyMutation := mkBodyMutation { EnsureStreamUsage : option bool }.

Record BackendSpec := mkBackendSpec {
  be_Type : string;
  be_SchemaName : string;                     (* Schema.Name *)
  be_Upstream : option BackendUpstream;
  be_InferencePoolRef : option LocalObjectReference;
  be_ModelRewrites : list ModelRewrite;
  be_BodyMutation : option BackendBodyMutation;
}.

Record Backend := mkBackend { be_Meta : ObjectMeta; be_Spec : BackendSpec }.

(** ** AIProviderRoute ([types_aiproviderroute.go]) *)

Definition AIProviderFilterTokenBudget : string := "TokenBudget".
Definition AIProviderFilterExtensionRef : string := "ExtensionRef".

Record TokenBudgetFilter := mkTokenBudget {
  MaxTokensPerExecution : option Z;
  MaxTokensPerDay : option Z;
  MaxOutputTokensPerRequest : option Z;
  BudgetRef : option string;
}.

Record AIProviderRouteFilter := mkAPRFilter {
  af_Type : string;
  af_TokenBudget : option TokenBudgetFilter;
  af_ExtensionRef : option LocalObjectReference;
}.

Record AIProviderRouteMatch := mkAPRMatch {
  Provider : string;
  Models : list string;
  Endpoints : list string;
}.

Record AIProviderRouteRule := mkAPRRule {
  ar_Matches : list AIProviderRouteMatch;
  ar_Filters : list AIProviderRouteFilter;
  ar_BackendRefs : list BackendRef;
}.

Record AIProviderRouteSpec := mkAPRSpec {
  apr_ParentRefs : list ParentReference;
  apr_Rules : list AIProviderRouteRule;
}.

Record AIProviderRoute := mkAPR { apr_Meta : ObjectMeta; apr_Spec : AIProviderRouteSpec }.

(** ** MCPRoute ([types_mcproute.go]) *)

Definition MCPFilterToolPolicy : string := "ToolPolicy".
Definition MCPFilterExtensionRef : string := "ExtensionRef".

Record ToolRateLimit := mkToolRateLimit {
  rl_Tools : list string;
  rl_ToolsRegex : list string;
  rl_Requests : Z;
  rl_Window : string;
  rl_Scope : string;
}.

Record ToolPolicyFilter := mkToolPolicy {
  AllowedTools : list string;
  AllowedToolsRegex : list string;
  DeniedTools : list string;
  DeniedToolsRegex : list string;
  RequireConfirmation : list string;
  MaxCallsPerExecution : option Z;
  RateLimits : list ToolRateLimit;
}.

Record MCPRouteFilter := mkMCPFilter {
  mf_Type : string;
  mf_ToolPolicy : option ToolPolicyFilter;
  mf_ExtensionRef : option LocalObjectReference;
}.

Record MCPRouteMatch := mkMCPMatch {
  Servers : list string;
  Tools : list string;
  ToolsRegex : list string;
  Resources : list string;
  Methods : list string;
}.

Record MCPRouteRule := mkMCPRule {
  mr_Matches : list MCPRouteMatch;
  mr_Filters : list MCPRouteFilter;
  mr_BackendRefs : list BackendRef;
}.

Record MCPRouteSpec := mkMCPSpec {
  mcp_ParentRefs : list ParentReference;
  mcp_Hostnames : list string;
  mcp_Rules : list MCPRouteRule;
}.

Record MCPRoute := mkMCPRoute { mcp_Meta : ObjectMeta; mcp_Spec : MCPRouteSpec }.

(** ** Policies ([types_egresspolicies.go]) *)

Definition CredentialTargetHeader : string := "Header".
Definition CredentialTargetQueryParam : string := "QueryParam".
Definition CredentialTargetProviderAuth : string := "ProviderAuth".
Definition ProviderAuthTypeAWSv4 : string := "AWSv4".

Record ProviderAuthConfig := mkProviderAuth {
  pa_Type : string;
  pa_Region : option string;
  pa_Service : option string;
}.

Record CredentialInjectionSpec := mkCIPSpec {
  cip_TargetRefs : list PolicyTargetRef;
  cip_SecretName : string;                    (* SecretRef.Name *)
  cip_SecretNamespace : option string;        (* SecretRef.Namespace *)
  cip_SecretKey : string;
  cip_Target : string;
  cip_HeaderName : option string;
  cip_QueryParamName : option string;
  cip_ProviderAuth : option ProviderAuthConfig;
}.

Record CredentialInjectionPolicy := mkCIP {
  cip_Meta : ObjectMeta;
  cip_Spec : CredentialInjectionSpec;
}.

Record FallbackRetry := mkRetry {
  NumRetries : option Z;
  RetriableStatusCodes : list Z;
  PerTryTimeout : option Z;
}.

Record FallbackEjection := mkEjection { MaxEjectionTime : option Z }.

Record FallbackRoutingPolicySpec := mkFRPSpec {
  frp_TargetRefs : list PolicyTargetRef;
  Retry : option FallbackRetry;
  Ejection : option FallbackEjection;
}.

Record FallbackRoutingPolicy := mkFRP {
  frp_Meta : ObjectMeta;
  frp_Spec : FallbackRoutingPolicySpec;
}.

Definition RateLimitScopePerAgent : string := "PerAgent".
Definition RateLimitScopePerExecution : string := "PerExecution".
Definition RateLimitScopePerRoute : string := "PerRoute".

Record RateLimitSpec := mkRateLimitSpec { rlp_Requests : Z; rlp_Window : string; rlp_Scope : string }.
Record RateLimitPolicy := mkRateLimitPolicy { rlp_Meta : ObjectMeta; rlp_Spec : RateLimitSpec }.

Record DenyResponseConfig := mkDenyResponse { StatusCode : Z; Message : option string }.
Record EgressDenyPolicySpec := mkEDPSpec {
  edp_TargetRefs : list PolicyTargetRef;
  DenyResponse : option DenyResponseConfig;
}.
Record EgressDenyPolicy := mkEDP { edp_Meta : ObjectMeta; edp_Spec : EgressDenyPolicySpec }.

(** ** EgressL4Route filters ([types_egressl4route.go]) *)

Definition L4FilterExtensionRef : string := "ExtensionRef".
Record L4RouteFilter := mkL4Filter { l4f_Type : string; l4f_ExtensionRef : option LocalObjectReference }.

(** The spec as the admission hook sees it: the filters of each rule, and the
    rest, which it does not read. *)
Record L4RouteSpec := mkL4Spec { l4_RuleFilters : list (list L4RouteFilter); l4_rest : string }.
Record L4Route := mkL4Route { l4_Meta : ObjectMeta; l4_Spec : L4RouteSpec }.

(** ** EgressGateway ([types_egressgateway.go]) *)

Definition EgressDNSLookupV4Preferred : string := "V4Preferred".
Record EgressDNSSpec := mkDNS { LookupFamily : string }.
Record BodyCaptureSpec := mkBodyCapture { MaxBytes : option Z; IncludeContentTypes : list string }.
Record OTLPLogsSinkSpec := mkOTLP {
  Endpoint : string;
  Headers : list (string * string);
  CaptureBody : option BodyCaptureSpec;
}.
Record EgressGatewaySpec := mkEGSpec {
  eg_DefaultPolicy : string;
  eg_OTLP : option OTLPLogsSinkSpec;
  eg_DNS : option EgressDNSSpec;
  eg_RequestTimeout : option Z;
  eg_rest : string;
}.
Record Gateway := mkGatewayObj { eg_Meta : ObjectMeta; eg_Spec : EgressGatewaySpec }.

(** ** CLRKConfig ([types_clrkconfig.go]) *)

Definition CLRKConfigSingletonName : string := "default".
Record NotificationsConfig := mkNotifications {
  Email : string;
  SignedUpAt : option Z;
  AdvisoryPollEnabled : option bool;
  EventRetention : option Z;
}.
Record CLRKConfigSpec := mkConfigSpec { Notifications : NotificationsConfig }.
Record CLRKConfig := mkConfig { cfg_Meta : ObjectMeta; cfg_Spec : CLRKConfigSpec }.

(** ** Decidable equality of the specs the update validators compare *)

#[export] Instance Volume_eq_dec : EqDecision Volume.
Proof. solve_decision. Defined.
#[export] Instance VolumeMount_eq_dec : EqDecision VolumeMount.
Proof. solve_decision. Defined.
#[export] Instance WorkerPodTemplate_eq_dec : EqDecision WorkerPodTemplate.
Proof. solve_decision. Defined.
#[export] Instance WorkerPoolSpec_eq_dec : EqDecision WorkerPoolSpec.
Proof. solve_decision. Defined.
#[export] Instance BackendUpstream_eq_dec : EqDecision BackendUpstream.
Proof. solve_decision. Defined.
#[export] Instance ModelRewrite_eq_dec : EqDecision ModelRewrite.
Proof. solve_decision. Defined.
#[export] Instance BackendBodyMutation_eq_dec : EqDecision BackendBodyMutation.
Proof. solve_decision. Defined.
#[export] Instance BackendSpec_eq_dec : EqDecision BackendSpec.
Proof. solve_decision. Defined.
#[export] Instance TokenBudgetFilter_eq_dec : EqDecision TokenBudgetFilter.
Proof. solve_decision. Defined.
#[export] Instance AIProviderRouteFilter_eq_dec : EqDecision AIProviderRouteFilter.
Proof. solve_decision. Defined.
#[export] Instance AIProviderRouteMatch_eq_dec : EqDecision AIProviderRouteMatch.
Proof. solve_decision. Defined.
#[export] Instance AIProviderRouteRule_eq_dec : EqDecision AIProviderRouteRule.
Proof. solve_decision. Defined.
#[export] Instance AIProviderRouteSpec_eq_dec : EqDecision AIProviderRouteSpec.
Proof. solve_decision. Defined.
#[export] Instance ToolRateLimit_eq_dec : EqDecision ToolRateLimit.
Proof. solve_decision. Defined.
#[export] Instance ToolPolicyFilter_eq_dec : EqDecision ToolPolicyFilter.
Proof. solve_decision. Defined.
#[export] Instance MCPRouteFilter_eq_dec : EqDecision MCPRouteFilter.
Proof. solve_decision. Defined.
#[export] Instance MCPRouteMatch_eq_dec : EqDecision MCPRouteMatch.
Proof. solve_decision. Defined.
#[export] Instance MCPRouteRule_eq_dec : EqDecision MCPRouteRule.
Proof. solve_decision. Defined.
#[export] Instance MCPRouteSpec_eq_dec : EqDecision MCPRouteSpec.
Proof. solve_decision. Defined.
#[export] Instance ProviderAuthConfig_eq_dec : EqDecision ProviderAuthConfig.
Proof. solve_decision. Defined.
#[export] Instance CredentialInjectionSpec_eq_dec : EqDecision CredentialInjectionSpec.
Proof. solve_decision. Defined.
#[export] Instance FallbackRetry_eq_dec : EqDecision FallbackRetry.
Proof. solve_decision. Defined.
#[export] Instance FallbackEjection_eq_dec : EqDecision FallbackEjection.
Proof. solve_decision. Defined.
#[export] Instance FallbackRoutingPolicySpec_eq_dec : EqDecision FallbackRoutingPolicySpec.
Proof. solve_decision. Defined.
#[export] Instance RateLimitSpec_eq_dec : EqDecision RateLimitSpec.
Proof. solve_decision. Defined.
#[export] Instance DenyResponseConfig_eq_dec : EqDecision DenyResponseConfig.
Proof. solve_decision. Defined.
#[export] Instance EgressDenyPolicySpec_eq_dec : EqDecision EgressDenyPolicySpec.
Proof. solve_decision. Defined.
#[export] Instance L4RouteFilter_eq_dec : EqDecision L4RouteFilter.
Proof. solve_decision. Defined.
#[export] Instance L4RouteSpec_eq_dec : EqDecision L4RouteSpec.
Proof. solve_decision. Defined.

End ApiTypes.
