(* ===== verification/Registry.v ===== *)
(** * The provider registry

    [src/internal/extproc/llmcall/registry.go] and the registrations of the
    built-in providers ([llmcall/providers/*/provider.go]): the table that
    resolves a host, a canonical name or an alias to a wire schema.  Route
    matching, backend resolution and admission all resolve names through it.

    A provider is modelled by the fields the lookups read; its telemetry
    parser, codec and stream codec are represented by whether they are set. *)

From Stdlib Require Import ZArith Lia Ascii String List.
From stdpp Require Import base strings list gmap sorting.
From S2P Require Import Prelude GoStrings.
Import GoStrings.

Module Registry.

(** ** Data *)

Record Capabilities := mkCaps {
  Operations : list string;
  cap_Tools : bool;
  ParallelToolCalls : bool;
  ImageInput : bool;
  AudioInput : bool;
  FileInput : bool;
  cap_Reasoning : bool;
  StructuredOutput : bool;
  Streaming : bool;
  SystemRole : bool;
}.

Record Provider := mkProvider {
  p_Name : string;
  p_Aliases : list string;
  p_Hosts : list string;
  p_MatchHost : option (string -> bool);
  p_Telemetry : bool;
  p_Codec : bool;
  p_Capabilities : Capabilities;
  p_StreamCodec : bool;
  p_AuthHeaders : list string;
}.

(** [StreamsTranslatable]; a nil receiver is [None]. *)
Definition StreamsTranslatable (p : option Provider) : bool :=
  match p with
  | Some p => p_StreamCodec p && Streaming (p_Capabilities p)
  | None => false
  end.

(** The package variables [providersByName], [aliasToName], [hostOrder]. *)
Record registry := mkRegistry {
  providersByName : gmap string Provider;
  aliasToName : gmap string string;
  hostOrder : list Provider;
}.

(** [pendingAliases] is empty, so [init] leaves the alias table empty. *)
Definition emptyRegistry : registry := mkRegistry ∅ ∅ [].

(** ** Registration *)

Inductive RegisterPanic := EmptyName | DuplicateName | AliasTaken | HostNotLower | HostServed.

Definition serves (host : string) (p : Provider) : bool :=
  match p_MatchHost p with
  | Some f => f host
  | None => existsb (fun h => String.eqb h host) (p_Hosts p)
  end.

Definition byHost (r : registry) (host : string) : option Provider :=
  List.find (serves host) (hostOrder r).

(** The loop over [p.Hosts]: the first host that is not lower case or already
    served panics. *)
Fixpoint checkHosts (r : registry) (hs : list string) : outcome RegisterPanic unit :=
  match hs with
  | [] => Ok tt
  | h :: hs' =>
      guard (negb (String.eqb h (ToLower h))) HostNotLower
        (match byHost r h with
         | Some _ => Err HostServed
         | None => checkHosts r hs'
         end)
  end.

Definition aliasConflict (r : registry) (name a : string) : bool :=
  match aliasToName r !! a with
  | Some owner => negb (String.eqb owner name)
  | None => false
  end.

Definition Register (r : registry) (p : Provider) : outcome RegisterPanic registry :=
  guard (String.eqb (p_Name p) "") EmptyName
    (guard (bool_decide (is_Some (providersByName r !! p_Name p))) DuplicateName
      (guard (existsb (aliasConflict r (p_Name p)) (p_Aliases p)) AliasTaken
        (let! _ := checkHosts r (p_Hosts p) in
         Ok (mkRegistry (<[p_Name p := p]> (providersByName r))
               (fold_left (fun m a => <[a := p_Name p]> m) (p_Aliases p) (aliasToName r))
               (hostOrder r ++ [p]))))).

(** The [init] functions of the provider packages, in order. *)
Fixpoint registerAll (r : registry) (ps : list Provider) : outcome RegisterPanic registry :=
  match ps with
  | [] => Ok r
  | p :: ps' => let! r' := Register r p in registerAll r' ps'
  end.

(** ** Lookups *)

Definition ByHost (r : registry) (host : string) : option Provider :=
  if String.eqb host "" then None else byHost r (ToLower host).

Definition ByName (r : registry) (system : string) : option Provider :=
  if String.eqb system "" then None else providersByName r !! system.

Definition Canonical (r : registry) (name : string) : string :=
  match aliasToName r !! name with Some c => c | None => name end.

Definition KnownName (r : registry) (name : string) : bool :=
  if String.eqb name "" then false
  else bool_decide (is_Some (aliasToName r !! name))
       || bool_decide (is_Some (providersByName r !! name)).

(** [slices.Sorted(maps.Keys(seen))]. *)
Definition KnownNames (r : registry) : list string :=
  merge_sort String.le
    (elements (dom (providersByName r) ∪ dom (aliasToName r) : gset string)).

(** [parsers.SystemFor]. *)
Definition SystemFor (r : registry) (host : string) : string :=
  match ByHost r host with Some p => p_Name p | None => "" end.

(** The loop of [AuthHeaderUnion] over the providers, in the order the map
    yields them; [seen] is the set of headers already in [out]. *)
Definition addHeader (out : list string) (h : string) : list string :=
  let h := ToLower h in
  if String.eqb h "" || bool_decide (h ∈ out) then out else out ++ [h].

Definition authHeadersOf (ps : list Provider) : list string :=
  merge_sort String.le (fold_left addHeader (flat_map p_AuthHeaders ps) []).

Definition AuthHeaderUnion (r : registry) : list string :=
  authHeadersOf (map snd (map_to_list (providersByName r))).

(** ** The built-in providers *)

Definition anthropic : Provider :=
  mkProvider "anthropic" [] ["api.anthropic.com"] None true true
    (mkCaps ["chat"; "text_completion"] true true true false false true false true true)
    true ["x-api-key"; "authorization"].

Definition openai : Provider :=
  mkProvider "openai" [] ["api.openai.com"] None true true
    (mkCaps ["chat"; "text_completion"; "embeddings"] true true true false false false true true true)
    true ["authorization"].

Definition google : Provider :=
  mkProvider "google_genai" ["google"] ["generativelanguage.googleapis.com"] None true true
    (mkCaps ["chat"; "embeddings"] true true true true true true true true true)
    true ["x-goog-api-key"; "authorization"].

Definition azureopenai : Provider :=
  mkProvider "azure_openai" ["azure-openai"] []
    (Some (fun host => HasSuffix host ".openai.azure.com")) true true
    (mkCaps ["chat"] true true true false false false true true true)
    true ["api-key"; "authorization"].

Definition label (ls : list string) (i : nat) : string := nth i ls "".

Definition matchBedrockHost (host : string) : bool :=
  let labels := Split "." host in
  let n := length labels in
  if (n <? 4)%nat || negb (String.eqb (label labels (n - 1)) "com")
     || negb (String.eqb (label labels (n - 2)) "amazonaws") then false
  else if (n =? 4)%nat && (String.eqb (label labels 0) "bedrock-runtime"
                           || String.eqb (label labels 0) "bedrock-runtime-fips") then true
  else if (n =? 6)%nat && String.eqb (label labels 1) "bedrock-runtime"
          && String.eqb (label labels 3) "vpce" && negb (String.eqb (label labels 0) "") then true
  else false.

Definition bedrock : Provider :=
  mkProvider "aws_bedrock" ["bedrock"] [] (Some matchBedrockHost) true true
    (mkCaps ["chat"] true true true false true true false false true)
    false ["authorization"; "x-amz-security-token"; "x-amz-date"; "x-amz-content-sha256"].

(** [providers/all]: the packages in the order Go initialises them (import
    path order, dependencies first; [azureopenai] and [google] import
    [openai]). *)
Definition builtinProviders : list Provider :=
  [anthropic; bedrock; openai; azureopenai; google].

(** ** The registry invariant *)

Record wf (r : registry) : Prop := {
  wf_named : forall n p, providersByName r !! n = Some p -> p_Name p = n /\ In p (hostOrder r);
  wf_listed : forall p, In p (hostOrder r) -> p_Name p <> "" /\ providersByName r !! p_Name p = Some p;
  wf_alias_owner : forall a n, aliasToName r !! a = Some n ->
    exists p, In p (hostOrder r) /\ p_Name p = n /\ In a (p_Aliases p);
  wf_alias : forall p a, In p (hostOrder r) -> In a (p_Aliases p) ->
    aliasToName r !! a = Some (p_Name p);
  wf_host : forall p h, In p (hostOrder r) -> p_MatchHost p = None -> In h (p_Hosts p) ->
    byHost r h = Some p;
}.

Lemma wf_empty : wf emptyRegistry.
Proof. split; cbn; try done; intros ? ? H; by rewrite lookup_empty in H. Qed.

Lemma claim_aliases_lookup n (aliases : list string) : forall m a,
  fold_left (fun m a => <[a := n]> m) aliases m !! a
  = if bool_decide (a ∈ aliases) then Some n else (m : gmap string string) !! a.
Proof.
  induction aliases as [|b l IH]; intros m a; cbn [fold_left].
  { by rewrite bool_decide_eq_false_2 by (by apply not_elem_of_nil). }
  rewrite IH. destruct (decide (a ∈ l)) as [Hin|Hin].
  { rewrite !bool_decide_eq_true_2; [done|by apply elem_of_cons; right|done]. }
  rewrite (bool_decide_eq_false_2 (a ∈ l)) by done.
  destruct (decide (a = b)) as [->|Hne].
  - rewrite lookup_insert_eq, bool_decide_eq_true_2; [done|by apply elem_of_cons; left].
  - rewrite lookup_insert_ne by congruence. rewrite bool_decide_eq_false_2; [done|].
    by intros [|]%elem_of_cons.
Qed.

Lemma checkHosts_ok r hs :
  checkHosts r hs = Ok tt -> Forall (fun h => ToLower h = h /\ byHost r h = None) hs.
Proof.
  induction hs as [|h hs IH]; cbn [checkHosts]; [constructor|].
  intros [Hl H]%guard_Ok_inv. destruct (byHost r h) eqn:E; [done|].
  bool_to_prop. constructor; [done|]. by apply IH.
Qed.

Lemma find_app {A} (f : A -> bool) l x :
  List.find f (l ++ [x]) =
    match List.find f l with Some y => Some y | None => if f x then Some x else None end.
Proof. induction l as [|y l IH]; cbn; [done|]. by destruct (f y). Qed.

(** What a successful registration changes. *)
Lemma Register_ok r p r' :
  Register r p = Ok r' ->
  p_Name p <> "" /\ providersByName r !! p_Name p = None
  /\ Forall (fun a => aliasToName r !! a = None \/ aliasToName r !! a = Some (p_Name p)) (p_Aliases p)
  /\ Forall (fun h => ToLower h = h /\ byHost r h = None) (p_Hosts p)
  /\ r' = mkRegistry (<[p_Name p := p]> (providersByName r))
            (fold_left (fun m a => <[a := p_Name p]> m) (p_Aliases p) (aliasToName r))
            (hostOrder r ++ [p]).
Proof.
  unfold Register. intros [H1 [H2 [H3 H]%guard_Ok_inv]%guard_Ok_inv]%guard_Ok_inv.
  apply obind_Ok_inv in H as ([] & Hh & <-%Ok_inj). bool_to_prop.
  split; [done|]. split; [by apply eq_None_not_Some|].
  split; [|by split; [apply checkHosts_ok|]].
  apply Forall_forall. intros a Ha%list_elem_of_In.
  assert (aliasConflict r (p_Name p) a = false) as Hc.
  { destruct (aliasConflict r (p_Name p) a) eqn:E; [|done].
    rewrite <- H3. symmetry. apply existsb_exists. eauto. }
  unfold aliasConflict in Hc. destruct (aliasToName r !! a) as [o|]; [right|by left].
  bool_to_prop. by subst.
Qed.

Lemma Register_wf r p r' : wf r -> Register r p = Ok r' -> wf r'.
Proof.
  intros W (Hne & Hfresh & Hal & Hh & ->)%Register_ok.
  assert (Hnew : forall q, In q (hostOrder r) -> p_Name q <> p_Name p).
  { intros q Hq E. apply (wf_listed _ W) in Hq as [_ Hq]. congruence. }
  split; cbn [providersByName aliasToName hostOrder].
  - intros n q [[<- <-]|[Hne' Hq]]%lookup_insert_Some; [split; [done|apply in_or_app; right; by left]|].
    apply (wf_named _ W) in Hq as [? ?]. split; [done|]. apply in_or_app. by left.
  - intros q [Hq|[<-|[]]]%in_app_or.
    + rewrite lookup_insert_ne by (intros E; by apply (Hnew q)). by apply (wf_listed _ W).
    + by rewrite lookup_insert_eq.
  - intros a n. rewrite claim_aliases_lookup. case_bool_decide as Ha.
    + intros [= <-]. exists p. split; [apply in_or_app; right; by left|].
      split; [done|]. by apply list_elem_of_In.
    + intros (q & Hq & ? & ?)%(wf_alias_owner _ W). exists q. split; [|done]. apply in_or_app. by left.
  - intros q a [Hq|[<-|[]]]%in_app_or Ha; rewrite claim_aliases_lookup.
    + pose proof (wf_alias _ W q a Hq Ha) as E. case_bool_decide as Hin; [|done].
      rewrite Forall_forall in Hal. destruct (Hal a Hin) as [E'|E']; congruence.
    + by rewrite bool_decide_eq_true_2 by (by apply list_elem_of_In).
  - unfold byHost. cbn [hostOrder]. intros q h [Hq|[<-|[]]]%in_app_or Hm Hin; rewrite find_app.
    + pose proof (wf_host _ W q h Hq Hm Hin) as E. unfold byHost in E. by rewrite E.
    + rewrite Forall_forall in Hh. apply list_elem_of_In in Hin as Hin'. destruct (Hh h Hin') as [_ E].
      unfold byHost in E. rewrite E. unfold serves. rewrite Hm.
      assert (existsb (fun h' => String.eqb h' h) (p_Hosts p) = true) as ->; [|done].
      apply existsb_exists. exists h. split; [done|apply String.eqb_refl].
Qed.

Lemma registerAll_ok ps : forall r r',
  wf r -> registerAll r ps = Ok r' -> wf r' /\ hostOrder r' = hostOrder r ++ ps.
Proof.
  induction ps as [|p ps IH]; intros r r' W; cbn [registerAll].
  { intros <-%Ok_inj. by rewrite app_nil_r. }
  intros (r1 & H1 & H)%obind_Ok_inv.
  destruct (IH r1 r' (Register_wf _ _ _ W H1) H) as [W' ->]. split; [done|].
  apply Register_ok in H1 as (_ & _ & _ & _ & ->). cbn [hostOrder]. by rewrite <- app_assoc.
Qed.

(** ** Name lookups *)

Lemma KnownName_spec r n :
  wf r -> KnownName r n = true
  <-> n <> "" /\ exists p, In p (hostOrder r) /\ (p_Name p = n \/ In n (p_Aliases p)).
Proof.
  intros W. unfold KnownName. destruct (String.eqb n "") eqn:E; bool_to_prop.
  { subst. split; [done|]. by intros [? _]. }
  rewrite orb_true_iff, !bool_decide_eq_true. split.
  - intros [[m Hm]|[p Hp]]; split; try done.
    + apply (wf_alias_owner _ W) in Hm as (p & Hp & _ & Ha). exists p. auto.
    + apply (wf_named _ W) in Hp as [Hn Hp]. exists p. auto.
  - intros [_ (p & Hp & [<-|Ha])].
    + right. apply (wf_listed _ W) in Hp as [_ Hp]. eauto.
    + left. rewrite (wf_alias _ W p n Hp Ha). eauto.
Qed.

(** The registry answers every lookup with the provider that claimed the
    name.  After any sequence of successful registrations, each registered
    provider is found under its canonical name, under the canonical form of each
    of its aliases, and, if it lists its hosts, under each of them in any letter
    case; and the names admission recognises are the names and aliases of the
    registered providers, no others. *)
Theorem registry_lookups (ps : list Provider) (r : registry) :
  registerAll emptyRegistry ps = Ok r ->
  (forall p, In p ps ->
     ByName r (p_Name p) = Some p
     /\ (forall a, In a (p_Aliases p) -> ByName r (Canonical r a) = Some p)
     /\ (p_MatchHost p = None -> forall host, host <> "" -> In (ToLower host) (p_Hosts p) ->
         ByHost r host = Some p))
  /\ (forall n, KnownName r n = true
        <-> n <> "" /\ exists p, In p ps /\ (p_Name p = n \/ In n (p_Aliases p))).
Proof.
  intros H. apply registerAll_ok in H as [W E]; [|apply wf_empty].
  cbn in E. split; [|intros n; rewrite KnownName_spec by done; by rewrite E].
  intros p Hp. rewrite <- E in Hp. pose proof (wf_listed _ W p Hp) as [Hne Hl].
  apply String.eqb_neq in Hne. split; [|split].
  - unfold ByName. by rewrite Hne.
  - intros a Ha. unfold ByName, Canonical. rewrite (wf_alias _ W p a Hp Ha). by rewrite Hne.
  - intros Hm host Hh Hin. unfold ByHost. apply String.eqb_neq in Hh as ->.
    by apply (wf_host _ W).
Qed.

(** ** Authentication headers *)

Lemma addHeader_fold hs : forall out,
  NoDup out ->
  NoDup (fold_left addHeader hs out)
  /\ forall x, x ∈ fold_left addHeader hs out
       <-> x ∈ out \/ (x <> "" /\ exists h, In h hs /\ ToLower h = x).
Proof.
  induction hs as [|h hs IH]; intros out Hd; cbn [fold_left].
  { split; [done|]. intros x. split; [by left|]. by intros [|(_ & ? & [] & _)]. }
  assert (Hd' : NoDup (addHeader out h)).
  { unfold addHeader. destruct (String.eqb _ _ || bool_decide _)%bool eqn:E; [done|].
    bool_to_prop. apply NoDup_app. split; [done|]. split; [|apply NoDup_singleton].
    intros y Hy ->%list_elem_of_singleton. done. }
  destruct (IH _ Hd') as [H1 H2]. split; [done|]. intros x. rewrite H2.
  assert (x ∈ addHeader out h <-> x ∈ out \/ (x <> "" /\ ToLower h = x)) as ->.
  { unfold addHeader. destruct (String.eqb _ _ || bool_decide _)%bool eqn:E.
    - split; [by left|]. intros [|[Hne <-]]; [done|].
      apply orb_true_iff in E as [E|E]; bool_to_prop; done.
    - bool_to_prop. rewrite elem_of_app, list_elem_of_singleton. split; [intros [| ->]; auto|].
      intros [|[_ <-]]; auto. }
  split.
  - intros [[|[? <-]]|(? & h' & ? & <-)]; [by left|right|right]; split; try done; eexists; split; try done; [by left|by right].
  - intros [|(Hne & h' & [<-|Hin] & <-)]; [by left; left|by left; right|right]. eauto.
Qed.

Lemma authHeadersOf_spec ps :
  StronglySorted String.le (authHeadersOf ps) /\ NoDup (authHeadersOf ps)
  /\ forall x, x ∈ authHeadersOf ps
       <-> x <> "" /\ exists p h, In p ps /\ In h (p_AuthHeaders p) /\ ToLower h = x.
Proof.
  unfold authHeadersOf.
  destruct (addHeader_fold (flat_map p_AuthHeaders ps) [] (NoDup_nil_2)) as [H1 H2].
  split; [apply StronglySorted_merge_sort; apply _|].
  split; [by rewrite merge_sort_Permutation|]. intros x. rewrite merge_sort_Permutation, H2.
  split.
  - intros [[]%elem_of_nil|(Hne & h & Hh & <-)]. split; [done|].
    apply in_flat_map in Hh as (p & Hp & Hh). eauto.
  - intros (Hne & p & h & Hp & Hh & <-). right. split; [done|]. exists h. split; [|done].
    apply in_flat_map. eauto.
Qed.

(** [AuthHeaderUnion] is complete and does not depend on the order in which
    Go iterates over the provider map.  For any registry built by successful
    registrations it lists, sorted and without repetition, exactly the non-empty
    lower-cased credential headers of all the registered providers, and any
    other iteration order of the providers yields the same list. *)
Theorem AuthHeaderUnion_deterministic (ps : list Provider) (r : registry) :
  registerAll emptyRegistry ps = Ok r ->
  NoDup (AuthHeaderUnion r)
  /\ (forall x, x ∈ AuthHeaderUnion r
        <-> x <> "" /\ exists p h, In p ps /\ In h (p_AuthHeaders p) /\ ToLower h = x)
  /\ (forall order, order ≡ₚ map snd (map_to_list (providersByName r)) ->
        authHeadersOf order = AuthHeaderUnion r).
Proof.
  intros H. apply registerAll_ok in H as [W E]; [|apply wf_empty]. cbn in E.
  assert (Hin : forall p, In p (map snd (map_to_list (providersByName r))) <-> In p ps).
  { intros p. rewrite <- E, in_map_iff. split.
    - intros ((n & q) & <- & Hq). apply list_elem_of_In, elem_of_map_to_list in Hq.
      by apply (wf_named _ W) in Hq as [_ Hq].
    - intros [_ Hp]%(wf_listed _ W). exists (p_Name p, p). split; [done|].
      by apply list_elem_of_In, elem_of_map_to_list. }
  unfold AuthHeaderUnion.
  destruct (authHeadersOf_spec (map snd (map_to_list (providersByName r)))) as (Hs & Hd & He).
  split; [done|]. split; [intros x; rewrite He; by setoid_rewrite Hin|].
  intros order Ho. destruct (authHeadersOf_spec order) as (Hs' & Hd' & He').
  apply (StronglySorted_unique String.le); [done|done|].
  apply NoDup_Permutation; [done|done|]. intros x. rewrite He, He'.
  setoid_rewrite <- list_elem_of_In. by setoid_rewrite Ho.
Qed.

(** ** The built-in registry *)

Definition builtinRegistry : registry :=
  match registerAll emptyRegistry builtinProviders with Ok r => r | _ => emptyRegistry end.

Lemma builtin_registers : registerAll emptyRegistry builtinProviders = Ok builtinRegistry.
Proof. vm_compute. reflexivity. Qed.

Lemma builtin_wf : wf builtinRegistry.
Proof. apply (registerAll_ok builtinProviders emptyRegistry); [apply wf_empty|apply builtin_registers]. Qed.

Lemma registry_lookups_witness :
  ByHost builtinRegistry "API.OpenAI.com" = Some openai
  /\ ByName builtinRegistry (Canonical builtinRegistry "google") = Some google.
Proof.
  destruct (registry_lookups builtinProviders builtinRegistry builtin_registers) as [H _].
  split.
  - apply (H openai); [right; right; by left|done|done|by left].
  - apply (H google); [do 4 right; by left|by left].
Defined.

Lemma AuthHeaderUnion_deterministic_witness : "x-api-key" ∈ AuthHeaderUnion builtinRegistry.
Proof.
  destruct (AuthHeaderUnion_deterministic builtinProviders builtinRegistry builtin_registers)
    as (_ & H & _).
  apply H. split; [done|]. exists anthropic, "x-api-key".
  split; [by left|]. split; [by left|reflexivity].
Defined.

(** The labels of a host a suffix match accepts end in the suffix's labels. *)
Lemma azure_labels host :
  HasSuffix host ".openai.azure.com" = true ->
  exists ls, Split "." host = ls ++ ["openai"; "azure"; "com"].
Proof.
  intros [t ->]%HasSuffix_spec. exists (Split "." t).
  change ".openai.azure.com" with (String "." "openai.azure.com"). by rewrite Split_app.
Qed.

Lemma azure_not_bedrock host :
  HasSuffix host ".openai.azure.com" = true -> matchBedrockHost host = false.
Proof.
  intros [ls E]%azure_labels. unfold matchBedrockHost. rewrite E.
  rewrite length_app. cbn [length].
  replace (length ls + 3 - 2)%nat with (length ls + 1)%nat by lia. unfold label.
  rewrite !app_nth2_plus.
  destruct (_ <? 4)%nat; [done|]. cbn [orb].
  destruct (String.eqb (nth _ _ _) "com"); done.
Qed.

Lemma builtin_serves h p :
  In p builtinProviders -> serves h p = true ->
  (p = anthropic /\ h = "api.anthropic.com") \/ (p = openai /\ h = "api.openai.com")
  \/ (p = google /\ h = "generativelanguage.googleapis.com")
  \/ (p = azureopenai /\ HasSuffix h ".openai.azure.com" = true)
  \/ (p = bedrock /\ matchBedrockHost h = true).
Proof.
  intros [<-|[<-|[<-|[<-|[<-|[]]]]]] H; unfold serves in H;
    cbn [p_MatchHost p_Hosts existsb anthropic openai google azureopenai bedrock] in H;
    try (rewrite orb_false_r in H; apply String.eqb_eq in H); subst; tauto.
Qed.

Lemma builtin_exclusive h p q :
  In p builtinProviders -> In q builtinProviders ->
  serves h p = true -> serves h q = true -> p = q.
Proof.
  intros Hp Hq Sp%builtin_serves Sq%builtin_serves; [|done..].
  destruct Sp as [[-> ->]|[[-> ->]|[[-> ->]|[[-> Hh]|[-> Hh]]]]],
           Sq as [[-> E]|[[-> E]|[[-> E]|[[-> E]|[-> E]]]]];
    try done; try (subst; vm_compute in Hh; done).
  - by rewrite (azure_not_bedrock h Hh) in E.
  - by rewrite (azure_not_bedrock h E) in Hh.
Qed.

(** The built-in providers register without a panic and claim pairwise
    disjoint hosts, so which provider serves a host does not depend on the order
    in which the packages are initialised: whatever the host, at most one of the
    five accepts it, and [ByHost] returns that one, in any letter case. *)
Theorem builtin_hosts_disjoint :
  is_ok (registerAll emptyRegistry builtinProviders) = true
  /\ forall host p q, In p builtinProviders -> In q builtinProviders ->
       serves (ToLower host) p = true ->
       (serves (ToLower host) q = true <-> q = p)
       /\ (host <> "" -> ByHost builtinRegistry host = Some p).
Proof.
  split; [vm_compute; reflexivity|]. intros host p q Hp Hq Sp.
  split; [split; [intros Sq; by eapply builtin_exclusive|by intros ->]|].
  intros Hne. unfold ByHost, byHost. apply String.eqb_neq in Hne as ->.
  replace (hostOrder builtinRegistry) with builtinProviders
    by (symmetry; apply (registerAll_ok builtinProviders emptyRegistry);
        [apply wf_empty|apply builtin_registers]).
  destruct (List.find _ builtinProviders) as [q'|] eqn:E.
  - apply find_some in E as [Hq' Sq']. f_equal. by eapply builtin_exclusive.
  - by rewrite (find_none _ _ E p Hp) in Sp.
Qed.

Lemma builtin_hosts_disjoint_witness :
  ByHost builtinRegistry "Team.OpenAI.Azure.com" = Some azureopenai.
Proof.
  apply (proj2 (builtin_hosts_disjoint) "Team.OpenAI.Azure.com" azureopenai openai);
    [do 3 right; by left|do 2 right; by left|vm_compute; reflexivity|done].
Defined.

End Registry.
