(* ===== verification/Admission.v ===== *)
(** * Admission

    [src/api/clrk/v1alpha1/validation.go] and [defaults.go]: the [Validate],
    [ValidateUpdate] and [Default] hooks the aggregated apiserver runs on every
    write.  An error list is a list of structured field errors with their paths.

    The cron parser (a third-party package) and the regexp engine are parameters
    of the definitions that use them; the provider registry is the one of
    [Registry]. *)

From Stdlib Require Import ZArith Lia Ascii String List.
From stdpp Require Import base strings list gmap sets.
From S2P Require Import Prelude GoStrings GoPath ApiTypes Registry.
Import GoStrings GoPath ApiTypes.

Module Admission.

(** ** Field errors ([k8s.io/apimachinery/pkg/util/validation/field]) *)

Inductive path_elem := Key (name : string) | Idx (i : nat).
Abbreviation fpath := (list path_elem).

Definition Child (fp : fpath) (name : string) : fpath := fp ++ [Key name].
Definition Index (fp : fpath) (i : nat) : fpath := fp ++ [Idx i].

Inductive BadValue := VStr (s : string) | VInt (z : Z) | VDuration (ns : Z).

Inductive field_error :=
| Required (fp : fpath) (detail : string)
| Invalid (fp : fpath) (v : BadValue) (detail : string)
| NotSupported (fp : fpath) (v : string) (valid : list string)
| Forbidden (fp : fpath) (detail : string).
Abbreviation ErrorList := (list field_error).

(** [if cond { errs = append(errs, e) }]. *)
Definition when (bad : bool) (e : field_error) : ErrorList := if bad then [e] else [].

(** [for i, x := range l { errs = append(errs, f(i, x)...) }]. *)
Definition each {A} (f : nat -> A -> ErrorList) (l : list A) : ErrorList := concat (imap f l).

(** [%q] on a string without characters to escape. *)
Definition quote (s : string) : string := String "034" (String.append s (String "034" "")).

Definition spec : fpath := [Key "spec"].

Definition opt_bad {A} (bad : A -> bool) (o : option A) : bool :=
  match o with Some a => bad a | None => false end.

(** ** Images *)

Definition is_alnum (c : ascii) : bool :=
  let n := N_of_ascii c in
  ((65 <=? n)%N && (n <=? 90)%N) || ((97 <=? n)%N && (n <=? 122)%N)
  || ((48 <=? n)%N && (n <=? 57)%N).

Definition image_char (c : ascii) : bool :=
  is_alnum c || Ascii.eqb c "." || Ascii.eqb c "_" || Ascii.eqb c ":" || Ascii.eqb c "@"
  || Ascii.eqb c "/" || Ascii.eqb c "+" || Ascii.eqb c "-".

Fixpoint all_chars (f : ascii -> bool) (s : string) : bool :=
  match s with EmptyString => true | String c t => f c && all_chars f t end.

(** [^[A-Za-z0-9][A-Za-z0-9._:@/+-]*$]. *)
Definition imageRefRegexp (s : string) : bool :=
  match s with EmptyString => false | String c t => is_alnum c && all_chars image_char t end.

Definition is_blank (c : ascii) : bool :=
  Ascii.eqb c " " || Ascii.eqb c "009" || Ascii.eqb c "010" || Ascii.eqb c "013".

Definition validateImage (image : string) (fp : fpath) : ErrorList :=
  if String.eqb image "" then [Required fp "image is required"]
  else
    let errs :=
      when (negb (all_chars (fun c => negb (is_blank c)) image))
           (Invalid fp (VStr image) "image must not contain whitespace")
      ++ when (Contains image "://") (Invalid fp (VStr image) "image must not contain a scheme")
      ++ when (HasPrefix image "/" || HasSuffix image "/")
           (Invalid fp (VStr image) "image must not have leading or trailing '/'")
      ++ when (Contains image "//") (Invalid fp (VStr image) "image must not contain '//'") in
    match errs with
    | _ :: _ => errs
    | [] => when (negb (imageRefRegexp image))
              (Invalid fp (VStr image) "image is not a valid OCI reference")
    end.

Definition validateAgentSandbox (s : AgentSandbox) (fp : fpath) : ErrorList :=
  validateImage (Image s) (Child fp "image").

Definition validateEgressRefs (refs : list AgentEgressRef) (fp : fpath) : ErrorList :=
  each (fun i r => when (String.eqb (GatewayRef r) "")
                     (Required (Child (Index fp i) "gatewayRef") "gatewayRef is required")) refs.

(** ** Mount paths *)

Definition reservedMountPaths : list string :=
  [ "/proc"; "/dev"; "/sys"; "/sys/fs/cgroup"; "/dev/pts"; "/tmp";
    "/etc/resolv.conf";
    "/etc/ssl/certs/ca-certificates.crt"; "/etc/pki/tls/certs/ca-bundle.crt";
    "/etc/pki/ca-trust/extracted/pem/tls-ca-bundle.pem"; "/etc/ssl/cert.pem";
    "/etc"; "/usr"; "/bin"; "/sbin"; "/lib"; "/lib64"; "/boot"; "/root" ].

Definition pathConflicts (candidate reserved : string) : bool :=
  if String.eqb candidate reserved then true
  else HasPrefix candidate (String.append reserved "/")
       || HasPrefix reserved (String.append candidate "/").

Definition validateAgentState (state : option AgentState) (fp : fpath) : ErrorList :=
  match state with
  | None => []
  | Some st =>
      let p := MountPath st in
      let mp := Child fp "mountPath" in
      if String.eqb p "" then []
      else if negb (IsAbs p) then [Invalid mp (VStr p) "mountPath must be an absolute path"]
      else if negb (String.eqb p (Clean p)) then
        [Invalid mp (VStr p) "mountPath must be a clean path (no '.', '..', '//' or trailing '/')"]
      else if String.eqb p "/" then [Invalid mp (VStr p) "mountPath must not be the root path"]
      else match List.find (pathConflicts p) reservedMountPaths with
           | Some r => [Invalid mp (VStr p)
                          (String.append "mountPath conflicts with reserved path " (quote r))]
           | None => []
           end
  end.

(** ** Identity extractors *)

Definition validateExtractor (fp : fpath) (i : nat) (e : IdentityExtractor) : ErrorList :=
  let ep := Index (Child fp "extractors") i in
  if String.eqb (ie_Type e) IdentityExtractorTypeHeader then
    when (match ie_Header e with None => true | _ => false end)
      (Required (Child ep "header") "header is required for type=Header")
  else if String.eqb (ie_Type e) IdentityExtractorTypeBody then
    when (match ie_Body e with None => true | _ => false end)
      (Required (Child ep "body") "body is required for type=Body")
  else if String.eqb (ie_Type e) IdentityExtractorTypeJWT then
    when (match ie_JWT e with None => true | _ => false end)
      (Required (Child ep "jwt") "jwt is required for type=JWT")
  else [NotSupported (Child ep "type") (ie_Type e)
          [IdentityExtractorTypeHeader; IdentityExtractorTypeBody; IdentityExtractorTypeJWT]].

Definition validateIdentity (id : option Identity) (fp : fpath) : ErrorList :=
  match id with
  | None => []
  | Some id =>
      when (match Extractors id with [] => true | _ => false end)
        (Required (Child fp "extractors") "at least one extractor is required when identity is set")
      ++ each (validateExtractor fp) (Extractors id)
  end.

(** ** Agents *)

Section Agents.
(** [cron.ParseStandard]: the message of the parse error, if any. *)
Variable cron_ParseStandard : string -> option string.

Definition validateSchedule (schedule : option string) : ErrorList :=
  match schedule with
  | None => []
  | Some s => match cron_ParseStandard s with
              | Some err => [Invalid (Child spec "schedule") (VStr s) err]
              | None => []
              end
  end.

Definition TaskAgent_Validate (ta : TaskAgent) : ErrorList :=
  let s := ta_Spec ta in
  validateAgentSandbox (ta_Sandbox s) (Child (Child spec "template") "spec")
  ++ when (String.eqb (ta_WorkerPoolRef s) "")
       (Required (Child spec "workerPoolRef") "workerPoolRef is required")
  ++ match ta_Timeout s with
     | Some t => when (t <=? 0) (Invalid (Child spec "timeout") (VDuration t) "timeout must be > 0")
     | None => []
     end
  ++ match ta_MaxConcurrent s with
     | Some n => when (n <? 0) (Invalid (Child spec "maxConcurrent") (VInt n)
                                  "maxConcurrent must be >= 0")
     | None => []
     end
  ++ validateSchedule (ta_Schedule s)
  ++ validateEgressRefs (ta_EgressRefs s) (Child spec "egressRefs")
  ++ validateIdentity (ta_Identity s) (Child spec "identity")
  ++ validateAgentState (ta_State s) (Child spec "state").

Definition TaskAgent_ValidateUpdate (ta : TaskAgent) (old : TaskAgent) : ErrorList :=
  TaskAgent_Validate ta.

End Agents.

Definition DaemonAgent_Validate (da : DaemonAgent) : ErrorList :=
  let s := da_Spec da in
  validateAgentSandbox (da_Sandbox s) (Child (Child spec "template") "spec")
  ++ when (String.eqb (da_WorkerPoolRef s) "")
       (Required (Child spec "workerPoolRef") "workerPoolRef is required")
  ++ when (negb (bool_decide (da_RestartPolicy s ∈
                   ["" : string; RestartPolicyAlways; RestartPolicyOnFailure; RestartPolicyNever])))
       (NotSupported (Child spec "restartPolicy") (da_RestartPolicy s)
          [RestartPolicyAlways; RestartPolicyOnFailure; RestartPolicyNever])
  ++ match da_MaxRestarts s with
     | Some n => when (n <? 0) (Invalid (Child spec "maxRestarts") (VInt n) "maxRestarts must be >= 0")
     | None => []
     end
  ++ match da_MaxLifetimeSeconds s with
     | Some n => when (n <? 0) (Invalid (Child spec "maxLifetimeSeconds") (VInt n)
                                  "maxLifetimeSeconds must be >= 0")
     | None => []
     end
  ++ validateEgressRefs (da_EgressRefs s) (Child spec "egressRefs").

Definition DaemonAgent_ValidateUpdate (da : DaemonAgent) (old : DaemonAgent) : ErrorList :=
  DaemonAgent_Validate da.

(** ** Worker pools *)

Definition validateWorkerMountPath (p : string) (fp : fpath) : ErrorList :=
  if String.eqb p "" then [Required fp "mountPath is required"]
  else if negb (IsAbs p) then [Invalid fp (VStr p) "mountPath must be an absolute path"]
  else if negb (String.eqb p (Clean p)) then
    [Invalid fp (VStr p) "mountPath must be a clean path (no '.', '..', '//' or trailing '/')"]
  else if String.eqb p "/" then [Invalid fp (VStr p) "mountPath must not be the root path"]
  else
    each (fun _ rv => when (pathConflicts p (rv_MountPath rv))
            (Invalid fp (VStr p) (String.append "mountPath conflicts with reserved worker path "
                                    (quote (rv_MountPath rv))))) WorkerReservedVolumes
    ++ each (fun _ r => when (pathConflicts p r)
               (Invalid fp (VStr p) (String.append "mountPath conflicts with reserved system path "
                                       (quote r)))) reservedMountPaths.

Definition reservedNames : list string := map rv_Name WorkerReservedVolumes.
Definition reservedMsg : string := "name conflicts with a reserved worker volume (state/run/varlog)".

Definition validateWorkerExtraMounts (t : WorkerPodTemplate) (fp : fpath) : ErrorList :=
  let declaredNames := reservedNames ++ map vol_Name (ExtraVolumes t) in
  each (fun i v => when (bool_decide (vol_Name v ∈ reservedNames))
          (Invalid (Child (Index (Child fp "extraVolumes") i) "name") (VStr (vol_Name v)) reservedMsg))
       (ExtraVolumes t)
  ++ each (fun i m =>
          let mp := Index (Child fp "extraVolumeMounts") i in
          (if bool_decide (vm_Name m ∈ reservedNames) then
             [Invalid (Child mp "name") (VStr (vm_Name m)) reservedMsg]
           else when (negb (bool_decide (vm_Name m ∈ declaredNames)))
                  (Invalid (Child mp "name") (VStr (vm_Name m))
                     "no volume with this name is declared in extraVolumes"))
          ++ validateWorkerMountPath (vm_MountPath m) (Child mp "mountPath"))
       (ExtraVolumeMounts t).

Definition nonNegative (fp : fpath) (detail : string) (o : option Z) : ErrorList :=
  match o with Some n => when (n <? 0) (Invalid fp (VInt n) detail) | None => [] end.

Definition WorkerPool_Validate (wp : WorkerPool) : ErrorList :=
  let s := wp_Spec wp in
  let tp := Child spec "template" in
  validateImage (pt_Image (Template s)) (Child tp "image")
  ++ nonNegative (Child spec "replicas") "replicas must be >= 0" (Replicas s)
  ++ nonNegative (Child spec "maxExecutionsPerWorker") "maxExecutionsPerWorker must be >= 0"
       (MaxExecutionsPerWorker s)
  ++ nonNegative (Child spec "warmPool") "warmPool must be >= 0" (WarmPool s)
  ++ validateWorkerExtraMounts (Template s) tp.

(** The update hooks skip the spec checks when the spec is unchanged
    ([Semantic.DeepEqual]). *)
Definition skipUnchanged {S} `{EqDecision S} (prev new : S) (errs : ErrorList) : ErrorList :=
  if bool_decide (prev = new) then [] else errs.

Definition WorkerPool_ValidateUpdate (wp old : WorkerPool) : ErrorList :=
  skipUnchanged (wp_Spec old) (wp_Spec wp) (WorkerPool_Validate wp).

(** ** Backends and provider names *)

Section Names.
Variable reg : Registry.registry.

Definition validateProviderSchemaName (name : string) (fp : fpath) : ErrorList :=
  if String.eqb name "" then [Required fp "provider schema name is required"]
  else
    let n := ToLower name in
    if String.eqb n "custom" || Registry.KnownName reg n then []
    else [NotSupported fp name (Registry.KnownNames reg ++ ["custom"])].

Definition Backend_Validate (b : Backend) : ErrorList :=
  validateProviderSchemaName (be_SchemaName (be_Spec b)) (Child (Child spec "schema") "name").

Definition Backend_ValidateUpdate (b old : Backend) : ErrorList :=
  skipUnchanged (be_Spec old) (be_Spec b) (Backend_Validate b).

End Names.

(** ** References to clrk objects *)

Definition validateClrkRef (group kind name : string) (supportedKinds : option (list string))
    (fp : fpath) : ErrorList :=
  (if String.eqb group "" then
     [Required (Child fp "group") (String.append "group must be " clrkAPIGroup)]
   else when (negb (String.eqb group clrkAPIGroup))
          (NotSupported (Child fp "group") group [clrkAPIGroup]))
  ++ (if String.eqb kind "" then [Required (Child fp "kind") "kind is required"]
      else match supportedKinds with
           | Some ks => when (negb (bool_decide (kind ∈ ks))) (NotSupported (Child fp "kind") kind ks)
           | None => []
           end)
  ++ when (String.eqb name "") (Required (Child fp "name") "name is required").

Definition validateExtensionRef (ref : option LocalObjectReference)
    (allowedKinds : option (list string)) (fp : fpath) : ErrorList :=
  match ref with
  | None => [Required fp "extensionRef is required when type=ExtensionRef"]
  | Some r => validateClrkRef (lr_Group r) (lr_Kind r) (lr_Name r) allowedKinds fp
  end.

Definition extensionRefPolicyKinds : list string := ["RateLimitPolicy"; "LoggingPolicy"].

(** [ref.SectionName != nil && *ref.SectionName != ""]. *)
Definition hasSection (ref : PolicyTargetRef) : bool :=
  opt_bad (fun s => negb (String.eqb s "")) (tr_SectionName ref).

Definition sectionValue (ref : PolicyTargetRef) : BadValue :=
  VStr (match tr_SectionName ref with Some s => s | None => "" end).

Definition noTargets {A} (refs : list A) : ErrorList :=
  when (match refs with [] => true | _ => false end)
    (Required (Child spec "targetRefs") "at least one targetRef is required").

(** ** FallbackRoutingPolicy *)

Definition validateFallbackRef (i : nat) (ref : PolicyTargetRef) : ErrorList :=
  let rp := Index (Child spec "targetRefs") i in
  validateClrkRef (tr_Group ref) (tr_Kind ref) (tr_Name ref) (Some ["AIProviderRoute" : string]) rp
  ++ when (String.eqb (tr_Kind ref) "AIProviderRoute" && hasSection ref)
       (Invalid (Child rp "sectionName") (sectionValue ref)
          "sectionName scoping is not supported for FallbackRoutingPolicy (AIProviderRoute rules are unnamed)").

Definition validateRetry (r : FallbackRetry) : ErrorList :=
  let retryPath := Child spec "retry" in
  nonNegative (Child retryPath "numRetries") "numRetries must be >= 0" (NumRetries r)
  ++ each (fun i code => when ((code <? 400) || (599 <? code))
             (Invalid (Index (Child retryPath "retriableStatusCodes") i) (VInt code)
                "retriable status codes must be in [400, 599]")) (RetriableStatusCodes r)
  ++ match PerTryTimeout r with
     | Some t => when (t <=? 0) (Invalid (Child retryPath "perTryTimeout") (VDuration t)
                                   "perTryTimeout must be > 0")
     | None => []
     end.

Definition validateEjection (e : FallbackEjection) : ErrorList :=
  match MaxEjectionTime e with
  | Some t => when (t <=? 0) (Invalid (Child (Child spec "ejection") "maxEjectionTime") (VDuration t)
                                "maxEjectionTime must be > 0")
  | None => []
  end.

Definition FallbackRoutingPolicy_Validate (p : FallbackRoutingPolicy) : ErrorList :=
  let s := frp_Spec p in
  noTargets (frp_TargetRefs s)
  ++ each validateFallbackRef (frp_TargetRefs s)
  ++ match Retry s with Some r => validateRetry r | None => [] end
  ++ match Ejection s with Some e => validateEjection e | None => [] end.

Definition FallbackRoutingPolicy_ValidateUpdate (p old : FallbackRoutingPolicy) : ErrorList :=
  skipUnchanged (frp_Spec old) (frp_Spec p) (FallbackRoutingPolicy_Validate p).

(** ** CredentialInjectionPolicy *)

Definition credentialKinds : list string := ["AIProviderRoute"; "MCPRoute"; "EgressGateway"].

Definition validateCredentialRef (i : nat) (ref : PolicyTargetRef) : ErrorList :=
  let rp := Index (Child spec "targetRefs") i in
  validateClrkRef (tr_Group ref) (tr_Kind ref) (tr_Name ref) (Some credentialKinds) rp
  ++ when (bool_decide (tr_Kind ref ∈ credentialKinds)
           && negb (String.eqb (tr_Kind ref) "AIProviderRoute") && hasSection ref)
       (Invalid (Child rp "sectionName") (sectionValue ref)
          "sectionName is only valid on an AIProviderRoute target (it names a BackendRef)").

Definition isSet {A} (o : option A) : bool := match o with Some _ => true | None => false end.
Definition unsetOrEmpty (o : option string) : bool :=
  match o with Some s => String.eqb s "" | None => true end.

Definition forbidHeader (b : bool) : ErrorList :=
  when b (Forbidden (Child spec "headerName") "only valid when target=Header").
Definition forbidQuery (b : bool) : ErrorList :=
  when b (Forbidden (Child spec "queryParamName") "only valid when target=QueryParam").
Definition forbidProviderAuth (b : bool) : ErrorList :=
  when b (Forbidden (Child spec "providerAuth") "only valid when target=ProviderAuth").

Definition validateProviderAuth (o : option ProviderAuthConfig) : ErrorList :=
  let paPath := Child spec "providerAuth" in
  match o with
  | None => [Required paPath "required when target=ProviderAuth"]
  | Some pa =>
      when (negb (String.eqb (pa_Type pa) ProviderAuthTypeAWSv4))
        (NotSupported (Child paPath "type") (pa_Type pa) [ProviderAuthTypeAWSv4])
      ++ when (opt_bad (fun r => String.eqb r "") (pa_Region pa))
           (Invalid (Child paPath "region") (VStr "")
              "region must be non-empty when set (omit it to derive from the target host)")
      ++ when (opt_bad (fun r => String.eqb r "") (pa_Service pa))
           (Invalid (Child paPath "service") (VStr "")
              "service must be non-empty when set (omit it for the bedrock default)")
  end.

Definition validateCredentialTarget (s : CredentialInjectionSpec) : ErrorList :=
  let hasHeader := isSet (cip_HeaderName s) in
  let hasQuery := isSet (cip_QueryParamName s) in
  let hasProviderAuth := isSet (cip_ProviderAuth s) in
  if String.eqb (cip_Target s) CredentialTargetHeader then
    when (unsetOrEmpty (cip_HeaderName s))
      (Required (Child spec "headerName") "required when target=Header")
    ++ forbidQuery hasQuery ++ forbidProviderAuth hasProviderAuth
  else if String.eqb (cip_Target s) CredentialTargetQueryParam then
    when (unsetOrEmpty (cip_QueryParamName s))
      (Required (Child spec "queryParamName") "required when target=QueryParam")
    ++ forbidHeader hasHeader ++ forbidProviderAuth hasProviderAuth
  else if String.eqb (cip_Target s) CredentialTargetProviderAuth then
    forbidHeader hasHeader ++ forbidQuery hasQuery ++ validateProviderAuth (cip_ProviderAuth s)
  else [NotSupported (Child spec "target") (cip_Target s)
          [CredentialTargetHeader; CredentialTargetQueryParam; CredentialTargetProviderAuth]].

Definition CredentialInjectionPolicy_Validate (p : CredentialInjectionPolicy) : ErrorList :=
  let s := cip_Spec p in
  noTargets (cip_TargetRefs s)
  ++ each validateCredentialRef (cip_TargetRefs s)
  ++ when (String.eqb (cip_SecretName s) "")
       (Required (Child (Child spec "secretRef") "name") "the credential Secret name is required")
  ++ validateCredentialTarget s.

Definition CredentialInjectionPolicy_ValidateUpdate (p old : CredentialInjectionPolicy) : ErrorList :=
  skipUnchanged (cip_Spec old) (cip_Spec p) (CredentialInjectionPolicy_Validate p).

(** ** AIProviderRoute *)

Definition AIProviderRoute_Validate (reg : Registry.registry) (r : AIProviderRoute) : ErrorList :=
  let rules := Child spec "rules" in
  each (fun i rule =>
    each (fun j m => validateProviderSchemaName reg (Provider m)
                       (Child (Index (Child (Index rules i) "matches") j) "provider"))
         (ar_Matches rule)
    ++ each (fun j f =>
         let fp := Index (Child (Index rules i) "filters") j in
         if String.eqb (af_Type f) AIProviderFilterExtensionRef then
           validateExtensionRef (af_ExtensionRef f) None (Child fp "extensionRef")
         else if String.eqb (af_Type f) AIProviderFilterTokenBudget then
           when (negb (isSet (af_TokenBudget f)))
             (Required (Child fp "tokenBudget") "tokenBudget is required when type=TokenBudget")
         else []) (ar_Filters rule))
    (apr_Rules (apr_Spec r)).

Definition AIProviderRoute_ValidateUpdate (reg : Registry.registry) (r old : AIProviderRoute) : ErrorList :=
  skipUnchanged (apr_Spec old) (apr_Spec r) (AIProviderRoute_Validate reg r).

(** ** Rate limits *)

Definition windowMsg : string :=
  String.concat "" ["window must be a Go duration string (e.g. "; quote "1m"; ", "; quote "1h"; ", ";
                    quote "24h"; ")"].

Definition validateWindow (window : string) (fp : fpath) : ErrorList :=
  if String.eqb window "" then [Required fp "window is required"]
  else match ParseDuration window with
       | None => [Invalid fp (VStr window) windowMsg]
       | Some _ => []
       end.

Definition rateLimitScopes : list string :=
  [RateLimitScopePerAgent; RateLimitScopePerExecution; RateLimitScopePerRoute].

Definition validateRateLimitScope (scope : string) (fp : fpath) : ErrorList :=
  when (negb (bool_decide (scope ∈ ("" : string) :: rateLimitScopes)))
    (NotSupported fp scope rateLimitScopes).

Definition positive (fp : fpath) (n : Z) : ErrorList :=
  when (n <=? 0) (Invalid fp (VInt n) "requests must be > 0").

Definition RateLimitPolicy_Validate (p : RateLimitPolicy) : ErrorList :=
  let s := rlp_Spec p in
  positive (Child spec "requests") (rlp_Requests s)
  ++ validateWindow (rlp_Window s) (Child spec "window")
  ++ validateRateLimitScope (rlp_Scope s) (Child spec "scope").

Definition RateLimitPolicy_ValidateUpdate (p old : RateLimitPolicy) : ErrorList :=
  skipUnchanged (rlp_Spec old) (rlp_Spec p) (RateLimitPolicy_Validate p).

(** ** EgressDenyPolicy *)

Definition denyKinds : list string := ["AIProviderRoute"; "MCPRoute"; "EgressL4Route"].

Definition EgressDenyPolicy_Validate (p : EgressDenyPolicy) : ErrorList :=
  let refs := edp_TargetRefs (edp_Spec p) in
  noTargets refs
  ++ each (fun i ref => validateClrkRef (tr_Group ref) (tr_Kind ref) (tr_Name ref) (Some denyKinds)
                          (Index (Child spec "targetRefs") i)) refs.

Definition EgressDenyPolicy_ValidateUpdate (p old : EgressDenyPolicy) : ErrorList :=
  skipUnchanged (edp_Spec old) (edp_Spec p) (EgressDenyPolicy_Validate p).

(** ** MCPRoute *)

Section Mcp.
Context `{RegexpEngine}.

Definition validateRegexList (patterns : list string) (fp : fpath) : ErrorList :=
  each (fun i p => match Compile p with
                   | inl _ => []
                   | inr err => [Invalid (Index fp i) (VStr p)
                                   (String.append "must be a valid Go regular expression: " err)]
                   end) patterns.

Definition validateToolRateLimit (rl : ToolRateLimit) (fp : fpath) : ErrorList :=
  positive (Child fp "requests") (rl_Requests rl)
  ++ validateWindow (rl_Window rl) (Child fp "window")
  ++ validateRateLimitScope (rl_Scope rl) (Child fp "scope")
  ++ validateRegexList (rl_ToolsRegex rl) (Child fp "toolsRegex").

Definition validateToolPolicy (tp : ToolPolicyFilter) (tpp : fpath) : ErrorList :=
  validateRegexList (AllowedToolsRegex tp) (Child tpp "allowedToolsRegex")
  ++ validateRegexList (DeniedToolsRegex tp) (Child tpp "deniedToolsRegex")
  ++ each (fun k rl => validateToolRateLimit rl (Index (Child tpp "rateLimits") k)) (RateLimits tp).

Definition validateMCPFilter (fp : fpath) (f : MCPRouteFilter) : ErrorList :=
  if String.eqb (mf_Type f) MCPFilterExtensionRef then
    validateExtensionRef (mf_ExtensionRef f) (Some extensionRefPolicyKinds) (Child fp "extensionRef")
  else if String.eqb (mf_Type f) MCPFilterToolPolicy then
    match mf_ToolPolicy f with
    | None => [Required (Child fp "toolPolicy") "toolPolicy is required when type=ToolPolicy"]
    | Some tp => validateToolPolicy tp (Child fp "toolPolicy")
    end
  else [].

Definition MCPRoute_Validate (r : MCPRoute) : ErrorList :=
  let rules := Child spec "rules" in
  each (fun i rule =>
    each (fun j m => validateRegexList (ToolsRegex m)
                       (Child (Index (Child (Index rules i) "matches") j) "toolsRegex"))
         (mr_Matches rule)
    ++ each (fun j f => validateMCPFilter (Index (Child (Index rules i) "filters") j) f)
         (mr_Filters rule))
    (mcp_Rules (mcp_Spec r)).

Definition MCPRoute_ValidateUpdate (r old : MCPRoute) : ErrorList :=
  skipUnchanged (mcp_Spec old) (mcp_Spec r) (MCPRoute_Validate r).

End Mcp.

(** ** EgressL4Route *)

Definition EgressL4Route_Validate (r : L4Route) : ErrorList :=
  let rules := Child spec "rules" in
  each (fun i filters =>
    each (fun j f =>
      if String.eqb (l4f_Type f) L4FilterExtensionRef then
        validateExtensionRef (l4f_ExtensionRef f) (Some extensionRefPolicyKinds)
          (Child (Index (Child (Index rules i) "filters") j) "extensionRef")
      else []) filters)
    (l4_RuleFilters (l4_Spec r)).

Definition EgressL4Route_ValidateUpdate (r old : L4Route) : ErrorList :=
  skipUnchanged (l4_Spec old) (l4_Spec r) (EgressL4Route_Validate r).

(** ** CLRKConfig *)

(** [\s] of RE2. *)
Definition re_space (c : ascii) : bool :=
  Ascii.eqb c " " || Ascii.eqb c "009" || Ascii.eqb c "010" || Ascii.eqb c "012" || Ascii.eqb c "013".
Definition email_char (c : ascii) : bool := negb (Ascii.eqb c "@") && negb (re_space c).

(** [^[^@\s]+@[^@\s]+\.[^@\s]+$]: exactly one [@], no space, and a dot in the
    domain with a character on each side. *)
Fixpoint inner_dot (s : string) : bool :=
  match s with
  | String _ ((String "." (String _ _)) as t) => true
  | String _ t => inner_dot t
  | EmptyString => false
  end.

Definition clrkConfigEmailRe (s : string) : bool :=
  match Split "@" s with
  | [user; domain] =>
      negb (String.eqb user "") && all_chars email_char user
      && all_chars email_char domain && inner_dot domain
  | _ => false
  end.

Definition CLRKConfig_Validate (c : CLRKConfig) : ErrorList :=
  let name := Name (cfg_Meta c) in
  let email := Email (Notifications (cfg_Spec c)) in
  when (negb (String.eqb name CLRKConfigSingletonName))
    (Invalid [Key "metadata"; Key "name"] (VStr name)
       (String.append "CLRKConfig is a singleton; the only permitted name is "
          (quote CLRKConfigSingletonName)))
  ++ when (negb (String.eqb email "") && negb (clrkConfigEmailRe email))
       (Invalid [Key "spec"; Key "notifications"; Key "email"] (VStr email)
          "must be a valid email address").

Definition CLRKConfig_ValidateUpdate (c old : CLRKConfig) : ErrorList := CLRKConfig_Validate c.

(** ** Defaults ([defaults.go]) *)

Definition DefaultTaskAgentTimeout : Z := 100 * 1000000000.
Definition defaultBodyCaptureMaxBytes : Z := 64 * 1024.

(** [if s == "" { s = d }] and [if p == nil { p = &d }]. *)
Definition orDefault (s d : string) : string := if String.eqb s "" then d else s.
Definition ptrDefault {A} (o : option A) (d : A) : option A :=
  match o with Some a => Some a | None => Some d end.

Definition TaskAgent_Default (r : TaskAgent) : TaskAgent :=
  let s := ta_Spec r in
  mkTaskAgent (ta_Meta r)
    (mkTaskAgentSpec (ta_Sandbox s) (ta_WorkerPoolRef s)
       (ptrDefault (ta_Timeout s) DefaultTaskAgentTimeout)
       (ta_MaxConcurrent s) (ta_WarmPoolSize s) (ta_WarmPoolIdleTTL s) (ta_Schedule s)
       (ta_EgressRefs s) (ta_Identity s) (ta_State s) (ta_Delivery s) (ta_rest s)).

Definition WorkerPool_Default (r : WorkerPool) : WorkerPool :=
  let s := wp_Spec r in
  let t := Template s in
  mkWorkerPool (wp_Meta r)
    (mkWorkerPoolSpec (ptrDefault (Replicas s) 1)
       (mkPodTemplate (pt_Image t) (orDefault (ImagePullPolicy t) "IfNotPresent")
          (orDefault (ServiceAccountName t) WorkerServiceAccountName)
          (ExtraVolumes t) (ExtraVolumeMounts t) (pt_rest t))
       (MaxExecutionsPerWorker s) (WarmPool s) (wp_rest s)).

Definition DaemonAgent_Default (r : DaemonAgent) : DaemonAgent :=
  let s := da_Spec r in
  mkDaemonAgent (da_Meta r)
    (mkDaemonAgentSpec (da_Sandbox s) (da_WorkerPoolRef s)
       (orDefault (da_RestartPolicy s) RestartPolicyAlways)
       (da_MaxRestarts s) (da_MaxLifetimeSeconds s) (da_EgressRefs s) (da_rest s)).

Definition EgressPolicyDenyAll : string := "deny-all".

Definition EgressGateway_Default (r : Gateway) : Gateway :=
  let s := eg_Spec r in
  mkGatewayObj (eg_Meta r)
    (mkEGSpec (orDefault (eg_DefaultPolicy s) EgressPolicyDenyAll)
       (match eg_OTLP s with
        | Some o => Some (mkOTLP (Endpoint o) (Headers o)
                      (match CaptureBody o with
                       | Some c => Some (mkBodyCapture (ptrDefault (MaxBytes c) defaultBodyCaptureMaxBytes)
                                           (IncludeContentTypes c))
                       | None => None
                       end))
        | None => None
        end)
       (match eg_DNS s with
        | Some d => Some (mkDNS (orDefault (LookupFamily d) EgressDNSLookupV4Preferred))
        | None => None
        end)
       (eg_RequestTimeout s) (eg_rest s)).

(** [EffectiveRequestTimeout]. *)
Definition DefaultEgressRequestTimeout : Z := 5 * 60 * 1000000000.
Definition EffectiveRequestTimeout (s : EgressGatewaySpec) : Z :=
  match eg_RequestTimeout s with
  | Some t => if 0 <? t then t else DefaultEgressRequestTimeout
  | None => DefaultEgressRequestTimeout
  end.

Definition CredentialInjectionPolicy_Default (r : CredentialInjectionPolicy) : CredentialInjectionPolicy :=
  let s := cip_Spec r in
  mkCIP (cip_Meta r)
    (mkCIPSpec (cip_TargetRefs s) (cip_SecretName s) (cip_SecretNamespace s)
       (orDefault (cip_SecretKey s) "token") (cip_Target s) (cip_HeaderName s)
       (cip_QueryParamName s) (cip_ProviderAuth s)).

Definition RateLimitPolicy_Default (r : RateLimitPolicy) : RateLimitPolicy :=
  let s := rlp_Spec r in
  mkRateLimitPolicy (rlp_Meta r)
    (mkRateLimitSpec (rlp_Requests s) (rlp_Window s) (orDefault (rlp_Scope s) RateLimitScopePerAgent)).

Definition ToolRateLimit_Default (rl : ToolRateLimit) : ToolRateLimit :=
  mkToolRateLimit (rl_Tools rl) (rl_ToolsRegex rl) (rl_Requests rl) (rl_Window rl)
    (orDefault (rl_Scope rl) RateLimitScopePerAgent).

Definition ToolPolicy_Default (tp : ToolPolicyFilter) : ToolPolicyFilter :=
  mkToolPolicy (AllowedTools tp) (AllowedToolsRegex tp) (DeniedTools tp) (DeniedToolsRegex tp)
    (RequireConfirmation tp) (MaxCallsPerExecution tp) (map ToolRateLimit_Default (RateLimits tp)).

Definition MCPFilter_Default (f : MCPRouteFilter) : MCPRouteFilter :=
  mkMCPFilter (mf_Type f) (option_map ToolPolicy_Default (mf_ToolPolicy f)) (mf_ExtensionRef f).

Definition MCPRoute_Default (r : MCPRoute) : MCPRoute :=
  let s := mcp_Spec r in
  mkMCPRoute (mcp_Meta r)
    (mkMCPSpec (mcp_ParentRefs s) (mcp_Hostnames s)
       (map (fun rule => mkMCPRule (mr_Matches rule) (map MCPFilter_Default (mr_Filters rule))
                           (mr_BackendRefs rule)) (mcp_Rules s))).

Definition EgressDenyPolicy_Default (r : EgressDenyPolicy) : EgressDenyPolicy :=
  let s := edp_Spec r in
  mkEDP (edp_Meta r)
    (mkEDPSpec (edp_TargetRefs s)
       (match DenyResponse s with
        | Some d => Some (mkDenyResponse (if StatusCode d =? 0 then 403 else StatusCode d) (Message d))
        | None => None
        end)).

Definition Backend_Default (r : Backend) : Backend :=
  let s := be_Spec r in
  mkBackend (be_Meta r)
    (mkBackendSpec (orDefault (be_Type s) BackendTypeUpstream) (be_SchemaName s) (be_Upstream s)
       (be_InferencePoolRef s) (be_ModelRewrites s) (be_BodyMutation s)).

(** [now] is [metav1.Now()]. *)
Definition CLRKConfig_Default (now : Z) (c : CLRKConfig) : CLRKConfig :=
  let n := Notifications (cfg_Spec c) in
  if String.eqb (Email n) "" then c
  else mkConfig (cfg_Meta c)
         (mkConfigSpec (mkNotifications (Email n) (ptrDefault (SignedUpAt n) now)
            (ptrDefault (AdvisoryPollEnabled n) true) (EventRetention n))).

(** ** Empty error lists *)

Create Rewrite HintDb admission.

Lemma when_nil b e : when b e = [] <-> b = false.
Proof. by destruct b. Qed.

Lemma each_nil {A} (f : nat -> A -> ErrorList) l :
  each f l = [] <-> forall i x, l !! i = Some x -> f i x = [].
Proof.
  unfold each. revert f. induction l as [|x l IH]; intros f.
  { split; [intros _ i y; by rewrite lookup_nil|done]. }
  rewrite imap_cons. cbn [concat]. rewrite app_nil, IH. split.
  - intros [Hx Hl] [|i] y; cbn; [by intros [= ->]|apply Hl].
  - intros H. split; [by apply (H 0%nat)|]. intros i y Hy. by apply (H (S i)).
Qed.

(** When the check does not depend on the position. *)
Lemma each_nil_In {A} (f : nat -> A -> ErrorList) (ok : A -> Prop) l :
  (forall i x, f i x = [] <-> ok x) -> each f l = [] <-> Forall ok l.
Proof.
  intros Hf. rewrite each_nil, Forall_lookup. by setoid_rewrite Hf.
Qed.

Lemma each_ext {A B} (f : nat -> A -> ErrorList) (g : nat -> B -> ErrorList) (h : A -> B) l :
  (forall i x, g i (h x) = f i x) -> each g (map h l) = each f l.
Proof.
  unfold each. revert f g. induction l as [|x l IH]; intros f g H; [done|].
  cbn [map]. rewrite !imap_cons. cbn [concat]. rewrite H. f_equal. apply IH. intros. apply H.
Qed.

#[export] Hint Rewrite @app_nil @when_nil : admission.

(** ** Images *)

Lemma all_chars_app f a b : all_chars f (String.append a b) = all_chars f a && all_chars f b.
Proof.
  induction a as [|c a IH]; [done|]. change (String.append (String c a) b) with (String c (String.append a b)).
  cbn. by rewrite IH, andb_assoc.
Qed.

Lemma image_char_not_blank c : image_char c = true -> is_blank c = false.
Proof. by destruct c as [[] [] [] [] [] [] [] []]. Qed.

Lemma is_alnum_image_char c : is_alnum c = true -> image_char c = true.
Proof. intros H. unfold image_char. by rewrite H. Qed.

Lemma imageRefRegexp_chars s :
  imageRefRegexp s = true -> all_chars (fun c => negb (is_blank c)) s = true.
Proof.
  destruct s as [|c s]; [done|]. cbn [imageRefRegexp all_chars].
  intros [Hc Hs]%andb_true_iff. apply is_alnum_image_char, image_char_not_blank in Hc as ->.
  cbn [negb andb]. induction s as [|d s IH]; [done|]. cbn [all_chars] in *.
  apply andb_true_iff in Hs as [Hd Hs]. by rewrite (image_char_not_blank _ Hd), IH.
Qed.

(** An image reference is admitted exactly when it begins with an
    alphanumeric character, contains only the characters of the OCI grammar
    ([A-Za-z0-9._:@/+-]), and has no empty path segment (no leading, trailing or
    doubled slash); in particular no scheme and no blank passes. *)
Lemma validateImage_iff (image : string) (fp : fpath) :
  validateImage image fp = []
  <-> imageRefRegexp image = true /\ Forall (fun seg => seg <> "") (Split "/" image).
Proof.
  assert (Hseg : Forall (fun seg => seg <> "") (Split "/" image)
                 <-> image <> "" /\ (HasPrefix image "/" || HasSuffix image "/") = false
                     /\ Contains image "//" = false).
  { rewrite Forall_forall. transitivity (~ ("" ∈ Split "/" image)).
    { split; [intros H Hin; by apply (H "")|intros H x Hx ->; done]. }
    rewrite Split_empty. rewrite <- (not_true_iff_false (_ || _)), <- (not_true_iff_false (Contains _ _)).
    rewrite orb_true_iff, HasPrefix_spec, HasSuffix_spec, Contains_spec. naive_solver. }
  unfold validateImage. destruct (String.eqb image "") eqn:E0.
  { apply String.eqb_eq in E0 as ->. by split; [|intros [? _]]. }
  apply String.eqb_neq in E0. rewrite Hseg.
  assert (Hscheme : Contains image "//" = false -> Contains image "://" = false).
  { intros H. apply not_true_iff_false. rewrite Contains_spec. intros (a & b & ->).
    apply not_true_iff_false in H. apply H. apply Contains_spec.
    exists (String.append a ":"), b. by rewrite str_app_assoc. }
  split.
  - case_match eqn:E1; [|done]. autorewrite with admission in E1.
    destruct E1 as (_ & _ & H3 & H4). rewrite when_nil, negb_false_iff. done.
  - intros (Hre & _ & H1 & H2). rewrite (imageRefRegexp_chars _ Hre), (Hscheme H2), H1, H2, Hre. done.
Qed.

(** ** Mount paths and their components *)

(** Two component lists name the same path, or one an ancestor of the other. *)
Definition overlaps (cs ds : list string) : Prop := cs `prefix_of` ds \/ ds `prefix_of` cs.

Definition components_of (p : string) : list string := tail (split_slash p).

Definition componentb (c : string) : bool :=
  negb (String.eqb c "") && negb (String.eqb c ".") && negb (String.eqb c "..")
  && (Count c "/" =? 0)%nat.

Definition is_clean_abs (p : string) : bool :=
  match components_of p with
  | [] => false
  | cs => forallb componentb cs && String.eqb p (abs_path cs)
  end.

Lemma componentb_spec c : componentb c = true -> component c.
Proof. unfold componentb, component. intros H. bool_to_prop. repeat split; try done. by apply Nat.eqb_eq. Qed.

Lemma is_clean_abs_spec p :
  is_clean_abs p = true ->
  components_of p <> [] /\ Forall component (components_of p) /\ p = abs_path (components_of p).
Proof.
  unfold is_clean_abs. destruct (components_of p) as [|c cs] eqn:E; [done|].
  intros [Hf Hp]%andb_true_iff. split; [done|]. split; [|by apply String.eqb_eq].
  apply Forall_forall. intros x Hx%list_elem_of_In. apply componentb_spec.
  rewrite forallb_forall in Hf. by apply Hf.
Qed.

Lemma components_of_abs cs :
  cs <> [] -> Forall component cs -> components_of (abs_path cs) = cs.
Proof.
  intros Hne Hcs. unfold components_of, abs_path.
  change (String.append "/" (join_slash cs)) with (String.append "" (String "/" (join_slash cs))).
  rewrite split_slash_app, split_join by (done || by apply components_no_slash). done.
Qed.

(** On clean absolute paths the string test of [pathConflicts] is the overlap
    of the component lists. *)
Lemma pathConflicts_spec cs ds :
  Forall component cs -> Forall component ds -> cs <> [] -> ds <> [] ->
  pathConflicts (abs_path cs) (abs_path ds) = true <-> overlaps cs ds.
Proof.
  intros Hc Hd Nc Nd. unfold pathConflicts, overlaps.
  destruct (String.eqb _ _) eqn:E; bool_to_prop.
  { apply abs_path_inj in E as ->; [|done..]. split; [by left|done]. }
  rewrite orb_true_iff, !abs_path_prefix by done. split.
  - intros [(es & _ & ->)|(es & _ & ->)]; [right|left]; by exists es.
  - intros [[es ->]|[es ->]]; [right|left]; exists es; (split; [|done]); intros ->;
      rewrite app_nil_r in E; done.
Qed.

(** A mount path a validator admits: a clean absolute path that overlaps none
    of the reserved ones. *)
Definition mount_allowed (reserved : list string) (p : string) : Prop :=
  exists cs, cs <> [] /\ Forall component cs /\ p = abs_path cs
    /\ Forall (fun r => ~ overlaps cs (components_of r)) reserved.

Lemma mount_check_spec reserved p :
  forallb is_clean_abs reserved = true ->
  IsAbs p = true /\ p = Clean p /\ p <> "/" /\ Forall (fun r => pathConflicts p r = false) reserved
  <-> mount_allowed reserved p.
Proof.
  intros Hres.
  assert (Hconf : forall cs, cs <> [] -> Forall component cs ->
    Forall (fun r => pathConflicts (abs_path cs) r = false) reserved
    <-> Forall (fun r => ~ overlaps cs (components_of r)) reserved).
  { intros cs Hne Hcs. rewrite !Forall_forall. rewrite forallb_forall in Hres.
    split; intros H r Hr; specialize (H r Hr); apply list_elem_of_In in Hr;
      destruct (is_clean_abs_spec r (Hres r Hr)) as (N & F & E);
      rewrite <- not_true_iff_false in *; rewrite E in H |- *;
      rewrite pathConflicts_spec in * by done; rewrite ?components_of_abs in * by done; done. }
  split.
  - intros (Ha & Hcl & Hroot & Hc). destruct (proj1 (clean_abs_spec p) (conj Ha Hcl)) as (cs & Hcs & ->).
    assert (cs <> []) as Hne by (by intros ->). exists cs. by rewrite <- Hconf.
  - intros (cs & Hne & Hcs & -> & Hc). apply Hconf in Hc; [|done..].
    destruct (proj2 (clean_abs_spec (abs_path cs))) as [Ha Hcl]; [by exists cs|].
    split; [done|]. split; [done|]. split; [|done]. intros E.
    change "/" with (abs_path []) in E. apply abs_path_inj in E; done.
Qed.

Lemma reserved_clean : forallb is_clean_abs (map rv_MountPath WorkerReservedVolumes ++ reservedMountPaths) = true.
Proof. reflexivity. Qed.

Lemma reservedMountPaths_clean : forallb is_clean_abs reservedMountPaths = true.
Proof. reflexivity. Qed.

Lemma find_None_Forall {A} (f : A -> bool) l :
  List.find f l = None <-> Forall (fun x => f x = false) l.
Proof.
  split.
  - intros H. apply Forall_forall. intros x Hx%list_elem_of_In. by apply (find_none f l).
  - induction 1 as [|x l Hx _ IH]; cbn; [done|]. by rewrite Hx.
Qed.

Lemma mount_allowed_nonempty reserved p : mount_allowed reserved p -> p <> "".
Proof. by intros (cs & _ & _ & -> & _). Qed.

(** The persistent-state mount of a task agent is isolated from the runtime.
    A state block is admitted exactly when it leaves the path to the worker or
    names a clean absolute path, other than the root, none of whose ancestors
    and descendants is a reserved path: component by component, the path and
    every reserved path diverge. *)
Lemma validateAgentState_iff (st : AgentState) (fp : fpath) :
  validateAgentState (Some st) fp = []
  <-> MountPath st = "" \/ mount_allowed reservedMountPaths (MountPath st).
Proof.
  cbn [validateAgentState]. rewrite <- mount_check_spec by apply reservedMountPaths_clean.
  destruct (String.eqb (MountPath st) "") eqn:E0; bool_to_prop; [by split; [left|]|].
  destruct (IsAbs (MountPath st)) eqn:E1; cbn [negb]; [|split; [done|]; intros [|[? _]]; done].
  destruct (String.eqb (MountPath st) (Clean (MountPath st))) eqn:E2; cbn [negb]; bool_to_prop;
    [|split; [done|]; intros [|(_ & ? & _)]; done].
  destruct (String.eqb (MountPath st) "/") eqn:E3; bool_to_prop;
    [split; [done|]; intros [|(_ & _ & ? & _)]; done|].
  rewrite <- find_None_Forall. destruct (List.find _ _); split; try done.
  - intros [|(_ & _ & _ & ?)]; done.
  - intros _. by right.
Qed.

Lemma validateWorkerMountPath_spec p fp :
  validateWorkerMountPath p fp = []
  <-> mount_allowed (map rv_MountPath WorkerReservedVolumes ++ reservedMountPaths) p.
Proof.
  unfold validateWorkerMountPath. rewrite <- mount_check_spec by apply reserved_clean.
  destruct (String.eqb p "") eqn:E0; bool_to_prop; [subst; split; [done|]; by intros [? _]|].
  destruct (IsAbs p) eqn:E1; cbn [negb]; [|split; [done|]; intros [? _]; done].
  destruct (String.eqb p (Clean p)) eqn:E2; cbn [negb]; bool_to_prop;
    [|split; [done|]; intros (_ & ? & _); done].
  destruct (String.eqb p "/") eqn:E3; bool_to_prop; [split; [done|]; intros (_ & _ & ? & _); done|].
  rewrite app_nil, Forall_app, Forall_map.
  rewrite (each_nil_In _ (fun rv => pathConflicts p (rv_MountPath rv) = false)) by (intros; apply when_nil).
  rewrite (each_nil_In _ (fun r => pathConflicts p r = false)) by (intros; apply when_nil).
  tauto.
Qed.

(** The extra volumes and mounts of a worker pool cannot disturb the worker.
    They are admitted exactly when no extra volume takes a reserved volume name,
    every extra mount refers to a declared extra volume that is not a reserved
    one, and every mount path is clean, absolute and disjoint from the scratch
    volumes the runtime owns and from the reserved system paths. *)
Lemma validateWorkerExtraMounts_iff (t : WorkerPodTemplate) (fp : fpath) :
  validateWorkerExtraMounts t fp = []
  <-> Forall (fun v => vol_Name v ∉ reservedNames) (ExtraVolumes t)
      /\ Forall (fun m => (vm_Name m ∉ reservedNames)
                          /\ (vm_Name m ∈ map vol_Name (ExtraVolumes t))
                          /\ mount_allowed (map rv_MountPath WorkerReservedVolumes ++ reservedMountPaths)
                               (vm_MountPath m)) (ExtraVolumeMounts t).
Proof.
  unfold validateWorkerExtraMounts. rewrite app_nil.
  rewrite (each_nil_In _ (fun v => vol_Name v ∉ reservedNames))
    by (intros; rewrite when_nil; apply bool_decide_eq_false).
  apply and_iff_compat_l. apply each_nil_In. intros i m.
  rewrite app_nil, validateWorkerMountPath_spec.
  case_bool_decide as Hr; [split; [by intros [? _]|]; by intros [? _]|].
  rewrite when_nil, negb_false_iff, bool_decide_eq_true, elem_of_app. tauto.
Qed.

(** ** Agents *)

Lemma validateEgressRefs_spec refs fp :
  validateEgressRefs refs fp = [] <-> Forall (fun r => GatewayRef r <> "") refs.
Proof. apply each_nil_In. intros. rewrite when_nil. apply String.eqb_neq. Qed.

(** An extractor carries the block its type names. *)
Definition extractor_ok (e : IdentityExtractor) : Prop :=
  (ie_Type e = IdentityExtractorTypeHeader /\ ie_Header e <> None)
  \/ (ie_Type e = IdentityExtractorTypeBody /\ ie_Body e <> None)
  \/ (ie_Type e = IdentityExtractorTypeJWT /\ ie_JWT e <> None).

Lemma validateExtractor_spec fp i e : validateExtractor fp i e = [] <-> extractor_ok e.
Proof.
  unfold validateExtractor, extractor_ok.
  destruct e as [ty h b j]; cbn [ie_Type ie_Header ie_Body ie_JWT].
  destruct (String.eqb ty _) eqn:E1; bool_to_prop;
    [subst; rewrite when_nil; destruct h; naive_solver|].
  destruct (String.eqb ty IdentityExtractorTypeBody) eqn:E2; bool_to_prop;
    [subst; rewrite when_nil; destruct b; naive_solver|].
  destruct (String.eqb ty IdentityExtractorTypeJWT) eqn:E3; bool_to_prop;
    [subst; rewrite when_nil; destruct j; naive_solver|naive_solver].
Qed.

Definition identity_ok (id : option Identity) : Prop :=
  match id with
  | Some id => Extractors id <> [] /\ Forall extractor_ok (Extractors id)
  | None => True
  end.

Lemma validateIdentity_spec id fp : validateIdentity id fp = [] <-> identity_ok id.
Proof.
  destruct id as [[l]|]; cbn [validateIdentity identity_ok Extractors]; [|done].
  rewrite app_nil, when_nil, (each_nil_In _ extractor_ok) by (intros; apply validateExtractor_spec).
  destruct l; naive_solver.
Qed.

Definition state_ok (st : option AgentState) : Prop :=
  match st with
  | Some st => MountPath st = "" \/ mount_allowed reservedMountPaths (MountPath st)
  | None => True
  end.

Definition image_ok (image : string) : Prop :=
  imageRefRegexp image = true /\ Forall (fun seg => seg <> "") (Split "/" image).

Definition opt_all {A} (P : A -> Prop) (o : option A) : Prop := forall a, o = Some a -> P a.

Lemma opt_when_nil {A} (f : A -> bool) (g : A -> field_error) (P : A -> Prop) (o : option A) :
  (forall a, f a = false <-> P a) ->
  match o with Some a => when (f a) (g a) | None => [] end = [] <-> opt_all P o.
Proof.
  intros H. unfold opt_all. destruct o as [a|]; [|naive_solver].
  rewrite when_nil, H. split; [by intros Ha b [= <-]|by intros H'; apply H'].
Qed.

Lemma nonNegative_spec fp d o : nonNegative fp d o = [] <-> opt_all (fun n => 0 <= n) o.
Proof. apply (opt_when_nil (fun n => n <? 0)). intros a. apply Z.ltb_ge. Qed.

Lemma validateAgentState_opt st fp : validateAgentState st fp = [] <-> state_ok st.
Proof. destruct st; [apply validateAgentState_iff|done]. Qed.

Lemma validateSchedule_spec cron o :
  validateSchedule cron o = [] <-> opt_all (fun s => cron s = None) o.
Proof.
  unfold opt_all. destruct o as [s|]; cbn [validateSchedule]; [|naive_solver].
  destruct (cron s) eqn:E; split; try done.
  - intros H. specialize (H s eq_refl). congruence.
  - by intros _ a [= <-].
Qed.

(** C40: what the admission hook guarantees of a task agent.  [Validate] accepts a
    [TaskAgent] exactly when its image is a well-formed reference, it names a worker pool,
    its timeout is positive and its concurrency non-negative when set, its
    schedule parses, every egress reference names a gateway, every identity
    extractor carries the block its type requires (and there is at least one),
    and its state mount, if it sets a path, is a clean absolute path that is
    neither an ancestor nor a descendant of a path the runtime reserves.  No other
    field of the spec plays a part, the delivery mode included
    ([delivery_mode_unchecked]). *)
Theorem TaskAgent_admitted_iff (cron : string -> option string) (ta : TaskAgent) :
  TaskAgent_Validate cron ta = []
  <-> image_ok (Image (ta_Sandbox (ta_Spec ta)))
      /\ ta_WorkerPoolRef (ta_Spec ta) <> ""
      /\ opt_all (fun t => 0 < t) (ta_Timeout (ta_Spec ta))
      /\ opt_all (fun n => 0 <= n) (ta_MaxConcurrent (ta_Spec ta))
      /\ opt_all (fun s => cron s = None) (ta_Schedule (ta_Spec ta))
      /\ Forall (fun r => GatewayRef r <> "") (ta_EgressRefs (ta_Spec ta))
      /\ identity_ok (ta_Identity (ta_Spec ta))
      /\ state_ok (ta_State (ta_Spec ta)).
Proof.
  unfold TaskAgent_Validate, validateAgentSandbox. rewrite !app_nil.
  rewrite validateImage_iff, when_nil, String.eqb_neq, validateSchedule_spec,
    validateEgressRefs_spec, validateIdentity_spec, validateAgentState_opt.
  rewrite (opt_when_nil (fun t => t <=? 0) _ (fun t => 0 < t)) by (intros; apply Z.leb_gt).
  rewrite (opt_when_nil (fun t => t <? 0) _ (fun t => 0 <= t)) by (intros; apply Z.ltb_ge).
  done.
Qed.

(** The delivery mode is documented as an enumeration of two values by a schema marker,
    and the aggregated API server does not read those markers: the hook, the only check
    there is, accepts every mode. *)
Lemma delivery_mode_unchecked (cron : string -> option string) (ta : TaskAgent) (mode : string) :
  let s := ta_Spec ta in
  TaskAgent_Validate cron (mkTaskAgent (ta_Meta ta)
    (mkTaskAgentSpec (ta_Sandbox s) (ta_WorkerPoolRef s) (ta_Timeout s) (ta_MaxConcurrent s) (ta_WarmPoolSize s)
       (ta_WarmPoolIdleTTL s) (ta_Schedule s) (ta_EgressRefs s) (ta_Identity s) (ta_State s)
       (Some (mkAgentDelivery mode)) (ta_rest s)))
  = TaskAgent_Validate cron ta.
Proof. done. Qed.

(** What admission guarantees of a daemon agent and of a worker pool.  A
    [DaemonAgent] is admitted exactly when its image is well formed, it names a
    pool, its restart policy is unset or one of the three known ones, its limits
    are non-negative and its egress references name gateways; a [WorkerPool]
    exactly when its image is well formed, its sizes are non-negative, and its
    extra volumes and mounts stay clear of the names and paths the runtime owns. *)
Theorem workload_admitted_iff (da : DaemonAgent) (wp : WorkerPool) :
  (DaemonAgent_Validate da = []
   <-> image_ok (Image (da_Sandbox (da_Spec da)))
       /\ da_WorkerPoolRef (da_Spec da) <> ""
       /\ da_RestartPolicy (da_Spec da) ∈
            ["" : string; RestartPolicyAlways; RestartPolicyOnFailure; RestartPolicyNever]
       /\ opt_all (fun n => 0 <= n) (da_MaxRestarts (da_Spec da))
       /\ opt_all (fun n => 0 <= n) (da_MaxLifetimeSeconds (da_Spec da))
       /\ Forall (fun r => GatewayRef r <> "") (da_EgressRefs (da_Spec da)))
  /\ (WorkerPool_Validate wp = []
      <-> image_ok (pt_Image (Template (wp_Spec wp)))
          /\ opt_all (fun n => 0 <= n) (Replicas (wp_Spec wp))
          /\ opt_all (fun n => 0 <= n) (MaxExecutionsPerWorker (wp_Spec wp))
          /\ opt_all (fun n => 0 <= n) (WarmPool (wp_Spec wp))
          /\ Forall (fun v => vol_Name v ∉ reservedNames) (ExtraVolumes (Template (wp_Spec wp)))
          /\ Forall (fun m => (vm_Name m ∉ reservedNames)
                 /\ (vm_Name m ∈ map vol_Name (ExtraVolumes (Template (wp_Spec wp))))
                 /\ mount_allowed (map rv_MountPath WorkerReservedVolumes ++ reservedMountPaths)
                      (vm_MountPath m)) (ExtraVolumeMounts (Template (wp_Spec wp)))).
Proof.
  split.
  - unfold DaemonAgent_Validate, validateAgentSandbox. rewrite !app_nil.
    rewrite validateImage_iff, !when_nil, String.eqb_neq, negb_false_iff, bool_decide_eq_true,
      validateEgressRefs_spec.
    rewrite !(opt_when_nil (fun t => t <? 0) _ (fun t => 0 <= t)) by (intros; apply Z.ltb_ge).
    done.
  - unfold WorkerPool_Validate. rewrite !app_nil.
    rewrite validateImage_iff, !nonNegative_spec, validateWorkerExtraMounts_iff. done.
Qed.

(** ** Defaulting and validation *)

Lemma scope_default s fp :
  validateRateLimitScope (orDefault s RateLimitScopePerAgent) fp = validateRateLimitScope s fp.
Proof.
  unfold orDefault. destruct (String.eqb s "") eqn:E; [|done]. apply String.eqb_eq in E as ->. done.
Qed.

Lemma MCPFilter_default_verdict `{RegexpEngine} fp f :
  validateMCPFilter fp (MCPFilter_Default f) = validateMCPFilter fp f.
Proof.
  unfold validateMCPFilter, MCPFilter_Default. cbn [mf_Type mf_ToolPolicy mf_ExtensionRef].
  destruct (String.eqb _ _); [done|]. destruct (String.eqb _ _); [|done].
  destruct (mf_ToolPolicy f) as [tp|]; cbn [option_map]; [|done].
  unfold validateToolPolicy. cbn [ToolPolicy_Default AllowedToolsRegex DeniedToolsRegex RateLimits].
  do 2 f_equal. apply each_ext. intros k rl. unfold validateToolRateLimit.
  cbn [ToolRateLimit_Default rl_Requests rl_Window rl_Scope rl_ToolsRegex]. by rewrite scope_default.
Qed.

(** Stamping the documented defaults never changes what validation says.
    For every kind with a defaulter the defaulted object gets exactly the error
    list of the object as written, so an object cannot become invalid (or valid)
    by being defaulted at decode time before it is validated. *)
Theorem Default_keeps_verdict `{RegexpEngine} (cron : string -> option string)
    (reg : Registry.registry) (now : Z) :
  (forall ta, TaskAgent_Validate cron (TaskAgent_Default ta) = TaskAgent_Validate cron ta)
  /\ (forall da, DaemonAgent_Validate (DaemonAgent_Default da) = DaemonAgent_Validate da)
  /\ (forall wp, WorkerPool_Validate (WorkerPool_Default wp) = WorkerPool_Validate wp)
  /\ (forall b, Backend_Validate reg (Backend_Default b) = Backend_Validate reg b)
  /\ (forall p, CredentialInjectionPolicy_Validate (CredentialInjectionPolicy_Default p)
               = CredentialInjectionPolicy_Validate p)
  /\ (forall p, RateLimitPolicy_Validate (RateLimitPolicy_Default p) = RateLimitPolicy_Validate p)
  /\ (forall p, EgressDenyPolicy_Validate (EgressDenyPolicy_Default p) = EgressDenyPolicy_Validate p)
  /\ (forall r, MCPRoute_Validate (MCPRoute_Default r) = MCPRoute_Validate r)
  /\ (forall c, CLRKConfig_Validate (CLRKConfig_Default now c) = CLRKConfig_Validate c).
Proof.
  split_and!.
  - intros [m [? ? [t|] ? ? ? ? ? ? ? ?]]; reflexivity.
  - intros [m [sb w rp mr ml er rest]]. unfold DaemonAgent_Validate, DaemonAgent_Default.
    cbn [da_Spec da_Sandbox da_WorkerPoolRef da_RestartPolicy da_MaxRestarts da_MaxLifetimeSeconds da_EgressRefs].
    unfold orDefault. destruct (String.eqb rp "") eqn:E; [|done].
    apply String.eqb_eq in E as ->. done.
  - intros [m [[r|] t ? ? ?]]; reflexivity.
  - intros [m s]; reflexivity.
  - intros [m s]; reflexivity.
  - intros [m s]. unfold RateLimitPolicy_Validate, RateLimitPolicy_Default.
    cbn [rlp_Spec rlp_Requests rlp_Window rlp_Scope]. by rewrite scope_default.
  - intros [m s]; reflexivity.
  - intros [m [pr hn rs]]. unfold MCPRoute_Validate, MCPRoute_Default. cbn [mcp_Spec mcp_Rules].
    apply each_ext. intros i rule. cbn [mr_Matches mr_Filters]. f_equal. apply each_ext.
    intros j f. apply MCPFilter_default_verdict.
  - intros [m [n]]. unfold CLRKConfig_Default. cbn [cfg_Spec Notifications]. by destruct (String.eqb _ _).
Qed.

(** ** Updates *)

Lemma skipUnchanged_same {S} `{EqDecision S} (s : S) errs : skipUnchanged s s errs = [].
Proof. unfold skipUnchanged. by rewrite bool_decide_eq_true_2. Qed.

Lemma skipUnchanged_ne {S} `{EqDecision S} (s s' : S) errs : s <> s' -> skipUnchanged s s' errs = errs.
Proof. intros. unfold skipUnchanged. by rewrite bool_decide_eq_false_2. Qed.

(** A write that leaves the spec alone is never rejected by the kinds that
    compare specs (worker pools, backends, fallback, credential, rate-limit and
    deny policies, and the three route kinds), whatever the stored spec looks
    like; a write that changes the spec is validated as a create is. *)
Theorem status_writes_admitted `{RegexpEngine} (reg : Registry.registry) :
  (forall wp old, WorkerPool_ValidateUpdate wp old
     = if bool_decide (wp_Spec old = wp_Spec wp) then [] else WorkerPool_Validate wp)
  /\ (forall b old, be_Spec old = be_Spec b -> Backend_ValidateUpdate reg b old = [])
  /\ (forall p old, frp_Spec old = frp_Spec p -> FallbackRoutingPolicy_ValidateUpdate p old = [])
  /\ (forall p old, cip_Spec old = cip_Spec p -> CredentialInjectionPolicy_ValidateUpdate p old = [])
  /\ (forall p old, rlp_Spec old = rlp_Spec p -> RateLimitPolicy_ValidateUpdate p old = [])
  /\ (forall p old, edp_Spec old = edp_Spec p -> EgressDenyPolicy_ValidateUpdate p old = [])
  /\ (forall r old, apr_Spec old = apr_Spec r -> AIProviderRoute_ValidateUpdate reg r old = [])
  /\ (forall r old, mcp_Spec old = mcp_Spec r -> MCPRoute_ValidateUpdate r old = [])
  /\ (forall r old, l4_Spec old = l4_Spec r -> EgressL4Route_ValidateUpdate r old = []).
Proof.
  split; [done|].
  split_and!; intros x old E;
    unfold Backend_ValidateUpdate, FallbackRoutingPolicy_ValidateUpdate,
      CredentialInjectionPolicy_ValidateUpdate, RateLimitPolicy_ValidateUpdate,
      EgressDenyPolicy_ValidateUpdate, AIProviderRoute_ValidateUpdate, MCPRoute_ValidateUpdate,
      EgressL4Route_ValidateUpdate;
    rewrite E; apply skipUnchanged_same.
Qed.

(** A task agent stored before the state-mount rule existed. *)
Definition legacyTaskAgent : TaskAgent :=
  mkTaskAgent (mkMeta "ns" "legacy" "1")
    (mkTaskAgentSpec (mkAgentSandbox "nginx" [] []) "pool" None None None None None [] None (Some (mkAgentState "" 0 "/etc/agent")) None "").

(** Task agents and daemon agents do not have that exemption.  An agent
    whose stored spec does not satisfy today's rules is rejected on every write,
    even one that leaves its spec untouched, so a status update of it cannot go
    through. *)
Theorem agent_status_write_rejected (cron : string -> option string) :
  (forall ta, TaskAgent_ValidateUpdate cron ta ta = TaskAgent_Validate cron ta)
  /\ (forall da, DaemonAgent_ValidateUpdate da da = DaemonAgent_Validate da)
  /\ TaskAgent_ValidateUpdate cron legacyTaskAgent legacyTaskAgent <> [].
Proof. split; [done|]. split; [done|]. by vm_compute. Qed.

End Admission.
