(* ===== verification/LlmRoute.v ===== *)
(** * LLM routing

    [src/internal/policyattach/policyattach.go] (policy attachment),
    [src/internal/llmroute/llmroute.go] (rule identity and candidate backends,
    shared by the Envoy extension server and ext_proc) and
    [src/internal/extproc/routetable.go] (the flattened table ext_proc matches a
    request against).  The provider registry is a parameter; the SHA-256 prefix
    of a rule key is an abstract function of its input. *)

From Stdlib Require Import ZArith Lia Ascii String List.
From stdpp Require Import base strings list gmap pretty.
From S2P Require Import Prelude GoStrings GoPath ApiTypes Registry Admission.
Import GoStrings GoPath ApiTypes.

Module LlmRoute.

(** ** Policy attachment *)

Record Target := mkTarget { t_Group : string; t_Kind : string; t_Namespace : string; t_Name : string }.

Definition RefMatches (policyNamespace : string) (ref : PolicyTargetRef) (target : Target) : bool :=
  if negb (String.eqb (t_Namespace target) policyNamespace) then false
  else String.eqb (tr_Group ref) (t_Group target) && String.eqb (tr_Kind ref) (t_Kind target)
       && String.eqb (tr_Name ref) (t_Name target).

Definition Section_ (ref : PolicyTargetRef) : string :=
  match tr_SectionName ref with Some s => s | None => "" end.

(** [policyattach.Match]. *)
Definition Match_ (policyNamespace : string) (refs : list PolicyTargetRef) (target : Target)
    : bool * string :=
  match List.find (fun ref => RefMatches policyNamespace ref target) refs with
  | Some ref => (true, Section_ ref)
  | None => (false, "")
  end.

(** ** Rule identity *)

Definition egressGatewayKind : string := "EgressGateway".
Definition backendKind : string := "Backend".
Definition aiProviderRouteKind : string := "AIProviderRoute".
Definition ClusterPrefix : string := "clrk-llm-".

(** The string that is hashed. *)
Definition ruleKeyInput (eg route : NamespacedName) (ruleIdx : nat) (provider : string) : string :=
  String.concat "" [nn_namespace eg; "/"; nn_name eg; "|"; nn_namespace route; "/"; nn_name route; "|";
                    pretty ruleIdx; "|"; provider].

Section Key.
(** The first twelve hex digits of the SHA-256 of a string. *)
Variable sha256_hex12 : string -> string.

Definition RuleKey (eg route : NamespacedName) (ruleIdx : nat) (provider : string) : string :=
  sha256_hex12 (ruleKeyInput eg route ruleIdx provider).
Definition ClusterName (ruleKey : string) : string := String.append ClusterPrefix ruleKey.
End Key.

(** ** References *)

Definition strOr (o : option string) : string := match o with Some s => s | None => "" end.

Definition parentRefIsClrkEgressGateway (ref : ParentReference) : bool :=
  String.eqb (strOr (pr_Group ref)) clrkAPIGroup && String.eqb (strOr (pr_Kind ref)) egressGatewayKind.

(** [ns := def; if ref.Namespace != nil && *ref.Namespace != "" { ns = ... }]. *)
Definition refNamespace (def : string) (o : option string) : string :=
  match o with Some ns => if String.eqb ns "" then def else ns | None => def end.

Definition parentRefsAttach (routeNamespace : string) (refs : list ParentReference)
    (egNamespace egName : string) : bool :=
  existsb (fun ref => parentRefIsClrkEgressGateway ref && String.eqb (pr_Name ref) egName
                      && String.eqb (refNamespace routeNamespace (pr_Namespace ref)) egNamespace) refs.

Definition RouteAttachesTo (route : AIProviderRoute) (egNamespace egName : string) : bool :=
  parentRefsAttach (Namespace (apr_Meta route)) (apr_ParentRefs (apr_Spec route)) egNamespace egName.

Definition BackendRefIsClrkBackend (ref : BackendRef) : bool :=
  String.eqb (strOr (br_Group ref)) clrkAPIGroup && String.eqb (strOr (br_Kind ref)) backendKind.

(** ** Candidates *)

Record Candidate := mkCandidate {
  c_Name : string;
  c_Namespace : string;
  c_Host : string;
  c_Port : Z;
  c_System : string;
  c_Weight : Z;
  c_ModelRewrites : list ModelRewrite;
  c_BodyMutation : option BackendBodyMutation;
  c_Refuse : bool;
  c_UnsupportedReason : string;
}.

Fixpoint rewriteModelWith (rewrites : list ModelRewrite) (model : string) : option string :=
  match rewrites with
  | [] => None
  | r :: rs => match Match (From r) model with
               | Some true => Some (To r)
               | _ => rewriteModelWith rs model
               end
  end.

Definition RewriteModel (c : Candidate) (model : string) : option string :=
  if String.eqb model "" then None else rewriteModelWith (c_ModelRewrites c) model.

Definition metaKey (m : ObjectMeta) : NamespacedName := mkNN (Namespace m) (Name m).

(** Later backends with the same key replace earlier ones. *)
Definition IndexBackends (backends : list Backend) : gmap NamespacedName Backend :=
  fold_left (fun m b => <[metaKey (be_Meta b) := b]> m) backends ∅.

Section Candidates.
Variable reg : Registry.registry.

Definition CanonicalProvider (provider : string) : string := Registry.Canonical reg (ToLower provider).

Definition inferencePoolReason : string :=
  "InferencePool backends are not yet supported by the egress data plane".

(** The first case of the switch: an upstream type with a host. *)
Definition servedUpstream (s : BackendSpec) : option BackendUpstream :=
  match be_Upstream s with
  | Some u => if String.eqb (be_Type s) BackendTypeUpstream && negb (String.eqb (Host u) "")
              then Some u else None
  | None => None
  end.

(** The body of the loop of [ResolveCandidates] once the Backend is found. *)
Definition candidateOf (ref : BackendRef) (be : Backend) : option Candidate :=
  let s := be_Spec be in
  let weight := match br_Weight ref with Some w => w | None => 1 end in
  let system := CanonicalProvider (be_SchemaName s) in
  let mk host port refuse reason :=
    Some (mkCandidate (Name (be_Meta be)) (Namespace (be_Meta be)) host port system weight
            (be_ModelRewrites s) (be_BodyMutation s) refuse reason) in
  match servedUpstream s with
  | Some u => mk (Host u) (if Port u =? 0 then 443 else Port u) false ""
  | None => if String.eqb (be_Type s) BackendTypeInferencePool
            then mk "" 0 true inferencePoolReason else None
  end.

Definition resolveRef (routeNamespace : string) (byKey : gmap NamespacedName Backend)
    (ref : BackendRef) : option Candidate :=
  if BackendRefIsClrkBackend ref then
    match byKey !! mkNN (refNamespace routeNamespace (br_Namespace ref)) (br_Name ref) with
    | Some be => candidateOf ref be
    | None => None
    end
  else None.

Definition ResolveCandidates (refs : list BackendRef) (routeNamespace : string)
    (byKey : gmap NamespacedName Backend) : list Candidate :=
  omap (resolveRef routeNamespace byKey) refs.

Definition hasCodec (system : string) : bool :=
  match Registry.ByName reg system with Some p => Registry.p_Codec p | None => false end.

Definition keepCandidate (provider : string) (c : Candidate) : bool :=
  if c_Refuse c || String.eqb (c_System c) provider then true
  else hasCodec provider && hasCodec (c_System c)
       && negb (match c_ModelRewrites c with [] => true | _ => false end).

Definition TranslatableCandidates (candidates : list Candidate) (provider : string) : list Candidate :=
  if String.eqb provider "" || String.eqb provider "custom" then candidates
  else List.filter (keepCandidate provider) candidates.

(** ** The route table of ext_proc *)

Record routeRule := mkRouteRule {
  routeNamespace : string;
  routeName : string;
  ruleIdx : nat;
  provider : string;
  endpoints : list string;
  models : list string;
  tokenBudget : option TokenBudgetFilter;
  backends : list Candidate;       (* [resolvedBackend]: the same fields *)
}.

Definition trustsOperator (rr : routeRule) : bool := String.eqb (provider rr) "custom".

Fixpoint firstTokenBudget (filters : list AIProviderRouteFilter) : option TokenBudgetFilter :=
  match filters with
  | [] => None
  | f :: fs => if String.eqb (af_Type f) AIProviderFilterTokenBudget then
                 match af_TokenBudget f with Some tb => Some tb | None => firstTokenBudget fs end
               else firstTokenBudget fs
  end.

Definition compileRule (byKey : gmap NamespacedName Backend) (r : AIProviderRoute)
    (i : nat) (rule : AIProviderRouteRule) : list routeRule :=
  let budget := firstTokenBudget (ar_Filters rule) in
  let ns := Namespace (apr_Meta r) in
  let resolved := ResolveCandidates (ar_BackendRefs rule) ns byKey in
  map (fun m =>
         let prov := CanonicalProvider (Provider m) in
         mkRouteRule ns (Name (apr_Meta r)) i prov (Endpoints m) (Models m) budget
           (TranslatableCandidates resolved prov))
      (ar_Matches rule).

Definition buildRouteTable (egNamespace egName : string) (routes : list AIProviderRoute)
    (backends : list Backend) : list routeRule :=
  let byKey := IndexBackends backends in
  flat_map (fun r => if RouteAttachesTo r egNamespace egName
                     then concat (imap (compileRule byKey r) (apr_Rules (apr_Spec r)))
                     else []) routes.

End Candidates.

Definition matchesGlobAny (patterns : list string) (value : string) : bool :=
  match patterns with
  | [] => true
  | _ => existsb (fun p => match Match p value with Some b => b | None => false end) patterns
  end.

(** [reqPath[:i]] at the first ["?"]. *)
Fixpoint stripQuery (p : string) : string :=
  match p with
  | EmptyString => EmptyString
  | String c t => if Ascii.eqb c "?" then EmptyString else String c (stripQuery t)
  end.

Definition ruleAccepts (prov path model : string) (rr : routeRule) : bool :=
  if String.eqb (provider rr) "" then false
  else if negb (String.eqb (provider rr) "custom") && negb (String.eqb (provider rr) prov) then false
  else if negb (matchesGlobAny (endpoints rr) path) then false
  else if negb (match models rr with [] => true | _ => false end) && String.eqb model "" then false
  else matchesGlobAny (models rr) model.

Definition match_ (t : list routeRule) (prov reqPath model : string) : option routeRule :=
  List.find (ruleAccepts prov (stripQuery reqPath) model) t.

(** ** Fallback policies *)

Definition PolicyAttachesTo (policy : FallbackRoutingPolicy) (routeNamespace routeName : string) : bool :=
  fst (Match_ (Namespace (frp_Meta policy)) (frp_TargetRefs (frp_Spec policy))
         (mkTarget clrkAPIGroup aiProviderRouteKind routeNamespace routeName)).

Definition policyLess (p w : FallbackRoutingPolicy) : bool :=
  String.ltb (Namespace (frp_Meta p)) (Namespace (frp_Meta w))
  || (String.eqb (Namespace (frp_Meta p)) (Namespace (frp_Meta w))
      && String.ltb (Name (frp_Meta p)) (Name (frp_Meta w))).

Definition fallbackStep (routeNamespace routeName : string) (winner : option FallbackRoutingPolicy)
    (p : FallbackRoutingPolicy) : option FallbackRoutingPolicy :=
  if negb (PolicyAttachesTo p routeNamespace routeName) then winner
  else match winner with
       | None => Some p
       | Some w => if policyLess p w then Some p else winner
       end.

Definition FallbackFor (policies : list FallbackRoutingPolicy) (routeNamespace routeName : string)
    : option FallbackRoutingPolicy :=
  fold_left (fallbackStep routeNamespace routeName) policies None.

(** ** Attachment *)

Lemma RefMatches_spec ns ref t :
  RefMatches ns ref t = true
  <-> t_Namespace t = ns /\ tr_Group ref = t_Group t /\ tr_Kind ref = t_Kind t /\ tr_Name ref = t_Name t.
Proof.
  unfold RefMatches. destruct (String.eqb (t_Namespace t) ns) eqn:E; cbn [negb]; bool_to_prop.
  - rewrite !andb_true_iff, !String.eqb_eq. tauto.
  - split; [done|]. by intros [? _].
Qed.

Lemma Match_spec ns refs t :
  fst (Match_ ns refs t) = true <-> exists ref, In ref refs /\ RefMatches ns ref t = true.
Proof.
  unfold Match_. destruct (List.find _ refs) as [ref|] eqn:E; cbn [fst].
  - apply find_some in E. split; [|done]. intros _. eauto.
  - split; [done|]. intros (ref & Hin & Hm). by rewrite (find_none _ _ E ref Hin) in Hm.
Qed.

(** Attachment as documented: a target reference of the policy spells out the
    group, the kind and the name of a route of its own namespace. *)
Definition attached (p : FallbackRoutingPolicy) (ns name : string) : Prop :=
  ns = Namespace (frp_Meta p)
  /\ exists ref, In ref (frp_TargetRefs (frp_Spec p)) /\ tr_Group ref = clrkAPIGroup
       /\ tr_Kind ref = aiProviderRouteKind /\ tr_Name ref = name.

Lemma PolicyAttachesTo_spec p ns name : PolicyAttachesTo p ns name = true <-> attached p ns name.
Proof.
  unfold PolicyAttachesTo, attached. rewrite Match_spec. setoid_rewrite RefMatches_spec.
  cbn [t_Namespace t_Group t_Kind t_Name]. naive_solver.
Qed.

(** ** The winning fallback policy *)

(** All the policies attached to a route live in its namespace, so the name
    alone decides. *)
Lemma policyLess_same_ns p w :
  Namespace (frp_Meta p) = Namespace (frp_Meta w) ->
  policyLess p w = negb (String.leb (Name (frp_Meta w)) (Name (frp_Meta p))).
Proof.
  intros E. unfold policyLess. rewrite E, !ltb_leb, String.eqb_refl, leb_refl. done.
Qed.

(** The policies read so far: the winner is the attached one with the least
    name. *)
Definition least_attached (ns name : string) (ps : list FallbackRoutingPolicy)
    (winner : option FallbackRoutingPolicy) : Prop :=
  match winner with
  | None => forall p, In p ps -> PolicyAttachesTo p ns name = false
  | Some w => In w ps /\ PolicyAttachesTo w ns name = true
              /\ forall p, In p ps -> PolicyAttachesTo p ns name = true ->
                   String.leb (Name (frp_Meta w)) (Name (frp_Meta p)) = true
  end.

Lemma fallbackStep_least ns name ps winner p :
  least_attached ns name ps winner ->
  least_attached ns name (ps ++ [p]) (fallbackStep ns name winner p).
Proof.
  intros H. unfold fallbackStep. destruct (PolicyAttachesTo p ns name) eqn:Ep; cbn [negb].
  2: { destruct winner as [w|]; cbn in *.
       - destruct H as (? & ? & H). split; [apply in_or_app; by left|]. split; [done|].
         intros q [Hq|[<-|[]]]%in_app_or Aq; [by apply H|congruence].
       - intros q [Hq|[<-|[]]]%in_app_or; auto. }
  destruct winner as [w|]; cbn in H.
  - destruct H as (Hw & Aw & Hmin).
    assert (Hns : Namespace (frp_Meta p) = Namespace (frp_Meta w)).
    { apply PolicyAttachesTo_spec in Ep as [? _], Aw as [? _]. congruence. }
    rewrite (policyLess_same_ns p w Hns).
    destruct (String.leb (Name (frp_Meta w)) (Name (frp_Meta p))) eqn:E; cbn [negb least_attached].
    + split; [apply in_or_app; by left|]. split; [done|].
      intros q [Hq|[<-|[]]]%in_app_or Aq; [by apply Hmin|done].
    + split; [apply in_or_app; right; by left|]. split; [done|].
      destruct (String.leb_total (Name (frp_Meta w)) (Name (frp_Meta p))) as [?|Hpw]; [congruence|].
      intros q [Hq|[<-|[]]]%in_app_or Aq; [|apply leb_refl].
      eapply leb_trans; [exact Hpw|by apply Hmin].
  - cbn. split; [apply in_or_app; right; by left|]. split; [done|].
    intros q [Hq|[<-|[]]]%in_app_or Aq; [|apply leb_refl]. by rewrite H in Aq.
Qed.

Lemma FallbackFor_least ns name ps : least_attached ns name ps (FallbackFor ps ns name).
Proof.
  unfold FallbackFor.
  assert (H : forall qs ws winner, least_attached ns name ws winner ->
    least_attached ns name (ws ++ qs) (fold_left (fallbackStep ns name) qs winner)).
  { induction qs as [|q qs IH]; intros ws winner Hw; cbn [fold_left]; [by rewrite app_nil_r|].
    replace (ws ++ q :: qs) with ((ws ++ [q]) ++ qs) by by rewrite <- app_assoc.
    apply IH. by apply fallbackStep_least. }
  apply (H ps [] None). intros p [].
Qed.

Definition frpKey (p : FallbackRoutingPolicy) : NamespacedName := metaKey (frp_Meta p).

(** Which fallback policy governs a route does not depend on the order of
    the cached list.  [FallbackFor] returns an attached policy whenever there is
    one, and it is the one with the least name; and since two objects never share
    namespace and name, listing the policies in any other order gives the same
    policy. *)
Theorem FallbackFor_deterministic (ps : list FallbackRoutingPolicy) (ns name : string) :
  match FallbackFor ps ns name with
  | Some w => In w ps /\ attached w ns name
              /\ forall p, In p ps -> attached p ns name ->
                   String.leb (Name (frp_Meta w)) (Name (frp_Meta p)) = true
  | None => forall p, In p ps -> ~ attached p ns name
  end
  /\ (NoDup (map frpKey ps) -> forall ps', ps ≡ₚ ps' -> FallbackFor ps' ns name = FallbackFor ps ns name).
Proof.
  split.
  { pose proof (FallbackFor_least ns name ps) as H. destruct (FallbackFor ps ns name) as [w|]; cbn in H.
    - setoid_rewrite PolicyAttachesTo_spec in H. exact H.
    - intros p Hp. rewrite <- PolicyAttachesTo_spec, (H p Hp). done. }
  intros Hnd ps' Hperm.
  pose proof (FallbackFor_least ns name ps) as H. pose proof (FallbackFor_least ns name ps') as H'.
  assert (Hin : forall p, In p ps <-> In p ps') by (intros p; rewrite <- !list_elem_of_In; by rewrite Hperm).
  destruct (FallbackFor ps ns name) as [w|], (FallbackFor ps' ns name) as [w'|]; cbn in H, H'; [| | |done].
  - destruct H as (Hw & Aw & Hm), H' as (Hw' & Aw' & Hm'). f_equal.
    assert (frpKey w' = frpKey w) as Hk.
    { unfold frpKey, metaKey. f_equal.
      - apply PolicyAttachesTo_spec in Aw as [? _], Aw' as [? _]. congruence.
      - apply leb_antisym_eq; [apply Hm'|apply Hm]; try done; by apply Hin. }
    apply Hin in Hw'. apply list_elem_of_In in Hw, Hw'.
    apply list_elem_of_lookup in Hw as [i Hi], Hw' as [j Hj].
    assert (i = j) as ->; [|congruence].
    eapply NoDup_lookup; [exact Hnd| |]; rewrite list_lookup_fmap.
    + by rewrite Hi.
    + rewrite Hj. cbn. by rewrite Hk.
  - destruct H as (Hw & Aw & _). apply Hin in Hw. by rewrite H' in Aw.
  - destruct H' as (Hw & Aw & _). apply Hin in Hw. by rewrite H in Aw.
Qed.

Definition frp_a : FallbackRoutingPolicy :=
  mkFRP (mkMeta "team" "a" "1")
    (mkFRPSpec [mkTargetRef clrkAPIGroup "AIProviderRoute" "chat" None] None None).
Definition frp_b : FallbackRoutingPolicy :=
  mkFRP (mkMeta "team" "b" "1")
    (mkFRPSpec [mkTargetRef clrkAPIGroup "AIProviderRoute" "chat" None] None None).

Lemma FallbackFor_deterministic_witness :
  FallbackFor [frp_b; frp_a] "team" "chat" = FallbackFor [frp_a; frp_b] "team" "chat"
  /\ FallbackFor [frp_b; frp_a] "team" "chat" = Some frp_a.
Proof.
  split; [|reflexivity].
  apply (proj2 (FallbackFor_deterministic [frp_a; frp_b] "team" "chat")); [|apply perm_swap].
  repeat (constructor; [set_solver|]). constructor.
Defined.

(** ** Admitted policies and backends are live *)

Lemma validateClrkRef_nil group kind name ks fp :
  Admission.validateClrkRef group kind name (Some ks) fp = [] ->
  group = clrkAPIGroup /\ kind ∈ ks /\ name <> "".
Proof.
  unfold Admission.validateClrkRef. rewrite !app_nil, Admission.when_nil, String.eqb_neq.
  intros (Hg & Hk & Hn). destruct (String.eqb group ""); [done|]. destruct (String.eqb kind ""); [done|].
  rewrite Admission.when_nil in Hg, Hk. bool_to_prop. done.
Qed.

(** An admitted fallback policy is never inert.  It has a target, and each of
    its target references attaches it to the [AIProviderRoute] of that name in
    the policy's own namespace, whole-route, so that [FallbackFor] finds some
    policy for each of those routes. *)
Theorem admitted_fallback_attaches (p : FallbackRoutingPolicy) :
  Admission.FallbackRoutingPolicy_Validate p = [] ->
  frp_TargetRefs (frp_Spec p) <> []
  /\ forall ref, In ref (frp_TargetRefs (frp_Spec p)) ->
       PolicyAttachesTo p (Namespace (frp_Meta p)) (tr_Name ref) = true
       /\ Section_ ref = ""
       /\ (forall ps, In p ps -> FallbackFor ps (Namespace (frp_Meta p)) (tr_Name ref) <> None).
Proof.
  unfold Admission.FallbackRoutingPolicy_Validate, Admission.noTargets.
  rewrite !app_nil, Admission.when_nil, Admission.each_nil. intros (Hne & Href & _).
  split; [by destruct (frp_TargetRefs _)|]. intros ref Hin.
  apply list_elem_of_In in Hin as Hin'. apply list_elem_of_lookup in Hin' as [i Hi]. apply Href in Hi.
  unfold Admission.validateFallbackRef in Hi. rewrite app_nil, Admission.when_nil in Hi.
  destruct Hi as [(Hg & Hk & _)%validateClrkRef_nil Hs].
  assert (Hk' : tr_Kind ref = "AIProviderRoute") by set_solver.
  assert (Hatt : PolicyAttachesTo p (Namespace (frp_Meta p)) (tr_Name ref) = true).
  { apply PolicyAttachesTo_spec. split; [done|]. by exists ref. }
  split; [done|]. split.
  - rewrite Hk' in Hs. cbn [String.eqb andb] in Hs. unfold Section_.
    unfold Admission.hasSection, Admission.opt_bad in Hs. destruct (tr_SectionName ref) as [sec|]; [|done].
    cbn in Hs. bool_to_prop. done.
  - intros ps Hp E. pose proof (FallbackFor_least (Namespace (frp_Meta p)) (tr_Name ref) ps) as H.
    rewrite E in H. cbn in H. by rewrite (H p Hp) in Hatt.
Qed.

Lemma admitted_fallback_attaches_witness : PolicyAttachesTo frp_a "team" "chat" = true.
Proof.
  destruct (admitted_fallback_attaches frp_a) as [_ H]; [reflexivity|].
  by apply (H (mkTargetRef clrkAPIGroup "AIProviderRoute" "chat" None)); left.
Defined.

Section WithRegistry.
Context (reg : Registry.registry) (Hreg : Registry.wf reg).

Lemma KnownName_canonical n :
  Registry.KnownName reg n = true -> exists p, Registry.ByName reg (Registry.Canonical reg n) = Some p.
Proof.
  intros (Hne & p & Hp & Hn)%Registry.KnownName_spec; [|done].
  unfold Registry.Canonical. destruct (Registry.aliasToName reg !! n) as [m|] eqn:E.
  - apply (Registry.wf_alias_owner _ Hreg) in E as (q & Hq & <- & _).
    apply (Registry.wf_listed _ Hreg) in Hq as [Hqn Hq]. exists q.
    unfold Registry.ByName. by apply String.eqb_neq in Hqn as ->.
  - destruct Hn as [<-|Ha]; [|by rewrite (Registry.wf_alias _ Hreg p n Hp Ha) in E].
    apply (Registry.wf_listed _ Hreg) in Hp as [_ Hp]. exists p.
    unfold Registry.ByName. by apply String.eqb_neq in Hne as ->.
Qed.

Lemma custom_canonical :
  Registry.KnownName reg "custom" = false -> Registry.Canonical reg "custom" = "custom".
Proof.
  unfold Registry.KnownName, Registry.Canonical. cbn [String.eqb].
  destruct (Registry.aliasToName reg !! _); [|done].
  by rewrite bool_decide_eq_true_2 by eauto.
Qed.

(** An admitted backend is served.  Once defaulted, a backend whose schema
    name passed admission and that names an upstream host resolves, for any
    reference to it, to a candidate that dials that host on a non-zero port, is
    not refused, and whose wire schema has a registered provider (or is
    ["custom"]); and a backend with no type is treated as an upstream only
    because of the defaulter: as stored without it, it would be dropped. *)
Theorem admitted_backend_served (be : Backend) (u : BackendUpstream) (ref : BackendRef)
    (rns : string) (byKey : gmap NamespacedName Backend) :
  Registry.KnownName reg "custom" = false ->
  Admission.Backend_Validate reg be = [] ->
  be_Upstream (be_Spec be) = Some u -> Host u <> "" ->
  (be_Type (be_Spec be) = "" \/ be_Type (be_Spec be) = BackendTypeUpstream) ->
  BackendRefIsClrkBackend ref = true ->
  byKey !! mkNN (refNamespace rns (br_Namespace ref)) (br_Name ref) = Some (Admission.Backend_Default be) ->
  exists c, resolveRef reg rns byKey ref = Some c
    /\ c_Host c = Host u /\ c_Port c <> 0 /\ c_Refuse c = false
    /\ (c_System c = "custom" \/ exists p, Registry.ByName reg (c_System c) = Some p)
    /\ (be_Type (be_Spec be) = "" -> candidateOf reg ref be = None).
Proof.
  intros Hcustom Hv Hu Hh Ht Hr Hk. unfold resolveRef. rewrite Hr, Hk.
  unfold candidateOf, servedUpstream. cbn [Admission.Backend_Default be_Spec be_Meta be_Upstream be_Type be_SchemaName
    be_ModelRewrites be_BodyMutation].
  rewrite Hu. apply String.eqb_neq in Hh. rewrite Hh. cbn [negb].
  assert (Admission.orDefault (be_Type (be_Spec be)) BackendTypeUpstream = BackendTypeUpstream) as ->.
  { by destruct Ht as [->| ->]. }
  rewrite String.eqb_refl. cbn [andb].
  eexists. split; [reflexivity|]. cbn [c_Host c_Port c_Refuse c_System].
  split; [done|]. split; [destruct (Port u =? 0) eqn:E; bool_to_prop; done|]. split; [done|]. split.
  - unfold Admission.Backend_Validate, Admission.validateProviderSchemaName in Hv.
    destruct (String.eqb (be_SchemaName (be_Spec be)) ""); [done|].
    unfold CanonicalProvider. destruct (String.eqb (ToLower _) "custom") eqn:Ec; cbn [orb] in Hv.
    + left. apply String.eqb_eq in Ec as ->. by apply custom_canonical.
    + right. destruct (Registry.KnownName reg (ToLower (be_SchemaName (be_Spec be)))) eqn:Ek; [|done].
      by apply KnownName_canonical.
  - intros ->. done.
Qed.

End WithRegistry.

Definition be_demo : Backend :=
  mkBackend (mkMeta "team" "gpt" "1")
    (mkBackendSpec "" "OpenAI" (Some (mkUpstream "api.openai.com" 0)) None [] None).

Lemma admitted_backend_served_witness :
  exists c, resolveRef Registry.builtinRegistry "team" {[mkNN "team" "gpt" := Admission.Backend_Default be_demo]}
              (mkBackendRef (Some clrkAPIGroup) (Some "Backend") None "gpt" None) = Some c
            /\ c_Host c = "api.openai.com".
Proof.
  destruct (admitted_backend_served Registry.builtinRegistry Registry.builtin_wf be_demo
              (mkUpstream "api.openai.com" 0)
              (mkBackendRef (Some clrkAPIGroup) (Some "Backend") None "gpt" None) "team"
              {[mkNN "team" "gpt" := Admission.Backend_Default be_demo]})
    as (c & H1 & H2 & _).
  - vm_compute; reflexivity.
  - vm_compute; reflexivity.
  - reflexivity.
  - done.
  - by left.
  - reflexivity.
  - by rewrite lookup_singleton_eq.
  - exists c. by split.
Defined.

(** ** The route table *)

Section Table.
Context (reg : Registry.registry).

(** The entry compiled from one match clause. *)
Definition entryOf (byKey : gmap NamespacedName Backend) (r : AIProviderRoute) (i : nat)
    (rule : AIProviderRouteRule) (m : AIProviderRouteMatch) : routeRule :=
  let prov := CanonicalProvider reg (ApiTypes.Provider m) in
  mkRouteRule (Namespace (apr_Meta r)) (Name (apr_Meta r)) i prov (Endpoints m) (Models m)
    (firstTokenBudget (ar_Filters rule))
    (TranslatableCandidates reg
       (ResolveCandidates reg (ar_BackendRefs rule) (Namespace (apr_Meta r)) byKey) prov).

Lemma in_concat_imap {A B} (f : nat -> A -> list B) (l : list A) (b : B) :
  In b (concat (imap f l)) <-> exists i a, l !! i = Some a /\ In b (f i a).
Proof.
  revert f. induction l as [|a l IH]; intros f.
  { cbn. split; [done|]. intros (i & a & H & _). by rewrite lookup_nil in H. }
  rewrite imap_cons. cbn [concat]. rewrite in_app_iff, IH. split.
  - intros [H|(i & x & Hi & H)]; [by exists 0%nat, a|by exists (S i), x].
  - intros ([|i] & x & Hi & H); cbn in Hi; [injection Hi as ->; by left|right; by exists i, x].
Qed.

Lemma in_buildRouteTable egNs egName routes bes rr :
  In rr (buildRouteTable reg egNs egName routes bes)
  <-> exists r i rule m, In r routes /\ RouteAttachesTo r egNs egName = true
        /\ apr_Rules (apr_Spec r) !! i = Some rule /\ In m (ar_Matches rule)
        /\ rr = entryOf (IndexBackends bes) r i rule m.
Proof.
  unfold buildRouteTable. rewrite in_flat_map. split.
  - intros (r & Hr & H). destruct (RouteAttachesTo r egNs egName) eqn:E; [|done].
    apply in_concat_imap in H as (i & rule & Hi & H). unfold compileRule in H.
    apply in_map_iff in H as (m & <- & Hm). by exists r, i, rule, m.
  - intros (r & i & rule & m & Hr & E & Hi & Hm & ->). exists r. rewrite E. split; [done|].
    apply in_concat_imap. exists i, rule. split; [done|]. unfold compileRule.
    apply in_map_iff. by exists m.
Qed.

(** A candidate the data plane can serve for a rule: it refuses cleanly, or it
    has a destination and a wire schema the rule's requests can be sent in. *)
Definition servable (prov : string) (c : Candidate) : Prop :=
  c_Refuse c = true
  \/ (c_Host c <> "" /\ c_Port c <> 0
      /\ (prov = "" \/ prov = "custom" \/ c_System c = prov
          \/ (hasCodec reg prov = true /\ hasCodec reg (c_System c) = true /\ c_ModelRewrites c <> []))).

Lemma candidateOf_dialable ref be c :
  candidateOf reg ref be = Some c -> c_Refuse c = true \/ (c_Host c <> "" /\ c_Port c <> 0).
Proof.
  unfold candidateOf. destruct (servedUpstream (be_Spec be)) as [u|] eqn:Eu.
  - intros [= <-]. right. cbn [c_Host c_Port]. unfold servedUpstream in Eu.
    destruct (be_Upstream (be_Spec be)) as [u'|]; [|done].
    destruct (_ && _)%bool eqn:Ea; [|done]. injection Eu as ->. bool_to_prop. split; [done|].
    destruct (Port u =? 0) eqn:E; bool_to_prop; lia.
  - destruct (String.eqb _ _); [|done]. intros [= <-]. by left.
Qed.

Lemma candidates_servable refs ns byKey prov :
  Forall (servable prov) (TranslatableCandidates reg (ResolveCandidates reg refs ns byKey) prov).
Proof.
  assert (Hd : Forall (fun c => c_Refuse c = true \/ (c_Host c <> "" /\ c_Port c <> 0))
                 (ResolveCandidates reg refs ns byKey)).
  { apply Forall_forall. intros c (ref & _ & Hc)%list_elem_of_omap. unfold resolveRef in Hc.
    destruct (BackendRefIsClrkBackend ref); [|done]. destruct (byKey !! _) as [be|]; [|done].
    by eapply candidateOf_dialable. }
  unfold TranslatableCandidates. destruct (_ || _)%bool eqn:E.
  - eapply Forall_impl; [exact Hd|]. intros c [Hc|[? ?]]; [by left|right].
    apply orb_true_iff in E as [->%String.eqb_eq| ->%String.eqb_eq]; tauto.
  - apply Forall_forall. intros c Hc. apply list_elem_of_In, filter_In in Hc as [Hc Hk].
    apply list_elem_of_In in Hc. rewrite Forall_forall in Hd. destruct (Hd c Hc) as [?|[? ?]]; [by left|].
    unfold keepCandidate in Hk. destruct (c_Refuse c) eqn:Er; [by left|]. right. split; [done|]. split; [done|].
    right. right. cbn [orb] in Hk. destruct (String.eqb (c_System c) prov) eqn:Es; bool_to_prop; [by left|right].
    split; [done|]. split; [done|]. by destruct (c_ModelRewrites c).
Qed.

Lemma ruleAccepts_preflight prov path rr : ruleAccepts prov path "" rr = true -> models rr = [].
Proof.
  unfold ruleAccepts. destruct (String.eqb (provider rr) ""); [done|]. destruct (_ && _)%bool; [done|].
  destruct (negb _); [done|]. by destruct (models rr).
Qed.

(** What a clause accepts: a provider clause that is ["custom"] or names the
    request's provider, a path and a model that match one of the globs (no globs:
    anything), and a known model if the clause restricts models. *)
Definition globs_accept (patterns : list string) (value : string) : Prop :=
  patterns = [] \/ exists p, In p patterns /\ Match p value = Some true.

Definition clause_accepts (prov path model : string) (rr : routeRule) : Prop :=
  provider rr <> "" /\ (provider rr = "custom" \/ provider rr = prov)
  /\ globs_accept (endpoints rr) path /\ globs_accept (models rr) model
  /\ (models rr <> [] -> model <> "").

Lemma matchesGlobAny_spec ps v : matchesGlobAny ps v = true <-> globs_accept ps v.
Proof.
  unfold matchesGlobAny, globs_accept. destruct ps as [|p ps]; [naive_solver|].
  rewrite existsb_exists. split.
  - intros (q & Hq & H). right. exists q. split; [done|]. by destruct (Match q v) as [[]|].
  - intros [?|(q & Hq & H)]; [done|]. exists q. by rewrite H.
Qed.

Lemma ruleAccepts_spec prov path model rr :
  ruleAccepts prov path model rr = true <-> clause_accepts prov path model rr.
Proof.
  unfold ruleAccepts, clause_accepts. rewrite <- !matchesGlobAny_spec.
  destruct (String.eqb_spec (provider rr) ""); [naive_solver|].
  destruct (String.eqb_spec (provider rr) "custom"), (String.eqb_spec (provider rr) prov); cbn [negb andb];
    try naive_solver.
  all: destruct (matchesGlobAny (endpoints rr) path); cbn [negb]; [|naive_solver];
    destruct (models rr) eqn:Em, (String.eqb_spec model ""); cbn [negb andb]; naive_solver.
Qed.

(** C35: a request is governed by the first clause that accepts it, and only by a
    route attached to its gateway.  A match found in the table of a gateway is
    compiled from a match clause of a rule of an attached route, accepts the
    provider, path and model, and every entry before it rejects them; all the
    backends it carries can be served (cleanly refused, or dialable and in the
    client's schema or one its requests can be translated to with a model
    rewrite); and before the body is read (no model) no model-scoped clause is
    chosen.  When nothing matches, no clause of any attached route accepts. *)
Theorem route_table_first_match (egNs egName : string) (routes : list AIProviderRoute)
    (bes : list Backend) (prov reqPath model : string) :
  match match_ (buildRouteTable reg egNs egName routes bes) prov reqPath model with
  | Some rr =>
      (exists pre post, buildRouteTable reg egNs egName routes bes = pre ++ rr :: post
         /\ Forall (fun e => ~ clause_accepts prov (stripQuery reqPath) model e) pre)
      /\ (exists r i rule m, In r routes /\ RouteAttachesTo r egNs egName = true
           /\ apr_Rules (apr_Spec r) !! i = Some rule /\ In m (ar_Matches rule)
           /\ rr = entryOf (IndexBackends bes) r i rule m)
      /\ clause_accepts prov (stripQuery reqPath) model rr
      /\ Forall (servable (provider rr)) (backends rr)
      /\ (model = "" -> models rr = [])
  | None =>
      forall r i rule m, In r routes -> RouteAttachesTo r egNs egName = true ->
        apr_Rules (apr_Spec r) !! i = Some rule -> In m (ar_Matches rule) ->
        ~ clause_accepts prov (stripQuery reqPath) model (entryOf (IndexBackends bes) r i rule m)
  end.
Proof.
  unfold match_. destruct (List.find _ _) as [rr|] eqn:E.
  - pose proof (find_some _ _ E) as [Hin Hacc]. split; [|split; [|split; [by apply ruleAccepts_spec|split]]].
    + clear Hin Hacc. setoid_rewrite <- ruleAccepts_spec. revert E. generalize (buildRouteTable reg egNs egName routes bes) as t.
      induction t as [|e t IH]; cbn; [done|]. destruct (ruleAccepts _ _ _ e) eqn:Ea.
      * intros [= ->]. by exists [], t.
      * intros (pre & post & -> & Hp)%IH. exists (e :: pre), post. split; [done|].
        constructor; [by rewrite Ea|done].
    + by apply in_buildRouteTable.
    + apply in_buildRouteTable in Hin as (r & i & rule & m & _ & _ & _ & _ & ->).
      cbn [provider backends entryOf]. apply candidates_servable.
    + intros ->. by eapply ruleAccepts_preflight.
  - intros r i rule m Hr Ha Hi Hm. rewrite <- ruleAccepts_spec. apply not_true_iff_false, (find_none _ _ E). apply in_buildRouteTable. eauto 10.
Qed.

(** A path with a query is matched as the path alone. *)
Lemma match_ignores_query t prov path query model :
  Count path "?" = 0%nat ->
  match_ t prov (String.append path (String "?" query)) model = match_ t prov path model.
Proof.
  intros H. unfold match_. f_equal. f_equal. transitivity path.
  - induction path as [|c p IH]; [done|]. cbn -[Ascii.eqb] in *.
    destruct (Ascii.eqb c "?") eqn:E; [lia|].
    change (String.append (String c p) (String "?" query)) with (String c (String.append p (String "?" query))).
    cbn [stripQuery]. rewrite E, IH by lia. done.
  - symmetry. induction path as [|c p IH]; [done|]. cbn -[Ascii.eqb] in *.
    destruct (Ascii.eqb c "?") eqn:E; [lia|]. by rewrite IH by lia.
Qed.

End Table.

(** ** Rule keys *)

(** A Kubernetes name contains neither separator of the key. *)
Definition plain_name (s : string) : Prop := Count s "/" = 0%nat /\ Count s "|" = 0%nat.
Definition plain_key (n : NamespacedName) : Prop := plain_name (nn_namespace n) /\ plain_name (nn_name n).

Lemma pretty_N_char_digit n : Ascii.eqb (pretty_N_char n) "|" = false.
Proof. unfold pretty_N_char. by repeat case_match. Qed.

Lemma pretty_N_go_plain x : forall s, Count s "|" = 0%nat -> Count (pretty_N_go x s) "|" = 0%nat.
Proof.
  induction (N.lt_wf_0 x) as [x _ IH]; intros s Hs.
  destruct (decide (x = 0)%N) as [->|Hx]; [by rewrite pretty_N_go_0|].
  rewrite pretty_N_go_step by lia. apply IH; [apply N.div_lt; lia|].
  cbn -[Ascii.eqb]. by rewrite pretty_N_char_digit.
Qed.

Lemma pretty_nat_plain (n : nat) : Count (pretty n) "|" = 0%nat.
Proof.
  unfold pretty, pretty_nat, pretty, pretty_N. case_decide; [done|]. by apply pretty_N_go_plain.
Qed.

(** The hashed string determines the rule it was made for. *)
Lemma ruleKeyInput_inj (eg eg' route route' : NamespacedName) (i i' : nat) (prov prov' : string) :
  plain_key eg -> plain_key eg' -> plain_key route -> plain_key route' ->
  ruleKeyInput eg route i prov = ruleKeyInput eg' route' i' prov' ->
  eg = eg' /\ route = route' /\ i = i' /\ prov = prov'.
Proof.
  intros [[E1 _] [_ E2]] [[E1' _] [_ E2']] [[R1 _] [_ R2]] [[R1' _] [_ R2']] E.
  unfold ruleKeyInput in E. rewrite !str_concat_cons in E. cbn [String.concat] in E.
  repeat change (String.append "/" ?x) with (String "/" x) in E.
  repeat change (String.append "|" ?x) with (String "|" x) in E.
  apply sep_inj in E as [N1 E]; [|done..]. apply sep_inj in E as [N2 E]; [|done..].
  apply sep_inj in E as [N3 E]; [|done..]. apply sep_inj in E as [N4 E]; [|done..].
  apply sep_inj in E as [N5%(inj pretty) E]; [|apply pretty_nat_plain..].
  rewrite !str_app_nil_r in E.
  destruct eg, eg', route, route'; cbn in *; subst. done.
Qed.

(** A rule key identifies the rule.  For gateways and routes with Kubernetes
    names (no separator inside), two rules get the same key only if gateway,
    route, rule index and provider all agree, or the truncated hash collides on
    the two different strings hashed for them. *)
Theorem RuleKey_identifies (sha256_hex12 : string -> string) (eg eg' route route' : NamespacedName)
    (i i' : nat) (prov prov' : string) :
  plain_key eg -> plain_key eg' -> plain_key route -> plain_key route' ->
  ClusterName (RuleKey sha256_hex12 eg route i prov) = ClusterName (RuleKey sha256_hex12 eg' route' i' prov') ->
  (eg = eg' /\ route = route' /\ i = i' /\ prov = prov')
  \/ (ruleKeyInput eg route i prov <> ruleKeyInput eg' route' i' prov'
      /\ sha256_hex12 (ruleKeyInput eg route i prov) = sha256_hex12 (ruleKeyInput eg' route' i' prov')).
Proof.
  intros He He' Hr Hr' H.
  unfold ClusterName in H. apply (f_equal (fun s => TrimPrefix s ClusterPrefix)) in H.
  rewrite !TrimPrefix_app in H. unfold RuleKey in H.
  destruct (decide (ruleKeyInput eg route i prov = ruleKeyInput eg' route' i' prov')) as [E|N];
    [left|right; done]. by apply ruleKeyInput_inj.
Qed.

Lemma RuleKey_identifies_witness :
  let k i := ClusterName (RuleKey (fun s => s) (mkNN "team" "eg") (mkNN "team" "chat") i "openai") in
  k 1%nat <> k 2%nat.
Proof.
  intros k E.
  destruct (RuleKey_identifies (fun s => s) (mkNN "team" "eg") (mkNN "team" "eg") (mkNN "team" "chat")
              (mkNN "team" "chat") 1%nat 2%nat "openai" "openai") as [(_ & _ & H & _)|(N & H)];
    [repeat split..|exact E|done|by apply N].
Defined.

End LlmRoute.
