(* ===== verification/McpRoute.v ===== *)
(** * MCP routes and tool policies

    [src/internal/extproc/mcproutetable.go] (the table of MCP rules of a gateway,
    the cheap gate, matching and tool-policy evaluation) and
    [src/internal/extproc/parsers/mcp.go] (the JSON-RPC envelope).

    The regexp engine and the JSON decoder (a third-party package) are
    parameters; bodies are byte strings. *)

From Stdlib Require Import ZArith Lia Ascii String List.
From stdpp Require Import base strings list gmap sets.
From S2P Require Import Prelude GoStrings GoPath ApiTypes Registry Admission LlmRoute.
Import GoStrings GoPath ApiTypes LlmRoute.

Module McpRoute.

(** ** The JSON-RPC envelope ([parsers/mcp.go]) *)

Definition MCPMethodToolsCall : string := "tools/call".
Definition MCPMethodResourcesRead : string := "resources/read".
Definition headerMCPProtocolVersion : string := "mcp-protocol-version".

Record MCPInfo := mkMCPInfo {
  Method : string;
  ToolName : string;
  ResourceURI : string;
  ID : string;
  ProtocolVersion : string;
  IsError : bool;
  ErrorCode : Z;
}.

Record MCPResult := mkMCPResult { res_IsError : bool; res_ErrorCode : Z }.

(** [params] carries the name and the uri; [env_ID] is the raw JSON of the id. *)
Record mcpEnvelope := mkEnvelope {
  env_Method : string;
  env_Params : option (string * string);
  env_ID : string;
}.

(** [llmcall.Input], the fields the MCP parser reads. *)
Record Input := mkInput {
  ReqHeaders : gmap string string;
  ReqBody : string;
  ReqTruncated : bool;
  RespBody : string;
  RespTruncated : bool;
}.

Definition json_space (c : ascii) : bool :=
  Ascii.eqb c " " || Ascii.eqb c "009" || Ascii.eqb c "010" || Ascii.eqb c "013".

(** The byte 0 when there is none. *)
Fixpoint firstNonWhitespace (b : string) : ascii :=
  match b with
  | EmptyString => "000"
  | String c t => if json_space c then firstNonWhitespace t else c
  end.

Definition IsBatch (body : string) : bool := Ascii.eqb (firstNonWhitespace body) "[".

(** [strings.TrimSpace] on ASCII. *)
Definition ascii_space (c : ascii) : bool :=
  json_space c || Ascii.eqb c "011" || Ascii.eqb c "012".
Fixpoint trimLeft (s : string) : string :=
  match s with
  | String c t => if ascii_space c then trimLeft t else s
  | EmptyString => EmptyString
  end.
Definition TrimSpace (s : string) : string :=
  str_rev (trimLeft (str_rev (trimLeft s) "")) "".

Definition dquote : ascii := "034".

Definition unquoteJSONScalar (raw : string) : string :=
  let raw := TrimSpace raw in
  if (2 <=? String.length raw)%nat && HasPrefix raw (String dquote "")
     && HasSuffix raw (String dquote "")
  then take_str (String.length raw - 2) (drop_str 1 raw)
  else raw.

Section Parsers.
(** [jsonx.Unmarshal] into the request and the response envelope. *)
Variable unmarshalRequest : string -> option mcpEnvelope.
Variable unmarshalResponse : string -> option (option Z).

Definition ParseRequest (inp : Input) : option MCPInfo :=
  let body := ReqBody inp in
  if ReqTruncated inp || String.eqb body "" then None
  else if Ascii.eqb (firstNonWhitespace body) "[" then None
  else match unmarshalRequest body with
       | None => None
       | Some env =>
           if String.eqb (env_Method env) "" then None
           else
             let tool := match env_Params env with
                         | Some (name, _) => if String.eqb (env_Method env) MCPMethodToolsCall then name else ""
                         | None => ""
                         end in
             let uri := match env_Params env with
                        | Some (_, uri) => if String.eqb (env_Method env) MCPMethodResourcesRead then uri else ""
                        | None => ""
                        end in
             let id := if String.eqb (env_ID env) "" then "" else unquoteJSONScalar (env_ID env) in
             let version := match ReqHeaders inp !! headerMCPProtocolVersion with Some v => v | None => "" end in
             Some (mkMCPInfo (env_Method env) tool uri id version false 0)
       end.

Definition ParseResponse (inp : Input) : option MCPResult :=
  let body := RespBody inp in
  if RespTruncated inp || String.eqb body "" then None
  else if negb (Ascii.eqb (firstNonWhitespace body) "{") then None
  else match unmarshalResponse body with
       | None => None
       | Some None => Some (mkMCPResult false 0)
       | Some (Some code) => Some (mkMCPResult true code)
       end.
End Parsers.

(** ** The table *)

Section Table.
Context `{RegexpEngine}.

Record compiledToolPolicy := mkCompiled {
  raw : ToolPolicyFilter;
  allowedRegex : list Regexp;
  deniedRegex : list Regexp;
}.

Record mcpRouteRule := mkMcpRouteRule {
  mr_routeNamespace : string;
  mr_routeName : string;
  routeHosts : list string;
  servers : list string;
  tools : list string;
  resources : list string;
  methods : list string;
  toolsRE : list Regexp;
  toolPolicy : option compiledToolPolicy;
}.

Record mcpRouteTable := mkTable {
  hostnames : list string;
  acceptAnyHost : bool;
  rules : list mcpRouteRule;
}.

(** [None] when a pattern does not compile. *)
Fixpoint compileRegexList (patterns : list string) : option (list Regexp) :=
  match patterns with
  | [] => Some []
  | p :: ps => match Compile p with
               | inr _ => None
               | inl re => option_map (cons re) (compileRegexList ps)
               end
  end.

Fixpoint firstMCPToolPolicy (filters : list MCPRouteFilter) : option ToolPolicyFilter :=
  match filters with
  | [] => None
  | f :: fs => if String.eqb (mf_Type f) MCPFilterToolPolicy then
                 match mf_ToolPolicy f with Some tp => Some tp | None => firstMCPToolPolicy fs end
               else firstMCPToolPolicy fs
  end.

(** [None] is "not ok": the rule is dropped. *)
Definition compileToolPolicy (tp : option ToolPolicyFilter) : option (option compiledToolPolicy) :=
  match tp with
  | None => Some None
  | Some tp =>
      match compileRegexList (AllowedToolsRegex tp) with
      | None => None
      | Some allowed =>
          match compileRegexList (DeniedToolsRegex tp) with
          | None => None
          | Some denied => Some (Some (mkCompiled tp allowed denied))
          end
      end
  end.

Definition mcpRouteAttachesTo (route : MCPRoute) (egNamespace egName : string) : bool :=
  parentRefsAttach (Namespace (mcp_Meta route)) (mcp_ParentRefs (mcp_Spec route)) egNamespace egName.

Definition lowerHostnames (hs : list string) : list string := map ToLower hs.

Definition appendUniqueStrings (dst src : list string) : list string :=
  fold_left (fun dst s => if bool_decide (s ∈ dst) then dst else dst ++ [s]) src dst.

Definition compileMCPMatch (r : MCPRoute) (tp : option compiledToolPolicy) (m : MCPRouteMatch)
    : list mcpRouteRule :=
  match compileRegexList (ToolsRegex m) with
  | None => []
  | Some re => [mkMcpRouteRule (Namespace (mcp_Meta r)) (Name (mcp_Meta r))
                  (lowerHostnames (mcp_Hostnames (mcp_Spec r)))
                  (Servers m) (Tools m) (Resources m) (Methods m) re tp]
  end.

Definition compileMCPRule (r : MCPRoute) (rule : MCPRouteRule) : list mcpRouteRule :=
  match compileToolPolicy (firstMCPToolPolicy (mr_Filters rule)) with
  | None => []
  | Some tp => flat_map (compileMCPMatch r tp) (mr_Matches rule)
  end.

(** The loop body of [buildMCPRouteTable]. *)
Definition addRoute (egNamespace egName : string) (t : mcpRouteTable) (r : MCPRoute) : mcpRouteTable :=
  if negb (mcpRouteAttachesTo r egNamespace egName) then t
  else
    let hosts := lowerHostnames (mcp_Hostnames (mcp_Spec r)) in
    let rules' := rules t ++ flat_map (compileMCPRule r) (mcp_Rules (mcp_Spec r)) in
    match hosts with
    | [] => mkTable (hostnames t) true rules'
    | _ => mkTable (appendUniqueStrings (hostnames t) hosts) (acceptAnyHost t) rules'
    end.

Definition buildMCPRouteTable (egNamespace egName : string) (routes : list MCPRoute)
    : option mcpRouteTable :=
  let t := fold_left (addRoute egNamespace egName) routes (mkTable [] false []) in
  match rules t with [] => None | _ => Some t end.

(** ** Matching *)

Definition hostnameMatches (pattern host : string) : bool :=
  let pattern := ToLower pattern in
  if HasPrefix pattern "*." then
    if negb (HasSuffix host (drop_str 1 pattern)) then false
    else (Count host "." =? Count pattern ".")%nat
  else String.eqb pattern host.

Definition hostMatches (t : mcpRouteTable) (host : string) : bool :=
  if acceptAnyHost t then true
  else existsb (fun pattern => hostnameMatches pattern (ToLower host)) (hostnames t).

Definition acceptsHost (rr : mcpRouteRule) (host : string) : bool :=
  match routeHosts rr with
  | [] => true
  | hs => existsb (fun pattern => hostnameMatches pattern host) hs
  end.

Definition matchesGlobList (patterns : list string) (value : string) : bool :=
  existsb (fun p => match Match p value with Some b => b | None => false end) patterns.

Definition matchesAnyRegex (rs : list Regexp) (value : string) : bool :=
  existsb (fun r => MatchString r value) rs.

Definition matchesToolPattern (globs : list string) (regexes : list Regexp) (value : string) : bool :=
  match globs, regexes with
  | [], [] => true
  | _, _ => matchesGlobList globs value || matchesAnyRegex regexes value
  end.

Definition mcpRuleAccepts (h : string) (info : MCPInfo) (rr : mcpRouteRule) : bool :=
  if negb (acceptsHost rr h) then false
  else if negb (matchesGlobAny (servers rr) h) then false
  else if negb (matchesGlobAny (methods rr) (Method info)) then false
  else if String.eqb (Method info) MCPMethodToolsCall
          && negb (matchesToolPattern (tools rr) (toolsRE rr) (ToolName info)) then false
  else if String.eqb (Method info) MCPMethodResourcesRead
          && negb (matchesGlobAny (resources rr) (ResourceURI info)) then false
  else true.

Definition mcp_match (t : mcpRouteTable) (host : string) (info : MCPInfo) : option mcpRouteRule :=
  List.find (mcpRuleAccepts (ToLower host) info) (rules t).

Definition mcpCandidate (t : option mcpRouteTable) (host contentType : string) : bool :=
  match t with
  | None => false
  | Some t => if negb (hostMatches t host) then false
              else HasPrefix (ToLower contentType) "application/json"
  end.

Definition hostHasToolPolicy (t : mcpRouteTable) (host : string) : bool :=
  existsb (fun rr => acceptsHost rr (ToLower host)
                     && match toolPolicy rr with Some _ => true | None => false end) (rules t).

(** ** Tool policies *)

Inductive mcpDecision := DecisionNone | DecisionAllow | DecisionDeny.

Definition denyMsg (prefix name mid routeNS routeName : string) : string :=
  String.concat "" ["tool '"; name; "' "; mid; prefix; routeNS; "/"; routeName].

Definition evaluateToolPolicy (tp : option compiledToolPolicy) (info : option MCPInfo)
    (routeNS routeName : string) : mcpDecision * string :=
  match tp, info with
  | Some tp, Some info =>
      if negb (String.eqb (Method info) MCPMethodToolsCall) then (DecisionNone, "")
      else
        let name := ToolName info in
        if matchesGlobList (DeniedTools (raw tp)) name || matchesAnyRegex (deniedRegex tp) name
        then (DecisionDeny, denyMsg "MCPRoute " name "denied by " routeNS routeName)
        else if negb (match AllowedTools (raw tp), allowedRegex tp with [], [] => true | _, _ => false end)
                && negb (matchesGlobList (AllowedTools (raw tp)) name)
                && negb (matchesAnyRegex (allowedRegex tp) name)
        then (DecisionDeny, denyMsg "MCPRoute " name "not in allowlist for " routeNS routeName)
        else (DecisionAllow, "")
  | _, _ => (DecisionNone, "")
  end.

Record mcpEvalResult := mkEval {
  info_ : option MCPInfo;
  matchedRoute : option mcpRouteRule;
  decision : mcpDecision;
  denyDetail : string;
}.

Definition batchDetail : string :=
  "JSON-RPC batch requests are not permitted under an MCPRoute ToolPolicy".

Definition evaluate (unmarshal : string -> option mcpEnvelope) (t : mcpRouteTable) (host : string)
    (inp : Input) : mcpEvalResult :=
  match ParseRequest unmarshal inp with
  | None =>
      if IsBatch (ReqBody inp) && hostHasToolPolicy t host
      then mkEval None None DecisionDeny batchDetail
      else mkEval None None DecisionNone ""
  | Some info =>
      match mcp_match t host info with
      | None => mkEval (Some info) None DecisionNone ""
      | Some rr =>
          let '(d, detail) := evaluateToolPolicy (toolPolicy rr) (Some info)
                                (mr_routeNamespace rr) (mr_routeName rr) in
          mkEval (Some info) (Some rr) d detail
      end
  end.

(** ** The host gate *)

Lemma appendUnique_elem src : forall dst x,
  x ∈ appendUniqueStrings dst src <-> x ∈ dst \/ x ∈ src.
Proof.
  unfold appendUniqueStrings. induction src as [|s src IH]; intros dst x; cbn [fold_left]; [set_solver|].
  rewrite IH. case_bool_decide; set_solver.
Qed.

(** The entries a route contributes, and how the table accounts for its hosts. *)
Definition gate_inv (t : mcpRouteTable) : Prop :=
  Forall (fun rr => match routeHosts rr with
                    | [] => acceptAnyHost t = true
                    | hs => forall h, h ∈ hs -> h ∈ hostnames t
                    end) (rules t).

Lemma compileMCPRule_hosts r rule rr :
  In rr (compileMCPRule r rule) -> routeHosts rr = lowerHostnames (mcp_Hostnames (mcp_Spec r)).
Proof.
  unfold compileMCPRule. destruct (compileToolPolicy _) as [tp|]; [|done].
  intros (m & _ & Hm)%in_flat_map. unfold compileMCPMatch in Hm.
  destruct (compileRegexList _); [|done]. by destruct Hm as [<-|[]].
Qed.

Lemma addRoute_inv egNs egName t r : gate_inv t -> gate_inv (addRoute egNs egName t r).
Proof.
  intros Hinv. unfold addRoute. destruct (mcpRouteAttachesTo _ _ _); cbn [negb]; [|done].
  unfold gate_inv in *.
  destruct (lowerHostnames (mcp_Hostnames (mcp_Spec r))) as [|h hs] eqn:E;
    cbn [rules hostnames acceptAnyHost]; apply Forall_app; split.
  - eapply Forall_impl; [exact Hinv|]. intros rr Hrr. cbn in Hrr |- *. destruct (routeHosts rr); done.
  - apply Forall_forall. intros rr Hr. apply list_elem_of_In, in_flat_map in Hr as (rule & _ & Hr).
    apply compileMCPRule_hosts in Hr. by rewrite Hr, E.
  - eapply Forall_impl; [exact Hinv|]. intros rr. cbv beta. destruct (routeHosts rr); [done|].
    intros Hh x Hx. apply appendUnique_elem. left. by apply Hh.
  - apply Forall_forall. intros rr Hr. apply list_elem_of_In, in_flat_map in Hr as (rule & _ & Hr).
    apply compileMCPRule_hosts in Hr. rewrite Hr, E. intros x Hx. apply appendUnique_elem. by right.
Qed.

Lemma fold_addRoute_inv egNs egName routes : forall t,
  gate_inv t -> gate_inv (fold_left (addRoute egNs egName) routes t).
Proof. induction routes as [|r rs IH]; intros t Ht; cbn [fold_left]; [done|]. by apply IH, addRoute_inv. Qed.

Lemma gate_inv_sound t host rr :
  gate_inv t -> In rr (rules t) -> acceptsHost rr (ToLower host) = true -> hostMatches t host = true.
Proof.
  intros Hinv Hin Hacc. unfold gate_inv in Hinv. rewrite Forall_forall in Hinv.
  apply list_elem_of_In, Hinv in Hin. unfold acceptsHost in Hacc. unfold hostMatches.
  destruct (routeHosts rr) as [|h hs]; [by rewrite Hin|].
  destruct (acceptAnyHost t); [done|]. apply existsb_exists in Hacc as (p & Hp & Hm).
  apply existsb_exists. exists p. split; [|done]. by apply list_elem_of_In, Hin, list_elem_of_In.
Qed.

Lemma build_rules egNs egName routes t :
  buildMCPRouteTable egNs egName routes = Some t ->
  t = fold_left (addRoute egNs egName) routes (mkTable [] false []).
Proof. unfold buildMCPRouteTable. destruct (rules _); [done|]. by intros [= <-]. Qed.

Lemma fold_addRoute_rules egNs egName routes : forall t,
  rules (fold_left (addRoute egNs egName) routes t)
  = rules t ++ flat_map (fun r => if mcpRouteAttachesTo r egNs egName
                                  then flat_map (compileMCPRule r) (mcp_Rules (mcp_Spec r)) else []) routes.
Proof.
  induction routes as [|r rs IH]; intros t; cbn [fold_left flat_map]; [by rewrite app_nil_r|].
  rewrite IH, (app_assoc (rules t)). f_equal. unfold addRoute.
  destruct (mcpRouteAttachesTo _ _ _); cbn [negb]; [|by rewrite app_nil_r].
  by destruct (lowerHostnames _).
Qed.

(** The cheap host gate never hides a policy.  If some entry of a gateway's
    table accepts a host, the pre-parse gate lets a JSON request to that host
    through to the parser, in whatever letter case the host is written; so a
    request skipped by the gate is one no MCP rule of the gateway applies to. *)
Theorem mcp_gate_complete (egNs egName : string) (routes : list MCPRoute) (t : mcpRouteTable)
    (host contentType : string) (info : MCPInfo) (rr : mcpRouteRule) :
  buildMCPRouteTable egNs egName routes = Some t ->
  mcp_match t host info = Some rr ->
  HasPrefix (ToLower contentType) "application/json" = true ->
  mcpCandidate (buildMCPRouteTable egNs egName routes) host contentType = true.
Proof.
  intros Hb [Hin Hacc]%find_some Hct. rewrite Hb. unfold mcpCandidate. rewrite Hct.
  rewrite (gate_inv_sound t host rr); [done| |done|].
  - rewrite (build_rules _ _ _ _ Hb). apply fold_addRoute_inv. constructor.
  - unfold mcpRuleAccepts in Hacc. by destruct (acceptsHost rr (ToLower host)).
Qed.

(** ** Admission and the table *)

Lemma validateRegexList_compiles ps fp :
  Admission.validateRegexList ps fp = [] -> exists res, compileRegexList ps = Some res.
Proof.
  unfold Admission.validateRegexList. rewrite Admission.each_nil. intros Hv.
  assert (Hall : Forall (fun p => exists re, Compile p = inl re) ps).
  { apply Forall_lookup. intros i p Hp. apply Hv in Hp. destruct (Compile p) as [re|err]; [eauto|done]. }
  clear Hv. induction Hall as [|p ps (re & Hre) _ (res & IH)]; cbn [compileRegexList]; [eauto|].
  rewrite Hre, IH. cbn. eauto.
Qed.

Lemma firstMCPToolPolicy_in filters tp :
  firstMCPToolPolicy filters = Some tp ->
  exists f, In f filters /\ mf_Type f = MCPFilterToolPolicy /\ mf_ToolPolicy f = Some tp.
Proof.
  induction filters as [|f fs IH]; cbn [firstMCPToolPolicy]; [done|].
  destruct (String.eqb (mf_Type f) MCPFilterToolPolicy) eqn:E.
  - apply String.eqb_eq in E. destruct (mf_ToolPolicy f) as [tp'|] eqn:Et.
    + intros [= ->]. exists f. split; [by left|done].
    + intros (g & Hg & ?)%IH. exists g. split; [by right|done].
  - intros (g & Hg & ?)%IH. exists g. split; [by right|done].
Qed.

Lemma validateMCPFilter_policy fp f tp :
  Admission.validateMCPFilter fp f = [] -> mf_Type f = MCPFilterToolPolicy -> mf_ToolPolicy f = Some tp ->
  exists a d, compileRegexList (AllowedToolsRegex tp) = Some a /\ compileRegexList (DeniedToolsRegex tp) = Some d.
Proof.
  unfold Admission.validateMCPFilter. intros Hv Ht Hp. rewrite Ht, Hp in Hv. cbn [String.eqb] in Hv.
  change (String.eqb MCPFilterToolPolicy MCPFilterExtensionRef) with false in Hv.
  rewrite String.eqb_refl in Hv. unfold Admission.validateToolPolicy in Hv. rewrite !app_nil in Hv.
  destruct Hv as ([a Ha]%validateRegexList_compiles & [d Hd]%validateRegexList_compiles & _). eauto.
Qed.

Lemma admitted_rule_compiles r rule :
  Admission.MCPRoute_Validate r = [] -> In rule (mcp_Rules (mcp_Spec r)) ->
  exists tp, compileToolPolicy (firstMCPToolPolicy (mr_Filters rule)) = Some tp
    /\ (tp = None <-> firstMCPToolPolicy (mr_Filters rule) = None)
    /\ forall m, In m (mr_Matches rule) -> exists rr, compileMCPMatch r tp m = [rr] /\ toolPolicy rr = tp.
Proof.
  unfold Admission.MCPRoute_Validate. rewrite Admission.each_nil. intros Hv Hin.
  apply list_elem_of_In, list_elem_of_lookup in Hin as [i Hi]. apply Hv in Hi.
  rewrite app_nil, !Admission.each_nil in Hi. destruct Hi as [Hm Hf].
  assert (Hmatch : forall tp m, In m (mr_Matches rule) ->
            exists rr, compileMCPMatch r tp m = [rr] /\ toolPolicy rr = tp).
  { intros tp m Hin. apply list_elem_of_In, list_elem_of_lookup in Hin as [j Hj].
    apply Hm, validateRegexList_compiles in Hj as [re Hre]. unfold compileMCPMatch. rewrite Hre. eauto. }
  destruct (firstMCPToolPolicy (mr_Filters rule)) as [tp|] eqn:E;
    [|by exists None; split; [done|split; [done|apply Hmatch]]].
  apply firstMCPToolPolicy_in in E as (f & Hin & Ht & Hp).
  apply list_elem_of_In, list_elem_of_lookup in Hin as [j Hj]. apply Hf in Hj.
  destruct (validateMCPFilter_policy _ _ _ Hj Ht Hp) as (a & d & Ha & Hd).
  exists (Some (mkCompiled tp a d)). cbn [compileToolPolicy]. rewrite Ha, Hd.
  split; [done|]. split; [done|apply Hmatch].
Qed.

(** Admission makes the data plane's silent rule dropping unreachable.  Every
    match clause of every rule of an admitted route attached to a gateway has its
    entry in the gateway's table, and the entry carries a compiled tool policy
    exactly when the rule declares one. *)
Theorem admitted_mcp_rules_enforced (egNs egName : string) (routes : list MCPRoute) (r : MCPRoute)
    (rule : MCPRouteRule) (m : MCPRouteMatch) :
  Admission.MCPRoute_Validate r = [] ->
  In r routes -> mcpRouteAttachesTo r egNs egName = true ->
  In rule (mcp_Rules (mcp_Spec r)) -> In m (mr_Matches rule) ->
  exists t rr, buildMCPRouteTable egNs egName routes = Some t /\ In rr (rules t)
    /\ mr_routeNamespace rr = Namespace (mcp_Meta r) /\ mr_routeName rr = Name (mcp_Meta r)
    /\ methods rr = Methods m /\ tools rr = Tools m /\ servers rr = Servers m
    /\ option_map raw (toolPolicy rr) = firstMCPToolPolicy (mr_Filters rule).
Proof.
  intros Hv Hr Ha Hrule Hm.
  destruct (admitted_rule_compiles r rule Hv Hrule) as (tp & Htp & _ & Hc).
  destruct (Hc m Hm) as (rr & Hrr & Hp).
  assert (Hin : In rr (rules (fold_left (addRoute egNs egName) routes (mkTable [] false [])))).
  { rewrite fold_addRoute_rules. apply in_or_app. right. apply in_flat_map. exists r. split; [done|].
    rewrite Ha. apply in_flat_map. exists rule. split; [done|]. unfold compileMCPRule. rewrite Htp.
    apply in_flat_map. exists m. split; [done|]. rewrite Hrr. by left. }
  unfold buildMCPRouteTable. destruct (rules _) as [|x l] eqn:E in |- *; [by rewrite E in Hin|].
  eexists _, rr. split; [reflexivity|]. split; [done|].
  unfold compileMCPMatch in Hrr. destruct (compileRegexList (ToolsRegex m)); [|done].
  injection Hrr as <-. cbn. split_and!; try done.
  unfold compileToolPolicy in Htp. destruct (firstMCPToolPolicy _) as [f|]; [|by injection Htp as <-].
  destruct (compileRegexList (AllowedToolsRegex f)); [|done].
  destruct (compileRegexList (DeniedToolsRegex f)); [|done]. by injection Htp as <-.
Qed.

(** ** Enforcement *)

Definition toolDenied (tp : compiledToolPolicy) (name : string) : bool :=
  matchesGlobList (DeniedTools (raw tp)) name || matchesAnyRegex (deniedRegex tp) name.

Definition toolAllowed (tp : compiledToolPolicy) (name : string) : bool :=
  matchesGlobList (AllowedTools (raw tp)) name || matchesAnyRegex (allowedRegex tp) name.

Definition hasAllowlist (tp : compiledToolPolicy) : bool :=
  match AllowedTools (raw tp), allowedRegex tp with [], [] => false | _, _ => true end.

Lemma evaluateToolPolicy_call tp info ns name :
  Method info = MCPMethodToolsCall ->
  fst (evaluateToolPolicy (Some tp) (Some info) ns name)
  = if negb (toolDenied tp (ToolName info)) && (negb (hasAllowlist tp) || toolAllowed tp (ToolName info))
    then DecisionAllow else DecisionDeny.
Proof.
  intros Hm. unfold evaluateToolPolicy, toolDenied, toolAllowed, hasAllowlist.
  rewrite Hm, String.eqb_refl. cbn [negb].
  destruct (matchesGlobList (DeniedTools _) _ || matchesAnyRegex (deniedRegex _) _)%bool; [done|]. cbn [negb andb].
  destruct (AllowedTools (raw tp)), (allowedRegex tp); cbn [negb andb orb]; [done|..];
    destruct (matchesGlobList _ _), (matchesAnyRegex _ _); done.
Qed.

Lemma ParseRequest_batch unmarshal inp : IsBatch (ReqBody inp) = true -> ParseRequest unmarshal inp = None.
Proof.
  unfold IsBatch, ParseRequest. intros ->. by destruct (ReqTruncated inp || _)%bool.
Qed.

(** C36: how a tool policy decides.  A JSON-RPC batch to a host under any tool
    policy is denied, whatever it contains.  A single [tools/call] that reaches a
    rule with a policy is allowed exactly when its tool matches no deny pattern
    (glob or regexp) and either there is no allowlist or the tool matches it, and
    is denied otherwise: deny wins over allow.  And a denial always has one of
    these two causes, so no other request is blocked by a tool policy. *)
Theorem tool_policy_decides (unmarshal : string -> option mcpEnvelope) (t : mcpRouteTable)
    (host : string) (inp : Input) :
  let res := evaluate unmarshal t host inp in
  (IsBatch (ReqBody inp) = true ->
     decision res = if hostHasToolPolicy t host then DecisionDeny else DecisionNone)
  /\ (forall info rr tp, ParseRequest unmarshal inp = Some info -> Method info = MCPMethodToolsCall ->
        mcp_match t host info = Some rr -> toolPolicy rr = Some tp ->
        decision res = if negb (toolDenied tp (ToolName info))
                          && (negb (hasAllowlist tp) || toolAllowed tp (ToolName info))
                       then DecisionAllow else DecisionDeny)
  /\ (decision res = DecisionDeny ->
        (IsBatch (ReqBody inp) = true /\ hostHasToolPolicy t host = true)
        \/ exists info rr tp, ParseRequest unmarshal inp = Some info /\ Method info = MCPMethodToolsCall
             /\ mcp_match t host info = Some rr /\ toolPolicy rr = Some tp
             /\ (toolDenied tp (ToolName info) = true
                 \/ (hasAllowlist tp = true /\ toolAllowed tp (ToolName info) = false))).
Proof.
  cbn zeta. unfold evaluate. split; [|split].
  - intros Hb. rewrite (ParseRequest_batch unmarshal inp Hb), Hb. cbn [andb].
    by destruct (hostHasToolPolicy t host).
  - intros info rr tp Hp Hm Hr Ht. rewrite Hp, Hr, Ht, <- (evaluateToolPolicy_call tp info (mr_routeNamespace rr) (mr_routeName rr)) by done.
    by destruct (evaluateToolPolicy _ _ _ _).
  - destruct (ParseRequest unmarshal inp) as [info|] eqn:Hp.
    + destruct (mcp_match t host info) as [rr|] eqn:Hr; [|done].
      destruct (toolPolicy rr) as [tp|] eqn:Ht; [|done].
      destruct (String.eqb (Method info) MCPMethodToolsCall) eqn:Hm.
      2: { unfold evaluateToolPolicy. rewrite Hm. done. }
      apply String.eqb_eq in Hm.
      pose proof (evaluateToolPolicy_call tp info (mr_routeNamespace rr) (mr_routeName rr) Hm) as Hd.
      destruct (evaluateToolPolicy _ _ _ _) as [d msg]. cbn in Hd |- *. intros ->. right.
      exists info, rr, tp. split_and!; try done.
      destruct (toolDenied tp (ToolName info)); [by left|right]. cbn in Hd.
      destruct (hasAllowlist tp), (toolAllowed tp (ToolName info)); done.
    + destruct (IsBatch (ReqBody inp)); [|done]. destruct (hostHasToolPolicy t host); [by left|done].
Qed.

(** A wildcard does not cross a slash, so it does not cover tool calls.  An
    entry whose methods are listed as ["*"] accepts no [tools/call] request, and
    one whose servers are written as a URL accepts no request to the host that
    URL names: a tool policy attached to either is never consulted for such a
    call, which is then let through undecided if no other entry takes it. *)
Theorem wildcards_miss_tool_calls (unmarshal : string -> option mcpEnvelope) (rr : mcpRouteRule)
    (info : MCPInfo) (host : string) :
  Method info = MCPMethodToolsCall ->
  (methods rr = ["*" : string] -> mcpRuleAccepts host info rr = false)
  /\ (servers rr = ["https://mcp.example.com/*" : string] ->
      mcpRuleAccepts "mcp.example.com" info rr = false)
  /\ (methods rr = ["*" : string] -> forall inp, ParseRequest unmarshal inp = Some info ->
      decision (evaluate unmarshal (mkTable [] true [rr]) host inp) = DecisionNone).
Proof.
  intros Hm.
  assert (Hstar : forall h, methods rr = ["*" : string] -> mcpRuleAccepts h info rr = false).
  { intros h E. unfold mcpRuleAccepts. destruct (negb (acceptsHost rr h)); [done|].
    destruct (negb (matchesGlobAny (servers rr) h)); [done|]. rewrite E, Hm. reflexivity. }
  split; [apply Hstar|]. split.
  - intros E. unfold mcpRuleAccepts. destruct (negb (acceptsHost _ _)); [done|]. rewrite E. reflexivity.
  - intros E inp Hp. unfold evaluate. rewrite Hp. unfold mcp_match. cbn [rules List.find].
    by rewrite Hstar.
Qed.

End Table.

(** ** A concrete gateway *)

(** An engine whose patterns are literal substrings; a pattern that begins with
    a repetition operator does not compile. *)
#[local] Instance substring_engine : RegexpEngine := {
  Regexp := string;
  Compile p := if HasPrefix p "*" then inr "missing argument to repetition operator" else inl p;
  MatchString re s := Contains s re;
}.

Definition demoRoute : MCPRoute :=
  mkMCPRoute (mkMeta "team" "tools" "1")
    (mkMCPSpec [mkParentReference (Some clrkAPIGroup) (Some "EgressGateway") None "eg" None]
       ["*.example.com"]
       [mkMCPRule [mkMCPMatch [] [] [] [] []]
          [mkMCPFilter MCPFilterToolPolicy
             (Some (mkToolPolicy ["github_*"] [] [] ["delete"] [] None [])) None] []]).

Definition demoCall (tool : string) : MCPInfo := mkMCPInfo MCPMethodToolsCall tool "" "1" "" false 0.

Definition demoTable : mcpRouteTable :=
  match buildMCPRouteTable "team" "eg" [demoRoute] with Some t => t | None => mkTable [] false [] end.

Definition demoEntry : mcpRouteRule :=
  match rules demoTable with rr :: _ => rr | [] => mkMcpRouteRule "" "" [] [] [] [] [] [] None end.

Lemma mcp_gate_complete_witness :
  mcpCandidate (buildMCPRouteTable "team" "eg" [demoRoute]) "MCP.example.com" "application/json" = true.
Proof.
  apply (mcp_gate_complete "team" "eg" [demoRoute] demoTable "MCP.example.com" "application/json"
           (demoCall "github_read") demoEntry); vm_compute; reflexivity.
Defined.

Lemma admitted_mcp_rules_enforced_witness :
  exists t rr, buildMCPRouteTable "team" "eg" [demoRoute] = Some t /\ In rr (rules t)
    /\ option_map raw (toolPolicy rr)
       = Some (mkToolPolicy ["github_*" : string] [] [] ["delete" : string] [] None []).
Proof.
  destruct (admitted_mcp_rules_enforced "team" "eg" [demoRoute] demoRoute
              (mkMCPRule [mkMCPMatch [] [] [] [] []]
                [mkMCPFilter MCPFilterToolPolicy
                  (Some (mkToolPolicy ["github_*"] [] [] ["delete"] [] None [])) None] [])
              (mkMCPMatch [] [] [] [] [])) as (t & rr & H1 & H2 & _ & _ & _ & _ & _ & H3).
  - vm_compute; reflexivity.
  - by left.
  - vm_compute; reflexivity.
  - by left.
  - by left.
  - exists t, rr. by split_and!.
Defined.

Lemma wildcards_miss_tool_calls_witness :
  mcpRuleAccepts "mcp.example.com" (demoCall "github_read")
    (mkMcpRouteRule "team" "r" [] [] [] [] ["*" : string] [] None) = false.
Proof.
  destruct (wildcards_miss_tool_calls (fun _ => None)
              (mkMcpRouteRule "team" "r" [] [] [] [] ["*" : string] [] None)
              (demoCall "github_read") "mcp.example.com" eq_refl) as (H & _ & _).
  by apply H.
Defined.

End McpRoute.
