(* ===== verification/SigV4.v ===== *)
(** * AWS request signing

    [src/internal/extproc/awssigv4/sigv4.go]: the Signature Version 4 of a
    request the proxy forwards.  SHA-256 and HMAC-SHA256 are parameters, as are
    the two renderings of the current time.  The theorems say what a signature
    covers: two requests have the same canonical request exactly when they agree
    on everything the verifier sees. *)

From Stdlib Require Import ZArith Lia NArith Ascii String List.
From stdpp Require Import base strings list sorting.
From S2P Require Import Prelude GoStrings GoStd.
Import GoStrings GoStd.

#[local] Open Scope string_scope.
#[local] Open Scope Z_scope.
#[local] Open Scope list_scope.

Module SigV4.

(** ** Data *)

Record Credentials := mkCreds { AccessKeyID : string; SecretAccessKey : string; SessionToken : string }.

Record Header := mkHeader { Name : string; Value : string }.

Definition nl : ascii := "010"%char.

(** ** Encoding *)

Definition hexDigits : string := "0123456789ABCDEF".

Definition hexDigit (n : N) : ascii := default "0"%char (String.get (N.to_nat n) hexDigits).

Definition unreserved (c : ascii) : bool :=
  let n := N_of_ascii c in
  ((65 <=? n) && (n <=? 90) || (97 <=? n) && (n <=? 122) || (48 <=? n) && (n <=? 57)
   || (n =? 45) || (n =? 46) || (n =? 95) || (n =? 126))%N.

Fixpoint awsURIEncode (s : string) : string :=
  match s with
  | EmptyString => EmptyString
  | String c t =>
      if unreserved c then String c (awsURIEncode t)
      else String "%" (String (hexDigit (N_of_ascii c / 16)) (String (hexDigit (N_of_ascii c mod 16))
             (awsURIEncode t)))
  end.

(** [hex.EncodeToString]. *)
Definition lowerHexDigit (n : N) : ascii := default "0"%char (String.get (N.to_nat n) "0123456789abcdef").

Fixpoint hexEncode (s : string) : string :=
  match s with
  | EmptyString => EmptyString
  | String c t => String (lowerHexDigit (N_of_ascii c / 16))
                    (String (lowerHexDigit (N_of_ascii c mod 16)) (hexEncode t))
  end.

(** [url.QueryUnescape]: [None] is an invalid escape. *)
Definition unhex (c : ascii) : option N :=
  let n := N_of_ascii c in
  if ((48 <=? n) && (n <=? 57))%N then Some (n - 48)%N
  else if ((97 <=? n) && (n <=? 102))%N then Some (n - 87)%N
  else if ((65 <=? n) && (n <=? 70))%N then Some (n - 55)%N
  else None.

Fixpoint QueryUnescape (s : string) : option string :=
  match s with
  | EmptyString => Some EmptyString
  | String c t =>
      if Ascii.eqb c "%" then
        match t with
        | String a (String b t') =>
            match unhex a, unhex b, QueryUnescape t' with
            | Some x, Some y, Some r => Some (String (ascii_of_N (x * 16 + y)) r)
            | _, _, _ => None
            end
        | _ => None
        end
      else match QueryUnescape t with
           | Some r => Some (String (if Ascii.eqb c "+" then " " else c)%char r)
           | None => None
           end
  end.

Definition queryUnescape (s : string) : string := default s (QueryUnescape s).

(** [strings.CutSuffix]. *)
Definition CutSuffix (s suf : string) : string * bool :=
  if HasSuffix s suf then (TrimSuffix s suf, true) else (s, false).

Definition stripDefaultPort (host : string) : string :=
  let '(h, ok) := CutSuffix host ":443" in
  if ok then h else let '(h, ok) := CutSuffix host ":80" in if ok then h else host.

Definition canonicalURI (path : string) : string :=
  if String.eqb path "" then "/" else String.concat "/" (List.map awsURIEncode (Split "/" path)).

(** One pair of the query, as it enters the canonical form. *)
Definition queryPair (kv : string) : string * string :=
  let '(k, v, _) := Cut kv "=" in (queryUnescape k, queryUnescape v).

Definition encodePair (p : string * string) : string * string :=
  (awsURIEncode (fst p), awsURIEncode (snd p)).

Definition pairLess (p q : string * string) : bool :=
  if negb (String.eqb (fst p) (fst q)) then String.ltb (fst p) (fst q) else String.ltb (snd p) (snd q).

Definition renderPair (p : string * string) : string := (fst p ++ "=" ++ snd p)%string.

(** The decoded pairs of a query, in order. *)
Definition queryPairs (query : string) : list (string * string) :=
  List.map queryPair (List.filter (fun kv => negb (String.eqb kv "")) (Split "&" query)).

Definition canonicalQuery (query : string) : string :=
  if String.eqb query "" then ""
  else String.concat "&"
         (List.map renderPair (SliceStable pairLess (List.map encodePair (queryPairs query)))).

Definition RegionFromHost (host : string) : string :=
  let labels := Split "." (fst (fst (Cut (ToLower host) ":"))) in
  let n := List.length labels in
  let at_ i := List.nth (n - i) labels "" in
  if (n <? 4)%nat || negb (String.eqb (at_ 1%nat) "com") || negb (String.eqb (at_ 2%nat) "amazonaws") then ""
  else
    let region := at_ 3%nat in
    if String.eqb region "vpce" && (n <? 6)%nat then ""
    else
      let region := if String.eqb region "vpce" then at_ 4%nat else region in
      if Contains region "-" then region else "".

(** ** Signing *)

Section Sign.
Context (sha256 : string -> string) (hmac : string -> string -> string).

Definition hexSHA256 (b : string) : string := hexEncode (sha256 b).

(** The time as [20060102T150405Z] and as [20060102]. *)
Record Now := mkNow { amzDate : string; dateStamp : string }.

Definition canonicalHeaders (host payloadHash token : string) (now : Now) : string :=
  ("host:" ++ host ++ String nl ("x-amz-content-sha256:" ++ payloadHash
     ++ String nl ("x-amz-date:" ++ amzDate now ++ String nl
          (if String.eqb token "" then "" else "x-amz-security-token:" ++ token ++ String nl ""))))%string.

Definition signedHeaders (token : string) : string :=
  ("host;x-amz-content-sha256;x-amz-date"
   ++ if String.eqb token "" then "" else ";x-amz-security-token")%string.

Definition canonicalRequest (method host pathAndQuery body token : string) (now : Now) : string :=
  let host := stripDefaultPort host in
  let payloadHash := hexSHA256 body in
  let '(path, query, _) := Cut pathAndQuery "?" in
  (method ++ String nl (canonicalURI path ++ String nl (canonicalQuery query ++ String nl
     (canonicalHeaders host payloadHash token now ++ String nl (signedHeaders token ++ String nl
        payloadHash)))))%string.

Definition scope (region service : string) (now : Now) : string :=
  (dateStamp now ++ "/" ++ region ++ "/" ++ service ++ "/aws4_request")%string.

Definition Sign (method host pathAndQuery body : string) (creds : Credentials)
    (region service : string) (now : Now) : list Header :=
  let token := SessionToken creds in
  let stringToSign :=
    ("AWS4-HMAC-SHA256" ++ String nl (amzDate now ++ String nl (scope region service now ++ String nl
       (hexSHA256 (canonicalRequest method host pathAndQuery body token now)))))%string in
  let kDate := hmac ("AWS4" ++ SecretAccessKey creds)%string (dateStamp now) in
  let kRegion := hmac kDate region in
  let kService := hmac kRegion service in
  let kSigning := hmac kService "aws4_request" in
  let signature := hexEncode (hmac kSigning stringToSign) in
  [mkHeader "x-amz-date" (amzDate now); mkHeader "x-amz-content-sha256" (hexSHA256 body)]
  ++ (if String.eqb token "" then [] else [mkHeader "x-amz-security-token" token])
  ++ [mkHeader "authorization"
        ("AWS4-HMAC-SHA256 Credential=" ++ AccessKeyID creds ++ "/" ++ scope region service now
         ++ ", SignedHeaders=" ++ signedHeaders token ++ ", Signature=" ++ signature)%string].

End Sign.

Example RegionFromHost_ex :
  RegionFromHost "bedrock-runtime.us-east-1.amazonaws.com" = "us-east-1"
  /\ RegionFromHost "vpce-1-a.bedrock-runtime.eu-west-2.vpce.amazonaws.com:443" = "eu-west-2"
  /\ RegionFromHost "s3.amazonaws.com" = "" /\ RegionFromHost "api.openai.com" = "".
Proof. repeat split; reflexivity. Qed.

Example canonical_ex :
  canonicalURI "/model/a:b%2F" = "/model/a%3Ab%252F" /\ canonicalQuery "b=2&&a=x+y&a" = "a=&a=x%20y&b=2".
Proof. split; reflexivity. Qed.

(** ** The encoding is invertible *)

Definition encode_char_ok (c : ascii) : bool :=
  if unreserved c then negb (Ascii.eqb c "%") && negb (Ascii.eqb c "+")
  else let a := hexDigit (N_of_ascii c / 16) in
       let b := hexDigit (N_of_ascii c mod 16) in
       unreserved a && unreserved b
       && match unhex a, unhex b with
          | Some x, Some y => Ascii.eqb (ascii_of_N (x * 16 + y)) c
          | _, _ => false
          end.

Lemma encode_char_all c : encode_char_ok c = true.
Proof. destruct c as [[] [] [] [] [] [] [] []]; vm_compute; reflexivity. Qed.

Lemma encode_char c :
  if unreserved c then Ascii.eqb c "%" = false /\ Ascii.eqb c "+" = false
  else let a := hexDigit (N_of_ascii c / 16) in
       let b := hexDigit (N_of_ascii c mod 16) in
       unreserved a = true /\ unreserved b = true
       /\ exists x y, unhex a = Some x /\ unhex b = Some y /\ ascii_of_N (x * 16 + y) = c.
Proof.
  pose proof (encode_char_all c) as H. unfold encode_char_ok in H. destruct (unreserved c).
  - apply andb_true_iff in H as [H1%negb_true_iff H2%negb_true_iff]. done.
  - cbn zeta in *. rewrite !andb_true_iff in H. destruct H as [[H1 H2] H3]. split; [done|]. split; [done|].
    destruct (unhex _) as [x|]; [|done]. destruct (unhex _) as [y|]; [|done].
    apply Ascii.eqb_eq in H3. eauto.
Qed.

(** Decoding a query component undoes the encoding. *)
Lemma QueryUnescape_encode s : QueryUnescape (awsURIEncode s) = Some s.
Proof.
  induction s as [|c s IH]; [done|]. cbn [awsURIEncode]. pose proof (encode_char c) as H.
  destruct (unreserved c).
  - destruct H as [H1 H2]. cbn -[Ascii.eqb]. by rewrite H1, IH, H2.
  - destruct H as (_ & _ & x & y & Hx & Hy & Hc).
    cbn -[Ascii.eqb unhex ascii_of_N N.mul N.add hexDigit N.div N.modulo]. rewrite Ascii.eqb_refl, Hx, Hy, IH. by rewrite Hc.
Qed.

#[export] Instance awsURIEncode_inj : Inj (=) (=) awsURIEncode.
Proof. intros a b H. pose proof (QueryUnescape_encode a) as Ha. rewrite H, QueryUnescape_encode in Ha. by injection Ha. Qed.

Lemma encode_plain x s :
  unreserved x = false -> Ascii.eqb "%" x = false -> Count (awsURIEncode s) x = 0%nat.
Proof.
  intros Hu Hp.
  assert (Hun : forall c, unreserved c = true -> Ascii.eqb c x = false).
  { intros c Hc. destruct (Ascii.eqb c x) eqn:E; [|done]. apply Ascii.eqb_eq in E as ->. congruence. }
  induction s as [|c s IH]; [done|]. cbn [awsURIEncode]. pose proof (encode_char c) as H.
  destruct (unreserved c) eqn:Ec.
  - cbn -[Ascii.eqb]. by rewrite (Hun c Ec).
  - destruct H as (Ha & Hb & _). cbn -[Ascii.eqb hexDigit N.div N.modulo].
    by rewrite Hp, (Hun _ Ha), (Hun _ Hb).
Qed.

Lemma nibble_cases (P : N -> Prop) : (forall i, (i < 16)%nat -> P (N.of_nat i)) -> forall n, (n < 16)%N -> P n.
Proof. intros H n Hn. rewrite <- (N2Nat.id n). apply H. lia. Qed.

Lemma lowerHexDigit_unhex n : (n < 16)%N -> unhex (lowerHexDigit n) = Some n /\ Ascii.eqb (lowerHexDigit n) nl = false.
Proof.
  revert n. apply nibble_cases. intros i Hi.
  do 16 (destruct i as [|i]; [by vm_compute|]). lia.
Qed.

Lemma nibbles c : (N_of_ascii c / 16 < 16)%N /\ (N_of_ascii c mod 16 < 16)%N.
Proof.
  pose proof (N_ascii_bounded c). split; [apply N.Div0.div_lt_upper_bound; lia|by apply N.mod_lt].
Qed.

Lemma hexEncode_nl s : Count (hexEncode s) nl = 0%nat.
Proof.
  induction s as [|c s IH]; [done|]. cbn -[Ascii.eqb N.div N.modulo nl lowerHexDigit].
  destruct (nibbles c) as [H1 H2]. apply lowerHexDigit_unhex in H1 as [_ ->], H2 as [_ ->]. done.
Qed.

#[export] Instance hexEncode_inj : Inj (=) (=) hexEncode.
Proof.
  intros a. induction a as [|c a IH]; intros [|d b]; cbn -[N.div N.modulo lowerHexDigit]; try done.
  intros [= H1 H2 H3]. f_equal; [|by apply IH].
  destruct (nibbles c) as [C1 C2], (nibbles d) as [D1 D2].
  apply lowerHexDigit_unhex in C1 as [C1 _], C2 as [C2 _], D1 as [D1 _], D2 as [D2 _].
  rewrite H1, D1 in C1. rewrite H2, D2 in C2. injection C1 as C1. injection C2 as C2.
  rewrite <- (ascii_N_embedding c), <- (ascii_N_embedding d). f_equal.
  rewrite (N.div_mod (N_of_ascii c) 16), (N.div_mod (N_of_ascii d) 16) by done. congruence.
Qed.

(** ** The path *)

Lemma split_plain sep s : Forall (fun x => Count x sep = 0%nat) (Split sep s).
Proof.
  induction s as [|c s IH]; cbn -[Ascii.eqb]; [by repeat constructor|].
  destruct (Ascii.eqb c sep) eqn:E; [by constructor|].
  destruct IH as [|x l Hx Hl]; constructor; try done; cbn -[Ascii.eqb]; by rewrite E.
Qed.

Lemma encoded_plain x l :
  unreserved x = false -> Ascii.eqb "%" x = false ->
  Forall (fun s => Count s x = 0%nat) (List.map awsURIEncode l).
Proof. intros H1 H2. apply Forall_map, Forall_true. intros s. by apply encode_plain. Qed.

Lemma canonicalURI_nl p : Count (canonicalURI p) nl = 0%nat.
Proof.
  unfold canonicalURI. destruct (String.eqb p ""); [done|].
  apply Count_concat; [done|by apply encoded_plain].
Qed.

(** The empty path is signed as the root. *)
Definition rooted (path : string) : string := if String.eqb path "" then "/" else path.

Lemma canonicalURI_eq p : canonicalURI p = String.concat "/" (List.map awsURIEncode (Split "/" (rooted p))).
Proof. unfold canonicalURI, rooted. by destruct (String.eqb p ""). Qed.

Lemma canonicalURI_inj p q : canonicalURI p = canonicalURI q <-> rooted p = rooted q.
Proof.
  rewrite !canonicalURI_eq. split; [|by intros ->]. intros H.
  apply concat_inj in H; [|by apply encoded_plain..| |];
    [|intros E; by apply map_eq_nil, Split_nonempty in E..].
  apply (inj (fmap (M:=list) awsURIEncode)) in H.
  by rewrite <- (concat_Split "/" (rooted p)), H, concat_Split.
Qed.

(** ** The query *)

Lemma pairLess_false p q :
  pairLess q p = false <->
  fst p = fst q /\ String.leb (snd p) (snd q) = true \/ fst p <> fst q /\ String.leb (fst p) (fst q) = true.
Proof.
  unfold pairLess. destruct (String.eqb_spec (fst q) (fst p)) as [E|E]; cbn;
    rewrite ltb_leb; rewrite negb_false_iff; naive_solver congruence.
Qed.

#[export] Instance pairLess_order : StrictWeakOrder pairLess.
Proof.
  split.
  - intros a b. destruct (pairLess b a) eqn:E; [|done]. unfold pairLess in *.
    rewrite (String.eqb_sym (fst b)) in E. destruct (String.eqb (fst a) (fst b)); cbn in *;
      rewrite ltb_leb, negb_true_iff in *; [destruct (String.leb_total (snd a) (snd b))|
        destruct (String.leb_total (fst a) (fst b))]; congruence.
  - intros a b c. rewrite !pairLess_false.
    intros [[E1 L1]|[E1 L1]] [[E2 L2]|[E2 L2]].
    + left. split; [congruence|by eapply leb_trans].
    + right. rewrite <- E1. done.
    + right. rewrite E2. done.
    + right. split; [|by eapply leb_trans].
      intros E. rewrite E in L2. apply E1. by apply leb_antisym_eq.
Qed.

Lemma pairLess_eq p q : pairLess p q = false -> pairLess q p = false -> p = q.
Proof.
  rewrite !pairLess_false. destruct p as [a b], q as [c d]; cbn.
  intros [[E1 L1]|[E1 L1]] [[E2 L2]|[E2 L2]]; subst; try done.
  - f_equal. by apply leb_antisym_eq.
  - destruct E1. by apply leb_antisym_eq.
Qed.

Lemma canonicalQuery_eq q :
  canonicalQuery q
  = String.concat "&" (List.map renderPair (SliceStable pairLess (List.map encodePair (queryPairs q)))).
Proof. unfold canonicalQuery. destruct (String.eqb_spec q "") as [->|]; done. Qed.

Definition decodePair (p : string * string) : string * string := (queryUnescape (fst p), queryUnescape (snd p)).

Lemma decode_encode p : decodePair (encodePair p) = p.
Proof. destruct p. unfold decodePair, encodePair, queryUnescape; cbn. by rewrite !QueryUnescape_encode. Qed.

Lemma sorted_pairs_encoded l :
  Forall (fun p => exists q, p = encodePair q) (SliceStable pairLess (List.map encodePair l)).
Proof. rewrite SliceStable_perm. apply Forall_map, Forall_true. eauto. Qed.

Lemma renderPair_plain x p :
  unreserved x = false -> Ascii.eqb "%" x = false -> Ascii.eqb "=" x = false ->
  Count (renderPair (encodePair p)) x = 0%nat.
Proof.
  intros H1 H2 H3. unfold renderPair, encodePair; cbn [fst snd].
  rewrite !Count_app, !encode_plain by done. cbn -[Ascii.eqb]. by rewrite H3.
Qed.

Lemma rendered_plain x l :
  unreserved x = false -> Ascii.eqb "%" x = false -> Ascii.eqb "=" x = false ->
  Forall (fun s => Count s x = 0%nat)
    (List.map renderPair (SliceStable pairLess (List.map encodePair l))).
Proof.
  intros H1 H2 H3. apply Forall_map. eapply Forall_impl; [apply sorted_pairs_encoded|].
  intros p [q ->]. by apply renderPair_plain.
Qed.

Lemma canonicalQuery_nl q : Count (canonicalQuery q) nl = 0%nat.
Proof. rewrite canonicalQuery_eq. apply Count_concat; [done|by apply rendered_plain]. Qed.

Lemma concat_rendered_nil p l : String.concat "&" (List.map renderPair (p :: l)) <> "".
Proof.
  cbn [List.map]. unfold renderPair at 1. destruct (fst p); destruct (List.map renderPair l); done.
Qed.

Lemma rendered_inj l l' :
  Forall (fun p => exists q, p = encodePair q) l -> Forall (fun p => exists q, p = encodePair q) l' ->
  List.map renderPair l = List.map renderPair l' -> l = l'.
Proof.
  intros H. revert l'. induction H as [|p l [q ->] _ IH]; intros [|p' l'] H'; try done.
  inversion H' as [|? ? [q' ->] Hl']; subst. cbn [List.map]. intros [= E Et].
  rewrite (IH _ Hl' Et). f_equal. unfold renderPair, encodePair in E; cbn in E.
  apply sep_inj in E as [E1 E2]; [|by apply encode_plain..].
  unfold encodePair. by rewrite E1, E2.
Qed.

(** Two queries are signed alike exactly when they decode to the same pairs, in
    any order. *)
Lemma canonicalQuery_inj q q' :
  canonicalQuery q = canonicalQuery q' <-> Permutation (queryPairs q) (queryPairs q').
Proof.
  rewrite !canonicalQuery_eq. split.
  - intros E. pose proof (sorted_pairs_encoded (queryPairs q)) as H.
    pose proof (sorted_pairs_encoded (queryPairs q')) as H'.
    assert (SliceStable pairLess (List.map encodePair (queryPairs q))
            = SliceStable pairLess (List.map encodePair (queryPairs q'))) as Es.
    { pose proof (rendered_plain "&" (queryPairs q) eq_refl eq_refl eq_refl) as P.
      pose proof (rendered_plain "&" (queryPairs q') eq_refl eq_refl eq_refl) as P'.
      destruct (SliceStable pairLess (List.map encodePair (queryPairs q))) as [|p l] eqn:El,
        (SliceStable pairLess (List.map encodePair (queryPairs q'))) as [|p' l'] eqn:El'; [done| | |].
      - by destruct (concat_rendered_nil p' l').
      - by destruct (concat_rendered_nil p l).
      - apply rendered_inj; [done..|]. by apply (concat_inj "&"). }
    pose proof (SliceStable_perm pairLess (List.map encodePair (queryPairs q))) as Hp.
    rewrite Es, SliceStable_perm in Hp. apply (Permutation_map decodePair) in Hp.
    rewrite !map_map in Hp. rewrite !(map_ext _ _ decode_encode), !map_id in Hp. by symmetry.
  - intros Hp. do 2 f_equal. apply SliceStable_unique; [apply _|apply pairLess_eq|by apply Permutation_map].
Qed.

(** ** What a signature covers *)

Definition one_line (s : string) : Prop := Count s nl = 0%nat.

Lemma CutSuffix_line s suf : one_line s -> one_line (fst (CutSuffix s suf)).
Proof.
  unfold CutSuffix, one_line. destruct (HasSuffix s suf) eqn:E; [|done].
  apply HasSuffix_spec in E as [a ->]. cbn [fst]. rewrite TrimSuffix_app, Count_app. lia.
Qed.

Lemma stripDefaultPort_line h : one_line h -> one_line (stripDefaultPort h).
Proof.
  intros H. unfold stripDefaultPort. pose proof (CutSuffix_line h ":443" H) as H1.
  pose proof (CutSuffix_line h ":80" H) as H2.
  destruct (CutSuffix h ":443") as [? []], (CutSuffix h ":80") as [? []]; done.
Qed.

(** The forwarded authority carries the port 443 explicitly; it is signed as the
    bare host. *)
Lemma stripDefaultPort_443 h : stripDefaultPort (h ++ ":443") = h.
Proof.
  unfold stripDefaultPort, CutSuffix.
  assert (HasSuffix (h ++ ":443") ":443" = true) as -> by (apply HasSuffix_spec; by exists h).
  by rewrite TrimSuffix_app.
Qed.

Lemma signedHeaders_line t : one_line (signedHeaders t).
Proof. unfold signedHeaders. by destruct (String.eqb t ""). Qed.

Definition pathOf (u : string) : string := fst (fst (Cut u "?")).
Definition queryOf (u : string) : string := snd (fst (Cut u "?")).

Section Covers.
Context (sha256 : string -> string) (now : Now).

(** The canonical request, line by line. *)
Lemma canonicalRequest_lines m h u b t :
  canonicalRequest sha256 m h u b t now
  = (m ++ String nl (canonicalURI (pathOf u) ++ String nl (canonicalQuery (queryOf u) ++ String nl
      (("host:" ++ stripDefaultPort h) ++ String nl (("x-amz-content-sha256:" ++ hexSHA256 sha256 b)
        ++ String nl (("x-amz-date:" ++ amzDate now) ++ String nl
          ((if String.eqb t "" then "" else ("x-amz-security-token:" ++ t) ++ String nl "")
           ++ String nl (signedHeaders t ++ String nl (hexSHA256 sha256 b)))))))))%string.
Proof.
  unfold canonicalRequest, pathOf, queryOf. destruct (Cut u "?") as [[p q] f]; cbn [fst snd].
  unfold canonicalHeaders. by repeat rewrite ?str_app_assoc, ?str_cons_app.
Qed.

Lemma prefixed_line p s : Count p nl = 0%nat -> one_line s -> Count (p ++ s)%string nl = 0%nat.
Proof. intros H1 H2. rewrite Count_app. unfold one_line in H2. lia. Qed.

(** C20: two requests are signed over the same canonical request exactly when they
    agree on the method, the path (the empty one being the root), the decoded
    query parameters in any order, the host up to an explicit default port, the
    session token and the hash of the payload. *)
Theorem signature_covers m1 h1 u1 b1 t1 m2 h2 u2 b2 t2 :
  one_line (amzDate now) -> one_line m1 -> one_line m2 -> one_line h1 -> one_line h2 ->
  one_line t1 -> one_line t2 ->
  canonicalRequest sha256 m1 h1 u1 b1 t1 now = canonicalRequest sha256 m2 h2 u2 b2 t2 now
  <-> m1 = m2 /\ rooted (pathOf u1) = rooted (pathOf u2)
      /\ Permutation (queryPairs (queryOf u1)) (queryPairs (queryOf u2))
      /\ stripDefaultPort h1 = stripDefaultPort h2 /\ t1 = t2 /\ sha256 b1 = sha256 b2.
Proof.
  intros Hd Hm1 Hm2 Hh1 Hh2 Ht1 Ht2. rewrite !canonicalRequest_lines, <- canonicalURI_inj, <- canonicalQuery_inj.
  apply stripDefaultPort_line in Hh1, Hh2. split.
  2: { intros (-> & -> & -> & -> & -> & E). unfold hexSHA256. by rewrite E. }
  intros E. apply sep_inj in E as [-> E]; [|done..].
  apply sep_inj in E as [-> E]; [|apply canonicalURI_nl..].
  apply sep_inj in E as [-> E]; [|apply canonicalQuery_nl..].
  apply sep_inj in E as [Eh E]; [|by apply prefixed_line..].
  apply sep_inj in E as [Eb E]; [|by apply prefixed_line; [|apply hexEncode_nl]..].
  apply sep_inj in E as [_ E]; [|by apply prefixed_line..].
  apply (inj (String.append _)) in Eh, Eb. apply hexEncode_inj in Eb. repeat split; try done.
  destruct (String.eqb_spec t1 "") as [->|N1], (String.eqb_spec t2 "") as [->|N2]; [done| | |].
  - by apply (sep_inj nl "") in E as [E _].
  - by apply (sep_inj nl _ "") in E as [E _].
  - rewrite !str_app_assoc in E. apply (inj (String.append _)) in E.
    by apply sep_inj in E as [E _].
Qed.

End Covers.

(** The headers [Sign] sets. *)
Lemma Sign_names sha256 hmac m h u b creds region service now :
  List.map Name (Sign sha256 hmac m h u b creds region service now)
  = (["x-amz-date"; "x-amz-content-sha256"]
    ++ (if String.eqb (SessionToken creds) "" then [] else ["x-amz-security-token"]) ++ ["authorization"])%list.
Proof. unfold Sign. by destruct (String.eqb (SessionToken creds) ""). Qed.

Lemma signature_covers_witness :
  canonicalRequest (fun b => b) "POST" "bedrock.example:443" "/model/a:b?y=2&x=1" "body" "" (mkNow "20260101T000000Z" "20260101")
  = canonicalRequest (fun b => b) "POST" "bedrock.example" "/model/a:b?x=1&y=2" "body" "" (mkNow "20260101T000000Z" "20260101").
Proof.
  apply signature_covers; [vm_compute; reflexivity..|].
  split; [reflexivity|]. split; [vm_compute; reflexivity|].
  split; [|split; [vm_compute; reflexivity|split; reflexivity]].
  change (queryPairs (queryOf "/model/a:b?y=2&x=1")) with [("y", "2"); ("x", "1")].
  change (queryPairs (queryOf "/model/a:b?x=1&y=2")) with [("x", "1"); ("y", "2")].
  apply perm_swap.
Defined.

End SigV4.
