(* ===== verification/LlmCall.v ===== *)
(** * The neutral call model

    [src/internal/extproc/llmcall]: the request and response every provider's
    wire format is decoded into ([types.go], [wire.go], [stream.go]), the gates
    and normalizations of cross-schema translation ([translate.go]) and the
    reassembly of a streamed response ([assemble.go]).  The codecs are interfaces
    of the source; here they are arguments. *)

From Stdlib Require Import ZArith Lia NArith Ascii String List.
From stdpp Require Import base strings list gmap pretty.
From S2P Require Import Prelude GoStrings GoStd Registry.
Import GoStrings GoStd.

#[local] Open Scope string_scope.
#[local] Open Scope Z_scope.
#[local] Open Scope list_scope.

Module LlmCall.

(** ** Wire bookkeeping *)

Record ExtraField := mkExtra { ef_Key : string; ef_Value : string }.

(** The comparable scalars a shadow holds. *)
Inductive ShadowVal := SVString (s : string) | SVBool (b : bool) | SVNumber (lit : string) | SVInt64 (z : Z).
#[export] Instance ShadowVal_eq_dec : EqDecision ShadowVal.
Proof. solve_decision. Defined.

Record Shadow := mkShadow { sh_Raw : string; sh_Val : ShadowVal }.

Record Wire := mkWire {
  KeyOrder : list string;
  Extras : list ExtraField;
  wi_Shadow : gmap string Shadow;
  Hints : gmap string string;
  Raw : string;
  wi_Path : string;
  wi_Headers : gmap string string;
}.

(** [Wire{}]: programmatically built. *)
Definition zeroWire : Wire := mkWire [] [] ∅ ∅ "" "" ∅.

Fixpoint findExtra (key : string) (l : list ExtraField) : option string :=
  match l with
  | [] => None
  | e :: l => if String.eqb (ef_Key e) key then Some (ef_Value e) else findExtra key l
  end.

Definition Extra (w : Wire) (key : string) : option string := findExtra key (Extras w).

Definition AddExtra (key value : string) (w : Wire) : Wire :=
  mkWire (KeyOrder w) (Extras w ++ [mkExtra key value]) (wi_Shadow w) (Hints w) (Raw w) (wi_Path w) (wi_Headers w).

Definition RecordShadow (key raw : string) (val : ShadowVal) (w : Wire) : Wire :=
  mkWire (KeyOrder w) (Extras w) (<[key := mkShadow raw val]> (wi_Shadow w)) (Hints w) (Raw w) (wi_Path w)
    (wi_Headers w).

Definition ShadowRaw (w : Wire) (key : string) (val : ShadowVal) : option string :=
  match wi_Shadow w !! key with
  | Some s => if bool_decide (sh_Val s = val) then Some (sh_Raw s) else None
  | None => None
  end.

Definition Hint (w : Wire) (key : string) : string := default "" (Hints w !! key).

Definition SetHint (key value : string) (w : Wire) : Wire :=
  mkWire (KeyOrder w) (Extras w) (wi_Shadow w) (<[key := value]> (Hints w)) (Raw w) (wi_Path w) (wi_Headers w).

Definition HasKey (w : Wire) (key : string) : bool := existsb (String.eqb key) (KeyOrder w).

(** ** Messages *)

(** A role is a string; [RoleOther] is any without a name of its own. *)
Inductive Role := RoleSystem | RoleUser | RoleAssistant | RoleTool | RoleOther (s : string).
#[export] Instance Role_eq_dec : EqDecision Role.
Proof. solve_decision. Defined.

Inductive PartType :=
| PartTypeText | PartTypeImage | PartTypeAudio | PartTypeFile | PartTypeToolCall
| PartTypeToolCallResponse | PartTypeReasoning | PartTypeRefusal | PartTypeCitation | PartTypeUnknown.
#[export] Instance PartType_eq_dec : EqDecision PartType.
Proof. solve_decision. Defined.

(** The first constructor is the empty string, a reason with no canonical name. *)
Inductive FinishReason :=
| FinishReasonUnset | FinishReasonStop | FinishReasonLength | FinishReasonToolCalls | FinishReasonContentFilter
| FinishReasonError.

Record TextPart := mkText { tx_Text : string; tx_Wire : Wire }.
(** [ImagePart] and [AudioPart] have the same fields. *)
Record MediaPart := mkMedia { md_MIMEType : string; md_DataB64 : string; md_URL : string; md_Wire : Wire }.
Record FilePart := mkFile {
  fl_MIMEType : string; fl_DataB64 : string; fl_URL : string; fl_Name : string; fl_Wire : Wire }.
Record ToolCallPart := mkToolCall { tc_ID : string; tc_Name : string; tc_Arguments : string; tc_Wire : Wire }.
Record ReasoningPart := mkReasoning { re_Text : string; re_Signature : string; re_Wire : Wire }.
Record RefusalPart := mkRefusal { rf_Text : string; rf_Wire : Wire }.
Record CitationPart := mkCitation { ci_Title : string; ci_URL : string; ci_Snippet : string; ci_Wire : Wire }.

Inductive Part := mkPart {
  pt_Type : PartType;
  pt_Text : option TextPart;
  pt_Image : option MediaPart;
  pt_Audio : option MediaPart;
  pt_File : option FilePart;
  pt_ToolCall : option ToolCallPart;
  pt_ToolCallResponse : option ToolCallResponsePart;
  pt_Reasoning : option ReasoningPart;
  pt_Refusal : option RefusalPart;
  pt_Citation : option CitationPart;
  pt_Wire : Wire;
}
with ToolCallResponsePart := mkResponsePart {
  tr_ToolCallID : string;
  tr_Parts : list Part;
  tr_IsError : bool;
  tr_Wire : Wire;
}.

Record Message := mkMessage { ms_Role : Role; ms_Parts : list Part; ms_Wire : Wire }.

Record ToolDefinition := mkTool {
  td_Name : string; td_Description : string; td_Parameters : string; td_Wire : Wire }.

Inductive ToolChoiceMode := ToolChoiceAuto | ToolChoiceNone | ToolChoiceRequired | ToolChoiceNamed | ToolChoiceOther (s : string).
Record ToolChoice := mkChoice { ch_Mode : ToolChoiceMode; ch_Name : string; ch_Wire : Wire }.

Record GenerationConfig := mkGeneration {
  MaxTokens : string; Temperature : string; TopP : string; TopK : string;
  StopSequences : list string; ge_Wire : Wire }.

Record Request := mkRequest {
  rq_Provider : string;
  rq_Operation : string;
  rq_Model : string;
  rq_System : list Part;
  rq_Messages : list Message;
  rq_Tools : list ToolDefinition;
  rq_ToolChoice : option ToolChoice;
  rq_Generation : GenerationConfig;
  rq_Stream : bool;
  rq_Wire : Wire;
}.

Record Usage := mkUsage { InputTokens : Z; OutputTokens : Z; us_Wire : Wire }.

Record Choice := mkCompletion {
  co_Message : Message; co_FinishReason : FinishReason; co_FinishReasonRaw : string; co_Wire : Wire }.

Record Response := mkResponse {
  rs_Provider : string; rs_ID : string; rs_Model : string; rs_Choices : list Choice; rs_Usage : Usage;
  rs_Wire : Wire }.

(** ** Translation blockers *)

Definition BlockerNoCodec : string := "no_codec".
Definition BlockerStreaming : string := "streaming".
Definition BlockerOperation : string := "operation".
Definition BlockerTools : string := "tools".
Definition BlockerToolResults : string := "tool_results".
Definition BlockerImageInput : string := "image_input".
Definition BlockerAudioInput : string := "audio_input".
Definition BlockerFileInput : string := "file_input".
Definition BlockerReasoning : string := "reasoning".
Definition BlockerSystem : string := "system".
Definition BlockerUnknownContent : string := "unknown_content".

(** The closure [add]. *)
Definition add (b : string) (blockers : list string) : list string :=
  if existsb (String.eqb b) blockers then blockers else blockers ++ [b].

Definition addIf (cond : bool) (b : string) (blockers : list string) : list string :=
  if cond then add b blockers else blockers.

Section Blockers.
Context (caps : Registry.Capabilities) (googleSide : bool).

(** One part of the closure [walk]. *)
Fixpoint walkPart (blockers : list string) (p : Part) : list string :=
  match pt_Type p with
  | PartTypeUnknown => add BlockerUnknownContent blockers
  | PartTypeImage => addIf (negb (Registry.ImageInput caps)) BlockerImageInput blockers
  | PartTypeAudio => addIf (negb (Registry.AudioInput caps)) BlockerAudioInput blockers
  | PartTypeFile => addIf (negb (Registry.FileInput caps)) BlockerFileInput blockers
  | PartTypeReasoning => addIf (negb (Registry.cap_Reasoning caps)) BlockerReasoning blockers
  | PartTypeToolCall => addIf (negb (Registry.cap_Tools caps)) BlockerTools blockers
  | PartTypeToolCallResponse =>
      let b := addIf googleSide BlockerToolResults
                 (addIf (negb (Registry.cap_Tools caps)) BlockerTools blockers) in
      match pt_ToolCallResponse p with
      | Some r => fold_left walkPart (tr_Parts r) b
      | None => b
      end
  | _ => blockers
  end.

Definition walk (blockers : list string) (parts : list Part) : list string :=
  fold_left walkPart parts blockers.

End Blockers.

Definition isSystem (m : Message) : bool := bool_decide (ms_Role m = RoleSystem).

Definition TranslationBlockers (req : option Request) (src tgt : option Registry.Provider) : list string :=
  match req, src, tgt with
  | Some req, Some src, Some tgt =>
      if negb (Registry.p_Codec src) || negb (Registry.p_Codec tgt) then [BlockerNoCodec]
      else
        let caps := Registry.p_Capabilities tgt in
        let b := addIf (rq_Stream req && negb (Registry.StreamsTranslatable (Some src)
                                               && Registry.StreamsTranslatable (Some tgt)))
                   BlockerStreaming [] in
        let b := addIf (negb (String.eqb (rq_Operation req) "")
                        && negb (existsb (String.eqb (rq_Operation req)) (Registry.Operations caps)))
                   BlockerOperation b in
        let b := addIf ((negb (match rq_Tools req with [] => true | _ => false end)
                         || bool_decide (is_Some (rq_ToolChoice req)))
                        && negb (Registry.cap_Tools caps)) BlockerTools b in
        let googleSide := String.eqb (Registry.p_Name src) "google_genai"
                          || String.eqb (Registry.p_Name tgt) "google_genai" in
        let b := walk caps googleSide b (rq_System req) in
        let b := fold_left (fun b m => walk caps googleSide b (ms_Parts m)) (rq_Messages req) b in
        let hasSystem := negb (match rq_System req with [] => true | _ => false end)
                         || existsb isSystem (rq_Messages req) in
        addIf (hasSystem && negb (Registry.SystemRole caps)) BlockerSystem b
  | _, _, _ => [BlockerNoCodec]
  end.

(** ** Normalization before a foreign encoder *)

(** [LiftSystemMessages]: the message list is replaced only when a turn moved. *)
Definition LiftSystemMessages (req : Request) : Request :=
  let moved := existsb isSystem (rq_Messages req) in
  let kept := List.filter (fun m => negb (isSystem m)) (rq_Messages req) in
  let lifted := flat_map ms_Parts (List.filter isSystem (rq_Messages req)) in
  mkRequest (rq_Provider req) (rq_Operation req) (rq_Model req) (rq_System req ++ lifted)
    (if moved then kept else rq_Messages req) (rq_Tools req) (rq_ToolChoice req) (rq_Generation req)
    (rq_Stream req) (rq_Wire req).

Definition withMessages (req : Request) (ms : list Message) : Request :=
  mkRequest (rq_Provider req) (rq_Operation req) (rq_Model req) (rq_System req) ms (rq_Tools req)
    (rq_ToolChoice req) (rq_Generation req) (rq_Stream req) (rq_Wire req).

(** [fmt.Sprintf("call_%d", n)]. *)
Definition callID (n : Z) : string := ("call_" ++ pretty n)%string.

Definition needsID (p : Part) : option ToolCallPart :=
  match pt_Type p, pt_ToolCall p with
  | PartTypeToolCall, Some tc => if String.eqb (tc_ID tc) "" then Some tc else None
  | _, _ => None
  end.

Definition withID (id : string) (p : Part) (tc : ToolCallPart) : Part :=
  mkPart (pt_Type p) (pt_Text p) (pt_Image p) (pt_Audio p) (pt_File p)
    (Some (mkToolCall id (tc_Name tc) (tc_Arguments tc) (tc_Wire tc)))
    (pt_ToolCallResponse p) (pt_Reasoning p) (pt_Refusal p) (pt_Citation p) (pt_Wire p).

(** The inner loop, with the counter [n]. *)
Fixpoint ensureParts (n : Z) (parts : list Part) : Z * list Part :=
  match parts with
  | [] => (n, [])
  | p :: ps =>
      match needsID p with
      | Some tc => let '(n', ps') := ensureParts (n + 1) ps in (n', withID (callID (n + 1)) p tc :: ps')
      | None => let '(n', ps') := ensureParts n ps in (n', p :: ps')
      end
  end.

Fixpoint ensureMessages (n : Z) (ms : list Message) : Z * list Message :=
  match ms with
  | [] => (n, [])
  | m :: ms =>
      let '(n1, ps) := ensureParts n (ms_Parts m) in
      let '(n2, ms') := ensureMessages n1 ms in
      (n2, mkMessage (ms_Role m) ps (ms_Wire m) :: ms')
  end.

Definition EnsureToolCallIDs (req : Request) : Request :=
  withMessages req (snd (ensureMessages 0 (rq_Messages req))).

(** [stripWire]: how many extras the node carried; the wire becomes the zero one. *)
Definition stripWire (w : Wire) : Z := Z.of_nat (length (Extras w)).

(** The variant the [switch] of [stripParts] reaches, with its wire zeroed, and
    the extras it carried. *)
Definition stripVariant (stripResponse : ToolCallResponsePart -> ToolCallResponsePart * Z) (p : Part) : Part * Z :=
  let ty := pt_Type p in
  match p with
  | mkPart _ tx im au fi tc tr re rf ci _ =>
      match tx with
      | Some t => (mkPart ty (Some (mkText (tx_Text t) zeroWire)) im au fi tc tr re rf ci zeroWire,
                   stripWire (tx_Wire t))
      | None =>
      match im with
      | Some t => (mkPart ty tx (Some (mkMedia (md_MIMEType t) (md_DataB64 t) (md_URL t) zeroWire)) au fi tc tr re
                     rf ci zeroWire, stripWire (md_Wire t))
      | None =>
      match au with
      | Some t => (mkPart ty tx im (Some (mkMedia (md_MIMEType t) (md_DataB64 t) (md_URL t) zeroWire)) fi tc tr re
                     rf ci zeroWire, stripWire (md_Wire t))
      | None =>
      match fi with
      | Some t => (mkPart ty tx im au (Some (mkFile (fl_MIMEType t) (fl_DataB64 t) (fl_URL t) (fl_Name t)
                                               zeroWire)) tc tr re rf ci zeroWire, stripWire (fl_Wire t))
      | None =>
      match tc with
      | Some t => (mkPart ty tx im au fi (Some (mkToolCall (tc_ID t) (tc_Name t) (tc_Arguments t) zeroWire)) tr re
                     rf ci zeroWire, stripWire (tc_Wire t))
      | None =>
      match tr with
      | Some t => let '(t', n) := stripResponse t in
                  (mkPart ty tx im au fi tc (Some t') re rf ci zeroWire, n)
      | None =>
      match re with
      | Some t => (mkPart ty tx im au fi tc tr (Some (mkReasoning (re_Text t) (re_Signature t) zeroWire)) rf ci
                     zeroWire, stripWire (re_Wire t))
      | None =>
      match rf with
      | Some t => (mkPart ty tx im au fi tc tr re (Some (mkRefusal (rf_Text t) zeroWire)) ci zeroWire,
                   stripWire (rf_Wire t))
      | None =>
      match ci with
      | Some t => (mkPart ty tx im au fi tc tr re rf
                     (Some (mkCitation (ci_Title t) (ci_URL t) (ci_Snippet t) zeroWire)) zeroWire,
                   stripWire (ci_Wire t))
      | None => (mkPart ty tx im au fi tc tr re rf ci zeroWire, 0)
      end end end end end end end end end
  end.

(** [stripParts] on one part: [None] when the part is dropped. *)
Fixpoint stripPart (p : Part) : option Part * Z :=
  match pt_Type p with
  | PartTypeUnknown => (None, 1)
  | _ =>
      let '(p', n) := stripVariant (fun r =>
        match r with
        | mkResponsePart id parts err w =>
            let l := List.map stripPart parts in
            (mkResponsePart id (omap fst l) err zeroWire, stripWire w + sumZ (List.map snd l))
        end) p in
      (Some p', stripWire (pt_Wire p) + n)
  end.

Definition stripParts (parts : list Part) : list Part * Z :=
  let l := List.map stripPart parts in (omap fst l, sumZ (List.map snd l)).

Definition stripTool (t : ToolDefinition) : ToolDefinition :=
  mkTool (td_Name t) (td_Description t) (td_Parameters t) zeroWire.

Definition stripMessage (m : Message) : Message * Z :=
  let '(ps, n) := stripParts (ms_Parts m) in (mkMessage (ms_Role m) ps zeroWire, stripWire (ms_Wire m) + n).

Definition stripGeneration (g : GenerationConfig) : GenerationConfig :=
  mkGeneration (MaxTokens g) (Temperature g) (TopP g) (TopK g) (StopSequences g) zeroWire.

Definition stripChoice (c : ToolChoice) : ToolChoice := mkChoice (ch_Mode c) (ch_Name c) zeroWire.

Definition StripRequestForTranslation (req : Request) : Request * Z :=
  let '(sys, n1) := stripParts (rq_System req) in
  let ms := List.map stripMessage (rq_Messages req) in
  (mkRequest (rq_Provider req) (rq_Operation req) (rq_Model req) sys (List.map fst ms)
     (List.map stripTool (rq_Tools req)) (stripChoice <$> rq_ToolChoice req)
     (stripGeneration (rq_Generation req)) (rq_Stream req) zeroWire,
   stripWire (rq_Wire req) + stripWire (ge_Wire (rq_Generation req))
   + match rq_ToolChoice req with Some c => stripWire (ch_Wire c) | None => 0 end
   + sumZ (List.map (fun t => stripWire (td_Wire t)) (rq_Tools req)) + n1 + sumZ (List.map snd ms)).

Definition stripCompletion (c : Choice) : Choice * Z :=
  let '(m, n) := stripMessage (co_Message c) in
  (mkCompletion m (co_FinishReason c) "" zeroWire, stripWire (co_Wire c) + n).

Definition StripResponseForTranslation (resp : Response) : Response * Z :=
  let cs := List.map stripCompletion (rs_Choices resp) in
  let u := rs_Usage resp in
  (mkResponse (rs_Provider resp) (rs_ID resp) (rs_Model resp) (List.map fst cs)
     (mkUsage (InputTokens u) (OutputTokens u) zeroWire) zeroWire,
   stripWire (rs_Wire resp) + stripWire (us_Wire u) + sumZ (List.map snd cs)).

(** ** Data URLs *)

Definition DataURL (mime dataB64 : string) : string := ("data:" ++ mime ++ ";base64," ++ dataB64)%string.

Definition SplitDataURL (url : string) : string * string * bool :=
  if negb (HasPrefix url "data:") then ("", "", false)
  else
    let '(meta, payload, found) := Cut (TrimPrefix url "data:") "," in
    if negb found then ("", "", false)
    else if HasSuffix meta ";base64" then (TrimSuffix meta ";base64", payload, true) else ("", "", false).

(** ** Streamed responses *)

Record StreamStart := mkStart { st_ID : string; st_Model : string }.
Record StreamContentStart := mkContentStart { cs_Index : Z; cs_Part : Part }.
Record StreamTextDelta := mkTextDelta { tdl_Index : Z; tdl_Text : string }.
Record StreamToolCallDelta := mkToolCallDelta {
  tcd_Index : Z; tcd_ID : string; tcd_Name : string; tcd_ArgumentsDelta : string }.
Record StreamReasoningDelta := mkReasoningDelta { rdl_Index : Z; rdl_Text : string }.
Record StreamFinish := mkFinish { sf_FinishReason : FinishReason; sf_FinishReasonRaw : string }.
Record StreamError := mkStreamError { se_Code : string; se_Message : string }.

(** [StreamEvent]: the type with the pointer it selects. *)
Inductive StreamEvent :=
| StreamEventStart (d : option StreamStart)
| StreamEventContentStart (d : option StreamContentStart)
| StreamEventTextDelta (d : option StreamTextDelta)
| StreamEventToolCallDelta (d : option StreamToolCallDelta)
| StreamEventReasoningDelta (d : option StreamReasoningDelta)
| StreamEventContentEnd (index : option Z)
| StreamEventUsage (u : option Usage)
| StreamEventFinish (f : option StreamFinish)
| StreamEventError (e : option StreamError)
| StreamEventDone.

Record AssembledToolCall := mkAssembledCall { at_ID : string; at_Name : string; at_Arguments : string }.
Record AssembledResponse := mkAssembled { ar_Text : string; ar_ToolCalls : list AssembledToolCall }.

(** The accumulators of [AssembleStreamedResponse]: [acc] is an assembled call. *)
Record assembly := mkAssembly {
  as_text : string;
  as_byIndex : gmap Z AssembledToolCall;
  as_order : list Z;
}.

(** [get(i)] followed by the updates of one event: identifier and name when they
    are not empty, the argument bytes appended. *)
Definition touch (i : Z) (id name args : string) (s : assembly) : assembly :=
  let a := default (mkAssembledCall "" "" "") (as_byIndex s !! i) in
  let order := if bool_decide (is_Some (as_byIndex s !! i)) then as_order s else as_order s ++ [i] in
  mkAssembly (as_text s)
    (<[i := mkAssembledCall (if String.eqb id "" then at_ID a else id)
              (if String.eqb name "" then at_Name a else name) (at_Arguments a ++ args)%string]> (as_byIndex s))
    order.

Definition assembleStep (s : assembly) (ev : StreamEvent) : assembly :=
  match ev with
  | StreamEventTextDelta (Some d) => mkAssembly (as_text s ++ tdl_Text d)%string (as_byIndex s) (as_order s)
  | StreamEventContentStart (Some cs) =>
      match pt_ToolCall (cs_Part cs) with
      | Some tc => touch (cs_Index cs) (tc_ID tc) (tc_Name tc) (tc_Arguments tc) s
      | None => s
      end
  | StreamEventToolCallDelta (Some d) => touch (tcd_Index d) (tcd_ID d) (tcd_Name d) (tcd_ArgumentsDelta d) s
  | _ => s
  end.

Definition emptyCall (a : AssembledToolCall) : bool :=
  String.eqb (at_Name a) "" && String.eqb (at_Arguments a) "".

Definition assembled (s : assembly) : AssembledResponse :=
  mkAssembled (as_text s)
    (List.filter (fun a => negb (emptyCall a)) (omap (fun i => as_byIndex s !! i) (as_order s))).

(** [decode] is [NewStreamDecoder(nil).Decode(body, true)] with its error
    swallowed, absent when the provider has no stream codec. *)
Definition AssembleStreamedResponse (decode : option (string -> list StreamEvent)) (body : string)
    : option AssembledResponse :=
  match decode with
  | None => None
  | Some decode =>
      if String.eqb body "" then None
      else match decode body with
           | [] => None
           | events =>
               let res := assembled (fold_left assembleStep events (mkAssembly "" ∅ [])) in
               if String.eqb (ar_Text res) "" && (match ar_ToolCalls res with [] => true | _ => false end)
               then None else Some res
           end
  end.

Definition renderCall (b : string) (tc : AssembledToolCall) : string :=
  (b ++ (if String.eqb b "" then "" else String "010"%char "") ++ at_Name tc ++ "(" ++ at_Arguments tc ++ ")")%string.

Definition Rendered (a : AssembledResponse) : string := fold_left renderCall (ar_ToolCalls a) (ar_Text a).

(** ** The codec interface *)

Record RequestInput := mkRequestInput {
  in_Method : string; in_Path : string; in_Headers : gmap string string; in_Body : string }.

Record EncodedRequest := mkEncodedRequest {
  en_Body : string; en_Path : string; en_SetHeaders : gmap string string; en_RemoveHeaders : list string;
  en_DroppedExtras : Z }.

Record EncodedResponse := mkEncodedResponse {
  er_Body : string; er_SetHeaders : gmap string string; er_DroppedExtras : Z }.

(** [ErrUnsupported], [MalformedError] with its fields (the cause as its text), any
    other error. *)
Inductive CodecError :=
| ErrUnsupported | MalformedError (provider detail : string) (err : option string) | OtherError (msg : string).

(** The [Error] method. *)
Definition errorText (e : CodecError) : string :=
  match e with
  | ErrUnsupported => "llmcall: not supported by codec"
  | MalformedError provider detail err =>
      ("llmcall: malformed " ++ provider ++ " body: " ++ detail
       ++ match err with Some c => ": " ++ c | None => "" end)%string
  | OtherError msg => msg
  end.

(** [Codec], always called with [ModeStrip] by the translator. *)
Class Codec := {
  DecodeRequest : RequestInput -> outcome CodecError Request;
  EncodeRequest : Request -> outcome CodecError EncodedRequest;
  DecodeResponse : Z -> gmap string string -> string -> Request -> outcome CodecError Response;
  EncodeResponse : Response -> outcome CodecError EncodedResponse;
}.

(** ** Induction on nested parts *)

Section PartInd.
Context (P : Part -> Prop)
  (H : forall p, (forall r, pt_ToolCallResponse p = Some r -> Forall P (tr_Parts r)) -> P p).

Fixpoint Part_ind' (p : Part) : P p :=
  H p (fun r =>
    match pt_ToolCallResponse p as o return o = Some r -> Forall P (tr_Parts r) with
    | Some (mkResponsePart id parts err w) =>
        fun e => match e in (_ = o) return match o with Some r => Forall P (tr_Parts r) | None => True end with
        | eq_refl =>
            (fix go (l : list Part) : Forall P l :=
               match l with [] => Forall_nil_2 P | q :: l => Forall_cons_2 P q l (Part_ind' q) (go l) end) parts
        end
    | None => fun e => match e in (_ = o) return match o with Some r => Forall P (tr_Parts r) | None => True end with
                       | eq_refl => I end
    end).

End PartInd.

(** A part with the parts of the tool results inside it. *)
Fixpoint subparts (p : Part) : list Part :=
  p :: match pt_Type p, pt_ToolCallResponse p with
       | PartTypeToolCallResponse, Some r => flat_map subparts (tr_Parts r)
       | _, _ => []
       end.

(** The pointers that are set. *)
Definition variants (p : Part) : list PartType :=
  let set_ {A} (o : option A) t := match o with Some _ => [t] | None => [] end in
  set_ (pt_Text p) PartTypeText ++ set_ (pt_Image p) PartTypeImage ++ set_ (pt_Audio p) PartTypeAudio
  ++ set_ (pt_File p) PartTypeFile ++ set_ (pt_ToolCall p) PartTypeToolCall
  ++ set_ (pt_ToolCallResponse p) PartTypeToolCallResponse ++ set_ (pt_Reasoning p) PartTypeReasoning
  ++ set_ (pt_Refusal p) PartTypeRefusal ++ set_ (pt_Citation p) PartTypeCitation.

(** The union discipline: [Type] selects the one pointer that is set, and an
    unknown part has none. *)
Definition tagged (p : Part) : Prop :=
  variants p = if bool_decide (pt_Type p = PartTypeUnknown) then [] else [pt_Type p].

Definition wf_part (p : Part) : Prop := Forall tagged (subparts p).

(** All bookkeeping removed, all content kept. *)
Fixpoint erasePart (p : Part) : Part :=
  match p with
  | mkPart ty tx im au fi tc tr re rf ci _ =>
      mkPart ty
        ((fun t => mkText (tx_Text t) zeroWire) <$> tx)
        ((fun t => mkMedia (md_MIMEType t) (md_DataB64 t) (md_URL t) zeroWire) <$> im)
        ((fun t => mkMedia (md_MIMEType t) (md_DataB64 t) (md_URL t) zeroWire) <$> au)
        ((fun t => mkFile (fl_MIMEType t) (fl_DataB64 t) (fl_URL t) (fl_Name t) zeroWire) <$> fi)
        ((fun t => mkToolCall (tc_ID t) (tc_Name t) (tc_Arguments t) zeroWire) <$> tc)
        (match tr with
         | Some (mkResponsePart id parts err _) => Some (mkResponsePart id (List.map erasePart parts) err zeroWire)
         | None => None
         end)
        ((fun t => mkReasoning (re_Text t) (re_Signature t) zeroWire) <$> re)
        ((fun t => mkRefusal (rf_Text t) zeroWire) <$> rf)
        ((fun t => mkCitation (ci_Title t) (ci_URL t) (ci_Snippet t) zeroWire) <$> ci)
        zeroWire
  end.

Lemma erasePart_idem p : erasePart (erasePart p) = erasePart p.
Proof.
  induction p as [p IH] using Part_ind'. destruct p as [ty tx im au fi tc tr re rf ci w]; cbn in *.
  f_equal; try (by destruct tx); try (by destruct im); try (by destruct au); try (by destruct fi);
    try (by destruct tc); try (by destruct re); try (by destruct rf); try (by destruct ci).
  destruct tr as [[id parts err w']|]; [|done]. cbn. do 2 f_equal.
  specialize (IH _ eq_refl). cbn in IH. rewrite map_map. by apply map_ext_Forall.
Qed.

Lemma erasePart_type p : pt_Type (erasePart p) = pt_Type p.
Proof. by destruct p. Qed.

Definition known (p : Part) : Prop := Forall (fun q => pt_Type q <> PartTypeUnknown) (subparts p).

Lemma omap_all {A B} (f : A -> option B) (g : A -> B) l :
  Forall (fun x => f x = Some (g x)) l -> omap f l = List.map g l.
Proof. induction 1 as [|x l Hx _ IH]; cbn; [done|]. by rewrite Hx, IH. Qed.

Lemma omap_map {A B C} (f : B -> option C) (g : A -> B) l : omap f (List.map g l) = omap (fun x => f (g x)) l.
Proof. induction l as [|x l IH]; cbn; [done|]. by rewrite IH. Qed.

(** On a well-formed part without unknown content, stripping drops nothing. *)
Lemma stripPart_erase p : wf_part p -> known p -> fst (stripPart p) = Some (erasePart p).
Proof.
  induction p as [p IH] using Part_ind'. intros Hw Hk.
  assert (Ht : tagged p). { destruct p. by inversion Hw. }
  assert (Hu : pt_Type p <> PartTypeUnknown). { destruct p. by inversion Hk. }
  destruct p as [ty tx im au fi tc tr re rf ci w]. unfold tagged, variants in Ht. cbn in *.
  rewrite bool_decide_false in Ht by done.
  destruct tx, im, au, fi, tc, tr as [[id parts err w']|], re, rf, ci; try discriminate Ht; injection Ht as <-;
    try done.
  cbn. do 3 f_equal. specialize (IH _ eq_refl). cbn in IH.
  unfold wf_part, known in Hw, Hk. cbn in Hw, Hk. apply Forall_cons in Hw as [_ Hw], Hk as [_ Hk].
  rewrite Forall_flat_map in Hw, Hk. rewrite omap_map. f_equal. apply omap_all. rewrite Forall_forall in *.
  intros q Hq. apply IH; [done|by apply Hw|by apply Hk].
Qed.

Lemma stripParts_erase ps :
  Forall wf_part ps -> Forall known ps -> fst (stripParts ps) = List.map erasePart ps.
Proof.
  intros Hw Hk. unfold stripParts; cbn. rewrite omap_map. apply omap_all. rewrite Forall_forall in *.
  intros p Hp. by apply stripPart_erase; [apply Hw|apply Hk].
Qed.

(** ** When there is no blocker *)

Lemma add_nonempty b l : add b l <> [].
Proof. unfold add. destruct (existsb _ l) eqn:E; [by destruct l|by destruct l]. Qed.

Lemma addIf_nil c b l : addIf c b l = [] <-> c = false /\ l = [].
Proof.
  unfold addIf. destruct c; [|naive_solver]. split; [intros H; by apply add_nonempty in H|naive_solver].
Qed.

(** A part the target can express. *)
Definition fits (caps : Registry.Capabilities) (googleSide : bool) (p : Part) : Prop :=
  match pt_Type p with
  | PartTypeUnknown => False
  | PartTypeImage => Registry.ImageInput caps = true
  | PartTypeAudio => Registry.AudioInput caps = true
  | PartTypeFile => Registry.FileInput caps = true
  | PartTypeReasoning => Registry.cap_Reasoning caps = true
  | PartTypeToolCall => Registry.cap_Tools caps = true
  | PartTypeToolCallResponse => Registry.cap_Tools caps = true /\ googleSide = false
  | _ => True
  end.

Lemma fold_nil {A} (f : list string -> A -> list string) (P : A -> Prop) l b :
  Forall (fun x => forall b, f b x = [] <-> b = [] /\ P x) l ->
  fold_left f l b = [] <-> b = [] /\ Forall P l.
Proof.
  intros H. revert b. induction H as [|x l Hx _ IH]; intros b; cbn; [naive_solver|].
  rewrite IH, Hx, Forall_cons. naive_solver.
Qed.

Lemma walkPart_nil caps g p b : walkPart caps g b p = [] <-> b = [] /\ Forall (fits caps g) (subparts p).
Proof.
  revert b. induction p as [p IH] using Part_ind'. intros b.
  destruct p as [ty tx im au fi tc tr re rf ci w]; cbn in *.
  destruct ty; cbn; rewrite ?addIf_nil, ?Forall_cons, ?Forall_nil, ?negb_false_iff; unfold fits; cbn;
    try naive_solver.
  - destruct tr as [r|]; cbn; [|rewrite !addIf_nil, Forall_nil, negb_false_iff; naive_solver].
    specialize (IH r eq_refl). rewrite (fold_nil _ (fun q => Forall (fits caps g) (subparts q))).
    + rewrite !addIf_nil, negb_false_iff, Forall_flat_map. naive_solver.
    + eapply Forall_impl; [exact IH|]. auto.
  - split; [intros H; by apply add_nonempty in H|naive_solver].
Qed.

Lemma walk_nil caps g ps b :
  walk caps g b ps = [] <-> b = [] /\ Forall (fun p => Forall (fits caps g) (subparts p)) ps.
Proof. unfold walk. apply fold_nil, Forall_true. intros p b'. apply walkPart_nil. Qed.

Definition googleSide (src tgt : Registry.Provider) : bool :=
  String.eqb (Registry.p_Name src) "google_genai" || String.eqb (Registry.p_Name tgt) "google_genai".

(** All parts of a request, tool results included. *)
Definition allParts (req : Request) : list Part :=
  flat_map subparts (rq_System req ++ flat_map ms_Parts (rq_Messages req)).

Definition usesSystem (req : Request) : Prop :=
  rq_System req <> [] \/ Exists (fun m => ms_Role m = RoleSystem) (rq_Messages req).

(** The documented conditions of translatability. *)
Record translatable (req : Request) (src tgt : Registry.Provider) : Prop := {
  tl_codecs : Registry.p_Codec src = true /\ Registry.p_Codec tgt = true;
  tl_stream : rq_Stream req = true ->
    Registry.StreamsTranslatable (Some src) = true /\ Registry.StreamsTranslatable (Some tgt) = true;
  tl_operation : rq_Operation req = "" \/ In (rq_Operation req) (Registry.Operations (Registry.p_Capabilities tgt));
  tl_tools : rq_Tools req <> [] \/ is_Some (rq_ToolChoice req) ->
    Registry.cap_Tools (Registry.p_Capabilities tgt) = true;
  tl_parts : Forall (fits (Registry.p_Capabilities tgt) (googleSide src tgt)) (allParts req);
  tl_system : usesSystem req -> Registry.SystemRole (Registry.p_Capabilities tgt) = true;
}.

Lemma nonempty_negb {A} (l : list A) : negb (match l with [] => true | _ => false end) = true <-> l <> [].
Proof. by destruct l. Qed.

Lemma existsb_In (s : string) l : existsb (String.eqb s) l = true <-> In s l.
Proof.
  rewrite existsb_exists. split; [intros (x & Hx & ->%String.eqb_eq); done|].
  intros H. exists s. by rewrite String.eqb_refl.
Qed.

Lemma and_negb_false a b : a && negb b = false <-> (a = true -> b = true).
Proof. destruct a, b; naive_solver. Qed.

Lemma existsb_isSystem ms : existsb isSystem ms = true <-> Exists (fun m => ms_Role m = RoleSystem) ms.
Proof.
  rewrite existsb_exists, Exists_exists. unfold isSystem.
  split; intros (m & Hm & H); exists m; rewrite bool_decide_eq_true in *; (split; [by apply list_elem_of_In|done]).
Qed.

Lemma Forall_allParts (P : Part -> Prop) req :
  Forall P (allParts req) <->
  Forall (fun p => Forall P (subparts p)) (rq_System req)
  /\ Forall (fun m => Forall (fun p => Forall P (subparts p)) (ms_Parts m)) (rq_Messages req).
Proof. unfold allParts. by rewrite Forall_flat_map, Forall_app, Forall_flat_map. Qed.

(** The blockers of a pair are empty exactly when the request is expressible
    in the target schema: codecs on both sides, a streamable pair for a stream,
    the operation served, tools and system content supported where used, and
    every part of the conversation, inside tool results too, of a kind the
    target accepts. *)
Lemma TranslationBlockers_nil_iff req src tgt :
  TranslationBlockers (Some req) (Some src) (Some tgt) = [] <-> translatable req src tgt.
Proof.
  unfold TranslationBlockers. fold (googleSide src tgt).
  destruct (Registry.p_Codec src) eqn:Ec1, (Registry.p_Codec tgt) eqn:Ec2; cbn [negb orb];
    try (split; [discriminate|intros [[? ?] _ _ _ _ _]; congruence]).
  rewrite addIf_nil, (fold_nil _ (fun m => Forall (fun p => Forall (fits (Registry.p_Capabilities tgt)
    (googleSide src tgt)) (subparts p)) (ms_Parts m))) by (apply Forall_true; intros m b; apply walk_nil).
  rewrite walk_nil, !addIf_nil, !and_negb_false, !orb_true_iff, !nonempty_negb, !bool_decide_eq_true,
    existsb_isSystem, andb_true_iff, existsb_In, negb_true_iff, String.eqb_neq.
  split.
  - intros (Hs & ((H1 & H2 & H3 & _) & H4) & H5). split; try done; [|by apply Forall_allParts].
    destruct (String.eqb_spec (rq_Operation req) ""); [by left|right; by apply H2].
  - intros [_ H1 H2 H3 [H4 H4']%Forall_allParts H5]. repeat split; try done; try apply H1; try done.
    intros Hop. by destruct H2.
Qed.

(** ** The request a foreign encoder sees *)

(** The steps of [translateRequest] before the encoder. *)
Definition normalize (req : Request) : Request * Z :=
  StripRequestForTranslation (EnsureToolCallIDs (LiftSystemMessages req)).

Definition wf_request (req : Request) : Prop := Forall tagged (allParts req).

Definition eraseMessage (m : Message) : Message :=
  mkMessage (ms_Role m) (List.map erasePart (ms_Parts m)) zeroWire.

Definition eraseRequest (r : Request) : Request :=
  mkRequest (rq_Provider r) (rq_Operation r) (rq_Model r) (List.map erasePart (rq_System r))
    (List.map eraseMessage (rq_Messages r)) (List.map stripTool (rq_Tools r)) (stripChoice <$> rq_ToolChoice r)
    (stripGeneration (rq_Generation r)) (rq_Stream r) zeroWire.

Lemma eraseRequest_idem r : eraseRequest (eraseRequest r) = eraseRequest r.
Proof.
  unfold eraseRequest; cbn. f_equal.
  - rewrite map_map. apply map_ext, erasePart_idem.
  - rewrite map_map. apply map_ext. intros m. unfold eraseMessage; cbn. f_equal.
    rewrite map_map. apply map_ext, erasePart_idem.
  - by rewrite map_map.
  - by destruct (rq_ToolChoice r).
Qed.

(** On a well-formed request without unknown content, stripping is erasing. *)
Lemma Strip_erase r :
  wf_request r -> Forall (fun p => pt_Type p <> PartTypeUnknown) (allParts r) ->
  fst (StripRequestForTranslation r) = eraseRequest r.
Proof.
  intros [Ws Wm]%Forall_allParts [Ks Km]%Forall_allParts. unfold StripRequestForTranslation.
  pose proof (stripParts_erase _ Ws Ks) as Es. destruct (stripParts (rq_System r)) as [sys n]. cbn in Es. subst.
  unfold eraseRequest; cbn. f_equal. rewrite map_map. apply map_ext_Forall. rewrite Forall_forall in *.
  intros m Hm. unfold stripMessage. pose proof (stripParts_erase _ (Wm m Hm) (Km m Hm)) as E.
  destruct (stripParts (ms_Parts m)). cbn in *. by subst.
Qed.

Lemma Lift_messages req :
  rq_Messages (LiftSystemMessages req) = List.filter (fun m => negb (isSystem m)) (rq_Messages req).
Proof.
  unfold LiftSystemMessages; cbn. destruct (existsb isSystem (rq_Messages req)) eqn:E; [done|].
  induction (rq_Messages req) as [|m l IH]; cbn in *; [done|].
  apply orb_false_iff in E as [-> E]. cbn. by rewrite <- (IH E).
Qed.

Lemma Forall_filter_partition {A} (f : A -> bool) (P : A -> Prop) l :
  Forall P l <-> Forall P (List.filter f l) /\ Forall P (List.filter (fun x => negb (f x)) l).
Proof.
  induction l as [|x l IH]; cbn; [by rewrite !Forall_nil|]. rewrite Forall_cons, IH.
  destruct (f x); cbn; rewrite Forall_cons; naive_solver.
Qed.

(** Lifting moves parts; it neither adds nor loses one. *)
Lemma Lift_parts P req : Forall P (allParts (LiftSystemMessages req)) <-> Forall P (allParts req).
Proof.
  rewrite !Forall_allParts, Lift_messages. unfold LiftSystemMessages; cbn.
  rewrite Forall_app, (Forall_filter_partition isSystem _ (rq_Messages req)), Forall_flat_map. naive_solver.
Qed.

(** What assigning identifiers may change. *)
Definition ided (p p' : Part) : Prop :=
  p' = p \/ exists tc n, needsID p = Some tc /\ p' = withID (callID n) p tc.

Definition identified (p : Part) : Prop :=
  pt_Type p = PartTypeToolCall -> forall tc, pt_ToolCall p = Some tc -> tc_ID tc <> "".

Lemma needsID_None p : needsID p = None <-> identified p.
Proof.
  unfold needsID, identified. destruct (pt_Type p); try naive_solver. destruct (pt_ToolCall p) as [tc|]; [|naive_solver].
  destruct (String.eqb_spec (tc_ID tc) ""); naive_solver.
Qed.

Lemma callID_nonempty n : callID n <> "".
Proof. done. Qed.

Lemma ensureParts_spec n ps : Forall2 ided ps (snd (ensureParts n ps)) /\ Forall identified (snd (ensureParts n ps)).
Proof.
  revert n. induction ps as [|p ps IH]; intros n; cbn; [by split; constructor|].
  destruct (needsID p) as [tc|] eqn:E.
  - specialize (IH (n + 1)). destruct (ensureParts (n + 1) ps) as [n' ps']; cbn in *. destruct IH as [H1 H2].
    split; constructor; try done; [right; eauto|]. intros _ tc' [= <-]. apply callID_nonempty.
  - specialize (IH n). destruct (ensureParts n ps) as [n' ps']; cbn in *. destruct IH as [H1 H2].
    split; constructor; try done; [by left|by apply needsID_None].
Qed.

Definition ided_message (m m' : Message) : Prop :=
  ms_Role m' = ms_Role m /\ Forall2 ided (ms_Parts m) (ms_Parts m').

Lemma ensureMessages_spec n ms :
  Forall2 ided_message ms (snd (ensureMessages n ms))
  /\ Forall (fun m => Forall identified (ms_Parts m)) (snd (ensureMessages n ms)).
Proof.
  revert n. induction ms as [|m ms IH]; intros n; cbn; [by split; constructor|].
  pose proof (ensureParts_spec n (ms_Parts m)) as [H1 H2]. destruct (ensureParts n (ms_Parts m)) as [n1 ps]; cbn in *.
  specialize (IH n1) as [H3 H4]. destruct (ensureMessages n1 ms) as [n2 ms']; cbn in *.
  split; constructor; done.
Qed.

(** The parts below an identified part satisfy the same shape conditions. *)
Lemma ided_subparts (P : Part -> Prop) p p' :
  (forall q tc id, needsID q = Some tc -> P q -> P (withID id q tc)) ->
  ided p p' -> Forall P (subparts p) -> Forall P (subparts p').
Proof.
  intros HP [->|(tc & n & E & ->)]; [done|]. intros H.
  assert (Ht : pt_Type p = PartTypeToolCall). { unfold needsID in E. by destruct (pt_Type p). }
  pose proof (HP p tc (callID n) E) as HPp. clear E.
  destruct p as [ty ? ? ? ? ? ? ? ? ? ?]; cbn in *. subst. cbn in *. rewrite Forall_cons in *.
  destruct H as [H _]. split; [|constructor]. by apply HPp.
Qed.

Lemma Ensure_parts (P : Part -> Prop) req :
  (forall q tc id, needsID q = Some tc -> P q -> P (withID id q tc)) ->
  Forall P (allParts req) -> Forall P (allParts (EnsureToolCallIDs req)).
Proof.
  intros HP [Hs Hm]%Forall_allParts. apply Forall_allParts. split; [done|]. cbn.
  destruct (ensureMessages_spec 0 (rq_Messages req)) as [H _].
  induction H as [|m m' ms ms' [_ Hpp] _ IH]; [done|]. apply Forall_cons in Hm as [Hm Hms].
  constructor; [|by apply IH]. induction Hpp as [|p p' ps ps' Hp _ IHp]; [done|].
  apply Forall_cons in Hm as [Hp1 Hps]. constructor; [by eapply ided_subparts|by apply IHp].
Qed.

Lemma withID_tagged q tc id : needsID q = Some tc -> tagged q -> tagged (withID id q tc).
Proof.
  unfold needsID, tagged, variants, withID. cbn. destruct (pt_Type q); try done.
  by destruct (pt_ToolCall q).
Qed.

(** The turn of the source conversation a turn of the translated one comes from. *)
Definition kept_part (p p' : Part) : Prop := exists q, ided p q /\ p' = erasePart q.
Definition kept_message (m m' : Message) : Prop :=
  ms_Role m' = ms_Role m /\ Forall2 kept_part (ms_Parts m) (ms_Parts m').

Lemma identified_erase p : identified p -> identified (erasePart p).
Proof.
  unfold identified. destruct p as [? ? ? ? ? tc ? ? ? ? ?]; cbn. intros H Ht tc' E.
  destruct tc; [|done]. injection E as <-. cbn. by eapply H.
Qed.

Lemma tagged_erase p : tagged p -> tagged (erasePart p).
Proof.
  unfold tagged, variants. rewrite erasePart_type. intros <-.
  destruct p as [? tx im au fi tc tr re rf ci ?]; cbn.
  by destruct tx, im, au, fi, tc, tr as [[]|], re, rf, ci.
Qed.

Lemma erase_subparts p : subparts (erasePart p) = List.map erasePart (subparts p).
Proof.
  induction p as [p IH] using Part_ind'. destruct p as [ty tx im au fi tc tr re rf ci w]. cbn in *.
  f_equal. destruct ty; try done. destruct tr as [[id parts err w']|]; [|done]. cbn.
  specialize (IH _ eq_refl). cbn in IH. rewrite !flat_map_concat_map, concat_map, !map_map.
  f_equal. by apply map_ext_Forall.
Qed.

Lemma eraseRequest_parts (P : Part -> Prop) r :
  (forall p, P p -> P (erasePart p)) -> Forall P (allParts r) -> Forall P (allParts (eraseRequest r)).
Proof.
  intros HP [Hs Hm]%Forall_allParts. apply Forall_allParts. cbn.
  assert (Hl : forall ps, Forall (fun p => Forall P (subparts p)) ps ->
                          Forall (fun p => Forall P (subparts p)) (List.map erasePart ps)).
  { intros ps H. apply Forall_map. eapply Forall_impl; [exact H|]. intros p Hp. cbn. rewrite erase_subparts.
    apply Forall_map. eapply Forall_impl; [exact Hp|apply HP]. }
  split; [by apply Hl|]. apply Forall_map. eapply Forall_impl; [exact Hm|]. intros m H. by apply Hl.
Qed.

(** For a well-formed request that the blockers let through, the request the
    target codec encodes is well formed and free of the source schema's
    bookkeeping; it has no system turn and no tool call without an identifier;
    and its conversation is the agent's, turn by turn and part by part, the
    system turns moved to the system field. *)
Theorem normalize_canonical req src tgt :
  wf_request req -> TranslationBlockers (Some req) (Some src) (Some tgt) = [] ->
  let r := fst (normalize req) in
  wf_request r /\ eraseRequest r = r
  /\ Forall (fun m => ms_Role m <> RoleSystem /\ Forall identified (ms_Parts m)) (rq_Messages r)
  /\ rq_System r = List.map erasePart (rq_System req ++ flat_map ms_Parts (List.filter isSystem (rq_Messages req)))
  /\ Forall2 kept_message (List.filter (fun m => negb (isSystem m)) (rq_Messages req)) (rq_Messages r)
  /\ rq_Model r = rq_Model req /\ rq_Stream r = rq_Stream req /\ rq_Operation r = rq_Operation req.
Proof.
  intros Hw [_ _ _ _ Hfit _]%TranslationBlockers_nil_iff. cbn zeta. unfold normalize.
  assert (W : wf_request (EnsureToolCallIDs (LiftSystemMessages req))).
  { apply Ensure_parts; [apply withID_tagged|by apply Lift_parts]. }
  rewrite Strip_erase; [|done|apply Ensure_parts; [by intros []|apply Lift_parts]].
  2: { eapply Forall_impl; [exact Hfit|]. intros p. unfold fits. by destruct (pt_Type p). }
  split; [by apply eraseRequest_parts; [apply tagged_erase|]|]. split; [apply eraseRequest_idem|].
  cbn [eraseRequest rq_Messages rq_System EnsureToolCallIDs withMessages]. rewrite Lift_messages.
  destruct (ensureMessages_spec 0 (List.filter (fun m => negb (isSystem m)) (rq_Messages req))) as [H1 H2].
  split; [|split; [done|split; [|done]]].
  - apply Forall_map, Forall_and. split.
    + eapply Forall2_Forall_r; [exact H1|]. apply Forall_forall. intros m Hm m' [Hr _]. cbn. rewrite Hr.
      apply list_elem_of_In, filter_In in Hm as [_ Hm]. unfold isSystem in Hm.
      by apply negb_true_iff, bool_decide_eq_false in Hm.
    + eapply Forall_impl; [exact H2|]. intros m Hm. cbn. apply Forall_map.
      eapply Forall_impl; [exact Hm|apply identified_erase].
  - apply Forall2_fmap_r. eapply Forall2_impl; [exact H1|]. intros m m' [Hr Hp]. split; [done|]. cbn.
    apply Forall2_fmap_r. eapply Forall2_impl; [exact Hp|]. intros p p' H. by exists p'.
Qed.

(** ** Data URLs *)

(** An inline image written as a data URL is read back. *)
Lemma SplitDataURL_DataURL mime data :
  Count mime "," = 0%nat -> SplitDataURL (DataURL mime data) = (mime, data, true).
Proof.
  intros H. unfold SplitDataURL, DataURL.
  assert (HasPrefix ("data:" ++ mime ++ ";base64," ++ data)%string "data:" = true) as ->.
  { apply HasPrefix_spec. eauto. }
  rewrite TrimPrefix_app. cbn [negb].
  replace (mime ++ ";base64," ++ data)%string with ((mime ++ ";base64") ++ String "," data)%string
    by (by rewrite str_app_assoc).
  rewrite Cut_app by (rewrite Count_app, H; done). cbn [negb].
  rewrite (proj2 (HasSuffix_spec _ _)) by eauto. by rewrite TrimSuffix_app.
Qed.

(** ** Reassembly *)

(** What an event contributes to a tool call. *)
Definition touched (ev : StreamEvent) : option (Z * (string * string * string)) :=
  match ev with
  | StreamEventContentStart (Some cs) =>
      match pt_ToolCall (cs_Part cs) with
      | Some tc => Some (cs_Index cs, (tc_ID tc, tc_Name tc, tc_Arguments tc))
      | None => None
      end
  | StreamEventToolCallDelta (Some d) => Some (tcd_Index d, (tcd_ID d, tcd_Name d, tcd_ArgumentsDelta d))
  | _ => None
  end.

Definition deltaText (ev : StreamEvent) : string :=
  match ev with StreamEventTextDelta (Some d) => tdl_Text d | _ => "" end.

(** Reference definitions: the last non-empty value, the distinct indexes in
    order of first occurrence, the call at an index. *)
Definition lastNonempty (l : list string) : string :=
  fold_left (fun acc s => if String.eqb s "" then acc else s) l "".

Definition firsts (l : list Z) : list Z :=
  fold_left (fun acc i => if bool_decide (i ∈ acc) then acc else acc ++ [i]) l [].

Definition callAt (l : list (Z * (string * string * string))) (i : Z) : AssembledToolCall :=
  let mine := List.map snd (List.filter (fun t => fst t =? i) l) in
  mkAssembledCall (lastNonempty (List.map (fun t => fst (fst t)) mine))
    (lastNonempty (List.map (fun t => snd (fst t)) mine))
    (String.concat "" (List.map snd mine)).

Lemma firsts_app l i : firsts (l ++ [i]) = if bool_decide (i ∈ firsts l) then firsts l else firsts l ++ [i].
Proof. unfold firsts. by rewrite fold_left_app. Qed.

Lemma lastNonempty_app l s : lastNonempty (l ++ [s]) = if String.eqb s "" then lastNonempty l else s.
Proof. unfold lastNonempty. by rewrite fold_left_app. Qed.

(** The state of the loop after [evs]. *)
Definition assembly_ok (evs : list StreamEvent) (s : assembly) : Prop :=
  let ts := omap touched evs in
  as_text s = String.concat "" (List.map deltaText evs)
  /\ as_order s = firsts (List.map fst ts)
  /\ forall i, as_byIndex s !! i = if bool_decide (i ∈ firsts (List.map fst ts)) then Some (callAt ts i) else None.

Lemma callAt_app_same ts i id name args :
  callAt (ts ++ [(i, (id, name, args))]) i
  = let a := callAt ts i in
    mkAssembledCall (if String.eqb id "" then at_ID a else id)
      (if String.eqb name "" then at_Name a else name) (at_Arguments a ++ args)%string.
Proof.
  unfold callAt. rewrite List.filter_app; cbn [List.filter fst]. rewrite Z.eqb_refl, !map_app.
  cbn [List.map fst snd at_ID at_Name at_Arguments].
  by rewrite !lastNonempty_app, concat_empty_app.
Qed.

Lemma callAt_app_other ts i j t : i <> j -> callAt (ts ++ [(j, t)]) i = callAt ts i.
Proof.
  intros H. unfold callAt. rewrite List.filter_app; cbn [List.filter fst].
  rewrite (proj2 (Z.eqb_neq j i)) by congruence. by rewrite app_nil_r.
Qed.

Lemma firsts_elem l i : i ∈ firsts l <-> i ∈ l.
Proof.
  induction l as [|x l IH] using rev_ind; [done|]. rewrite firsts_app, elem_of_app, list_elem_of_singleton.
  case_bool_decide as H; [|rewrite elem_of_app, list_elem_of_singleton]; naive_solver.
Qed.

Lemma callAt_absent ts i : i ∉ List.map fst ts -> callAt ts i = mkAssembledCall "" "" "".
Proof.
  intros H. unfold callAt. assert (List.filter (fun t => fst t =? i) ts = []) as ->; [|done].
  induction ts as [|[j t] ts IH]; [done|]. cbn in *. apply not_elem_of_cons in H as [H1 H2].
  rewrite (proj2 (Z.eqb_neq j i)) by congruence. by apply IH.
Qed.

Lemma touch_ok evs s ev i id name args :
  assembly_ok evs s -> touched ev = Some (i, (id, name, args)) -> deltaText ev = "" ->
  assembly_ok (evs ++ [ev]) (touch i id name args s).
Proof.
  intros (Ht & Ho & Hb) Et Ed. unfold assembly_ok. cbn zeta.
  rewrite omap_app; cbn [omap list_omap]. rewrite Et. rewrite !map_app; cbn [List.map fst].
  rewrite Ed, concat_empty_app, str_app_nil_r, firsts_app. split; [done|].
  set (ts := omap touched evs) in *. unfold touch; cbn [as_order as_byIndex]. rewrite Hb.
  split.
  { rewrite Ho. destruct (bool_decide (i ∈ _)); [by rewrite bool_decide_true|].
    by rewrite bool_decide_false by (by intros [? ?]). }
  intros j. destruct (decide (j = i)) as [->|Hne].
  - rewrite lookup_insert_eq, callAt_app_same. cbn zeta. destruct (decide (i ∈ firsts (List.map fst ts))) as [E|E].
    + by rewrite (bool_decide_true _ E), (bool_decide_true _ E).
    + rewrite (bool_decide_false _ E), bool_decide_true by set_solver. cbn [default].
      rewrite callAt_absent; [done|]. by rewrite <- firsts_elem.
  - rewrite lookup_insert_ne, Hb, callAt_app_other by congruence.
    destruct (bool_decide (i ∈ _)) eqn:Ei; [done|]. repeat case_bool_decide; set_solver.
Qed.

Lemma assembleStep_ok evs s ev : assembly_ok evs s -> assembly_ok (evs ++ [ev]) (assembleStep s ev).
Proof.
  intros H.
  assert (Hskip : touched ev = None -> deltaText ev = "" -> assembly_ok (evs ++ [ev]) s).
  { intros Et Ed. destruct H as (Ht & Ho & Hb). unfold assembly_ok. cbn zeta. rewrite omap_app; cbn [omap list_omap].
    rewrite Et, app_nil_r, map_app; cbn [List.map]. by rewrite Ed, concat_empty_app, str_app_nil_r. }
  destruct ev as [[]|[cs|]|[d|]|[d|]|[]|[]|[]|[]|[]|]; try by apply Hskip.
  - cbn. destruct (pt_ToolCall (cs_Part cs)) as [tc|] eqn:E; [|apply Hskip; cbn; by rewrite ?E].
    apply touch_ok; cbn; by rewrite ?E.
  - destruct H as (Ht & Ho & Hb). unfold assembly_ok; cbn. rewrite omap_app, app_nil_r, map_app; cbn.
    by rewrite concat_empty_app, Ht.
  - by apply touch_ok.
Qed.

(** The reassembled message is the concatenation of all text deltas, and one
    tool call per block index in the order the blocks opened, each with the last
    identifier and name sent for it and all its argument bytes in order; calls
    with neither name nor arguments are left out. *)
Theorem assembled_spec events :
  assembled (fold_left assembleStep events (mkAssembly "" ∅ []))
  = mkAssembled (String.concat "" (List.map deltaText events))
      (List.filter (fun a => negb (emptyCall a))
         (List.map (callAt (omap touched events)) (firsts (List.map fst (omap touched events))))).
Proof.
  assert (H : assembly_ok events (fold_left assembleStep events (mkAssembly "" ∅ []))).
  { induction events as [|ev evs IH] using rev_ind; [by repeat split|].
    rewrite fold_left_app. by apply assembleStep_ok. }
  destruct H as (Ht & Ho & Hb). unfold assembled. rewrite Ht, Ho. do 2 f_equal.
  apply omap_all. apply Forall_forall. intros i Hi. by rewrite Hb, bool_decide_true.
Qed.

(** ** Instances *)

Definition text_ex (s : string) : Part :=
  mkPart PartTypeText (Some (mkText s (AddExtra "cache_control" "{}" zeroWire))) None None None None None None None None
    zeroWire.
Definition call_ex : Part :=
  mkPart PartTypeToolCall None None None None (Some (mkToolCall "" "search" "{}" zeroWire)) None None None None zeroWire.

Definition request_ex : Request :=
  mkRequest "openai" "chat" "gpt-5" []
    [mkMessage RoleSystem [text_ex "be brief"] zeroWire; mkMessage RoleUser [text_ex "hi"] zeroWire;
     mkMessage RoleAssistant [call_ex] zeroWire] [] None
    (mkGeneration "" "" "" "" [] zeroWire) false (AddExtra "seed" "7" zeroWire).

Lemma normalize_canonical_witness :
  rq_System (fst (normalize request_ex)) = [erasePart (text_ex "be brief")]
  /\ Forall (fun m => ms_Role m <> RoleSystem /\ Forall identified (ms_Parts m)) (rq_Messages (fst (normalize request_ex))).
Proof.
  destruct (normalize_canonical request_ex Registry.openai Registry.anthropic) as (_ & _ & H & -> & _).
  - unfold wf_request. cbn. repeat constructor.
  - vm_compute; reflexivity.
  - split; [reflexivity|exact H].
Defined.

Example normalize_ex :
  List.map (fun m => List.map (fun p => tc_ID <$> pt_ToolCall p) (ms_Parts m)) (rq_Messages (fst (normalize request_ex)))
  = [[None]; [Some "call_1"]] /\ snd (normalize request_ex) = 3.
Proof. vm_compute; split; reflexivity. Qed.

End LlmCall.
