(* ===== verification/Sse.v ===== *)
(** * Server-sent events

    [src/internal/extproc/llmcall/sse.go]: the tolerant scanner of captured
    bodies ([ScanSSEData], [LastJSONLine]), the incremental scanner the stream
    codecs read upstream chunks with ([SSEScanner]), and the writer of frames
    ([AppendSSE]).  A byte slice is a string of bytes. *)

From Stdlib Require Import ZArith Lia NArith Ascii String List.
From stdpp Require Import base strings list.
From S2P Require Import Prelude GoStrings GoStd.
Import GoStrings GoStd.

#[local] Open Scope string_scope.
#[local] Open Scope Z_scope.
#[local] Open Scope list_scope.

Module Sse.

Definition nl : ascii := "010"%char.
Definition cr : string := String "013"%char "".

(** A trailing CR is trimmed. *)
Definition trimCR (line : string) : string := TrimSuffix line cr.

(** One optional space after the colon. *)
Definition trimSpace1 (value : string) : string :=
  match value with String c t => if Ascii.eqb c " " then t else value | EmptyString => value end.

(** ** Whole buffers *)

(** One line of the loop of [ScanSSEData]: the pending event and the payloads. *)
Definition scanLine (acc : string * list string) (line : string) : string * list string :=
  let '(event, out) := acc in
  let line := trimCR line in
  if String.eqb line "" then ("", if String.eqb event "" then out else out ++ [event])
  else if HasPrefix line ":" then acc
  else if negb (HasPrefix line "data:") then acc
  else
    let payload := trimSpace1 (TrimPrefix line "data:") in
    ((if String.eqb event "" then payload else event ++ String nl payload)%string, out).

(** The lines of a buffer: a final newline does not open another line. *)
Definition lines (b : string) : list string :=
  let l := Split nl b in if String.eqb (List.last l "") "" then removelast l else l.

(** The payloads handed to [fn], in order. *)
Definition ScanSSEData (b : string) : list string :=
  let '(event, out) := fold_left scanLine (lines b) ("", []) in
  if String.eqb event "" then out else out ++ [event].

(** [LastJSONLine]; [valid] says whether a line decodes. *)
Definition LastJSONLine (valid : string -> bool) (b : string) : option string :=
  List.find (fun l => negb (String.eqb l "") && valid l) (List.map trimCR (rev (Split nl b))).

(** ** The incremental scanner *)

Record SSEEvent := mkEvent { ev_Name : string; ev_Data : string }.

Record SSEScanner := mkScanner { buf : string; name : string; data : string; dataSeen : bool }.

Definition newScanner : SSEScanner := mkScanner "" "" "" false.

Definition emit (s : SSEScanner) : SSEScanner * SSEEvent :=
  (mkScanner (buf s) "" "" false, mkEvent (name s) (data s)).

Definition line_ (s : SSEScanner) (line : string) : SSEScanner * option SSEEvent :=
  let line := trimCR line in
  if String.eqb line "" then
    if dataSeen s then let '(s', e) := emit s in (s', Some e)
    else (mkScanner (buf s) "" (data s) (dataSeen s), None)
  else if HasPrefix line ":" then (s, None)
  else
    let '(field, value, _) := Cut line ":" in
    let value := trimSpace1 value in
    if String.eqb field "event" then (mkScanner (buf s) value (data s) (dataSeen s), None)
    else if String.eqb field "data" then
      (mkScanner (buf s) (name s) (if dataSeen s then data s ++ String nl value else data s ++ value)%string true,
       None)
    else (s, None).

Definition withBuf (b : string) (s : SSEScanner) : SSEScanner := mkScanner b (name s) (data s) (dataSeen s).

(** The loop of [Feed]: one round per complete line. *)
Fixpoint feedLoop (fuel : nat) (s : SSEScanner) : SSEScanner * list SSEEvent :=
  match fuel with
  | O => (s, [])
  | S fuel =>
      let '(line, rest, found) := Cut (buf s) nl in
      if negb found then (s, [])
      else
        let '(s, ev) := line_ (withBuf rest s) line in
        let '(s, out) := feedLoop fuel s in
        (s, match ev with Some e => e :: out | None => out end)
  end.

(** Each round consumes a byte, so the length is fuel enough. *)
Definition Feed (s : SSEScanner) (chunk : string) : SSEScanner * list SSEEvent :=
  let b := (buf s ++ chunk)%string in feedLoop (S (String.length b)) (withBuf b s).

Definition Flush (s : SSEScanner) : SSEScanner * option SSEEvent * string :=
  let leftover := buf s in
  let s := withBuf "" s in
  if negb (dataSeen s) then (s, None, leftover)
  else let '(s, e) := emit s in (s, Some e, leftover).

(** ** Writing *)

Definition dataLines (d : string) : string :=
  String.concat "" (List.map (fun l => "data: " ++ l ++ String nl "")%string (Split nl d)).

Definition AppendSSE (dst name data : string) : string :=
  (dst ++ (if String.eqb name "" then "" else "event: " ++ name ++ String nl "")
   ++ dataLines data ++ String nl "")%string.

Example scan_ex :
  ScanSSEData (AppendSSE (AppendSSE "" "delta" "{}") "" "[DONE]") = ["{}"; "[DONE]"].
Proof. vm_compute; reflexivity. Qed.

(** ** The loop reads the complete lines *)

Definition feedLines (s : SSEScanner) (ls : list string) : SSEScanner * list SSEEvent :=
  fold_left (fun acc l => let '(s, out) := acc in
    let '(s, ev) := line_ s l in (s, match ev with Some e => out ++ [e] | None => out end)) ls (s, []).

Lemma feedLines_cons s l ls :
  feedLines s (l :: ls)
  = let '(s1, ev) := line_ s l in let '(s2, out) := feedLines s1 ls in
    (s2, match ev with Some e => e :: out | None => out end).
Proof.
  unfold feedLines. cbn [fold_left]. destruct (line_ s l) as [s1 ev].
  assert (H : forall ls s out, fold_left (fun acc l => let '(s, out) := acc in
    let '(s, ev) := line_ s l in (s, match ev with Some e => out ++ [e] | None => out end)) ls (s, out)
    = let '(s2, out2) := fold_left (fun acc l => let '(s, out) := acc in
        let '(s, ev) := line_ s l in (s, match ev with Some e => out ++ [e] | None => out end)) ls (s, []) in
      (s2, out ++ out2)).
  { clear. induction ls as [|l ls IH]; intros s out; cbn [fold_left]; [by rewrite app_nil_r|].
    destruct (line_ s l) as [s1 [e|]].
    - rewrite (IH s1 (out ++ [e])), (IH s1 ([] ++ [e])). destruct (fold_left _ ls (s1, [])).
      by rewrite <- app_assoc.
    - rewrite (IH s1 out). done. }
  rewrite H. destruct (fold_left _ ls (s1, [])) as [s2 out]. by destruct ev.
Qed.

Lemma line_buf s l : buf (fst (line_ s l)) = buf s.
Proof. unfold line_, emit. repeat case_match; done. Qed.

Lemma line_withBuf b s l : line_ (withBuf b s) l = (withBuf b (fst (line_ s l)), snd (line_ s l)).
Proof. unfold line_, emit, withBuf. cbn. repeat case_match; simplify_eq/=; done. Qed.

Lemma Cut_Split s c :
  Cut s c = match Split c s with
            | [] => (s, "", false)
            | [x] => (x, "", false)
            | x :: l => (x, String.concat (String c "") l, true)
            end.
Proof.
  induction s as [|d s IH]; [done|]. cbn -[Ascii.eqb String.concat]. rewrite IH.
  pose proof (Split_nonempty c s). destruct (Ascii.eqb d c) eqn:E.
  - rewrite <- (concat_Split c s) at 1. by destruct (Split c s) as [|x [|y l]].
  - by destruct (Split c s) as [|x [|y l]].
Qed.

Lemma feedLines_withBuf b s ls :
  feedLines (withBuf b s) ls = (withBuf b (fst (feedLines s ls)), snd (feedLines s ls)).
Proof.
  revert s. induction ls as [|l ls IH]; intros s; [done|]. rewrite !feedLines_cons, line_withBuf.
  destruct (line_ s l) as [s1 ev]; cbn [fst snd]. rewrite IH. by destruct (feedLines s1 ls).
Qed.

Lemma feedLines_app s l1 l2 :
  feedLines s (l1 ++ l2)
  = let '(s1, o1) := feedLines s l1 in let '(s2, o2) := feedLines s1 l2 in (s2, o1 ++ o2).
Proof.
  revert s. induction l1 as [|l l1 IH]; intros s; cbn [app].
  - change (feedLines s []) with (s, @nil SSEEvent). cbn iota beta. by destruct (feedLines s l2).
  - rewrite !feedLines_cons. destruct (line_ s l) as [s1 ev]. rewrite IH.
    destruct (feedLines s1 l1) as [s2 o1]. destruct (feedLines s2 l2) as [s3 o2]. by destruct ev.
Qed.

Lemma feedLoop_lines l fuel s :
  l <> [] -> Forall (fun x => Count x nl = 0%nat) l -> (length l <= fuel)%nat ->
  feedLoop fuel (withBuf (String.concat (String nl "") l) s)
  = (withBuf (List.last l "") (fst (feedLines s (removelast l))), snd (feedLines s (removelast l))).
Proof.
  intros Hne H. revert fuel s. induction H as [|x l Hx Hl IH]; [done|]. clear Hne.
  intros [|fuel] s Hf; [cbn in Hf; lia|]. cbn [feedLoop buf withBuf].
  rewrite Cut_Split, Split_concat; [|done|by constructor].
  destruct l as [|y l]; [done|]. cbn [negb].
  change (removelast (x :: y :: l)) with (x :: removelast (y :: l)). rewrite feedLines_cons.
  change (mkScanner ?b (name s) (data s) (dataSeen s)) with (withBuf b s).
  change (withBuf ?b (withBuf ?c s)) with (withBuf b s). rewrite line_withBuf.
  destruct (line_ s x) as [s1 ev]; cbn [fst snd]. rewrite IH; [|done|cbn in *; lia].
  destruct (feedLines s1 (removelast (y :: l))) as [s2 out]. done.
Qed.

Lemma Split_plain_all c s : Forall (fun x => Count x c = 0%nat) (Split c s).
Proof.
  induction s as [|d s IH]; cbn -[Ascii.eqb]; [by repeat constructor|].
  destruct (Ascii.eqb d c) eqn:E; [by constructor|].
  destruct IH as [|x l Hx Hl]; constructor; try done; cbn -[Ascii.eqb]; by rewrite E.
Qed.

Lemma Split_length c s : (length (Split c s) <= S (String.length s))%nat.
Proof.
  induction s as [|d s IH]; cbn -[Ascii.eqb]; [lia|]. destruct (Ascii.eqb d c); cbn; [lia|].
  destruct (Split c s); cbn in *; lia.
Qed.

(** What [Feed] does: the complete lines are read, the rest is kept. *)
Lemma Feed_spec s chunk :
  let l := Split nl (buf s ++ chunk) in
  Feed s chunk = (withBuf (List.last l "") (fst (feedLines s (removelast l))), snd (feedLines s (removelast l))).
Proof.
  cbn zeta. unfold Feed. rewrite <- (feedLoop_lines _ (S (String.length (buf s ++ chunk))) s).
  - by rewrite concat_Split.
  - apply Split_nonempty.
  - apply Split_plain_all.
  - apply Split_length.
Qed.

Lemma Split_app_last c x y :
  Split c (x ++ y) = removelast (Split c x) ++ Split c (List.last (Split c x) "" ++ y).
Proof.
  induction x as [|d x IH]; [done|]. change (String d x ++ y)%string with (String d (x ++ y)%string).
  cbn -[Ascii.eqb]. rewrite IH. pose proof (Split_nonempty c x).
  destruct (Ascii.eqb d c) eqn:E.
  - by destruct (Split c x).
  - destruct (Split c x) as [|z [|z' l]]; [done| |done]. cbn [removelast List.last app].
    change (String d z ++ y)%string with (String d (z ++ y)%string). cbn -[Ascii.eqb]. by rewrite E.
Qed.

Lemma last_removelast_app {A} (l l' : list A) d :
  l' <> [] -> List.last (l ++ l') d = List.last l' d /\ removelast (l ++ l') = l ++ removelast l'.
Proof.
  intros H. split; [|by apply removelast_app]. induction l as [|x l IH]; [done|].
  cbn [app]. destruct (l ++ l') eqn:E; [by destruct l|]. by rewrite <- IH.
Qed.

(** Feeding two chunks is feeding them together. *)
Lemma Feed_app s a b :
  Feed s (a ++ b)
  = let '(s1, o1) := Feed s a in let '(s2, o2) := Feed s1 b in (s2, o1 ++ o2).
Proof.
  rewrite (Feed_spec s (a ++ b)), (Feed_spec s a). cbn zeta iota beta.
  rewrite (Feed_spec (withBuf _ _) b). cbn zeta iota beta. cbn [buf withBuf].
  rewrite <- str_app_assoc, Split_app_last. set (la := Split nl (buf s ++ a)).
  set (lb := Split nl (List.last la "" ++ b)).
  destruct (last_removelast_app (removelast la) lb "") as [-> ->]; [apply Split_nonempty|].
  rewrite feedLines_app. destruct (feedLines s (removelast la)) as [s1 o1]; cbn [fst snd].
  change (mkScanner ?x (name s1) (data s1) (dataSeen s1)) with (withBuf x s1).
  rewrite feedLines_withBuf. by destruct (feedLines s1 (removelast lb)).
Qed.

(** A stream delivered in chunks. *)
Definition feedAll (s : SSEScanner) (chunks : list string) : SSEScanner * list SSEEvent :=
  fold_left (fun acc c => let '(s, out) := acc in let '(s', o) := Feed s c in (s', out ++ o)) chunks (s, []).

Lemma feedAll_concat s chunks :
  buf s = "" -> feedAll s chunks = Feed s (String.concat "" chunks).
Proof.
  intros Hb. assert (H0 : Feed s "" = (s, [])).
  { rewrite Feed_spec, Hb. cbn. destruct s; cbn in *. by subst. }
  induction chunks as [|c cs IH] using rev_ind; [done|].
  unfold feedAll in *. rewrite fold_left_app, IH. cbn [fold_left].
  rewrite concat_empty_app, Feed_app. by destruct (Feed s (String.concat "" cs)).
Qed.

(** ** Frames survive any chunking *)

Definition no_cr (s : string) : Prop := HasSuffix s cr = false.

Lemma no_cr_app a b : no_cr a -> no_cr b -> no_cr (a ++ b).
Proof.
  unfold no_cr. intros Ha Hb. induction a as [|c a IH]; [done|].
  change (String c a ++ b)%string with (String c (a ++ b)%string). cbn [HasSuffix] in *.
  destruct (String.eqb (String c a) cr) eqn:E; [done|]. rewrite (IH Ha).
  destruct (String.eqb_spec (String c (a ++ b)) cr) as [E'|]; [|done].
  unfold cr in *. injection E' as -> E'. destruct a; [|done]. change ("" ++ b)%string with b in E'. by subst b.
Qed.

Lemma trimCR_id l : no_cr l -> trimCR l = l.
Proof. unfold trimCR, TrimSuffix. by intros ->. Qed.

Lemma event_line s v :
  no_cr v -> line_ s ("event: " ++ v) = (mkScanner (buf s) v (data s) (dataSeen s), None).
Proof.
  intros H. unfold line_. rewrite trimCR_id by (by apply no_cr_app).
  change ("event: " ++ v)%string with ("event" ++ String ":" (String " " v))%string.
  rewrite Cut_app by done. done.
Qed.

Lemma data_line s v :
  no_cr v ->
  line_ s ("data: " ++ v)
  = (mkScanner (buf s) (name s) (if dataSeen s then data s ++ String nl v else data s ++ v)%string true, None).
Proof.
  intros H. unfold line_. rewrite trimCR_id by (by apply no_cr_app).
  change ("data: " ++ v)%string with ("data" ++ String ":" (String " " v))%string.
  rewrite Cut_app by done. done.
Qed.

Lemma data_lines s L :
  L <> [] -> Forall no_cr L ->
  feedLines s (List.map (fun l => "data: " ++ l)%string L)
  = (mkScanner (buf s) (name s)
       (if dataSeen s then data s ++ String nl (String.concat (String nl "") L)
        else data s ++ String.concat (String nl "") L)%string true, []).
Proof.
  intros Hne H. revert s Hne. induction H as [|x L Hx HL IH]; intros s Hne; [done|]. clear Hne.
  cbn [List.map]. rewrite feedLines_cons, data_line by done. destruct L as [|y L]; [done|].
  rewrite IH by done. cbn [buf name data dataSeen]. rewrite concat_cons_sep.
  destruct (dataSeen s); by rewrite str_app_assoc.
Qed.

(** The lines of a frame. *)
Definition frameLines (f : SSEEvent) : list string :=
  (if String.eqb (ev_Name f) "" then [] else ["event: " ++ ev_Name f])%string
  ++ List.map (fun l => "data: " ++ l)%string (Split nl (ev_Data f)).

Definition terminate (l : string) : string := (l ++ String nl "")%string.

Lemma terminated_lines L :
  (String.concat "" (List.map terminate L) ++ String nl "")%string = String.concat (String nl "") (L ++ [""; ""]).
Proof.
  induction L as [|x L IH]; [done|]. cbn [List.map app].
  destruct (L ++ [""; ""]) as [|y L'] eqn:E; [by destruct L|]. rewrite concat_cons_sep, <- IH. clear E.
  destruct L as [|z L]; [cbn; unfold terminate; by rewrite str_app_assoc|].
  cbn [List.map]. rewrite concat_cons_sep. unfold terminate at 1. by rewrite !str_app_assoc.
Qed.

Lemma AppendSSE_lines dst f :
  AppendSSE dst (ev_Name f) (ev_Data f)
  = (dst ++ String.concat (String nl "") (frameLines f ++ [""; ""]))%string.
Proof.
  unfold AppendSSE. f_equal. rewrite <- terminated_lines. unfold frameLines, dataLines.
  assert (E : forall l, List.map terminate (List.map (fun x => "data: " ++ x)%string l)
                        = List.map (fun x => "data: " ++ x ++ String nl "")%string l).
  { intros l. rewrite map_map. apply map_ext. intros x. unfold terminate. by rewrite str_app_assoc. }
  destruct (String.eqb (ev_Name f) ""); cbn [app List.map]; rewrite E; [done|].
  pose proof (Split_nonempty nl (ev_Data f)). destruct (Split nl (ev_Data f)) as [|x l]; [done|].
  cbn [List.map]. rewrite concat_cons_sep. unfold terminate at 1. by rewrite !str_app_assoc.
Qed.

(** A frame that can be written: one-line name, no line of the data ending in a
    carriage return. *)
Definition frame_ok (f : SSEEvent) : Prop :=
  Count (ev_Name f) nl = 0%nat /\ no_cr (ev_Name f) /\ Forall no_cr (Split nl (ev_Data f)).

Lemma frameLines_plain f :
  Count (ev_Name f) nl = 0%nat -> Forall (fun x => Count x nl = 0%nat) (frameLines f ++ [""; ""]).
Proof.
  intros H. unfold frameLines. rewrite !Forall_app. repeat split; [| |by repeat constructor].
  - destruct (String.eqb (ev_Name f) ""); repeat constructor. by rewrite Count_app, H.
  - apply Forall_map. eapply Forall_impl; [apply Split_plain_all|]. intros x Hx. by rewrite Count_app, Hx.
Qed.

Lemma Feed_frame f : frame_ok f ->
  Feed newScanner (String.concat (String nl "") (frameLines f ++ [""; ""])) = (newScanner, [f]).
Proof.
  intros (Hn & Hc & Hd). rewrite Feed_spec. cbn zeta. cbn [buf newScanner].
  change ("" ++ ?x)%string with x. rewrite Split_concat; [|by destruct (frameLines f)|by apply frameLines_plain].
  destruct (last_removelast_app (frameLines f) [""; ""] "") as [-> ->]; [done|]. cbn [List.last removelast].
  rewrite feedLines_app. unfold frameLines. rewrite feedLines_app. destruct f as [n d]. cbn [ev_Name ev_Data] in *.
  assert (E : feedLines newScanner (if String.eqb n "" then [] else ["event: " ++ n])%string
              = (mkScanner "" n "" false, [])).
  { destruct (String.eqb_spec n "") as [->|]; [done|]. by rewrite feedLines_cons, event_line. }
  rewrite E, data_lines by (try apply Split_nonempty; done). cbn [buf name data dataSeen].
  change ("" ++ ?x)%string with x. rewrite concat_Split. done.
Qed.

(** Whatever frames are written one after the other, and however the bytes are
    cut into chunks on the way, the scanner yields exactly those events in order
    and ends with nothing pending. *)
Theorem frames_survive_chunking fs chunks :
  Forall frame_ok fs ->
  String.concat "" chunks = fold_left (fun dst f => AppendSSE dst (ev_Name f) (ev_Data f)) fs "" ->
  feedAll newScanner chunks = (newScanner, fs) /\ Flush newScanner = (newScanner, None, "").
Proof.
  intros Hok E. split; [|done]. rewrite feedAll_concat, E by done. clear E.
  induction fs as [|f fs IH] using rev_ind; [done|]. apply Forall_app in Hok as [Hfs Hf].
  rewrite fold_left_app. cbn [fold_left]. rewrite AppendSSE_lines, Feed_app, (IH Hfs), Feed_frame; [done|].
  by apply Forall_inv in Hf.
Qed.

Lemma frames_survive_chunking_witness :
  feedAll newScanner ["event: del"; String.append "ta" (String nl "data: a"); String nl (String.append "data: b" (String nl "")); String nl ""]
  = (newScanner, [mkEvent "delta" (String.append "a" (String nl "b"))]) /\ Flush newScanner = (newScanner, None, "").
Proof.
  apply frames_survive_chunking.
  - repeat constructor.
  - vm_compute; reflexivity.
Defined.

(** The tolerant scanner joins data lines with a newline only after a non-empty
    one, and a frame whose data is empty is not shown at all, unlike the
    incremental scanner. *)
Example ScanSSEData_drops_empty_line :
  let frame := AppendSSE "" "" (String nl "x") in
  ScanSSEData frame = ["x"] /\ snd (Feed newScanner frame) = [mkEvent "" (String nl "x")].
Proof. vm_compute; split; reflexivity. Qed.

End Sse.
