(* ===== verification/CredTable.v ===== *)
(** * Credential injection

    [src/internal/extproc/credtable.go]: which credentials a request gets.  The
    Kubernetes client is a parameter, the function [Get] from a namespaced name
    to the Secret stored under it; strings of Secret data are byte strings.
    Log lines are not modelled. *)

From Stdlib Require Import ZArith Lia Ascii String List.
From stdpp Require Import base strings list gmap sets sorting.
From S2P Require Import Prelude GoStrings GoPath ApiTypes Registry Admission LlmRoute SigV4.
Import GoStrings GoPath ApiTypes LlmRoute.
Import (notations) SigV4.
Import SigV4(Credentials, mkCreds, AccessKeyID, SecretAccessKey, SessionToken).

Module CredTable.

(** ** Data *)

Definition mcpRouteKind : string := "MCPRoute".

(** [corev1.Secret], the fields read. *)
Record Secret := mkSecret { Data : gmap string string; sec_ResourceVersion : string }.

Record sigv4Cred := mkSigv4 { creds : Credentials; region : string; service : string }.

Record credInjection := mkInjection {
  policyName : string;
  headerName : string;
  headerValue : string;
  sigv4 : option sigv4Cred;
  section : string;
}.

Record credTable := mkCredTable {
  byRoute : gmap NamespacedName (list credInjection);
  gateway : list credInjection;
}.

Definition newEmptyCredTable : credTable := mkCredTable ∅ [].

Definition headerNames (i : credInjection) : list string :=
  match sigv4 i with
  | None => [headerName i]
  | Some s => ["authorization"; "x-amz-date"; "x-amz-content-sha256"]
              ++ (if String.eqb (SessionToken (creds s)) "" then [] else ["x-amz-security-token"])
  end.

(** [ns + "/" + name]. *)
Definition slashName (m : ObjectMeta) : string :=
  String.append (Namespace m) (String.append "/" (Name m)).

(** ** Resolution *)

Section Client.
Variable Get : NamespacedName -> option Secret.

(** [SecretRef.Namespace] is ignored. *)
Definition loadCIPSecret (cip : CredentialInjectionPolicy) : option Secret :=
  Get (mkNN (Namespace (cip_Meta cip)) (cip_SecretName (cip_Spec cip))).

Definition dataOr (s : Secret) (k : string) : string :=
  match Data s !! k with Some v => v | None => "" end.

Definition resolveHeader (cip : CredentialInjectionPolicy) : option credInjection :=
  match cip_HeaderName (cip_Spec cip) with
  | None => None
  | Some h =>
      if String.eqb h "" then None
      else match loadCIPSecret cip with
           | None => None
           | Some secret =>
               let dataKey := if String.eqb (cip_SecretKey (cip_Spec cip)) "" then "token"
                              else cip_SecretKey (cip_Spec cip) in
               match Data secret !! dataKey with
               | None => None
               | Some v => if String.eqb v "" then None
                           else Some (mkInjection (slashName (cip_Meta cip)) (ToLower h) v None "")
               end
           end
  end.

Definition resolveAWSv4 (cip : CredentialInjectionPolicy) (pa : ProviderAuthConfig) : option credInjection :=
  match loadCIPSecret cip with
  | None => None
  | Some secret =>
      let akid := dataOr secret "access_key_id" in
      let sak := dataOr secret "secret_access_key" in
      if String.eqb akid "" || String.eqb sak "" then None
      else
        let region := match pa_Region pa with Some r => r | None => "" end in
        let service := match pa_Service pa with
                       | Some s => if String.eqb s "" then "bedrock" else s
                       | None => "bedrock"
                       end in
        Some (mkInjection (slashName (cip_Meta cip)) "" ""
                (Some (mkSigv4 (mkCreds akid sak (dataOr secret "session_token")) region service)) "")
  end.

Definition resolveCIP (cip : CredentialInjectionPolicy) : option credInjection :=
  let target := cip_Target (cip_Spec cip) in
  if String.eqb target CredentialTargetHeader then resolveHeader cip
  else if String.eqb target CredentialTargetProviderAuth then
    match cip_ProviderAuth (cip_Spec cip) with
    | None => None
    | Some pa => if negb (String.eqb (pa_Type pa) ProviderAuthTypeAWSv4) then None
                 else resolveAWSv4 cip pa
    end
  else None.

(** ** Building the table *)

Definition aprKey (r : AIProviderRoute) : NamespacedName := metaKey (apr_Meta r).

(** [aprAttached]: the keys of the attached routes. *)
Definition attachedKeys (egNamespace egName : string) (aprs : list AIProviderRoute) : gset NamespacedName :=
  list_to_set (map aprKey (List.filter (fun r => RouteAttachesTo r egNamespace egName) aprs)).

Definition withSection (i : credInjection) (s : string) : credInjection :=
  mkInjection (policyName i) (headerName i) (headerValue i) (sigv4 i) s.

(** The body of the loop over the target references of a policy. *)
Definition addRef (egNamespace egName : string) (attached : gset NamespacedName)
    (cip : CredentialInjectionPolicy) (tbl : credTable) (ref : PolicyTargetRef) : credTable :=
  let ns := Namespace (cip_Meta cip) in
  if negb (String.eqb (tr_Group ref) clrkAPIGroup) then tbl
  else if String.eqb (tr_Kind ref) egressGatewayKind then
    if negb (String.eqb ns egNamespace) || negb (String.eqb (tr_Name ref) egName) then tbl
    else match resolveCIP cip with
         | Some inj => mkCredTable (byRoute tbl) (gateway tbl ++ [inj])
         | None => tbl
         end
  else if String.eqb (tr_Kind ref) aiProviderRouteKind then
    let key := mkNN ns (tr_Name ref) in
    if negb (bool_decide (key ∈ attached)) then tbl
    else match resolveCIP cip with
         | Some inj =>
             mkCredTable (<[key := default [] (byRoute tbl !! key)
                                   ++ [withSection inj (Section_ ref)]]> (byRoute tbl)) (gateway tbl)
         | None => tbl
         end
  else tbl.

Definition addPolicy (egNamespace egName : string) (attached : gset NamespacedName)
    (tbl : credTable) (cip : CredentialInjectionPolicy) : credTable :=
  fold_left (addRef egNamespace egName attached cip) (cip_TargetRefs (cip_Spec cip)) tbl.

Definition buildCredTable (egNamespace egName : string) (aprs : list AIProviderRoute)
    (cips : list CredentialInjectionPolicy) : credTable :=
  fold_left (addPolicy egNamespace egName (attachedKeys egNamespace egName aprs)) cips newEmptyCredTable.

(** ** Lookup *)

Definition scopeMatches (backend : string) (inj : credInjection) : bool :=
  String.eqb (section inj) "" || (negb (String.eqb backend "") && String.eqb (section inj) backend).

(** A nil table is [None], as is a nil rule. *)
Definition lookupForBackend (t : option credTable) (rr : option routeRule) (backend : string)
    : list credInjection :=
  match t with
  | None => []
  | Some t =>
      match rr with
      | Some rr => List.filter (scopeMatches backend)
                     (default [] (byRoute t !! mkNN (routeNamespace rr) (routeName rr)))
      | None => []
      end ++ gateway t
  end.

Definition lookup_ (t : option credTable) (rr : option routeRule) : list credInjection :=
  lookupForBackend t rr "".

(** ** Header mutations *)

(** [HeaderValueOption] with [OVERWRITE_IF_EXISTS_OR_ADD]. *)
Record HeaderOption := mkHeaderOption { ho_Key : string; ho_RawValue : string }.

Record HeaderMutation := mkMutation { SetHeaders : list HeaderOption; RemoveHeaders : list string }.

(** The zero value, allocated when the existing mutation is nil. *)
Definition emptyMutation : HeaderMutation := mkMutation [] [].

(** A nil mutation is [None]. *)
Definition setHeaderMut (existing : option HeaderMutation) (name value : string) : option HeaderMutation :=
  let m := default emptyMutation existing in
  Some (mkMutation (SetHeaders m ++ [mkHeaderOption name value]) (RemoveHeaders m)).

Definition applyInjections (existing : option HeaderMutation) (injs : list credInjection)
    : option HeaderMutation :=
  fold_left (fun ex inj => match sigv4 inj with
                           | Some _ => ex
                           | None => setHeaderMut ex (headerName inj) (headerValue inj)
                           end) injs existing.

Definition redacted : string := "<redacted>".

(** One header of one policy: whether it collides, and the map after. *)
Definition redactName (acc : bool * gmap string string) (name : string) : bool * gmap string string :=
  let '(collided, headers) := acc in
  let hit := match headers !! name with
             | Some v => negb (String.eqb v "") && negb (String.eqb v redacted)
             | None => false
             end in
  (collided || hit, <[name := redacted]> headers).

Definition redactOne (acc : list string * gmap string string) (inj : credInjection)
    : list string * gmap string string :=
  let '(collisions, headers) := acc in
  let '(collided, headers') := fold_left redactName (headerNames inj) (false, headers) in
  (if collided then collisions ++ [policyName inj] else collisions, headers').

(** The captured-header map is updated in place: it is returned with the
    collisions. *)
Definition redactInjected (headers : gmap string string) (injs : list credInjection)
    : list string * gmap string string :=
  if bool_decide (headers = ∅) || (match injs with [] => true | _ => false end) then ([], headers)
  else fold_left redactOne injs ([], headers).

(** ** The fingerprint *)

Definition secretVersion (cip : CredentialInjectionPolicy) : string :=
  match loadCIPSecret cip with Some s => sec_ResourceVersion s | None => "none" end.

Definition refMatchesEG (egNamespace egName : string) (attached : gset NamespacedName)
    (cip : CredentialInjectionPolicy) (ref : PolicyTargetRef) : bool :=
  let ns := Namespace (cip_Meta cip) in
  if negb (String.eqb (tr_Group ref) clrkAPIGroup) then false
  else if String.eqb (tr_Kind ref) egressGatewayKind then
    String.eqb ns egNamespace && String.eqb (tr_Name ref) egName
  else if String.eqb (tr_Kind ref) aiProviderRouteKind then
    bool_decide (mkNN ns (tr_Name ref) ∈ attached)
  else false.

Definition policyPart (cip : CredentialInjectionPolicy) : string :=
  String.concat "" [Namespace (cip_Meta cip); "/"; Name (cip_Meta cip); "@";
                    ResourceVersion (cip_Meta cip); "+"; secretVersion cip].

(** The policies that attach to the gateway. *)
Definition matchedPolicies (cips : list CredentialInjectionPolicy) (aprs : list AIProviderRoute)
    (egNamespace egName : string) : list CredentialInjectionPolicy :=
  List.filter (fun cip => existsb (refMatchesEG egNamespace egName
                                     (attachedKeys egNamespace egName aprs) cip)
                            (cip_TargetRefs (cip_Spec cip))) cips.

Definition CredPoliciesVersion (cips : list CredentialInjectionPolicy) (aprs : list AIProviderRoute)
    (eg : NamespacedName) : string :=
  String.concat ","
    (merge_sort String.le (map policyPart (matchedPolicies cips aprs (nn_namespace eg) (nn_name eg)))).

End Client.

Section Proofs.
Context (Get : NamespacedName -> option Secret).

(** ** Where a credential comes from *)

(** The secret material of an injection is taken from [secret]. *)
Definition uses_secret (inj : credInjection) (secret : Secret) : Prop :=
  match sigv4 inj with
  | None => exists k, Data secret !! k = Some (headerValue inj) /\ headerValue inj <> ""
  | Some sc => AccessKeyID (creds sc) = dataOr secret "access_key_id"
               /\ SecretAccessKey (creds sc) = dataOr secret "secret_access_key"
               /\ SessionToken (creds sc) = dataOr secret "session_token"
               /\ AccessKeyID (creds sc) <> "" /\ SecretAccessKey (creds sc) <> ""
  end.

Lemma resolveCIP_material cip inj :
  resolveCIP Get cip = Some inj ->
  policyName inj = slashName (cip_Meta cip) /\ section inj = ""
  /\ exists secret, Get (mkNN (Namespace (cip_Meta cip)) (cip_SecretName (cip_Spec cip))) = Some secret
       /\ uses_secret inj secret.
Proof.
  unfold resolveCIP, resolveHeader, resolveAWSv4, loadCIPSecret.
  destruct (String.eqb _ CredentialTargetHeader).
  - destruct (cip_HeaderName _) as [h|]; [|done]. destruct (String.eqb h ""); [done|].
    destruct (Get _) as [secret|]; [|done]. destruct (Data secret !! _) as [v|] eqn:Ev; [|done].
    destruct (String.eqb v "") eqn:En; [done|]. bool_to_prop. intros [= <-]. cbn.
    split; [done|]. split; [done|]. exists secret. split; [done|]. unfold uses_secret. cbn. eauto.
  - destruct (String.eqb _ CredentialTargetProviderAuth); [|done].
    destruct (cip_ProviderAuth _) as [pa|]; [|done]. destruct (negb _); [done|].
    destruct (Get _) as [secret|]; [|done].
    destruct (String.eqb (dataOr secret "access_key_id") "" || _)%bool eqn:E; [done|]. bool_to_prop.
    intros [= <-]. cbn. split; [done|]. split; [done|]. exists secret. split; [done|].
    unfold uses_secret. cbn. done.
Qed.

(** What a table built from [cips] may contain. *)
Definition table_from (egNs egName : string) (attached : gset NamespacedName)
    (cips : list CredentialInjectionPolicy) (t : credTable) : Prop :=
  (forall inj, In inj (gateway t) ->
     exists cip ref, In cip cips /\ In ref (cip_TargetRefs (cip_Spec cip))
       /\ refMatchesEG egNs egName attached cip ref = true
       /\ Namespace (cip_Meta cip) = egNs /\ resolveCIP Get cip = Some inj)
  /\ (forall key inj, In inj (default [] (byRoute t !! key)) ->
     exists cip ref base, In cip cips /\ In ref (cip_TargetRefs (cip_Spec cip))
       /\ refMatchesEG egNs egName attached cip ref = true
       /\ Namespace (cip_Meta cip) = nn_namespace key /\ resolveCIP Get cip = Some base
       /\ inj = withSection base (Section_ ref)).

Lemma addRef_from egNs egName attached cips cip ref t :
  In cip cips -> In ref (cip_TargetRefs (cip_Spec cip)) ->
  table_from egNs egName attached cips t ->
  table_from egNs egName attached cips (addRef Get egNs egName attached cip t ref).
Proof.
  intros Hc Hr [Hg Hb]. unfold addRef.
  destruct (String.eqb (tr_Group ref) clrkAPIGroup) eqn:Eg; cbn [negb]; [|done].
  destruct (String.eqb (tr_Kind ref) egressGatewayKind) eqn:Ek.
  - destruct (String.eqb (Namespace (cip_Meta cip)) egNs) eqn:En; cbn [negb orb]; [|done].
    destruct (String.eqb (tr_Name ref) egName) eqn:Em; cbn [negb]; [|done].
    destruct (resolveCIP Get cip) as [inj|] eqn:Er; [|done].
    split; cbn [gateway byRoute]; [|done].
    intros i [Hi|[<-|[]]]%in_app_or; [by apply Hg|].
    exists cip, ref. split_and!; try done; [|by apply String.eqb_eq].
    unfold refMatchesEG. by rewrite Eg, Ek, En, Em.
  - destruct (String.eqb (tr_Kind ref) aiProviderRouteKind) eqn:Ea; [|done].
    case_bool_decide as Hat; cbn [negb]; [|done].
    destruct (resolveCIP Get cip) as [base|] eqn:Er; [|done].
    split; cbn [gateway byRoute]; [done|]. intros key inj.
    destruct (decide (key = mkNN (Namespace (cip_Meta cip)) (tr_Name ref))) as [->|Hne].
    + rewrite lookup_insert_eq. cbn [default]. intros [Hi|[<-|[]]]%in_app_or; [by apply Hb|].
      exists cip, ref, base. split_and!; try done.
      unfold refMatchesEG. rewrite Eg, Ek, Ea. by apply bool_decide_eq_true.
    + rewrite lookup_insert_ne by congruence. apply Hb.
Qed.

Lemma buildCredTable_from egNs egName aprs cips :
  table_from egNs egName (attachedKeys egNs egName aprs) cips (buildCredTable Get egNs egName aprs cips).
Proof.
  unfold buildCredTable. set (att := attachedKeys egNs egName aprs).
  assert (Hrefs : forall cip refs t, In cip cips ->
    (forall ref, In ref refs -> In ref (cip_TargetRefs (cip_Spec cip))) ->
    table_from egNs egName att cips t ->
    table_from egNs egName att cips (fold_left (addRef Get egNs egName att cip) refs t)).
  { intros cip refs. induction refs as [|ref refs IH]; intros t Hc Hsub Ht; cbn [fold_left]; [done|].
    apply IH; [done|intros r Hin; apply Hsub; by right|]. apply addRef_from; [done|apply Hsub; by left|done]. }
  assert (Hall : forall cs t, (forall c, In c cs -> In c cips) -> table_from egNs egName att cips t ->
    table_from egNs egName att cips (fold_left (addPolicy Get egNs egName att) cs t)).
  { intros cs. induction cs as [|c cs IH]; intros t Hsub Ht; cbn [fold_left]; [done|].
    apply IH; [intros x Hx; apply Hsub; by right|]. apply Hrefs; [apply Hsub; by left|done|done]. }
  apply Hall; [done|]. split; cbn [newEmptyCredTable gateway byRoute]; [done|].
  intros key inj. by rewrite lookup_empty.
Qed.

(** C33: credentials do not cross namespaces or backends.  Whatever policies
    exist, every credential a request is given on a gateway comes from one
    policy, is read from the Secret that policy names in the policy's own
    namespace (never the namespace its [secretRef] asks for), and the policy
    lives in the namespace of the matched route or of the gateway itself; and a
    credential scoped to a backend is given only once that backend is selected,
    never at request-header time. *)
Theorem credentials_stay_in_namespace (egNs egName : string) (aprs : list AIProviderRoute)
    (cips : list CredentialInjectionPolicy) (rr : option routeRule) (backend : string)
    (inj : credInjection) :
  In inj (lookupForBackend (Some (buildCredTable Get egNs egName aprs cips)) rr backend) ->
  (section inj = "" \/ (backend <> "" /\ section inj = backend))
  /\ exists cip secret, In cip cips /\ policyName inj = slashName (cip_Meta cip)
       /\ Get (mkNN (Namespace (cip_Meta cip)) (cip_SecretName (cip_Spec cip))) = Some secret
       /\ uses_secret inj secret
       /\ (Namespace (cip_Meta cip) = egNs
           \/ exists r, rr = Some r /\ Namespace (cip_Meta cip) = routeNamespace r).
Proof.
  destruct (buildCredTable_from egNs egName aprs cips) as [Hg Hb].
  unfold lookupForBackend. intros [Hi|Hi]%in_app_or.
  - destruct rr as [r|]; [|done]. apply filter_In in Hi as [Hi Hs].
    apply Hb in Hi as (cip & ref & base & Hc & _ & _ & Hns & Hr & ->). split.
    { unfold scopeMatches in Hs. apply orb_true_iff in Hs as [Hs|Hs]; bool_to_prop; auto. }
    destruct (resolveCIP_material _ _ Hr) as (Hp & _ & secret & Hget & Hu).
    exists cip, secret. split_and!; try done. right. exists r. by split.
  - apply Hg in Hi as (cip & ref & Hc & _ & _ & Hns & Hr).
    destruct (resolveCIP_material _ _ Hr) as (Hp & Hs & secret & Hget & Hu).
    split; [by left|]. exists cip, secret. split_and!; try done. by left.
Qed.

(** ** The fingerprint covers the table *)

Lemma matchedPolicies_In cips aprs egNs egName cip ref :
  In cip cips -> In ref (cip_TargetRefs (cip_Spec cip)) ->
  refMatchesEG egNs egName (attachedKeys egNs egName aprs) cip ref = true ->
  In cip (matchedPolicies cips aprs egNs egName).
Proof.
  intros Hc Hr Hm. apply filter_In. split; [done|]. apply existsb_exists. eauto.
Qed.

Lemma resolved_part_listed eg aprs cips cip ref inj inj' :
  In cip cips -> In ref (cip_TargetRefs (cip_Spec cip)) ->
  refMatchesEG (nn_namespace eg) (nn_name eg) (attachedKeys (nn_namespace eg) (nn_name eg) aprs) cip ref = true ->
  resolveCIP Get cip = Some inj -> policyName inj' = policyName inj ->
  exists cip secret, In cip cips /\ policyName inj' = slashName (cip_Meta cip)
    /\ Get (mkNN (Namespace (cip_Meta cip)) (cip_SecretName (cip_Spec cip))) = Some secret
    /\ In (String.concat "" [Namespace (cip_Meta cip); "/"; Name (cip_Meta cip); "@";
                             ResourceVersion (cip_Meta cip); "+"; sec_ResourceVersion secret])
         (merge_sort String.le
            (map (policyPart Get) (matchedPolicies cips aprs (nn_namespace eg) (nn_name eg)))).
Proof.
  intros Hc Hr Hm Hres Hn. pose proof (matchedPolicies_In _ _ _ _ _ _ Hc Hr Hm) as Hin.
  destruct (resolveCIP_material _ _ Hres) as (Hp & _ & secret & Hget & _).
  exists cip, secret. split_and!; [done|congruence|done|].
  apply list_elem_of_In. rewrite merge_sort_Permutation. apply list_elem_of_In, in_map_iff.
  exists cip. split; [|done]. unfold policyPart, secretVersion, loadCIPSecret. by rewrite Hget.
Qed.

(** The fingerprint that decides whether a gateway's cached table is rebuilt
    agrees with the table.  Every policy that contributes a credential to the
    table has its part (name, own version, version of its Secret) in the
    fingerprint, and the fingerprint does not depend on the order in which the
    policies are listed. *)
Theorem CredPoliciesVersion_covers (eg : NamespacedName) (aprs : list AIProviderRoute)
    (cips : list CredentialInjectionPolicy) :
  (exists parts, CredPoliciesVersion Get cips aprs eg = String.concat "," parts
     /\ forall inj, let t := buildCredTable Get (nn_namespace eg) (nn_name eg) aprs cips in
          (In inj (gateway t) \/ exists key, In inj (default [] (byRoute t !! key))) ->
          exists cip secret, In cip cips /\ policyName inj = slashName (cip_Meta cip)
            /\ Get (mkNN (Namespace (cip_Meta cip)) (cip_SecretName (cip_Spec cip))) = Some secret
            /\ In (String.concat "" [Namespace (cip_Meta cip); "/"; Name (cip_Meta cip); "@";
                                     ResourceVersion (cip_Meta cip); "+"; sec_ResourceVersion secret]) parts)
  /\ (forall cips', cips ≡ₚ cips' ->
       CredPoliciesVersion Get cips' aprs eg = CredPoliciesVersion Get cips aprs eg).
Proof.
  destruct (buildCredTable_from (nn_namespace eg) (nn_name eg) aprs cips) as [Hg Hb]. split.
  - eexists. split; [reflexivity|]. cbn zeta. intros inj [Hi|[key Hi]].
    + apply Hg in Hi as (cip & ref & Hc & Hr & Hm & _ & Hres). by eapply resolved_part_listed.
    + apply Hb in Hi as (cip & ref & base & Hc & Hr & Hm & _ & Hres & ->). by eapply resolved_part_listed.
  - intros cips' Hp. unfold CredPoliciesVersion. f_equal.
    apply (StronglySorted_unique String.le); [apply StronglySorted_merge_sort; apply _..|].
    rewrite !merge_sort_Permutation. apply Permutation_map, filter_perm. by symmetry.
Qed.

(** ** Redaction *)

Lemma redactName_fold names : forall c headers,
  let r := fold_left redactName names (c, headers) in
  (forall n, In n names -> snd r !! n = Some redacted)
  /\ (forall n, ~ In n names -> snd r !! n = headers !! n)
  /\ (forall n, headers !! n = Some redacted -> snd r !! n = Some redacted).
Proof.
  induction names as [|n names IH]; intros c headers; cbn zeta; cbn [fold_left]; [by split_and!|].
  cbn [redactName]. set (h' := <[n := redacted]> headers).
  destruct (IH (c || match headers !! n with Some v => negb (String.eqb v "") && negb (String.eqb v redacted)
                     | None => false end)%bool h') as (H1 & H2 & H3).
  split_and!.
  - intros m [<-|Hm]; [|by apply H1]. apply H3. unfold h'. apply lookup_insert_eq.
  - intros m Hm. rewrite H2 by (intros Hin; apply Hm; by right). unfold h'.
    apply lookup_insert_ne. intros <-. apply Hm. by left.
  - intros m Hm. apply H3. unfold h'. destruct (decide (m = n)) as [->|]; [apply lookup_insert_eq|].
    by rewrite lookup_insert_ne.
Qed.

Lemma redactOne_fold injs : forall acc,
  let r := snd (fold_left redactOne injs acc) in
  (forall inj n, In inj injs -> In n (headerNames inj) -> r !! n = Some redacted)
  /\ (forall n, (forall inj, In inj injs -> ~ In n (headerNames inj)) -> r !! n = snd acc !! n)
  /\ (forall n, snd acc !! n = Some redacted -> r !! n = Some redacted).
Proof.
  induction injs as [|i injs IH]; intros [cs headers]; cbn zeta; cbn [fold_left]; [by split_and!|].
  pose proof (redactName_fold (headerNames i) false headers) as (N1 & N2 & N3).
  cbn [redactOne]. destruct (fold_left redactName (headerNames i) (false, headers)) as [c h'].
  cbn [snd] in *. destruct (IH (if c then cs ++ [policyName i] else cs, h')) as (H1 & H2 & H3). cbn [snd] in *.
  split_and!.
  - intros inj n [<-|Hin] Hn; [by apply H3, N1|by eapply H1].
  - intros n Hn. rewrite H2 by (intros inj Hin; apply Hn; by right). apply N2. apply Hn. by left.
  - intros n Hn. by apply H3, N3.
Qed.

(** The captured record never keeps a value under a header that a credential
    policy sets.  After redaction, each such header that is present holds the
    redaction mark (for a signing policy, the whole signature set), and every
    other header is untouched. *)
Theorem redaction_complete (headers : gmap string string) (injs : list credInjection) :
  let headers' := snd (redactInjected headers injs) in
  (forall inj n v, In inj injs -> In n (headerNames inj) -> headers' !! n = Some v -> v = redacted)
  /\ (forall n, (forall inj, In inj injs -> ~ In n (headerNames inj)) -> headers' !! n = headers !! n).
Proof.
  cbn zeta. unfold redactInjected. destruct (_ || _)%bool eqn:E; cbn [snd].
  - split; [|done]. intros inj n v Hi Hn. apply orb_true_iff in E as [E|E].
    + apply bool_decide_eq_true in E as ->. by rewrite lookup_empty.
    + by destruct injs.
  - destruct (redactOne_fold injs ([], headers)) as (H1 & H2 & _). split; [|done].
    intros inj n v Hi Hn Hv. rewrite (H1 inj n Hi Hn) in Hv. congruence.
Qed.

(** ** Admission and injection *)

(** Which admitted policies inject.  An admitted policy with a header target
    resolves to a credential as soon as its Secret holds a non-empty value under
    the policy's key, and one with an AWS signing target as soon as its Secret
    holds the two keys; but an admitted policy with the query-parameter target
    never resolves, whatever its Secret holds, although admission rejects other
    targets precisely because they would never inject. *)
Theorem admitted_credentials (cip : CredentialInjectionPolicy) :
  Admission.CredentialInjectionPolicy_Validate cip = [] ->
  (forall secret v,
     cip_Target (cip_Spec cip) = CredentialTargetHeader ->
     loadCIPSecret Get cip = Some secret ->
     Data secret !! (Admission.orDefault (cip_SecretKey (cip_Spec cip)) "token") = Some v -> v <> "" ->
     exists inj, resolveCIP Get cip = Some inj /\ headerValue inj = v)
  /\ (forall secret,
     cip_Target (cip_Spec cip) = CredentialTargetProviderAuth ->
     loadCIPSecret Get cip = Some secret ->
     dataOr secret "access_key_id" <> "" -> dataOr secret "secret_access_key" <> "" ->
     exists inj sc, resolveCIP Get cip = Some inj /\ sigv4 inj = Some sc /\ service sc <> "")
  /\ (cip_Target (cip_Spec cip) = CredentialTargetQueryParam -> resolveCIP Get cip = None).
Proof.
  unfold Admission.CredentialInjectionPolicy_Validate. rewrite !app_nil. intros (_ & _ & _ & Hv).
  unfold Admission.validateCredentialTarget in Hv. split_and!.
  - intros secret v Ht Hs Hd Hne. rewrite Ht in Hv. cbn [String.eqb] in Hv.
    rewrite String.eqb_refl, !app_nil, Admission.when_nil in Hv. destruct Hv as [Hh _].
    unfold resolveCIP, resolveHeader. rewrite Ht, String.eqb_refl.
    destruct (cip_HeaderName _) as [h|]; cbn in Hh; [|done]. rewrite Hh, Hs.
    unfold Admission.orDefault in Hd. rewrite Hd. apply String.eqb_neq in Hne. rewrite Hne. eauto.
  - intros secret Ht Hs Ha Hk. rewrite Ht in Hv.
    change (String.eqb CredentialTargetProviderAuth CredentialTargetHeader) with false in Hv.
    change (String.eqb CredentialTargetProviderAuth CredentialTargetQueryParam) with false in Hv.
    rewrite String.eqb_refl, !app_nil in Hv. destruct Hv as (_ & _ & Hv).
    unfold resolveCIP. rewrite Ht. change (String.eqb CredentialTargetProviderAuth CredentialTargetHeader) with false.
    rewrite String.eqb_refl. unfold Admission.validateProviderAuth in Hv.
    destruct (cip_ProviderAuth _) as [pa|]; [|done]. rewrite !app_nil, !Admission.when_nil in Hv.
    destruct Hv as (Hty & _ & _). rewrite Hty. unfold resolveAWSv4. rewrite Hs.
    apply String.eqb_neq in Ha, Hk. rewrite Ha, Hk. cbn [orb]. eexists _, _. split; [reflexivity|].
    split; [reflexivity|]. cbn [service]. destruct (pa_Service pa) as [sv|]; [|done].
    destruct (String.eqb sv "") eqn:E; [done|]. by apply String.eqb_neq.
  - intros Ht. unfold resolveCIP. by rewrite Ht.
Qed.

End Proofs.

(** ** A concrete gateway *)

Definition demoCIP : CredentialInjectionPolicy :=
  mkCIP (mkMeta "team" "key" "7")
    (mkCIPSpec [mkTargetRef clrkAPIGroup "EgressGateway" "eg" None] "api-key" (Some "other") "" "Header"
       (Some "Authorization") None None).
Definition demoSecret : Secret := mkSecret {["token" := "Bearer x"]} "3".
Definition demoGet (n : NamespacedName) : option Secret :=
  if bool_decide (n = mkNN "team" "api-key") then Some demoSecret else None.
Definition demoInjection : credInjection := mkInjection "team/key" "authorization" "Bearer x" None "".

Lemma credentials_stay_in_namespace_witness :
  exists cip secret, In cip [demoCIP] /\ demoGet (mkNN (Namespace (cip_Meta cip)) "api-key") = Some secret
    /\ uses_secret demoInjection secret.
Proof.
  destruct (credentials_stay_in_namespace demoGet "team" "eg" [] [demoCIP] None "" demoInjection)
    as (_ & cip & secret & Hc & _ & Hs & Hu & _); [left; vm_compute; reflexivity|].
  exists cip, secret. split; [done|]. split; [|done]. by destruct Hc as [<-|[]].
Defined.

Lemma admitted_credentials_witness :
  exists inj, resolveCIP demoGet demoCIP = Some inj /\ headerValue inj = "Bearer x".
Proof.
  destruct (admitted_credentials demoGet demoCIP) as (H & _ & _); [vm_compute; reflexivity|].
  apply (H demoSecret "Bearer x"); [reflexivity|vm_compute; reflexivity|vm_compute; reflexivity|done].
Defined.

End CredTable.
