(* ===== verification/Budget.v ===== *)
(** * Daily token budgets

    [src/internal/extproc/budget.go]: the in-memory counter of tokens per route
    and UTC day, the pre-flight check and the post-flight charge.  A date string
    is modelled by its day number ([Format("2006-01-02")] is injective on days);
    the clock is an argument of each operation.  Counters are [int64]. *)

From Stdlib Require Import ZArith Lia Ascii String List.
From stdpp Require Import base strings list gmap.
From S2P Require Import Prelude GoStrings GoPath ApiTypes Registry LlmRoute.
Import GoStrings GoPath ApiTypes LlmRoute.

Module Budget.

(** ** The store *)

Record budgetKey := mkBudgetKey {
  egNamespace : string;
  egName : string;
  bk_routeNamespace : string;
  bk_routeName : string;
}.

#[export] Instance budgetKey_eq_dec : EqDecision budgetKey.
Proof. solve_decision. Defined.
#[export] Instance budgetKey_countable : Countable budgetKey.
Proof.
  refine (inj_countable'
    (fun k => (egNamespace k, egName k, bk_routeNamespace k, bk_routeName k))
    (fun p => mkBudgetKey p.1.1.1 p.1.1.2 p.1.2 p.2) _); by intros [].
Defined.

Abbreviation day := Z.
(** [bucketKey]: a key and a date. *)
Abbreviation budgetStore := (gmap (budgetKey * day) Z).

Definition newBudgetStore : budgetStore := ∅.

(** [bucket] drops the buckets of every other day. *)
Definition reap (today : day) (b : budgetStore) : budgetStore :=
  filter (fun kv : budgetKey * day * Z => kv.1.2 = today) b.

Definition counter (b : budgetStore) (key : budgetKey) (today : day) : Z := default 0 (b !! (key, today)).

Definition Allow (today : day) (key : budgetKey) (cap : Z) (b : budgetStore) : bool * budgetStore :=
  if cap <=? 0 then (true, b)
  else let b := reap today b in (counter b key today <? cap, b).

Definition snapshot (today : day) (key : budgetKey) (b : budgetStore) : Z * budgetStore :=
  let b := reap today b in (counter b key today, b).

Definition Add (today : day) (key : budgetKey) (tokens : Z) (b : budgetStore) : Z * budgetStore :=
  if tokens <=? 0 then snapshot today key b
  else
    let b := reap today b in
    let v := int64 (counter b key today + tokens) in
    (v, <[(key, today) := v]> b).

(** ** [splitHostPort] ([record.go]) over [net.SplitHostPort] *)

Definition has_char (c : ascii) (s : string) : bool := negb (Count s c =? 0)%nat.

Definition netSplitHostPort (hp : string) : option (string * string) :=
  match LastIndex hp ":" with
  | None => None
  | Some i =>
      if HasPrefix hp "[" then
        match Index hp "]" with
        | None => None
        | Some e =>
            if (S e =? i)%nat then
              if has_char "[" (drop_str 1 hp) || has_char "]" (drop_str (S e) hp) then None
              else Some (take_str (e - 1) (drop_str 1 hp), drop_str (S i) hp)
            else None
        end
      else if has_char ":" (take_str i hp) || has_char "[" hp || has_char "]" hp then None
      else Some (take_str i hp, drop_str (S i) hp)
  end.

Fixpoint trimBrackets (s : string) : string :=
  match s with
  | String c t => if Ascii.eqb c "[" || Ascii.eqb c "]" then trimBrackets t else s
  | EmptyString => EmptyString
  end.

Definition splitHostPort (authority : string) : string * string :=
  if String.eqb authority "" then ("", "")
  else match netSplitHostPort authority with
       | Some hp => hp
       | None => (str_rev (trimBrackets (str_rev (trimBrackets authority) "")) "", "")
       end.

(** ** Pre-flight and charge *)

Definition routeKey (eg : NamespacedName) (rr : routeRule) : budgetKey :=
  mkBudgetKey (nn_namespace eg) (nn_name eg) (routeNamespace rr) (routeName rr).

(** The daily cap of the rule that governs a request before its body is read:
    the rule and the cap, when there is one to enforce. *)
Definition dailyCap (reg : Registry.registry) (routes : list routeRule) (headers : gmap string string)
    : option (routeRule * Z) :=
  let host := fst (splitHostPort (default "" (headers !! ":authority"))) in
  let system := Registry.SystemFor reg host in
  if String.eqb system "" then None
  else match match_ routes system (default "" (headers !! ":path")) "" with
       | None => None
       | Some rr => match tokenBudget rr with
                    | None => None
                    | Some tb => match MaxTokensPerDay tb with
                                 | None => None
                                 | Some cap => if cap <=? 0 then None else Some (rr, cap)
                                 end
                    end
       end.

(** [evaluateBudget]: [Some (route, used, max)] asks for a 429. *)
Definition evaluateBudget (reg : Registry.registry) (today : day) (routes : list routeRule)
    (eg : NamespacedName) (headers : gmap string string) (b : budgetStore)
    : option (string * Z * Z) * budgetStore :=
  if String.eqb (nn_name eg) "" then (None, b)
  else match dailyCap reg routes headers with
       | None => (None, b)
       | Some (rr, cap) =>
           let '(ok, b) := Allow today (routeKey eg rr) cap b in
           if ok then (None, b)
           else let '(used, b) := snapshot today (routeKey eg rr) b in
                (Some (routeName rr, used, cap), b)
       end.

(** What the charge reads of a record: whether it was denied, and the parsed
    input and output tokens. *)
Record Usage := mkUsage { BudgetDenied : bool; ProviderTokens : option (Z * Z) }.

Definition chargeBudget (today : day) (rr : option routeRule) (eg : NamespacedName) (rec : Usage)
    (b : budgetStore) : budgetStore :=
  match rr with
  | None => b
  | Some rr =>
      match tokenBudget rr with
      | None => b
      | Some _ =>
          if BudgetDenied rec then b
          else match ProviderTokens rec with
               | None => b
               | Some (i, o) =>
                   let tokens := int64 (i + o) in
                   if tokens <=? 0 then b else snd (Add today (routeKey eg rr) tokens b)
               end
      end
  end.

(** ** Traces of operations *)

Inductive op := OpAllow (key : budgetKey) (cap : Z) | OpAdd (key : budgetKey) (tokens : Z)
              | OpSnapshot (key : budgetKey).

Definition step (b : budgetStore) (e : day * op) : budgetStore :=
  match e.2 with
  | OpAllow key cap => snd (Allow e.1 key cap b)
  | OpAdd key tokens => snd (Add e.1 key tokens b)
  | OpSnapshot key => snd (snapshot e.1 key b)
  end.

Definition run (trace : list (day * op)) : budgetStore := fold_left step trace newBudgetStore.

(** The abstract counter: the tokens charged to a key on a day. *)
Definition charge (key : budgetKey) (d : day) (e : day * op) : Z :=
  match e.2 with
  | OpAdd k tokens => if bool_decide (k = key) && (e.1 =? d) && (0 <? tokens) then tokens else 0
  | _ => 0
  end.

Fixpoint charged (key : budgetKey) (d : day) (trace : list (day * op)) : Z :=
  match trace with [] => 0 | e :: t => charge key d e + charged key d t end.

(** ** Lemmas *)

Lemma counter_reap b key d : counter (reap d b) key d = counter b key d.
Proof.
  unfold counter, reap. destruct (b !! (key, d)) as [v|] eqn:E.
  - by rewrite (map_lookup_filter_Some_2 _ _ (key, d) v).
  - by rewrite map_lookup_filter_None_2 by auto.
Qed.

Lemma charged_app key d t1 t2 : charged key d (t1 ++ t2) = charged key d t1 + charged key d t2.
Proof. induction t1 as [|e t1 IH]; cbn; [done|]. rewrite IH. lia. Qed.

Lemma charge_nonneg key d e : 0 <= charge key d e.
Proof. unfold charge. destruct e.2; try lia. destruct (_ && _)%bool eqn:E; bool_to_prop; lia. Qed.

Lemma charged_nonneg key d t : 0 <= charged key d t.
Proof. induction t as [|e t IH]; cbn; [done|]. pose proof (charge_nonneg key d e). lia. Qed.

(** Days never go backwards, and the last one seen is [d]. *)
Inductive days_upto : list (day * op) -> day -> Prop :=
| days_nil d : days_upto [] d
| days_snoc t e d d' : days_upto t d -> d <= e.1 -> e.1 <= d' -> days_upto (t ++ [e]) d'.

Lemma days_upto_weaken t d d' : days_upto t d -> d <= d' -> days_upto t d'.
Proof. intros [?|t' e d0 d1 H1 H2 H3] Hle; [constructor|]. econstructor; [done|done|lia]. Qed.

Lemma charged_future t d : days_upto t d -> forall key d', d < d' -> charged key d' t = 0.
Proof.
  induction 1 as [d|t e d d' _ IH H1 H2]; intros key d'' Hlt; [done|].
  rewrite charged_app, IH by lia. cbn. unfold charge.
  destruct e.2; try lia. assert ((e.1 =? d'') = false) as -> by (apply Z.eqb_neq; lia).
  by rewrite andb_false_r.
Qed.

Lemma counter_reap_later b key d d' : d < d' -> counter (reap d b) key d' = 0.
Proof.
  intros Hlt. unfold counter, reap. rewrite map_lookup_filter_None_2; [done|].
  right. intros v _. cbn. lia.
Qed.

(** After reaping at the day of the next event the counters of that day and of
    later days are still the charged totals. *)
Lemma reap_agrees b key t d e d' :
  days_upto t d -> d <= e -> e <= d' ->
  (forall d', d <= d' -> counter b key d' = charged key d' t) ->
  counter (reap e b) key d' = charged key d' t.
Proof.
  intros Ht Hde Hd' IH. destruct (decide (e = d')) as [->|Hne].
  - rewrite counter_reap. apply IH. lia.
  - rewrite counter_reap_later by lia. symmetry. eapply charged_future; [exact Ht|lia].
Qed.

Lemma run_agrees t d :
  days_upto t d -> forall key, (forall d', charged key d' t < 2 ^ 63) ->
  forall d', d <= d' -> counter (run t) key d' = charged key d' t.
Proof.
  induction 1 as [d|t e d0 d Hdays IH H1 H2]; intros key Hb d' Hd'.
  { unfold run, newBudgetStore, counter. cbn. by rewrite lookup_empty. }
  assert (Hsnoc : forall k x, charged k x (t ++ [e]) = charged k x t + charge k x e).
  { intros k x. rewrite charged_app. cbn. lia. }
  assert (IHk : forall d', d0 <= d' -> counter (run t) key d' = charged key d' t).
  { intros x Hx. apply IH; [|done]. intros y. specialize (Hb y). rewrite Hsnoc in Hb.
    pose proof (charge_nonneg key y e). lia. }
  clear IH.
  assert (Hreap : forall x, e.1 <= x -> counter (reap e.1 (run t)) key x = charged key x t).
  { intros x Hx. by eapply reap_agrees. }
  rewrite Hsnoc. unfold run. rewrite fold_left_app. fold (run t). cbn [fold_left]. unfold step.
  destruct e as [de [k cap|k tokens|k]]; cbn [fst snd] in *; unfold charge; cbn [fst snd].
  - unfold Allow. destruct (cap <=? 0); cbn [snd]; rewrite Z.add_0_r; [apply IHk; lia|apply Hreap; lia].
  - unfold Add, snapshot. destruct (tokens <=? 0) eqn:Et; bool_to_prop; cbn [snd].
    + assert ((0 <? tokens) = false) as -> by (apply Z.ltb_ge; lia).
      rewrite andb_false_r, Z.add_0_r. apply Hreap. lia.
    + assert ((0 <? tokens) = true) as -> by (apply Z.ltb_lt; lia). rewrite andb_true_r.
      case_bool_decide as Hk; [subst k|]; cbn [andb].
      * destruct (decide (de = d')) as [->|Hne].
        -- rewrite Z.eqb_refl. unfold counter at 1. rewrite lookup_insert_eq. cbn [default].
           rewrite Hreap by lia. apply int64_id. specialize (Hb d'). rewrite Hsnoc in Hb.
           unfold charge in Hb. cbn [fst snd] in Hb. rewrite bool_decide_eq_true_2, Z.eqb_refl in Hb by done.
           assert ((0 <? tokens) = true) as Hlt by (apply Z.ltb_lt; lia). rewrite Hlt in Hb. cbn [andb] in Hb.
           pose proof (charged_nonneg key d' t). lia.
        -- apply Z.eqb_neq in Hne as E. rewrite E, Z.add_0_r. unfold counter at 1.
           rewrite lookup_insert_ne by congruence. apply Hreap. lia.
      * rewrite Z.add_0_r. unfold counter at 1. rewrite lookup_insert_ne by congruence. apply Hreap. lia.
  - unfold snapshot. cbn [snd]. rewrite Z.add_0_r. apply Hreap. lia.
Qed.

(** C34: the store implements a daily ledger.  Run any sequence of checks, charges
    and reads in which the UTC day never goes back; then, on the current or a
    later day, a key is under its cap exactly when the tokens charged to that
    very key on that very day are, and a read returns that total.  Charges to
    other keys, of other days, and of no tokens do not count, and reaping old
    buckets never loses one that does.  (The total must fit an [int64].) *)
Theorem budget_refines_ledger (trace : list (day * op)) (last today : day) (key : budgetKey) (cap : Z) :
  days_upto trace last -> last <= today ->
  (forall d, charged key d trace < 2 ^ 63) ->
  fst (Allow today key cap (run trace)) = ((cap <=? 0) || (charged key today trace <? cap))%bool
  /\ fst (snapshot today key (run trace)) = charged key today trace.
Proof.
  intros Ht Hle Hb. unfold Allow, snapshot. cbn [fst]. rewrite counter_reap, (run_agrees trace last) by done.
  split; [|done]. by destruct (cap <=? 0).
Qed.

(** ** Requests

    A gateway's history of requests: the pre-flight check of each, and its charge
    once the response was read. *)
Inductive event :=
| Preflight (routes : list routeRule) (eg : NamespacedName) (headers : gmap string string)
| Charge (rr : option routeRule) (eg : NamespacedName) (rec : Usage).

Definition serve (reg : Registry.registry) (b : budgetStore) (e : day * event) : budgetStore :=
  match e.2 with
  | Preflight routes eg headers => snd (evaluateBudget reg e.1 routes eg headers b)
  | Charge rr eg rec => chargeBudget e.1 rr eg rec b
  end.

Definition serveAll (reg : Registry.registry) (history : list (day * event)) : budgetStore :=
  fold_left (serve reg) history newBudgetStore.

(** The tokens a request spends: those of a served request of a rule with a
    budget. *)
Definition usage (e : event) : option (budgetKey * Z) :=
  match e with
  | Charge (Some rr) eg (mkUsage false (Some (i, o))) =>
      match tokenBudget rr with
      | Some _ => Some (mkBudgetKey (nn_namespace eg) (nn_name eg) (routeNamespace rr) (routeName rr), int64 (i + o))
      | None => None
      end
  | _ => None
  end.

(** The ledger: what was spent under a key on a day. *)
Fixpoint spent (key : budgetKey) (d : day) (history : list (day * event)) : Z :=
  match history with
  | [] => 0
  | (d', e) :: t =>
      match usage e with
      | Some (k, tokens) => if bool_decide (k = key /\ d' = d /\ 0 < tokens) then tokens else 0
      | None => 0
      end + spent key d t
  end.

(** The calls on the store that a request makes. *)
Definition ops_of (reg : Registry.registry) (e : event) : list op :=
  match e with
  | Preflight routes eg headers =>
      if String.eqb (nn_name eg) "" then []
      else match dailyCap reg routes headers with
           | Some (rr, cap) => [OpAllow (routeKey eg rr) cap]
           | None => []
           end
  | Charge _ _ _ => match usage e with Some (k, tokens) => if tokens <=? 0 then [] else [OpAdd k tokens] | None => [] end
  end.

Definition trace_of (reg : Registry.registry) (history : list (day * event)) : list (day * op) :=
  flat_map (fun e => map (pair e.1) (ops_of reg e.2)) history.

Lemma reap_idem d b : reap d (reap d b) = reap d b.
Proof. unfold reap. apply map_filter_id. intros k v [_ H]%map_lookup_filter_Some. done. Qed.

Lemma serve_ops reg b d e : serve reg b (d, e) = fold_left step (map (pair d) (ops_of reg e)) b.
Proof.
  unfold serve. destruct e as [routes eg headers|[rr|] eg [[] [[i o]|]]]; cbn [fst snd ops_of usage map fold_left];
    try done.
  - unfold evaluateBudget. destruct (String.eqb (nn_name eg) ""); [done|].
    destruct (dailyCap reg routes headers) as [[rr cap]|]; [|done]. cbn [map fold_left]. unfold step. cbn [fst snd].
    unfold Allow, snapshot. destruct (cap <=? 0); [done|]. destruct (_ <? _); [done|]. cbn [snd]. apply reap_idem.
  - unfold chargeBudget. cbn. by destruct (tokenBudget rr).
  - unfold chargeBudget. cbn. by destruct (tokenBudget rr).
  - unfold chargeBudget. cbn [BudgetDenied ProviderTokens]. destruct (tokenBudget rr); [|done].
    destruct (int64 (i + o) <=? 0); [done|]. cbn [map fold_left]. done.
  - unfold chargeBudget. cbn. by destruct (tokenBudget rr).
Qed.

Lemma serveAll_run reg history : serveAll reg history = run (trace_of reg history).
Proof.
  unfold serveAll, run, trace_of. generalize newBudgetStore.
  induction history as [|[d e] t IH]; intros b; [done|]. cbn [fold_left flat_map].
  rewrite fold_left_app, IH, serve_ops. done.
Qed.

Lemma spent_charged reg key d history : charged key d (trace_of reg history) = spent key d history.
Proof.
  induction history as [|[d' e] t IH]; [done|]. unfold trace_of. cbn [flat_map spent]. rewrite charged_app.
  fold (trace_of reg t). rewrite IH. f_equal. cbn [fst snd].
  destruct e as [routes eg headers|rr eg rec]; cbn [ops_of].
  - cbn [usage]. destruct (String.eqb _ _); [done|]. by destruct (dailyCap reg routes headers) as [[? ?]|].
  - destruct (usage _) as [[k tokens]|]; [|done]. destruct (tokens <=? 0) eqn:E; bool_to_prop; cbn [map charged].
    + rewrite bool_decide_eq_false_2; [done|]. intros (_ & _ & ?). lia.
    + unfold charge. cbn [fst snd]. repeat case_bool_decide; destruct (d' =? d) eqn:Ed; bool_to_prop;
        destruct (0 <? tokens) eqn:Et; bool_to_prop; cbn; naive_solver lia.
Qed.

(** The clock: days never go backwards, and [last] is not before any of them. *)
Inductive in_order : list (day * event) -> day -> Prop :=
| order_nil d : in_order [] d
| order_snoc t e d d' : in_order t d -> d <= e.1 -> e.1 <= d' -> in_order (t ++ [e]) d'.

Lemma days_upto_same t d ops : days_upto t d -> days_upto (t ++ map (pair d) ops) d.
Proof.
  intros Ht. induction ops as [|o ops IH] using rev_ind; [by rewrite app_nil_r|].
  rewrite map_app, app_assoc. eapply days_snoc; [exact IH|cbn; lia..].
Qed.

Lemma in_order_days reg history d : in_order history d -> days_upto (trace_of reg history) d.
Proof.
  induction 1 as [d|t e d d' _ IH H1 H2]; [constructor|].
  unfold trace_of. rewrite flat_map_app. cbn [flat_map]. rewrite app_nil_r.
  eapply days_upto_weaken; [|exact H2]. apply days_upto_same. by eapply days_upto_weaken.
Qed.

(** The pre-flight verdict is exactly "today's spending reached the cap".
    After any history of requests with a clock that does not go back, a request
    is refused with a 429 if and only if its gateway is known, its host has a
    provider, a rule not restricted to models governs the provider and path and
    carries a positive daily cap, and the tokens served today to that route on
    this gateway are at least the cap; the usage and cap reported are those.
    (The daily totals must fit an [int64].) *)
Theorem preflight_denies_iff (reg : Registry.registry) (history : list (day * event)) (last today : day)
    (routes : list routeRule) (eg : NamespacedName) (headers : gmap string string) (route : string) (used cap : Z) :
  in_order history last -> last <= today ->
  (forall k d, spent k d history < 2 ^ 63) ->
  fst (evaluateBudget reg today routes eg headers (serveAll reg history)) = Some (route, used, cap)
  <-> let system := Registry.SystemFor reg (fst (splitHostPort (default "" (headers !! ":authority")))) in
      exists rr tb, nn_name eg <> "" /\ system <> ""
        /\ match_ routes system (default "" (headers !! ":path")) "" = Some rr
        /\ tokenBudget rr = Some tb /\ MaxTokensPerDay tb = Some cap /\ 0 < cap
        /\ route = routeName rr
        /\ used = spent (mkBudgetKey (nn_namespace eg) (nn_name eg) (routeNamespace rr) (routeName rr)) today history
        /\ cap <= used.
Proof.
  intros Ht Hle Hb. rewrite serveAll_run.
  assert (Hc : forall k, counter (run (trace_of reg history)) k today = spent k today history).
  { intros k. rewrite <- (spent_charged reg). eapply run_agrees; [by apply in_order_days| |done].
    intros d. rewrite spent_charged. apply Hb. }
  cbn zeta. unfold evaluateBudget, dailyCap.
  destruct (String.eqb_spec (nn_name eg) "") as [|Hn]; [naive_solver|].
  destruct (String.eqb_spec (Registry.SystemFor reg (fst (splitHostPort (default "" (headers !! ":authority"))))) "");
    [naive_solver|].
  destruct (match_ _ _ _ _) as [rr|]; [|naive_solver].
  destruct (tokenBudget rr) as [tb|] eqn:Etb; [|naive_solver].
  destruct (MaxTokensPerDay tb) as [c|] eqn:Ec; [|naive_solver].
  destruct (c <=? 0) eqn:Ec0; bool_to_prop; [naive_solver lia|].
  unfold Allow, snapshot. rewrite (proj2 (Z.leb_gt c 0)) by lia. rewrite !counter_reap, Hc.
  unfold routeKey. destruct (_ <? c) eqn:Eu; bool_to_prop; cbn [fst]; naive_solver lia.
Qed.

(** ** A concrete ledger *)

Definition demoKey : budgetKey := mkBudgetKey "team" "eg" "team" "chat".
Definition demoTrace : list (day * op) :=
  [(1, OpAdd demoKey 70); (2, OpAdd demoKey 40); (2, OpAdd demoKey 30)].

Lemma demoTrace_days : days_upto demoTrace 2.
Proof.
  apply (days_snoc [(1, OpAdd demoKey 70); (2, OpAdd demoKey 40)] (2, OpAdd demoKey 30) 2 2); [|cbn; lia..].
  apply (days_snoc [(1, OpAdd demoKey 70)] (2, OpAdd demoKey 40) 1 2); [|cbn; lia..].
  apply (days_snoc [] (1, OpAdd demoKey 70) 1 1); [constructor|cbn; lia..].
Qed.

Lemma charge_bound key d e n : (forall k t, e.2 = OpAdd k t -> t <= n) -> 0 <= n -> charge key d e <= n.
Proof.
  intros H Hn. unfold charge. destruct e as [de [| |]]; cbn [fst snd] in *; try lia.
  destruct (_ && _)%bool; [eapply H; reflexivity|lia].
Qed.

Lemma demoTrace_bound key d : charged key d demoTrace < 2 ^ 63.
Proof.
  cbn [charged demoTrace].
  pose proof (charge_bound key d (1, OpAdd demoKey 70) 70 ltac:(intros k t [= _ <-]; lia) ltac:(lia)).
  pose proof (charge_bound key d (2, OpAdd demoKey 40) 70 ltac:(intros k t [= _ <-]; lia) ltac:(lia)).
  pose proof (charge_bound key d (2, OpAdd demoKey 30) 70 ltac:(intros k t [= _ <-]; lia) ltac:(lia)). lia.
Qed.

Lemma budget_refines_ledger_witness :
  fst (Allow 2 demoKey 70 (run demoTrace)) = false /\ fst (snapshot 2 demoKey (run demoTrace)) = 70.
Proof.
  destruct (budget_refines_ledger demoTrace 2 2 demoKey 70 demoTrace_days ltac:(lia)
              (demoTrace_bound demoKey)) as [H1 H2].
  rewrite H1, H2. split; vm_compute; reflexivity.
Defined.

Definition demoRules : list routeRule :=
  [mkRouteRule "team" "chat" 0 "openai" [] [] (Some (mkTokenBudget None (Some 70) None None)) []].
Definition demoHeaders : gmap string string :=
  {[":authority" := "api.openai.com:443"; ":path" := "/v1/chat/completions?x=1"]}.

Definition demoHistory : list (day * event) :=
  [(1, Charge (head demoRules) (mkNN "team" "eg") (mkUsage false (Some (40, 30))));
   (2, Charge (head demoRules) (mkNN "team" "eg") (mkUsage false (Some (30, 10))));
   (2, Charge (head demoRules) (mkNN "team" "eg") (mkUsage true (Some (900, 100))));
   (2, Charge (head demoRules) (mkNN "team" "eg") (mkUsage false (Some (20, 10))))].

Lemma demoHistory_order : in_order demoHistory 2.
Proof.
  eapply (order_snoc [_; _; _] _ 2 2); [|cbn; lia..]. eapply (order_snoc [_; _] _ 2 2); [|cbn; lia..].
  eapply (order_snoc [_] _ 1 2); [|cbn; lia..]. eapply (order_snoc [] _ 1 1); [constructor|cbn; lia..].
Qed.

Lemma demoHistory_bound k d : spent k d demoHistory < 2 ^ 63.
Proof. cbn -[Z.pow]. repeat case_bool_decide; vm_compute; reflexivity. Qed.

Lemma preflight_denies_iff_witness :
  fst (evaluateBudget Registry.builtinRegistry 2 demoRules (mkNN "team" "eg") demoHeaders
         (serveAll Registry.builtinRegistry demoHistory)) = Some ("chat", 70, 70).
Proof.
  apply (preflight_denies_iff Registry.builtinRegistry demoHistory 2 2 demoRules (mkNN "team" "eg")
           demoHeaders "chat" 70 70 demoHistory_order ltac:(lia) demoHistory_bound).
  do 2 eexists. split_and!; try (vm_compute; reflexivity); vm_compute; discriminate.
Defined.

End Budget.
