(* ===== verification/Daemon.v ===== *)
(** * Daemon supervision

    The supervising loop of one DaemonAgent
    ([src/internal/worker/agents/daemon_lifecycle.go], [run]): the restart
    policy, the attempt counter and the back-off.  The map of loops is in
    Supervisor.v.

    A loop iteration is a function of what its environment does (whether the
    gateway became reachable, how the sandbox ended, whether the context was
    cancelled); the sandbox manager and the API client are not modelled beyond
    that. *)

From Stdlib Require Import ZArith Lia Ascii String List.
From stdpp Require Import base strings list gmap pretty.
From S2P Require Import Prelude GoStrings ApiTypes.
Import GoStrings ApiTypes.

Module Daemon.

(** ** Restart decision and back-off *)

Definition second : Z := 1000000000.
Definition healthyRunThreshold : Z := 10 * second.
Definition maxBackoff : Z := 60 * second.

Inductive daemonDecision := DecisionStop | DecisionRestart.

(** [waitErr] is the error of waiting for the sandbox. *)
Definition decideRestart (policy : string) (exitCode : Z) (waitErr : option string)
    (nextAttempt : Z) (maxRestarts : option Z) : daemonDecision :=
  if match maxRestarts with Some m => (0 <? m) && (m <? nextAttempt) | None => false end
  then DecisionStop
  else
    let success := match waitErr with None => exitCode =? 0 | Some _ => false end in
    if String.eqb policy RestartPolicyAlways || String.eqb policy "" then DecisionRestart
    else if String.eqb policy RestartPolicyOnFailure then if success then DecisionStop else DecisionRestart
    else DecisionStop.

(** The sleep of [sleepBackoff] for exponent [exp]. *)
Definition backoffDelay (exp : Z) : Z := Z.min maxBackoff (second * 2 ^ exp).

(** ** One iteration of the supervisor *)

Inductive DaemonPhase := PhaseRunning | PhaseStopped | PhaseCrashLoopBackOff.

(** A status patch: the phase, whether [upSince] is set, and the restart count. *)
Record daemonStatusUpdate := mkUpdate { phase : DaemonPhase; upSince : bool; restartCount : Z }.

(** How [runSandboxOnce] ended: a create or start failure, or an exit with the
    result of the wait and the time it ran. *)
Inductive sandboxRun :=
| RunFailed
| Exited (exitCode : Z) (waitErr : option string) (ranFor : Z).

(** What the environment does during an iteration: the gateway never becomes
    reachable, or the sandbox runs.  [cancelled]: the context was cancelled
    during that; [slept]: the back-off sleep, if there is one, ran to its end. *)
Inductive iterationEnv :=
| EgressNotReady (cancelled slept : bool)
| Ran (r : sandboxRun) (cancelled slept : bool).

Inductive restartOutcome := OutcomeContinue | OutcomeStop.

Record loopState := mkLoop { attempt : Z; backoffExp : Z }.

Record iteration := mkIteration {
  it_outcome : restartOutcome;
  it_state : loopState;
  it_patches : list daemonStatusUpdate;
  it_sleep : option Z;
}.

Definition backoffThen (st : loopState) (slept : bool) (patches : list daemonStatusUpdate)
    (next : Z) : iteration :=
  let delay := backoffDelay (backoffExp st) in
  let exp := backoffExp st + 1 in
  if slept then mkIteration OutcomeContinue (mkLoop next exp) patches (Some delay)
  else mkIteration OutcomeStop (mkLoop (attempt st) exp) patches (Some delay).

Definition runIteration (s : DaemonAgentSpec) (st : loopState) (env : iterationEnv) : iteration :=
  match env with
  | EgressNotReady cancelled slept =>
      if cancelled then mkIteration OutcomeStop st [] None
      else backoffThen st slept [] (attempt st)
  | Ran r cancelled slept =>
      let running := match r with
                     | RunFailed => []
                     | Exited _ _ _ => [mkUpdate PhaseRunning true (attempt st)]
                     end in
      if cancelled then mkIteration OutcomeStop st running None
      else match r with
           | RunFailed => backoffThen st slept [] (attempt st)
           | Exited exitCode waitErr ranFor =>
               let nextAttempt := int32 (attempt st + 1) in
               match decideRestart (da_RestartPolicy s) exitCode None nextAttempt (da_MaxRestarts s) with
               | DecisionStop =>
                   mkIteration OutcomeStop st (running ++ [mkUpdate PhaseStopped false (attempt st)]) None
               | DecisionRestart =>
                   if healthyRunThreshold <=? ranFor
                   then mkIteration OutcomeContinue (mkLoop nextAttempt 0) running None
                   else backoffThen st slept
                          (running ++ [mkUpdate PhaseCrashLoopBackOff false (attempt st)]) nextAttempt
               end
           end
  end.

(** [run]: iterations until one stops or the environment's script ends. *)
Fixpoint runLoop (s : DaemonAgentSpec) (st : loopState) (envs : list iterationEnv) : list iteration :=
  match envs with
  | [] => []
  | e :: es =>
      let it := runIteration s st e in
      match it_outcome it with
      | OutcomeStop => [it]
      | OutcomeContinue => it :: runLoop s (it_state it) es
      end
  end.

Definition initialLoop : loopState := mkLoop 0 0.

(** The sandbox identifier of an attempt. *)
Definition sandboxID (ns name : string) (generation attempt : nat) : string :=
  String.concat "-" ["da"; ns; name; pretty generation; pretty attempt].

(** ** Restarts *)

Definition completedRun (e : iterationEnv) : bool :=
  match e with Ran (Exited _ _ _) false _ => true | _ => false end.

(** The completed runs of the iterations that were executed. *)
Fixpoint completedRuns (s : DaemonAgentSpec) (st : loopState) (envs : list iterationEnv) : Z :=
  match envs with
  | [] => 0
  | e :: es =>
      let it := runIteration s st e in
      (if completedRun e then 1 else 0)
      + match it_outcome it with
        | OutcomeStop => 0
        | OutcomeContinue => completedRuns s (it_state it) es
        end
  end.

Lemma backoffThen_continue st slept ps n :
  it_outcome (backoffThen st slept ps n) = OutcomeContinue ->
  it_state (backoffThen st slept ps n) = mkLoop n (backoffExp st + 1).
Proof. by destruct slept. Qed.

(** An iteration that continues leaves the attempt number, or adds one to it
    after a completed run the policy restarts. *)
Lemma runIteration_continue s st e :
  it_outcome (runIteration s st e) = OutcomeContinue ->
  (completedRun e = false /\ attempt (it_state (runIteration s st e)) = attempt st)
  \/ (completedRun e = true /\ attempt (it_state (runIteration s st e)) = int32 (attempt st + 1)
      /\ exists code, decideRestart (da_RestartPolicy s) code None (int32 (attempt st + 1)) (da_MaxRestarts s)
                      = DecisionRestart).
Proof.
  destruct e as [[] slept|[|code werr t] [] slept]; cbn [runIteration]; try done.
  - intros H. left. by rewrite (backoffThen_continue _ _ _ _ H).
  - intros H. left. by rewrite (backoffThen_continue _ _ _ _ H).
  - destruct (decideRestart _ _ _ _ _) eqn:E; [done|].
    destruct (healthyRunThreshold <=? t); intros H; right; (split; [done|]).
    + split; [done|]. eauto.
    + rewrite (backoffThen_continue _ _ _ _ H). split; [done|]. eauto.
Qed.

Lemma decideRestart_bound policy code werr n m :
  0 < m -> decideRestart policy code werr n (Some m) = DecisionRestart -> n <= m.
Proof.
  intros Hm. unfold decideRestart. destruct ((0 <? m) && (m <? n))%bool eqn:E; [done|]. intros _.
  apply andb_false_iff in E as [E|E]; bool_to_prop; lia.
Qed.

Lemma restarts_from s m envs : da_MaxRestarts s = Some m -> 0 < m < 2 ^ 31 - 1 ->
  forall st, 0 <= attempt st <= m -> completedRuns s st envs <= m + 1 - attempt st.
Proof.
  intros Hmax Hm. induction envs as [|e es IH]; intros st Hst; cbn [completedRuns]; [lia|].
  destruct (it_outcome (runIteration s st e)) eqn:Eo.
  - destruct (runIteration_continue s st e Eo) as [[-> Ha]|(-> & Ha & code & Hd)].
    + specialize (IH (it_state (runIteration s st e))). rewrite Ha in IH. lia.
    + rewrite Hmax in Hd. apply decideRestart_bound in Hd; [|lia]. rewrite int32_id in Ha, Hd by lia.
      specialize (IH (it_state (runIteration s st e))). rewrite Ha in IH. lia.
  - destruct (completedRun e); lia.
Qed.

Lemma decideRestart_never code werr n m : decideRestart RestartPolicyNever code werr n m = DecisionStop.
Proof. unfold decideRestart. by destruct (match m with Some _ => _ | None => _ end). Qed.

(** The restart policy bounds the runs of a daemon, whatever its environment
    does.  With [maxRestarts] a positive [m] (below the largest [int32]) the
    sandbox is run to completion at most [m + 1] times; with the policy [Never],
    at most once; and with [OnFailure] an exit with code zero is the last one. *)
Theorem restarts_bounded (s : DaemonAgentSpec) (envs : list iterationEnv) :
  (forall m, da_MaxRestarts s = Some m -> 0 < m < 2 ^ 31 - 1 ->
     completedRuns s initialLoop envs <= m + 1)
  /\ (da_RestartPolicy s = RestartPolicyNever -> completedRuns s initialLoop envs <= 1)
  /\ (da_RestartPolicy s = RestartPolicyOnFailure ->
      forall st werr t slept es,
        completedRuns s st (Ran (Exited 0 werr t) false slept :: es) = 1).
Proof.
  split_and!.
  - intros m Hmax Hm. pose proof (restarts_from s m envs Hmax Hm initialLoop). cbn in H. lia.
  - intros Hp. generalize initialLoop. induction envs as [|e es IH]; intros st; cbn [completedRuns]; [lia|].
    destruct (it_outcome (runIteration s st e)) eqn:Eo; [|destruct (completedRun e); lia].
    destruct (runIteration_continue s st e Eo) as [[-> _]|(_ & _ & code & Hd)]; [apply IH|].
    by rewrite Hp, decideRestart_never in Hd.
  - intros Hp st werr t slept es. cbn [completedRuns completedRun runIteration]. rewrite Hp.
    unfold decideRestart. destruct (match da_MaxRestarts s with Some _ => _ | None => _ end); done.
Qed.

(** ** Back-off *)

Lemma backoffDelay_bounds exp : 0 <= exp -> second <= backoffDelay exp <= maxBackoff.
Proof.
  intros H. unfold backoffDelay, maxBackoff, second. pose proof (Z.pow_pos_nonneg 2 exp ltac:(lia) H). lia.
Qed.

Lemma backoffDelay_mono e e' : 0 <= e <= e' -> backoffDelay e <= backoffDelay e'.
Proof.
  intros H. unfold backoffDelay, second. pose proof (Z.pow_le_mono_r 2 e e' ltac:(lia) ltac:(lia)). lia.
Qed.

Lemma backoffDelay_cap exp : 6 <= exp -> backoffDelay exp = maxBackoff.
Proof.
  intros H. unfold backoffDelay, maxBackoff, second.
  pose proof (Z.pow_le_mono_r 2 6 exp ltac:(lia) ltac:(lia)). lia.
Qed.

(** An environment in which nothing ever becomes healthy. *)
Definition unhealthy (e : iterationEnv) : Prop :=
  match e with Ran (Exited _ _ t) _ _ => t < healthyRunThreshold | _ => True end.

Lemma unhealthy_step s st e :
  unhealthy e -> it_outcome (runIteration s st e) = OutcomeContinue ->
  it_sleep (runIteration s st e) = Some (backoffDelay (backoffExp st))
  /\ backoffExp (it_state (runIteration s st e)) = backoffExp st + 1.
Proof.
  destruct e as [[] []|[|code werr t] [] []]; cbn [unhealthy runIteration]; intros Hu; try done.
  - destruct (decideRestart _ _ _ _ _); [done|].
    destruct (healthyRunThreshold <=? t) eqn:E; bool_to_prop; [lia|done].
  - destruct (decideRestart _ _ _ _ _); [done|].
    destruct (healthyRunThreshold <=? t) eqn:E; bool_to_prop; [lia|done].
Qed.

(** A daemon that keeps failing does not spin.  As long as the gateway is not
    ready, the sandbox does not start, or it exits before the healthy threshold,
    every iteration that is followed by another one sleeps first, the [i]-th of
    them for [min(60s, 2^i s)]; so a crash loop backs off to one attempt a minute
    and never below one a second. *)
Theorem crash_loop_backs_off (s : DaemonAgentSpec) (envs : list iterationEnv) (i : nat) (it : iteration) :
  Forall unhealthy envs ->
  runLoop s initialLoop envs !! i = Some it -> it_outcome it = OutcomeContinue ->
  it_sleep it = Some (Z.min maxBackoff (second * 2 ^ Z.of_nat i))
  /\ second <= Z.min maxBackoff (second * 2 ^ Z.of_nat i) <= maxBackoff
  /\ ((6 <= i)%nat -> it_sleep it = Some maxBackoff).
Proof.
  intros Hu Hi Ho.
  assert (Hgen : forall envs st i, Forall unhealthy envs -> 0 <= backoffExp st ->
            runLoop s st envs !! i = Some it ->
            it_sleep it = Some (backoffDelay (backoffExp st + Z.of_nat i))).
  { clear Hu Hi envs i. induction envs as [|e es IH]; intros st i Hu Hst Hi; cbn [runLoop] in Hi.
    { by rewrite lookup_nil in Hi. }
    apply Forall_cons in Hu as [He Hes].
    destruct (it_outcome (runIteration s st e)) eqn:Eo.
    - destruct (unhealthy_step s st e He Eo) as [Hs Hx]. destruct i as [|i]; cbn in Hi.
      + injection Hi as <-. rewrite Hs. by rewrite Z.add_0_r.
      + rewrite (IH (it_state (runIteration s st e)) i) by (done || lia). rewrite Hx. f_equal. f_equal. lia.
    - destruct i as [|i]; cbn in Hi; [injection Hi as <-; congruence|done]. }
  assert (Hsleep : it_sleep it = Some (backoffDelay (Z.of_nat i))) by (by apply (Hgen envs initialLoop i)).
  split; [done|]. split; [apply backoffDelay_bounds; lia|].
  intros H6. rewrite Hsleep, backoffDelay_cap by lia. done.
Qed.

(** The result of waiting for the sandbox is not used.  Two runs that differ
    only in the error of the wait end the same way, so under [OnFailure] a wait
    that failed and reported code zero stops the daemon as a clean exit does,
    although the decision function itself would restart it. *)
Theorem wait_error_ignored (s : DaemonAgentSpec) (st : loopState) (code t : Z) (err : string)
    (cancelled slept : bool) :
  runIteration s st (Ran (Exited code (Some err) t) cancelled slept)
  = runIteration s st (Ran (Exited code None t) cancelled slept)
  /\ (da_RestartPolicy s = RestartPolicyOnFailure -> da_MaxRestarts s = None ->
      it_outcome (runIteration s st (Ran (Exited 0 (Some err) t) false slept)) = OutcomeStop
      /\ decideRestart (da_RestartPolicy s) 0 (Some err) (int32 (attempt st + 1)) (da_MaxRestarts s)
         = DecisionRestart).
Proof.
  split; [done|]. intros Hp Hm. cbn [runIteration]. rewrite Hp, Hm. done.
Qed.

Definition demoDaemon : DaemonAgentSpec :=
  mkDaemonAgentSpec (mkAgentSandbox "nginx" [] []) "pool" RestartPolicyAlways None None [] "".

Lemma crash_loop_backs_off_witness :
  exists it, runLoop demoDaemon initialLoop (replicate 3 (Ran (Exited 1 None 0) false true)) !! 2%nat = Some it
             /\ it_sleep it = Some (4 * second).
Proof.
  eexists. split; [reflexivity|].
  apply (crash_loop_backs_off demoDaemon (replicate 3 (Ran (Exited 1 None 0) false true)) 2);
    [repeat constructor|reflexivity|reflexivity].
Defined.

End Daemon.
