(* ===== verification/Supervisor.v ===== *)
(** * The map of daemon loops and the watcher that drives it

    [DaemonLifecycle] of [src/internal/worker/agents/daemon_lifecycle.go] (the
    map of supervising loops) and [src/internal/worker/agents/watcher.go]
    (reconcile, election, heartbeat).  The state machine has one step per locked
    section or blocking wait: the reconciler is one thread (controller-runtime's
    default of a single worker), the stops of the garbage collector are
    goroutines of their own, and a loop may return at any time. *)

From Stdlib Require Import ZArith Lia Ascii String List.
From stdpp Require Import base strings list gmap.
From S2P Require Import Prelude GoStrings ApiTypes Daemon.
Import GoStrings ApiTypes Daemon.

Module Supervisor.

(** ** State *)

Record daemonLoop := mkDaemonLoop { loopId : nat; revName : string }.

(** Who took the loop off the map, and so cancels its context: nobody, a [Stop]
    of the reconciler, or one of the garbage collector or of [Shutdown]. *)
Inductive claimant := Unclaimed | ByReconciler | ByBackground.

(** A loop goroutine that has not returned. *)
Record goroutine := mkGo { go_key : NamespacedName; go_rev : string; claim : claimant }.

(** Where the reconciler is: before the locked section of [Stop], waiting for
    the loop [i] it cancelled, or in [Ensure] before the insertion.  [next] is
    the revision [Ensure] starts after the stop. *)
Inductive recState :=
| Idle
| Stopping (key : NamespacedName) (next : option string)
| Draining (i : nat) (key : NamespacedName) (next : option string)
| Inserting (key : NamespacedName) (rev : string).

(** [pending]: the keys of the [Stop] calls the garbage collector dispatched and
    that have not run yet. *)
Record supervisor := mkSupervisor {
  loops : gmap NamespacedName daemonLoop;
  routines : gmap nat goroutine;
  reconciler : recState;
  pending : list NamespacedName;
  nextId : nat;
}.

Definition NewDaemonLifecycle : supervisor := mkSupervisor ∅ ∅ Idle [] 0.

Definition setRec (r : recState) (m : supervisor) : supervisor :=
  mkSupervisor (loops m) (routines m) r (pending m) (nextId m).

(** ** Operations *)

Definition claimLoop (c : claimant) (i : nat) (rs : gmap nat goroutine) : gmap nat goroutine :=
  alter (fun g => mkGo (go_key g) (go_rev g) c) i rs.

(** The locked section of [Stop], with the loop it goes on to cancel. *)
Definition detach (c : claimant) (key : NamespacedName) (m : supervisor) : supervisor * option nat :=
  match loops m !! key with
  | None => (m, None)
  | Some l => (mkSupervisor (delete key (loops m)) (claimLoop c (loopId l) (routines m))
                 (reconciler m) (pending m) (nextId m), Some (loopId l))
  end.

Definition afterStop (key : NamespacedName) (next : option string) : recState :=
  match next with None => Idle | Some rev => Inserting key rev end.

(** The reconciler's [Stop]: detach, then wait unless there was no loop. *)
Definition Stop (key : NamespacedName) (next : option string) (m : supervisor) : supervisor :=
  let '(m', i) := detach ByReconciler key m in
  setRec (match i with None => afterStop key next | Some i => Draining i key next end) m'.

(** [Ensure] up to the point where it stops the old loop or inserts the new. *)
Definition Ensure (key : NamespacedName) (rev : string) (m : supervisor) : supervisor :=
  match loops m !! key with
  | Some l => if String.eqb (revName l) rev then m else setRec (Stopping key (Some rev)) m
  | None => setRec (Inserting key rev) m
  end.

Definition startLoop (key : NamespacedName) (rev : string) (m : supervisor) : supervisor :=
  mkSupervisor (<[key := mkDaemonLoop (nextId m) rev]> (loops m))
    (<[nextId m := mkGo key rev Unclaimed]> (routines m)) Idle (pending m) (S (nextId m)).

(** The revision a loop runs. *)
Definition revKey (kv : NamespacedName * daemonLoop) : NamespacedName := mkNN (nn_namespace kv.1) (revName kv.2).

(** The agents whose loop runs the revision; [StopByRevision] takes the first
    one the iteration over the map meets. *)
Definition StopByRevision (ns rev : string) (m : supervisor) : list NamespacedName :=
  map fst (List.filter (fun kv => bool_decide (revKey kv = mkNN ns rev)) (map_to_list (loops m))).

Definition staleKeys (live : gset NamespacedName) (m : supervisor) : list NamespacedName :=
  map fst (List.filter (fun kv => negb (bool_decide (revKey kv ∈ live))) (map_to_list (loops m))).

(** [GCMissing] dispatches the stops; each runs later, in its own goroutine. *)
Definition GCMissing (live : gset NamespacedName) (m : supervisor) : supervisor :=
  mkSupervisor (loops m) (routines m) (reconciler m) (pending m ++ staleKeys live m) (nextId m).

Definition dropPending (ps : list NamespacedName) (m : supervisor) : supervisor :=
  mkSupervisor (loops m) (routines m) (reconciler m) ps (nextId m).

(** The locked section of [Shutdown]: every loop is taken off the map. *)
Definition Shutdown (m : supervisor) : supervisor :=
  mkSupervisor ∅
    (foldr (fun kv rs => claimLoop ByBackground (loopId kv.2) rs) (routines m) (map_to_list (loops m)))
    (reconciler m) (pending m) (nextId m).

(** ** The watcher *)

Definition heartbeatInterval : Z := 30 * second.

Record WorkerSandboxStatus := mkWorker { PodName : string; ImagePulled : bool; WarmCount : Z; LastHeartbeat : Z }.

Definition electStep (podName : string) (cutoff : Z) (leader : string) (ws : WorkerSandboxStatus) : string :=
  if String.eqb (PodName ws) podName then leader
  else if LastHeartbeat ws <? cutoff then leader
  else if String.ltb (PodName ws) leader then PodName ws else leader.

Definition electedFor (podName : string) (now : Z) (workers : list WorkerSandboxStatus) : bool :=
  let cutoff := now - 2 * heartbeatInterval in
  String.eqb (fold_left (electStep podName cutoff) workers podName) podName.

(** The worker's own entry refreshed, or appended when it has none. *)
Fixpoint upsertWorker (w : WorkerSandboxStatus) (workers : list WorkerSandboxStatus) : list WorkerSandboxStatus :=
  match workers with
  | [] => [w]
  | w' :: ws => if String.eqb (PodName w') (PodName w) then w :: ws else w' :: upsertWorker w ws
  end.

(** The heartbeat of [HeartbeatLoop]: the worker's own first entry, if it has one,
    gets the current time. *)
Fixpoint refreshHeartbeat (podName : string) (now : Z) (workers : list WorkerSandboxStatus) : list WorkerSandboxStatus :=
  match workers with
  | [] => []
  | w :: ws =>
      if String.eqb (PodName w) podName then mkWorker (PodName w) (ImagePulled w) (WarmCount w) now :: ws
      else w :: refreshHeartbeat podName now ws
  end.

(** The workers and the ready count written back. *)
Definition updateWorkerStatus (podName : string) (now : Z) (imagePulled : bool) (warmCount : Z)
    (workers : list WorkerSandboxStatus) : list WorkerSandboxStatus * Z :=
  let ws := upsertWorker (mkWorker podName imagePulled warmCount now) workers in
  (ws, Z.of_nat (length (List.filter ImagePulled ws))).

(** An AgentSandboxRevision as the watcher sees it: its key, the pool and agent
    labels, whether the kind label says DaemonAgent, and its workers. *)
Record Revision := mkRevision {
  rev_key : NamespacedName; rev_pool : string; rev_agent : string; rev_daemon : bool;
  rev_workers : list WorkerSandboxStatus;
}.

(** The read of the parent DaemonAgent: its [LatestCreatedRevisionName]. *)
Inductive agentRead := AgentFound (latestCreated : string) | AgentNotFound | AgentError.

(** What the watcher asks of the supervisor. *)
Inductive request := ReqNone | ReqStop (key : NamespacedName) | ReqEnsure (key : NamespacedName) (rev : string)
                   | ReqStopByRevision (ns rev : string).

(** [None]: the error that requeues the reconcile. *)
Definition handleDaemon (podName : string) (now : Z) (rev : Revision)
    (read : agentRead) : option request :=
  if String.eqb (rev_agent rev) "" then Some ReqNone
  else
    let key := mkNN (nn_namespace (rev_key rev)) (rev_agent rev) in
    match read with
    | AgentNotFound => Some (ReqStop key)
    | AgentError => None
    | AgentFound latest =>
        if negb (String.eqb latest "") && negb (String.eqb latest (nn_name (rev_key rev))) then Some ReqNone
        else if electedFor podName now (rev_workers rev) then Some (ReqEnsure key (nn_name (rev_key rev)))
        else Some (ReqStop key)
    end.

(** The reconcile of a revision: [get] is the read of the revision, [pulled] and
    [warm] what the sandbox manager answers, [written] whether the status update
    is accepted.  The two clock reads of a reconcile are taken as one. *)
Inductive revisionRead := RevFound (rev : Revision) | RevNotFound | RevError.

Definition reconcile (podName : string) (now : Z) (req : NamespacedName) (get : revisionRead)
    (pulled : bool) (warm : Z) (written : bool) (read : agentRead) : option request :=
  match get with
  | RevNotFound => Some (ReqStopByRevision (nn_namespace req) (nn_name req))
  | RevError => None
  | RevFound rev =>
      let workers := (updateWorkerStatus podName now pulled warm (rev_workers rev)).1 in
      if negb written then None
      else if rev_daemon rev
      then handleDaemon podName now
             (mkRevision (rev_key rev) (rev_pool rev) (rev_agent rev) (rev_daemon rev) workers) read
      else Some ReqNone
  end.

(** The predicate of [SetupWithManager]: the pool label only. *)
Definition poolFilter (poolName : string) (rev : Revision) : bool := String.eqb (rev_pool rev) poolName.

(** The revisions [HeartbeatLoop] lists: those of the worker's own namespace. *)
Definition heartbeatLive (namespace poolName : string) (revs : list Revision) : gset NamespacedName :=
  list_to_set (map rev_key
    (List.filter (fun r => String.eqb (nn_namespace (rev_key r)) namespace && poolFilter poolName r) revs)).

(** ** Steps *)

(** How a request starts; only an idle reconciler takes one. *)
Inductive accepts (m : supervisor) : request -> supervisor -> Prop :=
| AcceptNone : accepts m ReqNone m
| AcceptStop key : accepts m (ReqStop key) (setRec (Stopping key None) m)
| AcceptEnsure key rev : accepts m (ReqEnsure key rev) (Ensure key rev m)
| AcceptByRevision ns rev key : In key (StopByRevision ns rev m) ->
    accepts m (ReqStopByRevision ns rev) (setRec (Stopping key None) m)
| AcceptByRevisionNone ns rev : StopByRevision ns rev m = [] -> accepts m (ReqStopByRevision ns rev) m.

Inductive sup_step : supervisor -> supervisor -> Prop :=
| StepRequest r m m' : reconciler m = Idle -> accepts m r m' -> sup_step m m'
| StepStop key next m : reconciler m = Stopping key next -> sup_step m (Stop key next m)
| StepDrained i key next m : reconciler m = Draining i key next -> routines m !! i = None ->
    sup_step m (setRec (afterStop key next) m)
| StepInsert key rev m : reconciler m = Inserting key rev -> sup_step m (startLoop key rev m)
| StepGC live m : sup_step m (GCMissing live m)
| StepPending key ps qs m : pending m = ps ++ key :: qs ->
    sup_step m (detach ByBackground key (dropPending (ps ++ qs) m)).1
| StepExit i m : sup_step m (mkSupervisor (loops m) (delete i (routines m)) (reconciler m) (pending m) (nextId m))
| StepShutdown m : sup_step m (Shutdown m).

Inductive reachable : supervisor -> Prop :=
| reach_init : reachable NewDaemonLifecycle
| reach_step m m' : reachable m -> sup_step m m' -> reachable m'.


(** ** Invariant *)

(** The agent whose slot the reconciler holds free. *)
Definition heldFree (r : recState) : option NamespacedName :=
  match r with Draining _ key _ | Inserting key _ => Some key | _ => None end.

Record sup_inv (m : supervisor) : Prop := {
  inv_registered : forall i g, routines m !! i = Some g -> claim g = Unclaimed ->
    loops m !! go_key g = Some (mkDaemonLoop i (go_rev g));
  inv_draining : forall i g, routines m !! i = Some g -> claim g = ByReconciler ->
    exists next, reconciler m = Draining i (go_key g) next;
  inv_owner : forall key l g, loops m !! key = Some l -> routines m !! loopId l = Some g -> go_key g = key;
  inv_free : forall key, heldFree (reconciler m) = Some key -> loops m !! key = None;
  inv_fresh_loop : forall key l, loops m !! key = Some l -> (loopId l < nextId m)%nat;
  inv_fresh_go : forall i g, routines m !! i = Some g -> (i < nextId m)%nat;
}.

Lemma inv_new : sup_inv NewDaemonLifecycle.
Proof. split; cbn; intros *; rewrite ?lookup_empty; done. Qed.

Lemma inv_dropPending ps m : sup_inv m -> sup_inv (dropPending ps m).
Proof. by intros []; split. Qed.

(** The reconciler may move to a place that holds no unfinished drain. *)
Lemma inv_setRec r m : sup_inv m ->
  (forall i key next, reconciler m = Draining i key next -> routines m !! i = None) ->
  (forall key, heldFree r = Some key -> loops m !! key = None) ->
  sup_inv (setRec r m).
Proof.
  intros [H1 H2 H3 H4 H5 H6] Hd Hf. split; cbn [loops routines reconciler nextId setRec]; try done.
  intros i g Hg Hc. destruct (H2 i g Hg Hc) as [next E]. apply Hd in E. congruence.
Qed.

Lemma claimLoop_lookup c i rs j g :
  claimLoop c i rs !! j = Some g ->
  exists g0, rs !! j = Some g0 /\ go_key g = go_key g0 /\ go_rev g = go_rev g0
             /\ claim g = if decide (j = i) then c else claim g0.
Proof.
  unfold claimLoop. rewrite lookup_alter. case_decide as E.
  - subst. destruct (rs !! j) as [g0|]; [|done]. intros [= <-]. exists g0. by rewrite decide_True.
  - intros Hg. exists g. by rewrite decide_False.
Qed.

Lemma claimed_by c g g0 (j i : nat) :
  claim g = (if decide (j = i) then c else claim g0) -> claim g <> c -> j <> i /\ claim g = claim g0.
Proof. case_decide; [congruence|done]. Qed.

(** Detaching a loop keeps the invariant for any reconciler state that accounts
    for a drain of it. *)
Lemma detach_inv c key l m r : sup_inv m -> loops m !! key = Some l -> c <> Unclaimed ->
  (c = ByReconciler -> (exists next, r = Draining (loopId l) key next)
                       /\ forall i k next, reconciler m <> Draining i k next) ->
  (c = ByBackground -> r = reconciler m) ->
  sup_inv (mkSupervisor (delete key (loops m)) (claimLoop c (loopId l) (routines m)) r (pending m) (nextId m)).
Proof.
  intros [H1 H2 H3 H4 H5 H6] El Hc Hrec Hbg. split; cbn [loops routines reconciler nextId].
  - intros i g (g0 & Hg & -> & -> & E)%claimLoop_lookup Hu.
    apply claimed_by in E as [Hi E]; [|congruence]. specialize (H1 i g0 Hg ltac:(congruence)).
    rewrite lookup_delete_ne; [done|]. intros ->. rewrite El in H1. by injection H1 as ->.
  - intros i g (g0 & Hg & -> & _ & E)%claimLoop_lookup Hr. destruct c; [done| |].
    + destruct (Hrec eq_refl) as [[next ->] Hno]. case_decide as Ei.
      * subst i. exists next. by rewrite (H3 key l g0 El Hg).
      * destruct (H2 i g0 Hg) as [next' E']; [congruence|]. by apply Hno in E'.
    + rewrite (Hbg eq_refl). apply claimed_by in E as [_ E]; [|congruence]. apply (H2 i g0 Hg). congruence.
  - intros k l' g [Hk Hl]%lookup_delete_Some (g0 & Hg & -> & _)%claimLoop_lookup. by apply (H3 k l').
  - intros k Hk. destruct (decide (k = key)) as [->|Hne]; [apply lookup_delete_eq|].
    rewrite lookup_delete_ne by done. destruct c; [done| |].
    + destruct (Hrec eq_refl) as [[next ->] _]. cbn in Hk. congruence.
    + rewrite (Hbg eq_refl) in Hk. by apply H4.
  - intros k l' [_ Hl]%lookup_delete_Some. by apply (H5 k).
  - intros i g (g0 & Hg & _)%claimLoop_lookup. by apply (H6 i g0).
Qed.

Lemma Stop_inv key next m : sup_inv m -> reconciler m = Stopping key next -> sup_inv (Stop key next m).
Proof.
  intros Hm Er. unfold Stop, detach. destruct (loops m !! key) as [l|] eqn:E.
  - apply (detach_inv ByReconciler key l m); try done. intros _. split; [eauto|]. intros *. by rewrite Er.
  - apply inv_setRec; [done|intros *; by rewrite Er|]. destruct next; cbn; [|done]. by intros k [= <-].
Qed.

Lemma background_inv key m : sup_inv m -> sup_inv (detach ByBackground key m).1.
Proof.
  intros Hm. unfold detach. destruct (loops m !! key) as [l|] eqn:E; [|done].
  by apply (detach_inv ByBackground key l m).
Qed.

Lemma startLoop_inv key rev m : sup_inv m -> reconciler m = Inserting key rev -> sup_inv (startLoop key rev m).
Proof.
  intros [H1 H2 H3 H4 H5 H6] Er. assert (E : loops m !! key = None) by (apply H4; by rewrite Er).
  split; cbn [loops routines reconciler nextId startLoop].
  - intros i g [[<- <-]|[Hi Hg]]%lookup_insert_Some Hc; [apply lookup_insert_eq|].
    specialize (H1 i g Hg Hc). rewrite lookup_insert_ne; [done|]. congruence.
  - intros i g [[<- <-]|[Hi Hg]]%lookup_insert_Some Hc; [done|]. destruct (H2 i g Hg Hc). congruence.
  - intros k l g [[<- <-]|[Hk Hl]]%lookup_insert_Some; cbn [loopId].
    + rewrite lookup_insert_eq. by intros [= <-].
    + rewrite lookup_insert_ne; [by apply H3|]. apply H5 in Hl. lia.
  - done.
  - intros k l [[_ <-]|[_ Hl]]%lookup_insert_Some; cbn [loopId]; [lia|]. apply H5 in Hl. lia.
  - intros i g [[<- _]|[_ Hg]]%lookup_insert_Some; [lia|]. apply H6 in Hg. lia.
Qed.

Lemma claimAll_lookup (ls : list (NamespacedName * daemonLoop)) rs i g :
  foldr (fun kv rs => claimLoop ByBackground (loopId kv.2) rs) rs ls !! i = Some g ->
  exists g0, rs !! i = Some g0 /\ go_key g = go_key g0
             /\ (claim g = ByBackground \/ (claim g = claim g0 /\ forall kv, In kv ls -> loopId kv.2 <> i)).
Proof.
  induction ls as [|kv ls IH] in g |- *; cbn [foldr]; [intros Hg; exists g; naive_solver|].
  intros (g1 & Hg1 & Ek & _ & E)%claimLoop_lookup. destruct (IH g1 Hg1) as (g0 & Hg0 & Ek' & Hc).
  exists g0. split; [done|]. split; [congruence|]. case_decide as Ei; [by left|].
  destruct Hc as [Hc|[Hc Hn]]; [left; congruence|]. right. split; [congruence|].
  intros kv' [<-|Hin]; [congruence|by apply Hn].
Qed.

(** After the locked section of [Shutdown] only loops claimed by someone run. *)
Lemma Shutdown_claims m i g : sup_inv m -> routines (Shutdown m) !! i = Some g -> claim g <> Unclaimed.
Proof.
  intros [H1 _ _ _ _ _] (g0 & Hg & _ & [Hc|[Hc Hn]])%claimAll_lookup; [congruence|].
  intros Hu. specialize (H1 i g0 Hg ltac:(congruence)).
  apply (Hn (go_key g0, mkDaemonLoop i (go_rev g0))); [|done]. by apply list_elem_of_In, elem_of_map_to_list.
Qed.

Lemma Shutdown_inv m : sup_inv m -> sup_inv (Shutdown m).
Proof.
  intros Hm. pose proof Hm as [H1 H2 H3 H4 H5 H6]. split.
  - intros i g Hg Hc. by eapply Shutdown_claims in Hg.
  - cbn. intros i g (g0 & Hg & -> & [Hc|[Hc _]])%claimAll_lookup Hr; [congruence|]. apply (H2 i g0 Hg). congruence.
  - cbn. intros *. by rewrite lookup_empty.
  - cbn. intros *. by rewrite lookup_empty.
  - cbn. intros *. by rewrite lookup_empty.
  - cbn. intros i g (g0 & Hg & _)%claimAll_lookup. by apply (H6 i g0).
Qed.

Lemma accepts_inv m r m' : accepts m r m' -> reconciler m = Idle -> sup_inv m -> sup_inv m'.
Proof.
  intros Ha Er Hm. destruct Ha as [|key|key rev|ns rev key _|ns rev _]; try done.
  - apply inv_setRec; [done|intros *; by rewrite Er|done].
  - unfold Ensure. destruct (loops m !! key) as [l|] eqn:E; [destruct (String.eqb _ _); [done|]|];
      (apply inv_setRec; [done|intros *; by rewrite Er|]); [done|]. by intros k [= <-].
  - apply inv_setRec; [done|intros *; by rewrite Er|done].
Qed.

Lemma sup_step_inv m m' : sup_step m m' -> sup_inv m -> sup_inv m'.
Proof.
  intros Hs Hm.
  destruct Hs as [r m m' Er Ha|key next m Er|i key next m Er Ei|key rev m Er|live m|key ps qs m _|i m|m].
  - by eapply accepts_inv.
  - by apply Stop_inv.
  - apply inv_setRec; [done|congruence|]. intros k Hk. apply (inv_free m Hm). rewrite Er. by destruct next.
  - by apply startLoop_inv.
  - destruct Hm; by split.
  - by apply background_inv, inv_dropPending.
  - destruct Hm as [H1 H2 H3 H4 H5 H6]. split; cbn [loops routines reconciler nextId]; try done.
    + intros j g [_ Hg]%lookup_delete_Some. by apply H1.
    + intros j g [_ Hg]%lookup_delete_Some. by apply H2.
    + intros k l g Hl [_ Hg]%lookup_delete_Some. by apply (H3 k l).
    + intros j g [_ Hg]%lookup_delete_Some. by apply (H6 j g).
  - by apply Shutdown_inv.
Qed.

Lemma supervised_inv m : reachable m -> sup_inv m.
Proof. induction 1 as [|m m' _ IH Hs]; [apply inv_new|]. by eapply sup_step_inv. Qed.

(** The supervisor runs one loop per daemon.  Under every interleaving of
    reconciles, garbage collections, delayed stops, loop exits and shutdowns: a
    loop nobody has stopped is the one registered for its agent; two loops of one
    agent overlap only while a stop of the garbage collector or of the shutdown is
    taking one of them down, never because of a rollover or of two reconciles;
    and a shutdown leaves no loop that nobody has stopped. *)
Theorem one_loop_per_daemon (m : supervisor) :
  reachable m ->
  (forall i g, routines m !! i = Some g -> claim g = Unclaimed ->
     loops m !! go_key g = Some (mkDaemonLoop i (go_rev g)))
  /\ (forall i j g g', routines m !! i = Some g -> routines m !! j = Some g' -> i <> j ->
        go_key g = go_key g' -> claim g = ByBackground \/ claim g' = ByBackground)
  /\ (forall i g, routines (Shutdown m) !! i = Some g -> claim g <> Unclaimed).
Proof.
  intros Hm%supervised_inv. split_and!; [apply (inv_registered m Hm)| |intros i g; by apply Shutdown_claims].
  intros i j g g' Hg Hg' Hij Ek. pose proof Hm as [H1 H2 _ H4 _ _].
  assert (Hheld : forall i g, routines m !! i = Some g -> claim g = ByReconciler -> loops m !! go_key g = None).
  { intros i0 g0 Hg0 Hc. destruct (H2 i0 g0 Hg0 Hc) as [next E]. apply H4. by rewrite E. }
  destruct (claim g) eqn:Ec; [| |by left]; destruct (claim g') eqn:Ec'; try by right.
  - pose proof (H1 i g Hg Ec) as L1. pose proof (H1 j g' Hg' Ec') as L2. congruence.
  - pose proof (H1 i g Hg Ec) as L1. pose proof (Hheld j g' Hg' Ec'). congruence.
  - pose proof (H1 j g' Hg' Ec') as L1. pose proof (Hheld i g Hg Ec). congruence.
  - destruct (H2 i g Hg Ec) as [n1 E1], (H2 j g' Hg' Ec') as [n2 E2]. congruence.
Qed.

Definition agentA : NamespacedName := mkNN "team" "bot".

(** States along one history: the loop of a first revision, that loop collected,
    the agent rolled to a second revision before or after the delayed stop. *)
Definition started : supervisor := startLoop agentA "rev1" (Ensure agentA "rev1" NewDaemonLifecycle).
Definition collected : supervisor := GCMissing ∅ started.
Definition stopped : supervisor := (detach ByBackground agentA (dropPending [] collected)).1.

Lemma started_reachable : reachable started.
Proof.
  apply (reach_step (Ensure agentA "rev1" NewDaemonLifecycle)).
  - apply (reach_step NewDaemonLifecycle); [constructor|]. eapply StepRequest; [done|constructor].
  - by apply StepInsert.
Qed.

Lemma collected_reachable : reachable collected.
Proof. apply (reach_step started); [apply started_reachable|constructor]. Qed.

Lemma one_loop_per_daemon_witness :
  routines started !! 0%nat = Some (mkGo agentA "rev1" Unclaimed)
  /\ loops started !! agentA = Some (mkDaemonLoop 0 "rev1").
Proof.
  split; [reflexivity|].
  apply (proj1 (one_loop_per_daemon started started_reachable) 0%nat (mkGo agentA "rev1" Unclaimed)); reflexivity.
Defined.

(** ** Garbage collection *)

(** A stop the garbage collector dispatches is addressed by agent, not by
    loop.  When an agent rolls to a new revision after its old one was found
    missing and before the dispatched stop runs, the stop takes down the loop of
    the new, live revision. *)
Theorem stale_stop_kills_new_loop :
  exists m m', reachable m /\ loops m !! agentA = Some (mkDaemonLoop 1 "rev2")
    /\ routines m = {[1%nat := mkGo agentA "rev2" Unclaimed]}
    /\ sup_step m m' /\ loops m' !! agentA = None
    /\ routines m' = {[1%nat := mkGo agentA "rev2" ByBackground]}.
Proof.
  pose (m1 := Ensure agentA "rev2" collected). pose (m2 := Stop agentA (Some "rev2") m1).
  pose (m3 := mkSupervisor (loops m2) (delete 0%nat (routines m2)) (reconciler m2) (pending m2) (nextId m2)).
  pose (m4 := setRec (Inserting agentA "rev2") m3). pose (m5 := startLoop agentA "rev2" m4).
  exists m5, (detach ByBackground agentA (dropPending ([] ++ []) m5)).1. split_and!; try (vm_compute; reflexivity).
  - apply (reach_step m4); [|by apply StepInsert]. apply (reach_step m3).
    + apply (reach_step m2); [|constructor]. apply (reach_step m1); [|by apply StepStop].
      apply (reach_step collected); [apply collected_reachable|]. eapply StepRequest; [done|constructor].
    + by apply (StepDrained 0 agentA (Some "rev2")).
  - by apply (StepPending agentA [] []).
Qed.

(** The drain of a collected loop does not hold off the next one.  A stop of the
    garbage collector removes the map entry before it waits, so a reconcile that
    comes while the old loop is still unwinding starts the next loop beside it: the
    two run at once for one agent. *)
Theorem collected_loop_overlaps :
  exists m, reachable m
    /\ routines m !! 0%nat = Some (mkGo agentA "rev1" ByBackground)
    /\ routines m !! 1%nat = Some (mkGo agentA "rev2" Unclaimed).
Proof.
  exists (startLoop agentA "rev2" (Ensure agentA "rev2" stopped)). split_and!; try (vm_compute; reflexivity).
  apply (reach_step (Ensure agentA "rev2" stopped)); [|by apply StepInsert].
  apply (reach_step stopped); [|eapply StepRequest; [done|constructor]].
  apply (reach_step collected); [apply collected_reachable|]. by apply (StepPending agentA [] []).
Qed.

Lemma staleKeys_In live m key l :
  loops m !! key = Some l -> mkNN (nn_namespace key) (revName l) ∉ live -> In key (staleKeys live m).
Proof.
  intros Hk Hl. unfold staleKeys. apply in_map_iff. exists (key, l). split; [done|].
  apply filter_In. split; [by apply list_elem_of_In, elem_of_map_to_list|].
  unfold revKey. cbn. by rewrite bool_decide_eq_false_2.
Qed.

(** The watcher and the heartbeat disagree about namespaces.  The watcher
    accepts every revision that carries its pool's name, from any namespace; the
    heartbeat lists only its own namespace; so the registered loop of an accepted
    revision of another namespace is marked for teardown at every heartbeat,
    although the revision exists. *)
Theorem foreign_revision_collected (namespace poolName : string) (revs : list Revision)
    (rev : Revision) (m : supervisor) (l : daemonLoop) :
  In rev revs -> poolFilter poolName rev = true -> nn_namespace (rev_key rev) <> namespace ->
  loops m !! mkNN (nn_namespace (rev_key rev)) (rev_agent rev) = Some l ->
  revName l = nn_name (rev_key rev) ->
  In (mkNN (nn_namespace (rev_key rev)) (rev_agent rev))
     (pending (GCMissing (heartbeatLive namespace poolName revs) m)).
Proof.
  intros Hin Hp Hns Hl Hr. unfold GCMissing. cbn [pending]. apply in_or_app. right.
  eapply staleKeys_In; [exact Hl|]. rewrite Hr. cbn.
  unfold heartbeatLive. rewrite elem_of_list_to_set, list_elem_of_In, in_map_iff.
  intros (r & Hk & [_ Hf]%filter_In). bool_to_prop. rewrite Hk in *. cbn in *. done.
Qed.

Lemma foreign_revision_collected_witness :
  In agentA (pending (GCMissing (heartbeatLive "clrk-system" "default"
                                   [mkRevision (mkNN "team" "rev1") "default" "bot" true []]) started)).
Proof.
  apply (foreign_revision_collected "clrk-system" "default"
           [mkRevision (mkNN "team" "rev1") "default" "bot" true []]
           (mkRevision (mkNN "team" "rev1") "default" "bot" true []) started (mkDaemonLoop 0 "rev1"));
    [by left|reflexivity|done|reflexivity|reflexivity].
Defined.

(** ** Election *)

Definition fresh (now : Z) (w : WorkerSandboxStatus) : Prop := now - 2 * heartbeatInterval <= LastHeartbeat w.

Lemma electStep_le pod cutoff leader w : String.leb (electStep pod cutoff leader w) leader = true.
Proof.
  unfold electStep. destruct (String.eqb _ _); [apply leb_refl|]. destruct (_ <? _)%Z; [apply leb_refl|].
  destruct (String.ltb _ _) eqn:E; [|apply leb_refl].
  rewrite ltb_leb in E. bool_to_prop. destruct (String.leb_total (PodName w) leader); congruence.
Qed.

(** The fold ends at the least of its start and the names of the fresh others. *)
Lemma elect_fold pod cutoff ws leader :
  let r := fold_left (electStep pod cutoff) ws leader in
  String.leb r leader = true
  /\ (forall w, In w ws -> PodName w <> pod -> cutoff <= LastHeartbeat w -> String.leb r (PodName w) = true)
  /\ (r = leader \/ exists w, In w ws /\ cutoff <= LastHeartbeat w /\ r = PodName w).
Proof.
  induction ws as [|w ws IH] in leader |- *; cbn zeta; [split_and!; [apply leb_refl|done|by left]|].
  cbn [fold_left]. destruct (IH (electStep pod cutoff leader w)) as (Hle & Hall & Hex). split_and!.
  - eapply leb_trans; [exact Hle|]. apply electStep_le.
  - intros w' [->|Hin] Hp Hf; [|by apply Hall]. eapply leb_trans; [exact Hle|].
    unfold electStep. rewrite (proj2 (String.eqb_neq _ _) Hp), (proj2 (Z.ltb_ge _ _) Hf).
    destruct (String.ltb _ _) eqn:E; [apply leb_refl|]. rewrite ltb_leb in E. by bool_to_prop.
  - destruct Hex as [->|(w' & Hw' & Hf & ->)]; [|right; exists w'; naive_solver].
    unfold electStep. destruct (String.eqb _ _); [by left|]. destruct (_ <? _)%Z eqn:E; [by left|].
    destruct (String.ltb _ _); [|by left]. right. exists w. bool_to_prop. naive_solver.
Qed.

Lemma electedFor_spec pod now ws :
  electedFor pod now ws = true
  <-> forall w, In w ws -> fresh now w -> String.leb pod (PodName w) = true.
Proof.
  unfold electedFor, fresh. pose proof (elect_fold pod (now - 2 * heartbeatInterval) ws pod) as (Hle & Hall & Hex).
  rewrite String.eqb_eq. split.
  - intros E w Hin Hf. destruct (decide (PodName w = pod)) as [->|Hne]; [apply leb_refl|].
    rewrite <- E. by apply Hall.
  - intros H. destruct Hex as [->|(w & Hin & Hf & E)]; [done|]. apply leb_antisym_eq; [done|].
    rewrite E. by apply H.
Qed.

Lemma upsertWorker_In w ws : In w (upsertWorker w ws).
Proof. induction ws as [|w' ws IH]; cbn; [by left|]. destruct (String.eqb _ _); [by left|by right]. Qed.

(** A worker that has an entry stays in the election at each heartbeat. *)
Lemma refreshHeartbeat_fresh podName now ws :
  In podName (map PodName ws) ->
  exists w, In w (refreshHeartbeat podName now ws) /\ PodName w = podName /\ fresh now w.
Proof.
  induction ws as [|w ws IH]; [done|]. cbn. intros Hin.
  destruct (String.eqb (PodName w) podName) eqn:E.
  - apply String.eqb_eq in E. eexists. split; [by left|]. split; [done|].
    unfold fresh, heartbeatInterval, second. cbn. lia.
  - apply String.eqb_neq in E. destruct Hin as [?|Hin]; [done|].
    destruct (IH Hin) as (w' & ? & ?). exists w'. split; [by right|done].
Qed.

(** Some entry of a non-empty list has the least name. *)
Lemma least_worker (ws : list WorkerSandboxStatus) (P : WorkerSandboxStatus -> Prop) `{!forall w, Decision (P w)} w0 :
  In w0 ws -> P w0 -> exists w, In w ws /\ P w /\ forall w', In w' ws -> P w' -> String.leb (PodName w) (PodName w') = true.
Proof.
  induction ws as [|x ws IH] in w0 |- *; [done|]. intros Hin Hp.
  destruct (decide (Exists P ws)) as [(w1 & Hin1 & Hp1)%Exists_exists|Hno].
  - destruct (IH w1) as (w & Hw & Hpw & Hmin); [by apply list_elem_of_In|done|].
    destruct (decide (P x)) as [Hx|Hx].
    + destruct (String.leb_total (PodName x) (PodName w)) as [E|E].
      * exists x. split_and!; [by left|done|]. intros w' [<-|Hin'] Hp'; [apply leb_refl|].
        eapply leb_trans; [exact E|by apply Hmin].
      * exists w. split_and!; [by right|done|]. intros w' [<-|Hin'] Hp'; [done|by apply Hmin].
    + exists w. split_and!; [by right|done|]. intros w' [<-|Hin'] Hp'; [done|by apply Hmin].
  - assert (Hnone : forall w, In w ws -> ~ P w).
    { intros w Hw Hpw. apply Hno, Exists_exists. exists w. split; [by apply list_elem_of_In|done]. }
    destruct Hin as [<-|Hin]; [|by apply Hnone in Hin].
    exists x. split_and!; [by left|done|]. intros w' [<-|Hin'] Hp'; [apply leb_refl|by apply Hnone in Hin'].
Qed.

#[export] Instance fresh_dec now w : Decision (fresh now w).
Proof. unfold fresh. apply _. Defined.

(** The workers that agree on a revision's status elect exactly one of them.
    Whatever a worker finds in the status, the entry its reconcile writes makes it
    fresh; and among the fresh workers of one status exactly one, the one with the
    least name, starts the daemon's loop, every other one stops its own. *)
Theorem election_exactly_one (podName : string) (now : Z) (rev : Revision) (pulled : bool) (warm : Z) :
  rev_agent rev <> "" ->
  let workers := (updateWorkerStatus podName now pulled warm (rev_workers rev)).1 in
  let rev' := mkRevision (rev_key rev) (rev_pool rev) (rev_agent rev) (rev_daemon rev) workers in
  let key := mkNN (nn_namespace (rev_key rev)) (rev_agent rev) in
  exists leader, In leader workers /\ fresh now leader
    /\ forall w, In w workers -> fresh now w ->
         handleDaemon (PodName w) now rev' (AgentFound (nn_name (rev_key rev)))
         = Some (if String.eqb (PodName w) (PodName leader) then ReqEnsure key (nn_name (rev_key rev))
                 else ReqStop key).
Proof.
  intros Ha workers rev' key.
  destruct (least_worker workers (fresh now) (mkWorker podName pulled warm now)) as (leader & Hin & Hf & Hmin).
  - apply upsertWorker_In.
  - unfold fresh, heartbeatInterval, second. cbn. lia.
  - exists leader. split_and!; [done|done|]. intros w Hw Hfw. unfold handleDaemon.
    cbn [rev_agent rev_key rev_workers rev'].
    rewrite (proj2 (String.eqb_neq _ _) Ha), String.eqb_refl, andb_false_r.
    destruct (electedFor (PodName w) now workers) eqn:E.
    + rewrite electedFor_spec in E. rewrite (proj2 (String.eqb_eq _ _)); [done|].
      apply leb_antisym_eq; [by apply E|by apply Hmin].
    + rewrite (proj2 (String.eqb_neq _ _)); [done|]. intros Ew.
      rewrite (proj2 (electedFor_spec (PodName w) now workers)) in E; [done|].
      intros w' Hw' Hf'. rewrite Ew. by apply Hmin.
Qed.

Definition demoWorkers : list WorkerSandboxStatus :=
  [mkWorker "worker-1" true 0 0; mkWorker "worker-2" true 0 (100 * second)].

Lemma election_exactly_one_witness :
  exists leader, In leader (updateWorkerStatus "worker-3" (110 * second) true 0 demoWorkers).1
    /\ PodName leader = "worker-2".
Proof.
  destruct (election_exactly_one "worker-3" (110 * second)
              (mkRevision (mkNN "team" "rev1") "default" "bot" true demoWorkers) true 0) as (l & H1 & H2 & H3);
    [done|]. exists l. split; [done|].
  specialize (H3 (mkWorker "worker-2" true 0 (100 * second))). cbn [PodName] in H3.
  destruct (String.eqb "worker-2" (PodName l)) eqn:E; [by apply String.eqb_eq in E|].
  discriminate H3; [vm_compute; tauto|by vm_compute].
Defined.

End Supervisor.
