(* ===== verification/Netip.v ===== *)
(** * Addresses and prefixes

    The part of Go's [net/netip] and [net] packages the egress components use:
    [Addr], [AddrPort], [Prefix], [Prefix.Contains], [ParseAddr] and
    [ParseCIDR].  An address keeps the 32- or 128-bit value of its bytes in
    network order and, for IPv6, its zone, the representation of [netip.Addr]. *)

From stdpp Require Import base list strings countable.
From Stdlib Require Import ZArith Lia Ascii String.
From Stdlib.Strings Require Import Byte.
From S2P Require Import Prelude.

(** [netip.Addr]: the zero value (invalid), an IPv4 or an IPv6 address. *)
Inductive Addr :=
| AddrInvalid
| Addr4 (v : Z)
| Addr6 (v : Z) (zone : string).

#[global] Instance Addr_eq_dec : EqDecision Addr.
Proof. solve_decision. Defined.

#[global] Instance Addr_countable : Countable Addr :=
  inj_countable'
    (fun a => match a with
              | AddrInvalid => inl tt
              | Addr4 v => inr (inl v)
              | Addr6 v z => inr (inr (v, z))
              end)
    (fun s => match s with
              | inl _ => AddrInvalid
              | inr (inl v) => Addr4 v
              | inr (inr (v, z)) => Addr6 v z
              end)
    (fun a => match a with AddrInvalid => eq_refl | Addr4 _ => eq_refl | Addr6 _ _ => eq_refl end).

Definition addr_wf (a : Addr) : Prop :=
  match a with
  | AddrInvalid => True
  | Addr4 v => in_range 32 v
  | Addr6 v _ => in_range 128 v
  end.

Definition addr_valid (a : Addr) : bool :=
  match a with AddrInvalid => false | _ => true end.

Definition Is4 (a : Addr) : bool := match a with Addr4 _ => true | _ => false end.

(** [::ffff:0:0/96]. *)
Definition v4InV6Prefix : Z := Z.shiftl 65535 32.

Definition Is4In6 (a : Addr) : bool :=
  match a with
  | Addr6 v _ => Z.shiftr v 32 =? 65535
  | _ => false
  end.

Definition Unmap (a : Addr) : Addr :=
  match a with
  | Addr6 v _ => if Is4In6 a then Addr4 (v mod 2 ^ 32) else a
  | _ => a
  end.

(** [As16]: the zero address gives sixteen zero bytes, an IPv4 address its
    IPv4-mapped form, and the zone is dropped. *)
Definition As16 (a : Addr) : list byte :=
  match a with
  | AddrInvalid => be_split 16 0
  | Addr4 v => be_split 16 (v4InV6Prefix + v)
  | Addr6 v _ => be_split 16 v
  end.

(** [As4] panics on an address that is not IPv4 (or IPv4-mapped). *)
Definition As4 {E} (a : Addr) : outcome E (list byte) :=
  match a with
  | Addr4 v => Ok (be_split 4 v)
  | Addr6 v _ => if Is4In6 a then Ok (be_split 4 (v mod 2 ^ 32)) else Panic
  | AddrInvalid => Panic
  end.

Definition AddrFrom4 (bs : list byte) : Addr := Addr4 (be_combine bs).
Definition AddrFrom16 (bs : list byte) : Addr := Addr6 (be_combine bs) EmptyString.

(** [IsLoopback]: 127.0.0.0/8, and ::1 whatever its zone. *)
Definition IsLoopback (a : Addr) : bool :=
  match a with
  | AddrInvalid => false
  | Addr4 v => Z.shiftr v 24 =? 127
  | Addr6 v _ => if Is4In6 a then Z.shiftr (v mod 2 ^ 32) 24 =? 127 else v =? 1
  end.

(** [IsUnspecified]: 0.0.0.0, or :: without a zone. *)
Definition IsUnspecified (a : Addr) : bool :=
  match a with
  | AddrInvalid => false
  | Addr4 v => v =? 0
  | Addr6 v z => (v =? 0) && String.eqb z EmptyString
  end.

(** [IsLinkLocalUnicast]: 169.254.0.0/16 and fe80::/10; [IsMulticast]:
    224.0.0.0/4 and ff00::/8.  IPv4-mapped addresses are judged as IPv4. *)
Definition IsLinkLocalUnicast (a : Addr) : bool :=
  match Unmap a with
  | AddrInvalid => false
  | Addr4 v => Z.shiftr v 16 =? 43518
  | Addr6 v _ => Z.land (Z.shiftr v 112) 65472 =? 65152
  end.

Definition IsMulticast (a : Addr) : bool :=
  match Unmap a with
  | AddrInvalid => false
  | Addr4 v => Z.land (Z.shiftr v 24) 240 =? 224
  | Addr6 v _ => Z.shiftr v 120 =? 255
  end.

(** [netip.AddrFromSlice]: four or sixteen bytes. *)
Definition AddrFromSlice (bs : list byte) : option Addr :=
  if Nat.eqb (List.length bs) 4 then Some (AddrFrom4 bs)
  else if Nat.eqb (List.length bs) 16 then Some (AddrFrom16 bs)
  else None.

Record AddrPort := mkAddrPort { ap_addr : Addr; ap_port : Z }.

#[global] Instance AddrPort_eq_dec : EqDecision AddrPort.
Proof. solve_decision. Defined.

Definition addrport_wf (p : AddrPort) : Prop :=
  addr_wf (ap_addr p) /\ in_range 16 (ap_port p).

(** ** Prefixes *)

(** [netip.Prefix]; [PrefixFrom] of an out-of-range length is the invalid
    prefix, which contains nothing. *)
Record Prefix := mkPrefix { pf_addr : Addr; pf_bits : option Z }.

Definition BitLen (a : Addr) : Z :=
  match a with AddrInvalid => 0 | Addr4 _ => 32 | Addr6 _ _ => 128 end.

Definition PrefixFrom (a : Addr) (bits : Z) : Prefix :=
  let a' := match a with Addr6 v _ => Addr6 v EmptyString | _ => a end in
  if addr_valid a && (0 <=? bits) && (bits <=? BitLen a)
  then mkPrefix a' (Some bits) else mkPrefix a' None.

Definition prefix_contains (p : Prefix) (ip : Addr) : bool :=
  match pf_bits p with
  | None => false
  | Some bits =>
      match pf_addr p, ip with
      | Addr4 a, Addr4 b => Z.shiftr (Z.lxor a b) (32 - bits) =? 0
      | Addr6 a _, Addr6 b z =>
          String.eqb z EmptyString && (Z.shiftr (Z.lxor a b) (128 - bits) =? 0)
      | _, _ => false
      end
  end.

(** The addresses of a prefix are those that agree with it on the leading
    bits. *)
Lemma shiftr_lxor_0 a b n :
  0 <= n -> (Z.shiftr (Z.lxor a b) n =? 0) = (a / 2 ^ n =? b / 2 ^ n).
Proof.
  intros Hn. rewrite Z.shiftr_lxor, <- !Z.shiftr_div_pow2 by done.
  apply Bool.eq_iff_eq_true. rewrite !Z.eqb_eq. apply Z.lxor_eq_0_iff.
Qed.

Lemma prefix_contains_v4 a bits b :
  0 <= bits <= 32 ->
  prefix_contains (PrefixFrom (Addr4 a) bits) (Addr4 b)
  = (a / 2 ^ (32 - bits) =? b / 2 ^ (32 - bits)).
Proof.
  intros H. unfold PrefixFrom, prefix_contains; cbn.
  rewrite (proj2 (Z.leb_le 0 bits)), (proj2 (Z.leb_le bits 32)) by lia. cbn.
  apply shiftr_lxor_0. lia.
Qed.

(** ** Parsing *)

Definition code (c : ascii) : Z := Z.of_N (N_of_ascii c).
Definition is_digit (c : ascii) : bool := (48 <=? code c) && (code c <=? 57).
Definition ascii_dot : ascii := "."%char.
Definition ascii_colon : ascii := ":"%char.

(** [parseIPv4Fields]: the four octets of a dotted quad, or an error.
    [first]: at the first character; [prev_dot]: the previous one was a dot. *)
Fixpoint parseIPv4Fields_loop (s : list ascii) (fields : list Z) (val : Z)
    (digLen : nat) (prev_dot : bool) : option (list Z) :=
  match s with
  | [] => if Nat.eqb (List.length fields) 3 then Some (fields ++ [val]) else None
  | c :: t =>
      if is_digit c then
        if Nat.eqb digLen 1 && (val =? 0) then None
        else
          let val' := val * 10 + (code c - 48) in
          if 255 <? val' then None
          else parseIPv4Fields_loop t fields val' (S digLen) false
      else if Ascii.eqb c ascii_dot then
        if prev_dot || Nat.eqb (List.length t) 0 then None
        else if Nat.eqb (List.length fields) 3 then None
        else parseIPv4Fields_loop t (fields ++ [val]) 0 0 true
      else None
  end.

(** At offset 0 a dot is an error like a doubled dot, and the empty string has
    too few fields. *)
Definition parseIPv4Fields (s : list ascii) : option (list Z) :=
  parseIPv4Fields_loop s [] 0 0 true.

Definition octets_value (l : list Z) : Z := fold_left (fun acc x => acc * 256 + x) l 0.

Definition parseIPv4 (s : list ascii) : option Addr :=
  match parseIPv4Fields s with
  | Some l => Some (Addr4 (octets_value l))
  | None => None
  end.

Definition hex_val (c : ascii) : option Z :=
  if is_digit c then Some (code c - 48)
  else if (97 <=? code c) && (code c <=? 102) then Some (code c - 97 + 10)
  else if (65 <=? code c) && (code c <=? 70) then Some (code c - 65 + 10)
  else None.

(** A run of hexadecimal digits: its length, its value and what follows; an
    error on a fifth digit. *)
Fixpoint hex_run (s : list ascii) (off : nat) (acc : Z)
    : option (nat * Z * list ascii) :=
  match s with
  | [] => Some (off, acc, [])
  | c :: t =>
      match hex_val c with
      | None => Some (off, acc, s)
      | Some d =>
          if Nat.ltb 3 off then None else hex_run t (S off) (Z.shiftl acc 4 + d)
      end
  end.

(** The loop of [parseIPv6]: [groups] are the bytes stored so far ([i] of
    them), [ellipsis] the position of ["::"].  The loop body runs at most eight
    times, since each round stores at least two of the sixteen bytes. *)
Fixpoint parseIPv6_loop (fuel : nat) (s : list ascii) (stored : list Z)
    (ellipsis : option nat) : option (list ascii * list Z * option nat) :=
  match fuel with
  | O => None
  | S fuel' =>
      if Nat.leb 16 (List.length stored) then Some (s, stored, ellipsis)
      else
        match hex_run s 0 0 with
        | None => None
        | Some (off, acc, rest) =>
            if Nat.eqb off 0 then None
            else
              match rest with
              | [] => Some ([], stored ++ [acc / 256; acc mod 256], ellipsis)
              | c :: t =>
                  if Ascii.eqb c ascii_dot then
                    if (match ellipsis with None => negb (Nat.eqb (List.length stored) 12)
                                          | Some _ => false end) then None
                    else if Nat.ltb 16 (List.length stored + 4) then None
                    else match parseIPv4Fields s with
                         | None => None
                         | Some l => Some ([], stored ++ l, ellipsis)
                         end
                  else if Ascii.eqb c ascii_colon then
                    let stored' := stored ++ [acc / 256; acc mod 256] in
                    match t with
                    | [] => None
                    | c2 :: t2 =>
                        if Ascii.eqb c2 ascii_colon then
                          match ellipsis with
                          | Some _ => None
                          | None =>
                              match t2 with
                              | [] => Some ([], stored', Some (List.length stored'))
                              | _ => parseIPv6_loop fuel' t2 stored' (Some (List.length stored'))
                              end
                          end
                        else parseIPv6_loop fuel' t stored' ellipsis
                    end
                  else None
              end
        end
  end.

Definition expand_ellipsis (stored : list Z) (ellipsis : option nat) : option (list Z) :=
  let i := List.length stored in
  if Nat.ltb i 16 then
    match ellipsis with
    | None => None
    | Some e => Some (take e stored ++ replicate (16 - i) 0 ++ drop e stored)
    end
  else match ellipsis with None => Some stored | Some _ => None end.

Fixpoint split_percent (s : list ascii) : list ascii * option (list ascii) :=
  match s with
  | [] => ([], None)
  | c :: t =>
      if Ascii.eqb c "%"%char then ([], Some t)
      else let '(a, z) := split_percent t in (c :: a, z)
  end.

Definition parseIPv6 (s0 : list ascii) : option Addr :=
  let '(s, zone) := split_percent s0 in
  match zone with
  | Some [] => None
  | _ =>
      let z := match zone with Some z => string_of_list_ascii z | None => EmptyString end in
      let '(lead, s1) :=
        match s with
        | c1 :: c2 :: t =>
            if Ascii.eqb c1 ascii_colon && Ascii.eqb c2 ascii_colon then (true, t) else (false, s)
        | _ => (false, s)
        end in
      if lead && Nat.eqb (List.length s1) 0 then Some (Addr6 0 z)
      else
        match parseIPv6_loop 10 s1 [] (if lead then Some 0%nat else None) with
        | Some ([], stored, ell) =>
            match expand_ellipsis stored ell with
            | Some bytes => Some (Addr6 (octets_value bytes) z)
            | None => None
            end
        | _ => None
        end
  end.

(** The first of ['.'], [':'], ['%'] decides the syntax. *)
Fixpoint parse_addr_kind (l : list ascii) : option bool :=
  match l with
  | [] => None
  | c :: t =>
      if Ascii.eqb c ascii_dot then Some true
      else if Ascii.eqb c ascii_colon then Some false
      else if Ascii.eqb c "%"%char then None
      else parse_addr_kind t
  end.

Definition ParseAddr (s : string) : option Addr :=
  let l := list_ascii_of_string s in
  match parse_addr_kind l with
  | Some true => parseIPv4 l
  | Some false => parseIPv6 l
  | None => None
  end.

(** [dtoi] of package [net]: a decimal number below [0xFFFFFF], all of the
    string. *)
Fixpoint dtoi_loop (l : list ascii) (n : Z) : option Z :=
  match l with
  | [] => Some n
  | c :: t =>
      if is_digit c then
        let n' := n * 10 + (code c - 48) in
        if 16777215 <=? n' then None else dtoi_loop t n'
      else None
  end.

Definition dtoi (l : list ascii) : option Z :=
  match l with [] => None | _ => dtoi_loop l 0 end.

Fixpoint cut_slash (l : list ascii) : option (list ascii * list ascii) :=
  match l with
  | [] => None
  | c :: t =>
      if Ascii.eqb c "/"%char then Some ([], t)
      else match cut_slash t with
           | Some (a, b) => Some (c :: a, b)
           | None => None
           end
  end.

(** Clear the bits after the first [n] of a [w]-bit value. *)
Definition mask_bits (w n v : Z) : Z := Z.shiftl (Z.shiftr v (w - n)) (w - n).

(** [net.ParseCIDR]: the network, as the masked address and its number of
    leading ones (the [IPNet] result; the address result is not used). *)
Definition ParseCIDR (s : string) : option (Addr * Z) :=
  match cut_slash (list_ascii_of_string s) with
  | None => None
  | Some (a, m) =>
      match ParseAddr (string_of_list_ascii a), dtoi m with
      | Some ip, Some n =>
          if n <=? BitLen ip then
            match ip with
            | Addr4 v => Some (Addr4 (mask_bits 32 n v), n)
            | Addr6 v EmptyString => Some (Addr6 (mask_bits 128 n v) EmptyString, n)
            | _ => None
            end
          else None
      | _, _ => None
      end
  end.

Example parse_cidr_v4 : ParseCIDR "10.1.2.3/8" = Some (Addr4 (10 * 2 ^ 24), 8).
Proof. vm_compute. reflexivity. Qed.
Example parse_cidr_v6 : ParseCIDR "2001:db8::1/32" = Some (Addr6 (Z.shiftl 536939960 96) "", 32).
Proof. vm_compute. reflexivity. Qed.
Example parse_cidr_mapped : ParseCIDR "::ffff:1.2.3.4/128" = Some (Addr6 281470698652420 "", 128).
Proof. vm_compute. reflexivity. Qed.
Example parse_cidr_bad : map ParseCIDR ["10.0.0.0"; "10.0.0.0/33"; "010.0.0.0/8"; "1.2.3/8"; "::1%eth0/64"; "1:2/8"]
  = [None; None; None; None; None; None].
Proof. vm_compute. reflexivity. Qed.
