(* ===== verification/ProxyProto.v ===== *)
(** * PROXY v2 frames

    [internal/egress/proxyproto]: the encoder the sandbox-side forwarders use
    and the parser the worker-side bridge and metadata listener use.  A frame
    carries the source and destination of a stream and the agent's identity in
    private-use TLVs.  Byte slices are lists of bytes; a Go string is its bytes,
    so [string(val)] and [[]byte(s)] are the conversions of [Stdlib]'s strings. *)

From Stdlib Require Import ZArith Lia String List.
From Stdlib.Strings Require Import Byte.
From stdpp Require Import base strings list.
From S2P Require Import Prelude Netip.

Import ListNotations.
#[local] Open Scope nat_scope.

Module ProxyProto.

(** ** Constants ([header.go], [tlv.go]) *)

Definition signature : list byte :=
  map byte_of_Z [13; 10; 13; 10; 0; 13; 10; 81; 85; 73; 84; 10]%Z.
Definition versionCmdV2Proxy : byte := x21.
Definition famInet : byte := x11.
Definition famInet6 : byte := x21.

Definition TLVAgentKind : byte := xe0.
Definition TLVAgentNamespace : byte := xe1.
Definition TLVAgentName : byte := xe2.
Definition TLVAgentUID : byte := xe3.
Definition TLVAgentRevision : byte := xe4.
Definition TLVInvocationID : byte := xe5.
Definition TLVDstName : byte := xe6.
Definition TLVSandboxID : byte := xe7.

(** [AgentKind] is a byte: 0 is a DaemonAgent, 1 a TaskAgent. *)
Definition AgentKindDaemon : byte := x00.
Definition AgentKindTask : byte := x01.

Record AgentIdentity := mkIdentity {
  Kind : byte;
  Namespace : string;
  Name : string;
  UID : string;
  Revision : string;
  InvocationID : string;
  SandboxID : string;
}.

Record Header := mkHeader {
  Source : AddrPort;
  Destination : AddrPort;
  Identity : AgentIdentity;
  DstName : string;
}.

(** ** Encoding ([header.go]) *)

Inductive proxy_error :=
| FamilyMismatch
| PayloadTooLarge (n : nat)
| ReadHeader
| BadSignature
| UnsupportedVersion (b : byte)
| ReadPayload
| ShortIPv4 (n : nat)
| ShortIPv6 (n : nat)
| UnsupportedFamily (b : byte)
| MalformedTLV (off : nat).

Definition maxUint16 : nat := Z.to_nat 65535.

Definition appendTLV (dst : list byte) (typ : byte) (val : list byte) : list byte :=
  let val := if Nat.ltb maxUint16 (length val) then take maxUint16 val else val in
  dst ++ [typ] ++ be_split 2 (uint16 (Z.of_nat (length val))) ++ val.

(** [if s != "" { out = appendTLV(out, typ, []byte(s)) }] *)
Definition appendStringTLV (out : list byte) (typ : byte) (s : string) : list byte :=
  if String.eqb s "" then out else appendTLV out typ (list_byte_of_string s).

Definition encodeTLVs (id : AgentIdentity) (dstName : string) : list byte :=
  let out := appendTLV [] TLVAgentKind [Kind id] in
  let out := appendStringTLV out TLVAgentNamespace (Namespace id) in
  let out := appendStringTLV out TLVAgentName (Name id) in
  let out := appendStringTLV out TLVAgentUID (UID id) in
  let out := appendStringTLV out TLVAgentRevision (Revision id) in
  let out := appendStringTLV out TLVInvocationID (InvocationID id) in
  let out := appendStringTLV out TLVSandboxID (SandboxID id) in
  appendStringTLV out TLVDstName dstName.

(** [if a.Addr().Is4In6() { a = AddrPortFrom(a.Addr().Unmap(), a.Port()) }] *)
Definition unmapAddrPort (p : AddrPort) : AddrPort :=
  if Is4In6 (ap_addr p) then mkAddrPort (Unmap (ap_addr p)) (ap_port p) else p.

Definition addrBlock4 (src dst : AddrPort) : outcome proxy_error (list byte) :=
  let! srcB := As4 (ap_addr src) in
  let! dstB := As4 (ap_addr dst) in
  Ok (srcB ++ dstB ++ be_split 2 (ap_port src) ++ be_split 2 (ap_port dst)).

Definition addrBlock6 (src dst : AddrPort) : list byte :=
  As16 (ap_addr src) ++ As16 (ap_addr dst)
  ++ be_split 2 (ap_port src) ++ be_split 2 (ap_port dst).

Definition EncodeHeader (src dst : AddrPort) (id : AgentIdentity) (dstName : string)
    : outcome proxy_error (list byte) :=
  let src := unmapAddrPort src in
  let dst := unmapAddrPort dst in
  guard (negb (Bool.eqb (Is4 (ap_addr src)) (Is4 (ap_addr dst)))) FamilyMismatch (
  let! (family, addrBlock) :=
    (if Is4 (ap_addr src)
     then let! b := addrBlock4 src dst in Ok (famInet, b)
     else Ok (famInet6, addrBlock6 src dst)) in
  let tlvs := encodeTLVs id dstName in
  let payloadLen := length addrBlock + length tlvs in
  guard (Nat.ltb maxUint16 payloadLen) (PayloadTooLarge payloadLen) (
  Ok (signature ++ [versionCmdV2Proxy; family]
      ++ be_split 2 (uint16 (Z.of_nat payloadLen)) ++ addrBlock ++ tlvs))).

(** ** Parsing ([decode.go]) *)

(** [io.ReadFull(r, buf)] with [len(buf) = n] on a reader that still has the
    bytes [r]: all of [r] is consumed when it is too short. *)
Definition ReadFull (n : nat) (r : list byte) : option (list byte) * list byte :=
  if Nat.leb n (length r) then (Some (take n r), drop n r) else (None, []).

(** [s[lo:hi]]: a run-time panic when the bounds are not
    [lo <= hi <= len(s)]. *)
Definition slice {E} (s : list byte) (lo hi : nat) : outcome E (list byte) :=
  if Nat.leb lo hi && Nat.leb hi (length s)
  then Ok (take (hi - lo) (drop lo s)) else Panic.

Definition index {E} (s : list byte) (i : nat) : outcome E byte :=
  match s !! i with Some b => Ok b | None => Panic end.

(** [binary.BigEndian.Uint16(b)]; its argument always has two bytes here. *)
Definition Uint16 {E} (b : list byte) : outcome E Z :=
  match b with
  | b0 :: b1 :: _ => Ok (be_combine [b0; b1])
  | _ => Panic
  end.

(** The [switch typ] of the TLV loop. *)
Definition set_kind (h : Header) (k : byte) : Header :=
  let i := Identity h in
  mkHeader (Source h) (Destination h)
    (mkIdentity k (Namespace i) (Name i) (UID i) (Revision i) (InvocationID i) (SandboxID i))
    (DstName h).

Definition applyTLV (h : Header) (typ : byte) (val : list byte) : Header :=
  let i := Identity h in
  let s := string_of_list_byte val in
  let with_id i' := mkHeader (Source h) (Destination h) i' (DstName h) in
  if Byte.eqb typ TLVAgentKind then
    match val with [k] => set_kind h k | _ => h end
  else if Byte.eqb typ TLVAgentNamespace then
    with_id (mkIdentity (Kind i) s (Name i) (UID i) (Revision i) (InvocationID i) (SandboxID i))
  else if Byte.eqb typ TLVAgentName then
    with_id (mkIdentity (Kind i) (Namespace i) s (UID i) (Revision i) (InvocationID i) (SandboxID i))
  else if Byte.eqb typ TLVAgentUID then
    with_id (mkIdentity (Kind i) (Namespace i) (Name i) s (Revision i) (InvocationID i) (SandboxID i))
  else if Byte.eqb typ TLVAgentRevision then
    with_id (mkIdentity (Kind i) (Namespace i) (Name i) (UID i) s (InvocationID i) (SandboxID i))
  else if Byte.eqb typ TLVInvocationID then
    with_id (mkIdentity (Kind i) (Namespace i) (Name i) (UID i) (Revision i) s (SandboxID i))
  else if Byte.eqb typ TLVSandboxID then
    with_id (mkIdentity (Kind i) (Namespace i) (Name i) (UID i) (Revision i) (InvocationID i) s)
  else if Byte.eqb typ TLVDstName then
    mkHeader (Source h) (Destination h) i s
  else h.

(** [for i := addrEnd; i+3 <= payloadLen; { ... i += 3 + l }].  [None] is an
    exhausted fuel; [parse_tlvs_fuel] shows the fuel given by [ParseHeader] is
    enough. *)
Fixpoint parseTLVs (fuel : nat) (payload : list byte) (i : nat) (h : Header)
    : option (outcome proxy_error Header) :=
  match fuel with
  | O => None
  | S fuel' =>
      if Nat.leb (i + 3) (length payload) then
        match
          (let! typ := index payload i in
           let! lb := slice payload (i + 1) (i + 3) in
           let! l := Uint16 lb in
           let l := Z.to_nat l in
           guard (Nat.ltb (length payload) (i + 3 + l)) (MalformedTLV i) (
           let! val := slice payload (i + 3) (i + 3 + l) in
           Ok (i + 3 + l, applyTLV h typ val)))
        with
        | Ok (i', h') => parseTLVs fuel' payload i' h'
        | Err e => Some (Err e)
        | Panic => Some Panic
        end
      else Some (Ok h)
  end.

Definition zeroIdentity : AgentIdentity := mkIdentity x00 "" "" "" "" "" "".

(** The address block of a family: source, destination and where it ends. *)
Definition parseAddrs (family : byte) (payload : list byte)
    : outcome proxy_error (AddrPort * AddrPort * nat) :=
  if Byte.eqb family famInet then
    guard (Nat.ltb (length payload) 12) (ShortIPv4 (length payload)) (
    let! src4 := slice payload 0 4 in
    let! dst4 := slice payload 4 8 in
    let! sp := slice payload 8 10 in let! srcPort := Uint16 sp in
    let! dp := slice payload 10 12 in let! dstPort := Uint16 dp in
    Ok (mkAddrPort (AddrFrom4 src4) srcPort, mkAddrPort (AddrFrom4 dst4) dstPort, 12))
  else if Byte.eqb family famInet6 then
    guard (Nat.ltb (length payload) 36) (ShortIPv6 (length payload)) (
    let! src6 := slice payload 0 16 in
    let! dst6 := slice payload 16 32 in
    let! sp := slice payload 32 34 in let! srcPort := Uint16 sp in
    let! dp := slice payload 34 36 in let! dstPort := Uint16 dp in
    Ok (mkAddrPort (AddrFrom16 src6) srcPort, mkAddrPort (AddrFrom16 dst6) dstPort, 36))
  else Err (UnsupportedFamily family).

(** The part of [ParseHeader] after both reads. *)
Definition parsePayload (family : byte) (payload : list byte) : outcome proxy_error Header :=
  let! (src, dst, addrEnd) := parseAddrs family payload in
  match parseTLVs (S (length payload)) payload addrEnd
          (mkHeader src dst zeroIdentity "") with
  | Some r => r
  | None => Panic
  end.

(** [ParseHeader] on a reader with the bytes [r]: the result and the bytes the
    reader still has. *)
Definition ParseHeader (r : list byte) : outcome proxy_error Header * list byte :=
  match ReadFull 16 r with
  | (None, r1) => (Err ReadHeader, r1)
  | (Some fixed, r1) =>
      if negb (bool_decide (take 12 fixed = signature)) then (Err BadSignature, r1)
      else
        match index (E:=proxy_error) fixed 12, index (E:=proxy_error) fixed 13,
              slice (E:=proxy_error) fixed 14 16 with
        | Ok vc, Ok family, Ok lb =>
            if negb (Byte.eqb vc versionCmdV2Proxy) then (Err (UnsupportedVersion vc), r1)
            else
              match Uint16 (E:=proxy_error) lb with
              | Ok l =>
                  match ReadFull (Z.to_nat l) r1 with
                  | (None, r2) => (Err ReadPayload, r2)
                  | (Some payload, r2) => (parsePayload family payload, r2)
                  end
              | _ => (Panic, r1)
              end
        | _, _, _ => (Panic, r1)
        end
  end.

(** ** Slices in bounds *)

Lemma slice_ok {E} s lo hi :
  lo <= hi -> hi <= length s ->
  slice (E:=E) s lo hi = Ok (take (hi - lo) (drop lo s)).
Proof.
  intros H1 H2. unfold slice.
  rewrite (proj2 (Nat.leb_le _ _) H1), (proj2 (Nat.leb_le _ _) H2). done.
Qed.

Lemma slice_at {E} s lo hi a b c :
  s = a ++ b ++ c -> lo = length a -> hi = lo + length b -> slice (E:=E) s lo hi = Ok b.
Proof.
  intros -> -> ->. rewrite slice_ok by (rewrite ?length_app; lia).
  replace (length a + length b - length a) with (length b) by lia.
  rewrite drop_app_length, take_app_length. done.
Qed.

Lemma index_ok {E} s i : i < length s -> exists b, index (E:=E) s i = Ok b.
Proof.
  intros H. unfold index. destruct (lookup_lt_is_Some_2 s i H) as [b ->]. eauto.
Qed.

Lemma Uint16_ok {E} b : length b = 2 -> exists l, Uint16 (E:=E) b = Ok l.
Proof. destruct b as [|b0 [|b1 b]]; cbn; try lia. eauto. Qed.

Lemma Uint16_split {E} z : in_range 16 z -> Uint16 (E:=E) (be_split 2 z) = Ok z.
Proof.
  intros H. change (Uint16 (be_split 2 z)) with (Ok (E:=E) (be_combine (be_split 2 z))).
  f_equal. apply be_combine_split_id. exact H.
Qed.

(** One round of the TLV loop, whose slices are all in bounds. *)
Lemma parseTLVs_step fuel payload i h :
  i + 3 <= length payload ->
  exists typ l,
    parseTLVs (S fuel) payload i h =
      if Nat.ltb (length payload) (i + 3 + l) then Some (Err (MalformedTLV i))
      else parseTLVs fuel payload (i + 3 + l)
             (applyTLV h typ (take l (drop (i + 3) payload))).
Proof.
  intros Hi. cbn [parseTLVs]. rewrite (proj2 (Nat.leb_le _ _) Hi).
  destruct (index_ok (E:=proxy_error) payload i) as [typ ->]; [lia|]. cbn [obind].
  rewrite slice_ok by lia. cbn [obind].
  destruct (Uint16_ok (E:=proxy_error) (take (i + 3 - (i + 1)) (drop (i + 1) payload))) as [l ->].
  { rewrite length_take, length_drop. lia. }
  cbn [obind]. exists typ, (Z.to_nat l). unfold guard.
  destruct (Nat.ltb_spec (length payload) (i + 3 + Z.to_nat l)); [done|].
  rewrite slice_ok by lia. cbn [obind]. do 3 f_equal. lia.
Qed.

(** The fuel [ParseHeader] gives is enough, and no round panics. *)
Lemma parse_tlvs_fuel fuel payload i h :
  length payload - i < fuel ->
  exists r, parseTLVs fuel payload i h = Some r /\ r <> Panic.
Proof.
  revert i h. induction fuel as [|fuel IH]; intros i h Hf.
  { exfalso. lia. }
  destruct (Nat.leb_spec (i + 3) (length payload)) as [Hi|Hi].
  - destruct (parseTLVs_step fuel payload i h Hi) as (typ & l & ->).
    destruct (Nat.ltb_spec (length payload) (i + 3 + l)).
    + eexists; split; [done|discriminate].
    + apply IH. lia.
  - cbn [parseTLVs]. rewrite (proj2 (Nat.leb_gt _ _) Hi).
    eexists; split; [done|discriminate].
Qed.

Lemma parseAddrs_no_panic family payload : parseAddrs family payload <> Panic.
Proof.
  unfold parseAddrs, guard.
  repeat (split_if; [|]); try discriminate; bool_to_prop;
    rewrite ?Nat.ltb_ge in *;
    repeat (rewrite slice_ok by lia; cbn [obind]);
    repeat match goal with
    | |- context [Uint16 ?b] =>
        destruct (Uint16_ok (E:=proxy_error) b) as [? ->];
        [rewrite length_take, length_drop; lia|]; cbn [obind]
    end; discriminate.
Qed.

Lemma parsePayload_no_panic family payload : parsePayload family payload <> Panic.
Proof.
  unfold parsePayload. apply obind_no_panic; [apply parseAddrs_no_panic|].
  intros [[src dst] e] _.
  destruct (parse_tlvs_fuel (S (length payload)) payload e
              (mkHeader src dst zeroIdentity "")) as (r & -> & Hr); [lia|done].
Qed.

(** Whatever bytes a peer sends, [ParseHeader] returns a header or an error:
    none of its slice and index expressions is out of range and its TLV loop
    terminates. *)
Theorem ParseHeader_never_panics : forall r, fst (ParseHeader r) <> Panic.
Proof.
  intros r. unfold ParseHeader, ReadFull.
  destruct (Nat.leb_spec 16 (length r)) as [H|H]; [|discriminate].
  assert (length (take 16 r) = 16) as Hl by (rewrite length_take; lia).
  split_if; [discriminate|].
  destruct (index_ok (E:=proxy_error) (take 16 r) 12) as [vc ->]; [lia|].
  destruct (index_ok (E:=proxy_error) (take 16 r) 13) as [fam ->]; [lia|].
  rewrite slice_ok by lia.
  destruct (Uint16_ok (E:=proxy_error) (take (16 - 14) (drop 14 (take 16 r)))) as [l ->].
  { rewrite length_take, length_drop, Hl. lia. }
  split_if; [discriminate|].
  destruct (Nat.leb _ _); cbn; [apply parsePayload_no_panic|discriminate].
Qed.

(** ** The TLV block as a list of type-value pairs *)

Definition tlv (t : byte * list byte) : list byte :=
  t.1 :: be_split 2 (Z.of_nat (length t.2)) ++ t.2.

Definition tlv_fits (t : byte * list byte) : Prop := length t.2 <= maxUint16.

Lemma length_tlv t : length (tlv t) = 3 + length t.2.
Proof. unfold tlv. cbn. done. Qed.

Lemma uint16_length (val : list byte) :
  length val <= maxUint16 -> in_range 16 (Z.of_nat (length val)).
Proof. unfold in_range, maxUint16. lia. Qed.

(** A frame whose TLVs are [ts], followed by fewer than three bytes, is read
    as the fold of [applyTLV]. *)
Lemma parseTLVs_flat ts fuel pre tail h :
  Forall tlv_fits ts -> length tail < 3 -> length ts < fuel ->
  parseTLVs fuel (pre ++ concat (map tlv ts) ++ tail) (length pre) h
  = Some (Ok (fold_left (fun h t => applyTLV h t.1 t.2) ts h)).
Proof.
  intros Hts Htail. revert fuel pre h.
  induction Hts as [|[typ val] ts Hfit Hts IH]; intros fuel pre h Hfuel;
    (destruct fuel as [|fuel]; [lia|]); cbn [concat map fold_left parseTLVs].
  - cbn [app]. rewrite length_app, (proj2 (Nat.leb_gt _ _)) by lia. done.
  - unfold tlv_fits in Hfit; cbn in Hfit.
    set (R := concat (map tlv ts) ++ tail).
    assert (pre ++ (tlv (typ, val) ++ concat (map tlv ts)) ++ tail
            = pre ++ [typ] ++ be_split 2 (Z.of_nat (length val)) ++ val ++ R) as ->.
    { unfold tlv, R; cbn. rewrite <- !app_assoc. done. }
    set (P := pre ++ _).
    assert (length P = length pre + 3 + length val + length R) as HP.
    { unfold P. rewrite !length_app, length_be_split. cbn. lia. }
    rewrite (proj2 (Nat.leb_le _ _)) by lia.
    assert (index (E:=proxy_error) P (length pre) = Ok typ) as ->.
    { unfold index, P. rewrite lookup_app_r, Nat.sub_diag by lia. done. }
    cbn [obind].
    rewrite (slice_at P _ _ (pre ++ [typ]) (be_split 2 (Z.of_nat (length val))) (val ++ R));
      [|unfold P; by rewrite <- !app_assoc|by rewrite length_app|rewrite length_be_split; lia].
    cbn [obind]. rewrite Uint16_split by (apply uint16_length; lia).
    cbn [obind]. rewrite Nat2Z.id. unfold guard.
    rewrite (proj2 (Nat.ltb_ge _ _)) by lia.
    rewrite (slice_at P _ _ (pre ++ [typ] ++ be_split 2 (Z.of_nat (length val))) val R);
      [|unfold P; by rewrite <- !app_assoc
       |rewrite !length_app, length_be_split; cbn; lia|lia].
    cbn [obind fst snd].
    replace P with ((pre ++ [typ] ++ be_split 2 (Z.of_nat (length val)) ++ val) ++ R)
      by (unfold P; by rewrite <- !app_assoc).
    replace (length pre + 3 + length val)
      with (length (pre ++ [typ] ++ be_split 2 (Z.of_nat (length val)) ++ val))
      by (rewrite !length_app, length_be_split; cbn; lia).
    apply IH. cbn in Hfuel. lia.
Qed.

Definition trunc (val : list byte) : list byte :=
  if Nat.ltb maxUint16 (length val) then take maxUint16 val else val.

Definition optTLV (typ : byte) (s : string) : list (byte * list byte) :=
  if String.eqb s "" then [] else [(typ, trunc (list_byte_of_string s))].

(** The TLVs of a frame, in the order [encodeTLVs] writes them. *)
Definition identityTLVs (id : AgentIdentity) (dstName : string) : list (byte * list byte) :=
  [(TLVAgentKind, [Kind id])] ++ optTLV TLVAgentNamespace (Namespace id)
  ++ optTLV TLVAgentName (Name id) ++ optTLV TLVAgentUID (UID id)
  ++ optTLV TLVAgentRevision (Revision id) ++ optTLV TLVInvocationID (InvocationID id)
  ++ optTLV TLVSandboxID (SandboxID id) ++ optTLV TLVDstName dstName.

Lemma length_trunc val : length (trunc val) <= maxUint16.
Proof.
  unfold trunc. destruct (Nat.ltb_spec maxUint16 (length val)); [|lia].
  rewrite length_take. lia.
Qed.

Lemma appendTLV_tlv dst typ val : appendTLV dst typ val = dst ++ tlv (typ, trunc val).
Proof.
  unfold appendTLV, tlv. fold (trunc val). cbn [fst snd].
  unfold uint16. rewrite wrap_id by apply uint16_length, length_trunc. done.
Qed.

Lemma appendStringTLV_tlv out typ s :
  appendStringTLV out typ s = out ++ concat (map tlv (optTLV typ s)).
Proof.
  unfold appendStringTLV, optTLV. destruct (String.eqb s "").
  - by rewrite app_nil_r.
  - rewrite appendTLV_tlv. cbn [map concat]. by rewrite app_nil_r.
Qed.

Lemma encodeTLVs_flat id dstName :
  encodeTLVs id dstName = concat (map tlv (identityTLVs id dstName)).
Proof.
  unfold encodeTLVs, identityTLVs.
  rewrite !appendStringTLV_tlv, appendTLV_tlv.
  rewrite !map_app, !concat_app, <- !app_assoc. done.
Qed.

Lemma optTLV_fits typ s : Forall tlv_fits (optTLV typ s).
Proof.
  unfold optTLV. destruct (String.eqb s ""); constructor; [|constructor].
  apply length_trunc.
Qed.

Lemma identityTLVs_fit id dstName : Forall tlv_fits (identityTLVs id dstName).
Proof.
  unfold identityTLVs. rewrite !Forall_app. repeat split; try apply optTLV_fits.
  constructor; [|constructor]. unfold tlv_fits, maxUint16; cbn. lia.
Qed.

Lemma length_concat_ge (ts : list (byte * list byte)) :
  length ts <= length (concat (map tlv ts)).
Proof.
  induction ts as [|t ts IH]; cbn [map concat length]; [lia|].
  rewrite length_app, length_tlv. lia.
Qed.

(** A value that does not fit a TLV makes the frame too large, so a frame that
    is sent never carries a truncated field. *)
Definition field_len_ok (id : AgentIdentity) (dstName : string) : Prop :=
  Forall (fun s => length (list_byte_of_string s) <= maxUint16)
    [Namespace id; Name id; UID id; Revision id; InvocationID id; SandboxID id; dstName].

Lemma optTLV_small typ s bound :
  bound < maxUint16 + 3 ->
  length (concat (map tlv (optTLV typ s))) <= bound ->
  length (list_byte_of_string s) <= maxUint16.
Proof.
  intros Hb. unfold optTLV. destruct (String.eqb_spec s "") as [->|_]; [cbn; lia|].
  cbn [map concat]. rewrite length_app, length_tlv. cbn [snd length].
  unfold trunc. destruct (Nat.ltb_spec maxUint16 (length (list_byte_of_string s))); [|lia].
  rewrite length_take. lia.
Qed.

Lemma encodeTLVs_small id dstName :
  length (encodeTLVs id dstName) <= maxUint16 -> field_len_ok id dstName.
Proof.
  rewrite encodeTLVs_flat. unfold identityTLVs. rewrite !map_app, !concat_app, !length_app.
  intros H. unfold field_len_ok.
  rewrite !Forall_cons.
  let fits t := (eapply (optTLV_small t _ maxUint16); lia) in
  split; [fits TLVAgentNamespace|]; split; [fits TLVAgentName|];
  split; [fits TLVAgentUID|]; split; [fits TLVAgentRevision|];
  split; [fits TLVInvocationID|]; split; [fits TLVSandboxID|];
  split; [fits TLVDstName|constructor].
Qed.

Lemma optTLV_apply typ s h :
  length (list_byte_of_string s) <= maxUint16 ->
  applyTLV h typ [] = h ->
  fold_left (fun h t => applyTLV h t.1 t.2) (optTLV typ s) h
  = applyTLV h typ (list_byte_of_string s).
Proof.
  intros Hs Hh. unfold optTLV. destruct (String.eqb_spec s "") as [->|_].
  { cbn [fold_left list_byte_of_string]. symmetry. exact Hh. }
  unfold trunc. rewrite (proj2 (Nat.ltb_ge _ _)) by done. done.
Qed.

Lemma identityTLVs_apply src dst id dstName :
  field_len_ok id dstName ->
  fold_left (fun h t => applyTLV h t.1 t.2) (identityTLVs id dstName)
    (mkHeader src dst zeroIdentity "") = mkHeader src dst id dstName.
Proof.
  unfold field_len_ok. rewrite !Forall_cons.
  intros (? & ? & ? & ? & ? & ? & ? & _). unfold identityTLVs.
  rewrite !fold_left_app.
  rewrite (optTLV_apply TLVAgentNamespace), (optTLV_apply TLVAgentName),
    (optTLV_apply TLVAgentUID), (optTLV_apply TLVAgentRevision),
    (optTLV_apply TLVInvocationID), (optTLV_apply TLVSandboxID),
    (optTLV_apply TLVDstName) by (done || reflexivity).
  cbn -[list_byte_of_string string_of_list_byte].
  rewrite !string_of_list_byte_of_string. by destruct id.
Qed.

(** ** Addresses *)

(** What a frame keeps of an address: IPv4-mapped addresses become IPv4, the
    zone is dropped, the zero address becomes [::]. *)
Definition wire_addr (a : Addr) : Addr :=
  match Unmap a with
  | AddrInvalid => Addr6 0 ""
  | Addr4 v => Addr4 v
  | Addr6 v _ => Addr6 v ""
  end.

Definition wire_addrport (p : AddrPort) : AddrPort :=
  mkAddrPort (wire_addr (ap_addr p)) (ap_port p).

Lemma unmapAddrPort_addr p :
  unmapAddrPort p = mkAddrPort (Unmap (ap_addr p)) (ap_port p).
Proof.
  unfold unmapAddrPort, Unmap. destruct p as [[| |v z] port]; cbn; try done.
  by destruct (_ =? _)%Z.
Qed.

Lemma Unmap_wf a : addr_wf a -> addr_wf (Unmap a).
Proof.
  destruct a as [| |v z]; cbn; auto. destruct (_ =? _)%Z; cbn; auto.
  intros _. apply Z.mod_pos_bound. lia.
Qed.

Definition family_of (a : Addr) : byte := if Is4 a then famInet else famInet6.

Definition addr_bytes (a : Addr) : list byte :=
  match a with Addr4 v => be_split 4 v | _ => As16 a end.

Definition frame_addrs (src dst : AddrPort) : list byte :=
  addr_bytes (ap_addr src) ++ addr_bytes (ap_addr dst)
  ++ be_split 2 (ap_port src) ++ be_split 2 (ap_port dst).

(** [EncodeHeader] in closed form. *)
Lemma EncodeHeader_spec src dst id dstName :
  let s := unmapAddrPort src in
  let d := unmapAddrPort dst in
  let n := length (frame_addrs s d) + length (encodeTLVs id dstName) in
  EncodeHeader src dst id dstName =
    if negb (Bool.eqb (Is4 (ap_addr s)) (Is4 (ap_addr d))) then Err FamilyMismatch
    else if Nat.ltb maxUint16 n then Err (PayloadTooLarge n)
    else Ok (signature ++ [versionCmdV2Proxy; family_of (ap_addr s)]
             ++ be_split 2 (uint16 (Z.of_nat n)) ++ frame_addrs s d ++ encodeTLVs id dstName).
Proof.
  intros s d n. unfold EncodeHeader. fold s d. unfold guard.
  destruct (Bool.eqb_spec (Is4 (ap_addr s)) (Is4 (ap_addr d))) as [He|]; [|done].
  cbn [negb]. unfold n, frame_addrs, family_of.
  destruct s as [[|v|v z] sp], d as [[|v'|v' z'] dp]; cbn in He |- *; try discriminate; done.
Qed.

Lemma addr_bytes_combine4 v :
  in_range 32 v -> AddrFrom4 (be_split 4 v) = Addr4 v.
Proof. intros H. unfold AddrFrom4. rewrite be_combine_split_id; [done|exact H]. Qed.

Lemma addr_bytes_combine6 v :
  in_range 128 v -> AddrFrom16 (be_split 16 v) = Addr6 v "".
Proof. intros H. unfold AddrFrom16. rewrite be_combine_split_id; [done|exact H]. Qed.

(** The four fields of an address block, for addresses of [w] bytes. *)
Lemma block_slices w (ab bb : list byte) sp dp tlvs :
  length ab = w -> length bb = w ->
  let P := (ab ++ bb ++ be_split 2 sp ++ be_split 2 dp) ++ tlvs in
  slice (E:=proxy_error) P 0 w = Ok ab /\ slice (E:=proxy_error) P w (w + w) = Ok bb
  /\ slice (E:=proxy_error) P (w + w) (w + w + 2) = Ok (be_split 2 sp)
  /\ slice (E:=proxy_error) P (w + w + 2) (w + w + 4) = Ok (be_split 2 dp)
  /\ length P = w + w + 4 + length tlvs.
Proof.
  intros Ha Hb P. split_and!.
  - apply (slice_at _ _ _ [] ab ((bb ++ be_split 2 sp ++ be_split 2 dp) ++ tlvs)); try done.
    unfold P. cbn. by rewrite <- !app_assoc.
  - apply (slice_at _ _ _ ab bb (be_split 2 sp ++ be_split 2 dp ++ tlvs)); [|done|lia].
    unfold P. by rewrite <- !app_assoc.
  - apply (slice_at _ _ _ (ab ++ bb) _ (be_split 2 dp ++ tlvs));
      [unfold P; by rewrite <- !app_assoc|rewrite length_app; lia|by rewrite length_be_split].
  - apply (slice_at _ _ _ (ab ++ bb ++ be_split 2 sp) _ tlvs);
      [unfold P; by rewrite <- !app_assoc
      |rewrite !length_app, length_be_split; lia|rewrite length_be_split; lia].
  - unfold P. rewrite !length_app, !length_be_split. lia.
Qed.

Lemma parseAddrs_frame s d tlvs :
  addrport_wf s -> addrport_wf d -> Is4 (ap_addr s) = Is4 (ap_addr d) ->
  Unmap (ap_addr s) = ap_addr s -> Unmap (ap_addr d) = ap_addr d ->
  parseAddrs (family_of (ap_addr s)) (frame_addrs s d ++ tlvs)
  = Ok (wire_addrport s, wire_addrport d, length (frame_addrs s d)).
Proof.
  intros [Hs Hsp] [Hd Hdp] He Us Ud. unfold wire_addrport, wire_addr. rewrite Us, Ud.
  destruct s as [a sp], d as [b dp]; cbn [ap_addr ap_port] in *.
  unfold frame_addrs; cbn [ap_addr ap_port]. unfold parseAddrs, family_of.
  destruct (Is4 a) eqn:Ea.
  - destruct a as [|v|], b as [|v'|]; try discriminate.
    destruct (block_slices 4 (addr_bytes (Addr4 v)) (addr_bytes (Addr4 v')) sp dp tlvs)
      as (S1 & S2 & S3 & S4 & HP); [done..|].
    change (Byte.eqb famInet famInet) with true. cbv iota. unfold guard.
    rewrite (proj2 (Nat.ltb_ge _ _)) by (rewrite HP; lia).
    cbn [Nat.add] in S2, S3, S4. rewrite S1, S2, S3, S4. cbn [obind]. rewrite !Uint16_split by done.
    cbn [obind addr_bytes]. rewrite !addr_bytes_combine4 by done. done.
  - destruct (block_slices 16 (addr_bytes a) (addr_bytes b) sp dp tlvs) as (S1 & S2 & S3 & S4 & HP);
      [by destruct a, b..|].
    change (Byte.eqb famInet6 famInet) with false. change (Byte.eqb famInet6 famInet6) with true.
    cbv iota. unfold guard. rewrite (proj2 (Nat.ltb_ge _ _)) by (rewrite HP; lia).
    cbn [Nat.add] in S2, S3, S4. rewrite S1, S2, S3, S4. cbn [obind]. rewrite !Uint16_split by done.
    cbn [obind]. destruct a, b; try discriminate; cbn [addr_bytes As16]; rewrite ?addr_bytes_combine6; done.
Qed.

(** ** Reading a frame off a stream *)

(** A well-formed prologue announces the length of the payload, which is read
    in full; the rest of the stream is left in the reader. *)
Lemma ParseHeader_frame family payload rest :
  length payload <= maxUint16 ->
  ParseHeader (signature ++ [versionCmdV2Proxy; family]
               ++ be_split 2 (Z.of_nat (length payload)) ++ payload ++ rest)
  = (parsePayload family payload, rest).
Proof.
  intros Hlen. set (n := Z.of_nat (length payload)).
  assert (exists b0 b1, be_split 2 n = [b0; b1]) as (b0 & b1 & Hb) by (unfold be_split; eauto).
  set (fixed := signature ++ [versionCmdV2Proxy; family; b0; b1]).
  set (r := signature ++ _).
  assert (r = fixed ++ payload ++ rest) as -> by (unfold r, fixed; by rewrite Hb).
  unfold ParseHeader.
  assert (ReadFull 16 (fixed ++ payload ++ rest) = (Some fixed, payload ++ rest)) as ->
    by reflexivity.
  assert (take 12 fixed = signature) as -> by reflexivity.
  rewrite bool_decide_true by done. cbn [negb].
  change (index fixed 12) with (Ok (E:=proxy_error) versionCmdV2Proxy).
  change (index fixed 13) with (Ok (E:=proxy_error) family).
  change (slice fixed 14 16) with (Ok (E:=proxy_error) [b0; b1]).
  change (negb (Byte.eqb versionCmdV2Proxy versionCmdV2Proxy)) with false. cbv iota.
  rewrite <- Hb, Uint16_split by (apply uint16_length; done). unfold ReadFull.
  unfold n. rewrite Nat2Z.id, length_app.
  rewrite (proj2 (Nat.leb_le _ _)) by lia.
  rewrite take_app_length, drop_app_length. done.
Qed.

Lemma length_frame_addrs_4 s d :
  length (addr_bytes (ap_addr s)) + length (addr_bytes (ap_addr d)) + 4
  = length (frame_addrs s d).
Proof. unfold frame_addrs. rewrite !length_app, !length_be_split. lia. Qed.

Lemma parsePayload_frame s d ts :
  addrport_wf s -> addrport_wf d -> Is4 (ap_addr s) = Is4 (ap_addr d) ->
  Unmap (ap_addr s) = ap_addr s -> Unmap (ap_addr d) = ap_addr d ->
  Forall tlv_fits ts ->
  parsePayload (family_of (ap_addr s)) (frame_addrs s d ++ concat (map tlv ts))
  = Ok (fold_left (fun h t => applyTLV h t.1 t.2) ts
          (mkHeader (wire_addrport s) (wire_addrport d) zeroIdentity "")).
Proof.
  intros. unfold parsePayload. rewrite parseAddrs_frame by done. cbn [obind].
  rewrite <- (app_nil_r (concat _)), parseTLVs_flat; [done|done|cbn; lia|].
  pose proof (length_concat_ge ts). rewrite app_nil_r, length_app. lia.
Qed.

Lemma Unmap_idem a : Unmap (Unmap a) = Unmap a.
Proof. destruct a as [| |v z]; cbn; auto. destruct (_ =? _)%Z eqn:E; cbn; [done|by rewrite E]. Qed.

Lemma unmapAddrPort_wf p : addrport_wf p -> addrport_wf (unmapAddrPort p).
Proof. rewrite unmapAddrPort_addr. intros []. split; [by apply Unmap_wf|done]. Qed.

Lemma wire_unmap p : wire_addrport (unmapAddrPort p) = wire_addrport p.
Proof.
  rewrite unmapAddrPort_addr. unfold wire_addrport, wire_addr; cbn. by rewrite Unmap_idem.
Qed.

(** The frame of a successful [EncodeHeader] is read back. *)
Lemma parse_encode src dst id dstName hdr rest :
  addrport_wf src -> addrport_wf dst ->
  EncodeHeader src dst id dstName = Ok hdr ->
  ParseHeader (hdr ++ rest)
  = (Ok (mkHeader (wire_addrport src) (wire_addrport dst) id dstName), rest).
Proof.
  intros Hs Hd. rewrite EncodeHeader_spec. cbv zeta.
  destruct (Bool.eqb_spec (Is4 (ap_addr (unmapAddrPort src)))
              (Is4 (ap_addr (unmapAddrPort dst)))) as [He|]; [cbn [negb]|discriminate].
  destruct (Nat.ltb_spec maxUint16 (length (frame_addrs (unmapAddrPort src) (unmapAddrPort dst))
    + length (encodeTLVs id dstName))) as [|Hn]; [discriminate|].
  intros <-%Ok_inj. rewrite <- length_app in *. unfold uint16.
  rewrite wrap_id by (apply uint16_length; lia).
  rewrite <- !app_assoc.
  rewrite (app_assoc (frame_addrs _ _)), ParseHeader_frame by done. f_equal.
  rewrite encodeTLVs_flat, parsePayload_frame;
    [|by apply unmapAddrPort_wf|by apply unmapAddrPort_wf|done
     |rewrite unmapAddrPort_addr; apply Unmap_idem
     |rewrite unmapAddrPort_addr; apply Unmap_idem|apply identityTLVs_fit].
  rewrite identityTLVs_apply by (apply encodeTLVs_small; rewrite length_app in Hn; lia).
  by rewrite !wire_unmap.
Qed.

(** C1: a frame [EncodeHeader] produces is parsed back to the addresses it was
    given (as the wire can carry them), the whole identity and the destination
    name, and the bytes after the frame are left in the reader untouched. *)
Theorem ParseHeader_EncodeHeader : forall src dst id dstName hdr rest,
  addrport_wf src -> addrport_wf dst ->
  EncodeHeader src dst id dstName = Ok hdr ->
  ParseHeader (hdr ++ rest)
  = (Ok (mkHeader (wire_addrport src) (wire_addrport dst) id dstName), rest).
Proof. exact parse_encode. Qed.

Definition sample_identity : AgentIdentity :=
  mkIdentity AgentKindTask "default" "echo-bot" "uid-1" "echo-bot-00001" "inv-7" "sb-3".

Lemma ParseHeader_EncodeHeader_witness :
  exists hdr,
    EncodeHeader (mkAddrPort (Addr4 167772161) 40000) (mkAddrPort (Addr6 (v4InV6Prefix + 16843009) "") 443)
      sample_identity "api.openai.com" = Ok hdr
    /\ ParseHeader (hdr ++ [x16; x03])
       = (Ok (mkHeader (mkAddrPort (Addr4 167772161) 40000) (mkAddrPort (Addr4 16843009) 443)
                sample_identity "api.openai.com"), [x16; x03]).
Proof.
  eexists. split; [vm_compute; reflexivity|].
  apply (ParseHeader_EncodeHeader (mkAddrPort (Addr4 167772161) 40000)
           (mkAddrPort (Addr6 (v4InV6Prefix + 16843009) "") 443) sample_identity "api.openai.com" _ [x16; x03]).
  - split; vm_compute; split; congruence.
  - split; vm_compute; split; congruence.
  - vm_compute; reflexivity.
Defined.

(** [EncodeHeader] succeeds exactly when, after unmapping, both addresses
    are IPv4 or both are not and the address block and the TLVs together fit
    the 16-bit length; it reports the mismatch first, and it never panics. *)
Theorem EncodeHeader_outcome : forall src dst id dstName,
  let s := unmapAddrPort src in
  let d := unmapAddrPort dst in
  let n := (if Is4 (ap_addr s) then 12 else 36) + length (encodeTLVs id dstName) in
  match EncodeHeader src dst id dstName with
  | Ok hdr => Is4 (ap_addr s) = Is4 (ap_addr d) /\ (n <= maxUint16)%nat /\ length hdr = 16 + n
  | Err FamilyMismatch => Is4 (ap_addr s) <> Is4 (ap_addr d)
  | Err (PayloadTooLarge m) =>
      Is4 (ap_addr s) = Is4 (ap_addr d) /\ m = n /\ (maxUint16 < n)%nat
  | _ => False
  end.
Proof.
  intros src dst id dstName s d n. rewrite EncodeHeader_spec. fold s d.
  destruct (Bool.eqb_spec (Is4 (ap_addr s)) (Is4 (ap_addr d))) as [He|]; [cbn [negb]|done].
  assert (length (frame_addrs s d) = if Is4 (ap_addr s) then 12 else 36) as Hf.
  { unfold frame_addrs. destruct s as [[] sp], d as [[] dp]; cbn in He |- *; try discriminate; done. }
  rewrite Hf. fold n.
  destruct (Nat.ltb_spec maxUint16 n); [done|].
  split_and!; [done|done|]. rewrite !length_app, length_be_split, Hf. unfold n. cbn. lia.
Qed.

(** A frame with a TLV of a type the parser does not know is read as the
    same frame without it, wherever the TLV stands. *)
Theorem ParseHeader_unknown_TLV : forall s d ts1 typ val ts2 rest,
  addrport_wf s -> addrport_wf d -> Is4 (ap_addr s) = Is4 (ap_addr d) ->
  Unmap (ap_addr s) = ap_addr s -> Unmap (ap_addr d) = ap_addr d ->
  typ ∉ [TLVAgentKind; TLVAgentNamespace; TLVAgentName; TLVAgentUID; TLVAgentRevision;
         TLVInvocationID; TLVSandboxID; TLVDstName] ->
  let frame ts := signature ++ [versionCmdV2Proxy; family_of (ap_addr s)]
    ++ be_split 2 (Z.of_nat (length (frame_addrs s d ++ concat (map tlv ts))))
    ++ (frame_addrs s d ++ concat (map tlv ts)) ++ rest in
  length (frame_addrs s d ++ concat (map tlv (ts1 ++ [(typ, val)] ++ ts2))) <= maxUint16 ->
  ParseHeader (frame (ts1 ++ [(typ, val)] ++ ts2)) = ParseHeader (frame (ts1 ++ ts2))
  /\ exists h, ParseHeader (frame (ts1 ++ ts2)) = (Ok h, rest).
Proof.
  intros s d ts1 typ val ts2 rest Hs Hd He Us Ud Htyp frame Hlen. unfold frame.
  assert (length (frame_addrs s d ++ concat (map tlv (ts1 ++ ts2))) <= maxUint16) as Hlen2.
  { revert Hlen. rewrite !map_app, !concat_app, !length_app. lia. }
  assert (forall ts, length (frame_addrs s d ++ concat (map tlv ts)) <= maxUint16 ->
                     Forall tlv_fits ts) as Hfit.
  { intros ts. rewrite length_app. induction ts as [|t ts IH]; [constructor|].
    cbn [map concat]. rewrite length_app, length_tlv. intros H.
    constructor; [unfold tlv_fits; lia|apply IH; lia]. }
  rewrite !ParseHeader_frame by done.
  rewrite !parsePayload_frame by auto.
  split; [|eauto]. do 2 f_equal.
  rewrite !fold_left_app. cbn [fold_left fst snd]. f_equal.
  generalize (fold_left (fun h t => applyTLV h t.1 t.2) ts1
    (mkHeader (wire_addrport s) (wire_addrport d) zeroIdentity "")). intros h.
  rewrite !not_elem_of_cons in Htyp. destruct_and!.
  unfold applyTLV. rewrite !byte_eqb_ne by done. done.
Qed.

Lemma ParseHeader_unknown_TLV_witness :
  let s := mkAddrPort (Addr4 1) 80 in
  let d := mkAddrPort (Addr4 2) 443 in
  let frame ts := signature ++ [versionCmdV2Proxy; family_of (ap_addr s)]
    ++ be_split 2 (Z.of_nat (length (frame_addrs s d ++ concat (map tlv ts))))
    ++ (frame_addrs s d ++ concat (map tlv ts)) ++ [] in
  ParseHeader (frame [(TLVAgentName, [x61]); (xe9, [x01; x02]); (TLVAgentKind, [x01])])
  = ParseHeader (frame [(TLVAgentName, [x61]); (TLVAgentKind, [x01])]).
Proof.
  apply (ParseHeader_unknown_TLV (mkAddrPort (Addr4 1) 80) (mkAddrPort (Addr4 2) 443)
    [(TLVAgentName, [x61])] xe9 [x01; x02] [(TLVAgentKind, [x01])] []).
  - split; vm_compute; split; congruence.
  - split; vm_compute; split; congruence.
  - reflexivity.
  - reflexivity.
  - reflexivity.
  - rewrite list_elem_of_In; cbn; intuition discriminate.
  - apply Nat.leb_le. vm_compute. reflexivity.
Defined.

(** ** What a parsed frame satisfies *)

Lemma applyTLV_addrs h typ val :
  Source (applyTLV h typ val) = Source h /\ Destination (applyTLV h typ val) = Destination h.
Proof.
  unfold applyTLV, set_kind. repeat split_if; try done. by destruct val as [|k [|]].
Qed.

Lemma parseTLVs_addrs fuel payload i h h' :
  parseTLVs fuel payload i h = Some (Ok h') ->
  Source h' = Source h /\ Destination h' = Destination h.
Proof.
  revert i h. induction fuel as [|fuel IH]; intros i h; [discriminate|].
  destruct (Nat.leb_spec (i + 3) (length payload)) as [Hi|Hi].
  - destruct (parseTLVs_step fuel payload i h Hi) as (typ & l & ->).
    split_if; [discriminate|]. intros H. apply IH in H as [-> ->]. apply applyTLV_addrs.
  - cbn [parseTLVs]. rewrite (proj2 (Nat.leb_gt _ _) Hi). by intros [= <-].
Qed.

Lemma slice_length {E} s lo hi b : slice (E:=E) s lo hi = Ok b -> length b = hi - lo.
Proof.
  unfold slice. destruct (_ && _) eqn:E1; [|discriminate]. intros [= <-]. bool_to_prop.
  rewrite Nat.leb_le in *. rewrite length_take, length_drop. lia.
Qed.

Lemma be_combine_in_range bs n : length bs = n -> in_range (8 * Z.of_nat n) (be_combine bs).
Proof. intros <-. apply be_combine_range. Qed.

Lemma Uint16_range {E} b l : Uint16 (E:=E) b = Ok l -> in_range 16 l.
Proof.
  destruct b as [|b0 [|b1 b]]; cbn [Uint16]; try discriminate. intros <-%Ok_inj.
  apply (be_combine_in_range [b0; b1] 2). done.
Qed.

Lemma parseAddrs_wf family payload src dst e :
  parseAddrs family payload = Ok (src, dst, e) -> addrport_wf src /\ addrport_wf dst.
Proof.
  unfold parseAddrs. intros H.
  repeat (split_if; [|]); inv_ok; bool_to_prop;
    repeat match goal with
    | H : slice _ _ _ = Ok _ |- _ => apply slice_length in H
    | H : Uint16 _ = Ok _ |- _ => apply Uint16_range in H
    end; simplify_eq; unfold addrport_wf; cbn [ap_addr ap_port addr_wf AddrFrom4 AddrFrom16];
    split_and!; try done.
  - by apply (be_combine_in_range _ 4).
  - by apply (be_combine_in_range _ 4).
  - by apply (be_combine_in_range _ 16).
  - by apply (be_combine_in_range _ 16).
Qed.

Lemma ParseHeader_wf r hdr rest :
  ParseHeader r = (Ok hdr, rest) -> addrport_wf (Source hdr) /\ addrport_wf (Destination hdr).
Proof.
  unfold ParseHeader. destruct (ReadFull 16 r) as [[fixed|] r1]; [|discriminate].
  split_if; [discriminate|].
  destruct (index (E:=proxy_error) fixed 12); [|discriminate..].
  destruct (index (E:=proxy_error) fixed 13); [|discriminate..].
  destruct (slice (E:=proxy_error) fixed 14 16) as [lb| |]; [|discriminate..].
  split_if; [discriminate|].
  destruct (Uint16 (E:=proxy_error) lb) as [l| |]; [|discriminate..].
  destruct (ReadFull (Z.to_nat l) r1) as [[payload|] r2]; [|discriminate].
  intros [= H <-]. unfold parsePayload in H.
  apply obind_Ok_inv in H as ([[src dst] e] & Ha & H).
  destruct (parseTLVs _ _ _ _) as [o|] eqn:Ht; [|discriminate]. subst o.
  apply parseTLVs_addrs in Ht as [-> ->]. by apply parseAddrs_wf in Ha.
Qed.

End ProxyProto.
