(* ===== verification/StateMount.v ===== *)
(** * State and trust mounts

    [src/internal/worker/sandbox/oci_spec.go], [trust.go] and [state.go]: the
    bind mounts the worker adds to a sandbox.
    The worker re-checks the state mount path with its own copy of the reserved
    list; the theorems show that the copy agrees with admission. *)

From Stdlib Require Import ZArith Lia Ascii String List.
From stdpp Require Import base strings list gmap.
From S2P Require Import Prelude GoStrings GoPath ApiTypes Registry Admission.
Import GoStrings GoPath ApiTypes.

Module StateMount.

(** ** Mounts *)

(** [sandboxcore.Mount]. *)
Record Mount := mkMount {
  Destination : string;
  Source : string;
  Type_ : string;
  Options : list string;
}.

Definition defaultStateGuestMount : string := "/var/clrk/state".

Definition wellKnownTrustPaths : list string :=
  [ "/etc/ssl/certs/ca-certificates.crt"; "/etc/pki/tls/certs/ca-bundle.crt";
    "/etc/pki/ca-trust/extracted/pem/tls-ca-bundle.pem"; "/etc/ssl/cert.pem" ].

Definition reservedGuestMountPaths : list string :=
  ["/proc"; "/dev"; "/sys"; "/sys/fs/cgroup"; "/dev/pts"; "/tmp"; "/etc/resolv.conf"]
  ++ wellKnownTrustPaths
  ++ ["/etc"; "/usr"; "/bin"; "/sbin"; "/lib"; "/lib64"; "/boot"; "/root"].

Definition mountPathConflicts (candidate reserved : string) : bool :=
  if String.eqb candidate reserved then true
  else HasPrefix candidate (String.append reserved "/")
       || HasPrefix reserved (String.append candidate "/").

Definition isSafeStateMountPath (p : string) : bool :=
  if negb (IsAbs p) || negb (String.eqb p (Clean p)) || String.eqb p "/" then false
  else negb (existsb (mountPathConflicts p) reservedGuestMountPaths).

Definition buildStateMount (hostPath : string) (state : option AgentState) : Mount :=
  let dest :=
    match state with
    | Some st => if negb (String.eqb (MountPath st) "") && isSafeStateMountPath (MountPath st)
                 then MountPath st else defaultStateGuestMount
    | None => defaultStateGuestMount
    end in
  mkMount dest hostPath "bind" ["bind"; "rec"].

(** What [os.Lstat] reports of a path of the rootfs. *)
Inductive file_kind := Missing | Symlink | RegularOrDir.

(** [lstat] is the rootfs the sandbox is built from. *)
Definition buildTrustMounts (lstat : string -> file_kind) (caPath : string) : list Mount :=
  flat_map (fun target =>
    match lstat target with
    | RegularOrDir => [mkMount target caPath "bind" ["bind"; "ro"; "rec"]]
    | _ => []
    end) wellKnownTrustPaths.

(** ** Agreement with admission *)

Lemma isSafeStateMountPath_spec p :
  isSafeStateMountPath p = true <-> Admission.mount_allowed Admission.reservedMountPaths p.
Proof.
  unfold isSafeStateMountPath.
  rewrite <- Admission.mount_check_spec by apply Admission.reservedMountPaths_clean.
  change reservedGuestMountPaths with Admission.reservedMountPaths.
  change mountPathConflicts with Admission.pathConflicts.
  rewrite <- Admission.find_None_Forall.
  destruct (IsAbs p); cbn [negb orb]; [|naive_solver].
  destruct (String.eqb p (Clean p)) eqn:E2; cbn [negb orb]; bool_to_prop; [|naive_solver].
  destruct (String.eqb p "/") eqn:E3; bool_to_prop; [naive_solver|].
  rewrite negb_true_iff. split.
  - intros H. split_and!; [done..|]. apply Admission.find_None_Forall, Forall_forall.
    intros r Hr%list_elem_of_In. destruct (Admission.pathConflicts p r) eqn:E; [|done].
    rewrite <- H. symmetry. apply existsb_exists. eauto.
  - intros (_ & _ & _ & H%Admission.find_None_Forall). rewrite Forall_forall in H.
    apply not_true_iff_false. intros (r & Hr & Hc)%existsb_exists.
    apply list_elem_of_In, H in Hr. congruence.
Qed.

Lemma default_mount_allowed :
  Admission.mount_allowed Admission.reservedMountPaths defaultStateGuestMount.
Proof. apply isSafeStateMountPath_spec. reflexivity. Qed.

Lemma state_mount_allowed hostPath state :
  Admission.mount_allowed Admission.reservedMountPaths (Destination (buildStateMount hostPath state)).
Proof.
  unfold buildStateMount. cbn [Destination]. destruct state as [st|]; [|apply default_mount_allowed].
  destruct (_ && _)%bool eqn:E; [|apply default_mount_allowed]. bool_to_prop.
  by apply isSafeStateMountPath_spec.
Qed.

(** The worker's defensive copy of the mount-path check agrees with
    admission.  A non-empty path passes [isSafeStateMountPath] exactly when
    [validateAgentState] admits it, so the mount of an admitted agent is the path
    it asked for; and whatever object reaches the worker, admitted or not, the
    state is mounted at a clean absolute path that overlaps no reserved path:
    not the system mounts, the resolver configuration or the binary directories,
    and none of the trust bundles the worker mounts, whatever the rootfs holds. *)
Theorem state_mount_isolated (hostPath : string) (state : option AgentState) :
  Admission.mount_allowed Admission.reservedMountPaths (Destination (buildStateMount hostPath state))
  /\ (forall st fp, MountPath st <> "" ->
        (isSafeStateMountPath (MountPath st) = true
         <-> Admission.validateAgentState (Some st) fp = []))
  /\ (forall st fp, state = Some st -> MountPath st <> "" ->
        Admission.validateAgentState state fp = [] ->
        Destination (buildStateMount hostPath state) = MountPath st)
  /\ (forall lstat caPath m, In m (buildTrustMounts lstat caPath) ->
        lstat (Destination m) = RegularOrDir
        /\ mountPathConflicts (Destination (buildStateMount hostPath state)) (Destination m) = false).
Proof.
  assert (Hsafe : forall st fp, MountPath st <> "" ->
     (isSafeStateMountPath (MountPath st) = true <-> Admission.validateAgentState (Some st) fp = [])).
  { intros st fp Hne. rewrite isSafeStateMountPath_spec, Admission.validateAgentState_iff.
    split; [by right|]. by intros [|]. }
  pose proof (state_mount_allowed hostPath state) as Hall.
  split; [done|]. split; [done|]. split.
  - intros st fp -> Hne Hv. unfold buildStateMount. cbn [Destination].
    apply Hsafe in Hv as ->; [|done]. apply String.eqb_neq in Hne as ->. done.
  - intros lstat caPath m (t & Ht & Hm)%in_flat_map.
    destruct (lstat t) eqn:El; [done|done|]. destruct Hm as [<-|[]]. split; [done|].
    apply Admission.mount_check_spec in Hall as (_ & _ & _ & Hall);
      [|apply Admission.reservedMountPaths_clean].
    rewrite Forall_forall in Hall. apply Hall, list_elem_of_In.
    change Admission.reservedMountPaths with reservedGuestMountPaths.
    apply in_or_app. right. apply in_or_app. by left.
Qed.

Lemma state_mount_isolated_witness :
  Destination (buildStateMount "/host" (Some (mkAgentState "" 0 "/workspace/data"))) = "/workspace/data".
Proof.
  destruct (state_mount_isolated "/host" (Some (mkAgentState "" 0 "/workspace/data"))) as (_ & _ & H & _).
  apply (H (mkAgentState "" 0 "/workspace/data") []); [reflexivity|done|]. vm_compute. reflexivity.
Defined.

End StateMount.
