(* ===== verification/Egress.v ===== *)
(** * Egress routing and policy

    [internal/egress]: the compiled L4 route table ([route_table.go]), the
    per-gateway policy handles ([policy.go]) and the router that owns and
    hot-swaps them ([router.go], [config.go]).  The CRD objects keep the fields
    the package reads.  The [SandboxPolicy] handles are pointers shared with the
    dialers of live sandboxes, so the router's state has a store of handles. *)

From Stdlib Require Import ZArith Lia Ascii String List.
From stdpp Require Import base strings list gmap fin_maps.
From S2P Require Import Prelude GoStrings Netip.
Import GoStrings.

Module Egress.

(** ** CRD objects ([api/clrk/v1alpha1]) *)

Definition L4Protocol := string.
Definition L4ProtocolTCP : L4Protocol := "TCP".
Definition L4ProtocolUDP : L4Protocol := "UDP".

Definition EgressPolicy := string.
Definition EgressPolicyAllowAll : EgressPolicy := "allow-all".
Definition EgressPolicyDenyAll : EgressPolicy := "deny-all".

Record L4PortMatch := mkPortMatch {
  Port : option Z;
  StartPort : option Z;
  EndPort : option Z;
}.

Record L4RouteMatch := mkRouteMatch {
  DestinationCIDRs : list string;
  DestinationHostnames : list string;
  Ports : list L4PortMatch;
  Protocol : option L4Protocol;
}.

Record EgressL4RouteRule := mkRule {
  Matches : list L4RouteMatch;
  BackendRefs : list string;
}.

(** [gwapiv1.ParentReference]: the referenced name and optional namespace. *)
Record ParentReference := mkParentRef {
  ref_name : string;
  ref_namespace : option string;
}.

Record EgressL4Route := mkRoute {
  route_namespace : string;
  route_name : string;
  ParentRefs : list ParentReference;
  Rules : list EgressL4RouteRule;
}.

Record EgressGateway := mkGateway {
  eg_namespace : string;
  eg_name : string;
  DefaultPolicy : EgressPolicy;
}.

(** ** The compiled table ([route_table.go], [router.go]) *)

Inductive RouteAction := ActionPassthrough | ActionDeny | ActionTLSTerminate | ActionBackendRef.

Record RouteResult := mkResult { Action : RouteAction; BackendAddr : string }.

Record portRange := mkPortRange { start : Z; end_ : Z }.

Record routeEntry := mkEntry {
  cidrs : list Prefix;
  hostnames : list string;
  ports : list portRange;
  protocol : option L4Protocol;
  result : RouteResult;
}.

Definition hostnameMatches (rule candidate : string) : bool :=
  if HasPrefix rule "*." then
    let suffix := drop_str 1 rule in
    if HasSuffix candidate suffix
    then Nat.eqb (Count candidate ".") (Count rule ".")
    else false
  else String.eqb rule candidate.

Definition entry_matches (e : routeEntry) (dst : AddrPort) (proto : L4Protocol)
    (dstName : string) : bool :=
  if match protocol e with Some p => negb (String.eqb p proto) | None => false end then false
  else if (match cidrs e, hostnames e with [], [] => false | _, _ => true end)
     && negb (existsb (fun c => prefix_contains c (ap_addr dst)) (cidrs e)
              || (negb (String.eqb dstName "")
                  && existsb (fun h => hostnameMatches h dstName) (hostnames e)))
  then false
  else if match ports e with
          | [] => false
          | _ => negb (existsb (fun pr => (start pr <=? ap_port dst) && (ap_port dst <=? end_ pr))
                         (ports e))
          end
  then false
  else true.

Fixpoint table_match (t : list routeEntry) (dst : AddrPort) (proto : L4Protocol)
    (dstName : string) : option RouteResult :=
  match t with
  | [] => None
  | e :: t' => if entry_matches e dst proto dstName then Some (result e)
               else table_match t' dst proto dstName
  end.

Definition parentTargets (r : EgressL4Route) (egNamespace egName : string)
    (ref : ParentReference) : bool :=
  String.eqb (ref_name ref) egName
  && String.eqb (match ref_namespace ref with Some ns => ns | None => route_namespace r end)
       egNamespace.

Definition routesForEG (routes : list EgressL4Route) (egNamespace egName : string)
    : list EgressL4Route :=
  List.filter (fun r => existsb (parentTargets r egNamespace egName) (ParentRefs r)) routes.

(** One CIDR string: skipped when it does not parse. *)
Definition compileCIDR (s : string) : list Prefix :=
  match ParseCIDR s with
  | Some (net, ones) => [PrefixFrom (Unmap net) ones]
  | None => []
  end.

(** One port match: skipped unless it names a port or both ends of a range.
    [uint16] of the [int32] field wraps. *)
Definition compilePort (pm : L4PortMatch) : list portRange :=
  match Port pm, StartPort pm, EndPort pm with
  | Some p, _, _ => [mkPortRange (uint16 p) (uint16 p)]
  | None, Some s, Some e => [mkPortRange (uint16 s) (uint16 e)]
  | None, _, _ => []
  end.

Definition compileMatch (rule : EgressL4RouteRule) (m : L4RouteMatch) : routeEntry :=
  mkEntry (flat_map compileCIDR (DestinationCIDRs m))
    (DestinationHostnames m)
    (flat_map compilePort (Ports m))
    (Protocol m)
    (match BackendRefs rule with
     | [] => mkResult ActionPassthrough ""
     | b :: _ => mkResult ActionBackendRef b
     end).

Definition compileRouteTable (l4Routes : list EgressL4Route) : list routeEntry :=
  flat_map (fun route =>
    flat_map (fun rule => map (compileMatch rule) (Matches rule)) (Rules route)) l4Routes.

(** ** Policies and the router ([policy.go], [router.go]) *)

Record policyState := mkPolicyState {
  ps_routes : list routeEntry;
  ps_default : EgressPolicy;
}.

(** A handle is a location of the store; the dialers hold it. *)
Definition handle := nat.

Record Router := mkRouter {
  table : list routeEntry;
  defaultPolicy : EgressPolicy;
  policies : gmap string handle;
  store : gmap handle policyState;
}.

Definition NewRouter (default : EgressPolicy) : Router := mkRouter [] default ∅ ∅.

Definition policyKey (ns name : string) : string := String.append ns (String.append "/" name).

Definition policyOf (eg : EgressGateway) (allL4Routes : list EgressL4Route) : policyState :=
  mkPolicyState (compileRouteTable (routesForEG allL4Routes (eg_namespace eg) (eg_name eg)))
    (DefaultPolicy eg).

Definition SyncPolicy (eg : EgressGateway) (allL4Routes : list EgressL4Route) (r : Router)
    : Router * handle :=
  let state := policyOf eg allL4Routes in
  let key := policyKey (eg_namespace eg) (eg_name eg) in
  match policies r !! key with
  | Some p => (mkRouter (table r) (defaultPolicy r) (policies r) (<[p := state]> (store r)), p)
  | None =>
      let p := fresh (dom (store r)) in
      (mkRouter (table r) (defaultPolicy r) (<[key := p]> (policies r)) (<[p := state]> (store r)), p)
  end.

Definition PolicyFor (egNamespace egName : string) (r : Router) : option handle :=
  policies r !! policyKey egNamespace egName.

(** [Allow]: a nil handle or a nil state allows. *)
Definition state_allow (s : policyState) (dst : AddrPort) (proto : L4Protocol) (dstName : string) : bool :=
  match table_match (ps_routes s) dst proto dstName with
  | Some _ => true
  | None => negb (String.eqb (ps_default s) EgressPolicyDenyAll)
  end.

Definition Allow (r : Router) (p : option handle) (dst : AddrPort) (proto : L4Protocol)
    (dstName : string) : bool :=
  match p with
  | None => true
  | Some h => match store r !! h with
              | None => true
              | Some s => state_allow s dst proto dstName
              end
  end.

(** [SandboxPolicy.DefaultPolicy] *)
Definition handleDefaultPolicy (r : Router) (p : option handle) : EgressPolicy :=
  match p with
  | None => EgressPolicyAllowAll
  | Some h => match store r !! h with
              | None => EgressPolicyAllowAll
              | Some s => ps_default s
              end
  end.

Definition Route (r : Router) (dst : AddrPort) (proto : L4Protocol) (dstName : string) : RouteResult :=
  match table_match (table r) dst proto dstName with
  | Some res => res
  | None => if String.eqb (defaultPolicy r) EgressPolicyDenyAll
            then mkResult ActionDeny "" else mkResult ActionPassthrough ""
  end.

Definition Rebuild (gateways : list EgressGateway) (l4Routes : list EgressL4Route) (r : Router)
    : Router :=
  fold_left (fun r eg => fst (SyncPolicy eg l4Routes r)) gateways
    (mkRouter (compileRouteTable l4Routes) (defaultPolicy r) (policies r) (store r)).

(** ** Host names *)

(** A wildcard rule [*.d] accepts exactly the names made of one label, a dot
    and [d]; any other rule accepts exactly itself. *)
Theorem hostnameMatches_spec : forall rule candidate,
  hostnameMatches rule candidate = true <->
  (exists d label, rule = String.append "*." d
     /\ candidate = String.append label (String.append "." d) /\ Count label "." = 0%nat)
  \/ (HasPrefix rule "*." = false /\ rule = candidate).
Proof.
  intros rule candidate. unfold hostnameMatches.
  destruct (HasPrefix rule "*.") eqn:Hp.
  - apply HasPrefix_spec in Hp as [d ->].
    change (drop_str 1 (String.append "*." d)) with (String.append "." d).
    change (Count (String.append "*." d) ".") with (S (Count d ".")).
    split.
    + destruct (HasSuffix candidate _) eqn:Hs; [|discriminate].
      apply HasSuffix_spec in Hs as [label ->]. rewrite Count_app.
      change (Count (String.append "." d) ".") with (S (Count d ".")).
      intros H%Nat.eqb_eq. left. exists d, label. split_and!; [done|done|lia].
    + intros [(d' & label & Heq & -> & Hl)|[? _]]; [|discriminate].
      assert (d = d') as <- by exact (f_equal (drop_str 2) Heq).
      rewrite (proj2 (HasSuffix_spec _ _)) by eauto.
      rewrite Count_app, Hl. apply Nat.eqb_eq. done.
  - rewrite String.eqb_eq. split; [by right|].
    intros [(d & label & -> & _)|[_ ->]]; [|done].
    rewrite (proj2 (HasPrefix_spec _ _)) in Hp by eauto. discriminate.
Qed.

(** ** The table *)

Lemma table_match_exists t dst proto name :
  (exists r, table_match t dst proto name = Some r)
  <-> exists e, In e t /\ entry_matches e dst proto name = true.
Proof.
  induction t as [|e t IH]; cbn.
  - split; [intros [r H]; discriminate|intros (e & [] & _)].
  - destruct (entry_matches e dst proto name) eqn:E.
    + split; [eauto|eauto].
    + rewrite IH. split.
      * intros (e' & ? & ?); eauto.
      * intros (e' & [<-|?] & ?); [congruence|eauto].
Qed.

(** The first matching rule decides, whatever follows it. *)
Lemma table_match_first t1 e t2 dst proto name :
  Forall (fun e' => entry_matches e' dst proto name = false) t1 ->
  entry_matches e dst proto name = true ->
  table_match (t1 ++ e :: t2) dst proto name = Some (result e).
Proof. induction 1 as [|e' t1 He' _ IH]; intros He; cbn; [by rewrite He|rewrite He'; auto]. Qed.

Lemma table_match_none t dst proto name :
  table_match t dst proto name = None
  <-> Forall (fun e => entry_matches e dst proto name = false) t.
Proof.
  induction t as [|e t IH]; cbn; [by split|].
  destruct (entry_matches e dst proto name) eqn:E; rewrite ?IH.
  - split; [discriminate|intros H; inversion H; congruence].
  - split; [by constructor|intros H; by inversion H].
Qed.

(** ** The documented meaning of a route ([types_egressl4route.go]) *)

(** An address lies in a CIDR when both have the same family and agree on the
    network bits. *)
Definition addr_in_cidr (cidr : string) (a : Addr) : Prop :=
  match ParseCIDR cidr, a with
  | Some (Addr4 net, n), Addr4 v => v / 2 ^ (32 - n) = net / 2 ^ (32 - n)
  | Some (Addr6 net _, n), Addr6 v z => z = EmptyString /\ v / 2 ^ (128 - n) = net / 2 ^ (128 - n)
  | _, _ => False
  end.

Definition port_in (pm : L4PortMatch) (p : Z) : Prop :=
  match Port pm, StartPort pm, EndPort pm with
  | Some q, _, _ => p = q
  | None, Some s, Some e => s <= p <= e
  | None, _, _ => False
  end.

(** Criteria of one block: protocol, then CIDR or host name, then port; an
    empty list of a kind does not restrict. *)
Definition block_matches (m : L4RouteMatch) (dst : AddrPort) (proto : L4Protocol)
    (dstName : string) : Prop :=
  (forall p, Protocol m = Some p -> p = proto)
  /\ ((DestinationCIDRs m = [] /\ DestinationHostnames m = [])
      \/ (exists c, In c (DestinationCIDRs m) /\ addr_in_cidr c (ap_addr dst))
      \/ (dstName <> EmptyString
          /\ exists h, In h (DestinationHostnames m) /\ hostnameMatches h dstName = true))
  /\ (Ports m = [] \/ exists pm, In pm (Ports m) /\ port_in pm (ap_port dst)).

(** What the schema promises of a block: CIDRs parse and are not IPv4-mapped,
    a port match names a port or both ends, and ports are 16-bit. *)
Definition port_wf (pm : L4PortMatch) : Prop :=
  match Port pm, StartPort pm, EndPort pm with
  | Some q, _, _ => in_range 16 q
  | None, Some s, Some e => in_range 16 s /\ in_range 16 e
  | None, _, _ => False
  end.

Definition cidr_wf (c : string) : Prop :=
  match ParseCIDR c with
  | Some (net, _) => Unmap net = net
  | None => False
  end.

Definition block_wf (m : L4RouteMatch) : Prop :=
  Forall cidr_wf (DestinationCIDRs m) /\ Forall port_wf (Ports m).

Lemma dtoi_loop_nonneg l n k : 0 <= n -> dtoi_loop l n = Some k -> 0 <= k.
Proof.
  revert n. induction l as [|c l IH]; cbn; intros n Hn; [congruence|].
  destruct (is_digit c) eqn:E; [|discriminate]. unfold is_digit in E. bool_to_prop.
  destruct (_ <=? _); [discriminate|]. apply IH. lia.
Qed.

Lemma ParseCIDR_bits c net n : ParseCIDR c = Some (net, n) ->
  0 <= n <= BitLen net /\ addr_valid net = true.
Proof.
  unfold ParseCIDR. destruct (cut_slash _) as [[a m]|]; [|discriminate].
  destruct (ParseAddr _) as [ip|], (dtoi m) as [k|] eqn:Hd; try discriminate.
  assert (0 <= k).
  { unfold dtoi in Hd. destruct m; [discriminate|]. eapply dtoi_loop_nonneg; [|done]. lia. }
  destruct (Z.leb_spec k (BitLen ip)); [|discriminate].
  destruct ip as [|v|v [|]]; try discriminate; intros [= <- <-]; cbn in *; split; done || lia.
Qed.

Lemma compileCIDR_contains c a :
  cidr_wf c -> existsb (fun p => prefix_contains p a) (compileCIDR c) = true <-> addr_in_cidr c a.
Proof.
  unfold cidr_wf, compileCIDR, addr_in_cidr. destruct (ParseCIDR c) as [[net n]|] eqn:E; [|done].
  intros ->. destruct (ParseCIDR_bits _ _ _ E) as [Hn Hv]. cbn [existsb]. rewrite orb_false_r.
  unfold PrefixFrom, prefix_contains.
  rewrite Hv, (proj2 (Z.leb_le 0 n)), (proj2 (Z.leb_le n (BitLen net))) by lia. cbn [andb pf_bits pf_addr].
  destruct net as [|v|v z], a as [|v'|v' z']; cbn [BitLen] in *; try done.
  - rewrite shiftr_lxor_0, Z.eqb_eq by lia. split; congruence.
  - rewrite andb_true_iff, String.eqb_eq, shiftr_lxor_0, Z.eqb_eq by lia.
    split; intros [? ?]; split; congruence.
Qed.

Lemma compilePort_contains pm p :
  port_wf pm ->
  existsb (fun pr => (start pr <=? p) && (p <=? end_ pr)) (compilePort pm) = true <-> port_in pm p.
Proof.
  unfold port_wf, compilePort, port_in, uint16.
  destruct (Port pm) as [q|]; [|destruct (StartPort pm) as [s|], (EndPort pm) as [e|]; try done];
    intros H; cbn [existsb start end_]; rewrite orb_false_r, andb_true_iff, !Z.leb_le.
  - rewrite wrap_id by done. lia.
  - destruct H. rewrite !wrap_id by done. done.
Qed.

Lemma existsb_flat_map {A B} (f : A -> list B) (g : B -> bool) (P : A -> Prop) l :
  Forall (fun x => existsb g (f x) = true <-> P x) l ->
  existsb g (flat_map f l) = true <-> exists x, In x l /\ P x.
Proof.
  induction 1 as [|x l Hx _ IH]; cbn.
  - split; [discriminate|intros (x & [] & _)].
  - rewrite existsb_app, orb_true_iff, Hx, IH. split.
    + intros [?|(y & ? & ?)]; eauto.
    + intros (y & [<-|?] & ?); eauto.
Qed.

Lemma compileCIDR_nonempty c : cidr_wf c -> compileCIDR c <> [].
Proof. unfold cidr_wf, compileCIDR. destruct (ParseCIDR c) as [[]|]; done. Qed.

Lemma compilePort_nonempty pm : port_wf pm -> compilePort pm <> [].
Proof. unfold port_wf, compilePort. by destruct (Port pm), (StartPort pm), (EndPort pm). Qed.

Lemma flat_map_nil_iff {A B} (f : A -> list B) l :
  Forall (fun x => f x <> []) l -> flat_map f l = [] <-> l = [].
Proof.
  destruct 1 as [|x l Hx _]; cbn; [done|].
  split; [|discriminate]. intros [? _]%app_eq_nil. done.
Qed.

(** The three guards of [matches], as a proposition. *)
Lemma entry_matches_iff e dst proto name :
  entry_matches e dst proto name = true <->
  (forall p, protocol e = Some p -> p = proto)
  /\ ((cidrs e = [] /\ hostnames e = [])
      \/ existsb (fun c => prefix_contains c (ap_addr dst)) (cidrs e) = true
      \/ (name <> EmptyString /\ existsb (fun h => hostnameMatches h name) (hostnames e) = true))
  /\ (ports e = [] \/
      existsb (fun pr => (start pr <=? ap_port dst) && (ap_port dst <=? end_ pr)) (ports e) = true).
Proof.
  unfold entry_matches.
  set (C := existsb _ (cidrs e)). set (H := existsb _ (hostnames e)). set (P := existsb _ (ports e)).
  assert ((forall p, protocol e = Some p -> p = proto) <->
    match protocol e with Some p => negb (String.eqb p proto) | None => false end = false) as ->.
  { destruct (protocol e) as [p|]; [|done]. rewrite negb_false_iff, String.eqb_eq.
    split; [auto|congruence]. }
  destruct (match protocol e with Some _ => _ | None => _ end); [naive_solver|].
  assert (ports e = [] \/ P = true <->
          match ports e with [] => false | _ => negb P end = false) as ->.
  { unfold P. destruct (ports e); [naive_solver|]. rewrite negb_false_iff. naive_solver. }
  destruct (String.eqb_spec name EmptyString) as [->|Hn];
    destruct (cidrs e), (hostnames e), C, H;
    destruct (match ports e with [] => _ | _ => _ end); cbn; naive_solver.
Qed.

(** Compiling a well-formed block preserves its documented meaning. *)
Lemma compileMatch_spec rule m dst proto name :
  block_wf m ->
  entry_matches (compileMatch rule m) dst proto name = true <-> block_matches m dst proto name.
Proof.
  intros [Hc Hp]. rewrite entry_matches_iff. unfold block_matches, compileMatch; cbn.
  rewrite (existsb_flat_map compileCIDR _ (fun c => addr_in_cidr c (ap_addr dst)))
    by (eapply Forall_impl; [exact Hc|]; intros; by apply compileCIDR_contains).
  rewrite (existsb_flat_map compilePort _ (fun pm => port_in pm (ap_port dst)))
    by (eapply Forall_impl; [exact Hp|]; intros; by apply compilePort_contains).
  rewrite !flat_map_nil_iff
    by (eapply Forall_impl; [eassumption|]; intros; by (apply compileCIDR_nonempty || apply compilePort_nonempty)).
  rewrite existsb_exists. done.
Qed.

Definition routes_wf (routes : list EgressL4Route) : Prop :=
  forall route rule m, In route routes -> In rule (Rules route) -> In m (Matches rule) -> block_wf m.

(** A route targets a gateway when one of its parent references names it, in
    the referenced namespace or, by default, the route's own. *)
Definition targets (route : EgressL4Route) (eg : EgressGateway) : Prop :=
  exists ref, In ref (ParentRefs route) /\ ref_name ref = eg_name eg
    /\ (match ref_namespace ref with Some ns => ns | None => route_namespace route end) = eg_namespace eg.

Lemma routesForEG_spec routes eg route :
  In route (routesForEG routes (eg_namespace eg) (eg_name eg)) <-> In route routes /\ targets route eg.
Proof.
  unfold routesForEG, targets. rewrite List.filter_In, existsb_exists. unfold parentTargets.
  split; intros [? (ref & ? & H)]; (split; [done|]); exists ref; (split; [done|]).
  - bool_to_prop. done.
  - destruct H as [-> ->]. by rewrite !String.eqb_refl.
Qed.

Lemma compileRouteTable_spec routes dst proto name :
  routes_wf routes ->
  (exists r, table_match (compileRouteTable routes) dst proto name = Some r) <->
  exists route rule m, In route routes /\ In rule (Rules route) /\ In m (Matches rule)
    /\ block_matches m dst proto name.
Proof.
  intros Hwf. rewrite table_match_exists. unfold compileRouteTable. split.
  - intros (e & Hin & He). apply in_flat_map in Hin as (route & ? & Hin).
    apply in_flat_map in Hin as (rule & ? & Hin). apply in_map_iff in Hin as (m & <- & ?).
    exists route, rule, m. rewrite <- (compileMatch_spec rule); eauto.
  - intros (route & rule & m & ? & ? & ? & Hm). exists (compileMatch rule m).
    rewrite compileMatch_spec by eauto. split; [|done].
    apply in_flat_map. exists route. split; [done|]. apply in_flat_map. exists rule. split; [done|].
    by apply in_map.
Qed.

(** ** The router's handles *)

(** Every registered handle points at a state, and no two gateways share one. *)
Record router_inv (r : Router) : Prop := mkRouterInv {
  inv_alloc : forall k h, policies r !! k = Some h -> is_Some (store r !! h);
  inv_inj : forall k1 k2 h, policies r !! k1 = Some h -> policies r !! k2 = Some h -> k1 = k2;
}.

Definition eg_key (eg : EgressGateway) : string := policyKey (eg_namespace eg) (eg_name eg).

Lemma NewRouter_inv d : router_inv (NewRouter d).
Proof. split; cbn; intros; simplify_map_eq. Qed.

Lemma fresh_handle r k h :
  router_inv r -> policies r !! k = Some h -> h <> fresh (dom (store r)).
Proof.
  intros [Ha _] Hk ->. apply Ha in Hk. apply elem_of_dom in Hk. by apply is_fresh in Hk.
Qed.

Lemma SyncPolicy_inv eg routes r : router_inv r -> router_inv (fst (SyncPolicy eg routes r)).
Proof.
  intros Hr. destruct Hr as [Ha Hi] eqn:E. clear E. unfold SyncPolicy. fold (eg_key eg).
  destruct (policies r !! eg_key eg) as [p|] eqn:Hp; split; cbn.
  - intros k h Hk. destruct (decide (h = p)) as [->|]; simplify_map_eq; eauto.
  - eauto.
  - intros k h Hk. destruct (decide (k = eg_key eg)) as [->|]; simplify_map_eq; [eauto|].
    rewrite lookup_insert_ne by (symmetry; by eapply fresh_handle). eauto.
  - intros k1 k2 h H1 H2.
    destruct (decide (k1 = eg_key eg)) as [->|], (decide (k2 = eg_key eg)) as [->|];
      simplify_map_eq; try done.
    + exfalso. by eapply fresh_handle.
    + exfalso. by eapply fresh_handle.
    + eauto.
Qed.

(** The handle [SyncPolicy] returns is the registered one and points at the
    policy compiled for the gateway. *)
Lemma SyncPolicy_handle eg routes r :
  let '(r', h) := SyncPolicy eg routes r in
  policies r' !! eg_key eg = Some h /\ store r' !! h = Some (policyOf eg routes).
Proof.
  unfold SyncPolicy. fold (eg_key eg).
  destruct (policies r !! eg_key eg) as [p|] eqn:Hp; cbn; simplify_map_eq; done.
Qed.

Lemma SyncPolicy_stable eg routes r k h :
  policies r !! k = Some h -> policies (fst (SyncPolicy eg routes r)) !! k = Some h.
Proof.
  intros Hk. unfold SyncPolicy. fold (eg_key eg).
  destruct (policies r !! eg_key eg) as [p|] eqn:Hp; cbn; [done|].
  rewrite lookup_insert_ne by congruence. done.
Qed.

Lemma SyncPolicy_other eg routes r k h :
  router_inv r -> k <> eg_key eg -> policies r !! k = Some h ->
  store (fst (SyncPolicy eg routes r)) !! h = store r !! h.
Proof.
  intros Hr Hne Hk. unfold SyncPolicy. fold (eg_key eg).
  destruct (policies r !! eg_key eg) as [p|] eqn:Hp; cbn.
  - rewrite lookup_insert_ne; [done|]. intros ->. by destruct Hne; eapply (inv_inj r).
  - rewrite lookup_insert_ne; [done|]. symmetry. by eapply fresh_handle.
Qed.

Definition sync_all (routes : list EgressL4Route) (gws : list EgressGateway) (r : Router) : Router :=
  fold_left (fun r eg => fst (SyncPolicy eg routes r)) gws r.

Lemma sync_all_inv routes gws r : router_inv r -> router_inv (sync_all routes gws r).
Proof. revert r. induction gws; cbn; intros; [done|]. by apply IHgws, SyncPolicy_inv. Qed.

Lemma sync_all_stable routes gws r k h :
  policies r !! k = Some h -> policies (sync_all routes gws r) !! k = Some h.
Proof. revert r. induction gws; cbn; intros; [done|]. by apply IHgws, SyncPolicy_stable. Qed.

Lemma sync_all_other routes gws r k h :
  router_inv r -> k ∉ map eg_key gws -> policies r !! k = Some h ->
  store (sync_all routes gws r) !! h = store r !! h.
Proof.
  revert r. induction gws as [|eg gws IH]; cbn; intros r Hr Hk Hp; [done|].
  rewrite not_elem_of_cons in Hk. destruct Hk as [Hne Hk].
  unfold sync_all in IH. rewrite IH; [|by apply SyncPolicy_inv|done|by apply SyncPolicy_stable].
  by apply (SyncPolicy_other _ _ _ k).
Qed.

Lemma sync_all_registered routes gws r eg :
  router_inv r -> NoDup (map eg_key gws) -> In eg gws ->
  exists h, policies (sync_all routes gws r) !! eg_key eg = Some h
            /\ store (sync_all routes gws r) !! h = Some (policyOf eg routes).
Proof.
  revert r. induction gws as [|eg' gws IH]; cbn; intros r Hr Hnd Hin; [done|].
  apply NoDup_cons in Hnd as [Hni Hnd]. destruct Hin as [->|Hin].
  - pose proof (SyncPolicy_handle eg routes r) as Hs.
    pose proof (SyncPolicy_inv eg routes r Hr) as Hi.
    destruct (SyncPolicy eg routes r) as [r' h]. destruct Hs as [Hp Hst]. cbn in *.
    exists h. split; [by apply sync_all_stable|].
    rewrite <- Hst. by eapply sync_all_other.
  - apply IH; [by apply SyncPolicy_inv|done|done].
Qed.

(** Gateways as the API server lists them: distinct namespace/name pairs and no
    slash in a namespace. *)
Definition gateways_wf (gws : list EgressGateway) : Prop :=
  NoDup (map (fun eg => (eg_namespace eg, eg_name eg)) gws)
  /\ Forall (fun eg => Count (eg_namespace eg) "/" = 0%nat) gws.

Lemma eg_keys_NoDup gws : gateways_wf gws -> NoDup (map eg_key gws).
Proof.
  intros [Hnd Hns]. revert Hnd. induction Hns as [|eg gws Heg Hns IH]; cbn; [constructor|].
  rewrite !NoDup_cons. intros [Hni Hnd]. split; [|by apply IH].
  contradict Hni. apply list_elem_of_In in Hni. apply in_map_iff in Hni as (eg' & Hk & Hin).
  apply list_elem_of_In, in_map_iff. exists eg'. split; [|done].
  rewrite Forall_forall in Hns. apply list_elem_of_In in Hin.
  destruct (slash_key_inj _ _ _ _ (Hns _ Hin) Heg Hk) as [-> ->]. done.
Qed.

(** The documented decision of a gateway: a dial is allowed when a block of a
    route that targets the gateway matches it, or the default is not deny-all. *)
Definition allowed (eg : EgressGateway) (routes : list EgressL4Route) (dst : AddrPort)
    (proto : L4Protocol) (name : string) : Prop :=
  DefaultPolicy eg <> EgressPolicyDenyAll
  \/ exists route rule m, In route routes /\ targets route eg /\ In rule (Rules route)
       /\ In m (Matches rule) /\ block_matches m dst proto name.

Lemma policyOf_allow eg routes dst proto name :
  routes_wf routes ->
  state_allow (policyOf eg routes) dst proto name = true <-> allowed eg routes dst proto name.
Proof.
  intros Hwf. unfold state_allow, policyOf, allowed; cbn.
  set (R := routesForEG routes (eg_namespace eg) (eg_name eg)).
  assert (routes_wf R) as HwfR.
  { intros route rule m Hr. apply routesForEG_spec in Hr as [Hr _]. by eapply Hwf. }
  pose proof (compileRouteTable_spec R dst proto name HwfR) as HR.
  assert ((exists route rule m, In route R /\ In rule (Rules route) /\ In m (Matches rule)
             /\ block_matches m dst proto name)
          <-> exists route rule m, In route routes /\ targets route eg /\ In rule (Rules route)
             /\ In m (Matches rule) /\ block_matches m dst proto name) as HE.
  { unfold R. setoid_rewrite routesForEG_spec. naive_solver. }
  rewrite <- HE, <- HR.
  destruct (table_match (compileRouteTable R) dst proto name) as [res|].
  - split; [intros _; right; eauto|done].
  - rewrite negb_true_iff, String.eqb_neq. split; [by left|].
    intros [?|[? ?]]; [done|discriminate].
Qed.

(** *** Steps: the operations that change a router *)
Inductive router_step : Router -> Router -> Prop :=
| step_sync eg routes r : router_step r (fst (SyncPolicy eg routes r))
| step_rebuild gws routes r : router_step r (Rebuild gws routes r).

Definition router_reachable (d : EgressPolicy) (r : Router) : Prop :=
  rtc router_step (NewRouter d) r.

Lemma Rebuild_sync_all gws routes r :
  Rebuild gws routes r =
  sync_all routes gws (mkRouter (compileRouteTable routes) (defaultPolicy r) (policies r) (store r)).
Proof. done. Qed.

Lemma router_step_inv r r' : router_step r r' -> router_inv r -> router_inv r'.
Proof.
  destruct 1; intros Hr; [by apply SyncPolicy_inv|].
  rewrite Rebuild_sync_all. apply sync_all_inv. by destruct Hr; split.
Qed.

Lemma router_reachable_inv d r : router_reachable d r -> router_inv r.
Proof.
  intros H. assert (forall a b, rtc router_step a b -> router_inv a -> router_inv b) as Hr.
  { induction 1; eauto using router_step_inv. }
  eapply Hr; [done|]. apply NewRouter_inv.
Qed.

(** The handle a sandbox was given for a gateway stays the gateway's handle
    through every later registration and rebuild. *)
Theorem handle_stable : forall r r' ns name h,
  rtc router_step r r' -> PolicyFor ns name r = Some h -> PolicyFor ns name r' = Some h.
Proof.
  unfold PolicyFor. induction 1 as [|r1 r2 r3 Hstep _ IH]; [done|].
  intros H. apply IH. destruct Hstep; [by apply SyncPolicy_stable|].
  rewrite Rebuild_sync_all. by apply sync_all_stable.
Qed.

(** Through a handle handed out at any earlier time, a rebuild decides a
    dial by the documented policy of the gateway as listed in the rebuild: the
    routes that target it and its default. *)
Theorem Rebuild_refreshes_handle : forall d r gws routes eg h dst proto name,
  router_reachable d r -> gateways_wf gws -> routes_wf routes ->
  In eg gws -> PolicyFor (eg_namespace eg) (eg_name eg) r = Some h ->
  Allow (Rebuild gws routes r) (Some h) dst proto name = true <-> allowed eg routes dst proto name.
Proof.
  intros d r gws routes eg h dst proto name Hreach Hgws Hroutes Hin Hh.
  apply router_reachable_inv in Hreach. rewrite Rebuild_sync_all.
  set (r0 := mkRouter _ _ _ _).
  assert (router_inv r0) as Hr0 by (destruct Hreach; split; auto).
  destruct (sync_all_registered routes gws r0 eg Hr0 (eg_keys_NoDup _ Hgws) Hin) as (h' & Hp & Hst).
  assert (h' = h) as ->.
  { assert (policies r0 !! eg_key eg = Some h) as H by done.
    apply (sync_all_stable routes gws) in H. congruence. }
  unfold Allow. rewrite Hst. by apply policyOf_allow.
Qed.

(** A rebuild leaves alone the policy of a gateway that is not in its list:
    a sandbox bound to a gateway that was deleted keeps its last policy. *)
Theorem Rebuild_frame : forall d r gws routes ns name h dst proto dstName,
  router_reachable d r -> PolicyFor ns name r = Some h ->
  policyKey ns name ∉ map eg_key gws ->
  Allow (Rebuild gws routes r) (Some h) dst proto dstName = Allow r (Some h) dst proto dstName.
Proof.
  intros d r gws routes ns name h dst proto dstName Hreach Hh Hk.
  apply router_reachable_inv in Hreach. rewrite Rebuild_sync_all.
  set (r0 := mkRouter _ _ _ _).
  assert (router_inv r0) as Hr0 by (destruct Hreach; split; auto).
  unfold Allow. rewrite (sync_all_other routes gws r0 (policyKey ns name) h Hr0 Hk Hh). done.
Qed.

Lemma sync_all_table routes gws r :
  table (sync_all routes gws r) = table r /\ defaultPolicy (sync_all routes gws r) = defaultPolicy r.
Proof.
  revert r. induction gws as [|eg gws IH]; intros r; [done|].
  change (sync_all routes (eg :: gws) r) with (sync_all routes gws (fst (SyncPolicy eg routes r))).
  destruct (IH (fst (SyncPolicy eg routes r))) as [-> ->].
  unfold SyncPolicy. by destruct (policies r !! _).
Qed.

Lemma table_match_in t dst proto name res :
  table_match t dst proto name = Some res -> exists e, In e t /\ result e = res.
Proof.
  induction t as [|e t IH]; cbn; [discriminate|].
  destruct (entry_matches e dst proto name); [intros [= <-]; eauto|].
  intros H. destruct (IH H) as (e' & ? & ?). eauto.
Qed.

(** A compiled rule never denies: it passes through or names a backend. *)
Lemma compileRouteTable_never_deny routes e :
  In e (compileRouteTable routes) -> Action (result e) <> ActionDeny.
Proof.
  intros He. apply in_flat_map in He as (route & _ & He).
  apply in_flat_map in He as (rule & _ & He). apply in_map_iff in He as (m & <- & _).
  cbn. by destruct (BackendRefs rule).
Qed.

(** The global table: a rebuilt router refuses a connection exactly when no
    block of any route matches it and the router's default is deny-all. *)
Theorem Route_deny_iff : forall r gws routes dst proto name,
  routes_wf routes ->
  Action (Route (Rebuild gws routes r) dst proto name) = ActionDeny <->
  defaultPolicy r = EgressPolicyDenyAll
  /\ ~ exists route rule m, In route routes /\ In rule (Rules route) /\ In m (Matches rule)
        /\ block_matches m dst proto name.
Proof.
  intros r gws routes dst proto name Hwf. rewrite Rebuild_sync_all.
  unfold Route. destruct (sync_all_table routes gws
    (mkRouter (compileRouteTable routes) (defaultPolicy r) (policies r) (store r))) as [-> ->].
  cbn [table defaultPolicy]. rewrite <- (compileRouteTable_spec _ _ _ _ Hwf).
  destruct (table_match (compileRouteTable routes) dst proto name) as [res|] eqn:E.
  - split; [|intros [_ H]; exfalso; eauto].
    intros Ha. exfalso. apply table_match_in in E as (e & He & <-).
    by apply compileRouteTable_never_deny in He.
  - destruct (String.eqb_spec (defaultPolicy r) EgressPolicyDenyAll); cbn.
    + split; [|done]. intros _. split; [done|]. intros [? ?]. discriminate.
    + split; [discriminate|]. by intros [? _].
Qed.

(** ** Blocks the schema would reject *)

(** A block whose CIDRs all fail to parse, with no other criterion, compiles
    to a rule without a destination criterion: the gateway it targets lets every
    dial through, also under deny-all. *)
Theorem malformed_cidrs_fail_open : forall eg routes route rule m dst proto name,
  In route routes -> targets route eg -> In rule (Rules route) -> In m (Matches rule) ->
  Forall (fun c => ParseCIDR c = None) (DestinationCIDRs m) ->
  DestinationHostnames m = [] -> Ports m = [] -> Protocol m = None ->
  state_allow (policyOf eg routes) dst proto name = true.
Proof.
  intros eg routes route rule m dst proto name Hr Ht Hru Hm Hc Hh Hp Hpr.
  assert (exists r, table_match (ps_routes (policyOf eg routes)) dst proto name = Some r) as [res Hres].
  { apply table_match_exists. exists (compileMatch rule m). split.
    - apply in_flat_map. exists route. split; [by apply routesForEG_spec|].
      apply in_flat_map. exists rule. split; [done|]. by apply in_map.
    - assert (flat_map compileCIDR (DestinationCIDRs m) = []) as H0.
      { clear - Hc. induction Hc as [|c l Hc _ IH]; cbn; [done|]. unfold compileCIDR at 1. by rewrite Hc. }
      unfold entry_matches, compileMatch; cbn. by rewrite H0, Hh, Hp, Hpr. }
  unfold state_allow. by rewrite Hres.
Qed.

(** ** Witnesses *)

Definition sample_block : L4RouteMatch :=
  mkRouteMatch ["10.0.0.0/8"; "2001:db8::/32"] ["*.openai.com"]
    [mkPortMatch (Some 443) None None; mkPortMatch None (Some 8000) (Some 8080)] (Some L4ProtocolTCP).
Definition sample_gateway : EgressGateway := mkGateway "default" "eg" EgressPolicyDenyAll.
Definition sample_route (m : L4RouteMatch) : EgressL4Route :=
  mkRoute "default" "r" [mkParentRef "eg" None] [mkRule [m] []].
Definition sample_router : Router := fst (SyncPolicy sample_gateway [] (NewRouter EgressPolicyAllowAll)).

Lemma sample_routes_wf : routes_wf [sample_route sample_block].
Proof.
  intros route rule m [<-|[]] [<-|[]] [<-|[]]. split; cbn.
  - repeat constructor.
  - repeat constructor; vm_compute; congruence.
Defined.

Lemma sample_gateways_wf : gateways_wf [sample_gateway].
Proof. split; repeat constructor. intros H. inversion H. Defined.

Lemma sample_router_reachable : router_reachable EgressPolicyAllowAll sample_router.
Proof. eapply rtc_l; [apply step_sync|apply rtc_refl]. Defined.

Lemma handle_stable_witness :
  PolicyFor "default" "eg" (Rebuild [sample_gateway] [sample_route sample_block] sample_router) = Some 0%nat.
Proof.
  apply (handle_stable sample_router _ "default" "eg" 0%nat).
  - eapply rtc_l; [apply step_rebuild|apply rtc_refl].
  - vm_compute. reflexivity.
Defined.

Lemma Rebuild_refreshes_handle_witness :
  Allow sample_router (Some 0%nat) (mkAddrPort (Addr4 (10 * 2 ^ 24 + 7)) 443) L4ProtocolTCP "" = false
  /\ (Allow (Rebuild [sample_gateway] [sample_route sample_block] sample_router) (Some 0%nat)
         (mkAddrPort (Addr4 (10 * 2 ^ 24 + 7)) 443) L4ProtocolTCP "" = true
      <-> allowed sample_gateway [sample_route sample_block]
            (mkAddrPort (Addr4 (10 * 2 ^ 24 + 7)) 443) L4ProtocolTCP "").
Proof.
  split; [vm_compute; reflexivity|].
  apply (Rebuild_refreshes_handle EgressPolicyAllowAll sample_router [sample_gateway]).
  - apply sample_router_reachable.
  - apply sample_gateways_wf.
  - apply sample_routes_wf.
  - left; reflexivity.
  - vm_compute. reflexivity.
Defined.

Lemma Rebuild_frame_witness :
  Allow (Rebuild [] [sample_route sample_block] sample_router) (Some 0%nat)
    (mkAddrPort (Addr4 1) 443) L4ProtocolTCP "" = false.
Proof.
  etransitivity; [apply (Rebuild_frame EgressPolicyAllowAll sample_router [] [sample_route sample_block] "default" "eg")|].
  - apply sample_router_reachable.
  - vm_compute. reflexivity.
  - cbn. intros H. inversion H.
  - vm_compute. reflexivity.
Defined.

Lemma Route_deny_iff_witness :
  Action (Route (Rebuild [] [sample_route sample_block] (NewRouter EgressPolicyDenyAll))
            (mkAddrPort (Addr4 1) 443) L4ProtocolTCP "") = ActionDeny
  /\ ~ exists route rule m, In route [sample_route sample_block] /\ In rule (Rules route)
        /\ In m (Matches rule) /\ block_matches m (mkAddrPort (Addr4 1) 443) L4ProtocolTCP "".
Proof.
  pose proof (Route_deny_iff (NewRouter EgressPolicyDenyAll) [] [sample_route sample_block]
    (mkAddrPort (Addr4 1) 443) L4ProtocolTCP "" sample_routes_wf) as H.
  assert (Action (Route (Rebuild [] [sample_route sample_block] (NewRouter EgressPolicyDenyAll))
            (mkAddrPort (Addr4 1) 443) L4ProtocolTCP "") = ActionDeny) as E by (vm_compute; reflexivity).
  split; [exact E|]. apply (proj1 H E).
Defined.

Definition mistyped_block : L4RouteMatch := mkRouteMatch ["10.0.0.0/33"] [] [] None.

Lemma malformed_cidrs_fail_open_witness :
  state_allow (policyOf sample_gateway [sample_route mistyped_block])
    (mkAddrPort (Addr4 134744072) 22) L4ProtocolTCP "" = true.
Proof.
  apply (malformed_cidrs_fail_open sample_gateway [sample_route mistyped_block]
           (sample_route mistyped_block) (mkRule [mistyped_block] []) mistyped_block).
  - left; reflexivity.
  - exists (mkParentRef "eg" None). split; [left; reflexivity|]. split; reflexivity.
  - left; reflexivity.
  - left; reflexivity.
  - constructor; [vm_compute; reflexivity|constructor].
  - reflexivity.
  - reflexivity.
  - reflexivity.
Defined.

End Egress.
