(* ===== verification/EgressShape.v ===== *)
(** * Listener shapes and backends

    [api/clrk/v1alpha1/egress_shape.go]: the on-the-wire shape of an
    EgressListener, its encoding in the Gateway listener section name and its
    rank; and [internal/worker/agents/egress_resolve.go]: the listener backends
    a worker derives from an EgressGateway's spec and status. *)

From Stdlib Require Import ZArith Lia Ascii String List.
From stdpp Require Import base strings list gmap.
From S2P Require Import Prelude GoStrings Netip Egress.
Import GoStrings.

Module EgressShape.
#[local] Open Scope string_scope.

(** [EgressListenerShape] *)
Inductive shape := ShapeHTTP | ShapeHTTPS | ShapeTLSTerminate | ShapeTLSPassthrough | ShapeTCP.

#[global] Instance shape_eq_dec : EqDecision shape.
Proof. solve_decision. Defined.

Definition shape_string (s : shape) : string :=
  match s with
  | ShapeHTTP => "http"
  | ShapeHTTPS => "https"
  | ShapeTLSTerminate => "tls-terminate"
  | ShapeTLSPassthrough => "tls-passthrough"
  | ShapeTCP => "tcp"
  end.

Definition listenerNameSep : string := "--".

Record EgressListener := mkListener {
  l_name : string;
  l_protocol : string;
  l_port : option Z;
  l_tls_mode : option string;
}.

Inductive shape_error :=
| InvalidTLSMode (name mode : string)
| UDPUnsupported (name : string)
| UnknownProtocol (name protocol : string).

Definition ShapeForListener (l : EgressListener) : outcome shape_error shape :=
  if String.eqb (l_protocol l) "HTTP" then Ok ShapeHTTP
  else if String.eqb (l_protocol l) "HTTPS" then Ok ShapeHTTPS
  else if String.eqb (l_protocol l) "TLS" then
    let mode := match l_tls_mode l with
                | Some m => if String.eqb m "" then "Passthrough" else m
                | None => "Passthrough"
                end in
    if String.eqb mode "Terminate" then Ok ShapeTLSTerminate
    else if String.eqb mode "Passthrough" then Ok ShapeTLSPassthrough
    else Err (InvalidTLSMode (l_name l) mode)
  else if String.eqb (l_protocol l) "TCP" then Ok ShapeTCP
  else if String.eqb (l_protocol l) "UDP" then Err (UDPUnsupported (l_name l))
  else Err (UnknownProtocol (l_name l) (l_protocol l)).

Definition EncodeListenerSectionName (name : string) (s : shape) : string :=
  name ++ listenerNameSep ++ shape_string s.

Definition shape_of_string (s : string) : option shape :=
  if String.eqb s "http" then Some ShapeHTTP
  else if String.eqb s "https" then Some ShapeHTTPS
  else if String.eqb s "tls-terminate" then Some ShapeTLSTerminate
  else if String.eqb s "tls-passthrough" then Some ShapeTLSPassthrough
  else if String.eqb s "tcp" then Some ShapeTCP
  else None.

Definition ParseListenerSectionName (section : string) : option (string * shape) :=
  match LastIndex section listenerNameSep with
  | None => None
  | Some idx =>
      let name := take_str idx section in
      match shape_of_string (drop_str (idx + String.length listenerNameSep) section) with
      | Some s => Some (name, s)
      | None => None
      end
  end.

Definition ShapePriority (s : shape) : Z :=
  match s with
  | ShapeTLSTerminate => 5
  | ShapeHTTPS => 4
  | ShapeHTTP => 3
  | ShapeTLSPassthrough => 2
  | ShapeTCP => 1
  end.

(** ** Backends ([internal/egress/backend.go], [egress_resolve.go]) *)

Record BackendListener := mkBackend {
  b_name : string;
  b_addr : string;
  b_shape : string;
  MatchPort : Z;
  Priority : Z;
}.

Record EgressListenerStatus := mkListenerStatus { ls_name : string; BackendAddress : string }.

(** The gateway object: the policy part and the listeners of spec and status. *)
Record GatewayObject := mkGatewayObject {
  go_eg : Egress.EgressGateway;
  go_spec_listeners : list EgressListener;
  go_status_listeners : list EgressListenerStatus;
}.

Inductive resolve_error :=
| GetCASecret
| EmptyCA
| GetGateway
| NoBackendsReady
| ListRoutes.

(** [specByName]: a later listener of the same name replaces an earlier one. *)
Definition specByName (ls : list EgressListener) : gmap string EgressListener :=
  fold_left (fun m el => <[l_name el := el]> m) ls ∅.

Definition backendOf (specs : gmap string EgressListener) (ls : EgressListenerStatus)
    : list BackendListener :=
  if String.eqb (BackendAddress ls) "" then []
  else match specs !! ls_name ls with
       | None => []
       | Some spec =>
           match ShapeForListener spec with
           | Ok s => [mkBackend (ls_name ls) (BackendAddress ls) (shape_string s)
                        (match l_port spec with Some p => p | None => 0 end) (ShapePriority s)]
           | _ => []
           end
       end.

(** The two API reads are parameters: the gateway ([None]: the Get failed) and
    the routes of the namespace. *)
Definition resolveEgressBackendsAndPolicy (get : option GatewayObject)
    (list_routes : option (list Egress.EgressL4Route)) (router : Egress.Router)
    : outcome resolve_error (list BackendListener * Egress.handle) * Egress.Router :=
  match get with
  | None => (Err GetGateway, router)
  | Some eg =>
      let backends := flat_map (backendOf (specByName (go_spec_listeners eg)))
                        (go_status_listeners eg) in
      match backends with
      | [] => (Err NoBackendsReady, router)
      | _ =>
          match list_routes with
          | None => (Err ListRoutes, router)
          | Some routes =>
              let '(router', h) := Egress.SyncPolicy (go_eg eg) routes router in
              (Ok (backends, h), router')
          end
      end
  end.

(** [fetchEgressCA]: the Secret's certificate, or an error when the Secret is
    missing or the value empty. *)
Definition fetchEgressCA (secret : option string) : outcome resolve_error string :=
  match secret with
  | None => Err GetCASecret
  | Some caPEM => if String.eqb caPEM "" then Err EmptyCA else Ok caPEM
  end.

Record EgressBundle := mkBundle {
  CAPEM : string;
  Backends : list BackendListener;
  Policy : option Egress.handle;
}.

(** [ResolveEgress]: only the first reference is used; none at all means no
    MITM and a direct dial. *)
Definition ResolveEgress (refs : list string) (secret : string -> option string)
    (get : string -> option GatewayObject) (list_routes : option (list Egress.EgressL4Route))
    (router : Egress.Router) : outcome resolve_error EgressBundle * Egress.Router :=
  match refs with
  | [] => (Ok (mkBundle "" [] None), router)
  | egName :: _ =>
      match fetchEgressCA (secret egName) with
      | Err e => (Err e, router)
      | Panic => (Panic, router)
      | Ok caPEM =>
          match resolveEgressBackendsAndPolicy (get egName) list_routes router with
          | (Ok (backends, policy), router') => (Ok (mkBundle caPEM backends (Some policy)), router')
          | (Err e, router') => (Err e, router')
          | (Panic, router') => (Panic, router')
          end
      end
  end.

(** ** Section names *)

Lemma shape_of_string_shape s : shape_of_string (shape_string s) = Some s.
Proof. by destruct s. Qed.

Lemma shape_of_string_inv str s : shape_of_string str = Some s -> str = shape_string s.
Proof.
  unfold shape_of_string. intros H.
  repeat (split_if; [bool_to_prop; injection H as <-; done|]). discriminate.
Qed.

Lemma LastIndex_sep name s :
  LastIndex (name ++ listenerNameSep ++ shape_string s) listenerNameSep = Some (String.length name).
Proof.
  induction name as [|c name IH]; [by destruct s|].
  change (String c name ++ listenerNameSep ++ shape_string s)
    with (String c (name ++ listenerNameSep ++ shape_string s)).
  cbn [LastIndex String.length]. by rewrite IH.
Qed.

(** The controller's section name is parsed back to the listener and its
    shape, for every listener name, and only section names the controller can
    have written are accepted. *)
Theorem section_name_roundtrip : forall section name s,
  ParseListenerSectionName section = Some (name, s) <-> section = EncodeListenerSectionName name s.
Proof.
  intros section name s. unfold ParseListenerSectionName, EncodeListenerSectionName. split.
  - destruct (LastIndex section listenerNameSep) as [n|] eqn:E; [|discriminate].
    apply LastIndex_split in E.
    destruct (shape_of_string (drop_str (n + String.length listenerNameSep) section)) as [s'|] eqn:Hs;
      [|discriminate]. intros [= <- <-]. apply shape_of_string_inv in Hs. by rewrite <- Hs.
  - intros ->. rewrite LastIndex_sep, take_str_app.
    replace (drop_str _ _) with (shape_string s); [by rewrite shape_of_string_shape|].
    rewrite <- str_length_app, <- str_app_assoc. symmetry. apply drop_str_app.
Qed.

(** ** Backends a worker derives *)

Lemma specByName_lookup ls name spec :
  specByName ls !! name = Some spec -> In spec ls /\ l_name spec = name.
Proof.
  unfold specByName.
  assert (forall m : gmap string EgressListener, fold_left (fun m el => <[l_name el := el]> m) ls m !! name = Some spec ->
            m !! name = Some spec \/ In spec ls /\ l_name spec = name) as H.
  { induction ls as [|el ls IH]; cbn; intros m Hm; [by left|].
    destruct (IH _ Hm) as [Hi|[? ?]]; [|by right; auto].
    destruct (decide (l_name el = name)) as [E|E].
    - rewrite E, lookup_insert_eq in Hi. injection Hi as ->. auto.
    - rewrite lookup_insert_ne in Hi by done. auto. }
  intros Hl. destruct (H _ Hl) as [?|?]; [simplify_map_eq|done].
Qed.

(** Every backend a worker resolves has an address and comes from a listener
    that is both in the gateway's status and in its spec, with the shape, port
    and rank of the spec listener; when nothing is ready the resolution fails
    and the router is unchanged. *)
Theorem resolveEgressBackends_spec : forall get list_routes router backends h router',
  resolveEgressBackendsAndPolicy get list_routes router = (Ok (backends, h), router') ->
  exists eg routes, get = Some eg /\ list_routes = Some routes /\ backends <> []
    /\ Egress.PolicyFor (Egress.eg_namespace (go_eg eg)) (Egress.eg_name (go_eg eg)) router' = Some h
    /\ Forall (fun b => b_addr b <> "" /\ exists spec s,
         In spec (go_spec_listeners eg) /\ l_name spec = b_name b
         /\ In (mkListenerStatus (b_name b) (b_addr b)) (go_status_listeners eg)
         /\ ShapeForListener spec = Ok s /\ b_shape b = shape_string s
         /\ Priority b = ShapePriority s
         /\ MatchPort b = match l_port spec with Some p => p | None => 0%Z end) backends.
Proof.
  intros get list_routes router backends h router'. unfold resolveEgressBackendsAndPolicy.
  destruct get as [eg|]; [|discriminate].
  destruct (flat_map _ _) as [|b0 bs] eqn:Hb; [discriminate|].
  destruct list_routes as [routes|]; [|discriminate].
  pose proof (Egress.SyncPolicy_handle (go_eg eg) routes router) as Hh.
  destruct (Egress.SyncPolicy (go_eg eg) routes router) as [r1 h1].
  intros [= <- <- <-]. exists eg, routes. split_and!; [done|done|done|apply Hh|].
  rewrite <- Hb. apply List.Forall_forall. intros b Hin.
  apply in_flat_map in Hin as (ls & Hls & Hin). unfold backendOf in Hin.
  destruct (String.eqb_spec (BackendAddress ls) "") as [|Hne]; [done|].
  destruct (specByName _ !! _) as [spec|] eqn:Hs; [|done].
  destruct (ShapeForListener spec) as [s| |] eqn:Hsh; [|done|done].
  destruct Hin as [<-|[]]. apply specByName_lookup in Hs as [Hspec Hname]. cbn.
  split; [done|]. exists spec, s. split_and!; try done. by destruct ls.
Qed.

Definition sample_object : GatewayObject :=
  mkGatewayObject (Egress.mkGateway "default" "eg" Egress.EgressPolicyDenyAll)
    [mkListener "web" "TLS" None (Some "Terminate"); mkListener "raw" "TCP" (Some 5432) None]
    [mkListenerStatus "web" "eg.svc:10443"; mkListenerStatus "raw" ""; mkListenerStatus "gone" "x:1"].

Lemma resolveEgressBackends_spec_witness :
  exists backends h router',
    resolveEgressBackendsAndPolicy (Some sample_object) (Some []) (Egress.NewRouter "allow-all")
    = (Ok (backends, h), router') /\ Forall (fun b => b_addr b <> "") backends.
Proof.
  destruct (resolveEgressBackendsAndPolicy (Some sample_object) (Some []) (Egress.NewRouter "allow-all"))
    as [[[bs h]| |] r'] eqn:E; [|vm_compute in E; discriminate E|vm_compute in E; discriminate E].
  exists bs, h, r'. split; [reflexivity|].
  destruct (resolveEgressBackends_spec _ _ _ _ _ _ E) as (eg & routes & _ & _ & _ & _ & H).
  eapply Forall_impl; [exact H|]. intros b [Hb _]. exact Hb.
Defined.

End EgressShape.
