(* ===== verification/Bridge.v ===== *)
(** * The egress bridge

    [internal/worker/sandbox/egress_bridge.go]: the worker-side end of every
    sandbox connection.  [handleConn] reads the PROXY v2 frame, finds the
    sandbox's egress state, refuses worker-local destinations, applies the
    policy, picks a backend and dials.  Network results (the dial, the local
    address of the dialled connection, the write) are parameters. *)

From Stdlib Require Import ZArith Lia Ascii String List.
From stdpp Require Import base strings list.
From Stdlib.Strings Require Import Byte.
From S2P Require Import Prelude GoStrings Netip ProxyProto Egress EgressShape.
Import ProxyProto EgressShape.

Module Bridge.
#[local] Open Scope Z_scope.

(** ** Backend selection *)

(** The loop body of [pickBackend]: [best] with [bestSpecific]. *)
Definition pickStep (dstPort : Z) (acc : option (BackendListener * bool)) (b : BackendListener)
    : option (BackendListener * bool) :=
  if String.eqb (b_addr b) "" then acc
  else
    let specific := negb (MatchPort b =? 0) && (uint16 (MatchPort b) =? dstPort) in
    if negb (MatchPort b =? 0) && negb specific then acc
    else match acc with
         | None => Some (b, specific)
         | Some (best, bestSpecific) =>
             if specific && negb bestSpecific then Some (b, specific)
             else if Bool.eqb specific bestSpecific && (Priority best <? Priority b)
             then Some (b, bestSpecific)
             else acc
         end.

Definition pickBackend (backends : list BackendListener) (dstPort : Z) : option BackendListener :=
  option_map fst (fold_left (pickStep dstPort) backends None).

(** ** The worker-local destination filter *)

Inductive DenyReason :=
| DenyReasonLoopback | DenyReasonUnspecified | DenyReasonLinkLocal | DenyReasonMulticast
| DenyReasonWorkerLocalIfAddr | DenyReasonPolicy | DenyReasonOrphanSandbox.

(** An interface address: an [*net.IPNet], an [*net.IPAddr] or another type. *)
Inductive ifaddr :=
| IPNetAddr (ip : list byte)
| IPAddrAddr (ip : list byte)
| OtherAddr.

Inductive filter_error := EnumerateInterfaces | InterfaceAddrs.

(** [localDstFilter]: the worker's own addresses, unmapped. *)
Definition localDstFilter := list Addr.

Definition ifaddr_ip (a : ifaddr) : list Addr :=
  match a with
  | IPNetAddr ip | IPAddrAddr ip =>
      match AddrFromSlice ip with Some na => [Unmap na] | None => [] end
  | OtherAddr => []
  end.

Fixpoint collectIfs (ifs : list (option (list ifaddr))) : outcome filter_error localDstFilter :=
  match ifs with
  | [] => Ok []
  | None :: _ => Err InterfaceAddrs
  | Some addrs :: rest =>
      let! more := collectIfs rest in Ok (flat_map ifaddr_ip addrs ++ more)%list
  end.

Definition newLocalDstFilter (ifs : option (list (option (list ifaddr))))
    : outcome filter_error localDstFilter :=
  match ifs with
  | None => Err EnumerateInterfaces
  | Some l => collectIfs l
  end.

Definition addr_mem (a : Addr) (l : list Addr) : bool := existsb (fun b => bool_decide (a = b)) l.

(** [deny] on a filter; a nil filter allows everything. *)
Definition deny (f : option localDstFilter) (dst : AddrPort) : option DenyReason :=
  match f with
  | None => None
  | Some localIPs =>
      let addr := ap_addr dst in
      if IsLoopback addr then Some DenyReasonLoopback
      else if addr_mem addr localIPs then Some DenyReasonWorkerLocalIfAddr
      else if IsUnspecified addr then Some DenyReasonUnspecified
      else if IsLinkLocalUnicast addr then Some DenyReasonLinkLocal
      else if IsMulticast addr then Some DenyReasonMulticast
      else None
  end.

(** ** One connection *)

(** [net.Addr] of the dialled connection: a TCP address or something else. *)
Inductive netAddr := TCPAddr (ip : list byte) (port : Z) | OtherNetAddr.

Definition sanitizedSrc (la : netAddr) (dst : AddrPort) : AddrPort :=
  match la with
  | TCPAddr ip port =>
      let addr := match AddrFromSlice ip with Some a => a | None => AddrInvalid end in
      mkAddrPort (Unmap addr) (uint16 port)
  | OtherNetAddr =>
      match ap_addr dst with
      | Addr6 _ _ => if Is4In6 (ap_addr dst) then mkAddrPort (Addr4 0) 0 else mkAddrPort (Addr6 0 "") 0
      | _ => mkAddrPort (Addr4 0) 0
      end
  end.

Record EgressState := mkEgressState {
  st_identity : AgentIdentity;
  st_backends : list BackendListener;
  st_policy : option Egress.handle;
}.

Inductive FailureReason :=
| FailureReasonDirectDial | FailureReasonBackendDial | FailureReasonProxyEncode | FailureReasonProxyWrite.

(** The telemetry of one connection: [emitMalformed], [emitDeny] and
    [emitFailure], with the identity they attribute it to. *)
Inductive event :=
| EvMalformed (e : proxy_error)
| EvDeny (r : DenyReason) (id : AgentIdentity) (sandboxID : string) (dst : AddrPort) (name : string)
| EvFailure (r : FailureReason) (id : AgentIdentity) (sandboxID : string) (dst : AddrPort) (name : string).

(** How the connection ends: dropped before a dial, after a dial (the upstream
    connection, if any, is closed), or spliced, with the bytes first written to
    the upstream and the client bytes that are still to be copied. *)
Inductive dialTarget := DialDirect (dst : AddrPort) | DialBackend (addr : string).

Inductive conn_end :=
| Dropped
| DialFailed (t : dialTarget)
| Spliced (t : dialTarget) (prologue : list byte) (rest : list byte).

Section HandleConn.
Variable lookup : string -> option EgressState.
Variable filter : option localDstFilter.
Variable router : Egress.Router.
(** [DialContext]: the local address of the new connection, or an error. *)
Variable dial : dialTarget -> option netAddr.
(** Whether [upstream.Write(hdrBytes)] succeeds. *)
Variable write_ok : list byte -> bool.

Definition clearSandboxID (id : AgentIdentity) : AgentIdentity :=
  mkIdentity (Kind id) (Namespace id) (Name id) (UID id) (Revision id) (InvocationID id) "".

Definition dialUpstream (state : EgressState) (hdr : Header) (rest : list byte) : conn_end * list event :=
  let sandboxID := SandboxID (Identity hdr) in
  let origDst := Destination hdr in
  let fail r := [EvFailure r (st_identity state) sandboxID origDst (DstName hdr)] in
  match pickBackend (st_backends state) (ap_port origDst) with
  | None =>
      match dial (DialDirect origDst) with
      | None => (DialFailed (DialDirect origDst), fail FailureReasonDirectDial)
      | Some _ => (Spliced (DialDirect origDst) [] rest, [])
      end
  | Some backend =>
      let t := DialBackend (b_addr backend) in
      match dial t with
      | None => (DialFailed t, fail FailureReasonBackendDial)
      | Some la =>
          let src := sanitizedSrc la origDst in
          match EncodeHeader src origDst (clearSandboxID (st_identity state)) (DstName hdr) with
          | Ok hdrBytes =>
              if write_ok hdrBytes then (Spliced t hdrBytes rest, [])
              else (DialFailed t, fail FailureReasonProxyWrite)
          | _ => (DialFailed t, fail FailureReasonProxyEncode)
          end
      end
  end.

(** [handleConn] on a client whose stream is [r]. *)
Definition handleConn (r : list byte) : conn_end * list event :=
  match ParseHeader r with
  | (Err e, _) => (Dropped, [EvMalformed e])
  | (Panic, _) => (Dropped, [])
  | (Ok hdr, rest) =>
      let sandboxID := SandboxID (Identity hdr) in
      let origDst := Destination hdr in
      let drop r id := (Dropped, [EvDeny r id sandboxID origDst (DstName hdr)]) in
      match lookup sandboxID with
      | None => drop DenyReasonOrphanSandbox (Identity hdr)
      | Some state =>
          match deny filter origDst with
          | Some reason => drop reason (st_identity state)
          | None =>
              if Egress.Allow router (st_policy state) origDst Egress.L4ProtocolTCP (DstName hdr)
              then dialUpstream state hdr rest
              else drop DenyReasonPolicy (st_identity state)
          end
      end
  end.
End HandleConn.

(** ** Properties of backend selection *)

(** A listener takes part when it has an address and is a catch-all or is
    bound to this port; the ones bound to the port come first, then rank. *)
Definition candidate (dstPort : Z) (b : BackendListener) : bool :=
  negb (String.eqb (b_addr b) "")
  && ((MatchPort b =? 0) || (uint16 (MatchPort b) =? dstPort)).

Definition is_specific (dstPort : Z) (b : BackendListener) : bool :=
  negb (MatchPort b =? 0) && (uint16 (MatchPort b) =? dstPort).

(** [beats b a]: [b] is preferred to [a]. *)
Definition beats (dstPort : Z) (b a : BackendListener) : Prop :=
  (is_specific dstPort b = true /\ is_specific dstPort a = false)
  \/ (is_specific dstPort b = is_specific dstPort a /\ Priority a < Priority b).

Definition pick_inv (dstPort : Z) (seen : list BackendListener) (acc : option (BackendListener * bool)) : Prop :=
  match acc with
  | None => Forall (fun b => candidate dstPort b = false) seen
  | Some (best, s) =>
      s = is_specific dstPort best /\
      exists l1 l2, seen = (l1 ++ best :: l2)%list /\ candidate dstPort best = true
        /\ Forall (fun a => candidate dstPort a = true -> beats dstPort best a) l1
        /\ Forall (fun a => candidate dstPort a = true -> ~ beats dstPort a best) l2
  end.

Lemma pickStep_skip dstPort acc b : candidate dstPort b = false -> pickStep dstPort acc b = acc.
Proof.
  unfold candidate, pickStep. destruct (String.eqb (b_addr b) ""); [done|].
  destruct (MatchPort b =? 0), (uint16 (MatchPort b) =? dstPort); cbn; done.
Qed.

Lemma pickStep_candidate dstPort acc b : candidate dstPort b = true ->
  pickStep dstPort acc b =
  match acc with
  | None => Some (b, is_specific dstPort b)
  | Some (best, s) =>
      if is_specific dstPort b && negb s then Some (b, is_specific dstPort b)
      else if Bool.eqb (is_specific dstPort b) s && (Priority best <? Priority b) then Some (b, s)
      else acc
  end.
Proof.
  unfold candidate, pickStep, is_specific. destruct (String.eqb (b_addr b) ""); [done|].
  destruct (MatchPort b =? 0), (uint16 (MatchPort b) =? dstPort); cbn; done.
Qed.

Lemma beats_trans dstPort a b c : beats dstPort a b -> beats dstPort b c -> beats dstPort a c.
Proof. unfold beats. destruct (is_specific dstPort a), (is_specific dstPort b), (is_specific dstPort c); intuition (congruence || lia). Qed.

Lemma not_beats_trans dstPort a b c : ~ beats dstPort a b -> beats dstPort c b -> beats dstPort c a.
Proof. unfold beats. destruct (is_specific dstPort a), (is_specific dstPort b), (is_specific dstPort c); intuition (congruence || lia). Qed.

Lemma pick_inv_replace dstPort seen best s b :
  pick_inv dstPort seen (Some (best, s)) -> candidate dstPort b = true -> beats dstPort b best ->
  pick_inv dstPort (seen ++ [b])%list (Some (b, is_specific dstPort b)).
Proof.
  intros [-> (l1 & l2 & -> & Hb & H1 & H2)] Hc Hbeat. cbn. split; [done|].
  exists (l1 ++ best :: l2)%list, []. split_and!; [by rewrite <- app_assoc|done| |constructor].
  apply Forall_app. split; [|constructor; [done|]].
  - eapply Forall_impl; [exact H1|]. cbn. intros a Ha Hca. eapply beats_trans; [done|auto].
  - eapply Forall_impl; [exact H2|]. cbn. intros a Ha Hca. eapply not_beats_trans; [apply Ha|]; done.
Qed.

Lemma pick_inv_keep dstPort seen best s b :
  pick_inv dstPort seen (Some (best, s)) -> (candidate dstPort b = true -> ~ beats dstPort b best) ->
  pick_inv dstPort (seen ++ [b])%list (Some (best, s)).
Proof.
  intros [-> (l1 & l2 & -> & Hb & H1 & H2)] Hn. split; [done|].
  exists l1, (l2 ++ [b])%list. split_and!; [by rewrite <- app_assoc|done|done|].
  apply Forall_app. split; [done|]. by constructor.
Qed.

Lemma pickStep_beats dstPort best b : candidate dstPort b = true ->
  let acc := Some (best, is_specific dstPort best) in
  (pickStep dstPort acc b = Some (b, is_specific dstPort b) /\ beats dstPort b best)
  \/ (pickStep dstPort acc b = acc /\ ~ beats dstPort b best).
Proof.
  intros Hc. cbv zeta. rewrite pickStep_candidate by done. unfold beats.
  destruct (is_specific dstPort b), (is_specific dstPort best), (Z.ltb_spec (Priority best) (Priority b));
    cbn; (left; split; [done|]; intuition lia) || (right; split; [done|]; intuition (congruence || lia)).
Qed.

Lemma pickStep_inv dstPort seen acc b :
  pick_inv dstPort seen acc -> pick_inv dstPort (seen ++ [b])%list (pickStep dstPort acc b).
Proof.
  intros Hi. destruct (candidate dstPort b) eqn:Hc.
  - destruct acc as [[best s]|].
    + pose proof (proj1 Hi) as Hs. rewrite Hs in *.
      destruct (pickStep_beats dstPort best b Hc) as [[-> Hb]|[-> Hb]].
      * by eapply pick_inv_replace.
      * by apply pick_inv_keep.
    + rewrite pickStep_candidate by done. split; [done|]. exists seen, []. split_and!; [done|done| |constructor].
      eapply Forall_impl; [exact Hi|]. cbn. congruence.
  - rewrite pickStep_skip by done. destruct acc as [[best s]|].
    + apply pick_inv_keep; [done|congruence].
    + apply Forall_app. split; [done|]. by constructor.
Qed.

Lemma pickBackend_inv dstPort bs : pick_inv dstPort bs (fold_left (pickStep dstPort) bs None).
Proof.
  induction bs as [|b bs IH] using rev_ind; [constructor|].
  rewrite fold_left_app. by apply pickStep_inv.
Qed.

(** [pickBackend] returns the first of the preferred listeners: one with an
    address that accepts the port, preferred to everything before it and not
    beaten by anything after it; and nothing exactly when no listener can take
    the connection. *)
Theorem pickBackend_spec : forall bs dstPort,
  match pickBackend bs dstPort with
  | Some b => exists l1 l2, bs = (l1 ++ b :: l2)%list /\ candidate dstPort b = true
      /\ Forall (fun a => candidate dstPort a = true -> beats dstPort b a) l1
      /\ Forall (fun a => candidate dstPort a = true -> ~ beats dstPort a b) l2
  | None => Forall (fun b => candidate dstPort b = false) bs
  end.
Proof.
  intros bs dstPort. unfold pickBackend. pose proof (pickBackend_inv dstPort bs) as H.
  destruct (fold_left (pickStep dstPort) bs None) as [[b s]|]; cbn; [apply H|done].
Qed.

(** ** Properties of one connection *)

Definition target_of (c : conn_end) : option dialTarget :=
  match c with
  | Dropped => None
  | DialFailed t => Some t
  | Spliced t _ _ => Some t
  end.

(** The target the bridge dials for a sandbox and a destination. *)
Definition chosen_target (state : EgressState) (dst : AddrPort) : dialTarget :=
  match pickBackend (st_backends state) (ap_port dst) with
  | None => DialDirect dst
  | Some b => DialBackend (b_addr b)
  end.

Lemma dialUpstream_target dial write_ok state hdr rest :
  target_of (fst (dialUpstream dial write_ok state hdr rest))
  = Some (chosen_target state (Destination hdr)).
Proof.
  unfold dialUpstream, chosen_target.
  destruct (pickBackend _ _) as [b|].
  - destruct (dial _); [|done]. destruct (EncodeHeader _ _ _ _); [by destruct (write_ok _)|done..].
  - by destruct (dial _).
Qed.

(** C2: the bridge dials only for a live sandbox, to a destination the local
    filter accepts and the sandbox's policy allows, and then it dials exactly
    the preferred backend or, without one, the destination itself. *)
Theorem handleConn_dial_authorized : forall lookup filter router dial write_ok r t,
  target_of (fst (handleConn lookup filter router dial write_ok r)) = Some t ->
  exists hdr rest state,
    ParseHeader r = (Ok hdr, rest)
    /\ lookup (SandboxID (Identity hdr)) = Some state
    /\ deny filter (Destination hdr) = None
    /\ Egress.Allow router (st_policy state) (Destination hdr) Egress.L4ProtocolTCP (DstName hdr) = true
    /\ t = chosen_target state (Destination hdr).
Proof.
  intros lookup filter router dial write_ok r t. unfold handleConn.
  destruct (ParseHeader r) as [[hdr|e|] rest]; cbn; try discriminate.
  destruct (lookup _) as [state|] eqn:Hl; [|discriminate].
  destruct (deny filter _) eqn:Hd; [discriminate|].
  destruct (Egress.Allow _ _ _ _ _) eqn:Ha; [|discriminate].
  rewrite dialUpstream_target. intros [= <-]. exists hdr, rest, state. done.
Qed.

Lemma AddrFromSlice_wf ip a : AddrFromSlice ip = Some a -> addr_wf a.
Proof.
  unfold AddrFromSlice. repeat (split_if; [|]); try discriminate; intros [= <-];
    rewrite Nat.eqb_eq in *.
  - by apply (be_combine_in_range _ 4).
  - by apply (be_combine_in_range _ 16).
Qed.

Lemma sanitizedSrc_wf la dst : addrport_wf (sanitizedSrc la dst).
Proof.
  assert (in_range 16 0) by (unfold in_range; lia).
  assert (in_range 32 0) by (unfold in_range; lia).
  assert (in_range 128 0) by (unfold in_range; lia).
  destruct la as [ip port|]; cbn.
  - split; cbn [ap_addr ap_port].
    + apply Unmap_wf. destruct (AddrFromSlice ip) eqn:E; [by apply AddrFromSlice_wf in E|done].
    + apply Z.mod_pos_bound. lia.
  - destruct (ap_addr dst); [done|done|]. by destruct (Is4In6 _).
Qed.

(** C32: the frame the bridge writes to a backend is read back as the sandbox's
    own identity from the worker's state (never the one claimed in the client's
    frame), without the sandbox id, with the client's destination and
    destination name, and followed by exactly the client's remaining bytes. *)
Theorem handleConn_backend_frame : forall lookup filter router dial write_ok r addr prologue rest,
  fst (handleConn lookup filter router dial write_ok r) = Spliced (DialBackend addr) prologue rest ->
  exists hdr state src,
    ParseHeader r = (Ok hdr, rest)
    /\ lookup (SandboxID (Identity hdr)) = Some state
    /\ ParseHeader (prologue ++ rest)%list
       = (Ok (mkHeader src (wire_addrport (Destination hdr))
                (let id := st_identity state in
                 mkIdentity (Kind id) (Namespace id) (Name id) (UID id) (Revision id) (InvocationID id) "")
                (DstName hdr)), rest).
Proof.
  intros lookup filter router dial write_ok r addr prologue rest. unfold handleConn.
  destruct (ParseHeader r) as [[hdr|e|] rest0] eqn:Hp; cbn; try discriminate.
  destruct (lookup _) as [state|] eqn:Hl; [|discriminate].
  destruct (deny filter _) eqn:Hd; [discriminate|].
  destruct (Egress.Allow _ _ _ _ _) eqn:Ha; [|discriminate].
  unfold dialUpstream. destruct (pickBackend _ _) as [b|]; [|by destruct (dial _)].
  destruct (dial _) as [la|]; [|discriminate].
  destruct (EncodeHeader _ _ _ _) as [hdrBytes| |] eqn:He; [|discriminate..].
  destruct (write_ok _); [|discriminate]. cbn. intros [= <- <- <-].
  exists hdr, state, (wire_addrport (sanitizedSrc la (Destination hdr))). split_and!; [done|done|].
  apply parse_encode; [apply sanitizedSrc_wf|exact (proj2 (ParseHeader_wf _ _ _ Hp))|done].
Qed.

(** *** Worker-local destinations *)

(** The destinations the bridge must not reach, by address and not by the form
    it is written in: loopback, one of the worker's own addresses, unspecified,
    link-local, multicast. *)
Definition worker_local (ips : list Addr) (a : Addr) : bool :=
  IsLoopback a || addr_mem (Unmap a) ips || IsUnspecified (Unmap a)
  || IsLinkLocalUnicast a || IsMulticast a.

Definition no_zone (a : Addr) : Prop :=
  match a with Addr6 _ z => z = EmptyString | AddrInvalid => False | Addr4 _ => True end.

Lemma Unmap_no_zone a : no_zone a -> no_zone (Unmap a).
Proof. destruct a as [| |v z]; [done|done|]. unfold Unmap. by destruct (Is4In6 _). Qed.

Lemma AddrFromSlice_no_zone ip a : AddrFromSlice ip = Some a -> no_zone a.
Proof. unfold AddrFromSlice. repeat (split_if; [|]); try discriminate; by intros [= <-]. Qed.

Lemma ifaddr_ip_no_zone x : Forall no_zone (ifaddr_ip x).
Proof.
  assert (forall ip, Forall no_zone (match AddrFromSlice ip with Some na => [Unmap na] | None => [] end)) as H.
  { intros ip. destruct (AddrFromSlice ip) eqn:E; constructor; [|constructor].
    by eapply Unmap_no_zone, AddrFromSlice_no_zone. }
  destruct x; cbn; [apply H|apply H|constructor].
Qed.

Lemma newLocalDstFilter_no_zone ifs ips : newLocalDstFilter ifs = Ok ips -> Forall no_zone ips.
Proof.
  destruct ifs as [l|]; [|discriminate]. cbn. revert ips.
  induction l as [|[addrs|] l IH]; cbn; intros ips H; try discriminate; inv_ok; [constructor|].
  apply Forall_app. split; [|by apply IH].
  induction addrs; cbn; [constructor|]. apply Forall_app. split; [apply ifaddr_ip_no_zone|done].
Qed.

Lemma addr_mem_In a l : addr_mem a l = true <-> In a l.
Proof.
  unfold addr_mem. rewrite existsb_exists. split.
  - intros (b & Hb & H). bool_to_prop. by subst.
  - intros H. exists a. split; [done|]. by apply bool_decide_eq_true.
Qed.

Lemma wire_addr_unmap a : Is4In6 (wire_addr a) = false.
Proof.
  unfold wire_addr, Unmap. destruct a as [| |v z]; try done.
  destruct (Is4In6 (Addr6 v z)) eqn:E; done.
Qed.

(** Dropping a zone and unmapping do not make a worker-local address pass. *)
Lemma wire_addr_denied (ips : localDstFilter) dst :
  Forall no_zone ips -> worker_local ips (ap_addr dst) = true ->
  is_Some (deny (Some ips) (wire_addrport dst)).
Proof.
  intros Hz. unfold worker_local, deny, wire_addrport; cbn [ap_addr].
  destruct dst as [a port]; cbn [ap_addr].
  assert (addr_mem (Unmap a) ips = true -> wire_addr a = Unmap a) as Hmem.
  { rewrite addr_mem_In. intros Hin. rewrite Forall_forall in Hz.
    apply list_elem_of_In, Hz in Hin. unfold wire_addr. destruct (Unmap a); cbn in Hin; by subst. }
  assert (IsLoopback (wire_addr a) = IsLoopback a
    /\ IsLinkLocalUnicast (wire_addr a) = IsLinkLocalUnicast a
    /\ IsMulticast (wire_addr a) = IsMulticast a
    /\ (IsUnspecified (Unmap a) = true -> IsUnspecified (wire_addr a) = true)) as (E1 & E2 & E3 & E4).
  { destruct a as [| |v z]; [done|done|]. unfold wire_addr, IsLoopback, IsLinkLocalUnicast, IsMulticast, Unmap.
    destruct (Is4In6 (Addr6 v z)) eqn:E; [done|].
    change (Is4In6 (Addr6 v "")) with (Is4In6 (Addr6 v z)). rewrite E. split_and!; try done.
    cbn. intros H. bool_to_prop. subst. done. }
  rewrite E1, E2, E3. intros H.
  repeat (split_if; [by eauto|]).
  apply orb_true_iff in H as [H|?]; [|congruence].
  apply orb_true_iff in H as [H|?]; [|congruence].
  apply orb_true_iff in H as [H|H]; [|apply E4 in H; congruence].
  apply orb_true_iff in H as [?|H]; [congruence|].
  pose proof (Hmem H) as Hw. rewrite Hw in *. congruence.
Qed.

(** A connection that the sandbox-side forwarder frames is dropped without a
    dial when its destination is worker-local, in whatever form (IPv4-mapped,
    with a zone) the address was given, with the filter built from the worker's
    interfaces. *)
Theorem handleConn_drops_worker_local :
  forall lookup router dial write_ok ifs ips src dst id dstName frame rest,
  newLocalDstFilter ifs = Ok ips -> addrport_wf src -> addrport_wf dst ->
  EncodeHeader src dst id dstName = Ok frame ->
  worker_local ips (ap_addr dst) = true ->
  fst (handleConn lookup (Some ips) router dial write_ok (frame ++ rest)%list) = Dropped.
Proof.
  intros lookup router dial write_ok ifs ips src dst id dstName frame rest Hf Hs Hd He Hw.
  unfold handleConn. rewrite (parse_encode src dst id dstName) by done. cbn [Destination Identity].
  destruct (lookup _); [|done].
  destruct (wire_addr_denied ips dst) as [reason Hr];
    [by eapply newLocalDstFilter_no_zone|done|]. by rewrite Hr.
Qed.

(** The filter compares addresses as they are framed: an IPv4-mapped form of
    one of the worker's own addresses, in a frame that was not unmapped by the
    encoder, is not refused. *)
Theorem mapped_destination_not_filtered : forall (ips : localDstFilter) v port,
  Forall (fun a => Is4In6 a = false) ips -> in_range 32 v ->
  worker_local [] (Addr4 v) = false ->
  In (Addr4 v) ips ->
  deny (Some ips) (mkAddrPort (Addr4 v) port) = Some DenyReasonWorkerLocalIfAddr
  /\ deny (Some ips) (mkAddrPort (Addr6 (v4InV6Prefix + v) "") port) = None.
Proof.
  intros ips v port Hips Hv Hw Hin.
  assert (Z.shiftr (v4InV6Prefix + v) 32 = 65535) as Hsh.
  { rewrite Z.shiftr_div_pow2 by lia. unfold v4InV6Prefix, in_range in *.
    rewrite Z.shiftl_mul_pow2 by lia. rewrite Z.div_add_l by lia. rewrite Z.div_small by lia. lia. }
  assert (Is4In6 (Addr6 (v4InV6Prefix + v) "") = true) as H46 by (cbn; rewrite Hsh; done).
  assert ((v4InV6Prefix + v) mod 2 ^ 32 = v) as Hmod.
  { unfold v4InV6Prefix, in_range in *. rewrite Z.shiftl_mul_pow2 by lia.
    rewrite Z.add_comm, Z_mod_plus_full. by apply Z.mod_small. }
  unfold worker_local in Hw. cbn [addr_mem existsb Unmap] in Hw. rewrite orb_false_r in Hw.
  apply orb_false_iff in Hw as [Hw Hm]. apply orb_false_iff in Hw as [Hw Hll].
  apply orb_false_iff in Hw as [Hlo Hun].
  split; unfold deny; cbn [ap_addr].
  - rewrite Hlo. by rewrite (proj2 (addr_mem_In _ _) Hin).
  - assert (addr_mem (Addr6 (v4InV6Prefix + v) "") ips = false) as ->.
    { destruct (addr_mem _ ips) eqn:E; [|done]. apply addr_mem_In in E.
      rewrite Forall_forall in Hips. apply list_elem_of_In, Hips in E. congruence. }
    assert (Unmap (Addr6 (v4InV6Prefix + v) "") = Addr4 v) as HU
      by (unfold Unmap; rewrite H46, Hmod; done).
    assert (IsLoopback (Addr6 (v4InV6Prefix + v) "") = IsLoopback (Addr4 v)) as ->
      by (unfold IsLoopback; rewrite H46, Hmod; done).
    assert (IsLinkLocalUnicast (Addr6 (v4InV6Prefix + v) "") = IsLinkLocalUnicast (Addr4 v)) as ->
      by (unfold IsLinkLocalUnicast; rewrite HU; done).
    assert (IsMulticast (Addr6 (v4InV6Prefix + v) "") = IsMulticast (Addr4 v)) as ->
      by (unfold IsMulticast; rewrite HU; done).
    rewrite Hlo, Hll, Hm. cbn. rewrite (proj2 (Z.eqb_neq _ 0)); [done|].
    unfold v4InV6Prefix, in_range in *. rewrite Z.shiftl_mul_pow2 by lia. lia.
Qed.

(** ** Witnesses *)

Definition sample_state : EgressState :=
  mkEgressState sample_identity
    [mkBackend "tcp" "eg:15001" "tcp" 0 1; mkBackend "web" "eg:10443" "tls-terminate" 443 5] None.
Definition sample_lookup (id : string) : option EgressState :=
  if String.eqb id "sb-3" then Some sample_state else None.
Definition sample_dial (t : dialTarget) : option netAddr := Some (TCPAddr (be_split 4 167772162) 51000).
Definition sample_filter : localDstFilter := [Addr4 167772162; Addr6 1 ""].

(** A frame for [dst] that claims another agent's name. *)
Definition sample_frame (dst : AddrPort) : list byte :=
  match EncodeHeader (mkAddrPort (Addr4 1) 40000) dst
          (mkIdentity AgentKindTask "other" "mallory" "" "" "" "sb-3") "api.openai.com" with
  | Ok f => f
  | _ => []
  end.

Definition sample_run (dst : AddrPort) : conn_end * list event :=
  handleConn sample_lookup (Some sample_filter) (Egress.NewRouter "allow-all") sample_dial
    (fun _ => true) (sample_frame dst ++ [x16; x03])%list.

Lemma handleConn_dial_authorized_witness :
  exists hdr rest state,
    ParseHeader (sample_frame (mkAddrPort (Addr4 16843009) 443) ++ [x16; x03])%list = (Ok hdr, rest)
    /\ sample_lookup (SandboxID (Identity hdr)) = Some state
    /\ DialBackend "eg:10443" = chosen_target state (Destination hdr).
Proof.
  destruct (handleConn_dial_authorized sample_lookup (Some sample_filter) (Egress.NewRouter "allow-all")
    sample_dial (fun _ => true) (sample_frame (mkAddrPort (Addr4 16843009) 443) ++ [x16; x03])%list
    (DialBackend "eg:10443")) as (hdr & rest & state & H1 & H2 & _ & _ & H3).
  - vm_compute. reflexivity.
  - exists hdr, rest, state. split; [exact H1|]. split; [exact H2|exact H3].
Defined.

Lemma handleConn_backend_frame_witness :
  exists prologue hdr state src,
    fst (sample_run (mkAddrPort (Addr4 16843009) 443)) = Spliced (DialBackend "eg:10443") prologue [x16; x03]
    /\ sample_lookup (SandboxID (Identity hdr)) = Some state
    /\ ParseHeader (prologue ++ [x16; x03])%list
       = (Ok (mkHeader src (wire_addrport (Destination hdr)) (clearSandboxID (st_identity state))
                (DstName hdr)), [x16; x03]).
Proof.
  eexists. 
  destruct (handleConn_backend_frame sample_lookup (Some sample_filter) (Egress.NewRouter "allow-all")
    sample_dial (fun _ => true) (sample_frame (mkAddrPort (Addr4 16843009) 443) ++ [x16; x03])%list
    "eg:10443" _ [x16; x03] ltac:(vm_compute; reflexivity)) as (hdr & state & src & _ & H2 & H3).
  exists hdr, state, src. split; [vm_compute; reflexivity|]. split; [exact H2|exact H3].
Defined.

Lemma handleConn_drops_worker_local_witness :
  fst (sample_run (mkAddrPort (Addr6 (v4InV6Prefix + 167772162) "") 8090)) = Dropped.
Proof.
  apply (handleConn_drops_worker_local sample_lookup (Egress.NewRouter "allow-all") sample_dial (fun _ => true)
    (Some [Some [IPNetAddr (be_split 4 167772162); IPAddrAddr (be_split 16 1)]]) sample_filter
    (mkAddrPort (Addr4 1) 40000) (mkAddrPort (Addr6 (v4InV6Prefix + 167772162) "") 8090)
    (mkIdentity AgentKindTask "other" "mallory" "" "" "" "sb-3") "api.openai.com").
  - vm_compute. reflexivity.
  - split; vm_compute; split; congruence.
  - split; vm_compute; split; congruence.
  - vm_compute. reflexivity.
  - vm_compute. reflexivity.
Defined.

Lemma mapped_destination_not_filtered_witness :
  deny (Some sample_filter) (mkAddrPort (Addr6 (v4InV6Prefix + 167772162) "") 8090) = None.
Proof.
  apply (mapped_destination_not_filtered sample_filter 167772162 8090).
  - repeat constructor.
  - vm_compute. split; congruence.
  - vm_compute. reflexivity.
  - left. reflexivity.
Defined.

End Bridge.
