(* ===== verification/DnsCache.v ===== *)
(** * The DNS answer cache

    [internal/sentrystack/dns_cache.go]: a bounded LRU from resolved address to
    the name the agent asked for.  Go keeps a [container/list] of entries and a
    map from address to list element; entries are updated in place through the
    element, so the model has a store of elements.  Times and durations are in
    nanoseconds, as in package [time]. *)

From Stdlib Require Import ZArith Lia Ascii String List.
From stdpp Require Import base strings list gmap.
From Stdlib.Strings Require Import Byte.
From S2P Require Import Prelude GoStrings Netip.
Import GoStrings.

Module DnsCache.
#[local] Open Scope Z_scope.

Definition second : Z := 1000000000.
Definition minute : Z := 60 * second.

Definition dnsCacheCapacity : nat := Z.to_nat 4096.
Definition dnsTTLFloor : Z := 5 * second.
Definition dnsTTLCeiling : Z := 10 * minute.

Record dnsEntry := mkDnsEntry { ip : Addr; name : string; expiresAt : Z }.

(** An element of the list is a location of [elems]; [lru] is the list, front
    first. *)
Abbreviation elem := nat.

Record dnsCache := mkDnsCache {
  cap : nat;
  lru : list elem;
  byIP : gmap Addr elem;
  elems : gmap elem dnsEntry;
}.

Definition newDNSCache : dnsCache := mkDnsCache dnsCacheCapacity [] ∅ ∅.

Definition remove_elem (el : elem) (l : list elem) : list elem :=
  List.filter (fun e => negb (Nat.eqb e el)) l.

Definition clampTTL (ttl : Z) : Z :=
  let ttl := if ttl <? dnsTTLFloor then dnsTTLFloor else ttl in
  if dnsTTLCeiling <? ttl then dnsTTLCeiling else ttl.

(** The eviction at the end of [Bind]. *)
Definition evictOldest (c : dnsCache) : dnsCache :=
  if Nat.ltb (cap c) (length (lru c)) then
    match last (lru c) with
    | None => c
    | Some oldest =>
        match elems c !! oldest with
        | None => c
        | Some old =>
            mkDnsCache (cap c) (remove_elem oldest (lru c)) (delete (ip old) (byIP c))
              (delete oldest (elems c))
        end
    end
  else c.

Definition Bind (now : Z) (resolvedIP : Addr) (nm : string) (ttl : Z) (c : dnsCache) : dnsCache :=
  if negb (addr_valid resolvedIP) || String.eqb nm "" then c
  else
    let expires := now + clampTTL ttl in
    match byIP c !! resolvedIP with
    | Some el =>
        match elems c !! el with
        | Some ent =>
            mkDnsCache (cap c) (el :: remove_elem el (lru c)) (byIP c)
              (<[el := mkDnsEntry (ip ent) nm expires]> (elems c))
        | None => c
        end
    | None =>
        let el := fresh (dom (elems c)) in
        evictOldest
          (mkDnsCache (cap c) (el :: lru c) (<[resolvedIP := el]> (byIP c))
             (<[el := mkDnsEntry resolvedIP nm expires]> (elems c)))
    end.

Definition Lookup (now : Z) (resolvedIP : Addr) (c : dnsCache) : string * dnsCache :=
  if negb (addr_valid resolvedIP) then ("", c)
  else
    match byIP c !! resolvedIP with
    | None => ("", c)
    | Some el =>
        match elems c !! el with
        | None => ("", c)
        | Some ent =>
            if expiresAt ent <? now then
              ("", mkDnsCache (cap c) (remove_elem el (lru c)) (delete (ip ent) (byIP c))
                     (delete el (elems c)))
            else (name ent, mkDnsCache (cap c) (el :: remove_elem el (lru c)) (byIP c) (elems c))
        end
    end.

(** ** Responses

    [dnsmessage.Parser] is a library: a message is given by what the parser
    returns for it, call by call: whether [Start] succeeds, the questions and
    whether their section ends without an error, the answers, and whether that
    section ends without an error.  [AnswerBad] is a resource body that does not
    parse. *)
Inductive answer :=
| AnswerA (nm : string) (ttl : Z) (a : list byte)
| AnswerAAAA (nm : string) (ttl : Z) (a : list byte)
| AnswerCNAME (nm : string) (target : string)
| AnswerOther
| AnswerBad.

Record dnsMessage := mkDnsMessage {
  start_ok : bool;
  questions : list string;
  questions_done : bool;
  answers : list answer;
  answers_done : bool;
}.

Record aRR := mkARR { rr_name : string; rr_ip : Addr; rr_ttl : Z }.

(** The answer loop: the address records, the CNAME map (the last record of a
    name wins), or [None] when the function returns early. *)
Fixpoint readAnswers (ans : list answer) (ips : list aRR) (cnames : gmap string string)
    : option (list aRR * gmap string string) :=
  match ans with
  | [] => Some (ips, cnames)
  | AnswerA nm ttl a :: t =>
      readAnswers t (ips ++ [mkARR (TrimSuffix nm ".") (AddrFrom4 a) ttl]) cnames
  | AnswerAAAA nm ttl a :: t =>
      readAnswers t (ips ++ [mkARR (TrimSuffix nm ".") (AddrFrom16 a) ttl]) cnames
  | AnswerCNAME nm target :: t =>
      readAnswers t ips (<[TrimSuffix nm "." := TrimSuffix target "."]> cnames)
  | AnswerOther :: t => readAnswers t ips cnames
  | AnswerBad :: _ => None
  end.

(** [for hops := 0; hops < 10; hops++]: [Some chain] when the chain from [cur]
    reaches [target], with the names passed on the way. *)
Fixpoint followChain (hops : nat) (cnames : gmap string string) (target cur : string)
    (chain : list string) : option (list string) :=
  match hops with
  | O => None
  | S hops' =>
      if String.eqb cur target then Some chain
      else match cnames !! cur with
           | None => None
           | Some next => followChain hops' cnames target next (chain ++ [cur])
           end
  end.

Definition bindChain (now : Z) (cnames : gmap string string) (a : aRR) (c : dnsCache) (qn : string)
    : dnsCache :=
  let ttl := rr_ttl a * second in
  match followChain 10 cnames (rr_name a) qn [] with
  | None => c
  | Some chain =>
      Bind now (rr_ip a) qn ttl
        (fold_left (fun c n => Bind now (rr_ip a) n ttl c) (rev chain) c)
  end.

Definition bindAnswer (now : Z) (qnames : list string) (cnames : gmap string string)
    (c : dnsCache) (a : aRR) : dnsCache :=
  fold_left (bindChain now cnames a) qnames
    (Bind now (rr_ip a) (rr_name a) (rr_ttl a * second) c).

Definition IngestResponse (now : Z) (msg : dnsMessage) (c : dnsCache) : dnsCache :=
  if negb (start_ok msg) || negb (questions_done msg) then c
  else
    let qnames := map (fun q => TrimSuffix q ".") (questions msg) in
    match readAnswers (answers msg) [] ∅ with
    | None => c
    | Some (ips, cnames) =>
        if answers_done msg then fold_left (bindAnswer now qnames cnames) ips c else c
    end.

(** ** Specification: a bounded most-recently-used list of bindings *)

Definition other (i : Addr) (e : dnsEntry) : bool := negb (bool_decide (ip e = i)).

Definition specBind (cap : nat) (now : Z) (i : Addr) (nm : string) (ttl : Z) (l : list dnsEntry)
    : list dnsEntry :=
  if negb (addr_valid i) || String.eqb nm "" then l
  else take cap (mkDnsEntry i nm (now + clampTTL ttl) :: List.filter (other i) l).

Definition specLookup (now : Z) (i : Addr) (l : list dnsEntry) : string * list dnsEntry :=
  match List.find (fun e => negb (other i e)) l with
  | None => ("", l)
  | Some e =>
      if expiresAt e <? now then ("", List.filter (other i) l)
      else (name e, e :: List.filter (other i) l)
  end.

(** The bindings of a cache, most recently used first. *)
Definition ents (m : gmap elem dnsEntry) (l : list elem) : list dnsEntry := omap (fun el => m !! el) l.
Definition bindings (c : dnsCache) : list dnsEntry := ents (elems c) (lru c).

(** The list, the map and the store agree, the cache is within its capacity and
    holds only bindings of valid addresses. *)
Record cache_inv (c : dnsCache) : Prop := mkCacheInv {
  inv_nodup : NoDup (lru c);
  inv_store : forall el, el ∈ lru c <-> is_Some (elems c !! el);
  inv_byIP : forall i el, byIP c !! i = Some el <-> exists e, elems c !! el = Some e /\ ip e = i;
  inv_cap : (length (lru c) <= cap c)%nat;
  inv_valid : forall el e, elems c !! el = Some e -> addr_valid (ip e) = true;
}.

Lemma newDNSCache_inv : cache_inv newDNSCache.
Proof.
  split; cbn.
  - constructor.
  - intros el. rewrite lookup_empty. split; [by intros ?%not_elem_of_nil|intros [? ?]; discriminate].
  - intros i el. rewrite !lookup_empty. split; [discriminate|intros (e & ? & _); discriminate].
  - lia.
  - intros el e. by rewrite lookup_empty.
Qed.

Lemma remove_elem_notin el l : el ∉ l -> remove_elem el l = l.
Proof.
  induction l as [|x l IH]; cbn; [done|]. rewrite not_elem_of_cons. intros [Hne Hl].
  rewrite (proj2 (Nat.eqb_neq _ _)) by congruence. cbn. f_equal. auto.
Qed.

Lemma elem_of_remove_elem el x l : x ∈ remove_elem el l <-> x ∈ l /\ x <> el.
Proof.
  unfold remove_elem. rewrite !list_elem_of_In, List.filter_In, negb_true_iff, Nat.eqb_neq. done.
Qed.

Lemma NoDup_remove_elem el l : NoDup l -> NoDup (remove_elem el l).
Proof. rewrite !NoDup_ListNoDup. apply List.NoDup_filter. Qed.

Lemma remove_elem_snoc el l : NoDup (l ++ [el]) -> remove_elem el (l ++ [el]) = l.
Proof.
  intros (_ & Hni & _)%NoDup_app. unfold remove_elem. rewrite List.filter_app.
  fold (remove_elem el l). rewrite remove_elem_notin.
  - cbn. by rewrite Nat.eqb_refl, app_nil_r.
  - intros Hin. apply (Hni el Hin). by apply list_elem_of_singleton.
Qed.

Lemma length_remove_elem el l : NoDup l -> el ∈ l -> S (length (remove_elem el l)) = length l.
Proof.
  induction 1 as [|x l Hx Hl IH]; [by intros ?%not_elem_of_nil|].
  intros [->|Hin]%elem_of_cons; cbn.
  - rewrite Nat.eqb_refl. cbn. fold (remove_elem x l). by rewrite remove_elem_notin.
  - destruct (Nat.eqb_spec x el) as [->|]; [done|]. cbn. f_equal. by apply IH.
Qed.

Lemma ents_insert_ne m l el e : el ∉ l -> ents (<[el := e]> m) l = ents m l.
Proof.
  induction l as [|x l IH]; cbn; [done|]. rewrite not_elem_of_cons. intros [Hne Hl].
  rewrite lookup_insert_ne by done. unfold ents in IH. by rewrite IH.
Qed.

Lemma ents_delete_ne m l el : el ∉ l -> ents (delete el m) l = ents m l.
Proof.
  induction l as [|x l IH]; cbn; [done|]. rewrite not_elem_of_cons. intros [Hne Hl].
  rewrite lookup_delete_ne by done. unfold ents in IH. by rewrite IH.
Qed.

Lemma ents_app m l1 l2 : ents m (l1 ++ l2) = ents m l1 ++ ents m l2.
Proof. apply omap_app. Qed.

Lemma length_ents m l : (forall el, el ∈ l -> is_Some (m !! el)) -> length (ents m l) = length l.
Proof.
  induction l as [|x l IH]; cbn; intros H; [done|].
  destruct (H x) as [e He]; [by constructor|]. rewrite He. cbn. f_equal.
  apply IH. intros. apply H. by constructor.
Qed.

(** Removing an element removes the binding of its address, when no other
    element binds that address. *)
Lemma ents_remove m l el i :
  (forall x e, x ∈ l -> m !! x = Some e -> ip e = i <-> x = el) ->
  ents m (remove_elem el l) = List.filter (other i) (ents m l).
Proof.
  induction l as [|x l IH]; cbn; intros H; [done|].
  assert (forall y e, y ∈ l -> m !! y = Some e -> ip e = i <-> y = el) as Hl
    by (intros; apply H; [by constructor|done]).
  specialize (IH Hl). unfold ents in IH.
  destruct (m !! x) as [e|] eqn:Hx.
  - pose proof (H x e ltac:(constructor) Hx) as Hie. cbn [List.filter]. unfold other at 1.
    destruct (Nat.eqb_spec x el) as [->|Hne]; cbn [negb].
    + rewrite bool_decide_true by (by apply Hie). cbn [negb]. exact IH.
    + rewrite bool_decide_false by (by rewrite Hie). cbn. rewrite Hx. by f_equal.
  - destruct (Nat.eqb_spec x el) as [->|Hne]; cbn [negb]; [exact IH|].
    cbn. rewrite Hx. exact IH.
Qed.

Lemma bindings_cap c : cache_inv c -> length (bindings c) = length (lru c).
Proof. intros H. apply length_ents. intros. by apply (inv_store c). Qed.

(** The element of an address is the only one that binds it. *)
Lemma inv_unique c i el x e :
  cache_inv c -> byIP c !! i = Some el -> elems c !! x = Some e -> ip e = i <-> x = el.
Proof.
  intros Hc Hi Hx. split.
  - intros Hip. assert (byIP c !! i = Some x) as H by (apply (inv_byIP c Hc); eauto). congruence.
  - intros ->. apply (inv_byIP c Hc) in Hi as (e' & ? & ?). congruence.
Qed.

Lemma find_bindings c i :
  cache_inv c ->
  List.find (fun e => negb (other i e)) (bindings c)
  = match byIP c !! i with Some el => elems c !! el | None => None end.
Proof.
  intros Hc. destruct (List.find _ _) as [e|] eqn:Hf.
  - apply List.find_some in Hf as [Hin Ho]. unfold other in Ho. bool_to_prop.
    apply list_elem_of_In, list_elem_of_omap in Hin as (el & _ & Hel).
    assert (byIP c !! i = Some el) as -> by (apply (inv_byIP c Hc); eauto). done.
  - destruct (byIP c !! i) as [el|] eqn:Hi; [|done].
    apply (inv_byIP c Hc) in Hi as (e & He & <-). exfalso.
    eapply List.find_none with (x := e) in Hf.
    + unfold other in Hf. bool_to_prop. done.
    + apply list_elem_of_In, list_elem_of_omap. exists el. split; [|done]. apply (inv_store c Hc). eauto.
Qed.

Lemma filter_other_absent c i :
  cache_inv c -> byIP c !! i = None -> List.filter (other i) (bindings c) = bindings c.
Proof.
  intros Hc Hi. apply List.forallb_filter_id. apply List.forallb_forall. intros e Hin.
  apply list_elem_of_In, list_elem_of_omap in Hin as (el & _ & Hel). unfold other.
  apply negb_true_iff, bool_decide_eq_false. intros Hip.
  assert (byIP c !! i = Some el) by (apply (inv_byIP c Hc); eauto). congruence.
Qed.

(** *** Bind *)

(** The cache with the element of [i] moved to the front and rewritten. *)
Lemma move_front_inv c i el ent nm ex :
  cache_inv c -> byIP c !! i = Some el -> elems c !! el = Some ent ->
  cache_inv (mkDnsCache (cap c) (el :: remove_elem el (lru c)) (byIP c)
               (<[el := mkDnsEntry (ip ent) nm ex]> (elems c))).
Proof.
  intros Hc Hi He.
  assert (el ∈ lru c) as Hin by (apply (inv_store c Hc); eauto).
  split; cbn.
  - constructor; [rewrite elem_of_remove_elem; tauto|]. apply NoDup_remove_elem, Hc.
  - intros x. rewrite elem_of_cons, elem_of_remove_elem, (inv_store c Hc).
    destruct (decide (x = el)) as [->|]; simplify_map_eq; naive_solver.
  - intros j x. rewrite (inv_byIP c Hc). destruct (decide (x = el)) as [->|]; simplify_map_eq.
    + split; intros (e & ? & ?); simplify_eq; cbn; eauto.
    + done.
  - pose proof (length_remove_elem el (lru c) (inv_nodup c Hc) Hin). pose proof (inv_cap c Hc). lia.
  - intros x e. destruct (decide (x = el)) as [->|]; simplify_map_eq; intros; simplify_eq; cbn;
      by eapply (inv_valid c Hc).
Qed.

Lemma move_front_bindings c i el ent nm ex :
  cache_inv c -> byIP c !! i = Some el -> elems c !! el = Some ent ->
  ents (<[el := mkDnsEntry (ip ent) nm ex]> (elems c)) (el :: remove_elem el (lru c))
  = mkDnsEntry i nm ex :: List.filter (other i) (bindings c).
Proof.
  intros Hc Hi He.
  assert (ip ent = i) as Hip by (by eapply (inv_unique c i el el)).
  unfold ents at 1. cbn. rewrite lookup_insert_eq, Hip. f_equal.
  change (ents (<[el := mkDnsEntry i nm ex]> (elems c)) (remove_elem el (lru c))
          = List.filter (other i) (bindings c)).
  rewrite ents_insert_ne by (rewrite elem_of_remove_elem; tauto).
  apply ents_remove. intros x e _ Hx. by eapply inv_unique.
Qed.

(** The cache with a new element at the front, before the eviction. *)
Lemma push_front_inv c i el nm ex :
  cache_inv c -> byIP c !! i = None -> addr_valid i = true -> el = fresh (dom (elems c)) ->
  let c' := mkDnsCache (S (cap c)) (el :: lru c) (<[i := el]> (byIP c))
              (<[el := mkDnsEntry i nm ex]> (elems c)) in
  cache_inv c' /\ bindings c' = mkDnsEntry i nm ex :: bindings c.
Proof.
  intros Hc Hi Hv Hel c'.
  assert (elems c !! el = None) as Hfr.
  { apply not_elem_of_dom. rewrite Hel. apply is_fresh. }
  assert (el ∉ lru c) as Hni.
  { rewrite (inv_store c Hc), Hfr. intros [? ?]; discriminate. }
  split; [split; cbn|].
  - constructor; [done|apply Hc].
  - intros x. rewrite elem_of_cons, (inv_store c Hc).
    destruct (decide (x = el)) as [->|]; simplify_map_eq; naive_solver.
  - intros j x. destruct (decide (x = el)) as [->|], (decide (j = i)) as [->|]; simplify_map_eq.
    + split; [|done]. intros _. eexists. by split.
    + rewrite (inv_byIP c Hc), Hfr. naive_solver.
    + split; [congruence|]. intros (e & Hx & Hip).
      assert (byIP c !! i = Some x) by (apply (inv_byIP c Hc); eauto). congruence.
    + apply (inv_byIP c Hc).
  - pose proof (inv_cap c Hc). lia.
  - intros x e. destruct (decide (x = el)) as [->|]; simplify_map_eq; intros; simplify_eq; cbn; [done|].
    by eapply (inv_valid c Hc).
  - unfold bindings, c'; cbn. rewrite lookup_insert_eq. f_equal. by apply ents_insert_ne.
Qed.

(** Removing an element and its binding. *)
Lemma remove_inv c el e :
  cache_inv c -> elems c !! el = Some e ->
  let c' := mkDnsCache (cap c) (remove_elem el (lru c)) (delete (ip e) (byIP c)) (delete el (elems c)) in
  cache_inv c' /\ bindings c' = List.filter (other (ip e)) (bindings c).
Proof.
  intros Hc He c'.
  assert (byIP c !! ip e = Some el) as Hi by (apply (inv_byIP c Hc); eauto).
  assert (el ∈ lru c) as Hin by (apply (inv_store c Hc); eauto).
  split; [split; cbn|].
  - apply NoDup_remove_elem, Hc.
  - intros x. rewrite elem_of_remove_elem, (inv_store c Hc).
    destruct (decide (x = el)) as [->|]; simplify_map_eq; [|naive_solver].
    split; [tauto|intros [? ?]; discriminate].
  - intros j x. destruct (decide (j = ip e)) as [->|Hj], (decide (x = el)) as [->|Hx]; simplify_map_eq.
    + split; [discriminate|intros (? & ? & _); discriminate].
    + split; [discriminate|]. intros (e' & He' & Hip). eapply inv_unique in Hip; done.
    + rewrite (inv_byIP c Hc). split; intros (e' & ? & ?); [congruence|discriminate].
    + apply (inv_byIP c Hc).
  - pose proof (length_remove_elem el (lru c) (inv_nodup c Hc) Hin). pose proof (inv_cap c Hc). lia.
  - intros x e'. destruct (decide (x = el)) as [->|]; simplify_map_eq; [done|].
    intros. by eapply (inv_valid c Hc).
  - unfold bindings, c'; cbn [elems lru]. rewrite ents_delete_ne by (rewrite elem_of_remove_elem; tauto).
    apply ents_remove. intros x e' _ Hx. by eapply inv_unique.
Qed.

Definition with_cap (n : nat) (c : dnsCache) : dnsCache := mkDnsCache n (lru c) (byIP c) (elems c).

Lemma with_cap_inv n c : cache_inv c -> (length (lru c) <= n)%nat -> cache_inv (with_cap n c).
Proof. intros [] H. by split. Qed.

(** Eviction of a cache that is at most one over its capacity. *)
Lemma evictOldest_spec c :
  cache_inv (with_cap (S (cap c)) c) ->
  cache_inv (evictOldest c) /\ bindings (evictOldest c) = take (cap c) (bindings c).
Proof.
  intros Hc. pose proof (inv_cap _ Hc) as Hlen; cbn in Hlen.
  pose proof (bindings_cap _ Hc) as Hb; cbn in Hb. change (bindings (with_cap _ c)) with (bindings c) in Hb.
  unfold evictOldest. destruct (Nat.ltb_spec (cap c) (length (lru c))) as [Hlt|Hge].
  - destruct (last (lru c)) as [el|] eqn:Hl; [|apply last_None in Hl; rewrite Hl in Hlt; cbn in Hlt; lia].
    assert (el ∈ lru c) as Hin by (apply last_Some in Hl as [l' ->]; set_solver).
    destruct (proj1 (inv_store _ Hc el) Hin) as [e He]. cbn in He. rewrite He.
    destruct (remove_inv _ el e Hc He) as [Hi _].
    cbn [with_cap cap lru byIP elems] in Hi.
    apply last_Some in Hl as [l' Hl'].
    assert (remove_elem el (lru c) = l') as Hrem.
    { rewrite Hl'. apply remove_elem_snoc. rewrite <- Hl'. apply Hc. }
    assert (length l' = cap c) as Hll by (rewrite Hl' in Hlen, Hlt; rewrite length_app in *; cbn in *; lia).
    split; [eapply (with_cap_inv (cap c)) in Hi; [exact Hi|]; cbn [lru]; rewrite Hrem; lia|].
    unfold bindings in *; cbn [elems lru].
    rewrite Hrem,  ents_delete_ne
      by (rewrite <- Hrem, elem_of_remove_elem; tauto).
    rewrite Hl', ents_app, take_app_le.
    + rewrite take_ge; [done|]. rewrite length_ents; [lia|].
      intros x Hx. apply (inv_store _ Hc). cbn. rewrite Hl'. set_solver.
    + rewrite length_ents; [lia|]. intros x Hx. apply (inv_store _ Hc). cbn. rewrite Hl'. set_solver.
  - split; [|rewrite take_ge; [done|]; unfold bindings, ents; lia].
    apply (with_cap_inv (cap c)) in Hc; [|exact Hge]. by destruct c.
Qed.

Lemma Bind_refines_spec now i nm ttl c :
  cache_inv c ->
  cache_inv (Bind now i nm ttl c)
  /\ cap (Bind now i nm ttl c) = cap c
  /\ bindings (Bind now i nm ttl c) = specBind (cap c) now i nm ttl (bindings c).
Proof.
  intros Hc. unfold Bind, specBind. destruct (negb (addr_valid i) || _) eqn:Hg; [done|].
  apply orb_false_iff in Hg as [Hv%negb_false_iff _].
  destruct (byIP c !! i) as [el|] eqn:Hi.
  - pose proof (proj1 (inv_byIP c Hc i el) Hi) as (ent & He & Hip). rewrite He.
    split_and!; [by eapply move_front_inv|done|].
    unfold bindings at 1; cbn [elems lru]. erewrite move_front_bindings by done.
    rewrite take_ge; [done|]. cbn. unfold bindings.
    assert (el ∈ lru c) as Hin by (apply (inv_store c Hc); eauto).
    rewrite <- (ents_remove _ _ el); [|intros x e _ Hx; by eapply inv_unique].
    rewrite length_ents by (intros x [? _]%elem_of_remove_elem; by apply (inv_store c Hc)).
    rewrite (length_remove_elem el) by (done || apply Hc). apply Hc.
  - destruct (push_front_inv c i (fresh (dom (elems c))) nm (now + clampTTL ttl) Hc Hi Hv eq_refl)
      as [Hp Hb].
    set (c1 := mkDnsCache (cap c) _ _ _).
    destruct (evictOldest_spec c1 Hp) as [H1 H2]. split_and!; [done| |].
    + unfold evictOldest. destruct (Nat.ltb _ _); [|done].
      destruct (last _); [|done]. by destruct (elems c1 !! _).
    + rewrite H2, (filter_other_absent c i Hc Hi). unfold bindings in Hb |- *. cbn [lru elems] in Hb.
      unfold c1; cbn [lru elems cap]. by rewrite Hb.
Qed.

Lemma Lookup_refines_spec now i c :
  cache_inv c -> addr_valid i = true ->
  let '(nm, c') := Lookup now i c in
  cache_inv c' /\ cap c' = cap c /\ (nm, bindings c') = specLookup now i (bindings c).
Proof.
  intros Hc Hv. unfold Lookup, specLookup. rewrite Hv; cbn [negb].
  rewrite (find_bindings c i Hc). destruct (byIP c !! i) as [el|] eqn:Hi; [|done].
  pose proof (proj1 (inv_byIP c Hc i el) Hi) as (ent & He & Hip). rewrite He.
  destruct (Z.ltb_spec (expiresAt ent) now).
  - destruct (remove_inv c el ent Hc He) as [H1 H2]. rewrite Hip in *. split_and!; [done|done|].
    by rewrite H2.
  - pose proof (move_front_inv c i el ent (name ent) (expiresAt ent) Hc Hi He) as H1.
    pose proof (move_front_bindings c i el ent (name ent) (expiresAt ent) Hc Hi He) as H2.
    assert (<[el := mkDnsEntry (ip ent) (name ent) (expiresAt ent)]> (elems c) = elems c) as Hid.
    { apply insert_id. rewrite He. by destruct ent. }
    rewrite Hid in *. split_and!; [done|done|]. unfold bindings at 1; cbn [elems lru]. rewrite H2.
    do 2 f_equal. rewrite <- Hip. by destruct ent.
Qed.

(** C30: the cache built from a list, a map and shared elements implements the
    bounded most-recently-used list: every operation keeps the two structures
    consistent and the size within the capacity, and acts on the bindings as
    the specification does. *)
Theorem dnsCache_refines_lru : forall c, cache_inv c ->
  (forall now i nm ttl,
     cache_inv (Bind now i nm ttl c) /\ cap (Bind now i nm ttl c) = cap c
     /\ bindings (Bind now i nm ttl c) = specBind (cap c) now i nm ttl (bindings c))
  /\ (forall now i, addr_valid i = true ->
        cache_inv (snd (Lookup now i c)) /\ cap (snd (Lookup now i c)) = cap c
        /\ (fst (Lookup now i c), bindings (snd (Lookup now i c))) = specLookup now i (bindings c))
  /\ (length (bindings c) <= cap c)%nat.
Proof.
  intros c Hc. split_and!.
  - intros. by apply Bind_refines_spec.
  - intros now i Hv. pose proof (Lookup_refines_spec now i c Hc Hv) as H.
    by destruct (Lookup now i c).
  - rewrite bindings_cap by done. apply Hc.
Qed.

(** ** Lifetimes *)

Lemma clampTTL_bounds ttl : dnsTTLFloor <= clampTTL ttl <= dnsTTLCeiling.
Proof.
  unfold clampTTL, dnsTTLFloor, dnsTTLCeiling, minute, second.
  repeat match goal with |- context [?a <? ?b] => destruct (Z.ltb_spec a b) end; lia.
Qed.

(** A binding is found for the clamped lifetime after the bind and not
    after it: whatever the TTL of the answer, it is live for five seconds and
    gone after ten minutes. *)
Theorem Bind_lifetime : forall c now now' i nm ttl,
  cache_inv c -> (1 <= cap c)%nat -> addr_valid i = true -> nm <> "" ->
  fst (Lookup now' i (Bind now i nm ttl c)) = (if now + clampTTL ttl <? now' then "" else nm)
  /\ dnsTTLFloor <= clampTTL ttl <= dnsTTLCeiling.
Proof.
  intros c now now' i nm ttl Hc Hcap Hv Hn. split; [|apply clampTTL_bounds].
  destruct (Bind_refines_spec now i nm ttl c Hc) as (Hi & _ & Hb).
  pose proof (Lookup_refines_spec now' i _ Hi Hv) as HL.
  destruct (Lookup now' i (Bind now i nm ttl c)) as [r c']. destruct HL as (_ & _ & HL). cbn.
  rewrite Hb in HL. unfold specBind in HL. rewrite Hv, (proj2 (String.eqb_neq _ _) Hn) in HL.
  cbn [negb orb] in HL. destruct (cap c) as [|k]; [lia|]. cbn [take] in HL.
  unfold specLookup in HL. cbn [List.find] in HL. unfold other at 1 in HL. cbn [ip] in HL.
  rewrite bool_decide_true in HL by done. cbn [negb expiresAt name] in HL.
  destruct (_ <? _); by inversion HL.
Qed.

(** ** Responses *)

Lemma filter_other_idem i l : List.filter (other i) (List.filter (other i) l) = List.filter (other i) l.
Proof.
  induction l as [|e l IH]; cbn; [done|]. destruct (other i e) eqn:E; cbn; rewrite ?E, ?IH; done.
Qed.

Lemma filter_take_id i n l : List.filter (other i) (take n (List.filter (other i) l)) = take n (List.filter (other i) l).
Proof.
  apply List.forallb_filter_id. apply List.forallb_forall. intros e He.
  apply list_elem_of_In in He. apply elem_of_take in He as (k & He & _).
  apply list_elem_of_lookup_2, list_elem_of_In, List.filter_In in He. tauto.
Qed.

(** A later binding of the same address absorbs an earlier one. *)
Lemma specBind_absorb cap now i n1 t1 n2 t2 l :
  addr_valid i = true -> n2 <> "" ->
  specBind cap now i n2 t2 (specBind cap now i n1 t1 l) = specBind cap now i n2 t2 l.
Proof.
  intros Hv Hn. unfold specBind. rewrite Hv, (proj2 (String.eqb_neq _ _) Hn); cbn [negb orb].
  destruct (String.eqb n1 ""); [done|]. destruct cap as [|k]; [done|]. cbn [take List.filter].
  unfold other at 1; cbn [ip]. rewrite bool_decide_true by done. cbn [negb].
  rewrite filter_take_id, take_take, Nat.min_id. done.
Qed.

Lemma bindAll_spec now i ttl names c :
  cache_inv c ->
  let c' := fold_left (fun c n => Bind now i n ttl c) names c in
  cache_inv c' /\ cap c' = cap c
  /\ bindings c' = fold_left (fun l n => specBind (cap c) now i n ttl l) names (bindings c).
Proof.
  revert c. induction names as [|n names IH]; intros c Hc; cbn; [done|].
  destruct (Bind_refines_spec now i n ttl c Hc) as (H1 & H2 & H3).
  destruct (IH _ H1) as (? & ? & ?). rewrite H2, H3 in *. done.
Qed.

Lemma specBind_absorb_all cap now i ttl names n2 t2 l :
  addr_valid i = true -> n2 <> "" ->
  specBind cap now i n2 t2 (fold_left (fun l n => specBind cap now i n ttl l) names l)
  = specBind cap now i n2 t2 l.
Proof.
  intros Hv Hn. revert l. induction names as [|n names IH]; intros l; cbn; [done|].
  rewrite IH. by apply specBind_absorb.
Qed.

(** With one question whose chain reaches the record, the whole sequence of
    binds for a record amounts to binding its address to the question. *)
Lemma bindAnswer_spec now qn cnames c a :
  cache_inv c -> addr_valid (rr_ip a) = true -> qn <> "" ->
  followChain 10 cnames (rr_name a) qn [] <> None ->
  cache_inv (bindAnswer now [qn] cnames c a) /\ cap (bindAnswer now [qn] cnames c a) = cap c
  /\ bindings (bindAnswer now [qn] cnames c a)
     = specBind (cap c) now (rr_ip a) qn (rr_ttl a * second) (bindings c).
Proof.
  intros Hc Hv Hq Hch. unfold bindAnswer, bindChain. cbn [fold_left].
  destruct (followChain _ _ _ _ _) as [chain|]; [|done].
  destruct (Bind_refines_spec now (rr_ip a) (rr_name a) (rr_ttl a * second) c Hc) as (H1 & H2 & H3).
  destruct (bindAll_spec now (rr_ip a) (rr_ttl a * second) (rev chain) _ H1) as (H4 & H5 & H6).
  destruct (Bind_refines_spec now (rr_ip a) qn (rr_ttl a * second) _ H4) as (H7 & H8 & H9).
  split_and!; [done|congruence|].
  rewrite H9, H5, H6, H2, H3, specBind_absorb_all by done. by apply specBind_absorb.
Qed.

Definition specAnswers (cap : nat) (now : Z) (qn : string) (ips : list aRR) (l : list dnsEntry) : list dnsEntry :=
  fold_left (fun l a => specBind cap now (rr_ip a) qn (rr_ttl a * second) l) ips l.

Lemma bindAnswers_spec now qn cnames ips c :
  cache_inv c -> qn <> "" ->
  Forall (fun a => addr_valid (rr_ip a) = true /\ followChain 10 cnames (rr_name a) qn [] <> None) ips ->
  cache_inv (fold_left (bindAnswer now [qn] cnames) ips c)
  /\ bindings (fold_left (bindAnswer now [qn] cnames) ips c)
     = specAnswers (cap c) now qn ips (bindings c).
Proof.
  intros Hc Hq H. revert c Hc. induction H as [|a ips [Hv Hch] _ IH]; intros c Hc; cbn [fold_left]; [done|].
  destruct (bindAnswer_spec now qn cnames c a Hc Hv Hq Hch) as (H1 & H2 & H3).
  destruct (IH _ H1) as [H4 H5]. split; [done|]. rewrite H5, H2, H3. done.
Qed.

(** As long as the records fit the capacity, they are all at the front,
    bound to the question. *)
Lemma specAnswers_front cap now qn ips l :
  qn <> "" -> (length ips <= cap)%nat -> Forall (fun a => addr_valid (rr_ip a) = true) ips ->
  exists pre old, specAnswers cap now qn ips l = pre ++ old /\ (length pre <= length ips)%nat
    /\ Forall (fun e => name e = qn /\ now + dnsTTLFloor <= expiresAt e) pre
    /\ Forall (fun a => exists e, e ∈ pre /\ ip e = rr_ip a) ips.
Proof.
  intros Hq. induction ips as [|a ips IH] using rev_ind; intros Hlen Hv.
  { exists [], l. split_and!; done || constructor. }
  rewrite length_app in Hlen; cbn in Hlen. apply Forall_app in Hv as [Hv Ha].
  apply Forall_cons in Ha as [Ha _].
  destruct IH as (pre & old & Heq & Hl & Hpre & Hips); [lia|done|].
  unfold specAnswers in *. rewrite fold_left_app, Heq. cbn [fold_left].
  unfold specBind. rewrite Ha, (proj2 (String.eqb_neq _ _) Hq); cbn [negb orb].
  set (i := rr_ip a). set (e := mkDnsEntry i qn _).
  assert (length (List.filter (other i) pre) <= length pre)%nat as Hf by apply List.filter_length_le.
  exists (e :: List.filter (other i) pre), (take (cap - S (length (List.filter (other i) pre))) (List.filter (other i) old)).
  split_and!.
  - rewrite List.filter_app. change (e :: List.filter (other i) pre ++ List.filter (other i) old)
      with ((e :: List.filter (other i) pre) ++ List.filter (other i) old).
    rewrite take_app. f_equal. apply take_ge. cbn. lia.
  - rewrite length_app. cbn. lia.
  - constructor; [split; [done|]; cbn; pose proof (clampTTL_bounds (rr_ttl a * second)); lia|].
    apply List.Forall_forall. intros e' [He' _]%List.filter_In. rewrite List.Forall_forall in Hpre. auto.
  - apply Forall_app. split; [|constructor; [exists e; split; [by constructor|done]|constructor]].
    eapply Forall_impl; [exact Hips|]. cbn. intros a' (e' & He' & Hip).
    destruct (decide (ip e' = i)) as [E|E]; [exists e; split; [by constructor|by rewrite <- Hip, E]|].
    exists e'. split; [|done]. apply elem_of_cons. right. apply list_elem_of_In, List.filter_In.
    split; [by apply list_elem_of_In|]. unfold other. by rewrite bool_decide_false.
Qed.

Lemma find_front i pre old :
  (exists e, e ∈ pre /\ ip e = i) ->
  exists e, List.find (fun e => negb (other i e)) (pre ++ old) = Some e /\ e ∈ pre.
Proof.
  intros (e & He & Hip). induction pre as [|x pre IH]; [by apply not_elem_of_nil in He|]. cbn.
  unfold other at 1. destruct (bool_decide_reflect (ip x = i)) as [E|E]; cbn.
  - exists x. split; [done|by constructor].
  - apply elem_of_cons in He as [->|He]; [done|].
    destruct (IH He) as (e' & ? & ?). exists e'. split; [done|by constructor].
Qed.

Lemma readAnswers_valid ans ips0 cn0 ips cn :
  readAnswers ans ips0 cn0 = Some (ips, cn) ->
  Forall (fun a => addr_valid (rr_ip a) = true) ips0 ->
  Forall (fun a => addr_valid (rr_ip a) = true) ips.
Proof.
  revert ips0 cn0. induction ans as [|[] ans IH]; cbn; intros ips0 cn0 H Hv; try discriminate; eauto.
  - congruence.
  - eapply IH; [done|]. apply Forall_app. split; [done|]. by repeat constructor.
  - eapply IH; [done|]. apply Forall_app. split; [done|]. by repeat constructor.
Qed.

(** After a response to one question, every address it answers, through a
    CNAME chain of fewer than ten hops, is found under the name the agent asked
    for, for at least the five-second floor, as long as the response's records
    fit the cache. *)
Theorem IngestResponse_binds_question : forall c now now' msg q ips cnames a,
  cache_inv c -> start_ok msg = true -> questions_done msg = true -> answers_done msg = true ->
  questions msg = [q] -> TrimSuffix q "." <> "" ->
  readAnswers (answers msg) [] ∅ = Some (ips, cnames) -> (length ips <= cap c)%nat ->
  Forall (fun a => followChain 10 cnames (rr_name a) (TrimSuffix q ".") [] <> None) ips ->
  In a ips -> now' <= now + dnsTTLFloor ->
  fst (Lookup now' (rr_ip a) (IngestResponse now msg c)) = TrimSuffix q ".".
Proof.
  intros c now now' msg q ips cnames a Hc Hs Hqd Had Hq Hne Hr Hlen Hch Hin Hnow.
  unfold IngestResponse. rewrite Hs, Hqd, Hq, Hr, Had. cbn [negb orb map].
  assert (Forall (fun a => addr_valid (rr_ip a) = true) ips) as Hv
    by (eapply readAnswers_valid; [done|constructor]).
  destruct (bindAnswers_spec now (TrimSuffix q ".") cnames ips c Hc Hne) as [Hi Hb].
  { apply List.Forall_forall. intros x Hx. rewrite List.Forall_forall in Hv, Hch. auto. }
  destruct (specAnswers_front (cap c) now (TrimSuffix q ".") ips (bindings c) Hne Hlen Hv)
    as (pre & old & Heq & _ & Hpre & Hips).
  rewrite List.Forall_forall in Hips, Hv.
  pose proof (Lookup_refines_spec now' (rr_ip a) _ Hi (Hv a Hin)) as HL.
  destruct (Lookup now' (rr_ip a) _) as [r c']. destruct HL as (_ & _ & HL). cbn.
  rewrite Hb, Heq in HL. unfold specLookup in HL.
  destruct (find_front (rr_ip a) pre old (Hips a Hin)) as (e & He & Hep).
  rewrite He in HL. rewrite Forall_forall in Hpre. destruct (Hpre e Hep) as [<- Hexp].
  rewrite (proj2 (Z.ltb_ge _ _)) in HL by lia. by inversion HL.
Qed.

(** ** Witnesses *)

Lemma dnsCache_refines_lru_witness :
  bindings (Bind 0 (Addr4 1) "a.example" 0 newDNSCache) = [mkDnsEntry (Addr4 1) "a.example" dnsTTLFloor].
Proof.
  destruct (dnsCache_refines_lru newDNSCache newDNSCache_inv) as [H _].
  destruct (H 0 (Addr4 1) "a.example" 0) as (_ & _ & ->). vm_compute. reflexivity.
Defined.

Lemma Bind_lifetime_witness :
  fst (Lookup (4 * second) (Addr4 1) (Bind 0 (Addr4 1) "a.example" 0 newDNSCache)) = "a.example"
  /\ fst (Lookup (11 * minute) (Addr4 1) (Bind 0 (Addr4 1) "a.example" (86400 * second) newDNSCache)) = "".
Proof.
  split.
  - destruct (Bind_lifetime newDNSCache 0 (4 * second) (Addr4 1) "a.example" 0) as [-> _].
    + apply newDNSCache_inv.
    + apply Nat.leb_le. vm_compute. reflexivity.
    + reflexivity.
    + discriminate.
    + vm_compute. reflexivity.
  - destruct (Bind_lifetime newDNSCache 0 (11 * minute) (Addr4 1) "a.example" (86400 * second)) as [-> _].
    + apply newDNSCache_inv.
    + apply Nat.leb_le. vm_compute. reflexivity.
    + reflexivity.
    + discriminate.
    + vm_compute. reflexivity.
Defined.

Definition sample_message : dnsMessage :=
  mkDnsMessage true ["api.openai.com."] true
    [AnswerCNAME "api.openai.com." "cdn.example.net."; AnswerOther;
     AnswerA "cdn.example.net." 300 (be_split 4 16843009);
     AnswerA "cdn.example.net." 300 (be_split 4 16843010)] true.

Lemma IngestResponse_binds_question_witness :
  fst (Lookup second (Addr4 16843009) (IngestResponse 0 sample_message newDNSCache)) = "api.openai.com".
Proof.
  apply (IngestResponse_binds_question newDNSCache 0 second sample_message "api.openai.com."
           [mkARR "cdn.example.net" (Addr4 16843009) 300; mkARR "cdn.example.net" (Addr4 16843010) 300]
           (<["api.openai.com" := "cdn.example.net"]> ∅)
           (mkARR "cdn.example.net" (Addr4 16843009) 300)).
  - apply newDNSCache_inv.
  - reflexivity.
  - reflexivity.
  - reflexivity.
  - reflexivity.
  - discriminate.
  - reflexivity.
  - apply Nat.leb_le. vm_compute. reflexivity.
  - constructor; [|constructor; [|constructor]]; vm_compute; discriminate.
  - left. reflexivity.
  - discriminate.
Defined.

End DnsCache.
