(* ===== verification/InvocationCtx.v ===== *)
(** * The invocation context store

    [internal/extproc/invocationctx/store.go]: the controller-manager's map from
    invocation id to the trace parent of the request that started it, with a
    time-to-live and a reaper.  The ingress processor calls [Put], the egress
    processor [Get].  [trace.SpanContext] is OpenTelemetry's, so the type and its
    validity test are parameters. *)

From Stdlib Require Import ZArith Lia String List.
From stdpp Require Import base strings list gmap fin_maps.
From S2P Require Import Prelude.

Module InvocationCtx.
#[local] Open Scope string_scope.
#[local] Open Scope Z_scope.

(** Nanoseconds. *)
Definition DefaultTTL : Z := 5 * 60 * 1000000000.
Definition reapInterval : Z := 30 * 1000000000.

Section Store.
Context {SpanContext : Type} (IsValid : SpanContext -> bool).

Record entry := mkEntry { parent : SpanContext; expireAt : Z }.

Record Store := mkStore {
  entries : gmap string entry;
  ttl : Z;
  (** whether the [stop] channel is closed *)
  stop : bool;
}.

Definition NewStoreWithClock (ttl : Z) : Store := mkStore ∅ ttl false.
Definition NewStore : Store := NewStoreWithClock DefaultTTL.

(** [now] is what [s.now()] answers. *)
Definition Put (now : Z) (invocationID : string) (p : SpanContext) (s : Store) : Store :=
  if bool_decide (invocationID = "") || negb (IsValid p) then s
  else mkStore (<[invocationID := mkEntry p (now + ttl s)]> (entries s)) (ttl s) (stop s).

Definition Get (now : Z) (invocationID : string) (s : Store) : option SpanContext :=
  if bool_decide (invocationID = "") then None
  else match entries s !! invocationID with
       | None => None
       | Some e => if negb (now <? expireAt e) then None else Some (parent e)
       end.

Definition Delete (invocationID : string) (s : Store) : Store :=
  if bool_decide (invocationID = "") then s
  else mkStore (delete invocationID (entries s)) (ttl s) (stop s).

Definition live (now : Z) (e : entry) : Prop := now < expireAt e.
#[local] Instance live_dec now e : Decision (live now e) := Z.lt_dec now (expireAt e).

(** The loop over the map deletes the entry it is at, which Go allows. *)
Definition reap (now : Z) (s : Store) : Store :=
  mkStore (filter (fun ke => live now ke.2) (entries s)) (ttl s) (stop s).

Definition Len (now : Z) (s : Store) : nat :=
  size (filter (fun ke : string * entry => live now ke.2) (entries s)).

Definition Close (s : Store) : Store :=
  if stop s then s else mkStore (entries s) (ttl s) true.

(** What the reaper's [select] receives, in order. *)
Inductive wakeup := CtxDone | Stopped | Tick (now : Z).

Fixpoint Run (l : list wakeup) (s : Store) : Store :=
  match l with
  | [] | CtxDone :: _ | Stopped :: _ => s
  | Tick now :: l => Run l (reap now s)
  end.

(** ** The store as a history

    A history lists the calls with the clock reading of each, newest first. *)
Inductive op := OPut (id : string) (p : SpanContext) | ODelete (id : string) | OReap.

Fixpoint after (t0 : Z) (h : list (Z * op)) : Store :=
  match h with
  | [] => NewStoreWithClock t0
  | (t, OPut id p) :: h => Put t id p (after t0 h)
  | (t, ODelete id) :: h => Delete id (after t0 h)
  | (t, OReap) :: h => reap t (after t0 h)
  end.

(** What a reader should see: the last [Put] under the id, unless a [Delete]
    came after it.  Reaps play no part. *)
Fixpoint lastPut (id : string) (h : list (Z * op)) : option (Z * SpanContext) :=
  match h with
  | [] => None
  | (t, OPut id' p) :: h =>
      if bool_decide (id' = id /\ id <> "") && IsValid p then Some (t, p) else lastPut id h
  | (_, ODelete id') :: h => if bool_decide (id' = id) then None else lastPut id h
  | (_, OReap) :: h => lastPut id h
  end.

Fixpoint clock_ok (now : Z) (h : list (Z * op)) : Prop :=
  match h with [] => True | (t, _) :: h => t <= now /\ clock_ok t h end.

Lemma after_ttl t0 h : ttl (after t0 h) = t0.
Proof.
  induction h as [|[t []] h IH]; cbn; [done| | |done]; unfold Put, Delete; case_match; done.
Qed.

Lemma clock_ok_mono now now' h : now <= now' -> clock_ok now h -> clock_ok now' h.
Proof. destruct h as [|[t o] h]; cbn; [done|]. intros ? [? ?]. split; [lia|done]. Qed.

(** The map holds the last write of each id, except that a reap may have removed
    it once it had expired. *)
Lemma after_entries t0 h now id :
  clock_ok now h -> id <> "" ->
  match entries (after t0 h) !! id with
  | Some e => exists t, lastPut id h = Some (t, parent e) /\ expireAt e = t + t0
  | None => lastPut id h = None
            \/ exists t p, lastPut id h = Some (t, p) /\ t + t0 <= now
  end.
Proof.
  intros Hc Hid. revert now Hc. induction h as [|[t o] h IH]; intros now; cbn; [by left|].
  intros [Ht Hc]. specialize (IH t Hc). destruct o as [id' p|id'|]; cbn.
  - assert (Hold : match entries (after t0 h) !! id with
      | Some e => exists t1, lastPut id h = Some (t1, parent e) /\ expireAt e = t1 + t0
      | None => lastPut id h = None \/ exists t1 p1, lastPut id h = Some (t1, p1) /\ t1 + t0 <= now
      end) by (case_match; naive_solver lia).
    unfold Put. destruct (decide (id' = id)) as [->|Hne].
    + rewrite !bool_decide_eq_false_2, bool_decide_eq_true_2 by done.
      destruct (IsValid p); cbn; [|exact Hold].
      rewrite lookup_insert_eq. exists t. by rewrite after_ttl.
    + rewrite (bool_decide_eq_false_2 (_ /\ _)) by naive_solver. cbn.
      destruct (bool_decide (id' = "") || _); cbn; [exact Hold|]. by rewrite lookup_insert_ne.
  - unfold Delete. destruct (decide (id' = id)) as [->|Hne].
    + rewrite bool_decide_eq_false_2, bool_decide_eq_true_2 by done. cbn.
      rewrite lookup_delete_eq. by left.
    + rewrite (bool_decide_eq_false_2 (id' = id)) by done.
      assert (entries (if bool_decide (id' = "") then after t0 h
        else mkStore (delete id' (entries (after t0 h))) (ttl (after t0 h)) (stop (after t0 h))) !! id
        = entries (after t0 h) !! id) as ->.
      { destruct (bool_decide (id' = "")); cbn; [done|]. by rewrite lookup_delete_ne. }
      case_match; naive_solver lia.
  - destruct (entries (after t0 h) !! id) as [e|] eqn:E.
    + destruct IH as (t1 & Hl & He). destruct (decide (live t e)) as [Hl'|Hl'].
      * erewrite (proj2 (map_lookup_filter_Some _ _ _ _)); [eauto|]. by split.
      * rewrite (proj2 (map_lookup_filter_None _ _ _)); [|naive_solver].
        right. exists t1, (parent e). unfold live in Hl'. split; [done|lia].
    + rewrite (proj2 (map_lookup_filter_None _ _ _)) by auto. naive_solver lia.
Qed.

(** Whatever was put, deleted and reaped before, and however often the reaper
    ran, [Get] answers the last parent put under the id, unless it was deleted
    since or its time-to-live has passed: the map with its reaper is equivalent
    to keeping the whole history. *)
Theorem Get_history (t0 now : Z) (h : list (Z * op)) (id : string) :
  clock_ok now h ->
  Get now id (after t0 h)
  = match lastPut id h with
    | Some (t, p) => if now <? t + t0 then Some p else None
    | None => None
    end.
Proof.
  intros Hc. unfold Get. case_bool_decide as Hid.
  - subst id. assert (lastPut "" h = None) as ->; [|done]. clear Hc.
    induction h as [|[t []] h IH]; cbn; [done| | |done].
    + by rewrite bool_decide_eq_false_2 by naive_solver.
    + by case_bool_decide.
  - pose proof (after_entries t0 h now id Hc Hid) as H.
    destruct (entries (after t0 h) !! id) as [e|].
    + destruct H as (t & -> & ->). by destruct (now <? t + t0).
    + destruct H as [->|(t & p & -> & Ht)]; [done|]. by rewrite (proj2 (Z.ltb_ge _ _) Ht).
Qed.

(** A pass of the reaper leaves exactly the live entries: memory follows the
    number of invocations started in the last [ttl]. *)
Lemma reap_Len now s : size (entries (reap now s)) = Len now s.
Proof. done. Qed.

Lemma reap_bounded now s : forall id e, entries (reap now s) !! id = Some e -> now < expireAt e.
Proof. intros id e H. by apply map_lookup_filter_Some in H as [_ H]. Qed.

End Store.

Lemma Get_history_witness :
  clock_ok (SpanContext := nat) 9 [(8, OReap); (4, OPut "b" 2%nat); (3, OReap); (0, OPut "a" 1%nat)]
  /\ Get 9 "b" (after (fun _ => true) 6
       [(8, OReap); (4, OPut "b" 2%nat); (3, OReap); (0, OPut "a" 1%nat)]) = Some 2%nat.
Proof.
  split; [cbn; lia|]. rewrite Get_history by (cbn; lia). reflexivity.
Defined.

End InvocationCtx.
