(* ===== verification/InvEvent.v ===== *)
(** * Invocation events

    [internal/invevent] (subjects and keys of the message bus),
    [api/clrk/v1alpha1/types_invocation.go] (phases and triggers): what the
    ingress processor, the worker and the controller-manager agree on.  NATS's
    subject matching is a parameter of the theorems that need it. *)

From Stdlib Require Import ZArith Lia Ascii String List.
From stdpp Require Import base strings list gmap.
From S2P Require Import Prelude GoStrings GoStd.
Import GoStrings GoStd.

Module InvEvent.
#[local] Open Scope string_scope.
#[local] Arguments String.append : simpl nomatch.

(** ** Phases and triggers *)

Inductive InvocationPhase :=
| PhasePending | PhaseDispatched | PhaseRunning
| PhaseSucceeded | PhaseFailed | PhaseTimeout | PhaseRejected.

#[export] Instance InvocationPhase_eq_dec : EqDecision InvocationPhase.
Proof. solve_decision. Defined.

(** The wire value. *)
Definition phase_string (p : InvocationPhase) : string :=
  match p with
  | PhasePending => "Pending" | PhaseDispatched => "Dispatched" | PhaseRunning => "Running"
  | PhaseSucceeded => "Succeeded" | PhaseFailed => "Failed" | PhaseTimeout => "Timeout"
  | PhaseRejected => "Rejected"
  end.

(** The phases no later phase follows. *)
Definition terminal (p : InvocationPhase) : bool :=
  match p with
  | PhaseSucceeded | PhaseFailed | PhaseTimeout | PhaseRejected => true
  | _ => false
  end.

Inductive InvocationTriggerType := TriggerHTTP | TriggerCron | TriggerCLI.

#[export] Instance InvocationTriggerType_eq_dec : EqDecision InvocationTriggerType.
Proof. solve_decision. Defined.

Definition TriggerTypeFromHeaderValue (v : string) : InvocationTriggerType :=
  if String.eqb (ToLower v) "cron" then TriggerCron
  else if String.eqb (ToLower v) "cli" then TriggerCLI
  else TriggerHTTP.

Definition InvocationParentTaskAgent : string := "TaskAgent".

(** The part of an [Invocation] the producers fill. *)
Record Invocation := mkInvocation {
  inv_Name : string;
  inv_Namespace : string;
  inv_CreationTimestamp : Z;
  inv_ParentKind : string;
  inv_ParentName : string;
  inv_Trigger : InvocationTriggerType;
  inv_Phase : InvocationPhase;
}.

#[export] Instance Invocation_eq_dec : EqDecision Invocation.
Proof. solve_decision. Defined.

(** ** Subjects and keys *)

Definition SubjectPrefix : string := "clrk.invocations".

Definition tok_keeps (c : ascii) : bool :=
  let n := N_of_ascii c in
  ((97 <=? n) && (n <=? 122) || (65 <=? n) && (n <=? 90) || (48 <=? n) && (n <=? 57)
   || (n =? 45) || (n =? 95))%N.

(** [strings.Map]; on ASCII names, which Kubernetes names are. *)
Fixpoint tok_map (s : string) : string :=
  match s with
  | EmptyString => EmptyString
  | String c t => String (if tok_keeps c then c else "_"%char) (tok_map t)
  end.

Definition tok (s : string) : string := if String.eqb s "" then "_" else tok_map s.

Definition Subject (namespace kind agent id : string) : string :=
  SubjectPrefix ++ "." ++ tok namespace ++ "." ++ tok kind ++ "." ++ tok agent ++ "." ++ tok id.

Definition FilterSubject (namespace kind parent : string) : string :=
  if String.eqb namespace "" then SubjectPrefix ++ ".>"
  else if String.eqb kind "" then SubjectPrefix ++ "." ++ tok namespace ++ ".>"
  else if String.eqb parent "" then SubjectPrefix ++ "." ++ tok namespace ++ "." ++ tok kind ++ ".>"
  else SubjectPrefix ++ "." ++ tok namespace ++ "." ++ tok kind ++ "." ++ tok parent ++ ".>".

Definition WorkerStatusKey (namespace pool pod : string) : string :=
  tok namespace ++ "." ++ tok pool ++ "." ++ tok pod.

(** The message [Publish] hands to JetStream: subject, deduplication id, the
    birth marker and the object. *)
Record message := mkMessage {
  m_subject : string;
  m_msgID : string;
  m_first : bool;
  m_object : Invocation;
}.

Definition Publish_message (inv : Invocation) (first : bool) : message :=
  mkMessage
    (Subject (inv_Namespace inv) (inv_ParentKind inv) (inv_ParentName inv) (inv_Name inv))
    (inv_Name inv ++ "." ++ phase_string (inv_Phase inv))
    first inv.

(** ** Lemmas *)

(** A name [tok] leaves alone: what the comment calls a dot-free DNS label. *)
Definition plain (s : string) : bool :=
  negb (String.eqb s "") && forallb tok_keeps (list_ascii_of_string s).

Lemma tok_plain s : plain s = true -> tok s = s.
Proof.
  unfold plain, tok. destruct (String.eqb s "") eqn:E; [discriminate|]. cbn [negb andb]. clear E.
  induction s as [|c s IH]; cbn; [done|]. intros [-> H]%andb_true_iff. by rewrite IH.
Qed.

Lemma tok_no_dot s : ~ In "."%char (list_ascii_of_string (tok s)).
Proof.
  unfold tok. destruct (String.eqb s "") eqn:E; [cbn; by intros [[=]|]|]. clear E.
  induction s as [|c s IH]; cbn; [tauto|].
  intros [H|H]; [|by apply IH]. destruct (tok_keeps c) eqn:Ek; [|discriminate]. subst c. discriminate.
Qed.

(** Two dotted strings with dot-free heads split at the same place. *)
Lemma dotted_inj a b a' b' :
  ~ In "."%char (list_ascii_of_string a) -> ~ In "."%char (list_ascii_of_string a') ->
  a ++ "." ++ b = a' ++ "." ++ b' -> a = a' /\ b = b'.
Proof.
  intros Ha Ha' H.
  pose proof (proj2 (Cut_found _ "."%char a b) (conj eq_refl Ha)) as E.
  pose proof (proj2 (Cut_found _ "."%char a' b') (conj eq_refl Ha')) as E'.
  cbn [append] in H. rewrite H, E' in E. by injection E as -> ->.
Qed.

Lemma WorkerStatusKey_inj_tok n p w n' p' w' :
  WorkerStatusKey n p w = WorkerStatusKey n' p' w' ->
  tok n = tok n' /\ tok p = tok p' /\ tok w = tok w'.
Proof.
  unfold WorkerStatusKey. intros H.
  apply dotted_inj in H as [H1 H]; [|apply tok_no_dot..].
  apply dotted_inj in H as [H2 H3]; [|apply tok_no_dot..]. done.
Qed.

(** The key a worker publishes under and the key the controller-manager looks up
    are the same only for the same worker, when names are plain. *)
Lemma WorkerStatusKey_inj n p w n' p' w' :
  forallb plain [n; p; w; n'; p'; w'] = true ->
  WorkerStatusKey n p w = WorkerStatusKey n' p' w' -> (n, p, w) = (n', p', w').
Proof.
  cbn [forallb]. rewrite !andb_true_iff. intros Hp E.
  apply WorkerStatusKey_inj_tok in E. destruct Hp as (? & ? & ? & ? & ? & ? & _).
  rewrite !tok_plain in E by done. by destruct E as (-> & -> & ->).
Qed.

(** ** Watches see every event of their scope *)

Section Filter.
(** NATS: [p.>] matches every subject that continues [p.] with at least one
    token. *)
Variable subj_matches : string -> string -> bool.
Hypothesis subj_matches_tail : forall p rest,
  rest <> "" -> subj_matches (p ++ ".>") (p ++ "." ++ rest) = true.

Lemma tok_nonempty s : tok s <> "".
Proof.
  unfold tok. destruct (String.eqb_spec s ""); [done|]. by destruct s.
Qed.

Lemma tail2 a rest : rest <> "" ->
  subj_matches (SubjectPrefix ++ "." ++ a ++ ".>") (SubjectPrefix ++ "." ++ a ++ "." ++ rest) = true.
Proof.
  intros H. pose proof (subj_matches_tail (SubjectPrefix ++ "." ++ a) rest H) as E.
  by rewrite !str_app_assoc in E.
Qed.

(** A consumer scoped to the cluster, a namespace or one parent is delivered
    every event of that scope: [FilterSubject] matches the [Subject] of each
    invocation whose namespace and parent the scope names. *)
Theorem FilterSubject_covers (inv : Invocation) (first : bool) (namespace kind parent : string) :
  (namespace = "" \/ namespace = inv_Namespace inv) ->
  (kind = "" \/ kind = inv_ParentKind inv) ->
  (parent = "" \/ parent = inv_ParentName inv) ->
  subj_matches (FilterSubject namespace kind parent) (m_subject (Publish_message inv first)) = true.
Proof.
  intros Hn Hk Hp. cbn [Publish_message m_subject]. unfold FilterSubject, Subject.
  assert (Happ : forall a b, a ++ "." ++ b <> "") by (by intros []).
  destruct (String.eqb_spec namespace ""); [by apply subj_matches_tail, Happ|].
  destruct Hn as [?| ->]; [done|].
  destruct (String.eqb_spec kind ""); [by apply tail2 with (rest := _ ++ "." ++ _ ++ "." ++ _)|].
  destruct Hk as [?| ->]; [done|].
  destruct (String.eqb_spec parent "").
  - pose proof (tail2 (tok (inv_Namespace inv) ++ "." ++ tok (inv_ParentKind inv))
      (tok (inv_ParentName inv) ++ "." ++ tok (inv_Name inv)) (Happ _ _)) as H.
    by rewrite !str_app_assoc in H.
  - destruct Hp as [?| ->]; [done|].
    pose proof (tail2 (tok (inv_Namespace inv) ++ "." ++ tok (inv_ParentKind inv) ++ "."
      ++ tok (inv_ParentName inv)) (tok (inv_Name inv)) (tok_nonempty _)) as H.
    by rewrite !str_app_assoc in H.
Qed.
End Filter.

(** A matcher for the filters of this file: a filter that ends in [.>] matches
    the longer subjects that start with what is before the [>]. *)
Definition tail_matches (f s : string) : bool :=
  let p := take_str (String.length f - 1) f in
  HasPrefix s p && (String.length p <? String.length s)%nat.

Lemma FilterSubject_covers_witness :
  tail_matches (FilterSubject "prod" "TaskAgent" "")
    (m_subject (Publish_message
      (mkInvocation "id-1" "prod" 0 "TaskAgent" "bot" TriggerHTTP PhaseRunning) false)) = true.
Proof.
  apply (FilterSubject_covers tail_matches); [|by right|by right|by left].
  intros p rest Hr. unfold tail_matches.
  replace (String.length (p ++ ".>") - 1)%nat with (String.length (p ++ ".")).
  2: { rewrite !str_length_app. cbn. lia. }
  replace (p ++ ".>") with ((p ++ ".") ++ ">") by apply str_app_assoc.
  replace (p ++ "." ++ rest) with ((p ++ ".") ++ rest) by apply str_app_assoc.
  rewrite take_str_app, (proj2 (HasPrefix_spec _ _)) by eauto. cbn [andb].
  apply Nat.ltb_lt. rewrite (str_length_app (p ++ ".") rest). destruct rest; [done|cbn; lia].
Defined.

End InvEvent.
