(* ===== verification/HealthCheck.v ===== *)
(** * Choosing a worker

    [internal/healthcheck/healthchecker.go]: the controller-manager joins the
    endpoints of each worker pool with the status each worker publishes, and
    [Pick] chooses the worker for one execution.  The state is [pools] and [kv];
    the reconcile ([syncOnce]), the watch ([upsertKV], [removeKV]) and the reads
    each hold the lock, so a run is a sequence of these operations. *)

From Stdlib Require Import ZArith Lia Ascii String List.
From Stdlib Require Import Sorting.Permutation.
From stdpp Require Import base strings list gmap fin_maps pretty.
From S2P Require Import Prelude GoStrings GoStd ApiTypes InvEvent.
Import GoStrings GoStd ApiTypes.ApiTypes InvEvent.

Module HealthCheck.
#[local] Open Scope string_scope.
#[local] Open Scope Z_scope.

Definition DispatchPort : Z := 8090.
Definition healthcheckerDeadAfter : Z := 15 * 1000000000.
Definition kvEvictAfter : Z := 30 * 1000000000.

(** ** Data *)

(** The messages of [WorkerStatus]; counts are [uint32]. *)
Record WarmRevision := mkWarmRevision {
  wr_Namespace : string; wr_Agent : string; wr_Revision : string; wr_Count : Z }.
Record InFlight := mkInFlight { if_Namespace : string; if_Agent : string; if_Count : Z }.
Record WorkerStatus := mkWorkerStatus {
  WarmRevisions : list WarmRevision;
  ws_InFlight : list InFlight;
  CachedImages : list string;
}.

Record endpoint := mkEndpoint { podName : string; podIP : string }.
Record kvEntry := mkKvEntry { snapshot : WorkerStatus; lastSeen : Z }.

Record WorkerHealthChecker := mkChecker {
  pools : gmap NamespacedName (gmap string endpoint);
  kv : gmap string kvEntry;
}.

Definition NewWorkerHealthChecker : WorkerHealthChecker := mkChecker ∅ ∅.

(** [discoveryv1.EndpointSlice], the fields that are read. *)
Record SliceEndpoint := mkSliceEndpoint {
  ep_Ready : option bool;
  ep_TargetRef : option string;
  ep_Addresses : list string;
}.
Record EndpointSlice := mkEndpointSlice { AddressType : string; Endpoints : list SliceEndpoint }.

(** ** Reconciling the endpoints *)

(** The first address that is not empty, [""] if there is none. *)
Fixpoint firstAddress (l : list string) : string :=
  match l with [] => "" | a :: l => if String.eqb a "" then firstAddress l else a end.

Definition addEndpoint (workers : gmap string endpoint) (ep : SliceEndpoint) : gmap string endpoint :=
  if bool_decide (ep_Ready ep = Some false) then workers
  else match ep_TargetRef ep with
       | None => workers
       | Some name =>
           if String.eqb name "" then workers
           else let ip := firstAddress (ep_Addresses ep) in
                if String.eqb ip "" then workers
                else <[name := mkEndpoint name ip]> workers
       end.

Definition addSlice (workers : gmap string endpoint) (s : EndpointSlice) : gmap string endpoint :=
  if negb (String.eqb (AddressType s) "IPv4") then workers
  else fold_left addEndpoint (Endpoints s) workers.

(** [slices] is the result of the List call; [None] is its error. *)
Definition poolEndpoints (slices : option (list EndpointSlice)) : option (gmap string endpoint) :=
  match slices with None => None | Some l => Some (fold_left addSlice l ∅) end.

(** One [syncOnce]: [wps] the WorkerPool list, [slices] the EndpointSlice list
    of each pool, [now] the clock. *)
Definition syncPools (h : WorkerHealthChecker) (slices : NamespacedName -> option (list EndpointSlice))
    (wps : list NamespacedName) : gmap NamespacedName (gmap string endpoint) :=
  fold_left (fun acc key =>
    let workers := match poolEndpoints (slices key) with
                   | Some w => w
                   | None => default ∅ (pools h !! key)
                   end in
    <[key := workers]> acc) wps ∅.

Definition fresh (now : Z) (e : kvEntry) : Prop := now - lastSeen e <= kvEvictAfter.
#[export] Instance fresh_dec now e : Decision (fresh now e) := Z.le_dec _ _.

Definition syncOnce (now : Z) (wps : option (list NamespacedName))
    (slices : NamespacedName -> option (list EndpointSlice)) (h : WorkerHealthChecker)
    : WorkerHealthChecker :=
  match wps with
  | None => h
  | Some l => mkChecker (syncPools h slices l) (filter (fun ke => fresh now ke.2) (kv h))
  end.

(** ** Watching the status bucket *)

(** [ws] is the decoded value, [None] when it does not unmarshal. *)
Definition upsertKV (now : Z) (key : string) (ws : option WorkerStatus) (h : WorkerHealthChecker)
    : WorkerHealthChecker :=
  match ws with
  | None => h
  | Some ws => mkChecker (pools h) (<[key := mkKvEntry ws now]> (kv h))
  end.

Definition removeKV (key : string) (h : WorkerHealthChecker) : WorkerHealthChecker :=
  mkChecker (pools h) (delete key (kv h)).

(** ** Picking *)

(** [LastSeen] is [None] for the zero time. *)
Record CandidateState := mkCandidateState {
  PodIP : string;
  Snapshot : option WorkerStatus;
  LastSeen : option Z;
}.

Record PickResult := mkPickResult { Addr : string; AlreadyAtCap : bool }.

Record candidate := mkCandidate { ip : string; warm : Z; inFlight : Z }.

Fixpoint warmCount (ns agent revision : string) (l : list WarmRevision) : Z :=
  match l with
  | [] => 0
  | w :: l =>
      if String.eqb (wr_Namespace w) ns && String.eqb (wr_Agent w) agent
         && String.eqb (wr_Revision w) revision
      then wr_Count w else warmCount ns agent revision l
  end.

Fixpoint inFlightCount (ns agent : string) (l : list InFlight) : Z :=
  match l with
  | [] => 0
  | f :: l =>
      if String.eqb (if_Namespace f) ns && String.eqb (if_Agent f) agent
      then if_Count f else inFlightCount ns agent l
  end.

(** A worker no status of which is recent. *)
Definition stale (now : Z) (st : CandidateState) : bool :=
  match LastSeen st with Some t => healthcheckerDeadAfter <? now - t | None => false end.

(** The first loop: candidates and the in-flight sum, a [uint32]. *)
Fixpoint collect (ns agent revision : string) (now : Z) (states : list CandidateState)
    (sum : Z) : list candidate * Z :=
  match states with
  | [] => ([], sum)
  | st :: states =>
      match Snapshot st with
      | None => collect ns agent revision now states sum
      | Some snap =>
          if stale now st then collect ns agent revision now states sum
          else
            let n := inFlightCount ns agent (ws_InFlight snap) in
            let c := mkCandidate (PodIP st) (warmCount ns agent revision (WarmRevisions snap)) n in
            let '(cs, s) := collect ns agent revision now states (uint32 (sum + n)) in
            (c :: cs, s)
      end
  end.

Definition pickHash (tieBreaker ip : string) : Z :=
  fnv64a (tieBreaker ++ String "000"%char ip)%string.

Definition pickLess (tieBreaker : string) (a b : candidate) : bool :=
  if negb (Bool.eqb (0 <? warm a) (0 <? warm b)) then 0 <? warm a
  else if negb (inFlight a =? inFlight b) then inFlight a <? inFlight b
  else pickHash tieBreaker (ip a) <? pickHash tieBreaker (ip b).

Definition PickFromCandidates (states : list CandidateState) (ns agent revision : string)
    (maxConcurrent : Z) (tieBreaker : string) (now : Z) : PickResult * bool :=
  let '(cands, clusterInFlight) := collect ns agent revision now states 0 in
  match cands with
  | [] => (mkPickResult "" false, false)
  | _ =>
      if (0 <? maxConcurrent) && (maxConcurrent <=? clusterInFlight)
      then (mkPickResult "" true, false)
      else
        let cands := if 0 <? maxConcurrent
                     then List.filter (fun c => inFlight c <? maxConcurrent) cands else cands in
        match SliceStable (pickLess tieBreaker) cands with
        | [] => (mkPickResult "" true, false)
        | c :: _ => (mkPickResult (ip c ++ ":" ++ pretty DispatchPort)%string false, true)
        end
  end.

Definition candidateState (h : WorkerHealthChecker) (pool : NamespacedName) (ep : endpoint)
    : CandidateState :=
  match kv h !! WorkerStatusKey (nn_namespace pool) (nn_name pool) (podName ep) with
  | Some e => mkCandidateState (podIP ep) (Some (snapshot e)) (Some (lastSeen e))
  | None => mkCandidateState (podIP ep) None None
  end.

(** [order] is the order in which the range over the pool's endpoints visits
    them. *)
Definition Pick (h : WorkerHealthChecker) (pool : NamespacedName) (order : list endpoint)
    (ns agent revision : string) (maxConcurrent : Z) (tieBreaker : string) (now : Z)
    : PickResult * bool :=
  PickFromCandidates (List.map (candidateState h pool) order) ns agent revision maxConcurrent
    tieBreaker now.

Definition endpoints_of (h : WorkerHealthChecker) (pool : NamespacedName) : list endpoint :=
  (map_to_list (default ∅ (pools h !! pool))).*2.

(** ** The policy, stated on the workers *)

(** A worker that may be chosen: it has published a status, not long ago. *)
Definition liveWorker (now : Z) (st : CandidateState) : bool :=
  match Snapshot st, LastSeen st with
  | None, _ => false
  | Some _, None => true
  | Some _, Some t => now - t <=? healthcheckerDeadAfter
  end.

Definition hasWarm (ns agent revision : string) (st : CandidateState) : Prop :=
  match Snapshot st with
  | Some snap => 0 < warmCount ns agent revision (WarmRevisions snap)
  | None => False
  end.

Definition inFlightOf (ns agent : string) (st : CandidateState) : Z :=
  match Snapshot st with Some snap => inFlightCount ns agent (ws_InFlight snap) | None => 0 end.

(** What the live workers report in flight for the agent, together. *)
Definition clusterTotal (ns agent : string) (now : Z) (states : list CandidateState) : Z :=
  sumZ (List.map (inFlightOf ns agent) (List.filter (liveWorker now) states)).

(** [a] is strictly better than [b]: warm before cold, then fewer in flight,
    then the lower hash. *)
Definition preferred (ns agent revision tieBreaker : string) (a b : CandidateState) : Prop :=
  hasWarm ns agent revision a /\ ~ hasWarm ns agent revision b
  \/ (hasWarm ns agent revision a <-> hasWarm ns agent revision b)
     /\ (inFlightOf ns agent a < inFlightOf ns agent b
         \/ inFlightOf ns agent a = inFlightOf ns agent b
            /\ pickHash tieBreaker (PodIP a) < pickHash tieBreaker (PodIP b)).

(** The candidate the loop makes of a worker with a status. *)
Definition toCandidate (ns agent revision : string) (st : CandidateState) : candidate :=
  mkCandidate (PodIP st)
    (match Snapshot st with
     | Some snap => warmCount ns agent revision (WarmRevisions snap) | None => 0 end)
    (inFlightOf ns agent st).

Definition liveWorker_status (st : CandidateState) : Prop := is_Some (Snapshot st).

Lemma collect_cons ns agent revision now st states sum :
  collect ns agent revision now (st :: states) sum
  = if liveWorker now st
    then let r := collect ns agent revision now states (uint32 (sum + inFlightOf ns agent st)) in
         (toCandidate ns agent revision st :: r.1, r.2)
    else collect ns agent revision now states sum.
Proof.
  unfold liveWorker, toCandidate, inFlightOf. cbn [collect]. unfold stale.
  destruct (Snapshot st), (LastSeen st); rewrite ?Z.leb_antisym; try done;
    [destruct (_ <? _); cbn; [done|]|]; by destruct (collect _ _ _ _ _ _).
Qed.

Lemma collect_cands ns agent revision now states sum :
  (collect ns agent revision now states sum).1
  = List.map (toCandidate ns agent revision) (List.filter (liveWorker now) states).
Proof.
  revert sum. induction states as [|st states IH]; intros sum; [done|].
  rewrite collect_cons. cbn [List.filter]. destruct (liveWorker now st); cbn; by rewrite IH.
Qed.

Lemma collect_sum ns agent revision now states sum :
  sum = uint32 sum ->
  (collect ns agent revision now states sum).2 = uint32 (sum + clusterTotal ns agent now states).
Proof.
  unfold clusterTotal. revert sum. induction states as [|st states IH]; intros sum Hs.
  { cbn. by rewrite Z.add_0_r. }
  rewrite collect_cons. cbn [List.filter]. destruct (liveWorker now st); cbn; [|by apply IH].
  rewrite IH by (unfold uint32, wrap; by rewrite Zmod_mod).
  unfold uint32, wrap. rewrite Zplus_mod_idemp_l. f_equal. unfold sumZ. lia.
Qed.

#[export] Instance pickLess_order tb : StrictWeakOrder (pickLess tb).
Proof.
  split; intros; unfold pickLess in *; repeat split_if; bool_to_prop;
    repeat match goal with H : Bool.eqb _ _ = _ |- _ => revert H end;
    repeat match goal with |- context [0 <? ?x] => destruct (Z.ltb_spec 0 x) end; cbn; intros; try lia; congruence.
Qed.

Lemma pickLess_preferred ns agent revision tb a b :
  liveWorker_status a -> liveWorker_status b ->
  pickLess tb (toCandidate ns agent revision a) (toCandidate ns agent revision b) = true
  <-> preferred ns agent revision tb a b.
Proof.
  unfold liveWorker_status, pickLess, preferred, hasWarm, toCandidate. cbn.
  destruct (Snapshot a) as [sa|], (Snapshot b) as [sb|]; try done. intros _ _.
  destruct (Z.ltb_spec 0 (warmCount ns agent revision (WarmRevisions sa))) as [Ha|Ha],
    (Z.ltb_spec 0 (warmCount ns agent revision (WarmRevisions sb))) as [Hb|Hb]; cbn;
    repeat split_if; bool_to_prop; rewrite ?Z.ltb_lt; intuition lia.
Qed.

Lemma live_has_status now st : liveWorker now st = true -> liveWorker_status st.
Proof. unfold liveWorker, liveWorker_status. by destruct (Snapshot st). Qed.

Lemma live_cands_In ns agent revision now states c :
  In c (List.map (toCandidate ns agent revision) (List.filter (liveWorker now) states))
  <-> exists st, In st states /\ liveWorker now st = true /\ c = toCandidate ns agent revision st.
Proof.
  rewrite in_map_iff. setoid_rewrite filter_In. naive_solver.
Qed.

(** Below the cluster cap no single worker can be at it, so the second filter
    drops nobody. *)
Lemma second_filter_id ns agent revision now states maxConcurrent :
  Forall (fun st => 0 <= inFlightOf ns agent st) states ->
  clusterTotal ns agent now states < maxConcurrent ->
  List.filter (fun c => inFlight c <? maxConcurrent)
    (List.map (toCandidate ns agent revision) (List.filter (liveWorker now) states))
  = List.map (toCandidate ns agent revision) (List.filter (liveWorker now) states).
Proof.
  intros Hn Ht. apply forallb_filter_id, forallb_forall. intros c.
  rewrite in_map_iff. intros (st & <- & Hin). apply Z.ltb_lt. cbn.
  eapply Z.le_lt_trans; [|exact Ht]. apply sumZ_ge.
  - rewrite Forall_map. rewrite Forall_forall in *. intros st' [Hs _]%list_elem_of_In%filter_In.
    by apply Hn, list_elem_of_In.
  - by apply in_map.
Qed.

Lemma best_of_live ns agent revision tb now states c t :
  SliceStable (pickLess tb)
    (List.map (toCandidate ns agent revision) (List.filter (liveWorker now) states)) = c :: t ->
  exists st, In st states /\ liveWorker now st = true /\ c = toCandidate ns agent revision st
    /\ forall st', In st' states -> liveWorker now st' = true ->
         ~ preferred ns agent revision tb st' st.
Proof.
  intros [Hin Hmin]%SliceStable_head; [|apply _].
  apply live_cands_In in Hin as (st & Hst & Hl & ->). exists st. split_and!; try done.
  intros st' Hst' Hl'. rewrite <- pickLess_preferred by (by eapply live_has_status).
  rewrite Hmin; [done|]. apply live_cands_In. eauto.
Qed.

Lemma clusterTotal_nonneg ns agent now states :
  Forall (fun st => 0 <= inFlightOf ns agent st) states -> 0 <= clusterTotal ns agent now states.
Proof.
  intros Hn. apply sumZ_nonneg. rewrite Forall_map. rewrite Forall_forall in *.
  intros st' [Hst _]%list_elem_of_In%filter_In. by apply Hn, list_elem_of_In.
Qed.

Lemma no_live_iff ns agent revision now states :
  List.map (toCandidate ns agent revision) (List.filter (liveWorker now) states) = []
  <-> existsb (liveWorker now) states = false.
Proof.
  induction states as [|st states IH]; cbn; [done|].
  destruct (liveWorker now st); cbn; [split; discriminate|done].
Qed.

(** [PickFromCandidates] follows its policy exactly, when the reported counts
    add up to less than [2^32]: it refuses with "at cap" iff some worker is live
    and the live workers together run at least [maxConcurrent] executions, refuses
    without it iff no worker is live, and otherwise answers the dispatch address
    of a live worker than which no live worker is better (warm first, then fewer
    in flight, then the lower hash). *)
Theorem PickFromCandidates_spec (states : list CandidateState) (ns agent revision tb : string)
    (maxConcurrent now : Z) :
  Forall (fun st => 0 <= inFlightOf ns agent st) states ->
  clusterTotal ns agent now states < 2 ^ 32 ->
  match PickFromCandidates states ns agent revision maxConcurrent tb now with
  | (mkPickResult addr false, true) =>
      (0 < maxConcurrent -> clusterTotal ns agent now states < maxConcurrent)
      /\ exists st, In st states /\ liveWorker now st = true /\ addr = (PodIP st ++ ":8090")%string
         /\ forall st', In st' states -> liveWorker now st' = true ->
              ~ preferred ns agent revision tb st' st
  | (mkPickResult addr true, false) =>
      addr = "" /\ existsb (liveWorker now) states = true
      /\ 0 < maxConcurrent <= clusterTotal ns agent now states
  | (mkPickResult addr false, false) => addr = "" /\ existsb (liveWorker now) states = false
  | (mkPickResult _ true, true) => False
  end.
Proof.
  intros Hn Ht. unfold PickFromCandidates.
  pose proof (collect_cands ns agent revision now states 0) as Hc.
  pose proof (collect_sum ns agent revision now states 0 eq_refl) as Hs.
  destruct (collect _ _ _ _ _ _) as [cands sum]. cbn in Hc, Hs.
  pose proof (clusterTotal_nonneg ns agent now states Hn) as Ht0.
  unfold uint32 in Hs. rewrite wrap_id in Hs by (unfold in_range; lia). subst sum cands.
  destruct (List.map _ _) as [|c0 cs] eqn:Ecs; [by apply no_live_iff in Ecs|].
  assert (Hex : existsb (liveWorker now) states = true).
  { apply not_false_iff_true. rewrite <- (no_live_iff ns agent revision). congruence. }
  destruct ((0 <? maxConcurrent) && _) eqn:Ecap; [bool_to_prop; auto|]. rewrite <- Ecs.
  assert (Hcap : 0 < maxConcurrent -> clusterTotal ns agent now states < maxConcurrent).
  { intros Hm. apply andb_false_iff in Ecap as [?|?]; bool_to_prop; lia. }
  assert ((if 0 <? maxConcurrent then List.filter (fun c => inFlight c <? maxConcurrent)
     (List.map (toCandidate ns agent revision) (List.filter (liveWorker now) states))
     else List.map (toCandidate ns agent revision) (List.filter (liveWorker now) states))
     = List.map (toCandidate ns agent revision) (List.filter (liveWorker now) states)) as ->.
  { destruct (Z.ltb_spec 0 maxConcurrent); [|done]. apply second_filter_id; auto. }
  destruct (SliceStable _ _) as [|c t] eqn:Eb; [apply SliceStable_nil in Eb; congruence|].
  apply best_of_live in Eb as (st & ? & ? & -> & ?). split; [done|]. eauto 6.
Qed.

Definition st_ex (ip : string) (warm running : Z) (seen : Z) : CandidateState :=
  mkCandidateState ip
    (Some (mkWorkerStatus [mkWarmRevision "ns" "bot" "r1" warm] [mkInFlight "ns" "bot" running] []))
    (Some seen).

Lemma PickFromCandidates_spec_witness :
  exists st, In st [st_ex "10.0.0.1" 0 1 0; st_ex "10.0.0.2" 1 2 0]
    /\ "10.0.0.2:8090" = (PodIP st ++ ":8090")%string.
Proof.
  pose proof (PickFromCandidates_spec [st_ex "10.0.0.1" 0 1 0; st_ex "10.0.0.2" 1 2 0]
    "ns" "bot" "r1" "x" 5 1) as H.
  assert (E : PickFromCandidates [st_ex "10.0.0.1" 0 1 0; st_ex "10.0.0.2" 1 2 0] "ns" "bot" "r1" 5 "x" 1
    = (mkPickResult "10.0.0.2:8090" false, true)) by (vm_compute; reflexivity).
  rewrite E in H. destruct H as [_ (st & Hin & _ & Ha & _)].
  - repeat constructor; cbn; lia.
  - vm_compute; reflexivity.
  - exists st. split; assumption.
Defined.

(** ** The order of the range over the pool does not matter *)

Lemma clusterTotal_perm ns agent now states states' :
  Permutation states states' -> clusterTotal ns agent now states = clusterTotal ns agent now states'.
Proof. intros H. by apply sumZ_perm, Permutation_map, filter_perm. Qed.

(** The part of [PickFromCandidates] after the loop. *)
Definition choose (tb : string) (maxConcurrent total : Z) (cands : list candidate) : PickResult * bool :=
  match cands with
  | [] => (mkPickResult "" false, false)
  | _ =>
      if (0 <? maxConcurrent) && (maxConcurrent <=? total) then (mkPickResult "" true, false)
      else match SliceStable (pickLess tb)
                   (List.filter (fun c => (maxConcurrent <=? 0) || (inFlight c <? maxConcurrent)) cands) with
           | [] => (mkPickResult "" true, false)
           | c :: _ => (mkPickResult (ip c ++ ":8090")%string false, true)
           end
  end.

Lemma PickFromCandidates_choose states ns agent revision maxConcurrent tb now :
  PickFromCandidates states ns agent revision maxConcurrent tb now
  = choose tb maxConcurrent (uint32 (clusterTotal ns agent now states))
      (List.map (toCandidate ns agent revision) (List.filter (liveWorker now) states)).
Proof.
  unfold PickFromCandidates, choose.
  pose proof (collect_cands ns agent revision now states 0) as Hc.
  pose proof (collect_sum ns agent revision now states 0 eq_refl) as Hs.
  destruct (collect _ _ _ _ _ _) as [cands sum]. cbn in Hc, Hs. subst.
  set (l := List.map _ _). rewrite (Z.leb_antisym 0 maxConcurrent).
  assert (Hf : (if 0 <? maxConcurrent then List.filter (fun c => inFlight c <? maxConcurrent) l else l)
    = List.filter (fun c => negb (0 <? maxConcurrent) || (inFlight c <? maxConcurrent)) l).
  { destruct (0 <? maxConcurrent); cbn; [done|]. symmetry. apply forallb_filter_id, forallb_forall. done. }
  destruct l as [|c l'] eqn:El; [done|]. rewrite <- El in *. by rewrite <- Hf, El.
Qed.

(** Two orders of the same candidates put elements of the same rank first. *)
Lemma SliceStable_head_perm tb l l' :
  Permutation l l' ->
  match SliceStable (pickLess tb) l, SliceStable (pickLess tb) l' with
  | [], [] => True
  | c :: _, c' :: _ => In c l /\ In c' l
      /\ pickHash tb (ip c) = pickHash tb (ip c')
  | _, _ => False
  end.
Proof.
  intros Hp. destruct (SliceStable _ l) as [|c t] eqn:E, (SliceStable _ l') as [|c' t'] eqn:E'; [done| | |].
  - apply SliceStable_nil in E as ->. apply Permutation_nil in Hp as ->. done.
  - apply SliceStable_nil in E' as ->. apply Permutation_sym, Permutation_nil in Hp as ->. done.
  - apply SliceStable_head in E as [Hi Hm], E' as [Hi' Hm']; [|apply _..].
    split; [done|]. split; [by apply (Permutation_in _ (Permutation_sym Hp))|].
    specialize (Hm c' (Permutation_in _ (Permutation_sym Hp) Hi')).
    specialize (Hm' c (Permutation_in _ Hp Hi)). revert Hm Hm'. unfold pickLess.
    rewrite (Z.eqb_sym (inFlight c') _). intros. repeat split_if; bool_to_prop; try lia;
      repeat match goal with H : Bool.eqb _ _ = _ |- _ => revert H end;
      repeat match goal with |- context [0 <? ?x] => destruct (Z.ltb_spec 0 x) end; cbn; intros; try lia; congruence.
Qed.

Lemma choose_perm tb maxConcurrent total l l' :
  Permutation l l' ->
  (forall c c', In c l -> In c' l -> pickHash tb (ip c) = pickHash tb (ip c') -> ip c = ip c') ->
  choose tb maxConcurrent total l = choose tb maxConcurrent total l'.
Proof.
  intros Hp Hinj. unfold choose.
  pose proof (SliceStable_head_perm tb _ _ (filter_perm
    (fun c => (maxConcurrent <=? 0) || (inFlight c <? maxConcurrent)) _ _ Hp)) as H.
  destruct l as [|c0 l0] eqn:El; [by apply Permutation_nil in Hp as ->|].
  destruct l' as [|c0' l0'] eqn:El'; [by apply Permutation_sym, Permutation_nil in Hp|].
  rewrite <- El, <- El' in *. destruct (_ && _); [done|].
  destruct (SliceStable _ (List.filter _ l)), (SliceStable _ (List.filter _ l')); try done.
  destruct H as ([Hi _]%filter_In & [Hi' _]%filter_In & Hh). by rewrite (Hinj _ _ Hi Hi' Hh).
Qed.

(** Which worker is picked does not depend on the order in which Go ranges
    over the pool's map: two orders give the same answer, unless two candidate
    addresses collide in the 64-bit hash of the tie-breaker.  So requests with the
    same tie-breaker pin to the same worker. *)
Theorem Pick_order_independent (h : WorkerHealthChecker) (pool : NamespacedName)
    (order order' : list endpoint) (ns agent revision tb : string) (maxConcurrent now : Z) :
  Permutation order order' ->
  (forall e e', In e order -> In e' order ->
     pickHash tb (podIP e) = pickHash tb (podIP e') -> podIP e = podIP e') ->
  Pick h pool order ns agent revision maxConcurrent tb now
  = Pick h pool order' ns agent revision maxConcurrent tb now.
Proof.
  intros Hp Hinj. unfold Pick. rewrite !PickFromCandidates_choose.
  apply (Permutation_map (candidateState h pool)) in Hp as Hp1.
  rewrite (clusterTotal_perm _ _ _ _ _ Hp1).
  apply choose_perm; [by apply Permutation_map, filter_perm|].
  assert (Hl : forall c, In c (List.map (toCandidate ns agent revision)
      (List.filter (liveWorker now) (List.map (candidateState h pool) order))) ->
    exists e, In e order /\ ip c = podIP e).
  { intros c (st & Hst & _ & ->)%live_cands_In. apply in_map_iff in Hst as (e & <- & He).
    exists e. split; [done|]. cbn. unfold candidateState. by case_match. }
  intros c c' (e & He & ->)%Hl (e' & He' & ->)%Hl. by apply Hinj.
Qed.

Lemma Pick_order_independent_witness :
  Pick NewWorkerHealthChecker (mkNN "ns" "pool") [mkEndpoint "a" "10.0.0.1"; mkEndpoint "b" "10.0.0.2"]
    "ns" "bot" "r1" 0 "x" 1
  = Pick NewWorkerHealthChecker (mkNN "ns" "pool") [mkEndpoint "b" "10.0.0.2"; mkEndpoint "a" "10.0.0.1"]
    "ns" "bot" "r1" 0 "x" 1.
Proof.
  apply Pick_order_independent; [constructor|].
  intros e e' [<-|[<-|[]]] [<-|[<-|[]]] H; first [reflexivity | vm_compute in H; discriminate H].
Defined.

(** The image cache a worker reports plays no part, although the comment on
    [Pick] ranks "revision-cached" between warm and cold. *)
Lemma Pick_ignores_cached_images states ns agent revision maxConcurrent tb now images :
  PickFromCandidates
    (List.map (fun st => mkCandidateState (PodIP st)
       (option_map (fun s => mkWorkerStatus (WarmRevisions s) (ws_InFlight s) images) (Snapshot st))
       (LastSeen st)) states) ns agent revision maxConcurrent tb now
  = PickFromCandidates states ns agent revision maxConcurrent tb now.
Proof.
  unfold PickFromCandidates.
  assert (H : forall sum, collect ns agent revision now (List.map (fun st => mkCandidateState (PodIP st)
       (option_map (fun s => mkWorkerStatus (WarmRevisions s) (ws_InFlight s) images) (Snapshot st))
       (LastSeen st)) states) sum = collect ns agent revision now states sum); [|by rewrite H].
  induction states as [|st states IH]; intros sum; cbn; [done|]. unfold stale. cbn.
  destruct (Snapshot st); cbn; [|apply IH]. by rewrite !IH.
Qed.

(** "At cap" does not mean that every worker is at the cap, as the comment on
    [AlreadyAtCap] has it: two workers with one execution each reach a cap of
    two. *)
Lemma at_cap_with_idle_workers :
  let states := [st_ex "10.0.0.1" 0 1 0; st_ex "10.0.0.2" 0 1 0] in
  PickFromCandidates states "ns" "bot" "r1" 2 "x" 1 = (mkPickResult "" true, false)
  /\ Forall (fun st => inFlightOf "ns" "bot" st < 2) states.
Proof. split; [vm_compute; reflexivity|]. repeat constructor. Qed.

(** ** The join as a history

    The operations on the checker with their clock readings, newest first. *)
Inductive event :=
| ESync (now : Z) (wps : option (list NamespacedName))
    (slices : NamespacedName -> option (list EndpointSlice))
| EPut (now : Z) (key : string) (ws : option WorkerStatus)
| EDel (key : string).

Fixpoint after (h : list event) : WorkerHealthChecker :=
  match h with
  | [] => NewWorkerHealthChecker
  | ESync now wps slices :: h => syncOnce now wps slices (after h)
  | EPut now key ws :: h => upsertKV now key ws (after h)
  | EDel key :: h => removeKV key (after h)
  end.

(** The last status published under the key and not deleted since. *)
Fixpoint lastStatus (key : string) (h : list event) : option (Z * WorkerStatus) :=
  match h with
  | [] => None
  | EPut t k (Some ws) :: h => if bool_decide (k = key) then Some (t, ws) else lastStatus key h
  | EDel k :: h => if bool_decide (k = key) then None else lastStatus key h
  | _ :: h => lastStatus key h
  end.

(** The last endpoint list of the pool that could be read, empty once the pool
    itself is gone. *)
Fixpoint listing (pool : NamespacedName) (h : list event) : list EndpointSlice :=
  match h with
  | [] => []
  | ESync _ (Some l) slices :: h =>
      if decide (pool ∈ l) then match slices pool with Some sl => sl | None => listing pool h end else []
  | _ :: h => listing pool h
  end.

(** The slices advertise an address for a pod: it is not unready, and the address
    is the first one that is not empty. *)
Definition advertises (sl : list EndpointSlice) (pod addr : string) : Prop :=
  exists s ep pre post,
    In s sl /\ AddressType s = "IPv4" /\ In ep (Endpoints s) /\ ep_Ready ep <> Some false
    /\ ep_TargetRef ep = Some pod /\ pod <> ""
    /\ ep_Addresses ep = (pre ++ addr :: post)%list /\ Forall (fun a => a = "") pre /\ addr <> "".

Definition event_time (e : event) : option Z :=
  match e with ESync t _ _ | EPut t _ _ => Some t | EDel _ => None end.

Fixpoint clock_ok (now : Z) (h : list event) : Prop :=
  match h with
  | [] => True
  | e :: h => match event_time e with
              | Some t => t <= now /\ clock_ok t h
              | None => clock_ok now h
              end
  end.

Lemma firstAddress_spec l a : a <> "" ->
  firstAddress l = a <-> exists pre post, l = (pre ++ a :: post)%list /\ Forall (fun a => a = "") pre.
Proof.
  intros Ha. induction l as [|x l IH]; cbn.
  - split; [congruence|]. intros (pre & post & E & _). by destruct pre.
  - destruct (String.eqb_spec x "") as [->|Hx].
    + rewrite IH. split.
      * intros (pre & post & -> & Hf). exists ("" :: pre), post. auto.
      * intros (pre & post & E & Hf). destruct pre as [|y pre]; [by injection E as <- _|].
        injection E as _ ->. exists pre, post. split; [done|]. by inversion Hf.
    + split; [intros <-; exists [], l; auto|]. intros (pre & post & E & Hf).
      destruct pre as [|y pre]; [by injection E as <- _|]. injection E as <- _. by inversion Hf.
Qed.

(** The endpoints the loops over the slices visit, in order. *)
Definition visited (sl : list EndpointSlice) : list SliceEndpoint :=
  concat (List.map Endpoints (List.filter (fun s => String.eqb (AddressType s) "IPv4") sl)).

Lemma poolEndpoints_visited sl w : fold_left addSlice sl w = fold_left addEndpoint (visited sl) w.
Proof.
  revert w. induction sl as [|s sl IH]; intros w; cbn; [done|]. rewrite IH. unfold addSlice, visited.
  cbn. destruct (String.eqb (AddressType s) "IPv4"); cbn; [|done]. by rewrite fold_left_app.
Qed.

Definition usable (ep : SliceEndpoint) (pod addr : string) : Prop :=
  ep_Ready ep <> Some false /\ ep_TargetRef ep = Some pod /\ pod <> ""
  /\ firstAddress (ep_Addresses ep) = addr /\ addr <> "".

Lemma addEndpoint_spec w ep :
  (exists pod addr, usable ep pod addr /\ addEndpoint w ep = <[pod := mkEndpoint pod addr]> w)
  \/ (forall pod addr, ~ usable ep pod addr) /\ addEndpoint w ep = w.
Proof.
  unfold addEndpoint, usable. case_bool_decide; [right; naive_solver|].
  destruct (ep_TargetRef ep) as [name|]; [|right; naive_solver].
  destruct (String.eqb_spec name ""); [right; naive_solver|].
  destruct (String.eqb_spec (firstAddress (ep_Addresses ep)) ""); [right; naive_solver|].
  left. naive_solver.
Qed.

Lemma fold_addEndpoint_lookup l w pod :
  match fold_left addEndpoint l w !! pod with
  | Some e => w !! pod = Some e \/ podName e = pod /\ exists ep, In ep l /\ usable ep pod (podIP e)
  | None => w !! pod = None /\ forall ep addr, In ep l -> ~ usable ep pod addr
  end.
Proof.
  revert w. induction l as [|ep l IH]; intros w; cbn.
  { destruct (w !! pod); auto. }
  specialize (IH (addEndpoint w ep)).
  destruct (addEndpoint_spec w ep) as [(p & a & Hu & E)|[Hn E]]; rewrite E in *;
    destruct (fold_left _ _ _ !! pod) as [e|].
  - destruct IH as [H|(? & ep' & ? & ?)]; [|naive_solver].
    apply lookup_insert_Some in H as [[-> <-]|[? ?]]; [|auto]. right. cbn. eauto.
  - destruct IH as [H IH]. apply lookup_insert_None in H as [H Hne]. split; [done|].
    intros ep' a' [<-|Hin]; [|by apply IH]. intros Hu'. apply Hne. unfold usable in *. naive_solver.
  - naive_solver.
  - naive_solver.
Qed.

Lemma advertises_visited sl pod addr :
  advertises sl pod addr <-> exists ep, In ep (visited sl) /\ usable ep pod addr.
Proof.
  unfold advertises, usable, visited. setoid_rewrite in_concat. setoid_rewrite in_map_iff.
  setoid_rewrite filter_In. split.
  - intros (s & ep & pre & post & Hs & Ht & Hin & ? & ? & ? & Ha & Hf & Hne).
    exists ep. split; [|split_and!; try done; apply firstAddress_spec; eauto].
    exists (Endpoints s). split; [|done]. exists s. split; [done|]. split; [done|]. by apply String.eqb_eq.
  - intros (ep & (eps & (s & <- & Hs & Ht) & Hin) & ? & ? & ? & Ha & Hne).
    apply firstAddress_spec in Ha as (pre & post & ? & ?); [|done].
    apply String.eqb_eq in Ht. exists s, ep, pre, post. split_and!; done.
Qed.

Lemma syncPools_lookup h slices l pool :
  default ∅ (syncPools h slices l !! pool)
  = if decide (pool ∈ l)
    then match poolEndpoints (slices pool) with Some w => w | None => default ∅ (pools h !! pool) end
    else ∅.
Proof.
  unfold syncPools.
  assert (H : forall acc : gmap NamespacedName (gmap string endpoint), default ∅ (fold_left (fun acc key =>
      <[key := match poolEndpoints (slices key) with
               | Some w => w | None => default ∅ (pools h !! key) end]> acc) l acc !! pool)
    = if decide (pool ∈ l)
      then match poolEndpoints (slices pool) with Some w => w | None => default ∅ (pools h !! pool) end
      else default ∅ (acc !! pool)); [|rewrite H; by rewrite lookup_empty].
  induction l as [|k l IH]; intros acc; cbn [fold_left].
  { by rewrite decide_False by apply not_elem_of_nil. }
  rewrite IH. destruct (decide (pool ∈ l)) as [Hl|Hl].
  { by rewrite decide_True by (right; done). }
  destruct (decide (k = pool)) as [->|Hne].
  - rewrite lookup_insert_eq, decide_True by left. done.
  - rewrite lookup_insert_ne by done. rewrite decide_False; [done|]. intros [?|?]%elem_of_cons; congruence.
Qed.

Lemma after_pools h pool :
  default ∅ (pools (after h) !! pool) = fold_left addSlice (listing pool h) ∅.
Proof.
  induction h as [|[now [l|] slices|now key [ws|]|key] h IH]; cbn; try done.
  rewrite syncPools_lookup. destruct (decide (pool ∈ l)); [|done].
  destruct (slices pool); cbn; done.
Qed.

(** The entries of [kv] are the last statuses, but for those the sweep dropped,
    which are older than [kvEvictAfter]. *)
Lemma after_kv h now key :
  clock_ok now h ->
  match kv (after h) !! key with
  | Some e => lastStatus key h = Some (lastSeen e, snapshot e)
  | None => forall t ws, lastStatus key h = Some (t, ws) -> kvEvictAfter < now - t
  end.
Proof.
  revert now. induction h as [|e h IH]; intros now; cbn; [by rewrite lookup_empty|].
  destruct e as [t [l|] slices|t k [ws|]|k]; cbn.
  - intros [Ht Hc]. specialize (IH t Hc). destruct (kv (after h) !! key) as [e|] eqn:E.
    + destruct (decide (fresh t e)) as [Hf|Hf].
      * erewrite (proj2 (map_lookup_filter_Some _ _ _ _)); [done|]. by split.
      * rewrite (proj2 (map_lookup_filter_None _ _ _)); [|naive_solver].
        rewrite IH. intros t0 ws [= <- <-]. unfold fresh in Hf. lia.
    + rewrite (proj2 (map_lookup_filter_None _ _ _)) by auto. intros t0 ws H. specialize (IH _ _ H). lia.
  - intros [Ht Hc]. specialize (IH t Hc). case_match; [done|]. intros t0 ws H'. specialize (IH _ _ H'). lia.
  - intros [Ht Hc]. specialize (IH t Hc). case_bool_decide as Hk; [subst; by rewrite lookup_insert_eq|].
    rewrite lookup_insert_ne by done. case_match; [done|]. intros t0 ws' H'. specialize (IH _ _ H'). lia.
  - intros [Ht Hc]. specialize (IH t Hc). case_match; [done|]. intros t0 ws H'. specialize (IH _ _ H'). lia.
  - intros Hc. specialize (IH now Hc). case_bool_decide as Hk; [subst; by rewrite lookup_delete_eq|].
    by rewrite lookup_delete_ne.
Qed.

(** The order in which the range visits the endpoints of the pool. *)
Lemma endpoints_of_In h pool e :
  In e (endpoints_of (after h) pool)
  <-> exists pod, fold_left addSlice (listing pool h) ∅ !! pod = Some e.
Proof.
  unfold endpoints_of. rewrite after_pools, in_map_iff. split.
  - intros ([pod e'] & <- & Hin). exists pod. by apply elem_of_map_to_list, list_elem_of_In.
  - intros [pod H]. exists (pod, e). split; [done|]. by apply list_elem_of_In, elem_of_map_to_list.
Qed.

(** A candidate state is live when the worker's last status is recent. *)
Lemma live_candidateState h pool now e :
  clock_ok now h ->
  liveWorker now (candidateState (after h) pool e) = true
  <-> exists t ws, lastStatus (WorkerStatusKey (nn_namespace pool) (nn_name pool) (podName e)) h = Some (t, ws)
        /\ now - t <= healthcheckerDeadAfter.
Proof.
  intros Hc. unfold candidateState.
  pose proof (after_kv h now (WorkerStatusKey (nn_namespace pool) (nn_name pool) (podName e)) Hc) as H.
  destruct (kv (after h) !! _) as [x|]; cbn; [rewrite Z.leb_le|].
  - split; [eauto|]. intros (t & ws & Hl & Ht). rewrite H in Hl. by injection Hl as -> _.
  - split; [discriminate|]. intros (t & ws & Hl & Ht). specialize (H _ _ Hl).
    unfold kvEvictAfter, healthcheckerDeadAfter in *. lia.
Qed.

Lemma pick_uncapped h pool order ns agent revision tb now :
  snd (Pick h pool order ns agent revision 0 tb now)
  = existsb (liveWorker now) (List.map (candidateState h pool) order).
Proof.
  unfold Pick. rewrite PickFromCandidates_choose. set (states := List.map (candidateState h pool) order).
  unfold choose. destruct (List.map (toCandidate _ _ _) _) as [|c cs] eqn:E.
  - by rewrite (proj1 (no_live_iff _ _ _ _ _) E).
  - cbn [Z.ltb Z.compare andb]. rewrite forallb_filter_id by (by apply forallb_forall).
    destruct (SliceStable _ (c :: cs)) eqn:Es; [by apply SliceStable_nil in Es|]. symmetry.
    apply not_false_iff_true. rewrite <- (no_live_iff ns agent revision). congruence.
Qed.

(** For an agent without a cap, [Pick] finds a worker exactly when there is
    one to find: after any sequence of reconciles and status updates it succeeds
    iff the pool's last readable endpoint list advertises an address of a pod
    whose last status, not deleted since, is at most fifteen seconds old.  The
    eviction sweep and undecodable values never change the answer. *)
Theorem Pick_available_iff (h : list event) (pool : NamespacedName) (order : list endpoint)
    (ns agent revision tb : string) (now : Z) :
  clock_ok now h ->
  Permutation order (endpoints_of (after h) pool) ->
  snd (Pick (after h) pool order ns agent revision 0 tb now) = true
  <-> exists pod addr t ws,
        advertises (listing pool h) pod addr
        /\ lastStatus (WorkerStatusKey (nn_namespace pool) (nn_name pool) pod) h = Some (t, ws)
        /\ now - t <= healthcheckerDeadAfter.
Proof.
  intros Hc Hp. rewrite pick_uncapped, existsb_exists. split.
  - intros (st & (e & <- & He)%in_map_iff & (t & ws & Hl & Ht)%live_candidateState); [|done].
    apply (Permutation_in _ Hp), endpoints_of_In in He as [pod He].
    pose proof (fold_addEndpoint_lookup (visited (listing pool h)) ∅ pod) as H.
    rewrite <- poolEndpoints_visited, He in H. destruct H as [H|[Hn H]]; [by rewrite lookup_empty in H|].
    exists pod, (podIP e), t, ws. rewrite <- Hn at 2. split_and!; try done. by apply advertises_visited.
  - intros (pod & addr & t & ws & Ha & Hl & Ht). apply advertises_visited in Ha as (ep & Hin & Hu).
    pose proof (fold_addEndpoint_lookup (visited (listing pool h)) ∅ pod) as H.
    rewrite <- poolEndpoints_visited in H.
    destruct (fold_left addSlice _ ∅ !! pod) as [e|] eqn:E; [|by destruct H as [_ H]; edestruct H].
    destruct H as [H|[Hn _]]; [by rewrite lookup_empty in H|].
    exists (candidateState (after h) pool e). split.
    + apply in_map, (Permutation_in _ (Permutation_sym Hp)), endpoints_of_In. eauto.
    + apply live_candidateState; [done|]. rewrite Hn. eauto.
Qed.

Definition history_ex : list event :=
  [ EPut 7 "ns.pool.w-0" (Some (mkWorkerStatus [] [] []));
    ESync 5 (Some [mkNN "ns" "pool"])
      (fun _ => Some [mkEndpointSlice "IPv4" [mkSliceEndpoint (Some true) (Some "w-0") ["10.0.0.7"]]]) ].

Lemma Pick_available_iff_witness :
  snd (Pick (after history_ex) (mkNN "ns" "pool") [mkEndpoint "w-0" "10.0.0.7"]
         "ns" "bot" "r1" 0 "x" 9) = true.
Proof.
  apply Pick_available_iff; [cbn; lia | vm_compute; reflexivity |].
  exists "w-0", "10.0.0.7", 7, (mkWorkerStatus [] [] []). split; [|split].
  - eexists _, _, [], []. split_and!; first [by left | reflexivity | discriminate | constructor].
  - reflexivity.
  - vm_compute. discriminate.
Defined.

End HealthCheck.
