(* ===== verification/CloudEvents.v ===== *)
(** * CloudEvents attributes

    [internal/cloudevents/cloudevents.go]: the attribute set of one TaskAgent
    execution.  The ingress processor builds it from the request headers and
    stamps [ce-*] headers; the worker's dispatcher reads those back and fills
    what is missing.  An [http.Header] is modelled with lower-case names, which
    canonicalization identifies with the names Go stores.  The fresh UUID and the
    formatted clock are arguments. *)

From Stdlib Require Import ZArith Lia Ascii String List.
From stdpp Require Import base strings list gmap fin_maps.
From S2P Require Import Prelude GoStrings GoStd ApiTypes.
Import GoStrings GoStd ApiTypes.ApiTypes.

Module CloudEvents.
#[local] Open Scope string_scope.
#[local] Arguments String.append : simpl nomatch.

(** ** Constants *)

Definition AttrID : string := "id".
Definition AttrSource : string := "source".
Definition AttrType : string := "type".
Definition AttrSpecVersion : string := "specversion".
Definition AttrTime : string := "time".
Definition AttrDataContentType : string := "datacontenttype".
Definition AttrSubject : string := "subject".
Definition AttrClrkRevision : string := "clrkrevision".
Definition AttrClrkIdentity : string := "clrkidentity".
Definition AttrHTTPMethod : string := "httpmethod".
Definition AttrHTTPURL : string := "httpurl".
Definition AttrHTTPQuery : string := "httpquery".
Definition AttrTraceparent : string := "traceparent".
Definition AttrTracestate : string := "tracestate".
Definition AttrRelationID : string := "relationid".
Definition SpecVersion : string := "1.0".
Definition TypeInvoke : string := "dev.apoxy.clrk.taskagent.invoke".
Definition TypeResponse : string := "dev.apoxy.clrk.taskagent.response".
Definition MediaType : string := "application/cloudevents+json".

(** [internal/ports], lower-cased. *)
Definition HeaderTaskAgent : string := "x-clrk-taskagent".
Definition HeaderTrigger : string := "x-clrk-trigger".
Definition HeaderExitCode : string := "x-clrk-exit-code".
Definition HeaderExecutionID : string := "x-clrk-execution-id".
Definition HeaderInvocationID : string := "x-clrk-invocation-id".
Definition HeaderWorkerEndpoint : string := "x-clrk-worker-endpoint".

(** ** Headers *)

(** [HeaderLookup]: the first value under a name, [""] if there is none. *)
Definition HeaderLookup : Type := string -> string.

Abbreviation HeaderMap := (gmap string string).
Definition HeaderMap_Get (h : HeaderMap) : HeaderLookup := fun k => default "" (h !! ToLower k).

(** [http.Header], under lower-case names. *)
Abbreviation Header := (gmap string (list string)).
Definition HTTPHeader_Get (h : Header) : HeaderLookup :=
  fun k => match h !! ToLower k with Some (v :: _) => v | _ => "" end.

(** The TaskAgent as the ingress processor and the dispatcher read it: the
    object of [ApiTypes] with the fields of its metadata and status that
    only they use. *)
Record ServedTaskAgent := mkServed {
  st_Agent : TaskAgent;
  st_UID : string;
  LatestReadyRevisionName : string;         (* Status *)
}.

Definition ResolveID (uuid : string) (h : HeaderLookup) : string :=
  let v := h HeaderExecutionID in
  if negb (String.eqb v "") then v
  else let v := h "x-request-id" in
       if negb (String.eqb v "") then v else uuid.

(** One iteration of [ceHeaderIter]. *)
Definition ceHeader (out : gmap string string) (kv : string * list string) : gmap string string :=
  let lower := ToLower (fst kv) in
  match snd kv with
  | v :: _ =>
      if negb (HasPrefix lower "ce-") then out
      else let attr := drop_str 3 lower in
           if String.eqb attr "" then out else <[attr := v]> out
  | [] => out
  end.

Definition ceHeaderIter (h : Header) : gmap string string := fold_left ceHeader (map_to_list h) ∅.

Definition ceHeaderMap (out : gmap string string) (kv : string * string) : gmap string string :=
  let '(k, v) := kv in
  if negb (HasPrefix k "ce-") || String.eqb v "" then out
  else let attr := drop_str 3 k in
       if String.eqb attr "" then out else <[attr := v]> out.

Definition CEHeaderIterMap (m : HeaderMap) : gmap string string :=
  fold_left ceHeaderMap (map_to_list m) ∅.

Definition identityAudiences (id : option Identity) : string := "".

(** [if _, ok := out[k]; !ok { out[k] = v }] *)
Definition fill (k v : string) (out : gmap string string) : gmap string string :=
  match out !! k with Some _ => out | None => <[k := v]> out end.

(** The same, unless the value is empty. *)
Definition fillNonempty (k v : string) (out : gmap string string) : gmap string string :=
  if String.eqb v "" then out else fill k v out.

(** The block that splits [:path] into [httpurl] and [httpquery]. *)
Definition fillPath (p : string) (out : gmap string string) : gmap string string :=
  match out !! AttrHTTPURL with
  | Some _ => out
  | None =>
      if String.eqb p "" then out
      else let '(path, query, _) := Cut p "?"%char in
           fillNonempty AttrHTTPQuery query (<[AttrHTTPURL := path]> out)
  end.

Definition AttrsFromHeaders (uuid now : string) (h : HeaderLookup) (ta : option ServedTaskAgent)
    (passThrough : gmap string string) : gmap string string :=
  let out := fill AttrID (ResolveID uuid h) passThrough in
  let out := match ta with
             | Some a => fill AttrSource ("clrk://" ++ Namespace (ta_Meta (st_Agent a)) ++ "/"
                                          ++ Name (ta_Meta (st_Agent a))) out
             | None => out end in
  let out := fill AttrType TypeInvoke out in
  let out := fill AttrSpecVersion SpecVersion out in
  let out := fill AttrTime now out in
  let out := fillNonempty AttrDataContentType (h "content-type") out in
  let out := fillNonempty AttrSubject (h HeaderTrigger) out in
  let out := match ta with
             | Some a => fillNonempty AttrClrkRevision (LatestReadyRevisionName a) out
             | None => out end in
  let out := match ta with
             | Some a => match ta_Identity (ta_Spec (st_Agent a)) with
                         | Some id => fillNonempty AttrClrkIdentity (identityAudiences (Some id)) out
                         | None => out end
             | None => out end in
  let out := fillNonempty AttrHTTPMethod (h ":method") out in
  let out := fillPath (h ":path") out in
  let out := fillNonempty AttrTraceparent (h "traceparent") out in
  fillNonempty AttrTracestate (h "tracestate") out.

(** The request line as [net/http] parses it; [URL] is never nil on a server. *)
Record RequestLine := mkLine { Method : string; URLPath : string; RawQuery : string }.

Definition AttrsFromRequest (uuid now : string) (l : RequestLine) (hdr : Header)
    (ta : option ServedTaskAgent) : gmap string string :=
  let p := ceHeaderIter hdr in
  let p := fillNonempty AttrHTTPMethod (Method l) p in
  let p := fillNonempty AttrHTTPURL (URLPath l) p in
  let p := fillNonempty AttrHTTPQuery (RawQuery l) p in
  AttrsFromHeaders uuid now (HTTPHeader_Get hdr) ta p.

(** ** Filling keeps what is there *)

Lemma fill_keeps k j v w out : out !! k = Some w -> fill j v out !! k = Some w.
Proof.
  unfold fill. destruct (out !! j) eqn:E; [done|]. intros H.
  rewrite lookup_insert_ne; [done|]. congruence.
Qed.

Lemma fillNonempty_keeps k j v w out : out !! k = Some w -> fillNonempty j v out !! k = Some w.
Proof. unfold fillNonempty. destruct (String.eqb v ""); [done|]. apply fill_keeps. Qed.

Lemma fillPath_keeps k p w out : out !! k = Some w -> fillPath p out !! k = Some w.
Proof.
  unfold fillPath. destruct (out !! AttrHTTPURL) eqn:E; [done|]. intros H.
  destruct (String.eqb p ""); [done|]. destruct (Cut p "?"%char) as [[path query] ok].
  apply fillNonempty_keeps. rewrite lookup_insert_ne; [done|]. congruence.
Qed.

Create HintDb fills.
#[local] Hint Resolve fill_keeps fillNonempty_keeps fillPath_keeps : fills.

(** Existing [ce-*] headers win. *)
Lemma AttrsFromHeaders_keeps uuid now h ta p k w :
  p !! k = Some w -> AttrsFromHeaders uuid now h ta p !! k = Some w.
Proof.
  intros H. unfold AttrsFromHeaders.
  destruct ta as [a|]; [destruct (ta_Identity _)|]; auto 20 with fills.
Qed.

Lemma fill_None k j v out : fill j v out !! k = None <-> out !! k = None /\ k <> j.
Proof.
  unfold fill. destruct (out !! j) eqn:E.
  - split; [|tauto]. intros H. split; [done|]. congruence.
  - rewrite lookup_insert_None. naive_solver.
Qed.

Lemma fillNonempty_None k j v out :
  fillNonempty j v out !! k = None <-> out !! k = None /\ (k = j -> v = "").
Proof.
  unfold fillNonempty. destruct (String.eqb_spec v ""); [naive_solver|]. rewrite fill_None. naive_solver.
Qed.

Lemma fillPath_None k p out :
  k <> AttrHTTPQuery -> fillPath p out !! k = None <-> out !! k = None /\ (k = AttrHTTPURL -> p = "").
Proof.
  intros Hq. unfold fillPath. destruct (out !! AttrHTTPURL) eqn:E.
  - split; [|tauto]. intros H. split; [done|]. congruence.
  - destruct (String.eqb_spec p ""); [naive_solver|]. destruct (Cut p "?"%char) as [[path query] ok].
    rewrite fillNonempty_None, lookup_insert_None. naive_solver.
Qed.

(** Which attributes the construction leaves out. *)
Lemma AttrsFromHeaders_None uuid now h a p k :
  k <> AttrHTTPQuery ->
  AttrsFromHeaders uuid now h (Some a) p !! k = None
  <-> p !! k = None /\ (k ∉ [AttrID; AttrSource; AttrType; AttrSpecVersion; AttrTime])
      /\ (k = AttrDataContentType -> h "content-type" = "")
      /\ (k = AttrSubject -> h HeaderTrigger = "")
      /\ (k = AttrClrkRevision -> LatestReadyRevisionName a = "")
      /\ (k = AttrHTTPMethod -> h ":method" = "") /\ (k = AttrHTTPURL -> h ":path" = "")
      /\ (k = AttrTraceparent -> h "traceparent" = "")
      /\ (k = AttrTracestate -> h "tracestate" = "").
Proof.
  intros Hq. unfold AttrsFromHeaders.
  assert (E : forall out, match ta_Identity (ta_Spec (st_Agent a)) with
    | Some id => fillNonempty AttrClrkIdentity (identityAudiences (Some id)) out
    | None => out end = out) by (intros; by case_match). rewrite E.
  rewrite !fillNonempty_None, fillPath_None, !fillNonempty_None, !fill_None by done.
  rewrite !not_elem_of_cons. split; [|naive_solver].
  intros ?; destruct_and!. split_and!; try done. apply not_elem_of_nil.
Qed.

(** ** Reading [ce-*] headers back *)

Lemma ceHeader_attr k attr :
  HasPrefix k "ce-" = true -> drop_str 3 k = attr -> k = "ce-" ++ attr.
Proof. intros [t ->]%HasPrefix_spec <-. done. Qed.

Definition lower_keys {V} (h : gmap string V) : Prop := forall k v, h !! k = Some v -> ToLower k = k.

Lemma fold_ceHeader l out attr :
  NoDup l.*1 -> Forall (fun kv => ToLower kv.1 = kv.1) l -> attr <> "" ->
  fold_left ceHeader l out !! attr
  = match (list_to_map l : gmap string (list string)) !! ("ce-" ++ attr) with
    | Some (v :: _) => Some v
    | _ => out !! attr
    end.
Proof.
  intros Hnd Hlow Hne. revert out Hnd. induction Hlow as [|[k vs] l Hk Hl IH]; intros out Hnd.
  { done. }
  apply NoDup_cons in Hnd as [Hnk Hnd]. cbn [fold_left]. cbn in Hk.
  rewrite (IH (ceHeader out (k, vs))) by done. rewrite list_to_map_cons.
  destruct (decide (k = "ce-" ++ attr)) as [->|Hd].
  - rewrite lookup_insert_eq, (not_elem_of_list_to_map_1 l) by done.
    unfold ceHeader. cbn [fst snd]. rewrite Hk. destruct vs as [|v vs]; [done|].
    change (drop_str 3 ("ce-" ++ attr)) with attr. rewrite (proj2 (HasPrefix_spec _ _)) by eauto. cbn [negb].
    destruct (String.eqb_spec attr ""); [done|]. by rewrite lookup_insert_eq.
  - rewrite lookup_insert_ne by done. assert (ceHeader out (k, vs) !! attr = out !! attr) as ->; [|done].
    unfold ceHeader. cbn [fst snd]. rewrite Hk. destruct vs as [|v vs]; [done|].
    destruct (HasPrefix k "ce-") eqn:Ep; cbn [negb]; [|done].
    destruct (String.eqb (drop_str 3 k) ""); [done|]. rewrite lookup_insert_ne; [done|].
    intros E. by apply Hd, ceHeader_attr.
Qed.

Lemma ceHeaderIter_lookup h attr :
  lower_keys h -> attr <> "" ->
  ceHeaderIter h !! attr = match h !! ("ce-" ++ attr) with Some (v :: _) => Some v | _ => None end.
Proof.
  intros Hlow Hne. unfold ceHeaderIter. rewrite fold_ceHeader; [|apply NoDup_fst_map_to_list| |done].
  - by rewrite list_to_map_to_list, lookup_empty.
  - apply Forall_forall. intros [k vs] Hin. by eapply Hlow, elem_of_map_to_list.
Qed.

(** ** The worker reads what the ingress wrote *)

(** What the ingress processor computes from the request it sees. *)
Definition ingressAttrs (uuid now : string) (m : HeaderMap) (ta : ServedTaskAgent) : gmap string string :=
  AttrsFromHeaders uuid now (HeaderMap_Get m) (Some ta) (CEHeaderIterMap m).

(** The request the worker receives after Envoy applied the mutation: a [ce-*]
    header for each attribute and no other, the same content type and trigger. *)
Record stamped (attrs : gmap string string) (m : HeaderMap) (h : Header) : Prop := {
  stamped_lower : lower_keys h;
  stamped_ce : forall k, k <> "" -> h !! ("ce-" ++ k) = option_map (fun v => [v]) (attrs !! k);
  stamped_bare : h !! "ce-" = None;
  stamped_same : forall n, n ∈ ["content-type"; HeaderTrigger] ->
    HTTPHeader_Get h n = HeaderMap_Get m n;
}.

Lemma ceHeaderIter_stamped attrs m h k :
  stamped attrs m h -> k <> "" -> ceHeaderIter h !! k = attrs !! k.
Proof.
  intros Hs Hk. rewrite ceHeaderIter_lookup by (done || apply Hs).
  rewrite (stamped_ce _ _ _ Hs) by done. by destruct (attrs !! k).
Qed.

Lemma ceHeaderIter_noempty h : ceHeaderIter h !! "" = None.
Proof.
  unfold ceHeaderIter.
  assert (H : forall l out, out !! "" = None -> fold_left ceHeader l out !! "" = None); [|by apply H].
  induction l as [|[k vs] l IH]; intros out Ho; cbn [fold_left]; [done|]. apply IH.
  unfold ceHeader. cbn [fst snd]. destruct vs; [done|]. destruct (negb _); [done|].
  destruct (String.eqb_spec (drop_str 3 (ToLower k)) ""); [done|]. by rewrite lookup_insert_ne.
Qed.

Lemma AttrsFromRequest_keeps uuid now l h ta k w :
  ceHeaderIter h !! k = Some w -> AttrsFromRequest uuid now l h ta !! k = Some w.
Proof. intros H. unfold AttrsFromRequest. apply AttrsFromHeaders_keeps. auto 10 with fills. Qed.

(** The worker and the ingress processor agree on an execution's attributes:
    from a request stamped by the ingress, the dispatcher rebuilds the same value
    for every attribute except [httpquery] and the two trace attributes, whatever
    its own clock, UUID, copy of the TaskAgent and request line say. *)
Theorem worker_attrs_agree (uuid now uuid' now' : string) (m : HeaderMap) (h : Header)
    (ta ta' : ServedTaskAgent) (l : RequestLine) (k : string) :
  stamped (ingressAttrs uuid now m ta) m h ->
  LatestReadyRevisionName ta <> "" ->
  HeaderMap_Get m ":method" <> "" -> HeaderMap_Get m ":path" <> "" ->
  k ∉ [""; AttrHTTPQuery; AttrTraceparent; AttrTracestate] ->
  AttrsFromRequest uuid' now' l h (Some ta') !! k = ingressAttrs uuid now m ta !! k.
Proof.
  intros Hs Hrev Hm Hp Hk. rewrite !not_elem_of_cons in Hk. destruct Hk as (Hk0 & Hkq & Hkt & Hks & _).
  pose proof (ceHeaderIter_stamped _ _ _ k Hs Hk0) as Hce.
  destruct (ingressAttrs uuid now m ta !! k) as [v|] eqn:E.
  { apply AttrsFromRequest_keeps. by rewrite Hce. }
  apply AttrsFromHeaders_None in E as (_ & Hfix & Hct & Hsub & Hr & Hme & Hpa & _); [|done].
  apply AttrsFromHeaders_None; [done|].
  rewrite !fillNonempty_None, Hce.
  rewrite (stamped_same _ _ _ Hs "content-type"), (stamped_same _ _ _ Hs HeaderTrigger) by (repeat constructor).
  split_and!; try done; intros ->; exfalso; tauto.
Qed.

(** The comment on [AttrTraceparent] says the egress side injects the same value
    the envelope carries, and the ingress stores its own span as the parent: when
    the caller sent a [traceparent], the envelope carries the caller's instead. *)
Lemma envelope_keeps_callers_parent uuid now uuid' now' m h ta ta' l parent :
  stamped (ingressAttrs uuid now m ta) m h ->
  CEHeaderIterMap m !! AttrTraceparent = None ->
  HeaderMap_Get m "traceparent" = parent -> parent <> "" ->
  AttrsFromRequest uuid' now' l h (Some ta') !! AttrTraceparent = Some parent.
Proof.
  intros Hs Hc Hp Hne. apply AttrsFromRequest_keeps. rewrite (ceHeaderIter_stamped _ _ _ _ Hs) by done.
  unfold ingressAttrs, AttrsFromHeaders. apply fillNonempty_keeps. rewrite Hp.
  unfold fillNonempty at 1. destruct (String.eqb_spec parent ""); [done|].
  set (out := fillPath _ _).
  assert (out !! AttrTraceparent = None) as Ho; [|unfold fill; by rewrite Ho, lookup_insert_eq].
  subst out. apply fillPath_None; [done|].
  split; [|discriminate].
  destruct (ta_Identity _); rewrite !fillNonempty_None, !fill_None; split_and!; done.
Qed.

(** A request as stamped: the attributes under [ce-], and the two headers kept. *)
Definition stampOf (attrs : gmap string string) (m : HeaderMap) : Header :=
  kmap (String.append "ce-") ((fun v => [v]) <$> attrs)
  ∪ {[ "content-type" := [HeaderMap_Get m "content-type"]; HeaderTrigger := [HeaderMap_Get m HeaderTrigger] ]}.

#[export] Instance ce_append_inj : Inj (=) (=) (String.append "ce-").
Proof. intros a b [= H]. done. Qed.

Lemma stampOf_stamped attrs m :
  map_Forall (fun k _ => ToLower k = k) attrs -> attrs !! "" = None ->
  stamped attrs m (stampOf attrs m).
Proof.
  intros Hl He. unfold stampOf. split.
  - intros k v [H|[_ H]]%lookup_union_Some_raw.
    + apply lookup_kmap_Some in H as (a & -> & H); [|apply _].
      rewrite lookup_fmap in H. destruct (attrs !! a) eqn:E; [|done].
      change (ToLower ("ce-" ++ a)) with ("ce-" ++ ToLower a). by rewrite (Hl _ _ E).
    + apply lookup_insert_Some in H as [[<- _]|[_ H]]; [done|].
      by apply lookup_singleton_Some in H as [<- _].
  - intros k Hk. rewrite lookup_union, lookup_kmap, lookup_fmap by apply _.
    rewrite lookup_insert_ne, lookup_singleton_ne by done. by destruct (attrs !! k).
  - rewrite lookup_union_r; [done|]. apply lookup_kmap_None; [apply _|]. intros a E.
    assert (a = "") as -> by (by destruct a). by rewrite lookup_fmap, He.
  - intros n Hn. unfold HTTPHeader_Get. apply elem_of_cons in Hn as [->|Hn%list_elem_of_singleton]; [|subst n];
      rewrite lookup_union_r; try done; apply lookup_kmap_None; try apply _; intros a E; discriminate.
Qed.

Definition ta_ex : ServedTaskAgent :=
  mkServed (mkTaskAgent (mkMeta "prod" "bot" "")
    (mkTaskAgentSpec (mkAgentSandbox "" [] []) "pool" None None None None None [] None None None ""))
    "uid" "bot-00001".

Definition m_ex : HeaderMap :=
  {[ ":method" := "POST"; ":path" := "/run?x=1"; "content-type" := "text/plain"; "ce-id" := "42" ]}.

Lemma worker_attrs_agree_witness :
  let attrs := ingressAttrs "u" "t" m_ex ta_ex in
  AttrsFromRequest "u2" "t2" (mkLine "POST" "/run" "x=1") (stampOf attrs m_ex) (Some ta_ex) !! AttrID = Some "42".
Proof.
  cbv zeta. rewrite (worker_attrs_agree "u" "t" "u2" "t2" m_ex _ ta_ex ta_ex (mkLine "POST" "/run" "x=1") AttrID).
  - vm_compute. reflexivity.
  - apply stampOf_stamped; [|vm_compute; reflexivity].
    apply (bool_decide_unpack _). vm_compute. exact I.
  - discriminate.
  - vm_compute. discriminate.
  - vm_compute. discriminate.
  - apply (bool_decide_unpack _). vm_compute. exact I.
Defined.

End CloudEvents.
