(* ===== verification/Delivery.v ===== *)
(** * Delivering a request to an agent

    The envelopes of [internal/worker/agents/dispatcher.go] and
    [internal/sandbox/metadata/handler.go], and the per-execution entry and
    registry of [internal/sandbox/metadata/registry.go].  A JSON object is modelled
    by its members; [json.Marshal] fails exactly when a raw message in it is not
    valid JSON, and the validity test is a parameter. *)

From Stdlib Require Import ZArith Lia Ascii String List.
From stdpp Require Import base strings list gmap fin_maps.
From S2P Require Import Prelude GoStrings GoStd ApiTypes CloudEvents.
Import GoStrings GoStd CloudEvents.

Module Delivery.
#[local] Open Scope string_scope.
#[local] Open Scope Z_scope.

(** ** Content types *)

(** [strings.ToLower(strings.TrimSpace(strings.SplitN(ct, ";", 2)[0]))] *)
Definition mediaType (ct : string) : string := ToLower (TrimSpace (SplitN2_head ct ";"%char)).

Definition isCEJSONInlineable (ct : string) : bool :=
  String.eqb (mediaType ct) "application/json" || HasSuffix (mediaType ct) "+json".

Definition isCETextInlineable (ct : string) : bool := HasPrefix (mediaType ct) "text/".

(** The copies of [handler.go]. *)
Definition isJSONContentType (ct : string) : bool :=
  let mt := ToLower (TrimSpace (SplitN2_head ct ";"%char)) in
  String.eqb mt "application/json" || HasSuffix mt "+json".

Definition isTextContentType (ct : string) : bool :=
  HasPrefix (ToLower (TrimSpace (SplitN2_head ct ";"%char))) "text/".

(** ** Envelopes *)

Inductive jval := JString (s : string) | JRaw (s : string).
#[export] Instance jval_eq_dec : EqDecision jval.
Proof. solve_decision. Defined.

Abbreviation envelope := (gmap string jval).

(** [env[k] = v] for every attribute. *)
Definition withAttrs (attrs : gmap string string) (env : envelope) : envelope :=
  (JString <$> attrs) ∪ env.

Definition withData (json text : bool) (body : string) (env : envelope) : envelope :=
  if String.eqb body "" then env
  else if json then <["data" := JRaw body]> env
  else if text then <["data" := JString body]> env
  else <["data_base64" := JString (EncodeToString body)]> env.

Definition ceEnvelope (attrs : gmap string string) (contentType body : string) : envelope :=
  withData (isCEJSONInlineable contentType) (isCETextInlineable contentType) body
    (withAttrs attrs {[ AttrSpecVersion := JString SpecVersion ]}).

Definition ceResponseEnvelope (now reqID contentType body : string) : envelope :=
  let env : envelope :=
    {[ AttrSpecVersion := JString SpecVersion; AttrType := JString TypeResponse;
       AttrID := JString (reqID ++ ".response"); AttrTime := JString now;
       AttrRelationID := JString reqID ]} in
  let env := if String.eqb contentType "" then env
             else <[AttrDataContentType := JString contentType]> env in
  withData (isCEJSONInlineable contentType) (isCETextInlineable contentType) body env.

(** ** The metadata entry *)

Record Entry := mkEntry {
  CEID : string;
  Attrs : gmap string string;
  ContentType : string;
  Body : string;
  (** how often [Done] was closed; a second close panics *)
  doneCloses : nat;
  respBody : string;
  respCT : string;
  delivered : bool;
  cancelled : bool;
}.

Definition NewEntry (ceID contentType body : string) (attrs : gmap string string) : Entry :=
  mkEntry ceID attrs contentType body 0 "" "" false false.

Definition SetResponse (body contentType : string) (e : Entry) : Entry * bool :=
  if delivered e || cancelled e then (e, false)
  else (mkEntry (CEID e) (Attrs e) (ContentType e) (Body e) (S (doneCloses e)) body contentType
          true (cancelled e), true).

Definition Response (e : Entry) : string * string * bool := (respBody e, respCT e, delivered e).

Definition CancelIfPending (e : Entry) : Entry :=
  if delivered e || cancelled e then e
  else mkEntry (CEID e) (Attrs e) (ContentType e) (Body e) (S (doneCloses e)) (respBody e) (respCT e)
         (delivered e) true.

Definition structuredEnvelope (e : Entry) : envelope :=
  withData (isJSONContentType (ContentType e)) (isTextContentType (ContentType e)) (Body e)
    (withAttrs (delete "specversion" (delete "id" (Attrs e)))
       {[ "specversion" := JString "1.0"; "id" := JString (CEID e) ]}).

Definition accepts (acceptHeaders : list string) (mt : string) : bool :=
  existsb (fun h => existsb (fun part => EqualFold (SplitN2_head (TrimSpace part) ";"%char) mt)
                      (Split ","%char h)) acceptHeaders.

(** ** The registry

    Entries are shared by pointer between the registry, the dispatcher and the
    HTTP handler: [heap] holds them, [reg] maps a sandbox to its entry. *)
Record Registry := mkRegistry { reg : gmap string nat; heap : gmap nat Entry }.

Definition Register (sandboxID : string) (p : nat) (r : Registry) : Registry :=
  mkRegistry (<[sandboxID := p]> (reg r)) (heap r).

(** The function [Register] returns. *)
Definition unregister (sandboxID : string) (p : nat) (r : Registry) : Registry :=
  if decide (reg r !! sandboxID = Some p) then mkRegistry (delete sandboxID (reg r)) (heap r) else r.

Definition Lookup (sandboxID : string) (r : Registry) : option nat := reg r !! sandboxID.

(** What an HTTP handler answers: an error status, an envelope, a binary-mode
    event, or no content. *)
Inductive reply :=
| RError (code : Z)
| REnvelope (env : option envelope)
| RBinary (headers : gmap string string) (body : string)
| RNoContent.

Section Marshal.
Context (json_valid : string -> bool).

Definition jval_ok (v : jval) : bool :=
  match v with JRaw s => json_valid s | JString _ => true end.

(** [json.Marshal] of the members: [None] when it fails. *)
Definition marshal (env : envelope) : option envelope :=
  if bool_decide (map_Forall (fun _ v => jval_ok v = true) env) then Some env else None.

Definition buildCEEnvelope (attrs : gmap string string) (contentType body : string) : option envelope :=
  marshal (ceEnvelope attrs contentType body).

Definition buildCEResponseEnvelope (now reqID contentType body : string) : option envelope :=
  marshal (ceResponseEnvelope now reqID contentType body).

(** [resolveEntry]: the caller's sandbox is what the PROXY frame of its
    connection says. *)
Definition resolveEntry (sandboxID : string) (r : Registry) : option (nat * Entry) :=
  if String.eqb sandboxID "" then None
  else match Lookup sandboxID r with
       | Some p => match heap r !! p with Some e => Some (p, e) | None => None end
       | None => None
       end.

Definition handleEvent (method sandboxID : string) (acceptHeaders : list string) (r : Registry) : reply :=
  if negb (String.eqb method "GET") then RError 405
  else match resolveEntry sandboxID r with
       | None => RError 404
       | Some (_, e) =>
           if accepts acceptHeaders MediaType then REnvelope (marshal (structuredEnvelope e))
           else
             let hs := <["ce-id" := CEID e]> (kmap (String.append "ce-") (Attrs e)) in
             let hs := if String.eqb (ContentType e) "" then hs
                       else <["content-type" := ContentType e]> hs in
             RBinary hs (Body e)
       end.

(** [body] is [None] when reading the request body fails. *)
Definition handleResponse (method sandboxID contentType : string) (body : option string) (r : Registry)
    : Registry * reply :=
  if negb (String.eqb method "POST") then (r, RError 405)
  else match resolveEntry sandboxID r with
       | None => (r, RError 404)
       | Some (p, e) =>
           match body with
           | None => (r, RError 400)
           | Some b =>
               let '(e', ok) := SetResponse b contentType e in
               if ok then (mkRegistry (reg r) (<[p := e']> (heap r)), RNoContent)
               else (r, RError 409)
           end
       end.

End Marshal.

(** ** Bodies *)

Definition requestBodyLimit : Z := 32 * 2 ^ 20.

(** [data] is what the body yields before EOF, [err] whether reading it stops
    with an error; [io.LimitReader] hides an error past [limit + 1] bytes. *)
Inductive body_error := ReadError | TooLarge.

Definition readBodyBounded (data : string) (err : bool) (limit : Z) : outcome body_error string :=
  let len := Z.of_nat (String.length data) in
  let buf := if len <=? limit + 1 then data else take_str (Z.to_nat (limit + 1)) data in
  if err && (len <=? limit) then Err ReadError
  else if limit <? Z.of_nat (String.length buf) then Err TooLarge
  else Ok buf.

(** One [Read]: the bytes, whether it returned an error (EOF included), and
    whether writing them on succeeds. *)
Record chunk := mkChunk { ch_data : string; ch_err : bool; ch_writes : bool }.

(** Returns whether any bytes were written, and the bytes. *)
Fixpoint streamWithFlush (src : list chunk) (wrote : bool) : bool * string :=
  match src with
  | [] => (wrote, "")
  | c :: src =>
      if String.eqb (ch_data c) "" then
        if ch_err c then (wrote, "") else streamWithFlush src wrote
      else if negb (ch_writes c) then (wrote, "")
      else if ch_err c then (true, ch_data c)
      else let '(b, out) := streamWithFlush src true in (b, ch_data c ++ out)
  end.

(** ** The two transports deliver the same event *)

Lemma withData_congr json text body env env' k :
  env !! k = env' !! k -> withData json text body env !! k = withData json text body env' !! k.
Proof.
  intros H. unfold withData. repeat case_match; try done.
  all: match goal with |- <[?j := _]> _ !! _ = _ => destruct (decide (j = k)) as [<-|] end;
    rewrite ?lookup_insert_eq, ?lookup_insert_ne by done; done.
Qed.

(** An agent in Metadata mode and an agent in Stdin mode are handed the same
    event: the structured envelope served at [/v1/event] and the envelope written
    to stdin have the same members, [specversion] apart, when the entry is the one
    the dispatcher builds from the attributes. *)
Theorem transports_agree (attrs : gmap string string) (ceID contentType body k : string) :
  attrs !! AttrID = Some ceID -> k <> AttrSpecVersion ->
  structuredEnvelope (NewEntry ceID contentType body attrs) !! k
  = ceEnvelope attrs contentType body !! k.
Proof.
  intros Hid Hk. unfold structuredEnvelope, ceEnvelope. cbn [NewEntry ContentType Body CEID Attrs].
  change (isJSONContentType contentType) with (isCEJSONInlineable contentType).
  change (isTextContentType contentType) with (isCETextInlineable contentType).
  apply withData_congr. unfold withAttrs, AttrSpecVersion in *.
  rewrite !lookup_union, !lookup_fmap, lookup_delete_ne by done.
  destruct (decide (k = "id")) as [->|Hki].
  - rewrite lookup_delete_eq. unfold AttrID in Hid. by rewrite Hid.
  - rewrite lookup_delete_ne by done. rewrite !lookup_insert_ne by done.
    by rewrite !lookup_singleton_ne.
Qed.

Lemma transports_agree_witness :
  structuredEnvelope (NewEntry "7" "text/plain; charset=utf-8" "hi" {[ "id" := "7"; "source" := "s" ]}) !! "data"
  = Some (JString "hi").
Proof.
  rewrite transports_agree; [vm_compute; reflexivity | vm_compute; reflexivity | discriminate].
Defined.

(** A caller's own [ce-specversion] reaches a Stdin agent but not a Metadata
    agent. *)
Lemma specversion_differs :
  let attrs : gmap string string := {[ "id" := "7"; "specversion" := "0.3" ]} in
  ceEnvelope attrs "" "" !! "specversion" = Some (JString "0.3")
  /\ structuredEnvelope (NewEntry "7" "" "" attrs) !! "specversion" = Some (JString "1.0").
Proof. split; vm_compute; reflexivity. Qed.

(** ** What an envelope loses *)

Section MarshalLemmas.
Context (json_valid : string -> bool).

Lemma marshal_raw env k s :
  env !! k = Some (JRaw s) -> json_valid s = false -> marshal json_valid env = None.
Proof.
  intros H Hs. unfold marshal. rewrite bool_decide_eq_false_2; [done|]. intros Hf.
  specialize (Hf k _ H). cbn in Hf. congruence.
Qed.

(** A request labelled JSON whose body is not valid JSON reaches a Stdin agent
    as nothing at all: marshalling the envelope fails, the error is dropped, and
    the attributes are lost with the body.  For every other body the envelope is
    written. *)
Theorem buildCEEnvelope_lost_iff (attrs : gmap string string) (contentType body : string) :
  buildCEEnvelope json_valid attrs contentType body = None
  <-> body <> "" /\ isCEJSONInlineable contentType = true /\ json_valid body = false.
Proof.
  unfold buildCEEnvelope. split.
  - unfold marshal. case_bool_decide as Hf; [done|]. intros _.
    destruct (String.eqb_spec body "") as [->|Hb]; [|destruct (isCEJSONInlineable contentType) eqn:Ej].
    1, 3: exfalso; apply Hf; intros k v; unfold ceEnvelope, withData, withAttrs;
        rewrite ?(proj2 (String.eqb_neq _ _) Hb), ?Ej; cbn [String.eqb]; repeat case_match;
        rewrite ?lookup_insert_Some, lookup_union_Some_raw, lookup_fmap_Some, lookup_singleton_Some;
        naive_solver.
    split_and!; [done..|]. apply not_true_iff_false. intros Hv. apply Hf. intros k v.
    unfold ceEnvelope, withData, withAttrs. rewrite (proj2 (String.eqb_neq _ _) Hb), Ej.
    rewrite lookup_insert_Some, lookup_union_Some_raw, lookup_fmap_Some, lookup_singleton_Some. naive_solver.
  - intros (Hb & Hj & Hv). apply (marshal_raw _ "data" body); [|done].
    unfold ceEnvelope, withData. rewrite (proj2 (String.eqb_neq _ _) Hb), Hj. apply lookup_insert_eq.
Qed.

(** An agent that answers malformed JSON under a JSON content type, with the
    caller asking for an envelope, is answered with an empty body. *)
Lemma buildCEResponseEnvelope_lost now reqID contentType body :
  body <> "" -> isCEJSONInlineable contentType = true -> json_valid body = false ->
  buildCEResponseEnvelope json_valid now reqID contentType body = None.
Proof.
  intros Hb Hj Hv. apply (marshal_raw _ "data" body); [|done].
  unfold ceResponseEnvelope, withData. rewrite (proj2 (String.eqb_neq _ _) Hb), Hj. apply lookup_insert_eq.
Qed.

End MarshalLemmas.

(** "Empty bodies emit no data field at all", unless a [ce-data] header says so. *)
Lemma empty_body_data attrs contentType :
  ceEnvelope attrs contentType "" !! "data" = JString <$> attrs !! "data".
Proof.
  unfold ceEnvelope, withData, withAttrs. cbn [String.eqb].
  rewrite lookup_union_l; [by rewrite lookup_fmap|]. done.
Qed.

(** ** The entry is decided once *)

Inductive entry_op := ESet (body contentType : string) | ECancel.

Definition apply_op (e : Entry) (o : entry_op) : Entry :=
  match o with ESet b ct => (SetResponse b ct e).1 | ECancel => CancelIfPending e end.

Lemma apply_op_decided e o : delivered e || cancelled e = true -> apply_op e o = e.
Proof. intros H. destruct o; cbn; unfold SetResponse, CancelIfPending; by rewrite H. Qed.

Lemma fold_decided ops e : delivered e || cancelled e = true -> fold_left apply_op ops e = e.
Proof. intros H. induction ops as [|o ops IH]; cbn; [done|]. by rewrite apply_op_decided. Qed.

(** Whatever the agent posts and whenever the dispatcher cancels, the first of
    them decides the response, and [Done] is closed once: the second close, which
    would panic, never happens. *)
Lemma entry_decided_once ceID ct body attrs ops :
  let e := fold_left apply_op ops (NewEntry ceID ct body attrs) in
  (doneCloses e <= 1)%nat
  /\ Response e = match ops with ESet b c :: _ => (b, c, true) | _ => ("", "", false) end.
Proof.
  destruct ops as [|[b c|] ops]; cbn; [auto| |]; rewrite fold_decided by done; auto.
Qed.

(** A sandbox answers only its own request, and only once: a POST to
    [/v1/response] changes at most the entry registered for the sandbox the
    connection belongs to, only when that entry has neither a response nor a
    cancellation, and then the entry holds exactly the posted body.  Otherwise the
    reply is an error and nothing changes. *)
Theorem handleResponse_isolated (method sandboxID ct : string) (body : option string) (r : Registry) :
  match handleResponse method sandboxID ct body r with
  | (r', RNoContent) =>
      exists p e b, reg r !! sandboxID = Some p /\ heap r !! p = Some e /\ body = Some b
        /\ method = "POST" /\ delivered e = false /\ cancelled e = false
        /\ (Response <$> heap r' !! p) = Some (b, ct, true)
        /\ reg r' = reg r /\ forall q, q <> p -> heap r' !! q = heap r !! q
  | (r', RError code) => r' = r /\ In code [405; 404; 400; 409]%Z
  | (_, _) => False
  end.
Proof.
  unfold handleResponse, resolveEntry, Lookup, SetResponse.
  destruct (String.eqb_spec method "POST") as [->|]; cbn [negb]; [|cbn; auto].
  destruct (String.eqb sandboxID ""); [cbn; auto|].
  destruct (reg r !! sandboxID) as [p|] eqn:Ep; [|cbn; auto].
  destruct (heap r !! p) as [e|] eqn:Ee; [|cbn; auto]. destruct body as [b|]; [|cbn; auto].
  destruct (delivered e || cancelled e) eqn:E; [cbn; auto 6|].
  apply orb_false_iff in E as [Hd Hc]. exists p, e, b. cbn. rewrite lookup_insert_eq.
  split_and!; try done. intros q Hq. by rewrite lookup_insert_ne.
Qed.

(** The unregister function of an earlier execution leaves a later registration
    of the same sandbox alone. *)
Lemma unregister_own sandboxID p q r :
  p <> q -> unregister sandboxID p (Register sandboxID q r) = Register sandboxID q r.
Proof.
  intros Hne. unfold unregister, Register. cbn. rewrite lookup_insert_eq.
  rewrite decide_False by congruence. done.
Qed.

(** ** Bodies are whole or refused *)

Lemma length_take_str n s : String.length (take_str n s) = Nat.min n (String.length s).
Proof. revert s. induction n as [|n IH]; intros [|c s]; cbn; [done..|]. by rewrite IH. Qed.

(** A body is delivered whole or refused: [readBodyBounded] returns a body
    exactly when reading ended without an error within the limit, and then it
    returns every byte; past the limit it fails instead of truncating. *)
Theorem readBodyBounded_spec (data : string) (err : bool) (limit : Z) :
  0 <= limit ->
  readBodyBounded data err limit
  = if limit <? Z.of_nat (String.length data) then Err TooLarge
    else if err then Err ReadError else Ok data.
Proof.
  intros Hl. unfold readBodyBounded. set (len := Z.of_nat (String.length data)).
  assert (Hlen : Z.of_nat (String.length (if len <=? limit + 1 then data
    else take_str (Z.to_nat (limit + 1)) data)) = Z.min len (limit + 1)).
  { destruct (Z.leb_spec len (limit + 1)); [subst len; lia|]. rewrite length_take_str. subst len. lia. }
  rewrite Hlen. destruct (Z.ltb_spec limit len).
  - rewrite (proj2 (Z.leb_gt len limit)), (proj2 (Z.ltb_lt limit _)) by lia. by rewrite andb_false_r.
  - rewrite (proj2 (Z.leb_le len limit)), (proj2 (Z.ltb_ge limit _)), (proj2 (Z.leb_le len _)) by lia.
    by rewrite andb_true_r.
Qed.

Lemma readBodyBounded_spec_witness :
  readBodyBounded "abc" false 2 = Err TooLarge /\ readBodyBounded "ab" false 2 = Ok "ab".
Proof. split; (rewrite readBodyBounded_spec; [reflexivity|lia]). Defined.

(** [streamWithFlush] reports bytes written exactly when there are some, and
    they are the agent's output in order, cut at the first failed write or read
    error. *)
Lemma streamWithFlush_spec src wrote :
  let '(b, out) := streamWithFlush src wrote in
  (b = true <-> wrote = true \/ out <> "")
  /\ exists rest, String.concat "" (List.map ch_data src) = out ++ rest.
Proof.
  assert (Hc : forall x l, String.concat "" (x :: l) = x ++ String.concat "" l).
  { intros x [|y l]; cbn; [by rewrite str_app_nil_r|done]. }
  revert wrote. induction src as [|c src IH]; intros wrote; cbn [streamWithFlush List.map]; [naive_solver|].
  rewrite Hc. destruct (String.eqb_spec (ch_data c) "") as [E|E].
  - rewrite E. destruct (ch_err c); [split; [naive_solver|eauto]|]. apply IH.
  - destruct (ch_writes c); cbn [negb]; [|split; [naive_solver|eauto]].
    destruct (ch_err c); [split; [naive_solver|eauto]|].
    specialize (IH true). destruct (streamWithFlush src true) as [b out]. destruct IH as [Hb [rest Hr]].
    split; [|exists rest; by rewrite Hr, str_app_assoc].
    split; [|naive_solver]. intros _. right. by destruct (ch_data c).
Qed.

End Delivery.
