(* ===== verification/WarmPool.v ===== *)
(** * The warm pool

    [internal/worker/agents/warmpool.go]: per (namespace, agent, revision) a
    LIFO of pre-created sandboxes, filled by background loops, drained by
    requests, reconciles, idle timers and shutdown.  Every section the code runs
    under [w.mu] is one function here; goroutines are threads of the state, so
    that every interleaving of those sections is a sequence of steps.  The
    [ledger] records what became of each sandbox the pool created: it is the
    sandbox runtime's side of the story and no operation reads it. *)

From Stdlib Require Import ZArith Lia Ascii String List.
From stdpp Require Import base strings list gmap.
From S2P Require Import Prelude.

Module WarmPool.
#[local] Open Scope Z_scope.

Record WarmKey := mkWarmKey { wk_namespace : string; wk_agent : string; wk_revision : string }.

#[global] Instance WarmKey_eq_dec : EqDecision WarmKey.
Proof. solve_decision. Defined.
#[global] Instance WarmKey_countable : Countable WarmKey :=
  inj_countable' (fun k => (wk_namespace k, wk_agent k, wk_revision k))
    (fun p => let '(a, b, c) := p in mkWarmKey a b c)
    (fun k => match k with mkWarmKey _ _ _ => eq_refl end).

(** [types.NamespacedName] *)
Definition NamespacedName : Type := string * string.

Definition defaultMaxWarmPerKey : Z := 16.
Definition defaultWarmIdleTTL : Z := 600000000000.

Record warmTarget := mkTarget { size : Z; idleTTL : Z }.

(** An entry is identified by its sandbox. *)
Record warmSlot := mkSlot { entries : list nat; target : warmTarget; filling : bool }.

Definition emptySlot : warmSlot := mkSlot [] (mkTarget 0 0) false.

(** What became of a sandbox: held by a fill loop that has created it but not
    yet pooled it, in a slot, handed to a request, taken out for deletion,
    deleted, or left behind by a deletion that failed. *)
Inductive place := InHand (k : WarmKey) | InSlot (k : WarmKey) | Acquired | Doomed | Deleted | Undeleted.

#[global] Instance place_eq_dec : EqDecision place.
Proof. solve_decision. Defined.

(** Where a [fillLoop] goroutine is: at the top of its loop, in [fillOne] with
    the target it read, after it with a created sandbox, or in the deferred
    function. *)
Inductive fill_pc := FTop | FFill (t : warmTarget) | FAppend (id : nat) | FExit.

Record pool := mkPool {
  poolName : string;
  maxPerKey : Z;
  slots : gmap WarmKey warmSlot;
  knownKey : gmap NamespacedName WarmKey;
  stopped : bool;
  (** running [fillLoop]s *)
  fills : gmap nat (WarmKey * fill_pc);
  (** [kickFill] calls that have not reached their critical section *)
  kicks : list WarmKey;
  ledger : gmap nat place;
}.

Definition NewWarmPool (name : string) (maxPerKey : Z) : pool :=
  mkPool name (if maxPerKey <=? 0 then defaultMaxWarmPerKey else maxPerKey) ∅ ∅ false ∅ [] ∅.

Definition set_slots (w : pool) (s : gmap WarmKey warmSlot) : pool :=
  mkPool (poolName w) (maxPerKey w) s (knownKey w) (stopped w) (fills w) (kicks w) (ledger w).
Definition set_known (w : pool) (m : gmap NamespacedName WarmKey) : pool :=
  mkPool (poolName w) (maxPerKey w) (slots w) m (stopped w) (fills w) (kicks w) (ledger w).
Definition set_fills (w : pool) (f : gmap nat (WarmKey * fill_pc)) : pool :=
  mkPool (poolName w) (maxPerKey w) (slots w) (knownKey w) (stopped w) f (kicks w) (ledger w).
Definition set_ledger (w : pool) (l : gmap nat place) : pool :=
  mkPool (poolName w) (maxPerKey w) (slots w) (knownKey w) (stopped w) (fills w) (kicks w) l.
Definition set_kicks (w : pool) (l : list WarmKey) : pool :=
  mkPool (poolName w) (maxPerKey w) (slots w) (knownKey w) (stopped w) (fills w) l (ledger w).

(** Record [p] for every sandbox of [ids]. *)
Definition mark (p : place) (ids : list nat) (w : pool) : pool :=
  set_ledger w (fold_right (fun id m => <[id := p]> m) (ledger w) ids).

Definition slot_entries (w : pool) (k : WarmKey) : list nat :=
  match slots w !! k with Some s => entries s | None => [] end.

(** ** Reconcile *)

Record TaskAgent := mkTaskAgent {
  ta_namespace : string;
  ta_name : string;
  WorkerPoolRef : string;
  WarmPoolSize : option Z;
  WarmPoolIdleTTL : option Z;
  LatestReadyRevisionName : string;
}.

(** [client.Get]: the object, not found, or another error. *)
Inductive get_result (A : Type) := Found (a : A) | NotFound | GetError.
Arguments Found {A} a.
Arguments NotFound {A}.
Arguments GetError {A}.

(** [evictByName]: the slot is dropped and its sandboxes are on their way to
    [teardownEntry]. *)
Definition evictByName (nn : NamespacedName) (w : pool) : pool :=
  match knownKey w !! nn with
  | None => w
  | Some key =>
      mark Doomed (slot_entries w key)
        (set_known (set_slots w (delete key (slots w))) (delete nn (knownKey w)))
  end.

(** The locked section of [Reconcile] and the calls after it. *)
Definition reconcileSlot (nn : NamespacedName) (newKey : WarmKey) (t : warmTarget) (w : pool) : pool :=
  if stopped w then w
  else
    let w1 :=
      match knownKey w !! nn with
      | Some old =>
          if bool_decide (old = newKey) then w
          else mark Doomed (slot_entries w old) (set_slots w (delete old (slots w)))
      | None => w
      end in
    let slot := default emptySlot (slots w1 !! newKey) in
    let slot' := mkSlot (entries slot) t (filling slot) in
    let w2 := set_slots (set_known w1 (<[nn := newKey]> (knownKey w1))) (<[newKey := slot']> (slots w1)) in
    if Z.of_nat (length (entries slot)) <? size t then set_kicks w2 (newKey :: kicks w2) else w2.

Definition Reconcile (nn : NamespacedName) (get : get_result TaskAgent) (w : pool) : pool :=
  match get with
  | GetError => w
  | NotFound => evictByName nn w
  | Found ta =>
      if negb (String.eqb (WorkerPoolRef ta) (poolName w)) then evictByName nn w
      else
        match WarmPoolSize ta with
        | None => evictByName nn w
        | Some n =>
            if n <=? 0 then evictByName nn w
            else if String.eqb (LatestReadyRevisionName ta) "" then evictByName nn w
            else
              let sz := if maxPerKey w <? n then maxPerKey w else n in
              let ttl := match WarmPoolIdleTTL ta with
                         | Some d => if 0 <? d then d else defaultWarmIdleTTL
                         | None => defaultWarmIdleTTL
                         end in
              reconcileSlot nn
                (mkWarmKey (ta_namespace ta) (ta_name ta) (LatestReadyRevisionName ta))
                (mkTarget sz ttl) w
        end
  end.

(** ** Acquire *)

Definition Acquire (key : WarmKey) (w : pool) : option nat * pool :=
  match slots w !! key with
  | None => (None, w)
  | Some slot =>
      match last (entries slot) with
      | None => (None, w)
      | Some id =>
          let slot' := mkSlot (removelast (entries slot)) (target slot) (filling slot) in
          let w1 := mark Acquired [id] (set_slots w (<[key := slot']> (slots w))) in
          (Some id, set_kicks w1 (key :: kicks w1))
      end
  end.

(** ** Filling *)

(** The critical section of [kickFill]; a [fillLoop] thread is started. *)
Definition kickFill (key : WarmKey) (w : pool) : pool :=
  if stopped w then w
  else
    match slots w !! key with
    | None => w
    | Some slot =>
        if (size (target slot) =? 0) || filling slot then w
        else
          let w1 := set_slots w (<[key := mkSlot (entries slot) (target slot) true]> (slots w)) in
          set_fills w1 (<[fresh (dom (fills w1)) := (key, FTop)]> (fills w1))
    end.

(** The loop's check of [stopCh] and its reads under the lock: where the loop
    goes next. *)
Definition fillCheck (key : WarmKey) (w : pool) : fill_pc :=
  if stopped w then FExit
  else
    match slots w !! key with
    | None => FExit
    | Some slot =>
        if (size (target slot) =? 0) || (size (target slot) <=? Z.of_nat (length (entries slot)))
        then FExit else FFill (target slot)
    end.

Inductive fill_error :=
| GetTaskAgent | RevisionDrift (at_ key : string) | GetRevision | ResolveEgressFailed | SandboxID
| SandboxCreate.

(** [fillOne]: the reads and calls it makes, as parameters; the sandbox [id] is
    what [Create] returns. *)
Definition fillOne (key : WarmKey) (getTA : get_result TaskAgent) (revFound egressOK idOK : bool)
    (create : option nat) : outcome fill_error nat :=
  match getTA with
  | Found ta =>
      guard (negb (String.eqb (LatestReadyRevisionName ta) (wk_revision key)))
        (RevisionDrift (LatestReadyRevisionName ta) (wk_revision key)) (
      guard (negb revFound) GetRevision (
      guard (negb egressOK) ResolveEgressFailed (
      guard (negb idOK) SandboxID (
      match create with Some id => Ok id | None => Err SandboxCreate end))))
  | _ => Err GetTaskAgent
  end.

(** The section after [fillOne] returned [id]: pool it, or drop it when the pool
    is stopping or the slot is gone. *)
Definition fillAppend (key : WarmKey) (id : nat) (w : pool) : pool * fill_pc :=
  if stopped w then (mark Doomed [id] w, FExit)
  else
    match slots w !! key with
    | None => (mark Doomed [id] w, FExit)
    | Some slot =>
        (mark (InSlot key) [id]
           (set_slots w (<[key := mkSlot (entries slot ++ [id]) (target slot) (filling slot)]> (slots w))), FTop)
    end.

(** The deferred function. *)
Definition fillExit (key : WarmKey) (w : pool) : pool :=
  match slots w !! key with
  | None => w
  | Some slot => set_slots w (<[key := mkSlot (entries slot) (target slot) false]> (slots w))
  end.

(** ** Expiry and shutdown *)

Definition remove_entry (id : nat) (l : list nat) : list nat :=
  List.filter (fun e => negb (Nat.eqb e id)) l.

(** [expireWarm]: a timer callback; it may run after the entry was taken. *)
Definition expireWarm (key : WarmKey) (id : nat) (w : pool) : pool :=
  match slots w !! key with
  | None => w
  | Some slot =>
      if existsb (Nat.eqb id) (entries slot) then
        let w1 := mark Doomed [id]
          (set_slots w (<[key := mkSlot (remove_entry id (entries slot)) (target slot) (filling slot)]> (slots w))) in
        set_kicks w1 (key :: kicks w1)
      else w
  end.

Definition StopFill (w : pool) : pool :=
  mkPool (poolName w) (maxPerKey w) (slots w) (knownKey w) true (fills w) (kicks w) (ledger w).

Definition all_entries (w : pool) : list nat :=
  concat (map (fun p => entries (snd p)) (map_to_list (slots w))).

Definition DestroyAll (w : pool) : pool := mark Doomed (all_entries w) (set_slots w ∅).

(** What [SandboxRuntime.Delete] answers within [warmDeleteTimeout]. *)
Inductive deleteResult := DeleteOK | ErrNotFound | DeleteFailed.

(** [teardownEntry] reaching [deleteWarm]: a failure is logged, and the sandbox stays
    without an owner. *)
Definition deleteWarm (id : nat) (err : deleteResult) (w : pool) : pool :=
  mark (match err with DeleteFailed => Undeleted | _ => Deleted end) [id] w.

(** ** Steps *)

Inductive step : pool -> pool -> Prop :=
| step_reconcile nn get w : step w (Reconcile nn get w)
| step_acquire key w : step w (snd (Acquire key w))
| step_kick key l1 l2 w : kicks w = l1 ++ key :: l2 -> step w (kickFill key (set_kicks w (l1 ++ l2)))
| step_check tid key w : fills w !! tid = Some (key, FTop) ->
    step w (set_fills w (<[tid := (key, fillCheck key w)]> (fills w)))
| step_created tid key t id getTA revFound egressOK idOK w :
    fills w !! tid = Some (key, FFill t) ->
    fillOne key getTA revFound egressOK idOK (Some id) = Ok id -> ledger w !! id = None ->
    step w (mark (InHand key) [id] (set_fills w (<[tid := (key, FAppend id)]> (fills w))))
| step_fill_failed tid key t getTA revFound egressOK idOK create e w :
    fills w !! tid = Some (key, FFill t) ->
    fillOne key getTA revFound egressOK idOK create = Err e ->
    step w (set_fills w (<[tid := (key, FExit)]> (fills w)))
| step_append tid key id w : fills w !! tid = Some (key, FAppend id) ->
    step w (let '(w', pc) := fillAppend key id w in
            set_fills w' (<[tid := (key, pc)]> (fills w')))
| step_exit tid key w : fills w !! tid = Some (key, FExit) ->
    step w (let w' := fillExit key w in set_fills w' (delete tid (fills w')))
| step_expire key id w : step w (expireWarm key id w)
| step_teardown id err w : ledger w !! id = Some Doomed -> step w (deleteWarm id err w)
| step_stop w : step w (StopFill w)
| step_destroy w : step w (DestroyAll w).

Definition reachable (name : string) (max : Z) (w : pool) : Prop := rtc step (NewWarmPool name max) w.

(** ** The ownership invariant *)

Definition ents_of (sl : gmap WarmKey warmSlot) (k : WarmKey) : list nat :=
  match sl !! k with Some s => entries s | None => [] end.

Definition marks (p : place) (ids : list nat) (lg : gmap nat place) : gmap nat place :=
  fold_right (fun id m => <[id := p]> m) lg ids.

(** A sandbox is in a slot, or in a fill loop's hands, exactly when the ledger
    says so; hence in at most one of them. *)
Record owned (sl : gmap WarmKey warmSlot) (fl : gmap nat (WarmKey * fill_pc)) (lg : gmap nat place)
    : Prop := mkOwned {
  own_nodup : forall k, NoDup (ents_of sl k);
  own_slot : forall id k, lg !! id = Some (InSlot k) <-> id ∈ ents_of sl k;
  own_hand : forall id k, lg !! id = Some (InHand k) <-> exists tid, fl !! tid = Some (k, FAppend id);
  own_uniq : forall t1 t2 k1 k2 id,
    fl !! t1 = Some (k1, FAppend id) -> fl !! t2 = Some (k2, FAppend id) -> t1 = t2;
}.

Definition pool_inv (w : pool) : Prop := owned (slots w) (fills w) (ledger w).

Lemma lookup_marks p ids lg id :
  marks p ids lg !! id = if bool_decide (id ∈ ids) then Some p else lg !! id.
Proof.
  induction ids as [|x ids IH]; cbn.
  - rewrite bool_decide_false; [done|]. apply not_elem_of_nil.
  - destruct (decide (x = id)) as [->|Hne].
    + rewrite lookup_insert_eq, bool_decide_true; [done|]. by constructor.
    + rewrite lookup_insert_ne by done. unfold marks in IH. rewrite IH.
      destruct (bool_decide_reflect (id ∈ ids)), (bool_decide_reflect (id ∈ x :: ids)); try done.
      * exfalso. set_solver.
      * exfalso. set_solver.
Qed.

Lemma lookup_marks_in p ids lg id : id ∈ ids -> marks p ids lg !! id = Some p.
Proof. intros. by rewrite lookup_marks, bool_decide_true. Qed.

Lemma lookup_marks_notin p ids lg id : id ∉ ids -> marks p ids lg !! id = lg !! id.
Proof. intros. by rewrite lookup_marks, bool_decide_false. Qed.

Lemma ents_of_insert sl k s k' :
  ents_of (<[k := s]> sl) k' = if bool_decide (k = k') then entries s else ents_of sl k'.
Proof.
  unfold ents_of. destruct (bool_decide_reflect (k = k')) as [->|]; simplify_map_eq; done.
Qed.

Lemma ents_of_delete sl k k' :
  ents_of (delete k sl) k' = if bool_decide (k = k') then [] else ents_of sl k'.
Proof.
  unfold ents_of. destruct (bool_decide_reflect (k = k')) as [->|]; simplify_map_eq; done.
Qed.

Section Transfers.
Context (sl : gmap WarmKey warmSlot) (fl : gmap nat (WarmKey * fill_pc)) (lg : gmap nat place).
Hypothesis H : owned sl fl lg.

(** A slot's target or flag changes. *)
Lemma owned_meta k s : entries s = ents_of sl k -> owned (<[k := s]> sl) fl lg.
Proof.
  intros He. destruct H as [h1 h2 h3 h4]. split; try done.
  - intros k'. rewrite ents_of_insert. case_bool_decide; subst; rewrite ?He; apply h1.
  - intros id k'. rewrite ents_of_insert. case_bool_decide; subst; rewrite ?He; apply h2.
Qed.

(** A sandbox leaves its slot for a request or for deletion. *)
Lemma owned_take k s id p :
  ents_of sl k <> [] -> id ∈ ents_of sl k -> NoDup (entries s) ->
  (forall x, x ∈ entries s <-> x ∈ ents_of sl k /\ x <> id) ->
  (p = Acquired \/ p = Doomed) ->
  owned (<[k := s]> sl) fl (marks p [id] lg).
Proof.
  intros _ Hin Hnd Hs Hp. destruct H as [h1 h2 h3 h4].
  assert (lg !! id = Some (InSlot k)) as Hid by (by apply h2).
  split; try done.
  - intros k'. rewrite ents_of_insert. case_bool_decide; subst; auto.
  - intros x k'. rewrite ents_of_insert, lookup_marks.
    destruct (bool_decide_reflect (x ∈ [id])) as [->%list_elem_of_singleton|Hx].
    + split; [destruct Hp; congruence|]. case_bool_decide; [rewrite Hs; tauto|].
      intros Hx%h2. congruence.
    + rewrite h2. case_bool_decide; subst; [|done]. rewrite Hs. split; [|tauto].
      intros ?. split; [done|]. intros ->. apply Hx. by constructor.
  - intros x k'. rewrite lookup_marks, <- h3.
    destruct (bool_decide_reflect (x ∈ [id])) as [->%list_elem_of_singleton|]; [|done].
    destruct Hp; subst; split; congruence.
Qed.

(** A whole slot is dropped. *)
Lemma owned_drop k : owned (delete k sl) fl (marks Doomed (ents_of sl k) lg).
Proof.
  destruct H as [h1 h2 h3 h4]. split; try done.
  - intros k'. rewrite ents_of_delete. case_bool_decide; [constructor|apply h1].
  - intros x k'. rewrite ents_of_delete, lookup_marks.
    destruct (bool_decide_reflect (x ∈ ents_of sl k)) as [Hx|Hx].
    + split; [discriminate|]. case_bool_decide; [by intros ?%not_elem_of_nil|].
      apply h2 in Hx. intros Hx'%h2. congruence.
    + rewrite h2. case_bool_decide; subst; [|done].
      split; [done|by intros ?%not_elem_of_nil].
  - intros x k'. rewrite lookup_marks, <- h3.
    destruct (bool_decide_reflect (x ∈ ents_of sl k)) as [Hx|]; [|done].
    apply h2 in Hx. split; congruence.
Qed.

(** A fill loop moves between points at which it holds no sandbox. *)
Lemma owned_pc tid k pc :
  (forall k' id, fl !! tid <> Some (k', FAppend id)) -> (forall id, pc <> FAppend id) ->
  owned sl (<[tid := (k, pc)]> fl) lg.
Proof.
  intros Hold Hpc. destruct H as [h1 h2 h3 h4]. split; try done.
  - intros id k'. rewrite h3. split; intros [t Ht]; exists t; destruct (decide (t = tid)) as [->|];
      simplify_map_eq; naive_solver.
  - intros t1 t2 k1 k2 id. destruct (decide (t1 = tid)) as [->|], (decide (t2 = tid)) as [->|];
      simplify_map_eq; naive_solver.
Qed.

Lemma owned_thread_end tid :
  (forall k' id, fl !! tid <> Some (k', FAppend id)) -> owned sl (delete tid fl) lg.
Proof.
  intros Hold. destruct H as [h1 h2 h3 h4]. split; try done.
  - intros id k'. rewrite h3. split; intros [t Ht]; exists t; destruct (decide (t = tid)) as [->|];
      simplify_map_eq; naive_solver.
  - intros t1 t2 k1 k2 id. destruct (decide (t1 = tid)) as [->|], (decide (t2 = tid)) as [->|];
      simplify_map_eq; naive_solver.
Qed.

(** A sandbox is created. *)
Lemma owned_create tid k t id :
  fl !! tid = Some (k, FFill t) -> lg !! id = None ->
  owned sl (<[tid := (k, FAppend id)]> fl) (marks (InHand k) [id] lg).
Proof.
  intros Ht Hid. destruct H as [h1 h2 h3 h4].
  assert (forall t' k', fl !! t' <> Some (k', FAppend id)) as Hno.
  { intros t' k' Ht'. assert (lg !! id = Some (InHand k')) by (apply h3; eauto). congruence. }
  split; try done.
  - intros x k'. rewrite lookup_marks.
    destruct (bool_decide_reflect (x ∈ [id])) as [->%list_elem_of_singleton|Hx]; [|apply h2].
    split; [congruence|]. intros Hx%h2. congruence.
  - intros x k'. rewrite lookup_marks.
    destruct (bool_decide_reflect (x ∈ [id])) as [->%list_elem_of_singleton|Hx].
    + split.
      * intros [= <-]. exists tid. by simplify_map_eq.
      * intros [t' Ht']. destruct (decide (t' = tid)) as [->|]; simplify_map_eq; [done|].
        by apply Hno in Ht'.
    + rewrite h3. split; intros [t' Ht']; exists t'; destruct (decide (t' = tid)) as [->|];
        simplify_map_eq; try done. exfalso. apply Hx. by constructor.
  - intros t1 t2 k1 k2 x. destruct (decide (t1 = tid)) as [->|], (decide (t2 = tid)) as [->|];
      simplify_map_eq; naive_solver.
Qed.

(** A fill loop gives up the sandbox it holds: it goes to deletion. *)
Lemma owned_discard tid k id pc :
  fl !! tid = Some (k, FAppend id) -> (forall id', pc <> FAppend id') ->
  owned sl (<[tid := (k, pc)]> fl) (marks Doomed [id] lg).
Proof.
  intros Ht Hpc. destruct H as [h1 h2 h3 h4].
  assert (lg !! id = Some (InHand k)) as Hid by (apply h3; eauto).
  split; try done.
  - intros x k'. rewrite lookup_marks.
    destruct (bool_decide_reflect (x ∈ [id])) as [->%list_elem_of_singleton|Hx]; [|apply h2].
    split; [congruence|]. intros Hx%h2. congruence.
  - intros x k'. rewrite lookup_marks.
    destruct (bool_decide_reflect (x ∈ [id])) as [->%list_elem_of_singleton|Hx].
    + split; [congruence|]. intros [t' Ht']. destruct (decide (t' = tid)) as [->|]; simplify_map_eq; [naive_solver|].
      by destruct (h4 _ _ _ _ _ Ht Ht').
    + rewrite h3. split; intros [t' Ht']; exists t'; destruct (decide (t' = tid)) as [->|];
        simplify_map_eq; try done; exfalso; [apply Hx; by constructor|naive_solver].
  - intros t1 t2 k1 k2 x. destruct (decide (t1 = tid)) as [->|], (decide (t2 = tid)) as [->|];
      simplify_map_eq; naive_solver.
Qed.

(** A fill loop pools the sandbox it holds. *)
Lemma owned_append tid k id s :
  fl !! tid = Some (k, FAppend id) -> entries s = ents_of sl k ++ [id] ->
  owned (<[k := s]> sl) (<[tid := (k, FTop)]> fl) (marks (InSlot k) [id] lg).
Proof.
  intros Ht Hs. destruct H as [h1 h2 h3 h4].
  assert (lg !! id = Some (InHand k)) as Hid by (apply h3; eauto).
  assert (forall k', id ∉ ents_of sl k') as Hni by (intros k' Hx%h2; congruence).
  split.
  - intros k'. rewrite ents_of_insert. case_bool_decide; [|apply h1]. subst. rewrite Hs.
    apply NoDup_app. split_and!; [apply h1| |apply NoDup_singleton].
    intros x Hx ->%list_elem_of_singleton. by apply Hni in Hx.
  - intros x k'. rewrite ents_of_insert, lookup_marks.
    destruct (bool_decide_reflect (x ∈ [id])) as [->%list_elem_of_singleton|Hx].
    + case_bool_decide; subst.
      * rewrite Hs. split; [|done]. intros _. set_solver.
      * split; [congruence|]. intros Hx. by apply Hni in Hx.
    + rewrite h2. case_bool_decide; subst; [|done]. rewrite Hs. set_solver.
  - intros x k'. rewrite lookup_marks.
    destruct (bool_decide_reflect (x ∈ [id])) as [->%list_elem_of_singleton|Hx].
    + split; [congruence|]. intros [t' Ht']. destruct (decide (t' = tid)) as [->|]; simplify_map_eq.
      by destruct (h4 _ _ _ _ _ Ht Ht').
    + rewrite h3. split; intros [t' Ht']; exists t'; destruct (decide (t' = tid)) as [->|];
        simplify_map_eq; try done. exfalso. apply Hx. by constructor.
  - intros t1 t2 k1 k2 x. destruct (decide (t1 = tid)) as [->|], (decide (t2 = tid)) as [->|];
      simplify_map_eq; naive_solver.
Qed.

(** A sandbox on its way out is deleted, or left behind. *)
Lemma owned_deleted id p : lg !! id = Some Doomed -> p = Deleted \/ p = Undeleted -> owned sl fl (marks p [id] lg).
Proof.
  intros Hid Hp. destruct H as [h1 h2 h3 h4]. split; try done.
  - intros x k. rewrite lookup_marks, <- h2.
    destruct (bool_decide_reflect (x ∈ [id])) as [->%list_elem_of_singleton|]; [|done]. split; intros; [destruct Hp|]; congruence.
  - intros x k. rewrite lookup_marks, <- h3.
    destruct (bool_decide_reflect (x ∈ [id])) as [->%list_elem_of_singleton|]; [|done]. split; intros; [destruct Hp|]; congruence.
Qed.

(** All slots are dropped. *)
Lemma owned_drop_all ids :
  (forall id, id ∈ ids <-> exists k, id ∈ ents_of sl k) -> owned ∅ fl (marks Doomed ids lg).
Proof.
  intros Hids. destruct H as [h1 h2 h3 h4]. split; try done.
  - intros k. unfold ents_of. rewrite lookup_empty. constructor.
  - intros x k. unfold ents_of at 1. rewrite lookup_empty, lookup_marks.
    destruct (bool_decide_reflect (x ∈ ids)) as [Hx|Hx].
    + split; [congruence|by intros ?%not_elem_of_nil].
    + rewrite h2. split; [|by intros ?%not_elem_of_nil]. intros Hk. destruct Hx. apply Hids. eauto.
  - intros x k. rewrite lookup_marks, <- h3.
    destruct (bool_decide_reflect (x ∈ ids)) as [[k' Hx]%Hids|]; [|done].
    apply h2 in Hx. split; congruence.
Qed.
End Transfers.

Lemma NewWarmPool_inv name max : pool_inv (NewWarmPool name max).
Proof.
  split; cbn.
  - intros k. unfold ents_of. rewrite lookup_empty. constructor.
  - intros id k. unfold ents_of. rewrite !lookup_empty. split; [discriminate|by intros ?%not_elem_of_nil].
  - intros id k. rewrite lookup_empty. split; [discriminate|]. intros [t Ht]. by rewrite lookup_empty in Ht.
  - intros t1 t2 k1 k2 id. by rewrite lookup_empty.
Qed.

Lemma slot_entries_ents w k : slot_entries w k = ents_of (slots w) k.
Proof. done. Qed.

Lemma ents_of_some sl k s : sl !! k = Some s -> ents_of sl k = entries s.
Proof. unfold ents_of. by intros ->. Qed.

Lemma evictByName_inv nn w : pool_inv w -> pool_inv (evictByName nn w).
Proof.
  intros H. unfold evictByName. destruct (knownKey w !! nn) as [key|]; [|done].
  rewrite slot_entries_ents. by apply owned_drop.
Qed.

Lemma reconcileSlot_inv nn key t w : pool_inv w -> pool_inv (reconcileSlot nn key t w).
Proof.
  intros H. unfold reconcileSlot. destruct (stopped w); [done|].
  set (w1 := match knownKey w !! nn with Some _ => _ | None => _ end).
  assert (pool_inv w1) as H1.
  { unfold w1. destruct (knownKey w !! nn) as [old|]; [|done].
    destruct (bool_decide (old = key)); [done|]. rewrite slot_entries_ents. by apply owned_drop. }
  assert (pool_inv (set_slots w1 (<[key := mkSlot (entries (default emptySlot (slots w1 !! key))) t
                                    (filling (default emptySlot (slots w1 !! key)))]> (slots w1)))) as H2.
  { apply owned_meta; [done|]. unfold ents_of. by destruct (slots w1 !! key). }
  cbv zeta. destruct (_ <? _); exact H2.
Qed.

Lemma Reconcile_inv nn get w : pool_inv w -> pool_inv (Reconcile nn get w).
Proof.
  intros H. unfold Reconcile. destruct get as [ta| |]; [|by apply evictByName_inv|done].
  destruct (negb _); [by apply evictByName_inv|].
  destruct (WarmPoolSize ta); [|by apply evictByName_inv].
  destruct (_ <=? _); [by apply evictByName_inv|].
  destruct (String.eqb _ _); [by apply evictByName_inv|]. by apply reconcileSlot_inv.
Qed.

Lemma last_removelast (l : list nat) id : last l = Some id -> l = removelast l ++ [id].
Proof.
  intros [l' ->]%last_Some. rewrite List.removelast_app by done. cbn. by rewrite app_nil_r.
Qed.

Lemma Acquire_take key w s id :
  slots w !! key = Some s -> last (entries s) = Some id -> pool_inv w ->
  owned (<[key := mkSlot (removelast (entries s)) (target s) (filling s)]> (slots w)) (fills w)
    (marks Acquired [id] (ledger w)).
Proof.
  intros Hs Hl H. pose proof (last_removelast _ _ Hl) as Heq.
  pose proof (own_nodup _ _ _ H key) as Hnd. rewrite (ents_of_some _ _ _ Hs), Heq in Hnd.
  apply NoDup_app in Hnd as (Hnd & Hdis & _).
  apply owned_take; rewrite ?(ents_of_some _ _ _ Hs); cbn [entries]; auto.
  - intros E. rewrite E in Hl. discriminate.
  - rewrite Heq. set_solver.
  - intros x. rewrite Heq at 2. rewrite elem_of_app, list_elem_of_singleton. split.
    + intros Hx. split; [by left|]. intros ->. apply (Hdis id Hx). by constructor.
    + intros [[?|?] ?]; done.
Qed.

Lemma Acquire_inv key w : pool_inv w -> pool_inv (snd (Acquire key w)).
Proof.
  intros H. unfold Acquire. destruct (slots w !! key) as [s|] eqn:Hs; [|done].
  destruct (last (entries s)) as [id|] eqn:Hl; [|done].
  exact (Acquire_take key w s id Hs Hl H).
Qed.

Lemma kickFill_inv key w : pool_inv w -> pool_inv (kickFill key w).
Proof.
  intros H. unfold kickFill. destruct (stopped w); [done|].
  destruct (slots w !! key) as [s|] eqn:Hs; [|done]. destruct (_ || _); [done|].
  apply owned_pc; [|cbn|done].
  - apply owned_meta; [done|]. by rewrite (ents_of_some _ _ _ Hs).
  - intros k' id Hf.
    assert (fresh (dom (fills w)) ∈ dom (fills w)) as Hin by (apply elem_of_dom; eauto).
    by apply is_fresh in Hin.
Qed.

Lemma fillAppend_inv tid key id w :
  pool_inv w -> fills w !! tid = Some (key, FAppend id) ->
  let '(w', pc) := fillAppend key id w in pool_inv (set_fills w' (<[tid := (key, pc)]> (fills w'))).
Proof.
  intros H Ht. unfold fillAppend. destruct (stopped w); [by apply owned_discard|].
  destruct (slots w !! key) as [s|] eqn:Hs; [|by apply owned_discard].
  apply owned_append; [done|done|]. by rewrite (ents_of_some _ _ _ Hs).
Qed.

Lemma fillExit_inv key w : pool_inv w -> pool_inv (fillExit key w).
Proof.
  intros H. unfold fillExit. destruct (slots w !! key) as [s|] eqn:Hs; [|done].
  apply owned_meta; [done|]. by rewrite (ents_of_some _ _ _ Hs).
Qed.

Lemma elem_of_remove_entry id x l : x ∈ remove_entry id l <-> x ∈ l /\ x <> id.
Proof.
  unfold remove_entry. rewrite !list_elem_of_In, List.filter_In, negb_true_iff, Nat.eqb_neq. done.
Qed.

Lemma existsb_eqb_elem id l : existsb (Nat.eqb id) l = true <-> id ∈ l.
Proof.
  rewrite existsb_exists, list_elem_of_In. split.
  - intros (x & ? & ->%Nat.eqb_eq). done.
  - intros. exists id. split; [done|]. apply Nat.eqb_refl.
Qed.

Lemma expireWarm_inv key id w : pool_inv w -> pool_inv (expireWarm key id w).
Proof.
  intros H. unfold expireWarm. destruct (slots w !! key) as [s|] eqn:Hs; [|done].
  destruct (existsb _ _) eqn:Hin; [|done]. apply existsb_eqb_elem in Hin.
  apply owned_take; rewrite ?(ents_of_some _ _ _ Hs); auto.
  - intros E. rewrite E in Hin. by apply not_elem_of_nil in Hin.
  - apply NoDup_ListNoDup, List.NoDup_filter, NoDup_ListNoDup.
    rewrite <- (ents_of_some _ _ _ Hs). apply H.
  - intros x. apply elem_of_remove_entry.
Qed.

Lemma all_entries_elem w id : id ∈ all_entries w <-> exists k, id ∈ ents_of (slots w) k.
Proof.
  unfold all_entries. rewrite list_elem_of_In, in_concat. split.
  - intros (l & Hl & Hid). apply in_map_iff in Hl as ([k s] & <- & Hks).
    apply list_elem_of_In, elem_of_map_to_list in Hks. exists k.
    rewrite (ents_of_some _ _ _ Hks). by apply list_elem_of_In.
  - intros [k Hk]. unfold ents_of in Hk. destruct (slots w !! k) as [s|] eqn:Hs;
      [|by apply not_elem_of_nil in Hk].
    exists (entries s). split; [|by apply list_elem_of_In].
    apply in_map_iff. exists (k, s). split; [done|].
    by apply list_elem_of_In, elem_of_map_to_list.
Qed.

(** Every step keeps each sandbox in exactly the place the ledger records. *)
Lemma step_inv w w' : step w w' -> pool_inv w -> pool_inv w'.
Proof.
  destruct 1 as [nn get w|key w|key l1 l2 w Hk|tid key w Ht|tid key t id g1 g2 g3 g4 w Ht _ Hid
    |tid key t g1 g2 g3 g4 c e w Ht _|tid key id w Ht|tid key w Ht|key id w|id err w Hid|w|w]; intros H.
  - by apply Reconcile_inv.
  - by apply Acquire_inv.
  - by apply kickFill_inv.
  - apply owned_pc; [done|congruence|]. intros id. unfold fillCheck.
    destruct (stopped w); [done|]. destruct (slots w !! key); [|done]. by destruct (_ || _).
  - by eapply owned_create.
  - apply owned_pc; [done|congruence|done].
  - pose proof (fillAppend_inv tid key id w H Ht) as Hw. by destruct (fillAppend key id w).
  - apply owned_thread_end; [by apply fillExit_inv|]. intros k' id.
    unfold fillExit. destruct (slots w !! key); cbn; congruence.
  - by apply expireWarm_inv.
  - apply owned_deleted; [done..|]. destruct err; auto.
  - done.
  - eapply owned_drop_all; [done|]. intros. apply all_entries_elem.
Qed.

Lemma reachable_inv name max w : reachable name max w -> pool_inv w.
Proof.
  assert (forall a b, rtc step a b -> pool_inv a -> pool_inv b) as Hr.
  { induction 1; eauto using step_inv. }
  intros H. eapply Hr; [exact H|]. apply NewWarmPool_inv.
Qed.

(** ** The life of a warm sandbox *)

(** The moves a step may make: created into a loop's hands; pooled; handed to a
    request; taken out for deletion from a loop's hands or from a slot;
    deleted, or left behind. *)
Inductive moves : option place -> option place -> Prop :=
| mv_create k : moves None (Some (InHand k))
| mv_pool k : moves (Some (InHand k)) (Some (InSlot k))
| mv_discard k : moves (Some (InHand k)) (Some Doomed)
| mv_acquire k : moves (Some (InSlot k)) (Some Acquired)
| mv_evict k : moves (Some (InSlot k)) (Some Doomed)
| mv_delete : moves (Some Doomed) (Some Deleted)
| mv_fail : moves (Some Doomed) (Some Undeleted).

Definition moves_or_stays (a b : option place) : Prop := a = b \/ moves a b.

Lemma marks_moves p ids lg id :
  (id ∈ ids -> moves (lg !! id) (Some p)) -> moves_or_stays (lg !! id) (marks p ids lg !! id).
Proof.
  intros H. rewrite lookup_marks. destruct (bool_decide_reflect (id ∈ ids)); [right; auto|by left].
Qed.

Lemma evict_moves sl fl lg k id :
  owned sl fl lg -> moves_or_stays (lg !! id) (marks Doomed (ents_of sl k) lg !! id).
Proof.
  intros H. apply marks_moves. intros Hin. apply (own_slot _ _ _ H) in Hin. rewrite Hin. constructor.
Qed.

Lemma take_moves sl fl lg k p id x :
  owned sl fl lg -> x ∈ ents_of sl k -> p = Acquired \/ p = Doomed ->
  moves_or_stays (lg !! id) (marks p [x] lg !! id).
Proof.
  intros H Hx Hp. apply marks_moves. intros ->%list_elem_of_singleton.
  apply (own_slot _ _ _ H) in Hx. rewrite Hx. destruct Hp as [-> | ->]; constructor.
Qed.

Lemma hand_moves sl fl lg tid k p id x :
  owned sl fl lg -> fl !! tid = Some (k, FAppend x) -> p = InSlot k \/ p = Doomed ->
  moves_or_stays (lg !! id) (marks p [x] lg !! id).
Proof.
  intros H Hx Hp. apply marks_moves. intros ->%list_elem_of_singleton.
  assert (lg !! x = Some (InHand k)) as -> by (apply (own_hand _ _ _ H); eauto).
  destruct Hp as [-> | ->]; constructor.
Qed.

Lemma Reconcile_moves nn get w id :
  pool_inv w -> moves_or_stays (ledger w !! id) (ledger (Reconcile nn get w) !! id).
Proof.
  intros H.
  assert (moves_or_stays (ledger w !! id) (ledger (evictByName nn w) !! id)) as He.
  { unfold evictByName. destruct (knownKey w !! nn) as [key|]; [|by left]. by apply (evict_moves _ _ _ key id H). }
  unfold Reconcile. destruct get as [ta| |]; [|done|by left].
  destruct (negb _); [done|]. destruct (WarmPoolSize ta); [|done].
  destruct (_ <=? _); [done|]. destruct (String.eqb _ _); [done|].
  unfold reconcileSlot. destruct (stopped w); [by left|]. cbv zeta.
  destruct (knownKey w !! nn) as [old|]; [|destruct (_ <? _); by left].
  destruct (bool_decide _); [destruct (_ <? _); by left|].
  destruct (_ <? _); exact (evict_moves _ _ _ old id H).
Qed.

Lemma step_moves w w' id :
  step w w' -> pool_inv w -> moves_or_stays (ledger w !! id) (ledger w' !! id).
Proof.
  destruct 1 as [nn get w|key w|key l1 l2 w Hk|tid key w Ht|tid key t x g1 g2 g3 g4 w Ht _ Hid
    |tid key t g1 g2 g3 g4 c e w Ht _|tid key x w Ht|tid key w Ht|key x w|x err w Hid|w|w]; intros H.
  - by apply Reconcile_moves.
  - unfold Acquire. destruct (slots w !! key) as [s|] eqn:Hs; [|by left].
    destruct (last (entries s)) as [x|] eqn:Hl; [|by left].
    apply (take_moves _ _ _ key Acquired id x H); [|by left].
    rewrite (ents_of_some _ _ _ Hs), (last_removelast _ _ Hl). set_solver.
  - unfold kickFill. cbn. destruct (stopped w); [by left|].
    destruct (slots w !! key); [|by left]. destruct (_ || _); by left.
  - by left.
  - apply (marks_moves (InHand key) [x] (ledger w)). intros ->%list_elem_of_singleton. rewrite Hid. constructor.
  - by left.
  - unfold fillAppend. destruct (stopped w); [|destruct (slots w !! key)].
    + apply (hand_moves _ _ _ tid key Doomed id x H Ht). by right.
    + apply (hand_moves _ _ _ tid key (InSlot key) id x H Ht). by left.
    + apply (hand_moves _ _ _ tid key Doomed id x H Ht). by right.
  - unfold fillExit. destruct (slots w !! key); by left.
  - unfold expireWarm. destruct (slots w !! key) as [s|] eqn:Hs; [|by left].
    destruct (existsb _ _) eqn:Hin; [|by left]. apply existsb_eqb_elem in Hin.
    apply (take_moves _ _ _ key Doomed id x H); [|by right]. by rewrite (ents_of_some _ _ _ Hs).
  - apply (marks_moves _ [x] (ledger w)). intros ->%list_elem_of_singleton. rewrite Hid. destruct err; constructor.
  - by left.
  - apply (marks_moves Doomed (all_entries w) (ledger w)). intros [k Hin]%all_entries_elem. apply (own_slot _ _ _ H) in Hin. rewrite Hin. constructor.
Qed.

(** C16: under every interleaving of reconciles, requests, fill loops, timers and
    shutdown, a warm sandbox only ever moves: created, pooled, then either
    handed to one request or taken out and deleted, if its deletion does not
    fail.  In particular it is never
    pooled twice, and once a request has it the pool does not touch it. *)
Theorem warm_sandbox_lifecycle : forall name max w w' id,
  reachable name max w -> step w w' ->
  moves_or_stays (ledger w !! id) (ledger w' !! id)
  /\ (forall k, ledger w' !! id = Some (InSlot k) <-> id ∈ slot_entries w' k).
Proof.
  intros name max w w' id Hr Hs. pose proof (reachable_inv _ _ _ Hr) as H. split.
  - by eapply step_moves.
  - intros k. apply (step_inv _ _ Hs H).
Qed.

Lemma acquired_final w w' id :
  rtc step w w' -> pool_inv w -> ledger w !! id = Some Acquired -> ledger w' !! id = Some Acquired.
Proof.
  induction 1 as [|w1 w2 w3 Hs _ IH]; [done|]. intros H Hid. apply IH; [by eapply step_inv|].
  pose proof (step_moves _ _ id Hs H) as Hm. rewrite Hid in Hm.
  destruct Hm as [<-|Hm]; [done|inversion Hm].
Qed.

(** C29: [Acquire] hands out the most recently pooled sandbox of the key, and no
    later request of any key is handed the same one, nor does the pool delete
    it. *)
Theorem Acquire_exclusive : forall name max w key id w1,
  reachable name max w -> Acquire key w = (Some id, w1) ->
  (exists older, slot_entries w key = older ++ [id] /\ slot_entries w1 key = older)
  /\ forall w2, rtc step w1 w2 ->
       ledger w2 !! id = Some Acquired /\ forall key', fst (Acquire key' w2) <> Some id.
Proof.
  intros name max w key id w1 Hr Ha. pose proof (reachable_inv _ _ _ Hr) as H.
  assert (pool_inv w1) as H1 by (pose proof (Acquire_inv key w H) as Hi; by rewrite Ha in Hi).
  unfold Acquire in Ha. destruct (slots w !! key) as [s|] eqn:Hs; [|discriminate].
  destruct (last (entries s)) as [x|] eqn:Hl; [|discriminate]. injection Ha as -> <-.
  split.
  - exists (removelast (entries s)). rewrite !slot_entries_ents, (ents_of_some _ _ _ Hs). split.
    + by apply last_removelast.
    + cbn. rewrite ents_of_insert, bool_decide_true by done. done.
  - intros w2 Hst.
    assert (ledger w2 !! id = Some Acquired) as Hid.
    { eapply acquired_final; [exact Hst|exact H1|]. cbn. by simplify_map_eq. }
    split; [done|]. intros key' Hk.
    assert (pool_inv w2) as H2.
    { clear - Hst H1. induction Hst; eauto using step_inv. }
    unfold Acquire in Hk. destruct (slots w2 !! key') as [s2|] eqn:Hs2; [|discriminate].
    destruct (last (entries s2)) as [y|] eqn:Hl2; [|discriminate]. injection Hk as ->.
    assert (id ∈ ents_of (slots w2) key') as Hin.
    { rewrite (ents_of_some _ _ _ Hs2), (last_removelast _ _ Hl2). set_solver. }
    apply (own_slot _ _ _ H2) in Hin. congruence.
Qed.

(** *** Shutdown *)

Lemma reconcileSlot_stopped nn key t w : stopped w = true -> reconcileSlot nn key t w = w.
Proof. unfold reconcileSlot. by intros ->. Qed.

(** After the pool stopped filling, no slot gains a sandbox. *)
Lemma stopped_step w w' :
  step w w' -> pool_inv w -> stopped w = true ->
  stopped w' = true /\ forall k, slot_entries w' k ⊆ slot_entries w k.
Proof.
  assert (forall nn w, stopped w = true ->
            stopped (evictByName nn w) = true /\ forall k, slot_entries (evictByName nn w) k ⊆ slot_entries w k) as He.
  { intros nn w0 Hs0. unfold evictByName. destruct (knownKey w0 !! nn) as [key|]; [|done].
    split; [done|]. intros k. rewrite !slot_entries_ents. cbn. rewrite ents_of_delete.
    case_bool_decide; set_solver. }
  destruct 1 as [nn get w|key w|key l1 l2 w Hk|tid key w Ht|tid key t x g1 g2 g3 g4 w Ht _ Hid
    |tid key t g1 g2 g3 g4 c e w Ht _|tid key x w Ht|tid key w Ht|key x w|x err w Hid|w|w]; intros H Hst; try done.
  - unfold Reconcile. destruct get as [ta| |]; [|by apply He|done].
    destruct (negb _); [by apply He|]. destruct (WarmPoolSize ta); [|by apply He].
    destruct (_ <=? _); [by apply He|]. destruct (String.eqb _ _); [by apply He|].
    by rewrite reconcileSlot_stopped.
  - unfold Acquire. destruct (slots w !! key) as [s|] eqn:Hs; [|done].
    destruct (last (entries s)) as [x|] eqn:Hl; [|done]. split; [done|].
    intros k. rewrite !slot_entries_ents. cbn. rewrite ents_of_insert. case_bool_decide; [|done]. subst.
    rewrite (ents_of_some _ _ _ Hs). cbn [entries]. intros y Hy.
    rewrite (last_removelast _ _ Hl). set_solver.
  - unfold kickFill. cbn. by rewrite Hst.
  - unfold fillAppend. rewrite Hst. done.
  - unfold fillExit. destruct (slots w !! key) as [s|] eqn:Hs; [|done]. split; [done|].
    intros k. rewrite !slot_entries_ents. cbn. rewrite ents_of_insert. case_bool_decide; [|done]. subst.
    by rewrite (ents_of_some _ _ _ Hs).
  - unfold expireWarm. destruct (slots w !! key) as [s|] eqn:Hs; [|done].
    destruct (existsb _ _); [|done]. split; [done|].
    intros k. rewrite !slot_entries_ents. cbn. rewrite ents_of_insert. case_bool_decide; [|done]. subst.
    rewrite (ents_of_some _ _ _ Hs). cbn. intros y [? _]%elem_of_remove_entry. done.
  - split; [done|]. intros k. rewrite slot_entries_ents. cbn. unfold ents_of.
    rewrite lookup_empty. set_solver.
Qed.

(** A sandbox that was left behind was left by a deletion that failed. *)
Lemma marks_undeleted p ids lg id : p <> Undeleted -> marks p ids lg !! id = Some Undeleted -> lg !! id = Some Undeleted.
Proof. intros Hp. rewrite lookup_marks. destruct (bool_decide _); [congruence|done]. Qed.

Lemma step_undeleted w w' id : step w w' -> ledger w' !! id = Some Undeleted ->
  ledger w !! id = Some Undeleted \/ (ledger w !! id = Some Doomed /\ w' = deleteWarm id DeleteFailed w).
Proof.
  assert (forall nn w, ledger (evictByName nn w) !! id = Some Undeleted -> ledger w !! id = Some Undeleted) as He.
  { intros nn w0. unfold evictByName. destruct (knownKey w0 !! nn); [|done]. by apply marks_undeleted. }
  destruct 1 as [nn get w|key w|key l1 l2 w Hk|tid key w Ht|tid key t x g1 g2 g3 g4 w Ht _ Hid
    |tid key t g1 g2 g3 g4 c e w Ht _|tid key x w Ht|tid key w Ht|key x w|x err w Hid|w|w]; intros H; try (by left).
  - left. revert H. unfold Reconcile. destruct get as [ta| |]; [|apply He|done].
    destruct (negb _); [apply He|]. destruct (WarmPoolSize ta); [|apply He].
    destruct (_ <=? _); [apply He|]. destruct (String.eqb _ _); [apply He|].
    unfold reconcileSlot. destruct (stopped w); [done|]. cbv zeta.
    destruct (knownKey w !! nn) as [old|]; [|by destruct (_ <? _)].
    destruct (bool_decide _); [by destruct (_ <? _)|]. destruct (_ <? _); by apply marks_undeleted.
  - left. revert H. unfold Acquire. destruct (slots w !! key) as [s|]; [|done]. destruct (last (entries s)); [|done].
    by apply (marks_undeleted Acquired).
  - left. revert H. unfold kickFill. cbn. destruct (stopped w); [done|]. destruct (slots w !! key); [|done]. by destruct (_ || _).
  - left. revert H. by apply (marks_undeleted (InHand key)).
  - left. revert H. unfold fillAppend. destruct (stopped w); [|destruct (slots w !! key)]; by apply marks_undeleted.
  - left. revert H. unfold fillExit. by destruct (slots w !! key).
  - left. revert H. unfold expireWarm. destruct (slots w !! key); [|done]. destruct (existsb _ _); [|done]. by apply marks_undeleted.
  - destruct err; [left; by apply marks_undeleted in H..|]. destruct (decide (x = id)) as [->|Hne]; [by right|]. left.
    change (marks Undeleted [x] (ledger w) !! id = Some Undeleted) in H. rewrite lookup_marks_notin in H; [done|set_solver].
  - left. revert H. by apply marks_undeleted.
Qed.

(** The moment of that deletion. *)
Lemma undeleted_history name max w id : reachable name max w -> ledger w !! id = Some Undeleted ->
  exists w1, reachable name max w1 /\ ledger w1 !! id = Some Doomed /\ rtc step (deleteWarm id DeleteFailed w1) w.
Proof.
  unfold reachable. intros Hr. revert w Hr. refine (rtc_ind_r _ _ _ _).
  { intros Hid. cbn in Hid. by rewrite lookup_empty in Hid. }
  intros w1 w2 Hr Hs IH Hid. destruct (step_undeleted _ _ _ Hs Hid) as [H|[H ->]].
  - destruct (IH H) as (w0 & H0 & Hd & Hl). exists w0. split; [done|]. split; [done|]. eapply rtc_r; [exact Hl|exact Hs].
  - exists w1. split; [done|]. split; [done|]. apply rtc_refl.
Qed.

(** C28: shutdown accounts for every warm sandbox: once filling has been stopped and
    the slots were destroyed, and the fill loops and deletions that were under way
    have finished, each sandbox the pool ever created has been handed to a request,
    or was deleted, or is left behind by a deletion of it that failed (the error is
    only logged and not retried), whatever ran in between.  In particular nothing is
    left behind unless a deletion fails. *)
Theorem drain_accounts_for_all : forall name max w w' id p,
  reachable name max w -> stopped w = true ->
  rtc step (DestroyAll w) w' ->
  (forall tid k x, fills w' !! tid <> Some (k, FAppend x)) ->
  (forall x, ledger w' !! x <> Some Doomed) ->
  ledger w' !! id = Some p ->
  p = Acquired \/ p = Deleted
  \/ (p = Undeleted /\ exists w1, reachable name max w1 /\ ledger w1 !! id = Some Doomed
       /\ rtc step (deleteWarm id DeleteFailed w1) w').
Proof.
  intros name max w w' id p Hr Hst Hsteps Hfills Hdoom Hid.
  pose proof (step_inv _ _ (step_destroy w) (reachable_inv _ _ _ Hr)) as H0.
  assert (pool_inv w' /\ forall k, slot_entries w' k = []) as [H Hempty].
  { assert (stopped (DestroyAll w) = true) as Hs0 by done.
    assert (forall k, slot_entries (DestroyAll w) k = []) as He0.
    { intros k. rewrite slot_entries_ents. cbn. unfold ents_of. by rewrite lookup_empty. }
    clear - Hsteps H0 Hs0 He0. induction Hsteps as [|a b c Hab _ IH]; [done|].
    destruct (stopped_step _ _ Hab H0 Hs0) as [Hs Hsub].
    apply IH; [by eapply step_inv|done|]. intros k. specialize (Hsub k). rewrite He0 in Hsub.
    destruct (slot_entries b k) as [|x l]; [done|]. exfalso.
    apply (not_elem_of_nil x). apply Hsub. by constructor. }
  destruct p as [k|k| | | |]; auto.
  - apply (own_hand _ _ _ H) in Hid as [tid Ht]. by apply Hfills in Ht.
  - apply (own_slot _ _ _ H) in Hid. rewrite <- slot_entries_ents, Hempty in Hid.
    by apply not_elem_of_nil in Hid.
  - by apply Hdoom in Hid.
  - right. right. split; [done|]. apply undeleted_history; [|done]. unfold reachable. etransitivity; [exact Hr|].
    eapply rtc_l; [apply step_destroy|exact Hsteps].
Qed.

(** ** Interleavings of the fill loop *)

Definition ta_rev (rev : string) : TaskAgent := mkTaskAgent "n" "a" "p" (Some 1) None rev.
Definition key_rev (rev : string) : WarmKey := mkWarmKey "n" "a" rev.
Definition nn_a : NamespacedName := ("n", "a").

(** Scheduling choices: which thread or caller runs next. *)
Inductive act :=
| DoReconcile (rev : string)
| DoAcquire (rev : string)
| DoKick
| DoCheck (tid : nat)
| DoCreate (tid id : nat)
| DoAppend (tid : nat)
| DoExit (tid : nat).

(** One scheduled section; [None] when it is not enabled. *)
Definition run1 (a : act) (w : pool) : option pool :=
  match a with
  | DoReconcile rev => Some (Reconcile nn_a (Found (ta_rev rev)) w)
  | DoAcquire rev => Some (snd (Acquire (key_rev rev) w))
  | DoKick => match kicks w with k :: l => Some (kickFill k (set_kicks w l)) | [] => None end
  | DoCheck tid =>
      match fills w !! tid with
      | Some (key, FTop) => Some (set_fills w (<[tid := (key, fillCheck key w)]> (fills w)))
      | _ => None
      end
  | DoCreate tid id =>
      match fills w !! tid, ledger w !! id with
      | Some (key, FFill t), None =>
          match fillOne key (Found (ta_rev (wk_revision key))) true true true (Some id) with
          | Ok _ => Some (mark (InHand key) [id] (set_fills w (<[tid := (key, FAppend id)]> (fills w))))
          | _ => None
          end
      | _, _ => None
      end
  | DoAppend tid =>
      match fills w !! tid with
      | Some (key, FAppend id) =>
          let '(w', pc) := fillAppend key id w in Some (set_fills w' (<[tid := (key, pc)]> (fills w')))
      | _ => None
      end
  | DoExit tid =>
      match fills w !! tid with
      | Some (key, FExit) => let w' := fillExit key w in Some (set_fills w' (delete tid (fills w')))
      | _ => None
      end
  end.

Fixpoint run (l : list act) (w : pool) : option pool :=
  match l with
  | [] => Some w
  | a :: l' => match run1 a w with Some w' => run l' w' | None => None end
  end.

Lemma fillOne_id key ta r e i id x :
  fillOne key ta r e i (Some id) = Ok x -> x = id.
Proof. unfold fillOne. destruct ta; [|discriminate..]. intros. inv_ok. congruence. Qed.

(** A schedule is a sequence of steps. *)
Lemma run1_step a w w' : run1 a w = Some w' -> step w w'.
Proof.
  destruct a as [rev|rev| |tid|tid id|tid|tid]; cbn [run1].
  - intros <-%(inj Some). apply step_reconcile.
  - intros <-%(inj Some). apply step_acquire.
  - destruct (kicks w) as [|k l] eqn:Hk; [discriminate|]. intros <-%(inj Some).
    by apply (step_kick k [] l).
  - destruct (fills w !! tid) as [[key []]|] eqn:Ht; try discriminate. intros <-%(inj Some). by apply step_check.
  - destruct (fills w !! tid) as [[key []]|] eqn:Ht; try discriminate.
    destruct (ledger w !! id) eqn:Hid; [discriminate|].
    destruct (fillOne _ _ _ _ _ _) as [x| |] eqn:Hf; try discriminate. intros <-%(inj Some).
    pose proof (fillOne_id _ _ _ _ _ _ _ Hf) as ->. by eapply step_created.
  - destruct (fills w !! tid) as [[key []]|] eqn:Ht; try discriminate.
    pose proof (step_append tid key id w Ht) as Hs. destruct (fillAppend key id w) as [w1 pc].
    by intros <-%(inj Some).
  - destruct (fills w !! tid) as [[key []]|] eqn:Ht; try discriminate. intros <-%(inj Some). by apply step_exit.
Qed.

Lemma run_reachable l name max w : run l (NewWarmPool name max) = Some w -> reachable name max w.
Proof.
  unfold reachable. generalize (NewWarmPool name max). induction l as [|a l IH]; intros w0; cbn [run].
  - intros [= <-]. apply rtc_refl.
  - destruct (run1 a w0) as [w1|] eqn:Ha; [|discriminate]. intros H.
    eapply rtc_l; [by apply (run1_step a)|by apply IH].
Qed.

Definition lost_refill_schedule : list act :=
  [DoReconcile "r"; DoKick; DoCheck 0; DoCreate 0 0; DoAppend 0; DoCheck 0;
   DoAcquire "r"; DoKick; DoExit 0].

Definition overfill_schedule : list act :=
  [DoReconcile "r"; DoKick; DoCheck 0; DoReconcile "s"; DoReconcile "r"; DoKick; DoCheck 1;
   DoCreate 0 0; DoCreate 1 1; DoAppend 0; DoAppend 1].

(** The state a schedule leads to, as far as the slot of revision "r" goes. *)
Definition outcome_of (l : list act) : option (option warmSlot * nat * nat * bool) :=
  match run l (NewWarmPool "p" 16) with
  | Some w => Some (slots w !! key_rev "r", length (map_to_list (fills w)), length (kicks w), stopped w)
  | None => None
  end.

(** The pool a schedule leads to. *)
Definition after (l : list act) : pool :=
  match run l (NewWarmPool "p" 16) with Some w => w | None => NewWarmPool "p" 16 end.

Lemma after_reachable l : reachable "p" 16 (after l).
Proof.
  unfold after. destruct (run l _) eqn:E; [by eapply run_reachable|apply rtc_refl].
Qed.

(** A request can take the last warm sandbox between a fill loop's last look
    at the slot and its exit; its kick then finds the loop still marked running,
    and the pool is left below target with nothing under way to refill it. *)
Theorem refill_can_be_lost : exists w s,
  reachable "p" 16 w /\ slots w !! key_rev "r" = Some s
  /\ Z.of_nat (length (entries s)) < size (target s)
  /\ stopped w = false /\ filling s = false /\ kicks w = [] /\ map_to_list (fills w) = [].
Proof.
  exists (after lost_refill_schedule), (mkSlot [] (mkTarget 1 600000000000) false).
  split; [apply after_reachable|]. split; [vm_compute; reflexivity|].
  split; [vm_compute; reflexivity|]. split; [vm_compute; reflexivity|].
  split; [reflexivity|]. split; vm_compute; reflexivity.
Qed.

(** A slot that is dropped and recreated while its fill loop is creating a
    sandbox gets a second loop, and the two together fill it beyond its target. *)
Theorem recreated_slot_overfills : exists w s,
  reachable "p" 16 w /\ slots w !! key_rev "r" = Some s
  /\ size (target s) < Z.of_nat (length (entries s)).
Proof.
  exists (after overfill_schedule), (mkSlot [0; 1]%nat (mkTarget 1 600000000000) true).
  split; [apply after_reachable|]. split; vm_compute; reflexivity.
Qed.

(** ** Witnesses *)

Definition warmed : pool :=
  after [DoReconcile "r"; DoKick; DoCheck 0; DoCreate 0 0; DoAppend 0; DoCheck 0; DoExit 0].

Lemma warm_sandbox_lifecycle_witness :
  moves_or_stays (ledger warmed !! 0%nat) (ledger (snd (Acquire (key_rev "r") warmed)) !! 0%nat).
Proof.
  apply (warm_sandbox_lifecycle "p" 16 warmed _ 0).
  - apply after_reachable.
  - apply step_acquire.
Defined.

Lemma Acquire_exclusive_witness :
  fst (Acquire (key_rev "r") warmed) = Some 0%nat
  /\ forall w2, rtc step (snd (Acquire (key_rev "r") warmed)) w2 -> ledger w2 !! 0%nat = Some Acquired.
Proof.
  assert (fst (Acquire (key_rev "r") warmed) = Some 0%nat) as E by (vm_compute; reflexivity).
  split; [exact E|]. intros w2 H.
  destruct (Acquire_exclusive "p" 16 warmed (key_rev "r") 0 (snd (Acquire (key_rev "r") warmed))) as [_ Hx].
  - apply after_reachable.
  - rewrite <- E. apply surjective_pairing.
  - apply (Hx w2 H).
Defined.

Definition drained : pool := deleteWarm 0 DeleteOK (DestroyAll (StopFill warmed)).

Lemma drain_accounts_for_all_witness : Deleted = Acquired \/ Deleted = Deleted
  \/ (Deleted = Undeleted /\ exists w1, reachable "p" 16 w1 /\ ledger w1 !! 0%nat = Some Doomed
       /\ rtc step (deleteWarm 0 DeleteFailed w1) drained).
Proof.
  assert (map_to_list (fills drained) = []) as Hf by (vm_compute; reflexivity).
  assert (map_to_list (ledger drained) = [(0%nat, Deleted)]) as Hl by (vm_compute; reflexivity).
  apply (drain_accounts_for_all "p" 16 (StopFill warmed) drained 0).
  - eapply rtc_r; [apply after_reachable|apply step_stop].
  - reflexivity.
  - eapply rtc_l; [apply (step_teardown 0 DeleteOK (DestroyAll (StopFill warmed))); vm_compute; reflexivity
                 |apply rtc_refl].
  - intros tid k x Hx. apply elem_of_map_to_list in Hx. rewrite Hf in Hx. inversion Hx.
  - intros x Hx. apply elem_of_map_to_list in Hx. rewrite Hl in Hx.
    apply list_elem_of_singleton in Hx. discriminate.
  - vm_compute. reflexivity.
Defined.

End WarmPool.
