(* ===== verification/Dispatcher.v ===== *)
(** * The dispatcher

    [internal/worker/agents/dispatcher.go], [active_counter.go]: the HTTP handler
    that runs one TaskAgent execution, with a semaphore per agent and a counter of
    executions in flight.  Each request is a thread; a step of a thread is one
    access to the shared state (a [sync.Map] operation, a channel send or receive,
    a locked counter update, a queue send) with the code around it.  What the
    outside world answers (API reads, the warm pool, the sandbox runtime, the
    client connection) is the thread's [World], arbitrary per request.  The receives
    at which a request waits for its own agent ([waitOrStop], [drainResponse], the
    deferred one of [stdinErr]) block until the signal they wait for has come in, at
    whatever moment that is; the other calls to the runtime are taken to return. *)

From Stdlib Require Import ZArith Lia Ascii String List.
From stdpp Require Import base strings list gmap fin_maps.
From S2P Require Import Prelude GoStrings GoStd ApiTypes ProxyProto InvEvent CloudEvents Delivery EgressShape.
Import GoStrings GoStd ApiTypes.ApiTypes InvEvent CloudEvents Delivery.

Module Dispatcher.
#[local] Open Scope string_scope.
#[local] Open Scope Z_scope.
#[local] Open Scope list_scope.

Definition hardTimeoutCap : Z := 5 * 60 * 1000000000.
Definition invQueueSize : nat := 2048.
Definition AgentDeliveryStdin : string := "Stdin".
Definition AgentDeliveryMetadata : string := "Metadata".

(** ** The active counter ([active_counter.go]) *)

Abbreviation activeCounter := (gmap NamespacedName Z).

Definition get (key : NamespacedName) (c : activeCounter) : Z := default 0 (c !! key).

Definition inc (key : NamespacedName) (c : activeCounter) : activeCounter :=
  <[key := int32 (get key c + 1)]> c.

Definition dec (key : NamespacedName) (c : activeCounter) : activeCounter :=
  let c := if 0 <? get key c then <[key := int32 (get key c - 1)]> c else c in
  if get key c =? 0 then delete key c else c.

Definition Snapshot (c : activeCounter) : activeCounter := c.

(** ** The outside world of one request *)

Inductive getResult (A : Type) := Found (a : A) | NotFound | GetError.
Arguments Found {A} a.
Arguments NotFound {A}.
Arguments GetError {A}.

(** [EgressBundle] of [egress_resolve.go]; the policy is a handle. *)
Record EgressBundle := mkBundle {
  Backends : list EgressShape.BackendListener;
  Policy : option nat;
  CAPEM : string;
}.

Inductive createResult := Created | StateOverLimit | CreateFailed.

Record World := mkWorld {
  w_taskAgent : NamespacedName -> getResult ServedTaskAgent;
  w_revision : NamespacedName -> getResult string;   (* the revision's name *)
  w_warm : option string;                            (* what the warm pool hands out *)
  w_egress : option EgressBundle;
  w_newSandboxID : option string;
  w_create : createResult;
  w_start : bool;
  w_metaReg : bool;                                  (* whether the registry is wired *)
  w_stopFirst : bool;                                (* what [select] takes when the agent and the context have both ended *)
  w_exitCode : Z;
  w_waitErr : bool;
  w_stdout : list chunk;
  w_writes : bool;                                   (* whether writing the response succeeds *)
  w_mdResponse : option (string * string);           (* what the agent posted: body, type *)
  w_uuid : string;
  w_now : string;
  w_created : Z;
}.

Record Request := mkRequest {
  r_header : CloudEvents.Header;
  r_line : RequestLine;
  r_body : string;
  r_bodyErr : bool;
}.

(** Calls the handler makes, in order. *)
Inductive effect :=
| EWarm (id : string)                       (* taken from the warm pool *)
| EPurge (id : string)
| ECreate (id : string) (identity : ProxyProto.AgentIdentity)
| ESetBackends (id : string) | ESetPolicy (id : string)
| ESetInvocationID (id inv : string)
| EStart (id : string)
| EStdin (id : string) (env : option envelope)
| ERegister (id : string) | EUnregister (id : string)
| EStop (id : string) | EWait (id : string)
| EDelete (id : string)
| EEmit (inv : Invocation)
| EHeader (name value : string)
| EWrite (body : string)                    (* response bytes that reached the wire *)
| EHttpError (code : Z).

(** [reqCtx]; the context is its timeout. *)
Record reqCtx := mkReqCtx {
  rc_key : NamespacedName;
  rc_ta : ServedTaskAgent;
  rc_rev : string;
  rc_identity : ProxyProto.AgentIdentity;
  rc_invocationID : string;
  rc_timeout : Z;
  rc_trigger : InvocationTriggerType;
  rc_created : Z;
}.

Record deliveryState := mkDelivery {
  ds_mode : string;
  ds_wrapResponse : bool;
  ds_ceID : string;
}.

(** ** acceptRequest *)

(** What [acceptRequest] knows when it turns to the semaphore. *)
Record acceptance := mkAdmit { ad_key : NamespacedName; ad_ta : ServedTaskAgent; ad_cap : Z }.

(** Up to [acquire]; [draining] is the flag as loaded. *)
Definition acceptHead (draining : bool) (r : Request) (w : World) : acceptance + Z :=
  let hdr := HTTPHeader_Get (r_header r) HeaderTaskAgent in
  if String.eqb hdr "" then inr 400
  else if draining then inr 503
  else
    let '(ns, name, ok) := Cut hdr "/"%char in
    if negb ok || String.eqb ns "" || String.eqb name "" then inr 400
    else
      let key := mkNN ns name in
      match w_taskAgent w key with
      | NotFound => inr 404
      | GetError => inr 500
      | Found ta =>
          if String.eqb (LatestReadyRevisionName ta) "" then inr 503
          else inl (mkAdmit key ta (default 0 (ta_MaxConcurrent (ta_Spec (st_Agent ta)))))
      end.

Definition resolveInvocationID (uuid : string) (h : CloudEvents.Header) : string :=
  let v := HTTPHeader_Get h HeaderInvocationID in
  if negb (String.eqb v "") then v else ResolveID uuid (HTTPHeader_Get h).

Definition triggerTypeFromHeader (v : string) : InvocationTriggerType := TriggerTypeFromHeaderValue v.

Definition newAgentIdentity (ns name uid revName : string) : ProxyProto.AgentIdentity :=
  ProxyProto.mkIdentity ProxyProto.AgentKindTask ns name uid revName "" "".

Definition executionTimeout (spec : option Z) : Z :=
  match spec with
  | Some d => if (0 <? d) && (d <? hardTimeoutCap) then d else hardTimeoutCap
  | None => hardTimeoutCap
  end.

(** After the counter was incremented: the revision, or the error status. *)
Definition acceptTail (a : acceptance) (r : Request) (w : World) : reqCtx + Z :=
  let ns := nn_namespace (ad_key a) in
  match w_revision w (mkNN ns (LatestReadyRevisionName (ad_ta a))) with
  | NotFound => inr 503
  | GetError => inr 500
  | Found rev =>
      let id := resolveInvocationID (w_uuid w) (r_header r) in
      let ident := newAgentIdentity ns (nn_name (ad_key a)) (st_UID (ad_ta a)) rev in
      inl (mkReqCtx (ad_key a) (ad_ta a) rev
             (ProxyProto.mkIdentity (ProxyProto.Kind ident) (ProxyProto.Namespace ident)
                (ProxyProto.Name ident) (ProxyProto.UID ident) (ProxyProto.Revision ident) id
                (ProxyProto.SandboxID ident))
             id (executionTimeout (ta_Timeout (ta_Spec (st_Agent (ad_ta a)))))
             (triggerTypeFromHeader (HTTPHeader_Get (r_header r) HeaderTrigger)) (w_created w))
  end.

(** ** The sandbox *)

Definition acquireSandbox (rc : reqCtx) (w : World) : option (string * EgressBundle) * list effect :=
  match w_warm w with
  | Some id =>
      match w_egress w with
      | Some b => (Some (id, b), [EWarm id])
      | None => (None, [EWarm id; EDelete id; EHttpError 503])
      end
  | None =>
      match w_egress w with
      | None => (None, [EHttpError 503])
      | Some b =>
          match w_newSandboxID w with
          | None => (None, [EHttpError 500])
          | Some id =>
              match w_create w with
              | Created => (Some (id, b), [EPurge id; ECreate id (rc_identity rc)])
              | StateOverLimit => (None, [EPurge id; EHttpError 507])
              | CreateFailed => (None, [EPurge id; EHttpError 500])
              end
          end
      end
  end.

(** Errors of these calls are only logged. *)
Definition applyEgressAndInvocation (rc : reqCtx) (id : string) (b : EgressBundle) : list effect :=
  (if (0 <? Z.of_nat (length (Backends b))) then [ESetBackends id] else [])
  ++ (match Policy b with Some _ => [ESetPolicy id] | None => [] end)
  ++ [ESetInvocationID id (rc_invocationID rc)].

Section Json.
Context (json_valid : string -> bool).

Definition startAndSetupDelivery (r : Request) (rc : reqCtx) (w : World) (id : string)
    : option deliveryState * list effect :=
  let mode := match ta_Delivery (ta_Spec (st_Agent (rc_ta rc))) with
              | Some d => if String.eqb (ad_Mode d) "" then AgentDeliveryStdin else ad_Mode d
              | None => AgentDeliveryStdin end in
  let ceAttrs := AttrsFromRequest (w_uuid w) (w_now w) (r_line r) (r_header r) (Some (rc_ta rc)) in
  let ds := mkDelivery mode (EqualFold (HTTPHeader_Get (r_header r) "accept") MediaType)
              (default "" (ceAttrs !! AttrID)) in
  match readBodyBounded (r_body r) (r_bodyErr r) requestBodyLimit with
  | Ok body =>
      if negb (w_start w) then (None, [EStart id; EHttpError 500])
      else if String.eqb mode AgentDeliveryMetadata then
        if negb (w_metaReg w) then (None, [EStart id; EHttpError 500])
        else (Some ds, [EStart id; ERegister id])
      else
        let env := buildCEEnvelope json_valid ceAttrs (HTTPHeader_Get (r_header r) "content-type") body in
        (Some ds, [EStart id; EStdin id env])
  | _ => (None, [EHttpError 400])
  end.

(** ** The response *)

(** The body of a written envelope is represented by whether it is there: the
    empty string when marshalling failed. *)
Definition envelopeBody (env : option envelope) : string :=
  match env with Some _ => "{...}" | None => "" end.

Definition writeBody (w : World) (body : string) : bool * list effect :=
  if w_writes w then (true, [EWrite body]) else (false, []).

Definition respond (rc : reqCtx) (ds : deliveryState) (w : World) : bool * list effect :=
  if String.eqb (ds_mode ds) AgentDeliveryStdin then
    if negb (ds_wrapResponse ds) then
      let '(wrote, out) := streamWithFlush (w_stdout w) false in
      (wrote, if wrote then [EWrite out] else [])
    else
      writeBody w (envelopeBody (buildCEResponseEnvelope json_valid (w_now w) (ds_ceID ds)
        "application/octet-stream" (String.concat "" (List.map ch_data (w_stdout w)))))
  else if String.eqb (ds_mode ds) AgentDeliveryMetadata then
    match w_mdResponse w with
    | None => (false, [])
    | Some (body, ct) =>
        let ct := if String.eqb ct "" then "application/octet-stream" else ct in
        if ds_wrapResponse ds
        then writeBody w (envelopeBody (buildCEResponseEnvelope json_valid (w_now w) (ds_ceID ds) ct body))
        else writeBody w body
    end
  else (false, []).

(** How a context ended. *)
Inductive ctxErr := DeadlineExceeded | Canceled.

#[export] Instance ctxErr_dec : EqDecision ctxErr.
Proof. solve_decision. Defined.

(** [rc.ctx.Err() == context.DeadlineExceeded] *)
Definition expired (e : option ctxErr) : bool := bool_decide (e = Some DeadlineExceeded).

(** [ctx] is the error of the context while the answer is chosen. *)
Definition drainResponse (rc : reqCtx) (ds : deliveryState) (w : World) (ctx : option ctxErr) : bool * list effect :=
  let '(wrote, eff) := respond rc ds w in
  let err code := if wrote then [] else [EHttpError code] in
  let tail :=
    if expired ctx then err 504
    else if w_waitErr w then err 500
    else if negb (w_exitCode w =? 0) then
      EHeader HeaderExitCode (pretty.pretty (w_exitCode w)) :: err 500
    else if String.eqb (ds_mode ds) AgentDeliveryMetadata && negb wrote then [EHttpError 502]
    else [] in
  (wrote, eff ++ tail).

End Json.

Definition terminalPhase (w : World) (ctx : option ctxErr) (delivered : bool) : InvocationPhase :=
  if expired ctx then PhaseTimeout
  else if w_waitErr w then (if delivered then PhaseSucceeded else PhaseFailed)
  else if negb (w_exitCode w =? 0) then PhaseFailed
  else PhaseSucceeded.

(** The snapshot [emitInvocation] enqueues. *)
Definition invocationOf (rc : reqCtx) (phase : InvocationPhase) : Invocation :=
  mkInvocation (rc_invocationID rc) (nn_namespace (rc_key rc)) (rc_created rc)
    InvocationParentTaskAgent (nn_name (rc_key rc)) (rc_trigger rc) phase.

(** ** What a running request waits for

    Signals from outside the dispatcher: the context ends (once, by its deadline or by
    the client), [mgr.Wait] returns, the goroutine that reads the agent's output ends,
    the goroutine that writes its input ends. *)
Record signals := mkSignals {
  sg_ctx : option ctxErr;
  sg_exited : bool;
  sg_output : bool;                         (* [respCh], [stdoutBufErr] *)
  sg_stdin : bool;                          (* [stdinErr] *)
}.

Definition silent : signals := mkSignals None false false false.

Inductive signal := CtxDone (e : ctxErr) | Exited | OutputEnded | StdinEnded.

Definition raise (x : signal) (g : signals) : signals :=
  match x with
  | CtxDone e => mkSignals (Some (default e (sg_ctx g))) (sg_exited g) (sg_output g) (sg_stdin g)
  | Exited => mkSignals (sg_ctx g) true (sg_output g) (sg_stdin g)
  | OutputEnded => mkSignals (sg_ctx g) (sg_exited g) true (sg_stdin g)
  | StdinEnded => mkSignals (sg_ctx g) (sg_exited g) (sg_output g) true
  end.

(** Where a running request is: at the [select] of [waitOrStop], behind [mgr.Stop], at
    the receive of [drainResponse], before [terminalPhase], in the deferred calls. *)
Inductive stage :=
| Waiting
| Stopping
| Draining
| Classifying (delivered : bool)
| Unwinding (terminal : InvocationPhase).

(** The receive that blocks. *)
Definition awaits (ds : deliveryState) (g : signals) (st : stage) : bool :=
  match st with
  | Waiting => negb (sg_exited g) && negb (bool_decide (is_Some (sg_ctx g)))
  | Stopping => negb (sg_exited g)
  | Draining => String.eqb (ds_mode ds) AgentDeliveryStdin && negb (sg_output g)
  | Classifying _ => false
  | Unwinding _ => negb (String.eqb (ds_mode ds) AgentDeliveryMetadata) && negb (sg_stdin g)
  end.

(** [waitOrStop]: the select, then the receive behind [mgr.Stop]. *)
Definition waitOrStop (w : World) (g : signals) (id : string) : stage * list effect :=
  if bool_decide (is_Some (sg_ctx g)) && (negb (sg_exited g) || w_stopFirst w)
  then (Stopping, [EStop id]) else (Draining, [EWait id]).

(** ** The shared state and the threads *)

(** A semaphore: the capacity and the tokens in its channel. *)
Record sema := mkSema { s_cap : Z; s_tokens : Z }.

(** Where a request is.  [rel] is the channel its release function receives from,
    [None] for the no-op of an unlimited agent. *)
Inductive pc :=
| PAccept
| PLoad (a : acceptance)
| PLoadOrStore (a : acceptance)
| PCheck (a : acceptance) (p : nat)              (* holds the loaded pointer *)
| PSend (a : acceptance) (p : nat)
| PInc (a : acceptance) (rel : option nat)
| PRevision (a : acceptance) (rel : option nat)
| PUndoRelease (a : acceptance) (rel : option nat) (code : Z)
| PUndoDec (a : acceptance) (code : Z)
| PServe (rc : reqCtx) (rel : option nat)
| PRunning (rc : reqCtx) (rel : option nat) (id : string) (ds : deliveryState) (st : stage)
| PEmit (rc : reqCtx) (rel : option nat) (terminal : InvocationPhase)
| PDec (rc : reqCtx) (rel : option nat)
| PRelease (rel : option nat)
| PDone.

Record thread := mkThread { t_req : Request; t_world : World; t_sig : signals; t_pc : pc; t_trace : list effect }.

Record state := mkState {
  heap : gmap nat sema;
  semaphores : gmap NamespacedName nat;
  active : activeCounter;
  draining : bool;
  threads : gmap nat thread;
  outbox : list Invocation;
  publishing : bool;                        (* [invPub != nil] *)
}.

Definition setThread (tid : nat) (th : thread) (pc' : pc) (eff : list effect) (s : state) : state :=
  mkState (heap s) (semaphores s) (active s) (draining s)
    (<[tid := mkThread (t_req th) (t_world th) (t_sig th) pc' (t_trace th ++ eff)]> (threads s))
    (outbox s) (publishing s).

Definition setHeap (h : gmap nat sema) (s : state) : state :=
  mkState h (semaphores s) (active s) (draining s) (threads s) (outbox s) (publishing s).

Definition setSemaphore (key : NamespacedName) (p : nat) (cap : Z) (s : state) : state :=
  mkState (<[p := mkSema cap 0]> (heap s)) (<[key := p]> (semaphores s)) (active s) (draining s)
    (threads s) (outbox s) (publishing s).

Definition setActive (c : activeCounter) (s : state) : state :=
  mkState (heap s) (semaphores s) c (draining s) (threads s) (outbox s) (publishing s).

(** A pointer no semaphore has: a freshly allocated [&sema{}]. *)
Definition freshSema (s : state) : nat := fresh (dom (heap s) : gset nat).

(** [emitInvocation]: dropped when there is no publisher or the queue is full. *)
Definition emitInvocation (inv : Invocation) (s : state) : state :=
  if publishing s && (length (outbox s) <? invQueueSize)%nat
  then mkState (heap s) (semaphores s) (active s) (draining s) (threads s) (outbox s ++ [inv]) (publishing s)
  else s.

(** [<-s.ch]: [None] when it would block. *)
Definition release (rel : option nat) (s : state) : option state :=
  match rel with
  | None => Some s
  | Some p =>
      match heap s !! p with
      | Some sm => if 0 <? s_tokens sm
                   then Some (setHeap (<[p := mkSema (s_cap sm) (s_tokens sm - 1)]> (heap s)) s) else None
      | None => None
      end
  end.

Section Step.
Context (json_valid : string -> bool).

(** One pass of the loop of [acquire] up to the next shared access. *)
Definition acquireStep (tid : nat) (th : thread) (s : state) : option state :=
  match t_pc th with
  | PLoad a =>
      match semaphores s !! ad_key a with
      | Some p => Some (setThread tid th (PCheck a p) [] s)
      | None => Some (setThread tid th (PLoadOrStore a) [] s)
      end
  | PLoadOrStore a =>
      match semaphores s !! ad_key a with
      | Some p => Some (setThread tid th (PCheck a p) [] s)
      | None => let p := freshSema s in
                Some (setThread tid th (PCheck a p) [] (setSemaphore (ad_key a) p (ad_cap a) s))
      end
  | PCheck a p =>
      match heap s !! p with
      | None => None
      | Some sm =>
          if s_cap sm =? ad_cap a then Some (setThread tid th (PSend a p) [] s)
          else if bool_decide (semaphores s !! ad_key a = Some p)
          then let q := freshSema s in
               Some (setThread tid th (PSend a q) [] (setSemaphore (ad_key a) q (ad_cap a) s))
          else Some (setThread tid th (PLoad a) [] s)
      end
  | PSend a p =>
      match heap s !! p with
      | None => None
      | Some sm =>
          if s_tokens sm <? s_cap sm
          then Some (setThread tid th (PInc a (Some p)) []
                 (setHeap (<[p := mkSema (s_cap sm) (s_tokens sm + 1)]> (heap s)) s))
          else Some (setThread tid th PDone [EHttpError 429] s)
      end
  | _ => None
  end.

(** [ServeHTTP] while the agent runs; [None] when it is blocked.  The deferred calls
    run in the order: the receive of [stdinErr] or [mdUnregister], the deletion. *)
Definition runningStep (w : World) (g : signals) (rc : reqCtx) (rel : option nat) (id : string) (ds : deliveryState)
    (st : stage) : option (pc * list effect) :=
  if awaits ds g st then None
  else
    match st with
    | Waiting => let '(st, eff) := waitOrStop w g id in Some (PRunning rc rel id ds st, eff)
    | Stopping => Some (PRunning rc rel id ds Draining, [EWait id])
    | Draining => let '(delivered, eff) := drainResponse json_valid rc ds w (sg_ctx g) in
                  Some (PRunning rc rel id ds (Classifying delivered), eff)
    | Classifying delivered => Some (PRunning rc rel id ds (Unwinding (terminalPhase w (sg_ctx g) delivered)), [])
    | Unwinding terminal =>
        Some (PEmit rc rel terminal,
              (if String.eqb (ds_mode ds) AgentDeliveryMetadata then [EUnregister id] else []) ++ [EDelete id])
    end.

(** One step of [ServeHTTP] by a request. *)
Definition step (s : state) (tid : nat) : option state :=
  match threads s !! tid with
  | None => None
  | Some th =>
      let w := t_world th in
      match t_pc th with
      | PAccept =>
          match acceptHead (draining s) (t_req th) w with
          | inr code => Some (setThread tid th PDone [EHttpError code] s)
          | inl a => if ad_cap a <=? 0 then Some (setThread tid th (PInc a None) [] s)
                     else Some (setThread tid th (PLoad a) [] s)
          end
      | PLoad _ | PLoadOrStore _ | PCheck _ _ | PSend _ _ => acquireStep tid th s
      | PInc a rel =>
          Some (setThread tid th (PRevision a rel) [] (setActive (inc (ad_key a) (active s)) s))
      | PRevision a rel =>
          match acceptTail a (t_req th) w with
          | inr code => Some (setThread tid th (PUndoRelease a rel code) [] s)
          | inl rc => Some (setThread tid th (PServe rc rel) [] s)
          end
      | PUndoRelease a rel code =>
          match release rel s with
          | Some s' => Some (setThread tid th (PUndoDec a code) [] s')
          | None => None
          end
      | PUndoDec a code =>
          Some (setThread tid th PDone [EHttpError code] (setActive (dec (ad_key a) (active s)) s))
      | PServe rc rel =>
          match acquireSandbox rc w with
          | (None, eff) => Some (setThread tid th (PEmit rc rel PhaseFailed) eff s)
          | (Some (id, b), eff) =>
              let eff := eff ++ applyEgressAndInvocation rc id b in
              match startAndSetupDelivery json_valid (t_req th) rc w id with
              | (None, eff') =>
                  Some (setThread tid th (PEmit rc rel PhaseFailed) (eff ++ eff' ++ [EDelete id]) s)
              | (Some ds, eff') =>
                  let inv := invocationOf rc PhaseRunning in
                  Some (setThread tid th (PRunning rc rel id ds Waiting) (eff ++ eff' ++ [EEmit inv])
                         (emitInvocation inv s))
              end
          end
      | PRunning rc rel id ds st =>
          match runningStep w (t_sig th) rc rel id ds st with
          | Some (pc', eff) => Some (setThread tid th pc' eff s)
          | None => None
          end
      | PEmit rc rel terminal =>
          let inv := invocationOf rc terminal in
          Some (setThread tid th (PDec rc rel) [EEmit inv] (emitInvocation inv s))
      | PDec rc rel =>
          Some (setThread tid th (PRelease rel) [] (setActive (dec (rc_key rc) (active s)) s))
      | PRelease rel =>
          match release rel s with
          | Some s' => Some (setThread tid th PDone [] s')
          | None => None
          end
      | PDone => None
      end
  end.

(** What happens around the requests: one arrives, a signal for one comes in, the
    publisher takes an event from the queue, [Drain] is called. *)
Inductive around : state -> state -> Prop :=
| ar_arrive s tid r w :
    threads s !! tid = None ->
    around s (mkState (heap s) (semaphores s) (active s) (draining s)
               (<[tid := mkThread r w silent PAccept []]> (threads s)) (outbox s) (publishing s))
| ar_signal s tid th x :
    threads s !! tid = Some th ->
    around s (mkState (heap s) (semaphores s) (active s) (draining s)
               (<[tid := mkThread (t_req th) (t_world th) (raise x (t_sig th)) (t_pc th) (t_trace th)]> (threads s))
               (outbox s) (publishing s))
| ar_publish s inv rest : outbox s = inv :: rest ->
    around s (mkState (heap s) (semaphores s) (active s) (draining s) (threads s) rest (publishing s))
| ar_drain s :
    around s (mkState (heap s) (semaphores s) (active s) true (threads s) (outbox s) (publishing s)).

(** A step of the dispatcher: of a request, or around them. *)
Inductive sstep : state -> state -> Prop :=
| ss_step s tid s' : step s tid = Some s' -> sstep s s'
| ss_around s s' : around s s' -> sstep s s'.

Definition NewDispatcher (publishing : bool) : state := mkState ∅ ∅ ∅ false ∅ [] publishing.

Inductive reachable (pub : bool) : state -> Prop :=
| reach_init : reachable pub (NewDispatcher pub)
| reach_step s s' : reachable pub s -> sstep s s' -> reachable pub s'.

(** ** Counting threads *)

Definition cntm (P : pc -> bool) (m : gmap nat thread) : Z :=
  map_fold (fun _ th n => Z.b2z (P (t_pc th)) + n) 0 m.
Definition cnt (P : pc -> bool) (s : state) : Z := cntm P (threads s).

Lemma cntm_fresh P m i th : m !! i = None -> cntm P (<[i := th]> m) = Z.b2z (P (t_pc th)) + cntm P m.
Proof. intros H. unfold cntm. apply (map_fold_insert_L (fun _ th n => Z.b2z (P (t_pc th)) + n) 0 i th m); [intros; lia|done].
Qed.

Lemma cntm_take P m i th : m !! i = Some th -> cntm P m = Z.b2z (P (t_pc th)) + cntm P (delete i m).
Proof. intros H. unfold cntm. apply (map_fold_delete_L (fun _ th n => Z.b2z (P (t_pc th)) + n) 0 i th m); [intros; lia|done].
Qed.

Lemma cntm_update P m i th th' : m !! i = Some th ->
  cntm P (<[i := th']> m) = cntm P m - Z.b2z (P (t_pc th)) + Z.b2z (P (t_pc th')).
Proof.
  intros H. rewrite <- insert_delete_eq, cntm_fresh by apply lookup_delete_eq.
  rewrite (cntm_take P m i th H). lia.
Qed.

Lemma cntm_bounds P m : 0 <= cntm P m <= Z.of_nat (size m).
Proof.
  induction m as [|i th m Hm IH] using map_ind; [done|].
  rewrite cntm_fresh, map_size_insert_None by done. destruct (P (t_pc th)); cbn; lia.
Qed.

Lemma cntm_pos P m i th : m !! i = Some th -> P (t_pc th) = true -> 1 <= cntm P m.
Proof.
  intros H HP. rewrite (cntm_take P m i th H), HP. pose proof (cntm_bounds P (delete i m)). cbn. lia.
Qed.

Lemma cntm_below P m i th : m !! i = Some th -> P (t_pc th) = false -> cntm P m < Z.of_nat (size m).
Proof.
  intros H HP. rewrite (cntm_take P m i th H), HP. pose proof (cntm_bounds P (delete i m)).
  rewrite <- (insert_delete_id m i th H) at 2. rewrite map_size_insert_None by apply lookup_delete_eq.
  cbn. lia.
Qed.

Lemma cntm_mono (P Q : pc -> bool) m :
  (forall i th, m !! i = Some th -> P (t_pc th) = true -> Q (t_pc th) = true) -> cntm P m <= cntm Q m.
Proof.
  induction m as [|i th m Hm IH] using map_ind; intros H; [done|].
  rewrite !cntm_fresh by done.
  assert (cntm P m <= cntm Q m).
  { apply IH. intros j th' Hj. apply (H j). rewrite lookup_insert_ne; [done|]. congruence. }
  specialize (H i th (lookup_insert_eq _ _ _)). destruct (P (t_pc th)); [rewrite H by done; lia|].
  destruct (Q (t_pc th)); cbn; lia.
Qed.

Lemma cntm_false m : cntm (fun _ => false) m = 0.
Proof. induction m using map_ind; [done|]. by rewrite cntm_fresh. Qed.

(** ** The invariant *)

(** The channel a thread will receive from when it releases. *)
Definition rel_of (p : pc) : option nat :=
  match p with
  | PInc _ rel | PRevision _ rel | PUndoRelease _ rel _ | PServe _ rel
  | PRunning _ rel _ _ _ | PEmit _ rel _ | PDec _ rel | PRelease rel => rel
  | _ => None
  end.

(** The agent a thread is counted under. *)
Definition counted_of (p : pc) : option NamespacedName :=
  match p with
  | PRevision a _ | PUndoRelease a _ _ | PUndoDec a _ => Some (ad_key a)
  | PServe rc _ | PRunning rc _ _ _ _ | PEmit rc _ _ | PDec rc _ => Some (rc_key rc)
  | _ => None
  end.

Definition holds (p : nat) (c : pc) : bool := bool_decide (rel_of c = Some p).
Definition counted (k : NamespacedName) (c : pc) : bool := bool_decide (counted_of c = Some k).

(** The semaphores a thread has a pointer to. *)
Definition refers (c : pc) (p : nat) : Prop :=
  match c with PCheck _ q | PSend _ q => q = p | _ => rel_of c = Some p end.

Definition enc (n : Z) : option Z := if n =? 0 then None else Some n.

Record Inv (s : state) : Prop := {
  inv_tokens : forall p sm, heap s !! p = Some sm ->
    s_tokens sm = cnt (holds p) s /\ s_tokens sm <= s_cap sm;
  inv_refs : forall tid th p, threads s !! tid = Some th -> refers (t_pc th) p -> is_Some (heap s !! p);
  inv_sems : forall k p, semaphores s !! k = Some p -> is_Some (heap s !! p);
  inv_active : forall k, active s !! k = enc (cnt (counted k) s);
  inv_caps : forall tid th a, threads s !! tid = Some th ->
    t_pc th = PLoadOrStore a \/ (exists p, t_pc th = PCheck a p) \/ t_pc th = PLoad a -> 0 < ad_cap a;
}.

Lemma inv_move s s2 tid th pc' eff :
  Inv s -> threads s !! tid = Some th -> threads s2 = threads s ->
  (forall p sm, heap s2 !! p = Some sm ->
     s_tokens sm = cnt (holds p) s - Z.b2z (holds p (t_pc th)) + Z.b2z (holds p pc')
     /\ s_tokens sm <= s_cap sm) ->
  (forall p, is_Some (heap s !! p) -> is_Some (heap s2 !! p)) ->
  (forall p, refers pc' p -> is_Some (heap s2 !! p)) ->
  (forall k p, semaphores s2 !! k = Some p -> is_Some (heap s2 !! p)) ->
  (forall k, active s2 !! k
     = enc (cnt (counted k) s - Z.b2z (counted k (t_pc th)) + Z.b2z (counted k pc'))) ->
  (forall a, pc' = PLoadOrStore a \/ (exists p, pc' = PCheck a p) \/ pc' = PLoad a -> 0 < ad_cap a) ->
  Inv (setThread tid th pc' eff s2).
Proof.
  intros HI Hth Ht Htok Hheap Hrefs Hsem Hact Hcap.
  assert (Hcnt : forall P, cnt P (setThread tid th pc' eff s2)
    = cnt P s - Z.b2z (P (t_pc th)) + Z.b2z (P pc')).
  { intros P. unfold cnt, setThread. cbn. rewrite Ht. by apply cntm_update. }
  split; cbn [setThread heap semaphores active threads].
  - intros p sm Hp. rewrite Hcnt. by apply Htok.
  - intros i th' p. rewrite Ht, lookup_insert_Some. intros [[<- <-]|[_ Hi]]; cbn; [apply Hrefs|].
    intros Hr. by eapply Hheap, (inv_refs s HI).
  - done.
  - intros k. rewrite Hcnt. apply Hact.
  - intros i th' a. rewrite Ht, lookup_insert_Some. intros [[<- <-]|[_ Hi]]; cbn; [apply Hcap|].
    by apply (inv_caps s HI i).
Qed.

Lemma holds_eq p c c' : rel_of c = rel_of c' -> holds p c = holds p c'.
Proof. unfold holds. by intros ->. Qed.

Lemma counted_eq k c c' : counted_of c = counted_of c' -> counted k c = counted k c'.
Proof. unfold counted. by intros ->. Qed.

Lemma holds_some p q c : rel_of c = Some q -> holds p c = bool_decide (q = p).
Proof. unfold holds. intros ->. apply bool_decide_ext. split; congruence. Qed.

Lemma holds_none p c : rel_of c = None -> holds p c = false.
Proof. unfold holds. intros ->. by apply bool_decide_eq_false_2. Qed.

Lemma counted_some j k c : counted_of c = Some k -> counted j c = bool_decide (k = j).
Proof. unfold counted. intros ->. apply bool_decide_ext. split; congruence. Qed.

Lemma counted_none j c : counted_of c = None -> counted j c = false.
Proof. unfold counted. intros ->. by apply bool_decide_eq_false_2. Qed.

(** No thread holds a semaphore that does not exist. *)
Lemma holders_none s p : Inv s -> heap s !! p = None -> cnt (holds p) s = 0.
Proof.
  intros HI Hp. assert (H : cntm (holds p) (threads s) <= cntm (fun _ => false) (threads s)).
  { apply cntm_mono. intros i th Hi HP. apply bool_decide_eq_true in HP.
    destruct (inv_refs s HI i th p Hi) as [? ?]; [|congruence]. by destruct (t_pc th). }
  rewrite cntm_false in H. pose proof (cntm_bounds (holds p) (threads s)). unfold cnt. lia.
Qed.

(** A step that moves a thread without changing what it holds, is counted under
    or points to. *)
Lemma inv_neutral s s2 tid th pc' eff :
  Inv s -> threads s !! tid = Some th -> threads s2 = threads s ->
  heap s2 = heap s -> semaphores s2 = semaphores s -> active s2 = active s ->
  rel_of pc' = rel_of (t_pc th) -> counted_of pc' = counted_of (t_pc th) ->
  (forall p, refers pc' p -> is_Some (heap s !! p)) ->
  (forall a, pc' = PLoadOrStore a \/ (exists p, pc' = PCheck a p) \/ pc' = PLoad a -> 0 < ad_cap a) ->
  Inv (setThread tid th pc' eff s2).
Proof.
  intros HI Hth Ht Hh Hs Ha Hr Hc Hrefs Hcap.
  apply (inv_move s s2); try done; rewrite ?Hh, ?Hs, ?Ha; try done.
  - intros p sm Hp. destruct (inv_tokens s HI p sm Hp) as [-> Hle]. rewrite (holds_eq _ _ _ Hr). lia.
  - apply (inv_sems s HI).
  - intros k. rewrite (inv_active s HI k), (counted_eq _ _ _ Hc). f_equal. lia.
Qed.

(** A fresh semaphore is published, the thread that made it points to it. *)
Lemma inv_fresh s tid th a pc' eff :
  Inv s -> threads s !! tid = Some th -> 0 < ad_cap a ->
  rel_of (t_pc th) = None -> counted_of (t_pc th) = None ->
  pc' = PCheck a (freshSema s) \/ pc' = PSend a (freshSema s) ->
  Inv (setThread tid th pc' eff (setSemaphore (ad_key a) (freshSema s) (ad_cap a) s)).
Proof.
  intros HI Hth Hcap Hr Hc Hpc.
  assert (Hfr : heap s !! freshSema s = None).
  { apply (not_elem_of_dom (D := gset nat)). unfold freshSema. apply is_fresh. }
  assert (Hrel : rel_of pc' = None /\ counted_of pc' = None) by (by destruct Hpc; subst).
  destruct Hrel as [Hr' Hc'].
  assert (Hkeep : forall p, is_Some (heap s !! p) ->
    is_Some (<[freshSema s := mkSema (ad_cap a) 0]> (heap s) !! p)).
  { intros p [sm Hp]. rewrite lookup_insert_ne; [eauto|]. intros <-. congruence. }
  apply (inv_move s); cbn; try done.
  - intros p sm. rewrite (holds_eq p pc' (t_pc th)), lookup_insert_Some by congruence.
    intros [[<- <-]|[_ Hp]]; cbn; [rewrite (holders_none s _ HI Hfr); lia|].
    destruct (inv_tokens s HI p sm Hp) as [-> ?]. lia.
  - intros p Hp. destruct Hpc; subst; cbn in Hp; subst; rewrite lookup_insert_eq; eauto.
  - intros k p. rewrite lookup_insert_Some. intros [[_ <-]|[_ Hk]]; [rewrite lookup_insert_eq; eauto|].
    by eapply Hkeep, (inv_sems s HI).
  - intros k. rewrite (inv_active s HI k), (counted_eq k pc' (t_pc th)) by congruence. f_equal. lia.
  - intros a' Ha'. destruct Hpc; subst; destruct Ha' as [?|[[? ?]|?]]; congruence.
Qed.

(** A token is sent. *)
Lemma inv_send s tid th a p sm :
  Inv s -> threads s !! tid = Some th -> t_pc th = PSend a p -> heap s !! p = Some sm ->
  s_tokens sm < s_cap sm ->
  Inv (setThread tid th (PInc a (Some p)) []
         (setHeap (<[p := mkSema (s_cap sm) (s_tokens sm + 1)]> (heap s)) s)).
Proof.
  intros HI Hth Hpc Hp Hlt. destruct (inv_tokens s HI p sm Hp) as [Htok _].
  apply (inv_move s); cbn; try done; rewrite ?Hpc.
  - intros q sm'. rewrite lookup_insert_Some. intros [[<- <-]|[Hne Hq]].
    + rewrite (holds_none p (PSend a p)), (holds_some p p (PInc a (Some p))), bool_decide_eq_true_2 by done.
      cbn. lia.
    + rewrite (holds_none q (PSend a p)), (holds_some q p (PInc a (Some p))), bool_decide_eq_false_2 by done.
      destruct (inv_tokens s HI q sm' Hq) as [-> ?]. cbn. lia.
  - intros q [sm' Hq]. destruct (decide (p = q)) as [->|]; [rewrite lookup_insert_eq; eauto|].
    rewrite lookup_insert_ne; eauto.
  - intros q [= ->]. rewrite lookup_insert_eq. eauto.
  - intros k q Hk. destruct (decide (p = q)) as [->|]; [rewrite lookup_insert_eq; eauto|].
    rewrite lookup_insert_ne by done. by apply (inv_sems s HI k).
  - intros k. rewrite (inv_active s HI k), (counted_eq k (PInc a (Some p)) (PSend a p)) by done. f_equal. lia.
  - intros a' [?|[[? ?]|?]]; discriminate.
Qed.

Definition recv (p : nat) (sm : sema) (s : state) : state :=
  setHeap (<[p := mkSema (s_cap sm) (s_tokens sm - 1)]> (heap s)) s.

(** A release never blocks, and takes the thread's own token back. *)
Lemma inv_release s tid th rel pc' eff :
  Inv s -> threads s !! tid = Some th -> rel_of (t_pc th) = rel -> rel_of pc' = None ->
  counted_of pc' = counted_of (t_pc th) ->
  pc' = PDone \/ (exists a c, pc' = PUndoDec a c) ->
  exists s', release rel s = Some s' /\ Inv (setThread tid th pc' eff s').
Proof.
  intros HI Hth Hr Hr' Hc Hpc.
  assert (Hnr : forall q, ~ refers pc' q) by (intros q; destruct Hpc as [->|(? & ? & ->)]; done).
  assert (Hnc : forall a, ~ (pc' = PLoadOrStore a \/ (exists p, pc' = PCheck a p) \/ pc' = PLoad a)).
  { intros a [?|[[? ?]|?]]; destruct Hpc as [?|(? & ? & ?)]; congruence. }
  destruct rel as [p|]; cbn [release].
  2: { exists s. split; [done|]. 
    apply (inv_neutral s); try done; [congruence|intros q Hq; by apply Hnr in Hq|intros a Ha; by apply Hnc in Ha]. }
  destruct (inv_refs s HI tid th p Hth) as [sm Hp]; [by destruct (t_pc th)|].
  destruct (inv_tokens s HI p sm Hp) as [Htok Hle].
  assert (1 <= s_tokens sm).
  { rewrite Htok. eapply cntm_pos; [exact Hth|]. by rewrite (holds_some p p), bool_decide_eq_true_2. }
  rewrite Hp, (proj2 (Z.ltb_lt 0 (s_tokens sm))) by lia. eexists; split; [done|].
  apply (inv_move s); cbn; try done.
  - intros q sm'. rewrite (holds_none q pc'), (holds_some q p (t_pc th)), lookup_insert_Some by done.
    intros [[<- <-]|[Hne Hq]]; cbn.
    + rewrite bool_decide_eq_true_2 by done. cbn. lia.
    + rewrite bool_decide_eq_false_2 by done. destruct (inv_tokens s HI q sm' Hq) as [-> ?]. cbn. lia.
  - intros q [sm' Hq]. destruct (decide (p = q)) as [->|]; [rewrite lookup_insert_eq|rewrite lookup_insert_ne]; eauto.
  - intros q Hq. by apply Hnr in Hq.
  - intros k q Hk. destruct (decide (p = q)) as [->|]; [rewrite lookup_insert_eq; eauto|].
    rewrite lookup_insert_ne by done. by apply (inv_sems s HI k).
  - intros k. rewrite (inv_active s HI k), (counted_eq k _ _ Hc). f_equal. lia.
  - intros a Ha. by apply Hnc in Ha.
Qed.

Lemma get_enc k s : Inv s -> get k (active s) = cnt (counted k) s.
Proof.
  intros HI. unfold get. rewrite (inv_active s HI). unfold enc.
  destruct (Z.eqb_spec (cnt (counted k) s) 0); cbn; lia.
Qed.

Lemma inv_inc s tid th pc' eff k :
  Inv s -> threads s !! tid = Some th -> Z.of_nat (size (threads s)) < 2 ^ 31 ->
  rel_of pc' = rel_of (t_pc th) -> counted_of (t_pc th) = None -> counted_of pc' = Some k ->
  (forall p, refers pc' p -> rel_of pc' = Some p) -> (forall p, refers (t_pc th) p <-> rel_of (t_pc th) = Some p) ->
  (forall a, ~ (pc' = PLoadOrStore a \/ (exists p, pc' = PCheck a p) \/ pc' = PLoad a)) ->
  Inv (setThread tid th pc' eff (setActive (inc k (active s)) s)).
Proof.
  intros HI Hth Hsz Hr Hc Hc' Href Href0 Hnc. apply (inv_move s); cbn; try done.
  - intros p sm Hp. destruct (inv_tokens s HI p sm Hp) as [-> ?]. rewrite (holds_eq _ _ _ Hr). lia.
  - intros p Hp. apply (inv_refs s HI tid th p Hth), Href0. rewrite <- Hr. by apply Href.
  - apply (inv_sems s HI).
  - intros j. rewrite (counted_none j (t_pc th)), (counted_some j k pc') by done. unfold inc.
    rewrite (get_enc k s HI). destruct (decide (k = j)) as [->|Hne].
    + rewrite lookup_insert_eq, bool_decide_eq_true_2 by done. cbn.
      assert (Hb : 0 <= cnt (counted j) s < 2 ^ 31 - 1).
      { split; [apply cntm_bounds|]. pose proof (cntm_below (counted j) _ _ _ Hth (counted_none j _ Hc)).
        unfold cnt. lia. }
      rewrite int32_id by lia. unfold enc. rewrite (proj2 (Z.eqb_neq _ _)) by lia. f_equal. lia.
    + rewrite lookup_insert_ne, bool_decide_eq_false_2 by done. rewrite (inv_active s HI j). f_equal. cbn. lia.
  - intros a Ha. by apply Hnc in Ha.
Qed.

Lemma inv_dec s tid th pc' eff k :
  Inv s -> threads s !! tid = Some th -> Z.of_nat (size (threads s)) < 2 ^ 31 ->
  rel_of pc' = rel_of (t_pc th) -> counted_of (t_pc th) = Some k -> counted_of pc' = None ->
  (forall p, refers pc' p -> rel_of pc' = Some p) -> (forall p, refers (t_pc th) p <-> rel_of (t_pc th) = Some p) ->
  (forall a, ~ (pc' = PLoadOrStore a \/ (exists p, pc' = PCheck a p) \/ pc' = PLoad a)) ->
  Inv (setThread tid th pc' eff (setActive (dec k (active s)) s)).
Proof.
  intros HI Hth Hsz Hr Hc Hc' Href Href0 Hnc. apply (inv_move s); cbn; try done.
  - intros p sm Hp. destruct (inv_tokens s HI p sm Hp) as [-> ?]. rewrite (holds_eq _ _ _ Hr). lia.
  - intros p Hp. apply (inv_refs s HI tid th p Hth), Href0. rewrite <- Hr. by apply Href.
  - apply (inv_sems s HI).
  - intros j. rewrite (counted_none j pc'), (counted_some j k (t_pc th)) by done. unfold dec.
    assert (Hb : 1 <= cnt (counted k) s <= Z.of_nat (size (threads s))).
    { split; [|apply cntm_bounds]. eapply cntm_pos; [exact Hth|].
      by rewrite (counted_some k k), bool_decide_eq_true_2. }
    rewrite (get_enc k s HI), (proj2 (Z.ltb_lt 0 _)), int32_id by lia.
    unfold get. rewrite lookup_insert_eq. cbn [default].
    destruct (decide (k = j)) as [->|Hne].
    + rewrite bool_decide_eq_true_2 by done. unfold enc. cbn.
      replace (cnt (counted j) s - 1 + 0) with (cnt (counted j) s - 1) by lia.
      destruct (_ =? 0); [apply lookup_delete_eq|apply lookup_insert_eq].
    + rewrite bool_decide_eq_false_2 by done. cbn.
      replace (cnt (counted j) s - 0 + 0) with (cnt (counted j) s) by lia. rewrite <- (inv_active s HI j).
      destruct (_ =? 0); rewrite ?lookup_delete_ne, lookup_insert_ne by done; done.
  - intros a Ha. by apply Hnc in Ha.
Qed.

Ltac caps := intros ? [?|[[? ?]|?]]; congruence.

(** A step between two points that hold the same release. *)
Ltac same_rel s th Hth Hpc HI :=
  apply (inv_neutral s); rewrite ?Hpc; try done;
  [ intros ? Hp; apply (inv_refs s HI _ th _ Hth); rewrite Hpc; exact Hp | caps ].

Lemma inv_acquireStep s tid th s' :
  Inv s -> threads s !! tid = Some th -> acquireStep tid th s = Some s' -> Inv s'.
Proof.
  intros HI Hth. pose proof (fun a => inv_caps s HI tid th a Hth) as Hcap.
  unfold acquireStep. destruct (t_pc th) eqn:Hpc; try done.
  - destruct (semaphores s !! ad_key a) as [p|] eqn:Es; intros [= <-]; apply (inv_neutral s); rewrite ?Hpc; try done.
    + intros ? <-. by eapply (inv_sems s HI).
    + intros a' [?|[[? [= <- <-]]|?]]; [congruence|apply Hcap; auto|congruence].
    + intros a' [[= <-]|[[? ?]|?]]; [apply Hcap; auto|congruence..].
  - assert (0 < ad_cap a) by (apply Hcap; auto). destruct (semaphores s !! ad_key a) as [p|] eqn:Es; intros [= <-].
    + apply (inv_neutral s); rewrite ?Hpc; try done; [intros ? <-; by eapply (inv_sems s HI)|].
      intros a' [?|[[? [= <- <-]]|?]]; congruence.
    + apply inv_fresh; rewrite ?Hpc; auto.
  - assert (0 < ad_cap a) by (apply Hcap; eauto). destruct (heap s !! p) as [sm|] eqn:Ep; [|done].
    destruct (s_cap sm =? ad_cap a); [|case_bool_decide]; intros [= <-].
    + apply (inv_neutral s); rewrite ?Hpc; try done; [intros ? <-; eauto|caps].
    + apply inv_fresh; rewrite ?Hpc; auto.
    + apply (inv_neutral s); rewrite ?Hpc; try done. intros a' [?|[[? ?]|[= <-]]]; congruence.
  - destruct (heap s !! p) as [sm|] eqn:Ep; [|done].
    destruct (Z.ltb_spec (s_tokens sm) (s_cap sm)); intros [= <-]; [by apply inv_send|].
    apply (inv_neutral s); rewrite ?Hpc; try done. caps.
Qed.

Lemma emit_frame inv s :
  let s' := emitInvocation inv s in
  threads s' = threads s /\ heap s' = heap s /\ semaphores s' = semaphores s /\ active s' = active s.
Proof. unfold emitInvocation. by destruct (_ && _). Qed.

Lemma acceptTail_key a r w rc : acceptTail a r w = inl rc -> rc_key rc = ad_key a.
Proof. unfold acceptTail. destruct (w_revision _ _); try done. by intros [= <-]. Qed.

(** A running request stays where it is until it emits. *)
Lemma runningStep_pc w g rc rel id ds st pc' eff :
  runningStep w g rc rel id ds st = Some (pc', eff) ->
  (exists st', pc' = PRunning rc rel id ds st') \/ exists p, pc' = PEmit rc rel p.
Proof.
  unfold runningStep. destruct (awaits ds g st); [done|]. destruct st.
  - destruct (waitOrStop w g id). intros [= <- _]. eauto.
  - intros [= <- _]. eauto.
  - destruct (drainResponse _ _ _ _ _). intros [= <- _]. eauto.
  - intros [= <- _]. eauto.
  - intros [= <- _]. eauto.
Qed.

(** Every step preserves the invariant. *)
Lemma inv_step s tid s' :
  Inv s -> Z.of_nat (size (threads s)) < 2 ^ 31 -> step s tid = Some s' -> Inv s'.
Proof.
  intros HI Hsz. unfold step. destruct (threads s !! tid) as [th|] eqn:Hth; [|done].
  pose proof (fun inv => emit_frame inv s) as Hem. cbv zeta in Hem.
  destruct (t_pc th) eqn:Hpc; cbn zeta; try (by apply inv_acquireStep).
  - destruct (acceptHead _ _ _) as [a|code]; [destruct (Z.leb_spec (ad_cap a) 0)|]; intros [= <-];
      apply (inv_neutral s); rewrite ?Hpc; try done;
      first [by intros ? [=] | intros ? [?|[[? ?]|[= <-]]]; congruence].
  - intros [= <-]. apply inv_inc; rewrite ?Hpc; try done. caps.
  - destruct (acceptTail _ _ _) as [rc|code] eqn:Et; intros [= <-]; [|same_rel s th Hth Hpc HI].
    apply acceptTail_key in Et. apply (inv_neutral s); rewrite ?Hpc; try done; [cbn; congruence| |caps].
    intros ? Hp. apply (inv_refs s HI _ th _ Hth). rewrite Hpc. exact Hp.
  - destruct (inv_release s tid th rel (PUndoDec a code) [] HI Hth) as (s1 & -> & H); rewrite ?Hpc; eauto.
    by intros [= <-].
  - intros [= <-]. apply inv_dec; rewrite ?Hpc; try done. caps.
  - destruct (acquireSandbox rc (t_world th)) as [[[id b]|] eff];
      [destruct (startAndSetupDelivery _ _ _ _ _) as [[ds|] eff']|]; intros [= <-].
    + apply (inv_neutral s); rewrite ?Hpc; try apply Hem; try done;
        [intros ? Hp; apply (inv_refs s HI _ th _ Hth); rewrite Hpc; exact Hp | caps].
    + same_rel s th Hth Hpc HI.
    + same_rel s th Hth Hpc HI.
  - destruct (runningStep _ _ _ _ _ _ _) as [[pc' eff]|] eqn:Er; [|done]. intros [= <-].
    apply runningStep_pc in Er as [(st' & ->)|(p & ->)]; same_rel s th Hth Hpc HI.
  - intros [= <-]. apply (inv_neutral s); rewrite ?Hpc; try apply Hem; try done;
      [intros ? Hp; apply (inv_refs s HI _ th _ Hth); rewrite Hpc; exact Hp | caps].
  - intros [= <-]. apply inv_dec; rewrite ?Hpc; try done. caps.
  - destruct (inv_release s tid th rel PDone [] HI Hth) as (s1 & -> & H); rewrite ?Hpc; eauto.
    by intros [= <-].
  - done.
Qed.

(** Threads are never forgotten. *)
Lemma step_threads s tid s' :
  step s tid = Some s' -> exists th pc' eff, threads s !! tid = Some th
    /\ threads s' = <[tid := mkThread (t_req th) (t_world th) (t_sig th) pc' (t_trace th ++ eff)]> (threads s).
Proof.
  unfold step, acquireStep. destruct (threads s !! tid) as [th|]; [|done]. cbn zeta.
  assert (Hrel : forall rel s1, release rel s = Some s1 -> threads s1 = threads s).
  { intros [p|] s1; cbn; [|by intros [= <-]]. destruct (heap s !! p) as [sm|]; [|done].
    destruct (0 <? s_tokens sm); [|done]. by intros [= <-]. }
  assert (Hem : forall inv, threads (emitInvocation inv s) = threads s) by (intros; apply emit_frame).
  intros H. exists th. repeat (case_match; try done).
  all: try match goal with E : release _ _ = Some _ |- _ => apply Hrel in E end.
  all: injection H as <-; do 2 eexists; split; [done|]; cbn; rewrite ?Hem;
    try match goal with E : threads _ = threads _ |- _ => rewrite E end; reflexivity.
Qed.

Lemma sstep_size s s' : sstep s s' -> (size (threads s) <= size (threads s'))%nat.
Proof.
  intros [s0 tid s1 Hs|s0 s1 [? ? ? ? Hn|? ? ? ? Hn|? ? ? ?|?]]; cbn;
    [|rewrite map_size_insert_None by done; lia|rewrite map_size_insert_Some by eauto; lia|lia..].
  apply step_threads in Hs as (th & pc' & eff & Hth & ->).
  rewrite map_size_insert_Some by eauto. lia.
Qed.

Lemma Inv_frame s s' :
  heap s' = heap s -> semaphores s' = semaphores s -> active s' = active s -> threads s' = threads s ->
  Inv s -> Inv s'.
Proof.
  intros Hh Hs Ha Ht [I1 I2 I3 I4 I5]. unfold cnt in *.
  split; unfold cnt; rewrite ?Hh, ?Hs, ?Ha, ?Ht; done.
Qed.

Lemma inv_arrive s tid r w :
  threads s !! tid = None -> Inv s ->
  Inv (mkState (heap s) (semaphores s) (active s) (draining s)
         (<[tid := mkThread r w silent PAccept []]> (threads s)) (outbox s) (publishing s)).
Proof.
  intros Hn [I1 I2 I3 I4 I5]. unfold cnt in *.
  assert (Hc : forall P, P PAccept = false ->
    cntm P (<[tid := mkThread r w silent PAccept []]> (threads s)) = cntm P (threads s)).
  { intros P HP. rewrite cntm_fresh by done. cbn. by rewrite HP. }
  split; unfold cnt; cbn; try done.
  - intros p sm Hp. rewrite Hc by (by apply holds_none). by apply I1.
  - intros i th p. rewrite lookup_insert_Some. intros [[<- <-]|[_ Hi]]; [done|by apply (I2 i)].
  - intros k. rewrite Hc by (by apply counted_none). apply I4.
  - intros i th a. rewrite lookup_insert_Some. intros [[<- <-]|[_ Hi]]; [cbn; intros [?|[[? ?]|?]]; congruence|by apply (I5 i)].
Qed.

Lemma inv_signal s tid th x :
  threads s !! tid = Some th -> Inv s ->
  Inv (mkState (heap s) (semaphores s) (active s) (draining s)
         (<[tid := mkThread (t_req th) (t_world th) (raise x (t_sig th)) (t_pc th) (t_trace th)]> (threads s))
         (outbox s) (publishing s)).
Proof.
  intros Hth [I1 I2 I3 I4 I5]. unfold cnt in *.
  assert (Hc : forall P, cntm P (<[tid := mkThread (t_req th) (t_world th) (raise x (t_sig th)) (t_pc th) (t_trace th)]> (threads s))
    = cntm P (threads s)).
  { intros P. rewrite (cntm_update P _ _ _ _ Hth). cbn. lia. }
  split; unfold cnt; cbn; try done.
  - intros p sm. rewrite Hc. apply I1.
  - intros i th' p. rewrite lookup_insert_Some. intros [[<- <-]|[_ Hi]]; [exact (I2 tid th p Hth)|exact (I2 i th' p Hi)].
  - intros k. rewrite Hc. apply I4.
  - intros i th' a. rewrite lookup_insert_Some. intros [[<- <-]|[_ Hi]]; [exact (I5 tid th a Hth)|exact (I5 i th' a Hi)].
Qed.

Lemma dispatcher_inv pub s :
  reachable pub s -> Z.of_nat (size (threads s)) < 2 ^ 31 -> Inv s.
Proof.
  induction 1 as [|s s' Hr IH Hs]; intros Hsz.
  - split; cbn; try done; intros; rewrite ?lookup_empty in *; done.
  - pose proof (sstep_size _ _ Hs). assert (HI : Inv s) by (apply IH; lia).
    destruct Hs as [s0 tid s1 Hs|s0 s1 [s2 tid r w Hn|s2 tid th x Hth|s2 inv rest Ho|s2]].
    + eapply inv_step; [done| |done]. lia.
    + by apply inv_arrive.
    + by apply inv_signal.
    + by apply (Inv_frame s2).
    + by apply (Inv_frame s2).
Qed.

(** In every state the dispatcher can reach, under any interleaving of
    requests (fewer than [2^31] of them), the active counter of an agent is
    exactly the number of requests between its increment and its decrement, and
    each semaphore holds as many tokens as requests that will release into it,
    never more than its capacity. *)
Theorem dispatcher_counts (pub : bool) (s : state) :
  reachable pub s -> Z.of_nat (size (threads s)) < 2 ^ 31 ->
  (forall k, get k (active s) = cnt (counted k) s
     /\ (k ∈ dom (active s) <-> 0 < cnt (counted k) s))
  /\ (forall p sm, heap s !! p = Some sm ->
        s_tokens sm = cnt (holds p) s /\ 0 <= s_tokens sm <= s_cap sm).
Proof.
  intros Hr Hsz. pose proof (dispatcher_inv _ _ Hr Hsz) as HI. split.
  - intros k. split; [by apply get_enc|]. rewrite elem_of_dom, (inv_active s HI). unfold enc.
    pose proof (cntm_bounds (counted k) (threads s)). unfold cnt.
    destruct (Z.eqb_spec (cntm (counted k) (threads s)) 0); [|split; [lia|eauto]].
    split; [by intros []|lia].
  - intros p sm Hp. destruct (inv_tokens s HI p sm Hp) as [-> ?].
    pose proof (cntm_bounds (holds p) (threads s)). unfold cnt in *. lia.
Qed.

(** ** Every request finishes *)

(** How many steps a request has left, at most, while no other replaces the semaphore
    of its agent.  A request that holds a pointer to a replaced semaphore of another
    capacity has to load again. *)
Definition rank (s : state) (c : pc) : nat :=
  match c with
  | PAccept => 24
  | PLoad _ => 20
  | PLoadOrStore _ => 19
  | PCheck a p =>
      match heap s !! p with
      | Some sm => if (s_cap sm =? ad_cap a)%Z || bool_decide (semaphores s !! ad_key a = Some p) then 16 else 22
      | None => 22
      end
  | PSend _ _ => 15
  | PInc _ _ => 14
  | PRevision _ _ => 13
  | PUndoRelease _ _ _ | PServe _ _ => 12
  | PRunning _ _ _ _ Waiting => 11
  | PRunning _ _ _ _ Stopping => 10
  | PRunning _ _ _ _ Draining => 9
  | PRunning _ _ _ _ (Classifying _) => 8
  | PUndoDec _ _ | PRunning _ _ _ _ (Unwinding _) => 7
  | PEmit _ _ _ => 6
  | PDec _ _ => 5
  | PRelease _ => 4
  | PDone => 0
  end%nat.

Definition pc_of (s : state) (tid : nat) : option pc := t_pc <$> threads s !! tid.

(** It is blocked on the agent it runs. *)
Definition blocked (th : thread) : bool :=
  match t_pc th with PRunning _ _ _ ds st => awaits ds (t_sig th) st | _ => false end.

(** [s'] is [s] after a step of [tid] that leaves it at a point of lower rank. *)
Definition progress (s : state) (tid : nat) (c : pc) : Prop :=
  exists s' c', step s tid = Some s' /\ pc_of s' tid = Some c' /\ (rank s' c' < rank s c)%nat.

Lemma pc_of_setThread tid th c eff s : pc_of (setThread tid th c eff s) tid = Some c.
Proof. unfold pc_of, setThread. cbn. by rewrite lookup_insert_eq. Qed.

Lemma acquireStep_progress s tid th :
  Inv s -> threads s !! tid = Some th ->
  match t_pc th with PLoad _ | PLoadOrStore _ | PCheck _ _ | PSend _ _ => True | _ => False end ->
  progress s tid (t_pc th).
Proof.
  intros HI Hth Hk. unfold progress, step. rewrite Hth. cbn zeta. unfold acquireStep.
  assert (Hnew : forall a p eff s1, heap s1 !! p = Some (mkSema (ad_cap a) 0) ->
    (rank (setThread tid th (PCheck a p) eff s1) (PCheck a p) <= 16)%nat).
  { intros a p eff s1 Hp. cbn. by rewrite Hp, Z.eqb_refl. }
  destruct (t_pc th) as [|a|a|a p|a p| | | | | | | | | |] eqn:Hpc; try done.
  - destruct (semaphores s !! ad_key a) as [p|] eqn:Es; do 2 eexists; (split; [done|]);
      (split; [apply pc_of_setThread|]); cbn; [|lia].
    destruct (inv_sems s HI _ _ Es) as [sm ->]. rewrite bool_decide_eq_true_2 by done. rewrite orb_true_r. lia.
  - destruct (semaphores s !! ad_key a) as [p|] eqn:Es; do 2 eexists; (split; [done|]);
      (split; [apply pc_of_setThread|]).
    + cbn. destruct (inv_sems s HI _ _ Es) as [sm ->].
      rewrite bool_decide_eq_true_2 by done. rewrite orb_true_r. lia.
    + eapply Nat.le_lt_trans; [apply Hnew; cbn; apply lookup_insert_eq|cbn; lia].
  - destruct (inv_refs s HI tid th p Hth) as [sm Hp]; [by rewrite Hpc|]. rewrite Hp.
    destruct (s_cap sm =? ad_cap a) eqn:Ec; [|case_bool_decide as Eb]; do 2 eexists; (split; [done|]);
      (split; [apply pc_of_setThread|]); cbn; rewrite Hp, Ec, ?(bool_decide_eq_true_2 _ Eb),
      ?(bool_decide_eq_false_2 _ Eb); cbn; lia.
  - destruct (inv_refs s HI tid th p Hth) as [sm ->]; [by rewrite Hpc|].
    destruct (_ <? _); do 2 eexists; (split; [done|]); (split; [apply pc_of_setThread|]); cbn; lia.
Qed.

Lemma runningStep_progress w g rc rel id ds st s :
  awaits ds g st = false -> exists pc' eff, runningStep w g rc rel id ds st = Some (pc', eff)
    /\ forall s', (rank s' pc' < rank s (PRunning rc rel id ds st))%nat.
Proof.
  unfold runningStep. intros ->. destruct st; cbn.
  - unfold waitOrStop. destruct (_ && _); do 2 eexists; (split; [done|]); intros; cbn; lia.
  - do 2 eexists; (split; [done|]); intros; cbn; lia.
  - destruct (drainResponse _ _ _ _ _). do 2 eexists; (split; [done|]); intros; cbn; lia.
  - do 2 eexists; (split; [done|]); intros; cbn; lia.
  - do 2 eexists; (split; [done|]); intros; cbn; lia.
Qed.

(** A request that is not done and not blocked on its agent can step, and its rank
    drops; one that is blocked cannot. *)
Lemma step_progress s tid th : Inv s -> threads s !! tid = Some th -> t_pc th <> PDone -> blocked th = false ->
  progress s tid (t_pc th).
Proof.
  intros HI Hth Hd Hb. unfold blocked in Hb.
  assert (Hrel : forall rel, rel_of (t_pc th) = rel -> exists s1, release rel s = Some s1).
  { intros [p|] Hr; [|eexists; done]. cbn.
    destruct (inv_refs s HI tid th p Hth) as [sm Hp]; [by destruct (t_pc th)|]. rewrite Hp.
    destruct (inv_tokens s HI p sm Hp) as [Htok _]. assert (1 <= s_tokens sm).
    { rewrite Htok. eapply cntm_pos; [exact Hth|]. by rewrite (holds_some p p), bool_decide_eq_true_2. }
    rewrite (proj2 (Z.ltb_lt 0 _)) by lia. eauto. }
  destruct (t_pc th) as [|?|?|? ?|? ?|? ?|? ?|? rel ?|? ?|? ?|rc rel id ds st|? ? ?|? ?|rel|] eqn:Hpc; rewrite <- Hpc;
    try (apply acquireStep_progress; [done..|by rewrite Hpc]).
  7: { unfold progress, step. rewrite Hth, Hpc. cbn zeta.
    destruct (runningStep_progress (t_world th) (t_sig th) rc rel id ds st s Hb) as (pc' & eff & -> & Hlt).
    exists (setThread tid th pc' eff s), pc'. split; [done|]. split; [apply pc_of_setThread|apply Hlt]. }
  all: unfold progress, step; rewrite Hth, Hpc; cbn zeta.
  all: try (destruct (Hrel rel) as [s1 ->]; [done|]).
  all: repeat match goal with |- context [match ?x with _ => _ end] => destruct x; try done end.
  all: do 2 eexists; (split; [done|]); (split; [apply pc_of_setThread|]); cbn; lia.
Qed.

Lemma step_lowers s tid th s' : Inv s -> threads s !! tid = Some th -> step s tid = Some s' ->
  exists th', threads s' !! tid = Some th' /\ (rank s' (t_pc th') < rank s (t_pc th))%nat.
Proof.
  intros HI Hth Hs.
  assert (t_pc th <> PDone) as Hd by (intros E; unfold step in Hs; by rewrite Hth, E in Hs).
  assert (blocked th = false) as Hb.
  { unfold blocked. destruct (t_pc th) eqn:E; try done. unfold step in Hs. rewrite Hth, E in Hs. unfold runningStep in Hs.
    by destruct (awaits _ _ _). }
  destruct (step_progress s tid th HI Hth Hd Hb) as (s1 & c1 & H1 & Hc & Hlt). rewrite Hs in H1. injection H1 as <-.
  unfold pc_of in Hc. destruct (threads s' !! tid) as [th'|]; [|done]. injection Hc as <-. eauto.
Qed.

(** *** Interleavings

    A swap is a step that replaces the semaphore of an agent by one of another
    capacity. *)
Definition swaps (s : state) (tid : nat) : bool :=
  match t_pc <$> threads s !! tid with
  | Some (PCheck a p) =>
      match heap s !! p with
      | Some sm => negb (s_cap sm =? ad_cap a) && bool_decide (semaphores s !! ad_key a = Some p)
      | None => false
      end
  | _ => false
  end.

(** A run of the dispatcher, with the requests that step in it and which steps swap. *)
Inductive lrun : state -> list (nat * bool) -> state -> Prop :=
| run_nil s : lrun s [] s
| run_step s tid s1 l s2 : step s tid = Some s1 -> lrun s1 l s2 -> lrun s ((tid, swaps s tid) :: l) s2
| run_around s s1 l s2 : around s s1 -> lrun s1 l s2 -> lrun s l s2.

(** The steps of one request, and who else swapped. *)
Definition own (tid : nat) (l : list (nat * bool)) : nat := length (List.filter (fun x => Nat.eqb x.1 tid) l).
Definition swappers (tid : nat) (l : list (nat * bool)) : list nat :=
  List.map fst (List.filter (fun x => negb (Nat.eqb x.1 tid) && x.2) l).

(** Semaphores stay and keep their capacity; only a swap replaces one. *)
Lemma step_shared s tid s' : Inv s -> step s tid = Some s' ->
  (forall p sm, heap s !! p = Some sm -> exists sm', heap s' !! p = Some sm' /\ s_cap sm' = s_cap sm)
  /\ (swaps s tid = false -> forall k p, semaphores s !! k = Some p -> semaphores s' !! k = Some p).
Proof.
  intros HI. unfold step, swaps. destruct (threads s !! tid) as [th|] eqn:Hth; [|done]. cbn [fmap option_fmap option_map].
  pose proof (fun inv => emit_frame inv s) as Hem. cbv zeta in Hem.
  assert (Hsame : forall s1 c eff, heap s1 = heap s -> semaphores s1 = semaphores s -> Some (setThread tid th c eff s1) = Some s' ->
    (forall p sm, heap s !! p = Some sm -> exists sm', heap s' !! p = Some sm' /\ s_cap sm' = s_cap sm)
    /\ (forall k p, semaphores s !! k = Some p -> semaphores s' !! k = Some p)).
  { intros s1 c eff Hh Hsm [= <-]. cbn. rewrite Hh, Hsm. eauto. }
  assert (Htok : forall p sm n c eff, heap s !! p = Some sm ->
    Some (setThread tid th c eff (setHeap (<[p := mkSema (s_cap sm) n]> (heap s)) s)) = Some s' ->
    (forall p sm, heap s !! p = Some sm -> exists sm', heap s' !! p = Some sm' /\ s_cap sm' = s_cap sm)
    /\ (forall k p, semaphores s !! k = Some p -> semaphores s' !! k = Some p)).
  { intros p sm n c eff Hp [= <-]. cbn. split; [|done]. intros q sm' Hq.
    destruct (decide (p = q)) as [<-|]; [rewrite lookup_insert_eq; exists (mkSema (s_cap sm) n); split; [done|]; rewrite Hp in Hq; by injection Hq as <-|].
    rewrite lookup_insert_ne by done. eauto. }
  assert (Hfresh : forall p sm, heap s !! p = Some sm -> forall cap,
    exists sm', <[freshSema s := mkSema cap 0]> (heap s) !! p = Some sm' /\ s_cap sm' = s_cap sm).
  { intros p sm Hp cap. assert (heap s !! freshSema s = None)
      by (apply (not_elem_of_dom (D := gset nat)); unfold freshSema; apply is_fresh).
    rewrite lookup_insert_ne by congruence. eauto. }
  assert (Hrel : forall rel c eff, match release rel s with Some s1 => Some (setThread tid th c eff s1) | None => None end = Some s' ->
    (forall p sm, heap s !! p = Some sm -> exists sm', heap s' !! p = Some sm' /\ s_cap sm' = s_cap sm)
    /\ (forall k p, semaphores s !! k = Some p -> semaphores s' !! k = Some p)).
  { intros [p|] c eff; cbn [release]; [|by apply Hsame]. destruct (heap s !! p) as [sm|] eqn:Ep; [|done].
    destruct (_ <? _); [|done]. by apply Htok. }
  destruct (t_pc th) eqn:Hpc; cbn zeta; unfold acquireStep; rewrite ?Hpc; intros Hs.
  - destruct (acceptHead _ _ _); [destruct (_ <=? _)|]; apply Hsame in Hs; tauto.
  - destruct (semaphores s !! _); apply Hsame in Hs; tauto.
  - destruct (semaphores s !! ad_key a) as [p|] eqn:Es; [apply Hsame in Hs; tauto|]. injection Hs as <-. cbn.
    split; [eauto|]. intros _ k p Hk. rewrite lookup_insert_ne; [done|]. intros E. by rewrite E, Hk in Es.
  - destruct (heap s !! p) as [sm|] eqn:Ep; [|done]. destruct (s_cap sm =? ad_cap a); [apply Hsame in Hs; tauto|].
    case_bool_decide; [|apply Hsame in Hs; tauto]. injection Hs as <-. cbn. split; [eauto|done].
  - destruct (heap s !! p) as [sm|] eqn:Ep; [|done]. destruct (_ <? _); [apply (Htok p) in Hs; tauto|apply Hsame in Hs; tauto].
  - apply Hsame in Hs; tauto.
  - destruct (acceptTail _ _ _); apply Hsame in Hs; tauto.
  - apply Hrel in Hs; tauto.
  - apply Hsame in Hs; tauto.
  - destruct (acquireSandbox rc (t_world th)) as [[[id b]|] eff];
      [destruct (startAndSetupDelivery _ _ _ _ _) as [[ds|] eff']|]; apply Hsame in Hs; try apply Hem; tauto.
  - destruct (runningStep _ _ _ _ _ _ _) as [[pc' eff]|]; [|done]. apply Hsame in Hs; tauto.
  - apply Hsame in Hs; try apply Hem; tauto.
  - apply Hsame in Hs; tauto.
  - apply Hrel in Hs; tauto.
  - done.
Qed.

(** The rank of the others rises only when a semaphore is replaced. *)
Lemma rank_others s tid s' i th : Inv s -> threads s !! i = Some th -> step s tid = Some s' ->
  (rank s' (t_pc th) <= rank s (t_pc th) + if swaps s tid then 6 else 0)%nat.
Proof.
  intros HI Hth Hs. destruct (step_shared s tid s' HI Hs) as [Hh Hk].
  destruct (t_pc th) as [|?|?|a p|?|?|?|?|?|?|? ? ? ? []|?|?|?|] eqn:Hpc; cbn; try lia.
  destruct (inv_refs s HI i th p Hth) as [sm Hp]; [by rewrite Hpc|]. rewrite Hp.
  destruct (Hh _ _ Hp) as (sm' & Hp' & Hc). rewrite Hp', Hc. destruct (_ =? _); cbn; [lia|].
  destruct (swaps s tid); [repeat case_bool_decide; lia|].
  destruct (decide (semaphores s !! ad_key a = Some p)) as [E|E].
  - rewrite (bool_decide_eq_true_2 _ (Hk eq_refl _ _ E)). case_match; lia.
  - rewrite (bool_decide_eq_false_2 _ E). case_match; lia.
Qed.

Lemma around_keeps s s' i th : around s s' -> threads s !! i = Some th ->
  exists th', threads s' !! i = Some th' /\ t_pc th' = t_pc th /\ rank s' (t_pc th) = rank s (t_pc th).
Proof.
  intros [s0 tid r w Hn|s0 tid th0 x H0|s0 inv rest Ho|s0] Hth; cbn.
  - exists th. split; [|done]. rewrite lookup_insert_ne; [done|]. by intros ->; rewrite Hth in Hn.
  - destruct (decide (tid = i)) as [->|]; [rewrite lookup_insert_eq|rewrite lookup_insert_ne by done; eauto].
    rewrite Hth in H0. injection H0 as <-. eauto.
  - eauto.
  - eauto.
Qed.

Lemma lrun_size s l s' : lrun s l s' -> (size (threads s) <= size (threads s'))%nat.
Proof.
  induction 1 as [s|s tid s1 l s2 Hs _ IH|s s1 l s2 Ha _ IH]; [done| |]; (etransitivity; [|exact IH]);
    apply sstep_size; [by eapply ss_step|by apply ss_around].
Qed.

Lemma sstep_Inv s s' : Inv s -> Z.of_nat (size (threads s)) < 2 ^ 31 -> sstep s s' -> Inv s'.
Proof.
  intros HI Hsz Hst. destruct Hst as [s0 tid s1 Hs|s0 s1 Ha]; [by eapply inv_step|].
  destruct Ha as [s2 tid r w Hn|s2 tid th x Hth|s2 inv rest Ho|s2].
  - by apply inv_arrive.
  - by apply inv_signal.
  - by apply (Inv_frame s2).
  - by apply (Inv_frame s2).
Qed.

Lemma lrun_Inv s l s' : lrun s l s' -> Inv s -> Z.of_nat (size (threads s')) < 2 ^ 31 -> Inv s'.
Proof.
  induction 1 as [s|s tid s1 l s2 Hs Hl IH|s s1 l s2 Ha Hl IH]; intros HI Hsz; [done| |]; pose proof (lrun_size _ _ _ Hl).
  - pose proof (sstep_size _ _ (ss_step _ _ _ Hs)). apply IH; [eapply inv_step; [done|lia|done]|done].
  - pose proof (sstep_size _ _ (ss_around _ _ Ha)). apply IH; [|done]. eapply sstep_Inv; [done|lia|by apply ss_around].
Qed.

(** Its steps and what is left are paid for by what was left before and by the swaps of
    the others. *)
Lemma lrun_rank s l s' tid th : lrun s l s' -> Inv s -> Z.of_nat (size (threads s')) < 2 ^ 31 ->
  threads s !! tid = Some th ->
  exists th', threads s' !! tid = Some th'
    /\ (own tid l + rank s' (t_pc th') <= rank s (t_pc th) + 6 * length (swappers tid l))%nat.
Proof.
  intros Hr. revert th. induction Hr as [s|s i s1 l s2 Hs Hr IH|s s1 l s2 Ha Hr IH]; intros th HI Hsz Hth.
  - exists th. split; [done|]. cbn. lia.
  - pose proof (lrun_size _ _ _ Hr). pose proof (sstep_size _ _ (ss_step _ _ _ Hs)).
    assert (Inv s1) as HI1 by (eapply inv_step; [done|lia|done]).
    unfold own, swappers. cbn [List.filter fst snd].
    destruct (Nat.eqb_spec i tid) as [->|Hne]; cbn [negb andb].
    + destruct (step_lowers s tid th s1 HI Hth Hs) as (th1 & Hth1 & Hlt).
      destruct (IH th1 HI1 Hsz Hth1) as (th' & Hth' & Hle). exists th'. split; [done|].
      cbn [length]. unfold own, swappers in Hle. lia.
    + assert (threads s1 !! tid = Some th) as Hth1.
      { apply step_threads in Hs as (th0 & pc' & eff & _ & ->). by rewrite lookup_insert_ne. }
      destruct (IH th HI1 Hsz Hth1) as (th' & Hth' & Hle). exists th'. split; [done|].
      pose proof (rank_others s i s1 tid th HI Hth Hs) as Hro. unfold own, swappers in Hle.
      destruct (swaps s i); cbn [length List.map]; lia.
  - pose proof (lrun_size _ _ _ Hr). pose proof (sstep_size _ _ (ss_around _ _ Ha)).
    assert (Inv s1) as HI1 by (eapply sstep_Inv; [done|lia|by apply ss_around]).
    destruct (around_keeps _ _ _ _ Ha Hth) as (th1 & Hth1 & Hpc & Hrk).
    destruct (IH th1 HI1 Hsz Hth1) as (th' & Hth' & Hle). exists th'. split; [done|]. rewrite Hpc, Hrk in Hle. lia.
Qed.

(** A request swaps once: then it has its semaphore. *)
Definition past (c : pc) : bool := match c with PAccept | PLoad _ | PLoadOrStore _ | PCheck _ _ => false | _ => true end.

Lemma step_past s tid s' th : step s tid = Some s' -> threads s !! tid = Some th ->
  past (t_pc th) = true \/ swaps s tid = true -> exists th', threads s' !! tid = Some th' /\ past (t_pc th') = true.
Proof.
  intros Hs Hth Hp. unfold step, swaps in *. rewrite Hth in Hs, Hp. cbn in Hp.
  assert (Hset : forall c eff s1, past c = true -> Some (setThread tid th c eff s1) = Some s' ->
    exists th', threads s' !! tid = Some th' /\ past (t_pc th') = true).
  { intros c eff s1 Hc [= <-]. cbn. rewrite lookup_insert_eq. eauto. }
  unfold acquireStep in Hs. destruct (t_pc th) eqn:Hpc; cbn zeta in Hs; cbn [past] in Hp; try (destruct Hp; done).
  - destruct Hp as [|Hp]; [done|]. destruct (heap s !! p) as [sm|]; [|done].
    apply andb_true_iff in Hp as [H1%negb_true_iff H2]. rewrite H1, H2 in Hs. by (eapply Hset; [|exact Hs]).
  - destruct (heap s !! p) as [sm|]; [|done]. destruct (_ <? _); by (eapply Hset; [|exact Hs]).
  - by (eapply Hset; [|exact Hs]).
  - destruct (acceptTail _ _ _); by (eapply Hset; [|exact Hs]).
  - destruct (release _ _); [|done]. by (eapply Hset; [|exact Hs]).
  - by (eapply Hset; [|exact Hs]).
  - destruct (acquireSandbox rc (t_world th)) as [[[id b]|] eff];
      [destruct (startAndSetupDelivery _ _ _ _ _) as [[ds|] eff']|]; by (eapply Hset; [|exact Hs]).
  - destruct (runningStep _ _ _ _ _ _ _) as [[pc' eff]|] eqn:E; [|done].
    apply runningStep_pc in E as [(st' & ->)|(p & ->)]; by (eapply Hset; [|exact Hs]).
  - by (eapply Hset; [|exact Hs]).
  - by (eapply Hset; [|exact Hs]).
  - destruct (release _ _); [|done]. by (eapply Hset; [|exact Hs]).
Qed.

Lemma past_quiet s tid th : threads s !! tid = Some th -> past (t_pc th) = true -> swaps s tid = false.
Proof. intros Hth Hp. unfold swaps. rewrite Hth. cbn. by destruct (t_pc th). Qed.

Lemma lrun_past s l s' tid i th : lrun s l s' -> threads s !! i = Some th -> past (t_pc th) = true -> ~ In i (swappers tid l).
Proof.
  intros Hr. revert th. induction Hr as [s|s j s1 l s2 Hs Hr IH|s s1 l s2 Ha Hr IH]; intros th Hth Hp; [by intros []| |].
  - assert (exists th1, threads s1 !! i = Some th1 /\ past (t_pc th1) = true) as (th1 & H1 & H2).
    { destruct (decide (j = i)) as [->|]; [by eapply step_past; eauto|]. exists th. split; [|done].
      apply step_threads in Hs as (th0 & pc' & eff & _ & ->). by rewrite lookup_insert_ne. }
    specialize (IH th1 H1 H2). unfold swappers in *. cbn [List.filter fst snd].
    destruct (negb (Nat.eqb j tid) && swaps s j) eqn:E; [|done]. cbn. intros [->|Hin]; [|done].
    apply andb_true_iff in E as [_ E]. by rewrite (past_quiet _ _ _ Hth Hp) in E.
  - destruct (around_keeps _ _ _ _ Ha Hth) as (th1 & Hth1 & Hpc & _). apply (IH th1 Hth1). by rewrite Hpc.
Qed.

Lemma lrun_swappers s l s' tid : lrun s l s' -> is_Some (threads s !! tid) ->
  NoDup (swappers tid l) /\ forall i, In i (swappers tid l) -> i <> tid /\ is_Some (threads s' !! i).
Proof.
  intros Hr. revert tid. induction Hr as [s|s j s1 l s2 Hs Hr IH|s s1 l s2 Ha Hr IH]; intros tid Ht.
  - split; [constructor|done].
  - assert (forall i, is_Some (threads s !! i) -> is_Some (threads s1 !! i)) as Hk.
    { pose proof (step_threads _ _ _ Hs) as (th0 & pc' & eff & H0 & E). intros i Hi. rewrite E.
      destruct (decide (j = i)) as [->|]; [rewrite lookup_insert_eq|rewrite lookup_insert_ne by done]; eauto. }
    destruct (IH tid (Hk _ Ht)) as [Hnd Hin]. unfold swappers. cbn [List.filter fst snd].
    destruct (negb (Nat.eqb j tid) && swaps s j) eqn:E; [|done]. apply andb_true_iff in E as [E1 E2].
    pose proof (step_threads _ _ _ Hs) as (th0 & pc' & eff & H0 & _).
    destruct (step_past _ _ _ _ Hs H0 (or_intror E2)) as (th1 & H1 & H2). cbn [List.map fst].
    pose proof (lrun_past s1 l s2 tid j th1 Hr H1 H2) as Hj. split.
    + constructor; [by rewrite list_elem_of_In|done].
    + intros i [<-|Hi]; [|by apply Hin]. split; [by apply negb_true_iff, Nat.eqb_neq in E1|].
      assert (Hk2 : forall s l s', lrun s l s' -> forall i, is_Some (threads s !! i) -> is_Some (threads s' !! i)).
      { clear. induction 1 as [|s tid s1 l s2 Hs _ IH|s s1 l s2 Ha _ IH]; intros i Hi; [done| |]; apply IH.
        - apply step_threads in Hs as (th0 & pc' & eff & H0 & ->).
          destruct (decide (tid = i)) as [->|]; [rewrite lookup_insert_eq|rewrite lookup_insert_ne by done]; eauto.
        - destruct Hi as [th Hth]. destruct (around_keeps _ _ _ _ Ha Hth) as (th1 & ? & _). eauto. }
      eapply Hk2; eauto.
  - apply IH. destruct Ht as [th Hth]. destruct (around_keeps _ _ _ _ Ha Hth) as (th1 & ? & _). eauto.
Qed.


(** ** What a finished request leaves behind *)

(** The phases emitted, the sandboxes obtained and deleted, the HTTP errors. *)
Definition emits (tr : list effect) : list InvocationPhase :=
  omap (fun e => match e with EEmit inv => Some (inv_Phase inv) | _ => None end) tr.
Definition obtained (tr : list effect) : list string :=
  omap (fun e => match e with EWarm id | ECreate id _ => Some id | _ => None end) tr.
Definition deleted (tr : list effect) : list string :=
  omap (fun e => match e with EDelete id => Some id | _ => None end) tr.
Definition errors (tr : list effect) : list Z :=
  omap (fun e => match e with EHttpError code => Some code | _ => None end) tr.

Definition writes (tr : list effect) : list string :=
  omap (fun e => match e with EWrite body => Some body | _ => None end) tr.

(** The client's answer: at most one error, and none behind bytes of a response. *)
Definition refusedWith (codes : list Z) (tr : list effect) : Prop :=
  exists code, errors tr = [code] /\ In code codes /\ writes tr = [].
Definition answered (tr : list effect) : Prop := errors tr = [] \/ refusedWith [500; 502; 504] tr.

(** The events and the answer of an execution that ends in [ps]: set up in vain, one
    failure and one error; or running, its outcome and its answer. *)
Definition lifecycle (ps : list InvocationPhase) (tr : list effect) : Prop :=
  (ps = [PhaseFailed] /\ refusedWith [400; 500; 503; 507] tr)
  \/ (exists p, ps = [PhaseRunning; p] /\ In p [PhaseSucceeded; PhaseFailed; PhaseTimeout] /\ answered tr).

Definition served (tr : list effect) : Prop := lifecycle (emits tr) tr /\ obtained tr = deleted tr.

(** Running, with nothing deleted yet. *)
Definition up (id : string) (tr : list effect) : Prop := emits tr = [PhaseRunning] /\ obtained tr = [id] /\ deleted tr = [].

Definition running_ok (id : string) (st : stage) (tr : list effect) : Prop :=
  up id tr
  /\ match st with
     | Waiting | Stopping | Draining => errors tr = [] /\ writes tr = []
     | Classifying _ => answered tr
     | Unwinding p => answered tr /\ In p [PhaseSucceeded; PhaseFailed; PhaseTimeout]
     end.

Definition trace_ok (th : thread) : Prop :=
  let tr := t_trace th in
  match t_pc th with
  | PRunning _ _ id _ st => running_ok id st tr
  | PEmit _ _ p => lifecycle (emits tr ++ [p]) tr /\ obtained tr = deleted tr
  | PDec _ _ | PRelease _ => served tr
  | PDone => served tr \/ exists code, tr = [EHttpError code] /\ In code [400; 404; 429; 500; 503]
  | _ => tr = []
  end.

(** What is seen of a sequence of calls. *)
Lemma emits_app a b : emits (a ++ b) = emits a ++ emits b.
Proof. apply omap_app. Qed.
Lemma obtained_app a b : obtained (a ++ b) = obtained a ++ obtained b.
Proof. apply omap_app. Qed.
Lemma deleted_app a b : deleted (a ++ b) = deleted a ++ deleted b.
Proof. apply omap_app. Qed.
Lemma errors_app a b : errors (a ++ b) = errors a ++ errors b.
Proof. apply omap_app. Qed.
Lemma writes_app a b : writes (a ++ b) = writes a ++ writes b.
Proof. apply omap_app. Qed.

Definition unseen (eff : list effect) : Prop := errors eff = [] /\ writes eff = [].

(** Delivering the response touches no sandbox and emits no event, and answers once. *)
Lemma respond_writes rc ds w :
  let '(wrote, eff) := respond json_valid rc ds w in
  emits eff = [] /\ obtained eff = [] /\ deleted eff = [] /\ errors eff = [] /\ (wrote = false -> eff = []).
Proof. unfold respond, writeBody. repeat case_match; simplify_eq/=; done. Qed.

Lemma drainResponse_answers rc ds w ctx :
  let eff := (drainResponse json_valid rc ds w ctx).2 in
  emits eff = [] /\ obtained eff = [] /\ deleted eff = [] /\ answered eff.
Proof.
  unfold drainResponse. pose proof (respond_writes rc ds w) as H. destruct (respond json_valid rc ds w) as [wrote eff].
  destruct H as (H1 & H2 & H3 & H4 & H5). cbn zeta. cbn [snd].
  rewrite emits_app, obtained_app, deleted_app, H1, H2, H3. unfold answered, refusedWith. rewrite errors_app, writes_app, H4.
  destruct wrote.
  - rewrite andb_false_r.
    destruct (expired ctx), (w_waitErr w), (negb (w_exitCode w =? 0)); (do 3 (split; [done|])); by left.
  - rewrite (H5 eq_refl).
    destruct (expired ctx), (w_waitErr w), (negb (w_exitCode w =? 0)), (String.eqb (ds_mode ds) AgentDeliveryMetadata); (do 3 (split; [done|]));
      first [by left | right; eexists; split; [done|]; cbn; tauto].
Qed.

Lemma acquireSandbox_effects rc w :
  match acquireSandbox rc w with
  | (Some (id, _), eff) => emits eff = [] /\ obtained eff = [id] /\ deleted eff = [] /\ unseen eff
  | (None, eff) => emits eff = [] /\ obtained eff = deleted eff /\ refusedWith [400; 500; 503; 507] eff
  end.
Proof.
  unfold acquireSandbox, refusedWith.
  destruct (w_warm w), (w_egress w), (w_newSandboxID w), (w_create w); cbn;
    first [done | by (do 2 (split; [done|]); eexists; split; [done|]; cbn; tauto)].
Qed.

Lemma apply_effects rc id b :
  let eff := applyEgressAndInvocation rc id b in
  emits eff = [] /\ obtained eff = [] /\ deleted eff = [] /\ unseen eff.
Proof.
  unfold applyEgressAndInvocation. cbn zeta. by destruct (_ <? _), (Policy b).
Qed.

Lemma start_effects r rc w id :
  let '(ds, eff) := startAndSetupDelivery json_valid r rc w id in
  emits eff = [] /\ obtained eff = [] /\ deleted eff = []
  /\ match ds with Some _ => unseen eff | None => refusedWith [400; 500; 503; 507] eff end.
Proof.
  unfold startAndSetupDelivery, refusedWith. cbn zeta.
  destruct (readBodyBounded _ _ _); [|split_and!; [done..|eexists; split; [done|]; cbn; tauto] ..].
  destruct (negb (w_start w)); [split_and!; [done..|eexists; split; [done|]; cbn; tauto]|].
  match goal with |- context [String.eqb ?x AgentDeliveryMetadata] => destruct (String.eqb x AgentDeliveryMetadata) end; [|done].
  destruct (negb (w_metaReg w)); [split_and!; [done..|eexists; split; [done|]; cbn; tauto]|done].
Qed.

Lemma acceptHead_code d r w code : acceptHead d r w = inr code -> In code [400; 404; 500; 503].
Proof.
  unfold acceptHead. intros H. repeat case_match; simplify_eq; cbn; auto 10.
Qed.

Lemma acceptTail_code a r w code : acceptTail a r w = inr code -> In code [500; 503].
Proof. unfold acceptTail. intros H. repeat case_match; simplify_eq; cbn; auto. Qed.

Lemma terminalPhase_terminal w ctx d : In (terminalPhase w ctx d) [PhaseSucceeded; PhaseFailed; PhaseTimeout].
Proof. unfold terminalPhase. repeat case_match; cbn; auto. Qed.

(** What the step of [PServe] appends to an empty trace, by its outcome. *)
Lemma serve_effects th rc :
  let w := t_world th in
  let at_ c eff := trace_ok (mkThread (t_req th) w (t_sig th) c eff) in
  match acquireSandbox rc w with
  | (None, eff) => at_ (PEmit rc None PhaseFailed) eff
  | (Some (id, b), eff) =>
      match startAndSetupDelivery json_valid (t_req th) rc w id with
      | (None, eff') => at_ (PEmit rc None PhaseFailed) ((eff ++ applyEgressAndInvocation rc id b) ++ eff' ++ [EDelete id])
      | (Some ds, eff') => at_ (PRunning rc None id ds Waiting)
          ((eff ++ applyEgressAndInvocation rc id b) ++ eff' ++ [EEmit (invocationOf rc PhaseRunning)])
      end
  end.
Proof.
  cbn zeta. pose proof (acquireSandbox_effects rc (t_world th)) as Hq.
  destruct (acquireSandbox rc (t_world th)) as [[[id b]|] eff].
  2: { destruct Hq as (He & Ho & Hr). unfold trace_ok. cbn [t_pc t_trace]. rewrite He. split; [by left|done]. }
  destruct Hq as (E1 & E2 & E3 & E4 & E5), (apply_effects rc id b) as (F1 & F2 & F3 & F4 & F5).
  pose proof (start_effects (t_req th) rc (t_world th) id) as Hst.
  destruct (startAndSetupDelivery _ _ _ _ _) as [[ds|] eff']; destruct Hst as (G1 & G2 & G3 & G4);
    unfold trace_ok, running_ok, up, lifecycle, refusedWith, unseen in *; cbn [t_pc t_trace];
    rewrite !emits_app, !obtained_app, !deleted_app, !errors_app, !writes_app, E1, E2, E3, E4, E5, F1, F2, F3, F4, F5, G1, G2, G3.
  - destruct G4 as [-> ->]. done.
  - destruct G4 as (code & -> & Hc & ->). split; [|done]. left. split; [done|]. by exists code.
Qed.

Lemma answered_after tr eff : unseen eff -> answered tr -> answered (tr ++ eff).
Proof. unfold answered, refusedWith. intros [He Hw]. by rewrite errors_app, writes_app, He, Hw, !app_nil_r. Qed.

(** What a step of a running request appends. *)
Lemma running_effects w g rc rel id ds st pc' eff r tr :
  runningStep w g rc rel id ds st = Some (pc', eff) -> running_ok id st tr ->
  trace_ok (mkThread r w g pc' (tr ++ eff)).
Proof.
  unfold runningStep. destruct (awaits ds g st); [done|]. intros H [(T1 & T2 & T3) Hst].
  assert (forall eff, emits eff = [] -> obtained eff = [] -> deleted eff = [] -> up id (tr ++ eff)) as Hup.
  { intros e E1 E2 E3. unfold up. by rewrite emits_app, obtained_app, deleted_app, T1, T2, T3, E1, E2, E3. }
  assert (forall eff, unseen eff -> errors tr = [] /\ writes tr = [] -> errors (tr ++ eff) = [] /\ writes (tr ++ eff) = []) as Hun.
  { intros e [E1 E2] [F1 F2]. by rewrite errors_app, writes_app, E1, E2, F1, F2. }
  destruct st as [| | |d|p].
  - unfold waitOrStop in H. destruct (_ && _); injection H as <- <-; (split; [by apply Hup|by apply Hun]).
  - injection H as <- <-. split; [by apply Hup|by apply Hun].
  - pose proof (drainResponse_answers rc ds w (sg_ctx g)) as Hq. cbn zeta in Hq.
    destruct (drainResponse _ _ _ _ _) as [d eff1]. injection H as <- <-. destruct Hq as (Q1 & Q2 & Q3 & Q4).
    split; [by apply Hup|]. destruct Hst as [F1 F2]. unfold answered, refusedWith in *. cbn. by rewrite errors_app, writes_app, F1, F2.
  - injection H as <- <-. split; [by apply Hup|]. rewrite app_nil_r. split; [done|apply terminalPhase_terminal].
  - injection H as <- <-. destruct Hst as [Ha Hp]. unfold trace_ok. cbn [t_pc t_trace].
    set (unreg := if String.eqb _ _ then _ else _).
    assert (emits unreg = [] /\ obtained unreg = [] /\ deleted unreg = [] /\ unseen unreg) as (U1 & U2 & U3 & U4 & U5)
      by (unfold unreg; by destruct (String.eqb _ _)).
    rewrite !emits_app, !obtained_app, !deleted_app, T1, T2, T3, U1, U2, U3. cbn. split; [|done]. right. exists p.
    split; [done|]. split; [done|]. apply answered_after; [|done]. unfold unseen. by rewrite errors_app, writes_app, U4, U5.
Qed.

(** The code an undo carries is a status of [acceptTail]. *)
Definition undo_ok (th : thread) : Prop :=
  match t_pc th with
  | PUndoRelease _ _ code | PUndoDec _ code => In code [500; 503]
  | _ => True
  end.

Lemma trace_step s tid s' :
  step s tid = Some s' -> (forall th, threads s !! tid = Some th -> trace_ok th /\ undo_ok th) ->
  forall th', threads s' !! tid = Some th' -> trace_ok th' /\ undo_ok th'.
Proof.
  unfold step. destruct (threads s !! tid) as [th|] eqn:Hth; [|done]. intros Hs Hok.
  destruct (Hok th eq_refl) as [Ht Hu]. clear Hok. unfold trace_ok, undo_ok in Ht, Hu.
  assert (Hset : forall c eff s1, Some (setThread tid th c eff s1) = Some s' ->
      trace_ok (mkThread (t_req th) (t_world th) (t_sig th) c (t_trace th ++ eff))
      /\ undo_ok (mkThread (t_req th) (t_world th) (t_sig th) c (t_trace th ++ eff)) ->
    forall th', threads s' !! tid = Some th' -> trace_ok th' /\ undo_ok th').
  { intros c eff s1 [= <-] H th'. cbn. rewrite lookup_insert_eq. by intros [= <-]. }
  assert (Hquiet : forall c s1, Some (setThread tid th c [] s1) = Some s' -> t_trace th = [] ->
    match c with PInc _ _ | PLoad _ | PLoadOrStore _ | PCheck _ _ | PSend _ _ | PRevision _ _ | PServe _ _ => True
    | _ => False end -> forall th', threads s' !! tid = Some th' -> trace_ok th' /\ undo_ok th').
  { intros c s1 E Etr Hc. apply (Hset _ _ _ E). rewrite Etr. by destruct c. }
  unfold acquireStep in Hs.
  destruct (t_pc th) eqn:Hpc; cbn zeta in *.
  - destruct (acceptHead _ _ _) as [a|code] eqn:Ea; [destruct (_ <=? _); by eapply Hquiet|].
    apply (Hset _ _ _ Hs). rewrite Ht. split; [|done]. right. exists code. split; [done|].
    apply acceptHead_code in Ea. cbn in *. tauto.
  - destruct (semaphores s !! _); by eapply Hquiet.
  - destruct (semaphores s !! _); by eapply Hquiet.
  - destruct (heap s !! _); [|done]. destruct (_ =? _); [|case_bool_decide]; by eapply Hquiet.
  - destruct (heap s !! _); [|done]. destruct (_ <? _); [by eapply Hquiet|].
    apply (Hset _ _ _ Hs). rewrite Ht. split; [|done]. right. exists 429. cbn. tauto.
  - by eapply Hquiet.
  - destruct (acceptTail _ _ _) as [rc|code] eqn:Et; [by eapply Hquiet|].
    apply (Hset _ _ _ Hs). rewrite Ht. split; [done|]. by eapply acceptTail_code.
  - destruct (release _ _); [|done]. apply (Hset _ _ _ Hs). by rewrite Ht.
  - apply (Hset _ _ _ Hs). rewrite Ht. split; [|done]. right. exists code. cbn in *. tauto.
  - pose proof (serve_effects th rc) as Hq. cbn zeta in Hq.
    destruct (acquireSandbox rc (t_world th)) as [[[id b]|] eff];
      [destruct (startAndSetupDelivery _ _ _ _ _) as [[ds|] eff']|]; apply (Hset _ _ _ Hs); rewrite Ht;
      (split; [|done]); exact Hq.
  - destruct (runningStep _ _ _ _ _ _ _) as [[pc' eff]|] eqn:Er; [|done]. apply (Hset _ _ _ Hs).
    split; [by eapply running_effects|]. by apply runningStep_pc in Er as [(st' & ->)|(p & ->)].
  - apply (Hset _ _ _ Hs). split; [|done]. destruct Ht as [Hl Ho]. unfold trace_ok, served, lifecycle, answered, refusedWith in *.
    cbn [t_pc t_trace]. rewrite emits_app, obtained_app, deleted_app, errors_app, writes_app. cbn. rewrite !app_nil_r. done.
  - apply (Hset _ _ _ Hs). split; [|done]. unfold trace_ok. cbn. by rewrite app_nil_r.
  - destruct (release _ _); [|done]. apply (Hset _ _ _ Hs). split; [|done]. unfold trace_ok. cbn. left. by rewrite app_nil_r.
  - done.
Qed.

Lemma traces_ok pub s tid th :
  reachable pub s -> threads s !! tid = Some th -> trace_ok th /\ undo_ok th.
Proof.
  intros Hr. revert tid th. induction Hr as [|s s' Hr IH Hs]; intros tid th; cbn; [by rewrite lookup_empty|].
  destruct Hs as [s tid' s' Hs|s s' [s0 tid' r w Hn|s0 tid' th0 x H0|s0 inv rest Ho|s0]]; cbn; try apply IH.
  2: { rewrite lookup_insert_Some. intros [[<- <-]|[_ H]]; [done|by apply IH in H]. }
  2: { rewrite lookup_insert_Some. intros [[<- <-]|[_ H]]; [by apply (IH tid' th0)|by apply IH in H]. }
  - destruct (decide (tid' = tid)) as [->|Hne].
    + intros Hth. eapply trace_step; [exact Hs| |exact Hth]. intros th0. apply IH.
    + apply step_threads in Hs as (th0 & pc' & eff & _ & ->). rewrite lookup_insert_ne by done. apply IH.
Qed.

(** C15: what a request leaves behind when it is finished, under every interleaving.
    Either it was rejected: one HTTP error and no other effect, so no event either.  Or
    it was admitted: it emitted exactly one terminal event, a failure if the sandbox or
    the delivery could not be set up (with exactly one HTTP error and no byte of a
    response), or else, behind a running event, its outcome, with at most one HTTP error,
    and none behind bytes of a response; and of every sandbox that it created or took
    from the warm pool it asked the deletion (whose own error is only logged), whichever
    phase failed. *)
Theorem finished_request (pub : bool) (s : state) (tid : nat) (th : thread) :
  reachable pub s -> threads s !! tid = Some th -> t_pc th = PDone ->
  (exists code, t_trace th = [EHttpError code] /\ In code [400; 404; 429; 500; 503])
  \/ (lifecycle (emits (t_trace th)) (t_trace th) /\ obtained (t_trace th) = deleted (t_trace th)).
Proof.
  intros Hr Hth Hd. destruct (traces_ok _ _ _ _ Hr Hth) as [Ht _]. unfold trace_ok in Ht.
  rewrite Hd in Ht. unfold served in Ht. tauto.
Qed.

(** ** The concurrency bound *)

(** Threads that run an execution of the agent. *)
Definition executing (k : NamespacedName) (c : pc) : bool :=
  match c with
  | PServe rc _ | PRunning rc _ _ _ _ | PEmit rc _ _ | PDec rc _ => bool_decide (rc_key rc = k)
  | _ => false
  end.

Definition key_of (c : pc) : option NamespacedName :=
  match c with
  | PLoad a | PLoadOrStore a | PCheck a _ | PSend a _ | PInc a _ | PRevision a _
  | PUndoRelease a _ _ | PUndoDec a _ => Some (ad_key a)
  | PServe rc _ | PRunning rc _ _ _ _ | PEmit rc _ _ | PDec rc _ => Some (rc_key rc)
  | _ => None
  end.

Definition cap_of (c : pc) : option Z :=
  match c with
  | PLoad a | PLoadOrStore a | PCheck a _ | PSend a _ | PInc a _ | PRevision a _
  | PUndoRelease a _ _ | PUndoDec a _ => Some (ad_cap a)
  | _ => None
  end.

(** The semaphore a thread acts on, when it has one. *)
Definition ptr_of (c : pc) : option nat :=
  match c with PCheck _ p | PSend _ p => Some p | _ => rel_of c end.

Definition needs_ptr (c : pc) : bool :=
  match c with PLoad _ | PLoadOrStore _ | PUndoDec _ _ => false | _ => true end.

Section Bound.
Context (k : NamespacedName) (c : Z).
Hypothesis c_pos : 0 < c.

(** Every TaskAgent the request could read under [k] has the cap [c]. *)
Definition spec_cap (th : thread) : Prop :=
  forall ta, w_taskAgent (t_world th) k = Found ta -> ta_MaxConcurrent (ta_Spec (st_Agent ta)) = Some c.

(** All requests of the agent act on the one semaphore of capacity [c]. *)
Definition one_sema (s : state) : Prop :=
  (forall p sm, semaphores s !! k = Some p -> heap s !! p = Some sm -> s_cap sm = c)
  /\ forall tid th, threads s !! tid = Some th -> key_of (t_pc th) = Some k ->
       (forall c', cap_of (t_pc th) = Some c' -> c' = c)
       /\ (needs_ptr (t_pc th) = true ->
             exists p, ptr_of (t_pc th) = Some p /\ semaphores s !! k = Some p).

Lemma acceptHead_cap d th a :
  spec_cap th -> acceptHead d (t_req th) (t_world th) = inl a -> ad_key a = k -> ad_cap a = c.
Proof.
  unfold acceptHead, spec_cap. intros Hs H Hk. destruct (String.eqb _ _); [done|]. destruct d; [done|].
  destruct (Cut _ _) as [[ns name] ok].
  destruct (negb ok || String.eqb ns "" || String.eqb name "")%bool; [done|].
  destruct (w_taskAgent _ (mkNN ns name)) as [ta| |] eqn:E; [|done..]. destruct (String.eqb _ _); [done|].
  injection H as <-. cbn in Hk |- *. rewrite Hk in E. by rewrite (Hs _ E).
Qed.

(** What a step does to the shared state, seen from the agent [k]. *)
Lemma one_sema_move s s2 tid th pc' eff :
  one_sema s -> threads s !! tid = Some th -> threads s2 = threads s ->
  (forall p, semaphores s !! k = Some p -> semaphores s2 !! k = Some p) ->
  (forall p sm, semaphores s2 !! k = Some p -> heap s2 !! p = Some sm -> s_cap sm = c) ->
  (key_of pc' = Some k -> (forall c', cap_of pc' = Some c' -> c' = c)
     /\ (needs_ptr pc' = true -> exists p, ptr_of pc' = Some p /\ semaphores s2 !! k = Some p)) ->
  one_sema (setThread tid th pc' eff s2).
Proof.
  intros [H1 H2] Hth Ht Hs Hcap Hpc. split; cbn; [done|]. intros i th'. rewrite Ht, lookup_insert_Some.
  intros [[<- <-]|[_ Hi]]; [done|]. intros Hk. destruct (H2 i th' Hi Hk) as [? Hp]. split; [done|].
  intros Hn. destruct (Hp Hn) as (p & ? & ?). eauto.
Qed.

Lemma one_sema_local s tid th pc' eff :
  one_sema s -> threads s !! tid = Some th ->
  (key_of pc' = Some k -> (forall c', cap_of pc' = Some c' -> c' = c)
     /\ (needs_ptr pc' = true -> exists p, ptr_of pc' = Some p /\ semaphores s !! k = Some p)) ->
  one_sema (setThread tid th pc' eff s).
Proof. intros HS Hth H. by apply (one_sema_move s s); [..|apply HS|]. Qed.

(** Semaphores keep their capacity. *)
Definition same_caps (s s2 : state) : Prop :=
  forall p sm, heap s2 !! p = Some sm -> exists sm0, heap s !! p = Some sm0 /\ s_cap sm0 = s_cap sm.

Lemma same_caps_refl s s2 : heap s2 = heap s -> same_caps s s2.
Proof. intros E p sm. rewrite E. eauto. Qed.

(** A thread that stays on its semaphore, or lets go of it. *)
Lemma one_sema_same s s2 tid th pc' eff :
  one_sema s -> threads s !! tid = Some th -> threads s2 = threads s -> semaphores s2 = semaphores s ->
  same_caps s s2 ->
  key_of pc' = None \/ key_of pc' = key_of (t_pc th) /\ (cap_of pc' = None \/ cap_of pc' = cap_of (t_pc th))
    /\ (needs_ptr pc' = false \/ needs_ptr (t_pc th) = true /\ ptr_of pc' = ptr_of (t_pc th)) ->
  one_sema (setThread tid th pc' eff s2).
Proof.
  intros [H1 H2] Hth Ht Hs Hh Hpc. apply (one_sema_move s s2); [by split|done..| | |]; rewrite Hs; [done| |].
  - intros p sm Hp Hsm. destruct (Hh _ _ Hsm) as (sm0 & ? & <-). eauto.
  - intros Hk. destruct Hpc as [?|(Hk' & Hcap & Hptr)]; [congruence|].
    destruct (H2 tid th Hth) as [Ha Hb]; [congruence|]. split.
    + intros c' Hc'. apply Ha. destruct Hcap; congruence.
    + intros Hn. destruct Hptr as [?|[Hn' ->]]; [congruence|]. auto.
Qed.

(** A fresh semaphore is published for the agent of [a]. *)
Lemma one_sema_fresh s tid th a pc' eff :
  Inv s -> one_sema s -> threads s !! tid = Some th ->
  (ad_key a = k -> semaphores s !! k = None /\ ad_cap a = c) ->
  pc' = PCheck a (freshSema s) \/ pc' = PSend a (freshSema s) ->
  one_sema (setThread tid th pc' eff (setSemaphore (ad_key a) (freshSema s) (ad_cap a) s)).
Proof.
  intros HI HS Hth Hk Hpc. apply (one_sema_move s); try done; cbn.
  - intros p Hp. destruct (decide (ad_key a = k)) as [E|]; [|by rewrite lookup_insert_ne].
    destruct (Hk E). congruence.
  - intros p sm. destruct (decide (ad_key a = k)) as [E|Hne].
    + destruct (Hk E) as [_ Hc]. rewrite E, lookup_insert_eq. intros [= <-]. rewrite lookup_insert_eq.
      intros [= <-]. done.
    + rewrite lookup_insert_ne by done. intros Hp. destruct (inv_sems s HI _ _ Hp) as [sm0 Hsm0].
      assert (heap s !! freshSema s = None)
        by (apply (not_elem_of_dom (D := gset nat)); unfold freshSema; apply is_fresh).
      rewrite lookup_insert_ne by congruence. intros Hsm. by eapply (proj1 HS).
  - intros Hkey. assert (E : ad_key a = k) by (destruct Hpc; subst; cbn in Hkey; congruence).
    destruct (Hk E) as [_ Hc]. rewrite E, lookup_insert_eq. split.
    + intros c' Hc'. destruct Hpc; subst; cbn in Hc'; congruence.
    + intros _. exists (freshSema s). by destruct Hpc; subst.
Qed.

Lemma one_sema_acquire s tid th s' :
  Inv s -> one_sema s -> threads s !! tid = Some th -> acquireStep tid th s = Some s' -> one_sema s'.
Proof.
  intros HI HS Hth. pose proof (proj2 HS tid th Hth) as Hloc. unfold acquireStep.
  destruct (t_pc th) as [|a|a|a p|a p| | | | | | | | | |] eqn:Hpc; try done; cbn in Hloc.
  - destruct (semaphores s !! ad_key a) as [p|] eqn:Es; intros [= <-]; (apply one_sema_local; [done..|]).
    + cbn. intros [= Hk]. destruct Hloc as [Hc _]; [congruence|]. split; [done|]. rewrite <- Hk. eauto.
    + cbn. intros [= Hk]. by destruct Hloc as [Hc _]; [congruence|].
  - destruct (semaphores s !! ad_key a) as [p|] eqn:Es; intros [= <-].
    + apply one_sema_local; [done..|]. cbn. intros [= Hk].
      destruct Hloc as [Hc _]; [congruence|]. split; [done|]. rewrite <- Hk. eauto.
    + apply one_sema_fresh; try done; [|auto]. intros Hk. destruct Hloc as [Hc _]; [congruence|].
      split; [congruence|]. auto.
  - destruct (heap s !! p) as [sm|] eqn:Ep; [|done].
    destruct (Z.eqb_spec (s_cap sm) (ad_cap a)) as [|Hne]; [|case_bool_decide as Eb]; intros [= <-].
    + apply (one_sema_same s); try done; [by apply same_caps_refl|rewrite Hpc; cbn; auto 6].
    + apply one_sema_fresh; try done; [|auto]. intros Hk. exfalso. apply Hne.
      destruct Hloc as [Hc Hp]; [congruence|]. rewrite (Hc (ad_cap a)) by done.
      destruct Hp as (q & [= <-] & Hq); [done|]. by eapply (proj1 HS).
    + apply (one_sema_same s); try done; [by apply same_caps_refl|rewrite Hpc; cbn; auto 6].
  - destruct (heap s !! p) as [sm|] eqn:Ep; [|done]. destruct (_ <? _); intros [= <-].
    + apply (one_sema_same s); try done; [|rewrite Hpc; cbn; auto 6]. intros q sm'. cbn.
      rewrite lookup_insert_Some. intros [[<- <-]|[_ ?]]; eauto.
    + apply (one_sema_same s); try done; [by apply same_caps_refl|auto].
Qed.

Lemma one_sema_step s tid s' :
  Inv s -> one_sema s -> (forall th, threads s !! tid = Some th -> spec_cap th) ->
  step s tid = Some s' -> one_sema s'.
Proof.
  intros HI HS Hsp. unfold step. destruct (threads s !! tid) as [th|] eqn:Hth; [|done].
  pose proof (fun inv => emit_frame inv s) as Hem. cbv zeta in Hem.
  assert (Hsc : forall inv, same_caps s (emitInvocation inv s)).
  { intros inv p sm. rewrite (proj1 (proj2 (Hem inv))). eauto. }
  assert (Hrel : forall rel s1, release rel s = Some s1 ->
    threads s1 = threads s /\ semaphores s1 = semaphores s /\ same_caps s s1).
  { intros [p|] s1; cbn; [|intros [= <-]; auto using same_caps_refl].
    destruct (heap s !! p) as [sm|] eqn:Ep; [|done]. destruct (_ <? _); [|done]. intros [= <-].
    split_and!; [done..|]. intros q sm'. cbn. rewrite lookup_insert_Some. intros [[<- <-]|[_ ?]]; eauto. }
  destruct (t_pc th) eqn:Hpc; cbn zeta; try (by apply one_sema_acquire).
  - destruct (acceptHead _ _ _) as [a|code] eqn:Ea; [destruct (Z.leb_spec (ad_cap a) 0)|]; intros [= <-];
      (apply one_sema_local; [done..|]); cbn; try done; intros [= Hk];
      pose proof (acceptHead_cap _ _ _ (Hsp th eq_refl) Ea Hk); [lia|].
    split; [congruence|done].
  - intros [= <-]. apply (one_sema_same s); rewrite ?Hpc; cbn; auto 10 using same_caps_refl.
  - destruct (acceptTail _ _ _) as [rc|code] eqn:Et; intros [= <-]; apply (one_sema_same s); rewrite ?Hpc; cbn;
      auto 10 using same_caps_refl. apply acceptTail_key in Et. rewrite Et. auto 10.
  - destruct (release rel s) as [s1|] eqn:Er; [|done]. apply Hrel in Er as (? & ? & ?). intros [= <-].
    apply (one_sema_same s); rewrite ?Hpc; cbn; auto 10.
  - intros [= <-]. apply (one_sema_same s); rewrite ?Hpc; cbn; auto 10 using same_caps_refl.
  - destruct (acquireSandbox rc (t_world th)) as [[[id b]|] eff];
      [destruct (startAndSetupDelivery _ _ _ _ _) as [[ds|] eff']|]; intros [= <-];
      apply (one_sema_same s); rewrite ?Hpc; try apply Hem; cbn; auto 10 using same_caps_refl.
  - destruct (runningStep _ _ _ _ _ _ _) as [[pc' eff]|] eqn:Er; [|done]. intros [= <-].
    apply runningStep_pc in Er as [(st' & ->)|(p & ->)];
      apply (one_sema_same s); rewrite ?Hpc; cbn; auto 10 using same_caps_refl.
  - intros [= <-]. apply (one_sema_same s); rewrite ?Hpc; try apply Hem; cbn; auto 10.
  - intros [= <-]. apply (one_sema_same s); rewrite ?Hpc; cbn; auto 10 using same_caps_refl.
  - destruct (release rel s) as [s1|] eqn:Er; [|done]. apply Hrel in Er as (? & ? & ?). intros [= <-].
    apply (one_sema_same s); rewrite ?Hpc; cbn; auto 10.
  - done.
Qed.

Lemma one_sema_reachable pub s :
  reachable pub s -> Z.of_nat (size (threads s)) < 2 ^ 31 ->
  (forall tid th, threads s !! tid = Some th -> spec_cap th) -> one_sema s.
Proof.
  induction 1 as [|s s' Hr IH Hs]; intros Hsz Hsp.
  { split; cbn; [|intros ? ? H]; intros; rewrite lookup_empty in *; done. }
  pose proof (sstep_size _ _ Hs).
  destruct Hs as [s tid s' Hs|s s' [s0 tid r w Hn|s0 tid th0 x H0|s0 inv rest Ho|s0]]; cbn in *.
  2: { destruct IH as [H1 H2]; [lia|intros i th Hi; apply (Hsp i); rewrite lookup_insert_ne; [done|congruence]|].
    split; cbn; [done|]. intros i th. rewrite lookup_insert_Some. intros [[<- <-]|[_ Hi]]; [done|by apply (H2 i)]. }
  2: { destruct IH as [H1 H2].
    { rewrite map_size_insert_Some in Hsz; [lia|by eauto]. }
    { intros i th Hi. destruct (decide (tid = i)) as [->|]; [|apply (Hsp i); by rewrite lookup_insert_ne].
      rewrite H0 in Hi. injection Hi as <-. specialize (Hsp i). rewrite lookup_insert_eq in Hsp. exact (Hsp _ eq_refl). }
    split; cbn; [done|]. intros i th. rewrite lookup_insert_Some. intros [[<- <-]|[_ Hi]]; [by apply (H2 tid th0)|by apply (H2 i)]. }
  - pose proof (step_threads _ _ _ Hs) as (th & pc' & eff & Hth & Ht).
    assert (Hsp0 : forall i t, threads s !! i = Some t -> spec_cap t).
    { intros i t Hi. destruct (decide (i = tid)) as [->|Hne].
      - rewrite Hth in Hi. injection Hi as <-. specialize (Hsp tid). rewrite Ht, lookup_insert_eq in Hsp.
        exact (Hsp _ eq_refl).
      - apply (Hsp i). by rewrite Ht, lookup_insert_ne. }
    eapply one_sema_step; [|apply IH; [lia|done]|apply Hsp0|done]. apply (dispatcher_inv pub); [done|lia].
  - destruct IH; [lia|done|]. by split.
  - destruct IH; [lia|done|]. by split.
Qed.

End Bound.

(** C13: while the spec of a TaskAgent says [MaxConcurrent = c], at most [c]
    executions of it run on the worker at a time, under every interleaving of the
    requests. *)
Theorem concurrency_bounded (pub : bool) (s : state) (k : NamespacedName) (c : Z) :
  0 < c -> reachable pub s -> Z.of_nat (size (threads s)) < 2 ^ 31 ->
  (forall tid th ta, threads s !! tid = Some th -> w_taskAgent (t_world th) k = Found ta ->
     ta_MaxConcurrent (ta_Spec (st_Agent ta)) = Some c) ->
  cnt (executing k) s <= c.
Proof.
  intros Hc Hr Hsz Hsp. pose proof (dispatcher_inv _ _ Hr Hsz) as HI.
  destruct (one_sema_reachable k c Hc pub s Hr Hsz) as [H1 H2]; [by intros tid th Hth ta; apply (Hsp tid)|].
  assert (Hex : forall i th, threads s !! i = Some th -> executing k (t_pc th) = true ->
    exists p, rel_of (t_pc th) = Some p /\ semaphores s !! k = Some p).
  { intros i th Hi He. destruct (H2 i th Hi) as [_ Hp].
    - destruct (t_pc th); cbn in *; try done; apply bool_decide_eq_true in He; by subst.
    - destruct (t_pc th); cbn in *; try done; by apply Hp. }
  destruct (semaphores s !! k) as [p|] eqn:Es.
  - destruct (inv_sems s HI _ _ Es) as [sm Hsm]. destruct (inv_tokens s HI p sm Hsm) as [Htok Hle].
    rewrite (H1 _ _ eq_refl Hsm), Htok in Hle. etransitivity; [|exact Hle]. apply cntm_mono.
    intros i th Hi He. destruct (Hex i th Hi He) as (q & Hq & [= <-]).
    by rewrite (holds_some p p), bool_decide_eq_true_2.
  - transitivity (cntm (fun _ => false) (threads s)).
    + apply cntm_mono. intros i th Hi He. by destruct (Hex i th Hi He) as (q & _ & ?).
    + rewrite cntm_false. lia.
Qed.

(** [n] steps of one request, no other thread moving. *)
Fixpoint solo (n : nat) (s : state) (tid : nat) : option state :=
  match n with
  | O => Some s
  | S n => match step s tid with Some s' => solo n s' tid | None => None end
  end.

Lemma solo_reachable pub n s tid s' : reachable pub s -> solo n s tid = Some s' -> reachable pub s'.
Proof.
  revert s. induction n as [|n IH]; intros s Hr; cbn; [by intros [= <-]|].
  destruct (step s tid) as [s1|] eqn:E; [|done]. apply IH. eapply reach_step; [done|]. by eapply ss_step.
Qed.

End Step.

(** ** Timeouts *)

(** An execution's context always expires: after the spec's timeout when that is
    positive and below the cap, else after the cap. *)
Lemma executionTimeout_bounds spec : 0 < executionTimeout spec <= hardTimeoutCap.
Proof.
  unfold executionTimeout, hardTimeoutCap. destruct spec as [d|]; [|lia].
  destruct (Z.ltb_spec 0 d), (Z.ltb_spec d (5 * 60 * 1000000000)); cbn; lia.
Qed.

(** ** The recorded phase and the answer

    [terminalPhase] is documented to mirror the outcome the client saw.  It does
    not when an agent in Metadata mode exits with 0 and posts nothing: the client
    gets a 502 and the execution is recorded as succeeded. *)
Lemma unanswered_success json_valid rc ds w :
  ds_mode ds = AgentDeliveryMetadata -> w_mdResponse w = None -> w_waitErr w = false -> w_exitCode w = 0 ->
  let '(delivered, eff) := drainResponse json_valid rc ds w None in
  errors eff = [502] /\ terminalPhase w None delivered = PhaseSucceeded.
Proof.
  intros Hm Hr Hw He. unfold drainResponse, respond, terminalPhase. rewrite Hm, Hr, Hw, He. done.
Qed.

(** A mode that is neither of the two, which admission lets through, delivers on the
    standard input and collects nothing: an agent that exits with 0 gets an empty
    success to its client whatever it wrote. *)
Lemma unknown_mode_answers_nothing json_valid rc ds w ctx :
  ds_mode ds <> AgentDeliveryStdin -> ds_mode ds <> AgentDeliveryMetadata -> w_waitErr w = false -> w_exitCode w = 0 ->
  expired ctx = false ->
  drainResponse json_valid rc ds w ctx = (false, []) /\ terminalPhase w ctx false = PhaseSucceeded.
Proof.
  intros H1 H2 Hw He Hx. apply String.eqb_neq in H1, H2. unfold drainResponse, respond, terminalPhase.
  by rewrite H1, H2, Hw, He, Hx.
Qed.

(** ** Concrete runs *)

Definition req_ex : Request :=
  mkRequest {[ HeaderTaskAgent := ["prod/bot"]; HeaderTrigger := ["cron"] ]} (mkLine "POST" "/" "") "hello" false.

Definition agent_ex (max : Z) : ServedTaskAgent :=
  mkServed (mkTaskAgent (mkMeta "prod" "bot" "")
    (mkTaskAgentSpec (mkAgentSandbox "" [] []) "pool" None (Some max) None None None [] None None None ""))
    "uid" "bot-00001".

Definition world_ex (max : Z) : World :=
  mkWorld (fun _ => Found (agent_ex max)) (fun _ => Found "bot-00001") None (Some (mkBundle [] None ""))
    (Some "task-prod-bot-00") Created true true false 0 false
    [mkChunk "done" true true] true None "uuid" "now" 7.

Definition arrive (tid : nat) (max : Z) (s : state) : state :=
  mkState (heap s) (semaphores s) (active s) (draining s)
    (<[tid := mkThread req_ex (world_ex max) silent PAccept []]> (threads s)) (outbox s) (publishing s).

Definition notify (tid : nat) (s : state) (x : signal) : state :=
  match threads s !! tid with
  | Some th =>
      mkState (heap s) (semaphores s) (active s) (draining s)
        (<[tid := mkThread (t_req th) (t_world th) (raise x (t_sig th)) (t_pc th) (t_trace th)]> (threads s))
        (outbox s) (publishing s)
  | None => s
  end.

(** The agent will end by itself, and so will its output and input. *)
Definition begin (tid : nat) (max : Z) (s : state) : state :=
  fold_left (notify tid) [Exited; OutputEnded; StdinEnded] (arrive tid max s).

Definition all_valid (_ : string) : bool := true.

(** Requests started and stepped one after the other: the identifier, the cap
    its TaskAgent has, and the number of steps. *)
Inductive move := Start (tid : nat) (max : Z) | Steps (tid : nat) (n : nat).

Fixpoint play (ms : list move) (s : state) : option state :=
  match ms with
  | [] => Some s
  | Start tid max :: ms =>
      match threads s !! tid with None => play ms (begin tid max s) | Some _ => None end
  | Steps tid n :: ms =>
      match solo all_valid n s tid with Some s' => play ms s' | None => None end
  end.

Lemma begin_reachable tid max s :
  threads s !! tid = None -> reachable all_valid true s -> reachable all_valid true (begin tid max s).
Proof.
  intros Hn Hr. unfold begin. assert (reachable all_valid true (arrive tid max s)) as Ha
    by (eapply reach_step; [exact Hr|]; by apply ss_around, ar_arrive).
  revert Ha. generalize (arrive tid max s). induction [Exited; OutputEnded; StdinEnded] as [|x l IH]; intros s0 Ha; [done|].
  apply IH. unfold notify. destruct (threads s0 !! tid) as [th|] eqn:E; [|done].
  eapply reach_step; [exact Ha|]. by apply ss_around, ar_signal.
Qed.

Lemma play_reachable ms s s' :
  reachable all_valid true s -> play ms s = Some s' -> reachable all_valid true s'.
Proof.
  revert s. induction ms as [|[tid max|tid n] ms IH]; intros s Hr; cbn; [by intros [= <-]| |].
  - destruct (threads s !! tid) eqn:E; [done|]. apply IH. by apply begin_reachable.
  - destruct (solo all_valid n s tid) as [s1|] eqn:E; [|done]. apply IH. by eapply solo_reachable.
Qed.

Definition after (ms : list move) : state := default (NewDispatcher true) (play ms (NewDispatcher true)).

Lemma play_after_reachable ms : reachable all_valid true (after ms).
Proof.
  unfold after. destruct (play ms (NewDispatcher true)) as [s|] eqn:E; cbn; [|constructor].
  eapply play_reachable; [|exact E]. constructor.
Qed.

(** One request, alone, after [n] steps. *)
Definition run_ex (n : nat) : state := after [Start 0 1; Steps 0 n].

Lemma dispatcher_counts_witness :
  get (mkNN "prod" "bot") (active (run_ex 8)) = cnt (counted (mkNN "prod" "bot")) (run_ex 8)
  /\ get (mkNN "prod" "bot") (active (run_ex 8)) = 1.
Proof.
  split; [|vm_compute; reflexivity].
  apply (dispatcher_counts all_valid true (run_ex 8)); [apply play_after_reachable|vm_compute; reflexivity].
Defined.

(** The steps of one request alone are a run. *)
Lemma lrun_solo n s tid s' : solo all_valid n s tid = Some s' -> exists l, lrun all_valid s l s' /\ own tid l = n.
Proof.
  revert s. induction n as [|n IH]; intros s; cbn; [intros [= <-]; exists []; split; [constructor|done]|].
  destruct (step all_valid s tid) as [s1|] eqn:E; [|done]. intros H. destruct (IH _ H) as (l & Hl & Ho).
  exists ((tid, swaps s tid) :: l). split; [by eapply run_step|]. unfold own in *. cbn. by rewrite Nat.eqb_refl; cbn; rewrite Ho.
Qed.


(** The request's thread. *)
Definition thread_ex (n : nat) : thread :=
  default (mkThread req_ex (world_ex 1) silent PAccept []) (threads (run_ex n) !! 0%nat).

Lemma finished_request_witness : lifecycle (emits (t_trace (thread_ex 15))) (t_trace (thread_ex 15)).
Proof.
  destruct (finished_request all_valid true (run_ex 15) 0 (thread_ex 15)) as [(code & H & _)|[H _]].
  - apply play_after_reachable.
  - vm_compute. reflexivity.
  - vm_compute. reflexivity.
  - exfalso. apply (f_equal (@length effect)) in H. vm_compute in H. discriminate H.
  - exact H.
Defined.

Lemma run_ex_threads : threads (run_ex 8) = {[0%nat := thread_ex 8]}.
Proof. vm_compute. reflexivity. Qed.

Lemma concurrency_bounded_witness : cnt (executing (mkNN "prod" "bot")) (run_ex 8) <= 1.
Proof.
  apply (concurrency_bounded all_valid true); [lia|apply play_after_reachable|vm_compute; reflexivity|].
  intros tid th ta. rewrite run_ex_threads. intros [_ <-]%lookup_singleton_Some.
  vm_compute. intros [= <-]. reflexivity.
Defined.

(** A resize forgets the executions that still run: while one runs under a cap of
    one, a request that reads a cap of two and one that reads a cap of one again
    are both admitted. *)
Definition resized_ex : state := after [Start 0 1; Steps 0 8; Start 1 2; Steps 1 7; Start 2 1; Steps 2 7].

Lemma resize_exceeds_cap :
  reachable all_valid true resized_ex /\ cnt (executing (mkNN "prod" "bot")) resized_ex = 3.
Proof. split; [apply play_after_reachable|vm_compute; reflexivity]. Qed.

End Dispatcher.
