(* ===== verification/StatusPub.v ===== *)
(** * Publishing a worker's state

    [internal/worker/agents/notifier.go], [status.go], [statuspublish.go] and
    [invpublish.go]: the coalescing notifier, the status snapshot the
    controller-manager's picker reads, the loop that publishes it, and the retry
    loop of the invocation events.  NATS calls are answers of the environment. *)

From Stdlib Require Import ZArith Lia Ascii String List.
From Stdlib Require Import Sorting.Permutation.
From stdpp Require Import base strings list gmap fin_maps.
From S2P Require Import Prelude GoStrings GoStd ApiTypes InvEvent HealthCheck Dispatcher WarmPool.
Import GoStrings GoStd ApiTypes.ApiTypes.

Module StatusPub.
#[local] Open Scope string_scope.
#[local] Open Scope Z_scope.

(** ** The notifier *)

(** [full] says which channels hold a wake-up; a channel outlives its
    subscription. *)
Record changeNotifier := mkNotifier { subs : gset nat; full : gmap nat bool }.

Definition newChangeNotifier : changeNotifier := mkNotifier ∅ ∅.

Definition Subscribe (n : changeNotifier) : changeNotifier * nat :=
  let ch := fresh (dom (full n) : gset nat) in
  (mkNotifier ({[ch]} ∪ subs n) (<[ch := false]> (full n)), ch).

Definition Unsubscribe (ch : nat) (n : changeNotifier) : changeNotifier :=
  mkNotifier (subs n ∖ {[ch]}) (full n).

(** A non-blocking send to every subscriber: a full buffer stays full. *)
Definition broadcast (n : changeNotifier) : changeNotifier :=
  mkNotifier (subs n) (map_imap (fun ch b => Some (b || bool_decide (ch ∈ subs n))) (full n)).

(** A receive that does not block: [None] when the buffer is empty. *)
Definition receive (ch : nat) (n : changeNotifier) : option changeNotifier :=
  match full n !! ch with
  | Some true => Some (mkNotifier (subs n) (<[ch := false]> (full n)))
  | _ => None
  end.

Lemma broadcast_wakes n ch : ch ∈ subs n -> ch ∈ dom (full n) -> is_Some (receive ch (broadcast n)).
Proof.
  intros Hs Hd. apply elem_of_dom in Hd as [b Hb]. unfold receive, broadcast. cbn.
  rewrite map_lookup_imap, Hb. cbn. rewrite bool_decide_eq_true_2, orb_true_r by done. eauto.
Qed.

(** ** The snapshot *)

Definition str_lt (a b : string) : bool := String.ltb a b.

Definition inFlightLess (a b : HealthCheck.InFlight) : bool :=
  if negb (String.eqb (HealthCheck.if_Namespace a) (HealthCheck.if_Namespace b))
  then str_lt (HealthCheck.if_Namespace a) (HealthCheck.if_Namespace b)
  else str_lt (HealthCheck.if_Agent a) (HealthCheck.if_Agent b).

(** [order] is the order in which the range visits the snapshot. *)
Definition inFlight (order : list (NamespacedName * Z)) : list HealthCheck.InFlight :=
  SliceStable inFlightLess
    (List.map (fun kc => HealthCheck.mkInFlight (nn_namespace (fst kc)) (nn_name (fst kc)) (uint32 (snd kc)))
       order).

(** What [sandboxMgr.List] reports of a sandbox. *)
Record instance := mkInstance {
  i_ready : bool;                         (* Phase == SandboxReady *)
  i_namespace : string; i_agentRef : string; i_revision : string;
}.

Definition countWarm (counts : gmap WarmPool.WarmKey Z) (sb : instance) : gmap WarmPool.WarmKey Z :=
  if negb (i_ready sb) then counts
  else
    let k := WarmPool.mkWarmKey (i_namespace sb) (i_agentRef sb) (i_revision sb) in
    if String.eqb (WarmPool.wk_agent k) "" || String.eqb (WarmPool.wk_revision k) "" then counts
    else <[k := uint32 (default 0 (counts !! k) + 1)]> counts.

Definition warmLess (a b : HealthCheck.WarmRevision) : bool :=
  if negb (String.eqb (HealthCheck.wr_Namespace a) (HealthCheck.wr_Namespace b))
  then str_lt (HealthCheck.wr_Namespace a) (HealthCheck.wr_Namespace b)
  else if negb (String.eqb (HealthCheck.wr_Agent a) (HealthCheck.wr_Agent b))
  then str_lt (HealthCheck.wr_Agent a) (HealthCheck.wr_Agent b)
  else str_lt (HealthCheck.wr_Revision a) (HealthCheck.wr_Revision b).

Definition warmCounts (sbs : list instance) : gmap WarmPool.WarmKey Z := fold_left countWarm sbs ∅.

Definition warmRevisions (order : list (WarmPool.WarmKey * Z)) : list HealthCheck.WarmRevision :=
  SliceStable warmLess
    (List.map (fun kc => HealthCheck.mkWarmRevision (WarmPool.wk_namespace (fst kc))
       (WarmPool.wk_agent (fst kc)) (WarmPool.wk_revision (fst kc)) (snd kc)) order).

Definition cachedImages (refs : list string) : list string := SliceStable str_lt refs.

Definition buildWorkerStatus (warmOrder : list (WarmPool.WarmKey * Z))
    (activeOrder : list (NamespacedName * Z)) (refs : list string) : HealthCheck.WorkerStatus :=
  HealthCheck.mkWorkerStatus (warmRevisions warmOrder) (inFlight activeOrder) (cachedImages refs).

(** Finding a count in a list with one entry per agent. *)
Lemma inFlightCount_unique ns agent l n :
  NoDup (List.map (fun f => (HealthCheck.if_Namespace f, HealthCheck.if_Agent f)) l) ->
  In (HealthCheck.mkInFlight ns agent n) l -> HealthCheck.inFlightCount ns agent l = n.
Proof.
  induction l as [|f l IH]; cbn; [done|]. intros [Hnot Hnd]%NoDup_cons [->|Hin]; cbn.
  - by rewrite !String.eqb_refl.
  - destruct (String.eqb_spec (HealthCheck.if_Namespace f) ns) as [E1|]; cbn; [|by apply IH].
    destruct (String.eqb_spec (HealthCheck.if_Agent f) agent) as [E2|]; [|by apply IH].
    exfalso. apply Hnot. apply list_elem_of_In, in_map_iff. eexists. split; [|exact Hin]. cbn. congruence.
Qed.

Lemma inFlightCount_absent ns agent l :
  ~ In (ns, agent) (List.map (fun f => (HealthCheck.if_Namespace f, HealthCheck.if_Agent f)) l) ->
  HealthCheck.inFlightCount ns agent l = 0.
Proof.
  induction l as [|f l IH]; cbn; [done|]. intros H.
  destruct (String.eqb_spec (HealthCheck.if_Namespace f) ns), (String.eqb_spec (HealthCheck.if_Agent f) agent); cbn;
    try (apply IH; tauto). exfalso. apply H. left. congruence.
Qed.

(** The picker reads the counter: whatever order the snapshot is ranged over in. *)
Lemma inFlight_reports (c : Dispatcher.activeCounter) order ns agent :
  Permutation order (map_to_list c) -> 0 <= Dispatcher.get (mkNN ns agent) c < 2 ^ 32 ->
  HealthCheck.inFlightCount ns agent (inFlight order) = Dispatcher.get (mkNN ns agent) c.
Proof.
  intros Hp Hr. unfold Dispatcher.get in *.
  set (f := fun kc : NamespacedName * Z =>
    HealthCheck.mkInFlight (nn_namespace (fst kc)) (nn_name (fst kc)) (uint32 (snd kc))).
  assert (Hperm : Permutation (inFlight order) (List.map f (map_to_list c))).
  { unfold inFlight. rewrite SliceStable_perm. by apply Permutation_map. }
  set (key := fun i => (HealthCheck.if_Namespace i, HealthCheck.if_Agent i)).
  assert (Hkeys : List.map key (List.map f (map_to_list c))
    = List.map (fun k => (nn_namespace k, nn_name k)) (map_to_list c).*1).
  { generalize (map_to_list c). intros l. induction l as [|x l IH]; cbn; [done|]. by f_equal. }
  assert (Hnd : NoDup (List.map key (inFlight order))).
  { rewrite (Permutation_map key Hperm), Hkeys. apply NoDup_fmap_2; [|apply NoDup_fst_map_to_list].
    intros [] []. cbn. congruence. }
  destruct (c !! mkNN ns agent) as [n|] eqn:E; cbn in *.
  - apply inFlightCount_unique; [exact Hnd|]. apply (Permutation_in _ (Permutation_sym Hperm)).
    apply in_map_iff. exists (mkNN ns agent, n). split.
    + unfold f. cbn. f_equal. unfold uint32. apply wrap_id. unfold in_range. lia.
    + by apply list_elem_of_In, elem_of_map_to_list.
  - apply inFlightCount_absent. intros Hin. apply (Permutation_in _ (Permutation_map key Hperm)) in Hin.
    rewrite Hkeys in Hin. apply in_map_iff in Hin as ([ns' agent'] & Ek & Hin). injection Ek as -> ->.
    apply list_elem_of_In, list_elem_of_fmap in Hin as ([k n] & Ek & Hin).
    apply elem_of_map_to_list in Hin. cbn in Ek. congruence.
Qed.

(** What a worker publishes is what runs on it: in every reachable state of the
    dispatcher, and whatever order the snapshot is ranged over in, the in-flight
    count the picker reads for an agent is the number of its requests between
    admission and completion. *)
Theorem status_counts_executions (json_valid : string -> bool) (pub : bool) (s : Dispatcher.state)
    (order : list (NamespacedName * Z)) (warmOrder : list (WarmPool.WarmKey * Z)) (refs : list string)
    (ns agent : string) :
  Dispatcher.reachable json_valid pub s -> Z.of_nat (size (Dispatcher.threads s)) < 2 ^ 31 ->
  Permutation order (map_to_list (Dispatcher.Snapshot (Dispatcher.active s))) ->
  HealthCheck.inFlightCount ns agent (HealthCheck.ws_InFlight (buildWorkerStatus warmOrder order refs))
  = Dispatcher.cnt (Dispatcher.counted (mkNN ns agent)) s.
Proof.
  intros Hr Hsz Hp. pose proof (Dispatcher.dispatcher_inv _ _ _ Hr Hsz) as HI.
  pose proof (Dispatcher.cntm_bounds (Dispatcher.counted (mkNN ns agent)) (Dispatcher.threads s)) as Hb.
  cbn [buildWorkerStatus HealthCheck.ws_InFlight].
  rewrite (inFlight_reports (Dispatcher.active s)); rewrite ?(Dispatcher.get_enc _ _ HI); [done|done|].
  unfold Dispatcher.cnt. lia.
Qed.

Lemma status_counts_executions_witness :
  HealthCheck.inFlightCount "prod" "bot" (HealthCheck.ws_InFlight (buildWorkerStatus []
    [(mkNN "prod" "bot", 1)] [])) = 1.
Proof.
  rewrite (status_counts_executions Dispatcher.all_valid true (Dispatcher.run_ex 8));
    [vm_compute; reflexivity | apply Dispatcher.play_after_reachable | vm_compute; reflexivity |].
  vm_compute. reflexivity.
Defined.

(** ** The publisher loop

    A counter update and its broadcast are two steps of the updating goroutine;
    taking the snapshot and putting it are two steps of the publisher. *)
Inductive pub_pc := PubPut | PubPutting (snap : Dispatcher.activeCounter) | PubWait.

Record pub := mkPub {
  p_active : Dispatcher.activeCounter;
  p_owed : nat;                                  (* updates not yet broadcast *)
  p_notifier : changeNotifier;
  p_ch : nat;                                    (* the publisher's channel *)
  p_pc : pub_pc;
  p_last : option Dispatcher.activeCounter;      (* the value in the bucket *)
  p_failed : bool;                               (* whether the last Put failed *)
}.

(** [Run], from the subscription on. *)
Definition pub_init (c : Dispatcher.activeCounter) (n : changeNotifier) : pub :=
  let '(n, ch) := Subscribe n in mkPub c 0 n ch PubPut None false.

Inductive pub_step : pub -> pub -> Prop :=
| ps_inc p k :
    pub_step p (mkPub (Dispatcher.inc k (p_active p)) (S (p_owed p)) (p_notifier p) (p_ch p) (p_pc p) (p_last p) (p_failed p))
| ps_dec p k :
    pub_step p (mkPub (Dispatcher.dec k (p_active p)) (S (p_owed p)) (p_notifier p) (p_ch p) (p_pc p) (p_last p) (p_failed p))
| ps_broadcast p n :
    p_owed p = S n ->
    pub_step p (mkPub (p_active p) n (broadcast (p_notifier p)) (p_ch p) (p_pc p) (p_last p) (p_failed p))
| ps_wake p n :
    p_pc p = PubWait -> receive (p_ch p) (p_notifier p) = Some n ->
    pub_step p (mkPub (p_active p) (p_owed p) n (p_ch p) PubPut (p_last p) (p_failed p))
| ps_tick p :
    p_pc p = PubWait ->
    pub_step p (mkPub (p_active p) (p_owed p) (p_notifier p) (p_ch p) PubPut (p_last p) (p_failed p))
| ps_snapshot p :
    p_pc p = PubPut ->
    pub_step p (mkPub (p_active p) (p_owed p) (p_notifier p) (p_ch p)
                  (PubPutting (Dispatcher.Snapshot (p_active p))) (p_last p) (p_failed p))
| ps_put p c (ok : bool) :
    p_pc p = PubPutting c ->
    pub_step p (mkPub (p_active p) (p_owed p) (p_notifier p) (p_ch p) PubWait
                  (if ok then Some c else p_last p) (negb ok)).

Inductive pub_reachable : pub -> Prop :=
| pr_init c n : pub_reachable (pub_init c n)
| pr_step p p' : pub_reachable p -> pub_step p p' -> pub_reachable p'.

Definition pending (p : pub) : Prop := full (p_notifier p) !! p_ch p = Some true.

Record pub_inv (p : pub) : Prop := {
  pi_sub : p_ch p ∈ subs (p_notifier p) /\ p_ch p ∈ dom (full (p_notifier p));
  pi_putting : forall c, p_pc p = PubPutting c -> p_owed p = 0%nat -> ~ pending p -> c = p_active p;
  pi_wait : p_pc p = PubWait -> p_owed p = 0%nat -> ~ pending p -> p_failed p = false ->
    p_last p = Some (p_active p);
}.

Lemma broadcast_pending p :
  p_ch p ∈ subs (p_notifier p) /\ p_ch p ∈ dom (full (p_notifier p)) ->
  full (broadcast (p_notifier p)) !! p_ch p = Some true.
Proof.
  intros [Hs [b Hb]%elem_of_dom]. unfold broadcast. cbn. rewrite map_lookup_imap, Hb. cbn.
  by rewrite bool_decide_eq_true_2, orb_true_r.
Qed.

Lemma pub_inv_step p p' : pub_inv p -> pub_step p p' -> pub_inv p'.
Proof.
  intros [Hsub Hput Hwait] Hs. pose proof (broadcast_pending p Hsub) as Hbp.
  destruct Hs as [p k|p k|p n Ho|p n Hw Hr|p Hw|p Hw|p c ok Hc].
  1, 2: split; cbn; [done|discriminate..].
  - split; cbn.
    + destruct Hsub as [Hs Hd]. split; [done|]. apply elem_of_dom. unfold broadcast in Hbp. cbn in Hbp. eauto.
    + intros c _ _ Hn. by destruct Hn.
    + intros _ _ Hn. by destruct Hn.
  - unfold receive in Hr. destruct (full (p_notifier p) !! p_ch p) as [[]|] eqn:E; [|done..].
    injection Hr as <-. split; cbn; [|discriminate..]. rewrite dom_insert_L. set_solver.
  - split; cbn; [done|discriminate..].
  - split; cbn; [done| |discriminate]. by intros c [= <-].
  - split; cbn; [done|discriminate|]. intros _ Ho Hn. destruct ok; [|done]. intros _. f_equal. by apply Hput.
Qed.

Lemma pub_reachable_inv p : pub_reachable p -> pub_inv p.
Proof.
  induction 1 as [c n|p p' _ IH Hs]; [|by eapply pub_inv_step].
  unfold pub_init, Subscribe. split; cbn; [|discriminate..]. rewrite dom_insert_L. set_solver.
Qed.

(** The published status never silently lags the counter: whenever the
    publisher sleeps with no wake-up pending, every update has been broadcast and
    the last Put succeeded, the bucket holds exactly the current counts; and while
    it lags, the publisher is about to put, or has a wake-up waiting, or an
    updater is about to send one, or a Put failed and the ticker retries. *)
Theorem published_status_current (p : pub) :
  pub_reachable p ->
  p_pc p = PubWait -> p_owed p = 0%nat -> receive (p_ch p) (p_notifier p) = None -> p_failed p = false ->
  p_last p = Some (p_active p).
Proof.
  intros Hr Hw Ho Hn Hf. apply (pi_wait _ (pub_reachable_inv _ Hr)); try done.
  unfold pending. intros E. unfold receive in Hn. by rewrite E in Hn.
Qed.

Lemma published_status_current_witness :
  let k := mkNN "prod" "bot" in
  let n := (Subscribe newChangeNotifier).1 in
  let p := mkPub (Dispatcher.inc k ∅) 0 n 0 PubWait (Some (Dispatcher.inc k ∅)) false in
  p_last p = Some (p_active p).
Proof.
  cbv zeta. apply published_status_current; try reflexivity.
  eapply pr_step; [|refine (ps_put (mkPub _ _ _ _ (PubPutting _) None false) _ true _); reflexivity].
  eapply pr_step; [|refine (ps_snapshot (mkPub _ _ _ _ PubPut None false) _); reflexivity].
  exact (pr_init (Dispatcher.inc (mkNN "prod" "bot") ∅) newChangeNotifier).
Defined.

(** ** Retrying an invocation event *)

Definition invRetryInitial : Z := 250 * 1000000.
Definition invRetryMax : Z := 5 * 1000000000.
Definition invRetryBudget : Z := 5 * 60 * 1000000000.

(** What the environment does in one round: the clock after the attempt, whether
    it was acknowledged, whether the worker is shutting down then or during the
    pause, and how long the pause took. *)
Record round := mkRound {
  rd_after : Z; rd_acked : bool; rd_done : bool; rd_done_waiting : bool; rd_pause : Z
}.

Inductive publish_result := Acked | ShutDown | GaveUp.

(** The loop of [publishWithRetry]; [None] when the rounds run out. *)
Fixpoint publishLoop (deadline backoff : Z) (rs : list round) : option publish_result :=
  match rs with
  | [] => None
  | r :: rs =>
      if rd_acked r then Some Acked
      else if rd_done r then Some ShutDown
      else if deadline <? rd_after r then Some GaveUp
      else if rd_done_waiting r then Some ShutDown
      else publishLoop deadline (if invRetryMax <? backoff * 2 then invRetryMax else backoff * 2) rs
  end.

Definition publishWithRetry (start : Z) (rs : list round) : option publish_result :=
  publishLoop (start + invRetryBudget) invRetryInitial rs.

(** A clock that moves forward: a pause takes at least the backoff. *)
Fixpoint clock_runs (now backoff : Z) (rs : list round) : Prop :=
  match rs with
  | [] => True
  | r :: rs => now <= rd_after r /\ backoff <= rd_pause r
      /\ clock_runs (rd_after r + rd_pause r) (if invRetryMax <? backoff * 2 then invRetryMax else backoff * 2) rs
  end.

(** A round that does not end the loop leaves the deadline in the future and the
    clock at least one backoff later. *)
Lemma publishLoop_round deadline now backoff backoff' rs :
  (if invRetryMax <? backoff * 2 then invRetryMax else backoff * 2) = backoff' ->
  rs <> [] -> clock_runs now backoff rs -> publishLoop deadline backoff rs = None ->
  exists r rs' now', rs = r :: rs' /\ now + backoff <= now' /\ now <= deadline
    /\ clock_runs now' backoff' rs' /\ publishLoop deadline backoff' rs' = None.
Proof.
  destruct rs as [|r rs]; [done|]. intros <- _ (H1 & H2 & H3) H. cbn in H.
  destruct (rd_acked r), (rd_done r); try done. destruct (Z.ltb_spec deadline (rd_after r)); [done|].
  destruct (rd_done_waiting r); [done|]. exists r, rs, (rd_after r + rd_pause r).
  split_and!; [done|lia|lia|done..].
Qed.

Lemma publishLoop_ends deadline now backoff rs :
  backoff = invRetryMax -> clock_runs now backoff rs ->
  deadline < now + invRetryMax * (Z.of_nat (length rs) - 1) -> rs <> [] ->
  publishLoop deadline backoff rs <> None.
Proof.
  intros ->. revert now. induction rs as [|r rs IH]; intros now Hc Hd Hne H; [done|].
  apply (publishLoop_round _ now _ invRetryMax) in H as (r' & rs' & now' & [= <- <-] & Hn & Hle & Hc' & H'); [|done..].
  destruct rs as [|r2 rs]; [cbn in Hd; lia|].
  eapply (IH now'); [done| |done|done]. cbn [length] in *. unfold invRetryMax in *. lia.
Qed.

(** An invocation event is retried for a bounded time: whatever the server
    answers, 66 attempts are enough for the loop to end with an acknowledgement, a
    shutdown or the exhausted five-minute budget. *)
Theorem publishWithRetry_terminates (start now : Z) (rs : list round) :
  start <= now -> clock_runs now invRetryInitial rs -> 66 <= Z.of_nat (length rs) ->
  publishWithRetry start rs <> None.
Proof.
  intros Hs Hc Hl H. unfold publishWithRetry in H.
  assert (Hne : forall l : list round, 1 <= Z.of_nat (length l) -> l <> []) by (by intros []).
  apply (publishLoop_round _ now _ (500 * 1000000)) in H as (r1 & l1 & n1 & -> & B1 & _ & C1 & H1);
    [|done|apply Hne; lia|done]. cbn [length] in Hl.
  apply (publishLoop_round _ n1 _ (1000 * 1000000)) in H1 as (r2 & l2 & n2 & -> & B2 & _ & C2 & H2);
    [|done|apply Hne; lia|done]. cbn [length] in Hl.
  apply (publishLoop_round _ n2 _ (2000 * 1000000)) in H2 as (r3 & l3 & n3 & -> & B3 & _ & C3 & H3);
    [|done|apply Hne; lia|done]. cbn [length] in Hl.
  apply (publishLoop_round _ n3 _ (4000 * 1000000)) in H3 as (r4 & l4 & n4 & -> & B4 & _ & C4 & H4);
    [|done|apply Hne; lia|done]. cbn [length] in Hl.
  apply (publishLoop_round _ n4 _ (5000 * 1000000)) in H4 as (r5 & l5 & n5 & -> & B5 & _ & C5 & H5);
    [|done|apply Hne; lia|done]. cbn [length] in Hl.
  revert H5. apply (publishLoop_ends _ n5); [done|done| |apply Hne; lia].
  unfold invRetryMax, invRetryInitial, invRetryBudget in *. lia.
Qed.

(** Rounds of a server that never answers, each at the end of its backoff. *)
Fixpoint silent (n : nat) (now backoff : Z) : list round :=
  match n with
  | O => []
  | S n => mkRound now false false false backoff
           :: silent n (now + backoff) (if invRetryMax <? backoff * 2 then invRetryMax else backoff * 2)
  end.

Lemma silent_runs n now backoff : clock_runs now backoff (silent n now backoff).
Proof. revert now backoff. induction n as [|n IH]; intros; cbn; [done|]. split_and!; [lia|lia|apply IH]. Qed.

Lemma publishWithRetry_terminates_witness :
  publishWithRetry 0 (silent 70 0 invRetryInitial) <> None.
Proof.
  apply (publishWithRetry_terminates 0 0); [lia|apply silent_runs|vm_compute; discriminate].
Defined.

End StatusPub.
