(* ===== verification/ExtMut.v ===== *)
(** * Replies and mutations of the external processor

    The pure part of [src/internal/extproc]: the replies to Envoy and the header
    mutations in them ([mutations.go]), signing ([signing.go]), the choice among a
    partial candidate set ([backendselect.go]), the translation gates and header
    removals ([translate.go]) and the body rewrites ([parsers/rewrite.go], the end
    of [downstream.go]).  A nil mutation is [None].  Log lines are left out. *)

From Stdlib Require Import ZArith Lia NArith Ascii String List.
From stdpp Require Import base strings list gmap sorting pretty.
From S2P Require Import Prelude GoStrings GoStd GoPath ApiTypes Registry LlmRoute SigV4 LlmCall CredTable InvocationCtx.
Import GoStrings GoStd LlmRoute.
Import CredTable.

#[local] Open Scope string_scope.
#[local] Open Scope Z_scope.
#[local] Open Scope list_scope.

Module ExtMut.

(** ** Replies *)

Inductive BodySendMode := NONE | STREAMED | BUFFERED.
Record ProcessingMode := mkMode { RequestBodyMode : BodySendMode; ResponseBodyMode : BodySendMode }.

Definition modeOverride (req resp : BodySendMode) : ProcessingMode := mkMode req resp.

(** [CommonResponse]: [cr_Replace] is CONTINUE_AND_REPLACE. *)
Record CommonResponse := mkCommon {
  cr_Replace : bool;
  cr_HeaderMutation : option HeaderMutation;
  cr_BodyMutation : option string;
  cr_ClearRouteCache : bool;
}.

Inductive oneofResponse :=
| RequestHeaders (c : CommonResponse) | ResponseHeaders (c : CommonResponse)
| RequestBody (c : CommonResponse) | ResponseBody (c : CommonResponse)
| RequestTrailers | ResponseTrailers
| ImmediateResponse (code : Z) (body : string) (contentType : string).

(** [pr_Subset] is the backend name under [envoy.lb] in the dynamic metadata. *)
Record ProcessingResponse := mkReply {
  pr_Response : oneofResponse;
  pr_ModeOverride : option ProcessingMode;
  pr_Subset : option string;
}.

Definition reply (r : oneofResponse) : ProcessingResponse := mkReply r None None.

(** ** Strings *)

(** [jsonString]. *)
Definition jsonEscape (c : ascii) : string :=
  let n := N_of_ascii c in
  (if (n =? 34) || (n =? 92) then String "\"%char (String c "")
   else if n =? 10 then "\n" else if n =? 13 then "\r" else if n =? 9 then "\t"
   else if n <? 32 then "" else String c "")%N.

Fixpoint jsonEscapeAll (s : string) : string :=
  match s with EmptyString => "" | String c t => (jsonEscape c ++ jsonEscapeAll t)%string end.

Definition quote : ascii := "034"%char.

Definition jsonString (s : string) : string := String quote (jsonEscapeAll s ++ String quote "")%string.

Definition immediateResponse (code : Z) (detail : string) : ProcessingResponse :=
  reply (ImmediateResponse code
           ("{" ++ String quote "error" ++ String quote ":" ++ jsonString detail ++ "}")%string "application/json").

(** ** Continue and replace *)

Definition headersContinue (isRequest : bool) : ProcessingResponse :=
  let c := mkCommon false None None false in
  reply (if isRequest then RequestHeaders c else ResponseHeaders c).

Definition headersContinueWithHeaders (mut : option HeaderMutation) (clearRouteCache : bool) : ProcessingResponse :=
  reply (RequestHeaders (mkCommon false mut None clearRouteCache)).

Definition mergeHeaderMut (a b : option HeaderMutation) : option HeaderMutation :=
  match a, b with
  | a, None => a
  | None, b => b
  | Some a, Some b => Some (mkMutation (SetHeaders a ++ SetHeaders b) (RemoveHeaders a ++ RemoveHeaders b))
  end.

Definition bodyReply (isRequest : bool) (c : CommonResponse) : ProcessingResponse :=
  reply (if isRequest then RequestBody c else ResponseBody c).

Definition bodyContinue (isRequest : bool) : ProcessingResponse :=
  bodyReply isRequest (mkCommon false None None false).

Definition bodyMutationStreamed (isRequest : bool) (newBody : string) : ProcessingResponse :=
  bodyReply isRequest (mkCommon false None (Some newBody) false).

Definition bodyMutation (isRequest : bool) (newBody : string) : ProcessingResponse :=
  bodyReply isRequest (mkCommon true None (Some newBody) false).

Definition bodyContinueWithHeaders (isRequest : bool) (mut : option HeaderMutation) (clear : bool) : ProcessingResponse :=
  bodyReply isRequest (mkCommon false mut None clear).

Definition bodyMutationWithHeaders (isRequest : bool) (newBody : string) (mut : option HeaderMutation) (clear : bool)
    : ProcessingResponse :=
  bodyReply isRequest (mkCommon true mut (Some newBody) clear).

Definition trailersContinue (isRequest : bool) : ProcessingResponse :=
  reply (if isRequest then RequestTrailers else ResponseTrailers).

(** ** The authority *)

Fixpoint allDigits (s : string) : bool :=
  match s with
  | EmptyString => true
  | String c t => ((48 <=? N_of_ascii c) && (N_of_ascii c <=? 57))%N && allDigits t
  end.

(** [authorityPortRE]: a colon and one or more digits at the end. *)
Fixpoint hasPort (s : string) : bool :=
  match s with
  | EmptyString => false
  | String c t => (Ascii.eqb c ":" && negb (String.eqb t "") && allDigits t) || hasPort t
  end.

Definition authorityPortMutation (authority : string) : option HeaderMutation :=
  if String.eqb authority "" || hasPort authority then None
  else Some (mkMutation [mkHeaderOption ":authority" (authority ++ ":443")%string] []).

Definition effectiveAuthority (authority : string) : string :=
  if String.eqb authority "" || hasPort authority then authority else (authority ++ ":443")%string.

(** [net.JoinHostPort]. *)
Definition JoinHostPort (host : string) (port : Z) : string :=
  (if Contains host ":" then "[" ++ host ++ "]:" ++ pretty port else host ++ ":" ++ pretty port)%string.

(** ** Trace context *)

Definition HeaderTraceparent : string := "traceparent".
Definition HeaderTracestate : string := "tracestate".

Section Trace.
Context {SpanContext : Type} (IsValid : SpanContext -> bool).
(** The W3C propagator. *)
Context (inject : SpanContext -> string * string).

(** [tracectx.Inject]. *)
Definition Inject (sc : SpanContext) : string * string := if IsValid sc then inject sc else ("", "").

(** The header map is updated in place: it is returned with the mutation. *)
Definition applyTraceparentInjection (now : Z) (existing : option HeaderMutation)
    (store : option (@InvocationCtx.Store SpanContext)) (invocationID : string) (headers : gmap string string)
    : option HeaderMutation * gmap string string :=
  match store with
  | None => (existing, headers)
  | Some store =>
      if String.eqb invocationID "" then (existing, headers)
      else match headers !! HeaderTraceparent with
      | Some _ => (existing, headers)
      | None =>
          match InvocationCtx.Get now invocationID store with
          | None => (existing, headers)
          | Some parent =>
              if negb (IsValid parent) then (existing, headers)
              else
                let '(traceparent, tracestate) := Inject parent in
                if String.eqb traceparent "" then (existing, headers)
                else
                  let existing := setHeaderMut existing HeaderTraceparent traceparent in
                  let headers := <[HeaderTraceparent := traceparent]> headers in
                  if String.eqb tracestate "" then (existing, headers)
                  else (setHeaderMut existing HeaderTracestate tracestate,
                        <[HeaderTracestate := tracestate]> headers)
          end
      end
  end.

End Trace.

(** ** Signing *)

Record signInput := mkSignInput {
  si_method : string; si_authority : string; si_path : string; si_body : string;
  si_headers : gmap string string;
}.

Definition isSig (inj : credInjection) : bool := bool_decide (is_Some (sigv4 inj)).

Definition splitInjections (injs : list credInjection) : list credInjection * list credInjection :=
  (List.filter (fun i => negb (isSig i)) injs, List.filter isSig injs).

Definition removeHeadersMut (existing : option HeaderMutation) (names : list string) : option HeaderMutation :=
  match names with
  | [] => existing
  | _ => let m := default emptyMutation existing in
         Some (mkMutation (SetHeaders m) (RemoveHeaders m ++ names))
  end.

(** The agent's [x-amz-*] headers the signature does not set, sorted. *)
Definition shed (headers : gmap string string) (set_ : list string) : list string :=
  merge_sort String.le
    (List.filter (fun n => HasPrefix n "x-amz-" && negb (existsb (String.eqb n) set_))
       (List.map fst (map_to_list headers))).

Section Signing.
Context (sha256 : string -> string) (hmac : string -> string -> string) (now : SigV4.Now).

(** [sigs[0]] has a SigV4 credential, as every element of [splitInjections]'s
    second result. *)
Definition applySigning (existing : option HeaderMutation) (sigs : list credInjection) (in_ : signInput)
    : option HeaderMutation :=
  match sigs with
  | [] => existing
  | sig :: _ =>
      match sigv4 sig with
      | None => existing
      | Some sc =>
          let region := if String.eqb (region sc) "" then SigV4.RegionFromHost (si_authority in_) else region sc in
          if String.eqb region "" then existing
          else
            let hs := SigV4.Sign sha256 hmac (si_method in_) (si_authority in_) (si_path in_) (si_body in_)
                        (creds sc) region (service sc) now in
            let existing := fold_left (fun m h => setHeaderMut m (SigV4.Name h) (SigV4.Value h)) hs existing in
            removeHeadersMut existing (shed (si_headers in_) (List.map SigV4.Name hs))
      end
  end.

End Signing.

(** ** Picking one of a partial candidate set *)

Definition positiveWeight (c : Candidate) : Z := if 0 <? c_Weight c then c_Weight c else 0.

Fixpoint pickLoop (pick : Z) (cands : list Candidate) : option Candidate :=
  match cands with
  | [] => None
  | c :: cs => if c_Weight c <=? 0 then pickLoop pick cs
               else if pick <? c_Weight c then Some c else pickLoop (pick - c_Weight c) cs
  end.

(** A modulus of zero panics. *)
Definition weightedPick (candidates : list Candidate) (key : string) : outcome unit (option Candidate) :=
  match candidates with
  | [] => Ok None
  | [c] => Ok (Some c)
  | c :: _ =>
      let total := int64 (sumZ (List.map positiveWeight candidates)) in
      if total =? 0 then Ok (Some c)
      else if uint32 total =? 0 then Panic
      else match pickLoop (fnv32a key mod uint32 total) candidates with
           | Some c' => Ok (Some c')
           | None => Ok (Some c)
           end
  end.

(** ** Providers, bodies and candidates

    The codecs and hooks of the registered providers, and the two uses of the JSON
    decoder, are the fields of [Hooks]. *)

Class Hooks := {
  codecOf : Registry.Provider -> LlmCall.Codec;
  (** [EnsureStreamUsage] and [ErrorBody] of a provider, when set *)
  ensureStreamUsage : Registry.Provider -> option (string -> string -> option string);
  errorBody : Registry.Provider -> option (string -> string);
  (** the string under ["model"] of a body that decodes to an object *)
  decodedModel : string -> option string;
  (** the object of the body with ["model"] replaced, encoded again *)
  replacedModel : string -> string -> option string;
  (** [JSONString] *)
  marshalString : string -> string;
}.

Definition streamColonTrueProbes : list string :=
  [String quote ("stream" ++ String quote ":true"); String quote ("stream" ++ String quote ": true")]%string.

Definition BodyAdvertisesStream (body : string) : bool := existsb (Contains body) streamColonTrueProbes.

(** [requestIsBodyless]. *)
Definition requestIsBodyless (eos : bool) (headers : gmap string string) : bool :=
  let h k := default "" (headers !! k) in
  eos || String.eqb (h "content-length") "0"
  || (String.eqb (h "content-length") "" && String.eqb (h "transfer-encoding") ""
      && existsb (String.eqb (h ":method")) ["GET"; "HEAD"; "DELETE"; "OPTIONS"; "TRACE"]).

(** [splitViable]: the servable candidates, the first refusal reason, [ok]. *)
Definition viableOf (cands : list Candidate) : list Candidate :=
  List.filter (fun c => negb (c_Refuse c) && negb (String.eqb (c_Host c) "")) cands.

Definition splitViable (cands : list Candidate) : list Candidate * string * bool :=
  let refusals := List.map c_UnsupportedReason (List.filter c_Refuse cands) in
  (viableOf cands,
   match List.find (fun r => negb (String.eqb r "")) refusals with Some r => r | None => "" end,
   negb (negb (match cands with [] => true | _ => false end) && forallb c_Refuse cands)).

Definition servableCount (backends : list Candidate) : nat := length (viableOf backends).

Section Env.
Context (reg : Registry.registry) {HK : Hooks}.

Definition SystemFor (host : string) : string :=
  match Registry.ByHost reg host with Some p => Registry.p_Name p | None => "" end.

Definition ErrorBodyFor (system msg : string) : string :=
  match Registry.ByName reg system ≫= errorBody with
  | Some f => f msg
  | None => ("{" ++ String quote "error" ++ String quote ":{" ++ String quote "message" ++ String quote ":"
             ++ marshalString msg ++ "," ++ String quote "type" ++ String quote ":" ++ String quote "server_error"
             ++ String quote "}}")%string
  end.

Definition translation502 (clientSchema msg : string) : ProcessingResponse :=
  reply (ImmediateResponse 502 (ErrorBodyFor clientSchema msg) "application/json").

Definition EnsureIncludeUsageForSystem (system path body : string) : option string :=
  match Registry.ByName reg system ≫= ensureStreamUsage with
  | Some f => if BodyAdvertisesStream body then f path body else None
  | None => None
  end.

Definition EnsureIncludeUsage (host path body : string) : option string :=
  EnsureIncludeUsageForSystem (SystemFor host) path body.

Definition RequestModel (body : string) : string :=
  if String.eqb body "" then "" else default "" (decodedModel body).

(** [parsers.RewriteModel]. *)
Definition RewriteBodyModel (body to : string) : option string :=
  if String.eqb body "" || String.eqb to "" then None else replacedModel body to.

(** [rewriteRequestBody]: the body and whether it changed. *)
Definition rewriteRequestBody (body reqPath model : string) (b : Candidate) : string * bool :=
  let '(body, changed) :=
    match RewriteModel b model with
    | Some to => if negb (String.eqb to model)
                 then match RewriteBodyModel body to with Some nb => (nb, true) | None => (body, false) end
                 else (body, false)
    | None => (body, false)
    end in
  let applyUsage := match c_BodyMutation b with
                    | Some bm => default true (ApiTypes.EnsureStreamUsage bm)
                    | None => true
                    end in
  if applyUsage then
    match EnsureIncludeUsageForSystem (c_System b) reqPath body with
    | Some nb => (nb, true)
    | None => (body, changed)
    end
  else (body, changed).

Definition crossSchemaCandidates (cands : list Candidate) (system : string) : bool :=
  if String.eqb system "" || String.eqb system "custom" then false
  else existsb (fun c => negb (c_Refuse c) && negb (String.eqb (c_System c) system)) cands.

(** The test of one candidate in [filterTranslatable]. *)
Definition canTranslate (system : string) (src : option Registry.Provider) (ir : option LlmCall.Request)
    (c : Candidate) : bool :=
  if c_Refuse c || String.eqb (c_System c) system then true
  else match ir with
       | None => false
       | Some r =>
           (match LlmCall.TranslationBlockers ir src (Registry.ByName reg (c_System c)) with
            | [] => true | _ => false end)
           && bool_decide (is_Some (RewriteModel c (LlmCall.rq_Model r)))
       end.

Definition filterTranslatable (cands : list Candidate) (system : string) (src : option Registry.Provider)
    (ir : option LlmCall.Request) : list Candidate * Z :=
  let kept := List.filter (canTranslate system src ir) cands in
  (kept, Z.of_nat (length cands - length kept)).

(** [translateRequest]. *)
Definition translateRequest (tgt : Registry.Provider) (ir : LlmCall.Request) (model : string)
    : outcome LlmCall.CodecError (LlmCall.EncodedRequest * LlmCall.Request) :=
  let '(cp, dropped) := LlmCall.normalize ir in
  let cp := LlmCall.mkRequest (Registry.p_Name tgt) (LlmCall.rq_Operation cp) model (LlmCall.rq_System cp)
              (LlmCall.rq_Messages cp) (LlmCall.rq_Tools cp) (LlmCall.rq_ToolChoice cp) (LlmCall.rq_Generation cp)
              (LlmCall.rq_Stream cp) (LlmCall.rq_Wire cp) in
  let! enc := @LlmCall.EncodeRequest (codecOf tgt) cp in
  Ok (LlmCall.mkEncodedRequest (LlmCall.en_Body enc) (LlmCall.en_Path enc) (LlmCall.en_SetHeaders enc)
        (LlmCall.en_RemoveHeaders enc) (LlmCall.en_DroppedExtras enc + dropped), cp).

(** [maps.Keys], sorted. *)
Definition sortedKeys (m : gmap string string) : list string :=
  merge_sort String.le (List.map fst (map_to_list m)).

(** The closure [add] of [sourceHeaderRemovals]: keep the first of each name. *)
Definition addRemoval (keep out : list string) (h : string) : list string :=
  let h := ToLower h in
  if String.eqb h "" || existsb (String.eqb h) keep || existsb (String.eqb h) out then out else out ++ [h].

Definition sourceHeaderRemovals (ir : LlmCall.Request) (enc : LlmCall.EncodedRequest) (injs : list credInjection)
    : list string :=
  let keep := List.map ToLower (List.map fst (map_to_list (LlmCall.en_SetHeaders enc)))
              ++ flat_map headerNames injs in
  merge_sort String.le
    (fold_left (addRemoval keep)
       (Registry.AuthHeaderUnion reg ++ sortedKeys (LlmCall.wi_Headers (LlmCall.rq_Wire ir))
        ++ LlmCall.en_RemoveHeaders enc) []).

End Env.

(** ** The names a mutation sets and removes *)

Definition setNames (m : option HeaderMutation) : list string :=
  List.map ho_Key (SetHeaders (default emptyMutation m)).
Definition removed (m : option HeaderMutation) : list string := RemoveHeaders (default emptyMutation m).

Lemma setNames_set m n v : setNames (setHeaderMut m n v) = setNames m ++ [n].
Proof. unfold setNames. cbn. by rewrite map_app. Qed.

Lemma removed_set m n v : removed (setHeaderMut m n v) = removed m.
Proof. done. Qed.

Lemma setNames_remove m ns : setNames (removeHeadersMut m ns) = setNames m.
Proof. by destruct ns. Qed.

Lemma removed_remove m ns : removed (removeHeadersMut m ns) = removed m ++ ns.
Proof. destruct ns; cbn; [by rewrite app_nil_r|done]. Qed.

Lemma set_fold {A} (name value : A -> string) (l : list A) : forall m,
  setNames (fold_left (fun m a => setHeaderMut m (name a) (value a)) l m) = setNames m ++ List.map name l
  /\ removed (fold_left (fun m a => setHeaderMut m (name a) (value a)) l m) = removed m.
Proof.
  induction l as [|a l IH]; intros m; cbn [fold_left List.map]; [by rewrite app_nil_r|].
  destruct (IH (setHeaderMut m (name a) (value a))) as [-> ->].
  by rewrite setNames_set, <- app_assoc.
Qed.

Lemma applyInjections_names injs : forall m,
  setNames (applyInjections m injs)
  = setNames m ++ List.map headerName (List.filter (fun i => negb (isSig i)) injs)
  /\ removed (applyInjections m injs) = removed m.
Proof.
  unfold applyInjections. induction injs as [|i injs IH]; intros m; cbn [fold_left List.filter List.map].
  - by rewrite app_nil_r.
  - destruct (IH (match sigv4 i with Some _ => m | None => setHeaderMut m (headerName i) (headerValue i) end))
      as [-> ->].
    unfold isSig at 2. destruct (sigv4 i) as [s|] eqn:E.
    + by rewrite bool_decide_eq_true_2 by eauto.
    + rewrite bool_decide_eq_false_2 by (intros [? [=]]). cbn [negb List.map]. by rewrite setNames_set, <- app_assoc.
Qed.

(** The region [applySigning] signs with; empty when it skips the signature. *)
Definition signRegion (sc : sigv4Cred) (authority : string) : string :=
  if String.eqb (region sc) "" then SigV4.RegionFromHost authority else region sc.

(** The first signing credential has a region, if there is one at all. *)
Definition signable (injs : list credInjection) (authority : string) : Prop :=
  forall i rest sc, List.filter isSig injs = i :: rest -> sigv4 i = Some sc -> signRegion sc authority <> "".

Lemma signable_dec injs authority : signable injs authority \/ ~ signable injs authority.
Proof.
  unfold signable. destruct (List.filter isSig injs) as [|i rest]; [left; by intros ? ? ? [=]|].
  destruct (sigv4 i) as [sc|] eqn:E; [|left; intros i' r' s [= <- <-]; congruence].
  destruct (String.eqb_spec (signRegion sc authority) "") as [H|H].
  - right. intros Hs. by apply (Hs i rest sc).
  - left. intros i' r' s [= <- <-]. rewrite E. by intros [= <-].
Qed.

(** Signing only adds names. *)
Lemma setNames_applySigning sha256 hmac now m sigs in_ n :
  n ∈ setNames m -> n ∈ setNames (applySigning sha256 hmac now m sigs in_).
Proof.
  intros H. destruct sigs as [|i sigs]; cbn [applySigning]; [done|]. destruct (sigv4 i); [|done].
  destruct (String.eqb _ ""); [done|]. rewrite setNames_remove.
  match goal with |- context [fold_left _ ?hs m] => destruct (set_fold SigV4.Name SigV4.Value hs m) as [-> _] end.
  rewrite elem_of_app. by left.
Qed.

Lemma applySigning_names sha256 hmac now m injs i rest sc in_ :
  List.filter isSig injs = i :: rest -> sigv4 i = Some sc -> signRegion sc (si_authority in_) <> "" ->
  (forall n, n ∈ setNames (applySigning sha256 hmac now m (List.filter isSig injs) in_)
     <-> n ∈ setNames m \/ n ∈ headerNames i)
  /\ (forall n, n ∈ removed (applySigning sha256 hmac now m (List.filter isSig injs) in_)
        <-> n ∈ removed m \/ (is_Some (si_headers in_ !! n) /\ HasPrefix n "x-amz-" = true /\ n ∉ headerNames i)).
Proof.
  intros -> E Hr. cbn [applySigning]. rewrite E. fold (signRegion sc (si_authority in_)).
  destruct (String.eqb_spec (signRegion sc (si_authority in_)) ""); [done|].
  set (hs := SigV4.Sign _ _ _ _ _ _ _ _ _ _).
  assert (Hn : forall n, n ∈ List.map SigV4.Name hs <-> n ∈ headerNames i).
  { intros n'. unfold hs, headerNames. rewrite SigV4.Sign_names, E.
    destruct (String.eqb (SigV4.SessionToken (creds sc)) ""); set_solver. }
  destruct (set_fold SigV4.Name SigV4.Value hs m) as [H1 H2].
  rewrite setNames_remove, removed_remove, H1, H2. split; intros n'.
  - by rewrite elem_of_app, Hn.
  - rewrite elem_of_app. apply or_iff_compat_l. unfold shed. rewrite merge_sort_Permutation, list_elem_of_In, filter_In.
    rewrite in_map_iff, andb_true_iff, negb_true_iff.
    assert (Hx : existsb (String.eqb n') (List.map SigV4.Name hs) = false <-> n' ∉ headerNames i).
    { rewrite <- Hn, <- not_true_iff_false, existsb_exists, list_elem_of_In. apply not_iff_compat. split.
      - intros (y & Hy & ->%String.eqb_eq). done.
      - intros Hy. exists n'. by rewrite String.eqb_refl. }
    rewrite Hx. split.
    + intros (((k & v) & <- & Hk) & Hp & Hno). apply list_elem_of_In, elem_of_map_to_list in Hk. eauto.
    + intros ((v & Hv) & Hp & Hno). split; [|done]. exists (n', v). split; [done|].
      by apply list_elem_of_In, elem_of_map_to_list.
Qed.

Lemma filter_all {A} (f : A -> bool) l : (forall x, In x l -> f x = true) -> List.filter f l = l.
Proof.
  induction l as [|a l IH]; cbn; intros H; [done|]. rewrite (H a) by auto. f_equal. apply IH. auto.
Qed.

Lemma elem_of_sortedKeys m n : n ∈ sortedKeys m <-> is_Some (m !! n).
Proof.
  unfold sortedKeys. rewrite merge_sort_Permutation, list_elem_of_In, in_map_iff. split.
  - intros ((k & v) & <- & H). apply list_elem_of_In, elem_of_map_to_list in H. by exists v.
  - intros [v H]. exists (n, v). split; [done|]. by apply list_elem_of_In, elem_of_map_to_list.
Qed.

(** ** The headers a translated request sheds *)

Definition keptHeaders (enc : LlmCall.EncodedRequest) (injs : list credInjection) : list string :=
  List.map ToLower (List.map fst (map_to_list (LlmCall.en_SetHeaders enc))) ++ flat_map headerNames injs.

Lemma addRemoval_fold keep hs : forall out x,
  x ∈ fold_left (addRemoval keep) hs out
  <-> x ∈ out \/ (x <> "" /\ x ∉ keep /\ exists h, In h hs /\ ToLower h = x).
Proof.
  assert (Hin : forall x l, existsb (String.eqb x) l = true <-> x ∈ l).
  { intros x l. rewrite existsb_exists, list_elem_of_In. split.
    - by intros (y & Hy & ->%String.eqb_eq).
    - intros Hx. exists x. by rewrite String.eqb_refl. }
  induction hs as [|h hs IH]; intros out x; cbn [fold_left In]; [naive_solver|].
  rewrite IH. unfold addRemoval.
  destruct (String.eqb_spec (ToLower h) "") as [E|E]; cbn [orb]; [naive_solver|].
  destruct (existsb (String.eqb (ToLower h)) keep) eqn:E1; cbn [orb]; [apply Hin in E1; naive_solver|].
  destruct (existsb (String.eqb (ToLower h)) out) eqn:E2; [apply Hin in E2; naive_solver|].
  apply not_true_iff_false in E1. rewrite Hin in E1. rewrite elem_of_app, list_elem_of_singleton. naive_solver.
Qed.

Lemma sourceHeaderRemovals_spec reg ir enc injs x :
  x ∈ sourceHeaderRemovals reg ir enc injs
  <-> x <> "" /\ x ∉ keptHeaders enc injs
      /\ exists h, In h (Registry.AuthHeaderUnion reg ++ sortedKeys (LlmCall.wi_Headers (LlmCall.rq_Wire ir))
                         ++ LlmCall.en_RemoveHeaders enc) /\ ToLower h = x.
Proof.
  unfold sourceHeaderRemovals. rewrite merge_sort_Permutation, addRemoval_fold. set_solver.
Qed.

(** ** The weighted pick *)

Lemma positiveWeight_nonneg c : 0 <= positiveWeight c.
Proof. unfold positiveWeight. destruct (Z.ltb_spec 0 (c_Weight c)); lia. Qed.

Definition totalWeight (cs : list Candidate) : Z := sumZ (List.map positiveWeight cs).

Lemma totalWeight_cons c cs : totalWeight (c :: cs) = positiveWeight c + totalWeight cs.
Proof. done. Qed.

Lemma totalWeight_nonneg cs : 0 <= totalWeight cs.
Proof.
  induction cs as [|c cs IH]; [done|]. rewrite totalWeight_cons. pose proof (positiveWeight_nonneg c). lia.
Qed.

(** A candidate of positive weight owns the interval of draws that starts at the
    weight of the candidates before it. *)
Lemma pickLoop_interval pre c post : forall pick,
  0 < c_Weight c -> totalWeight pre <= pick < totalWeight pre + c_Weight c ->
  pickLoop pick (pre ++ c :: post) = Some c.
Proof.
  induction pre as [|d pre IH]; intros pick Hc Hp; cbn [app pickLoop].
  - change (totalWeight []) with 0 in Hp.
    destruct (Z.leb_spec (c_Weight c) 0); [lia|]. by destruct (Z.ltb_spec pick (c_Weight c)); [|lia].
  - rewrite totalWeight_cons in Hp. pose proof (totalWeight_nonneg pre). unfold positiveWeight in Hp.
    destruct (Z.leb_spec (c_Weight d) 0), (Z.ltb_spec 0 (c_Weight d)); try lia.
    + apply IH; lia.
    + destruct (Z.ltb_spec pick (c_Weight d)); [lia|]. apply IH; lia.
Qed.

Lemma pickLoop_some cs : forall pick,
  0 <= pick < totalWeight cs -> exists c, pickLoop pick cs = Some c /\ In c cs /\ 0 < c_Weight c.
Proof.
  induction cs as [|c cs IH]; intros pick Hp; [change (totalWeight []) with 0 in Hp; lia|].
  rewrite totalWeight_cons in Hp. unfold positiveWeight in Hp. cbn [pickLoop].
  destruct (Z.leb_spec (c_Weight c) 0), (Z.ltb_spec 0 (c_Weight c)); try lia.
  - destruct (IH pick) as (d & Hd1 & Hd2 & Hd3); [lia|]. exists d. cbn; auto.
  - destruct (Z.ltb_spec pick (c_Weight c)); [exists c; cbn; auto|].
    destruct (IH (pick - c_Weight c)) as (d & Hd1 & Hd2 & Hd3); [lia|]. exists d. cbn; auto.
Qed.

(** A non-empty set whose weights fit 32 bits always yields one of its members. *)
Lemma weightedPick_member cs key :
  cs <> [] -> totalWeight cs < 2 ^ 32 -> exists c, weightedPick cs key = Ok (Some c) /\ In c cs.
Proof.
  intros Hne Hb. destruct cs as [|c [|d cs]]; [done| |].
  { exists c. cbn; auto. }
  pose proof (totalWeight_nonneg (c :: d :: cs)) as Hn.
  unfold weightedPick. fold (totalWeight (c :: d :: cs)). cbv zeta.
  rewrite (int64_id (totalWeight (c :: d :: cs))) by lia.
  destruct (Z.eqb_spec (totalWeight (c :: d :: cs)) 0); [exists c; cbn; auto|].
  replace (uint32 (totalWeight (c :: d :: cs))) with (totalWeight (c :: d :: cs))
    by (symmetry; apply wrap_id; unfold in_range; lia).
  destruct (Z.eqb_spec (totalWeight (c :: d :: cs)) 0); [done|].
  destruct (pickLoop_some (c :: d :: cs) (fnv32a key mod totalWeight (c :: d :: cs))) as (e & -> & He & _).
  - apply Z.mod_pos_bound. lia.
  - by exists e.
Qed.

End ExtMut.
