(* ===== verification/Ingress.v ===== *)
(** * The ingress processor

    [internal/extproc/ingress/server.go] and [invpublish.go]: for each request to a
    TaskAgent the controller-manager resolves the agent, picks a worker, mints the
    invocation id, records the trace parent and rewrites the request; it observes
    the bodies for the dispatch span.  The picker is an interface ([Picker]),
    implemented by [HealthCheck]; OpenTelemetry's span context and UUID parsing are
    parameters. *)

From Stdlib Require Import ZArith Lia Ascii String List.
From Stdlib Require Import Sorting.Permutation.
From stdpp Require Import base strings list gmap fin_maps.
From S2P Require Import Prelude GoStrings GoStd Capture ApiTypes InvocationCtx InvEvent HealthCheck CloudEvents ProxyProto Dispatcher ExtMut.
Import GoStrings GoStd ApiTypes.ApiTypes InvEvent CloudEvents.

Module Ingress.
#[local] Open Scope string_scope.
#[local] Open Scope Z_scope.
#[local] Open Scope list_scope.

Definition invQueueSize : nat := 1024.

(** ** The picker's promise *)

(** The interface [Picker], with what the server relies on: a pick is an address,
    and "at cap" is only said when there is none. *)
Class Picker := {
  pick : NamespacedName -> string -> string -> string -> Z -> string -> HealthCheck.PickResult * bool;
  pick_ok : forall pool ns agent rev max tb r,
    pick pool ns agent rev max tb = (r, true) ->
    HealthCheck.AlreadyAtCap r = false
    /\ exists ip, HealthCheck.Addr r = (ip ++ ":8090")%string;
}.

(** The health checker keeps it. *)
#[export] Program Instance healthPicker (h : HealthCheck.WorkerHealthChecker)
    (order : NamespacedName -> list HealthCheck.endpoint) (now : Z) : Picker := {
  pick pool ns agent rev max tb := HealthCheck.Pick h pool (order pool) ns agent rev max tb now;
}.
Next Obligation.
  intros h order now pool ns agent rev max tb r. unfold HealthCheck.Pick.
  rewrite HealthCheck.PickFromCandidates_choose. unfold HealthCheck.choose.
  repeat case_match; try done; intros [= <-]; cbn; eauto.
Qed.

(** ** Handling the request headers *)

Inductive response :=
| Immediate (code : Z)
| Continue (setHeaders : list (string * string)).

(** Outcomes stamped on the span. *)
Inductive ingressOutcome :=
| OutcomeOK | OutcomeBadRequest | OutcomeNotFound | OutcomeInternal
| OutcomeNoReadyRevision | OutcomeNoReadyWorker | OutcomeAtMaxConcurrent.

Section Server.
Context {SpanContext : Type} (IsValid : SpanContext -> bool).
(** [tracectx.Inject]: [traceparent] and [tracestate]. *)
Context (Inject : SpanContext -> string * string).
(** [uuid.Parse(s)] followed by [String()]. *)
Context (uuid_canonical : string -> option string).
Context {picker : Picker}.

Record World := mkWorld {
  w_taskAgent : NamespacedName -> Dispatcher.getResult ServedTaskAgent;
  w_span : SpanContext;                        (* the ingress.dispatch span *)
  w_uuid : string;                             (* the fresh UUID for the invocation *)
  w_ceUuid : string;                           (* ... and for the event *)
  w_time : string;
  w_clock : Z;
}.

Record Server := mkServer {
  invocations : option (InvocationCtx.Store (SpanContext := SpanContext));
  invQueue : list Invocation;
  invPub : bool;                               (* a publisher is wired *)
}.

Definition emitInvocation (w : World) (namespace agent id : string) (trigger : InvocationTriggerType)
    (phase : InvocationPhase) (s : Server) : Server :=
  if invPub s && (length (invQueue s) <? invQueueSize)%nat
  then mkServer (invocations s)
         (invQueue s ++ [mkInvocation id namespace (w_clock w) InvocationParentTaskAgent agent trigger phase])
         (invPub s)
  else s.

Definition canonicalInvocationID (s : string) : string :=
  if String.eqb s "" then ""
  else match uuid_canonical s with
       | Some u => if String.eqb u s then s else ""
       | None => ""
       end.

Definition hdr (hdrs : HeaderMap) (k : string) : string := default "" (hdrs !! k).

Definition setIfNonempty (k v : string) : list (string * string) :=
  if String.eqb v "" then [] else [(k, v)].

(** [ceOrder] is the order in which the range visits the attributes. *)
Definition handleRequestHeaders (hdrs : HeaderMap) (w : World)
    (ceOrder : gmap string string -> list (string * string)) (s : Server)
    : Server * response * ingressOutcome :=
  let taHdr := hdr hdrs HeaderTaskAgent in
  if String.eqb taHdr "" then (s, Immediate 400, OutcomeBadRequest)
  else
    let '(ns, name, ok) := Cut taHdr "/"%char in
    if negb ok || String.eqb ns "" || String.eqb name "" then (s, Immediate 400, OutcomeBadRequest)
    else
      match w_taskAgent w (mkNN ns name) with
      | Dispatcher.NotFound => (s, Immediate 404, OutcomeNotFound)
      | Dispatcher.GetError => (s, Immediate 500, OutcomeInternal)
      | Dispatcher.Found ta =>
          let id := canonicalInvocationID (hdr hdrs HeaderInvocationID) in
          let id := if String.eqb id "" then w_uuid w else id in
          let trigger := TriggerTypeFromHeaderValue (hdr hdrs HeaderTrigger) in
          let reject := emitInvocation w ns name id trigger PhaseRejected s in
          if String.eqb (LatestReadyRevisionName ta) "" then (reject, Immediate 503, OutcomeNoReadyRevision)
          else
            let pool := mkNN ns (ta_WorkerPoolRef (ta_Spec (st_Agent ta))) in
            let maxConcurrent := match ta_MaxConcurrent (ta_Spec (st_Agent ta)) with
                                 | Some m => if 0 <? m then m else 0 | None => 0 end in
            let tie := hdr hdrs HeaderExecutionID in
            let tie := if String.eqb tie "" then hdr hdrs "x-request-id" else tie in
            match pick pool ns name (LatestReadyRevisionName ta) maxConcurrent tie with
            | (r, false) =>
                if HealthCheck.AlreadyAtCap r then (reject, Immediate 429, OutcomeAtMaxConcurrent)
                else (reject, Immediate 503, OutcomeNoReadyWorker)
            | (r, true) =>
                let addr := HealthCheck.Addr r in
                let '(traceparent, tracestate) := Inject (w_span w) in
                let ceAttrs := AttrsFromHeaders (w_ceUuid w) (w_time w) (HeaderMap_Get hdrs) (Some ta)
                                 (CEHeaderIterMap hdrs) in
                let set := [(":authority", addr); ("host", addr); (HeaderWorkerEndpoint, addr);
                            (HeaderInvocationID, id)]
                           ++ setIfNonempty "traceparent" traceparent
                           ++ setIfNonempty "tracestate" tracestate
                           ++ List.map (fun kv => (("ce-" ++ fst kv)%string, snd kv)) (ceOrder ceAttrs) in
                let s := mkServer
                  (match invocations s with
                   | Some st => Some (InvocationCtx.Put IsValid (w_clock w) id (w_span w) st)
                   | None => None end) (invQueue s) (invPub s) in
                (emitInvocation w ns name id trigger PhaseDispatched s, Continue set, OutcomeOK)
            end
      end.

(** ** What each outcome leaves behind *)

(** The events a call appended to the queue. *)
Definition emitted (s s' : Server) : list Invocation := drop (length (invQueue s)) (invQueue s').

Definition room (s : Server) : Prop := invPub s = true /\ (length (invQueue s) < invQueueSize)%nat.

Lemma emitted_emit w ns agent id trigger phase s s1 :
  invQueue s1 = invQueue s -> invPub s1 = invPub s -> room s ->
  emitted s (emitInvocation w ns agent id trigger phase s1)
  = [mkInvocation id ns (w_clock w) InvocationParentTaskAgent agent trigger phase].
Proof.
  intros Hq Hp [H1 H2]. unfold emitted, emitInvocation. rewrite Hp, Hq, H1, (proj2 (Nat.ltb_lt _ _) H2).
  cbn. by rewrite drop_app_length.
Qed.

Lemma emit_invocations w ns agent id trigger phase s :
  invocations (emitInvocation w ns agent id trigger phase s) = invocations s.
Proof. unfold emitInvocation. by destruct (_ && _). Qed.

(** The id of an invocation: the caller's when it is a canonical UUID. *)
Definition resolveID (hdrs : HeaderMap) (w : World) : string :=
  let id := canonicalInvocationID (hdr hdrs HeaderInvocationID) in
  if String.eqb id "" then w_uuid w else id.

Lemma resolveID_spec hdrs w :
  resolveID hdrs w = w_uuid w
  \/ resolveID hdrs w = hdr hdrs HeaderInvocationID /\ resolveID hdrs w <> ""
     /\ uuid_canonical (resolveID hdrs w) = Some (resolveID hdrs w).
Proof.
  unfold resolveID, canonicalInvocationID.
  destruct (String.eqb_spec (hdr hdrs HeaderInvocationID) "") as [|Hne]; [by left|].
  destruct (uuid_canonical _) as [u|] eqn:Eu; [|by left].
  destruct (String.eqb_spec u (hdr hdrs HeaderInvocationID)) as [->|]; [|by left].
  rewrite (proj2 (String.eqb_neq _ _) Hne). auto.
Qed.

(** The headers an accepted request is given. *)
Definition acceptedHeaders (hdrs : HeaderMap) (w : World)
    (ceOrder : gmap string string -> list (string * string)) (ta : ServedTaskAgent) (addr : string)
    : list (string * string) :=
  [(":authority", addr); ("host", addr); (HeaderWorkerEndpoint, addr);
   (HeaderInvocationID, resolveID hdrs w)]
  ++ setIfNonempty "traceparent" (fst (Inject (w_span w)))
  ++ setIfNonempty "tracestate" (snd (Inject (w_span w)))
  ++ List.map (fun kv => (("ce-" ++ fst kv)%string, snd kv))
       (ceOrder (AttrsFromHeaders (w_ceUuid w) (w_time w) (HeaderMap_Get hdrs) (Some ta) (CEHeaderIterMap hdrs))).

(** The branches of the handler, once each. *)
Lemma handle_cases hdrs w ceOrder s :
  match handleRequestHeaders hdrs w ceOrder s with
  | (s', Immediate code, _) =>
      s' = s /\ In code [400; 404; 500]
      \/ exists ns name, In code [429; 503]
         /\ s' = emitInvocation w ns name (resolveID hdrs w)
                   (TriggerTypeFromHeaderValue (hdr hdrs HeaderTrigger)) PhaseRejected s
  | (s', Continue set, _) =>
      exists ns name ta ip,
        hdr hdrs HeaderTaskAgent = (ns ++ String "/" name)%string /\ ~ In "/"%char (list_ascii_of_string ns)
        /\ set = acceptedHeaders hdrs w ceOrder ta (ip ++ ":8090")%string
        /\ s' = emitInvocation w ns name (resolveID hdrs w)
                  (TriggerTypeFromHeaderValue (hdr hdrs HeaderTrigger)) PhaseDispatched
                  (mkServer (InvocationCtx.Put IsValid (w_clock w) (resolveID hdrs w) (w_span w) <$> invocations s)
                     (invQueue s) (invPub s))
  end.
Proof.
  unfold handleRequestHeaders.
  destruct (String.eqb (hdr hdrs HeaderTaskAgent) ""); [left; cbn; tauto|].
  destruct (Cut _ _) as [[ns name] ok] eqn:Ecut.
  destruct (negb ok || String.eqb ns "" || String.eqb name "")%bool eqn:Eok; [left; cbn; tauto|].
  assert (ok = true) as -> by (by destruct ok). apply Cut_found in Ecut as [Eta Hns].
  destruct (w_taskAgent w (mkNN ns name)) as [ta| |]; [|left; cbn; tauto..]. cbn zeta.
  destruct (String.eqb (LatestReadyRevisionName ta) ""); [right; exists ns, name; cbn; tauto|].
  destruct (pick _ _ _ _ _ _) as [r okp] eqn:Ep. destruct okp.
  - apply pick_ok in Ep as [_ [ip Hip]]. unfold acceptedHeaders. destruct (Inject (w_span w)) as [tp ts].
    exists ns, name, ta, ip. rewrite Hip. split_and!; [done..|]. unfold resolveID. by destruct (invocations s).
  - destruct (HealthCheck.AlreadyAtCap r); right; exists ns, name; cbn; tauto.
Qed.

(** *** Why a request ends as it does *)

(** The header names an agent. *)
Definition target (hdrs : HeaderMap) (ns name : string) : Prop :=
  hdr hdrs HeaderTaskAgent = (ns ++ String "/" name)%string /\ ~ In "/"%char (list_ascii_of_string ns)
  /\ ns <> "" /\ name <> "".

Lemma target_unique hdrs ns name ns' name' : target hdrs ns name -> target hdrs ns' name' -> ns' = ns /\ name' = name.
Proof.
  intros (E & Hn & _ & _) (E' & Hn' & _ & _).
  pose proof (proj2 (Cut_found _ "/"%char ns name) (conj E Hn)) as H.
  rewrite (proj2 (Cut_found _ "/"%char ns' name') (conj E' Hn')) in H. by injection H as -> ->.
Qed.

Lemma target_cut hdrs :
  match Cut (hdr hdrs HeaderTaskAgent) "/"%char with
  | (ns, name, ok) =>
      if String.eqb (hdr hdrs HeaderTaskAgent) "" || (negb ok || String.eqb ns "" || String.eqb name "")
      then forall ns name, ~ target hdrs ns name else target hdrs ns name
  end.
Proof.
  destruct (Cut _ _) as [[ns name] ok] eqn:E. destruct (_ || _)%bool eqn:Eb.
  - intros ns' name' (Et & Hn & H1 & H2). rewrite (proj2 (Cut_found _ "/"%char ns' name') (conj Et Hn)) in E.
    injection E as <- <- <-. rewrite Et in Eb. apply String.eqb_neq in H1, H2. rewrite H1, H2 in Eb. by destruct ns'.
  - apply orb_false_iff in Eb as [_ [[Hok Hns]%orb_false_iff Hname]%orb_false_iff]. destruct ok; [|done].
    apply Cut_found in E as [Et Hn]. apply String.eqb_neq in Hns, Hname. by repeat split.
Qed.

(** What the picker is asked for an agent that is ready, and what it answers. *)
Definition picked (hdrs : HeaderMap) (ns name : string) (ta : ServedTaskAgent) : HealthCheck.PickResult * bool :=
  pick (mkNN ns (ta_WorkerPoolRef (ta_Spec (st_Agent ta)))) ns name (LatestReadyRevisionName ta)
    (Z.max 0 (default 0 (ta_MaxConcurrent (ta_Spec (st_Agent ta)))))
    (if String.eqb (hdr hdrs HeaderExecutionID) "" then hdr hdrs "x-request-id" else hdr hdrs HeaderExecutionID).

Definition because (hdrs : HeaderMap) (w : World) (o : ingressOutcome) : Prop :=
  let agent := fun ns name => w_taskAgent w (mkNN ns name) in
  let ready := fun ns name ta => target hdrs ns name /\ agent ns name = Dispatcher.Found ta /\ LatestReadyRevisionName ta <> "" in
  match o with
  | OutcomeBadRequest => forall ns name, ~ target hdrs ns name
  | OutcomeNotFound => exists ns name, target hdrs ns name /\ agent ns name = Dispatcher.NotFound
  | OutcomeInternal => exists ns name, target hdrs ns name /\ agent ns name = Dispatcher.GetError
  | OutcomeNoReadyRevision => exists ns name ta,
      target hdrs ns name /\ agent ns name = Dispatcher.Found ta /\ LatestReadyRevisionName ta = ""
  | OutcomeNoReadyWorker => exists ns name ta r,
      ready ns name ta /\ picked hdrs ns name ta = (r, false) /\ HealthCheck.AlreadyAtCap r = false
  | OutcomeAtMaxConcurrent => exists ns name ta r,
      ready ns name ta /\ picked hdrs ns name ta = (r, false) /\ HealthCheck.AlreadyAtCap r = true
  | OutcomeOK => exists ns name ta r, ready ns name ta /\ picked hdrs ns name ta = (r, true)
  end.

(** There is one reason at most. *)
Lemma because_unique hdrs w o o' : because hdrs w o -> because hdrs w o' -> o' = o.
Proof.
  destruct o, o'; try done; cbn; intros H H'; exfalso;
    repeat match goal with
      | H : exists _, _ |- _ => destruct H
      | H : _ /\ _ |- _ => destruct H
      end;
    try (by match goal with H : target _ _ _, H' : forall ns name, ~ target _ _ _ |- _ => apply (H' _ _ H) end);
    match goal with H : target _ ?n1 ?m1, H' : target _ ?n2 ?m2 |- _ =>
      destruct (target_unique _ _ _ _ _ H H') as [-> ->] end; congruence.
Qed.

(** The status of the answer and the phase of the birth event of an outcome. *)
Definition statusOf (o : ingressOutcome) : option Z :=
  match o with
  | OutcomeOK => None
  | OutcomeBadRequest => Some 400 | OutcomeNotFound => Some 404 | OutcomeInternal => Some 500
  | OutcomeNoReadyRevision | OutcomeNoReadyWorker => Some 503
  | OutcomeAtMaxConcurrent => Some 429
  end.
Definition birthOf (o : ingressOutcome) : option InvocationPhase :=
  match o with
  | OutcomeOK => Some PhaseDispatched
  | OutcomeNoReadyRevision | OutcomeNoReadyWorker | OutcomeAtMaxConcurrent => Some PhaseRejected
  | _ => None
  end.

(** The birth event of an invocation of an agent. *)
Definition birth (hdrs : HeaderMap) (w : World) (ns name : string) (ph : InvocationPhase) : Invocation :=
  mkInvocation (resolveID hdrs w) ns (w_clock w) InvocationParentTaskAgent name
    (TriggerTypeFromHeaderValue (hdr hdrs HeaderTrigger)) ph.

(** What is recorded and done for an outcome. *)
Definition handled (hdrs : HeaderMap) (w : World) (ceOrder : gmap string string -> list (string * string))
    (s s' : Server) (resp : response) (o : ingressOutcome) : Prop :=
  match birthOf o with
  | None => s' = s
  | Some ph => exists ns name, target hdrs ns name /\ emitted s s' = [birth hdrs w ns name ph]
  end
  /\ match statusOf o with
     | Some code => resp = Immediate code /\ invocations s' = invocations s
     | None => exists ns name ta r ip,
         target hdrs ns name /\ w_taskAgent w (mkNN ns name) = Dispatcher.Found ta
         /\ picked hdrs ns name ta = (r, true) /\ HealthCheck.Addr r = (ip ++ ":8090")%string
         /\ resp = Continue (acceptedHeaders hdrs w ceOrder ta (HealthCheck.Addr r))
         /\ invocations s' = InvocationCtx.Put IsValid (w_clock w) (resolveID hdrs w) (w_span w) <$> invocations s
     end.

Lemma handled_quiet hdrs w ceOrder s o code :
  birthOf o = None -> statusOf o = Some code -> handled hdrs w ceOrder s s (Immediate code) o.
Proof. intros H1 H2. unfold handled. by rewrite H1, H2. Qed.

Lemma handled_rejected hdrs w ceOrder s o code ns name :
  room s -> birthOf o = Some PhaseRejected -> statusOf o = Some code -> target hdrs ns name ->
  handled hdrs w ceOrder s (emitInvocation w ns name (resolveID hdrs w)
    (TriggerTypeFromHeaderValue (hdr hdrs HeaderTrigger)) PhaseRejected s) (Immediate code) o.
Proof.
  intros Hr H1 H2 Ht. unfold handled. rewrite H1, H2. split; [|by rewrite emit_invocations].
  exists ns, name. split; [done|]. by rewrite emitted_emit.
Qed.

Lemma capOf (m : option Z) :
  match m with Some m => if 0 <? m then m else 0 | None => 0 end = Z.max 0 (default 0 m).
Proof. destruct m as [m|]; cbn; [|done]. destruct (Z.ltb_spec 0 m); lia. Qed.


(** ** The worker continues the invocation the ingress started *)

Lemma acceptHead_key d r dw a ns name :
  Dispatcher.acceptHead d r dw = inl a ->
  HTTPHeader_Get (Dispatcher.r_header r) HeaderTaskAgent = (ns ++ String "/" name)%string /\
  ~ In "/"%char (list_ascii_of_string ns) ->
  Dispatcher.ad_key a = mkNN ns name.
Proof.
  unfold Dispatcher.acceptHead. intros H [E Hns]. rewrite E in H.
  rewrite (proj2 (Cut_found _ "/"%char ns name) (conj eq_refl Hns)) in H.
  destruct (String.eqb (ns ++ String "/" name) ""); [done|]. destruct d; [done|].
  destruct (_ || _)%bool; [done|]. destruct (Dispatcher.w_taskAgent dw _); [|done..].
  destruct (String.eqb _ ""); [done|]. by injection H as <-.
Qed.

Lemma acceptTail_facts a r dw rc :
  Dispatcher.acceptTail a r dw = inl rc ->
  Dispatcher.rc_key rc = Dispatcher.ad_key a
  /\ Dispatcher.rc_invocationID rc
     = Dispatcher.resolveInvocationID (Dispatcher.w_uuid dw) (Dispatcher.r_header r)
  /\ Dispatcher.rc_trigger rc
     = Dispatcher.triggerTypeFromHeader (HTTPHeader_Get (Dispatcher.r_header r) HeaderTrigger).
Proof. unfold Dispatcher.acceptTail. destruct (Dispatcher.w_revision dw _); [|done..]. by intros [= <-]. Qed.

Section Forward.
(** Envoy's application of a header mutation, as documented for the external
    processor: a set header replaces the value, others are kept. *)
Variable envoyApply : list (string * string) -> HeaderMap -> CloudEvents.Header.
Hypothesis envoyApply_set : forall set m k v,
  In (k, v) set -> (forall v', In (k, v') set -> v' = v) -> envoyApply set m !! k = Some [v].
Hypothesis envoyApply_keep : forall set m k,
  (forall v, ~ In (k, v) set) -> envoyApply set m !! k = (fun v => [v]) <$> m !! k.

Lemma forwarded_set set m k v :
  ToLower k = k -> In (k, v) set -> (forall v', In (k, v') set -> v' = v) ->
  HTTPHeader_Get (envoyApply set m) k = v.
Proof. intros Hl Hi Hu. unfold HTTPHeader_Get. by rewrite Hl, (envoyApply_set set m k v). Qed.

Lemma forwarded_keep set m k :
  ToLower k = k -> (forall v, ~ In (k, v) set) -> HTTPHeader_Get (envoyApply set m) k = hdr m k.
Proof.
  intros Hl Hn. unfold HTTPHeader_Get, hdr. rewrite Hl, envoyApply_keep by done. by destruct (m !! k).
Qed.

(** The names the ingress sets, the event attributes apart. *)
Definition set_names : list string :=
  [":authority"; "host"; HeaderWorkerEndpoint; HeaderInvocationID; "traceparent"; "tracestate"].

Lemma continue_set hdrs w ceOrder s s' set o :
  handleRequestHeaders hdrs w ceOrder s = (s', Continue set, o) ->
  (forall k v, In (k, v) set -> In k set_names \/ HasPrefix k "ce-" = true)
  /\ (forall v v', In (HeaderInvocationID, v) set -> In (HeaderInvocationID, v') set -> v' = v).
Proof.
  intros E. pose proof (handle_cases hdrs w ceOrder s) as H. rewrite E in H.
  destruct H as (ns & name & ta & ip & _ & _ & -> & _). clear E. unfold acceptedHeaders.
  set (tail := setIfNonempty _ _ ++ _).
  assert (Htail : forall k v, In (k, v) tail -> k = "traceparent" \/ k = "tracestate" \/ HasPrefix k "ce-" = true).
  { intros k v. subst tail. rewrite !in_app_iff, in_map_iff. unfold setIfNonempty.
    intros [Hi|[Hi|(kv & E & _)]].
    - destruct (String.eqb _ ""); [done|]. destruct Hi as [Hi|[]]. injection Hi as <- <-. auto.
    - destruct (String.eqb _ ""); [done|]. destruct Hi as [Hi|[]]. injection Hi as <- <-. auto.
    - injection E as <- <-. right. right. apply HasPrefix_spec. eauto. }
  split.
  - intros k v [[= <- _]|[[= <- _]|[[= <- _]|[[= <- _]|Hi]]]]; [cbn; auto 10..|].
    destruct (Htail k v Hi) as [->|[->|?]]; cbn; auto 10.
  - intros v v' [Hi|[Hi|[Hi|[Hi|Hi]]]]; try discriminate Hi; [|destruct (Htail _ _ Hi) as [Hx|[Hx|Hx]]; discriminate Hx].
    injection Hi as <-.
    intros [Hi|[Hi|[Hi|[Hi|Hi]]]]; try discriminate Hi; [by injection Hi as <-|].
    destruct (Htail _ _ Hi) as [Hx|[Hx|Hx]]; discriminate Hx.
Qed.

(** What the worker tells the sandbox it serves a request with. *)
Definition sandboxCalls (rc : Dispatcher.reqCtx) (sb : string) (b : Dispatcher.EgressBundle)
    (acquired : list Dispatcher.effect) : list Dispatcher.effect :=
  acquired ++ Dispatcher.applyEgressAndInvocation rc sb b.

(** Every call that carries an identifier carries this one. *)
Definition identifies (sb id : string) (e : Dispatcher.effect) : Prop :=
  match e with
  | Dispatcher.ECreate sb' ident => sb' = sb /\ ProxyProto.InvocationID ident = id
  | Dispatcher.ESetInvocationID sb' id' => sb' = sb /\ id' = id
  | _ => True
  end.

Lemma sandbox_identified a r dw rc sb b eff :
  Dispatcher.acceptTail a r dw = inl rc -> Dispatcher.acquireSandbox rc dw = (Some (sb, b), eff) ->
  In (Dispatcher.ESetInvocationID sb (Dispatcher.rc_invocationID rc)) (sandboxCalls rc sb b eff)
  /\ Forall (identifies sb (Dispatcher.rc_invocationID rc)) (sandboxCalls rc sb b eff).
Proof.
  unfold Dispatcher.acceptTail, Dispatcher.acquireSandbox, sandboxCalls, Dispatcher.applyEgressAndInvocation.
  destruct (Dispatcher.w_revision dw _); [|done..]. intros [= <-]. cbn.
  intros H. split; [rewrite !in_app_iff; cbn; tauto|].
  assert (Forall (identifies sb (Dispatcher.resolveInvocationID (Dispatcher.w_uuid dw) (Dispatcher.r_header r))) eff) as Heff.
  { destruct (Dispatcher.w_warm dw), (Dispatcher.w_egress dw), (Dispatcher.w_newSandboxID dw), (Dispatcher.w_create dw);
      simplify_eq; by repeat constructor. }
  apply Forall_app. split; [done|]. by destruct (0 <? _), (Dispatcher.Policy b); repeat constructor.
Qed.

(** Later calls on the store leave an identifier alone. *)
Definition untouched (id : string) (h : list (Z * InvocationCtx.op (SpanContext := SpanContext))) : Prop :=
  Forall (fun x => match snd x with InvocationCtx.OPut i _ | InvocationCtx.ODelete i => i <> id | InvocationCtx.OReap => True end) h.

Lemma lastPut_untouched id t p h1 h0 : untouched id h1 -> id <> "" -> IsValid p = true ->
  InvocationCtx.lastPut IsValid id (h1 ++ (t, InvocationCtx.OPut id p) :: h0) = Some (t, p).
Proof.
  intros Hu Hid Hv. induction Hu as [|[t' o] h1 Ho Hu IH]; cbn.
  - by rewrite bool_decide_eq_true_2, Hv.
  - destruct o as [i q|i|]; cbn in Ho; [rewrite bool_decide_eq_false_2 by naive_solver|rewrite bool_decide_eq_false_2 by done|];
      exact IH.
Qed.

(** C26: an invocation keeps its identity from the edge to the worker, to the sandbox
    and back out through egress.  When the ingress accepts a request and the worker
    serves what it forwarded: every event the worker emits has the name, namespace,
    parent and trigger of the ingress's birth event; the sandbox, warm or created, is
    given exactly that name as its invocation identifier, and no call gives it another;
    and an egress lookup under it, after whatever other calls on the store that do not
    touch it, finds the ingress span as the parent while it is younger than the store's
    time to live and nothing afterwards (the time to live is not longer than the longest
    execution, see [parent_expires_before_deadline]); so a request of the agent without
    a [traceparent] of its own leaves with that of the ingress span. *)
Theorem invocation_identity_flows (hdrs : HeaderMap) (w : World)
    (ceOrder : gmap string string -> list (string * string)) (s s' : Server)
    (set : list (string * string)) (o : ingressOutcome) (inv : Invocation)
    (ttl : Z) (h0 : list (Z * InvocationCtx.op))
    (r : Dispatcher.Request) (dw : Dispatcher.World) (draining : bool)
    (a : Dispatcher.acceptance) (rc : Dispatcher.reqCtx) (phase : InvocationPhase) :
  room s -> w_uuid w <> "" -> invocations s = Some (InvocationCtx.after IsValid ttl h0) ->
  handleRequestHeaders hdrs w ceOrder s = (s', Continue set, o) -> emitted s s' = [inv] ->
  Dispatcher.r_header r = envoyApply set hdrs ->
  Dispatcher.acceptHead draining r dw = inl a -> Dispatcher.acceptTail a r dw = inl rc ->
  let inv' := Dispatcher.invocationOf rc phase in
  let id := inv_Name inv in
  let put := (w_clock w, InvocationCtx.OPut id (w_span w)) in
  (inv_Name inv' = id /\ inv_Namespace inv' = inv_Namespace inv
   /\ inv_ParentKind inv' = inv_ParentKind inv /\ inv_ParentName inv' = inv_ParentName inv
   /\ inv_Trigger inv' = inv_Trigger inv)
  /\ (forall sb b eff, Dispatcher.acquireSandbox rc dw = (Some (sb, b), eff) ->
        In (Dispatcher.ESetInvocationID sb id) (sandboxCalls rc sb b eff)
        /\ Forall (identifies sb id) (sandboxCalls rc sb b eff))
  /\ invocations s' = Some (InvocationCtx.after IsValid ttl (put :: h0))
  /\ (forall h1 now headers existing, IsValid (w_span w) = true -> untouched id h1 -> InvocationCtx.clock_ok now (h1 ++ put :: h0) ->
        let store := InvocationCtx.after IsValid ttl (h1 ++ put :: h0) in
        InvocationCtx.Get now id store = (if now <? w_clock w + ttl then Some (w_span w) else None)
        /\ (now < w_clock w + ttl -> headers !! ExtMut.HeaderTraceparent = None -> fst (Inject (w_span w)) <> "" ->
             snd (ExtMut.applyTraceparentInjection IsValid Inject now existing (Some store) id headers) !! ExtMut.HeaderTraceparent
             = Some (fst (Inject (w_span w))))).
Proof.
  intros Hroom Huuid Hst Hh Hem Hr Ha Hrc.
  destruct (continue_set _ _ _ _ _ _ _ Hh) as [Hnames Huniq].
  pose proof (handle_cases hdrs w ceOrder s) as H. rewrite Hh in H.
  destruct H as (ns & name & ta & ip & Eta & Hns & Eset & ->). rewrite emitted_emit in Hem by done.
  injection Hem as <-.
  assert (Hid : HTTPHeader_Get (Dispatcher.r_header r) HeaderInvocationID = resolveID hdrs w).
  { rewrite Hr. apply forwarded_set; [done|rewrite Eset; cbn; auto|]. intros v' Hv'.
    eapply Huniq; [|exact Hv']. rewrite Eset. cbn. auto. }
  assert (Hkeep : forall k, ToLower k = k -> ~ In k set_names -> HasPrefix k "ce-" = false ->
    HTTPHeader_Get (Dispatcher.r_header r) k = hdr hdrs k).
  { intros k Hl Hn Hp. rewrite Hr. apply forwarded_keep; [done|]. intros v Hv.
    destruct (Hnames k v Hv); [done|congruence]. }
  assert (Hkey : Dispatcher.ad_key a = mkNN ns name).
  { eapply acceptHead_key; [exact Ha|split; [|exact Hns]]. rewrite (Hkeep HeaderTaskAgent), Eta; [done|done| |done].
    cbn. intuition discriminate. }
  pose proof (acceptTail_facts _ _ _ _ Hrc) as (Hk & Hi & Htr).
  assert (Hne : resolveID hdrs w <> "") by (destruct (resolveID_spec hdrs w) as [->|(_ & ? & _)]; done).
  assert (Hrid : Dispatcher.rc_invocationID rc = resolveID hdrs w).
  { rewrite Hi. unfold Dispatcher.resolveInvocationID. rewrite Hid. by apply String.eqb_neq in Hne as ->. }
  cbn zeta. split; [|split; [|split]].
  - cbn. rewrite Hk, Hkey, Hrid, Htr. split_and!; try done.
    unfold Dispatcher.triggerTypeFromHeader. rewrite (Hkeep HeaderTrigger); [done|done| |done].
    cbn. intuition discriminate.
  - intros sb b eff He. cbn [inv_Name]. rewrite <- Hrid. by eapply sandbox_identified.
  - by rewrite emit_invocations; cbn [invocations]; rewrite Hst.
  - cbn [inv_Name]. intros h1 now headers existing Hv Hu Hc.
    assert (InvocationCtx.Get now (resolveID hdrs w) (InvocationCtx.after IsValid ttl (h1 ++ (w_clock w, InvocationCtx.OPut (resolveID hdrs w) (w_span w)) :: h0))
      = if now <? w_clock w + ttl then Some (w_span w) else None) as HG
      by (by rewrite InvocationCtx.Get_history, lastPut_untouched).
    split; [exact HG|]. intros Hnow Hnone Htp. unfold ExtMut.applyTraceparentInjection.
    rewrite HG, (proj2 (Z.ltb_lt _ _) Hnow), Hnone, Hv. unfold ExtMut.Inject. rewrite Hv. apply String.eqb_neq in Hne as ->. cbn [negb].
    destruct (Inject (w_span w)) as [tp ts]. cbn [fst] in *. apply String.eqb_neq in Htp as ->.
    destruct (String.eqb ts ""); cbn [snd]; [apply lookup_insert_eq|].
    rewrite lookup_insert_ne by done. apply lookup_insert_eq.
Qed.

End Forward.

End Server.

(** ** The stream

    [Process]: one reply per message, and the bodies observed for the span. *)

Definition ingressIncludedContentTypes : list string :=
  "application/cloudevents+json" :: Capture.DefaultIncludedContentTypes.

Inductive message :=
| MRequestHeaders (hdrs : HeaderMap)
| MRequestBody (chunk : list ascii) (eos : bool)
| MResponseHeaders (hdrs : HeaderMap)
| MResponseBody (chunk : list ascii) (eos : bool)
| MRequestTrailers | MResponseTrailers
| MUnknown.

Inductive phase := PhRequestHeaders | PhRequestBody | PhResponseHeaders | PhResponseBody
  | PhRequestTrailers | PhResponseTrailers.

(** A reply is typed by its phase; the headers reply carries the handler's
    response (an immediate response closes the stream at Envoy). *)
Inductive reply := Reply (p : phase) (r : option response).

Definition continueUnchanged (m : message) : option reply :=
  match m with
  | MRequestHeaders _ => Some (Reply PhRequestHeaders None)
  | MRequestBody _ _ => Some (Reply PhRequestBody None)
  | MResponseHeaders _ => Some (Reply PhResponseHeaders None)
  | MResponseBody _ _ => Some (Reply PhResponseBody None)
  | MRequestTrailers => Some (Reply PhRequestTrailers None)
  | MResponseTrailers => Some (Reply PhResponseTrailers None)
  | MUnknown => None
  end.

Definition bodyContinue : reply := Reply PhRequestBody None.

(** Events of the dispatch span. *)
Inductive spanEvent :=
| EvRequestHeaders | EvResponseHeaders
| EvRequestBody (body : string) (truncated : bool) (enc : string)
| EvResponseBody (body : string) (truncated : bool) (enc : string).

Section Stream.
Context (inflate : string -> string -> option string).
(** The handler, with its server state and answers fixed for the stream. *)
Context (handle : HeaderMap -> response).

(** [emitRequestBodyEvent] and [emitResponseBodyEvent], which differ in the name
    of the event. *)
Definition bodyEvent (mk : string -> bool -> string -> spanEvent) (body : list ascii) (truncated : bool)
    (contentEncoding : string) : list spanEvent :=
  match body with
  | [] => []
  | _ =>
      let body := string_of_list_ascii body in
      let enc := Capture.NormalizeContentEncoding contentEncoding in
      let out := if negb truncated && negb (String.eqb enc "")
                 then default body (Capture.DecodeBody inflate body contentEncoding) else body in
      [mk out truncated enc]
  end.

(** One direction's capture. *)
Record leg := mkLeg {
  l_capture : bool; l_encoding : string; l_body : list ascii; l_left : Z; l_truncated : bool; l_emitted : bool;
}.

Definition leg0 : leg := mkLeg false "" [] Capture.MaxBytesDefault false false.

Record pstate := mkP { p_span : bool; p_req : leg; p_resp : leg; p_events : list spanEvent }.

Definition pstate0 : pstate := mkP false leg0 leg0 [].

(** A body message on a leg: the leg and the events. *)
Definition observe (mk : string -> bool -> string -> spanEvent) (span : bool) (l : leg) (chunk : list ascii)
    (eos : bool) : leg * list spanEvent :=
  if l_capture l && span && negb (l_emitted l) then
    let '(body, left', trunc) := Capture.AppendBounded (l_body l) chunk (l_left l) in
    let t := l_truncated l || trunc in
    (mkLeg (l_capture l) (l_encoding l) body left' t (l_emitted l || eos),
     if eos then bodyEvent mk body t (l_encoding l) else [])
  else (l, []).

Definition onMessage (m : message) (p : pstate) : pstate * option reply :=
  match m with
  | MRequestHeaders hdrs =>
      let req := mkLeg (Capture.ContentTypeIncluded (hdr hdrs "content-type") ingressIncludedContentTypes)
                   (hdr hdrs "content-encoding") (l_body (p_req p)) (l_left (p_req p))
                   (l_truncated (p_req p)) (l_emitted (p_req p)) in
      let ev := if bool_decide (hdrs = ∅) then [] else [EvRequestHeaders] in
      (mkP true req (p_resp p) (p_events p ++ ev), Some (Reply PhRequestHeaders (Some (handle hdrs))))
  | MRequestBody chunk eos =>
      let '(req, ev) := observe EvRequestBody (p_span p) (p_req p) chunk eos in
      (mkP (p_span p) req (p_resp p) (p_events p ++ ev), Some bodyContinue)
  | MResponseHeaders hdrs =>
      let resp := mkLeg true (hdr hdrs "content-encoding") (l_body (p_resp p)) (l_left (p_resp p))
                    (l_truncated (p_resp p)) (l_emitted (p_resp p)) in
      let ev := if p_span p && negb (bool_decide (hdrs = ∅)) then [EvResponseHeaders] else [] in
      (mkP (p_span p) (p_req p) resp (p_events p ++ ev), continueUnchanged m)
  | MResponseBody chunk eos =>
      let '(resp, ev) := observe EvResponseBody (p_span p) (p_resp p) chunk eos in
      (mkP (p_span p) (p_req p) resp (p_events p ++ ev), continueUnchanged m)
  | _ => (p, continueUnchanged m)
  end.

Definition flush (mk : string -> bool -> string -> spanEvent) (l : leg) : list spanEvent :=
  if l_capture l && negb (l_emitted l) && (0 <? Capture.zlen (l_body l))
  then bodyEvent mk (l_body l) (l_truncated l) (l_encoding l) else [].

(** The loop, then the deferred function: the replies sent and the span's events,
    [None] when no span was started. *)
Fixpoint processLoop (ms : list message) (p : pstate) : list reply * pstate :=
  match ms with
  | [] => ([], p)
  | m :: ms =>
      let '(p, r) := onMessage m p in
      let '(rs, p) := processLoop ms p in
      (match r with Some r => r :: rs | None => rs end, p)
  end.

Definition Process (ms : list message) : list reply * option (list spanEvent) :=
  let '(rs, p) := processLoop ms pstate0 in
  (rs, if p_span p
       then Some (p_events p ++ flush EvRequestBody (p_req p) ++ flush EvResponseBody (p_resp p))
       else None).

(** *** Replies *)

Definition phase_of (m : message) : option phase :=
  match m with
  | MRequestHeaders _ => Some PhRequestHeaders | MRequestBody _ _ => Some PhRequestBody
  | MResponseHeaders _ => Some PhResponseHeaders | MResponseBody _ _ => Some PhResponseBody
  | MRequestTrailers => Some PhRequestTrailers | MResponseTrailers => Some PhResponseTrailers
  | MUnknown => None
  end.

Definition reply_phase (r : reply) : phase := match r with Reply p _ => p end.

Lemma onMessage_reply m p : reply_phase <$> snd (onMessage m p) = phase_of m.
Proof. destruct m; cbn; try done; unfold observe; by destruct (_ && _); try destruct (Capture.AppendBounded _ _ _) as [[? ?] ?]. Qed.

Lemma processLoop_replies ms p : List.map reply_phase (fst (processLoop ms p)) = omap phase_of ms.
Proof.
  revert p. induction ms as [|m ms IH]; intros p; [done|]. cbn [processLoop]. pose proof (onMessage_reply m p) as Hr.
  destruct (onMessage m p) as [p1 r]. specialize (IH p1). destruct (processLoop ms p1) as [rs p2].
  cbn in *. rewrite <- Hr. destruct r; cbn; by rewrite IH.
Qed.

Lemma processLoop_plain ms p :
  Forall (fun r => match r with Reply ph (Some _) => ph = PhRequestHeaders | _ => True end) (fst (processLoop ms p)).
Proof.
  revert p. induction ms as [|m ms IH]; intros p; cbn [processLoop]; [constructor|].
  assert (Hr : forall r, snd (onMessage m p) = Some r ->
    match r with Reply ph (Some _) => ph = PhRequestHeaders | _ => True end).
  { intros r. destruct m; cbn; unfold observe; try destruct (_ && _); try destruct (Capture.AppendBounded _ _ _) as [[? ?] ?];
      cbn; by intros [= <-]. }
  destruct (onMessage m p) as [p1 r]. specialize (IH p1). destruct (processLoop ms p1) as [rs p2]. cbn in *.
  destruct r; [constructor; [by apply Hr|done]|done].
Qed.

(** *** Body events *)

(** Ending a body emits what the deferred function would have. *)
Lemma observe_eos mk span l c :
  l_emitted l = false ->
  let '(l1, ev1) := observe mk span l c true in
  let '(l2, ev2) := observe mk span l c false in
  span = true -> ev1 ++ flush mk l1 = ev2 ++ flush mk l2.
Proof.
  intros He. unfold observe. rewrite He. destruct span; [|by destruct (_ && _); try destruct (Capture.AppendBounded _ _ _) as [[? ?] ?]].
  destruct (l_capture l) eqn:Ec; [|done]. cbn.
  destruct (Capture.AppendBounded _ _ _) as [[body left'] trunc]. intros _. unfold flush. cbn. rewrite app_nil_r.
  destruct body; [done|]. cbn. done.
Qed.

Lemma loop_chunks cs enc buf left t resp ev :
  exists left', snd (processLoop (List.map (fun c => MRequestBody c false) cs)
      (mkP true (mkLeg true enc buf left t false) resp ev))
    = mkP true (mkLeg true enc (fst (Capture.captureFirst cs buf left t)) left'
                  (snd (Capture.captureFirst cs buf left t)) false) resp ev.
Proof.
  revert buf left t ev. induction cs as [|c cs IH]; intros buf left t ev; cbn [List.map processLoop]; [by exists left|].
  cbn -[processLoop Capture.AppendBounded]. destruct (Capture.AppendBounded buf c left) as [[buf1 left1] t1] eqn:E. cbn -[processLoop].
  rewrite app_nil_r. destruct (IH buf1 left1 (t || t1) ev) as [left' H].
  exists left'.
  destruct (processLoop _ _) as [rs p2]. exact H.
Qed.

(** A request body whose content type is observed, aborted before its end or not:
    the span carries its first 64 KiB, once, flagged iff bytes are missing. *)
Lemma span_request_body hdrs cs :
  Capture.ContentTypeIncluded (hdr hdrs "content-type") ingressIncludedContentTypes = true ->
  hdrs <> ∅ ->
  snd (Process (MRequestHeaders hdrs :: List.map (fun c => MRequestBody c false) cs))
  = Some (EvRequestHeaders ::
      bodyEvent EvRequestBody (take (Z.to_nat Capture.MaxBytesDefault) (concat cs))
        (Capture.MaxBytesDefault <? Capture.zlen (concat cs)) (hdr hdrs "content-encoding")).
Proof.
  intros Hct Hne. unfold Process. cbn [processLoop onMessage].
  rewrite Hct, bool_decide_eq_false_2 by done. cbn -[processLoop Capture.MaxBytesDefault].
  destruct (loop_chunks cs (hdr hdrs "content-encoding") [] Capture.MaxBytesDefault false leg0 [EvRequestHeaders])
    as [left' H]. destruct (processLoop _ _) as [rs p2]. cbn in H. subst p2.
  rewrite Capture.captureFirst_spec by (unfold Capture.MaxBytesDefault; lia). cbn [p_span p_events p_req p_resp fst snd app].
  unfold flush. cbn -[bodyEvent take Capture.MaxBytesDefault Capture.zlen]. rewrite app_nil_r.
  destruct (take _ (concat cs)) as [|x l]; [done|]. by cbn [Capture.zlen length Z.of_nat Z.ltb Z.compare].
Qed.

(** The ingress processor never disturbs a stream: whatever the sequence of
    messages, it answers each one exactly once and in the phase it came in (a
    message of an unknown kind gets none), and only the reply to the request
    headers changes the request. *)
Theorem ingress_observe_only (ms : list message) :
  List.map reply_phase (fst (Process ms)) = omap phase_of ms
  /\ Forall (fun r => match r with Reply p (Some _) => p = PhRequestHeaders | _ => True end) (fst (Process ms)).
Proof.
  unfold Process. pose proof (processLoop_replies ms pstate0) as H1. pose proof (processLoop_plain ms pstate0) as H2.
  destruct (processLoop ms pstate0). done.
Qed.

End Stream.

(** ** Concrete requests *)

(** Set headers replace, in order. *)
Definition replaceHeaders (set : list (string * string)) (m : HeaderMap) : CloudEvents.Header :=
  foldr (fun kv h => <[fst kv := [snd kv]]> h) ((fun v => [v]) <$> m) set.

Lemma replaceHeaders_set set m k v :
  In (k, v) set -> (forall v', In (k, v') set -> v' = v) -> replaceHeaders set m !! k = Some [v].
Proof.
  induction set as [|[k' v'] set IH]; cbn; [done|]. intros Hin Hu.
  destruct (decide (k' = k)) as [->|Hne].
  - rewrite lookup_insert_eq. by rewrite (Hu v') by auto.
  - rewrite lookup_insert_ne by done. destruct Hin as [[= -> ->]|Hin]; [done|]. apply IH; auto.
Qed.

Lemma replaceHeaders_keep set m k :
  (forall v, ~ In (k, v) set) -> replaceHeaders set m !! k = (fun v => [v]) <$> m !! k.
Proof.
  induction set as [|[k' v'] set IH]; cbn; intros Hn; [apply lookup_fmap|].
  rewrite lookup_insert_ne; [|intros ->; by apply (Hn v'); left]. apply IH. intros v Hv. by apply (Hn v); right.
Qed.

(** A picker that always has a worker. *)
Program Definition onePicker : Picker := {|
  pick _ _ _ _ _ _ := (HealthCheck.mkPickResult "10.0.0.7:8090" false, true);
|}.
Next Obligation. intros pool ns agent rev max tb r. cbn. intros [= <-]. split; [done|]. by exists "10.0.0.7". Qed.

Definition hdrs_ex : HeaderMap :=
  {[ HeaderTaskAgent := "prod/bot"; HeaderTrigger := "cli"; ":method" := "POST"; ":path" := "/" ]}.

Definition iworld_ex : World (SpanContext := nat) :=
  mkWorld (fun _ => Dispatcher.Found ta_ex) 5%nat "id-1" "ce-1" "t" 7.

Definition server_ex : Server (SpanContext := nat) := mkServer (Some InvocationCtx.NewStore) [] true.

Definition handle_ex : Server (SpanContext := nat) * response * ingressOutcome :=
  handleRequestHeaders (picker := onePicker) (fun _ => true) (fun _ => ("00-tp", "")) (fun _ => None)
    hdrs_ex iworld_ex map_to_list server_ex.


(** The worker's request and answers for [handle_ex]. *)
Definition forwarded_ex : Dispatcher.Request :=
  Dispatcher.mkRequest
    (replaceHeaders (match handle_ex with (_, Continue set, _) => set | _ => [] end) hdrs_ex)
    (mkLine "POST" "/" "") "" false.

Definition admit_ex : Dispatcher.acceptance := Dispatcher.mkAdmit (mkNN "prod" "bot") (Dispatcher.agent_ex 1) 1.

Definition rc_ex : Dispatcher.reqCtx :=
  match Dispatcher.acceptTail admit_ex forwarded_ex (Dispatcher.world_ex 1) with
  | inl rc => rc
  | inr _ => Dispatcher.mkReqCtx (mkNN "" "") ta_ex "" (Dispatcher.newAgentIdentity "" "" "" "") "" 0 TriggerHTTP 0
  end.

Lemma invocation_identity_flows_witness :
  inv_Name (Dispatcher.invocationOf rc_ex PhaseRunning) = "id-1"
  /\ inv_Trigger (Dispatcher.invocationOf rc_ex PhaseRunning) = TriggerCLI
  /\ InvocationCtx.Get 20 "id-1" (InvocationCtx.after (fun _ => true) InvocationCtx.DefaultTTL
       [(15, InvocationCtx.OReap); (9, InvocationCtx.OPut "id-2" 6%nat); (7, InvocationCtx.OPut "id-1" 5%nat)]) = Some 5%nat.
Proof.
  pose proof (invocation_identity_flows (picker := onePicker) (fun _ => true) (fun _ => ("00-tp", "")) (fun _ => None)
    replaceHeaders replaceHeaders_set replaceHeaders_keep hdrs_ex iworld_ex map_to_list server_ex
    (fst (fst handle_ex)) (match handle_ex with (_, Continue set, _) => set | _ => [] end) (snd handle_ex)
    (mkInvocation "id-1" "prod" 7 InvocationParentTaskAgent "bot" TriggerCLI PhaseDispatched)
    InvocationCtx.DefaultTTL [] forwarded_ex (Dispatcher.world_ex 1) false admit_ex rc_ex PhaseRunning) as H.
  destruct H as ((H1 & _ & _ & _ & H5) & _ & _ & HG).
  - split; [reflexivity|vm_compute; repeat constructor].
  - discriminate.
  - reflexivity.
  - vm_compute. reflexivity.
  - vm_compute. reflexivity.
  - reflexivity.
  - vm_compute. reflexivity.
  - vm_compute. reflexivity.
  - split; [exact H1|]. split; [exact H5|].
    refine (proj1 (HG [(15, InvocationCtx.OReap); (9, InvocationCtx.OPut "id-2" 6%nat)] 20 ∅ None eq_refl _ _)).
    + repeat constructor. cbn. discriminate.
    + cbn. lia.
Defined.

(** ** The parent can expire under a running execution

    [DefaultTTL] is documented to be longer than the longest execution; it is
    exactly the dispatcher's cap.  The entry is put before the worker starts its
    own clock, so for an agent that uses the whole cap the parent is gone before
    the deadline. *)
Lemma parent_expires_before_deadline (span : nat) :
  let put := 0 in
  let accepted := 2000000000 in                                      (* two seconds later, at the worker *)
  let deadline := accepted + Dispatcher.executionTimeout None in
  let now := deadline - 1000000000 in                                (* the agent still runs *)
  InvocationCtx.Get now "id-1"
    (InvocationCtx.Put (fun _ => true) put "id-1" span InvocationCtx.NewStore) = None
  /\ now < deadline.
Proof. split; [|lia]. vm_compute. reflexivity. Qed.

End Ingress.
