(* ===== verification/Upstream.v ===== *)
(** * Per-attempt adaptation

    [src/internal/extproc/reqstate.go] and [upstream.go]: the state the two
    positions of the external processor share about one request, and the stream
    that adapts one router attempt to the backend Envoy picked.  The shared states
    live in a heap: the store maps an [x-request-id] to an address, and the
    downstream stream and the attempts of a request hold the same address.  Log
    lines are left out. *)

From Stdlib Require Import ZArith Lia NArith Ascii String List.
From stdpp Require Import base strings list gmap sorting pretty.
From S2P Require Import Prelude GoStrings GoStd GoPath ApiTypes Registry LlmRoute SigV4 LlmCall CredTable Capture InvocationCtx ExtMut.
Import GoStrings GoStd LlmRoute.
Import CredTable.
Import ExtMut.

#[local] Open Scope string_scope.
#[local] Open Scope Z_scope.
#[local] Open Scope list_scope.

Module Upstream.

(** ** Request state *)

Record attemptFact := mkFact {
  backendNamespace : string;
  backendName : string;
  backendSchema : string;
  translationApplied : bool;
  fact_tgt : option Registry.Provider;
  xreq : option LlmCall.Request;
  droppedExtras : Z;
  bodyRewritten : bool;
  sentPath : string;
  sentBody : string;
}.

(** [createdAt] is [None] for the zero time. *)
Record requestState := mkState {
  createdAt : option Z;
  st_system : string;
  st_model : string;
  srcIR : option LlmCall.Request;
  st_rule : option routeRule;
  attempts : list attemptFact;
}.

Definition withAttempt (a : attemptFact) (st : requestState) : requestState :=
  mkState (createdAt st) (st_system st) (st_model st) (srcIR st) (st_rule st) (attempts st ++ [a]).

Definition withCreatedAt (now : Z) (st : requestState) : requestState :=
  mkState (Some now) (st_system st) (st_model st) (srcIR st) (st_rule st) (attempts st).

Definition lastAttempt (st : requestState) : option attemptFact := last (attempts st).
Definition attemptCount (st : requestState) : Z := Z.of_nat (length (attempts st)).
Definition attemptBackends (st : requestState) : list string :=
  List.map (fun a => (backendNamespace a ++ "/" ++ backendName a)%string) (attempts st).

(** Nanoseconds. *)
Definition requestStateTTL : Z := 15 * 60 * 1000000000.

(** [w_states] is [requestStateStore.states]. *)
Record world := mkWorld {
  w_heap : gmap nat requestState;
  w_next : nat;
  w_states : gmap string nat;
}.

Definition newRequestStateStore : world := mkWorld ∅ 0 ∅.

(** [&requestState{...}]. *)
Definition alloc (st : requestState) (w : world) : nat * world :=
  (w_next w, mkWorld (<[w_next w := st]> (w_heap w)) (S (w_next w)) (w_states w)).

Definition update (p : nat) (f : requestState -> requestState) (w : world) : world :=
  mkWorld (alter f p (w_heap w)) (w_next w) (w_states w).

(** Created before [cutoff]. *)
Definition expired (w : world) (cutoff : Z) (p : nat) : bool :=
  match w_heap w !! p ≫= createdAt with Some t => t <? cutoff | None => true end.

Definition put (now : Z) (requestID : string) (p : nat) (w : world) : world :=
  if String.eqb requestID "" then w
  else
    let w := match w_heap w !! p ≫= createdAt with
             | None => update p (withCreatedAt now) w
             | Some _ => w
             end in
    let cutoff := now - requestStateTTL in
    mkWorld (w_heap w) (w_next w)
      (<[requestID := p]> (filter (fun kv => expired w cutoff kv.2 = false) (w_states w))).

Definition get (requestID : string) (w : world) : option nat :=
  if String.eqb requestID "" then None else w_states w !! requestID.

Definition delete (requestID : string) (w : world) : world :=
  if String.eqb requestID "" then w else mkWorld (w_heap w) (w_next w) (base.delete requestID (w_states w)).

Definition appendAttempt (p : nat) (a : attemptFact) (w : world) : world := update p (withAttempt a) w.

(** ** Messages *)

Inductive message :=
| MRequestHeaders (h : list Capture.HeaderValue) (eos : bool)
| MRequestBody (body : string) (eos : bool)
| MRequestTrailers
| MResponseHeaders (h : list Capture.HeaderValue) (eos : bool)
| MResponseBody (body : string) (eos : bool)
| MResponseTrailers
| MUnknown.

(** [rq_Attributes] lists the attribute structs in the order the map yields them,
    each with its string fields; [rq_Metadata] is the filter metadata. *)
Record ProcessingRequest := mkRequestMsg {
  rq_Message : message;
  rq_Attributes : list (gmap string string);
  rq_Metadata : option (gmap string (gmap string string));
}.

(** ** The picked endpoint *)

Definition upstreamHostMetadataAttr : string := "xds.upstream_host_metadata".
Definition EndpointMetaNamespace : string := "clrk.apoxy.dev".

Record attemptBackend := mkAttemptBackend {
  ab_namespace : string;
  ab_name : string;
  ab_schema : string;
  ab_host : string;
  ab_port : Z;
}.

Fixpoint digitsFrom (s : string) (acc : Z) : option Z :=
  match s with
  | EmptyString => Some acc
  | String c t =>
      let n := Z.of_N (N_of_ascii c) in
      if (48 <=? n) && (n <=? 57) then digitsFrom t (10 * acc + (n - 48)) else None
  end.

(** [strconv.Atoi], its error dropped: 0 on a syntax error, the nearest bound when
    out of range. *)
Definition Atoi (s : string) : Z :=
  let '(neg, d) := match s with
                   | String "+" t => (false, t)
                   | String "-" t => (true, t)
                   | _ => (false, s)
                   end in
  if String.eqb d "" then 0
  else match digitsFrom d 0 with
       | None => 0
       | Some v => if neg then Z.max (- v) (- 2 ^ 63) else Z.min v (2 ^ 63 - 1)
       end.

Section Metadata.
(** [prototext.Unmarshal] into a [Metadata]: its filter metadata, with the string
    fields of each namespace. *)
Context (unmarshalMetadata : string -> option (gmap string (gmap string string))).

Definition backendOf (fields : gmap string string) : attemptBackend :=
  let f k := default "" (fields !! k) in
  mkAttemptBackend (f "backend_namespace") (f "backend_name") (f "schema") (f "host") (Atoi (f "port")).

(** One attribute struct of [captureHostMetadata]. *)
Definition hostMetadata (attrs : gmap string string) : option attemptBackend :=
  v ← attrs !! upstreamHostMetadataAttr;
  md ← unmarshalMetadata v;
  fields ← md !! EndpointMetaNamespace;
  let b := backendOf fields in
  if String.eqb (ab_name b) "" then None else Some b.

(** The last attribute struct that names a backend wins. *)
Definition captureHostMetadata (backend : option attemptBackend) (attrs : list (gmap string string))
    : option attemptBackend :=
  match backend with
  | Some b => Some b
  | None => last (omap hostMetadata attrs)
  end.

End Metadata.

(** ** The attempt stream *)

Record upstreamStream := mkUpstream {
  us_creds : option credTable;
  us_requestID : string;
  us_path : string;
  us_method : string;
  us_reqHeaders : gmap string string;
  us_backend : option attemptBackend;
  us_state : option nat;
  us_cand : option Candidate;
  us_failed : bool;
}.

(** [newUpstreamStream], with the credential table of the gateway. *)
Definition newUpstreamStream (creds : option credTable) : upstreamStream :=
  mkUpstream creds "" "" "" ∅ None None None false.

Definition withBackend (us : upstreamStream) (b : option attemptBackend) : upstreamStream :=
  mkUpstream (us_creds us) (us_requestID us) (us_path us) (us_method us) (us_reqHeaders us) b
    (us_state us) (us_cand us) (us_failed us).

Definition withCand (us : upstreamStream) (c : option Candidate) (failed : bool) : upstreamStream :=
  mkUpstream (us_creds us) (us_requestID us) (us_path us) (us_method us) (us_reqHeaders us) (us_backend us)
    (us_state us) c failed.

Section Stream.
Context (reg : Registry.registry) {HK : Hooks}.
Context (sha256 : string -> string) (hmac : string -> string -> string) (now : SigV4.Now).
Context (unmarshalMetadata : string -> option (gmap string (gmap string string))).

Definition authorityOf (c : Candidate) : string := JoinHostPort (c_Host c) (c_Port c).

Definition repointAndInject (us : upstreamStream) (cand : Candidate) (injs : list credInjection) (body : string)
    : option HeaderMutation :=
  let '(hdrInjs, sigInjs) := splitInjections injs in
  let mut := setHeaderMut None ":authority" (authorityOf cand) in
  let mut := applyInjections mut hdrInjs in
  applySigning sha256 hmac now mut sigInjs
    (mkSignInput (us_method us) (authorityOf cand) (us_path us) body (us_reqHeaders us)).

(** The facts of an attempt that sent the agent's bytes. *)
Definition plainFact (cand : Candidate) : attemptFact :=
  mkFact (c_Namespace cand) (c_Name cand) (c_System cand) false None None 0 false "" "".

Definition commitBodyless (us : upstreamStream) (p : nat) (st : requestState) (cand : Candidate) (w : world)
    : ProcessingResponse * world :=
  let injs := lookupForBackend (us_creds us) (st_rule st) (c_Name cand) in
  let mut := repointAndInject us cand injs "" in
  (headersContinueWithHeaders mut false, appendAttempt p (plainFact cand) w).

Definition sameBackend (b : attemptBackend) (c : Candidate) : bool :=
  String.eqb (c_Namespace c) (ab_namespace b) && String.eqb (c_Name c) (ab_name b).

Definition noState : string := "clrk: no request state for pinned attempt".
Definition noIdentity : string := "clrk: no backend identity for pinned attempt".
Definition notCandidate : string := "clrk: attempt backend not in rule candidates".

Definition onRequestHeaders (us : upstreamStream) (h : list Capture.HeaderValue) (eos : bool) (w : world)
    : ProcessingResponse * upstreamStream * world :=
  let hdrs := Capture.headersToMap h in
  let g k := default "" (hdrs !! k) in
  let us := mkUpstream (us_creds us) (g "x-request-id") (g ":path") (g ":method") hdrs (us_backend us)
              (get (g "x-request-id") w) (us_cand us) (us_failed us) in
  match us_state us ≫= (fun p => (w_heap w !! p) ≫= (fun st => rr ← st_rule st; Some (p, st, rr))) with
  | None => (immediateResponse 502 noState, withCand us (us_cand us) true, w)
  | Some (p, st, rr) =>
      match us_backend us with
      | None => (immediateResponse 502 noIdentity, withCand us (us_cand us) true, w)
      | Some b =>
          (* a cand left by an earlier headers message stays when none matches *)
          match (match List.find (sameBackend b) (backends rr) with Some c => Some c | None => us_cand us end) with
          | None => (translation502 reg (st_system st) notCandidate, withCand us None true, w)
          | Some c =>
              let us := withCand us (Some c) (us_failed us) in
              if eos then let '(r, w) := commitBodyless us p st c w in (r, us, w)
              else (headersContinue true, us, w)
          end
      end
  end.

Definition noCodec : string := "clrk: no codec for attempt backend schema".
Definition noRewrite : string := "clrk: no model rewrite for attempt backend".
Definition encodeFailed : string := "clrk: cross-schema request translation failed".
Definition noDecode : string := "clrk: cross-schema attempt without decoded request".

(** The header mutation of a translated attempt. *)
Definition translatedMutation (us : upstreamStream) (cand : Candidate) (ir : LlmCall.Request)
    (enc : LlmCall.EncodedRequest) (body : string) (injs : list credInjection) : option HeaderMutation :=
  let authority := authorityOf cand in
  let mut := setHeaderMut None ":authority" authority in
  let mut := setHeaderMut mut ":path" (LlmCall.en_Path enc) in
  let mut := fold_left (fun m k => setHeaderMut m k (default "" (LlmCall.en_SetHeaders enc !! k)))
               (sortedKeys (LlmCall.en_SetHeaders enc)) mut in
  let '(hdrInjs, sigInjs) := splitInjections injs in
  let mut := applyInjections mut hdrInjs in
  let mut := applySigning sha256 hmac now mut sigInjs
               (mkSignInput (us_method us) authority (LlmCall.en_Path enc) body (us_reqHeaders us)) in
  removeHeadersMut mut (sourceHeaderRemovals reg ir enc injs).

Definition commitTranslated (us : upstreamStream) (p : nat) (st : requestState) (ir : LlmCall.Request)
    (cand : Candidate) (injs : list credInjection) (w : world)
    : outcome unit (ProcessingResponse * world) :=
  match Registry.ByName reg (c_System cand) with
  | Some tgt =>
      if negb (Registry.p_Codec tgt) then Ok (translation502 reg (st_system st) noCodec, w)
      else match RewriteModel cand (LlmCall.rq_Model ir) with
      | None => Ok (translation502 reg (st_system st) noRewrite, w)
      | Some newModel =>
          match translateRequest tgt ir newModel with
          | Panic => Panic
          | Err _ => Ok (translation502 reg (st_system st) encodeFailed, w)
          | Ok (enc, xr) =>
              let body :=
                match (if LlmCall.rq_Stream xr then ensureStreamUsage tgt else None) with
                | Some f => default (LlmCall.en_Body enc) (f (LlmCall.en_Path enc) (LlmCall.en_Body enc))
                | None => LlmCall.en_Body enc
                end in
              let mut := translatedMutation us cand ir enc body injs in
              let fact := mkFact (c_Namespace cand) (c_Name cand) (c_System cand) true (Some tgt) (Some xr)
                            (LlmCall.en_DroppedExtras enc) true (LlmCall.en_Path enc) body in
              Ok (bodyMutationWithHeaders true body mut false, appendAttempt p fact w)
          end
      end
  | None => Ok (translation502 reg (st_system st) noCodec, w)
  end.

(** The commit of a same-schema or custom attempt. *)
Definition commitPlain (us : upstreamStream) (p : nat) (st : requestState) (cand : Candidate)
    (injs : list credInjection) (body : string) (w : world) : ProcessingResponse * world :=
  let '(finalBody, bodyChanged) := rewriteRequestBody reg body (us_path us) (st_model st) cand in
  let mut := repointAndInject us cand injs finalBody in
  if bodyChanged then
    (bodyMutationWithHeaders true finalBody mut false,
     appendAttempt p (mkFact (c_Namespace cand) (c_Name cand) (c_System cand) false None None 0 true
                        (us_path us) finalBody) w)
  else (bodyContinueWithHeaders true mut false, appendAttempt p (plainFact cand) w).

(** A body message before the headers joined the attempt dereferences nil. *)
Definition onRequestBody (us : upstreamStream) (body : string) (eos : bool) (w : world)
    : outcome unit (ProcessingResponse * world) :=
  if us_failed us then Ok (bodyContinue true, w)
  else if negb eos then Ok (bodyContinue true, w)
  else match us_state us ≫= (fun p => st ← w_heap w !! p; rr ← st_rule st; cand ← us_cand us; Some (p, st, rr, cand)) with
  | None => Panic
  | Some (p, st, rr, cand) =>
      let injs := lookupForBackend (us_creds us) (Some rr) (c_Name cand) in
      if negb (trustsOperator rr) && negb (String.eqb (c_System cand) (st_system st)) then
        match srcIR st with
        | Some ir => commitTranslated us p st ir cand injs w
        | None => Ok (translation502 reg (st_system st) noDecode, w)
        end
      else Ok (commitPlain us p st cand injs body w)
  end.

Definition handle (us : upstreamStream) (req : ProcessingRequest) (w : world)
    : outcome unit (option ProcessingResponse * upstreamStream * world) :=
  let us := withBackend us (captureHostMetadata unmarshalMetadata (us_backend us) (rq_Attributes req)) in
  match rq_Message req with
  | MRequestHeaders h eos => let '(r, us, w) := onRequestHeaders us h eos w in Ok (Some r, us, w)
  | MRequestBody body eos => let! (r, w) := onRequestBody us body eos w in Ok (Some r, us, w)
  | MRequestTrailers => Ok (Some (trailersContinue true), us, w)
  | MResponseHeaders _ _ => Ok (Some (headersContinue false), us, w)
  | MResponseBody _ _ => Ok (Some (bodyContinue false), us, w)
  | MResponseTrailers => Ok (Some (trailersContinue false), us, w)
  | MUnknown => Ok (None, us, w)
  end.

(** [processUpstream]: the replies to the messages of one stream. *)
Fixpoint processUpstream (us : upstreamStream) (reqs : list ProcessingRequest) (w : world)
    : outcome unit (list (option ProcessingResponse) * upstreamStream * world) :=
  match reqs with
  | [] => Ok ([], us, w)
  | req :: reqs =>
      let! (r, us, w) := handle us req w in
      let! (rs, us, w) := processUpstream us reqs w in
      Ok (r :: rs, us, w)
  end.

End Stream.

(** ** What a cross-schema attempt sends *)

Section Proofs.
Context (reg : Registry.registry) {HK : Hooks}.
Context (sha256 : string -> string) (hmac : string -> string -> string) (now : SigV4.Now).

Lemma setNames_translated us cand ir enc body injs :
  signable injs (authorityOf cand) ->
  forall n, n ∈ setNames (translatedMutation reg sha256 hmac now us cand ir enc body injs)
    <-> n = ":authority" \/ n = ":path" \/ is_Some (LlmCall.en_SetHeaders enc !! n)
        \/ n ∈ List.map headerName (List.filter (fun i => negb (isSig i)) injs)
        \/ exists i rest, List.filter isSig injs = i :: rest /\ n ∈ headerNames i.
Proof.
  intros Hs n. unfold translatedMutation. cbn [splitInjections]. rewrite setNames_remove.
  set (m0 := setHeaderMut (setHeaderMut None ":authority" _) ":path" _).
  destruct (set_fold (fun k => k) (fun k => default "" (LlmCall.en_SetHeaders enc !! k))
              (sortedKeys (LlmCall.en_SetHeaders enc)) m0) as [H1 _].
  set (m1 := fold_left _ _ m0) in *. rewrite List.map_id in H1.
  destruct (applyInjections_names (List.filter (fun i => negb (isSig i)) injs) m1) as [H2 _].
  set (m2 := applyInjections m1 _) in *.
  assert (H3 : n ∈ setNames m2 <-> n = ":authority" \/ n = ":path" \/ is_Some (LlmCall.en_SetHeaders enc !! n)
      \/ n ∈ List.map headerName (List.filter (fun i => negb (isSig i)) injs)).
  { rewrite H2, H1. unfold m0. rewrite !setNames_set. change (setNames None) with (@nil string).
    replace (List.filter (fun i => negb (isSig i)) (List.filter (fun i => negb (isSig i)) injs))
      with (List.filter (fun i => negb (isSig i)) injs).
    2:{ symmetry. apply filter_all. intros i Hi. by apply filter_In in Hi as [_ Hi]. }
    rewrite !elem_of_app, !list_elem_of_singleton, elem_of_sortedKeys, elem_of_nil. tauto. }
  destruct (List.filter isSig injs) as [|i rest] eqn:Ef.
  - cbn [applySigning]. rewrite H3. split; [tauto|]. intros [?|[?|[?|[?|(i & rest & [=] & _)]]]]; tauto.
  - assert (Hi : isSig i = true) by (assert (In i (List.filter isSig injs)) as [_ ?]%filter_In by (rewrite Ef; by left); done).
    apply bool_decide_eq_true in Hi as [sc Hsc].
    destruct (applySigning_names sha256 hmac now m2 injs i rest sc
      (mkSignInput (us_method us) (authorityOf cand) (LlmCall.en_Path enc) body (us_reqHeaders us)) Ef Hsc) as [H4 _].
    { by eapply Hs. }
    rewrite <- Ef, H4, H3. split; [naive_solver|]. intros [?|[?|[?|[?|(i' & rest' & ? & ?)]]]]; try tauto.
    rewrite Ef in *. simplify_eq. tauto.
Qed.

Lemma removed_translated us cand ir enc body injs n :
  n ∈ sourceHeaderRemovals reg ir enc injs ->
  n ∈ removed (translatedMutation reg sha256 hmac now us cand ir enc body injs).
Proof. unfold translatedMutation. cbn [splitInjections]. rewrite removed_remove, elem_of_app. auto. Qed.

(** The signature headers of a later credential are among those of the first, but
    for the session token. *)
Lemma headerNames_first i i' n :
  isSig i = true -> isSig i' = true -> n ∈ headerNames i ->
  n ∈ headerNames i' \/ n = "x-amz-security-token".
Proof.
  unfold isSig, headerNames. rewrite !bool_decide_eq_true. intros [s ->] [s' ->].
  rewrite !elem_of_app. repeat case_match; set_solver.
Qed.

Lemma shed_translated us cand ir enc body injs i rest sc n :
  List.filter isSig injs = i :: rest -> sigv4 i = Some sc -> signRegion sc (authorityOf cand) <> "" ->
  is_Some (us_reqHeaders us !! n) -> HasPrefix n "x-amz-" = true -> n ∉ headerNames i ->
  n ∈ removed (translatedMutation reg sha256 hmac now us cand ir enc body injs).
Proof.
  intros Ef Hsc Hr Hh Hp Hn. unfold translatedMutation. cbn [splitInjections]. rewrite removed_remove, elem_of_app. left.
  by apply (applySigning_names sha256 hmac now _ injs i rest sc
    (mkSignInput (us_method us) (authorityOf cand) (LlmCall.en_Path enc) body (us_reqHeaders us)) Ef Hsc); auto.
Qed.

(** Even when the signature is skipped, the other names are set. *)
Lemma setNames_unsigned us cand ir enc body injs n :
  is_Some (LlmCall.en_SetHeaders enc !! n) \/ n ∈ List.map headerName (List.filter (fun i => negb (isSig i)) injs) ->
  n ∈ setNames (translatedMutation reg sha256 hmac now us cand ir enc body injs).
Proof.
  intros Hn. unfold translatedMutation. cbn [splitInjections]. rewrite setNames_remove. apply setNames_applySigning.
  set (m0 := setHeaderMut _ _ _).
  destruct (set_fold (fun k => k) (fun k => default "" (LlmCall.en_SetHeaders enc !! k))
              (sortedKeys (LlmCall.en_SetHeaders enc)) m0) as [H1 _]. rewrite List.map_id in H1.
  set (m1 := fold_left _ _ m0) in *.
  destruct (applyInjections_names (List.filter (fun i => negb (isSig i)) injs) m1) as [H2 _]. rewrite H2, H1.
  rewrite (filter_all _ (List.filter _ injs)) by (intros i Hi; by apply filter_In in Hi as [_ Hi]).
  rewrite !elem_of_app, elem_of_sortedKeys. tauto.
Qed.

(** A header that a skipped signature would have set. *)
Definition escapes (injs : list credInjection) (authority h : string) : Prop :=
  ~ signable injs authority /\ exists i, In i injs /\ isSig i = true /\ h ∈ headerNames i.

(** A credential header the agent sent is overwritten or removed, unless it is one that
    a skipped signature would have set. *)
Lemma credentials_shed us cand ir enc body injs h :
  h ∈ Registry.AuthHeaderUnion reg -> is_Some (us_reqHeaders us !! h) ->
  let m := translatedMutation reg sha256 hmac now us cand ir enc body injs in
  h ∈ removed m \/ (exists n, n ∈ setNames m /\ (n = h \/ ToLower n = h)) \/ escapes injs (authorityOf cand) h.
Proof.
  intros Hh Hsent m. destruct (decide (h ∈ keptHeaders enc injs)) as [Hk|Hk].
  2:{ left. apply removed_translated, sourceHeaderRemovals_spec.
    apply Registry.authHeadersOf_spec in Hh as Hh'. destruct Hh' as (Hne & p & h0 & _ & _ & E).
    split; [done|]. split; [done|]. exists h. split; [apply in_app_iff; left; by apply list_elem_of_In|].
    rewrite <- E. apply ToLower_idem. }
  unfold keptHeaders in Hk. rewrite elem_of_app, list_elem_of_In, in_map_iff in Hk.
  destruct Hk as [(k & <- & Hk)|Hk].
  - right. left. exists k. split; [|auto]. apply setNames_unsigned. left.
    apply in_map_iff in Hk as ((k' & v) & <- & Hk). apply list_elem_of_In, elem_of_map_to_list in Hk. by exists v.
  - apply list_elem_of_In, in_flat_map in Hk as (i & Hi & Hn). apply list_elem_of_In in Hn.
    destruct (isSig i) eqn:E.
    + destruct (signable_dec injs (authorityOf cand)) as [Hs|Hs]; [|by right; right; split; eauto].
      assert (Hf : In i (List.filter isSig injs)) by by apply filter_In.
      destruct (List.filter isSig injs) as [|i0 rest] eqn:Ef; [done|].
      assert (Hi0 : isSig i0 = true) by (assert (In i0 (List.filter isSig injs)) as [_ ?]%filter_In by (rewrite Ef; by left); done).
      destruct (decide (h ∈ headerNames i0)) as [Hin|Hout].
      * right. left. exists h. split; [|auto]. apply setNames_translated; [done|]. do 4 right. eauto.
      * left. destruct (headerNames_first i i0 h) as [?| ->]; auto; [done|].
        apply bool_decide_eq_true in Hi0 as [sc Hsc]. eapply shed_translated; eauto.
    + right. left. exists h. split; [|auto]. apply setNames_unsigned. right.
      apply list_elem_of_In, in_map_iff. exists i. split; [|by apply filter_In; rewrite E].
      unfold isSig in E. apply bool_decide_eq_false in E. unfold headerNames in Hn.
      destruct (sigv4 i); [exfalso; eauto|]. by apply list_elem_of_singleton in Hn.
Qed.

(** The attempt has joined its request: the headers phase found the shared state
    and the picked backend among the candidates of the pinned rule. *)
Record joined (us : upstreamStream) (w : world) (p : nat) (st : requestState) (rr : routeRule) (cand : Candidate)
    : Prop := {
  j_failed : us_failed us = false;
  j_state : us_state us = Some p;
  j_heap : w_heap w !! p = Some st;
  j_rule : st_rule st = Some rr;
  j_cand : us_cand us = Some cand;
}.

Lemma onRequestBody_joined us w p st rr cand body :
  joined us w p st rr cand ->
  onRequestBody reg sha256 hmac now us body true w =
  let injs := lookupForBackend (us_creds us) (Some rr) (c_Name cand) in
  if negb (trustsOperator rr) && negb (String.eqb (c_System cand) (st_system st)) then
    match srcIR st with
    | Some ir => commitTranslated reg sha256 hmac now us p st ir cand injs w
    | None => Ok (translation502 reg (st_system st) noDecode, w)
    end
  else Ok (commitPlain reg sha256 hmac now us p st cand injs body w).
Proof.
  intros [Hf Hs Hh Hr Hc]. unfold onRequestBody. rewrite Hf, Hs. cbn. rewrite Hh. cbn. rewrite Hr. cbn. by rewrite Hc.
Qed.

Lemma last_appendAttempt p a w st :
  w_heap w !! p = Some st -> (w_heap (appendAttempt p a w) !! p) ≫= lastAttempt = Some a.
Proof.
  intros H. unfold appendAttempt, update. cbn. rewrite lookup_alter_eq, H. cbn. unfold lastAttempt. cbn.
  by rewrite last_snoc.
Qed.

(** What a translated attempt sends: the target codec's body and path, to the
    picked endpoint, with every credential header of the agent dealt with. *)
Record translated_reply (us : upstreamStream) (st : requestState) (rr : routeRule) (cand : Candidate)
    (r : ProcessingResponse) (fact : attemptFact) : Prop := {
  tr_encoded : exists ir tgt model enc xr,
    srcIR st = Some ir /\ Registry.ByName reg (c_System cand) = Some tgt
    /\ RewriteModel cand (LlmCall.rq_Model ir) = Some model
    /\ translateRequest tgt ir model = Ok (enc, xr)
    /\ sentPath fact = LlmCall.en_Path enc
    /\ (sentBody fact = LlmCall.en_Body enc
        \/ exists f, ensureStreamUsage tgt = Some f /\ f (LlmCall.en_Path enc) (LlmCall.en_Body enc) = Some (sentBody fact))
    /\ fact_tgt fact = Some tgt /\ xreq fact = Some xr;
  tr_fact : translationApplied fact = true /\ backendName fact = c_Name cand /\ backendSchema fact = c_System cand;
  tr_mutation : exists m, r = bodyMutationWithHeaders true (sentBody fact) m false
    /\ In (mkHeaderOption ":authority" (authorityOf cand)) (SetHeaders (default emptyMutation m))
    /\ (forall h, h ∈ Registry.AuthHeaderUnion reg -> is_Some (us_reqHeaders us !! h) ->
        h ∈ removed m \/ (exists n, n ∈ setNames m /\ (n = h \/ ToLower n = h))
        \/ escapes (lookupForBackend (us_creds us) (Some rr) (c_Name cand)) (authorityOf cand) h);
}.

Lemma In_fold_set {A} (name value : A -> string) (l : list A) : forall m o,
  In o (SetHeaders (default emptyMutation m)) ->
  In o (SetHeaders (default emptyMutation (fold_left (fun m a => setHeaderMut m (name a) (value a)) l m))).
Proof.
  induction l as [|a l IH]; intros m o H; cbn [fold_left]; [done|]. apply IH. cbn. apply in_or_app. auto.
Qed.

Lemma In_applyInjections injs : forall m o,
  In o (SetHeaders (default emptyMutation m)) -> In o (SetHeaders (default emptyMutation (applyInjections m injs))).
Proof.
  unfold applyInjections. induction injs as [|i injs IH]; intros m o H; cbn [fold_left]; [done|]. apply IH.
  destruct (sigv4 i); [done|]. cbn. apply in_or_app. auto.
Qed.

Lemma In_removeHeadersMut ns m o :
  In o (SetHeaders (default emptyMutation m)) -> In o (SetHeaders (default emptyMutation (removeHeadersMut m ns))).
Proof. by destruct ns. Qed.

Lemma In_applySigning sigs in_ m o :
  In o (SetHeaders (default emptyMutation m)) ->
  In o (SetHeaders (default emptyMutation (applySigning sha256 hmac now m sigs in_))).
Proof.
  intros H. destruct sigs as [|i sigs]; cbn [applySigning]; [done|]. destruct (sigv4 i); [|done].
  destruct (String.eqb _ ""); [done|]. apply In_removeHeadersMut. by apply In_fold_set.
Qed.

Lemma commitTranslated_spec us p st rr ir cand w r w' :
  w_heap w !! p = Some st -> srcIR st = Some ir ->
  commitTranslated reg sha256 hmac now us p st ir cand
    (lookupForBackend (us_creds us) (Some rr) (c_Name cand)) w = Ok (r, w') ->
  (exists msg, r = translation502 reg (st_system st) msg /\ w' = w)
  \/ exists fact, translated_reply us st rr cand r fact /\ w' = appendAttempt p fact w.
Proof.
  intros Hh Hir H. unfold commitTranslated in H.
  destruct (Registry.ByName reg (c_System cand)) as [tgt|] eqn:Et; [|simplify_eq; eauto].
  destruct (Registry.p_Codec tgt); cbn [negb] in H; [|simplify_eq; eauto].
  destruct (RewriteModel cand (LlmCall.rq_Model ir)) as [model|] eqn:Em; [|simplify_eq; eauto].
  destruct (translateRequest tgt ir model) as [[enc xr]|e|] eqn:Ex; [|simplify_eq; eauto|done].
  right. simplify_eq. eexists. split; [|reflexivity]. split; cbn.
  - exists ir, tgt, model, enc, xr. do 5 (split; [done|]). split; [|done].
    destruct (LlmCall.rq_Stream xr); [|auto].
    destruct (ensureStreamUsage tgt) as [f|]; [|auto].
    destruct (f (LlmCall.en_Path enc) (LlmCall.en_Body enc)) as [nb|] eqn:Ef; cbn; eauto.
  - done.
  - eexists. split; [reflexivity|]. split.
    + unfold translatedMutation. cbn [splitInjections]. apply In_removeHeadersMut, In_applySigning, In_applyInjections.
      apply In_fold_set. cbn. auto.
    + intros h Hu Hsent. by apply credentials_shed.
Qed.


(** ** The signature and the request that leaves *)

(** The common part of a body reply. *)
Definition commonOf (r : ProcessingResponse) : option CommonResponse :=
  match pr_Response r with RequestBody c => Some c | _ => None end.

(** The body Envoy forwards. *)
Definition forwardedBody (r : ProcessingResponse) (body : string) : string :=
  default body (commonOf r ≫= cr_BodyMutation).

Definition setsHeader (r : ProcessingResponse) (name value : string) : Prop :=
  exists m, commonOf r ≫= cr_HeaderMutation = Some m /\ In (mkHeaderOption name value) (SetHeaders m).

Lemma In_set_fold {A} (name value : A -> string) (l : list A) a : forall m,
  In a l ->
  In (mkHeaderOption (name a) (value a))
    (SetHeaders (default emptyMutation (fold_left (fun m a => setHeaderMut m (name a) (value a)) l m))).
Proof.
  induction l as [|b l IH]; intros m; cbn [fold_left In]; [done|]. intros [->|Hin]; [|by apply IH].
  apply In_fold_set. cbn. apply in_or_app. right. by left.
Qed.

Lemma applySigning_sets sig rest sc in_ m h :
  sigv4 sig = Some sc -> signRegion sc (si_authority in_) <> "" ->
  In h (SigV4.Sign sha256 hmac (si_method in_) (si_authority in_) (si_path in_) (si_body in_) (creds sc)
          (signRegion sc (si_authority in_)) (service sc) now) ->
  In (mkHeaderOption (SigV4.Name h) (SigV4.Value h))
    (SetHeaders (default emptyMutation (applySigning sha256 hmac now m (sig :: rest) in_))).
Proof.
  intros E Hr Hin. cbn [applySigning]. rewrite E. fold (signRegion sc (si_authority in_)).
  apply String.eqb_neq in Hr as ->. apply In_removeHeadersMut. by apply In_set_fold.
Qed.

Lemma some_mutation o m' :
  In o (SetHeaders (default emptyMutation m')) -> exists m, m' = Some m /\ In o (SetHeaders m).
Proof. destruct m' as [m|]; cbn; [eauto|done]. Qed.

Lemma rewriteRequestBody_same b body path model body' :
  rewriteRequestBody reg body path model b = (body', false) -> body' = body.
Proof.
  unfold rewriteRequestBody. intros E.
  destruct (match RewriteModel b model with Some to => _ | None => _ end) as [b1 c1] eqn:E1.
  assert (Hb : c1 = false -> b1 = body).
  { intros ->. repeat case_match; by simplify_eq. }
  repeat case_match; simplify_eq; auto.
Qed.

Section Signed.
Context (us : upstreamStream) (w : world) (p : nat) (st : requestState) (rr : routeRule) (cand : Candidate).
Context (J : joined us w p st rr cand).
Context (sig : credInjection) (rest : list credInjection) (sc : sigv4Cred).
Context (Hf : List.filter isSig (lookupForBackend (us_creds us) (Some rr) (c_Name cand)) = sig :: rest).
Context (Hsc : sigv4 sig = Some sc) (Hreg : signRegion sc (authorityOf cand) <> "").

(** The signature of the request [(method, authority, path, body)] is among the
    headers the reply sets. *)
Definition carriesSignature (r : ProcessingResponse) (path body : string) : Prop :=
  forall h, In h (SigV4.Sign sha256 hmac (us_method us) (authorityOf cand) path body (creds sc)
                    (signRegion sc (authorityOf cand)) (service sc) now) ->
  setsHeader r (SigV4.Name h) (SigV4.Value h).

Lemma commitPlain_signed body r w' :
  commitPlain reg sha256 hmac now us p st cand (lookupForBackend (us_creds us) (Some rr) (c_Name cand)) body w
  = (r, w') ->
  setsHeader r ":authority" (authorityOf cand) /\ carriesSignature r (us_path us) (forwardedBody r body).
Proof.
  unfold commitPlain. intros E.
  destruct (rewriteRequestBody reg body (us_path us) (st_model st) cand) as [fb ch] eqn:Eb.
  set (m := repointAndInject _ _ _ _ _ _ _) in *.
  assert (Ha : In (mkHeaderOption ":authority" (authorityOf cand)) (SetHeaders (default emptyMutation m))).
  { apply In_applySigning, In_applyInjections. cbn. auto. }
  assert (Hm : forall h, In h (SigV4.Sign sha256 hmac (us_method us) (authorityOf cand) (us_path us) fb (creds sc)
      (signRegion sc (authorityOf cand)) (service sc) now) ->
      In (mkHeaderOption (SigV4.Name h) (SigV4.Value h)) (SetHeaders (default emptyMutation m))).
  { intros h Hh. unfold m, repointAndInject. cbn [splitInjections]. rewrite Hf. by eapply applySigning_sets. }
  apply some_mutation in Ha as (m' & -> & Ha). cbn in Hm.
  destruct ch; simplify_eq; cbn.
  - split; [eexists; split; [reflexivity|done]|]. intros h Hh. eexists. split; [reflexivity|]. by apply Hm.
  - apply rewriteRequestBody_same in Eb as ->.
    split; [eexists; split; [reflexivity|done]|]. intros h Hh. eexists. split; [reflexivity|]. by apply Hm.
Qed.

Lemma commitTranslated_signed ir r w' body :
  commitTranslated reg sha256 hmac now us p st ir cand
    (lookupForBackend (us_creds us) (Some rr) (c_Name cand)) w = Ok (r, w') ->
  (exists msg, r = translation502 reg (st_system st) msg)
  \/ (setsHeader r ":authority" (authorityOf cand)
      /\ exists path, setsHeader r ":path" path /\ carriesSignature r path (forwardedBody r body)).
Proof.
  intros H. unfold commitTranslated in H.
  destruct (Registry.ByName reg (c_System cand)) as [tgt|]; [|simplify_eq; eauto].
  destruct (Registry.p_Codec tgt); cbn [negb] in H; [|simplify_eq; eauto].
  destruct (RewriteModel cand (LlmCall.rq_Model ir)) as [model|]; [|simplify_eq; eauto].
  destruct (translateRequest tgt ir model) as [[enc xr]|e|]; [|simplify_eq; eauto|done].
  right. simplify_eq. set (b := match _ with Some f => _ | None => _ end). set (m := translatedMutation _ _ _ _ _ _ _ _ _ _).
  assert (Hm : forall h, In h (SigV4.Sign sha256 hmac (us_method us) (authorityOf cand) (LlmCall.en_Path enc) b (creds sc)
      (signRegion sc (authorityOf cand)) (service sc) now) ->
      In (mkHeaderOption (SigV4.Name h) (SigV4.Value h)) (SetHeaders (default emptyMutation m))).
  { intros h Hh. unfold m, translatedMutation. cbn [splitInjections]. rewrite Hf.
    apply In_removeHeadersMut. by eapply applySigning_sets. }
  assert (Ho : forall o, In o [mkHeaderOption ":authority" (authorityOf cand); mkHeaderOption ":path" (LlmCall.en_Path enc)] ->
    In o (SetHeaders (default emptyMutation m))).
  { intros o Ho. apply In_removeHeadersMut, In_applySigning, In_applyInjections, In_fold_set. exact Ho. }
  unfold setsHeader, carriesSignature, setsHeader, forwardedBody. cbn.
  split; [apply some_mutation, Ho; by left|]. exists (LlmCall.en_Path enc). split.
  - apply some_mutation, Ho. right. by left.
  - intros h Hh. by apply some_mutation, Hm.
Qed.

(** C19: the SigV4 signature an attempt adds covers exactly the request that
    leaves Envoy: the reply repoints [:authority] to the picked backend and carries
    the signature of the agent's method, that authority, the path that goes out (the
    agent's, or the one the reply sets) and the body that goes out (the agent's
    bytes, or the ones the reply substitutes). *)
Theorem attempt_signs_what_it_sends body r w' :
  onRequestBody reg sha256 hmac now us body true w = Ok (r, w') ->
  (exists msg, r = translation502 reg (st_system st) msg)
  \/ (setsHeader r ":authority" (authorityOf cand)
      /\ exists path, (path = us_path us /\ (trustsOperator rr = true \/ c_System cand = st_system st)
                      \/ setsHeader r ":path" path)
           /\ carriesSignature r path (forwardedBody r body)).
Proof.
  intros H. rewrite (onRequestBody_joined _ _ _ _ _ _ _ J) in H. cbn zeta in H.
  destruct (trustsOperator rr) eqn:Et; cbn [negb andb] in H.
  - injection H as H. apply commitPlain_signed in H as [Ha Hc]. right. split; [done|]. exists (us_path us). auto.
  - destruct (String.eqb_spec (c_System cand) (st_system st)); cbn [negb] in H.
    + injection H as H. apply commitPlain_signed in H as [Ha Hc]. right. split; [done|]. exists (us_path us). auto.
    + destruct (srcIR st) as [ir|]; [|simplify_eq; eauto].
      apply commitTranslated_signed with (body := body) in H as [?|(Ha & path & Hp & Hc)]; [auto|].
      right. split; [done|]. exists path. auto.
Qed.

End Signed.

End Proofs.

(** ** The life of a pinned request *)

(** What the streams do to the shared store, with the time of each step. *)
Inductive wop :=
| WPin (id : string) (st : requestState)      (* [commitPin]: allocate and [put] *)
| WDelete (id : string)                       (* [finish] of the owning stream *)
| WAppend (p : nat) (a : attemptFact).        (* an attempt records its facts *)

Definition pin (now : Z) (id : string) (st : requestState) (w : world) : world :=
  let '(p, w) := alloc st w in put now id p w.

Definition wstep (w : world) (e : Z * wop) : world :=
  match e.2 with
  | WPin id st => pin e.1 id st w
  | WDelete id => delete id w
  | WAppend p a => appendAttempt p a w
  end.

Definition wf_world (w : world) : Prop := forall p, is_Some (w_heap w !! p) -> (p < w_next w)%nat.

(** The facts appended to [p], in order. *)
Definition appended (p : nat) (es : list (Z * wop)) : list attemptFact :=
  omap (fun e => match e.2 with WAppend q a => if decide (q = p) then Some a else None | _ => None end) es.

(** Steps of other requests, each no later than [deadline]. *)
Definition foreign (id : string) (deadline : Z) (e : Z * wop) : Prop :=
  match e.2 with
  | WPin id' st => id' <> id /\ e.1 <= deadline /\ createdAt st = None
  | WDelete id' => id' <> id
  | WAppend _ _ => True
  end.

Definition withAttempts (st : requestState) (now : Z) (as_ : list attemptFact) : requestState :=
  mkState (Some now) (st_system st) (st_model st) (srcIR st) (st_rule st) (attempts st ++ as_).

Record published (w : world) (id : string) (p : nat) (st : requestState) (t : Z) (as_ : list attemptFact) : Prop := {
  pb_wf : wf_world w;
  pb_get : w_states w !! id = Some p;
  pb_heap : w_heap w !! p = Some (withAttempts st t as_);
}.

Lemma put_fresh now id st w :
  createdAt st = None -> id <> "" ->
  pin now id st w = mkWorld (<[w_next w := withCreatedAt now st]> (w_heap w)) (S (w_next w))
    (<[id := w_next w]> (filter (fun kv => expired (mkWorld (<[w_next w := withCreatedAt now st]> (w_heap w))
                                                      (S (w_next w)) (w_states w)) (now - requestStateTTL) kv.2 = false)
       (w_states w))).
Proof.
  intros Hc Hid. unfold pin, alloc, put. cbn [w_heap].
  apply String.eqb_neq in Hid as ->. rewrite lookup_insert_eq. cbn. rewrite Hc. unfold update; cbn.
  by rewrite alter_insert_eq.
Qed.

Lemma wf_update w p f : wf_world w -> wf_world (update p f w).
Proof. intros H q [x Hx]. apply H. unfold update in Hx. cbn in Hx. apply lookup_alter_is_Some with (f := f) (i := p). eauto. Qed.

Lemma wf_pin w now id st : wf_world w -> wf_world (pin now id st w).
Proof.
  intros H. assert (Ha : wf_world (alloc st w).2).
  { intros q [x Hx]. cbn in *. destruct (decide (q = w_next w)) as [->|Hn]; [lia|].
    rewrite lookup_insert_ne in Hx by done. specialize (H q (mk_is_Some _ _ Hx)). lia. }
  unfold pin. destruct (alloc st w) as [p w']. cbn in Ha. unfold put. destruct (String.eqb id ""); [done|].
  intros q Hq. destruct (w_heap w' !! p ≫= createdAt); [by apply Ha|]. by apply (wf_update w' p (withCreatedAt now) Ha).
Qed.

Lemma pin_published now id st w :
  wf_world w -> createdAt st = None -> id <> "" -> published (pin now id st w) id (w_next w) st now [].
Proof.
  intros Hw Hc Hid. split; [by apply wf_pin| |]; rewrite put_fresh by done; cbn; rewrite lookup_insert_eq; [done|].
  unfold withAttempts, withCreatedAt. by rewrite app_nil_r.
Qed.

Lemma step_published w id p st t as_ e :
  published w id p st t as_ -> foreign id (t + requestStateTTL) e ->
  published (wstep w e) id p st t (as_ ++ appended p [e]).
Proof.
  intros [Hw Hg Hh] He. destruct e as [now [id' st'|id'|q a]]; unfold foreign, wstep in *; cbn [fst snd] in *.
  - destruct He as (Hn & Hd & Hc).
    change (appended p [(now, WPin id' st')]) with (@nil attemptFact). rewrite app_nil_r.
    destruct (String.eqb_spec id' "") as [->|Hid].
    { unfold pin, put. cbn. split; cbn; [|done|].
      - intros x Hx. cbn in *. destruct (decide (x = w_next w)) as [->|]; [lia|].
        rewrite lookup_insert_ne in Hx by done. specialize (Hw x Hx). lia.
      - rewrite lookup_insert_ne; [done|]. specialize (Hw p (mk_is_Some _ _ Hh)). lia. }
    split; [by apply wf_pin| |]; rewrite put_fresh by done; cbn.
    + rewrite lookup_insert_ne by done. apply map_lookup_filter_Some_2; [done|]. cbn.
      unfold expired. cbn. rewrite lookup_insert_ne by (specialize (Hw p (mk_is_Some _ _ Hh)); lia).
      rewrite Hh. cbn. apply Z.ltb_ge. lia.
    + rewrite lookup_insert_ne; [done|]. specialize (Hw p (mk_is_Some _ _ Hh)). lia.
  - unfold appended; cbn. rewrite app_nil_r. unfold delete.
    destruct (String.eqb id' ""); [done|]. split; cbn; [done| |done]. by rewrite lookup_delete_ne.
  - split; [by apply wf_update|done|]. cbn. unfold appended; cbn.
    destruct (decide (q = p)) as [->|Hn]; cbn.
    + rewrite lookup_alter_eq, Hh. cbn. f_equal. unfold withAttempts, withAttempt; cbn. by rewrite app_assoc.
    + rewrite lookup_alter_ne by done. by rewrite app_nil_r.
Qed.

(** C22: a request state published at [t] stays joined to its request.  Whatever
    other requests pin, finish and record up to fifteen minutes later, an attempt
    that carries the request's id finds the state, its pin-time facts unchanged and
    its attempts those recorded on it, in order; the last recorded one is the
    serving attempt. *)
Theorem pinned_state_survives (w : world) (t : Z) (id : string) (st : requestState) (es : list (Z * wop)) :
  wf_world w -> createdAt st = None -> id <> "" ->
  Forall (foreign id (t + requestStateTTL)) es ->
  let w' := fold_left wstep es (pin t id st w) in
  get id w' = Some (w_next w)
  /\ w_heap w' !! w_next w = Some (withAttempts st t (appended (w_next w) es)).
Proof.
  intros Hw Hc Hid Hes. cbn zeta.
  assert (H : forall as_ w0, published w0 id (w_next w) st t as_ ->
            published (fold_left wstep es w0) id (w_next w) st t (as_ ++ appended (w_next w) es)).
  { clear Hw. induction Hes as [|e es He Hes IH]; intros as_ w0 P; cbn [fold_left].
    - by rewrite app_nil_r.
    - replace (as_ ++ appended (w_next w) (e :: es))
        with ((as_ ++ appended (w_next w) [e]) ++ appended (w_next w) es).
      + apply IH. by apply step_published.
      + rewrite <- app_assoc. f_equal. change (e :: es) with ([e] ++ es). unfold appended. by rewrite omap_app. }
  destruct (H [] _ (pin_published t id st w Hw Hc Hid)) as [_ Hg Hh].
  split; [|done]. unfold get. apply String.eqb_neq in Hid as ->. done.
Qed.

(** ** Concrete attempts *)

(** A codec that renders the model, for runs of the definitions. *)
Definition demoCodec : LlmCall.Codec := {|
  LlmCall.DecodeRequest := fun _ => Err LlmCall.ErrUnsupported;
  LlmCall.EncodeRequest := fun r => Ok (LlmCall.mkEncodedRequest ("model=" ++ LlmCall.rq_Model r)%string "/v1/encoded"
                                          {["x-demo-version" := "1"]} [] 0);
  LlmCall.DecodeResponse := fun _ _ _ _ => Err LlmCall.ErrUnsupported;
  LlmCall.EncodeResponse := fun _ => Err LlmCall.ErrUnsupported;
|}.

Definition demoHooks : Hooks := {|
  codecOf := fun _ => demoCodec;
  ensureStreamUsage := fun _ => None;
  errorBody := fun _ => None;
  decodedModel := fun _ => None;
  replacedModel := fun _ _ => None;
  marshalString := fun s => s;
|}.

Definition demoCand (host : string) : Candidate :=
  mkCandidate "bedrock" "team" host 443 "aws_bedrock" 1 [ApiTypes.mkRewrite "*" "nova"] None false "".

Definition demoRule (host : string) : routeRule :=
  mkRouteRule "team" "chat" 0 "openai" [] [] None [demoCand host].

Definition demoState (host : string) : requestState :=
  mkState (Some 0) "openai" "gpt-5" (Some LlmCall.request_ex) (Some (demoRule host)) [].

(** A gateway-wide signing credential without a region. *)
Definition demoCreds : credTable :=
  mkCredTable ∅ [mkInjection "team/aws" "" "" (Some (mkSigv4 (SigV4.mkCreds "AK" "SK" "") "" "bedrock")) ""].

Definition demoStream (host : string) : upstreamStream :=
  mkUpstream (Some demoCreds) "r1" "/v1/chat/completions" "POST" {["authorization" := "Bearer agent"]} None (Some 0%nat)
    (Some (demoCand host)) false.

Definition demoWorld (host : string) : world := mkWorld {[0%nat := demoState host]} 1 {["r1" := 0%nat]}.

Definition demoReply (host : string) : outcome unit (ProcessingResponse * world) :=
  @onRequestBody Registry.builtinRegistry demoHooks (fun s => s) (fun k s => s) (SigV4.mkNow "20260101T000000Z" "20260101")
    (demoStream host) "{}" true (demoWorld host).

Lemma demo_joined host : joined (demoStream host) (demoWorld host) 0 (demoState host) (demoRule host) (demoCand host).
Proof. by split. Qed.

Definition regional : string := "bedrock-runtime.us-east-1.amazonaws.com".

(** The names the reply of the demo attempt sets and removes. *)
Definition demoHeaders (host : string) : option (list string * list string) :=
  match demoReply host with
  | Ok (r, _) => m ← commonOf r ≫= cr_HeaderMutation; Some (setNames (Some m), removed (Some m))
  | _ => None
  end.

(** The agent's credential reaches a foreign provider when the signature is
    skipped: with an AWSv4 policy that names no region and a backend host that
    names none, [applySigning] sets nothing, but [sourceHeaderRemovals] still
    keeps the signature's headers, so the agent's [authorization] is neither
    removed nor overwritten. *)
Example unsigned_attempt_keeps_credential :
  demoHeaders "internal.example"
  = Some ([":authority"; ":path"; "x-demo-version"], ["api-key"; "x-amz-security-token"; "x-api-key"; "x-goog-api-key"])
  /\ demoHeaders regional
     = Some ([":authority"; ":path"; "x-demo-version"; "x-amz-date"; "x-amz-content-sha256"; "authorization"],
             ["api-key"; "x-amz-security-token"; "x-api-key"; "x-goog-api-key"]).
Proof. split; vm_compute; reflexivity. Qed.


Lemma attempt_signs_what_it_sends_witness :
  exists r w', demoReply regional = Ok (r, w')
  /\ ((exists msg, r = @translation502 Registry.builtinRegistry demoHooks "openai" msg)
      \/ setsHeader r ":authority" "bedrock-runtime.us-east-1.amazonaws.com:443").
Proof.
  destruct (demoReply regional) as [[r w']| |] eqn:E; [|by vm_compute in E..].
  exists r, w'. split; [done|].
  destruct (@attempt_signs_what_it_sends Registry.builtinRegistry demoHooks (fun s => s) (fun k s => s)
    (SigV4.mkNow "20260101T000000Z" "20260101") (demoStream regional) (demoWorld regional) 0 (demoState regional)
    (demoRule regional) (demoCand regional) (demo_joined regional)
    (mkInjection "team/aws" "" "" (Some (mkSigv4 (SigV4.mkCreds "AK" "SK" "") "" "bedrock")) "") []
    (mkSigv4 (SigV4.mkCreds "AK" "SK" "") "" "bedrock") eq_refl eq_refl ltac:(vm_compute; congruence) "{}" r w' E)
    as [?|[? _]]; auto.
Defined.

Lemma pinned_state_survives_witness :
  get "r1" (fold_left wstep [(5, WPin "r2" (mkState None "openai" "" None None [])); (6, WDelete "r2")]
              (pin 0 "r1" (mkState None "openai" "" None None []) newRequestStateStore)) = Some 0%nat.
Proof.
  apply (pinned_state_survives newRequestStateStore 0 "r1" (mkState None "openai" "" None None [])
           [(5, WPin "r2" (mkState None "openai" "" None None [])); (6, WDelete "r2")]); [|done..|].
  - by intros p [x Hx].
  - repeat constructor; cbn; vm_compute; congruence.
Defined.

End Upstream.
