(* ===== verification/ExtRecord.v ===== *)
(** * The record of one transaction

    [src/internal/extproc/record.go], [l4record.go], [network_server.go] and the
    enrichment at the end of [downstream.go]: what the external processor captures
    of an HTTP transaction or of an L4 connection, the agent identity it reads from
    the metadata of each message, and the parse of the captured bodies before the
    record is emitted.  The zero time is [None]; a body is a string. *)

From Stdlib Require Import ZArith Lia NArith Ascii String List.
From stdpp Require Import base strings list gmap.
From coqutil Require Import Datatypes.RecordSettersUsingExistingGetters.
From S2P Require Import Prelude GoStrings GoStd GoPath ApiTypes Registry LlmRoute LlmCall Capture McpRoute Budget.
Import GoStrings GoStd LlmRoute.

#[local] Open Scope string_scope.
#[local] Open Scope Z_scope.
#[local] Open Scope list_scope.

Module ExtRecord.

(** [llmcall.ProviderInfo]. *)
Record ProviderInfo := mkInfo {
  pi_System : string;
  pi_Operation : string;
  pi_RequestModel : string;
  pi_ResponseModel : string;
  pi_InputTokens : Z;
  pi_OutputTokens : Z;
  pi_StreamResponse : bool;
  pi_UsageVisible : bool;
  pi_ResponseContent : string;
}.

(** [llmcall.Input]. *)
Record Input := mkInput {
  in_Method : string;
  in_Path : string;
  in_ReqHeaders : gmap string string;
  in_RespHeaders : gmap string string;
  in_ReqBody : string;
  in_ReqTruncated : bool;
  in_RespBody : string;
  in_RespTruncated : bool;
}.

(** The fields have the names of [Record], prefixed. *)
Record Record_ := mkRecord {
  r_Timestamp : option Z;
  r_EndAt : option Z;
  r_AgentKind : string;
  r_AgentNamespace : string;
  r_AgentName : string;
  r_AgentUID : string;
  r_AgentRevision : string;
  r_InvocationID : string;
  r_RequestHeadersAt : option Z;
  r_RequestHeaders : gmap string string;
  r_RequestBodyAt : option Z;
  r_RequestBody : string;
  r_RequestTruncated : bool;
  r_ResponseHeadersAt : option Z;
  r_ResponseHeaders : gmap string string;
  r_ResponseBodyAt : option Z;
  r_ResponseBody : string;
  r_ResponseTruncated : bool;
  r_RequestBodyDecoded : option string;
  r_RequestContentEncoding : string;
  r_ResponseBodyDecoded : option string;
  r_ResponseContentEncoding : string;
  r_ResponseBodyChunks : Z;
  r_RequestBodyRewritten : bool;
  r_Provider : option ProviderInfo;
  r_MatchedRouteNamespace : string;
  r_MatchedRouteName : string;
  r_BudgetDenied : bool;
  r_BudgetDailyUsed : Z;
  r_BudgetDailyMax : Z;
  r_MCP : option McpRoute.MCPInfo;
  r_MatchedMCPRouteNamespace : string;
  r_MatchedMCPRouteName : string;
  r_MCPToolPolicyDecision : string;
  r_SelectedBackendNamespace : string;
  r_SelectedBackendName : string;
  r_SelectedBackendSchema : string;
  r_SelectedBackendReselected : bool;
  r_TranslationApplied : bool;
  r_TranslationFrom : string;
  r_TranslationTo : string;
  r_TranslationSkippedBackends : Z;
  r_TranslationDroppedExtras : Z;
  r_TranslationError : string;
  r_Attempts : Z;
  r_AttemptBackends : list string;
  r_RetryIneligibleReason : string;
}.

(** [Record{Timestamp: time.Now()}]. *)
Definition newRecord (now : Z) : Record_ :=
  mkRecord (Some now) None "" "" "" "" "" "" None ∅ None "" false None ∅ None "" false None "" None "" 0 false
    None "" "" false 0 0 None "" "" "" "" "" "" false false "" "" 0 0 "" 0 [] "".

Definition RequestBodyForEvent (r : Record_) : string := default (r_RequestBody r) (r_RequestBodyDecoded r).
Definition ResponseBodyForEvent (r : Record_) : string := default (r_ResponseBody r) (r_ResponseBodyDecoded r).

(** ** Agent identity *)

Definition MetadataNamespace : string := "clrk.apoxy.dev".

(** The bytes are [proxyproto.AgentKindDaemon] and [AgentKindTask]. *)
Definition decodeAgentKind (raw : string) : string :=
  match raw with
  | String c EmptyString =>
      if Ascii.eqb c "000" then "DaemonAgent" else if Ascii.eqb c "001" then "TaskAgent" else raw
  | _ => raw
  end.

(** [filterMeta] holds the string value of each field. *)
Definition applyClrkMetadata (rec : Record_) (filterMeta : gmap string (gmap string string)) : Record_ :=
  match filterMeta !! MetadataNamespace with
  | None => rec
  | Some fields =>
      let f k old := default old (fields !! k) in
      rec <| r_AgentKind := match fields !! "agent_kind" with Some v => decodeAgentKind v | None => r_AgentKind rec end |>
          <| r_AgentNamespace := f "agent_namespace" (r_AgentNamespace rec) |>
          <| r_AgentName := f "agent_name" (r_AgentName rec) |>
          <| r_AgentUID := f "agent_uid" (r_AgentUID rec) |>
          <| r_AgentRevision := f "agent_revision" (r_AgentRevision rec) |>
          <| r_InvocationID := f "invocation_id" (r_InvocationID rec) |>
  end.

(** ** L4 connections *)

Record L4Record := mkL4 {
  l4_Timestamp : Z;
  l4_EndAt : option Z;
  l4_AgentKind : string;
  l4_AgentNamespace : string;
  l4_AgentName : string;
  l4_AgentUID : string;
  l4_AgentRevision : string;
  l4_InvocationID : string;
  l4_DstName : string;
  l4_BytesUpstream : Z;
}.

Definition newL4 (now : Z) : L4Record := mkL4 now None "" "" "" "" "" "" "" 0.

Definition applyClrkMetadataL4 (rec : L4Record) (filterMeta : gmap string (gmap string string)) : L4Record :=
  match filterMeta !! MetadataNamespace with
  | None => rec
  | Some fields =>
      let f k old := default old (fields !! k) in
      rec <| l4_AgentKind := match fields !! "agent_kind" with Some v => decodeAgentKind v | None => l4_AgentKind rec end |>
          <| l4_AgentNamespace := f "agent_namespace" (l4_AgentNamespace rec) |>
          <| l4_AgentName := f "agent_name" (l4_AgentName rec) |>
          <| l4_AgentUID := f "agent_uid" (l4_AgentUID rec) |>
          <| l4_AgentRevision := f "agent_revision" (l4_AgentRevision rec) |>
          <| l4_InvocationID := f "invocation_id" (l4_InvocationID rec) |>
          <| l4_DstName := f "dst_name" (l4_DstName rec) |>
  end.

(** One message of a network stream: its metadata and its read data. *)
Record l4Message := mkL4Msg { lm_Metadata : option (gmap string (gmap string string)); lm_ReadData : option string }.

Definition l4Step (s : L4Record * bool) (m : l4Message) : L4Record * bool :=
  let '(rec, identitySet) := s in
  let '(rec, identitySet) :=
    if identitySet then (rec, true)
    else match lm_Metadata m with Some md => (applyClrkMetadataL4 rec md, true) | None => (rec, false) end in
  (match lm_ReadData m with
   | Some d => rec <| l4_BytesUpstream := int64 (l4_BytesUpstream rec + Z.of_nat (String.length d)) |>
   | None => rec
   end, identitySet).

(** [NetworkServer.Process]: the record emitted once the stream breaks at [end_].
    Every message is answered UNMODIFIED and CONTINUE. *)
Definition processL4 (start end_ : Z) (msgs : list l4Message) : L4Record :=
  (fst (fold_left l4Step msgs (newL4 start, false))) <| l4_EndAt := Some end_ |>.

(** ** Captured bodies *)

Definition AppendBounded (dst src : string) (n : Z) : string * Z * bool :=
  let '(b, n, trunc) := Capture.AppendBounded (list_ascii_of_string dst) (list_ascii_of_string src) n in
  (string_of_list_ascii b, n, trunc).

Definition appendRing (dst src : string) (capBytes : Z) : string * bool :=
  let '(b, trunc) := Capture.appendRing (list_ascii_of_string dst) (list_ascii_of_string src) capBytes in
  (string_of_list_ascii b, trunc).

(** [stampMCPResult]. *)
Definition stampMCPResult `{GoPath.RegexpEngine} (rec : Record_) (res : McpRoute.mcpEvalResult) : Record_ :=
  let rec := match McpRoute.info_ res with Some i => rec <| r_MCP := Some i |> | None => rec end in
  let rec := match McpRoute.matchedRoute res with
             | Some rr => rec <| r_MatchedMCPRouteNamespace := McpRoute.mr_routeNamespace rr |>
                              <| r_MatchedMCPRouteName := McpRoute.mr_routeName rr |>
             | None => rec
             end in
  match McpRoute.decision res with
  | McpRoute.DecisionNone => rec
  | McpRoute.DecisionAllow => rec <| r_MCPToolPolicyDecision := "allow" |>
  | McpRoute.DecisionDeny => rec <| r_MCPToolPolicyDecision := "deny" |>
  end.

(** ** Enrichment *)

Section Enrich.
Context (reg : Registry.registry).
(** The telemetry parser of a registered provider, its stream decoder over a whole
    body, the decompressors, and the JSON decoder of an MCP response. *)
Context (parse : Registry.Provider -> Input -> option ProviderInfo).
Context (decodeStream : Registry.Provider -> string -> list LlmCall.StreamEvent).
Context (inflate : string -> string -> option string).
Context (unmarshalResponse : string -> option (option Z)).

(** [decodeForParse]: the body to parse, the encoding, whether it was undone. *)
Definition decodeForParse (body contentEncoding : string) (truncated : bool) : string * string * bool :=
  let encoding := Capture.NormalizeContentEncoding contentEncoding in
  if truncated || String.eqb encoding "" then (body, encoding, false)
  else match Capture.DecodeBody inflate body contentEncoding with
       | Some dec => (dec, encoding, true)
       | None => (body, encoding, false)
       end.

(** [parsers.For] and [parsers.ForSchema]. *)
Definition telemetryOf (p : option Registry.Provider) : option Registry.Provider :=
  match p with Some p => if Registry.p_Telemetry p then Some p else None | None => None end.

Definition streamDecoderOf (p : option Registry.Provider) : option (string -> list LlmCall.StreamEvent) :=
  match p with Some p => if Registry.p_StreamCodec p then Some (decodeStream p) else None | None => None end.

Definition h_ (m : gmap string string) (k : string) : string := default "" (m !! k).

Definition enrichRecord (rec : Record_) (routes : option (list routeRule)) (matched : option routeRule)
    : Record_ * option routeRule :=
  let '(reqBody, reqEnc, reqDecoded) :=
    decodeForParse (r_RequestBody rec) (h_ (r_RequestHeaders rec) "content-encoding") (r_RequestTruncated rec) in
  let '(respBody, respEnc, respDecoded) :=
    decodeForParse (r_ResponseBody rec) (h_ (r_ResponseHeaders rec) "content-encoding") (r_ResponseTruncated rec) in
  let rec := rec <| r_RequestContentEncoding := reqEnc |> <| r_ResponseContentEncoding := respEnc |> in
  let rec := if reqDecoded then rec <| r_RequestBodyDecoded := Some reqBody |> else rec in
  let rec := if respDecoded then rec <| r_ResponseBodyDecoded := Some respBody |> else rec in
  let rec :=
    match r_MCP rec with
    | None => rec
    | Some i =>
        match McpRoute.ParseResponse unmarshalResponse
                (McpRoute.mkInput (r_RequestHeaders rec) "" false respBody (r_ResponseTruncated rec)) with
        | Some res =>
            if McpRoute.res_IsError res
            then rec <| r_MCP := Some (McpRoute.mkMCPInfo (McpRoute.Method i) (McpRoute.ToolName i)
                                         (McpRoute.ResourceURI i) (McpRoute.ID i) (McpRoute.ProtocolVersion i)
                                         true (McpRoute.res_ErrorCode res)) |>
            else rec
        | None => rec
        end
    end in
  let host := fst (Budget.splitHostPort (h_ (r_RequestHeaders rec) ":authority")) in
  let parser := telemetryOf (if String.eqb (r_SelectedBackendSchema rec) "" then Registry.ByHost reg host
                             else Registry.ByName reg (r_SelectedBackendSchema rec)) in
  let rec :=
    match parser with
    | None => rec
    | Some p =>
        rec <| r_Provider := parse p (mkInput (h_ (r_RequestHeaders rec) ":method") (h_ (r_RequestHeaders rec) ":path")
                 (r_RequestHeaders rec) (r_ResponseHeaders rec) reqBody (r_RequestTruncated rec) respBody
                 (r_ResponseTruncated rec)) |>
    end in
  let rec :=
    match r_Provider rec with
    | Some pi =>
        if pi_StreamResponse pi && negb (r_ResponseTruncated rec) then
          match LlmCall.AssembleStreamedResponse (streamDecoderOf (Registry.ByName reg (pi_System pi))) respBody with
          | Some asm => rec <| r_Provider := Some (pi <| pi_ResponseContent := LlmCall.Rendered asm |>) |>
          | None => rec
          end
        else rec
    | None => rec
    end in
  let stamp rr := rec <| r_MatchedRouteNamespace := routeNamespace rr |> <| r_MatchedRouteName := routeName rr |> in
  match matched with
  | Some rr => (stamp rr, Some rr)
  | None =>
      match routes, r_Provider rec with
      | Some t, Some pi =>
          match match_ t (pi_System pi) (h_ (r_RequestHeaders rec) ":path") (pi_RequestModel pi) with
          | Some rr => (stamp rr, Some rr)
          | None => (rec, None)
          end
      | _, _ => (rec, None)
      end
  end.

(** What [chargeBudget] reads of the record. *)
Definition usageOf (rec : Record_) : Budget.Usage :=
  Budget.mkUsage (r_BudgetDenied rec)
    (match r_Provider rec with Some pi => Some (pi_InputTokens pi, pi_OutputTokens pi) | None => None end).

End Enrich.

(** ** Properties *)

Definition readBytes (m : l4Message) : Z :=
  match lm_ReadData m with Some d => Z.of_nat (String.length d) | None => 0 end.

Lemma readBytes_sum_nonneg msgs : 0 <= sumZ (List.map readBytes msgs).
Proof.
  induction msgs as [|m msgs IH]; cbn; [done|]. fold (sumZ (List.map readBytes msgs)).
  unfold readBytes at 1. destruct (lm_ReadData m); lia.
Qed.

Lemma l4Step_bytes s m :
  0 <= l4_BytesUpstream s.1 -> l4_BytesUpstream s.1 + readBytes m < 2 ^ 63 ->
  l4_BytesUpstream (l4Step s m).1 = l4_BytesUpstream s.1 + readBytes m.
Proof.
  assert (Hb : forall rec md, l4_BytesUpstream (applyClrkMetadataL4 rec md) = l4_BytesUpstream rec).
  { intros r md. unfold applyClrkMetadataL4. by destruct (md !! MetadataNamespace). }
  destruct s as [rec b]. unfold l4Step, readBytes. cbn [fst].
  destruct b, (lm_Metadata m), (lm_ReadData m); cbn; rewrite ?Hb; unfold const; intros; rewrite ?int64_id; lia.
Qed.

(** The bytes of a connection below the width of the counter are counted exactly. *)
Lemma processL4_bytes start end_ msgs :
  sumZ (List.map readBytes msgs) < 2 ^ 63 ->
  l4_BytesUpstream (processL4 start end_ msgs) = sumZ (List.map readBytes msgs).
Proof.
  unfold processL4. cbn. intros Hs.
  assert (H : forall s, 0 <= l4_BytesUpstream s.1 -> l4_BytesUpstream s.1 + sumZ (List.map readBytes msgs) < 2 ^ 63 ->
    l4_BytesUpstream (fold_left l4Step msgs s).1 = l4_BytesUpstream s.1 + sumZ (List.map readBytes msgs)).
  { clear Hs. induction msgs as [|m msgs IH]; intros s H0 H1; cbn in *; [lia|].
    fold (sumZ (List.map readBytes msgs)) in *. pose proof (readBytes_sum_nonneg msgs).
    assert (0 <= readBytes m) by (unfold readBytes; destruct (lm_ReadData m); lia).
    pose proof (l4Step_bytes s m H0 ltac:(lia)) as E. rewrite IH; lia. }
  apply (H (newL4 start, false)); cbn; lia.
Qed.

End ExtRecord.
