(* ===== verification/Downstream.v ===== *)
(** * The downstream stream

    [src/internal/extproc/downstream.go], the stream part of [translate.go] and the
    loop of [server.go]: one HTTP transaction as the agent-side filter sees it.  The
    request headers decide between injecting credentials at once, deferring a
    signature to the body, and pinning the request onto a rule; the end of the
    request body rewrites, enforces MCP policy or pins; the response comes back
    through the reverse translation of the serving attempt; [finish] folds, enriches,
    charges and emits.  Log lines are left out. *)

From Stdlib Require Import ZArith Lia NArith Ascii String List.
From stdpp Require Import base strings list gmap sorting pretty.
From coqutil Require Import Datatypes.RecordSettersUsingExistingGetters.
From S2P Require Import Prelude GoStrings GoStd GoPath ApiTypes Registry LlmRoute McpRoute SigV4 LlmCall Capture CredTable Budget InvocationCtx ExtMut Upstream ExtRecord.
Import GoStrings GoStd ApiTypes LlmRoute.
Import CredTable.
Import (hints) Budget.
Import ExtMut ExtRecord.

#[local] Open Scope string_scope.
#[local] Open Scope Z_scope.
#[local] Open Scope list_scope.

Module Downstream.

Definition PinHeader : string := "x-clrk-llm-rule".
Definition RetryBodyBufferBytes : Z := 2 ^ 20.
Definition RetryIneligibleBodyTooLarge : string := "body_too_large".

(** Stream decoders and encoders, as state and transition.  [Decode] answers the
    events, the error's text if any, and the next state; [Encode] the bytes, the
    error's text and the next state. *)
Class StreamHooks := {
  DecState : Type;
  EncState : Type;
  NewStreamDecoder : Registry.Provider -> LlmCall.Request -> DecState;
  NewStreamEncoder : Registry.Provider -> option LlmCall.Request -> EncState;
  ContentType : EncState -> string;
  Decode : DecState -> string -> bool -> list LlmCall.StreamEvent * option string * DecState;
  Encode : EncState -> list LlmCall.StreamEvent -> string * option string * EncState;
}.

(** The clock of one message: wall time, the two renderings of it a signature uses,
    and the day of the token budget. *)
Record clock := mkClock { t_now : Z; t_sig : SigV4.Now; t_day : Z }.

(** What the streams of one server share. *)
Record shared := mkShared { sh_world : Upstream.world; sh_budget : Budget.budgetStore }.

Section Env.
Context (reg : Registry.registry) {HK : Hooks} {SH : StreamHooks} {RE : GoPath.RegexpEngine}.
Context (sha256 : string -> string) (hmac : string -> string -> string) (sha256_hex12 : string -> string).
(** The JSON decoders of MCP messages. *)
Context (unmarshalRequest : string -> option McpRoute.mcpEnvelope) (unmarshalResponse : string -> option (option Z)).
Context (parse : Registry.Provider -> Input -> option ProviderInfo).
Context (decodeStream : Registry.Provider -> string -> list LlmCall.StreamEvent).
Context (inflate : string -> string -> option string).
Context {SpanContext : Type} (IsValid : SpanContext -> bool) (inject : SpanContext -> string * string).
Context (invocations : option (@InvocationCtx.Store SpanContext)).

Record translationState := mkTranslation {
  x_src : Registry.Provider;
  x_tgt : Registry.Provider;
  x_req : LlmCall.Request;
  x_srcIR : option LlmCall.Request;
  x_streaming : bool;
  x_dec : option DecState;
  x_enc : option EncState;
  x_failed : bool;
}.

Record downstreamStream := mkDownstream {
  rec : Record_;
  maxCaptureBytes : Z;
  includedTypes : list string;
  routes : option (list routeRule);
  mcpRoutes : option McpRoute.mcpRouteTable;
  ds_creds : option credTable;
  egKey : NamespacedName;
  reqBytesLeft : Z;
  respBytesLeft : Z;
  respKeepLast : bool;
  streamRequested : bool;
  deferReselect : bool;
  provMatch : option routeRule;
  deferSign : bool;
  sigInjs : list credInjection;
  finalRule : option routeRule;
  fullReqBody : string;
  xlate : option translationState;
  fullRespBody : string;
  requestID : string;
  pinState : option nat;
}.

(** The configuration of one gateway, as the sink registry resolves it. *)
Record egConfig := mkConfig {
  cfg_maxCaptureBytes : Z;
  cfg_includedTypes : list string;
  cfg_routes : option (list routeRule);
  cfg_mcpRoutes : option McpRoute.mcpRouteTable;
  cfg_creds : option credTable;
  cfg_egKey : NamespacedName;
}.

(** [newDownstreamStream]; [None] when the registry is unavailable. *)
Definition newDownstreamStream (now : Z) (cfg : option egConfig) : downstreamStream :=
  let c := default (mkConfig Capture.MaxBytesDefault [] None None None (mkNN "" "")) cfg in
  mkDownstream (newRecord now) (cfg_maxCaptureBytes c) (cfg_includedTypes c) (cfg_routes c) (cfg_mcpRoutes c)
    (cfg_creds c) (cfg_egKey c) (cfg_maxCaptureBytes c) (cfg_maxCaptureBytes c) false false false None false [] None ""
    None "" "" None.

Definition upRec (f : Record_ -> Record_) (ds : downstreamStream) : downstreamStream := ds <| rec ::= f |>.
Definition reqHeader (ds : downstreamStream) (k : string) : string := h_ (r_RequestHeaders (rec ds)) k.
Definition respHeader (ds : downstreamStream) (k : string) : string := h_ (r_ResponseHeaders (rec ds)) k.
Definition setReqHeaders (m : gmap string string) : downstreamStream -> downstreamStream :=
  upRec (fun r => r <| r_RequestHeaders := m |>).
Definition authorityHost (ds : downstreamStream) : string := fst (Budget.splitHostPort (reqHeader ds ":authority")).

(** The record shows the bytes that went upstream. *)
Definition captureRewrite (newBody : string) (ds : downstreamStream) : downstreamStream :=
  let '(b, _, trunc) := AppendBounded "" newBody (maxCaptureBytes ds) in
  upRec (fun r => r <| r_RequestBody := b |> <| r_RequestTruncated := trunc |> <| r_RequestBodyRewritten := true |>) ds.

(** ** Credentials *)

Definition provisionalMatch (routes : option (list routeRule)) (headers : gmap string string) : option routeRule :=
  match routes with
  | None => None
  | Some t => match_ t (SystemFor reg (fst (Budget.splitHostPort (h_ headers ":authority")))) (h_ headers ":path") ""
  end.

Definition lookupCreds (creds : option credTable) (routes : option (list routeRule)) (headers : gmap string string)
    : list credInjection :=
  match creds with
  | None => []
  | Some _ =>
      let system := SystemFor reg (fst (Budget.splitHostPort (h_ headers ":authority"))) in
      lookup_ creds
        (match routes with
         | Some t => if String.eqb system "" then None else match_ t system (h_ headers ":path") ""
         | None => None
         end)
  end.

Definition signInputOf (headers : gmap string string) (path body : string) : signInput :=
  mkSignInput (h_ headers ":method") (effectiveAuthority (h_ headers ":authority")) path body headers.

(** The mutation, and the captured headers after the redaction. *)
Definition injectFallbackCreds (sig : SigV4.Now) (creds : option credTable) (rr : option routeRule)
    (headers : gmap string string) (body reqPath : string) : option HeaderMutation * gmap string string :=
  match lookup_ creds rr with
  | [] => (None, headers)
  | injs =>
      let headers := snd (redactInjected headers injs) in
      let '(hdrInjs, sigInjs) := splitInjections injs in
      (applySigning sha256 hmac sig (applyInjections None hdrInjs) sigInjs (signInputOf headers reqPath body), headers)
  end.

(** The injections of the candidates, each kept when it adds a header name. *)
Definition freshInjections (injs : list credInjection) : list credInjection :=
  snd (fold_left (fun acc inj =>
         let '(seen, out) := acc in
         (seen ++ headerNames inj,
          if existsb (fun n => negb (existsb (String.eqb n) seen)) (headerNames inj) then out ++ [inj] else out))
       injs ([], [])).

Definition redactViableInjections (final : routeRule) (viable : list Candidate) (ds : downstreamStream)
    : downstreamStream :=
  let injUnion := freshInjections
    (flat_map (fun c => lookupForBackend (ds_creds ds) (Some final) (c_Name c)) viable) in
  setReqHeaders (snd (redactInjected (r_RequestHeaders (rec ds)) injUnion)) ds.

(** ** The pin *)

(** The fresh state of a pin. *)
Definition newState (system model : string) (ir : option LlmCall.Request) (rule : routeRule) : Upstream.requestState :=
  Upstream.mkState None system model ir (Some rule) [].

Definition commitPin (t : clock) (ds : downstreamStream) (final : routeRule) (viable : list Candidate)
    (st : Upstream.requestState) (baseMut : option HeaderMutation) (reqPath : string) (bodyless : bool) (w : shared)
    : outcome unit (ProcessingResponse * downstreamStream * shared) :=
  let ds := redactViableInjections final viable ds in
  let '(p, world) := Upstream.alloc st (sh_world w) in
  let ds := ds <| pinState := Some p |> in
  let w := mkShared (Upstream.put (t_now t) (requestID ds) p world) (sh_budget w) in
  let ruleKey := RuleKey sha256_hex12 (egKey ds) (mkNN (routeNamespace final) (routeName final)) (ruleIdx final)
                   (provider final) in
  let mut := setHeaderMut baseMut PinHeader ruleKey in
  let resp := if bodyless then headersContinueWithHeaders mut true else bodyContinueWithHeaders true mut true in
  if (length viable <? servableCount (backends final))%nat then
    let key := if String.eqb (r_InvocationID (rec ds)) ""
               then (Upstream.st_model st ++ String "000" reqPath)%string else r_InvocationID (rec ds) in
    let! chosen := weightedPick viable key in
    Ok (match chosen with
        | Some c => mkReply (pr_Response resp) (pr_ModeOverride resp) (Some (c_Name c))
        | None => resp
        end, ds, w)
  else Ok (resp, ds, w).

(** The candidates of this request and the number dropped. *)
Definition requestCandidates (final : routeRule) (system : string) (src : option Registry.Provider)
    (ir : option LlmCall.Request) : list Candidate * Z :=
  if trustsOperator final then (backends final, 0) else filterTranslatable reg (backends final) system src ir.

Definition noIdentity (ds : downstreamStream) : bool :=
  (String.eqb (nn_namespace (egKey ds)) "" && String.eqb (nn_name (egKey ds)) "") || String.eqb (requestID ds) "".

(** The rule of the request: the model-aware match, or else the header-time one.  The
    caller has a header-time match. *)
Definition acceptingRule (ds : downstreamStream) (system reqPath model : string) : option routeRule :=
  match match_ (default [] (routes ds)) system reqPath model with
  | Some rr => Some rr
  | None => provMatch ds
  end.

Definition pinAtHeadersEOS (t : clock) (baseMut : option HeaderMutation) (ds : downstreamStream) (w : shared)
    : outcome unit (ProcessingResponse * downstreamStream * shared) :=
  let reqPath := reqHeader ds ":path" in
  let system := SystemFor reg (authorityHost ds) in
  match acceptingRule ds system reqPath "" with
  | None => Panic
  | Some final =>
      let ds := ds <| finalRule := Some final |> in
      let '(cands, skipped) := requestCandidates final system None None in
      let ds := upRec (fun r => r <| r_TranslationSkippedBackends := skipped |>) ds in
      let '(viable, refuseReason, ok) := splitViable cands in
      if negb ok then Ok (immediateResponse 501 ("clrk: " ++ refuseReason)%string, ds, w)
      else if (match viable with [] => true | _ => false end) || noIdentity ds then
        let '(mut, headers) := injectFallbackCreds (t_sig t) (ds_creds ds) (Some final) (r_RequestHeaders (rec ds)) ""
                                 reqPath in
        Ok (headersContinueWithHeaders (mergeHeaderMut baseMut mut) false, setReqHeaders headers ds, w)
      else commitPin t ds final viable (newState system "" None final) baseMut reqPath true w
  end.

(** The source decode of [pinAtBodyEOS]: the provider, the request, and the detail
    of a malformed body. *)
Definition decodeSource (ds : downstreamStream) (final : routeRule) (system reqPath : string)
    : outcome unit (option Registry.Provider * option LlmCall.Request * option string) :=
  if negb (trustsOperator final) && crossSchemaCandidates (backends final) system then
    match Registry.ByName reg system with
    | None => Ok (None, None, None)
    | Some src =>
        if negb (Registry.p_Codec src) then Ok (Some src, None, None)
        else match @LlmCall.DecodeRequest (codecOf src)
                     (LlmCall.mkRequestInput (reqHeader ds ":method") reqPath (r_RequestHeaders (rec ds)) (fullReqBody ds)) with
             | Ok ir => Ok (Some src, Some ir, None)
             | Err (LlmCall.MalformedError _ detail _) => Ok (Some src, None, Some detail)
             | Err _ => Ok (Some src, None, None)
             | Panic => Panic
             end
    end
  else Ok (None, None, None).

(** No candidate serves this request: the original host with the route's own
    credentials, over the body with usage requested. *)
Definition fallbackAtBodyEOS (t : clock) (host reqPath : string) (final : routeRule) (ds : downstreamStream) (w : shared)
    : ProcessingResponse * downstreamStream * shared :=
  let '(finalBody, bodyChanged, ds) :=
    match EnsureIncludeUsage reg host reqPath (fullReqBody ds) with
    | Some nb => (nb, true, captureRewrite nb ds)
    | None => (fullReqBody ds, false, ds)
    end in
  let '(mut, headers) := injectFallbackCreds (t_sig t) (ds_creds ds) (Some final) (r_RequestHeaders (rec ds)) finalBody
                           reqPath in
  let ds := setReqHeaders headers ds in
  (if bodyChanged then bodyMutationWithHeaders true finalBody mut false
   else match mut with Some _ => bodyContinueWithHeaders true mut false | None => bodyContinue true end, ds, w).

Definition pinAtBodyEOS (t : clock) (host reqPath : string) (ds : downstreamStream) (w : shared)
    : outcome unit (ProcessingResponse * downstreamStream * shared) :=
  let system := SystemFor reg host in
  let model := RequestModel (fullReqBody ds) in
  match acceptingRule ds system reqPath model with
  | None => Panic
  | Some final =>
      let ds := ds <| finalRule := Some final |> in
      let! (src, ir, malformed) := decodeSource ds final system reqPath in
      let ds := match malformed with
                | Some d => upRec (fun r => r <| r_TranslationError := ("request decode: " ++ d)%string |>) ds
                | None => ds
                end in
      let '(cands, skipped) := requestCandidates final system src ir in
      let ds := upRec (fun r => r <| r_TranslationSkippedBackends := skipped |>) ds in
      let '(viable, refuseReason, ok) := splitViable cands in
      if negb ok then Ok (immediateResponse 501 ("clrk: " ++ refuseReason)%string, ds, w)
      else if (match viable with [] => true | _ => false end) || noIdentity ds then
        Ok (fallbackAtBodyEOS t host reqPath final ds w)
      else
        let ds := if RetryBodyBufferBytes <? Z.of_nat (String.length (fullReqBody ds))
                  then upRec (fun r => r <| r_RetryIneligibleReason := RetryIneligibleBodyTooLarge |>) ds else ds in
        commitPin t ds final viable (newState system model ir final) None reqPath false w
  end.

(** ** Request headers *)

(** The injection of a stream that is not reselectable: the mutation, and the mode
    override when the signature waits for the body. *)
Definition injectAtHeaders (t : clock) (eos : bool) (mut : option HeaderMutation) (ds : downstreamStream)
    : option HeaderMutation * option ProcessingMode * downstreamStream :=
  match lookupCreds (ds_creds ds) (routes ds) (r_RequestHeaders (rec ds)) with
  | [] => (mut, None, ds)
  | injs =>
      let ds := setReqHeaders (snd (redactInjected (r_RequestHeaders (rec ds)) injs)) ds in
      let '(hdrInjs, sigs) := splitInjections injs in
      let mut := applyInjections mut hdrInjs in
      match sigs with
      | [] => (mut, None, ds)
      | _ =>
          if requestIsBodyless eos (r_RequestHeaders (rec ds)) then
            (applySigning sha256 hmac (t_sig t) mut sigs
               (signInputOf (r_RequestHeaders (rec ds)) (reqHeader ds ":path") ""), None, ds)
          else (mut, Some (modeOverride BUFFERED BUFFERED), ds <| deferSign := true |> <| sigInjs := sigs |>)
      end
  end.

Definition budgetDetail (route : string) : string := ("clrk: token budget exceeded for route " ++ route)%string.

Definition onRequestHeaders (t : clock) (h : list Capture.HeaderValue) (eos : bool) (ds : downstreamStream) (w : shared)
    : outcome unit (ProcessingResponse * downstreamStream * shared) :=
  let ds := upRec (fun r => r <| r_RequestHeadersAt := Some (t_now t) |>
                              <| r_RequestHeaders := Capture.headersToMap h |>) ds in
  let ds := ds <| requestID := reqHeader ds "x-request-id" |> in
  let '(denied, b) := Budget.evaluateBudget reg (t_day t) (default [] (routes ds)) (egKey ds)
                        (r_RequestHeaders (rec ds)) (sh_budget w) in
  let w := mkShared (sh_world w) b in
  match denied with
  | Some (route, used, max) =>
      Ok (immediateResponse 429 (budgetDetail route),
          upRec (fun r => r <| r_BudgetDenied := true |> <| r_BudgetDailyUsed := used |> <| r_BudgetDailyMax := max |>
                            <| r_MatchedRouteName := route |>) ds, w)
  | None =>
      let mut := authorityPortMutation (reqHeader ds ":authority") in
      let '(mut, headers) := applyTraceparentInjection IsValid inject (t_now t) mut invocations
                               (r_InvocationID (rec ds)) (r_RequestHeaders (rec ds)) in
      let ds := setReqHeaders headers ds in
      let prov := provisionalMatch (routes ds) (r_RequestHeaders (rec ds)) in
      let defer := match prov with Some rr => negb (match backends rr with [] => true | _ => false end) | None => false end in
      let ds := ds <| provMatch := prov |> <| deferReselect := defer |> in
      if defer && requestIsBodyless eos (r_RequestHeaders (rec ds)) then
        pinAtHeadersEOS t mut (ds <| deferReselect := false |>) w
      else
        let '(mut, mode, ds) :=
          if defer then (mut, Some (modeOverride BUFFERED BUFFERED), ds) else injectAtHeaders t eos mut ds in
        let ds := if Capture.ContentTypeIncluded (reqHeader ds "content-type") (includedTypes ds) then ds
                  else ds <| reqBytesLeft := 0 |> in
        Ok (mkReply (RequestHeaders (mkCommon false mut None false)) mode None, ds, w)
  end.

(** ** The request body *)

Definition plainBodyEOS (t : clock) (host reqPath : string) (ds : downstreamStream)
    : ProcessingResponse * downstreamStream :=
  let '(body, complete) := if deferSign ds then (fullReqBody ds, true)
                           else (r_RequestBody (rec ds), negb (r_RequestTruncated (rec ds))) in
  let sign body (ds : downstreamStream) :=
    if deferSign ds then applySigning sha256 hmac (t_sig t) None (sigInjs ds)
                           (signInputOf (r_RequestHeaders (rec ds)) reqPath body)
    else None in
  let unchanged ds :=
    (match sign body ds with Some m => bodyContinueWithHeaders true (Some m) false | None => bodyContinue true end, ds) in
  if negb complete then unchanged ds
  else
    match EnsureIncludeUsage reg host reqPath body with
    | Some nb =>
        let ds := captureRewrite nb ds in
        (match sign nb ds with Some m => bodyMutationWithHeaders true nb (Some m) false | None => bodyMutation true nb end, ds)
    | None =>
        match mcpRoutes ds with
        | Some table =>
            if McpRoute.mcpCandidate (Some table) host (reqHeader ds "content-type") then
              let res := McpRoute.evaluate unmarshalRequest table host
                           (McpRoute.mkInput (r_RequestHeaders (rec ds)) body (negb complete) "" false) in
              let ds := upRec (fun r => stampMCPResult r res) ds in
              match McpRoute.decision res with
              | McpRoute.DecisionDeny => (immediateResponse 403 (McpRoute.denyDetail res), ds)
              | _ => unchanged ds
              end
            else unchanged ds
        | None => unchanged ds
        end
    end.

Definition orElse {A} (o : option A) (a : A) : option A := match o with Some x => Some x | None => Some a end.

Definition onRequestBody (t : clock) (chunk : string) (eos : bool) (ds : downstreamStream) (w : shared)
    : outcome unit (ProcessingResponse * downstreamStream * shared) :=
  let '(body, n, trunc) := AppendBounded (r_RequestBody (rec ds)) chunk (reqBytesLeft ds) in
  let ds := upRec (fun r => r <| r_RequestBodyAt := orElse (r_RequestBodyAt r) (t_now t) |> <| r_RequestBody := body |>
                              <| r_RequestTruncated := r_RequestTruncated r || trunc |>) ds <| reqBytesLeft := n |> in
  let ds := if deferReselect ds || deferSign ds then ds <| fullReqBody := (fullReqBody ds ++ chunk)%string |> else ds in
  let ds := ds <| streamRequested := streamRequested ds || BodyAdvertisesStream chunk |> in
  if eos then
    let host := authorityHost ds in
    let reqPath := reqHeader ds ":path" in
    if deferReselect ds then pinAtBodyEOS t host reqPath ds w
    else let '(r, ds) := plainBodyEOS t host reqPath ds in Ok (r, ds, w)
  else Ok (bodyContinue true, ds, w).

(** ** The response *)

(** The translation of the serving attempt, when its request was translated. *)
Definition armTranslation (ds : downstreamStream) (w : shared) : option translationState :=
  match xlate ds with
  | Some x => Some x
  | None =>
      p ← pinState ds;
      st ← Upstream.w_heap (sh_world w) !! p;
      a ← Upstream.lastAttempt st;
      if Upstream.translationApplied a then
        tgt ← Upstream.fact_tgt a;
        xr ← Upstream.xreq a;
        src ← Registry.ByName reg (Upstream.st_system st);
        Some (mkTranslation src tgt xr (Upstream.srcIR st) (LlmCall.rq_Stream xr) None None false)
      else None
  end.

Definition noStreamCodec : string := "response: stream codec missing post-commit".
Definition notStreamed : string := "response: upstream answered a streaming translated request without streaming".
Definition unexpectedStream : string := "response: upstream streamed a non-streaming translated request".
Definition streamFailed : string := "clrk: cross-schema stream translation failed".
Definition respFailed : string := "clrk: cross-schema response translation failed".

Definition setError (msg : string) : downstreamStream -> downstreamStream :=
  upRec (fun r => r <| r_TranslationError := msg |>).

(** The response-headers reply of a translated 200: the reply, or the failure. *)
Definition translatedHeaders (x : translationState) (respIsStreaming : bool) (ds : downstreamStream)
    : ProcessingResponse * downstreamStream * bool :=
  let src := Registry.p_Name (x_src x) in
  let keep mut mode ds := (mkReply (ResponseHeaders (mkCommon false (Some mut) None false)) mode None, ds, true) in
  if x_streaming x && respIsStreaming then
    if negb (Registry.p_StreamCodec (x_tgt x)) || negb (Registry.p_StreamCodec (x_src x)) then
      (translation502 reg src streamFailed, setError noStreamCodec ds, false)
    else
      let dec := NewStreamDecoder (x_tgt x) (x_req x) in
      let enc := NewStreamEncoder (x_src x) (x_srcIR x) in
      let ct := ContentType enc in
      let set := if HasPrefix (respHeader ds "content-type") ct then [] else [mkHeaderOption "content-type" ct] in
      keep (mkMutation set ["content-length"]) (Some (modeOverride NONE STREAMED))
        (ds <| xlate := Some (mkTranslation (x_src x) (x_tgt x) (x_req x) (x_srcIR x) (x_streaming x) (Some dec) (Some enc)
                                (x_failed x)) |>)
  else if x_streaming x then
    (translation502 reg src "clrk: upstream did not stream a translated streaming request", setError notStreamed ds, false)
  else if respIsStreaming then
    (translation502 reg src "clrk: cross-schema translation does not support streaming responses",
     setError unexpectedStream ds, false)
  else keep (mkMutation [] ["content-length"]) None ds.

Definition onResponseHeaders (t : clock) (h : list Capture.HeaderValue) (ds : downstreamStream) (w : shared)
    : ProcessingResponse * downstreamStream * shared :=
  let ds := upRec (fun r => r <| r_ResponseHeadersAt := Some (t_now t) |>
                              <| r_ResponseHeaders := Capture.headersToMap h |>) ds in
  let ds := ds <| xlate := armTranslation ds w |> in
  let respIsStreaming := Capture.isStreamingContentType (respHeader ds "content-type") in
  let ok200 := String.eqb (respHeader ds ":status") "200" in
  let close resp ds :=
    let ds := if Capture.ContentTypeIncluded (respHeader ds "content-type") (includedTypes ds) then ds
              else ds <| respBytesLeft := 0 |> in
    (resp, ds <| respKeepLast := respIsStreaming |>, w) in
  match xlate ds with
  | Some x =>
      if ok200 then
        let '(resp, ds, continue) := translatedHeaders x respIsStreaming ds in
        if continue then close resp ds else (resp, ds, w)
      else close (headersContinue false) ds
  | None =>
      close (if (streamRequested ds || respIsStreaming) && ok200
             then mkReply (pr_Response (headersContinue false)) (Some (modeOverride NONE STREAMED)) None
             else headersContinue false) ds
  end.

(** [translateStreamChunk], once the decoder and encoder are armed: the reply, the
    next translation state, and the error's text. *)
Definition streamErrorEvents : list LlmCall.StreamEvent :=
  [LlmCall.StreamEventError (Some (LlmCall.mkStreamError "bad_gateway" streamFailed)); LlmCall.StreamEventDone].

Definition translateStreamChunk (x : translationState) (dec : DecState) (enc : EncState) (chunk : string) (eos : bool)
    : ProcessingResponse * translationState * option string :=
  let next dec enc failed := mkTranslation (x_src x) (x_tgt x) (x_req x) (x_srcIR x) (x_streaming x) (Some dec) (Some enc)
                               failed in
  if x_failed x then (bodyMutationStreamed false "", x, None)
  else
    let '(events, derr, dec) := Decode dec chunk eos in
    let '(out, encErr, enc) := match events with [] => ("", None, enc) | _ => Encode enc events end in
    match derr, encErr with
    | None, None => (bodyMutationStreamed false out, next dec enc false, None)
    | _, _ =>
        let msg := match derr with
                   | Some e => ("stream decode: " ++ e)%string
                   | None => ("stream encode: " ++ default "" encErr)%string
                   end in
        let '(errOut, _, enc) := Encode enc streamErrorEvents in
        (bodyMutationStreamed false (out ++ errOut)%string, next dec enc true, Some msg)
    end.

(** The reverse translation of a whole response. *)
Definition translateResponse (x : translationState) (ds : downstreamStream)
    : outcome unit (ProcessingResponse * downstreamStream) :=
  let src := Registry.p_Name (x_src x) in
  match @LlmCall.DecodeResponse (codecOf (x_tgt x)) 200 (r_ResponseHeaders (rec ds)) (fullRespBody ds) (x_req x) with
  | Panic => Panic
  | Err e => Ok (translation502 reg src respFailed, setError ("response decode: " ++ LlmCall.errorText e)%string ds)
  | Ok decoded =>
      let '(decoded, dropped) := LlmCall.StripResponseForTranslation decoded in
      let decoded := decoded <| LlmCall.rs_Provider := src |> in
      match @LlmCall.EncodeResponse (codecOf (x_src x)) decoded with
      | Panic => Panic
      | Err e => Ok (translation502 reg src respFailed, setError ("response encode: " ++ LlmCall.errorText e)%string ds)
      | Ok enc =>
          let ds := upRec (fun r => r <| r_TranslationDroppedExtras ::= Z.add (dropped + LlmCall.er_DroppedExtras enc) |>) ds in
          let set := LlmCall.er_SetHeaders enc in
          Ok (if bool_decide (set = ∅) then bodyMutation false (LlmCall.er_Body enc)
              else bodyMutationWithHeaders false (LlmCall.er_Body enc)
                     (fold_left (fun m k => setHeaderMut m k (default "" (set !! k))) (sortedKeys set) None) false, ds)
      end
  end.

Definition onResponseBody (t : clock) (chunk : string) (eos : bool) (ds : downstreamStream) (w : shared)
    : outcome unit (ProcessingResponse * downstreamStream * shared) :=
  let '(body, n, trunc) :=
    if respKeepLast ds then
      let '(b, tr) := appendRing (r_ResponseBody (rec ds)) chunk (maxCaptureBytes ds) in (b, respBytesLeft ds, tr)
    else AppendBounded (r_ResponseBody (rec ds)) chunk (respBytesLeft ds) in
  let ds := upRec (fun r => r <| r_ResponseBodyChunks ::= Z.add 1 |>
                              <| r_ResponseBodyAt := orElse (r_ResponseBodyAt r) (t_now t) |> <| r_ResponseBody := body |>
                              <| r_ResponseTruncated := r_ResponseTruncated r || trunc |>) ds <| respBytesLeft := n |> in
  match xlate ds with
  | Some x =>
      if String.eqb (respHeader ds ":status") "200" then
        if x_streaming x then
          match x_dec x, x_enc x with
          | Some dec, Some enc =>
              let '(r, x, err) := translateStreamChunk x dec enc chunk eos in
              let ds := ds <| xlate := Some x |> in
              Ok (r, match err with Some m => setError m ds | None => ds end, w)
          | _, _ => Ok (bodyContinue false, ds, w)
          end
        else
          let ds := ds <| fullRespBody := (fullRespBody ds ++ chunk)%string |> in
          if eos then let! (r, ds) := translateResponse x ds in Ok (r, ds, w)
          else Ok (bodyContinue false, ds, w)
      else Ok (bodyContinue false, ds, w)
  | None => Ok (bodyContinue false, ds, w)
  end.

(** ** The end of the stream *)

Definition foldAttemptFacts (w : shared) (ds : downstreamStream) : downstreamStream :=
  match (p ← pinState ds; st ← Upstream.w_heap (sh_world w) !! p; a ← Upstream.lastAttempt st; Some (st, a)) with
  | None => ds
  | Some (st, a) =>
      let ds := upRec (fun r => r <| r_Attempts := Upstream.attemptCount st |>
                                  <| r_AttemptBackends := Upstream.attemptBackends st |>
                                  <| r_SelectedBackendNamespace := Upstream.backendNamespace a |>
                                  <| r_SelectedBackendName := Upstream.backendName a |>
                                  <| r_SelectedBackendSchema := Upstream.backendSchema a |>
                                  <| r_SelectedBackendReselected := true |>) ds in
      let ds := if Upstream.translationApplied a then
                  upRec (fun r => r <| r_TranslationApplied := true |>
                                    <| r_TranslationFrom := Upstream.st_system st |>
                                    <| r_TranslationTo := Upstream.backendSchema a |>
                                    <| r_TranslationDroppedExtras ::= Z.add (Upstream.droppedExtras a) |>) ds
                else ds in
      if Upstream.bodyRewritten a then
        captureRewrite (Upstream.sentBody a)
          (setReqHeaders (<[":path" := Upstream.sentPath a]> (r_RequestHeaders (rec ds))) ds)
      else ds
  end.

(** The record emitted, and what is left shared. *)
Definition finish (t : clock) (ds : downstreamStream) (w : shared) : Record_ * shared :=
  let ds := upRec (fun r => r <| r_EndAt := Some (t_now t) |>) ds in
  let ds := foldAttemptFacts w ds in
  let '(record, matched) := enrichRecord reg parse decodeStream inflate unmarshalResponse (rec ds) (routes ds)
                              (finalRule ds) in
  let b := Budget.chargeBudget (t_day t) matched (egKey ds) (usageOf record) (sh_budget w) in
  (record, mkShared (match pinState ds with
                     | Some _ => Upstream.delete (requestID ds) (sh_world w)
                     | None => sh_world w
                     end) b).

Definition handle (t : clock) (m : Upstream.message) (ds : downstreamStream) (w : shared)
    : outcome unit (option ProcessingResponse * downstreamStream * shared) :=
  let some m := let! (r, ds, w) := m in Ok (Some r, ds, w) in
  match m with
  | Upstream.MRequestHeaders h eos => some (onRequestHeaders t h eos ds w)
  | Upstream.MResponseHeaders h _ => some (Ok (onResponseHeaders t h ds w))
  | Upstream.MRequestBody body eos => some (onRequestBody t body eos ds w)
  | Upstream.MResponseBody body eos => some (onResponseBody t body eos ds w)
  | Upstream.MRequestTrailers => Ok (Some (trailersContinue true), ds, w)
  | Upstream.MResponseTrailers => Ok (Some (trailersContinue false), ds, w)
  | Upstream.MUnknown => Ok (None, ds, w)
  end.

(** One message of [Process]: the identity is read again from every message. *)
Definition receive (t : clock) (req : Upstream.ProcessingRequest) (ds : downstreamStream) (w : shared)
    : outcome unit (option ProcessingResponse * downstreamStream * shared) :=
  let ds := match Upstream.rq_Metadata req with
            | Some md => upRec (fun r => applyClrkMetadata r md) ds
            | None => ds
            end in
  handle t (Upstream.rq_Message req) ds w.

End Env.

(** ** Response translation *)

Section Proofs.
Context (reg : Registry.registry) {HK : Hooks} {SH : StreamHooks} {RE : GoPath.RegexpEngine}.
Context (sha256 : string -> string) (hmac : string -> string -> string) (sha256_hex12 : string -> string).
Context (unmarshalRequest : string -> option McpRoute.mcpEnvelope) (unmarshalResponse : string -> option (option Z)).
Context (parse : Registry.Provider -> Input -> option ProviderInfo).
Context (decodeStream : Registry.Provider -> string -> list LlmCall.StreamEvent).
Context (inflate : string -> string -> option string).
Context {SpanContext : Type} (IsValid : SpanContext -> bool) (inject : SpanContext -> string * string).
Context (invocations : option (@InvocationCtx.Store SpanContext)).

(** A translated stream in progress: a 200 whose decoder and encoder are armed. *)
Record streaming (ds : downstreamStream) (x : translationState) (dec : DecState) (enc : EncState) : Prop := {
  sm_xlate : xlate ds = Some x;
  sm_streaming : x_streaming x = true;
  sm_dec : x_dec x = Some dec;
  sm_enc : x_enc x = Some enc;
  sm_status : respHeader ds ":status" = "200";
}.

(** The reference translator: what the agent should receive for the chunks of a
    stream.  Decoded events go through the encoder; the first failure ends the
    stream with the encoder's error frame, and nothing follows. *)
Fixpoint translateAll (failed : bool) (dec : DecState) (enc : EncState) (chunks : list (string * bool)) : list string :=
  match chunks with
  | [] => []
  | (chunk, eos) :: chunks =>
      if failed then "" :: translateAll true dec enc chunks
      else
        let '(events, derr, dec) := Decode dec chunk eos in
        let '(out, eerr, enc) := match events with [] => ("", None, enc) | _ => Encode enc events end in
        match derr, eerr with
        | None, None => out :: translateAll false dec enc chunks
        | _, _ => (out ++ fst (fst (Encode enc streamErrorEvents)))%string :: translateAll true dec enc chunks
        end
  end.

Lemma translateAll_failed dec enc chunks : translateAll true dec enc chunks = List.map (fun _ => "") chunks.
Proof. induction chunks as [|[c e] chunks IH]; cbn; [done|]. by rewrite IH. Qed.

(** The replies to the chunks of a response. *)
Fixpoint respond (t : clock) (ds : downstreamStream) (w : shared) (chunks : list (string * bool))
    : outcome unit (list ProcessingResponse) :=
  match chunks with
  | [] => Ok []
  | (chunk, eos) :: chunks =>
      let! (r, ds, w) := onResponseBody reg t chunk eos ds w in
      let! rs := respond t ds w chunks in
      Ok (r :: rs)
  end.

Lemma onResponseBody_streaming t chunk eos ds w x dec enc :
  streaming ds x dec enc ->
  let '(r, x', err) := translateStreamChunk x dec enc chunk eos in
  exists ds', onResponseBody reg t chunk eos ds w = Ok (r, ds', w)
    /\ xlate ds' = Some x' /\ respHeader ds' ":status" = "200".
Proof.
  intros [Hx Hs Hd He H2]. destruct (translateStreamChunk x dec enc chunk eos) as [[r x'] err] eqn:E.
  unfold onResponseBody.
  destruct (if respKeepLast ds then _ else _) as [[body n] trunc]. cbv zeta.
  set (ds1 := upRec _ _).
  assert (H1 : xlate ds1 = Some x) by (cbn; done).
  assert (H3 : respHeader ds1 ":status" = "200") by (cbn; done).
  clearbody ds1. rewrite H1, H3. cbn [String.eqb Ascii.eqb Bool.eqb]. rewrite Hs, Hd, He, E.
  destruct err; eexists; (split; [reflexivity|]); done.
Qed.

(** C8: a translated stream shows the agent the reference translation and
    nothing else.  Whatever chunks the backend sends, and however they are cut, each
    reply replaces the chunk by the reference translator's output; so after the
    first decoding or encoding failure the agent gets one error frame in its own
    schema and then nothing, and never the backend's bytes. *)
Theorem stream_translation_refines t ds w x dec enc chunks :
  streaming ds x dec enc ->
  respond t ds w chunks
  = Ok (List.map (bodyMutationStreamed false) (translateAll (x_failed x) dec enc chunks)).
Proof.
  revert ds x dec enc. induction chunks as [|[chunk eos] chunks IH]; intros ds x dec enc H; [done|].
  cbn [respond translateAll].
  pose proof (onResponseBody_streaming t chunk eos ds w x dec enc H) as Hstep.
  destruct H as [Hx Hs Hd He H2]. unfold translateStreamChunk in Hstep.
  destruct (x_failed x) eqn:Ef.
  - destruct Hstep as (ds' & -> & Hx' & H2'). cbn [obind]. erewrite IH; [|by split]. cbn [obind]. by rewrite Ef.
  - destruct (Decode dec chunk eos) as [[events derr] dec'].
    destruct (match events with [] => _ | _ => _ end) as [[out eerr] enc'].
    destruct derr as [e|], eerr as [e'|]; cbn zeta beta iota in Hstep;
      try (destruct (Encode enc' streamErrorEvents) as [[errOut ee] enc'']);
      destruct Hstep as (ds' & -> & Hx' & H2'); cbn [obind];
      (erewrite IH; [|split; [exact Hx'|cbn; done..]]); cbn [obind x_failed fst]; try done;
      by rewrite !translateAll_failed.
Qed.

(** ** The pin *)

(** What a pin has published, and what it told Envoy: the state an attempt will
    find, the rule key, and the candidates that may serve this request. *)
Record pinned (t : clock) (ds : downstreamStream) (w w' : shared) (r : ProcessingResponse) (final : routeRule)
    (viable : list Candidate) (st : Upstream.requestState) : Prop := {
  pn_world : sh_world w' = Upstream.pin (t_now t) (requestID ds) st (sh_world w);
  pn_route : exists m c, pr_Response r = RequestBody c /\ cr_HeaderMutation c = Some m /\ cr_ClearRouteCache c = true
      /\ In (mkHeaderOption PinHeader (RuleKey sha256_hex12 (egKey ds) (mkNN (routeNamespace final) (routeName final))
               (ruleIdx final) (provider final))) (SetHeaders m);
  pn_viable : viable <> [] /\ forall c, In c viable -> In c (viableOf (backends final));
  pn_subset : match pr_Subset r with
              | Some n => exists c, In c viable /\ c_Name c = n
              | None => viable = viableOf (backends final)
              end;
}.

(** A candidate the request can go to: same schema, or a clean translation of the
    decoded request with a model rewrite. *)
Definition eligible (system : string) (src : option Registry.Provider) (ir : option LlmCall.Request) (c : Candidate)
    : Prop :=
  c_System c = system
  \/ exists req, ir = Some req /\ LlmCall.TranslationBlockers ir src (Registry.ByName reg (c_System c)) = []
       /\ is_Some (RewriteModel c (LlmCall.rq_Model req)).

Lemma viableOf_In cs c : In c (viableOf cs) <-> In c cs /\ c_Refuse c = false /\ c_Host c <> "".
Proof.
  unfold viableOf. rewrite filter_In, andb_true_iff, !negb_true_iff, String.eqb_neq. tauto.
Qed.

Lemma canTranslate_eligible system src ir c :
  canTranslate reg system src ir c = true -> c_Refuse c = false -> eligible system src ir c.
Proof.
  unfold canTranslate, eligible. intros H Hr. rewrite Hr in H. cbn in H. destruct (String.eqb_spec (c_System c) system); [auto|].
  destruct ir as [req|]; [|done]. apply andb_true_iff in H as [H1 H2]. apply bool_decide_eq_true in H2.
  right. exists req. split; [done|]. split; [|done].
  by destruct (LlmCall.TranslationBlockers (Some req) src (Registry.ByName reg (c_System c))).
Qed.

Lemma filter_filter_comm {A} (f g : A -> bool) l : List.filter f (List.filter g l) = List.filter g (List.filter f l).
Proof.
  induction l as [|a l IH]; cbn; [done|]. destruct (f a) eqn:E1, (g a) eqn:E2; cbn; rewrite ?E1, ?E2, ?IH; done.
Qed.

Lemma filter_length_eq {A} (f : A -> bool) l : (length l <= length (List.filter f l))%nat -> List.filter f l = l.
Proof.
  induction l as [|a l IH]; cbn; [done|]. pose proof (filter_length_le f l). destruct (f a); cbn; intros; [|lia].
  f_equal. apply IH. lia.
Qed.

(** The candidates of a request: those of the rule that pass a test, all of them
    for a custom rule. *)
Lemma requestCandidates_spec final system src ir :
  exists f, fst (requestCandidates reg final system src ir) = List.filter f (backends final)
    /\ (trustsOperator final = false -> forall c, f c = true -> c_Refuse c = false -> eligible system src ir c).
Proof.
  unfold requestCandidates. destruct (trustsOperator final).
  - exists (fun _ => true). split; [|done]. cbn. symmetry. by apply filter_all.
  - exists (canTranslate reg system src ir). split; [done|]. intros _ c. apply canTranslate_eligible.
Qed.

Lemma commitPin_pinned t ds final f st reqPath w r ds' w' :
  let viable := viableOf (List.filter f (backends final)) in
  viable <> [] -> totalWeight viable < 2 ^ 32 ->
  commitPin sha256_hex12 t ds final viable st None reqPath false w = Ok (r, ds', w') ->
  pinned t ds w w' r final viable st /\ pinState ds' = Some (Upstream.w_next (sh_world w))
  /\ requestID ds' = requestID ds.
Proof.
  intros viable Hne Hw E. unfold commitPin, Upstream.alloc in E. cbv beta iota zeta in E.
  assert (Hsub : forall c, In c viable -> In c (viableOf (backends final))).
  { intros c. unfold viable. rewrite !viableOf_In, filter_In. by intros [[? ?] ?]. }
  destruct (Nat.ltb_spec (length viable) (servableCount (backends final))) as [Hl|Hl].
  - match type of E with context [weightedPick viable ?k] =>
      destruct (weightedPick_member viable k Hne Hw) as (c & Hc & Hin) end.
    rewrite Hc in E. cbn [obind] in E. injection E as <- <- <-. split; [|done]. split; [done| |done|cbn; eauto].
    eexists _, _. split; [reflexivity|]. split; [reflexivity|]. split; [done|]. cbn. auto.
  - injection E as <- <- <-. split; [|done]. split; [done| |done|].
    + eexists _, _. split; [reflexivity|]. split; [reflexivity|]. split; [done|]. cbn. auto.
    + cbn. unfold viable, servableCount, viableOf in *. rewrite filter_filter_comm in *. by apply filter_length_eq.
Qed.

Lemma totalWeight_filter f cs : totalWeight (List.filter f cs) <= totalWeight cs.
Proof using.
  induction cs as [|c cs IH]; cbn [List.filter]; [done|]. rewrite totalWeight_cons. pose proof (positiveWeight_nonneg c).
  destruct (f c); rewrite ?totalWeight_cons; lia.
Qed.

(** The attempt recorded that the candidate served. *)
Definition recorded (wa : Upstream.world) (p : nat) (c : Candidate) : Prop :=
  exists fact, (Upstream.w_heap wa !! p) ≫= Upstream.lastAttempt = Some fact
    /\ Upstream.backendNamespace fact = c_Namespace c /\ Upstream.backendName fact = c_Name c
    /\ Upstream.backendSchema fact = c_System c.

(** The target codec refused the request. *)
Definition encodeRefused (ir : option LlmCall.Request) (c : Candidate) : Prop :=
  exists req tgt model e, ir = Some req /\ Registry.ByName reg (c_System c) = Some tgt
    /\ RewriteModel c (LlmCall.rq_Model req) = Some model /\ translateRequest tgt req model = Err e.

Lemma commitPlain_recorded now us p st c injs body wa :
  Upstream.w_heap wa !! p = Some st ->
  recorded (snd (Upstream.commitPlain reg sha256 hmac now us p st c injs body wa)) p c.
Proof.
  intros Hh. unfold Upstream.commitPlain.
  destruct (rewriteRequestBody reg body _ _ c) as [fb []]; cbn [snd]; eexists;
    (split; [by eapply Upstream.last_appendAttempt|done]).
Qed.

Lemma commitTranslated_recorded now us p st req c injs wa r wa' src :
  Upstream.w_heap wa !! p = Some st ->
  LlmCall.TranslationBlockers (Some req) src (Registry.ByName reg (c_System c)) = [] ->
  is_Some (RewriteModel c (LlmCall.rq_Model req)) ->
  Upstream.commitTranslated reg sha256 hmac now us p st req c injs wa = Ok (r, wa') ->
  recorded wa' p c \/ encodeRefused (Some req) c.
Proof.
  intros Hh Hb [model Hm] E. unfold Upstream.commitTranslated in E.
  destruct src as [src|]; [|done]. destruct (Registry.ByName reg (c_System c)) as [tgt|] eqn:Et; [|done].
  apply LlmCall.TranslationBlockers_nil_iff in Hb as [[_ Hc] _ _ _ _ _]. rewrite Hc, Hm in E. cbn [negb] in E.
  destruct (translateRequest tgt req model) as [[enc xr]|e|] eqn:Ex; [|right; by exists req, tgt, model, e|done].
  left. injection E as <- <-. eexists. split; [by eapply Upstream.last_appendAttempt|done].
Qed.

(** An attempt on an eligible candidate commits, unless the target codec refuses
    the request. *)
Lemma eligible_attempt now us wa p st final c src ir body r wa' :
  Upstream.joined us wa p st final c -> Upstream.srcIR st = ir ->
  (trustsOperator final = false -> eligible (Upstream.st_system st) src ir c) ->
  Upstream.onRequestBody reg sha256 hmac now us body true wa = Ok (r, wa') ->
  recorded wa' p c \/ encodeRefused ir c.
Proof.
  intros J Hir He E. pose proof (Upstream.j_heap _ _ _ _ _ _ J) as Hh.
  rewrite (Upstream.onRequestBody_joined reg sha256 hmac now us wa p st final c body J) in E. cbn zeta in E.
  assert (Hplain : forall injs, Ok (Upstream.commitPlain reg sha256 hmac now us p st c injs body wa) = Ok (E:=unit) (r, wa') ->
            recorded wa' p c).
  { intros injs [= Ep]. pose proof (commitPlain_recorded now us p st c injs body wa Hh) as Hr. by rewrite Ep in Hr. }
  destruct (trustsOperator final) eqn:Et; cbn [negb andb] in E; [by left; eapply Hplain|].
  destruct (String.eqb_spec (c_System c) (Upstream.st_system st)) as [|Hn]; cbn [negb] in E; [by left; eapply Hplain|].
  destruct (He eq_refl) as [?|(req & -> & Hb & Hm)]; [done|]. rewrite Hir in E.
  by eapply commitTranslated_recorded.
Qed.

(** The candidates Envoy may pick: the endpoints of the rule's cluster, or those among
    them that carry the pinned name. *)
Definition selectable (r : ProcessingResponse) (final : routeRule) (c : Candidate) : Prop :=
  In c (viableOf (backends final)) /\ match pr_Subset r with Some n => c_Name c = n | None => True end.

(** What may be picked is viable or is the namesake of a viable one. *)
Lemma selectable_viable t ds w w' r final viable st c :
  pinned t ds w w' r final viable st -> selectable r final c -> ~ In c viable ->
  exists c', In c' viable /\ c' <> c /\ c_Name c' = c_Name c.
Proof using.
  intros [_ _ _ Hs] [Hc Hn] Hv. destruct (pr_Subset r) as [n|]; [|by rewrite Hs in Hv].
  destruct Hs as (c' & Hc' & E). exists c'. split; [done|]. split; [by intros ->|congruence].
Qed.

(** C3: a request pinned at the end of its body is served by the backend Envoy picks
    for it, unless that backend shares its name with another one of the rule.  The pin
    publishes the request's state under its id and steers the route table onto the
    rule's key; it leaves every servable backend of the rule, or pins one of the viable
    ones by its name; an attempt that joins this state on a viable candidate commits
    and records that backend, unless the target codec itself refuses to encode the
    request: no such attempt fails for a missing decode, codec or model rewrite.  And
    whatever Envoy may pick is viable, but for candidates whose name is also the name of
    a viable one (of another namespace, when a rule refers to each backend once). *)
Theorem pinned_request_served t host reqPath ds w r ds' w' p :
  (forall final, acceptingRule ds (SystemFor reg host) reqPath (RequestModel (fullReqBody ds)) = Some final ->
     totalWeight (backends final) < 2 ^ 32) ->
  pinState ds = None ->
  pinAtBodyEOS reg sha256 hmac sha256_hex12 t host reqPath ds w = Ok (r, ds', w') -> pinState ds' = Some p ->
  exists final viable ir,
    let st := newState (SystemFor reg host) (RequestModel (fullReqBody ds)) ir final in
    acceptingRule ds (SystemFor reg host) reqPath (RequestModel (fullReqBody ds)) = Some final
    /\ pinned t ds w w' r final viable st /\ p = Upstream.w_next (sh_world w)
    /\ (forall now us wa facts c body ra wa',
         In c viable -> Upstream.joined us wa p (Upstream.withAttempts st (t_now t) facts) final c ->
         Upstream.onRequestBody reg sha256 hmac now us body true wa = Ok (ra, wa') ->
         recorded wa' p c \/ encodeRefused ir c)
    /\ (forall c, selectable r final c -> ~ In c viable -> exists c', In c' viable /\ c' <> c /\ c_Name c' = c_Name c).
Proof using reg HK SH RE sha256 hmac sha256_hex12.
  intros Hw Hn E Hp. unfold pinAtBodyEOS in E. cbv zeta in E.
  set (system := SystemFor reg host) in *. set (model := RequestModel (fullReqBody ds)) in *.
  destruct (acceptingRule ds system reqPath model) as [final|] eqn:Ea; [|done]. specialize (Hw final eq_refl).
  apply obind_Ok_inv in E as ([[src ir] malformed] & _ & E).
  pose proof (requestCandidates_spec final system src ir) as (f & Hf & He).
  destruct (requestCandidates reg final system src ir) as [cands skipped]. cbn [fst] in Hf. subst cands.
  set (ds1 := upRec _ _) in E.
  assert (Hid : requestID ds1 = requestID ds /\ egKey ds1 = egKey ds /\ pinState ds1 = None).
  { unfold ds1. by destruct malformed. }
  clearbody ds1. unfold splitViable in E.
  destruct (negb (negb (negb _ && _))) eqn:Eok; [injection E as <- <- <-; by rewrite (proj2 (proj2 Hid)) in Hp|].
  destruct (match viableOf _ with [] => true | _ => false end || _) eqn:Ev.
  { injection E as E. unfold fallbackAtBodyEOS in E.
    destruct (EnsureIncludeUsage reg host reqPath (fullReqBody ds1)) as [nb|];
      (destruct (injectFallbackCreds _ _ _ _ _ _ _ _) as [mut headers]); injection E as <- <- <-;
      unfold captureRewrite in Hp; try destruct (AppendBounded _ _ _) as [[? ?] ?]; cbn in Hp; by rewrite (proj2 (proj2 Hid)) in Hp. }
  set (viable := viableOf (List.filter f (backends final))) in *.
  assert (Hne : viable <> []) by (intros Hz; by rewrite Hz in Ev).
  assert (Hwt : totalWeight viable < 2 ^ 32).
  { pose proof (totalWeight_filter f (backends final)).
    enough (totalWeight viable <= totalWeight (List.filter f (backends final))) by lia. apply totalWeight_filter. }
  set (ds2 := if _ <? _ then _ else _) in E.
  assert (Hid2 : requestID ds2 = requestID ds /\ egKey ds2 = egKey ds).
  { unfold ds2. destruct Hid as (? & ? & ?). by destruct (RetryBodyBufferBytes <? _). }
  clearbody ds2. destruct Hid2 as [Hid2 Heg2].
  apply commitPin_pinned in E as (Hpin & Hp' & _); [|done..].
  exists final, viable, ir. cbv zeta. split; [done|]. split.
  { destruct Hpin. split; rewrite <- ?Hid2, <- ?Heg2; auto. }
  split; [congruence|]. split; [|by intros c; eapply selectable_viable].
  intros now us wa facts c body ra wa' Hc J Ebody. eapply eligible_attempt; [exact J|done| |exact Ebody].
  intros Ht. apply He; [done| |]; unfold viable in Hc; rewrite viableOf_In, filter_In in Hc;
    by destruct Hc as [[? ?] [? ?]].
Qed.

(** ** What is emitted of the request headers *)

Lemma freshInjections_fold injs : forall seen out,
  (forall n, n ∈ seen -> n ∈ flat_map headerNames out) ->
  let '(seen', out') := fold_left (fun acc inj =>
         let '(seen, out) := acc in
         (seen ++ headerNames inj,
          if existsb (fun n => negb (existsb (String.eqb n) seen)) (headerNames inj) then out ++ [inj] else out))
       injs (seen, out) in
  forall n, n ∈ seen \/ n ∈ flat_map headerNames injs -> n ∈ flat_map headerNames out'.
Proof.
  induction injs as [|i injs IH]; intros seen out H; cbn [fold_left]; [intros n [?|[]%elem_of_nil]; auto|].
  set (out1 := if existsb _ _ then out ++ [i] else out).
  specialize (IH (seen ++ headerNames i) out1).
  destruct (fold_left _ injs (seen ++ headerNames i, out1)) as [seen' out'].
  intros n Hn. apply IH.
  - intros m. unfold out1. rewrite elem_of_app. destruct (existsb _ _) eqn:E.
    + rewrite flat_map_app, elem_of_app. cbn [flat_map]. rewrite app_nil_r. naive_solver.
    + intros [?|Hm]; [auto|]. apply H. apply not_true_iff_false in E. rewrite existsb_exists in E.
      destruct (existsb (String.eqb m) seen) eqn:Em.
      * apply existsb_exists in Em as (k & Hk & ->%String.eqb_eq). by apply list_elem_of_In.
      * exfalso. apply E. exists m. rewrite Em. split; [by apply list_elem_of_In|done].
  - cbn [flat_map] in Hn. rewrite !elem_of_app in *. tauto.
Qed.

Lemma freshInjections_names injs inj n :
  In inj injs -> In n (headerNames inj) -> exists i, In i (freshInjections injs) /\ In n (headerNames i).
Proof.
  intros Hi Hn. pose proof (freshInjections_fold injs [] []) as H. unfold freshInjections.
  destruct (fold_left _ injs ([], [])) as [seen out]. cbn [snd].
  assert (Ho : n ∈ flat_map headerNames out).
  { apply H; [by intros m ?%elem_of_nil|]. right. apply list_elem_of_In, in_flat_map. eauto. }
  by apply list_elem_of_In, in_flat_map in Ho.
Qed.

(** No value survives under a header the credentials of a candidate set. *)
Definition masked (names : list string) (headers : gmap string string) : Prop :=
  forall n v, In n names -> headers !! n = Some v -> v = redacted.

(** The header names the credentials of the candidates inject. *)
Definition injectedNames (creds : option credTable) (final : routeRule) (viable : list Candidate) : list string :=
  flat_map headerNames (flat_map (fun c => lookupForBackend creds (Some final) (c_Name c)) viable).

Lemma redactViable_masked final viable ds :
  masked (injectedNames (ds_creds ds) final viable)
    (r_RequestHeaders (rec (redactViableInjections final viable ds))).
Proof.
  intros n v Hn Hv. unfold injectedNames in Hn. apply in_flat_map in Hn as (inj & Hi & Hn).
  destruct (freshInjections_names _ inj n Hi Hn) as (i & Hfi & Hni).
  cbn in Hv. unfold const in Hv.
  by eapply (proj1 (redaction_complete (r_RequestHeaders (rec ds)) _) i n v).
Qed.

(** A step of the response phases leaves the captured request headers alone. *)
Definition responsePhase (m : Upstream.message) : bool :=
  match m with Upstream.MRequestHeaders _ _ | Upstream.MRequestBody _ _ => false | _ => true end.

Lemma translatedHeaders_req x s ds r ds' b :
  translatedHeaders reg x s ds = (r, ds', b) -> r_RequestHeaders (rec ds') = r_RequestHeaders (rec ds).
Proof. unfold translatedHeaders. intros E. repeat case_match; simplify_eq; done. Qed.

Lemma onResponseHeaders_req t h ds w :
  r_RequestHeaders (rec (snd (fst (onResponseHeaders reg t h ds w)))) = r_RequestHeaders (rec ds).
Proof.
  unfold onResponseHeaders. cbv zeta. set (ds1 := set xlate _ _).
  assert (H : r_RequestHeaders (rec ds1) = r_RequestHeaders (rec ds)) by done. clearbody ds1. rewrite <- H. clear H.
  destruct (xlate ds1) as [x|].
  - destruct (String.eqb _ "200").
    + destruct (translatedHeaders reg x _ ds1) as [[r ds2] b] eqn:E. apply translatedHeaders_req in E. rewrite <- E.
      destruct b; [|done]. by destruct (Capture.ContentTypeIncluded _ _).
    + by destruct (Capture.ContentTypeIncluded _ _).
  - by destruct (Capture.ContentTypeIncluded _ _).
Qed.

Lemma translateResponse_req x ds r ds' :
  translateResponse reg x ds = Ok (r, ds') -> r_RequestHeaders (rec ds') = r_RequestHeaders (rec ds).
Proof. unfold translateResponse. intros E. repeat case_match; simplify_eq; done. Qed.

Lemma onResponseBody_req t c eos ds w r ds' w' :
  onResponseBody reg t c eos ds w = Ok (r, ds', w') -> r_RequestHeaders (rec ds') = r_RequestHeaders (rec ds).
Proof.
  unfold onResponseBody. destruct (if respKeepLast ds then _ else _) as [[body n] trunc]. cbv zeta.
  set (ds1 := upRec _ _). assert (H : r_RequestHeaders (rec ds1) = r_RequestHeaders (rec ds)) by done.
  clearbody ds1. rewrite <- H. clear H. intros E.
  destruct (xlate ds1) as [x|]; [|by simplify_eq]. destruct (String.eqb _ "200"); [|by simplify_eq].
  destruct (x_streaming x).
  - destruct (x_dec x), (x_enc x); [|by simplify_eq..].
    destruct (translateStreamChunk x d e c eos) as [[r0 x0] [m|]]; by simplify_eq.
  - destruct eos; [|by simplify_eq]. apply obind_Ok_inv in E as ([r0 ds0] & E1 & E2). simplify_eq.
    by apply translateResponse_req in E1.
Qed.

Lemma receive_req t m attrs md ds w r ds' w' :
  responsePhase m = true ->
  receive reg sha256 hmac sha256_hex12 unmarshalRequest IsValid inject invocations t (Upstream.mkRequestMsg m attrs md) ds w
  = Ok (r, ds', w') ->
  r_RequestHeaders (rec ds') = r_RequestHeaders (rec ds).
Proof.
  intros Hm E. unfold receive in E. cbn [Upstream.rq_Message Upstream.rq_Metadata] in E.
  set (ds1 := match md with Some _ => _ | None => _ end) in E.
  assert (H1 : r_RequestHeaders (rec ds1) = r_RequestHeaders (rec ds)).
  { unfold ds1. destruct md as [md|]; [|done]. cbn. unfold applyClrkMetadata. by destruct (md !! MetadataNamespace). }
  clearbody ds1. rewrite <- H1. clear H1. unfold handle in E.
  destruct m as [h eos|b eos| |h eos|b eos| |]; try done; try (by simplify_eq).
  - cbn [obind] in E. pose proof (onResponseHeaders_req t h ds1 w) as H.
    destruct (onResponseHeaders reg t h ds1 w) as [[r0 ds0] w0]. cbn in E, H. by simplify_eq.
  - apply obind_Ok_inv in E as ([[r0 ds0] w0] & E1 & E2). cbn in E2. apply onResponseBody_req in E1. by simplify_eq.
Qed.

Lemma enrichRecord_req r t m :
  r_RequestHeaders (fst (enrichRecord reg parse decodeStream inflate unmarshalResponse r t m)) = r_RequestHeaders r.
Proof.
  unfold enrichRecord.
  destruct (decodeForParse inflate (r_RequestBody r) _ _) as [[b1 e1] d1].
  destruct (decodeForParse inflate (r_ResponseBody r) _ _) as [[b2 e2] d2].
  cbv zeta. set (ra := if d1 then _ else _).
  assert (H : r_RequestHeaders ra = r_RequestHeaders r) by (unfold ra; by destruct d1). clearbody ra. rewrite <- H. clear H.
  set (rb := if d2 then _ else _).
  assert (H : r_RequestHeaders rb = r_RequestHeaders ra) by (unfold rb; by destruct d2). clearbody rb. rewrite <- H. clear H.
  set (rc := match r_MCP rb with Some _ => _ | None => _ end).
  assert (H : r_RequestHeaders rc = r_RequestHeaders rb) by (unfold rc; repeat case_match; done).
  clearbody rc. rewrite <- H. clear H.
  set (rd := match telemetryOf _ with Some _ => _ | None => _ end).
  assert (H : r_RequestHeaders rd = r_RequestHeaders rc) by (unfold rd; repeat case_match; done).
  clearbody rd. rewrite <- H. clear H.
  set (re := match r_Provider rd with Some _ => _ | None => _ end).
  assert (H : r_RequestHeaders re = r_RequestHeaders rd) by (unfold re; repeat case_match; done).
  clearbody re. rewrite <- H. clear H.
  destruct m; [done|]. destruct t, (r_Provider re); try done. by destruct (match_ _ _ _ _).
Qed.

Lemma finish_req t ds w n :
  n <> ":path" ->
  r_RequestHeaders (fst (finish reg unmarshalResponse parse decodeStream inflate t ds w)) !! n
  = r_RequestHeaders (rec ds) !! n.
Proof.
  intros Hn. unfold finish. set (ds1 := upRec _ ds). set (ds2 := foldAttemptFacts w ds1).
  assert (H : r_RequestHeaders (rec ds2) !! n = r_RequestHeaders (rec ds) !! n).
  { unfold ds2, foldAttemptFacts. destruct (pinState ds1 ≫= _) as [[st a]|]; [|done].
    destruct (Upstream.translationApplied a), (Upstream.bodyRewritten a); try done;
      unfold captureRewrite; destruct (AppendBounded _ _ _) as [[? ?] ?]; cbn; unfold const;
      by rewrite lookup_insert_ne. }
  clearbody ds2. rewrite <- H. cbv zeta. pose proof (enrichRecord_req (rec ds2) (routes ds2) (finalRule ds2)) as He.
  destruct (enrichRecord _ _ _ _ _ _ _ _) as [record matched]. cbn [fst] in *. by rewrite He.
Qed.

(** The stream after any response messages, whatever other streams did to the
    shared state in between. *)
Inductive later : downstreamStream -> downstreamStream -> Prop :=
| later_refl ds : later ds ds
| later_step t m attrs md ds w r ds1 w1 ds2 :
    responsePhase m = true ->
    receive reg sha256 hmac sha256_hex12 unmarshalRequest IsValid inject invocations t
      (Upstream.mkRequestMsg m attrs md) ds w = Ok (r, ds1, w1) ->
    later ds1 ds2 -> later ds ds2.

(** C7: the credential headers of a pinned request never reach telemetry raw.
    Once a rule is pinned, at headers or at the end of the body, and through any
    sequence of response messages interleaved with anything other streams do, the
    record that [finish] emits shows, under every header that the credentials of any
    viable backend set, nothing or the redaction mark ([:path] apart, which the
    record takes from the serving attempt). *)
Theorem credentials_never_emitted t final viable st baseMut reqPath bodyless ds w r ds1 w1 ds2 tf wf n v :
  commitPin sha256_hex12 t ds final viable st baseMut reqPath bodyless w = Ok (r, ds1, w1) ->
  later ds1 ds2 ->
  In n (injectedNames (ds_creds ds) final viable) -> n <> ":path" ->
  r_RequestHeaders (fst (finish reg unmarshalResponse parse decodeStream inflate tf ds2 wf)) !! n = Some v ->
  v = redacted.
Proof.
  intros Hc Hl Hn Hp. rewrite finish_req by done.
  assert (H : r_RequestHeaders (rec ds2) = r_RequestHeaders (rec ds1)).
  { clear Hc Hn. induction Hl as [|t' m attrs md dsa wa ra dsb wb dsc Hm E _ IH]; [done|].
    apply receive_req in E; [|done]. congruence. }
  rewrite H.
  assert (H1 : rec ds1 = rec (redactViableInjections final viable ds)).
  { unfold commitPin in Hc. cbv zeta in Hc. destruct (_ <? _)%nat.
    - apply obind_Ok_inv in Hc as (c & _ & Hc). by injection Hc as _ <- _.
    - by injection Hc as _ <- _. }
  rewrite H1. apply redactViable_masked. done.
Qed.

(** ** Tool policy and the capture bound *)

Lemma length_list_ascii s : length (list_ascii_of_string s) = String.length s.
Proof. induction s; cbn; auto. Qed.

Lemma AppendBounded_over dst src n :
  0 <= n < Z.of_nat (String.length src) -> snd (AppendBounded dst src n) = true.
Proof.
  unfold AppendBounded, Capture.AppendBounded, Capture.zlen. rewrite length_list_ascii. intros H.
  destruct (Z.leb_spec n 0) as [Hn|Hn].
  - cbn. by apply Z.ltb_lt; lia.
  - destruct (Z.leb_spec (Z.of_nat (String.length src)) n); [lia|done].
Qed.

(** An MCP call escapes its tool policy by being large.  On a stream that
    neither reselects nor signs, a body longer than what is left of the capture
    bound (or any body at all, when the content type is not captured) is let
    through untouched at its last chunk, whatever the routes of the gateway and the
    tools they deny. *)
Theorem oversized_body_skips_policy t chunk ds w :
  deferReselect ds = false -> deferSign ds = false ->
  0 <= reqBytesLeft ds < Z.of_nat (String.length chunk) ->
  exists ds', onRequestBody reg sha256 hmac sha256_hex12 unmarshalRequest t chunk true ds w = Ok (bodyContinue true, ds', w)
    /\ r_MCPToolPolicyDecision (rec ds') = r_MCPToolPolicyDecision (rec ds).
Proof.
  intros Hd Hs Hl. unfold onRequestBody. pose proof (AppendBounded_over (r_RequestBody (rec ds)) chunk _ Hl) as Ht.
  destruct (AppendBounded (r_RequestBody (rec ds)) chunk (reqBytesLeft ds)) as [[body n] trunc]. cbn in Ht. subst trunc.
  cbv zeta. set (ds1 := upRec _ _).
  assert (H1 : deferReselect ds1 = false) by done. assert (H2 : deferSign ds1 = false) by done.
  assert (H3 : r_RequestTruncated (rec ds1) = true) by (cbn; unfold const; apply orb_true_r).
  assert (H4 : r_MCPToolPolicyDecision (rec ds1) = r_MCPToolPolicyDecision (rec ds)) by done.
  clearbody ds1. rewrite H1, H2. cbn [orb]. set (ds2 := set streamRequested _ ds1).
  assert (H5 : deferReselect ds2 = false) by done. assert (H6 : deferSign ds2 = false) by done.
  assert (H7 : r_RequestTruncated (rec ds2) = true) by done.
  assert (H8 : r_MCPToolPolicyDecision (rec ds2) = r_MCPToolPolicyDecision (rec ds)) by done.
  clearbody ds2. rewrite H5. unfold plainBodyEOS. rewrite H6, H7. cbn [negb]. exists ds2. done.
Qed.

End Proofs.

(** ** Concrete streams *)

#[local] Instance demoStreams : StreamHooks := {|
  DecState := unit;
  EncState := unit;
  NewStreamDecoder := fun _ _ => tt;
  NewStreamEncoder := fun _ _ => tt;
  ContentType := fun _ => "text/event-stream";
  Decode := fun s chunk _ => if String.eqb chunk "!" then ([], Some "bad frame", s)
                             else ([LlmCall.StreamEventDone], None, s);
  Encode := fun s _ => ("data: x", None, s);
|}.

Definition demoClock : clock := mkClock 100 (SigV4.mkNow "20260101T000000Z" "20260101") 0.
Definition demoShared : shared := mkShared Upstream.newRequestStateStore Budget.newBudgetStore.

Definition hv (k v : string) : Capture.HeaderValue := Capture.mkHV k v "".

Abbreviation demoReceive :=
  (@receive Registry.builtinRegistry Upstream.demoHooks demoStreams McpRoute.substring_engine (fun s => s) (fun k s => s)
     (fun s => s) (fun b => if String.eqb b "{" then None else Some (McpRoute.mkEnvelope "tools/call" (Some ("delete_all", "")) "1"))
     unit (fun _ => true) (fun _ => ("", "")) None demoClock).

(** The replies of a stream to its messages, and its state at the end. *)
Fixpoint demoRun (ds : @downstreamStream demoStreams McpRoute.substring_engine) (w : shared) (ms : list Upstream.message)
    : option (list (option ProcessingResponse) * @downstreamStream demoStreams McpRoute.substring_engine) :=
  match ms with
  | [] => Some ([], ds)
  | m :: ms =>
      match demoReceive (Upstream.mkRequestMsg m [] None) ds w with
      | Ok (r, ds, w) => match demoRun ds w ms with Some (rs, ds) => Some (r :: rs, ds) | None => None end
      | _ => None
      end
  end.

(** A gateway whose only MCP route denies the tool, capturing [n] bytes. *)
Definition demoMcp (n : Z) : @downstreamStream demoStreams McpRoute.substring_engine :=
  newDownstreamStream 0 (Some (mkConfig n ["application/json"] None (Some McpRoute.demoTable) None (mkNN "team" "eg"))).

Definition demoCall : list Upstream.message :=
  [Upstream.MRequestHeaders [hv ":authority" "mcp.example.com"; hv ":method" "POST"; hv "content-type" "application/json"] false;
   Upstream.MRequestBody "{call}" true].

Definition isDeny (r : option ProcessingResponse) : bool :=
  match r with Some r => match pr_Response r with ImmediateResponse 403 _ _ => true | _ => false end | None => false end.

(** The same call is denied under a bound of 64 bytes and passes under one of 4. *)
Example oversized_body_skips_policy_run :
  option_map (fun x => List.map isDeny (fst x)) (demoRun (demoMcp 64) demoShared demoCall) = Some [false; true]
  /\ option_map (fun x => List.map isDeny (fst x)) (demoRun (demoMcp 4) demoShared demoCall) = Some [false; false].
Proof. split; vm_compute; reflexivity. Qed.

(** The content-type gate does not bound a streamed response: with only JSON
    included, an event stream is captured all the same. *)
Example excluded_stream_is_captured :
  option_map (fun x => r_ResponseBody (rec (snd x)))
    (demoRun (demoMcp 64) demoShared
       [Upstream.MRequestHeaders [hv ":authority" "a.example"] true;
        Upstream.MResponseHeaders [hv ":status" "200"; hv "content-type" "text/event-stream"] false;
        Upstream.MResponseBody "data: secret" true]) = Some "data: secret"
  /\ option_map (fun x => r_ResponseBody (rec (snd x)))
    (demoRun (demoMcp 64) demoShared
       [Upstream.MRequestHeaders [hv ":authority" "a.example"] true;
        Upstream.MResponseHeaders [hv ":status" "200"; hv "content-type" "text/plain"] false;
        Upstream.MResponseBody "secret" true]) = Some "".
Proof. split; vm_compute; reflexivity. Qed.

Lemma oversized_body_skips_policy_witness :
  exists ds', @onRequestBody Registry.builtinRegistry Upstream.demoHooks demoStreams McpRoute.substring_engine
      (fun s => s) (fun k s => s) (fun s => s) (fun _ => None) demoClock "{call}" true (demoMcp 4) demoShared
    = Ok (bodyContinue true, ds', demoShared).
Proof.
  destruct (@oversized_body_skips_policy Registry.builtinRegistry Upstream.demoHooks demoStreams McpRoute.substring_engine
    (fun s => s) (fun k s => s) (fun s => s) (fun _ => None) demoClock "{call}" (demoMcp 4) demoShared eq_refl eq_refl)
    as (ds' & E & _); [vm_compute; split; congruence|eauto].
Defined.

(** Two backends of one name, in the route's namespace and in another. *)
Definition namesakes : routeRule :=
  mkRouteRule "team" "chat" 0 "openai" [] [] None
    [mkCandidate "llm" "team" "api.openai.com" 443 "openai" 1 [] None false "";
     mkCandidate "llm" "other" "api.anthropic.com" 443 "anthropic" 1 [] None false ""].

Definition demoPin (rr : routeRule) (creds : option credTable) : @downstreamStream demoStreams McpRoute.substring_engine :=
  newDownstreamStream 0 (Some (mkConfig 64 ["application/json"] (Some [rr]) None creds (mkNN "team" "eg"))).

Definition demoGet : Upstream.message :=
  Upstream.MRequestHeaders [hv ":authority" "api.openai.com"; hv ":path" "/v1/models"; hv ":method" "GET";
                            hv "x-request-id" "r1"; hv "authorization" "Bearer agent"] true.

(** The attempt of the pinned request on the backend [ns/llm]. *)
Definition demoAttempt (ns : string) (w : shared) : option (list HeaderOption) :=
  let us := Upstream.withBackend (Upstream.newUpstreamStream None) (Some (Upstream.mkAttemptBackend ns "llm" "" "" 443)) in
  let '(r, _, _) := @Upstream.onRequestHeaders Registry.builtinRegistry Upstream.demoHooks (fun s => s) (fun k s => s)
                      (SigV4.mkNow "20260101T000000Z" "20260101") us
                      [hv ":path" "/v1/models"; hv ":method" "GET"; hv "x-request-id" "r1"] true (sh_world w) in
  match pr_Response r with RequestHeaders c => option_map SetHeaders (cr_HeaderMutation c) | _ => None end.

(** The subset key of a pin is the backend's name alone, so it selects a namesake
    in another namespace too; a bodyless attempt on it is committed, and the agent's
    request leaves for a provider of another schema. *)
Example namesake_gets_foreign_request :
  match demoReceive (Upstream.mkRequestMsg demoGet [] None) (demoPin namesakes None) demoShared with
  | Ok (Some r, _, w) => Some (pr_Subset r, demoAttempt "other" w)
  | _ => None
  end = Some (Some "llm", Some [mkHeaderOption ":authority" "api.anthropic.com:443"]).
Proof. vm_compute. reflexivity. Qed.

(** A whole translated response that does not end with its body message (trailers
    follow) is passed on as the backend sent it. *)
Definition demoX (streaming : bool) : @translationState demoStreams :=
  @mkTranslation demoStreams Registry.openai Registry.anthropic LlmCall.request_ex None streaming (Some tt) (Some tt) false.

Definition demoTranslated (streaming : bool) : @downstreamStream demoStreams McpRoute.substring_engine :=
  set (Setter := ltac:(typeclasses eauto)) xlate
    (const (Some (demoX streaming)))
    (upRec (fun r => r <| r_ResponseHeaders := {[":status" := "200"]} |>) (demoMcp 64)).

Example unfinished_body_passes_untranslated :
  match demoReceive (Upstream.mkRequestMsg (Upstream.MResponseBody "{backend schema}" false) [] None)
          (demoTranslated false) demoShared with
  | Ok (r, _, _) => r
  | _ => None
  end = Some (bodyContinue false).
Proof. vm_compute. reflexivity. Qed.

Lemma stream_translation_refines_witness :
  @respond Registry.builtinRegistry Upstream.demoHooks demoStreams McpRoute.substring_engine demoClock (demoTranslated true)
    demoShared [("a", false); ("!", false); ("b", true)]
  = Ok (List.map (bodyMutationStreamed false) ["data: x"; "data: x"; ""]).
Proof.
  rewrite (@stream_translation_refines Registry.builtinRegistry Upstream.demoHooks demoStreams McpRoute.substring_engine
    demoClock (demoTranslated true) demoShared
    (demoX true) tt tt).
  - reflexivity.
  - by split.
Defined.

Definition sameSchema : routeRule :=
  mkRouteRule "team" "chat" 0 "openai" [] [] None [mkCandidate "gpt" "team" "api.openai.com" 443 "openai" 1 [] None false ""].

(** A stream at the end of its body, pinned to [sameSchema]. *)
Definition demoBody (creds : option credTable) : @downstreamStream demoStreams McpRoute.substring_engine :=
  set (Setter := ltac:(typeclasses eauto)) requestID (const "r1")
    (upRec (fun r => r <| r_RequestHeaders := {[":authority" := "api.openai.com"; "authorization" := "Bearer agent"]} |>)
       (demoPin sameSchema creds)).

Lemma pinned_request_served_witness :
  exists r ds' w' final viable ir,
    @pinAtBodyEOS Registry.builtinRegistry Upstream.demoHooks demoStreams McpRoute.substring_engine (fun s => s) (fun k s => s)
      (fun s => s) demoClock "api.openai.com" "/v1/chat" (demoBody None) demoShared = Ok (r, ds', w')
    /\ @pinned demoStreams McpRoute.substring_engine (fun s => s) demoClock (demoBody None) demoShared w' r final viable
         (newState "openai" "" ir final).
Proof.
  destruct (@pinAtBodyEOS Registry.builtinRegistry Upstream.demoHooks demoStreams McpRoute.substring_engine (fun s => s)
    (fun k s => s) (fun s => s) demoClock "api.openai.com" "/v1/chat" (demoBody None) demoShared)
    as [[[r ds'] w']| |] eqn:E; [|by vm_compute in E..].
  destruct (@pinned_request_served Registry.builtinRegistry Upstream.demoHooks demoStreams McpRoute.substring_engine
    (fun s => s) (fun k s => s) (fun s => s) demoClock "api.openai.com" "/v1/chat" (demoBody None) demoShared r ds' w' 0)
    as (final & viable & ir & _ & Hp & _).
  - intros final Hf. vm_compute in Hf. injection Hf as <-. vm_compute. reflexivity.
  - reflexivity.
  - exact E.
  - vm_compute in E. by injection E as _ <- _.
  - by exists r, ds', w', final, viable, ir.
Defined.

Definition demoKey : credTable := mkCredTable ∅ [mkInjection "team/key" "authorization" "Bearer k" None ""].

Lemma credentials_never_emitted_witness :
  exists r ds1 w1,
    @commitPin demoStreams McpRoute.substring_engine (fun s => s) demoClock (demoBody (Some demoKey)) sameSchema
      (backends sameSchema) (newState "openai" "" None sameSchema) None "/v1/chat" false demoShared = Ok (r, ds1, w1)
    /\ forall v, r_RequestHeaders (fst (@finish Registry.builtinRegistry demoStreams McpRoute.substring_engine (fun _ => None)
         (fun _ _ => None) (fun _ _ => []) (fun _ _ => None) demoClock ds1 w1)) !! "authorization" = Some v -> v = redacted.
Proof.
  destruct (@commitPin demoStreams McpRoute.substring_engine (fun s => s) demoClock (demoBody (Some demoKey)) sameSchema
    (backends sameSchema) (newState "openai" "" None sameSchema) None "/v1/chat" false demoShared)
    as [[[r ds1] w1]| |] eqn:E; [|by vm_compute in E..].
  exists r, ds1, w1. split; [done|]. intros v.
  apply (@credentials_never_emitted Registry.builtinRegistry Upstream.demoHooks demoStreams McpRoute.substring_engine (fun s => s)
    (fun k s => s) (fun s => s) (fun _ => None) (fun _ => None) (fun _ _ => None) (fun _ _ => []) (fun _ _ => None)
    unit (fun _ => true) (fun _ => ("", "")) None demoClock sameSchema (backends sameSchema)
    (newState "openai" "" None sameSchema) None "/v1/chat" false (demoBody (Some demoKey)) demoShared r ds1 w1 ds1 demoClock w1
    "authorization" v E).
  - constructor.
  - by left.
  - done.
Defined.

End Downstream.
