(* ===== verification/EgIdentity.v ===== *)
(** * The identity of a calling gateway

    [src/internal/egidentity/identity.go]: the authority an Envoy calls the
    controller manager under on behalf of an EgressGateway, its parser, and the
    interceptors that put the identity on the context of a call, from the
    verified client certificate or, in the insecure mode, from [:authority].

    A context is what the interceptors read of one: the identity attached so
    far, the incoming gRPC metadata and the peer. *)

From Stdlib Require Import ZArith Lia Ascii String List.
From Stdlib.Strings Require Import Byte.
From stdpp Require Import base strings list gmap.
From S2P Require Import Prelude GoStrings ApiTypes.
Import GoStrings ApiTypes.

Module EgIdentity.

Open Scope string_scope.

Definition authoritySuffix : string := ".eg.clrk.local".

Definition AuthorityFor (eg : NamespacedName) : string :=
  nn_name eg ++ "." ++ nn_namespace eg ++ authoritySuffix.

(** [host[i+1:]] has no dot: what follows the last colon is a port. *)
Definition stripPort (authority : string) : string :=
  match LastIndex authority ":" with
  | Some i => if negb (ContainsAny (drop_str (i + 1) authority) ".") then take_str i authority else authority
  | None => authority
  end.

Definition ParseAuthority (authority : string) : option NamespacedName :=
  let host := stripPort authority in
  if negb (HasSuffix host authoritySuffix) then None
  else
    let prefix := TrimSuffix host authoritySuffix in
    match Index prefix "." with
    | None | Some O => None
    | Some dot =>
        if Nat.eqb dot (String.length prefix - 1) then None
        else Some (mkNN (drop_str (dot + 1) prefix) (take_str dot prefix))
    end.

(** ** Contexts *)

(** The fields of [x509.Certificate] this repository sets or reads; times in
    nanoseconds, an address by its sixteen bytes. *)
Inductive KeyUsage := KeyUsageDigitalSignature | KeyUsageKeyEncipherment | KeyUsageCertSign | KeyUsageCRLSign.
Inductive ExtKeyUsage := ExtKeyUsageServerAuth | ExtKeyUsageClientAuth.

Record Certificate := mkCert {
  SerialNumber : Z;
  CommonName : string;
  Organization : list string;
  NotBefore : Z;
  NotAfter : Z;
  c_KeyUsage : list KeyUsage;
  c_ExtKeyUsage : list ExtKeyUsage;
  DNSNames : list string;
  IPAddresses : list (list Byte.byte);
  BasicConstraintsValid : bool;
  IsCA : bool;
  MaxPathLenZero : bool;
}.

(** The zero certificate with these DNS names. *)
Definition sanCert (names : list string) : Certificate :=
  mkCert 0 "" [] 0 0 [] [] names [] false false false.

(** [peer.Peer.AuthInfo]: the verified chains of a TLS connection, or the
    credentials of another kind. *)
Inductive AuthInfo :=
  | TLSInfo (VerifiedChains : list (list Certificate)) (PeerCertificates : list Certificate)
  | OtherAuth.

Record Context := mkContext {
  ctx_eg : option NamespacedName;
  ctx_incoming : option (gmap string (list string));
  ctx_peer : option AuthInfo;
}.

Definition WithEG (ctx : Context) (eg : NamespacedName) : Context :=
  mkContext (Some eg) (ctx_incoming ctx) (ctx_peer ctx).

Definition FromContext (ctx : Context) : option NamespacedName := ctx_eg ctx.

Definition authorityFromIncomingContext (ctx : Context) : string :=
  match ctx_incoming ctx with
  | None => ""
  | Some md => match md !! ":authority" with Some (v :: _) => v | _ => "" end
  end.

Fixpoint firstSAN (names : list string) : option NamespacedName :=
  match names with
  | [] => None
  | dns :: rest => match ParseAuthority dns with Some eg => Some eg | None => firstSAN rest end
  end.

Definition FromPeerCert (cert : Certificate) : option NamespacedName := firstSAN (DNSNames cert).

Definition peerCertEG (ctx : Context) : option NamespacedName :=
  match ctx_peer ctx with
  | Some (TLSInfo ((leaf :: _) :: _) _) => FromPeerCert leaf
  | _ => None
  end.

(** ** Interceptors *)

Definition attach (eg : option NamespacedName) (ctx : Context) : Context :=
  match eg with Some e => WithEG ctx e | None => ctx end.

Definition LegacyAuthorityUnaryServerInterceptor {Req Resp} (ctx : Context) (req : Req)
    (handler : Context -> Req -> Resp) : Resp :=
  handler (attach (ParseAuthority (authorityFromIncomingContext ctx)) ctx) req.

Definition PeerCertUnaryServerInterceptor {Req Resp} (ctx : Context) (req : Req)
    (handler : Context -> Req -> Resp) : Resp :=
  handler (attach (peerCertEG ctx) ctx) req.

(** A server stream: its context and the messages behind it. *)
Record ServerStream (M : Type) := mkStream { ss_Context : Context; ss_messages : M }.
Arguments mkStream {M} _ _.
Arguments ss_Context {M} _.
Arguments ss_messages {M} _.

(** [wrappedStream]: the stream with its context replaced. *)
Definition wrappedStream {M} (ss : ServerStream M) (ctx : Context) : ServerStream M :=
  mkStream ctx (ss_messages ss).

Definition LegacyAuthorityStreamServerInterceptor {M Resp} (ss : ServerStream M)
    (handler : ServerStream M -> Resp) : Resp :=
  let ctx := ss_Context ss in
  match ParseAuthority (authorityFromIncomingContext ctx) with
  | Some eg => handler (wrappedStream ss (WithEG ctx eg))
  | None => handler ss
  end.

Definition PeerCertStreamServerInterceptor {M Resp} (ss : ServerStream M)
    (handler : ServerStream M -> Resp) : Resp :=
  let ctx := ss_Context ss in
  match peerCertEG ctx with
  | Some eg => handler (wrappedStream ss (WithEG ctx eg))
  | None => handler ss
  end.

(** [%q] of a string without special characters. *)
Definition quoted (s : string) : string := String "034" (s ++ String "034" "").

Definition noIdentityError : string :=
  "no EgressGateway identity on request — client certificate SAN did not match "
  ++ quoted ("*" ++ authoritySuffix) ++ " (or, under --insecure-grpc-no-mtls, :authority did not)".

Definition MustFromContext (ctx : Context) : outcome string NamespacedName :=
  match FromContext ctx with
  | Some eg => Ok eg
  | None => Err noIdentityError
  end.

(** ** The parser accepts what the printer writes, and nothing else *)

(** An identity the authority form can carry: its name has no dot. *)
Definition carried (eg : NamespacedName) : Prop :=
  nn_name eg <> "" /\ Count (nn_name eg) "." = 0%nat /\ nn_namespace eg <> "".

(** A port as [stripPort] cuts it. *)
Definition port_suffix (p : string) : Prop :=
  p = "" \/ exists digits, p = ":" ++ digits /\ Count digits ":" = 0%nat /\ Count digits "." = 0%nat.

(** A suffix without the separator lies behind the separator. *)
Lemma suffix_behind (c : ascii) s : forall t x y,
  t ++ s = x ++ String c y -> Count s c = 0%nat -> exists y', y = y' ++ s.
Proof.
  intros t x y. revert x. induction t as [|d t IH]; intros x Heq Hc.
  - change (s = x ++ String c y) in Heq. rewrite Heq, Count_app in Hc. cbn in Hc. rewrite Ascii.eqb_refl in Hc. lia.
  - destruct x as [|e x]; injection Heq as <- Heq; [|by apply (IH x)]. by exists t.
Qed.

Lemma split_at_colon x y :
  drop_str (String.length x + 1) (x ++ String ":" y) = y /\ take_str (String.length x) (x ++ String ":" y) = x.
Proof.
  split; [|apply take_str_app]. change (x ++ String ":" y) with (x ++ ":" ++ y).
  rewrite <- str_app_assoc. replace (_ + 1)%nat with (String.length (x ++ ":")) by by rewrite str_length_app.
  apply drop_str_app.
Qed.

Lemma stripPort_spec a t :
  stripPort a = t ++ authoritySuffix <-> exists p, a = (t ++ authoritySuffix) ++ p /\ port_suffix p.
Proof.
  unfold stripPort. split.
  - intros Hs. destruct (LastIndex a ":") as [i|] eqn:E.
    + apply LastIndex_char in E as (x & y & -> & <- & Hy). destruct (split_at_colon x y) as [Hd Ht].
      rewrite Hd, Ht, ContainsAny_char in Hs. destruct (Nat.eqb_spec (Count y ".") 0); cbn in Hs; rewrite <- Hs.
      * exists (String ":" y). split; [done|]. right. by exists y.
      * exists "". rewrite str_app_nil_r. split; [done|]. by left.
    + exists "". rewrite str_app_nil_r. split; [done|]. by left.
  - intros (p & -> & [->|(d & -> & Hc & Hd)]).
    + rewrite str_app_nil_r. destruct (LastIndex _ ":") as [i|] eqn:E; [|done].
      apply LastIndex_char in E as (x & y & Heq & <- & Hy).
      destruct (suffix_behind ":" authoritySuffix t x y Heq eq_refl) as [y' ->].
      rewrite Heq. destruct (split_at_colon x (y' ++ authoritySuffix)) as [-> _].
      rewrite ContainsAny_char, Count_app, (Nat.add_comm (Count y' _)). done.
    + change (":" ++ d) with (String ":" d).
      rewrite (proj2 (LastIndex_char ":" _ (String.length (t ++ authoritySuffix))))
        by (eexists _, d; done).
      destruct (split_at_colon (t ++ authoritySuffix) d) as [-> ->].
      by rewrite ContainsAny_char, Hd.
Qed.

Lemma length_zero s : String.length s = 0%nat -> s = "".
Proof. by destruct s. Qed.

Lemma split_prefix_spec p eg :
  match Index p "." with
  | None | Some O => None
  | Some dot => if Nat.eqb dot (String.length p - 1) then None
                else Some (mkNN (drop_str (dot + 1) p) (take_str dot p))
  end = Some eg <-> carried eg /\ p = nn_name eg ++ "." ++ nn_namespace eg.
Proof.
  assert (forall a b, drop_str (String.length a + 1) (a ++ String "." b) = b) as Hdrop.
  { intros a b. change (a ++ String "." b) with (a ++ "." ++ b). rewrite <- str_app_assoc.
    replace (_ + 1)%nat with (String.length (a ++ ".")) by by rewrite str_length_app. apply drop_str_app. }
  split.
  - destruct (Index p ".") as [dot|] eqn:E; [|done].
    apply Index_char in E as (a & b & -> & <- & Ha). rewrite Hdrop, take_str_app, str_length_app.
    destruct (String.length a) eqn:Hl; [done|]. cbn [String.length].
    destruct (Nat.eqb_spec (S n) (S n + S (String.length b) - 1)) as [|Hb]; [done|].
    intros [= <-]. split; [|done]. split_and!; cbn [nn_name nn_namespace]; [by intros ->|done|].
    intros ->. cbn in Hb. lia.
  - destruct eg as [ns n]. intros [(Hn & Hd & Hns) ->]. cbn [nn_name nn_namespace] in *.
    rewrite (proj2 (Index_char "." _ (String.length n))) by (eexists n, ns; done).
    change (n ++ "." ++ ns) with (n ++ String "." ns).
    rewrite Hdrop, take_str_app, str_length_app. cbn [String.length].
    destruct (String.length n) eqn:Hl; [by apply length_zero in Hl|].
    destruct (Nat.eqb_spec (S n0) (S n0 + S (String.length ns) - 1)) as [Hb|]; [|done].
    assert (String.length ns = 0%nat) as ?%length_zero by lia. done.
Qed.

Lemma ParseAuthority_spec (a : string) (eg : NamespacedName) :
  ParseAuthority a = Some eg <-> carried eg /\ exists p, a = AuthorityFor eg ++ p /\ port_suffix p.
Proof.
  unfold ParseAuthority. destruct (HasSuffix (stripPort a) authoritySuffix) eqn:Hs; cbn [negb].
  - apply HasSuffix_spec in Hs as [t Ht]. rewrite Ht, TrimSuffix_app, split_prefix_spec.
    pose proof Ht as (p & Ha & Hp)%stripPort_spec. unfold AuthorityFor. split.
    + intros [Hc ->]. split; [done|]. exists p. rewrite Ha. by rewrite !str_app_assoc.
    + intros [Hc (p' & Ha' & Hp')]. split; [done|].
      assert (stripPort a = (nn_name eg ++ "." ++ nn_namespace eg) ++ authoritySuffix) as Ht'.
      { apply stripPort_spec. exists p'. by rewrite Ha', !str_app_assoc. }
      rewrite Ht' in Ht. by apply str_app_inj_r in Ht.
  - split; [done|]. intros [_ (p & -> & Hp)].
    assert (stripPort (AuthorityFor eg ++ p) = (nn_name eg ++ "." ++ nn_namespace eg) ++ authoritySuffix) as Ht.
    { apply stripPort_spec. exists p. unfold AuthorityFor. by rewrite !str_app_assoc. }
    rewrite Ht in Hs. rewrite (proj2 (HasSuffix_spec _ _)) in Hs; [done|]. by eexists.
Qed.

(** The authority of a gateway and only that authority, with or without a
    port, is read back as that gateway: [ParseAuthority a] is [eg] exactly when
    [eg] has a name without a dot, neither part is empty, and [a] is
    [AuthorityFor eg] followed by nothing or by a colon and a tail with neither
    a colon nor a dot. No other string yields an identity. *)
Theorem authority_identifies (a : string) (eg : NamespacedName) :
  ParseAuthority a = Some eg <-> carried eg /\ exists p, a = AuthorityFor eg ++ p /\ port_suffix p.
Proof. apply ParseAuthority_spec. Qed.
(** ** The identity a handler sees *)

Lemma firstSAN_spec names eg :
  firstSAN names = Some eg <->
  exists pre dns post, names = (pre ++ dns :: post)%list
    /\ Forall (fun d => ParseAuthority d = None) pre /\ ParseAuthority dns = Some eg.
Proof.
  induction names as [|n names IH]; cbn [firstSAN].
  - split; [done|]. by intros ([|] & dns & post & [=] & _).
  - destruct (ParseAuthority n) as [e|] eqn:E.
    + split.
      * intros [= ->]. by exists [], n, names.
      * intros ([|x pre] & dns & post & [= <- ->] & Hf & Hd); [congruence|].
        apply Forall_cons in Hf as [Hx _]. congruence.
    + rewrite IH. split.
      * intros (pre & dns & post & -> & Hf & Hd). exists (n :: pre), dns, post. auto using Forall_cons_2.
      * intros ([|x pre] & dns & post & [= <- ->] & Hf & Hd); [congruence|].
        apply Forall_cons in Hf as [_ Hf]. by exists pre, dns, post.
Qed.

(** The gateway named by the first SAN of the verified leaf that names one. *)
Definition certified (ctx : Context) (eg : NamespacedName) : Prop :=
  exists leaf chain chains presented pre dns post,
    ctx_peer ctx = Some (TLSInfo ((leaf :: chain) :: chains) presented)
    /\ DNSNames leaf = (pre ++ dns :: post)%list
    /\ Forall (fun d => ParseAuthority d = None) pre /\ ParseAuthority dns = Some eg.

Lemma peerCertEG_spec ctx eg : peerCertEG ctx = Some eg <-> certified ctx eg.
Proof.
  unfold peerCertEG, certified, FromPeerCert. split.
  - destruct (ctx_peer ctx) as [[[|[|leaf chain] chains] presented|]|]; try done.
    intros (pre & dns & post & H)%firstSAN_spec. by exists leaf, chain, chains, presented, pre, dns, post.
  - intros (leaf & chain & chains & presented & pre & dns & post & -> & H).
    apply firstSAN_spec. by exists pre, dns, post.
Qed.

(** Under mutual TLS, for a call that reaches the interceptor without an
    identity, the identity the handler of a unary call or of a stream finds is
    exactly the one certified by the leaf of the first verified chain; in
    particular neither [:authority] nor a certificate that was presented but
    not verified counts, and a call without a certified identity is refused. *)
Theorem mtls_identity (ctx : Context) (eg : NamespacedName) :
  ctx_eg ctx = None ->
  (PeerCertUnaryServerInterceptor ctx tt (fun c _ => MustFromContext c) = Ok eg <-> certified ctx eg)
  /\ (PeerCertStreamServerInterceptor (mkStream ctx tt) (fun ss => MustFromContext (ss_Context ss)) = Ok eg
      <-> certified ctx eg).
Proof.
  intros Hn. unfold PeerCertUnaryServerInterceptor, PeerCertStreamServerInterceptor, MustFromContext, FromContext.
  cbn [ss_Context]. rewrite <- peerCertEG_spec. destruct (peerCertEG ctx) as [e|]; cbn.
  - split; split; congruence.
  - rewrite Hn. split; split; congruence.
Qed.

Definition demo_ctx : Context :=
  mkContext None (Some {[":authority" := ["victim.prod.eg.clrk.local"]]})
    (Some (TLSInfo [[sanCert ["localhost"; "llm.team.eg.clrk.local"]]] [sanCert ["victim.prod.eg.clrk.local"]])).

Lemma mtls_identity_witness :
  PeerCertUnaryServerInterceptor demo_ctx tt (fun c _ => MustFromContext c) = Ok (mkNN "team" "llm")
  /\ certified demo_ctx (mkNN "team" "llm").
Proof.
  split; [reflexivity|].
  apply (proj1 (mtls_identity demo_ctx (mkNN "team" "llm") eq_refl)). reflexivity.
Defined.

(** In the insecure mode the same call is taken for the gateway its header names. *)
Example legacy_identity_is_claimed :
  LegacyAuthorityUnaryServerInterceptor demo_ctx tt (fun c _ => MustFromContext c) = Ok (mkNN "prod" "victim").
Proof. reflexivity. Qed.

(** A gateway whose name has a dot is read back as another one. *)
Example dotted_name_misread :
  ParseAuthority (AuthorityFor (mkNN "team" "llm.prod")) = Some (mkNN "prod.team" "llm").
Proof. reflexivity. Qed.

(** The empty identity and a foreign suffix are refused. *)
Example no_identity :
  (ParseAuthority ".team.eg.clrk.local", ParseAuthority "llm..eg.clrk.local", ParseAuthority "clrk.svc:9443")
  = (None, None, None).
Proof. reflexivity. Qed.

End EgIdentity.
