(* ===== verification/CertProvider.v ===== *)
(** * Certificates

    [src/internal/egpki/pki.go] mints the control plane's key pairs;
    [src/internal/certprovider/server.go] serves a leaf certificate per
    gateway and server name, from two caches behind one mutex;
    [src/internal/controller/egressgateway_ca.go] names the CA of a gateway.

    Keys, signatures, DER and PEM are the operations of [Crypto]; the random
    reader is an argument of each call. A handler of the certificate service is
    cut at its critical sections, so that several can be interleaved. *)

From Stdlib Require Import ZArith Lia Ascii String List.
From stdpp Require Import base strings list gmap relations.
From S2P Require Import Prelude GoStrings ApiTypes Netip EgIdentity.
Import GoStrings ApiTypes EgIdentity.

Open Scope string_scope.
Open Scope Z_scope.
Open Scope list_scope.

Module CertProvider.

(** [crypto/ecdsa], [crypto/x509] and [encoding/pem]. *)
Class Crypto := {
  bytes : Type;
  isEmpty : bytes -> bool;
  PrivateKey : Type;
  PublicKey : Type;
  Public : PrivateKey -> PublicKey;
  GenerateKey : Z -> outcome string PrivateKey;
  RandInt128 : Z -> outcome string Z;
  CreateCertificate : Certificate -> Certificate -> PublicKey -> PrivateKey -> outcome string bytes;
  ParseCertificate : bytes -> outcome string Certificate;
  MarshalECPrivateKey : PrivateKey -> outcome string bytes;
  ParseECPrivateKey : bytes -> outcome string PrivateKey;
  EncodeToMemory : string -> bytes -> bytes;
  Decode : bytes -> option bytes;
}.

(** [fmt.Errorf("...: %w", err)]. *)
Definition wrapped {A} (msg : string) (m : outcome string A) : outcome string A :=
  match m with
  | Err e => Err (msg ++ ": " ++ e)%string
  | r => r
  end.

Definition blockOf {A} (o : option A) (msg : string) : outcome string A :=
  match o with Some b => Ok b | None => Err msg end.

Definition minute : Z := 60 * 1000000000.
Definition hour : Z := 60 * minute.

Section Certificates.
Context {CR : Crypto}.

(** ** Key pairs ([egpki/pki.go]) *)

Definition rootValidity : Z := 10 * 365 * 24 * hour.
Definition pkiLeafValidity : Z := 10 * 365 * 24 * hour.
Definition clockSkew : Z := 5 * minute.

Definition serialNumber (rnd : Z) : outcome string Z := RandInt128 rnd.

Definition encodeKeyPair (der : bytes) (key : PrivateKey) : outcome string (bytes * bytes) :=
  let certPEM := EncodeToMemory "CERTIFICATE" der in
  let! keyDER := wrapped "marshalling key" (MarshalECPrivateKey key) in
  Ok (certPEM, EncodeToMemory "EC PRIVATE KEY" keyDER).

Definition MintRootCA (now rnd : Z) (commonName : string) : outcome string (bytes * bytes) :=
  let! key := wrapped "generating key" (GenerateKey rnd) in
  let! serial := wrapped "generating serial" (serialNumber rnd) in
  let tmpl := {| SerialNumber := serial; CommonName := commonName; Organization := ["clrk"];
                 NotBefore := now - clockSkew; NotAfter := now + rootValidity;
                 c_KeyUsage := [KeyUsageCertSign; KeyUsageDigitalSignature; KeyUsageCRLSign];
                 c_ExtKeyUsage := []; DNSNames := []; IPAddresses := [];
                 BasicConstraintsValid := true; IsCA := true; MaxPathLenZero := true |} in
  let! der := wrapped "signing certificate" (CreateCertificate tmpl tmpl (Public key) key) in
  encodeKeyPair der key.

Definition parseParent (parentCertPEM parentKeyPEM : bytes) : outcome string (Certificate * PrivateKey) :=
  let! cb := blockOf (Decode parentCertPEM) "decoding parent certificate PEM" in
  let! parent := wrapped "parsing parent certificate" (ParseCertificate cb) in
  let! kb := blockOf (Decode parentKeyPEM) "decoding parent key PEM" in
  let! key := wrapped "parsing parent key" (ParseECPrivateKey kb) in
  Ok (parent, key).

Definition signLeaf (now rnd : Z) (tmpl : Certificate) (parentCertPEM parentKeyPEM : bytes)
    : outcome string (bytes * bytes) :=
  let! (parent, parentKey) := parseParent parentCertPEM parentKeyPEM in
  let! key := wrapped "generating key" (GenerateKey rnd) in
  let! serial := wrapped "generating serial" (serialNumber rnd) in
  let tmpl := mkCert serial (CommonName tmpl) (Organization tmpl) (now - clockSkew) (now + pkiLeafValidity)
                (c_KeyUsage tmpl) (c_ExtKeyUsage tmpl) (DNSNames tmpl) (IPAddresses tmpl)
                (BasicConstraintsValid tmpl) (IsCA tmpl) (MaxPathLenZero tmpl) in
  let! der := wrapped "signing certificate" (CreateCertificate tmpl parent (Public key) parentKey) in
  encodeKeyPair der key.

Definition MintServerCert (now rnd : Z) (parentCertPEM parentKeyPEM : bytes) (dnsNames : list string)
    (ips : list (list Byte.byte)) : outcome string (bytes * bytes) :=
  signLeaf now rnd
    (mkCert 0 "clrk control-plane server" ["clrk"] 0 0 [KeyUsageDigitalSignature; KeyUsageKeyEncipherment]
       [ExtKeyUsageServerAuth] dnsNames ips true false false)
    parentCertPEM parentKeyPEM.

Definition MintEGClientCert (now rnd : Z) (parentCertPEM parentKeyPEM : bytes) (eg : NamespacedName)
    : outcome string (bytes * bytes) :=
  let authority := AuthorityFor eg in
  signLeaf now rnd
    (mkCert 0 authority ["clrk"] 0 0 [KeyUsageDigitalSignature] [ExtKeyUsageClientAuth] [authority] []
       true false false)
    parentCertPEM parentKeyPEM.

Definition EgressGatewayCASecretName (egName : string) : string := ("clrk-egressgateway-ca-" ++ egName)%string.

Definition MintEgressGatewayCA (now rnd : Z) (namespace name : string) : outcome string (bytes * bytes) :=
  MintRootCA now rnd ("clrk EgressGateway " ++ namespace ++ "/" ++ name)%string.

(** ** The certificate service ([certprovider/server.go]) *)

Definition leafValidity : Z := 1 * hour.
Definition caCacheTTL : Z := 1 * minute.

Record cachedCA := mkCA { ca_cert : Certificate; ca_key : PrivateKey; fetchedAt : Z }.
Definition leafKey : Type := string * string * string.
Record cachedLeaf := mkLeaf { l_certPEM : bytes; l_keyPEM : bytes; expires : Z }.

Record Server := mkServer {
  caCache : gmap NamespacedName cachedCA;
  leafCache : gmap leafKey cachedLeaf;
}.

Definition New : Server := mkServer ∅ ∅.

Inductive CertificateResponse :=
  | SUCCESS (chainPEM keyPEM : bytes) (cacheTTL : Z)
  | ERROR (msg : string).

Definition successResponse := SUCCESS.
Definition errorResponse := ERROR.

(** [net.ParseIP]. *)
Definition ParseIP (s : string) : option (list Byte.byte) :=
  match ParseAddr s with
  | Some (Addr6 v z) => if String.eqb z "" then Some (As16 (Addr6 v z)) else None
  | Some a => Some (As16 a)
  | None => None
  end.

Definition leafTemplate (serial : Z) (sni : string) (now notAfter : Z) : Certificate :=
  let ip := ParseIP sni in
  {| SerialNumber := serial; CommonName := sni; Organization := [];
     NotBefore := now - 5 * minute; NotAfter := notAfter;
     c_KeyUsage := [KeyUsageDigitalSignature; KeyUsageKeyEncipherment];
     c_ExtKeyUsage := [ExtKeyUsageServerAuth];
     DNSNames := match ip with Some _ => [] | None => [sni] end;
     IPAddresses := match ip with Some b => [b] | None => [] end;
     BasicConstraintsValid := true; IsCA := false; MaxPathLenZero := false |}.

Definition mintLeaf (rnd : Z) (ca : cachedCA) (sni : string) (now : Z) : outcome string (bytes * bytes * Z) :=
  let! key := wrapped "generating key" (GenerateKey rnd) in
  let! serial := wrapped "generating serial" (RandInt128 rnd) in
  let notAfter := now + leafValidity in
  let! der := wrapped "signing leaf"
                (CreateCertificate (leafTemplate serial sni now notAfter) (ca_cert ca) (Public key) (ca_key ca)) in
  let certPEM := EncodeToMemory "CERTIFICATE" der in
  let! keyDER := wrapped "marshal key" (MarshalECPrivateKey key) in
  Ok (certPEM, EncodeToMemory "EC PRIVATE KEY" keyDER, notAfter).

(** A Secret is its data; reading one can fail. *)
Definition Secret : Type := gmap string bytes.
Definition secretKey (eg : NamespacedName) : NamespacedName :=
  mkNN (nn_namespace eg) (EgressGatewayCASecretName (nn_name eg)).
Definition nnString (n : NamespacedName) : string := (nn_namespace n ++ "/" ++ nn_name n)%string.

(** An absent key reads as no bytes. *)
Definition dataOf (sec : Secret) (k : string) : option bytes :=
  match sec !! k with Some b => if isEmpty b then None else Some b | None => None end.

Definition missingPair (secKey : NamespacedName) : string :=
  ("secret " ++ nnString secKey ++ " missing tls.crt or tls.key")%string.

(** The signing pair a Secret holds. *)
Definition parseCA (secKey : NamespacedName) (sec : Secret) : outcome string (Certificate * PrivateKey) :=
  match dataOf sec "tls.crt", dataOf sec "tls.key" with
  | Some certPEM, Some keyPEM =>
      let! certBlock := blockOf (Decode certPEM) "decoding CA cert PEM" in
      let! caCert := wrapped "parse CA cert" (ParseCertificate certBlock) in
      let! keyBlock := blockOf (Decode keyPEM) "decoding CA key PEM" in
      let! caKey := wrapped "parse CA key" (ParseECPrivateKey keyBlock) in
      Ok (caCert, caKey)
  | _, _ => Err (missingPair secKey)
  end.

(** The part of [loadCA] between its two critical sections. *)
Definition fetchCA (get : NamespacedName -> outcome string Secret) (key : NamespacedName) (now : Z)
    : outcome string cachedCA :=
  let secKey := secretKey key in
  let! sec := wrapped ("get secret " ++ nnString secKey)%string (get secKey) in
  let! (caCert, caKey) := parseCA secKey sec in
  Ok (mkCA caCert caKey now).

Definition freshCA (s : Server) (key : NamespacedName) (now : Z) : option cachedCA :=
  match caCache s !! key with
  | Some hit => if now - fetchedAt hit <? caCacheTTL then Some hit else None
  | None => None
  end.

Definition loadCA (get : NamespacedName -> outcome string Secret) (key : NamespacedName) (now : Z) (s : Server)
    : outcome string (cachedCA * Server) :=
  match freshCA s key now with
  | Some hit => Ok (hit, s)
  | None =>
      let! entry := fetchCA get key now in
      Ok (entry, mkServer (<[key := entry]> (caCache s)) (leafCache s))
  end.

Definition leafKeyOf (eg : NamespacedName) (sni : string) : leafKey := (nn_namespace eg, nn_name eg, sni).

Definition freshLeaf (s : Server) (lk : leafKey) (now : Z) : option cachedLeaf :=
  match leafCache s !! lk with
  | Some hit => if now + 5 * minute <? expires hit then Some hit else None
  | None => None
  end.

Definition storeLeaf (lk : leafKey) (l : cachedLeaf) (s : Server) : Server :=
  mkServer (caCache s) (<[lk := l]> (leafCache s)).

Definition FetchCertificate (get : NamespacedName -> outcome string Secret) (now rnd : Z) (ctx : Context)
    (sni : string) (s : Server) : outcome string (CertificateResponse * Server) :=
  if String.eqb sni "" then Ok (errorResponse "missing SNI", s)
  else
    match MustFromContext ctx with
    | Err e => Ok (errorResponse e, s)
    | Panic => Panic
    | Ok egKey =>
        let lk := leafKeyOf egKey sni in
        match freshLeaf s lk now with
        | Some hit => Ok (successResponse (l_certPEM hit) (l_keyPEM hit) (expires hit - now), s)
        | None =>
            match loadCA get egKey now s with
            | Err e => Ok (errorResponse ("load CA: " ++ e)%string, s)
            | Panic => Panic
            | Ok (ca, s1) =>
                match mintLeaf rnd ca sni now with
                | Err e => Ok (errorResponse ("mint leaf: " ++ e)%string, s1)
                | Panic => Panic
                | Ok (certPEM, keyPEM, notAfter) =>
                    Ok (successResponse certPEM keyPEM (notAfter - now),
                        storeLeaf lk (mkLeaf certPEM keyPEM notAfter) s1)
                end
            end
        end
    end.

(** ** Handlers that run at the same time

    A call in flight, at one of the points where it is about to take the mutex
    or to work without it. *)
Inductive call :=
  | Lookup (now : Z) (eg : NamespacedName) (sni : string)
  | CheckCA (now : Z) (eg : NamespacedName) (sni : string)
  | ReadSecret (now : Z) (eg : NamespacedName) (sni : string)
  | StoreCA (now : Z) (eg : NamespacedName) (sni : string) (entry : cachedCA)
  | Mint (now : Z) (eg : NamespacedName) (sni : string) (ca : cachedCA)
  | StoreLeaf (now : Z) (eg : NamespacedName) (sni : string) (certPEM keyPEM : bytes) (notAfter : Z)
  | Done (now : Z) (eg : NamespacedName) (sni : string) (resp : CertificateResponse)
  | Crashed.

Definition stepCall (get : NamespacedName -> outcome string Secret) (rnd : Z) (c : call) (s : Server)
    : call * Server :=
  match c with
  | Lookup now eg sni =>
      match freshLeaf s (leafKeyOf eg sni) now with
      | Some hit => (Done now eg sni (successResponse (l_certPEM hit) (l_keyPEM hit) (expires hit - now)), s)
      | None => (CheckCA now eg sni, s)
      end
  | CheckCA now eg sni =>
      match freshCA s eg now with
      | Some hit => (Mint now eg sni hit, s)
      | None => (ReadSecret now eg sni, s)
      end
  | ReadSecret now eg sni =>
      match fetchCA get eg now with
      | Ok entry => (StoreCA now eg sni entry, s)
      | Err e => (Done now eg sni (errorResponse ("load CA: " ++ e)%string), s)
      | Panic => (Crashed, s)
      end
  | StoreCA now eg sni entry => (Mint now eg sni entry, mkServer (<[eg := entry]> (caCache s)) (leafCache s))
  | Mint now eg sni ca =>
      match mintLeaf rnd ca sni now with
      | Ok (certPEM, keyPEM, notAfter) => (StoreLeaf now eg sni certPEM keyPEM notAfter, s)
      | Err e => (Done now eg sni (errorResponse ("mint leaf: " ++ e)%string), s)
      | Panic => (Crashed, s)
      end
  | StoreLeaf now eg sni certPEM keyPEM notAfter =>
      (Done now eg sni (successResponse certPEM keyPEM (notAfter - now)),
       storeLeaf (leafKeyOf eg sni) (mkLeaf certPEM keyPEM notAfter) s)
  | Done _ _ _ _ | Crashed => (c, s)
  end.

Fixpoint runCall (n : nat) (get : NamespacedName -> outcome string Secret) (rnd : Z) (c : call) (s : Server)
    : call * Server :=
  match n with
  | O => (c, s)
  | S n => let '(c', s') := stepCall get rnd c s in runCall n get rnd c' s'
  end.

(** Run alone, the pieces are the handler: six of them are enough. *)
Lemma FetchCertificate_pieces get now rnd ctx sni s eg :
  sni <> "" -> FromContext ctx = Some eg ->
  match runCall 6 get rnd (Lookup now eg sni) s with
  | (Done _ _ _ resp, s') => FetchCertificate get now rnd ctx sni s = Ok (resp, s')
  | (Crashed, s') => FetchCertificate get now rnd ctx sni s = Panic
  | _ => False
  end.
Proof.
  intros Hsni Hctx. unfold FetchCertificate, MustFromContext. rewrite Hctx.
  apply String.eqb_neq in Hsni. rewrite Hsni. unfold loadCA. cbn [runCall stepCall].
  destruct (freshLeaf s _ now) as [hit|]; [done|]. cbn [stepCall runCall].
  destruct (freshCA s eg now) as [hit|]; cbn [stepCall].
  - destruct (mintLeaf rnd hit sni now) as [[[c k] n]| |]; done.
  - destruct (fetchCA get eg now) as [e| |]; [|done..]. cbn [stepCall runCall obind].
    destruct (mintLeaf rnd e sni now) as [[[c k] n]| |]; done.
Qed.

(** The Secrets as they change over time, and the calls in flight: a call
    starts at the current time, and one makes its next step at any later time. *)
Variable secrets : Z -> NamespacedName -> outcome string Secret.

Definition config : Type := Z * Server * list call.

Inductive step : config -> config -> Prop :=
  | step_start T T' s cs eg sni :
      T <= T' -> step (T, s, cs) (T', s, cs ++ [Lookup T' eg sni])
  | step_call T T' s cs i c c' s' rnd :
      T <= T' -> cs !! i = Some c -> stepCall (secrets T') rnd c s = (c', s') ->
      step (T, s, cs) (T', s', <[i := c']> cs).

(** A call running alone is one of the interleavings. *)
Lemma runCall_steps T rnd n : forall c s,
  rtc step (T, s, [c]) (T, (runCall n (secrets T) rnd c s).2, [(runCall n (secrets T) rnd c s).1]).
Proof.
  induction n as [|n IH]; intros c s; [apply rtc_refl|]. cbn [runCall].
  destruct (stepCall (secrets T) rnd c s) as [c' s'] eqn:E.
  eapply rtc_l; [eapply (step_call T T s [c] 0%nat); [lia|done|exact E]|]. apply IH.
Qed.

(** The signing pair was in the gateway's Secret at or after [fetchedAt]. *)
Definition authenticCA (eg : NamespacedName) (ca : cachedCA) : Prop :=
  exists t sec, fetchedAt ca <= t /\ secrets t (secretKey eg) = Ok sec
    /\ parseCA (secretKey eg) sec = Ok (ca_cert ca, ca_key ca).

(** The leaf was minted for this name at [minted], by a pair of this gateway
    that had been read less than the CA cache's bound before. *)
Definition authenticLeaf (eg : NamespacedName) (sni : string) (minted : Z) (certPEM keyPEM : bytes) : Prop :=
  exists ca rnd, authenticCA eg ca /\ minted - fetchedAt ca < caCacheTTL
    /\ mintLeaf rnd ca sni minted = Ok (certPEM, keyPEM, minted + leafValidity).

Definition call_ok (c : call) : Prop :=
  match c with
  | StoreCA now eg _ ca | Mint now eg _ ca => authenticCA eg ca /\ now - fetchedAt ca < caCacheTTL
  | StoreLeaf now eg sni certPEM keyPEM notAfter =>
      notAfter = now + leafValidity /\ authenticLeaf eg sni now certPEM keyPEM
  | Done now eg sni (SUCCESS certPEM keyPEM ttl) =>
      5 * minute < ttl /\ authenticLeaf eg sni (now + ttl - leafValidity) certPEM keyPEM
  | _ => True
  end.

(** When a call runs, its start is not in the future. *)
Definition call_started (T : Z) (c : call) : Prop :=
  match c with
  | Lookup now _ _ | CheckCA now _ _ | ReadSecret now _ _ | StoreCA now _ _ _ | Mint now _ _ _
  | StoreLeaf now _ _ _ _ _ | Done now _ _ _ => now <= T
  | Crashed => True
  end.

Record inv (cf : config) : Prop := {
  inv_ca : forall eg ca, caCache (cf.1.2) !! eg = Some ca -> authenticCA eg ca;
  inv_leaf : forall ns name sni l, leafCache (cf.1.2) !! (ns, name, sni) = Some l ->
    authenticLeaf (mkNN ns name) sni (expires l - leafValidity) (l_certPEM l) (l_keyPEM l);
  inv_calls : Forall (fun c => call_ok c /\ call_started (cf.1.1) c) cf.2;
}.

Lemma fetchCA_authentic T now eg ca :
  now <= T -> fetchCA (secrets T) eg now = Ok ca -> authenticCA eg ca /\ now - fetchedAt ca < caCacheTTL.
Proof.
  unfold fetchCA. intros HT (sec & Hs & (p & Hp & H)%obind_Ok_inv)%obind_Ok_inv.
  destruct p as [crt key]. injection H as <-. cbn. split; [|unfold caCacheTTL, minute; lia].
  exists T, sec. cbn. split_and!; [done| |done]. by destruct (secrets T _); cbn in Hs.
Qed.

Lemma mintLeaf_notAfter rnd ca sni now c k n :
  mintLeaf rnd ca sni now = Ok (c, k, n) -> n = now + leafValidity.
Proof.
  unfold mintLeaf. intros H. repeat (apply obind_Ok_inv in H as (? & _ & H)). by injection H.
Qed.

Lemma wrapped_Ok {A} msg (m : outcome string A) a : wrapped msg m = Ok a -> m = Ok a.
Proof. by destruct m. Qed.

(** One step keeps the call and both caches authentic. *)
Lemma stepCall_ok T rnd c s c' s' cs :
  inv (T, s, cs) -> call_ok c -> call_started T c ->
  stepCall (secrets T) rnd c s = (c', s') ->
  call_ok c' /\ call_started T c' /\ inv (T, s', cs).
Proof.
  intros [Hca Hleaf Hcs] Hc Ht Hstep. cbn in Hca, Hleaf, Hcs.
  destruct c as [now eg sni|now eg sni|now eg sni|now eg sni ca|now eg sni ca|now eg sni crt key na|now eg sni r|];
    cbn [stepCall] in Hstep.
  - unfold freshLeaf in Hstep. destruct (leafCache s !! _) as [l|] eqn:El; [|by simplify_eq].
    destruct (Z.ltb_spec (now + 5 * minute) (expires l)); [|by simplify_eq]. injection Hstep as <- <-.
    split_and!; [|done..]. cbn. split; [lia|]. apply Hleaf in El. destruct eg as [ns name].
    by replace (now + (expires l - now) - leafValidity) with (expires l - leafValidity) by lia.
  - unfold freshCA in Hstep. destruct (caCache s !! eg) as [ca|] eqn:Ec; [|by simplify_eq].
    destruct (Z.ltb_spec (now - fetchedAt ca) caCacheTTL); [|by simplify_eq]. injection Hstep as <- <-.
    split_and!; [|done..]. cbn. eauto.
  - destruct (fetchCA (secrets T) eg now) as [ca| |] eqn:Ef; injection Hstep as <- <-; [|by split_and!..].
    split_and!; [|done..]. by apply fetchCA_authentic in Ef.
  - injection Hstep as <- <-. split_and!; [done..|]. split; cbn; [|done..].
    intros eg' ca' [[<- <-]|[_ H]]%lookup_insert_Some; [by apply Hc|eauto].
  - destruct (mintLeaf rnd ca sni now) as [[[crt key] na]| |] eqn:Em; injection Hstep as <- <-; [|by split_and!..].
    split_and!; [|done..]. pose proof (mintLeaf_notAfter _ _ _ _ _ _ _ Em) as ->. cbn. split; [done|].
    exists ca, rnd. by destruct Hc.
  - injection Hstep as <- <-. destruct Hc as [-> Hl]. split_and!; [|done|].
    + cbn. replace (now + leafValidity - now) with leafValidity by lia.
      split; [unfold leafValidity, hour, minute; lia|].
      by replace (now + leafValidity - leafValidity) with now by lia.
    + split; cbn; [done| |done]. destruct eg as [ns0 name0].
      intros ns name sni' l [[Hk <-]|[_ H]]%lookup_insert_Some; [|eauto]. injection Hk as <- <- <-. cbn.
      by replace (now + leafValidity - leafValidity) with now by lia.
  - by injection Hstep as <- <-.
  - by injection Hstep as <- <-.
Qed.

Lemma started_mono T T' c : T <= T' -> call_started T c -> call_started T' c.
Proof. destruct c; cbn; lia. Qed.

Lemma inv_later T T' s cs : T <= T' -> inv (T, s, cs) -> inv (T', s, cs).
Proof.
  intros HT [Hca Hl Hcs]. split; [done..|]. cbn in *. eapply Forall_impl; [exact Hcs|].
  intros c [Hc Hs]. split; [done|]. by eapply started_mono.
Qed.

Lemma cert_step_inv cf cf' : inv cf -> step cf cf' -> inv cf'.
Proof.
  intros Hi Hs. destruct Hs as [T T' s cs eg sni HT|T T' s cs i c c' s' rnd HT Hi' Hstep];
    apply (inv_later _ _ _ _ HT) in Hi.
  - destruct Hi as [Hca Hl Hcs]. split; [done..|]. cbn in *. apply Forall_app. split; [done|].
    repeat constructor. cbn. lia.
  - pose proof (inv_calls _ Hi) as Hcs. cbn in Hcs. pose proof (Forall_lookup_1 _ _ _ _ Hcs Hi') as [Hc Ht].
    destruct (stepCall_ok _ _ _ _ _ _ _ Hi Hc Ht Hstep) as (Hc' & Ht' & [Hca Hl _]).
    split; [done..|]. cbn in *. apply Forall_insert; auto.
Qed.

(** C11: however the handlers of the certificate service interleave and however
    the Secrets change, a successful answer to a call that arrived at [now]
    for [sni] from [eg] carries a leaf for exactly that name, signed by a pair
    that the CA Secret of exactly that gateway held at some time less than 56
    minutes before the call, or later; the leaf outlives the call by the
    advertised time to live, which is more than five minutes. *)
Theorem served_leaf_authentic T0 T s cs now eg sni certPEM keyPEM ttl :
  rtc step (T0, New, []) (T, s, cs) ->
  Done now eg sni (SUCCESS certPEM keyPEM ttl) ∈ cs ->
  5 * minute < ttl /\
  exists t sec caCert caKey key serial der keyDER,
    now - 56 * minute < t
    /\ secrets t (secretKey eg) = Ok sec /\ parseCA (secretKey eg) sec = Ok (caCert, caKey)
    /\ CreateCertificate (leafTemplate serial sni (now + ttl - leafValidity) (now + ttl)) caCert (Public key) caKey = Ok der
    /\ certPEM = EncodeToMemory "CERTIFICATE" der
    /\ MarshalECPrivateKey key = Ok keyDER /\ keyPEM = EncodeToMemory "EC PRIVATE KEY" keyDER.
Proof.
  intros Hrun Hin.
  assert (inv (T, s, cs)) as Hi.
  { revert Hrun. generalize (T, s, cs) as cf. intros cf Hrun.
    assert (inv (T0, New, [])) as H0 by (split; [done..|constructor]).
    revert H0. induction Hrun; eauto using cert_step_inv. }
  pose proof (inv_calls _ Hi) as Hcs. cbn in Hcs. rewrite Forall_forall in Hcs.
  destruct (Hcs _ Hin) as [[Httl (ca & rnd & (t & sec & Ht & Hsec & Hp) & Hage & Hm)] _]. split; [done|].
  unfold mintLeaf in Hm. apply obind_Ok_inv in Hm as (key & _ & Hm). apply obind_Ok_inv in Hm as (serial & _ & Hm).
  apply obind_Ok_inv in Hm as (der & Hd%wrapped_Ok & Hm). apply obind_Ok_inv in Hm as (kd & Hk%wrapped_Ok & Hm).
  injection Hm as <- <-.
  exists t, sec, (ca_cert ca), (ca_key ca), key, serial, der, kd. split_and!; try done.
  - unfold leafValidity, caCacheTTL, hour in *. lia.
  - by replace (now + ttl - leafValidity + leafValidity) with (now + ttl) in Hd by lia.
Qed.

(** ** A minted client certificate identifies its gateway *)

(** What signing and PEM encoding promise: the parsed certificate has the
    template's names, and decoding inverts encoding. *)
Class CryptoLaws : Prop := {
  create_parse : forall tmpl parent pub key der, CreateCertificate tmpl parent pub key = Ok der ->
    exists c, ParseCertificate der = Ok c /\ DNSNames c = DNSNames tmpl;
  decode_encode : forall ty b, Decode (EncodeToMemory ty b) = Some b;
}.

(** A client certificate minted for a gateway is, once verified, the
    identity the handlers see: for a gateway with a name without a dot, the
    minted pair decodes to a certificate under which a call on behalf of that
    gateway, and no other, is served, whatever its [:authority]. *)
Theorem client_cert_identity {CL : CryptoLaws} now rnd pc pk eg certPEM keyPEM :
  MintEGClientCert now rnd pc pk eg = Ok (certPEM, keyPEM) -> carried eg ->
  exists der c, Decode certPEM = Some der /\ ParseCertificate der = Ok c
    /\ forall incoming presented chain chains eg',
         PeerCertUnaryServerInterceptor
           (mkContext None incoming (Some (TLSInfo ((c :: chain) :: chains) presented))) tt
           (fun ctx _ => MustFromContext ctx) = Ok eg' <-> eg' = eg.
Proof.
  unfold MintEGClientCert, signLeaf. intros H Hc. apply obind_Ok_inv in H as ([parent pkey] & _ & H).
  apply obind_Ok_inv in H as (key & _ & H). apply obind_Ok_inv in H as (serial & _ & H).
  apply obind_Ok_inv in H as (der & Hd%wrapped_Ok & H). apply obind_Ok_inv in H as (kd & _ & H). injection H as <- <-.
  destruct (create_parse _ _ _ _ _ Hd) as (c & Hp & Hn). cbn in Hn.
  exists der, c. split_and!; [apply decode_encode|done|]. intros inc pres chain chains eg'.
  unfold PeerCertUnaryServerInterceptor, peerCertEG, FromPeerCert. cbn [ctx_peer]. rewrite Hn. cbn [firstSAN].
  rewrite (proj2 (ParseAuthority_spec (AuthorityFor eg) eg)); [cbn; split; congruence|].
  split; [done|]. exists "". rewrite str_app_nil_r. split; [done|]. by left.
Qed.

End Certificates.

(** ** A run *)

Inductive demoBytes :=
  | DEmpty
  | DCert (c : Certificate) (signer : Z)
  | DKey (k : Z)
  | DPem (type : string) (b : demoBytes).

Definition demoCrypto : Crypto := {|
  bytes := demoBytes;
  isEmpty := fun b => match b with DEmpty => true | _ => false end;
  PrivateKey := Z; PublicKey := Z; Public := fun k => k;
  GenerateKey := fun r => Ok r;
  RandInt128 := fun r => Ok r;
  CreateCertificate := fun tmpl _ _ key => Ok (DCert tmpl key);
  ParseCertificate := fun b => match b with DCert c _ => Ok c | _ => Err "x509: malformed certificate" end;
  MarshalECPrivateKey := fun k => Ok (DKey k);
  ParseECPrivateKey := fun b => match b with DKey k => Ok k | _ => Err "x509: malformed key" end;
  EncodeToMemory := DPem;
  Decode := fun b => match b with DPem _ d => Some d | _ => None end;
|}.

#[local] Existing Instance demoCrypto.

Lemma demoLaws : CryptoLaws (CR := demoCrypto).
Proof. split; [|done]. intros tmpl parent pub key der [= <-]. by exists tmpl. Qed.

Definition demoSecret (k : Z) : Secret :=
  {["tls.crt" := DPem "CERTIFICATE" (DCert (sanCert []) k); "tls.key" := DPem "EC PRIVATE KEY" (DKey k)]}.

(** The Secret of [team/llm] is replaced two minutes in. *)
Definition demoSecrets (t : Z) (n : NamespacedName) : outcome string Secret :=
  if bool_decide (n = mkNN "team" "clrk-egressgateway-ca-llm")
  then Ok (demoSecret (if t <? 2 * minute then 7 else 8)) else Err "not found".

Definition demoEG : NamespacedName := mkNN "team" "llm".

Definition demoEnd : call * Server := runCall 6 (demoSecrets 10) 5 (Lookup 10 demoEG "api.example.com") New.

Lemma demo_run : rtc (step demoSecrets) (0, New, []) (10, demoEnd.2, [demoEnd.1]).
Proof.
  eapply rtc_l; [apply (step_start _ 0 10 _ _ demoEG "api.example.com"); lia|]. apply runCall_steps.
Qed.

Lemma served_leaf_authentic_witness :
  exists certPEM keyPEM, 5 * minute < hour
    /\ exists t sec caCert caKey key serial der keyDER, 10 - 56 * minute < t
    /\ demoSecrets t (secretKey demoEG) = Ok sec /\ parseCA (secretKey demoEG) sec = Ok (caCert, caKey)
    /\ CreateCertificate (leafTemplate serial "api.example.com" (10 + hour - leafValidity) (10 + hour)) caCert
         (Public key) caKey = Ok der
    /\ certPEM = EncodeToMemory "CERTIFICATE" der
    /\ MarshalECPrivateKey key = Ok keyDER /\ keyPEM = EncodeToMemory "EC PRIVATE KEY" keyDER.
Proof.
  eexists _, _. eapply (served_leaf_authentic demoSecrets 0 10 _ _ 10 demoEG "api.example.com"); [exact demo_run|].
  apply list_elem_of_singleton. vm_compute. reflexivity.
Defined.

Lemma client_cert_identity_witness :
  exists der c, Decode (DPem "CERTIFICATE" der) = Some der /\ ParseCertificate der = Ok c
    /\ PeerCertUnaryServerInterceptor (mkContext None None (Some (TLSInfo [[c]] []))) tt
         (fun ctx _ => MustFromContext ctx) = Ok demoEG.
Proof.
  destruct (MintEGClientCert (CR := demoCrypto) 100 5 (DPem "" (DCert (sanCert []) 7)) (DPem "" (DKey 7)) demoEG) as [[cp kp]| |] eqn:E;
    [|discriminate E..].
  destruct (client_cert_identity (CR := demoCrypto) (CL := demoLaws) 100 5 _ _ demoEG cp kp E) as (der & c & Hd & Hp & H).
  { by vm_compute. }
  exists der, c. split_and!; [reflexivity|exact Hp|]. by apply H.
Defined.

(** The CA behind an answer: the key that signed the leaf. *)
Definition signer (r : outcome string (CertificateResponse * Server)) : option Z :=
  match r with Ok (SUCCESS (DPem _ (DCert _ k)) _ _, _) => Some k | _ => None end.

Definition demoFetch (t : Z) (s : Server) : outcome string (CertificateResponse * Server) :=
  FetchCertificate (demoSecrets t) t 5 (mkContext (Some demoEG) None None) "api.example.com" s.

Definition serverAfter (r : outcome string (CertificateResponse * Server)) : Server :=
  match r with Ok (_, s) => s | _ => New end.

(** Fifty minutes after the Secret was replaced, the old CA still signs the
    answer for a name that was asked for before; a new name gets the new one. *)
Example rotated_ca_still_served :
  let s := serverAfter (demoFetch minute New) in
  (signer (demoFetch minute New), signer (demoFetch (52 * minute) s), signer (demoFetch (57 * minute) s))
  = (Some 7, Some 7, Some 8).
Proof. reflexivity. Qed.

(** Every error answers, and leaves no leaf behind. *)
Example fetch_errors :
  (FetchCertificate (demoSecrets 0) 0 5 (mkContext None None None) "" New,
   FetchCertificate (demoSecrets 0) 0 5 (mkContext (Some (mkNN "team" "other")) None None) "x" New)
  = (Ok (ERROR "missing SNI", New),
     Ok (ERROR "load CA: get secret team/clrk-egressgateway-ca-other: not found", New)).
Proof. reflexivity. Qed.

End CertProvider.
