(* ===== verification/Xds.v ===== *)
(** * Envoy configuration

    The messages of Envoy's configuration API that
    [src/internal/egextension/server.go] and [llm.go] read and write, with the
    fields they set or read. A field the code never touches is part of the
    message's [rest] and carried along.

    [anypb] is a parameter: a packed message is an [Any], [New] packs and can
    fail, [Unmarshal] unpacks. *)

From Stdlib Require Import ZArith Ascii String List.
From stdpp Require Import base strings list.
From S2P Require Import Prelude.

Open Scope string_scope.
Open Scope Z_scope.
Open Scope list_scope.

Module Xds.

Inductive DnsLookupFamily := AUTO | V4_ONLY | V6_ONLY | V4_PREFERRED | ALL.

#[export] Instance DnsLookupFamily_eq_dec : EqDecision DnsLookupFamily.
Proof. solve_decision. Defined.

Record DnsCacheConfig := mkDnsCache { dc_Name : string; dc_Family : DnsLookupFamily }.

(** [ChannelCredentials.SslCredentials], by the files it names. *)
Record ChannelCredentials := mkCreds { RootCerts : string; PrivateKeyFile : string; CertChain : string }.

(** A [GrpcService] with a [GoogleGrpc] target. *)
Record GrpcService := mkGrpc {
  TargetUri : string;
  StatPrefix : string;
  g_Creds : option ChannelCredentials;
  default_authority : option string;        (* the channel argument *)
  g_Timeout : option Z;
  InitialMetadata : list (string * string);
}.

Inductive HeaderSendMode := MODE_DEFAULT | SEND | SKIP.
Inductive BodySendMode := BODY_NONE | BODY_STREAMED | BODY_BUFFERED | BODY_BUFFERED_PARTIAL.

Record ProcessingMode := mkProcessing {
  RequestHeaderMode : HeaderSendMode;
  ResponseHeaderMode : HeaderSendMode;
  RequestBodyMode : BodySendMode;
  ResponseBodyMode : BodySendMode;
  RequestTrailerMode : HeaderSendMode;
  ResponseTrailerMode : HeaderSendMode;
}.

(** [ext_proc.v3.ExternalProcessor]; [MutationRules] by its [AllowAllRouting]. *)
Record ExternalProcessor := mkExtProc {
  ep_Grpc : option GrpcService;
  ep_Mode : option ProcessingMode;
  AllowModeOverride : bool;
  MessageTimeout : option Z;
  RequestAttributes : list string;
  MutationRules : option (option bool);
  ForwardingNamespaces : list string;
  ReceivingNamespaces : list string;
  ep_rest : string;
}.

Inductive NetworkMode := N_SKIP | N_STREAMED.

Record NetworkExternalProcessor := mkNetExtProc {
  np_Grpc : GrpcService;
  FailureModeAllow : bool;
  ProcessRead : NetworkMode;
  ProcessWrite : NetworkMode;
  np_MessageTimeout : Z;
  np_StatPrefix : string;
  np_Forwarding : list string;
}.

(** ** Routes *)

Record RetryPolicy := mkRetryPolicy {
  RetryOn : string;
  rp_NumRetries : Z;
  rp_Codes : list Z;
  RetryPriority : string;                   (* previous_priorities, by name *)
  RetryHostPredicate : list string;
  HostSelectionRetryMaxAttempts : Z;
  rp_PerTryTimeout : option Z;
}.

(** A route: a path prefix, exact header matches, one cluster. *)
Record Route := mkRoute {
  rt_Name : string;
  rt_Prefix : string;
  rt_Headers : list (string * string);
  RequestHeadersToRemove : list string;
  rt_Cluster : string;
  AutoHostRewrite : bool;
  rt_Timeout : Z;
  rt_Retry : option RetryPolicy;
  RequestBodyBufferLimit : option Z;
}.

Record VirtualHost := mkVHost { vh_Name : string; Domains : list string; vh_Routes : list Route }.
Record RouteConfiguration := mkRouteConfig { rc_Name : string; VirtualHosts : list VirtualHost }.

(** ** TLS contexts *)

Record HandshakerConfig := mkHandshaker {
  hk_Grpc : GrpcService;
  hk_Timeout : Z;
  CacheTtl : Z;
  CacheMaxEntries : Z;
  FailOnError : bool;
  Authority : string;
}.

(** [UpstreamTlsContext]: SNI pinned or taken from the host, the trust bundle and
    the exact SANs accepted. *)
Record UpstreamTlsContext := mkUpstreamTls {
  Sni : string;
  AutoHostSni : bool;
  up_Alpn : list string;
  TrustedCa : string;
  MatchSANs : list string;
}.

(** ** Messages with packed messages inside *)

Section Packed.
Variable Any : Type.

Record CommonTlsContext := mkCommonTls {
  AlpnProtocols : list string;
  CustomHandshaker : option (string * Any);
  ct_rest : string;
}.
Record DownstreamTlsContext := mkDownstreamTls { dt_Common : option CommonTlsContext; dt_rest : string }.

Record TransportSocket := mkTS { ts_Name : string; ts_Config : option Any }.

Record HttpFilter := mkHttpFilter { hf_Name : string; hf_Config : option Any }.

Record HttpConnectionManager := mkHcm {
  HttpFilters : list HttpFilter;
  RouteConfig : option RouteConfiguration;
  AccessLog : list (string * Any);
  hcm_rest : string;
}.

Record Filter := mkFilter { f_Name : string; f_Config : option Any }.
Record FilterChain := mkChain {
  fc_Name : string;
  fc_Filters : list Filter;
  fc_Socket : option TransportSocket;
  fc_rest : string;
}.
Record ListenerFilter := mkListenerFilter { lf_Name : string; lf_Config : option Any }.
Record Listener := mkListenerMsg {
  ln_Name : string;
  ListenerFilters : list ListenerFilter;
  FilterChains : list FilterChain;
  DefaultFilterChain : option FilterChain;
  ln_rest : string;
}.

(** [HttpProtocolOptions]: h2 and h1 by ALPN, and the upstream filter chain. *)
Record HttpProtocolOptions := mkHttpOptions {
  AutoSni : bool;
  AutoSanValidation : bool;
  AutoConfig : bool;
  ho_Filters : list HttpFilter;
}.

(** ** Clusters *)

Inductive DiscoveryType :=
  | STRICT_DNS
  | ORIGINAL_DST
  | CustomClusterType (name : string) (cfg : Any)
  | OtherDiscovery (name : string).

Inductive LbPolicyKind := ROUND_ROBIN | CLUSTER_PROVIDED.

(** Endpoint metadata: per namespace its string fields. *)
Record LbEndpoint := mkEndpoint {
  ep_Address : string;
  ep_Port : Z;
  ep_Metadata : list (string * list (string * string));
  LoadBalancingWeight : option Z;
}.
Record LocalityLbEndpoints := mkLocality { loc_Priority : Z; LbEndpoints : list LbEndpoint }.

Record OutlierDetection := mkOutlier {
  Consecutive5xx : Z;
  BaseEjectionTime : Z;
  MaxEjectionPercent : Z;
  od_MaxEjectionTime : option Z;
}.

Inductive SubsetFallback := NO_FALLBACK | ANY_ENDPOINT.
Record LbSubsetConfig := mkSubset { ss_Fallback : SubsetFallback; ss_Selectors : list (list string * SubsetFallback) }.

Record SocketMatch := mkSocketMatch { sm_Name : string; sm_Match : list (string * string); sm_Socket : TransportSocket }.

Record Cluster := mkCluster {
  cl_Name : string;
  ConnectTimeout : Z;
  Discovery : DiscoveryType;
  cl_Family : DnsLookupFamily;
  RespectDnsTtl : bool;
  DnsRefreshRate : option Z;
  DnsFailureRefreshRate : option (Z * Z);
  LbPolicy : LbPolicyKind;
  cl_Subset : option LbSubsetConfig;
  cl_Outlier : option OutlierDetection;
  LoadAssignment : option (string * list LocalityLbEndpoints);
  cl_Socket : option TransportSocket;
  TransportSocketMatches : list SocketMatch;
  ProtocolOptions : list (string * Any);
  cl_rest : string;
}.

(** ** What can be packed *)

Inductive message :=
  | MHcm (m : HttpConnectionManager)
  | MExtProc (m : ExternalProcessor)
  | MNetExtProc (m : NetworkExternalProcessor)
  | MDownstreamTls (m : DownstreamTlsContext)
  | MUpstreamTls (m : UpstreamTlsContext)
  | MHandshaker (m : HandshakerConfig)
  | MDfpFilter (m : DnsCacheConfig)
  | MSniDfp (port : Z) (m : DnsCacheConfig)
  | MTcpProxy (statPrefix cluster : string)
  | MDfpCluster (m : DnsCacheConfig)
  | MHttpOptions (m : HttpProtocolOptions)
  | MProxyProtocol (rules : list (Z * string * string))   (* TLV type, metadata namespace, key *)
  | MTlsInspector
  | MFileAccessLog (path format : string)
  | MUpstreamCodec
  | MOther (typeUrl : string) (value : string).

End Packed.

Arguments mkCommonTls {Any}.
Arguments AlpnProtocols {Any}. Arguments CustomHandshaker {Any}. Arguments ct_rest {Any}.
Arguments mkDownstreamTls {Any}. Arguments dt_Common {Any}. Arguments dt_rest {Any}.
Arguments mkTS {Any}. Arguments ts_Name {Any}. Arguments ts_Config {Any}.
Arguments mkHttpFilter {Any}. Arguments hf_Name {Any}. Arguments hf_Config {Any}.
Arguments mkHcm {Any}. Arguments HttpFilters {Any}. Arguments RouteConfig {Any}.
Arguments AccessLog {Any}. Arguments hcm_rest {Any}.
Arguments mkFilter {Any}. Arguments f_Name {Any}. Arguments f_Config {Any}.
Arguments mkChain {Any}. Arguments fc_Name {Any}. Arguments fc_Filters {Any}.
Arguments fc_Socket {Any}. Arguments fc_rest {Any}.
Arguments mkListenerFilter {Any}. Arguments lf_Name {Any}. Arguments lf_Config {Any}.
Arguments mkListenerMsg {Any}. Arguments ln_Name {Any}. Arguments ListenerFilters {Any}.
Arguments FilterChains {Any}. Arguments DefaultFilterChain {Any}. Arguments ln_rest {Any}.
Arguments mkHttpOptions {Any}. Arguments ho_Filters {Any}.
Arguments STRICT_DNS {Any}. Arguments ORIGINAL_DST {Any}.
Arguments CustomClusterType {Any}. Arguments OtherDiscovery {Any}.
Arguments mkSocketMatch {Any}. Arguments sm_Name {Any}. Arguments sm_Match {Any}. Arguments sm_Socket {Any}.
Arguments mkCluster {Any}. Arguments cl_Name {Any}. Arguments LoadAssignment {Any}.
Arguments Discovery {Any}. Arguments cl_Socket {Any}. Arguments TransportSocketMatches {Any}.
Arguments cl_Family {Any}. Arguments cl_Outlier {Any}. Arguments cl_Subset {Any}. Arguments ProtocolOptions {Any}.
Arguments MHcm {Any}. Arguments MExtProc {Any}. Arguments MNetExtProc {Any}. Arguments MDownstreamTls {Any}.
Arguments MUpstreamTls {Any}. Arguments MHandshaker {Any}. Arguments MDfpFilter {Any}. Arguments MSniDfp {Any}.
Arguments MTcpProxy {Any}. Arguments MDfpCluster {Any}. Arguments MHttpOptions {Any}. Arguments MProxyProtocol {Any}.
Arguments MTlsInspector {Any}. Arguments MFileAccessLog {Any}. Arguments MUpstreamCodec {Any}. Arguments MOther {Any}.

(** ** [anypb] *)

(** [fmt.Errorf("...: %w", err)]. *)
Definition wrapped {A} (msg : string) (m : outcome string A) : outcome string A :=
  match m with
  | Err e => Err (msg ++ ": " ++ e)%string
  | r => r
  end.


Class AnyPb (Any : Type) := {
  New : message Any -> outcome string Any;
  Unmarshal : Any -> outcome string (message Any);
}.

(** A packed message unpacks to itself, and every message can be packed. *)
Class AnyPbLaws (Any : Type) {PB : AnyPb Any} : Prop := {
  unmarshal_new : forall m a, New m = Ok a -> Unmarshal a = Ok m;
  new_total : forall m, exists a, New m = Ok a;
}.

(** Replace every packing in the goal by the packed message. *)
Ltac pack_all :=
  repeat match goal with
  | |- context [New ?m] => let a := fresh "packed" in let E := fresh "Epacked" in
                           destruct (new_total m) as [a E]; rewrite E; cbn [wrapped obind]
  end.

Definition mismatched : string := "proto: mismatched message type".

(** [UnmarshalTo] a connection manager, an ext_proc filter and a TLS context. *)
Definition toHcm {Any} {PB : AnyPb Any} (a : Any) : outcome string (HttpConnectionManager Any) :=
  let! m := Unmarshal a in match m with MHcm h => Ok h | _ => Err mismatched end.
Definition toExtProc {Any} {PB : AnyPb Any} (a : Any) : outcome string ExternalProcessor :=
  let! m := Unmarshal a in match m with MExtProc e => Ok e | _ => Err mismatched end.
Definition toDownstreamTls {Any} {PB : AnyPb Any} (a : Any) : outcome string (DownstreamTlsContext Any) :=
  let! m := Unmarshal a in match m with MDownstreamTls t => Ok t | _ => Err mismatched end.

(** A packed message that is the message. *)
Inductive Packed := Pack (m : message Packed).

#[export] Instance packed_anypb : AnyPb Packed := {
  New := fun m => Ok (Pack m);
  Unmarshal := fun a => match a with Pack m => Ok m end;
}.

#[export] Instance packed_laws : AnyPbLaws Packed.
Proof. split; [by intros m a [= <-]|]. intros m. by eexists. Qed.

End Xds.
