(* ===== verification/LlmXds.v ===== *)
(** * Synthesised LLM routes and clusters

    [src/internal/egextension/llm.go]: for every AIProviderRoute rule with
    servable backends, one Envoy route selected by the pin header that the
    external processor sets, and one cluster whose endpoints are the rule's
    candidates; with the parts of [src/internal/egextension/server.go] they
    use (the channel towards the controller manager, the DNS family).

    The API server is a parameter: one snapshot of the objects a call reads. *)

From Stdlib Require Import ZArith Lia Ascii String List.
From stdpp Require Import base strings list gmap sets pretty.
From S2P Require Import Prelude GoStrings ApiTypes Registry Admission LlmRoute EgIdentity Xds ExtMut Upstream Downstream.
Import GoStrings ApiTypes LlmRoute EgIdentity Xds.

Open Scope string_scope.
Open Scope Z_scope.
Open Scope list_scope.

Module LlmXds.

(** ** The server's settings and its channel to the controller manager *)

Definition clientCertChainPath : string := "/etc/clrk/client/tls.crt".
Definition clientPrivKeyPath : string := "/etc/clrk/client/tls.key".
Definition clientServerCABundlePath : string := "/etc/clrk/ca/ca.crt".
Definition tlsTransportSocketName : string := "envoy.transport_sockets.tls".
Definition extProcFilterName : string := "envoy.filters.http.ext_proc".
Definition second : Z := 1000000000.
Definition defaultExtProcTimeout : Z := 30 * second.

Record settings := mkSettings {
  CertProviderTargetURI : string;
  ExtProcTargetURI : string;
  mtls : bool;
  advertiseHost : string;
}.

Definition clientChannelCreds (s : settings) : option ChannelCredentials :=
  if mtls s then Some (mkCreds clientServerCABundlePath clientPrivKeyPath clientCertChainPath) else None.

Definition channelAuthorityFor (s : settings) (eg : NamespacedName) : string :=
  if mtls s then advertiseHost s else AuthorityFor eg.

(** ** The objects a call reads *)

Record api := mkApi {
  GetEG : NamespacedName -> option EgressGatewaySpec;
  ListRoutes : option (list AIProviderRoute);
  ListBackends : option (list Backend);
  ListPolicies : option (list FallbackRoutingPolicy);
}.

Definition defaultDnsLookupFamily : DnsLookupFamily := V4_PREFERRED.

Definition envoyDnsLookupFamily (f : string) : DnsLookupFamily :=
  if String.eqb f "V4Preferred" then V4_PREFERRED
  else if String.eqb f "V4Only" then V4_ONLY
  else if String.eqb f "V6Only" then V6_ONLY
  else if String.eqb f "Auto" then AUTO
  else if String.eqb f "All" then ALL
  else defaultDnsLookupFamily.

Definition lookupFamilyFor (client : option api) (key : NamespacedName) : DnsLookupFamily :=
  match client with
  | None => defaultDnsLookupFamily
  | Some c =>
      match GetEG c key with
      | None => defaultDnsLookupFamily
      | Some spec => match eg_DNS spec with
                     | None => defaultDnsLookupFamily
                     | Some d => envoyDnsLookupFamily (LookupFamily d)
                     end
      end
  end.

(** ** The rule set of a gateway *)

Definition upstreamCodecFilterName : string := "envoy.filters.http.upstream_codec".
Definition extprocRoleMetadataKey : string := "x-clrk-extproc-role".
Definition extprocRoleUpstream : string := "upstream".
Definition llmDNSRefreshRate : Z := 5 * 60 * second.
Definition llmDNSFailureRefreshBase : Z := 1 * second.
Definition llmDNSFailureRefreshMax : Z := 10 * second.
Definition llmRetryMaxAttempts : Z := 5.
Definition llmBaseEjectionTime : Z := 30 * second.
Definition SubsetKeyBackend : string := "clrk_backend_name".

Record llmRule := mkLlmRule {
  lr_key : string;
  lr_candidates : list Candidate;
  lr_fallback : option FallbackRoutingPolicy;
}.

Record llmConfig := mkLlmConfig {
  lc_rules : list llmRule;
  requestTimeout : Z;
  lookupFamily : DnsLookupFamily;
}.

Fixpoint servableCandidates (cands : list Candidate) : list Candidate :=
  match cands with
  | [] => []
  | c :: rest => if c_Refuse c || String.eqb (c_Host c) "" then servableCandidates rest
                 else c :: servableCandidates rest
  end.

Section Rules.
Context (reg : Registry.registry) (sha256_hex12 : string -> string).

(** [seen] and the rules appended so far. *)
Definition acc : Type := gset string * list llmRule.

Definition addMatch (eg : NamespacedName) (r : AIProviderRoute) (fallback : option FallbackRoutingPolicy)
    (ruleIdx : nat) (resolved : list Candidate) (st : acc) (m : AIProviderRouteMatch) : acc :=
  let prov := CanonicalProvider reg (ApiTypes.Provider m) in
  let rk := RuleKey sha256_hex12 eg (metaKey (apr_Meta r)) ruleIdx prov in
  if bool_decide (rk ∈ st.1) then st
  else match servableCandidates (TranslatableCandidates reg resolved prov) with
       | [] => st
       | cands => ({[rk]} ∪ st.1, st.2 ++ [mkLlmRule rk cands fallback])
       end.

Definition addRule (eg : NamespacedName) (byKey : gmap NamespacedName Backend) (r : AIProviderRoute)
    (fallback : option FallbackRoutingPolicy) (st : acc) (ir : nat * AIProviderRouteRule) : acc :=
  let resolved := ResolveCandidates reg (ar_BackendRefs ir.2) (Namespace (apr_Meta r)) byKey in
  match resolved with
  | [] => st
  | _ => fold_left (addMatch eg r fallback ir.1 resolved) (ar_Matches ir.2) st
  end.

Definition addRoute (eg : NamespacedName) (byKey : gmap NamespacedName Backend)
    (policies : list FallbackRoutingPolicy) (st : acc) (r : AIProviderRoute) : acc :=
  if negb (RouteAttachesTo r (nn_namespace eg) (nn_name eg)) then st
  else fold_left (addRule eg byKey r (FallbackFor policies (Namespace (apr_Meta r)) (Name (apr_Meta r))))
         (imap pair (apr_Rules (apr_Spec r))) st.

Definition collectRules (eg : NamespacedName) (routes : list AIProviderRoute) (bes : list Backend)
    (policies : list FallbackRoutingPolicy) : list llmRule :=
  (fold_left (addRoute eg (IndexBackends bes) policies) routes (∅, [])).2.

(** The stored configuration is the returned one: the caller stores it. *)
Definition llmConfigFor (client : option api) (eg : NamespacedName) : llmConfig :=
  let family := lookupFamilyFor client eg in
  match client with
  | None => mkLlmConfig [] Admission.DefaultEgressRequestTimeout family
  | Some c =>
      let timeout := match GetEG c eg with
                     | Some spec => Admission.EffectiveRequestTimeout spec
                     | None => Admission.DefaultEgressRequestTimeout
                     end in
      match ListRoutes c, ListBackends c, ListPolicies c with
      | Some routes, Some bes, Some policies => mkLlmConfig (collectRules eg routes bes policies) timeout family
      | _, _, _ => mkLlmConfig [] timeout family
      end
  end.

End Rules.

(** ** Routes *)

Definition buildLLMRetryPolicy (rule : llmRule) : RetryPolicy :=
  let retry := match lr_fallback rule with Some p => Retry (frp_Spec p) | None => None end in
  let numRetries := Z.min (Z.of_nat (length (lr_candidates rule)) - 1) llmRetryMaxAttempts in
  let numRetries := match retry with
                    | Some r => match NumRetries r with
                                | Some n => if 0 <=? n then n else numRetries
                                | None => numRetries
                                end
                    | None => numRetries
                    end in
  let codes := match retry with
               | Some r => match RetriableStatusCodes r with [] => [429; 503] | cs => map uint32 cs end
               | None => [429; 503]
               end in
  {| RetryOn := "connect-failure,refused-stream,reset,retriable-status-codes";
     rp_NumRetries := uint32 numRetries;
     rp_Codes := codes;
     RetryPriority := "envoy.retry_priorities.previous_priorities";
     RetryHostPredicate := ["envoy.retry_host_predicates.previous_hosts"];
     HostSelectionRetryMaxAttempts := 5;
     rp_PerTryTimeout := match retry with
                         | Some r => match PerTryTimeout r with
                                     | Some d => if 0 <? d then Some d else None
                                     | None => None
                                     end
                         | None => None
                         end |}.

Definition buildLLMRoutes (cfg : llmConfig) : list Route :=
  map (fun rule =>
         {| rt_Name := ClusterName (lr_key rule);
            rt_Prefix := "/";
            rt_Headers := [(Downstream.PinHeader, lr_key rule)];
            RequestHeadersToRemove := [Downstream.PinHeader];
            rt_Cluster := ClusterName (lr_key rule);
            AutoHostRewrite := false;
            rt_Timeout := requestTimeout cfg;
            rt_Retry := match lr_fallback rule with Some _ => Some (buildLLMRetryPolicy rule) | None => None end;
            RequestBodyBufferLimit := Some Downstream.RetryBodyBufferBytes |}) (lc_rules cfg).

(** ** Clusters *)

Definition buildLLMOutlierDetection (fallback : option FallbackRoutingPolicy) : OutlierDetection :=
  let base := mkOutlier 5 llmBaseEjectionTime 100 None in
  match fallback with
  | None => base
  | Some p =>
      match Ejection (frp_Spec p) with
      | None => base
      | Some e =>
          match MaxEjectionTime e with
          | None => base
          | Some maxEject =>
              mkOutlier 5 (if maxEject <? llmBaseEjectionTime then maxEject else llmBaseEjectionTime) 100
                (Some maxEject)
          end
      end
  end.

Section Clusters.
Context {Any : Type} {PB : AnyPb Any}.

Definition buildLLMEndpointTLS (c : Candidate) : outcome string Any :=
  New (MUpstreamTls {| Sni := c_Host c; AutoHostSni := false; up_Alpn := ["h2"; "http/1.1"];
                       TrustedCa := "/etc/ssl/certs/ca-certificates.crt"; MatchSANs := [c_Host c] |}).

Definition buildLLMUpstreamExtProcFilter (targetURI authority : string) (creds : option ChannelCredentials)
    : outcome string (HttpFilter Any) :=
  let! a := wrapped "marshal upstream ext_proc filter" (New (MExtProc
    {| ep_Grpc := Some {| TargetUri := targetURI; StatPrefix := "clrk_ext_proc_upstream"; g_Creds := creds;
                          default_authority := Some authority; g_Timeout := Some defaultExtProcTimeout;
                          InitialMetadata := [(extprocRoleMetadataKey, extprocRoleUpstream)] |};
       ep_Mode := Some (mkProcessing SEND SKIP BODY_BUFFERED BODY_NONE SKIP SKIP);
       AllowModeOverride := false;
       MessageTimeout := Some (5 * second);
       RequestAttributes := [Upstream.upstreamHostMetadataAttr];
       MutationRules := Some (Some true);
       ForwardingNamespaces := []; ReceivingNamespaces := []; ep_rest := "" |})) in
  Ok (mkHttpFilter extProcFilterName (Some a)).

Definition buildLLMUpstreamHTTPOptions (s : settings) (key : NamespacedName) : outcome string Any :=
  let! extProc := buildLLMUpstreamExtProcFilter (ExtProcTargetURI s) (channelAuthorityFor s key)
                    (clientChannelCreds s) in
  let! codecAny := wrapped "marshal upstream codec" (New MUpstreamCodec) in
  New (MHttpOptions {| AutoSni := false; AutoSanValidation := false; AutoConfig := true;
                       ho_Filters := [extProc; mkHttpFilter upstreamCodecFilterName (Some codecAny)] |}).

Definition tsMatchKey (c : Candidate) : string := (c_Namespace c ++ "/" ++ c_Name c)%string.

Definition endpointOf (c : Candidate) : LbEndpoint :=
  {| ep_Address := c_Host c; ep_Port := uint32 (c_Port c);
     ep_Metadata :=
       [("envoy.lb", [(SubsetKeyBackend, c_Name c)]);
        ("envoy.transport_socket_match", [("clrk_tls", tsMatchKey c)]);
        (Upstream.EndpointMetaNamespace,
           [("backend_namespace", c_Namespace c); ("backend_name", c_Name c); ("schema", c_System c);
            ("host", c_Host c); ("port", pretty (c_Port c))])];
     LoadBalancingWeight := None |}.

Definition withWeight (w : Z) (e : LbEndpoint) : LbEndpoint :=
  mkEndpoint (ep_Address e) (ep_Port e) (ep_Metadata e) (Some (uint32 w)).

(** The tiers and the flat locality under construction, the socket matches and
    the default TLS context. *)
Record building := mkBuilding {
  b_localities : list LocalityLbEndpoints;
  b_flat : list LbEndpoint;
  b_matches : list (SocketMatch Any);
  b_default : option Any;
}.

Definition addCandidate (fallback : bool) (b : building) (ic : nat * Candidate) : outcome string building :=
  let '(i, c) := ic in
  let! tlsAny := wrapped ("endpoint TLS for backend " ++ tsMatchKey c)%string (buildLLMEndpointTLS c) in
  let default := match b_default b with None => Some tlsAny | d => d end in
  let tsMatches := b_matches b ++
    [mkSocketMatch ("tls-" ++ pretty i)%string [("clrk_tls", tsMatchKey c)]
       (mkTS tlsTransportSocketName (Some tlsAny))] in
  let ep := endpointOf c in
  Ok (if fallback
      then mkBuilding (b_localities b ++ [mkLocality (uint32 (Z.of_nat i)) [ep]]) (b_flat b) tsMatches default
      else if c_Weight c <=? 0 then mkBuilding (b_localities b) (b_flat b) tsMatches default
      else mkBuilding (b_localities b) (b_flat b ++ [withWeight (c_Weight c) ep]) tsMatches default).

Fixpoint addCandidates (fallback : bool) (b : building) (l : list (nat * Candidate)) : outcome string building :=
  match l with
  | [] => Ok b
  | ic :: rest => let! b' := addCandidate fallback b ic in addCandidates fallback b' rest
  end.

Definition buildLLMCluster (s : settings) (rule : llmRule) (key : NamespacedName) (family : DnsLookupFamily)
    : outcome string (Cluster Any) :=
  let fallback := match lr_fallback rule with Some _ => true | None => false end in
  let! b := addCandidates fallback (mkBuilding [] [] [] None) (imap pair (lr_candidates rule)) in
  let localities := if fallback then b_localities b else [mkLocality 0 (b_flat b)] in
  let! httpOptsAny := buildLLMUpstreamHTTPOptions s key in
  Ok {| cl_Name := ClusterName (lr_key rule);
        ConnectTimeout := 5 * second;
        Discovery := STRICT_DNS;
        cl_Family := family;
        RespectDnsTtl := true;
        DnsRefreshRate := Some llmDNSRefreshRate;
        DnsFailureRefreshRate := Some (llmDNSFailureRefreshBase, llmDNSFailureRefreshMax);
        LbPolicy := ROUND_ROBIN;
        cl_Subset := Some (mkSubset ANY_ENDPOINT [([SubsetKeyBackend], NO_FALLBACK)]);
        cl_Outlier := Some (buildLLMOutlierDetection (lr_fallback rule));
        LoadAssignment := Some (ClusterName (lr_key rule), localities);
        cl_Socket := Some (mkTS tlsTransportSocketName (b_default b));
        TransportSocketMatches := b_matches b;
        ProtocolOptions := [("envoy.extensions.upstreams.http.v3.HttpProtocolOptions", httpOptsAny)];
        cl_rest := "" |}.

End Clusters.

(** ** The synthesised rules are the rules ext_proc pins to *)

Lemma servableCandidates_viable cands : servableCandidates cands = ExtMut.viableOf cands.
Proof.
  induction cands as [|c cands IH]; [done|]. cbn [servableCandidates]. rewrite IH.
  unfold ExtMut.viableOf. cbn [List.filter]. by destruct (c_Refuse c), (String.eqb (c_Host c) "").
Qed.

Section Synthesis.
Context (reg : Registry.registry) (sha256_hex12 : string -> string).
Context (eg : NamespacedName).

(** The key a request is pinned by, the rule's servable backends and the policy
    of its route. *)
Definition keyOf (rr : routeRule) : string :=
  RuleKey sha256_hex12 eg (mkNN (routeNamespace rr) (routeName rr)) (ruleIdx rr) (provider rr).

Definition ruleOf (policies : list FallbackRoutingPolicy) (rr : routeRule) : llmRule :=
  mkLlmRule (keyOf rr) (ExtMut.viableOf (backends rr)) (FallbackFor policies (routeNamespace rr) (routeName rr)).

(** The first rule of each key, among those with a candidate. *)
Fixpoint firstByKey (seen : gset string) (l : list llmRule) : list llmRule :=
  match l with
  | [] => []
  | r :: rest =>
      if bool_decide (lr_key r ∈ seen) then firstByKey seen rest
      else match lr_candidates r with
           | [] => firstByKey seen rest
           | _ => r :: firstByKey ({[lr_key r]} ∪ seen) rest
           end
  end.

Definition keep (st : acc) (r : llmRule) : acc :=
  if bool_decide (lr_key r ∈ st.1) then st
  else match lr_candidates r with
       | [] => st
       | _ => ({[lr_key r]} ∪ st.1, st.2 ++ [r])
       end.

Lemma fold_keep l : forall st, (fold_left keep l st).2 = st.2 ++ firstByKey st.1 l.
Proof.
  induction l as [|r l IH]; intros [seen out]; cbn [fold_left firstByKey]; [by rewrite app_nil_r|].
  rewrite IH. unfold keep. cbn [fst snd]. destruct (bool_decide _); [done|].
  destruct (lr_candidates r); cbn; [done|]. by rewrite <- app_assoc.
Qed.

Lemma addMatch_keep policies byKey r i rule st m :
  addMatch reg sha256_hex12 eg r (FallbackFor policies (Namespace (apr_Meta r)) (Name (apr_Meta r))) i
    (ResolveCandidates reg (ar_BackendRefs rule) (Namespace (apr_Meta r)) byKey) st m
  = keep st (ruleOf policies (entryOf reg byKey r i rule m)).
Proof.
  unfold addMatch, keep, ruleOf, keyOf, entryOf, metaKey. cbn [lr_key lr_candidates routeNamespace routeName ruleIdx provider backends].
  rewrite servableCandidates_viable. destruct (bool_decide _); [done|]. by destruct (ExtMut.viableOf _).
Qed.

Lemma keep_none l : forall st, Forall (fun r => lr_candidates r = []) l -> fold_left keep l st = st.
Proof.
  induction l as [|r l IH]; intros st; [done|]. intros [Hr Hl]%Forall_cons. cbn [fold_left].
  rewrite IH by done. unfold keep. rewrite Hr. by destruct (bool_decide _).
Qed.

Lemma addRule_keep policies byKey r st i rule :
  addRule reg sha256_hex12 eg byKey r (FallbackFor policies (Namespace (apr_Meta r)) (Name (apr_Meta r))) st (i, rule)
  = fold_left keep (map (ruleOf policies) (compileRule reg byKey r i rule)) st.
Proof.
  unfold addRule, compileRule. cbn [fst snd].
  change (map _ (ar_Matches rule)) with (map (entryOf reg byKey r i rule) (ar_Matches rule)). rewrite map_map.
  destruct (ResolveCandidates reg (ar_BackendRefs rule) (Namespace (apr_Meta r)) byKey) as [|c cs] eqn:E.
  - symmetry. apply keep_none. apply Forall_forall. intros x (m & <- & _)%list_elem_of_In%in_map_iff.
    unfold ruleOf, entryOf. cbn [lr_candidates backends]. rewrite E. unfold TranslatableCandidates. by destruct (_ || _).
  - rewrite <- E. clear E. generalize (ar_Matches rule) as ms. intros ms. revert st.
    induction ms as [|m ms IH]; intros st; [done|]. cbn [fold_left map]. by rewrite addMatch_keep, IH.
Qed.

Lemma fold_concat {A B C} (step : A -> B -> A) (f : C -> list B) (g : A -> C -> A) :
  (forall a c, g a c = fold_left step (f c) a) ->
  forall l a, fold_left g l a = fold_left step (flat_map f l) a.
Proof.
  intros H l. induction l as [|c l IH]; intros a; [done|]. cbn [fold_left flat_map].
  by rewrite H, IH, fold_left_app.
Qed.

Lemma flat_map_imap {A B} (f : nat -> A -> list B) l :
  flat_map (fun p : nat * A => f p.1 p.2) (imap pair l) = concat (imap f l).
Proof. rewrite flat_map_concat_map. f_equal. exact (fmap_imap pair (fun p : nat * A => f p.1 p.2) l). Qed.

Lemma synthesis_table routes bes policies :
  collectRules reg sha256_hex12 eg routes bes policies
  = firstByKey ∅ (map (ruleOf policies) (buildRouteTable reg (nn_namespace eg) (nn_name eg) routes bes)).
Proof.
  unfold collectRules, buildRouteTable.
  set (f := fun r : AIProviderRoute => if RouteAttachesTo r (nn_namespace eg) (nn_name eg) then _ else _).
  rewrite (fold_concat keep (fun r => map (ruleOf policies) (f r))).
  - rewrite fold_keep. cbn [fst snd app]. f_equal. rewrite !flat_map_concat_map, concat_map, map_map. done.
  - intros st r. unfold addRoute, f. destruct (RouteAttachesTo r _ _); [|done]. cbn [negb].
    rewrite (fold_concat keep (fun p => map (ruleOf policies) (compileRule reg (IndexBackends bes) r p.1 p.2))).
    + rewrite (flat_map_imap (fun i rule => map (ruleOf policies) (compileRule reg (IndexBackends bes) r i rule))).
      rewrite concat_map. f_equal. f_equal. symmetry. exact (fmap_imap _ (map (ruleOf policies)) _).
    + intros a [i rule]. apply addRule_keep.
Qed.

(** What the extension server synthesises for a gateway is the rule table of
    the external processor, one rule per pin key: the first with a servable
    backend. *)
Theorem synthesis_refines_table routes bes policies :
  collectRules reg sha256_hex12 eg routes bes policies
  = firstByKey ∅ (map (ruleOf policies) (buildRouteTable reg (nn_namespace eg) (nn_name eg) routes bes)).
Proof. apply synthesis_table. Qed.

Lemma firstByKey_nodup l : forall seen,
  NoDup (map lr_key (firstByKey seen l)) /\ Forall (fun r => lr_key r ∉ seen /\ lr_candidates r <> []) (firstByKey seen l).
Proof.
  induction l as [|r l IH]; intros seen; cbn [firstByKey]; [split; constructor|].
  destruct (bool_decide_reflect (lr_key r ∈ seen)) as [|Hr]; [apply IH|].
  destruct (lr_candidates r) eqn:Ec; [apply IH|].
  destruct (IH ({[lr_key r]} ∪ seen)) as [Hn Hf]. split.
  - cbn. constructor; [|done]. intros (x & Hk & Hx)%list_elem_of_fmap.
    rewrite Forall_forall in Hf. destruct (Hf x Hx) as [H _]. set_solver.
  - constructor; [split; [done|congruence]|]. eapply Forall_impl; [exact Hf|]. set_solver.
Qed.

Lemma firstByKey_find l r : forall seen,
  In r l -> lr_candidates r <> [] -> lr_key r ∉ seen ->
  (forall x, In x l -> lr_key x = lr_key r -> x = r) ->
  List.find (fun x => String.eqb (lr_key x) (lr_key r)) (firstByKey seen l) = Some r.
Proof.
  induction l as [|x l IH]; intros seen Hin Hc Hs Hu; [done|]. cbn [firstByKey].
  destruct (String.eqb_spec (lr_key x) (lr_key r)) as [He|He].
  - assert (x = r) as -> by (apply Hu; [by left|done]). rewrite bool_decide_eq_false_2 by done.
    destruct (lr_candidates r); [done|]. cbn [List.find]. by rewrite String.eqb_refl.
  - destruct Hin as [->|Hin]; [done|].
    assert (forall y, In y l -> lr_key y = lr_key r -> y = r) as Hu' by (intros; apply Hu; [by right|done]).
    destruct (bool_decide _); [by apply IH|]. destruct (lr_candidates x); [by apply IH|].
    cbn [List.find]. apply String.eqb_neq in He. rewrite He. apply IH; [done..| |done]. 
    apply String.eqb_neq in He. set_solver.
Qed.

(** Envoy's choice of a route: the first whose prefix and exact headers match. *)
Definition routeMatches (path : string) (headers : gmap string string) (r : Route) : bool :=
  HasPrefix path (rt_Prefix r) && forallb (fun h => bool_decide (headers !! h.1 = Some h.2)) (rt_Headers r).

Definition selectRoute (path : string) (headers : gmap string string) (rs : list Route) : option Route :=
  List.find (routeMatches path headers) rs.

(** The pin keys of a gateway collide only where the hashed strings are equal. *)
Definition collision_free (table : list routeRule) : Prop :=
  forall a b, In a table -> In b table -> keyOf a = keyOf b ->
    ruleKeyInput eg (mkNN (routeNamespace a) (routeName a)) (ruleIdx a) (provider a)
    = ruleKeyInput eg (mkNN (routeNamespace b) (routeName b)) (ruleIdx b) (provider b).

Definition routeKey (r : AIProviderRoute) : NamespacedName := metaKey (apr_Meta r).

(** What the rules and routes of a snapshot assume of it: object names are
    Kubernetes names, and no two routes share one. *)
Record snapshot_ok (routes : list AIProviderRoute) (bes : list Backend) : Prop := {
  so_gateway : plain_key eg;
  so_plain : Forall (fun r => plain_key (routeKey r)) routes;
  so_nodup : NoDup (map routeKey routes);
  so_hash : collision_free (buildRouteTable reg (nn_namespace eg) (nn_name eg) routes bes);
}.

Lemma nodup_same {A B} (f : A -> B) l x y : NoDup (map f l) -> In x l -> In y l -> f x = f y -> x = y.
Proof.
  induction l as [|a l IH]; [done|]. cbn. intros [Ha Hn]%NoDup_cons Hx Hy He.
  destruct Hx as [->|Hx], Hy as [->|Hy]; [done| | |by apply IH]; exfalso; apply Ha;
    [rewrite He|rewrite <- He]; by apply list_elem_of_fmap_2, list_elem_of_In.
Qed.

Lemma ruleOf_determined routes bes policies a b :
  snapshot_ok routes bes ->
  In a (buildRouteTable reg (nn_namespace eg) (nn_name eg) routes bes) ->
  In b (buildRouteTable reg (nn_namespace eg) (nn_name eg) routes bes) ->
  keyOf a = keyOf b -> ruleOf policies a = ruleOf policies b.
Proof.
  intros [Hg Hp Hn Hh] Ha Hb Hk. pose proof (Hh a b Ha Hb Hk) as Hi. rewrite Forall_forall in Hp.
  apply in_buildRouteTable in Ha as (r & i & rule & m & Hr & _ & Hrule & _ & ->).
  apply in_buildRouteTable in Hb as (r' & i' & rule' & m' & Hr' & _ & Hrule' & _ & ->).
  apply ruleKeyInput_inj in Hi as (_ & Hroute & Hidx & Hprov); cbn [entryOf routeNamespace routeName ruleIdx provider] in *;
    [|done|done|by apply Hp, list_elem_of_In|by apply Hp, list_elem_of_In].
  assert (r = r') as <- by (apply (nodup_same routeKey routes); done).
  subst i'. rewrite Hrule in Hrule'. injection Hrule' as <-.
  unfold ruleOf, keyOf. cbn [entryOf routeNamespace routeName ruleIdx provider backends]. by rewrite Hprov.
Qed.

Lemma find_map {A B} (f : B -> bool) (g : A -> B) l : List.find f (map g l) = g <$> List.find (fun x => f (g x)) l.
Proof. induction l as [|a l IH]; [done|]. cbn. by destruct (f (g a)). Qed.

Lemma find_app_opt {A} (f : A -> bool) l l' :
  List.find f (l ++ l') = match List.find f l with Some x => Some x | None => List.find f l' end.
Proof. induction l as [|a l IH]; [done|]. cbn. by destruct (f a). Qed.

Lemma find_ext {A} (f g : A -> bool) l : (forall x, f x = g x) -> List.find f l = List.find g l.
Proof. intros H. induction l as [|a l IH]; [done|]. cbn. by rewrite H, IH. Qed.

Definition demandKey (headers : gmap string string) (rule : llmRule) : bool :=
  bool_decide (headers !! Downstream.PinHeader = Some (lr_key rule)).

Lemma selectRoute_llm path headers cfg rest :
  selectRoute (String "/" path) headers (buildLLMRoutes cfg ++ rest)
  = match List.find (demandKey headers) (lc_rules cfg) with
    | Some rule => List.find (fun r => String.eqb (rt_Name r) (ClusterName (lr_key rule))) (buildLLMRoutes (mkLlmConfig [rule] (requestTimeout cfg) (lookupFamily cfg)))
    | None => selectRoute (String "/" path) headers rest
    end.
Proof.
  unfold selectRoute. rewrite find_app_opt. unfold buildLLMRoutes at 1. rewrite find_map.
  rewrite (find_ext _ (demandKey headers)).
  - destruct (List.find _ _); [|done]. cbn. by rewrite String.eqb_refl.
  - intros rule. unfold routeMatches. cbn. destruct path; by rewrite andb_true_r.
Qed.

(** C4: envoy's route for a pinned request is its rule's.  In a snapshot with
    Kubernetes names and no hash collision, for every rule of the external
    processor's table with a servable backend, a request that carries the
    rule's pin gets the synthesised route of that key, which strips the pin
    and names the cluster whose candidates are exactly that rule's servable
    backends, under the fallback policy of the rule's route.  A request
    without a pin never gets a synthesised route. *)
Theorem pinned_request_routed client c routes bes policies rr path headers rest :
  client = Some c -> ListRoutes c = Some routes -> ListBackends c = Some bes -> ListPolicies c = Some policies ->
  snapshot_ok routes bes ->
  In rr (buildRouteTable reg (nn_namespace eg) (nn_name eg) routes bes) -> ExtMut.viableOf (backends rr) <> [] ->
  let cfg := llmConfigFor reg sha256_hex12 client eg in
  (headers !! Downstream.PinHeader = Some (keyOf rr) ->
     In (ruleOf policies rr) (lc_rules cfg)
     /\ exists r, selectRoute (String "/" path) headers (buildLLMRoutes cfg ++ rest) = Some r
        /\ rt_Cluster r = ClusterName (keyOf rr) /\ RequestHeadersToRemove r = [Downstream.PinHeader]
        /\ forall rule, In rule (lc_rules cfg) -> ClusterName (lr_key rule) = rt_Cluster r -> rule = ruleOf policies rr)
  /\ (headers !! Downstream.PinHeader = None ->
       selectRoute (String "/" path) headers (buildLLMRoutes cfg ++ rest)
       = selectRoute (String "/" path) headers rest).
Proof.
  intros -> Hr Hb Hp Hok Hin Hv cfg.
  assert (lc_rules cfg = firstByKey ∅ (map (ruleOf policies) (buildRouteTable reg (nn_namespace eg) (nn_name eg) routes bes))) as Hrules.
  { unfold cfg, llmConfigFor. rewrite Hr, Hb, Hp. apply synthesis_table. }
  assert (List.find (fun x => String.eqb (lr_key x) (keyOf rr)) (lc_rules cfg) = Some (ruleOf policies rr)) as Hf.
  { rewrite Hrules. apply (firstByKey_find _ (ruleOf policies rr)); [by apply in_map|done|set_solver|].
    intros x (rr' & <- & Hin')%in_map_iff Hk. by apply (ruleOf_determined routes bes). }
  pose proof (proj1 (find_some _ _ Hf)) as Hmem.
  split; intros Hpin; rewrite selectRoute_llm.
  - split; [done|]. rewrite (find_ext _ (fun x => String.eqb (lr_key x) (keyOf rr))).
    + rewrite Hf. cbn. rewrite String.eqb_refl. eexists. split_and!; [done..|].
      intros rule Hrule Hn. cbn in Hn. unfold ClusterName in Hn.
      apply (f_equal (fun s => TrimPrefix s ClusterPrefix)) in Hn. rewrite !TrimPrefix_app in Hn.
      apply (nodup_same lr_key (lc_rules cfg)); [|done..]. rewrite Hrules. apply firstByKey_nodup.
    + intros x. unfold demandKey. rewrite Hpin. destruct (String.eqb_spec (lr_key x) (keyOf rr)) as [->|];
        [by apply bool_decide_eq_true_2|apply bool_decide_eq_false_2; congruence].
  - rewrite (find_ext _ (fun _ => false)); [|intros x; unfold demandKey; by rewrite Hpin].
    assert (forall l : list llmRule, List.find (fun _ => false) l = None) as -> by (induction l; done). done.
Qed.

End Synthesis.

(** ** Endpoints *)

Section Endpoints.
Context {Any : Type} {PB : AnyPb Any}.

(** The tiers of an ordered fallback, and the one of a weighted distribution. *)
Definition tiers (cands : list Candidate) : list LocalityLbEndpoints :=
  imap (fun i c => mkLocality (uint32 (Z.of_nat i)) [endpointOf c]) cands.

Definition weighted (cands : list Candidate) : list LbEndpoint :=
  map (fun c => withWeight (c_Weight c) (endpointOf c)) (List.filter (fun c => 0 <? c_Weight c) cands).

Definition tlsMatch (i : nat) (c : Candidate) (m : SocketMatch Any) : Prop :=
  sm_Name m = ("tls-" ++ pretty i)%string /\ sm_Match m = [("clrk_tls", tsMatchKey c)]
  /\ exists a, sm_Socket m = mkTS tlsTransportSocketName (Some a) /\ buildLLMEndpointTLS c = Ok a.

Lemma addCandidates_spec fallback : forall cands k (b b' : building),
  addCandidates fallback b (imap (fun i c => (k + i, c)%nat) cands) = Ok b' ->
  b_localities b' = b_localities b
    ++ (if fallback then imap (fun i c => mkLocality (uint32 (Z.of_nat (k + i))) [endpointOf c]) cands else [])
  /\ b_flat b' = b_flat b ++ (if fallback then [] else weighted cands)
  /\ exists ms, b_matches b' = b_matches b ++ ms /\ Forall2 (fun ic m => tlsMatch ic.1 ic.2 m) (imap (fun i c => (k + i, c)%nat) cands) ms.
Proof.
  induction cands as [|c cands IH]; intros k b b' H.
  - injection H as <-. destruct fallback; cbn; rewrite !app_nil_r; split_and!; try done; exists []; by rewrite app_nil_r.
  - assert (forall {B} (f : nat -> Candidate -> B), imap ((fun i c => f (k + i)%nat c) ∘ S) cands
              = imap (fun i c => f (S k + i)%nat c) cands) as Hshift.
    { intros B f. apply imap_ext. intros i x _. unfold compose. f_equal. lia. }
    rewrite imap_cons in H. cbn [addCandidates] in H. apply obind_Ok_inv in H as (b1 & H1 & H).
    cbn beta in H1. rewrite Nat.add_0_r in H1. unfold addCandidate in H1. apply obind_Ok_inv in H1 as (a & Ha & [= <-]).
    assert (buildLLMEndpointTLS c = Ok a) as Ha' by (destruct (buildLLMEndpointTLS c); cbn in Ha; congruence).
    rewrite (Hshift _ pair) in H.
    apply IH in H as (Hl & Hf & ms & Hm & Hms).
    rewrite !imap_cons, Nat.add_0_r.
    rewrite (Hshift _ (fun n c => mkLocality (uint32 (Z.of_nat n)) [endpointOf c])), (Hshift _ pair).
    unfold weighted. cbn [List.filter]. rewrite (Z.ltb_antisym (c_Weight c) 0).
    split_and!.
    + rewrite Hl. destruct fallback; cbn; [by rewrite <- app_assoc|by destruct (c_Weight c <=? 0)].
    + rewrite Hf. destruct fallback; cbn; [done|]. destruct (c_Weight c <=? 0); cbn; [done|by rewrite <- app_assoc].
    + eexists (_ :: ms). split.
      * rewrite Hm. destruct fallback; [|destruct (c_Weight c <=? 0)]; cbn; by rewrite <- app_assoc.
      * constructor; [|done]. by split_and!; [..|exists a].
Qed.

(** The endpoints of a rule's cluster: under a fallback policy one priority
    tier per candidate in rule order, without one a single tier of the
    candidates with a positive weight; each candidate has its own TLS context. *)
Lemma buildLLMCluster_endpoints s rule key family (cl : Cluster Any) :
  buildLLMCluster s rule key family = Ok cl ->
  cl_Name cl = ClusterName (lr_key rule)
  /\ LoadAssignment cl = Some (ClusterName (lr_key rule),
       match lr_fallback rule with Some _ => tiers (lr_candidates rule) | None => [mkLocality 0 (weighted (lr_candidates rule))] end)
  /\ Forall2 (fun ic m => tlsMatch ic.1 ic.2 m) (imap pair (lr_candidates rule)) (TransportSocketMatches cl).
Proof.
  unfold buildLLMCluster. intros H. apply obind_Ok_inv in H as (b & Hb & H). apply obind_Ok_inv in H as (o & _ & [= <-]).
  apply (addCandidates_spec _ _ 0) in Hb as (Hl & Hf & ms & Hm & Hms). cbn in Hl, Hf, Hm. cbn -[imap].
  rewrite Hm. split_and!; [done| |done]. rewrite Hl, Hf. by destruct (lr_fallback rule).
Qed.

Lemma buildLLMCluster_total {L : AnyPbLaws Any} s rule key family :
  exists cl : Cluster Any, buildLLMCluster s rule key family = Ok cl.
Proof.
  unfold buildLLMCluster.
  assert (forall l fb (b : building), exists b', addCandidates fb b l = Ok b') as Hadd.
  { induction l as [|[i c] l IH]; intros fb b; [by exists b|]. cbn [addCandidates addCandidate].
    unfold buildLLMEndpointTLS. pack_all. apply IH. }
  edestruct Hadd as [b ->]. cbn [obind]. unfold buildLLMUpstreamHTTPOptions, buildLLMUpstreamExtProcFilter.
  pack_all. by eexists.
Qed.

Definition endpointsOf (cl : Cluster Any) : list LbEndpoint :=
  match LoadAssignment cl with Some (_, ls) => flat_map LbEndpoints ls | None => [] end.

(** The endpoint of a candidate, weighted or not. *)
Definition endpointFor (c : Candidate) (e : LbEndpoint) : Prop :=
  ep_Address e = c_Host c /\ ep_Port e = uint32 (c_Port c) /\ ep_Metadata e = ep_Metadata (endpointOf c).

Lemma endpoint_of_candidate s rule key family (cl : Cluster Any) e :
  buildLLMCluster s rule key family = Ok cl -> In e (endpointsOf cl) ->
  exists c, In c (lr_candidates rule) /\ endpointFor c e.
Proof.
  intros (_ & Hl & _)%buildLLMCluster_endpoints He. unfold endpointsOf in He. rewrite Hl in He.
  destruct (lr_fallback rule).
  - apply in_flat_map in He as (l & Hl' & He). unfold tiers in Hl'.
    apply list_elem_of_In, list_elem_of_lookup in Hl' as (i & Hi). rewrite list_lookup_imap in Hi.
    destruct (lr_candidates rule !! i) as [c|] eqn:Ec; [|done]. injection Hi as <-.
    destruct He as [<-|[]]. exists c. split; [|done]. by apply list_elem_of_In, (list_elem_of_lookup_2 _ i).
  - cbn in He. rewrite app_nil_r in He. apply in_map_iff in He as (c & <- & [Hc _]%filter_In). by exists c.
Qed.

Lemma candidate_endpoint s rule key family (cl : Cluster Any) c :
  buildLLMCluster s rule key family = Ok cl -> In c (lr_candidates rule) ->
  is_Some (lr_fallback rule) \/ 0 < c_Weight c ->
  exists e, In e (endpointsOf cl) /\ endpointFor c e.
Proof.
  intros (_ & Hl & _)%buildLLMCluster_endpoints Hc Hw. unfold endpointsOf. rewrite Hl.
  pose proof Hc as (i & Hi)%list_elem_of_In%list_elem_of_lookup.
  destruct (lr_fallback rule) as [p|].
  - exists (endpointOf c). split; [|done]. apply in_flat_map.
    exists (mkLocality (uint32 (Z.of_nat i)) [endpointOf c]). split; [|by left].
    apply list_elem_of_In, list_elem_of_lookup. exists i. unfold tiers. by rewrite list_lookup_imap, Hi.
  - destruct Hw as [[? [=]]|Hw]. exists (withWeight (c_Weight c) (endpointOf c)). split; [|done].
    cbn. rewrite app_nil_r. apply in_map_iff. exists c. split; [done|]. apply filter_In. split; [done|].
    by apply Z.ltb_lt.
Qed.

End Endpoints.

(** ** The identity an endpoint carries *)

Lemma digitsFrom_pretty x : forall s, Upstream.digitsFrom (pretty_N_go x s) 0 = Upstream.digitsFrom s (Z.of_N x).
Proof.
  induction (N.lt_wf_0 x) as [x _ IH]; intros s.
  destruct (decide (x = 0)%N) as [->|Hx]; [by rewrite pretty_N_go_0|].
  rewrite pretty_N_go_step by lia. rewrite IH by (apply N.div_lt; lia). cbn [Upstream.digitsFrom].
  assert (x mod 10 < 10)%N as Hm by (apply N.mod_lt; lia).
  assert (Z.of_N (N_of_ascii (pretty_N_char (x mod 10))) = 48 + Z.of_N (x mod 10)) as ->.
  { revert Hm. generalize (x mod 10)%N as d. intros d Hd.
    assert (d = 0 \/ d = 1 \/ d = 2 \/ d = 3 \/ d = 4 \/ d = 5 \/ d = 6 \/ d = 7 \/ d = 8 \/ d = 9)%N as Hc by lia.
    destruct_or! Hc; by subst d. }
  pose proof (N.div_mod x 10 ltac:(lia)) as Hx'. clear IH. revert Hm Hx'.
  generalize (x mod 10)%N (x / 10)%N. intros d q Hm Hx'.
  rewrite (proj2 (andb_true_iff _ _)) by (split; apply Z.leb_le; lia). f_equal. lia.
Qed.

Lemma Atoi_pretty z : 0 <= z < 2 ^ 63 -> Upstream.Atoi (pretty z) = z.
Proof.
  intros Hz. destruct z as [|p|p]; [done| |lia]. unfold pretty, pretty_Z, pretty, pretty_positive, pretty, pretty_N.
  rewrite decide_False by done.
  assert (exists c t, pretty_N_go (N.pos p) "" = String c t /\ c <> "+"%char /\ c <> "-"%char) as (c & t & E & Hp & Hm).
  { assert (forall x s, (x <> 0)%N -> exists c t, pretty_N_go x s = String c t /\ c <> "+"%char /\ c <> "-"%char) as H; [|by apply H].
    intros x. induction (N.lt_wf_0 x) as [x _ IH]; intros s Hx. rewrite pretty_N_go_step by lia.
    destruct (decide (x / 10 = 0)%N) as [->|Hd].
    - rewrite pretty_N_go_0. eexists _, _. split; [done|]. unfold pretty_N_char. by repeat case_match.
    - by apply IH; [apply N.div_lt; lia|]. }
  pose proof (digitsFrom_pretty (N.pos p) "") as Hd. rewrite E in *.
  change (Upstream.digitsFrom (String c t) 0 = Some (Z.pos p)) in Hd.
  unfold Upstream.Atoi.
  assert (match String c t with String "+" u => (false, u) | String "-" u => (true, u) | _ => (false, String c t) end
          = (false, String c t)) as ->.
  { destruct c as [[] [] [] [] [] [] [] []]; try done. }
  cbn [String.eqb]. rewrite Hd. lia.
Qed.

(** The metadata an endpoint carries under the repository's own namespace. *)
Definition identityFields (e : LbEndpoint) : gmap string string :=
  match List.find (fun nf => String.eqb nf.1 Upstream.EndpointMetaNamespace) (ep_Metadata e) with
  | Some (_, fields) => list_to_map fields
  | None => ∅
  end.

Definition port_ok (c : Candidate) : Prop := 0 <= c_Port c < 2 ^ 32.

Section Identity.
Context {Any : Type} {PB : AnyPb Any}.

(** C17: an attempt is adapted to the backend Envoy picked.  For an endpoint of
    a synthesised cluster, the metadata the upstream filter receives names the
    namespace, name, schema, host and port of the candidate whose address and
    port Envoy dials, and the lookup among the rule's candidates returns that
    candidate, when the rule names each backend once. *)
Theorem endpoint_identifies_candidate s rule key family (cl : Cluster Any) e :
  buildLLMCluster s rule key family = Ok cl -> In e (endpointsOf cl) ->
  Forall port_ok (lr_candidates rule) ->
  NoDup (map (fun c => (c_Namespace c, c_Name c)) (lr_candidates rule)) ->
  exists c, In c (lr_candidates rule)
    /\ ep_Address e = c_Host c /\ ep_Port e = c_Port c
    /\ Upstream.backendOf (identityFields e)
        = Upstream.mkAttemptBackend (c_Namespace c) (c_Name c) (c_System c) (c_Host c) (c_Port c)
    /\ List.find (Upstream.sameBackend (Upstream.backendOf (identityFields e))) (lr_candidates rule) = Some c.
Proof.
  intros Hb He Hp Hn. destruct (endpoint_of_candidate _ _ _ _ _ _ Hb He) as (c & Hc & Ha & Hport & Hmeta).
  rewrite Forall_forall in Hp. assert (port_ok c) as Hpc by by apply Hp, list_elem_of_In.
  assert (Upstream.backendOf (identityFields e)
          = Upstream.mkAttemptBackend (c_Namespace c) (c_Name c) (c_System c) (c_Host c) (c_Port c)) as Hid.
  { unfold identityFields. rewrite Hmeta. unfold Upstream.backendOf. cbn -[pretty Upstream.Atoi].
    f_equal. apply Atoi_pretty. unfold port_ok in Hpc. lia. }
  exists c. split_and!; [done..| |done|].
  { rewrite Hport. apply wrap_id. unfold port_ok in Hpc. unfold in_range. lia. }
  rewrite Hid. clear -Hc Hn. induction (lr_candidates rule) as [|x l IH]; [done|].
  cbn in Hn. apply NoDup_cons in Hn as [Hx Hn]. cbn [List.find]. unfold Upstream.sameBackend at 1. cbn [Upstream.ab_namespace Upstream.ab_name].
  destruct Hc as [->|Hc]; [by rewrite !String.eqb_refl|].
  destruct (String.eqb_spec (c_Namespace x) (c_Namespace c)) as [E1|], (String.eqb_spec (c_Name x) (c_Name c)) as [E2|];
    cbn [andb]; try by apply IH.
  exfalso. apply Hx. rewrite E1, E2. by apply (list_elem_of_fmap_2 (fun c => (c_Namespace c, c_Name c))), list_elem_of_In.
Qed.

End Identity.

(** ** Ejection and retries *)

(** The base ejection time never exceeds the cap Envoy is given, and an
    operator's cap bounds the first ejection. *)
Lemma outlier_base_capped fallback :
  let od := buildLLMOutlierDetection fallback in
  BaseEjectionTime od <= llmBaseEjectionTime
  /\ forall m, od_MaxEjectionTime od = Some m -> BaseEjectionTime od <= m.
Proof.
  unfold buildLLMOutlierDetection.
  destruct fallback as [p|]; [|by split]. destruct (Ejection (frp_Spec p)) as [e|]; [|by split].
  destruct (MaxEjectionTime e) as [m|]; [|by split]. cbn.
  destruct (Z.ltb_spec m llmBaseEjectionTime); split; try lia; intros ? [= <-]; lia.
Qed.

(** ** A gateway with one route *)

Definition demoEG : NamespacedName := mkNN "team" "eg".

Definition demoRef (name : string) (weight : Z) : BackendRef :=
  mkBackendRef (Some clrkAPIGroup) (Some "Backend") None name (Some weight).

Definition demoRoute : AIProviderRoute :=
  mkAPR (mkMeta "team" "chat" "1")
    (mkAPRSpec [mkParentReference (Some clrkAPIGroup) (Some "EgressGateway") None "eg" None]
       [mkAPRRule [mkAPRMatch "openai" [] []; mkAPRMatch "OpenAI" ["gpt-*"] []] []
          [demoRef "gpt" 9; demoRef "spare" 0]]).

Definition demoBackend (name host : string) : Backend :=
  Admission.Backend_Default
    (mkBackend (mkMeta "team" name "1") (mkBackendSpec "" "openai" (Some (ApiTypes.mkUpstream host 8443)) None [] None)).

Definition demoBackends : list Backend := [demoBackend "gpt" "api.openai.com"; demoBackend "spare" "spare.example.com"].

Definition demoApi : api :=
  mkApi (fun _ => None) (Some [demoRoute]) (Some demoBackends) (Some []).

Definition demoTable : list routeRule := buildRouteTable Registry.builtinRegistry "team" "eg" [demoRoute] demoBackends.

Definition demoConfig : llmConfig := llmConfigFor Registry.builtinRegistry (fun s => s) (Some demoApi) demoEG.

(** Two match clauses with one provider share a rule. *)
Example demo_rules :
  (length demoTable, map (fun r => map c_Name (lr_candidates r)) (lc_rules demoConfig))
  = (2%nat, [["gpt"; "spare"]]).
Proof. vm_compute. reflexivity. Qed.

Lemma demo_snapshot : snapshot_ok Registry.builtinRegistry (fun s => s) demoEG [demoRoute] demoBackends.
Proof.
  split; [by vm_compute|repeat constructor|apply NoDup_singleton|]. intros a b _ _ H. exact H.
Qed.

Lemma pinned_request_routed_witness :
  exists rr r, In rr demoTable
    /\ selectRoute "/v1/chat/completions" {[Downstream.PinHeader := keyOf (fun s => s) demoEG rr]}
         (buildLLMRoutes demoConfig) = Some r
    /\ rt_Cluster r = ClusterName (keyOf (fun s => s) demoEG rr).
Proof.
  destruct demoTable as [|rr rest] eqn:E; [vm_compute in E; discriminate|].
  assert (In rr demoTable) as Hin by (rewrite E; by left).
  destruct (pinned_request_routed Registry.builtinRegistry (fun s => s) demoEG (Some demoApi) demoApi [demoRoute]
              demoBackends [] rr "v1/chat/completions" {[Downstream.PinHeader := keyOf (fun s => s) demoEG rr]} [])
    as [H _]; [done..|exact demo_snapshot|exact Hin| |].
  { vm_compute in E. injection E as <- _. by vm_compute. }
  destruct H as (_ & r & Hr & Hc & _); [by rewrite lookup_singleton_eq|].
  rewrite app_nil_r in Hr. exists rr, r. split_and!; [by left|exact Hr|exact Hc].
Defined.

Definition demoRule : llmRule :=
  mkLlmRule "k" [mkCandidate "gpt" "team" "api.openai.com" 443 "openai" 9 [] None false "";
                 mkCandidate "spare" "team" "spare.example.com" 8443 "openai" 0 [] None false ""] None.

Definition demoSettings : settings := mkSettings "cm:9443" "cm:9443" false "cm".

(** Without a fallback policy the candidate of weight zero is no endpoint. *)
Example demo_endpoints :
  match buildLLMCluster (Any := Packed) demoSettings demoRule demoEG V4_PREFERRED with
  | Ok cl => map (fun e => (ep_Address e, LoadBalancingWeight e)) (endpointsOf cl) = [("api.openai.com", Some 9)]
             /\ length (TransportSocketMatches cl) = 2%nat
  | _ => False
  end.
Proof. vm_compute. by split. Qed.

Lemma endpoint_identifies_candidate_witness :
  exists cl e c, buildLLMCluster (Any := Packed) demoSettings demoRule demoEG V4_PREFERRED = Ok cl
    /\ In e (endpointsOf cl)
    /\ List.find (Upstream.sameBackend (Upstream.backendOf (identityFields e))) (lr_candidates demoRule) = Some c
    /\ ep_Address e = c_Host c.
Proof.
  destruct (buildLLMCluster (Any := Packed) demoSettings demoRule demoEG V4_PREFERRED) as [cl| |] eqn:E; [|discriminate E..].
  destruct (endpointsOf cl) as [|e rest] eqn:Ee; [vm_compute in E; injection E as <-; discriminate Ee|].
  destruct (endpoint_identifies_candidate demoSettings demoRule demoEG V4_PREFERRED cl e) as (c & _ & Ha & _ & _ & Hf).
  - exact E.
  - rewrite Ee. by left.
  - repeat constructor; by vm_compute.
  - apply (bool_decide_unpack _). by vm_compute.
  - exists cl, e, c. split_and!; [done|rewrite Ee; by left|exact Hf|exact Ha].
Defined.

End LlmXds.
