(* ===== verification/EgExtension.v ===== *)
(** * The Envoy Gateway extension server

    [src/internal/egextension/server.go]: the two hooks by which the rewriting
    of Envoy's configuration happens. [PostHTTPListenerModify] rewrites the
    listener of an EgressGateway for its shape and remembers what it resolved
    for that gateway; [PostTranslateModify] adds the clusters the rewritten
    listeners name.

    Messages are those of [Xds]; an error that the code logs and drops leaves
    no trace in the model but its effect. *)

From Stdlib Require Import ZArith Lia Ascii String List.
From stdpp Require Import base strings list gmap sets pretty.
From S2P Require Import Prelude GoStrings GoStd ApiTypes Registry Admission LlmRoute Budget EgressShape ProxyProto EgIdentity Xds.
From S2P Require Import ExtMut Upstream ExtRecord Downstream LlmXds.
Import EgressShape.
Import GoStrings GoStd ApiTypes LlmRoute EgIdentity Xds LlmXds.

Open Scope string_scope.
Open Scope Z_scope.
Open Scope list_scope.

Module EgExtension.

(** ** Names *)

Definition grpcCertProviderHandshakerName : string := "envoy.tls_handshakers.grpc_certificate_provider".
Definition routerFilterName : string := "envoy.filters.http.router".
Definition hcmFilterName : string := "envoy.filters.network.http_connection_manager".
Definition proxyProtocolListenerFilterName : string := "envoy.filters.listener.proxy_protocol".
Definition tlsInspectorListenerFilterName : string := "envoy.filters.listener.tls_inspector".
Definition dfpHTTPFilterName : string := "envoy.filters.http.dynamic_forward_proxy".
Definition networkExtProcFilterName : string := "envoy.filters.network.ext_proc".
Definition sniDFPFilterName : string := "envoy.filters.network.sni_dynamic_forward_proxy".
Definition tcpProxyFilterName : string := "envoy.filters.network.tcp_proxy".
Definition clrkChainName : string := "clrk-egress".
Definition DFPClusterName : string := "clrk-egress-dfp".
Definition DFPPlainClusterName : string := "clrk-egress-dfp-plain".
Definition OriginalDstClusterName : string := "clrk-egress-original-dst".
Definition dnsCacheName : string := "clrk-egress-dns-cache".
Definition GatewayNamePrefix : string := "clrk-eg-".
Definition defaultHandshakerTimeout : Z := 60 * second.
Definition defaultHandshakerCacheTTL : Z := 3600 * second.
Definition defaultHandshakerCacheMax : Z := 1000.

Definition dnsCacheNameFor (egName : string) : string := (dnsCacheName ++ "-" ++ egName)%string.
Definition dfpClusterNameFor (egName : string) : string := (DFPClusterName ++ "-" ++ egName)%string.
Definition dfpPlainClusterNameFor (egName : string) : string := (DFPPlainClusterName ++ "-" ++ egName)%string.

(** Each TLV of a PROXY v2 frame becomes an entry of the connection's metadata. *)
Definition tlvRule (t : Byte.byte) (key : string) : Z * string * string :=
  (Z.of_N (Byte.to_N t), ExtRecord.MetadataNamespace, key).

Definition agentTLVRules : list (Z * string * string) :=
  [tlvRule ProxyProto.TLVAgentKind "agent_kind";
   tlvRule ProxyProto.TLVAgentNamespace "agent_namespace";
   tlvRule ProxyProto.TLVAgentName "agent_name";
   tlvRule ProxyProto.TLVAgentUID "agent_uid";
   tlvRule ProxyProto.TLVAgentRevision "agent_revision";
   tlvRule ProxyProto.TLVInvocationID "invocation_id";
   tlvRule ProxyProto.TLVDstName "dst_name"].

(** ** Which gateway and which shape a listener belongs to *)

Section Listeners.
Context {Any : Type}.

Definition egressGatewayFromListener (l : Listener Any) : option NamespacedName :=
  match Split "/" (ln_Name l) with
  | ns :: gw :: _ =>
      if String.eqb ns "" then None
      else if negb (HasPrefix gw GatewayNamePrefix) then None
      else Some (mkNN ns (TrimPrefix gw GatewayNamePrefix))
  | _ => None
  end.

Definition shapeFromListener (l : Listener Any) : option shape :=
  let parts := Split "/" (ln_Name l) in
  if (length parts <? 3)%nat then None
  else match ParseListenerSectionName (List.last parts "") with
       | Some (_, s) => Some s
       | None => None
       end.

Definition setListenerFilters (fs : list (ListenerFilter Any)) (l : Listener Any) : Listener Any :=
  mkListenerMsg (ln_Name l) fs (FilterChains l) (DefaultFilterChain l) (ln_rest l).
Definition setChains (cs : list (FilterChain Any)) (d : option (FilterChain Any)) (l : Listener Any) : Listener Any :=
  mkListenerMsg (ln_Name l) (ListenerFilters l) cs d (ln_rest l).

Definition removeTLSInspectorFilter (l : Listener Any) : Listener Any :=
  setListenerFilters
    (List.filter (fun f => negb (String.eqb (lf_Name f) tlsInspectorListenerFilterName)) (ListenerFilters l)) l.

Definition hasListenerFilter (name : string) (l : Listener Any) : bool :=
  existsb (fun f => String.eqb (lf_Name f) name) (ListenerFilters l).

Context {PB : AnyPb Any}.

(** [ensureProxyProtocolFilter] and [ensureTLSInspectorFilter]: on an error the
    listener is left as it is. *)
Definition ensureProxyProtocolFilter (l : Listener Any) : Listener Any :=
  if hasListenerFilter proxyProtocolListenerFilterName l then l
  else match New (MProxyProtocol agentTLVRules) with
       | Ok ppAny => setListenerFilters
                       (mkListenerFilter proxyProtocolListenerFilterName (Some ppAny) :: ListenerFilters l) l
       | _ => l
       end.

Definition ensureTLSInspectorFilter (l : Listener Any) : Listener Any :=
  if hasListenerFilter tlsInspectorListenerFilterName l then l
  else match New MTlsInspector with
       | Ok insp => setListenerFilters
                      (ListenerFilters l ++ [mkListenerFilter tlsInspectorListenerFilterName (Some insp)]) l
       | _ => l
       end.

(** ** Filters *)

Definition grpcTo (targetURI statPrefix authority : string) (creds : option ChannelCredentials) : GrpcService :=
  mkGrpc targetURI statPrefix creds (Some authority) (Some defaultExtProcTimeout) [].

Definition networkExtProc (targetURI authority : string) (creds : option ChannelCredentials)
    : NetworkExternalProcessor :=
  {| np_Grpc := grpcTo targetURI "clrk_l4_ext_proc" authority creds;
     FailureModeAllow := true; ProcessRead := N_STREAMED; ProcessWrite := N_SKIP;
     np_MessageTimeout := 5 * second; np_StatPrefix := "clrk_l4_ext_proc";
     np_Forwarding := [ExtRecord.MetadataNamespace] |}.

Definition buildNetworkExtProcFilter (targetURI authority : string) (creds : option ChannelCredentials)
    : outcome string (Filter Any) :=
  let! a := wrapped "marshal network_ext_proc" (New (MNetExtProc (networkExtProc targetURI authority creds))) in
  Ok (mkFilter networkExtProcFilterName (Some a)).

Definition buildSNIDFPFilter (cfg : DnsCacheConfig) : outcome string (Filter Any) :=
  let! a := wrapped "marshal sni_dynamic_forward_proxy" (New (MSniDfp 443 cfg)) in
  Ok (mkFilter sniDFPFilterName (Some a)).

Definition buildTCPProxyFilter (cluster : string) : outcome string (Filter Any) :=
  let! a := wrapped "marshal tcp_proxy" (New (MTcpProxy "clrk_egress_tcp" cluster)) in
  Ok (mkFilter tcpProxyFilterName (Some a)).

Definition buildDFPHTTPFilter (cfg : DnsCacheConfig) : outcome string (HttpFilter Any) :=
  let! a := wrapped "marshal dfp http filter" (New (MDfpFilter cfg)) in
  Ok (mkHttpFilter dfpHTTPFilterName (Some a)).

Definition egressExtProc (targetURI authority : string) (creds : option ChannelCredentials) : ExternalProcessor :=
  {| ep_Grpc := Some (grpcTo targetURI "clrk_ext_proc" authority creds);
     ep_Mode := Some (mkProcessing SEND SEND BODY_BUFFERED_PARTIAL BODY_BUFFERED SKIP SKIP);
     AllowModeOverride := true;
     MessageTimeout := Some (5 * second);
     RequestAttributes := [];
     MutationRules := None;
     ForwardingNamespaces := [ExtRecord.MetadataNamespace];
     ReceivingNamespaces := ["envoy.lb"];
     ep_rest := "" |}.

Definition buildExtProcFilter (targetURI authority : string) (creds : option ChannelCredentials)
    : outcome string (HttpFilter Any) :=
  let! a := wrapped "marshal ext_proc filter" (New (MExtProc (egressExtProc targetURI authority creds))) in
  Ok (mkHttpFilter extProcFilterName (Some a)).

Definition accessLogFormat : string :=
  "[%START_TIME%] eg %REQ(:METHOD)% %REQ(:authority)%%REQ(:PATH)% %PROTOCOL% "
  ++ "-> %RESPONSE_CODE% flags=%RESPONSE_FLAGS% "
  ++ "dur=%DURATION%ms req_rx=%REQUEST_DURATION%ms req_tx=%REQUEST_TX_DURATION%ms "
  ++ "upstream_ttfb=%RESPONSE_DURATION%ms resp_tx=%RESPONSE_TX_DURATION%ms "
  ++ "bytes_rx=%BYTES_RECEIVED% bytes_tx=%BYTES_SENT% "
  ++ "upstream=%UPSTREAM_HOST% upstream_cluster=%UPSTREAM_CLUSTER%" ++ String "010" "".

Definition buildEgressAccessLog : outcome string (string * Any) :=
  let! a := wrapped "marshal file access log" (New (MFileAccessLog "/dev/stdout" accessLogFormat)) in
  Ok ("envoy.access_loggers.file", a).

(** ** Chains *)

Definition buildTLSPassthroughChain (s : settings) (key : NamespacedName) (cfg : DnsCacheConfig)
    : outcome string (FilterChain Any) :=
  let! netExtProc := wrapped "build network_ext_proc filter"
    (buildNetworkExtProcFilter (ExtProcTargetURI s) (channelAuthorityFor s key) (clientChannelCreds s)) in
  let! sniDFP := wrapped "build sni_dynamic_forward_proxy filter" (buildSNIDFPFilter cfg) in
  let! tcpProxy := wrapped "build tcp_proxy filter" (buildTCPProxyFilter (dfpPlainClusterNameFor (nn_name key))) in
  Ok (mkChain clrkChainName [netExtProc; sniDFP; tcpProxy] None "").

Definition buildPlainTCPChain (s : settings) (key : NamespacedName) : outcome string (FilterChain Any) :=
  let! netExtProc := wrapped "build network_ext_proc filter"
    (buildNetworkExtProcFilter (ExtProcTargetURI s) (channelAuthorityFor s key) (clientChannelCreds s)) in
  let! tcpProxy := wrapped "build tcp_proxy filter" (buildTCPProxyFilter OriginalDstClusterName) in
  Ok (mkChain clrkChainName [netExtProc; tcpProxy] None "").

Definition handshaker (s : settings) (key : NamespacedName) : HandshakerConfig :=
  {| hk_Grpc := mkGrpc (CertProviderTargetURI s) "clrk_cert_provider" (clientChannelCreds s) None None [];
     hk_Timeout := defaultHandshakerTimeout;
     CacheTtl := defaultHandshakerCacheTTL;
     CacheMaxEntries := defaultHandshakerCacheMax;
     FailOnError := true;
     Authority := channelAuthorityFor s key |}.

(** The chain with the handshaker injected; unchanged when it has no TLS or a
    step fails. *)
Definition injectHandshaker (s : settings) (key : NamespacedName) (fc : FilterChain Any)
    : outcome string (FilterChain Any) :=
  match fc_Socket fc with
  | None => Ok fc
  | Some ts =>
      if negb (String.eqb (ts_Name ts) tlsTransportSocketName) then Ok fc
      else
        match ts_Config ts with
        | None => Ok fc
        | Some typedCfg =>
            let! downstream := wrapped "unmarshal DownstreamTlsContext" (toDownstreamTls typedCfg) in
            let common := match dt_Common downstream with Some c => c | None => mkCommonTls [] None "" end in
            let! handshakerAny := wrapped "marshal GrpcCertificateProviderConfig"
                                    (New (MHandshaker (handshaker s key))) in
            let common := mkCommonTls ["h2"; "http/1.1"]
                            (Some (grpcCertProviderHandshakerName, handshakerAny)) (ct_rest common) in
            let! newTypedCfg := wrapped "re-marshal DownstreamTlsContext"
                                  (New (MDownstreamTls (mkDownstreamTls (Some common) (dt_rest downstream)))) in
            Ok (mkChain (fc_Name fc) (fc_Filters fc) (Some (mkTS (ts_Name ts) (Some newTypedCfg))) (fc_rest fc))
        end
  end.

(** The HTTP filters with ours before the first router, or last. *)
Fixpoint insertBeforeRouter (ours fs : list (HttpFilter Any)) : list (HttpFilter Any) :=
  match fs with
  | [] => ours
  | f :: rest => if String.eqb (hf_Name f) routerFilterName then ours ++ f :: rest
                 else f :: insertBeforeRouter ours rest
  end.

Definition catchAll (key : NamespacedName) (llmCfg : llmConfig) : Route :=
  {| rt_Name := ""; rt_Prefix := "/"; rt_Headers := []; RequestHeadersToRemove := [];
     rt_Cluster := dfpClusterNameFor (nn_name key); AutoHostRewrite := true;
     rt_Timeout := requestTimeout llmCfg; rt_Retry := None; RequestBodyBufferLimit := None |}.

Definition egressRoutes (key : NamespacedName) (llmCfg : llmConfig) : RouteConfiguration :=
  mkRouteConfig "clrk-egress-dfp"
    [mkVHost "clrk-egress-dfp" ["*"] (buildLLMRoutes llmCfg ++ [catchAll key llmCfg])].

Definition rewriteOneHCM (key : NamespacedName) (llmCfg : llmConfig) (ours : list (HttpFilter Any)) (f : Filter Any)
    : outcome string (Filter Any) :=
  if negb (String.eqb (f_Name f) hcmFilterName) then Ok f
  else
    match f_Config f with
    | None => Ok f
    | Some typedCfg =>
        let! hcm := wrapped "unmarshal HCM" (toHcm typedCfg) in
        let! al := wrapped "build access log" buildEgressAccessLog in
        let hcm := mkHcm (insertBeforeRouter ours (HttpFilters hcm)) (Some (egressRoutes key llmCfg)) [al]
                     (hcm_rest hcm) in
        let! newTypedCfg := wrapped "re-marshal HCM" (New (MHcm hcm)) in
        Ok (mkFilter (f_Name f) (Some newTypedCfg))
    end.

(** The filters of a chain are rewritten in order; the first failure leaves the
    rest as they are. *)
Fixpoint rewriteFilters (key : NamespacedName) (llmCfg : llmConfig) (ours : list (HttpFilter Any))
    (fs : list (Filter Any)) : list (Filter Any) :=
  match fs with
  | [] => []
  | f :: rest =>
      match rewriteOneHCM key llmCfg ours f with
      | Ok f' => f' :: rewriteFilters key llmCfg ours rest
      | _ => f :: rest
      end
  end.

Definition withFilters (fs : list (Filter Any)) (fc : FilterChain Any) : FilterChain Any :=
  mkChain (fc_Name fc) fs (fc_Socket fc) (fc_rest fc).

Definition ourFilters (s : settings) (key : NamespacedName) (cfg : DnsCacheConfig)
    : outcome string (list (HttpFilter Any)) :=
  let! dfp := wrapped "build dfp http filter" (buildDFPHTTPFilter cfg) in
  let! extProc := wrapped "build ext_proc filter"
    (buildExtProcFilter (ExtProcTargetURI s) (channelAuthorityFor s key) (clientChannelCreds s)) in
  Ok [extProc; dfp].

Definition rewriteHCM (s : settings) (key : NamespacedName) (cfg : DnsCacheConfig) (llmCfg : llmConfig)
    (fc : FilterChain Any) : FilterChain Any :=
  match ourFilters s key cfg with
  | Ok ours => withFilters (rewriteFilters key llmCfg ours (fc_Filters fc)) fc
  | _ => fc
  end.

(** ** Shapes *)

Definition httpChain (s : settings) (key : NamespacedName) (sh : shape) (cfg : DnsCacheConfig) (llmCfg : llmConfig)
    (fc : FilterChain Any) : FilterChain Any :=
  let fc := match sh with
            | ShapeHTTP => mkChain (fc_Name fc) (fc_Filters fc) None (fc_rest fc)
            | _ => match injectHandshaker s key fc with Ok fc' => fc' | _ => fc end
            end in
  rewriteHCM s key cfg llmCfg fc.

Definition applyHTTPShape (s : settings) (key : NamespacedName) (sh : shape) (cfg : DnsCacheConfig)
    (llmCfg : llmConfig) (l : Listener Any) : Listener Any :=
  let l := ensureTLSInspectorFilter (ensureProxyProtocolFilter l) in
  setChains (map (httpChain s key sh cfg llmCfg) (FilterChains l))
    (httpChain s key sh cfg llmCfg <$> DefaultFilterChain l) l.

Definition applyTLSPassthroughShape (s : settings) (key : NamespacedName) (cfg : DnsCacheConfig) (l : Listener Any)
    : Listener Any :=
  let l := ensureTLSInspectorFilter (ensureProxyProtocolFilter l) in
  match buildTLSPassthroughChain s key cfg with
  | Ok chain => setChains [chain] None l
  | _ => l
  end.

Definition applyTCPShape (s : settings) (key : NamespacedName) (l : Listener Any) : Listener Any :=
  let l := removeTLSInspectorFilter (ensureProxyProtocolFilter l) in
  match buildPlainTCPChain s key with
  | Ok chain => setChains [chain] None l
  | _ => l
  end.

(** ** Routing mutation ([allowExtProcRoutingMutation]) *)

Definition routingAllowed (ep : ExternalProcessor) : bool :=
  match MutationRules ep with Some (Some true) => true | _ => false end.

Definition allowRouting (ep : ExternalProcessor) : ExternalProcessor :=
  mkExtProc (ep_Grpc ep) (ep_Mode ep) (AllowModeOverride ep) (MessageTimeout ep) (RequestAttributes ep)
    (Some (Some true)) (ForwardingNamespaces ep) (ReceivingNamespaces ep) (ep_rest ep).

(** The filter, and whether it was patched. *)
Definition patchHttpFilter (hf : HttpFilter Any) : HttpFilter Any * bool :=
  if negb (HasPrefix (hf_Name hf) extProcFilterName) then (hf, false)
  else
    match hf_Config hf with
    | None => (hf, false)
    | Some htc =>
        match toExtProc htc with
        | Ok ep =>
            if routingAllowed ep then (hf, false)
            else match New (MExtProc (allowRouting ep)) with
                 | Ok newAny => (mkHttpFilter (hf_Name hf) (Some newAny), true)
                 | _ => (hf, false)
                 end
        | _ => (hf, false)
        end
    end.

Definition countPatched (l : list (HttpFilter Any * bool)) : nat := length (List.filter snd l).

Definition patchFilter (f : Filter Any) : Filter Any * nat :=
  if negb (String.eqb (f_Name f) hcmFilterName) then (f, 0%nat)
  else
    match f_Config f with
    | None => (f, 0%nat)
    | Some tc =>
        match toHcm tc with
        | Ok hcm =>
            let hs := map patchHttpFilter (HttpFilters hcm) in
            let n := countPatched hs in
            if (0 <? n)%nat then
              match New (MHcm (mkHcm (map fst hs) (RouteConfig hcm) (AccessLog hcm) (hcm_rest hcm))) with
              | Ok newAny => (mkFilter (f_Name f) (Some newAny), n)
              | _ => (f, n)
              end
            else (f, 0%nat)
        | _ => (f, 0%nat)
        end
    end.

Definition patchChain (fc : FilterChain Any) : FilterChain Any * nat :=
  let fs := map patchFilter (fc_Filters fc) in
  (withFilters (map fst fs) fc, list_sum (map snd fs)).

Definition allowExtProcRoutingMutation (l : Listener Any) : Listener Any * nat :=
  let cs := map patchChain (FilterChains l) in
  let d := patchChain <$> DefaultFilterChain l in
  (setChains (map fst cs) (fst <$> d) l,
   (list_sum (map snd cs) + match d with Some (_, n) => n | None => 0 end)%nat).

(** ** Clusters *)

Definition baseCluster (name : string) (discovery : DiscoveryType Any) (ts : option (TransportSocket Any))
    (opts : list (string * Any)) : Cluster Any :=
  {| cl_Name := name; ConnectTimeout := 5 * second; Discovery := discovery; cl_Family := AUTO;
     RespectDnsTtl := false; DnsRefreshRate := None; DnsFailureRefreshRate := None; LbPolicy := CLUSTER_PROVIDED;
     cl_Subset := None; cl_Outlier := None; LoadAssignment := None; cl_Socket := ts;
     TransportSocketMatches := []; ProtocolOptions := opts; cl_rest := "" |}.

Definition buildDFPClusterShape (name : string) (ts : option (TransportSocket Any)) (cfg : DnsCacheConfig)
    : outcome string (Cluster Any) :=
  let! dfpAny := wrapped ("marshal dfp cluster " ++ name)%string (New (MDfpCluster cfg)) in
  Ok (baseCluster name (CustomClusterType "envoy.clusters.dynamic_forward_proxy" dfpAny) ts []).

Definition buildDFPCluster (cfg : DnsCacheConfig) : outcome string (Cluster Any) :=
  let! tlsAny := wrapped "marshal upstream TLS context" (New (MUpstreamTls
    {| Sni := ""; AutoHostSni := true; up_Alpn := ["h2"; "http/1.1"];
       TrustedCa := "/etc/ssl/certs/ca-certificates.crt"; MatchSANs := [] |})) in
  let! c := buildDFPClusterShape DFPClusterName (Some (mkTS tlsTransportSocketName (Some tlsAny))) cfg in
  let! httpOptsAny := wrapped "marshal http protocol options" (New (MHttpOptions
    {| AutoSni := true; AutoSanValidation := true; AutoConfig := true; ho_Filters := [] |})) in
  Ok (baseCluster (cl_Name c) (Discovery c) (cl_Socket c)
        [("envoy.extensions.upstreams.http.v3.HttpProtocolOptions", httpOptsAny)]).

Definition buildDFPPlainCluster (cfg : DnsCacheConfig) : outcome string (Cluster Any) :=
  buildDFPClusterShape DFPPlainClusterName None cfg.

Definition buildOriginalDstCluster : Cluster Any := baseCluster OriginalDstClusterName ORIGINAL_DST None [].

Definition rename (name : string) (c : Cluster Any) : Cluster Any :=
  mkCluster name (ConnectTimeout _ c) (Discovery c) (cl_Family c) (RespectDnsTtl _ c) (DnsRefreshRate _ c)
    (DnsFailureRefreshRate _ c) (LbPolicy _ c) (cl_Subset c) (cl_Outlier c) (LoadAssignment c) (cl_Socket c)
    (TransportSocketMatches c) (ProtocolOptions c) (cl_rest _ c).

End Listeners.

(** ** The server and its hooks *)

Record Server := mkServer {
  sv_settings : settings;
  dnsCacheByEG : gmap NamespacedName DnsCacheConfig;
  llmByEG : gmap NamespacedName llmConfig;
}.

Definition NewServer (certProviderURI extProcURI : string) (mtls : bool) : Server :=
  let host := match Budget.netSplitHostPort certProviderURI with Some (h, _) => h | None => certProviderURI end in
  mkServer (mkSettings certProviderURI extProcURI mtls host) ∅ ∅.

Definition dnsCacheConfigFor (client : option api) (key : NamespacedName) (s : Server) : DnsCacheConfig * Server :=
  let cfg := mkDnsCache (dnsCacheNameFor (nn_name key)) (lookupFamilyFor client key) in
  (cfg, mkServer (sv_settings s) (<[key := cfg]> (dnsCacheByEG s)) (llmByEG s)).

Section Hooks.
Context {Any : Type} {PB : AnyPb Any} (reg : Registry.registry) (sha256_hex12 : string -> string).

Definition PostHTTPListenerModify (client : option api) (listener : option (Listener Any)) (s : Server)
    : option (Listener Any) * Server :=
  match listener with
  | None => (None, s)
  | Some l =>
      let '(l, _) := allowExtProcRoutingMutation l in
      match egressGatewayFromListener l with
      | None => (Some l, s)
      | Some key =>
          match shapeFromListener l with
          | None => (Some l, s)
          | Some sh =>
              let '(cfg, s) := dnsCacheConfigFor client key s in
              match sh with
              | ShapeTLSTerminate | ShapeHTTPS | ShapeHTTP =>
                  let llmCfg := llmConfigFor reg sha256_hex12 client key in
                  let s := mkServer (sv_settings s) (dnsCacheByEG s) (<[key := llmCfg]> (llmByEG s)) in
                  (Some (applyHTTPShape (sv_settings s) key sh cfg llmCfg l), s)
              | ShapeTLSPassthrough => (Some (applyTLSPassthroughShape (sv_settings s) key cfg l), s)
              | ShapeTCP => (Some (applyTCPShape (sv_settings s) key l), s)
              end
          end
      end
  end.

(** [Range] visits every entry of the map once, in an order that is not
    specified; nothing below depends on it. *)
Definition dfpPair (e : NamespacedName * DnsCacheConfig) : list (Cluster Any) :=
  match buildDFPCluster e.2 with
  | Ok dfp =>
      match buildDFPPlainCluster e.2 with
      | Ok plain => [rename (dfpClusterNameFor (nn_name e.1)) dfp; rename (dfpPlainClusterNameFor (nn_name e.1)) plain]
      | _ => []
      end
  | _ => []
  end.

Definition llmClusters (st : settings) (e : NamespacedName * llmConfig) : list (Cluster Any) :=
  flat_map (fun rule => match buildLLMCluster st rule e.1 (lookupFamily e.2) with Ok c => [c] | _ => [] end)
    (lc_rules e.2).

Definition ownName (name : string) : bool :=
  String.eqb name OriginalDstClusterName || HasPrefix name DFPClusterName || HasPrefix name ClusterPrefix.

Definition ownClusters (s : Server) : list (Cluster Any) :=
  flat_map dfpPair (map_to_list (dnsCacheByEG s))
  ++ flat_map (llmClusters (sv_settings s)) (map_to_list (llmByEG s))
  ++ [buildOriginalDstCluster].

(** The clusters; the secrets of the request are returned as they are. *)
Definition PostTranslateModify {Secret} (req : list (Cluster Any) * list Secret) (s : Server)
    : list (Cluster Any) * list Secret :=
  (ownClusters s ++ List.filter (fun c => negb (ownName (cl_Name c))) req.1, req.2).

(** The other two hooks change nothing. *)
Definition PostRouteModify {R} (r : R) : R := r.
Definition PostVirtualHostModify {V} (v : V) : V := v.

End Hooks.

(** ** Names read back *)

(** The name Envoy Gateway gives the listener of a section of a Gateway. *)
Definition listenerName (ns gateway section : string) : string := (ns ++ "/" ++ gateway ++ "/" ++ section)%string.

Lemma Split_listenerName ns gw section :
  Count ns "/" = 0%nat -> Count gw "/" = 0%nat -> Count section "/" = 0%nat ->
  Split "/" (listenerName ns gw section) = [ns; gw; section].
Proof.
  intros Hn Hg Hs. unfold listenerName.
  change (ns ++ "/" ++ gw ++ "/" ++ section)%string with (ns ++ String "/" (gw ++ String "/" section))%string.
  rewrite !Split_app, !Split_plain by done. done.
Qed.

(** The listener that Envoy Gateway generates for a section of a gateway's
    Gateway object is recognised as that gateway's and with the shape its
    section name encodes. *)
Lemma listener_recognised {Any} (l : Listener Any) ns eg name sh :
  ln_Name l = listenerName ns (GatewayNamePrefix ++ eg)%string (EncodeListenerSectionName name sh) ->
  ns <> "" -> Count ns "/" = 0%nat -> Count eg "/" = 0%nat -> Count name "/" = 0%nat ->
  egressGatewayFromListener l = Some (mkNN ns eg) /\ shapeFromListener l = Some sh.
Proof.
  intros Hl Hns Hcn Hce Hcs. unfold egressGatewayFromListener, shapeFromListener. rewrite Hl.
  rewrite Split_listenerName; [|done|by rewrite Count_app|].
  - split.
    + apply String.eqb_neq in Hns. rewrite Hns. rewrite (proj2 (HasPrefix_spec _ _)) by by eexists.
      cbn [negb]. by rewrite TrimPrefix_app.
    + cbn [length Nat.ltb Nat.leb List.last].
      by rewrite (proj2 (section_name_roundtrip _ name sh)).
  - unfold EncodeListenerSectionName. rewrite !Count_app, Hcs. by destruct sh.
Qed.

(** ** The clusters of a translation *)

Lemma filter_none {A} (f : A -> bool) l : (forall x, In x l -> f x = false) -> List.filter f l = [].
Proof. induction l as [|x l IH]; [done|]. intros H. cbn. rewrite (H x) by by left. apply IH. auto using in_cons. Qed.

Lemma filter_idem {A} (f : A -> bool) l : List.filter f (List.filter f l) = List.filter f l.
Proof. apply ExtMut.filter_all. by intros x [_ H]%filter_In. Qed.

Section Translation.
Context {Any : Type} {PB : AnyPb Any}.

Lemma HasPrefix_app p s : HasPrefix (p ++ s)%string p = true.
Proof. apply HasPrefix_spec. by eexists. Qed.

Lemma dfpPair_names (e : NamespacedName * DnsCacheConfig) (c : Cluster Any) :
  In c (dfpPair e) -> cl_Name c = dfpClusterNameFor (nn_name e.1) \/ cl_Name c = dfpPlainClusterNameFor (nn_name e.1).
Proof.
  unfold dfpPair. destruct (buildDFPCluster e.2); [|done..]. destruct (buildDFPPlainCluster e.2); [|done..].
  intros [<-|[<-|[]]]; auto.
Qed.

Lemma llmClusters_names st (e : NamespacedName * llmConfig) (c : Cluster Any) :
  In c (llmClusters st e) -> exists rule, In rule (lc_rules e.2) /\ cl_Name c = ClusterName (lr_key rule).
Proof.
  unfold llmClusters. intros (rule & Hr & Hc)%in_flat_map. exists rule. split; [done|].
  destruct (buildLLMCluster st rule e.1 (lookupFamily e.2)) eqn:E; [|done..]. destruct Hc as [<-|[]].
  by apply buildLLMCluster_endpoints in E as [? _].
Qed.

Lemma ownClusters_own s (c : Cluster Any) : In c (ownClusters s) -> ownName (cl_Name c) = true.
Proof.
  unfold ownClusters, ownName. rewrite !in_app_iff, !in_flat_map. intros [(e & _ & H)|[(e & _ & H)|[<-|[]]]].
  - apply dfpPair_names in H as [->| ->].
    + unfold dfpClusterNameFor. by rewrite HasPrefix_app, orb_true_r.
    + change (dfpPlainClusterNameFor (nn_name e.1)) with (DFPClusterName ++ ("-plain-" ++ nn_name e.1))%string.
      by rewrite HasPrefix_app, orb_true_r.
  - apply llmClusters_names in H as (rule & _ & ->). unfold ClusterName. by rewrite HasPrefix_app, orb_true_r.
  - done.
Qed.

(** Translating again changes nothing. For every state of the server the
    hook keeps the foreign clusters in their order and the secrets, replaces
    every cluster of its own name space, whatever an earlier cycle left there,
    and applied to its own answer it returns that answer. *)
Theorem translate_idempotent {Secret} (req : list (Cluster Any) * list Secret) (s : Server) :
  let out := PostTranslateModify req s in
  PostTranslateModify out s = out
  /\ out.2 = req.2
  /\ List.filter (fun c => negb (ownName (cl_Name c))) out.1 = List.filter (fun c => negb (ownName (cl_Name c))) req.1
  /\ List.filter (fun c => ownName (cl_Name c)) out.1 = ownClusters s.
Proof.
  unfold PostTranslateModify. cbn [fst snd].
  assert (List.filter (fun c => negb (ownName (cl_Name c))) (ownClusters (Any := Any) s) = []) as Hown.
  { apply filter_none. intros c Hc. by rewrite (ownClusters_own s c Hc). }
  split_and!.
  - rewrite List.filter_app, Hown. cbn [app]. f_equal. f_equal. rewrite filter_idem. done.
  - done.
  - rewrite List.filter_app, Hown. cbn [app]. apply filter_idem.
  - rewrite List.filter_app. rewrite (ExtMut.filter_all _ (ownClusters s)) by apply ownClusters_own.
    rewrite filter_none; [by rewrite app_nil_r|]. intros c [_ Hc]%filter_In. by destruct (ownName (cl_Name c)).
Qed.

End Translation.

(** ** The rewritten listener *)

Section Rewrite.
Context {Any : Type} {PB : AnyPb Any} {L : AnyPbLaws Any}.

(** Ours are inserted before the first router, and nothing else moves. *)
Lemma insertBeforeRouter_spec (ours fs : list (HttpFilter Any)) :
  (exists pre r post, fs = pre ++ r :: post /\ hf_Name r = routerFilterName
      /\ Forall (fun f => hf_Name f <> routerFilterName) pre
      /\ insertBeforeRouter ours fs = pre ++ ours ++ r :: post)
  \/ (Forall (fun f => hf_Name f <> routerFilterName) fs /\ insertBeforeRouter ours fs = fs ++ ours).
Proof.
  induction fs as [|f fs IH]; [by right|]. cbn [insertBeforeRouter].
  destruct (String.eqb_spec (hf_Name f) routerFilterName) as [E|E]; [left; by exists [], f, fs|].
  destruct IH as [(pre & r & post & -> & Hr & Hp & ->)|(Hf & ->)]; [left|right].
  - exists (f :: pre), r, post. split_and!; [done..|by constructor|done].
  - split; [by constructor|done].
Qed.

(** A connection manager, as Envoy Gateway generates it. *)
Definition isHcm (f : Filter Any) (h : HttpConnectionManager Any) : Prop :=
  f_Name f = hcmFilterName /\ exists a, f_Config f = Some a /\ Unmarshal a = Ok (MHcm h).

Lemma toHcm_is a h : Unmarshal a = Ok (MHcm (Any := Any) h) -> toHcm a = Ok h.
Proof. unfold toHcm. by intros ->. Qed.

Lemma new_unmarshal (m : message Any) : exists a, New m = Ok a /\ Unmarshal a = Ok m.
Proof. destruct (new_total m) as [a Ha]. exists a. split; [done|]. by apply unmarshal_new. Qed.

(** The connection manager after the rewrite. *)
Record rewritten (key : NamespacedName) (llmCfg : llmConfig) (s : settings) (cfg : DnsCacheConfig)
    (h h' : HttpConnectionManager Any) : Prop := {
  rw_filters : exists ep dfp, HttpFilters h' = insertBeforeRouter [ep; dfp] (HttpFilters h)
    /\ hf_Name ep = extProcFilterName
    /\ (exists a, hf_Config ep = Some a
         /\ Unmarshal a = Ok (MExtProc (egressExtProc (ExtProcTargetURI s) (channelAuthorityFor s key) (clientChannelCreds s))))
    /\ hf_Name dfp = dfpHTTPFilterName
    /\ (exists a, hf_Config dfp = Some a /\ Unmarshal a = Ok (MDfpFilter cfg));
  rw_routes : RouteConfig h' = Some (egressRoutes key llmCfg);
  rw_rest : hcm_rest h' = hcm_rest h;
}.

Lemma ourFilters_spec s key cfg :
  exists ep dfp, ourFilters (Any := Any) s key cfg = Ok [ep; dfp]
    /\ hf_Name ep = extProcFilterName
    /\ (exists a, hf_Config ep = Some a
         /\ Unmarshal a = Ok (MExtProc (egressExtProc (ExtProcTargetURI s) (channelAuthorityFor s key) (clientChannelCreds s))))
    /\ hf_Name dfp = dfpHTTPFilterName
    /\ (exists a, hf_Config dfp = Some a /\ Unmarshal a = Ok (MDfpFilter cfg)).
Proof.
  unfold ourFilters, buildDFPHTTPFilter, buildExtProcFilter.
  destruct (new_unmarshal (MDfpFilter cfg)) as (a & -> & Ha). cbn [wrapped obind].
  destruct (new_unmarshal (MExtProc (egressExtProc (ExtProcTargetURI s) (channelAuthorityFor s key) (clientChannelCreds s))))
    as (b & -> & Hb). cbn [wrapped obind].
  eexists _, _. split; [done|]. cbn. split_and!; [done|by eexists|done|by eexists].
Qed.

Lemma rewriteOneHCM_spec key llmCfg (ours : list (HttpFilter Any)) f h :
  isHcm f h -> exists f' h', rewriteOneHCM key llmCfg ours f = Ok f' /\ isHcm f' h'
    /\ HttpFilters h' = insertBeforeRouter ours (HttpFilters h)
    /\ RouteConfig h' = Some (egressRoutes key llmCfg) /\ hcm_rest h' = hcm_rest h.
Proof.
  intros [Hn (a & Ha & Hu)]. unfold rewriteOneHCM. rewrite Hn, String.eqb_refl, Ha. cbn [negb].
  rewrite (toHcm_is _ _ Hu). cbn [wrapped obind]. unfold buildEgressAccessLog.
  destruct (new_total (MFileAccessLog (Any := Any) "/dev/stdout" accessLogFormat)) as [al ->]. cbn [wrapped obind].
  match goal with |- context [New (MHcm ?h')] => destruct (new_unmarshal (MHcm h')) as (b & -> & Hb); exists (mkFilter hcmFilterName (Some b)), h' end.
  cbn [wrapped obind]. split_and!; [done| |done..]. split; [done|]. by exists b.
Qed.

(** Every filter of every chain of the scaffold is a connection manager. *)
Definition chainsOf (l : Listener Any) : list (FilterChain Any) :=
  FilterChains l ++ match DefaultFilterChain l with Some d => [d] | None => [] end.

Definition scaffold (fc : FilterChain Any) : Prop := Forall (fun f => exists h, isHcm f h) (fc_Filters fc).

Lemma rewriteFilters_spec key llmCfg (ours : list (HttpFilter Any)) fs :
  Forall (fun f => exists h, isHcm f h) fs ->
  Forall2 (fun f f' => exists h h', isHcm f h /\ isHcm f' h' /\ HttpFilters h' = insertBeforeRouter ours (HttpFilters h)
             /\ RouteConfig h' = Some (egressRoutes key llmCfg) /\ hcm_rest h' = hcm_rest h)
    fs (rewriteFilters key llmCfg ours fs).
Proof.
  induction 1 as [|f fs (h & Hh) Hfs IH]; [constructor|]. cbn [rewriteFilters].
  destruct (rewriteOneHCM_spec key llmCfg ours f h Hh) as (f' & h' & -> & H1 & H2 & H3 & H4).
  constructor; [|done]. by exists h, h'.
Qed.

Lemma injectHandshaker_filters s key (fc fc' : FilterChain Any) :
  injectHandshaker s key fc = Ok fc' -> fc_Filters fc' = fc_Filters fc.
Proof.
  unfold injectHandshaker. destruct (fc_Socket fc) as [ts|]; [|by intros [= <-]].
  destruct (negb _); [by intros [= <-]|]. destruct (ts_Config ts); [|by intros [= <-]].
  intros H. repeat apply obind_Ok_inv in H as (? & _ & H). by injection H as <-.
Qed.

Lemma httpChain_rewritten s key sh cfg llmCfg fc :
  scaffold fc ->
  Forall2 (fun f f' => exists h h', isHcm f h /\ isHcm f' h' /\ rewritten key llmCfg s cfg h h')
    (fc_Filters fc) (fc_Filters (httpChain s key sh cfg llmCfg fc)).
Proof.
  intros Hs. unfold httpChain.
  set (fc1 := match sh with ShapeHTTP => _ | _ => _ end).
  assert (fc_Filters fc1 = fc_Filters fc) as Hf.
  { unfold fc1. destruct sh; try done;
      (destruct (injectHandshaker s key fc) as [fc'| |] eqn:E; [by apply injectHandshaker_filters in E|done..]). }
  unfold rewriteHCM. destruct (ourFilters_spec s key cfg) as (ep & dfp & -> & H).
  cbn. rewrite Hf. eapply Forall2_impl; [by apply rewriteFilters_spec|].
  intros f f' (h & h' & H1 & H2 & H3 & H4 & H5). exists h, h'. split_and!; [done..|]. split; [|done..].
  by exists ep, dfp.
Qed.

(** ** References from listeners to clusters *)

Definition clustersOfFilter (f : Filter Any) : list string :=
  match f_Config f with
  | None => []
  | Some a =>
      match Unmarshal a with
      | Ok (MHcm h) => match RouteConfig h with
                       | Some rc => map rt_Cluster (flat_map vh_Routes (VirtualHosts rc))
                       | None => []
                       end
      | Ok (MTcpProxy _ c) => [c]
      | _ => []
      end
  end.

Definition clustersOf (l : Listener Any) : list string :=
  flat_map (fun fc => flat_map clustersOfFilter (fc_Filters fc)) (chainsOf l).

Lemma in_Forall2_r {A B} (P : A -> B -> Prop) l l' y : Forall2 P l l' -> In y l' -> exists x, In x l /\ P x y.
Proof.
  induction 1 as [|a b l l' Hp _ IH]; [done|]. intros [->|H]; [exists a; split; [by left|done]|].
  destruct (IH H) as (x & Hx & HP). exists x. split; [by right|done].
Qed.

Lemma chainsOf_set cs d (l : Listener Any) :
  chainsOf (setChains cs d l) = cs ++ match d with Some x => [x] | None => [] end.
Proof. done. Qed.

Lemma ensure_chains (l : Listener Any) :
  chainsOf (ensureTLSInspectorFilter (ensureProxyProtocolFilter l)) = chainsOf l.
Proof.
  unfold ensureTLSInspectorFilter, ensureProxyProtocolFilter.
  destruct (hasListenerFilter proxyProtocolListenerFilterName l), (hasListenerFilter tlsInspectorListenerFilterName _);
    try destruct (New (MProxyProtocol _)); try destruct (New MTlsInspector); done.
Qed.

Lemma clusters_http s key sh cfg llmCfg (l : Listener Any) n :
  Forall scaffold (chainsOf l) -> In n (clustersOf (applyHTTPShape s key sh cfg llmCfg l)) ->
  n = dfpClusterNameFor (nn_name key) \/ exists rule, In rule (lc_rules llmCfg) /\ n = ClusterName (lr_key rule).
Proof.
  intros Hs Hn. unfold clustersOf in Hn. apply in_flat_map in Hn as (fc' & Hfc' & Hn).
  unfold applyHTTPShape in Hfc'.
  assert (exists fc, In fc (chainsOf l) /\ fc' = httpChain s key sh cfg llmCfg fc) as (fc & Hfc & ->).
  { rewrite <- (ensure_chains l). set (l1 := ensureTLSInspectorFilter _) in *.
    rewrite chainsOf_set in Hfc'. unfold chainsOf. apply in_app_iff in Hfc' as [(fc & <- & H)%in_map_iff|H].
    - exists fc. split; [apply in_app_iff; by left|done].
    - destruct (DefaultFilterChain l1) as [d|]; [|done]. destruct H as [<-|[]]. exists d.
      split; [apply in_app_iff; right; by left|done]. }
  rewrite Forall_forall in Hs. specialize (Hs fc). apply in_flat_map in Hn as (f' & Hf' & Hn).
  pose proof (httpChain_rewritten s key sh cfg llmCfg fc (Hs (proj2 (list_elem_of_In _ _) Hfc))) as H2.
  destruct (in_Forall2_r _ _ _ _ H2 Hf') as (f & _ & h & h' & _ & [_ (a & Ha & Hu)] & [_ Hr _]).
  unfold clustersOfFilter in Hn. rewrite Ha, Hu, Hr in Hn. cbn in Hn. rewrite app_nil_r, map_app in Hn.
  apply in_app_iff in Hn as [Hn|[<-|[]]]; [|by left]. right.
  apply in_map_iff in Hn as (r & <- & (rule & <- & Hrule)%in_map_iff). by exists rule.
Qed.

Lemma clusters_passthrough s key cfg (l : Listener Any) n :
  In n (clustersOf (applyTLSPassthroughShape s key cfg l)) -> n = dfpPlainClusterNameFor (nn_name key).
Proof.
  unfold applyTLSPassthroughShape, buildTLSPassthroughChain, buildNetworkExtProcFilter, buildSNIDFPFilter, buildTCPProxyFilter.
  destruct (new_unmarshal (MNetExtProc (Any := Any) (networkExtProc (ExtProcTargetURI s) (channelAuthorityFor s key) (clientChannelCreds s)))) as (a & -> & Ha).
  destruct (new_unmarshal (MSniDfp (Any := Any) 443 cfg)) as (b & -> & Hb).
  destruct (new_unmarshal (MTcpProxy (Any := Any) "clrk_egress_tcp" (dfpPlainClusterNameFor (nn_name key)))) as (c & -> & Hc).
  cbn [wrapped obind]. unfold clustersOf. rewrite chainsOf_set. cbn. unfold clustersOfFilter. cbn. rewrite Ha, Hb, Hc.
  cbn. by intros [<-|[]].
Qed.

Lemma clusters_tcp s key (l : Listener Any) n :
  In n (clustersOf (applyTCPShape s key l)) -> n = OriginalDstClusterName.
Proof.
  unfold applyTCPShape, buildPlainTCPChain, buildNetworkExtProcFilter, buildTCPProxyFilter.
  destruct (new_unmarshal (MNetExtProc (Any := Any) (networkExtProc (ExtProcTargetURI s) (channelAuthorityFor s key) (clientChannelCreds s)))) as (a & -> & Ha).
  destruct (new_unmarshal (MTcpProxy (Any := Any) "clrk_egress_tcp" OriginalDstClusterName)) as (c & -> & Hc).
  cbn [wrapped obind]. unfold clustersOf. rewrite chainsOf_set. cbn. unfold clustersOfFilter. cbn. rewrite Ha, Hc.
  cbn. by intros [<-|[]].
Qed.

(** The patch keeps names, sockets and the scaffold. *)
Lemma patch_name (l : Listener Any) : ln_Name (allowExtProcRoutingMutation l).1 = ln_Name l.
Proof. done. Qed.

Lemma patch_recognised (l l1 : Listener Any) n :
  allowExtProcRoutingMutation l = (l1, n) ->
  egressGatewayFromListener l1 = egressGatewayFromListener l /\ shapeFromListener l1 = shapeFromListener l.
Proof.
  intros E. assert (ln_Name l1 = ln_Name l) as Hn by (by rewrite <- (patch_name l), E).
  unfold egressGatewayFromListener, shapeFromListener. by rewrite Hn.
Qed.

Lemma patchFilter_hcm (f : Filter Any) h : isHcm f h -> exists h', isHcm (patchFilter f).1 h'.
Proof.
  intros Hf. pose proof Hf as [Hn (a & Ha & Hu)]. unfold patchFilter. rewrite Hn, String.eqb_refl, Ha, (toHcm_is _ _ Hu).
  cbn [negb]. destruct (0 <? _)%nat; [|by exists h].
  match goal with |- context [New (MHcm ?h')] => destruct (new_unmarshal (MHcm h')) as (b & -> & Hb); exists h' end.
  split; [done|]. by exists b.
Qed.

Lemma patch_scaffold (l : Listener Any) :
  Forall scaffold (chainsOf l) -> Forall scaffold (chainsOf (allowExtProcRoutingMutation l).1).
Proof.
  assert (forall fc, scaffold fc -> scaffold (patchChain fc).1) as Hc.
  { intros fc Hfc. unfold scaffold, patchChain in *. cbn. rewrite map_map. apply Forall_map.
    eapply Forall_impl; [exact Hfc|]. intros f [h Hh]. by apply (patchFilter_hcm f h). }
  unfold allowExtProcRoutingMutation. cbn [fst]. rewrite chainsOf_set. unfold chainsOf. rewrite !Forall_app, map_map.
  intros [H1 H2]. split.
  - apply Forall_map. eapply Forall_impl; [exact H1|]. done.
  - destruct (DefaultFilterChain l) as [d|]; cbn; [|done]. apply Forall_cons in H2 as [Hd _]. by repeat constructor; apply Hc.
Qed.

(** ** Later calls *)

Context (reg : Registry.registry) (sha256_hex12 : string -> string).

Definition hook (s : Server) (c : option api * option (Listener Any)) : Server :=
  (PostHTTPListenerModify reg sha256_hex12 c.1 c.2 s).2.

(** A call for another gateway, or one that reads the same objects. *)
Definition quiet (key : NamespacedName) (client : option api) (c : option api * option (Listener Any)) : Prop :=
  forall l, c.2 = Some l -> egressGatewayFromListener l = Some key -> c.1 = client.

Definition dnsFor (client : option api) (key : NamespacedName) : DnsCacheConfig :=
  mkDnsCache (dnsCacheNameFor (nn_name key)) (lookupFamilyFor client key).

Definition httpShape (sh : shape) : bool :=
  match sh with ShapeTLSTerminate | ShapeHTTPS | ShapeHTTP => true | _ => false end.

(** What a call leaves in the server. *)
Lemma hook_state s client (l : Listener Any) key sh :
  egressGatewayFromListener l = Some key -> shapeFromListener l = Some sh ->
  hook s (client, Some l)
  = mkServer (sv_settings s) (<[key := dnsFor client key]> (dnsCacheByEG s))
      (if httpShape sh then <[key := llmConfigFor reg sha256_hex12 client key]> (llmByEG s) else llmByEG s).
Proof.
  intros Hk Hsh. unfold hook, PostHTTPListenerModify. cbn [fst snd].
  destruct (allowExtProcRoutingMutation l) as [l1 n] eqn:E. apply patch_recognised in E as [-> ->].
  rewrite Hk, Hsh. by destruct sh.
Qed.

Lemma hook_other s c : (forall l, c.2 = Some l -> egressGatewayFromListener l = None \/ shapeFromListener l = None) -> hook s c = s.
Proof.
  destruct c as [client [l|]]; [|done]. intros H. unfold hook, PostHTTPListenerModify. cbn [fst snd].
  destruct (allowExtProcRoutingMutation l) as [l1 n] eqn:E. apply patch_recognised in E as [-> ->].
  destruct (H l eq_refl) as [-> | ->]; [done|]. by destruct (egressGatewayFromListener l).
Qed.

(** The gateway's entries, as the snapshot determines them. *)
Definition remembers (client : option api) (key : NamespacedName) (http : bool) (s : Server) : Prop :=
  dnsCacheByEG s !! key = Some (dnsFor client key)
  /\ (http = true -> llmByEG s !! key = Some (llmConfigFor reg sha256_hex12 client key)).

Lemma quiet_remembers client key http s c :
  quiet key client c -> remembers client key http s -> remembers client key http (hook s c).
Proof.
  destruct c as [cl [l|]]; [|done]. intros Hq [Hd Hl].
  destruct (egressGatewayFromListener l) as [k|] eqn:Ek; [|rewrite hook_other; [done|intros ? [= <-]; by left]].
  destruct (shapeFromListener l) as [sh|] eqn:Es; [|rewrite hook_other; [done|intros ? [= <-]; by right]].
  rewrite (hook_state s cl l k sh Ek Es). unfold remembers. cbn [dnsCacheByEG llmByEG].
  destruct (decide (k = key)) as [->|Hne].
  - pose proof (Hq l eq_refl Ek) as Hcl. cbn in Hcl. subst cl. rewrite lookup_insert_eq. split; [done|]. intros Hh.
    destruct (httpShape sh); [by rewrite lookup_insert_eq|by apply Hl].
  - rewrite lookup_insert_ne by done. split; [done|]. intros Hh.
    destruct (httpShape sh); [rewrite lookup_insert_ne by done|]; by apply Hl.
Qed.

Lemma in_flat_map_entry {V} (f : NamespacedName * V -> list (Cluster Any)) (m : gmap NamespacedName V) k v c :
  m !! k = Some v -> In c (f (k, v)) -> In c (flat_map f (map_to_list m)).
Proof. intros Hm Hc. apply in_flat_map. exists (k, v). split; [by apply list_elem_of_In, elem_of_map_to_list|done]. Qed.

Lemma dfpPair_total (e : NamespacedName * DnsCacheConfig) :
  exists d p : Cluster Any, dfpPair e = [d; p] /\ cl_Name d = dfpClusterNameFor (nn_name e.1)
    /\ cl_Name p = dfpPlainClusterNameFor (nn_name e.1).
Proof.
  unfold dfpPair, buildDFPCluster, buildDFPPlainCluster, buildDFPClusterShape. pack_all. by eexists _, _.
Qed.

(** C10: no listener names a cluster that does not exist.  After the hook has
    rewritten a gateway's listener, and after any further calls, each for
    another gateway or reading the same objects, the next translation defines
    every cluster that the rewritten listener's routes and proxies name. *)
Theorem no_dangling_cluster {Secret} client (l l' : Listener Any) s s1 key sh calls (req : list (Cluster Any) * list Secret) n :
  PostHTTPListenerModify reg sha256_hex12 client (Some l) s = (Some l', s1) ->
  egressGatewayFromListener l = Some key -> shapeFromListener l = Some sh ->
  Forall scaffold (chainsOf l) -> Forall (quiet key client) calls ->
  In n (clustersOf l') ->
  exists c, In c (PostTranslateModify req (fold_left hook calls s1)).1 /\ cl_Name c = n.
Proof.
  intros Hpost Hk Hsh Hsc Hq Hn.
  assert (s1 = hook s (client, Some l)) as -> by (unfold hook; cbn [fst snd]; by rewrite Hpost).
  assert (remembers client key (httpShape sh) (fold_left hook calls (hook s (client, Some l)))) as [Hd Hl].
  { assert (remembers client key (httpShape sh) (hook s (client, Some l))) as H0.
    { rewrite (hook_state s client l key sh Hk Hsh). split; cbn; [by rewrite lookup_insert_eq|].
      intros ->. by rewrite lookup_insert_eq. }
    clear Hpost Hn. revert H0. generalize (hook s (client, Some l)). induction Hq as [|c calls Hc _ IH]; [done|].
    intros s0 H0. cbn. apply IH. by apply quiet_remembers. }
  set (s2 := fold_left hook calls _) in *.
  assert (forall c : Cluster Any, In c (ownClusters s2) -> In c (PostTranslateModify req s2).1) as Hin.
  { intros c Hc. apply in_app_iff. by left. }
  destruct (dfpPair_total (key, dnsFor client key)) as (d & p & Hpair & Hdn & Hpn). cbn in Hdn, Hpn.
  assert (forall c, In c [d; p] -> In c (PostTranslateModify req s2).1) as Hdp.
  { intros c Hc. apply Hin, in_app_iff. left. apply (in_flat_map_entry _ _ key (dnsFor client key)); [done|]. by rewrite Hpair. }
  unfold PostHTTPListenerModify in Hpost. destruct (allowExtProcRoutingMutation l) as [l1 k] eqn:E1.
  apply patch_scaffold in Hsc. rewrite E1 in Hsc. cbn [fst] in Hsc. apply patch_recognised in E1 as [Hk1 Hs1].
  rewrite Hk1, Hs1, Hk, Hsh in Hpost. cbn in Hpost.
  assert (httpShape sh = true -> n = dfpClusterNameFor (nn_name key)
            \/ (exists rule, In rule (lc_rules (llmConfigFor reg sha256_hex12 client key)) /\ n = ClusterName (lr_key rule)) ->
          exists c, In c (PostTranslateModify req s2).1 /\ cl_Name c = n) as Hhttp.
  { intros Hh [->|(rule & Hrule & ->)]; [exists d; split; [apply Hdp; by left|done]|].
    destruct (buildLLMCluster_total (sv_settings s2) rule key
                (lookupFamily (llmConfigFor reg sha256_hex12 client key))) as [cl Hcl].
    exists cl. split; [|by apply buildLLMCluster_endpoints in Hcl as [? _]].
    apply Hin. unfold ownClusters. rewrite !in_app_iff. right. left.
    apply (in_flat_map_entry _ _ key _ _ (Hl Hh)). unfold llmClusters. apply in_flat_map. exists rule.
    split; [done|]. cbn. rewrite Hcl. by left. }
  destruct sh; injection Hpost as <- _.
  - by apply Hhttp; [|eapply clusters_http].
  - by apply Hhttp; [|eapply clusters_http].
  - by apply Hhttp; [|eapply clusters_http].
  - apply clusters_passthrough in Hn as ->. exists p. split; [apply Hdp; right; by left|done].
  - apply clusters_tcp in Hn as ->. exists buildOriginalDstCluster. split; [|done].
    apply Hin. unfold ownClusters. rewrite !in_app_iff. right. right. by left.
Qed.

(** ** What a rewritten listener looks like *)

Lemma patchFilter_names (f : Filter Any) h :
  isHcm f h -> exists h', isHcm (patchFilter f).1 h' /\ map hf_Name (HttpFilters h') = map hf_Name (HttpFilters h).
Proof.
  intros Hf. pose proof Hf as [Hn (a & Ha & Hu)]. unfold patchFilter. rewrite Hn, String.eqb_refl, Ha, (toHcm_is _ _ Hu).
  cbn [negb]. destruct (0 <? _)%nat; [|by exists h].
  match goal with |- context [New (MHcm ?h')] => destruct (new_unmarshal (MHcm h')) as (b & -> & Hb); exists h' end.
  split; [split; [done|]; by exists b|]. cbn. rewrite !map_map. apply map_ext. intros hf. unfold patchHttpFilter.
  destruct (negb _); [done|]. destruct (hf_Config hf); [|done]. destruct (toExtProc _); [|done..].
  destruct (routingAllowed _); [done|]. by destruct (New _).
Qed.

Lemma chain_patch_rewrite (fc : FilterChain Any) s key sh cfg llmCfg :
  scaffold fc ->
  Forall2 (fun f f' => exists h0 h h', isHcm f h0 /\ map hf_Name (HttpFilters h) = map hf_Name (HttpFilters h0)
             /\ isHcm f' h' /\ rewritten key llmCfg s cfg h h')
    (fc_Filters fc) (fc_Filters (httpChain s key sh cfg llmCfg (patchChain fc).1)).
Proof.
  intros Hs.
  assert (Forall2 (fun f f1 => exists h0 h1, isHcm f h0 /\ isHcm f1 h1 /\ map hf_Name (HttpFilters h1) = map hf_Name (HttpFilters h0))
            (fc_Filters fc) (fc_Filters (patchChain fc).1)) as H1.
  { cbn. rewrite map_map. induction Hs as [|f fs [h Hh] _ IH]; [constructor|]. cbn. constructor; [|done].
    destruct (patchFilter_names f h Hh) as (h' & ? & ?). by exists h, h'. }
  assert (scaffold (patchChain fc).1) as Hs1.
  { clear Hs. unfold scaffold. induction H1 as [|f f1 fs fs1 (h0 & h1 & _ & H & _) _ IH]; constructor; [by exists h1|done]. }
  pose proof (httpChain_rewritten s key sh cfg llmCfg _ Hs1) as H2. revert H2.
  generalize (fc_Filters (httpChain s key sh cfg llmCfg (patchChain fc).1)). clear Hs Hs1.
  induction H1 as [|f f1 fs fs1 (h0 & h1 & Ha & Hb & Hc) _ IH]; intros l H2; [by inversion H2; constructor|].
  apply Forall2_cons_inv_l in H2 as (f' & l' & (h & h' & Hd & He & Hr) & H2 & ->). constructor; [|by apply IH].
  assert (h1 = h) as ->.
  { destruct Hb as [_ (x & Hx & Hxu)], Hd as [_ (y & Hy & Hyu)]. congruence. }
  by exists h0, h, h'.
Qed.

(** The listener filters after [ensureProxyProtocolFilter] on a listener without one. *)
Definition identityFirst (l : Listener Any) : Prop :=
  exists a rest, ListenerFilters l = mkListenerFilter proxyProtocolListenerFilterName (Some a) :: rest
    /\ Unmarshal a = Ok (MProxyProtocol agentTLVRules).

Lemma ensure_identity (l : Listener Any) :
  hasListenerFilter proxyProtocolListenerFilterName l = false -> identityFirst (ensureProxyProtocolFilter l).
Proof.
  intros H. unfold ensureProxyProtocolFilter. rewrite H.
  destruct (new_unmarshal (MProxyProtocol (Any := Any) agentTLVRules)) as (a & -> & Ha). by exists a, (ListenerFilters l).
Qed.

Lemma inspector_identity (l : Listener Any) :
  identityFirst l -> identityFirst (ensureTLSInspectorFilter l)
    /\ hasListenerFilter tlsInspectorListenerFilterName (ensureTLSInspectorFilter l) = true.
Proof.
  intros (a & rest & Hl & Ha). unfold ensureTLSInspectorFilter.
  destruct (hasListenerFilter tlsInspectorListenerFilterName l) eqn:E; [split; [by exists a, rest|done]|].
  destruct (new_total (MTlsInspector (Any := Any))) as [b ->]. split.
  - exists a, (rest ++ [mkListenerFilter tlsInspectorListenerFilterName (Some b)]). cbn. by rewrite Hl.
  - unfold hasListenerFilter. cbn. by rewrite existsb_app, orb_true_r.
Qed.

Lemma removed_identity (l : Listener Any) :
  identityFirst l -> identityFirst (removeTLSInspectorFilter l)
    /\ hasListenerFilter tlsInspectorListenerFilterName (removeTLSInspectorFilter l) = false.
Proof.
  intros (a & rest & Hl & Ha). split.
  - unfold removeTLSInspectorFilter, identityFirst. cbn [ListenerFilters setListenerFilters]. rewrite Hl.
    cbn [List.filter lf_Name]. by exists a, (List.filter (fun f => negb (String.eqb (lf_Name f) tlsInspectorListenerFilterName)) rest).
  - unfold removeTLSInspectorFilter, hasListenerFilter. cbn. clear Hl. induction (ListenerFilters l) as [|f fs IH]; [done|].
    cbn. destruct (String.eqb (lf_Name f) _) eqn:E; cbn; [done|]. by rewrite E.
Qed.

(** A chain of our own: no TLS, the filters in this order. *)
Definition l4Chain (names : list string) (l : Listener Any) : Prop :=
  exists fc, FilterChains l = [fc] /\ DefaultFilterChain l = None /\ fc_Socket fc = None
    /\ map f_Name (fc_Filters fc) = names.

(** The HTTP shapes: in every connection manager Envoy Gateway's filters keep
    their names and order and ours are [rewritten] in. *)
Definition httpRewritten (s : settings) (key : NamespacedName) (sh : shape) (cfg : DnsCacheConfig) (llmCfg : llmConfig)
    (l l' : Listener Any) : Prop :=
  Forall2 (fun fc fc' =>
             Forall2 (fun f f' => exists h0 h h', isHcm f h0 /\ map hf_Name (HttpFilters h) = map hf_Name (HttpFilters h0)
                        /\ isHcm f' h' /\ rewritten key llmCfg s cfg h h') (fc_Filters fc) (fc_Filters fc')
             /\ (sh = ShapeHTTP -> fc_Socket fc' = None))
    (chainsOf l) (chainsOf l').

Lemma applyHTTPShape_rewritten s key sh cfg llmCfg (l : Listener Any) :
  Forall scaffold (chainsOf l) ->
  httpRewritten s key sh cfg llmCfg l (applyHTTPShape s key sh cfg llmCfg (allowExtProcRoutingMutation l).1).
Proof.
  intros Hs. unfold httpRewritten, applyHTTPShape. rewrite chainsOf_set.
  set (l1 := (allowExtProcRoutingMutation l).1). set (l2 := ensureTLSInspectorFilter _).
  assert (FilterChains l2 = FilterChains l1 /\ DefaultFilterChain l2 = DefaultFilterChain l1) as [-> ->].
  { unfold l2, ensureTLSInspectorFilter, ensureProxyProtocolFilter.
    destruct (hasListenerFilter proxyProtocolListenerFilterName l1), (hasListenerFilter tlsInspectorListenerFilterName _);
      try destruct (New (MProxyProtocol _)); try destruct (New MTlsInspector); done. }
  unfold l1, allowExtProcRoutingMutation. cbn [fst FilterChains DefaultFilterChain setChains].
  assert (forall fc, scaffold fc ->
            Forall2 (fun f f' => exists h0 h h', isHcm f h0 /\ map hf_Name (HttpFilters h) = map hf_Name (HttpFilters h0)
                        /\ isHcm f' h' /\ rewritten key llmCfg s cfg h h') (fc_Filters fc)
                (fc_Filters (httpChain s key sh cfg llmCfg (patchChain fc).1))
            /\ (sh = ShapeHTTP -> fc_Socket (httpChain s key sh cfg llmCfg (patchChain fc).1) = None)) as Hfc.
  { intros fc H. split; [by apply chain_patch_rewrite|]. intros ->. unfold httpChain, rewriteHCM. by destruct (ourFilters s key cfg). }
  unfold chainsOf in *. apply Forall_app in Hs as [H1 H2]. rewrite !map_map. apply Forall2_app.
  - clear -H1 Hfc. induction H1 as [|fc fcs H _ IH]; [constructor|]. cbn [map]. by constructor; [apply Hfc|].
  - destruct (DefaultFilterChain l) as [d|]; cbn; [|constructor]. apply Forall_cons in H2 as [Hd _]. constructor; [by apply Hfc|constructor].
Qed.

(** C21: the listener a gateway's Envoy runs.  For a listener of a gateway
    without a PROXY filter of its own, the rewritten one decodes the PROXY
    header first, with a rule for each of the agent's TLVs; for the HTTP
    shapes each connection manager keeps Envoy Gateway's filters in order,
    then has the external processor (capturing) and after it the forward
    proxy just before the router, with the synthesised routes ahead of the
    catch-all; for TLS passthrough and plain TCP one chain is left, which
    captures and proxies without terminating TLS, the former with the SNI
    inspector and the latter without. *)
Theorem listener_rewritten client (l l' : Listener Any) s s1 key sh :
  PostHTTPListenerModify reg sha256_hex12 client (Some l) s = (Some l', s1) ->
  egressGatewayFromListener l = Some key -> shapeFromListener l = Some sh ->
  Forall scaffold (chainsOf l) -> hasListenerFilter proxyProtocolListenerFilterName l = false ->
  identityFirst l' /\ hasListenerFilter tlsInspectorListenerFilterName l' = negb (bool_decide (sh = ShapeTCP))
  /\ match sh with
     | ShapeTLSPassthrough => l4Chain [networkExtProcFilterName; sniDFPFilterName; tcpProxyFilterName] l'
     | ShapeTCP => l4Chain [networkExtProcFilterName; tcpProxyFilterName] l'
     | _ => httpRewritten (sv_settings s) key sh (dnsFor client key) (llmConfigFor reg sha256_hex12 client key) l l'
     end.
Proof.
  intros Hpost Hk Hsh Hsc Hpp. unfold PostHTTPListenerModify in Hpost.
  pose proof (applyHTTPShape_rewritten (sv_settings s) key sh (dnsFor client key) (llmConfigFor reg sha256_hex12 client key) l Hsc) as Hrw.
  assert (hasListenerFilter proxyProtocolListenerFilterName (allowExtProcRoutingMutation l).1 = false) as Hpp1 by done.
  destruct (allowExtProcRoutingMutation l) as [l1 n] eqn:E1. cbn [fst] in Hrw, Hpp1.
  apply patch_recognised in E1 as [Hk1 Hs1]. rewrite Hk1, Hs1, Hk, Hsh in Hpost. cbn in Hpost.
  apply ensure_identity in Hpp1. pose proof (inspector_identity _ Hpp1) as [Hi Ht].
  pose proof (removed_identity _ Hpp1) as [Hr Hnt].
  destruct sh; injection Hpost as <- _; try (split_and!; [exact Hi|exact Ht|exact Hrw]).
  - unfold applyTLSPassthroughShape, buildTLSPassthroughChain, buildNetworkExtProcFilter, buildSNIDFPFilter, buildTCPProxyFilter.
    pack_all. split_and!; [exact Hi|exact Ht|]. eexists. by split_and!.
  - unfold applyTCPShape, buildPlainTCPChain, buildNetworkExtProcFilter, buildTCPProxyFilter.
    pack_all. split_and!; [exact Hr|exact Hnt|]. eexists. by split_and!.
Qed.

End Rewrite.
(** ** A gateway's listener *)

Definition demoHcm : HttpConnectionManager Packed :=
  mkHcm [mkHttpFilter "envoy.filters.http.rbac" None; mkHttpFilter routerFilterName None] None [] "".

Definition demoListener (ns eg : string) (sh : shape) : Listener Packed :=
  mkListenerMsg (listenerName ns (GatewayNamePrefix ++ eg) (EncodeListenerSectionName "main" sh)) []
    [mkChain "generated" [mkFilter hcmFilterName (Some (Pack (MHcm demoHcm)))]
       (Some (mkTS tlsTransportSocketName (Some (Pack (MDownstreamTls (mkDownstreamTls None "")))))) ""] None "".

Definition demoServer : Server := NewServer "clrk.svc:9443" "clrk.svc:9443" false.

Definition demoHook (client : option api) (l : Listener Packed) (s : Server) : option (Listener Packed) * Server :=
  PostHTTPListenerModify Registry.builtinRegistry (fun s => s) client (Some l) s.

Definition demoNames (r : option (Listener Packed)) : list (list string) :=
  match r with
  | None => []
  | Some l =>
      flat_map (fun fc => flat_map (fun f =>
        match f_Config f with
        | Some (Pack (MHcm h)) => [map hf_Name (HttpFilters h)]
        | _ => []
        end) (fc_Filters fc)) (chainsOf l)
  end.

Lemma demo_scaffold ns eg sh : Forall scaffold (chainsOf (demoListener ns eg sh)).
Proof. repeat constructor. exists demoHcm. split; [done|]. by eexists. Qed.

Lemma no_dangling_cluster_witness :
  exists l' c, (demoHook (Some demoApi) (demoListener "team" "eg" ShapeTLSTerminate) demoServer).1 = Some l'
    /\ In (dfpClusterNameFor "eg") (clustersOf l')
    /\ In c (PostTranslateModify (Secret := unit) ([], []) (demoHook (Some demoApi) (demoListener "team" "eg" ShapeTLSTerminate) demoServer).2).1
    /\ cl_Name c = dfpClusterNameFor "eg".
Proof.
  destruct (demoHook (Some demoApi) (demoListener "team" "eg" ShapeTLSTerminate) demoServer) as [[l'|] s1] eqn:E;
    [|vm_compute in E; discriminate E].
  assert (In (dfpClusterNameFor "eg") (clustersOf l')) as Hin.
  { assert (clustersOf l' = clustersOf (default l' (demoHook (Some demoApi) (demoListener "team" "eg" ShapeTLSTerminate) demoServer).1))
      as -> by (rewrite E; reflexivity).
    vm_compute. right. by left. }
  destruct (no_dangling_cluster Registry.builtinRegistry (fun s => s) (Secret := unit) (Some demoApi)
              (demoListener "team" "eg" ShapeTLSTerminate) l' demoServer s1 (mkNN "team" "eg") ShapeTLSTerminate [] ([], [])
              (dfpClusterNameFor "eg") E) as (c & Hc & Hn);
    [reflexivity|reflexivity|apply demo_scaffold|constructor|exact Hin|].
  exists l', c. split_and!; [reflexivity|exact Hin|exact Hc|exact Hn].
Defined.

Lemma listener_rewritten_witness :
  exists l', (demoHook (Some demoApi) (demoListener "team" "eg" ShapeTCP) demoServer).1 = Some l'
    /\ identityFirst l' /\ l4Chain [networkExtProcFilterName; tcpProxyFilterName] l'.
Proof.
  destruct (demoHook (Some demoApi) (demoListener "team" "eg" ShapeTCP) demoServer) as [[l'|] s1] eqn:E;
    [|vm_compute in E; discriminate E].
  destruct (listener_rewritten Registry.builtinRegistry (fun s => s) (Some demoApi) (demoListener "team" "eg" ShapeTCP)
              l' demoServer s1 (mkNN "team" "eg") ShapeTCP E) as (Hi & _ & Hc);
    [reflexivity|reflexivity|apply demo_scaffold|reflexivity|].
  exists l'. split_and!; [reflexivity|exact Hi|exact Hc].
Defined.

(** Ours come before the router; a second pass over the result would insert
    them again. *)
Example rewrite_twice_duplicates :
  let once := demoHook None (demoListener "team" "eg" ShapeHTTPS) demoServer in
  let twice := match once.1 with Some l => demoHook None l once.2 | None => once end in
  (demoNames once.1, demoNames twice.1)
  = ([["envoy.filters.http.rbac"; extProcFilterName; dfpHTTPFilterName; routerFilterName]],
     [["envoy.filters.http.rbac"; extProcFilterName; dfpHTTPFilterName; extProcFilterName; dfpHTTPFilterName;
       routerFilterName]]).
Proof. vm_compute. reflexivity. Qed.

(** Whether each ext_proc filter of a listener may change the routing headers. *)
Definition routingFlags (l : Listener Packed) : list bool :=
  flat_map (fun fc => flat_map (fun f =>
    match f_Config f with
    | Some (Pack (MHcm h)) =>
        flat_map (fun hf => match hf_Config hf with Some (Pack (MExtProc e)) => [routingAllowed e] | _ => [] end)
          (HttpFilters h)
    | _ => []
    end) (fc_Filters fc)) (chainsOf l).

(** The patch runs before the egress filter is inserted, which is returned
    without the permission. *)
Example egress_filter_lacks_routing :
  match (demoHook None (demoListener "team" "eg" ShapeHTTPS) demoServer).1 with
  | Some l => (routingFlags l, routingFlags (allowExtProcRoutingMutation l).1)
  | None => ([], [])
  end = ([false], [true]).
Proof. vm_compute. reflexivity. Qed.

Definition translatedNames (s : Server) : list string :=
  map cl_Name (PostTranslateModify (Any := Packed) (Secret := unit) ([], []) s).1.

(** Gateways of one name in two namespaces, and a gateway called [plain-x]
    beside one called [x], get clusters of one name. *)
Example gateways_share_cluster_names :
  let hooks es := fold_left (fun s e => (demoHook None (demoListener e.1 e.2 ShapeHTTPS) s).2) es demoServer in
  (length (List.filter (String.eqb "clrk-egress-dfp-llm") (translatedNames (hooks [("a", "llm"); ("b", "llm")]))),
   length (List.filter (String.eqb "clrk-egress-dfp-plain-x") (translatedNames (hooks [("a", "x"); ("a", "plain-x")]))))
  = (2%nat, 2%nat).
Proof. vm_compute. reflexivity. Qed.

End EgExtension.
