(* ===== verification/SinkRegistry.v ===== *)
(** * The sink registry

    [src/internal/extproc/sinks.go]: per gateway one capture configuration with
    the three tables a stream consults, cached and rebuilt when a fingerprint
    of the objects it was made from changes.

    A call reads one snapshot of the API objects ([client]). The OTLP exporter
    is a parameter; a sink that has one is known by the exporter's number. The
    call is cut at its two critical sections. *)

From Stdlib Require Import ZArith Lia Ascii String List Permutation.
From stdpp Require Import base strings list gmap sets sorting.
From S2P Require Import Prelude GoStrings GoPath GoStd Capture ApiTypes Registry Admission LlmRoute McpRoute CredTable EgIdentity.
Import GoStrings GoStd ApiTypes LlmRoute EgIdentity.

Open Scope string_scope.
Open Scope Z_scope.
Open Scope list_scope.

Module SinkRegistry.

(** ** Sinks *)

Inductive Sink := slogSink | otlpSink (id : Z).

#[export] Instance BodyCaptureSpec_eq_dec : EqDecision BodyCaptureSpec.
Proof. solve_decision. Defined.

Section Registry.
Context (reg : Registry.registry) {RE : GoPath.RegexpEngine}.

Record egSink := mkSink {
  es_sink : Sink;
  maxCaptureBytes : Z;
  includedTypes : list string;
  captureSnapshot : option BodyCaptureSpec;
  es_shutdown : option Z;
  es_routes : list routeRule;
  routesVersion : string;
  mcpRoutes : option McpRoute.mcpRouteTable;
  es_mcpVersion : string;
  es_creds : CredTable.credTable;
  credsVersion : string;
  es_backendsVersion : string;
}.

(** The objects a call reads. *)
Record client := mkClient {
  GetGateway : NamespacedName -> outcome string EgressGatewaySpec;
  ListAPRs : outcome string (list AIProviderRoute);
  ListMCPRs : outcome string (list MCPRoute);
  ListCIPs : outcome string (list CredentialInjectionPolicy);
  ListBackends : outcome string (list Backend);
  GetSecret : NamespacedName -> option CredTable.Secret;
}.

(** ** Fingerprints *)

Definition versionPart (m : ObjectMeta) : string :=
  (Namespace m ++ "/" ++ Name m ++ "@" ++ ResourceVersion m)%string.

(** [sort.Strings] and [strings.Join]; no parts give the empty string. *)
Definition joined (parts : list string) : string := String.concat "," (merge_sort String.le parts).

Definition aiproviderRoutesVersion (routes : list AIProviderRoute) (eg : NamespacedName) : string :=
  joined (map (fun r => versionPart (apr_Meta r))
            (List.filter (fun r => RouteAttachesTo r (nn_namespace eg) (nn_name eg)) routes)).

Definition mcpRoutesVersion (routes : list MCPRoute) (eg : NamespacedName) : string :=
  joined (map (fun r => versionPart (mcp_Meta r))
            (List.filter (fun r => McpRoute.mcpRouteAttachesTo r (nn_namespace eg) (nn_name eg)) routes)).

(** [byKey] of [backendsVersion]. *)
Definition indexVersions (bes : list Backend) : gmap NamespacedName string :=
  fold_left (fun m b => <[metaKey (be_Meta b) := ResourceVersion (be_Meta b)]> m) bes ∅.

(** The keys of the Backends a route refers to, in order. *)
Definition refKeys (r : AIProviderRoute) : list NamespacedName :=
  flat_map (fun rule =>
    flat_map (fun ref => if BackendRefIsClrkBackend ref
                         then [mkNN (refNamespace (Namespace (apr_Meta r)) (br_Namespace ref)) (br_Name ref)]
                         else []) (ar_BackendRefs rule)) (apr_Rules (apr_Spec r)).

Definition attachedRefs (routes : list AIProviderRoute) (eg : NamespacedName) : list NamespacedName :=
  flat_map (fun r => if RouteAttachesTo r (nn_namespace eg) (nn_name eg) then refKeys r else []) routes.

(** [seen]: every key once, at its first occurrence. *)
Fixpoint firsts (seen : gset NamespacedName) (ks : list NamespacedName) : list NamespacedName :=
  match ks with
  | [] => []
  | k :: rest => if bool_decide (k ∈ seen) then firsts seen rest else k :: firsts ({[k]} ∪ seen) rest
  end.

Definition backendPart (byKey : gmap NamespacedName string) (k : NamespacedName) : string :=
  (nn_namespace k ++ "/" ++ nn_name k ++ "@" ++ default "none" (byKey !! k))%string.

Definition backendsVersion (routes : list AIProviderRoute) (bes : list Backend) (eg : NamespacedName) : string :=
  joined (map (backendPart (indexVersions bes)) (firsts ∅ (attachedRefs routes eg))).

(** ** Building *)

Definition lowerAll (in_ : list string) : list string := map (fun s => ToLower (TrimSpace s)) in_.

Definition captureOf (spec : EgressGatewaySpec) : option BodyCaptureSpec :=
  match eg_OTLP spec with Some o => CaptureBody o | None => None end.

Definition captureBytes (c : option BodyCaptureSpec) : Z :=
  match c with
  | Some cb => match MaxBytes cb with
               | Some n => if 0 <? n then n else Capture.MaxBytesDefault
               | None => Capture.MaxBytesDefault
               end
  | None => Capture.MaxBytesDefault
  end.

Definition captureTypes (c : option BodyCaptureSpec) : list string :=
  match match c with Some cb => lowerAll (IncludeContentTypes cb) | None => [] end with
  | [] => Capture.DefaultIncludedContentTypes
  | ts => ts
  end.

(** [endpoint] is the process's; [newOTLPSink] gives the exporter's number. *)
Definition buildEgSink (endpoint : string) (newOTLPSink : string -> string -> outcome string Z)
    (key : NamespacedName) (spec : EgressGatewaySpec) : outcome string egSink :=
  let c := captureOf spec in
  let out sink shutdown :=
    mkSink sink (captureBytes c) (captureTypes c) c shutdown [] "" None "" CredTable.newEmptyCredTable "" "" in
  if String.eqb endpoint "" then Ok (out slogSink None)
  else match newOTLPSink endpoint (nn_namespace key ++ "/" ++ nn_name key)%string with
       | Ok id => Ok (out (otlpSink id) (Some id))
       | Err e => Err ("otlp sink: " ++ e)%string
       | Panic => Panic
       end.

(** What a call has read, with the fingerprints of it. *)
Record fetched := mkFetched {
  f_spec : EgressGatewaySpec;
  f_aprs : list AIProviderRoute;
  f_mcprs : list MCPRoute;
  f_cips : list CredentialInjectionPolicy;
  f_backends : list Backend;
  f_secret : NamespacedName -> option CredTable.Secret;
}.

Definition wrapped {A} (msg : string) (m : outcome string A) : outcome string A :=
  match m with Err e => Err (msg ++ ": " ++ e)%string | r => r end.

Definition fetch (c : client) (key : NamespacedName) : outcome string fetched :=
  let! spec := wrapped ("get EgressGateway " ++ nn_namespace key ++ "/" ++ nn_name key)%string (GetGateway c key) in
  let! aprs := wrapped "list AIProviderRoutes" (ListAPRs c) in
  let! mcprs := wrapped "list MCPRoutes" (ListMCPRs c) in
  let! cips := wrapped "list CredentialInjectionPolicies" (ListCIPs c) in
  let! bes := wrapped "list Backends" (ListBackends c) in
  Ok (mkFetched spec aprs mcprs cips bes (GetSecret c)).

Definition aprVersionOf (f : fetched) (key : NamespacedName) : string := aiproviderRoutesVersion (f_aprs f) key.
Definition mcpVersionOf (f : fetched) (key : NamespacedName) : string := mcpRoutesVersion (f_mcprs f) key.
Definition credVersionOf (f : fetched) (key : NamespacedName) : string :=
  CredTable.CredPoliciesVersion (f_secret f) (f_cips f) (f_aprs f) key.
Definition backendVersionOf (f : fetched) (key : NamespacedName) : string :=
  backendsVersion (f_aprs f) (f_backends f) key.

Definition current (f : fetched) (key : NamespacedName) (hit : egSink) : bool :=
  bool_decide (captureSnapshot hit = captureOf (f_spec f))
  && String.eqb (routesVersion hit) (aprVersionOf f key)
  && String.eqb (es_mcpVersion hit) (mcpVersionOf f key)
  && String.eqb (credsVersion hit) (credVersionOf f key)
  && String.eqb (es_backendsVersion hit) (backendVersionOf f key).

(** The tables and versions of what was read, put on a fresh sink. *)
Definition withTables (f : fetched) (key : NamespacedName) (b : egSink) : egSink :=
  mkSink (es_sink b) (maxCaptureBytes b) (includedTypes b) (captureSnapshot b) (es_shutdown b)
    (buildRouteTable reg (nn_namespace key) (nn_name key) (f_aprs f) (f_backends f)) (aprVersionOf f key)
    (McpRoute.buildMCPRouteTable (nn_namespace key) (nn_name key) (f_mcprs f)) (mcpVersionOf f key)
    (CredTable.buildCredTable (f_secret f) (nn_namespace key) (nn_name key) (f_aprs f) (f_cips f)) (credVersionOf f key)
    (backendVersionOf f key).

(** ** The registry *)

Definition sinkRegistry : Type := gmap NamespacedName egSink.
Definition newSinkRegistry : sinkRegistry := ∅.

(** The first critical section: the hit, or the predecessor of the sink to build. *)
Definition lookupSink (f : fetched) (key : NamespacedName) (r : sinkRegistry) : egSink + option egSink :=
  match r !! key with
  | Some hit => if current f key hit then inl hit else inr (Some hit)
  | None => inr None
  end.

(** The second one, and the exporter to shut down in the background. *)
Definition storeSink (key : NamespacedName) (b : egSink) (prev : option egSink) (r : sinkRegistry)
    : sinkRegistry * option Z :=
  (<[key := b]> r, match prev with Some p => es_shutdown p | None => None end).

Definition buildSink (endpoint : string) (newOTLPSink : string -> string -> outcome string Z) (f : fetched)
    (key : NamespacedName) : outcome string egSink :=
  let! b := wrapped "build sink" (buildEgSink endpoint newOTLPSink key (f_spec f)) in
  Ok (withTables f key b).

(** [get]: the answer, the registry after it and the exporter shut down. *)
Definition get (endpoint : string) (newOTLPSink : string -> string -> outcome string Z) (c : option client)
    (ctx : Context) (r : sinkRegistry) : outcome string egSink * sinkRegistry * option Z :=
  match c with
  | None => (Err "no kube client configured", r, None)
  | Some c =>
      match wrapped "resolve EgressGateway" (MustFromContext ctx) with
      | Err e => (Err e, r, None)
      | Panic => (Panic, r, None)
      | Ok key =>
          match fetch c key with
          | Err e => (Err e, r, None)
          | Panic => (Panic, r, None)
          | Ok f =>
              match lookupSink f key r with
              | inl hit => (Ok hit, r, None)
              | inr prev =>
                  match buildSink endpoint newOTLPSink f key with
                  | Err e => (Err e, r, None)
                  | Panic => (Panic, r, None)
                  | Ok b => let '(r', sd) := storeSink key b prev r in (Ok b, r', sd)
                  end
              end
          end
      end
  end.

(** [shutdownAll]: an empty registry, and the exporters shut down. *)
Definition shutdownAll (r : sinkRegistry) : sinkRegistry * list Z :=
  (∅, omap es_shutdown (map snd (map_to_list r))).

(** ** Fingerprints determine what they are made of *)

Lemma joined_perm l l' :
  Forall (fun s => Count s "," = 0%nat /\ s <> "") l -> Forall (fun s => Count s "," = 0%nat /\ s <> "") l' ->
  joined l = joined l' -> Permutation l l'.
Proof.
  intros Hl Hl' E. unfold joined in E.
  assert (forall l, Forall (fun s => Count s "," = 0%nat /\ s <> "") l ->
            Forall (fun s => Count s "," = 0%nat) (merge_sort String.le l)) as Hc.
  { intros x Hx. rewrite merge_sort_Permutation. eapply Forall_impl; [exact Hx|]. by intros ? [? _]. }
  assert (forall l, Forall (fun s => Count s "," = 0%nat /\ s <> "") l -> String.concat "," (merge_sort String.le l) = "" -> l = []) as Hempty.
  { intros x Hx Hx0. destruct (merge_sort String.le x) as [|y ys] eqn:Em.
    - apply Permutation_nil. rewrite <- Em. apply merge_sort_Permutation.
    - exfalso. rewrite <- (merge_sort_Permutation String.le x), Em in Hx. apply Forall_cons in Hx as [[_ Hy] _].
      apply Hy. destruct ys; [done|]. rewrite concat_cons_sep in Hx0. by destruct y. }
  destruct (decide (l = [])) as [->|Hn].
  { rewrite (Hempty l' Hl'); [done|]. by rewrite <- E. }
  destruct (decide (l' = [])) as [->|Hn'].
  { rewrite (Hempty l Hl); [done|]. by rewrite E. }
  rewrite <- (merge_sort_Permutation String.le l), <- (merge_sort_Permutation String.le l').
  apply (concat_inj ",") in E; [by rewrite E|by apply Hc|by apply Hc| |].
  - intros H. apply Hn. apply Permutation_nil. rewrite <- H. apply merge_sort_Permutation.
  - intros H. apply Hn'. apply Permutation_nil. rewrite <- H. apply merge_sort_Permutation.
Qed.

Lemma map_perm_inj {A} (f : A -> string) l l' :
  (forall x y, In x l -> In y l' -> f x = f y -> x = y) -> Permutation (map f l) (map f l') -> Permutation l l'.
Proof.
  intros Hinj Hp. destruct (Permutation_map_inv f l' Hp) as (l3 & Hm & Hp3).
  assert (l = l3) as ->; [|by symmetry].
  assert (forall x y, In x l -> In y l3 -> f x = f y -> x = y) as Hinj3.
  { intros x y Hx Hy. apply Hinj; [done|]. by apply (Permutation_in _ (Permutation_sym Hp3)). }
  clear Hp Hp3 Hinj. revert l3 Hm Hinj3. induction l as [|x l IH]; intros [|y l3] Hm Hinj; try done.
  injection Hm as Hxy Hm. f_equal; [apply Hinj; [by left|by left|done]|].
  apply IH; [done|]. intros; apply Hinj; [by right|by right|done].
Qed.

(** Kubernetes names and versions: none of the separators, not empty. *)
Definition plain (s : string) : Prop :=
  Count s "/" = 0%nat /\ Count s "@" = 0%nat /\ Count s "," = 0%nat /\ Count s "+" = 0%nat.

Record plain_meta (m : ObjectMeta) : Prop := {
  pm_ns : plain (Namespace m);
  pm_name : plain (Name m);
  pm_rv : plain (ResourceVersion m);
  pm_none : ResourceVersion m <> "none";
}.

Lemma versionPart_inj m m' : plain_meta m -> plain_meta m' -> versionPart m = versionPart m' -> m = m'.
Proof.
  intros [(N & _) (_ & A & _) _ _] [(N' & _) (_ & A' & _) _ _] E. unfold versionPart in E.
  apply sep_inj in E as [E1 E]; [|done..]. apply sep_inj in E as [E2 E3]; [|done..].
  destruct m, m'; cbn in *; by subst.
Qed.

Lemma part_ok ns name rv : Count ns "," = 0%nat -> Count name "," = 0%nat -> Count rv "," = 0%nat ->
  Count (ns ++ "/" ++ name ++ "@" ++ rv)%string "," = 0%nat /\ (ns ++ "/" ++ name ++ "@" ++ rv)%string <> "".
Proof. intros H1 H2 H3. split; [by rewrite !Count_app, H1, H2, H3|by destruct ns]. Qed.

Lemma versionPart_ok m : plain_meta m -> Count (versionPart m) "," = 0%nat /\ versionPart m <> "".
Proof. intros [(_ & _ & H1 & _) (_ & _ & H2 & _) (_ & _ & H3 & _) _]. by apply part_ok. Qed.

(** A list of objects with metadata, fingerprinted by their versions. *)
Lemma versions_perm {A} (meta : A -> ObjectMeta) (l l' : list A) :
  Forall (fun x => plain_meta (meta x)) l -> Forall (fun x => plain_meta (meta x)) l' ->
  (forall x y, In x l -> In y l' -> meta x = meta y -> x = y) ->
  joined (map (fun x => versionPart (meta x)) l) = joined (map (fun x => versionPart (meta x)) l') ->
  Permutation l l'.
Proof.
  intros Hl Hl' Hinj E. apply (map_perm_inj (fun x => versionPart (meta x))).
  - rewrite Forall_forall in Hl, Hl'. intros x y Hx Hy Hv. apply Hinj; [done..|].
    apply versionPart_inj; [by apply Hl, list_elem_of_In|by apply Hl', list_elem_of_In|done].
  - apply joined_perm; [..|done]; apply Forall_map; (eapply Forall_impl; [eassumption|]); intros x; apply versionPart_ok.
Qed.

(** ** Backends *)

Lemma IndexBackends_fold bes : forall (m : gmap NamespacedName Backend) k b,
  fold_left (fun m b => <[metaKey (be_Meta b) := b]> m) bes m !! k = Some b ->
  (In b bes /\ metaKey (be_Meta b) = k) \/ m !! k = Some b.
Proof.
  induction bes as [|x bes IH]; intros m k b H; [by right|]. cbn [fold_left] in H.
  apply IH in H as [[Hin Hk]|H]; [left; split; [by right|done]|].
  apply lookup_insert_Some in H as [[<- <-]|[_ H]]; [left; split; [by left|done]|by right].
Qed.

Lemma IndexBackends_In bes k b : IndexBackends bes !! k = Some b -> In b bes /\ metaKey (be_Meta b) = k.
Proof. intros [H|H]%IndexBackends_fold; [done|]. by rewrite lookup_empty in H. Qed.

Lemma indexVersions_spec bes k :
  indexVersions bes !! k = (fun b => ResourceVersion (be_Meta b)) <$> IndexBackends bes !! k.
Proof.
  unfold indexVersions, IndexBackends.
  assert (forall (m : gmap NamespacedName Backend) (m' : gmap NamespacedName string),
    (forall k, m' !! k = (fun b => ResourceVersion (be_Meta b)) <$> m !! k) ->
    fold_left (fun m b => <[metaKey (be_Meta b) := ResourceVersion (be_Meta b)]> m) bes m' !! k
    = (fun b => ResourceVersion (be_Meta b)) <$> fold_left (fun m b => <[metaKey (be_Meta b) := b]> m) bes m !! k) as H.
  { induction bes as [|b bes IH]; intros m m' Hm; [apply Hm|]. cbn [fold_left]. apply IH. intros k'.
    destruct (decide (metaKey (be_Meta b) = k')) as [<-|Hne];
      [by rewrite !lookup_insert_eq|by rewrite !lookup_insert_ne]. }
  apply H. intros k'. by rewrite !lookup_empty.
Qed.

Lemma elem_of_firsts ks k : forall seen, k ∈ firsts seen ks <-> k ∈ ks /\ k ∉ seen.
Proof.
  induction ks as [|x ks IH]; intros seen; cbn [firsts].
  - split; [by intros ?%not_elem_of_nil|by intros [?%not_elem_of_nil _]].
  - destruct (bool_decide_reflect (x ∈ seen)) as [Hx|Hx].
    + rewrite IH, elem_of_cons. split; [tauto|]. intros [[->|H] Hs]; [done|tauto].
    + rewrite !elem_of_cons, IH, not_elem_of_union, not_elem_of_singleton.
      destruct (decide (k = x)) as [->|Hne]; tauto.
Qed.

Definition plain_ref (k : NamespacedName) : Prop := plain (nn_namespace k) /\ plain (nn_name k).

(** The version recorded for a key; a key of no backend is recorded as none. *)
Definition versionAt (bes : list Backend) (k : NamespacedName) : string := default "none" (indexVersions bes !! k).

Lemma plain_none : plain "none".
Proof. by vm_compute. Qed.

Lemma versionAt_plain bes k : Forall (fun b => plain_meta (be_Meta b)) bes -> plain (versionAt bes k).
Proof.
  intros Hb. unfold versionAt. rewrite indexVersions_spec. destruct (IndexBackends bes !! k) as [b|] eqn:E; [|apply plain_none].
  apply IndexBackends_In in E as [Hin _]. rewrite Forall_forall in Hb. by apply pm_rv, Hb, list_elem_of_In.
Qed.

Lemma backends_same bes bes' ks ks' k :
  Forall (fun b => plain_meta (be_Meta b)) bes -> Forall (fun b => plain_meta (be_Meta b)) bes' ->
  Forall plain_ref ks -> Forall plain_ref ks' ->
  (forall x y, In x bes -> In y bes' -> be_Meta x = be_Meta y -> x = y) ->
  joined (map (backendPart (indexVersions bes)) (firsts ∅ ks)) = joined (map (backendPart (indexVersions bes')) (firsts ∅ ks')) ->
  k ∈ ks -> IndexBackends bes !! k = IndexBackends bes' !! k.
Proof.
  intros Hb Hb' Hk Hk' Hag E Hin.
  assert (forall bes ks x, Forall (fun b => plain_meta (be_Meta b)) bes -> Forall plain_ref ks -> x ∈ firsts ∅ ks ->
            plain_ref x /\ plain (versionAt bes x)) as Hpl.
  { intros bs l x Hbs Hl [Hx _]%elem_of_firsts. rewrite Forall_forall in Hl. split; [by apply Hl|by apply versionAt_plain]. }
  assert (forall bes ks, Forall (fun b => plain_meta (be_Meta b)) bes -> Forall plain_ref ks ->
            Forall (fun s => Count s "," = 0%nat /\ s <> "") (map (backendPart (indexVersions bes)) (firsts ∅ ks))) as Hparts.
  { intros bs l Hbs Hl. apply Forall_map, Forall_forall. intros x Hx. destruct (Hpl bs l x Hbs Hl Hx) as [[(_ & _ & ? & _) (_ & _ & ? & _)] (_ & _ & ? & _)].
    by apply part_ok. }
  apply joined_perm in E; [|by apply Hparts..].
  assert (k ∈ firsts ∅ ks) as Hf by (apply elem_of_firsts; set_solver).
  assert (In (backendPart (indexVersions bes) k) (map (backendPart (indexVersions bes')) (firsts ∅ ks'))) as Hp.
  { eapply Permutation_in; [exact E|]. by apply in_map, list_elem_of_In. }
  apply in_map_iff in Hp as (k' & Hp & Hk''%list_elem_of_In).
  destruct (Hpl bes ks k Hb Hk Hf) as [[(P1 & _) (_ & P2 & _)] _], (Hpl bes' ks' k' Hb' Hk' Hk'') as [[(P1' & _) (_ & P2' & _)] _].
  unfold backendPart in Hp. apply sep_inj in Hp as [Q1 Hp]; [|done..]. apply sep_inj in Hp as [Q2 Hv]; [|done..].
  assert (k' = k) as -> by (destruct k, k'; cbn in *; by subst).
  rewrite !indexVersions_spec in Hv. rewrite Forall_forall in Hb, Hb'.
  destruct (IndexBackends bes !! k) as [b|] eqn:E1, (IndexBackends bes' !! k) as [b'|] eqn:E2; cbn in Hv; [| | |done].
  - apply IndexBackends_In in E1 as [H1 M1]. apply IndexBackends_In in E2 as [H2 M2]. f_equal. apply Hag; [done..|].
    destruct (be_Meta b), (be_Meta b'); unfold metaKey in *; cbn in *. rewrite <- M2 in M1. injection M1 as -> ->. by subst.
  - apply IndexBackends_In in E1 as [H1 _]. exfalso. apply (pm_none (be_Meta b)); [by apply Hb, list_elem_of_In|done].
  - apply IndexBackends_In in E2 as [H2 _]. exfalso. apply (pm_none (be_Meta b')); [by apply Hb', list_elem_of_In|done].
Qed.

(** ** Tables depend on the attached objects only *)

Lemma filter_twice {A} (f : A -> bool) l : List.filter f (List.filter f l) = List.filter f l.
Proof. induction l as [|x l IH]; [done|]. cbn. destruct (f x) eqn:E; cbn; [by rewrite E, IH|done]. Qed.

Lemma flat_map_filter {A B} (p : A -> bool) (f : A -> list B) l :
  flat_map (fun x => if p x then f x else []) l = flat_map f (List.filter p l).
Proof. induction l as [|x l IH]; [done|]. cbn. rewrite IH. by destruct (p x). Qed.

Lemma flat_map_ext_in {A B} (f g : A -> list B) l : (forall x, In x l -> f x = g x) -> flat_map f l = flat_map g l.
Proof. induction l as [|x l IH]; [done|]. intros H. cbn. rewrite (H x) by by left. rewrite IH; [done|]. auto using in_cons. Qed.

Lemma omap_ext_in {A B} (f g : A -> option B) l : (forall x, In x l -> f x = g x) -> omap f l = omap g l.
Proof.
  induction l as [|x l IH]; [done|]. intros H. change (omap f (x :: l)) with (match f x with Some y => y :: omap f l | None => omap f l end).
  change (omap g (x :: l)) with (match g x with Some y => y :: omap g l | None => omap g l end).
  rewrite (H x) by by left. rewrite IH; [done|]. auto using in_cons.
Qed.

Definition attachedRoutes (key : NamespacedName) (l : list AIProviderRoute) : list AIProviderRoute :=
  List.filter (fun r => RouteAttachesTo r (nn_namespace key) (nn_name key)) l.

Lemma routeTable_attached key l bes bes' :
  (forall r k, In r (attachedRoutes key l) -> k ∈ refKeys r -> IndexBackends bes !! k = IndexBackends bes' !! k) ->
  buildRouteTable reg (nn_namespace key) (nn_name key) l bes
  = buildRouteTable reg (nn_namespace key) (nn_name key) (attachedRoutes key l) bes'.
Proof.
  intros H. unfold buildRouteTable. rewrite !flat_map_filter.
  unfold attachedRoutes in *. rewrite filter_twice.
  apply flat_map_ext_in. intros r Hr. f_equal. apply imap_ext. intros i rule Hi. unfold compileRule.
  assert (ResolveCandidates reg (ar_BackendRefs rule) (Namespace (apr_Meta r)) (IndexBackends bes)
          = ResolveCandidates reg (ar_BackendRefs rule) (Namespace (apr_Meta r)) (IndexBackends bes')) as ->; [|done].
  unfold ResolveCandidates. apply omap_ext_in. intros ref Href. unfold resolveRef.
  destruct (BackendRefIsClrkBackend ref) eqn:Eb; [|done]. rewrite (H r); [done|done|].
  apply list_elem_of_In. unfold refKeys. apply in_flat_map. exists rule.
  split; [by apply list_elem_of_In, (list_elem_of_lookup_2 _ i)|]. apply in_flat_map. exists ref. split; [done|].
  rewrite Eb. by left.
Qed.

Definition attachedMCPs (key : NamespacedName) (l : list MCPRoute) : list MCPRoute :=
  List.filter (fun r => McpRoute.mcpRouteAttachesTo r (nn_namespace key) (nn_name key)) l.

Lemma fold_filter {A S} (p : A -> bool) (f : S -> A -> S) l :
  (forall s x, p x = false -> f s x = s) -> forall s, fold_left f l s = fold_left f (List.filter p l) s.
Proof.
  intros H. induction l as [|x l IH]; intros s; [done|]. cbn. destruct (p x) eqn:E; cbn; [apply IH|].
  by rewrite (H s x E), IH.
Qed.

Lemma mcpTable_attached key l :
  McpRoute.buildMCPRouteTable (nn_namespace key) (nn_name key) l
  = McpRoute.buildMCPRouteTable (nn_namespace key) (nn_name key) (attachedMCPs key l).
Proof.
  unfold McpRoute.buildMCPRouteTable, attachedMCPs.
  rewrite <- (fold_filter (fun r => McpRoute.mcpRouteAttachesTo r (nn_namespace key) (nn_name key))); [done|].
  intros t r Hr. unfold McpRoute.addRoute. by rewrite Hr.
Qed.

(** The policies that attach to the gateway. *)
Definition attachedCIPs (key : NamespacedName) (aprs : list AIProviderRoute) (l : list CredentialInjectionPolicy) :=
  CredTable.matchedPolicies l aprs (nn_namespace key) (nn_name key).

Lemma addRef_unmatched Get ns name att cip t ref :
  CredTable.refMatchesEG ns name att cip ref = false -> CredTable.addRef Get ns name att cip t ref = t.
Proof.
  unfold CredTable.refMatchesEG, CredTable.addRef. destruct (negb _); [done|].
  destruct (String.eqb (tr_Kind ref) egressGatewayKind).
  - intros [->| ->]%andb_false_iff; [done|]. by rewrite orb_true_r.
  - destruct (String.eqb (tr_Kind ref) aiProviderRouteKind); [|done]. by intros ->.
Qed.

Lemma fold_left_ext {A S} (f g : S -> A -> S) l : (forall s x, In x l -> f s x = g s x) -> forall s, fold_left f l s = fold_left g l s.
Proof.
  induction l as [|x l IH]; [done|]. intros H s. cbn. rewrite (H s x) by by left. apply IH. auto using in_cons.
Qed.

Lemma credTable_attached Get Get' key aprs aprs' cips :
  CredTable.attachedKeys (nn_namespace key) (nn_name key) aprs = CredTable.attachedKeys (nn_namespace key) (nn_name key) aprs' ->
  (forall cip, In cip (attachedCIPs key aprs cips) -> CredTable.loadCIPSecret Get cip = CredTable.loadCIPSecret Get' cip) ->
  CredTable.buildCredTable Get (nn_namespace key) (nn_name key) aprs cips
  = CredTable.buildCredTable Get' (nn_namespace key) (nn_name key) aprs' (attachedCIPs key aprs cips).
Proof.
  intros Ha Hg. unfold CredTable.buildCredTable. rewrite <- Ha. set (att := CredTable.attachedKeys _ _ aprs) in *.
  rewrite (fold_filter (fun cip => existsb (CredTable.refMatchesEG (nn_namespace key) (nn_name key) att cip)
                                     (cip_TargetRefs (cip_Spec cip)))).
  - apply fold_left_ext. intros t cip Hin. unfold CredTable.addPolicy. apply fold_left_ext. intros t' ref _.
    unfold CredTable.addRef.
    assert (CredTable.resolveCIP Get cip = CredTable.resolveCIP Get' cip) as ->; [|done].
    unfold CredTable.resolveCIP, CredTable.resolveHeader, CredTable.resolveAWSv4. by rewrite (Hg cip Hin).
  - intros t cip Hm. unfold CredTable.addPolicy. revert t Hm. induction (cip_TargetRefs (cip_Spec cip)) as [|ref refs IH]; intros t Hm; [done|].
    cbn in Hm. apply orb_false_iff in Hm as [Hr Hm]. cbn [fold_left]. rewrite addRef_unmatched by done. by apply IH.
Qed.

(** ** A cached sink is current *)

(** Kubernetes names and versions throughout. *)
Record good (f : fetched) : Prop := {
  g_apr : Forall (fun r => plain_meta (apr_Meta r)) (f_aprs f);
  g_refs : Forall (fun r => Forall plain_ref (refKeys r)) (f_aprs f);
  g_mcp : Forall (fun r => plain_meta (mcp_Meta r)) (f_mcprs f);
  g_cip : Forall (fun r => plain_meta (cip_Meta r)) (f_cips f);
  g_be : Forall (fun b => plain_meta (be_Meta b)) (f_backends f);
  g_secret : forall k s, f_secret f k = Some s ->
    plain (CredTable.sec_ResourceVersion s) /\ CredTable.sec_ResourceVersion s <> "none";
}.

(** A resource version names one state of an object. *)
Record agree (f f' : fetched) : Prop := {
  ag_apr : forall x y, In x (f_aprs f) -> In y (f_aprs f') -> apr_Meta x = apr_Meta y -> x = y;
  ag_mcp : forall x y, In x (f_mcprs f) -> In y (f_mcprs f') -> mcp_Meta x = mcp_Meta y -> x = y;
  ag_cip : forall x y, In x (f_cips f) -> In y (f_cips f') -> cip_Meta x = cip_Meta y -> x = y;
  ag_be : forall x y, In x (f_backends f) -> In y (f_backends f') -> be_Meta x = be_Meta y -> x = y;
  ag_secret : forall k s s', f_secret f k = Some s -> f_secret f' k = Some s' ->
    CredTable.sec_ResourceVersion s = CredTable.sec_ResourceVersion s' -> s = s';
}.

(** The sink's capture settings are the gateway's. *)
Definition capturesFor (f : fetched) (e : egSink) : Prop :=
  captureSnapshot e = captureOf (f_spec f) /\ maxCaptureBytes e = captureBytes (captureOf (f_spec f))
  /\ includedTypes e = captureTypes (captureOf (f_spec f)).

(** The sink was built from what was read. *)
Definition made (f : fetched) (key : NamespacedName) (e : egSink) : Prop :=
  capturesFor f e /\ exists b, e = withTables f key b.

(** Its tables are those of the attached objects, in some order of listing. *)
Record coherent (f : fetched) (key : NamespacedName) (e : egSink) : Prop := {
  co_capture : capturesFor f e;
  co_routes : exists l, Permutation l (attachedRoutes key (f_aprs f))
    /\ es_routes e = buildRouteTable reg (nn_namespace key) (nn_name key) l (f_backends f);
  co_mcp : exists l, Permutation l (attachedMCPs key (f_mcprs f))
    /\ mcpRoutes e = McpRoute.buildMCPRouteTable (nn_namespace key) (nn_name key) l;
  co_creds : exists l, Permutation l (attachedCIPs key (f_aprs f) (f_cips f))
    /\ es_creds e = CredTable.buildCredTable (f_secret f) (nn_namespace key) (nn_name key) (f_aprs f) l;
}.

Lemma Forall_filter {A} (P : A -> Prop) (p : A -> bool) l : Forall P l -> Forall P (List.filter p l).
Proof.
  intros H. apply Forall_forall. intros x Hx%list_elem_of_In. apply filter_In in Hx as [Hx _].
  rewrite Forall_forall in H. by apply H, list_elem_of_In.
Qed.

Lemma routes_perm f f' key :
  good f -> good f' -> agree f f' -> aprVersionOf f key = aprVersionOf f' key ->
  Permutation (attachedRoutes key (f_aprs f)) (attachedRoutes key (f_aprs f')).
Proof.
  intros G G' A E. apply (versions_perm apr_Meta); [apply Forall_filter, G|apply Forall_filter, G'| |exact E].
  intros x y [Hx _]%filter_In [Hy _]%filter_In. by apply (ag_apr f f' A).
Qed.

Lemma routes_same f f' key r k :
  good f -> good f' -> agree f f' -> backendVersionOf f key = backendVersionOf f' key ->
  In r (attachedRoutes key (f_aprs f)) -> k ∈ refKeys r -> IndexBackends (f_backends f) !! k = IndexBackends (f_backends f') !! k.
Proof.
  intros G G' A E Hr Hk.
  assert (forall f, good f -> Forall plain_ref (attachedRefs (f_aprs f) key)) as Hplain.
  { intros g Gg. unfold attachedRefs. rewrite flat_map_filter. apply Forall_forall. intros x Hx.
    apply list_elem_of_In, in_flat_map in Hx as (r' & [Hr' _]%filter_In & Hx). pose proof (g_refs g Gg) as Hrefs.
    rewrite Forall_forall in Hrefs. specialize (Hrefs r' (proj2 (list_elem_of_In _ _) Hr')).
    rewrite Forall_forall in Hrefs. by apply Hrefs, list_elem_of_In. }
  eapply (backends_same _ _ (attachedRefs (f_aprs f) key) (attachedRefs (f_aprs f') key));
    [apply G|apply G'|by apply Hplain|by apply Hplain|apply A|exact E|].
  unfold attachedRefs. rewrite flat_map_filter. apply list_elem_of_In, in_flat_map. exists r. split; [done|].
  by apply list_elem_of_In.
Qed.

Lemma attachedKeys_perm key l l' :
  Permutation (attachedRoutes key l) (attachedRoutes key l') ->
  CredTable.attachedKeys (nn_namespace key) (nn_name key) l = CredTable.attachedKeys (nn_namespace key) (nn_name key) l'.
Proof.
  intros Hp. unfold CredTable.attachedKeys. apply list_to_set_perm_L. by apply Permutation_map.
Qed.

(** The two lists of attached policies with the versions of their Secrets. *)
Definition versioned (f : fetched) (l : list CredentialInjectionPolicy) : list (CredentialInjectionPolicy * string) :=
  map (fun c => (c, CredTable.secretVersion (f_secret f) c)) l.

Lemma secretVersion_plain f c : good f -> plain (CredTable.secretVersion (f_secret f) c).
Proof.
  intros G. unfold CredTable.secretVersion, CredTable.loadCIPSecret. destruct (f_secret f _) as [s|] eqn:E; [|apply plain_none].
  by apply (g_secret f G) in E as [? _].
Qed.

Definition cipPart (cv : CredentialInjectionPolicy * string) : string :=
  (Namespace (cip_Meta cv.1) ++ "/" ++ Name (cip_Meta cv.1) ++ "@" ++ ResourceVersion (cip_Meta cv.1) ++ "+" ++ cv.2)%string.

Lemma cipPart_ok cv : plain_meta (cip_Meta cv.1) /\ plain cv.2 -> Count (cipPart cv) "," = 0%nat /\ cipPart cv <> "".
Proof.
  intros [[(_ & _ & P1 & _) (_ & _ & P2 & _) (_ & _ & P3 & _) _] (_ & _ & P4 & _)].
  unfold cipPart. apply part_ok; [done..|]. by rewrite !Count_app, P3, P4.
Qed.

Lemma cips_perm f f' key :
  good f -> good f' -> agree f f' -> credVersionOf f key = credVersionOf f' key ->
  Permutation (versioned f (attachedCIPs key (f_aprs f) (f_cips f))) (versioned f' (attachedCIPs key (f_aprs f') (f_cips f'))).
Proof.
  intros G G' A E.
  assert (forall f, good f -> forall cv, In cv (versioned f (attachedCIPs key (f_aprs f) (f_cips f))) ->
            In cv.1 (f_cips f) /\ plain_meta (cip_Meta cv.1) /\ plain cv.2) as Hin.
  { intros g Gg cv (c & <- & [Hc _]%filter_In)%in_map_iff. pose proof (g_cip g Gg) as Hp. rewrite Forall_forall in Hp.
    split_and!; [done|by apply Hp, list_elem_of_In|by apply secretVersion_plain]. }
  apply (map_perm_inj cipPart).
  - intros x y Hx Hy Hv. destruct (Hin f G x Hx) as (I1 & [(N & _) (_ & B & _) (_ & _ & _ & C) _] & _),
      (Hin f' G' y Hy) as (I2 & [(N' & _) (_ & B' & _) (_ & _ & _ & C') _] & _).
    unfold cipPart in Hv. apply sep_inj in Hv as [E1 Hv]; [|done..]. apply sep_inj in Hv as [E2 Hv]; [|done..].
    apply sep_inj in Hv as [E3 E4]; [|done..]. destruct x as [x vx], y as [y vy]. cbn in *. subst vy. f_equal.
    apply (ag_cip f f' A); [done..|]. destruct (cip_Meta x), (cip_Meta y); cbn in *; by subst.
  - unfold versioned. rewrite !map_map.
    apply joined_perm; [| |exact E]; apply Forall_map, Forall_forall; intros c Hc%list_elem_of_In.
    + apply cipPart_ok, (Hin f G). apply in_map_iff. by exists c.
    + apply cipPart_ok, (Hin f' G'). apply in_map_iff. by exists c.
Qed.

Lemma secrets_same f f' key cip :
  good f -> good f' -> agree f f' -> credVersionOf f key = credVersionOf f' key ->
  In cip (attachedCIPs key (f_aprs f) (f_cips f)) ->
  CredTable.loadCIPSecret (f_secret f) cip = CredTable.loadCIPSecret (f_secret f') cip.
Proof.
  intros G G' A E Hc. pose proof (cips_perm f f' key G G' A E) as Hp.
  assert (In (cip, CredTable.secretVersion (f_secret f) cip) (versioned f' (attachedCIPs key (f_aprs f') (f_cips f')))) as Hin.
  { eapply Permutation_in; [exact Hp|]. apply in_map_iff. by exists cip. }
  apply in_map_iff in Hin as (c' & Heq & _). injection Heq as -> Hv.
  unfold CredTable.secretVersion in Hv. unfold CredTable.loadCIPSecret in *.
  destruct (f_secret f _) as [s|] eqn:E1, (f_secret f' _) as [s'|] eqn:E2; [| | |done].
  - f_equal. by eapply (ag_secret f f' A).
  - apply (g_secret f G) in E1 as [_ ?]. by symmetry in Hv.
  - apply (g_secret f' G') in E2 as [_ ?]. done.
Qed.

Lemma made_coherent f f' key e :
  good f -> good f' -> agree f f' -> made f key e -> current f' key e = true -> coherent f' key e.
Proof.
  intros G G' A [(C1 & C2 & C3) [b ->]] Hcur. unfold current in Hcur.
  apply andb_true_iff in Hcur as [Hcur E5%String.eqb_eq]. apply andb_true_iff in Hcur as [Hcur E4%String.eqb_eq].
  apply andb_true_iff in Hcur as [Hcur E3%String.eqb_eq]. apply andb_true_iff in Hcur as [E1%bool_decide_eq_true E2%String.eqb_eq].
  cbn in E2, E3, E4, E5. pose proof (routes_perm f f' key G G' A E2) as Hroutes. split.
  - unfold capturesFor. rewrite C2, C3. rewrite C1 in E1. by rewrite C1, E1.
  - exists (attachedRoutes key (f_aprs f)). split; [done|]. cbn. apply routeTable_attached.
    intros r k. by apply routes_same.
  - exists (attachedMCPs key (f_mcprs f)). split; [|cbn; apply mcpTable_attached].
    apply (versions_perm mcp_Meta); [apply Forall_filter, G|apply Forall_filter, G'| |exact E3].
    intros x y [Hx _]%filter_In [Hy _]%filter_In. by apply (ag_mcp f f' A).
  - exists (attachedCIPs key (f_aprs f) (f_cips f)). split.
    + pose proof (Permutation_map fst (cips_perm f f' key G G' A E4)) as Hp. unfold versioned in Hp.
      rewrite !map_map in Hp. cbn in Hp. by rewrite !map_id in Hp.
    + cbn. apply credTable_attached; [by apply attachedKeys_perm|]. intros cip. by apply secrets_same.
Qed.

Lemma current_self f key b : capturesFor f (withTables f key b) -> current f key (withTables f key b) = true.
Proof.
  intros (H & _). unfold current. rewrite bool_decide_eq_true_2 by done. cbn. by rewrite !String.eqb_refl.
Qed.

(** ** Calls over time *)

Section History.
Context (endpoint : string) (newOTLPSink : string -> string -> outcome string Z).

(** The snapshots the calls read: good ones, in which a version names one state. *)
Context (history : client -> Prop).
Hypothesis history_good : forall c key f, history c -> fetch c key = Ok f -> good f.
Hypothesis history_agree : forall c c' key f f',
  history c -> history c' -> fetch c key = Ok f -> fetch c' key = Ok f' -> agree f f'.

Definition from_history (r : sinkRegistry) : Prop :=
  forall key e, r !! key = Some e -> exists c f, history c /\ fetch c key = Ok f /\ made f key e.

Lemma buildSink_made f key e : buildSink endpoint newOTLPSink f key = Ok e -> made f key e.
Proof.
  unfold buildSink. intros (b & Hb & [= <-])%obind_Ok_inv. split; [|by exists b].
  unfold buildEgSink in Hb. destruct (String.eqb endpoint ""); cbn in Hb; [by injection Hb as <-|].
  destruct (newOTLPSink _ _); cbn in Hb; [by injection Hb as <-|done..].
Qed.

(** The answer of a call, and the registry it leaves. *)
Lemma get_spec c ctx r :
  history c -> from_history r ->
  from_history (get endpoint newOTLPSink (Some c) ctx r).1.2
  /\ forall e, (get endpoint newOTLPSink (Some c) ctx r).1.1 = Ok e ->
       exists key f, FromContext ctx = Some key /\ fetch c key = Ok f /\ coherent f key e.
Proof.
  intros Hc Hr. unfold get, MustFromContext. destruct (FromContext ctx) as [key|]; cbn [wrapped]; [|by split].
  destruct (fetch c key) as [f| |] eqn:Ef; [|by split..].
  pose proof (history_good _ _ _ Hc Ef) as Gf.
  unfold lookupSink. destruct (r !! key) as [hit|] eqn:Eh; [destruct (current f key hit) eqn:Ecur|].
  - split; [done|]. intros e [= <-]. exists key, f. split_and!; [done..|].
    destruct (Hr key hit Eh) as (c0 & f0 & Hc0 & Ef0 & Hm).
    apply (made_coherent f0 f); [by eapply history_good|done|by eapply (history_agree c0 c key)|done|done].
  - destruct (buildSink endpoint newOTLPSink f key) as [e| |] eqn:Eb; [|by split..].
    pose proof (buildSink_made _ _ _ Eb) as Hm. cbn. split.
    + intros k x [[<- <-]|[_ H]]%lookup_insert_Some; [by exists c, f|by apply Hr].
    + intros x [= <-]. exists key, f. split_and!; [done..|]. pose proof Hm as [Hcap [b ->]].
      apply (made_coherent f f); [done|done|by eapply (history_agree c c key)|done|by apply current_self].
  - destruct (buildSink endpoint newOTLPSink f key) as [e| |] eqn:Eb; [|by split..].
    pose proof (buildSink_made _ _ _ Eb) as Hm. cbn. split.
    + intros k x [[<- <-]|[_ H]]%lookup_insert_Some; [by exists c, f|by apply Hr].
    + intros x [= <-]. exists key, f. split_and!; [done..|]. pose proof Hm as [Hcap [b ->]].
      apply (made_coherent f f); [done|done|by eapply (history_agree c c key)|done|by apply current_self].
Qed.

Definition afterCalls (calls : list (client * Context)) : sinkRegistry :=
  fold_left (fun r cc => (get endpoint newOTLPSink (Some cc.1) cc.2 r).1.2) calls newSinkRegistry.

(** C12: the cache of per-gateway tables is invisible but for the order of
    listing.  After any calls, whatever changed between them, the sink a call
    gets has the capture bounds of the gateway as this call read it, and the
    route, tool and credential tables that a rebuild makes from the objects
    this call read that attach to the gateway, listed in some order; provided
    a resource version names one state of an object. *)
Theorem sink_cache_coherent (calls : list (client * Context)) (c : client) (ctx : Context) (e : egSink) :
  Forall (fun cc => history cc.1) calls -> history c ->
  (get endpoint newOTLPSink (Some c) ctx (afterCalls calls)).1.1 = Ok e ->
  exists key f, FromContext ctx = Some key /\ fetch c key = Ok f /\ coherent f key e.
Proof.
  intros Hcalls Hc. apply get_spec; [done|]. unfold afterCalls.
  assert (from_history newSinkRegistry) as H0 by (intros key x; change ((∅ : gmap NamespacedName egSink) !! key = Some x -> exists c f, history c /\ fetch c key = Ok f /\ made f key x); by rewrite lookup_empty).
  revert H0. generalize newSinkRegistry. induction Hcalls as [|cc calls Hcc _ IH]; intros r Hr; [done|].
  cbn [fold_left]. apply IH. by apply get_spec.
Qed.

End History.
End Registry.

(** ** Two rebuilds at once *)

#[local] Existing Instance McpRoute.substring_engine.

Definition demoKey : NamespacedName := mkNN "team" "eg".
Definition demoClient (max : Z) : client :=
  mkClient (fun _ => Ok (mkEGSpec "" (Some (mkOTLP "" [] (Some (mkBodyCapture (Some max) [])))) None None ""))
    (Ok []) (Ok []) (Ok []) (Ok []) (fun _ => None).
Definition demoCtx : Context := mkContext (Some demoKey) None None.

Definition demoGet (max id : Z) (r : sinkRegistry) : outcome string egSink * sinkRegistry * option Z :=
  get Registry.builtinRegistry "cm:4317" (fun _ _ => Ok id) (Some (demoClient max)) demoCtx r.

Lemma demo_history c key f : (exists n, c = demoClient n) -> fetch c key = Ok f -> good f /\ f_aprs f = [] /\ f_mcprs f = [] /\ f_cips f = []
  /\ f_backends f = [] /\ forall k, f_secret f k = None.
Proof. intros [n ->] [= <-]. by repeat constructor. Qed.

Lemma sink_cache_coherent_witness :
  exists e key f, (demoGet 128 2 (afterCalls Registry.builtinRegistry "cm:4317" (fun _ _ => Ok 2) [(demoClient 64, demoCtx)])).1.1 = Ok e
    /\ coherent Registry.builtinRegistry f key e /\ maxCaptureBytes e = 128.
Proof.
  destruct (demoGet 128 2 (afterCalls Registry.builtinRegistry "cm:4317" (fun _ _ => Ok 2) [(demoClient 64, demoCtx)])).1.1
    as [e| |] eqn:E; [|vm_compute in E; discriminate E..].
  destruct (sink_cache_coherent Registry.builtinRegistry "cm:4317" (fun _ _ => Ok 2) (fun c => exists n, c = demoClient n))
    with (calls := [(demoClient 64, demoCtx)]) (c := demoClient 128) (ctx := demoCtx) (e := e) as (key & f & Hk & Hf & Hc).
  - intros c key f Hc Hf. by apply (demo_history c key f Hc Hf).
  - intros c c' key f f' Hc Hc' Hf Hf'. destruct (demo_history _ _ _ Hc Hf) as (_ & A1 & A2 & A3 & A4 & A5).
    split; [rewrite A1|rewrite A2|rewrite A3|rewrite A4|]; [done..|]. intros k s s'. by rewrite A5.
  - repeat constructor. by exists 64.
  - by exists 128.
  - exact E.
  - exists e, key, f. split_and!; [reflexivity|exact Hc|]. vm_compute in E. by injection E as <-.
Defined.

Definition sinkIds (r : sinkRegistry) : list Z := omap es_shutdown (map snd (map_to_list r)).

(** Alone, a rebuild replaces the sink and shuts its exporter down. *)
Example rebuild_alone :
  let '(_, r1, _) := demoGet 64 1 ∅ in
  let '(_, r2, sd) := demoGet 128 2 r1 in
  (sinkIds r1, sinkIds r2, sd) = ([1], [2], Some 1).
Proof. vm_compute. reflexivity. Qed.

(** Two calls that pass the first critical section before either reaches the
    second build exporters 2 and 3: exporter 1 is shut down twice, and exporter
    2 is neither in the registry nor shut down. *)
Example concurrent_rebuild_leaks :
  let '(_, r1, _) := demoGet 64 1 ∅ in
  match fetch (demoClient 128) demoKey with
  | Ok f =>
      match lookupSink f demoKey r1,
            buildSink Registry.builtinRegistry "cm:4317" (fun _ _ => Ok 2) f demoKey,
            buildSink Registry.builtinRegistry "cm:4317" (fun _ _ => Ok 3) f demoKey with
      | inr prev, Ok a, Ok b =>
          let '(r2, sd) := storeSink demoKey a prev r1 in
          let '(r3, sd') := storeSink demoKey b prev r2 in
          (sinkIds r3, [sd; sd']) = ([3], [Some 1; Some 1])
      | _, _, _ => False
      end
  | _ => False
  end.
Proof. vm_compute. reflexivity. Qed.

Definition demoRoute (name : string) : AIProviderRoute :=
  mkAPR (mkMeta "team" name "1")
    (mkAPRSpec [mkParentReference (Some clrkAPIGroup) (Some "EgressGateway") None "eg" None]
       [mkAPRRule [mkAPRMatch "openai" [] []] [] []]).

(** The listing order, which the fingerprint leaves out, decides between two
    routes that both match. *)
Example listing_order_decides :
  let table l := buildRouteTable Registry.builtinRegistry "team" "eg" l [] in
  let winner l := routeName <$> match_ (table l) "openai" "/v1/chat/completions" "gpt" in
  let ab := [demoRoute "a"; demoRoute "b"] in
  let ba := [demoRoute "b"; demoRoute "a"] in
  aiproviderRoutesVersion ab demoKey = aiproviderRoutesVersion ba demoKey
  /\ (winner ab, winner ba) = (Some "a", Some "b").
Proof. vm_compute. by split. Qed.

End SinkRegistry.
