(* ===== verification/StreamCodec.v ===== *)
(** * Stream codecs

    [src/internal/extproc/llmcall/streamcodec.go] and the reading loop its
    implementations share: what a stream decoder promises about the events it
    yields, as an automaton over events, and the loop that feeds a provider's
    frames to its payload decoder.  The content of a stream, by which two
    renderings of one response are compared, is defined here too. *)

From Stdlib Require Import ZArith Lia NArith Ascii String List.
From stdpp Require Import base strings list gmap pretty.
From S2P Require Import Prelude GoStrings GoStd Registry LlmCall Sse.
Import GoStrings GoStd LlmCall Sse.

#[local] Open Scope string_scope.
#[local] Open Scope Z_scope.
#[local] Open Scope list_scope.

Module StreamCodec.

(** ** UTF-8 *)

(** [utf8.ValidString]. *)
Definition cont (lo hi : N) (c : ascii) : bool := ((lo <=? N_of_ascii c) && (N_of_ascii c <=? hi))%N.

Fixpoint ValidString (s : string) : bool :=
  match s with
  | EmptyString => true
  | String a s1 =>
      let n := N_of_ascii a in
      if (n <? 128)%N then ValidString s1
      else
        match s1 with
        | EmptyString => false
        | String b s2 =>
            if ((194 <=? n) && (n <=? 223))%N then cont 128 191 b && ValidString s2
            else
              match s2 with
              | EmptyString => false
              | String c s3 =>
                  if ((224 <=? n) && (n <=? 239))%N then
                    cont (if (n =? 224)%N then 160 else 128) (if (n =? 237)%N then 159 else 191) b
                    && cont 128 191 c && ValidString s3
                  else
                    match s3 with
                    | EmptyString => false
                    | String d s4 =>
                        ((240 <=? n) && (n <=? 244))%N
                        && cont (if (n =? 240)%N then 144 else 128) (if (n =? 244)%N then 143 else 191) b
                        && cont 128 191 c && cont 128 191 d && ValidString s4
                    end
              end
        end
  end.

(** ASCII is UTF-8. *)
Fixpoint ascii7 (s : string) : bool :=
  match s with EmptyString => true | String a t => (N_of_ascii a <? 128)%N && ascii7 t end.

Lemma ascii_valid s : ascii7 s = true -> ValidString s = true.
Proof.
  induction s as [|a s IH]; [done|]. cbn [ascii7 ValidString]. intros [H1 H2]%andb_true_iff. rewrite H1. by apply IH.
Qed.

Lemma ascii7_app a b : ascii7 (a ++ b)%string = ascii7 a && ascii7 b.
Proof.
  induction a as [|c a IH]; [done|].
  change ((N_of_ascii c <? 128)%N && ascii7 (a ++ b)%string = (N_of_ascii c <? 128)%N && ascii7 a && ascii7 b).
  by rewrite IH, andb_assoc.
Qed.

Lemma pretty_N_go_ascii7 x s : ascii7 s = true -> ascii7 (pretty_N_go x s) = true.
Proof.
  revert s. induction (N.lt_wf_0 x) as [x _ IH]; intros s Hs. destruct (decide (0 < x)%N) as [Hx|Hx].
  - rewrite pretty_N_go_step by done. apply IH; [apply N.div_lt; lia|]. cbn [ascii7]. rewrite Hs, andb_true_r.
    unfold pretty_N_char. by repeat case_match.
  - by replace x with 0%N by lia.
Qed.

Lemma pretty_Z_ascii7 (z : Z) : ascii7 (pretty z) = true.
Proof.
  assert (forall n : N, ascii7 (pretty n) = true) as HN.
  { intros n. unfold pretty, pretty_N. destruct (decide (n = 0)%N); [done|]. by apply pretty_N_go_ascii7. }
  destruct z; [done|apply HN|]. unfold pretty, pretty_Z. cbn [ascii7 String.append]. apply HN.
Qed.

#[global] Arguments ValidString : simpl never.

(** ** The parts a block opens with *)

Definition textPart (text : string) : Part :=
  mkPart PartTypeText (Some (mkText text zeroWire)) None None None None None None None None zeroWire.
Definition toolPart (id name : string) : Part :=
  mkPart PartTypeToolCall None None None None (Some (mkToolCall id name "" zeroWire)) None None None None zeroWire.
Definition reasoningPart : Part :=
  mkPart PartTypeReasoning None None None None None None (Some (mkReasoning "" "" zeroWire)) None None zeroWire.

(** ** Decoders *)

(** What a provider supplies to the loop of [Decode]: the patch of the zero value
    [Decode] starts with, the scanner, the payload decoder and the terminator. *)
Class Decoder (D : Type) := {
  ready : D -> D;
  scan : D -> SSEScanner;
  setScan : SSEScanner -> D -> D;
  provider : D -> string;
  payload : D -> string -> D * (CodecError + list StreamEvent);
  finishStream : D -> D * list StreamEvent;
}.

Section Decoder.
Context {D : Type} {DD : Decoder D}.

Fixpoint payloads (d : D) (out : list StreamEvent) (evs : list SSEEvent)
    : list StreamEvent * option CodecError * D :=
  match evs with
  | [] => (out, None, d)
  | ev :: rest =>
      match payload d (ev_Data ev) with
      | (d, inl err) => (out, Some err, d)
      | (d, inr es) => payloads d (out ++ es) rest
      end
  end.

(** [Decode]: an error comes with the events of the frames before it. *)
Definition Decode (d : D) (chunk : string) (eos : bool) : list StreamEvent * option CodecError * D :=
  let d := ready d in
  let '(s, evs) := Feed (scan d) chunk in
  let '(out, err, d) := payloads (setScan s d) [] evs in
  match err with
  | Some _ => (out, err, d)
  | None =>
      if negb eos then (out, None, d)
      else
        let '(s, final, leftover) := Flush (scan d) in
        let '(out, err, d) := payloads (setScan s d) out (match final with Some f => [f] | None => [] end) in
        match err with
        | Some _ => (out, err, d)
        | None =>
            if negb (String.eqb (TrimSpace leftover) "")
            then (out, Some (MalformedError (provider d) "truncated SSE frame" None), d)
            else let '(d, es) := finishStream d in (out ++ es, None, d)
        end
  end.

(** The calls a stream makes, until the first error. *)
Fixpoint decodeAll (d : D) (chunks : list (string * bool)) : list StreamEvent * option CodecError * D :=
  match chunks with
  | [] => ([], None, d)
  | (chunk, eos) :: rest =>
      let '(es, err, d) := Decode d chunk eos in
      match err with
      | Some _ => (es, err, d)
      | None => let '(es', err, d) := decodeAll d rest in (es ++ es', err, d)
      end
  end.

End Decoder.

(** ** Encoders *)

(** The rendering of one event, which the encoder's state may change even when it
    fails. *)
Class Encoder (E : Type) := { encodeEvent : E -> StreamEvent -> E * outcome CodecError string }.

(** [Encode]: the renderings appended; the first error leaves no bytes. *)
Fixpoint encodeFrom {E} {EE : Encoder E} (e : E) (out : string) (evs : list StreamEvent)
    : E * outcome CodecError string :=
  match evs with
  | [] => (e, Ok out)
  | ev :: rest =>
      match encodeEvent e ev with
      | (e, Ok b) => encodeFrom e (out ++ b)%string rest
      | (e, Err err) => (e, Err err)
      | (e, Panic) => (e, Panic)
      end
  end.

Definition Encode {E} {EE : Encoder E} (e : E) (evs : list StreamEvent) : E * outcome CodecError string :=
  encodeFrom e "" evs.

(** ** The contract of a decoder *)

(** What has been announced: the start of the stream, the next block index, the
    open blocks with the part each opened with, the terminator. *)
Record protocol := mkProtocol {
  p_started : bool;
  p_next : Z;
  p_open : gmap Z Part;
  p_done : bool;
}.

Definition opening : protocol := mkProtocol false 0 ∅ false.

(** What a block already holds when it opens. *)
Definition openingText (p : Part) : string :=
  match pt_Type p, pt_Text p with PartTypeText, Some t => tx_Text t | _, _ => "" end.
Definition openingReasoning (p : Part) : string :=
  match pt_Type p, pt_Reasoning p with PartTypeReasoning, Some r => re_Text r | _, _ => "" end.

(** The parts that a block may have: text, a tool call, reasoning, each of them still
    empty. *)
Definition opens (p : Part) : bool :=
  match pt_Type p with
  | PartTypeText => match pt_Text p with Some t => String.eqb (tx_Text t) "" | None => false end && bool_decide (pt_ToolCall p = None)
  | PartTypeToolCall => match pt_ToolCall p with Some tc => String.eqb (tc_Arguments tc) "" | None => false end
  | PartTypeReasoning =>
      match pt_Reasoning p with Some r => String.eqb (re_Text r) "" | None => false end && bool_decide (pt_ToolCall p = None)
  | _ => false
  end.

Definition openAs (s : protocol) (i : Z) (t : PartType) : bool :=
  match p_open s !! i with Some p => bool_decide (pt_Type p = t) | None => false end.

(** Repeats what the block opened with, or leaves it out. *)
Definition repeats (s : protocol) (d : StreamToolCallDelta) : bool :=
  match p_open s !! tcd_Index d ≫= pt_ToolCall with
  | Some tc => (String.eqb (tcd_ID d) "" || String.eqb (tcd_ID d) (tc_ID tc))
               && (String.eqb (tcd_Name d) "" || String.eqb (tcd_Name d) (tc_Name tc))
  | None => false
  end.

(** One event; [None] is a violation.  [strict] also asks that an argument
    fragment names no other call than its block's. *)
Definition accept (strict : bool) (s : protocol) (ev : StreamEvent) : option protocol :=
  let '(mkProtocol started next open done) := s in
  let when (b : bool) (s' : protocol) := if b then Some s' else None in
  if done then None
  else
    match ev with
    | StreamEventStart (Some _) => when (negb started) (mkProtocol true next open false)
    | StreamEventContentStart (Some cs) =>
        when (started && (cs_Index cs =? next) && opens (cs_Part cs))
          (mkProtocol true (next + 1) (<[cs_Index cs := cs_Part cs]> open) false)
    | StreamEventTextDelta (Some d) =>
        when (started && openAs s (tdl_Index d) PartTypeText && negb (String.eqb (tdl_Text d) "")) s
    | StreamEventReasoningDelta (Some d) =>
        when (started && openAs s (rdl_Index d) PartTypeReasoning && negb (String.eqb (rdl_Text d) "")) s
    | StreamEventToolCallDelta (Some d) =>
        when (started && openAs s (tcd_Index d) PartTypeToolCall && negb (String.eqb (tcd_ArgumentsDelta d) "")
              && (negb strict || repeats s d)) s
    | StreamEventContentEnd (Some i) =>
        when (bool_decide (is_Some (open !! i))) (mkProtocol started next (delete i open) false)
    | StreamEventUsage (Some _) => when started s
    | StreamEventFinish (Some _) => when (started && bool_decide (open = ∅)) s
    | StreamEventError (Some _) => Some s
    | StreamEventDone => when (bool_decide (open = ∅)) (mkProtocol started next open true)
    | _ => None
    end.

Fixpoint run (strict : bool) (s : protocol) (evs : list StreamEvent) : option protocol :=
  match evs with
  | [] => Some s
  | ev :: evs => match accept strict s ev with Some s' => run strict s' evs | None => None end
  end.

Lemma run_app strict s a b :
  run strict s (a ++ b) = match run strict s a with Some s' => run strict s' b | None => None end.
Proof. revert s. induction a as [|ev a IH]; intros s; [done|]. cbn. by destruct (accept strict s ev). Qed.

(** A block that opens is empty. *)
Lemma opens_empty p : opens p = true -> openingText p = "" /\ openingReasoning p = "".
Proof.
  unfold opens, openingText, openingReasoning. destruct (pt_Type p); try done.
  - destruct (pt_Text p); [|done]. intros [H%String.eqb_eq _]%andb_true_iff. by rewrite H.
  - destruct (pt_Reasoning p); [|done]. intros [H%String.eqb_eq _]%andb_true_iff. by rewrite H.
Qed.

(** ** Blocks numbered from a counter *)

Definition live (s : protocol) : Prop := p_started s = true /\ p_done s = false.

(** The open blocks are those listed, all of them numbered below the counter. *)
Record blocks (next : Z) (open : list Z) (s : protocol) : Prop := {
  bl_next : p_next s = next;
  bl_open i : is_Some (p_open s !! i) <-> In i open;
  bl_nodup : List.NoDup open;
  bl_lt : Forall (fun i => 0 <= i < next) open;
  bl_pos : 0 <= next;
}.

Definition opened (s : protocol) (p : Part) : protocol :=
  mkProtocol true (p_next s + 1) (<[p_next s := p]> (p_open s)) false.
Definition closed (s : protocol) : protocol := mkProtocol (p_started s) (p_next s) ∅ (p_done s).

Lemma blocks_opened next open s p : blocks next open s -> blocks (next + 1) (open ++ [next]) (opened s p).
Proof.
  intros [Hn Ho Hd Hl Hp]. split; cbn.
  - lia.
  - intros i. rewrite Hn, in_app_iff. cbn [In]. destruct (decide (i = next)) as [->|Hne].
    + rewrite lookup_insert_eq. split; [tauto|eauto].
    + rewrite lookup_insert_ne, Ho by congruence. intuition congruence.
  - apply List.NoDup_app; [done|repeat constructor; tauto|]. intros i Hi [->|[]].
    rewrite Forall_forall in Hl. apply list_elem_of_In in Hi. specialize (Hl _ Hi). lia.
  - apply Forall_app. split; [|repeat constructor; lia]. eapply Forall_impl; [exact Hl|]. cbn. lia.
  - lia.
Qed.

Lemma openAs_opened s p i t :
  openAs (opened s p) i t = if i =? p_next s then bool_decide (pt_Type p = t) else openAs s i t.
Proof.
  unfold openAs, opened; cbn. destruct (Z.eqb_spec i (p_next s)) as [->|Hne].
  - by rewrite lookup_insert_eq.
  - by rewrite lookup_insert_ne by congruence.
Qed.

(** A block that is open stays open when another opens. *)
Lemma openAs_mono next open s p i t :
  blocks next open s -> openAs s i t = true -> openAs (opened s p) i t = true.
Proof.
  intros [Hn Ho Hd Hl Hp] H. rewrite openAs_opened. destruct (Z.eqb_spec i (p_next s)) as [->|]; [|done].
  unfold openAs in H. destruct (p_open s !! p_next s) eqn:E; [|done].
  assert (In (p_next s) open) as Hi by (apply Ho; eauto). rewrite Forall_forall in Hl.
  apply list_elem_of_In, Hl in Hi. lia.
Qed.

Lemma run_open strict s p : live s -> opens p = true ->
  run strict s [StreamEventContentStart (Some (mkContentStart (p_next s) p))] = Some (opened s p).
Proof.
  intros [Hs Hd] Hp. destruct s as [st n o dn]. cbn in *. subst. cbn. by rewrite Z.eqb_refl, Hp.
Qed.

Lemma run_close strict next open s : blocks next open s -> p_done s = false ->
  run strict s (List.map (fun i => StreamEventContentEnd (Some i)) open) = Some (closed s).
Proof.
  intros [_ Ho Hd _ _] Hn. destruct s as [st n o dn]. cbn in *. subst dn.
  revert o Ho Hd. induction open as [|i open IH]; intros o Ho Hd; cbn [List.map run].
  - assert (o = ∅) as ->; [|done]. apply map_empty. intros i. apply eq_None_not_Some. intros H. by apply Ho in H.
  - cbn [accept]. rewrite bool_decide_true by (apply Ho; by left). inversion_clear Hd.
    rewrite IH; [done| |done]. intros j. destruct (decide (j = i)) as [->|Hne].
    + rewrite lookup_delete_eq. split; [by intros []|done].
    + rewrite lookup_delete_ne, Ho by congruence. cbn. intuition congruence.
Qed.

Lemma blocks_closed next open s : blocks next open s -> blocks next [] (closed s).
Proof.
  intros [Hn Ho Hd Hl Hp]. split; cbn; [done| |constructor|constructor|done].
  intros i. rewrite lookup_empty. split; [by intros []|done].
Qed.

Lemma run_finish strict s f : p_started s = true -> p_done s = false ->
  run strict (closed s) [StreamEventFinish (Some f)] = Some (closed s).
Proof. intros Hs Hd. destruct s; cbn in *; subst. by rewrite bool_decide_true. Qed.

Lemma run_done strict s : p_done s = false ->
  run strict (closed s) [StreamEventDone] = Some (mkProtocol (p_started s) (p_next s) ∅ true).
Proof. intros Hd. destruct s; cbn in *; subst. by rewrite bool_decide_true. Qed.

Lemma run_delta s i text (H : openAs s i PartTypeText = true) : live s -> text <> "" ->
  run false s [StreamEventTextDelta (Some (mkTextDelta i text))] = Some s.
Proof. intros [Hs Hd] Ht%String.eqb_neq. destruct s; cbn in *. subst. by rewrite H, Ht. Qed.

Lemma run_reasoning s i text (H : openAs s i PartTypeReasoning = true) : live s -> text <> "" ->
  run false s [StreamEventReasoningDelta (Some (mkReasoningDelta i text))] = Some s.
Proof. intros [Hs Hd] Ht%String.eqb_neq. destruct s; cbn in *. subst. by rewrite H, Ht. Qed.

Lemma run_args s i id name args (H : openAs s i PartTypeToolCall = true) : live s -> args <> "" ->
  run false s [StreamEventToolCallDelta (Some (mkToolCallDelta i id name args))] = Some s.
Proof. intros [Hs Hd] Ht%String.eqb_neq. destruct s; cbn in *. subst. by rewrite H, Ht. Qed.

(** What an accepted event says. *)
Lemma accept_inv strict s ev s' :
  accept strict s ev = Some s' ->
  p_done s = false /\
  match ev with
  | StreamEventStart (Some _) => s' = mkProtocol true (p_next s) (p_open s) false
  | StreamEventContentStart (Some cs) =>
      p_started s = true /\ cs_Index cs = p_next s /\ opens (cs_Part cs) = true /\ s' = opened s (cs_Part cs)
  | StreamEventTextDelta (Some d) =>
      p_started s = true /\ openAs s (tdl_Index d) PartTypeText = true /\ tdl_Text d <> "" /\ s' = s
  | StreamEventReasoningDelta (Some d) =>
      p_started s = true /\ openAs s (rdl_Index d) PartTypeReasoning = true /\ rdl_Text d <> "" /\ s' = s
  | StreamEventToolCallDelta (Some d) =>
      p_started s = true /\ openAs s (tcd_Index d) PartTypeToolCall = true /\ tcd_ArgumentsDelta d <> ""
      /\ (strict = true -> repeats s d = true) /\ s' = s
  | StreamEventContentEnd (Some i) => is_Some (p_open s !! i) /\ s' = mkProtocol (p_started s) (p_next s) (delete i (p_open s)) false
  | StreamEventUsage (Some _) | StreamEventError (Some _) => s' = s
  | StreamEventFinish (Some _) => p_open s = ∅ /\ s' = s
  | StreamEventDone => p_open s = ∅ /\ s' = mkProtocol (p_started s) (p_next s) ∅ true
  | _ => False
  end.
Proof.
  destruct s as [st n o dn]. unfold accept. destruct dn; [done|]. intros H. split; [done|].
  destruct ev as [[x|]|[cs|]|[td|]|[td|]|[td|]|[i|]|[u|]|[f|]|[x|]|]; try done; cbn [p_started p_next p_open];
    repeat match type of H with (if ?b then _ else _) = _ => destruct b eqn:?; [|discriminate H] end;
    simplify_eq H; try (intros <-); try intros ->; bool_to_prop; subst; try done.
  repeat split; try done. intros ->. cbn in *. destruct (repeats _ td); done.
Qed.

Definition isDone (ev : StreamEvent) : bool := match ev with StreamEventDone => true | _ => false end.

Lemma accept_done strict s ev s' : accept strict s ev = Some s' -> p_done s' = isDone ev.
Proof.
  intros [Hd H]%accept_inv.
  destruct ev as [[x|]|[cs|]|[td|]|[td|]|[td|]|[i|]|[u|]|[f|]|[x|]|]; try done; destruct_and? H; by subst.
Qed.

(** ** The contract, once for every decoder *)

(** What a decoder has to show to meet the contract: an invariant that ties its
    state to what it has announced. *)
Class Contract (D : Type) {DD : Decoder D} := {
  announced : D -> protocol -> Prop;
  announced_ready d s : announced d s -> ready d = d;
  announced_scan sc d s : announced d s -> announced (setScan sc d) s;
  announced_payload d s data d' es :
    announced d s -> payload d data = (d', inr es) ->
    exists s', run false s es = Some s' /\ announced d' s';
  announced_error d s data d' err : announced d s -> payload d data = (d', inl err) -> announced d' s;
  announced_finish d s d' es :
    announced d s -> finishStream d = (d', es) ->
    exists s', run false s es = Some s' /\ announced d' s' /\ p_done s' = true;
}.

Section Contract.
Context {D : Type} {DD : Decoder D} {CD : Contract D}.

Lemma payloads_contract evs d s0 s out out' err d' :
  run false s0 out = Some s -> announced d s -> payloads d out evs = (out', err, d') ->
  exists s', run false s0 out' = Some s' /\ announced d' s'.
Proof.
  revert d s out. induction evs as [|ev evs IH]; intros d s out Hr Ha; cbn.
  - intros [= <- <- <-]. eauto.
  - destruct (payload d (ev_Data ev)) as [d1 [e|es]] eqn:E.
    + intros [= <- <- <-]. eauto using announced_error.
    + destruct (announced_payload _ _ _ _ _ Ha E) as (s1 & Hr1 & Ha1). apply (IH d1 s1); [|done].
      by rewrite run_app, Hr.
Qed.

Lemma decode_contract d s chunk eos es err d' :
  announced (ready d) s -> Decode d chunk eos = (es, err, d') ->
  exists s', run false s es = Some s' /\ announced d' s' /\ (err = None -> eos = true -> p_done s' = true).
Proof.
  intros Ha. unfold Decode. destruct (Feed _ _) as [sc evs].
  destruct (payloads _ [] evs) as [[out1 err1] d1] eqn:E1.
  destruct (payloads_contract _ _ s s [] _ _ _ eq_refl (announced_scan _ _ _ Ha) E1) as (s1 & Hr1 & Ha1).
  destruct err1 as [e|]; [intros [= <- <- <-]; by exists s1|].
  destruct eos; [|intros [= <- <- <-]; by exists s1]. cbn [negb].
  destruct (Flush (scan d1)) as [[sc2 final] leftover].
  destruct (payloads _ out1 _) as [[out2 err2] d2] eqn:E2.
  destruct (payloads_contract _ _ _ _ _ _ _ _ Hr1 (announced_scan _ _ _ Ha1) E2) as (s2 & Hr2 & Ha2).
  destruct err2 as [e|]; [intros [= <- <- <-]; by exists s2|].
  destruct (negb _); [intros [= <- <- <-]; by exists s2|].
  destruct (finishStream d2) as [d3 fin] eqn:E3. intros [= <- <- <-].
  destruct (announced_finish _ _ _ _ Ha2 E3) as (s3 & Hr3 & Ha3 & Hd).
  exists s3. rewrite run_app, Hr2. auto.
Qed.

(** The last call is marked as the end of the stream. *)
Definition ended (chunks : list (string * bool)) : Prop :=
  match last chunks with Some (_, eos) => eos = true | None => False end.

Lemma decodeAll_contract chunks d s es err d' :
  announced (ready d) s -> decodeAll d chunks = (es, err, d') ->
  exists s', run false s es = Some s' /\ announced (ready d') s'
    /\ (err = None -> ended chunks -> p_done s' = true).
Proof.
  revert d s es. induction chunks as [|[chunk eos] chunks IH]; intros d s es Ha; cbn [decodeAll].
  { intros [= <- <- <-]. by exists s. }
  destruct (Decode d chunk eos) as [[es1 err1] d1] eqn:E1.
  destruct (decode_contract _ _ _ _ _ _ _ Ha E1) as (s1 & Hr1 & Ha1 & Hd1).
  rewrite <- (announced_ready _ _ Ha1) in Ha1.
  destruct err1 as [e|]; [intros [= <- <- <-]; by exists s1|].
  destruct (decodeAll d1 chunks) as [[es2 err2] d2] eqn:E2. intros [= <- <- <-].
  destruct (IH _ _ _ Ha1 E2) as (s2 & Hr2 & Ha2 & Hd2). exists s2. rewrite run_app, Hr1. do 2 (split; [done|]).
  intros -> Hl. destruct chunks as [|c chunks]; [|by apply Hd2].
  cbn in E2. injection E2 as <- <-. cbn in Hr2. injection Hr2 as <-. by apply Hd1.
Qed.

End Contract.

(** ** Content *)

(** The text and the reasoning an event adds, the opening of a block included. *)
Definition eventText (ev : StreamEvent) : string :=
  match ev with StreamEventContentStart (Some cs) => openingText (cs_Part cs) | _ => deltaText ev end.
Definition reasoningText (ev : StreamEvent) : string :=
  match ev with
  | StreamEventContentStart (Some cs) => openingReasoning (cs_Part cs)
  | StreamEventReasoningDelta (Some d) => rdl_Text d
  | _ => ""
  end.
Definition finishReason (ev : StreamEvent) : option FinishReason :=
  match ev with StreamEventFinish (Some f) => Some (sf_FinishReason f) | _ => None end.
Definition usageTokens (ev : StreamEvent) : option (Z * Z) :=
  match ev with StreamEventUsage (Some u) => Some (InputTokens u, OutputTokens u) | _ => None end.

(** What a reader of a whole stream ends up with: the text, the reasoning, one
    tool call per block in the order the blocks opened, the last finish reason and
    the last usage. *)
Record content := mkContent {
  c_text : string;
  c_reasoning : string;
  c_calls : list AssembledToolCall;
  c_finish : option FinishReason;
  c_usage : option (Z * Z);
}.

Definition contentOf (evs : list StreamEvent) : content :=
  let ts := omap touched evs in
  mkContent (String.concat "" (List.map eventText evs)) (String.concat "" (List.map reasoningText evs))
    (List.map (callAt ts) (firsts (List.map fst ts)))
    (last (omap finishReason evs)) (last (omap usageTokens evs)).

(** A reason as every schema can name it. *)
Definition plainFinish (f : FinishReason) : FinishReason :=
  match f with
  | FinishReasonLength | FinishReasonToolCalls | FinishReasonContentFilter => f
  | _ => FinishReasonStop
  end.

(** The same call: name and arguments, and the identifier unless there was none,
    in which case one was made up. *)
Definition sameCall (a b : AssembledToolCall) : Prop :=
  at_Name b = at_Name a /\ at_Arguments b = at_Arguments a
  /\ if String.eqb (at_ID a) "" then at_ID b <> "" else at_ID b = at_ID a.

End StreamCodec.
