(* ===== verification/StreamContent.v ===== *)
(** * Streams read back

    What every stream codec shares when one side's bytes are the other side's
    input: the events and the error of a decoder do not depend on how the bytes
    are cut into chunks, frames written one after the other are read one after the
    other, and the bookkeeping by which the content of a stream is compared with
    the content of its rendering. *)

From Stdlib Require Import ZArith Lia NArith Ascii String List.
From stdpp Require Import base strings list gmap.
From S2P Require Import Prelude GoStrings GoStd Registry LlmCall Sse StreamCodec.
Import GoStrings GoStd LlmCall Sse StreamCodec.

#[local] Open Scope string_scope.
#[local] Open Scope Z_scope.
#[local] Open Scope list_scope.

Module StreamContent.

(** ** Chunking *)

(** The scanner is a part of the decoder of its own. *)
Class Framed (D : Type) {DD : Decoder D} := {
  scan_setScan s (d : D) : scan (setScan s d) = s;
  setScan_setScan s s' (d : D) : setScan s (setScan s' d) = setScan s d;
  setScan_scan (d : D) : setScan (scan d) d = d;
  ready_idem (d : D) : ready (ready d) = ready d;
  ready_setScan s (d : D) : ready (setScan s d) = setScan s (ready d);
  ready_payload (d : D) data : ready d = d -> ready (payload d data).1 = (payload d data).1;
  payload_setScan s (d : D) data : payload (setScan s d) data = (setScan s (payload d data).1, (payload d data).2);
}.

Section Chunks.
Context {D : Type} {DD : Decoder D} {FD : Framed D}.

Lemma payloads_acc (d : D) out evs :
  payloads d out evs = let '(o, err, d') := payloads d [] evs in (out ++ o, err, d').
Proof.
  revert d out. induction evs as [|ev evs IH]; intros d out; cbn; [by rewrite app_nil_r|].
  destruct (payload d (ev_Data ev)) as [d1 [e|es]]; [by rewrite app_nil_r|].
  rewrite IH, (IH d1 es). destruct (payloads d1 [] evs) as [[o err] d2]. by rewrite app_assoc.
Qed.

Lemma payloads_app (d : D) evs evs' :
  payloads d [] (evs ++ evs')
  = let '(o, err, d1) := payloads d [] evs in
    match err with Some _ => (o, err, d1) | None => payloads d1 o evs' end.
Proof.
  revert d. induction evs as [|ev evs IH]; intros d; cbn; [done|].
  destruct (payload d (ev_Data ev)) as [d1 [e|es]]; [done|].
  rewrite payloads_acc, (payloads_acc d1 es), IH. destruct (payloads d1 [] evs) as [[o [e|]] d2]; [done|].
  rewrite (payloads_acc d2 o), (payloads_acc d2 (es ++ o)). destruct (payloads d2 [] evs') as [[o' err] d3].
  by rewrite app_assoc.
Qed.

Lemma payloads_setScan s (d : D) out evs :
  payloads (setScan s d) out evs = let '(o, err, d') := payloads d out evs in (o, err, setScan s d').
Proof.
  revert d out. induction evs as [|ev evs IH]; intros d out; cbn; [done|].
  rewrite payload_setScan. destruct (payload d (ev_Data ev)) as [d1 [e|es]]; cbn [fst snd]; [done|]. apply IH.
Qed.

Lemma payloads_scan (d : D) out evs o err d' : payloads d out evs = (o, err, d') -> scan d' = scan d.
Proof.
  intros H. pose proof (payloads_setScan (scan d) d out evs) as E. rewrite setScan_scan, H in E.
  injection E as E. by rewrite E, scan_setScan.
Qed.

Lemma payloads_ready (d : D) out evs o err d' : ready d = d -> payloads d out evs = (o, err, d') -> ready d' = d'.
Proof.
  revert d out. induction evs as [|ev evs IH]; intros d out Hr; cbn; [by intros [= <- <- <-]|].
  pose proof (ready_payload d (ev_Data ev) Hr) as H. destruct (payload d (ev_Data ev)) as [d1 [e|es]]; cbn in H.
  - by intros [= <- <- <-].
  - by apply IH.
Qed.

(** What is cut off the front of a chunk can be delivered first. *)
Lemma Decode_split (d : D) a b eos :
  (Decode d (a ++ b) eos).1
  = match Decode d a false with
    | (es, Some err, _) => (es, Some err)
    | (es, None, d1) => let '(es', err, _) := Decode d1 b eos in (es ++ es', err)
    end.
Proof.
  unfold Decode at 1 2. rewrite Feed_app. destruct (Feed (scan (ready d)) a) as [s1 evs1].
  destruct (Feed s1 b) as [s2 evs2] eqn:E2. rewrite payloads_app.
  pose proof (ready_idem d) as Hr. set (d0 := ready d) in *. clearbody d0.
  rewrite (payloads_setScan s2 d0), (payloads_setScan s1 d0).
  destruct (payloads d0 [] evs1) as [[o1 [e|]] d1] eqn:E1; [done|]. cbn [negb].
  assert (ready d1 = d1) as Hr1 by (by eapply payloads_ready).
  unfold Decode. rewrite ready_setScan, Hr1, scan_setScan, E2, setScan_setScan.
  rewrite (payloads_acc _ o1), payloads_setScan. destruct (payloads d1 [] evs2) as [[o2 [e|]] d2]; [done|].
  destruct eos; [|done]. cbn [negb]. rewrite scan_setScan. destruct (Flush s2) as [[s3 final] leftover].
  rewrite (payloads_acc _ (o1 ++ o2)), (payloads_acc _ o2). rewrite !setScan_setScan.
  destruct (payloads (setScan s3 d2) [] _) as [[o3 [e|]] d3]; [by rewrite <- app_assoc|].
  destruct (negb _); [by rewrite <- app_assoc|]. destruct (finishStream d3) as [d4 fin]. cbn.
  by rewrite <- !app_assoc.
Qed.

Lemma Decode_empty (d : D) : buf (scan (ready d)) = "" -> Decode d "" false = ([], None, ready d).
Proof.
  intros Hb. unfold Decode. assert (Feed (scan (ready d)) "" = (scan (ready d), [])) as ->.
  { rewrite Feed_spec, Hb. cbn. destruct (scan (ready d)); cbn in *. by subst. }
  by rewrite setScan_scan.
Qed.

(** A stream delivered in pieces, the last one marked. *)
Definition delivery (cs : list string) (last : string) : list (string * bool) :=
  List.map (fun c => (c, false)) cs ++ [(last, true)].

Lemma decodeAll_chunking (d : D) cs c :
  (decodeAll d (delivery cs c)).1 = (Decode d (String.concat "" cs ++ c)%string true).1.
Proof.
  revert d. induction cs as [|c0 cs IH]; intros d.
  - change (String.concat "" [] ++ c)%string with c. cbn [delivery List.map app decodeAll].
    destruct (Decode d c true) as [[es [e|]] d']; [done|]. cbn. by rewrite app_nil_r.
  - assert (String.concat "" (c0 :: cs) = (c0 ++ String.concat "" cs)%string) as -> by (destruct cs; cbn; [by rewrite str_app_nil_r|done]).
    rewrite str_app_assoc, Decode_split. cbn [delivery List.map app decodeAll].
    destruct (Decode d c0 false) as [[es [e|]] d1]; [done|].
    specialize (IH d1). unfold delivery in IH. destruct (decodeAll d1 _) as [[es' err'] d2].
    destruct (Decode d1 _ true) as [[es'' err''] d3]. cbn in IH. by injection IH as -> ->.
Qed.

End Chunks.

(** ** Frames *)

(** Bytes that are whole frames with these payloads. *)
Definition frames (b : string) (ps : list string) : Prop :=
  exists evs, Feed newScanner b = (newScanner, evs) /\ List.map ev_Data evs = ps.

Lemma frames_nil : frames "" [].
Proof. by exists []. Qed.

Lemma frames_app a b p q : frames a p -> frames b q -> frames (a ++ b)%string (p ++ q).
Proof.
  intros (e1 & H1 & <-) (e2 & H2 & <-). exists (e1 ++ e2). rewrite Feed_app, H1, H2. by rewrite map_app.
Qed.

Definition oneLine (b : string) : Prop := Count b nl = 0%nat /\ no_cr b.

Lemma frames_sse name b : oneLine name -> oneLine b -> frames (AppendSSE "" name b) [b].
Proof.
  intros [Hn Hc] [Hb Hd]. exists [mkEvent name b]. split; [|done].
  change name with (ev_Name (mkEvent name b)) at 1. change b with (ev_Data (mkEvent name b)) at 1.
  rewrite AppendSSE_lines. apply Feed_frame. split; [done|]. split; [done|]. cbn.
  rewrite Split_plain by done. by repeat constructor.
Qed.

(** What a decoder makes of a list of payloads. *)
Fixpoint readAll {D} {DD : Decoder D} (d : D) (ps : list string) : option (D * list StreamEvent) :=
  match ps with
  | [] => Some (d, [])
  | p :: ps =>
      match payload d p with
      | (_, inl _) => None
      | (d, inr es) => match readAll d ps with Some (d, es') => Some (d, es ++ es') | None => None end
      end
  end.

Lemma readAll_app {D} {DD : Decoder D} (d : D) p q d1 es1 d2 es2 :
  readAll d p = Some (d1, es1) -> readAll d1 q = Some (d2, es2) -> readAll d (p ++ q) = Some (d2, es1 ++ es2).
Proof.
  revert d es1. induction p as [|x p IH]; intros d es1; cbn.
  - by intros [= <- <-].
  - destruct (payload d x) as [d0 [e|es]]; [done|]. destruct (readAll d0 p) as [[d' es']|] eqn:E; [|done].
    intros [= <- <-] H. rewrite (IH _ _ E H). by rewrite app_assoc.
Qed.

Lemma readAll_payloads {D} {DD : Decoder D} (d : D) evs d' es :
  readAll d (List.map ev_Data evs) = Some (d', es) -> payloads d [] evs = (es, None, d').
Proof.
  revert d es. induction evs as [|ev evs IH]; intros d es; cbn; [by intros [= <- <-]|].
  destruct (payload d (ev_Data ev)) as [d0 [e|es0]]; [done|].
  destruct (readAll d0 _) as [[d1 es1]|] eqn:E; [|done]. intros [= <- <-]. by rewrite payloads_acc, (IH _ _ E).
Qed.

(** Whole frames, read at the end of a stream. *)
Lemma Decode_frames {D} {DD : Decoder D} {FD : Framed D} (d : D) b ps d' es d'' fin :
  scan (ready d) = newScanner -> frames b ps -> readAll (ready d) ps = Some (d', es) -> finishStream d' = (d'', fin) ->
  (Decode d b true).1 = (es ++ fin, None).
Proof.
  intros Hs (evs & Hf & <-) Hr%readAll_payloads Hfin. unfold Decode. rewrite Hs, Hf.
  pose proof (payloads_scan _ _ _ _ _ _ Hr) as Hs'. rewrite Hs in Hs'.
  assert (setScan newScanner d' = d') as Hd by (rewrite <- Hs'; apply setScan_scan).
  rewrite payloads_setScan, Hr, Hd. cbn [negb]. rewrite Hs'.
  change (Flush newScanner) with (newScanner, @None SSEEvent, ""). cbv beta iota. rewrite Hd. cbn [payloads].
  change (TrimSpace "") with "". cbn [String.eqb negb]. by rewrite Hfin.
Qed.

(** ** Events that a JSON string can carry *)

Definition validEvent (ev : StreamEvent) : bool :=
  match ev with
  | StreamEventStart (Some s) => ValidString (st_ID s) && ValidString (st_Model s)
  | StreamEventContentStart (Some cs) =>
      match pt_ToolCall (cs_Part cs) with
      | Some tc => ValidString (tc_ID tc) && ValidString (tc_Name tc)
      | None => true
      end
  | StreamEventTextDelta (Some d) => ValidString (tdl_Text d)
  | StreamEventReasoningDelta (Some d) => ValidString (rdl_Text d)
  | StreamEventToolCallDelta (Some d) =>
      ValidString (tcd_ID d) && ValidString (tcd_Name d) && ValidString (tcd_ArgumentsDelta d)
  | _ => true
  end.

(** A decoder whose events are made of JSON strings. *)
Class Utf8 (D : Type) {DD : Decoder D} := {
  payload_valid (d : D) data d' es : payload d data = (d', inr es) -> forallb validEvent es = true;
  finish_valid (d : D) d' es : finishStream d = (d', es) -> forallb validEvent es = true;
}.

Section Utf8.
Context {D : Type} {DD : Decoder D} {UD : Utf8 D}.

Lemma payloads_valid (d : D) out evs o err d' :
  forallb validEvent out = true -> payloads d out evs = (o, err, d') -> forallb validEvent o = true.
Proof.
  revert d out. induction evs as [|ev evs IH]; intros d out Hv; cbn; [by intros [= <- <- <-]|].
  destruct (payload d (ev_Data ev)) as [d1 [e|es]] eqn:E; [by intros [= <- <- <-]|]. apply IH.
  rewrite forallb_app, Hv. by eapply payload_valid.
Qed.

Lemma Decode_valid (d : D) chunk eos es err d' : Decode d chunk eos = (es, err, d') -> forallb validEvent es = true.
Proof.
  unfold Decode. destruct (Feed _ _) as [sc evs]. destruct (payloads _ [] evs) as [[o1 e1] d1] eqn:E1.
  apply payloads_valid in E1; [|done]. destruct e1; [by intros [= <- <- <-]|]. destruct eos; [|by intros [= <- <- <-]].
  cbn [negb]. destruct (Flush _) as [[s2 final] leftover]. destruct (payloads _ o1 _) as [[o2 e2] d2] eqn:E2.
  apply payloads_valid in E2; [|done]. destruct e2; [by intros [= <- <- <-]|]. destruct (negb _); [by intros [= <- <- <-]|].
  destruct (finishStream d2) as [d3 fin] eqn:E3. intros [= <- <- <-]. rewrite forallb_app, E2. by eapply finish_valid.
Qed.

Lemma decodeAll_valid (d : D) chunks es err d' : decodeAll d chunks = (es, err, d') -> forallb validEvent es = true.
Proof.
  revert d es. induction chunks as [|[chunk eos] chunks IH]; intros d es; cbn [decodeAll]; [by intros [= <- <- <-]|].
  destruct (Decode d chunk eos) as [[es1 err1] d1] eqn:E1. apply Decode_valid in E1.
  destruct err1; [by intros [= <- <- <-]|]. destruct (decodeAll d1 chunks) as [[es2 err2] d2] eqn:E2. intros [= <- <- <-].
  rewrite forallb_app, E1. by eapply IH.
Qed.

End Utf8.

Definition noError (ev : StreamEvent) : bool := match ev with StreamEventError _ => false | _ => true end.

(** ** Content followed through a rendering *)

Definition calls (evs : list StreamEvent) : list (Z * (string * string * string)) := omap touched evs.
Definition indexes (evs : list StreamEvent) : list Z := firsts (List.map fst (calls evs)).

(** [evs'] is what a reader makes of the rendering of [evs] so far: [m] takes the
    tool blocks of the one to those of the other. *)
Record tracks (m : gmap Z Z) (s : protocol) (evs evs' : list StreamEvent) : Prop := {
  tk_text : String.concat "" (List.map eventText evs') = String.concat "" (List.map eventText evs);
  tk_reasoning : String.concat "" (List.map reasoningText evs') = String.concat "" (List.map reasoningText evs);
  tk_order : Forall2 (fun i i' => m !! i = Some i') (indexes evs) (indexes evs');
  tk_calls i i' : m !! i = Some i' ->
    i < p_next s /\ i ∈ indexes evs /\ sameCall (callAt (calls evs) i) (callAt (calls evs') i');
  tk_open i p tc : p_open s !! i = Some p -> pt_Type p = PartTypeToolCall -> pt_ToolCall p = Some tc ->
    is_Some (m !! i) /\ at_ID (callAt (calls evs) i) = tc_ID tc /\ at_Name (callAt (calls evs) i) = tc_Name tc;
  tk_inj i j k : m !! i = Some k -> m !! j = Some k -> i = j;
}.

Lemma calls_app a b : calls (a ++ b) = calls a ++ calls b.
Proof. apply omap_app. Qed.

Lemma concat_map_app f (a b : list StreamEvent) :
  String.concat "" (List.map f (a ++ b)) = (String.concat "" (List.map f a) ++ String.concat "" (List.map f b))%string.
Proof.
  rewrite map_app. induction (List.map f a) as [|x l IH]; [done|]. cbn [app].
  assert (forall y l, String.concat "" (y :: l) = (y ++ String.concat "" l)%string) as E
    by (intros y [|z l']; cbn; [by rewrite str_app_nil_r|done]).
  by rewrite !E, IH, str_app_assoc.
Qed.

(** ** What the payloads of a stream say

    The text, the reasoning, the argument bytes of the tool calls and the finish reasons
    of events, and of the payloads they were decoded from. *)
Record said := mkSaid { sd_text : string; sd_reasoning : string; sd_args : string; sd_finish : list FinishReason }.

Definition argsText (ev : StreamEvent) : string :=
  match ev with StreamEventToolCallDelta (Some d) => tcd_ArgumentsDelta d | _ => "" end.

Definition join (a b : said) : said :=
  mkSaid (sd_text a ++ sd_text b) (sd_reasoning a ++ sd_reasoning b) (sd_args a ++ sd_args b) (sd_finish a ++ sd_finish b).
Definition nothing : said := mkSaid "" "" "" [].
Definition joinAll (l : list said) : said := fold_right join nothing l.

Definition says (evs : list StreamEvent) : said :=
  mkSaid (String.concat "" (List.map eventText evs)) (String.concat "" (List.map reasoningText evs))
    (String.concat "" (List.map argsText evs)) (omap finishReason evs).

(** The reason a reader is left with: the last one, a normal stop where there is none. *)
Definition lastFinish (s : said) : FinishReason := default FinishReasonStop (last (sd_finish s)).

Lemma join_assoc a b c : join a (join b c) = join (join a b) c.
Proof. unfold join. cbn. by rewrite !str_app_assoc, app_assoc. Qed.

Lemma join_nothing a : join a nothing = a.
Proof. destruct a. unfold join, nothing. cbn. by rewrite !str_app_nil_r, app_nil_r. Qed.

Lemma nothing_join a : join nothing a = a.
Proof. by destruct a. Qed.

Lemma joinAll_app a b : joinAll (a ++ b) = join (joinAll a) (joinAll b).
Proof.
  induction a as [|x a IH]; [by rewrite nothing_join|]. cbn [app joinAll fold_right]. fold (joinAll (a ++ b)) (joinAll a).
  by rewrite IH, join_assoc.
Qed.

Lemma says_app a b : says (a ++ b) = join (says a) (says b).
Proof. unfold says, join. cbn. by rewrite !concat_map_app, omap_app. Qed.

Lemma said_args {A} (f : A -> string) (l : list A) :
  joinAll (List.map (fun a => mkSaid "" "" (f a) []) l) = mkSaid "" "" (String.concat "" (List.map f l)) [].
Proof.
  induction l as [|a l IH]; [done|]. cbn [List.map joinAll fold_right]. fold (joinAll (List.map (fun a => mkSaid "" "" (f a) []) l)).
  rewrite IH. unfold join. cbn. f_equal. by destruct l; cbn; rewrite ?str_app_nil_r.
Qed.

(** Events of one piece after another. *)
Lemma fold_says {D A} (f : D -> A -> D * list StreamEvent) (g : A -> said) (live : D -> bool) (l : list A) acc :
  (forall d a, says (f d a).2 = g a /\ live (f d a).1 = live d) ->
  let r := fold_left (fun acc a => let '(d, out) := acc in let '(d, es) := f d a in (d, out ++ es)) l acc in
  says r.2 = join (says acc.2) (joinAll (List.map g l)) /\ live r.1 = live acc.1.
Proof.
  intros Hf. revert acc. induction l as [|a l IH]; intros [d out]; cbn zeta; [by rewrite join_nothing|].
  cbn [fold_left List.map joinAll fold_right]. fold (joinAll (List.map g l)). specialize (Hf d a).
  destruct (f d a) as [d1 es]. destruct Hf as [Hs Hl]. destruct (IH (d1, out ++ es)) as [H1 H2].
  cbn [fst snd] in *. rewrite H1, H2, says_app, Hs, join_assoc. done.
Qed.

Lemma says_ends l : says (List.map (fun i => StreamEventContentEnd (Some i)) l) = nothing.
Proof.
  induction l as [|i l IH]; [done|]. cbn [List.map].
  change (StreamEventContentEnd (Some i) :: ?l) with ([StreamEventContentEnd (Some i)] ++ l). by rewrite says_app, IH.
Qed.

(** The payloads of the bytes of a whole stream. *)
Definition payloadsOf (b : string) : list string :=
  let '(s, evs) := Feed newScanner b in
  List.map ev_Data evs ++ match Flush s with (_, Some f, _) => [ev_Data f] | _ => [] end.

(** What each payload of a schema says, whatever came before, and which one is the last. *)
Class Reads (D : Type) {DD : Decoder D} := {
  over : D -> bool;
  saidIn : string -> said;
  lastIn : string -> bool;
  over_ready d : over (ready d) = over d;
  over_scan s d : over (setScan s d) = over d;
  reads_live d data d' es : over d = false -> payload d data = (d', inr es) -> says es = saidIn data /\ over d' = lastIn data;
  reads_over d data : over d = true -> payload d data = (d, inr []);
  reads_finish d : says (finishStream d).2 = nothing;
}.

Section Reading.
Context {D : Type} {DD : Decoder D} {FD : Framed D} {RD : Reads D}.

(** The payloads up to the last one. *)
Fixpoint untilLast (ps : list string) : list string :=
  match ps with [] => [] | p :: ps => if lastIn p then [p] else p :: untilLast ps end.

(** What a whole stream says. *)
Definition saidBy (b : string) : said := joinAll (List.map saidIn (untilLast (payloadsOf b))).

Lemma payloads_over (d : D) evs : over d = true -> payloads d [] evs = ([], None, d).
Proof. intros H. induction evs as [|ev evs IH]; [done|]. cbn. by rewrite (reads_over d _ H). Qed.

Lemma payloads_says (d : D) evs es d' : over d = false -> payloads d [] evs = (es, None, d') ->
  says es = joinAll (List.map saidIn (untilLast (List.map ev_Data evs))).
Proof.
  revert d es. induction evs as [|ev evs IH]; intros d es Ho; cbn [payloads List.map untilLast]; [by intros [= <- <-]|].
  destruct (payload d (ev_Data ev)) as [d1 [e|es1]] eqn:E; [done|].
  destruct (reads_live _ _ _ _ Ho E) as [Hs Hl]. rewrite payloads_acc. destruct (payloads d1 [] evs) as [[es2 err] d2] eqn:E2.
  intros [= <- -> <-]. rewrite says_app, Hs. destruct (lastIn (ev_Data ev)) eqn:El.
  - rewrite (payloads_over d1) in E2 by done. injection E2 as <- <-. reflexivity.
  - rewrite (IH _ _ Hl E2). done.
Qed.

(** The events of a stream that decodes say what its payloads say. *)
Lemma decodeAll_says (d : D) cs c evs : over d = false -> scan (ready d) = newScanner ->
  (decodeAll d (delivery cs c)).1 = (evs, None) -> says evs = saidBy (String.concat "" cs ++ c)%string.
Proof.
  intros Ho Hs. rewrite decodeAll_chunking. set (b := (String.concat "" cs ++ c)%string). unfold Decode, saidBy, payloadsOf. rewrite Hs.
  destruct (Feed newScanner b) as [s1 evs1]. rewrite payloads_setScan.
  destruct (payloads (ready d) [] evs1) as [[o1 [e|]] d1] eqn:E1; [done|]. cbn [negb]. rewrite scan_setScan.
  destruct (Flush s1) as [[s2 final] leftover]. rewrite setScan_setScan, payloads_setScan, (payloads_acc d1 o1).
  destruct (payloads d1 [] _) as [[o2 err2] d2] eqn:E2.
  pose proof (payloads_app (ready d) evs1 (match final with Some f => [f] | None => [] end)) as Happ.
  rewrite E1, (payloads_acc d1 o1), E2 in Happ. destruct err2 as [e|]; [done|]. destruct (negb _); [done|].
  apply payloads_says in Happ; [|by rewrite over_ready].
  pose proof (reads_finish (setScan s2 d2)) as Hf. destruct (finishStream (setScan s2 d2)) as [d3 fin]. cbn [fst snd] in *.
  intros [= <-]. rewrite says_app, Hf, join_nothing, Happ. rewrite map_app. by destruct final.
Qed.

End Reading.

(** Events that touch no tool call. *)
Lemma tracks_quiet m s s' evs evs' new new' :
  tracks m s evs evs' -> calls new = [] -> calls new' = [] ->
  String.concat "" (List.map eventText new') = String.concat "" (List.map eventText new) ->
  String.concat "" (List.map reasoningText new') = String.concat "" (List.map reasoningText new) ->
  p_next s <= p_next s' ->
  (forall i p, p_open s' !! i = Some p -> pt_Type p = PartTypeToolCall -> p_open s !! i = Some p) ->
  tracks m s' (evs ++ new) (evs' ++ new').
Proof.
  intros [Ht Hr Ho Hc Hp Hi] Hn Hn' Et Er Hle Hk. split.
  - by rewrite !concat_map_app, Ht, Et.
  - by rewrite !concat_map_app, Hr, Er.
  - unfold indexes. by rewrite !calls_app, Hn, Hn', !app_nil_r.
  - unfold indexes. rewrite !calls_app, Hn, Hn', !app_nil_r. intros i i' H. destruct (Hc _ _ H) as (? & ? & ?).
    split; [lia|done].
  - rewrite !calls_app, Hn, !app_nil_r. intros i p tc H1 H2 H3. eapply Hp; eauto.
  - done.
Qed.

Lemma indexes_snoc evs evs1 i t :
  calls evs1 = [(i, t)] ->
  indexes (evs ++ evs1) = if bool_decide (i ∈ indexes evs) then indexes evs else indexes evs ++ [i].
Proof. intros E. unfold indexes. rewrite calls_app, E, map_app. apply firsts_app. Qed.

Lemma tracks_image m s evs evs' i : tracks m s evs evs' -> i ∈ indexes evs -> exists i', m !! i = Some i' /\ i' ∈ indexes evs'.
Proof.
  intros H Hi. apply list_elem_of_lookup in Hi as [n Hn]. destruct (Forall2_lookup_l _ _ _ _ _ (tk_order _ _ _ _ H) Hn) as (i' & Hn' & Hm).
  exists i'. split; [done|]. apply list_elem_of_lookup. eauto.
Qed.

(** A tool block opens on both sides. *)
Lemma tracks_tool m s evs evs' p tc new' i' id' :
  tracks m s evs evs' -> live s -> pt_Type p = PartTypeToolCall -> pt_ToolCall p = Some tc -> tc_Arguments tc = "" ->
  calls new' = [(i', (id', tc_Name tc, ""))] -> i' ∉ indexes evs' ->
  (if String.eqb (tc_ID tc) "" then id' <> "" else id' = tc_ID tc) ->
  String.concat "" (List.map eventText new') = "" -> String.concat "" (List.map reasoningText new') = "" ->
  tracks (<[p_next s := i']> m) (opened s p)
    (evs ++ [StreamEventContentStart (Some (mkContentStart (p_next s) p))]) (evs' ++ new').
Proof.
  intros H Hv Hp Htc Ha Hn' Hfresh Hid Et Er. pose proof H as [Ht Hr Ho Hc Hop Hi]. set (i := p_next s) in *.
  set (ev := StreamEventContentStart _).
  assert (calls [ev] = [(i, (tc_ID tc, tc_Name tc, ""))]) as Hn by (cbn; by rewrite Htc, Ha).
  assert (i ∉ indexes evs) as Hout.
  { intros Hin. destruct (tracks_image _ _ _ _ _ H Hin) as (k & Hk & _). destruct (Hc _ _ Hk) as [? _]. lia. }
  assert (m !! i = None) as Hmi.
  { destruct (m !! i) as [k|] eqn:E; [|done]. destruct (Hc _ _ E) as [? _]. lia. }
  assert (forall j k, m !! j = Some k -> k <> i') as Hne.
  { intros j k Hj ->. apply Hfresh. destruct (Hc _ _ Hj) as (_ & Hj' & _).
    destruct (tracks_image _ _ _ _ _ H Hj') as (k' & Hk' & Hin). rewrite Hj in Hk'. by injection Hk' as <-. }
  assert (callAt (calls evs ++ [(i, (tc_ID tc, tc_Name tc, ""))]) i = mkAssembledCall (tc_ID tc) (tc_Name tc) "") as Hcall.
  { rewrite callAt_app_same. cbn zeta. rewrite callAt_absent by (by rewrite <- firsts_elem). cbn.
    by destruct (String.eqb_spec (tc_ID tc) "") as [->|], (String.eqb_spec (tc_Name tc) "") as [->|]. }
  assert (callAt (calls evs' ++ [(i', (id', tc_Name tc, ""))]) i' = mkAssembledCall id' (tc_Name tc) "") as Hcall'.
  { rewrite callAt_app_same. cbn zeta. rewrite callAt_absent by (by rewrite <- firsts_elem). cbn.
    by destruct (String.eqb_spec id' "") as [->|], (String.eqb_spec (tc_Name tc) "") as [->|]. }
  assert (eventText ev = "" /\ reasoningText ev = "") as [Et0 Er0].
  { unfold ev, eventText, reasoningText, openingText, openingReasoning. cbn. by rewrite Hp. }
  split.
  - rewrite !concat_map_app, Ht, Et. cbn [List.map String.concat]. by rewrite Et0.
  - rewrite !concat_map_app, Hr, Er. cbn [List.map String.concat]. by rewrite Er0.
  - rewrite (indexes_snoc _ _ _ _ Hn), (indexes_snoc _ _ _ _ Hn'), !bool_decide_false by done.
    apply Forall2_app; [|repeat constructor; by rewrite lookup_insert_eq].
    eapply Forall2_impl; [exact Ho|]. intros j k Hm. cbn in Hm. rewrite lookup_insert_ne by congruence. done.
  - rewrite (indexes_snoc _ _ _ _ Hn), bool_decide_false, !calls_app, Hn, Hn' by done.
    intros j k. cbn [opened p_next]. destruct (decide (j = i)) as [->|Hji].
    + rewrite lookup_insert_eq. intros [= <-]. split; [lia|]. split; [set_solver|]. rewrite Hcall, Hcall'. by split.
    + rewrite lookup_insert_ne by congruence. intros Hj. destruct (Hc _ _ Hj) as (? & ? & ?).
      split; [lia|]. split; [set_solver|]. rewrite !callAt_app_other; [done|by eapply Hne|done].
  - rewrite calls_app, Hn. intros j q tq. cbn [opened p_open]. fold i. destruct (decide (j = i)) as [->|Hji].
    + rewrite !lookup_insert_eq. intros [= <-] _ H3. rewrite H3 in Htc. injection Htc as ->. rewrite Hcall. eauto.
    + rewrite !lookup_insert_ne, callAt_app_other by congruence. apply Hop.
  - intros j k l. destruct (decide (j = i)) as [->|Hj], (decide (k = i)) as [->|Hk]; try done;
      rewrite ?lookup_insert_eq, ?lookup_insert_ne by congruence.
    + intros [= <-] H2. by apply Hne in H2.
    + intros H1 [= <-]. by apply Hne in H1.
    + apply Hi.
Qed.

(** Argument bytes for an open tool block. *)
Lemma tracks_args m s evs evs' d new' i' :
  tracks m s evs evs' -> openAs s (tcd_Index d) PartTypeToolCall = true -> repeats s d = true ->
  m !! tcd_Index d = Some i' -> calls new' = [(i', ("", "", tcd_ArgumentsDelta d))] ->
  String.concat "" (List.map eventText new') = "" -> String.concat "" (List.map reasoningText new') = "" ->
  tracks m s (evs ++ [StreamEventToolCallDelta (Some d)]) (evs' ++ new').
Proof.
  intros H Hopen Hrep Hm Hn' Et Er. pose proof H as [Ht Hr Ho Hc Hop Hi]. set (i := tcd_Index d) in *.
  unfold openAs in Hopen. unfold repeats in Hrep. fold i in Hrep.
  destruct (p_open s !! i) as [p|] eqn:Ep; [|done]. cbn in Hrep. apply bool_decide_eq_true in Hopen.
  destruct (pt_ToolCall p) as [tc|] eqn:Etc; [|done].
  destruct (Hop _ _ _ Ep Hopen Etc) as (_ & Hid & Hname). destruct (Hc _ _ Hm) as (Hlt & Hin & Hn1 & Ha1 & Hi1).
  destruct (tracks_image _ _ _ _ _ H Hin) as (k & Hk & Hin'). rewrite Hm in Hk. injection Hk as <-.
  set (ev := StreamEventToolCallDelta (Some d)).
  assert (calls [ev] = [(i, (tcd_ID d, tcd_Name d, tcd_ArgumentsDelta d))]) as Hn by done.
  assert (callAt (calls evs ++ [(i, (tcd_ID d, tcd_Name d, tcd_ArgumentsDelta d))]) i
    = mkAssembledCall (tc_ID tc) (tc_Name tc) (at_Arguments (callAt (calls evs) i) ++ tcd_ArgumentsDelta d)) as Hcall.
  { rewrite callAt_app_same. cbn zeta. apply andb_true_iff in Hrep as [H1 H2]. rewrite Hid, Hname.
    apply orb_true_iff in H1, H2. rewrite !String.eqb_eq in H1, H2.
    f_equal; [destruct H1 as [->| ->]|destruct H2 as [->| ->]]; try done;
      [destruct (String.eqb_spec (tc_ID tc) "")|destruct (String.eqb_spec (tc_Name tc) "")]; congruence. }
  assert (callAt (calls evs' ++ [(i', ("", "", tcd_ArgumentsDelta d))]) i'
    = mkAssembledCall (at_ID (callAt (calls evs') i')) (at_Name (callAt (calls evs') i'))
        (at_Arguments (callAt (calls evs') i') ++ tcd_ArgumentsDelta d)) as Hcall' by (by rewrite callAt_app_same).
  split.
  - by rewrite !concat_map_app, Ht, Et.
  - by rewrite !concat_map_app, Hr, Er.
  - by rewrite (indexes_snoc _ _ _ _ Hn), (indexes_snoc _ _ _ _ Hn'), !bool_decide_true by done.
  - rewrite (indexes_snoc _ _ _ _ Hn), bool_decide_true, !calls_app, Hn, Hn' by done.
    intros j k Hj. destruct (Hc _ _ Hj) as (? & ? & ?). split; [done|]. split; [done|].
    destruct (decide (j = i)) as [->|Hji].
    + rewrite Hm in Hj. injection Hj as <-. rewrite Hcall, Hcall'. unfold sameCall. cbn [at_Name at_Arguments at_ID].
      rewrite Hid in Hi1. rewrite Hname in Hn1. by rewrite Ha1.
    + rewrite !callAt_app_other; [done| |done]. intros ->. apply Hji. by eapply Hi.
  - rewrite calls_app, Hn. intros j q tq Hj Hq Hqt. destruct (decide (j = i)) as [->|Hji].
    + rewrite Hcall. cbn. rewrite Ep in Hj. injection Hj as <-. rewrite Etc in Hqt. injection Hqt as <-. eauto.
    + rewrite callAt_app_other by done. eauto.
  - done.
Qed.

(** Events that carry no content. *)
Record silent (es : list StreamEvent) : Prop := {
  si_calls : calls es = [];
  si_finish : omap finishReason es = [];
  si_usage : omap usageTokens es = [];
  si_text : String.concat "" (List.map eventText es) = "";
  si_reasoning : String.concat "" (List.map reasoningText es) = "";
}.

Lemma silent_nil : silent [].
Proof. done. Qed.

(** The five contributions of a list of events. *)
Record adds (es : list StreamEvent) (cs : list (Z * (string * string * string))) (text reasoning : string)
    (fs : list FinishReason) (us : list (Z * Z)) : Prop := {
  ad_calls : calls es = cs;
  ad_text : String.concat "" (List.map eventText es) = text;
  ad_reasoning : String.concat "" (List.map reasoningText es) = reasoning;
  ad_finish : omap finishReason es = fs;
  ad_usage : omap usageTokens es = us;
}.

Lemma adds_silent o es cs t r fs us : silent o -> adds es cs t r fs us -> adds (o ++ es) cs t r fs us.
Proof.
  intros [H1 H2 H3 H4 H5] [<- <- <- <- <-]. split; rewrite ?calls_app, ?concat_map_app, ?omap_app; by rewrite ?H1, ?H2, ?H3, ?H4, ?H5.
Qed.

Lemma tracks_adds m s s' evs evs' ev new' t r fs us :
  tracks m s evs evs' -> adds new' [] t r fs us -> touched ev = None -> eventText ev = t -> reasoningText ev = r ->
  p_next s <= p_next s' ->
  (forall i p, p_open s' !! i = Some p -> pt_Type p = PartTypeToolCall -> p_open s !! i = Some p) ->
  tracks m s' (evs ++ [ev]) (evs' ++ new').
Proof.
  intros H [Hc Ht Hr _ _] Et <- <- Hle Hk. eapply tracks_quiet; eauto. cbn. by rewrite Et.
Qed.

(** ** What a rendering carries *)

Record carries (evs evs' : list StreamEvent) : Prop := {
  ca_text : c_text (contentOf evs') = c_text (contentOf evs);
  ca_reasoning : c_reasoning (contentOf evs') = c_reasoning (contentOf evs);
  ca_calls : Forall2 sameCall (c_calls (contentOf evs)) (c_calls (contentOf evs'));
  ca_finish : default FinishReasonStop (c_finish (contentOf evs'))
    = plainFinish (default FinishReasonStop (c_finish (contentOf evs)));
  ca_usage : default (0, 0) (c_usage (contentOf evs')) = default (0, 0) (c_usage (contentOf evs));
}.

(** The usage an encoder holds after [evs]: the last one reported. *)
Definition usageAfter (u : option Usage) (evs : list StreamEvent) : option Usage :=
  fold_left (fun u ev => match ev with StreamEventUsage (Some u') => Some u' | _ => u end) evs u.

Definition tokens (u : Usage) : Z * Z := (InputTokens u, OutputTokens u).

Lemma usageAfter_last u evs :
  tokens <$> usageAfter u evs = match last (omap usageTokens evs) with Some x => Some x | None => tokens <$> u end.
Proof.
  induction evs as [|ev evs IH] using rev_ind; [done|]. unfold usageAfter in *. rewrite fold_left_app. cbn [fold_left].
  rewrite omap_app. destruct ev as [|?|?|?|?|?|[u'|]|?|?|]; cbn [omap list_omap usageTokens]; rewrite ?app_nil_r; try done.
  by rewrite last_snoc.
Qed.

(** Counts that a provider can report. *)
Definition countsOK (ev : StreamEvent) : Prop :=
  match ev with StreamEventUsage (Some u) => 0 <= InputTokens u /\ 0 <= OutputTokens u | _ => True end.

(** The usage of a rendering that reports the last positive one. *)
Definition reported (u : option Usage) : list (Z * Z) :=
  match u with
  | Some u => if (0 <? InputTokens u) || (0 <? OutputTokens u) then [tokens u] else []
  | None => []
  end.

Lemma usageAfter_in u evs x : usageAfter u evs = Some x -> u = Some x \/ In (StreamEventUsage (Some x)) evs.
Proof.
  revert u. induction evs as [|ev evs IH]; intros u H; [by left|]. cbn in H. apply IH in H as [H|H]; [|by right; right].
  destruct ev as [|?|?|?|?|?|[u'|]|?|?|]; try by left. right. left. congruence.
Qed.

Lemma reported_usage evs : Forall countsOK evs ->
  default (0, 0) (last (reported (usageAfter None evs))) = default (0, 0) (last (omap usageTokens evs)).
Proof.
  intros Hok. pose proof (usageAfter_last None evs) as H. destruct (usageAfter None evs) as [u|] eqn:E.
  - cbn in H. destruct (last _) as [x|]; [|done]. injection H as <-.
    apply usageAfter_in in E as [E|E]; [done|]. rewrite Forall_forall in Hok. apply list_elem_of_In, Hok in E. cbn in E.
    unfold reported. destruct (Z.ltb_spec 0 (InputTokens u)), (Z.ltb_spec 0 (OutputTokens u)); try done.
    cbn. unfold tokens. f_equal; lia.
  - cbn in H. by destruct (last _).
Qed.

(** Nothing follows the terminator. *)
Lemma run_done_nil strict s evs s' : p_done s = true -> run strict s evs = Some s' -> evs = [] /\ s' = s.
Proof. intros Hd. destruct evs as [|ev evs]; cbn; [by intros [= <-]|]. destruct s; cbn in *. by subst. Qed.

Lemma tracks_calls m s evs evs' : tracks m s evs evs' -> Forall2 sameCall (c_calls (contentOf evs)) (c_calls (contentOf evs')).
Proof.
  intros H. unfold contentOf. cbn [c_calls]. fold (calls evs) (calls evs'). fold (indexes evs) (indexes evs').
  change (Forall2 sameCall (callAt (calls evs) <$> indexes evs) (callAt (calls evs') <$> indexes evs')).
  apply Forall2_fmap_2. eapply Forall2_impl; [apply H|]. intros i i' Hm. by apply (tk_calls _ _ _ _ H).
Qed.

Lemma tracks_start : tracks ∅ opening [] [].
Proof. split; [done..|constructor|set_solver|set_solver|set_solver]. Qed.

(** ** Renderings *)

(** What an encoder and the decoder of its own schema owe each other: a simulation
    that every event keeps, and that settles finish reason and usage at the end. *)
Class Renders (E D : Type) {EE : Encoder E} {DD : Decoder D} := {
  rsim : gmap Z Z -> protocol -> E -> D -> list StreamEvent -> list StreamEvent -> Prop;
  rsim_step m s e d evs evs' ev s' :
    rsim m s e d evs evs' -> tracks m s evs evs' -> accept true s ev = Some s' ->
    noError ev = true -> validEvent ev = true ->
    exists e' b ps d' es' m',
      encodeEvent e ev = (e', Ok b) /\ frames b ps /\ readAll d ps = Some (d', es')
      /\ rsim m' s' e' d' (evs ++ [ev]) (evs' ++ es') /\ tracks m' s' (evs ++ [ev]) (evs' ++ es');
  rsim_end m s e d evs evs' :
    rsim m s e d evs evs' -> p_done s = true -> Forall countsOK evs ->
    finishStream d = (d, [])
    /\ default FinishReasonStop (last (omap finishReason evs'))
       = plainFinish (default FinishReasonStop (last (omap finishReason evs)))
    /\ default (0, 0) (last (omap usageTokens evs')) = default (0, 0) (last (omap usageTokens evs));
}.

Lemma encodeFrom_snoc {E} {EE : Encoder E} (e : E) out evs ev e2 b :
  encodeFrom e out (evs ++ [ev]) = (e2, Ok b) ->
  exists e1 b1 b2, encodeFrom e out evs = (e1, Ok b1) /\ encodeEvent e1 ev = (e2, Ok b2) /\ b = (b1 ++ b2)%string.
Proof.
  revert e out. induction evs as [|x evs IH]; intros e out; cbn.
  - destruct (encodeEvent e ev) as [e1 [b1|err|]] eqn:E1; [|done..]. intros [= <- <-]. by exists e, out, b1.
  - destruct (encodeEvent e x) as [e1 [b1|err|]]; [apply IH|done..].
Qed.

Section Rendering.
Context {E D : Type} {EE : Encoder E} {DD : Decoder D} {RR : Renders E D} {FD : Framed D}.

Lemma render_run rest : forall m s (e : E) (d : D) evs evs' s' out,
  rsim m s e d evs evs' -> tracks m s evs evs' -> run true s rest = Some s' ->
  forallb noError rest = true -> forallb validEvent rest = true ->
  exists e' b ps d' es' m',
    encodeFrom e out rest = (e', Ok (out ++ b)%string) /\ frames b ps /\ readAll d ps = Some (d', es')
    /\ rsim m' s' e' d' (evs ++ rest) (evs' ++ es') /\ tracks m' s' (evs ++ rest) (evs' ++ es').
Proof.
  induction rest as [|ev rest IH]; intros m s e d evs evs' s' out Hc Ht Hrun Hne Hval.
  - cbn in Hrun. injection Hrun as <-. exists e, "", [], d, [], m. rewrite !app_nil_r, str_app_nil_r.
    repeat (split; [done || apply frames_nil|]). done.
  - cbn [run] in Hrun. destruct (accept true s ev) as [s1|] eqn:Hacc; [|done].
    cbn [forallb] in Hne, Hval. apply andb_true_iff in Hne as [N1 N2], Hval as [V1 V2].
    destruct (rsim_step m s e d evs evs' ev s1 Hc Ht Hacc N1 V1)
      as (e1 & b1 & ps1 & d1 & es1 & m1 & He & Hf1 & Hr1 & Hc1 & Ht1).
    destruct (IH m1 s1 e1 d1 (evs ++ [ev]) (evs' ++ es1) s' (out ++ b1)%string Hc1 Ht1 Hrun N2 V2)
      as (e2 & b2 & ps2 & d2 & es2 & m2 & He2 & Hf2 & Hr2 & Hc2 & Ht2).
    exists e2, (b1 ++ b2)%string, (ps1 ++ ps2), d2, (es1 ++ es2), m2.
    split. { cbn [encodeFrom]. rewrite He, He2. by rewrite str_app_assoc. }
    split; [by apply frames_app|]. split; [by eapply readAll_app|].
    rewrite <- !app_assoc in Hc2, Ht2. split; [exact Hc2|exact Ht2].
Qed.

(** A whole stream, rendered for a client and read by it. *)
Lemma render_back (e : E) (d : D) evs s :
  rsim ∅ opening e (ready d) [] [] -> scan (ready d) = newScanner ->
  run true opening evs = Some s -> p_done s = true ->
  forallb noError evs = true -> forallb validEvent evs = true -> Forall countsOK evs ->
  exists e' b, Encode e evs = (e', Ok b)
    /\ forall cs c, (String.concat "" cs ++ c)%string = b ->
       exists evs', (decodeAll d (delivery cs c)).1 = (evs', None) /\ carries evs evs'.
Proof.
  intros Hsim Hscan Hrun Hd Hne Hval Hcnt.
  destruct (render_run evs ∅ opening e (ready d) [] [] s "" Hsim tracks_start Hrun Hne Hval)
    as (e' & b & ps & d' & es' & m' & He & Hf & Hr & Hc & Ht). cbn [app] in *.
  exists e', b. split; [done|]. intros cs c Hcut.
  destruct (rsim_end _ _ _ _ _ _ Hc Hd Hcnt) as (Hfin & Hreason & Husage).
  exists es'. rewrite decodeAll_chunking, Hcut. split.
  - rewrite (Decode_frames _ b ps d' es' d' []); [by rewrite app_nil_r|done..].
  - split; [apply Ht|apply Ht|by eapply tracks_calls|done|done].
Qed.

End Rendering.

End StreamContent.
