(* ===== verification/ChatStream.v ===== *)
(** * The Chat Completions stream

    [src/internal/extproc/llmcall/providers/openai/stream.go], shared by the
    openai and azure_openai providers: the decoder of the chunk stream and the
    encoder that renders canonical events as chunks.

    The JSON engine is a parameter: how a chunk is read into [oaiChunk] and how an
    [oaiOutChunk] is written, with the laws that a written chunk reads back field by
    field and that the strings of a read one are UTF-8. *)

From Stdlib Require Import ZArith Lia NArith Ascii String List.
From stdpp Require Import base strings list gmap pretty.
From coqutil Require Import Datatypes.RecordSettersUsingExistingGetters.
From S2P Require Import Prelude GoStrings GoStd Registry LlmCall Sse StreamCodec StreamContent.
Import GoStrings GoStd LlmCall Sse StreamCodec StreamContent.

#[local] Open Scope string_scope.
#[local] Open Scope Z_scope.
#[local] Open Scope list_scope.

Module ChatStream.

(** ** Wire shapes *)

Record oaiToolDelta := mkToolDelta {
  td_Index : Z; td_ID : string; td_Type : string; td_Name : string; td_Arguments : string }.

Record oaiDelta := mkDelta {
  dl_Role : string;
  dl_Content : option string;
  dl_ReasoningContent : option string;
  dl_Refusal : option string;
  dl_ToolCalls : list oaiToolDelta;
}.

Record oaiChoice := mkChunkChoice { ch_Index : Z; ch_Delta : oaiDelta; ch_FinishReason : option string }.

Record openaiUsage := mkOaiUsage { PromptTokens : Z; CompletionTokens : Z }.

Record oaiChunk := mkChunk {
  ck_ID : string;
  ck_Model : string;
  ck_Choices : list oaiChoice;
  ck_Usage : option openaiUsage;
  ck_Error : string;
}.

(** The members of an error object. *)
Record oaiError := mkOaiError { oe_Message : string; oe_Type : string; oe_Code : string }.

Record oaiOutFunction := mkOutFunction { of_Name : string; of_Arguments : option string }.
Record oaiOutTool := mkOutTool {
  ot_Index : Z; ot_ID : string; ot_Type : string; ot_Function : option oaiOutFunction }.
Record oaiOutDelta := mkOutDelta {
  od_Role : string; od_Content : option string; od_ReasoningContent : option string; od_ToolCalls : list oaiOutTool }.
Record oaiOutChoice := mkOutChoice { oc_Index : Z; oc_Delta : option oaiOutDelta; oc_FinishReason : option string }.
Record oaiOutUsage := mkOutUsage { ou_PromptTokens : Z; ou_CompletionTokens : Z; ou_TotalTokens : Z }.
Record oaiOutChunk := mkOutChunk {
  ok_ID : string;
  ok_Object : string;
  ok_Created : Z;
  ok_Model : string;
  ok_Choices : list oaiOutChoice;
  ok_Usage : option oaiOutUsage;
}.

(** The JSON engine, on these shapes.  The second reader fills what it can: its
    error is ignored. *)
Class ChatJson := {
  unmarshalChunk : string -> string + oaiChunk;
  unmarshalError : string -> oaiError;
  marshalChunk : oaiOutChunk -> string + string;
  JSONString : string -> string;
}.

(** ** Finish reasons *)

Definition canonicalFinish (s : string) : FinishReason :=
  if String.eqb s "stop" then FinishReasonStop
  else if String.eqb s "length" then FinishReasonLength
  else if String.eqb s "tool_calls" || String.eqb s "function_call" then FinishReasonToolCalls
  else if String.eqb s "content_filter" then FinishReasonContentFilter
  else FinishReasonUnset.

Definition openaiFinishCanonical (fr : FinishReason) : string :=
  match fr with
  | FinishReasonLength => "length"
  | FinishReasonToolCalls => "tool_calls"
  | FinishReasonContentFilter => "content_filter"
  | _ => "stop"
  end.

Section Codec.
Context {CJ : ChatJson}.

(** ** The decoder *)

(** [tools] is absent in the zero value, whose indexes [Decode] patches. *)
Record chatStreamDecoder := mkChatDecoder {
  cd_provider : string;
  cd_scan : SSEScanner;
  started : bool;
  done : bool;
  next : Z;
  textIdx : Z;
  reasIdx : Z;
  tools : option (gmap Z Z);
  open : list Z;
}.

Definition NewStreamDecoder (provider : string) : chatStreamDecoder :=
  mkChatDecoder provider newScanner false false 0 0 0 None [].

Definition init (d : chatStreamDecoder) : chatStreamDecoder :=
  match tools d with
  | None => d <| tools := Some ∅ |> <| textIdx := -1 |> <| reasIdx := -1 |>
  | Some _ => d
  end.

Definition contentStart (i : Z) (p : Part) : StreamEvent := StreamEventContentStart (Some (mkContentStart i p)).

(** A new block: its index is the next one. *)
Definition openBlock (d : chatStreamDecoder) : chatStreamDecoder :=
  d <| next := next d + 1 |> <| open := open d ++ [next d] |>.

Definition appendTextDelta (d : chatStreamDecoder) (text : string) : chatStreamDecoder * list StreamEvent :=
  let '(d, out) := if textIdx d <? 0
                   then (openBlock d <| textIdx := next d |>, [contentStart (next d) (textPart "")])
                   else (d, []) in
  (d, out ++ [StreamEventTextDelta (Some (mkTextDelta (textIdx d) text))]).

Definition appendReasoning (d : chatStreamDecoder) (text : string) : chatStreamDecoder * list StreamEvent :=
  let '(d, out) := if reasIdx d <? 0
                   then (openBlock d <| reasIdx := next d |>, [contentStart (next d) reasoningPart])
                   else (d, []) in
  (d, out ++ [StreamEventReasoningDelta (Some (mkReasoningDelta (reasIdx d) text))]).

Definition toolFragment (d : chatStreamDecoder) (tc : oaiToolDelta) : chatStreamDecoder * list StreamEvent :=
  let '(d, idx, out) :=
    match default ∅ (tools d) !! td_Index tc with
    | Some idx => (d, idx, [])
    | None => (openBlock d <| tools := Some (<[td_Index tc := next d]> (default ∅ (tools d))) |>, next d,
               [contentStart (next d) (toolPart (td_ID tc) (td_Name tc))])
    end in
  (d, out ++ if String.eqb (td_Arguments tc) "" then []
             else [StreamEventToolCallDelta (Some (mkToolCallDelta idx (td_ID tc) (td_Name tc) (td_Arguments tc)))]).

Definition closeOpen (d : chatStreamDecoder) : chatStreamDecoder * list StreamEvent :=
  (d <| open := [] |> <| textIdx := -1 |> <| reasIdx := -1 |> <| tools := Some ∅ |>,
   List.map (fun idx => StreamEventContentEnd (Some idx)) (open d)).

(** One piece of a chunk after another, the events appended. *)
Definition andThen {A} (f : chatStreamDecoder -> A -> chatStreamDecoder * list StreamEvent)
    (acc : chatStreamDecoder * list StreamEvent) (a : A) : chatStreamDecoder * list StreamEvent :=
  let '(d, out) := acc in let '(d, es) := f d a in (d, out ++ es).

(** [p != nil && *p != ""] *)
Definition nonEmpty (p : option string) : list string :=
  match p with Some s => if String.eqb s "" then [] else [s] | None => [] end.

Definition finishEvent (d : chatStreamDecoder) (raw : string) : chatStreamDecoder * list StreamEvent :=
  let '(d, es) := closeOpen d in
  (d, es ++ [StreamEventFinish (Some (mkFinish (canonicalFinish raw) raw))]).

Definition choice (d : chatStreamDecoder) (cho : oaiChoice) : chatStreamDecoder * list StreamEvent :=
  if negb (ch_Index cho =? 0) then (d, [])
  else
    let delta := ch_Delta cho in
    let acc := fold_left (andThen appendTextDelta) (nonEmpty (dl_Content delta)) (d, []) in
    let acc := fold_left (andThen appendTextDelta) (nonEmpty (dl_Refusal delta)) acc in
    let acc := fold_left (andThen appendReasoning) (nonEmpty (dl_ReasoningContent delta)) acc in
    let acc := fold_left (andThen toolFragment) (dl_ToolCalls delta) acc in
    fold_left (andThen finishEvent) (nonEmpty (ch_FinishReason cho)) acc.

Definition finish (d : chatStreamDecoder) : chatStreamDecoder * list StreamEvent :=
  if done d then (d, [])
  else let '(d, es) := closeOpen (d <| done := true |>) in (d, es ++ [StreamEventDone]).

Definition errorEvent (e : oaiError) : StreamEvent :=
  StreamEventError (Some (mkStreamError (if String.eqb (oe_Code e) "" then oe_Type e else oe_Code e) (oe_Message e))).

Definition chunkEvents (d : chatStreamDecoder) (ch : oaiChunk) : chatStreamDecoder * list StreamEvent :=
  let acc := if started d then (d, [])
             else (d <| started := true |>, [StreamEventStart (Some (mkStart (ck_ID ch) (ck_Model ch)))]) in
  let '(d, out) := fold_left (andThen choice) (ck_Choices ch) acc in
  (d, out ++ match ck_Usage ch with
             | Some u => if (0 <? PromptTokens u) || (0 <? CompletionTokens u)
                         then [StreamEventUsage (Some (mkUsage (PromptTokens u) (CompletionTokens u) zeroWire))]
                         else []
             | None => []
             end).

Definition chatPayload (d : chatStreamDecoder) (data : string)
    : chatStreamDecoder * (CodecError + list StreamEvent) :=
  if done d then (d, inr [])
  else if String.eqb (TrimSpace data) "[DONE]" then let '(d, es) := finish d in (d, inr es)
  else
    match unmarshalChunk data with
    | inr ch =>
        if negb (String.eqb (ck_Error ch) "") && negb (String.eqb (ck_Error ch) "null")
        then (d, inr [errorEvent (unmarshalError (ck_Error ch))])
        else let '(d, es) := chunkEvents d ch in (d, inr es)
    | inl err => (d, inl (MalformedError (cd_provider d) "stream chunk" (Some err)))
    end.

#[export] Instance ChatDecoder : Decoder chatStreamDecoder := {
  ready := init;
  scan := cd_scan;
  setScan := fun s d => d <| cd_scan := s |>;
  provider := cd_provider;
  payload := chatPayload;
  finishStream := finish;
}.

(** ** The encoder *)

Record chatStreamEncoder := mkChatEncoder {
  ce_id : string;
  ce_model : string;
  created : Z;
  sentRole : bool;
  slots : gmap Z Z;
  nextSlot : Z;
  ce_usage : option Usage;
  ce_finish : option StreamFinish;
  ce_done : bool;
}.

Definition NewStreamEncoder (req : option Request) : chatStreamEncoder :=
  mkChatEncoder "" (match req with Some r => rq_Model r | None => "" end) 0 false ∅ 0 None None false.

Definition ContentType : string := "text/event-stream".

(** [now] is the clock in seconds. *)
Context (now : Z).

Definition chunkID (e : chatStreamEncoder) : chatStreamEncoder :=
  if String.eqb (ce_id e) "" then e <| ce_id := "chatcmpl-clrk" |> else e.

Definition createdAt (e : chatStreamEncoder) : chatStreamEncoder :=
  if created e =? 0 then e <| created := now |> else e.

Definition stamped (e : chatStreamEncoder) (choices : list oaiOutChoice) (u : option oaiOutUsage) : oaiOutChunk :=
  mkOutChunk (ce_id e) "chat.completion.chunk" (created e) (ce_model e) choices u.

Definition chunk (e : chatStreamEncoder) (delta : oaiOutDelta) (fr : option string) : chatStreamEncoder * string :=
  let '(e, delta) := if sentRole e then (e, delta)
                     else (e <| sentRole := true |>,
                           mkOutDelta "assistant" (od_Content delta) (od_ReasoningContent delta) (od_ToolCalls delta)) in
  let e := createdAt (chunkID e) in
  match marshalChunk (stamped e [mkOutChoice 0 (Some delta) fr] None) with
  | inr b => (e, AppendSSE "" "" b)
  | inl _ => (e, "")
  end.

Definition plainDelta (content reasoning : option string) (ts : list oaiOutTool) : oaiOutDelta :=
  mkOutDelta "" content reasoning ts.

(** The open frame of a tool call. *)
Definition toolOpen (e : chatStreamEncoder) (index : Z) (tc : ToolCallPart) : chatStreamEncoder * string :=
  let slot := nextSlot e in
  let e := e <| nextSlot := slot + 1 |> <| slots := <[index := slot]> (slots e) |> in
  let id := if String.eqb (tc_ID tc) "" then ("call_" ++ pretty (slot + 1))%string else tc_ID tc in
  chunk e (plainDelta None None [mkOutTool slot id "function" (Some (mkOutFunction (tc_Name tc) (Some "")))]) None.

Definition toolArgs (e : chatStreamEncoder) (slot : Z) (args : string) : chatStreamEncoder * string :=
  if String.eqb args "" then (e, "")
  else chunk e (plainDelta None None [mkOutTool slot "" "" (Some (mkOutFunction "" (Some args)))]) None.

(** The terminal frames. *)
Definition terminal (e : chatStreamEncoder) : chatStreamEncoder * outcome CodecError string :=
  match ce_usage e with
  | Some u =>
      let e := createdAt (chunkID e) in
      match marshalChunk (stamped e []
               (Some (mkOutUsage (InputTokens u) (OutputTokens u) (int64 (InputTokens u + OutputTokens u))))) with
      | inr b => (e <| ce_done := true |>, Ok (AppendSSE (AppendSSE "" "" b) "" "[DONE]"))
      | inl err => (e, Err (OtherError err))
      end
  | None => (e <| ce_done := true |>, Ok (AppendSSE "" "" "[DONE]"))
  end.

Definition errorPayload (err : StreamError) : string :=
  let msg := if String.eqb (se_Message err) "" then "upstream stream error" else se_Message err in
  let typ := if String.eqb (se_Code err) "" then "server_error" else se_Code err in
  (String "{" (String "034" "error") ++ String "034" ":{" ++ String "034" "message" ++ String "034" ":" ++ JSONString msg
   ++ "," ++ String "034" "type" ++ String "034" ":" ++ JSONString typ ++ "}}")%string.

(** [event]; a nil payload pointer panics.  The second call that a fragment of an
    unopened block makes finds the slot the first has just assigned. *)
Definition event (e : chatStreamEncoder) (ev : StreamEvent) : chatStreamEncoder * outcome CodecError string :=
  let ret (r : chatStreamEncoder * string) : chatStreamEncoder * outcome CodecError string := (fst r, Ok (snd r)) in
  if ce_done e then (e, Ok "")
  else
    match ev with
    | StreamEventStart (Some s) =>
        let e := if String.eqb (st_ID s) "" then e else e <| ce_id := st_ID s |> in
        let e := if String.eqb (st_Model s) "" then e else e <| ce_model := st_Model s |> in
        (e, Ok "")
    | StreamEventContentStart (Some cs) =>
        if negb (bool_decide (pt_Type (cs_Part cs) = PartTypeToolCall)) then (e, Ok "")
        else match pt_ToolCall (cs_Part cs) with
             | Some tc => ret (toolOpen e (cs_Index cs) tc)
             | None => (e, Panic)
             end
    | StreamEventTextDelta (Some d) =>
        if String.eqb (tdl_Text d) "" then (e, Ok "") else ret (chunk e (plainDelta (Some (tdl_Text d)) None []) None)
    | StreamEventReasoningDelta (Some d) =>
        if String.eqb (rdl_Text d) "" then (e, Ok "") else ret (chunk e (plainDelta None (Some (rdl_Text d)) []) None)
    | StreamEventToolCallDelta (Some d) =>
        match slots e !! tcd_Index d with
        | Some slot => ret (toolArgs e slot (tcd_ArgumentsDelta d))
        | None =>
            let slot := nextSlot e in
            let '(e, open) := toolOpen e (tcd_Index d) (mkToolCall (tcd_ID d) (tcd_Name d) "" zeroWire) in
            let '(e, frag) := toolArgs e slot (tcd_ArgumentsDelta d) in
            (e, Ok (open ++ frag)%string)
        end
    | StreamEventContentEnd _ => (e, Ok "")
    | StreamEventUsage (Some u) => (e <| ce_usage := Some u |>, Ok "")
    | StreamEventFinish (Some f) =>
        ret (chunk (e <| ce_finish := Some f |>) (plainDelta None None [])
               (Some (openaiFinishCanonical (sf_FinishReason f))))
    | StreamEventError (Some err) => (e, Ok (AppendSSE "" "" (errorPayload err)))
    | StreamEventDone => terminal e
    | _ => (e, Panic)
    end.

#[export] Instance ChatEncoder : Encoder chatStreamEncoder := { encodeEvent := event }.

End Codec.

(** ** The decoder keeps the contract *)

Section Contract.
Context {CJ : ChatJson}.

Record cinv (d : chatStreamDecoder) (s : protocol) : Prop := {
  ci_blocks : blocks (next d) (open d) s;
  ci_text : 0 <= textIdx d -> openAs s (textIdx d) PartTypeText = true;
  ci_reas : 0 <= reasIdx d -> openAs s (reasIdx d) PartTypeReasoning = true;
  ci_tools : exists ts, tools d = Some ts /\ forall k i, ts !! k = Some i -> openAs s i PartTypeToolCall = true;
  ci_started : started d = p_started s;
  ci_done : done d = p_done s;
}.

(** A step that may be taken while the stream is live, and leaves it live. *)
Definition keeps {A} (f : chatStreamDecoder -> A -> chatStreamDecoder * list StreamEvent) : Prop :=
  forall d s a, cinv d s -> live s ->
    exists s', run false s (f d a).2 = Some s' /\ cinv (f d a).1 s' /\ live s'.

Lemma fold_keeps {A} (f : chatStreamDecoder -> A -> chatStreamDecoder * list StreamEvent) l d out s0 s :
  Forall (fun a => forall d s, cinv d s -> live s ->
    exists s', run false s (f d a).2 = Some s' /\ cinv (f d a).1 s' /\ live s') l ->
  run false s0 out = Some s -> cinv d s -> live s ->
  let r := fold_left (andThen f) l (d, out) in
  exists s', run false s0 r.2 = Some s' /\ cinv r.1 s' /\ live s'.
Proof.
  intros Hl. revert d out s. induction Hl as [|a l Ha Hl IH]; intros d out s Hr Hi Hv; cbn [fold_left]; [eauto|].
  assert (andThen f (d, out) a = ((f d a).1, out ++ (f d a).2)) as -> by (cbn; by destruct (f d a)).
  specialize (Ha d s Hi Hv). destruct (f d a) as [d1 es]. destruct Ha as (s1 & Hr1 & Hi1 & Hv1).
  apply (IH d1 (out ++ es) s1); [|done|done]. by rewrite run_app, Hr.
Qed.

Lemma keeps_all {A} (f : chatStreamDecoder -> A -> chatStreamDecoder * list StreamEvent) (l : list A) :
  keeps f -> Forall (fun a => forall d s, cinv d s -> live s ->
    exists s', run false s (f d a).2 = Some s' /\ cinv (f d a).1 s' /\ live s') l.
Proof. intros H. apply Forall_forall. intros a _ d s. apply H. Qed.

Lemma opened_live s p : live (opened s p).
Proof. done. Qed.

(** Opening a block keeps what the others are. *)
Lemma cinv_opened d s p : cinv d s -> live s -> cinv (openBlock d) (opened s p).
Proof.
  intros [Hb Ht Hr (ts & Hts & Hk) Hs Hd] [Hs' Hd']. split; cbn.
  - by apply blocks_opened.
  - intros H. eapply openAs_mono; eauto.
  - intros H. eapply openAs_mono; eauto.
  - exists ts. split; [done|]. intros k i H. eapply openAs_mono; eauto.
  - congruence.
  - congruence.
Qed.

Lemma next_announced d s : cinv d s -> next d = p_next s.
Proof. intros H. symmetry. apply H. Qed.

Lemma text_keeps text d s : text <> "" -> cinv d s -> live s ->
  exists s', run false s (appendTextDelta d text).2 = Some s' /\ cinv (appendTextDelta d text).1 s' /\ live s'.
Proof.
  intros Hne Hi Hv. unfold appendTextDelta. destruct (Z.ltb_spec (textIdx d) 0) as [Hlt|Hge]; cbn [fst snd].
  - rewrite (next_announced d s Hi). exists (opened s (textPart "")). unfold contentStart. rewrite run_app, run_open by done.
    assert (openAs (opened s (textPart "")) (p_next s) PartTypeText = true) as Ho by (by rewrite openAs_opened, Z.eqb_refl).
    rewrite run_delta by done. split; [done|]. split; [|done].
    destruct (cinv_opened d s (textPart "") Hi Hv) as [Hb Ht Hr Hk Hs Hd]. split; auto.
  - exists s. cbn [app]. rewrite run_delta; auto. by apply Hi.
Qed.

Lemma reasoning_keeps text d s : text <> "" -> cinv d s -> live s ->
  exists s', run false s (appendReasoning d text).2 = Some s' /\ cinv (appendReasoning d text).1 s' /\ live s'.
Proof.
  intros Hne Hi Hv. unfold appendReasoning. destruct (Z.ltb_spec (reasIdx d) 0) as [Hlt|Hge]; cbn [fst snd].
  - rewrite (next_announced d s Hi). exists (opened s reasoningPart). unfold contentStart. rewrite run_app, run_open by done.
    assert (openAs (opened s reasoningPart) (p_next s) PartTypeReasoning = true) as Ho by (by rewrite openAs_opened, Z.eqb_refl).
    rewrite run_reasoning by done. split; [done|]. split; [|done].
    destruct (cinv_opened d s reasoningPart Hi Hv) as [Hb Ht Hr Hk Hs Hd]. split; auto.
  - exists s. cbn [app]. rewrite run_reasoning; auto. by apply Hi.
Qed.

Lemma tool_keeps : keeps toolFragment.
Proof.
  intros d s tc Hi Hv. pose proof Hi as [Hb Ht Hr (ts & Hts & Hk) Hs Hd]. unfold toolFragment. rewrite Hts. cbn [from_option id].
  assert (forall s' i, openAs s' i PartTypeToolCall = true -> live s' ->
    run false s' (if String.eqb (td_Arguments tc) "" then []
      else [StreamEventToolCallDelta (Some (mkToolCallDelta i (td_ID tc) (td_Name tc) (td_Arguments tc)))]) = Some s') as Hargs.
  { intros s' i Ho Hv'. destruct (String.eqb_spec (td_Arguments tc) ""); [done|]. by apply run_args. }
  destruct (ts !! td_Index tc) as [i|] eqn:E; cbn [fst snd].
  - exists s. cbn [app]. rewrite Hargs by eauto. done.
  - set (p := toolPart (td_ID tc) (td_Name tc)). rewrite (next_announced d s Hi). exists (opened s p).
    unfold contentStart. rewrite run_app, run_open by done.
    assert (openAs (opened s p) (p_next s) PartTypeToolCall = true) as Ho by (by rewrite openAs_opened, Z.eqb_refl).
    rewrite Hargs by done. split; [done|]. split; [|done].
    destruct (cinv_opened d s p Hi Hv) as [Hb' Ht' Hr' (ts' & Hts' & Hk') Hs' Hd']. split; cbn; auto.
    eexists. split; [done|]. intros k i. cbn in Hts'. assert (ts' = ts) as -> by congruence.
    destruct (decide (k = td_Index tc)) as [->|Hne].
    + rewrite lookup_insert_eq. by intros [= <-].
    + rewrite lookup_insert_ne by congruence. apply Hk'.
Qed.

Lemma cinv_closed d s : cinv d s -> cinv (closeOpen d).1 (closed s).
Proof.
  intros [Hb Ht Hr (ts & Hts & Hk) Hs Hd]. split; cbn; try done.
  - by eapply blocks_closed.
  - exists ∅. split; [done|]. intros k i H. by rewrite lookup_empty in H.
Qed.

Lemma finish_keeps : keeps finishEvent.
Proof.
  intros d s raw Hi [Hs Hd]. unfold finishEvent. cbn [closeOpen fst snd]. exists (closed s).
  rewrite run_app, (run_close _ (next d)) by (try apply Hi; done). rewrite run_finish by done.
  split; [done|]. split; [|done]. by apply (cinv_closed d).
Qed.

Lemma nonEmpty_spec p : Forall (fun s => s <> "") (nonEmpty p).
Proof. destruct p as [s|]; cbn; [|constructor]. destruct (String.eqb_spec s ""); repeat constructor; done. Qed.

Lemma choice_keeps : keeps choice.
Proof.
  intros d s cho Hi Hv. unfold choice. destruct (negb _); [exists s; done|]. cbv zeta.
  assert (forall p, Forall (fun a => forall d s, cinv d s -> live s ->
    exists s', run false s (appendTextDelta d a).2 = Some s' /\ cinv (appendTextDelta d a).1 s' /\ live s') (nonEmpty p)) as Htext.
  { intros p. eapply Forall_impl; [apply nonEmpty_spec|]. intros a Ha d' s'. by apply text_keeps. }
  assert (Forall (fun a => forall d s, cinv d s -> live s ->
    exists s', run false s (appendReasoning d a).2 = Some s' /\ cinv (appendReasoning d a).1 s' /\ live s')
    (nonEmpty (dl_ReasoningContent (ch_Delta cho)))) as Hreas.
  { eapply Forall_impl; [apply nonEmpty_spec|]. intros a Ha d' s'. by apply reasoning_keeps. }
  destruct (fold_left (andThen appendTextDelta) (nonEmpty (dl_Content _)) (d, [])) as [d1 o1] eqn:E1.
  destruct (fold_keeps _ _ d [] s s (Htext (dl_Content (ch_Delta cho))) eq_refl Hi Hv) as (s1 & Hr1 & Hi1 & Hv1).
  rewrite E1 in *. cbn [fst snd] in *.
  destruct (fold_keeps _ _ d1 o1 s s1 (Htext (dl_Refusal (ch_Delta cho))) Hr1 Hi1 Hv1) as (s2 & Hr2 & Hi2 & Hv2).
  destruct (fold_left _ _ (d1, o1)) as [d2 o2]. cbn [fst snd] in *.
  destruct (fold_keeps _ _ d2 o2 s s2 Hreas Hr2 Hi2 Hv2) as (s3 & Hr3 & Hi3 & Hv3).
  destruct (fold_left _ _ (d2, o2)) as [d3 o3]. cbn [fst snd] in *.
  destruct (fold_keeps _ (dl_ToolCalls (ch_Delta cho)) d3 o3 s s3 (keeps_all _ _ tool_keeps) Hr3 Hi3 Hv3)
    as (s4 & Hr4 & Hi4 & Hv4).
  destruct (fold_left _ _ (d3, o3)) as [d4 o4]. cbn [fst snd] in *.
  exact (fold_keeps _ (nonEmpty (ch_FinishReason cho)) d4 o4 s s4 (keeps_all _ _ finish_keeps) Hr4 Hi4 Hv4).
Qed.

Lemma chunk_keeps d s ch : cinv d s -> p_done s = false ->
  exists s', run false s (chunkEvents d ch).2 = Some s' /\ cinv (chunkEvents d ch).1 s'.
Proof.
  intros Hi Hd. unfold chunkEvents.
  assert (exists s1 d1 o1, (if started d then (d, [])
             else (d <| started := true |>, [StreamEventStart (Some (mkStart (ck_ID ch) (ck_Model ch)))])) = (d1, o1)
    /\ run false s o1 = Some s1 /\ cinv d1 s1 /\ live s1) as (s1 & d1 & o1 & -> & Hr1 & Hi1 & Hv1).
  { pose proof Hi as [Hb Ht Hr Hk Hs Hdd]. destruct (started d) eqn:E.
    - exists s, d, []. done.
    - exists (mkProtocol true (p_next s) (p_open s) false). do 2 eexists. split; [done|].
      destruct s as [st n o dn]; cbn in *; subst. split; [done|]. split; [|done].
      destruct Hb as [? ? ? ? ?]. split; cbn; auto. by split. }
  destruct (fold_keeps _ (ck_Choices ch) d1 o1 s s1 (keeps_all _ _ choice_keeps) Hr1 Hi1 Hv1) as (s2 & Hr2 & Hi2 & Hv2).
  destruct (fold_left _ _ (d1, o1)) as [d2 o2]. cbn [fst snd] in *. exists s2. split; [|done].
  rewrite run_app, Hr2. destruct (ck_Usage ch) as [u|]; [|done]. destruct (_ || _); [|done].
  destruct Hv2 as [Hs2 Hd2], s2; cbn in *. by subst.
Qed.

Lemma finish_contract d s d' es : cinv d s -> finish d = (d', es) ->
  exists s', run false s es = Some s' /\ cinv d' s' /\ p_done s' = true.
Proof.
  intros Hi. unfold finish. pose proof Hi as [Hb _ _ _ _ Hd]. destruct (done d) eqn:E.
  - intros [= <- <-]. by exists s.
  - cbn [closeOpen]. intros [= <- <-]. exists (mkProtocol (p_started s) (p_next s) ∅ true).
    rewrite run_app, (run_close _ (next d) (open d)), run_done by done.
    destruct (cinv_closed d s Hi) as [Hb' Ht' Hr' Hk' Hs' Hd']. split; [done|]. split; [|done].
    split; cbn in *; auto. destruct Hb'; split; auto.
Qed.

#[export] Program Instance ChatContract : Contract chatStreamDecoder := { announced := cinv }.
Next Obligation. intros d s [_ _ _ (ts & Hts & _) _ _]. cbn. unfold init. by rewrite Hts. Qed.
Next Obligation. intros sc d s [Hb Ht Hr Hk Hs Hd]. by split. Qed.
Next Obligation.
  intros d s data d' es Hi. cbn. unfold chatPayload. destruct (done d) eqn:E; [intros [= <- <-]; by exists s|].
  destruct (String.eqb _ _).
  { destruct (finish d) as [d1 es1] eqn:Ef. intros [= <- <-].
    destruct (finish_contract _ _ _ _ Hi Ef) as (s' & ? & ? & _). eauto. }
  assert (p_done s = false) as Hd by (destruct Hi; congruence).
  destruct (unmarshalChunk data) as [err|ch]; [done|]. destruct (_ && _).
  - intros [= <- <-]. exists s. split; [|done]. destruct s; cbn in *. by subst.
  - pose proof (chunk_keeps d s ch Hi Hd) as Hk. destruct (chunkEvents d ch) as [d1 es1]. by intros [= <- <-].
Qed.
Next Obligation.
  intros d s data d' err Hi. cbn. unfold chatPayload. destruct (done d); [done|].
  destruct (String.eqb _ _); [by destruct (finish d)|]. destruct (unmarshalChunk data) as [e|ch].
  - by intros [= <- <-].
  - destruct (_ && _); [done|]. by destruct (chunkEvents d ch).
Qed.
Next Obligation. intros d s d' es. apply finish_contract. Qed.

Lemma chat_announced provider : announced (ready (NewStreamDecoder provider)) opening.
Proof.
  split; cbn; try done.
  - split; cbn; [done| |constructor|constructor|done]. intros i. rewrite lookup_empty. split; [by intros []|done].
  - exists ∅. split; [done|]. intros k i H. by rewrite lookup_empty in H.
Qed.

End Contract.

(** ** The laws of the JSON engine *)

(** A written chunk, read: a member left out is the zero value. *)
Definition readTool (t : oaiOutTool) : oaiToolDelta :=
  mkToolDelta (ot_Index t) (ot_ID t) (ot_Type t)
    (match ot_Function t with Some f => of_Name f | None => "" end)
    (match ot_Function t with Some f => default "" (of_Arguments f) | None => "" end).
Definition readDelta (d : option oaiOutDelta) : oaiDelta :=
  match d with
  | Some d => mkDelta (od_Role d) (od_Content d) (od_ReasoningContent d) None (List.map readTool (od_ToolCalls d))
  | None => mkDelta "" None None None []
  end.
Definition readChoice (c : oaiOutChoice) : oaiChoice :=
  mkChunkChoice (oc_Index c) (readDelta (oc_Delta c)) (oc_FinishReason c).
Definition readChunk (c : oaiOutChunk) : oaiChunk :=
  mkChunk (ok_ID c) (ok_Model c) (List.map readChoice (ok_Choices c))
    ((fun u => mkOaiUsage (ou_PromptTokens u) (ou_CompletionTokens u)) <$> ok_Usage c) "".

Definition validOpt (s : option string) : bool := match s with Some s => ValidString s | None => true end.

Definition validTool (t : oaiOutTool) : bool :=
  ValidString (ot_ID t) && ValidString (ot_Type t)
  && match ot_Function t with Some f => ValidString (of_Name f) && validOpt (of_Arguments f) | None => true end.
Definition validDelta (d : oaiOutDelta) : bool :=
  ValidString (od_Role d) && validOpt (od_Content d) && validOpt (od_ReasoningContent d)
  && forallb validTool (od_ToolCalls d).
Definition validChoice (c : oaiOutChoice) : bool :=
  match oc_Delta c with Some d => validDelta d | None => true end && validOpt (oc_FinishReason c).
Definition validOut (c : oaiOutChunk) : bool :=
  ValidString (ok_ID c) && ValidString (ok_Object c) && ValidString (ok_Model c) && forallb validChoice (ok_Choices c).

Definition validReadTool (t : oaiToolDelta) : bool :=
  ValidString (td_ID t) && ValidString (td_Name t) && ValidString (td_Arguments t).
Definition validRead (ch : oaiChunk) : bool :=
  ValidString (ck_ID ch) && ValidString (ck_Model ch)
  && forallb (fun c => validOpt (dl_Content (ch_Delta c)) && validOpt (dl_ReasoningContent (ch_Delta c))
                       && validOpt (dl_Refusal (ch_Delta c)) && forallb validReadTool (dl_ToolCalls (ch_Delta c)))
       (ck_Choices ch).

(** A chunk of UTF-8 strings is written on one line, is not the terminator, and
    reads back; and what is read is UTF-8. *)
Class ChatJsonLaws {CJ : ChatJson} := {
  marshal_chunk c : validOut c = true ->
    exists b, marshalChunk c = inr b /\ oneLine b /\ TrimSpace b <> "[DONE]" /\ unmarshalChunk b = inr (readChunk c);
  unmarshal_valid data ch : unmarshalChunk data = inr ch -> validRead ch = true;
}.

(** ** What is encoded reads back *)

Section Back.
Context {CJ : ChatJson} {CL : ChatJsonLaws} (now : Z).

Lemma fold_setScan {A} (f : chatStreamDecoder -> A -> chatStreamDecoder * list StreamEvent) sc l d out :
  (forall d a, f (d <| cd_scan := sc |>) a = ((f d a).1 <| cd_scan := sc |>, (f d a).2)) ->
  fold_left (andThen f) l (d <| cd_scan := sc |>, out)
  = ((fold_left (andThen f) l (d, out)).1 <| cd_scan := sc |>, (fold_left (andThen f) l (d, out)).2).
Proof.
  intros Hf. revert d out. induction l as [|a l IH]; intros d out; [done|]. cbn [fold_left].
  unfold andThen at 2 4 6. rewrite Hf. destruct (f d a) as [d1 es]. cbn [fst snd]. apply IH.
Qed.

Lemma text_setScan sc d a :
  appendTextDelta (d <| cd_scan := sc |>) a = ((appendTextDelta d a).1 <| cd_scan := sc |>, (appendTextDelta d a).2).
Proof. unfold appendTextDelta. destruct d; cbn. by destruct (_ <? 0). Qed.

Lemma reasoning_setScan sc d a :
  appendReasoning (d <| cd_scan := sc |>) a = ((appendReasoning d a).1 <| cd_scan := sc |>, (appendReasoning d a).2).
Proof. unfold appendReasoning. destruct d; cbn. by destruct (_ <? 0). Qed.

Lemma tool_setScan sc d a :
  toolFragment (d <| cd_scan := sc |>) a = ((toolFragment d a).1 <| cd_scan := sc |>, (toolFragment d a).2).
Proof. unfold toolFragment. destruct d; cbn. by destruct (_ !! _). Qed.

Lemma finishEvent_setScan sc d a :
  finishEvent (d <| cd_scan := sc |>) a = ((finishEvent d a).1 <| cd_scan := sc |>, (finishEvent d a).2).
Proof. done. Qed.

Lemma choice_setScan sc d a :
  choice (d <| cd_scan := sc |>) a = ((choice d a).1 <| cd_scan := sc |>, (choice d a).2).
Proof.
  unfold choice. destruct (negb _); [done|]. cbv zeta.
  rewrite fold_setScan by apply text_setScan. destruct (fold_left _ (nonEmpty _) (d, [])) as [d1 o1]. cbn [fst snd].
  rewrite fold_setScan by apply text_setScan. destruct (fold_left _ (nonEmpty _) (d1, o1)) as [d2 o2]. cbn [fst snd].
  rewrite fold_setScan by apply reasoning_setScan. destruct (fold_left _ (nonEmpty _) (d2, o2)) as [d3 o3]. cbn [fst snd].
  rewrite fold_setScan by apply tool_setScan. destruct (fold_left _ _ (d3, o3)) as [d4 o4]. cbn [fst snd].
  by rewrite fold_setScan by apply finishEvent_setScan.
Qed.

Lemma chunk_setScan sc d ch :
  chunkEvents (d <| cd_scan := sc |>) ch = ((chunkEvents d ch).1 <| cd_scan := sc |>, (chunkEvents d ch).2).
Proof.
  unfold chunkEvents. change (started (d <| cd_scan := sc |>)) with (started d).
  destruct (started d); cbv beta iota zeta.
  - rewrite fold_setScan by apply choice_setScan. by destruct (fold_left _ _ (d, _)).
  - change (d <| cd_scan := sc |> <| started := true |>) with (d <| started := true |> <| cd_scan := sc |>).
    rewrite fold_setScan by apply choice_setScan. by destruct (fold_left _ _ (d <| started := true |>, _)).
Qed.

(** Once the zero value is patched it stays patched. *)
Definition patched (d : chatStreamDecoder) : Prop := is_Some (tools d).

Lemma init_patched d : init d = d <-> patched d.
Proof. unfold init, patched. destruct d as [? ? ? ? ? ? ? [ts|] ?]; cbn; split; try done; by intros []. Qed.

Lemma fold_patched {A} (f : chatStreamDecoder -> A -> chatStreamDecoder * list StreamEvent) l acc :
  (forall d a, patched d -> patched (f d a).1) -> patched acc.1 -> patched (fold_left (andThen f) l acc).1.
Proof.
  intros Hf. revert acc. induction l as [|a l IH]; intros [d out] H; [done|]. cbn [fold_left]. apply IH.
  cbn. specialize (Hf d a H). by destruct (f d a).
Qed.

Lemma choice_patched d cho : patched d -> patched (choice d cho).1.
Proof.
  intros H. unfold choice. destruct (negb _); [done|]. cbv zeta.
  apply fold_patched; [intros d' a H'; by eexists|].
  apply fold_patched; [intros d' a H'; unfold toolFragment; destruct (default ∅ (tools d') !! _); [done|by eexists]|].
  apply fold_patched; [intros d' a H'; unfold appendReasoning; by destruct (reasIdx d' <? 0)|].
  do 2 (apply fold_patched; [intros d' a H'; unfold appendTextDelta; by destruct (textIdx d' <? 0)|]). done.
Qed.

Lemma payload_patched d data : patched d -> patched (chatPayload d data).1.
Proof.
  intros H. unfold chatPayload. destruct (done d) eqn:E; [done|]. destruct (String.eqb _ _).
  { unfold finish. rewrite E. by eexists. }
  destruct (unmarshalChunk data) as [err|ch]; [done|]. destruct (_ && _); [done|].
  unfold chunkEvents. destruct (started d); cbv zeta beta iota.
  - pose proof (fold_patched choice (ck_Choices ch) (d, []) choice_patched H) as H'. by destruct (fold_left _ _ (d, [])).
  - match goal with |- context [fold_left ?f ?l ?acc] => pose proof (fold_patched choice l acc choice_patched H) as H' end.
    by destruct (fold_left _ _ _).
Qed.

#[export] Program Instance ChatFramed : Framed chatStreamDecoder.
Next Obligation. done. Qed.
Next Obligation. done. Qed.
Next Obligation. by intros []. Qed.
Next Obligation. intros d. cbn. unfold init at 2 3. destruct d as [? ? ? ? ? ? ? [ts|] ?]; done. Qed.
Next Obligation. intros sc d. cbn. unfold init. by destruct d as [? ? ? ? ? ? ? [ts|] ?]. Qed.
Next Obligation. intros d data H. apply init_patched, payload_patched. by apply init_patched. Qed.
Next Obligation.
  intros sc d data. cbn [setScan payload ChatDecoder]. unfold chatPayload. change (done (d <| cd_scan := sc |>)) with (done d).
  destruct (done d) eqn:E; [done|]. destruct (String.eqb _ _).
  { unfold finish. change (done (d <| cd_scan := sc |>)) with (done d). by rewrite E. }
  destruct (unmarshalChunk data) as [err|ch]; [done|]. destruct (_ && _); [done|].
  rewrite chunk_setScan. by destruct (chunkEvents d ch).
Qed.

(** The encoder after a chunk: only the stamps may have changed. *)
Definition stampedFrom (e e' : chatStreamEncoder) : Prop :=
  slots e' = slots e /\ nextSlot e' = nextSlot e /\ ce_usage e' = ce_usage e /\ ce_done e' = ce_done e.

Definition validIDs (e : chatStreamEncoder) : Prop := ValidString (ce_id e) = true /\ ValidString (ce_model e) = true.

Lemma stamp_ok e : validIDs e -> stampedFrom e (createdAt now (chunkID e)) /\ validIDs (createdAt now (chunkID e)).
Proof.
  intros [Hid Hmod]. unfold createdAt, chunkID, stampedFrom, validIDs. destruct e as [id mo cr sr sl ns u f dn]; cbn in *.
  destruct (String.eqb id ""); cbn; destruct (cr =? 0); cbn; done.
Qed.

Lemma chunk_reads e delta fr (d : chatStreamDecoder) :
  validIDs e -> validDelta delta = true -> validOpt fr = true -> done d = false ->
  exists b p e' o, chunk now e delta fr = (e', b) /\ frames b [p] /\ stampedFrom e e' /\ validIDs e' /\ silent o
    /\ let r := choice (d <| started := true |>) (readChoice (mkOutChoice 0 (Some delta) fr)) in
       payload d p = (r.1, inr (o ++ r.2)).
Proof.
  intros [Hid Hmod] Hdelta Hfr Hdone. unfold chunk.
  set (delta' := if sentRole e then delta else mkOutDelta "assistant" (od_Content delta) (od_ReasoningContent delta) (od_ToolCalls delta)).
  set (e1 := if sentRole e then e else e <| sentRole := true |>).
  assert ((if sentRole e then (e, delta) else (e <| sentRole := true |>,
            mkOutDelta "assistant" (od_Content delta) (od_ReasoningContent delta) (od_ToolCalls delta))) = (e1, delta')) as ->
    by (subst e1 delta'; by destruct (sentRole e)).
  set (e2 := createdAt now (chunkID e1)).
  assert (stampedFrom e e2 /\ validIDs e2) as [Hst Hv].
  { assert (validIDs e1) as H1 by (subst e1; by destruct (sentRole e)).
    destruct (stamp_ok e1 H1) as [(? & ? & ? & ?) ?]. subst e1 e2. unfold stampedFrom. by destruct (sentRole e). }
  assert (validDelta delta' = true) as Hd'.
  { subst delta'. destruct (sentRole e); [done|]. unfold validDelta in *. cbn.
    apply andb_true_iff in Hdelta as [[[_ ->]%andb_true_iff ->]%andb_true_iff ->]. done. }
  destruct (marshal_chunk (stamped e2 [mkOutChoice 0 (Some delta') fr] None)) as (p & Hm & Hline & Hnd & Hread).
  { change (ValidString (ce_id e2) && ValidString "chat.completion.chunk" && ValidString (ce_model e2)
            && ((validDelta delta' && validOpt fr) && true) = true).
    destruct Hv as [-> ->]. rewrite Hd', Hfr. reflexivity. }
  rewrite Hm. exists (AppendSSE "" "" p), p, e2.
  set (o := if started d then [] else [StreamEventStart (Some (mkStart (ce_id e2) (ce_model e2)))]).
  exists o. split; [done|]. split; [by apply frames_sse|]. split; [done|]. split; [done|].
  split; [subst o; by destruct (started d)|]. cbv zeta. cbn [payload ChatDecoder]. unfold chatPayload. rewrite Hdone.
  apply String.eqb_neq in Hnd. rewrite Hnd, Hread. cbn [readChunk ck_Error String.eqb negb andb].
  unfold chunkEvents. cbn [readChunk ck_ID ck_Model ck_Choices ck_Usage stamped ok_ID ok_Model ok_Choices ok_Usage fmap option_fmap option_map List.map].
  assert (choice (d <| started := true |>) (readChoice (mkOutChoice 0 (Some delta') fr))
          = choice (d <| started := true |>) (readChoice (mkOutChoice 0 (Some delta) fr))) as Hsame
    by (subst delta'; by destruct (sentRole e)).
  assert ((if started d then (d, []) else (d <| started := true |>, [StreamEventStart (Some (mkStart (ce_id e2) (ce_model e2)))]))
          = (d <| started := true |>, o)) as ->.
  { subst o. destruct d as [? ? [] ? ? ? ? ? ?]; done. }
  cbn [fold_left]. unfold andThen. rewrite Hsame. clear Hsame.
  destruct (choice (d <| started := true |>) (readChoice (mkOutChoice 0 (Some delta) fr))) as [d1 es]. cbn [fst snd]. by rewrite app_nil_r.
Qed.

(** What ties the encoder of a stream, the reader of its rendering and what has
    been announced: the tool blocks that are open have a slot, and the reader knows
    the slot. *)
Record csim (m : gmap Z Z) (s : protocol) (e : chatStreamEncoder) (d : chatStreamDecoder) (evs' : list StreamEvent)
    : Prop := {
  cs_done : ce_done e = p_done s;
  cs_dec : done d = p_done s;
  cs_valid : validIDs e;
  cs_tools : exists ts, tools d = Some ts
    /\ (forall k i', ts !! k = Some i' -> k < nextSlot e)
    /\ forall i p, p_open s !! i = Some p -> pt_Type p = PartTypeToolCall ->
         exists k i', slots e !! i = Some k /\ ts !! k = Some i' /\ m !! i = Some i';
  cs_fresh i' : i' ∈ indexes evs' -> i' < next d;
  cs_slot : 0 <= nextSlot e;
}.

Lemma text_adds d text : adds (appendTextDelta d text).2 [] text "" [] [].
Proof. unfold appendTextDelta. by destruct (textIdx d <? 0). Qed.

Lemma reasoning_adds d text : adds (appendReasoning d text).2 [] "" text [] [].
Proof. unfold appendReasoning. by destruct (reasIdx d <? 0). Qed.

Lemma ends_silent l : silent (List.map (fun idx => StreamEventContentEnd (Some idx)) l).
Proof.
  induction l as [|i l [H1 H2 H3 H4 H5]]; [done|]. split; cbn; try done.
  - by destruct (List.map eventText _).
  - by destruct (List.map reasoningText _).
Qed.

Lemma canonicalFinish_plain f : canonicalFinish (openaiFinishCanonical f) = plainFinish f.
Proof. by destruct f. Qed.

Lemma indexes_silent evs' new' : calls new' = [] -> indexes (evs' ++ new') = indexes evs'.
Proof. intros H. unfold indexes. by rewrite calls_app, H, app_nil_r. Qed.

(** A chunk that adds no tool call. *)
Lemma csim_chunk m s e d evs' e' (d' : chatStreamDecoder) new' :
  csim m s e d evs' -> stampedFrom e e' -> validIDs e' -> p_done s = false ->
  calls new' = [] -> tools d' = tools d -> next d <= next d' -> done d' = false ->
  csim m s e' d' (evs' ++ new').
Proof.
  intros [H1 H2 H3 (ts & Hts & Hk & Hopen) H5 H6] (E1 & E2 & E3 & E4) Hv Hd Hn Ht Hle Hd'. split.
  - congruence.
  - congruence.
  - done.
  - exists ts. rewrite Ht, E1, E2. done.
  - rewrite indexes_silent by done. intros i' Hi'. specialize (H5 _ Hi'). lia.
  - by rewrite E2.
Qed.

(** What one event does on both sides. *)
Definition stepped (m : gmap Z Z) (s' : protocol) (e : chatStreamEncoder) (d : chatStreamDecoder)
    (evs evs' : list StreamEvent) (ev : StreamEvent) (us : list (Z * Z)) : Prop :=
  exists e' b ps d' es' m',
    event now e ev = (e', Ok b) /\ frames b ps /\ readAll d ps = Some (d', es')
    /\ csim m' s' e' d' (evs' ++ es') /\ tracks m' s' (evs ++ [ev]) (evs' ++ es')
    /\ omap finishReason es' = List.map plainFinish (omap finishReason [ev])
    /\ omap usageTokens es' = us
    /\ ce_usage e' = match ev with StreamEventUsage (Some u) => Some u | _ => ce_usage e end.

Lemma stepped_text m s e d evs evs' td :
  csim m s e d evs' -> tracks m s evs evs' -> p_done s = false ->
  tdl_Text td <> "" -> ValidString (tdl_Text td) = true ->
  stepped m s e d evs evs' (StreamEventTextDelta (Some td)) [].
Proof.
  intros Hc Ht Hd Hne Hvalid. pose proof Hc as [Hdone Hdec Hv _ _ _].
  assert (validDelta (plainDelta (Some (tdl_Text td)) None []) = true) as Hvd by (unfold validDelta; cbn; by rewrite Hvalid).
  destruct (chunk_reads e (plainDelta (Some (tdl_Text td)) None []) None d Hv Hvd eq_refl (eq_trans Hdec Hd))
    as (b & p & e' & o & Hchunk & Hf & Hst & Hv' & Ho & Hp). cbv zeta in Hp.
  apply String.eqb_neq in Hne. unfold stepped, event. rewrite Hdone, Hd, Hne, Hchunk. cbn [fst snd].
  set (d0 := d <| started := true |>) in *.
  assert (choice d0 (readChoice (mkOutChoice 0 (Some (plainDelta (Some (tdl_Text td)) None [])) None))
          = appendTextDelta d0 (tdl_Text td)) as Hch.
  { unfold choice. cbn. rewrite Hne. cbn. by destruct (appendTextDelta d0 _). }
  rewrite Hch in Hp. pose proof (adds_silent o _ _ _ _ _ _ Ho (text_adds d0 (tdl_Text td))) as Hadd.
  exists e', b, [p]. do 2 eexists. exists m. split; [done|]. split; [done|]. split; [cbn [readAll]; rewrite Hp; by rewrite app_nil_r|].
  split.
  { eapply csim_chunk; eauto.
    - apply Hadd.
    - unfold appendTextDelta. by destruct (textIdx d0 <? 0).
    - unfold appendTextDelta. destruct (textIdx d0 <? 0); unfold d0; cbn; unfold const; lia.
    - unfold appendTextDelta. destruct (textIdx d0 <? 0); cbn; congruence. }
  split; [eapply tracks_adds; eauto; lia|]. split; [apply Hadd|]. split; [apply Hadd|]. by destruct Hst as (_ & _ & ? & _).
Qed.

Lemma stepped_reasoning m s e d evs evs' td :
  csim m s e d evs' -> tracks m s evs evs' -> p_done s = false ->
  rdl_Text td <> "" -> ValidString (rdl_Text td) = true ->
  stepped m s e d evs evs' (StreamEventReasoningDelta (Some td)) [].
Proof.
  intros Hc Ht Hd Hne Hvalid. pose proof Hc as [Hdone Hdec Hv _ _ _].
  assert (validDelta (plainDelta None (Some (rdl_Text td)) []) = true) as Hvd by (unfold validDelta; cbn; by rewrite Hvalid).
  destruct (chunk_reads e (plainDelta None (Some (rdl_Text td)) []) None d Hv Hvd eq_refl (eq_trans Hdec Hd))
    as (b & p & e' & o & Hchunk & Hf & Hst & Hv' & Ho & Hp). cbv zeta in Hp.
  apply String.eqb_neq in Hne. unfold stepped, event. rewrite Hdone, Hd, Hne, Hchunk. cbn [fst snd].
  set (d0 := d <| started := true |>) in *.
  assert (choice d0 (readChoice (mkOutChoice 0 (Some (plainDelta None (Some (rdl_Text td)) [])) None))
          = appendReasoning d0 (rdl_Text td)) as Hch.
  { unfold choice. cbn. rewrite Hne. cbn. by destruct (appendReasoning d0 _). }
  rewrite Hch in Hp. pose proof (adds_silent o _ _ _ _ _ _ Ho (reasoning_adds d0 (rdl_Text td))) as Hadd.
  exists e', b, [p]. do 2 eexists. exists m. split; [done|]. split; [done|]. split; [cbn [readAll]; rewrite Hp; by rewrite app_nil_r|].
  split.
  { eapply csim_chunk; eauto.
    - apply Hadd.
    - unfold appendReasoning. by destruct (reasIdx d0 <? 0).
    - unfold appendReasoning. destruct (reasIdx d0 <? 0); unfold d0; cbn; unfold const; lia.
    - unfold appendReasoning. destruct (reasIdx d0 <? 0); cbn; congruence. }
  split; [eapply tracks_adds; eauto; lia|]. split; [apply Hadd|]. split; [apply Hadd|]. by destruct Hst as (_ & _ & ? & _).
Qed.

Lemma callID_valid n : 0 <= n -> ValidString ("call_" ++ pretty n)%string = true.
Proof. intros H. apply ascii_valid. rewrite ascii7_app, pretty_Z_ascii7. done. Qed.

(** The open frame of a tool call and the fragments, as the reader takes them. *)
Lemma fragment_opens d ts tc : tools d = Some ts -> ts !! td_Index tc = None -> td_Arguments tc = "" ->
  toolFragment d tc = (openBlock d <| tools := Some (<[td_Index tc := next d]> ts) |>,
                       [contentStart (next d) (toolPart (td_ID tc) (td_Name tc))]).
Proof. intros H1 H2 H3. unfold toolFragment. rewrite H1. cbn [from_option id]. by rewrite H2, H3. Qed.

Lemma fragment_args d ts tc i : tools d = Some ts -> ts !! td_Index tc = Some i -> td_Arguments tc <> "" ->
  toolFragment d tc = (d, [StreamEventToolCallDelta (Some (mkToolCallDelta i (td_ID tc) (td_Name tc) (td_Arguments tc)))]).
Proof. intros H1 H2 H3%String.eqb_neq. unfold toolFragment. rewrite H1. cbn [from_option id]. by rewrite H2, H3. Qed.

Lemma choice_tool d t :
  choice d (readChoice (mkOutChoice 0 (Some (plainDelta None None [t])) None)) = toolFragment d (readTool t).
Proof. unfold choice. cbn. by destruct (toolFragment d (readTool t)). Qed.

Lemma stepped_tool m s e d evs evs' p tc :
  csim m s e d evs' -> tracks m s evs evs' -> live s ->
  pt_Type p = PartTypeToolCall -> pt_ToolCall p = Some tc -> tc_Arguments tc = "" ->
  ValidString (tc_ID tc) = true -> ValidString (tc_Name tc) = true ->
  stepped m (opened s p) e d evs evs' (StreamEventContentStart (Some (mkContentStart (p_next s) p))) [].
Proof.
  intros Hc Ht [Hs Hd] Hp Htc Ha Hvi Hvn. pose proof Hc as [Hdone Hdec Hv (ts & Hts & Hk & Hopen) Hfresh Hns].
  unfold stepped, event. rewrite Hdone, Hd. cbn [cs_Part cs_Index]. rewrite bool_decide_true, Htc by done. cbn [negb].
  unfold toolOpen. set (slot := nextSlot e) in *.
  set (e0 := e <| nextSlot := slot + 1 |> <| slots := <[p_next s := slot]> (slots e) |>).
  set (id := if String.eqb (tc_ID tc) "" then ("call_" ++ pretty (slot + 1))%string else tc_ID tc).
  set (t := mkOutTool slot id "function" (Some (mkOutFunction (tc_Name tc) (Some "")))).
  assert (ValidString id = true) as Hid by (subst id; destruct (String.eqb _ _); [apply callID_valid; lia|done]).
  assert (validDelta (plainDelta None None [t]) = true) as Hvd.
  { unfold validDelta, validTool. cbn. rewrite Hid, Hvn. reflexivity. }
  destruct (chunk_reads e0 (plainDelta None None [t]) None d Hv Hvd eq_refl (eq_trans Hdec Hd))
    as (b & q & e' & o & Hchunk & Hf & Hst & Hv' & Ho & Hpay). cbv zeta in Hpay. rewrite choice_tool in Hpay.
  assert (ts !! slot = None) as Hnew.
  { destruct (ts !! slot) as [i'|] eqn:E; [|done]. apply Hk in E. unfold slot in E. lia. }
  match type of Hpay with context [toolFragment ?x ?y] => rewrite (fragment_opens x ts y Hts Hnew eq_refl) in Hpay end. cbn [fst snd] in Hpay.
  rewrite Hchunk. cbn [fst snd].
  set (new' := o ++ _) in Hpay. exists e', b, [q]. do 2 eexists. exists (<[p_next s := next d]> m).
  assert (adds new' [(next d, (id, tc_Name tc, ""))] "" "" [] []) as Hadd by (by apply adds_silent).
  assert (next d ∉ indexes evs') as Hout by (intros H%Hfresh; lia).
  destruct Hst as (E1 & E2 & E3 & E4).
  split; [done|]. split; [done|]. split; [cbn [readAll]; rewrite Hpay; by rewrite app_nil_r|]. split.
  { split.
    - rewrite E4. cbn. congruence.
    - cbn. congruence.
    - done.
    - eexists. split; [reflexivity|]. rewrite E1, E2. cbn [readTool td_Index t ot_Index]. split.
      + intros k i'. cbn. destruct (decide (k = slot)) as [->|Hne].
        * rewrite lookup_insert_eq. intros _. cbn. unfold const. lia.
        * rewrite lookup_insert_ne by congruence. intros H%Hk. unfold e0; cbn. unfold const. fold slot in H. lia.
      + intros i r. unfold e0, opened. cbn [p_open slots]. destruct (decide (i = p_next s)) as [->|Hne].
        * intros _ _. exists slot, (next d). rewrite !lookup_insert_eq. cbn. unfold const. by rewrite lookup_insert_eq.
        * rewrite lookup_insert_ne by congruence. intros H1 H2. destruct (Hopen _ _ H1 H2) as (k & i' & H3 & H4 & H5).
          exists k, i'. cbn. unfold const. rewrite !lookup_insert_ne by congruence. repeat split; try done.
    - intros i'. rewrite (indexes_snoc _ _ _ _ (ad_calls _ _ _ _ _ _ Hadd)), bool_decide_false by done.
      intros [H%Hfresh|H%list_elem_of_singleton]%elem_of_app; cbn; unfold const; lia.
    - rewrite E2. unfold e0; cbn. unfold const. lia. }
  split.
  { eapply tracks_tool; try done; try apply Hadd. subst id. destruct (String.eqb_spec (tc_ID tc) ""); done. }
  split; [apply Hadd|]. split; [apply Hadd|]. by rewrite E3.
Qed.

Lemma stepped_args m s e d evs evs' td :
  csim m s e d evs' -> tracks m s evs evs' -> p_done s = false ->
  openAs s (tcd_Index td) PartTypeToolCall = true -> repeats s td = true ->
  tcd_ArgumentsDelta td <> "" -> ValidString (tcd_ArgumentsDelta td) = true ->
  stepped m s e d evs evs' (StreamEventToolCallDelta (Some td)) [].
Proof.
  intros Hc Ht Hd Hop Hrep Hne Hvalid. pose proof Hc as [Hdone Hdec Hv (ts & Hts & Hk & Hopen) Hfresh Hns].
  assert (exists p, p_open s !! tcd_Index td = Some p /\ pt_Type p = PartTypeToolCall) as (p & Hp1 & Hp2).
  { unfold openAs in Hop. destruct (p_open s !! _) as [p|]; [|done]. exists p. split; [done|]. by apply bool_decide_eq_true in Hop. }
  destruct (Hopen _ _ Hp1 Hp2) as (k & i' & Hslot & Htk & Hm).
  unfold stepped, event. rewrite Hdone, Hd, Hslot. unfold toolArgs.
  pose proof Hne as Hne'. apply String.eqb_neq in Hne'. rewrite Hne'.
  set (t := mkOutTool k "" "" (Some (mkOutFunction "" (Some (tcd_ArgumentsDelta td))))).
  assert (validDelta (plainDelta None None [t]) = true) as Hvd.
  { unfold validDelta, validTool. cbn. rewrite Hvalid. reflexivity. }
  destruct (chunk_reads e (plainDelta None None [t]) None d Hv Hvd eq_refl (eq_trans Hdec Hd))
    as (b & q & e' & o & Hchunk & Hf & Hst & Hv' & Ho & Hpay). cbv zeta in Hpay. rewrite choice_tool in Hpay.
  match type of Hpay with context [toolFragment ?x ?y] => rewrite (fragment_args x ts y i' Hts Htk Hne) in Hpay end. cbn [fst snd] in Hpay.
  rewrite Hchunk. cbn [fst snd].
  set (new' := o ++ _) in Hpay. exists e', b, [q]. do 2 eexists. exists m.
  assert (adds new' [(i', ("", "", tcd_ArgumentsDelta td))] "" "" [] []) as Hadd by (by apply adds_silent).
  destruct (tk_calls _ _ _ _ Ht _ _ Hm) as (_ & Hin & _).
  destruct (tracks_image _ _ _ _ _ Ht Hin) as (k' & Hk' & Hin'). rewrite Hm in Hk'. injection Hk' as <-.
  destruct Hst as (E1 & E2 & E3 & E4).
  split; [done|]. split; [done|]. split; [cbn [readAll]; rewrite Hpay; by rewrite app_nil_r|]. split.
  { split.
    - by rewrite E4.
    - done.
    - done.
    - exists ts. rewrite E1, E2. done.
    - intros j. rewrite (indexes_snoc _ _ _ _ (ad_calls _ _ _ _ _ _ Hadd)), bool_decide_true by done. apply Hfresh.
    - by rewrite E2. }
  split; [eapply tracks_args; eauto; apply Hadd|]. split; [apply Hadd|]. split; [apply Hadd|]. by rewrite E3.
Qed.

Lemma stepped_finish m s e d evs evs' f :
  csim m s e d evs' -> tracks m s evs evs' -> p_done s = false -> p_open s = ∅ ->
  stepped m s e d evs evs' (StreamEventFinish (Some f)) [].
Proof.
  intros Hc Ht Hd Hopen. pose proof Hc as [Hdone Hdec Hv (ts & Hts & Hk & _) Hfresh Hns].
  set (fr := openaiFinishCanonical (sf_FinishReason f)).
  assert (validOpt (Some fr) = true) as Hfr by (by destruct (sf_FinishReason f)).
  unfold stepped, event. rewrite Hdone, Hd. fold fr.
  match goal with |- context [chunk now ?x ?y ?z] =>
    destruct (chunk_reads x y z d Hv eq_refl Hfr (eq_trans Hdec Hd)) as (b & p & e' & o & Hchunk & Hf & Hst & Hv' & Ho & Hp) end.
  cbv zeta in Hp. rewrite Hchunk. cbn [fst snd].
  assert (forall d0, choice d0 (readChoice (mkOutChoice 0 (Some (plainDelta None None [])) (Some fr))) = finishEvent d0 fr) as Hch
    by (intros d0; unfold fr; by destruct (sf_FinishReason f)).
  rewrite Hch in Hp. unfold finishEvent in Hp. cbn [closeOpen fst snd] in Hp.
  assert (forall l, adds (List.map (fun idx => StreamEventContentEnd (Some idx)) l ++ [StreamEventFinish (Some (mkFinish (canonicalFinish fr) fr))])
    [] "" "" [plainFinish (sf_FinishReason f)] []) as Hends.
  { intros l. apply adds_silent; [apply ends_silent|]. split; cbn; try done. unfold fr. by rewrite canonicalFinish_plain. }
  pose proof (adds_silent o _ _ _ _ _ _ Ho (Hends (open (d <| started := true |>)))) as Hadd.
  destruct Hst as (E1 & E2 & E3 & E4).
  exists e', b, [p]. do 2 eexists. exists m. split; [done|]. split; [done|]. split; [cbn [readAll]; rewrite Hp; by rewrite app_nil_r|].
  split.
  { split.
    - rewrite E4. done.
    - done.
    - done.
    - exists ∅. split; [done|]. split; [intros k i' H; by rewrite lookup_empty in H|].
      rewrite Hopen. intros i q H. by rewrite lookup_empty in H.
    - rewrite indexes_silent by apply Hadd. apply Hfresh.
    - by rewrite E2. }
  split; [eapply tracks_adds; eauto; try apply Hadd; lia|]. split; [apply Hadd|]. split; [apply Hadd|]. by rewrite E3.
Qed.

Lemma done_reads (d : chatStreamDecoder) : done d = false ->
  exists d' es, payload d "[DONE]" = (d', inr es) /\ silent es /\ done d' = true /\ tools d' = Some ∅ /\ next d' = next d.
Proof.
  intros Hd. cbn [payload ChatDecoder]. unfold chatPayload. rewrite Hd. change (String.eqb (TrimSpace "[DONE]") "[DONE]") with true.
  cbv iota. unfold finish. rewrite Hd. do 2 eexists. split; [reflexivity|]. split; [|done].
  destruct (ends_silent (open (d <| done := true |>))) as [H1 H2 H3 H4 H5].
  split; rewrite ?calls_app, ?concat_map_app, ?omap_app; by rewrite ?H1, ?H2, ?H3, ?H4, ?H5.
Qed.

Lemma usage_reads e u (d : chatStreamDecoder) : validIDs e -> done d = false ->
  exists p, marshalChunk (stamped e [] (Some u)) = inr p /\ oneLine p
    /\ exists d' es, payload d p = (d', inr es) /\ done d' = false /\ next d' = next d
       /\ adds es [] "" "" [] (reported (Some (mkUsage (ou_PromptTokens u) (ou_CompletionTokens u) zeroWire))).
Proof.
  intros [Hid Hmod] Hd. destruct (marshal_chunk (stamped e [] (Some u))) as (p & Hm & Hline & Hnd & Hread).
  { change (ValidString (ce_id e) && ValidString "chat.completion.chunk" && ValidString (ce_model e) && true = true).
    by rewrite Hid, Hmod. }
  exists p. split; [done|]. split; [done|]. cbn [payload ChatDecoder]. unfold chatPayload. rewrite Hd.
  apply String.eqb_neq in Hnd. rewrite Hnd, Hread. cbn [readChunk ck_Error String.eqb negb andb].
  unfold chunkEvents. cbn [readChunk ck_ID ck_Model ck_Choices ck_Usage stamped ok_ID ok_Model ok_Choices ok_Usage fmap option_fmap option_map List.map fold_left PromptTokens CompletionTokens].
  destruct d as [? ? [] ? ? ? ? ? ?]; cbn in *; do 2 eexists; (split; [reflexivity|]); (split; [done|]); (split; [done|]);
    unfold reported; cbn; by destruct (_ || _).
Qed.

Lemma stepped_done m s e d evs evs' :
  csim m s e d evs' -> tracks m s evs evs' -> p_done s = false -> p_open s = ∅ ->
  stepped m (mkProtocol (p_started s) (p_next s) ∅ true) e d evs evs' StreamEventDone (reported (ce_usage e)).
Proof.
  intros Hc Ht Hd Hopen. pose proof Hc as [Hdone Hdec Hv (ts & Hts & Hk & _) Hfresh Hns].
  rewrite Hd in Hdec. unfold stepped, event, terminal. rewrite Hdone, Hd.
  assert (forall e1 d1 es ps b, stampedFrom e e1 -> validIDs e1 -> readAll d ps = Some (d1, es) -> done d1 = false ->
    next d1 = next d -> frames b ps -> adds es [] "" "" [] (reported (ce_usage e)) ->
    exists e' b' ps' d' es' m',
      (e1 <| ce_done := true |>, Ok (b ++ AppendSSE "" "" "[DONE]")%string) = (e', @Ok CodecError _ b') /\ frames b' ps' /\ readAll d ps' = Some (d', es')
      /\ csim m' (mkProtocol (p_started s) (p_next s) ∅ true) e' d' (evs' ++ es')
      /\ tracks m' (mkProtocol (p_started s) (p_next s) ∅ true) (evs ++ [StreamEventDone]) (evs' ++ es')
      /\ omap finishReason es' = [] /\ omap usageTokens es' = reported (ce_usage e) /\ ce_usage e' = ce_usage e) as Hend.
  { intros e1 d1 es ps b (E1 & E2 & E3 & E4) Hv1 Hr Hd1 Hn1 Hf Hadd.
    destruct (done_reads d1 Hd1) as (d2 & es2 & Hp & Hs & Hd2 & Ht2 & Hn2).
    assert (adds (es ++ es2) [] "" "" [] (reported (ce_usage e))) as Hadd2.
    { destruct Hs as [H1 H2 H3 H4 H5], Hadd as [G1 G2 G3 G4 G5].
      split; rewrite ?calls_app, ?concat_map_app, ?omap_app; by rewrite ?H1, ?H2, ?H3, ?H4, ?H5, ?G1, ?G2, ?G3, ?G4, ?G5, ?app_nil_r. }
    do 2 eexists. exists (ps ++ ["[DONE]"]), d2, (es ++ es2), m. split; [reflexivity|]. split.
    { apply frames_app; [done|]. by apply frames_sse. }
    split. { eapply readAll_app; [done|]. cbn [readAll]. by rewrite Hp, app_nil_r. }
    split.
    { split; cbn; try done.
      - exists ∅. split; [done|]. split; [intros k i' H; by rewrite lookup_empty in H|]. intros i q H. by rewrite lookup_empty in H.
      - intros i'. rewrite indexes_silent by apply Hadd2. rewrite Hn2, Hn1. apply Hfresh.
      - by rewrite E2. }
    split; [|split; [apply Hadd2|split; [apply Hadd2|done]]].
    eapply tracks_adds; eauto; try apply Hadd2; cbn; [lia|]. intros i q H. by rewrite lookup_empty in H. }
  destruct (ce_usage e) as [u|] eqn:Eu; cbn [reported] in *.
  - set (e1 := createdAt now (chunkID e)).
    destruct (stamp_ok e Hv) as [Hst Hv1]. fold e1 in Hst, Hv1.
    destruct (usage_reads e1 (mkOutUsage (InputTokens u) (OutputTokens u) (int64 (InputTokens u + OutputTokens u))) d Hv1 Hdec)
      as (p & Hm & Hline & d1 & es & Hp & Hd1 & Hn1 & Hadd).
    rewrite Hm. assert (AppendSSE (AppendSSE "" "" p) "" "[DONE]" = (AppendSSE "" "" p ++ AppendSSE "" "" "[DONE]")%string) as -> by done.
    apply (Hend e1 d1 es [p] (AppendSSE "" "" p)); try done.
    + cbn [readAll]. rewrite Hp. by rewrite app_nil_r.
    + by apply frames_sse.
  - apply (Hend e d [] [] ""); try done. apply frames_nil.
Qed.

(** Events that write nothing. *)
Lemma stepped_none m s s' e d evs evs' ev e' :
  csim m s e d evs' -> tracks m s evs evs' -> event now e ev = (e', Ok "") ->
  slots e' = slots e -> nextSlot e' = nextSlot e -> ce_done e' = ce_done e -> validIDs e' ->
  touched ev = None -> eventText ev = "" -> reasoningText ev = "" -> finishReason ev = None ->
  ce_usage e' = match ev with StreamEventUsage (Some u) => Some u | _ => ce_usage e end ->
  p_done s' = p_done s -> p_next s <= p_next s' ->
  (forall i p, p_open s' !! i = Some p -> pt_Type p = PartTypeToolCall -> p_open s !! i = Some p) ->
  stepped m s' e d evs evs' ev [].
Proof.
  intros [H1 H2 H3 (ts & Hts & Hk & Hopen) H5 H6] Ht He E1 E2 E3 Hv T1 T2 T3 T4 Hu Hd Hn Ho.
  exists e', "", [], d, [], m. split; [done|]. split; [apply frames_nil|]. split; [done|]. split.
  { rewrite app_nil_r. split; [congruence|congruence|done| |done|by rewrite E2].
    exists ts. rewrite E1, E2. split; [done|]. split; [done|]. eauto. }
  split; [eapply (tracks_adds _ _ _ _ _ _ [] "" "" [] []); eauto; by split|]. cbn. by rewrite T4.
Qed.

Definition usageOut (e : chatStreamEncoder) (ev : StreamEvent) : list (Z * Z) :=
  match ev with StreamEventDone => reported (ce_usage e) | _ => [] end.

Lemma chat_step m s e d evs evs' ev s' :
  csim m s e d evs' -> tracks m s evs evs' -> accept true s ev = Some s' -> noError ev = true -> validEvent ev = true ->
  stepped m s' e d evs evs' ev (usageOut e ev).
Proof.
  intros Hc Ht Hacc Hne Hval. apply accept_inv in Hacc as [Hd H]. pose proof Hc as [Hdone Hdec Hv _ _ _].
  destruct ev as [[x|]|[cs|]|[td|]|[td|]|[td|]|[i|]|[u|]|[f|]|[x|]|]; try done; cbn [usageOut].
  - subst s'. cbn in Hval. apply andb_true_iff in Hval as [V1 V2]. destruct Hv as [Hv1 Hv2].
    destruct (String.eqb (st_ID x) "") eqn:E1, (String.eqb (st_Model x) "") eqn:E2;
      (eapply stepped_none; [exact Hc|exact Ht|unfold event; rewrite Hdone, Hd, E1, E2; reflexivity|try done..]);
      cbn; done || congruence || lia.
  - destruct H as (Hs & Hn & Hp & ->). destruct cs as [i p]. cbn [cs_Index cs_Part] in *. subst i.
    destruct (bool_decide (pt_Type p = PartTypeToolCall)) eqn:Ety.
    + apply bool_decide_eq_true in Ety. unfold opens in Hp. rewrite Ety in Hp.
      destruct (pt_ToolCall p) as [tc|] eqn:Etc; [|done]. apply String.eqb_eq in Hp. cbn in Hval. rewrite Etc in Hval.
      apply andb_true_iff in Hval as [V1 V2]. by eapply stepped_tool.
    + apply bool_decide_eq_false in Ety.
      assert (pt_ToolCall p = None) as Hnone.
      { unfold opens in Hp. destruct (pt_Type p); try done; apply andb_true_iff in Hp as [_ Hp]; by apply bool_decide_eq_true in Hp. }
      eapply (stepped_none _ _ _ _ _ _ _ _ e); eauto; try done.
      * unfold event. rewrite Hdone, Hd. cbn [cs_Part]. by rewrite bool_decide_false.
      * cbn. by rewrite Hnone.
      * by apply opens_empty.
      * by apply opens_empty.
      * cbn. lia.
      * intros i q. cbn. destruct (decide (i = p_next s)) as [->|Hne']; [|by rewrite lookup_insert_ne].
        rewrite lookup_insert_eq. intros [= <-]. congruence.
  - destruct H as (_ & Ho & Hx & ->). by apply stepped_text.
  - destruct H as (_ & Ho & Hx & Hr & ->). cbn in Hval. apply andb_true_iff in Hval as [_ V]. apply stepped_args; auto.
  - destruct H as (_ & Ho & Hx & ->). by apply stepped_reasoning.
  - destruct H as [_ ->]. eapply (stepped_none _ _ _ _ _ _ _ _ e); eauto; try done.
    + unfold event. by rewrite Hdone, Hd.
    + intros j q. cbn. intros [_ Hq]%lookup_delete_Some. done.
  - subst s'. eapply stepped_none; [exact Hc|exact Ht|unfold event; rewrite Hdone, Hd; reflexivity|try done..].
  - destruct H as [Ho ->]. by apply stepped_finish.
  - destruct H as [Ho ->]. by apply stepped_done.
Qed.

(** The simulation, with what has been said about the end of the stream. *)
Record chatSim (m : gmap Z Z) (s : protocol) (e : chatStreamEncoder) (d : chatStreamDecoder) (evs evs' : list StreamEvent)
    : Prop := {
  ch_sim : csim m s e d evs';
  ch_finish : omap finishReason evs' = List.map plainFinish (omap finishReason evs);
  ch_held : ce_usage e = usageAfter None evs;
  ch_usage : omap usageTokens evs' = if p_done s then reported (usageAfter None evs) else [];
}.

#[export] Program Instance ChatRenders : @Renders chatStreamEncoder chatStreamDecoder (ChatEncoder now) ChatDecoder := {
  rsim := chatSim
}.
Next Obligation.
  intros m s e d evs evs' ev s' [Hc Hf Hh Hu] Ht Hacc Hne Hval.
  destruct (chat_step m s e d evs evs' ev s' Hc Ht Hacc Hne Hval)
    as (e1 & b1 & ps1 & d1 & es1 & m1 & He & Hf1 & Hr1 & Hc1 & Ht1 & Hfin1 & Hus1 & Hu1).
  exists e1, b1, ps1, d1, es1, m1. do 3 (split; [done|]). split; [|done].
  assert (ce_usage e1 = usageAfter None (evs ++ [ev])) as Hheld.
  { rewrite Hu1, Hh. unfold usageAfter. by rewrite fold_left_app. }
  split; [done| |done|].
  - by rewrite !omap_app, map_app, Hf, Hfin1.
  - rewrite omap_app, Hus1, Hu, (accept_done _ _ _ _ Hacc), (proj1 (accept_inv _ _ _ _ Hacc)), <- Hheld, Hu1.
    by destruct ev as [|?|?|?|?|?|[u|]|?|?|].
Qed.
Next Obligation.
  intros m s e d evs evs' [[_ Hdec _ _ _ _] Hf Hh Hu] Hd Hcnt. split.
  - cbn. unfold finish. by rewrite Hdec, Hd.
  - rewrite Hf, Hu, Hd. split; [|by apply reported_usage]. change (List.map plainFinish ?l) with (plainFinish <$> l).
    rewrite fmap_last. by destruct (last _) as [[]|].
Qed.

Lemma chat_sim_start req provider :
  ValidString (match req with Some r => rq_Model r | None => "" end) = true ->
  chatSim ∅ opening (NewStreamEncoder req) (ready (NewStreamDecoder provider)) [] [].
Proof.
  intros Hmod. split; try done. split; try done.
  - exists ∅. split; [done|]. split; intros ? ? H; cbn in H; by rewrite lookup_empty in H.
  - by intros i ?%not_elem_of_nil.
Qed.

(** ** The decoder's events are UTF-8 *)

Lemma fold_utf8 {A} (f : chatStreamDecoder -> A -> chatStreamDecoder * list StreamEvent) (ok : A -> bool) l acc :
  (forall d a, ok a = true -> forallb validEvent (f d a).2 = true) -> forallb ok l = true ->
  forallb validEvent acc.2 = true -> forallb validEvent (fold_left (andThen f) l acc).2 = true.
Proof.
  intros Hf. revert acc. induction l as [|a l IH]; intros [d out] Hl Ha; [done|]. cbn [fold_left].
  cbn [forallb] in Hl. apply andb_true_iff in Hl as [H1 H2]. apply IH; [done|]. cbn.
  specialize (Hf d a H1). destruct (f d a) as [d1 es]. cbn in *. by rewrite forallb_app, Ha.
Qed.

Lemma nonEmpty_valid p : validOpt p = true -> forallb ValidString (nonEmpty p) = true.
Proof. destruct p as [s|]; cbn; [|done]. destruct (String.eqb s ""); [done|]. intros H. cbn. by rewrite H. Qed.

Lemma ends_valid l : forallb validEvent (List.map (fun idx => StreamEventContentEnd (Some idx)) l) = true.
Proof. by induction l. Qed.

Lemma choice_utf8 d c :
  validOpt (dl_Content (ch_Delta c)) && validOpt (dl_ReasoningContent (ch_Delta c))
    && validOpt (dl_Refusal (ch_Delta c)) && forallb validReadTool (dl_ToolCalls (ch_Delta c)) = true ->
  forallb validEvent (choice d c).2 = true.
Proof.
  intros [[[V1 V2]%andb_true_iff V3]%andb_true_iff V4]%andb_true_iff. unfold choice. destruct (negb _); [done|]. cbv zeta.
  apply (fold_utf8 _ (fun _ => true)).
  { intros d' a _. cbn. by rewrite forallb_app, ends_valid. }
  { by induction (nonEmpty _). }
  apply (fold_utf8 _ validReadTool); [|done|].
  { intros d' tc [[H1 H2]%andb_true_iff H3]%andb_true_iff. unfold toolFragment.
    destruct (default ∅ (tools d') !! _), (String.eqb (td_Arguments tc) ""); cbn; by rewrite ?H1, ?H2, ?H3. }
  apply (fold_utf8 _ ValidString); [|by apply nonEmpty_valid|].
  { intros d' a H. unfold appendReasoning. destruct (reasIdx d' <? 0); cbn; by rewrite H. }
  assert (forall d a, ValidString a = true -> forallb validEvent (appendTextDelta d a).2 = true) as Ht.
  { intros d' a H. unfold appendTextDelta. destruct (textIdx d' <? 0); cbn; by rewrite H. }
  do 2 (apply (fold_utf8 _ ValidString); [done|by apply nonEmpty_valid|]). done.
Qed.

#[export] Program Instance ChatUtf8 : Utf8 chatStreamDecoder.
Next Obligation.
  intros d data d' es. cbn [payload ChatDecoder]. unfold chatPayload. destruct (done d) eqn:E; [by intros [= <- <-]|].
  destruct (String.eqb _ _).
  { unfold finish. rewrite E. cbn. intros [= <- <-]. by rewrite forallb_app, ends_valid. }
  destruct (unmarshalChunk data) as [err|ch] eqn:Eu; [done|]. apply unmarshal_valid in Eu. destruct (_ && _); [by intros [= <- <-]|].
  apply andb_true_iff in Eu as [[V1 V2]%andb_true_iff V3]. unfold chunkEvents.
  match goal with |- context [fold_left (andThen choice) ?l ?acc] =>
    assert (forallb validEvent (fold_left (andThen choice) l acc).2 = true) as Hv end.
  { eapply fold_utf8; [intros d0 a; apply choice_utf8|done|]. destruct (started d); [done|]. cbn. by rewrite V1, V2. }
  destruct (fold_left _ _ _) as [d1 o]. cbn in Hv. intros [= <- <-]. rewrite forallb_app, Hv.
  destruct (ck_Usage ch) as [u|]; [|done]. by destruct (_ || _).
Qed.
Next Obligation.
  intros d d' es. cbn. unfold finish. destruct (done d); intros [= <- <-]; [done|]. by rewrite forallb_app, ends_valid.
Qed.

End Back.

(** ** What a chunk says

    The terminator and a reported error say nothing; a choice other than the first
    is not read. *)
Section Said.
Context {CJ : ChatJson}.

Definition choiceSays (c : oaiChoice) : said :=
  if negb (ch_Index c =? 0) then nothing
  else let piece (p : option string) := String.concat "" (nonEmpty p) in
       mkSaid (piece (dl_Content (ch_Delta c)) ++ piece (dl_Refusal (ch_Delta c)))%string
         (piece (dl_ReasoningContent (ch_Delta c)))
         (String.concat "" (List.map td_Arguments (dl_ToolCalls (ch_Delta c)))) (List.map canonicalFinish (nonEmpty (ch_FinishReason c))).

Definition chatSays (data : string) : said :=
  if String.eqb (TrimSpace data) "[DONE]" then nothing
  else match unmarshalChunk data with
       | inr ch => if negb (String.eqb (ck_Error ch) "") && negb (String.eqb (ck_Error ch) "null") then nothing
                   else joinAll (List.map choiceSays (ck_Choices ch))
       | inl _ => nothing
       end.

Lemma text_says d t : says (appendTextDelta d t).2 = mkSaid t "" "" [] /\ done (appendTextDelta d t).1 = done d.
Proof. unfold appendTextDelta. by destruct (textIdx d <? 0). Qed.

Lemma reasoning_says d t : says (appendReasoning d t).2 = mkSaid "" t "" [] /\ done (appendReasoning d t).1 = done d.
Proof. unfold appendReasoning. by destruct (reasIdx d <? 0). Qed.

Lemma tool_says d tc : says (toolFragment d tc).2 = mkSaid "" "" (td_Arguments tc) [] /\ done (toolFragment d tc).1 = done d.
Proof. unfold toolFragment. by destruct (default ∅ (tools d) !! _), (String.eqb_spec (td_Arguments tc) "") as [->|]. Qed.

Lemma finish_says d raw :
  says (finishEvent d raw).2 = mkSaid "" "" "" [canonicalFinish raw] /\ done (finishEvent d raw).1 = done d.
Proof. unfold finishEvent. cbn [fst snd closeOpen]. by rewrite says_app, says_ends. Qed.

Lemma andThen_says {A} (f : chatStreamDecoder -> A -> chatStreamDecoder * list StreamEvent) g l acc :
  (forall d a, says (f d a).2 = g a /\ done (f d a).1 = done d) ->
  says (fold_left (andThen f) l acc).2 = join (says acc.2) (joinAll (List.map g l))
  /\ done (fold_left (andThen f) l acc).1 = done acc.1.
Proof. exact (fold_says f g done l acc). Qed.

Lemma choice_says d c : says (choice d c).2 = choiceSays c /\ done (choice d c).1 = done d.
Proof.
  unfold choice, choiceSays. destruct (negb _); [done|]. cbv zeta.
  pose proof (fun l acc => andThen_says _ _ l acc text_says) as Ht.
  split.
  - rewrite (proj1 (andThen_says _ _ _ _ finish_says)), (proj1 (andThen_says _ _ _ _ tool_says)),
      (proj1 (andThen_says _ _ _ _ reasoning_says)), !(fun l acc => proj1 (Ht l acc)).
    rewrite said_args.
    unfold nonEmpty. destruct (dl_Content _) as [t|], (dl_Refusal _) as [r|], (dl_ReasoningContent _) as [q|],
      (ch_FinishReason c) as [f|]; repeat case_match; unfold join; cbn; by rewrite ?str_app_nil_r.
  - by rewrite (proj2 (andThen_says _ _ _ _ finish_says)), (proj2 (andThen_says _ _ _ _ tool_says)),
      (proj2 (andThen_says _ _ _ _ reasoning_says)), !(fun l acc => proj2 (Ht l acc)).
Qed.

#[export] Program Instance ChatReads : Reads chatStreamDecoder := {
  over := done;
  saidIn := chatSays;
  lastIn := fun data => String.eqb (TrimSpace data) "[DONE]";
}.
Next Obligation. intros d. cbn. unfold init. by destruct (tools d). Qed.
Next Obligation. done. Qed.
Next Obligation.
  intros d data d' es H. cbn [payload ChatDecoder]. unfold chatPayload, chatSays. rewrite H. destruct (String.eqb _ _).
  { unfold finish. rewrite H. cbn. intros [= <- <-]. by rewrite says_app, says_ends. }
  destruct (unmarshalChunk data) as [err|ch]; [done|]. destruct (_ && _); [by intros [= <- <-]|]. unfold chunkEvents.
  match goal with |- context [fold_left (andThen choice) ?l ?acc] =>
    pose proof (andThen_says choice choiceSays l acc choice_says) as [Hs Ho]; destruct (fold_left (andThen choice) l acc) as [d1 o] end.
  cbn [fst snd] in Hs, Ho. intros [= <- <-]. rewrite says_app, Hs, Ho.
  assert (says (if started d then (d, []) else (d <| started := true |>, [StreamEventStart (Some (mkStart (ck_ID ch) (ck_Model ch)))])).2 = nothing) as ->
    by (by destruct (started d)).
  rewrite nothing_join. split; [|by destruct (started d)].
  destruct (ck_Usage ch) as [u|]; [|by rewrite join_nothing]. destruct (_ || _); by rewrite join_nothing.
Qed.
Next Obligation. intros d data H. cbn in *. unfold chatPayload. by rewrite H. Qed.
Next Obligation. intros d. cbn. unfold finish. destruct (done d); [done|]. cbn. by rewrite says_app, says_ends. Qed.

End Said.

End ChatStream.
