(* ===== verification/MessagesStream.v ===== *)
(** * The Messages stream

    [src/internal/extproc/llmcall/providers/anthropic/stream.go]: the decoder of the
    Messages API event stream and the encoder that renders canonical events as
    one.  The JSON engine is a parameter: how a frame's data is read, and how each of
    the payload shapes the encoder builds is written. *)

From Stdlib Require Import ZArith Lia NArith Ascii String List.
From stdpp Require Import base strings list gmap sorting pretty.
From coqutil Require Import Datatypes.RecordSettersUsingExistingGetters.
From S2P Require Import Prelude GoStrings GoStd Registry LlmCall Sse StreamCodec StreamContent.
Import GoStrings GoStd LlmCall Sse StreamCodec StreamContent.

#[local] Open Scope string_scope.
#[local] Open Scope Z_scope.
#[local] Open Scope list_scope.

Module MessagesStream.

(** ** Wire shapes *)

Record anthropicUsage := mkAntUsage { au_InputTokens : Z; au_OutputTokens : Z }.

Record antStreamPayload := mkPayload {
  ap_Type : string;
  ap_MessageID : string;
  ap_MessageModel : string;
  ap_MessageUsage : anthropicUsage;
  ap_Index : Z;
  ap_ContentBlock : string;
  ap_Delta : string;
  ap_Usage : anthropicUsage;
  ap_ErrorType : string;
  ap_ErrorMessage : string;
}.

(** The anonymous structures [blockStart] and [blockDelta] read. *)
Record antBlock := mkBlock { bk_Type : string; bk_ID : string; bk_Name : string; bk_Text : string }.
Record antDelta := mkBlockDelta { bd_Type : string; bd_Text : string; bd_PartialJSON : string; bd_Thinking : string }.

(** The payload maps the encoder builds. *)
Inductive outBlock := OutText | OutToolUse (id name : string) | OutThinking.
Inductive outDelta := OutTextDelta (text : string) | OutInputJSON (partial : string) | OutThinkingDelta (thinking : string).
Inductive outFrame :=
| OutMessageStart (id model : string)
| OutBlockStart (index : Z) (block : outBlock)
| OutBlockDelta (index : Z) (d : outDelta)
| OutBlockStop (index : Z)
| OutMessageDelta (stop : string) (output : Z) (input : option Z)
| OutMessageStop
| OutError (typ message : string).

Class MessagesJson := {
  unmarshalPayload : string -> string + antStreamPayload;
  unmarshalBlock : string -> antBlock;
  unmarshalDelta : string -> antDelta;
  unmarshalStop : string -> string;
  marshalFrame : outFrame -> string + string;
}.

(** ** Finish reasons *)

Definition canonicalFinish (s : string) : FinishReason :=
  if String.eqb s "end_turn" || String.eqb s "stop_sequence" then FinishReasonStop
  else if String.eqb s "max_tokens" then FinishReasonLength
  else if String.eqb s "tool_use" then FinishReasonToolCalls
  else if String.eqb s "refusal" then FinishReasonContentFilter
  else FinishReasonUnset.

Definition anthropicFinishCanonical (fr : FinishReason) : string :=
  match fr with
  | FinishReasonLength => "max_tokens"
  | FinishReasonToolCalls => "tool_use"
  | FinishReasonContentFilter => "refusal"
  | _ => "end_turn"
  end.

(** [slices.Sorted(maps.Keys(m))], from the keys of [m]. *)
Definition sortedIndexes (keys : gset Z) : list Z := merge_sort Z.le (elements keys).

Section Codec.
Context {MJ : MessagesJson}.

(** ** The decoder *)

Record streamDecoder := mkDecoder {
  sd_scan : SSEScanner;
  inputTokens : Z;
  sd_open : gmap Z PartType;
  sd_done : bool;
}.

Definition NewStreamDecoder : streamDecoder := mkDecoder newScanner 0 ∅ false.

Definition contentStart (i : Z) (p : Part) : StreamEvent := StreamEventContentStart (Some (mkContentStart i p)).

Definition blockStart (d : streamDecoder) (index : Z) (raw : string) : streamDecoder * list StreamEvent :=
  let block := unmarshalBlock raw in
  let part := if String.eqb (bk_Type block) "text" then Some (textPart (bk_Text block))
              else if String.eqb (bk_Type block) "tool_use" then Some (toolPart (bk_ID block) (bk_Name block))
              else if String.eqb (bk_Type block) "thinking" then Some reasoningPart
              else None in
  match part with
  | Some p => (d <| sd_open := <[index := pt_Type p]> (sd_open d) |>, [contentStart index p])
  | None => (d, [])
  end.

(** The part of a delta that came without its open frame. *)
Definition deltaPart (ty : string) : option Part :=
  if String.eqb ty "text_delta" then Some (textPart "")
  else if String.eqb ty "input_json_delta" then Some (toolPart "" "")
  else if String.eqb ty "thinking_delta" then Some reasoningPart
  else None.

Definition deltaEvents (index : Z) (delta : antDelta) : list StreamEvent :=
  let some (s : string) (ev : StreamEvent) := if String.eqb s "" then [] else [ev] in
  if String.eqb (bd_Type delta) "text_delta" then
    some (bd_Text delta) (StreamEventTextDelta (Some (mkTextDelta index (bd_Text delta))))
  else if String.eqb (bd_Type delta) "input_json_delta" then
    some (bd_PartialJSON delta) (StreamEventToolCallDelta (Some (mkToolCallDelta index "" "" (bd_PartialJSON delta))))
  else if String.eqb (bd_Type delta) "thinking_delta" then
    some (bd_Thinking delta) (StreamEventReasoningDelta (Some (mkReasoningDelta index (bd_Thinking delta))))
  else [].

Definition blockDelta (d : streamDecoder) (index : Z) (raw : string) : streamDecoder * list StreamEvent :=
  let delta := unmarshalDelta raw in
  match sd_open d !! index with
  | Some _ => (d, deltaEvents index delta)
  | None =>
      match deltaPart (bd_Type delta) with
      | None => (d, [])
      | Some p => (d <| sd_open := <[index := pt_Type p]> (sd_open d) |>,
                   contentStart index p :: deltaEvents index delta)
      end
  end.

Definition closeOpen (d : streamDecoder) : streamDecoder * list StreamEvent :=
  (d <| sd_open := ∅ |>, List.map (fun i => StreamEventContentEnd (Some i)) (sortedIndexes (dom (sd_open d)))).

Definition finish (d : streamDecoder) : streamDecoder * list StreamEvent :=
  if sd_done d then (d, [])
  else let '(d, es) := closeOpen (d <| sd_done := true |>) in (d, es ++ [StreamEventDone]).

Definition usageEvent (i o : Z) : list StreamEvent :=
  if (0 <? i) || (0 <? o) then [StreamEventUsage (Some (mkUsage i o zeroWire))] else [].

Definition messageDelta (d : streamDecoder) (p : antStreamPayload) : streamDecoder * list StreamEvent :=
  let stop := unmarshalStop (ap_Delta p) in
  let d := if 0 <? au_InputTokens (ap_Usage p) then d <| inputTokens := au_InputTokens (ap_Usage p) |> else d in
  let '(d, out) := if String.eqb stop "" then (d, [])
                   else let '(d, es) := closeOpen d in
                        (d, es ++ [StreamEventFinish (Some (mkFinish (canonicalFinish stop) stop))]) in
  (d, out ++ usageEvent (inputTokens d) (au_OutputTokens (ap_Usage p))).

Definition payloadEvents (d : streamDecoder) (p : antStreamPayload) : streamDecoder * list StreamEvent :=
  if String.eqb (ap_Type p) "message_start" then
    let u := ap_MessageUsage p in
    (d <| inputTokens := au_InputTokens u |>,
     StreamEventStart (Some (mkStart (ap_MessageID p) (ap_MessageModel p)))
       :: usageEvent (au_InputTokens u) (au_OutputTokens u))
  else if String.eqb (ap_Type p) "content_block_start" then blockStart d (ap_Index p) (ap_ContentBlock p)
  else if String.eqb (ap_Type p) "content_block_delta" then blockDelta d (ap_Index p) (ap_Delta p)
  else if String.eqb (ap_Type p) "content_block_stop" then
    match sd_open d !! ap_Index p with
    | None => (d, [])
    | Some _ => (d <| sd_open := delete (ap_Index p) (sd_open d) |>, [StreamEventContentEnd (Some (ap_Index p))])
    end
  else if String.eqb (ap_Type p) "message_delta" then messageDelta d p
  else if String.eqb (ap_Type p) "message_stop" then finish d
  else if String.eqb (ap_Type p) "error" then
    (d, [StreamEventError (Some (mkStreamError (ap_ErrorType p) (ap_ErrorMessage p)))])
  else (d, []).

Definition messagesPayload (d : streamDecoder) (data : string) : streamDecoder * (CodecError + list StreamEvent) :=
  if sd_done d then (d, inr [])
  else
    match unmarshalPayload data with
    | inl err => (d, inl (MalformedError "anthropic" "stream event" (Some err)))
    | inr p => let '(d, es) := payloadEvents d p in (d, inr es)
    end.

#[export] Instance MessagesDecoder : Decoder streamDecoder := {
  ready := fun d => d;
  scan := sd_scan;
  setScan := fun s d => d <| sd_scan := s |>;
  provider := fun _ => "anthropic";
  payload := messagesPayload;
  finishStream := finish;
}.

(** ** The encoder *)

(** [open] is a [map[int]bool] that only ever holds [true]: the set of its keys. *)
Record streamEncoder := mkEncoder {
  se_id : string;
  se_model : string;
  se_started : bool;
  erred : bool;
  se_done : bool;
  se_open : gset Z;
  nTools : Z;
  se_finish : option StreamFinish;
  se_usage : option Usage;
}.

Definition NewStreamEncoder (req : option Request) : streamEncoder :=
  mkEncoder "" (match req with Some r => rq_Model r | None => "" end) false false false ∅ 0 None None.

Definition ContentType : string := "text/event-stream".

(** [e.open[i]] *)
Definition isOpen (e : streamEncoder) (i : Z) : bool := bool_decide (i ∈ se_open e).

Definition frame (name : string) (f : outFrame) : outcome CodecError string :=
  match marshalFrame f with
  | inr b => Ok (AppendSSE "" name b)
  | inl err => Err (OtherError err)
  end.

Definition start (e : streamEncoder) : streamEncoder * outcome CodecError string :=
  if se_started e then (e, Ok "")
  else
    let e := e <| se_started := true |> in
    let e := if String.eqb (se_id e) "" then e <| se_id := "msg_clrk" |> else e in
    (e, frame "message_start" (OutMessageStart (se_id e) (se_model e))).

(** The block a part opens as; an identifier is made up for a tool call that has
    none. *)
Definition blockOf (e : streamEncoder) (part : Part) : streamEncoder * option outBlock :=
  match pt_Type part with
  | PartTypeText => (e, Some OutText)
  | PartTypeToolCall =>
      let '(id, name) := match pt_ToolCall part with Some tc => (tc_ID tc, tc_Name tc) | None => ("", "") end in
      if String.eqb id "" then
        let e := e <| nTools := nTools e + 1 |> in
        (e, Some (OutToolUse ("call_" ++ pretty (nTools e))%string name))
      else (e, Some (OutToolUse id name))
  | PartTypeReasoning => (e, Some OutThinking)
  | _ => (e, None)
  end.

Definition encBlockStart (e : streamEncoder) (index : Z) (part : Part) : streamEncoder * outcome CodecError string :=
  match blockOf e part with
  | (e, None) => (e, Ok "")
  | (e, Some block) =>
      (e <| se_open := {[index]} ∪ se_open e |>, frame "content_block_start" (OutBlockStart index block))
  end.

(** The part synthesised for a delta of an unopened block. *)
Definition outPart (d : outDelta) : Part :=
  match d with
  | OutTextDelta _ => textPart ""
  | OutInputJSON _ => toolPart "" ""
  | OutThinkingDelta _ => reasoningPart
  end.

Definition delta (e : streamEncoder) (index : Z) (d : outDelta) : streamEncoder * outcome CodecError string :=
  match start e with
  | (e, Ok pre) =>
      let '(e, opened) := if isOpen e index then (e, Ok "") else encBlockStart e index (outPart d) in
      (e, let! b := opened in
          let! f := frame "content_block_delta" (OutBlockDelta index d) in
          Ok (pre ++ b ++ f)%string)
  | r => r
  end.

Fixpoint stopFrames (idxs : list Z) : outcome CodecError string :=
  match idxs with
  | [] => Ok ""
  | i :: rest =>
      let! b := frame "content_block_stop" (OutBlockStop i) in
      let! bs := stopFrames rest in
      Ok (b ++ bs)%string
  end.

(** The stop reason and usage of the terminal frame. *)
Definition messageDeltaFrame (e : streamEncoder) : outFrame :=
  OutMessageDelta
    (match se_finish e with Some f => anthropicFinishCanonical (sf_FinishReason f) | None => "end_turn" end)
    (match se_usage e with Some u => OutputTokens u | None => 0 end)
    (match se_usage e with Some u => if 0 <? InputTokens u then Some (InputTokens u) else None | None => None end).

Definition terminal (e : streamEncoder) : streamEncoder * outcome CodecError string :=
  match start e with
  | (e, Ok out) =>
      match stopFrames (sortedIndexes (se_open e)) with
      | Ok stops =>
          let last := messageDeltaFrame e in
          let e := e <| se_open := ∅ |> in
          match frame "message_delta" last with
          | Ok b1 =>
              match frame "message_stop" OutMessageStop with
              | Ok b2 => (e <| se_done := true |>, Ok (out ++ stops ++ b1 ++ b2)%string)
              | r => (e, r)
              end
          | r => (e, r)
          end
      | r => (e, r)
      end
  | r => r
  end.

(** [event]; a nil payload pointer panics. *)
Definition event (e : streamEncoder) (ev : StreamEvent) : streamEncoder * outcome CodecError string :=
  if se_done e || erred e then (e, Ok "")
  else
    match ev with
    | StreamEventStart (Some s) =>
        let e := if String.eqb (st_ID s) "" then e else e <| se_id := st_ID s |> in
        let e := if String.eqb (st_Model s) "" then e else e <| se_model := st_Model s |> in
        start e
    | StreamEventContentStart (Some cs) =>
        match start e with
        | (e, Ok pre) =>
            let '(e, b) := encBlockStart e (cs_Index cs) (cs_Part cs) in
            (e, let! b := b in Ok (pre ++ b)%string)
        | r => r
        end
    | StreamEventTextDelta (Some d) =>
        if String.eqb (tdl_Text d) "" then (e, Ok "") else delta e (tdl_Index d) (OutTextDelta (tdl_Text d))
    | StreamEventReasoningDelta (Some d) =>
        if String.eqb (rdl_Text d) "" then (e, Ok "") else delta e (rdl_Index d) (OutThinkingDelta (rdl_Text d))
    | StreamEventToolCallDelta (Some d) =>
        if String.eqb (tcd_ArgumentsDelta d) "" then (e, Ok "")
        else delta e (tcd_Index d) (OutInputJSON (tcd_ArgumentsDelta d))
    | StreamEventContentEnd (Some i) =>
        if negb (isOpen e i) then (e, Ok "")
        else (e <| se_open := se_open e ∖ {[i]} |>, frame "content_block_stop" (OutBlockStop i))
    | StreamEventUsage (Some u) => (e <| se_usage := Some u |>, Ok "")
    | StreamEventFinish (Some f) => (e <| se_finish := Some f |>, Ok "")
    | StreamEventError (Some err) =>
        match start e with
        | (e, Ok pre) =>
            let typ := if String.eqb (se_Code err) "" then "api_error" else se_Code err in
            (e <| erred := true |>,
             let! b := frame "error" (OutError typ (se_Message err)) in Ok (pre ++ b)%string)
        | r => r
        end
    | StreamEventDone => terminal e
    | _ => (e, Panic)
    end.

#[export] Instance MessagesEncoder : Encoder streamEncoder := { encodeEvent := event }.

End Codec.

(** ** The laws of the JSON engine *)

Definition noUsage : anthropicUsage := mkAntUsage 0 0.

(** A written frame, read; [raw] stands for the member that is read later. *)
Definition payloadOf (f : outFrame) (raw : string) : antStreamPayload :=
  match f with
  | OutMessageStart id model => mkPayload "message_start" id model noUsage 0 "" "" noUsage "" ""
  | OutBlockStart i _ => mkPayload "content_block_start" "" "" noUsage i raw "" noUsage "" ""
  | OutBlockDelta i _ => mkPayload "content_block_delta" "" "" noUsage i "" raw noUsage "" ""
  | OutBlockStop i => mkPayload "content_block_stop" "" "" noUsage i "" "" noUsage "" ""
  | OutMessageDelta _ output input =>
      mkPayload "message_delta" "" "" noUsage 0 "" raw (mkAntUsage (default 0 input) output) "" ""
  | OutMessageStop => mkPayload "message_stop" "" "" noUsage 0 "" "" noUsage "" ""
  | OutError typ msg => mkPayload "error" "" "" noUsage 0 "" "" noUsage typ msg
  end.

Definition blockFields (b : outBlock) : antBlock :=
  match b with
  | OutText => mkBlock "text" "" "" ""
  | OutToolUse id name => mkBlock "tool_use" id name ""
  | OutThinking => mkBlock "thinking" "" "" ""
  end.
Definition deltaFields (d : outDelta) : antDelta :=
  match d with
  | OutTextDelta t => mkBlockDelta "text_delta" t "" ""
  | OutInputJSON j => mkBlockDelta "input_json_delta" "" j ""
  | OutThinkingDelta t => mkBlockDelta "thinking_delta" "" "" t
  end.

Definition validFrame (f : outFrame) : bool :=
  match f with
  | OutMessageStart id model => ValidString id && ValidString model
  | OutBlockStart _ (OutToolUse id name) => ValidString id && ValidString name
  | OutBlockDelta _ (OutTextDelta t) | OutBlockDelta _ (OutInputJSON t) | OutBlockDelta _ (OutThinkingDelta t) => ValidString t
  | OutMessageDelta stop _ _ => ValidString stop
  | OutError typ msg => ValidString typ && ValidString msg
  | _ => true
  end.

Class MessagesJsonLaws {MJ : MessagesJson} := {
  marshal_frame f : validFrame f = true ->
    exists b raw, marshalFrame f = inr b /\ oneLine b /\ unmarshalPayload b = inr (payloadOf f raw)
      /\ match f with
         | OutBlockStart _ blk => unmarshalBlock raw = blockFields blk
         | OutBlockDelta _ d => unmarshalDelta raw = deltaFields d
         | OutMessageDelta stop _ _ => unmarshalStop raw = stop
         | _ => True
         end;
  unmarshal_payload_valid data p : unmarshalPayload data = inr p ->
    ValidString (ap_MessageID p) = true /\ ValidString (ap_MessageModel p) = true;
  unmarshal_block_valid raw : let b := unmarshalBlock raw in
    ValidString (bk_ID b) = true /\ ValidString (bk_Name b) = true /\ ValidString (bk_Text b) = true;
  unmarshal_delta_valid raw : let d := unmarshalDelta raw in
    ValidString (bd_Text d) = true /\ ValidString (bd_PartialJSON d) = true /\ ValidString (bd_Thinking d) = true;
}.

(** ** What is encoded reads back *)

Section Back.
Context {MJ : MessagesJson} {ML : MessagesJsonLaws}.

Lemma payloadEvents_setScan sc d p :
  payloadEvents (d <| sd_scan := sc |>) p = ((payloadEvents d p).1 <| sd_scan := sc |>, (payloadEvents d p).2).
Proof.
  unfold payloadEvents, blockStart, blockDelta, messageDelta, finish. destruct d as [sc0 it op dn]. cbn.
  repeat match goal with |- context [if ?b then _ else _] => destruct b; cbn; try done
         | |- context [match ?x with Some _ => _ | None => _ end] => destruct x; cbn; try done end.
Qed.

#[export] Program Instance MessagesFramed : Framed streamDecoder.
Next Obligation. done. Qed.
Next Obligation. done. Qed.
Next Obligation. by intros []. Qed.
Next Obligation. done. Qed.
Next Obligation. done. Qed.
Next Obligation. done. Qed.
Next Obligation.
  intros sc d data. cbn [setScan payload MessagesDecoder]. unfold messagesPayload.
  change (sd_done (d <| sd_scan := sc |>)) with (sd_done d). destruct (sd_done d); [done|].
  destruct (unmarshalPayload data) as [err|p]; [done|]. rewrite payloadEvents_setScan. by destruct (payloadEvents d p).
Qed.

Lemma msg_canonicalFinish_plain f : canonicalFinish (anthropicFinishCanonical f) = plainFinish f.
Proof. by destruct f. Qed.

Lemma frame_reads name f (d : streamDecoder) :
  oneLine name -> validFrame f = true -> sd_done d = false ->
  exists b p raw, frame name f = Ok b /\ frames b [p]
    /\ payload d p = ((payloadEvents d (payloadOf f raw)).1, inr (payloadEvents d (payloadOf f raw)).2)
    /\ match f with
       | OutBlockStart _ blk => unmarshalBlock raw = blockFields blk
       | OutBlockDelta _ dl => unmarshalDelta raw = deltaFields dl
       | OutMessageDelta stop _ _ => unmarshalStop raw = stop
       | _ => True
       end.
Proof.
  intros Hn Hv Hd. destruct (marshal_frame f Hv) as (b & raw & Hm & Hl & Hu & Hf).
  exists (AppendSSE "" name b), b, raw. unfold frame. rewrite Hm. split; [done|]. split; [by apply frames_sse|]. split; [|done].
  cbn [payload MessagesDecoder]. unfold messagesPayload. rewrite Hd, Hu. by destruct (payloadEvents d _).
Qed.

(** What ties the encoder of a stream, the reader of its rendering and what has
    been announced: the same blocks are open on both sides, under the same index. *)
Record asim (m : gmap Z Z) (s : protocol) (e : streamEncoder) (d : streamDecoder) (evs evs' : list StreamEvent)
    : Prop := {
  as_done : se_done e = p_done s;
  as_erred : erred e = false;
  as_dec : sd_done d = p_done s;
  as_started : p_done s = false -> se_started e = p_started s;
  as_open i : i ∈ se_open e <-> is_Some (p_open s !! i);
  as_dopen i : is_Some (sd_open d !! i) <-> is_Some (p_open s !! i);
  as_ident i i' : m !! i = Some i' -> i' = i;
  as_fresh i : i ∈ indexes evs' -> i < p_next s;
  as_valid : ValidString (se_id e) = true /\ ValidString (se_model e) = true;
  as_input : p_done s = false -> inputTokens d = 0;
  as_finish : sf_FinishReason <$> se_finish e = last (omap finishReason evs);
  as_usage : se_usage e = usageAfter None evs;
  as_said : omap finishReason evs'
    = if p_done s then [plainFinish (default FinishReasonStop (last (omap finishReason evs)))] else [];
  as_told : omap usageTokens evs'
    = if p_done s then match usageAfter None evs with
                       | Some u => omap usageTokens (usageEvent (if 0 <? InputTokens u then InputTokens u else 0) (OutputTokens u))
                       | None => []
                       end
      else [];
}.

Lemma asim_next m m' s s' e e' d d' evs evs' ev es' :
  asim m s e d evs evs' -> p_done s = false -> p_done s' = false ->
  se_done e' = se_done e -> erred e' = erred e -> se_started e' = p_started s' ->
  ValidString (se_id e') = true /\ ValidString (se_model e') = true ->
  sf_FinishReason <$> se_finish e'
    = match ev with StreamEventFinish (Some f) => Some (sf_FinishReason f) | _ => sf_FinishReason <$> se_finish e end ->
  se_usage e' = match ev with StreamEventUsage (Some u) => Some u | _ => se_usage e end ->
  sd_done d' = sd_done d -> inputTokens d' = inputTokens d ->
  (forall i, i ∈ se_open e' <-> is_Some (p_open s' !! i)) ->
  (forall i, is_Some (sd_open d' !! i) <-> is_Some (p_open s' !! i)) ->
  (forall i i', m' !! i = Some i' -> i' = i) -> (forall i, i ∈ indexes (evs' ++ es') -> i < p_next s') ->
  omap finishReason es' = [] -> omap usageTokens es' = [] ->
  asim m' s' e' d' (evs ++ [ev]) (evs' ++ es').
Proof.
  intros [H1 H2 H3 H4 H5 H6 H7 H8 H9 H10 H11 H12 H13 H14] Hd Hd' E1 E2 E3 Hv Ef Eu D1 D2 O1 O2 Hm Hi F U.
  split; try done; rewrite ?Hd'; try congruence.
  - intros _. rewrite D2. by apply H10.
  - rewrite Ef, H11, omap_app. by destruct ev as [|?|?|?|?|?|?|[f|]|?|]; cbn; rewrite ?app_nil_r, ?last_snoc.
  - rewrite Eu, H12. unfold usageAfter. by rewrite fold_left_app.
  - by rewrite omap_app, H13, F, Hd.
  - by rewrite omap_app, H14, U, Hd.
Qed.

(** What one event does on both sides. *)
Definition stepped (m : gmap Z Z) (s' : protocol) (e : streamEncoder) (d : streamDecoder)
    (evs evs' : list StreamEvent) (ev : StreamEvent) : Prop :=
  exists e' b ps d' es' m',
    event e ev = (e', Ok b) /\ frames b ps /\ readAll d ps = Some (d', es')
    /\ asim m' s' e' d' (evs ++ [ev]) (evs' ++ es') /\ tracks m' s' (evs ++ [ev]) (evs' ++ es').

Lemma readAll_one (d : streamDecoder) p d' es : payload d p = (d', inr es) -> readAll d [p] = Some (d', es).
Proof. intros H. cbn [readAll]. by rewrite H, app_nil_r. Qed.

Lemma indexes_quiet evs' new' : calls new' = [] -> indexes (evs' ++ new') = indexes evs'.
Proof. intros H. unfold indexes. by rewrite calls_app, H, app_nil_r. Qed.

(** A delta of an open block. *)
Lemma stepped_delta m s e d evs evs' ev i dl cs t r :
  asim m s e d evs evs' -> live s -> event e ev = delta e i dl -> is_Some (p_open s !! i) ->
  validFrame (OutBlockDelta i dl) = true ->
  adds (deltaEvents i (deltaFields dl)) cs t r [] [] ->
  (forall new', adds new' cs t r [] [] -> tracks m s (evs ++ [ev]) (evs' ++ new')) ->
  (forall j, j ∈ indexes (evs' ++ deltaEvents i (deltaFields dl)) -> j < p_next s) ->
  match ev with StreamEventFinish _ | StreamEventUsage _ => False | _ => True end ->
  stepped m s e d evs evs' ev.
Proof.
  intros Ha [Hs Hd] He Hopen Hv Hadd Ht Hidx Hk. pose proof Ha as [H1 H2 H3 H4 H5 H6 H7 H8 H9 H10 H11 H12 H13 H14].
  destruct (frame_reads "content_block_delta" (OutBlockDelta i dl) d) as (b & p & raw & Hf & Hfr & Hp & Hraw); [done|done|congruence|].
  unfold stepped. rewrite He. unfold delta, start. rewrite (H4 Hd), Hs. unfold isOpen. rewrite (bool_decide_true _ (proj2 (H5 i) Hopen)), Hf. cbn [obind].
  assert (payloadEvents d (payloadOf (OutBlockDelta i dl) raw) = (d, deltaEvents i (deltaFields dl))) as Hev.
  { unfold payloadEvents. cbn. unfold blockDelta. rewrite Hraw. destruct (proj2 (H6 i) Hopen) as [x Hx]. by rewrite Hx. }
  rewrite Hev in Hp. exists e, b, [p], d, (deltaEvents i (deltaFields dl)), m. split; [done|]. split; [done|].
  split; [by apply readAll_one|]. split; [|by apply Ht].
  eapply asim_next; eauto; try (by destruct ev); try apply Hadd.
Qed.

Lemma openAs_some s i t : openAs s i t = true -> is_Some (p_open s !! i).
Proof. unfold openAs. destruct (p_open s !! i); [eauto|done]. Qed.

(** A block that opens. *)
Lemma stepped_open m m' s e d evs evs' p blk e1 es' :
  asim m s e d evs evs' -> live s ->
  blockOf e p = (e1, Some blk) ->
  (se_done e1 = se_done e /\ erred e1 = erred e /\ se_started e1 = se_started e /\ se_id e1 = se_id e
   /\ se_model e1 = se_model e /\ se_open e1 = se_open e /\ se_finish e1 = se_finish e /\ se_usage e1 = se_usage e) ->
  validFrame (OutBlockStart (p_next s) blk) = true ->
  (forall raw, unmarshalBlock raw = blockFields blk ->
     exists ty, blockStart d (p_next s) raw = (d <| sd_open := <[p_next s := ty]> (sd_open d) |>, es')) ->
  omap finishReason es' = [] -> omap usageTokens es' = [] ->
  (forall i i', m' !! i = Some i' -> i' = i) -> (forall i, i ∈ indexes (evs' ++ es') -> i < p_next s + 1) ->
  tracks m' (opened s p) (evs ++ [StreamEventContentStart (Some (mkContentStart (p_next s) p))]) (evs' ++ es') ->
  stepped m (opened s p) e d evs evs' (StreamEventContentStart (Some (mkContentStart (p_next s) p))).
Proof.
  intros Ha [Hs Hd] Hblk (B1 & B2 & B3 & B4 & B5 & B6 & B7 & B8) Hv Hread F U Hm Hi Ht.
  pose proof Ha as [H1 H2 H3 H4 H5 H6 H7 H8 H9 H10 H11 H12 H13 H14].
  destruct (frame_reads "content_block_start" (OutBlockStart (p_next s) blk) d) as (b & q & raw & Hf & Hfr & Hp & Hraw);
    [done|done|congruence|].
  destruct (Hread raw Hraw) as [ty Hbs].
  unfold stepped, event. rewrite H1, Hd, H2. cbn [orb]. unfold start. rewrite (H4 Hd), Hs. cbn [cs_Index cs_Part].
  unfold encBlockStart. rewrite Hblk, Hf. cbn [obind].
  assert (payloadEvents d (payloadOf (OutBlockStart (p_next s) blk) raw) = (d <| sd_open := <[p_next s := ty]> (sd_open d) |>, es')) as Hev.
  { unfold payloadEvents. cbn. exact Hbs. }
  rewrite Hev in Hp. do 2 eexists. exists [q]. do 2 eexists. exists m'. split; [reflexivity|]. split; [done|].
  split; [by apply readAll_one|]. split; [|done].
  eapply asim_next; eauto; cbn; try congruence.
  - intros i. cbn. unfold const. rewrite B6, elem_of_union, elem_of_singleton. destruct (decide (i = p_next s)) as [->|Hne].
    + rewrite !lookup_insert_eq. split; eauto.
    + rewrite !lookup_insert_ne, <- H5 by congruence. tauto.
  - intros i. cbn. unfold const. destruct (decide (i = p_next s)) as [->|Hne].
    + rewrite !lookup_insert_eq. split; eauto.
    + rewrite !lookup_insert_ne by congruence. apply H6.
Qed.

Lemma blockOf_text e p : pt_Type p = PartTypeText -> blockOf e p = (e, Some OutText).
Proof. intros H. unfold blockOf. by rewrite H. Qed.
Lemma blockOf_reasoning e p : pt_Type p = PartTypeReasoning -> blockOf e p = (e, Some OutThinking).
Proof. intros H. unfold blockOf. by rewrite H. Qed.

Lemma msg_callID_valid (n : Z) : ValidString ("call_" ++ pretty n)%string = true.
Proof. apply ascii_valid. rewrite ascii7_app, pretty_Z_ascii7. done. Qed.

Lemma opens_other p : opens p = true -> pt_Type p <> PartTypeToolCall -> pt_ToolCall p = None.
Proof.
  unfold opens. intros Hp Hne. destruct (pt_Type p); try done; apply andb_true_iff in Hp as [_ Hp]; by apply bool_decide_eq_true in Hp.
Qed.

(** A block that is no tool call opens in silence. *)
Lemma tracks_opened m s evs evs' p es' :
  tracks m s evs evs' -> opens p = true -> pt_ToolCall p = None -> adds es' [] "" "" [] [] ->
  tracks m (opened s p) (evs ++ [StreamEventContentStart (Some (mkContentStart (p_next s) p))]) (evs' ++ es').
Proof.
  intros Ht [O1 O2]%opens_empty Hp Hadd. pose proof Ht as [T1 T2 T3 T4 T5 T6]. destruct Hadd as [A1 A2 A3 _ _].
  assert (calls [StreamEventContentStart (Some (mkContentStart (p_next s) p))] = []) as Hc by (cbn; by rewrite Hp).
  split.
  - rewrite !concat_map_app, T1, A2. cbn. by rewrite O1.
  - rewrite !concat_map_app, T2, A3. cbn. by rewrite O2.
  - unfold indexes. by rewrite !calls_app, Hc, A1, !app_nil_r.
  - intros i i' Hm. unfold indexes. rewrite !calls_app, Hc, A1, !app_nil_r. destruct (T4 _ _ Hm) as (? & ? & ?).
    split; [cbn; lia|done].
  - rewrite !calls_app, Hc, app_nil_r. intros i q tc. cbn. destruct (decide (i = p_next s)) as [->|Hne].
    + rewrite lookup_insert_eq. intros [= <-]. congruence.
    + rewrite lookup_insert_ne by congruence. apply T5.
  - done.
Qed.

Lemma step_start_block m s e d evs evs' p :
  asim m s e d evs evs' -> tracks m s evs evs' -> live s -> opens p = true ->
  validEvent (StreamEventContentStart (Some (mkContentStart (p_next s) p))) = true ->
  stepped m (opened s p) e d evs evs' (StreamEventContentStart (Some (mkContentStart (p_next s) p))).
Proof.
  intros Ha Ht Hl Hp Hval. pose proof Ha as [H1 H2 H3 H4 H5 H6 H7 H8 H9 H10 H11 H12 H13 H14].
  destruct (decide (pt_Type p = PartTypeToolCall)) as [Ety|Ety].
  - unfold opens in Hp. rewrite Ety in Hp. destruct (pt_ToolCall p) as [tc|] eqn:Etc; [|done]. apply String.eqb_eq in Hp.
    cbn in Hval. rewrite Etc in Hval. apply andb_true_iff in Hval as [V1 V2].
    set (id := if String.eqb (tc_ID tc) "" then ("call_" ++ pretty (nTools e + 1))%string else tc_ID tc).
    set (es' := [contentStart (p_next s) (toolPart id (tc_Name tc))]).
    assert (adds es' [(p_next s, (id, tc_Name tc, ""))] "" "" [] []) as Hadd by done.
    assert (p_next s ∉ indexes evs') as Hout by (intros H%H8; lia).
    destruct (blockOf e p) as [e1 blk] eqn:Eb.
    assert (blk = Some (OutToolUse id (tc_Name tc)) /\ (se_done e1 = se_done e /\ erred e1 = erred e /\ se_started e1 = se_started e /\ se_id e1 = se_id e
      /\ se_model e1 = se_model e /\ se_open e1 = se_open e /\ se_finish e1 = se_finish e /\ se_usage e1 = se_usage e)) as [-> Hsame].
    { unfold blockOf in Eb. rewrite Ety, Etc in Eb. subst id. destruct (String.eqb (tc_ID tc) ""); by injection Eb as <- <-. }
    eapply (stepped_open m (<[p_next s := p_next s]> m) s e d evs evs' p _ e1 es'); eauto.
    + cbn. rewrite V2, andb_true_r. subst id. destruct (String.eqb _ _); [apply msg_callID_valid|done].
    + intros raw Hraw. eexists. unfold blockStart. rewrite Hraw. reflexivity.
    + intros i i'. destruct (decide (i = p_next s)) as [->|Hne]; [rewrite lookup_insert_eq; congruence|].
      rewrite lookup_insert_ne by congruence. apply H7.
    + intros i. rewrite (indexes_snoc _ _ _ _ (ad_calls _ _ _ _ _ _ Hadd)), bool_decide_false by done.
      intros [H%H8|H%list_elem_of_singleton]%elem_of_app; lia.
    + eapply tracks_tool; try done. subst id. by destruct (String.eqb_spec (tc_ID tc) "").
  - pose proof (opens_other p Hp Ety) as Hn. unfold opens in Hp.
    assert (exists blk q, blockOf e p = (e, Some blk) /\ validFrame (OutBlockStart (p_next s) blk) = true
      /\ adds [contentStart (p_next s) q] [] "" "" [] []
      /\ forall raw, unmarshalBlock raw = blockFields blk ->
         exists ty, blockStart d (p_next s) raw = (d <| sd_open := <[p_next s := ty]> (sd_open d) |>, [contentStart (p_next s) q]))
      as (blk & q & Hb & Hvf & Hadd & Hread).
    { destruct (pt_Type p) eqn:E; try done; do 2 eexists.
      - split; [by apply blockOf_text|]. split; [done|]. split; [|intros raw Hr; eexists; unfold blockStart; rewrite Hr; reflexivity]. done.
      - split; [by apply blockOf_reasoning|]. split; [done|]. split; [|intros raw Hr; eexists; unfold blockStart; rewrite Hr; reflexivity]. done. }
    eapply (stepped_open m m s e d evs evs' p blk e _); [done|done|exact Hb|done|done|exact Hread|apply Hadd|apply Hadd|done| |].
    + intros i. rewrite indexes_quiet by apply Hadd. intros H%H8. lia.
    + by apply tracks_opened.
Qed.

(** The start frame, if it has not been sent. *)
Lemma start_reads e (d : streamDecoder) :
  ValidString (se_id e) = true /\ ValidString (se_model e) = true -> sd_done d = false ->
  exists e1 b ps d1 es, start e = (e1, Ok b) /\ frames b ps /\ readAll d ps = Some (d1, es) /\ silent es
    /\ (se_done e1 = se_done e /\ erred e1 = erred e /\ se_started e1 = true /\ se_open e1 = se_open e
        /\ se_finish e1 = se_finish e /\ se_usage e1 = se_usage e)
    /\ (ValidString (se_id e1) = true /\ ValidString (se_model e1) = true)
    /\ sd_done d1 = false /\ sd_open d1 = sd_open d /\ (inputTokens d = 0 -> inputTokens d1 = 0).
Proof.
  intros [V1 V2] Hd. unfold start. destruct (se_started e) eqn:Es.
  { exists e, "", [], d, []. split; [done|]. split; [apply frames_nil|]. done. }
  match goal with |- context [(?x, frame "message_start" _)] => set (e1 := x) end.
  match goal with |- context [frame "message_start" ?f] => set (fr := f) end.
  assert (ValidString (se_id e1) = true /\ ValidString (se_model e1) = true) as Hv.
  { subst e1. destruct e as [id mo st er dn op nt fi us]; cbn in *. by destruct (String.eqb id ""). }
  destruct (frame_reads "message_start" fr d) as (b & p & raw & Hf & Hfr & Hp & _); [done| |done|].
  { change (ValidString (se_id e1) && ValidString (se_model e1) = true). destruct Hv as [-> ->]. done. }
  rewrite Hf. exists e1, b, [p]. do 2 eexists. split; [done|]. split; [done|]. split; [by apply readAll_one|].
  split; [done|]. split; [|done]. subst e1. destruct e as [id mo st er dn op nt fi us]; cbn in *. by destruct (String.eqb id "").
Qed.

(** The terminal frames. *)
Lemma step_done m s e d evs evs' :
  asim m s e d evs evs' -> tracks m s evs evs' -> p_done s = false -> p_open s = ∅ ->
  stepped m (mkProtocol (p_started s) (p_next s) ∅ true) e d evs evs' StreamEventDone.
Proof.
  intros Ha Ht Hd Hopen. pose proof Ha as [H1 H2 H3 H4 H5 H6 H7 H8 H9 H10 H11 H12 H13 H14].
  destruct (start_reads e d H9) as (e1 & b1 & ps1 & d1 & es1 & Hst & Hf1 & Hr1 & Hs1 & (S1 & S2 & S3 & S4 & S5 & S6) & Hv1 & Hd1 & Ho1 & Hi1);
    [congruence|].
  unfold stepped, event. rewrite H1, Hd, H2. cbn [orb]. unfold terminal. rewrite Hst.
  assert (se_open e1 = ∅) as ->.
  { rewrite S4. apply set_eq. intros i. rewrite H5, Hopen, lookup_empty. split; [by intros []|set_solver]. }
  change (sortedIndexes ∅) with (@nil Z). cbn [stopFrames]. cbv zeta.
  set (stop := match se_finish e with Some f => anthropicFinishCanonical (sf_FinishReason f) | None => "end_turn" end).
  set (output := match se_usage e with Some u => OutputTokens u | None => 0 end).
  set (input := match se_usage e with Some u => if 0 <? InputTokens u then Some (InputTokens u) else None | None => None end).
  assert (messageDeltaFrame e1 = OutMessageDelta stop output input) as -> by (unfold messageDeltaFrame; by rewrite S5, S6).
  assert (canonicalFinish stop = plainFinish (default FinishReasonStop (last (omap finishReason evs))) /\ ValidString stop = true /\ stop <> "")
    as (Hstop & Hvs & Hsne).
  { subst stop. rewrite <- H11. by destruct (se_finish e) as [[[] ?]|]. }
  destruct (frame_reads "message_delta" (OutMessageDelta stop output input) d1) as (b2 & p2 & raw2 & Hf2 & Hfr2 & Hp2 & Hraw2); [done|done|done|].
  set (told := match usageAfter None evs with
               | Some u => omap usageTokens (usageEvent (if 0 <? InputTokens u then InputTokens u else 0) (OutputTokens u))
               | None => [] end).
  assert (exists d2 es2, payloadEvents d1 (payloadOf (OutMessageDelta stop output input) raw2) = (d2, es2)
    /\ sd_done d2 = false /\ sd_open d2 = ∅ /\ adds es2 [] "" "" [canonicalFinish stop] told) as (d2 & es2 & Hev2 & Hd2 & Ho2 & Hadd2).
  { change (payloadEvents d1 (payloadOf (OutMessageDelta stop output input) raw2))
      with (messageDelta d1 (payloadOf (OutMessageDelta stop output input) raw2)).
    unfold messageDelta. cbn [payloadOf ap_Delta ap_Usage au_InputTokens au_OutputTokens]. rewrite Hraw2.
    apply String.eqb_neq in Hsne. rewrite Hsne. 
    assert (sd_open d1 = ∅) as Hempty.
    { rewrite Ho1. apply map_empty. intros i. apply eq_None_not_Some. rewrite H6, Hopen, lookup_empty. by intros []. }
    specialize (Hi1 (H10 Hd)). do 2 eexists. split; [reflexivity|].
    destruct d1 as [sc it op dn]. cbn in Hempty, Hi1, Hd1. subst op it dn. subst told output input. rewrite <- H12.
    assert (sortedIndexes (dom (∅ : gmap Z PartType)) = []) as Hnil by done.
    destruct (se_usage e) as [u|]; [|done]. cbn. destruct (Z.ltb_spec 0 (InputTokens u)) as [Hl|Hl]; cbn.
    - apply Z.ltb_lt in Hl. rewrite Hl. cbn. unfold const. rewrite Hnil. split; [done|]. split; [done|].
      unfold usageEvent. by destruct (_ || _).
    - unfold const. rewrite Hnil. split; [done|]. split; [done|]. unfold usageEvent. by destruct (_ || _). }
  rewrite Hev2 in Hp2. cbn [fst snd] in Hp2.
  destruct (frame_reads "message_stop" OutMessageStop d2) as (b3 & p3 & raw3 & Hf3 & Hfr3 & Hp3 & _); [done|done|done|].
  assert (exists d3 es3, payloadEvents d2 (payloadOf OutMessageStop raw3) = (d3, es3) /\ sd_done d3 = true
    /\ sd_open d3 = ∅ /\ silent es3) as (d3 & es3 & Hev3 & Hd3 & Ho3 & Hs3).
  { change (payloadEvents d2 (payloadOf OutMessageStop raw3)) with (finish d2). unfold finish. rewrite Hd2.
    do 2 eexists. split; [reflexivity|]. split; [done|]. split; [done|]. cbn. by rewrite Ho2. }
  rewrite Hev3 in Hp3. cbn [fst snd] in Hp3.
  assert (adds (es1 ++ es2 ++ es3) [] "" "" [canonicalFinish stop] told) as Hadd.
  { apply adds_silent; [done|]. destruct Hs3 as [G1 G2 G3 G4 G5], Hadd2 as [A1 A2 A3 A4 A5].
    split; rewrite ?calls_app, ?concat_map_app, ?omap_app; by rewrite ?G1, ?G2, ?G3, ?G4, ?G5, ?A1, ?A2, ?A3, ?A4, ?A5, ?app_nil_r. }
  rewrite Hf2, Hf3. do 2 eexists. exists (ps1 ++ [p2] ++ [p3]). do 2 eexists. exists m.
  split; [reflexivity|]. split; [apply frames_app; [done|]; by apply (frames_app b2 b3)|].
  split. { eapply readAll_app; [done|]. eapply readAll_app; by apply readAll_one. }
  split; [|eapply tracks_adds; eauto; try apply Hadd; cbn; [lia|]; intros i q H; by rewrite lookup_empty in H].
  split; cbn; try done.
  - congruence.
  - intros i. rewrite lookup_empty. set_solver.
  - intros i. rewrite Ho3, !lookup_empty. split; by intros [].
  - intros i. rewrite indexes_quiet by apply Hadd. apply H8.
  - rewrite omap_app. cbn. rewrite app_nil_r, S5. done.
  - unfold usageAfter. rewrite fold_left_app, S6. done.
  - rewrite omap_app, H13, Hd. cbn. rewrite (ad_finish _ _ _ _ _ _ Hadd), Hstop, omap_app. cbn. by rewrite app_nil_r.
  - rewrite omap_app, H14, Hd. cbn. rewrite (ad_usage _ _ _ _ _ _ Hadd). unfold usageAfter at 1. by rewrite fold_left_app.
Qed.

(** A block that ends. *)
Lemma step_end m s e d evs evs' i :
  asim m s e d evs evs' -> tracks m s evs evs' -> p_done s = false -> is_Some (p_open s !! i) ->
  stepped m (mkProtocol (p_started s) (p_next s) (delete i (p_open s)) false) e d evs evs' (StreamEventContentEnd (Some i)).
Proof.
  intros Ha Ht Hd Hi. pose proof Ha as [H1 H2 H3 H4 H5 H6 H7 H8 H9 H10 H11 H12 H13 H14].
  destruct (frame_reads "content_block_stop" (OutBlockStop i) d) as (b & p & raw & Hf & Hfr & Hp & _); [done|done|congruence|].
  unfold stepped, event. rewrite H1, Hd, H2. cbn [orb]. unfold isOpen. rewrite (bool_decide_true _ (proj2 (H5 i) Hi)), Hf. cbn [negb].
  destruct (proj2 (H6 i) Hi) as [ty Hty].
  assert (payloadEvents d (payloadOf (OutBlockStop i) raw)
    = (d <| sd_open := delete i (sd_open d) |>, [StreamEventContentEnd (Some i)])) as Hev.
  { unfold payloadEvents. cbn. by rewrite Hty. }
  rewrite Hev in Hp. do 2 eexists. exists [p]. do 2 eexists. exists m. split; [reflexivity|]. split; [done|].
  split; [by apply readAll_one|].
  split; [|eapply tracks_quiet; eauto; cbn; [lia|]; by intros j q [_ ?]%lookup_delete_Some].
  eapply asim_next; eauto; cbn; unfold const.
  - intros j. rewrite elem_of_difference, elem_of_singleton, H5. destruct (decide (j = i)) as [->|Hne].
    + rewrite lookup_delete_eq. split; [tauto|by intros []].
    + rewrite lookup_delete_ne by congruence. tauto.
  - intros j. destruct (decide (j = i)) as [->|Hne].
    + rewrite !lookup_delete_eq. split; by intros [].
    + rewrite !lookup_delete_ne by congruence. apply H6.
  - rewrite indexes_quiet by done. apply H8.
Qed.

(** Events that only change what the encoder holds. *)
Lemma step_held m s e d evs evs' ev e' :
  asim m s e d evs evs' -> tracks m s evs evs' -> p_done s = false -> event e ev = (e', Ok "") ->
  se_done e' = se_done e -> erred e' = erred e -> se_started e' = se_started e -> se_open e' = se_open e ->
  se_id e' = se_id e -> se_model e' = se_model e ->
  sf_FinishReason <$> se_finish e'
    = match ev with StreamEventFinish (Some f) => Some (sf_FinishReason f) | _ => sf_FinishReason <$> se_finish e end ->
  se_usage e' = match ev with StreamEventUsage (Some u) => Some u | _ => se_usage e end ->
  touched ev = None -> eventText ev = "" -> reasoningText ev = "" ->
  stepped m s e d evs evs' ev.
Proof.
  intros Ha Ht Hd He E1 E2 E3 E4 E5 E6 Ef Eu T1 T2 T3. pose proof Ha as [H1 H2 H3 H4 H5 H6 H7 H8 H9 H10 H11 H12 H13 H14].
  exists e', "", [], d, [], m. split; [done|]. split; [apply frames_nil|]. split; [done|]. split.
  - eapply asim_next; eauto; rewrite ?app_nil_r, ?E4, ?E5, ?E6, ?E3; auto.
  - eapply (tracks_adds _ _ _ _ _ _ [] "" "" [] []); eauto; try done.
Qed.

Lemma messages_step m s e d evs evs' ev s' :
  asim m s e d evs evs' -> tracks m s evs evs' -> accept true s ev = Some s' -> noError ev = true -> validEvent ev = true ->
  stepped m s' e d evs evs' ev.
Proof.
  intros Ha Ht Hacc Hne Hval. pose proof Ha as [H1 H2 H3 H4 H5 H6 H7 H8 H9 H10 H11 H12 H13 H14].
  pose proof (accept_inv _ _ _ _ Hacc) as [Hd H].
  destruct ev as [[x|]|[cs|]|[td|]|[td|]|[td|]|[i|]|[u|]|[f|]|[x|]|]; try done.
  - subst s'. cbn in Hval. apply andb_true_iff in Hval as [V1 V2]. unfold stepped, event. rewrite H1, Hd, H2. cbn [orb].
    match goal with |- context [start ?y] => set (e0 := y) end.
    assert (se_done e0 = se_done e /\ erred e0 = erred e /\ se_open e0 = se_open e /\ se_finish e0 = se_finish e
      /\ se_usage e0 = se_usage e /\ ValidString (se_id e0) = true /\ ValidString (se_model e0) = true)
      as (F1 & F2 & F3 & F4 & F5 & F6 & F7).
    { subst e0. destruct H9. by destruct (String.eqb (st_ID x) ""), (String.eqb (st_Model x) ""). }
    destruct (start_reads e0 d (conj F6 F7))
      as (e1 & b1 & ps1 & d1 & es1 & Hst & Hf1 & Hr1 & Hs1 & (S1 & S2 & S3 & S4 & S5 & S6) & Hv1 & Hd1 & Ho1 & Hi1); [congruence|].
    rewrite Hst. exists e1, b1, ps1, d1, es1, m. split; [done|]. split; [done|]. split; [done|]. destruct Hs1 as [G1 G2 G3 G4 G5].
    split; [|eapply tracks_quiet; eauto; cbn; done || lia].
    eapply asim_next; eauto; cbn; rewrite ?S4, ?S5, ?S6, ?F3, ?F4, ?F5, ?Ho1; try done; try congruence.
    + by rewrite (Hi1 (H10 Hd)), (H10 Hd).
    + rewrite indexes_quiet by done. apply H8.
  - destruct H as (Hs & Hn & Hp & ->). destruct cs as [i p]. cbn [cs_Index cs_Part] in *. subst i. by apply step_start_block.
  - destruct H as (Hs & Ho & Hx & ->). apply String.eqb_neq in Hx.
    assert (adds (deltaEvents (tdl_Index td) (deltaFields (OutTextDelta (tdl_Text td)))) [] (tdl_Text td) "" [] []) as Hadd
      by (unfold deltaEvents; cbn; by rewrite Hx).
    eapply (stepped_delta _ _ _ _ _ _ _ (tdl_Index td) (OutTextDelta (tdl_Text td))); eauto; try done.
    + unfold event. rewrite H1, Hd, H2. cbn [orb]. by rewrite Hx.
    + by eapply openAs_some.
    + intros new' Hnew. eapply tracks_adds; eauto. lia.
    + intros j. rewrite indexes_quiet by apply Hadd. apply H8.
  - destruct H as (Hs & Ho & Hx & Hr & ->). specialize (Hr eq_refl). apply String.eqb_neq in Hx. cbn in Hval.
    apply andb_true_iff in Hval as [_ V]. pose proof (openAs_some _ _ _ Ho) as [p Hp].
    pose proof Ho as Ho'. unfold openAs in Ho'. rewrite Hp in Ho'. apply bool_decide_eq_true in Ho'.
    pose proof Hr as Hr'. unfold repeats in Hr'. rewrite Hp in Hr'. cbn in Hr'. destruct (pt_ToolCall p) as [tc|] eqn:Etc; [|done].
    destruct (tk_open _ _ _ _ Ht _ _ _ Hp Ho' Etc) as ([k Hk] & _). pose proof (H7 _ _ Hk) as ->.
    assert (adds (deltaEvents (tcd_Index td) (deltaFields (OutInputJSON (tcd_ArgumentsDelta td))))
      [(tcd_Index td, ("", "", tcd_ArgumentsDelta td))] "" "" [] []) as Hadd by (unfold deltaEvents; cbn; by rewrite Hx).
    destruct (tk_calls _ _ _ _ Ht _ _ Hk) as (_ & Hin & _).
    destruct (tracks_image _ _ _ _ _ Ht Hin) as (k' & Hk' & Hin'). rewrite Hk in Hk'. injection Hk' as <-.
    eapply (stepped_delta _ _ _ _ _ _ _ (tcd_Index td) (OutInputJSON (tcd_ArgumentsDelta td))); eauto; try done.
    + unfold event. rewrite H1, Hd, H2. cbn [orb]. by rewrite Hx.
    + intros new' Hnew. eapply tracks_args; eauto; apply Hnew.
    + intros j. rewrite (indexes_snoc _ _ _ _ (ad_calls _ _ _ _ _ _ Hadd)), bool_decide_true by done. apply H8.
  - destruct H as (Hs & Ho & Hx & ->). apply String.eqb_neq in Hx.
    assert (adds (deltaEvents (rdl_Index td) (deltaFields (OutThinkingDelta (rdl_Text td)))) [] "" (rdl_Text td) [] []) as Hadd
      by (unfold deltaEvents; cbn; by rewrite Hx).
    eapply (stepped_delta _ _ _ _ _ _ _ (rdl_Index td) (OutThinkingDelta (rdl_Text td))); eauto; try done.
    + unfold event. rewrite H1, Hd, H2. cbn [orb]. by rewrite Hx.
    + by eapply openAs_some.
    + intros new' Hnew. eapply tracks_adds; eauto. lia.
    + intros j. rewrite indexes_quiet by apply Hadd. apply H8.
  - destruct H as [Hi ->]. by apply step_end.
  - subst s'. eapply step_held; [exact Ha|exact Ht|exact Hd|unfold event; rewrite H1, Hd, H2; reflexivity|done..].
  - destruct H as [Ho ->]. eapply step_held; [exact Ha|exact Ht|exact Hd|unfold event; rewrite H1, Hd, H2; reflexivity|done..].
  - destruct H as [Ho ->]. by apply step_done.
Qed.

#[export] Program Instance MessagesRenders : Renders streamEncoder streamDecoder := { rsim := asim }.
Next Obligation. intros. by eapply messages_step. Qed.
Next Obligation.
  intros m s e d evs evs' [H1 H2 H3 H4 H5 H6 H7 H8 H9 H10 H11 H12 H13 H14] Hd Hcnt. split.
  { cbn. unfold finish. by rewrite H3, Hd. }
  rewrite H13, H14, Hd. split; [done|]. rewrite <- reported_usage by done.
  destruct (usageAfter None evs) as [u|] eqn:E; [|done].
  apply usageAfter_in in E as [E|E]; [done|]. rewrite Forall_forall in Hcnt. apply list_elem_of_In, Hcnt in E. cbn in E.
  unfold usageEvent, reported. destruct (Z.ltb_spec 0 (InputTokens u)); cbn.
  - rewrite (proj2 (Z.ltb_lt 0 (InputTokens u))) by done. done.
  - replace (0 <? 0) with false by done. cbn. destruct (Z.ltb_spec 0 (OutputTokens u)); [|done]. cbn. unfold tokens. do 2 f_equal. lia.
Qed.

Lemma messages_sim_start req :
  ValidString (match req with Some r => rq_Model r | None => "" end) = true ->
  asim ∅ opening (NewStreamEncoder req) (ready NewStreamDecoder) [] [].
Proof.
  intros Hmod. split; [done|done|done|done| | | | |done|done|done|done|done|done]; cbn.
  - intros i. rewrite lookup_empty. split; [set_solver|by intros []].
  - intros i. rewrite !lookup_empty. split; by intros [].
  - intros i i' H. by rewrite lookup_empty in H.
  - by intros i ?%not_elem_of_nil.
Qed.

(** ** The decoder's events are UTF-8 *)

Lemma msg_ends_valid l : forallb validEvent (List.map (fun i => StreamEventContentEnd (Some i)) l) = true.
Proof. by induction l. Qed.

Lemma deltaEvents_valid i raw : forallb validEvent (deltaEvents i (unmarshalDelta raw)) = true.
Proof.
  destruct (unmarshal_delta_valid raw) as (V1 & V2 & V3). unfold deltaEvents.
  repeat match goal with |- context [if ?b then _ else _] => destruct b end; try done; cbn; by rewrite ?V1, ?V2, ?V3.
Qed.

Lemma usageEvent_valid i o : forallb validEvent (usageEvent i o) = true.
Proof. unfold usageEvent. by destruct (_ || _). Qed.

Lemma finish_utf8 d : forallb validEvent (finish d).2 = true.
Proof. unfold finish. destruct (sd_done d); [done|]. cbn. by rewrite forallb_app, msg_ends_valid. Qed.

#[export] Program Instance MessagesUtf8 : Utf8 streamDecoder.
Next Obligation.
  intros d data d' es. cbn [payload MessagesDecoder]. unfold messagesPayload. destruct (sd_done d); [by intros [= <- <-]|].
  destruct (unmarshalPayload data) as [err|p] eqn:E; [done|]. destruct (unmarshal_payload_valid _ _ E) as [V1 V2].
  intros H. assert (es = (payloadEvents d p).2) as -> by (by destruct (payloadEvents d p); injection H as <- <-). clear H.
  unfold payloadEvents.
  destruct (String.eqb (ap_Type p) "message_start"); [cbn; by rewrite V1, V2, usageEvent_valid|].
  destruct (String.eqb (ap_Type p) "content_block_start").
  { unfold blockStart. destruct (unmarshal_block_valid (ap_ContentBlock p)) as (B1 & B2 & B3).
    repeat match goal with |- context [if ?b then _ else _] => destruct b end; cbn; by rewrite ?B1, ?B2. }
  destruct (String.eqb (ap_Type p) "content_block_delta").
  { unfold blockDelta. destruct (sd_open d !! _); [apply deltaEvents_valid|]. unfold deltaPart.
    repeat match goal with |- context [if ?b then _ else _] => destruct b end; cbn; by rewrite ?deltaEvents_valid. }
  destruct (String.eqb (ap_Type p) "content_block_stop"); [by destruct (sd_open d !! _)|].
  destruct (String.eqb (ap_Type p) "message_delta").
  { unfold messageDelta. destruct (String.eqb (unmarshalStop _) ""); cbn; rewrite ?forallb_app, usageEvent_valid; [done|].
    cbn. by rewrite msg_ends_valid. }
  destruct (String.eqb (ap_Type p) "message_stop"); [apply finish_utf8|]. by destruct (String.eqb (ap_Type p) "error").
Qed.
Next Obligation. intros d d' es. cbn. pose proof (finish_utf8 d) as H. destruct (finish d). intros [= <- <-]. exact H. Qed.

End Back.

(** ** What a stream event says

    The text a block opens with counts as text. *)
Section Said.
Context {MJ : MessagesJson}.

Definition stopSays (stop : string) : said :=
  mkSaid "" "" "" (if String.eqb stop "" then [] else [canonicalFinish stop]).

Definition messagesSays (data : string) : said :=
  match unmarshalPayload data with
  | inl _ => nothing
  | inr p =>
      if String.eqb (ap_Type p) "content_block_start" then
        let block := unmarshalBlock (ap_ContentBlock p) in
        if String.eqb (bk_Type block) "text" then mkSaid (bk_Text block) "" "" [] else nothing
      else if String.eqb (ap_Type p) "content_block_delta" then
        let delta := unmarshalDelta (ap_Delta p) in
        if String.eqb (bd_Type delta) "text_delta" then mkSaid (bd_Text delta) "" "" []
        else if String.eqb (bd_Type delta) "input_json_delta" then mkSaid "" "" (bd_PartialJSON delta) []
        else if String.eqb (bd_Type delta) "thinking_delta" then mkSaid "" (bd_Thinking delta) "" []
        else nothing
      else if String.eqb (ap_Type p) "message_delta" then stopSays (unmarshalStop (ap_Delta p))
      else nothing
  end.

Definition messagesLast (data : string) : bool :=
  match unmarshalPayload data with inr p => String.eqb (ap_Type p) "message_stop" | inl _ => false end.

Lemma usage_says i o : says (usageEvent i o) = nothing.
Proof. unfold usageEvent. by destruct (_ || _). Qed.

Lemma messages_finish_says d : says (finish d).2 = nothing /\ sd_done (finish d).1 = true.
Proof.
  unfold finish. destruct (sd_done d) eqn:E; [done|]. cbn [fst snd closeOpen]. by rewrite says_app, says_ends.
Qed.

Lemma blockStart_says d i raw : let block := unmarshalBlock raw in
  says (blockStart d i raw).2 = (if String.eqb (bk_Type block) "text" then mkSaid (bk_Text block) "" "" [] else nothing)
  /\ sd_done (blockStart d i raw).1 = sd_done d.
Proof.
  cbv zeta. unfold blockStart. destruct (unmarshalBlock raw) as [ty id name text]. cbn [bk_Type bk_Text].
  destruct (String.eqb ty "text"); [done|]. destruct (String.eqb ty "tool_use"); [done|]. by destruct (String.eqb ty "thinking").
Qed.

Lemma blockDelta_says d i raw : let delta := unmarshalDelta raw in
  says (blockDelta d i raw).2
  = (if String.eqb (bd_Type delta) "text_delta" then mkSaid (bd_Text delta) "" "" []
     else if String.eqb (bd_Type delta) "input_json_delta" then mkSaid "" "" (bd_PartialJSON delta) []
     else if String.eqb (bd_Type delta) "thinking_delta" then mkSaid "" (bd_Thinking delta) "" [] else nothing)
  /\ sd_done (blockDelta d i raw).1 = sd_done d.
Proof.
  cbv zeta. unfold blockDelta, deltaPart, deltaEvents. set (delta := unmarshalDelta raw). clearbody delta.
  destruct delta as [ty t j k]. cbn [bd_Type bd_Text bd_PartialJSON bd_Thinking].
  destruct (String.eqb_spec ty "text_delta") as [->|]; cbn [String.eqb].
  { destruct (sd_open d !! i), (String.eqb_spec t "") as [->|]; split; done. }
  destruct (String.eqb_spec ty "input_json_delta") as [->|].
  { destruct (sd_open d !! i), (String.eqb_spec j "") as [->|]; split; done. }
  destruct (String.eqb_spec ty "thinking_delta") as [->|].
  { destruct (sd_open d !! i), (String.eqb_spec k "") as [->|]; split; done. }
  by destruct (sd_open d !! i).
Qed.

Lemma messageDelta_says d p :
  says (messageDelta d p).2 = stopSays (unmarshalStop (ap_Delta p)) /\ sd_done (messageDelta d p).1 = sd_done d.
Proof.
  unfold messageDelta, stopSays. cbv zeta. destruct (String.eqb (unmarshalStop _) ""); cbn [fst snd closeOpen].
  - rewrite says_app, usage_says. by destruct (0 <? _).
  - rewrite !says_app, says_ends, usage_says. by destruct (0 <? _).
Qed.

#[export] Program Instance MessagesReads : Reads streamDecoder := {
  over := sd_done;
  saidIn := messagesSays;
  lastIn := messagesLast;
}.
Next Obligation. done. Qed.
Next Obligation. done. Qed.
Next Obligation.
  intros d data d' es H. cbn [payload MessagesDecoder]. unfold messagesPayload, messagesSays, messagesLast. rewrite H.
  destruct (unmarshalPayload data) as [err|p]; [done|]. destruct (payloadEvents d p) as [d1 es1] eqn:E. intros [= <- <-].
  assert (es1 = (payloadEvents d p).2 /\ d1 = (payloadEvents d p).1) as [-> ->] by (by rewrite E). clear E. revert H.
  unfold payloadEvents. destruct (String.eqb_spec (ap_Type p) "message_start") as [->|].
  { intros H. cbn [fst snd String.eqb]. change (?x :: usageEvent ?i ?o) with ([x] ++ usageEvent i o). by rewrite says_app, usage_says. }
  destruct (String.eqb_spec (ap_Type p) "content_block_start") as [->|].
  { intros H. cbn [String.eqb]. destruct (blockStart_says d (ap_Index p) (ap_ContentBlock p)) as [-> ->]. done. }
  destruct (String.eqb_spec (ap_Type p) "content_block_delta") as [->|].
  { intros H. cbn [String.eqb]. destruct (blockDelta_says d (ap_Index p) (ap_Delta p)) as [-> ->]. done. }
  destruct (String.eqb_spec (ap_Type p) "content_block_stop") as [->|].
  { intros H. by destruct (sd_open d !! _). }
  destruct (String.eqb_spec (ap_Type p) "message_delta") as [->|].
  { intros H. destruct (messageDelta_says d p) as [-> ->]. done. }
  destruct (String.eqb_spec (ap_Type p) "message_stop") as [_|].
  { intros H. destruct (messages_finish_says d) as [-> ->]. done. }
  intros H. by destruct (String.eqb (ap_Type p) "error").
Qed.
Next Obligation. intros d data H. cbn in *. unfold messagesPayload. by rewrite H. Qed.
Next Obligation. intros d. apply messages_finish_says. Qed.

End Said.

End MessagesStream.
