(* ===== verification/GeminiStream.v ===== *)
(** * The Gemini stream

    [src/internal/extproc/llmcall/providers/google/stream.go]: the decoder of the
    [:streamGenerateContent] event stream, whose tool calls arrive whole, and the
    encoder, which buffers the argument bytes of a tool call until its block ends.
    The JSON engine is a parameter. *)

From Stdlib Require Import ZArith Lia NArith Ascii String List.
From stdpp Require Import base strings list gmap pretty.
From coqutil Require Import Datatypes.RecordSettersUsingExistingGetters.
From S2P Require Import Prelude GoStrings GoStd Registry LlmCall Sse StreamCodec StreamContent.
Import GoStrings GoStd LlmCall Sse StreamCodec StreamContent.

#[local] Open Scope string_scope.
#[local] Open Scope Z_scope.
#[local] Open Scope list_scope.

Module GeminiStream.

(** ** Wire shapes *)

Record gemPart := mkGemPart { gp_Text : option string; gp_Thought : bool; gp_FunctionCall : string }.

Record gemCandidate := mkCandidate { gc_Parts : list gemPart; gc_FinishReason : string; gc_Index : Z }.

Record gemChunk := mkGemChunk {
  gk_ResponseID : string;
  gk_ModelVersion : string;
  gk_Candidates : list gemCandidate;
  gk_UsageMetadata : option (Z * Z);
  gk_Error : string;
}.

(** The members of a [functionCall] object and of an error object. *)
Record gemCall := mkGemCall { fc_Name : string; fc_Args : string }.
Record gemError := mkGemError { ge_Message : string; ge_Status : string }.

(** The payload maps the encoder builds: the parts, the finish reason if any, the
    identifiers if known, and the usage of the terminal frame. *)
Inductive outPart := OutText (t : string) | OutThought (t : string) | OutCall (name args : string).
Inductive outFrame :=
| OutResponse (parts : list outPart) (finishReason id model : string) (usage : option (Z * Z * Z))
| OutError (code : Z) (message status : string).

(** The error of a [functionCall] is dropped with its part, that of an error object
    is ignored. *)
(** [quote] is the [%q] of an error text. *)
Class GeminiJson := {
  quote : string -> string;
  unmarshalChunk : string -> string + gemChunk;
  unmarshalError : string -> gemError;
  unmarshalCall : string -> option gemCall;
  CompactRaw : string -> string + string;
  marshalFrame : outFrame -> string + string;
}.

(** ** Finish reasons *)

Definition canonicalFinish (s : string) : FinishReason :=
  if String.eqb s "STOP" then FinishReasonStop
  else if String.eqb s "MAX_TOKENS" then FinishReasonLength
  else if existsb (String.eqb s) ["SAFETY"; "RECITATION"; "BLOCKLIST"; "PROHIBITED_CONTENT"; "SPII"]
  then FinishReasonContentFilter
  else if String.eqb s "MALFORMED_FUNCTION_CALL" then FinishReasonError
  else FinishReasonUnset.

Definition googleFinishCanonical (fr : FinishReason) : string :=
  match fr with
  | FinishReasonLength => "MAX_TOKENS"
  | FinishReasonContentFilter => "SAFETY"
  | FinishReasonError => "MALFORMED_FUNCTION_CALL"
  | _ => "STOP"
  end.

Section Codec.
Context {GJ : GeminiJson}.

(** ** The decoder *)

Record streamDecoder := mkDecoder {
  gd_scan : SSEScanner;
  started : bool;
  done : bool;
  next : Z;
  textIdx : Z;
  reasIdx : Z;
  inited : bool;
  open : list Z;
}.

Definition NewStreamDecoder : streamDecoder := mkDecoder newScanner false false 0 0 0 false [].

Definition init (d : streamDecoder) : streamDecoder :=
  if inited d then d else d <| inited := true |> <| textIdx := -1 |> <| reasIdx := -1 |>.

Definition contentStart (i : Z) (p : Part) : StreamEvent := StreamEventContentStart (Some (mkContentStart i p)).

Definition openBlock (d : streamDecoder) : streamDecoder :=
  d <| next := next d + 1 |> <| open := open d ++ [next d] |>.

(** The arguments of a whole call: none, or text that is no JSON, is an empty
    object. *)
Definition callArgs (fc : gemCall) : string :=
  if String.eqb (fc_Args fc) "" then "{}"
  else match CompactRaw (fc_Args fc) with inr c => c | inl _ => "{}" end.

Definition functionCall (d : streamDecoder) (raw : string) : streamDecoder * list StreamEvent :=
  match unmarshalCall raw with
  | None => (d, [])
  | Some fc =>
      let idx := next d in
      (d <| next := idx + 1 |>,
       [contentStart idx (toolPart "" (fc_Name fc));
        StreamEventToolCallDelta (Some (mkToolCallDelta idx "" (fc_Name fc) (callArgs fc)));
        StreamEventContentEnd (Some idx)])
  end.

Definition part (d : streamDecoder) (p : gemPart) : streamDecoder * list StreamEvent :=
  if negb (String.eqb (gp_FunctionCall p) "") then functionCall d (gp_FunctionCall p)
  else
    match gp_Text p with
    | None => (d, [])
    | Some t =>
        if String.eqb t "" then (d, [])
        else if gp_Thought p then
          let '(d, out) := if reasIdx d <? 0
                           then (openBlock d <| reasIdx := next d |>, [contentStart (next d) reasoningPart])
                           else (d, []) in
          (d, out ++ [StreamEventReasoningDelta (Some (mkReasoningDelta (reasIdx d) t))])
        else
          let '(d, out) := if textIdx d <? 0
                           then (openBlock d <| textIdx := next d |>, [contentStart (next d) (textPart "")])
                           else (d, []) in
          (d, out ++ [StreamEventTextDelta (Some (mkTextDelta (textIdx d) t))])
    end.

Definition closeOpen (d : streamDecoder) : streamDecoder * list StreamEvent :=
  (d <| open := [] |> <| textIdx := -1 |> <| reasIdx := -1 |>,
   List.map (fun idx => StreamEventContentEnd (Some idx)) (open d)).

Definition andThen {A} (f : streamDecoder -> A -> streamDecoder * list StreamEvent)
    (acc : streamDecoder * list StreamEvent) (a : A) : streamDecoder * list StreamEvent :=
  let '(d, out) := acc in let '(d, es) := f d a in (d, out ++ es).

Definition candidate (d : streamDecoder) (c : gemCandidate) : streamDecoder * list StreamEvent :=
  if negb (gc_Index c =? 0) then (d, [])
  else
    let '(d, out) := fold_left (andThen part) (gc_Parts c) (d, []) in
    if String.eqb (gc_FinishReason c) "" then (d, out)
    else
      let '(d, es) := closeOpen d in
      (d, out ++ es ++ [StreamEventFinish (Some (mkFinish (canonicalFinish (gc_FinishReason c)) (gc_FinishReason c)))]).

Definition finish (d : streamDecoder) : streamDecoder * list StreamEvent :=
  if done d then (d, [])
  else let '(d, es) := closeOpen (d <| done := true |>) in (d, es ++ [StreamEventDone]).

Definition chunkEvents (d : streamDecoder) (ch : gemChunk) : streamDecoder * list StreamEvent :=
  let acc := if started d then (d, [])
             else (d <| started := true |>, [StreamEventStart (Some (mkStart (gk_ResponseID ch) (gk_ModelVersion ch)))]) in
  let '(d, out) := fold_left (andThen candidate) (gk_Candidates ch) acc in
  (d, out ++ match gk_UsageMetadata ch with
             | Some (i, o) => [StreamEventUsage (Some (mkUsage i o zeroWire))]
             | None => []
             end).

Definition geminiPayload (d : streamDecoder) (data : string) : streamDecoder * (CodecError + list StreamEvent) :=
  if done d then (d, inr [])
  else
    match unmarshalChunk data with
    | inl err => (d, inl (MalformedError "google_genai" "stream chunk" (Some err)))
    | inr ch =>
        if negb (String.eqb (gk_Error ch) "") && negb (String.eqb (gk_Error ch) "null")
        then let e := unmarshalError (gk_Error ch) in
             (d, inr [StreamEventError (Some (mkStreamError (ge_Status e) (ge_Message e)))])
        else let '(d, es) := chunkEvents d ch in (d, inr es)
    end.

#[export] Instance GeminiDecoder : Decoder streamDecoder := {
  ready := init;
  scan := gd_scan;
  setScan := fun s d => d <| gd_scan := s |>;
  provider := fun _ => "google_genai";
  payload := geminiPayload;
  finishStream := finish;
}.

(** ** The encoder *)

Record streamEncoder := mkEncoder {
  ge_id : string;
  ge_model : string;
  argBuf : gmap Z string;
  names : gmap Z string;
  ge_usage : option Usage;
  ge_finish : option StreamFinish;
  ge_done : bool;
}.

Definition NewStreamEncoder (req : option Request) : streamEncoder :=
  mkEncoder "" (match req with Some r => rq_Model r | None => "" end) ∅ ∅ None None false.

Definition ContentType : string := "text/event-stream".

Definition sseFrame (f : outFrame) : outcome CodecError string :=
  match marshalFrame f with
  | inr b => Ok (AppendSSE "" "" b)
  | inl err => Err (OtherError err)
  end.

Definition frame (e : streamEncoder) (parts : list outPart) (finishReason : string) (terminal : bool)
    : outcome CodecError string :=
  let usage := if terminal
               then let '(i, o) := match ge_usage e with Some u => (InputTokens u, OutputTokens u) | None => (0, 0) end in
                    Some (i, o, int64 (i + o))
               else None in
  sseFrame (OutResponse parts finishReason (ge_id e) (ge_model e) usage).

(** The arguments of a block that ends; fragments that never formed JSON are an
    error. *)
Definition endArgs (name buf : string) : outcome CodecError string :=
  if String.eqb (TrimSpace buf) "" then Ok "{}"
  else match CompactRaw buf with
       | inr c => Ok c
       | inl err => Err (OtherError ("google_genai: tool call " ++ quote name ++ " arguments: " ++ err)%string)
       end.

(** [event]; a nil payload pointer panics. *)
Definition event (e : streamEncoder) (ev : StreamEvent) : streamEncoder * outcome CodecError string :=
  if ge_done e then (e, Ok "")
  else
    match ev with
    | StreamEventStart (Some s) =>
        let e := if String.eqb (st_ID s) "" then e else e <| ge_id := st_ID s |> in
        let e := if String.eqb (st_Model s) "" then e else e <| ge_model := st_Model s |> in
        (e, Ok "")
    | StreamEventContentStart (Some cs) =>
        if bool_decide (pt_Type (cs_Part cs) = PartTypeToolCall) then
          let e := e <| argBuf := <[cs_Index cs := ""]> (argBuf e) |> in
          (match pt_ToolCall (cs_Part cs) with
           | Some tc => e <| names := <[cs_Index cs := tc_Name tc]> (names e) |>
           | None => e
           end, Ok "")
        else (e, Ok "")
    | StreamEventTextDelta (Some d) =>
        if String.eqb (tdl_Text d) "" then (e, Ok "") else (e, frame e [OutText (tdl_Text d)] "" false)
    | StreamEventReasoningDelta (Some d) =>
        if String.eqb (rdl_Text d) "" then (e, Ok "") else (e, frame e [OutThought (rdl_Text d)] "" false)
    | StreamEventToolCallDelta (Some d) =>
        let idx := tcd_Index d in
        let e := e <| argBuf := <[idx := (default "" (argBuf e !! idx) ++ tcd_ArgumentsDelta d)%string]> (argBuf e) |> in
        (if String.eqb (tcd_Name d) "" then e else e <| names := <[idx := tcd_Name d]> (names e) |>, Ok "")
    | StreamEventContentEnd (Some idx) =>
        match argBuf e !! idx with
        | None => (e, Ok "")
        | Some buf =>
            let name := default "" (names e !! idx) in
            let e := e <| argBuf := delete idx (argBuf e) |> <| names := delete idx (names e) |> in
            (e, let! args := endArgs name buf in frame e [OutCall name args] "" false)
        end
    | StreamEventUsage (Some u) => (e <| ge_usage := Some u |>, Ok "")
    | StreamEventFinish (Some f) => (e <| ge_finish := Some f |>, Ok "")
    | StreamEventError (Some err) => (e, sseFrame (OutError 502 (se_Message err) "INTERNAL"))
    | StreamEventDone =>
        let e := e <| ge_done := true |> in
        (e, frame e [] (match ge_finish e with Some f => googleFinishCanonical (sf_FinishReason f) | None => "STOP" end) true)
    | _ => (e, Panic)
    end.

#[export] Instance GeminiEncoder : Encoder streamEncoder := { encodeEvent := event }.

End Codec.

(** ** The decoder keeps the contract *)

(** Compact JSON is never empty. *)
Class GeminiJsonLaws {GJ : GeminiJson} := { compact_nonempty raw c : CompactRaw raw = inr c -> c <> "" }.

Section Contract.
Context {GJ : GeminiJson} {GL : GeminiJsonLaws}.

Record ginv (d : streamDecoder) (s : protocol) : Prop := {
  gi_blocks : blocks (next d) (open d) s;
  gi_text : 0 <= textIdx d -> openAs s (textIdx d) PartTypeText = true;
  gi_reas : 0 <= reasIdx d -> openAs s (reasIdx d) PartTypeReasoning = true;
  gi_init : inited d = true;
  gi_started : started d = p_started s;
  gi_done : done d = p_done s;
}.

(** A step that may be taken while the stream is live, and leaves it live. *)
Definition keeps {A} (f : streamDecoder -> A -> streamDecoder * list StreamEvent) : Prop :=
  forall d s a, ginv d s -> live s ->
    exists s', run false s (f d a).2 = Some s' /\ ginv (f d a).1 s' /\ live s'.

Lemma gem_fold_keeps {A} (f : streamDecoder -> A -> streamDecoder * list StreamEvent) l d out s0 s :
  Forall (fun a => forall d s, ginv d s -> live s ->
    exists s', run false s (f d a).2 = Some s' /\ ginv (f d a).1 s' /\ live s') l ->
  run false s0 out = Some s -> ginv d s -> live s ->
  let r := fold_left (andThen f) l (d, out) in
  exists s', run false s0 r.2 = Some s' /\ ginv r.1 s' /\ live s'.
Proof.
  intros Hl. revert d out s. induction Hl as [|a l Ha Hl IH]; intros d out s Hr Hi Hv; cbn [fold_left]; [eauto|].
  assert (andThen f (d, out) a = ((f d a).1, out ++ (f d a).2)) as -> by (cbn; by destruct (f d a)).
  specialize (Ha d s Hi Hv). destruct (f d a) as [d1 es]. destruct Ha as (s1 & Hr1 & Hi1 & Hv1).
  apply (IH d1 (out ++ es) s1); [|done|done]. by rewrite run_app, Hr.
Qed.

Lemma gem_keeps_all {A} (f : streamDecoder -> A -> streamDecoder * list StreamEvent) (l : list A) :
  keeps f -> Forall (fun a => forall d s, ginv d s -> live s ->
    exists s', run false s (f d a).2 = Some s' /\ ginv (f d a).1 s' /\ live s') l.
Proof. intros H. apply Forall_forall. intros a _ d s. apply H. Qed.

Lemma ginv_opened d s p : ginv d s -> live s -> ginv (openBlock d) (opened s p).
Proof.
  intros [Hb Ht Hr Hi Hs Hd] [Hs' Hd']. split; cbn; try done; try congruence.
  - by apply blocks_opened.
  - intros H. eapply openAs_mono; eauto.
  - intros H. eapply openAs_mono; eauto.
Qed.

Lemma callArgs_nonempty fc : callArgs fc <> "".
Proof.
  unfold callArgs. destruct (String.eqb _ _); [done|]. destruct (CompactRaw (fc_Args fc)) eqn:E; [done|]. by eapply compact_nonempty.
Qed.

(** A whole tool call: its block opens, is filled and ends. *)
Lemma run_whole s name args : live s -> p_open s !! p_next s = None -> args <> "" ->
  run false s ([contentStart (p_next s) (toolPart "" name)]
    ++ [StreamEventToolCallDelta (Some (mkToolCallDelta (p_next s) "" name args))] ++ [StreamEventContentEnd (Some (p_next s))])
  = Some (mkProtocol true (p_next s + 1) (p_open s) false).
Proof.
  intros Hv Hn Ha. unfold contentStart. rewrite run_app, run_open by done.
  rewrite run_app, run_args; [|by rewrite openAs_opened, Z.eqb_refl|done|done].
  cbn. rewrite bool_decide_true by (rewrite lookup_insert_eq; eauto). by rewrite delete_insert_id.
Qed.

Lemma next_closed d s : ginv d s -> p_open s !! p_next s = None.
Proof.
  intros [[Hn Ho _ Hl _] _ _ _ _ _]. apply eq_None_not_Some. rewrite Ho. intros Hi%list_elem_of_In.
  rewrite Forall_forall in Hl. apply Hl in Hi. lia.
Qed.

Lemma part_keeps : keeps part.
Proof.
  intros d s p Hi Hv. pose proof Hi as [Hb Ht Hr Hin Hs Hd]. pose proof (bl_next _ _ _ Hb) as Hnext. unfold part.
  destruct (negb _).
  { unfold functionCall. destruct (unmarshalCall _) as [fc|]; [|by exists s]. cbn [fst snd]. rewrite <- Hnext.
    exists (mkProtocol true (p_next s + 1) (p_open s) false).
    split; [exact (run_whole s (fc_Name fc) (callArgs fc) Hv (next_closed d s Hi) (callArgs_nonempty fc))|]. split; [|done].
    destruct Hb as [B1 B2 B3 B4 B5], Hv as [Hv1 Hv2]. split; cbn; try done; try congruence.
    split; cbn; unfold const; [lia|done|done| |lia]. eapply Forall_impl; [exact B4|]. cbn. lia. }
  destruct (gp_Text p) as [t|]; [|by exists s]. destruct (String.eqb_spec t "") as [|Hne]; [by exists s|].
  destruct (gp_Thought p).
  - destruct (Z.ltb_spec (reasIdx d) 0) as [Hlt|Hge]; cbn [fst snd].
    + rewrite <- Hnext. exists (opened s reasoningPart). unfold contentStart. rewrite run_app, run_open by done.
      assert (openAs (opened s reasoningPart) (p_next s) PartTypeReasoning = true) as Ho by (by rewrite openAs_opened, Z.eqb_refl).
      rewrite run_reasoning by done. split; [done|]. split; [|done].
      destruct (ginv_opened d s reasoningPart Hi Hv) as [Hb' Ht' Hr' Hi' Hs' Hd']. split; auto.
    + exists s. cbn [app]. rewrite run_reasoning; auto.
  - destruct (Z.ltb_spec (textIdx d) 0) as [Hlt|Hge]; cbn [fst snd].
    + rewrite <- Hnext. exists (opened s (textPart "")). unfold contentStart. rewrite run_app, run_open by done.
      assert (openAs (opened s (textPart "")) (p_next s) PartTypeText = true) as Ho by (by rewrite openAs_opened, Z.eqb_refl).
      rewrite run_delta by done. split; [done|]. split; [|done].
      destruct (ginv_opened d s (textPart "") Hi Hv) as [Hb' Ht' Hr' Hi' Hs' Hd']. split; auto.
    + exists s. cbn [app]. rewrite run_delta; auto.
Qed.

Lemma ginv_closed d s : ginv d s -> ginv (closeOpen d).1 (closed s).
Proof. intros [Hb Ht Hr Hi Hs Hd]. split; cbn; try done. by eapply blocks_closed. Qed.

Lemma candidate_keeps : keeps candidate.
Proof.
  intros d s c Hi Hv. unfold candidate. destruct (negb _); [by exists s|].
  destruct (gem_fold_keeps _ (gc_Parts c) d [] s s (gem_keeps_all _ _ part_keeps) eq_refl Hi Hv) as (s1 & Hr1 & Hi1 & Hv1).
  destruct (fold_left _ _ (d, [])) as [d1 o1]. cbn [fst snd] in *. destruct (String.eqb _ _); [by exists s1|].
  cbn [closeOpen fst snd]. exists (closed s1). destruct Hv1 as [Hs1 Hd1].
  rewrite run_app, Hr1, run_app, (run_close _ (next d1)), run_finish by (try apply Hi1; done).
  split; [done|]. split; [by apply (ginv_closed d1)|done].
Qed.

Lemma gem_chunk_keeps d s ch : ginv d s -> p_done s = false ->
  exists s', run false s (chunkEvents d ch).2 = Some s' /\ ginv (chunkEvents d ch).1 s'.
Proof.
  intros Hi Hd. unfold chunkEvents.
  assert (exists s1 d1 o1, (if started d then (d, [])
             else (d <| started := true |>, [StreamEventStart (Some (mkStart (gk_ResponseID ch) (gk_ModelVersion ch)))])) = (d1, o1)
    /\ run false s o1 = Some s1 /\ ginv d1 s1 /\ live s1) as (s1 & d1 & o1 & -> & Hr1 & Hi1 & Hv1).
  { pose proof Hi as [Hb Ht Hr Hk Hs Hdd]. destruct (started d) eqn:E.
    - exists s, d, []. done.
    - exists (mkProtocol true (p_next s) (p_open s) false). do 2 eexists. split; [done|].
      destruct s as [st n o dn]; cbn in *; subst. split; [done|]. split; [|done].
      destruct Hb as [? ? ? ? ?]. split; cbn; auto. by split. }
  destruct (gem_fold_keeps _ (gk_Candidates ch) d1 o1 s s1 (gem_keeps_all _ _ candidate_keeps) Hr1 Hi1 Hv1) as (s2 & Hr2 & Hi2 & Hv2).
  destruct (fold_left _ _ (d1, o1)) as [d2 o2]. cbn [fst snd] in *. exists s2. split; [|done].
  rewrite run_app, Hr2. destruct (gk_UsageMetadata ch) as [[i o]|]; [|done].
  destruct Hv2 as [Hs2 Hd2], s2; cbn in *. by subst.
Qed.

Lemma gem_finish_contract d s d' es : ginv d s -> finish d = (d', es) ->
  exists s', run false s es = Some s' /\ ginv d' s' /\ p_done s' = true.
Proof.
  intros Hi. unfold finish. pose proof Hi as [Hb _ _ _ _ Hd]. destruct (done d) eqn:E.
  - intros [= <- <-]. by exists s.
  - cbn [closeOpen]. intros [= <- <-]. exists (mkProtocol (p_started s) (p_next s) ∅ true).
    rewrite run_app, (run_close _ (next d) (open d)), run_done by done.
    destruct (ginv_closed d s Hi) as [Hb' Ht' Hr' Hk' Hs' Hd']. split; [done|]. split; [|done].
    split; cbn in *; auto. destruct Hb'; split; auto.
Qed.

#[export] Program Instance GeminiContract : Contract streamDecoder := { announced := ginv }.
Next Obligation. intros d s [_ _ _ Hi _ _]. cbn. unfold init. by rewrite Hi. Qed.
Next Obligation. intros sc d s [Hb Ht Hr Hk Hs Hd]. by split. Qed.
Next Obligation.
  intros d s data d' es Hi. cbn. unfold geminiPayload. destruct (done d) eqn:E; [intros [= <- <-]; by exists s|].
  assert (p_done s = false) as Hd by (destruct Hi; congruence).
  destruct (unmarshalChunk data) as [err|ch]; [done|]. destruct (_ && _).
  - intros [= <- <-]. exists s. split; [|done]. destruct s; cbn in *. by subst.
  - pose proof (gem_chunk_keeps d s ch Hi Hd) as Hk. destruct (chunkEvents d ch) as [d1 es1]. by intros [= <- <-].
Qed.
Next Obligation.
  intros d s data d' err Hi. cbn. unfold geminiPayload. destruct (done d); [done|].
  destruct (unmarshalChunk data) as [e|ch]; [by intros [= <- <-]|]. destruct (_ && _); [done|]. by destruct (chunkEvents d ch).
Qed.
Next Obligation. intros d s d' es. apply gem_finish_contract. Qed.

Lemma gemini_announced : announced (ready NewStreamDecoder) opening.
Proof.
  split; cbn; try done. split; cbn; [done| |constructor|constructor|done]. intros i. rewrite lookup_empty. split; [by intros []|done].
Qed.

End Contract.

(** ** The scanner is apart *)

Section Apart.
Context {GJ : GeminiJson}.

Lemma gem_fold_setScan {A} (f : streamDecoder -> A -> streamDecoder * list StreamEvent) sc l d out :
  (forall d a, f (d <| gd_scan := sc |>) a = ((f d a).1 <| gd_scan := sc |>, (f d a).2)) ->
  fold_left (andThen f) l (d <| gd_scan := sc |>, out)
  = ((fold_left (andThen f) l (d, out)).1 <| gd_scan := sc |>, (fold_left (andThen f) l (d, out)).2).
Proof.
  intros Hf. revert d out. induction l as [|a l IH]; intros d out; [done|]. cbn [fold_left].
  unfold andThen at 2 4 6. rewrite Hf. destruct (f d a) as [d1 es]. cbn [fst snd]. apply IH.
Qed.

Lemma part_setScan sc d p : part (d <| gd_scan := sc |>) p = ((part d p).1 <| gd_scan := sc |>, (part d p).2).
Proof.
  unfold part, functionCall. destruct d; cbn. destruct (negb _); [by destruct (unmarshalCall _)|].
  destruct (gp_Text p) as [t|]; [|done]. destruct (String.eqb t ""); [done|]. destruct (gp_Thought p); by destruct (_ <? 0).
Qed.

Lemma candidate_setScan sc d c :
  candidate (d <| gd_scan := sc |>) c = ((candidate d c).1 <| gd_scan := sc |>, (candidate d c).2).
Proof.
  unfold candidate. destruct (negb _); [done|]. rewrite gem_fold_setScan by apply part_setScan.
  destruct (fold_left _ _ (d, [])) as [d1 o1]. cbn [fst snd]. by destruct (String.eqb _ _).
Qed.

Lemma gem_chunk_setScan sc d ch :
  chunkEvents (d <| gd_scan := sc |>) ch = ((chunkEvents d ch).1 <| gd_scan := sc |>, (chunkEvents d ch).2).
Proof.
  unfold chunkEvents. change (started (d <| gd_scan := sc |>)) with (started d).
  destruct (started d); cbv beta iota zeta.
  - rewrite gem_fold_setScan by apply candidate_setScan. by destruct (fold_left _ _ (d, _)).
  - change (d <| gd_scan := sc |> <| started := true |>) with (d <| started := true |> <| gd_scan := sc |>).
    rewrite gem_fold_setScan by apply candidate_setScan. by destruct (fold_left _ _ (d <| started := true |>, _)).
Qed.

Lemma fold_inited {A} (f : streamDecoder -> A -> streamDecoder * list StreamEvent) l acc :
  (forall d a, inited d = true -> inited (f d a).1 = true) -> inited acc.1 = true -> inited (fold_left (andThen f) l acc).1 = true.
Proof.
  intros Hf. revert acc. induction l as [|a l IH]; intros [d out] H; [done|]. cbn [fold_left]. apply IH.
  cbn. specialize (Hf d a H). by destruct (f d a).
Qed.

Lemma part_inited d p : inited d = true -> inited (part d p).1 = true.
Proof.
  intros H. unfold part, functionCall. destruct (negb _); [by destruct (unmarshalCall _)|].
  destruct (gp_Text p) as [t|]; [|done]. destruct (String.eqb t ""); [done|].
  destruct (gp_Thought p); [by destruct (reasIdx d <? 0)|by destruct (textIdx d <? 0)].
Qed.

Lemma candidate_inited d c : inited d = true -> inited (candidate d c).1 = true.
Proof.
  intros H. unfold candidate. destruct (negb _); [done|].
  pose proof (fold_inited part (gc_Parts c) (d, []) part_inited H) as H'. destruct (fold_left _ _ _). by destruct (String.eqb _ _).
Qed.

Lemma init_inited d : init d = d <-> inited d = true.
Proof. unfold init. destruct d as [? ? ? ? ? ? [] ?]; cbn; split; done. Qed.

Lemma payload_inited d data : inited d = true -> inited (geminiPayload d data).1 = true.
Proof.
  intros H. unfold geminiPayload. destruct (done d); [done|]. destruct (unmarshalChunk data) as [err|ch]; [done|].
  destruct (_ && _); [done|]. unfold chunkEvents.
  match goal with |- context [fold_left (andThen candidate) ?l ?acc] =>
    pose proof (fold_inited candidate l acc candidate_inited) as H' end.
  destruct (fold_left _ _ _). apply H'. by destruct (started d).
Qed.

#[export] Program Instance GeminiFramed : Framed streamDecoder.
Next Obligation. done. Qed.
Next Obligation. done. Qed.
Next Obligation. by intros []. Qed.
Next Obligation. intros d. cbn. unfold init at 2 3. by destruct d as [? ? ? ? ? ? [] ?]. Qed.
Next Obligation. intros sc d. cbn. unfold init. by destruct d as [? ? ? ? ? ? [] ?]. Qed.
Next Obligation. intros d data H. apply init_inited, payload_inited. by apply init_inited. Qed.
Next Obligation.
  intros sc d data. cbn [setScan payload GeminiDecoder]. unfold geminiPayload. change (done (d <| gd_scan := sc |>)) with (done d).
  destruct (done d) eqn:E; [done|]. destruct (unmarshalChunk data) as [err|ch]; [done|]. destruct (_ && _); [done|].
  rewrite gem_chunk_setScan. by destruct (chunkEvents d ch).
Qed.

(** ** The encoder buffers whole calls *)

(** What the encoder holds for the tool blocks that are open: the name and all the
    argument bytes so far. *)
Definition buffered (s : protocol) (e : streamEncoder) (evs : list StreamEvent) : Prop :=
  forall i p tc, p_open s !! i = Some p -> pt_Type p = PartTypeToolCall -> pt_ToolCall p = Some tc ->
    argBuf e !! i = Some (at_Arguments (callAt (calls evs) i))
    /\ names e !! i = Some (at_Name (callAt (calls evs) i)) /\ at_Name (callAt (calls evs) i) = tc_Name tc.

(** The indexes that have been used are below the counter. *)
Definition below (s : protocol) (evs : list StreamEvent) : Prop :=
  (forall i t, (i, t) ∈ calls evs -> i < p_next s) /\ (forall i p, p_open s !! i = Some p -> i < p_next s).

Lemma calls_one ev : calls [ev] = match touched ev with Some t => [t] | None => [] end.
Proof. unfold calls. cbn. by destruct (touched ev). Qed.

Lemma callAt_untouched evs ev i :
  match touched ev with Some (j, _) => j <> i | None => True end -> callAt (calls (evs ++ [ev])) i = callAt (calls evs) i.
Proof.
  intros H. rewrite calls_app, calls_one. destruct (touched ev) as [[j t]|]; [|by rewrite app_nil_r].
  by apply callAt_app_other.
Qed.

(** An event that touches no call and opens no tool block. *)
Lemma buffered_other s s' e e' evs ev :
  buffered s e evs -> below s evs -> touched ev = None -> p_next s <= p_next s' ->
  (forall i p, p_open s' !! i = Some p -> i < p_next s' /\ (pt_Type p = PartTypeToolCall ->
     p_open s !! i = Some p /\ argBuf e' !! i = argBuf e !! i /\ names e' !! i = names e !! i)) ->
  buffered s' e' (evs ++ [ev]) /\ below s' (evs ++ [ev]).
Proof.
  intros Hb [Hl Hl'] Ht Hn Ho. split; [|split].
  - intros i p tc H1 H2 H3. destruct (Ho _ _ H1) as [_ H]. destruct (H H2) as (H4 & -> & ->).
    rewrite callAt_untouched by (by rewrite Ht). by apply (Hb i p tc).
  - intros i t. rewrite calls_app, calls_one, Ht, app_nil_r. intros H%Hl. lia.
  - intros i p H. by apply (Ho i p).
Qed.

(** One that leaves the blocks alone. *)
Lemma buffered_same s e e' evs ev :
  buffered s e evs -> below s evs -> touched ev = None -> argBuf e' = argBuf e -> names e' = names e ->
  buffered s e' (evs ++ [ev]) /\ below s (evs ++ [ev]).
Proof.
  intros Hb Hl Ht E1 E2. eapply buffered_other; [exact Hb|exact Hl|done|lia|]. intros i p H. split; [by eapply Hl|].
  intros _. by rewrite E1, E2.
Qed.

(** A tool block opens with an empty buffer. *)
Lemma buffered_tool s e evs p tc :
  buffered s e evs -> below s evs -> pt_ToolCall p = Some tc -> tc_Arguments tc = "" ->
  let e' := e <| argBuf := <[p_next s := ""]> (argBuf e) |> <| names := <[p_next s := tc_Name tc]> (names e) |> in
  let ev := StreamEventContentStart (Some (mkContentStart (p_next s) p)) in
  buffered (opened s p) e' (evs ++ [ev]) /\ below (opened s p) (evs ++ [ev]).
Proof.
  intros Hb [Hl Hl'] Etc Ha. cbv zeta. set (ev := StreamEventContentStart _).
  assert (touched ev = Some (p_next s, (tc_ID tc, tc_Name tc, ""))) as Htouch by (cbn; by rewrite Etc, Ha).
  assert (p_next s ∉ List.map fst (calls evs)) as Hfresh.
  { intros Hin. apply list_elem_of_In, in_map_iff in Hin as ([j t] & Ej & Hin%list_elem_of_In). cbn in Ej. apply Hl in Hin. lia. }
  split; [|split].
  - intros i q tq. cbn [opened p_open]. destruct (decide (i = p_next s)) as [->|Hne].
    + rewrite lookup_insert_eq. intros [= <-] _ H3. rewrite H3 in Etc. injection Etc as ->.
      rewrite calls_app, calls_one, Htouch, callAt_app_same. cbn zeta. rewrite (callAt_absent _ _ Hfresh). cbn. unfold const.
      rewrite !lookup_insert_eq. by destruct (String.eqb_spec (tc_Name tc) "") as [->|].
    + rewrite lookup_insert_ne by congruence. intros H1 H2 H3. rewrite callAt_untouched by (rewrite Htouch; congruence).
      cbn. unfold const. rewrite !lookup_insert_ne by congruence. by apply (Hb i q tq).
  - intros i t. rewrite calls_app, calls_one, Htouch. cbn. intros [Hi%Hl|Hi%list_elem_of_singleton]%elem_of_app; [lia|].
    injection Hi as -> ->. lia.
  - intros i q. cbn. destruct (decide (i = p_next s)) as [->|Hne]; [lia|]. rewrite lookup_insert_ne by congruence. intros H%Hl'. lia.
Qed.

(** Argument bytes are appended to the buffer. *)
Lemma buffered_args s e e' evs td :
  buffered s e evs -> below s evs -> openAs s (tcd_Index td) PartTypeToolCall = true -> repeats s td = true ->
  argBuf e' = <[tcd_Index td := (default "" (argBuf e !! tcd_Index td) ++ tcd_ArgumentsDelta td)%string]> (argBuf e) ->
  names e' = (if String.eqb (tcd_Name td) "" then names e else <[tcd_Index td := tcd_Name td]> (names e)) ->
  buffered s e' (evs ++ [StreamEventToolCallDelta (Some td)]) /\ below s (evs ++ [StreamEventToolCallDelta (Some td)]).
Proof.
  intros Hb [Hl Hl'] Ho Hr Ea En.
  assert (touched (StreamEventToolCallDelta (Some td)) = Some (tcd_Index td, (tcd_ID td, tcd_Name td, tcd_ArgumentsDelta td))) as Htouch by done.
  unfold openAs in Ho. destruct (p_open s !! tcd_Index td) as [p|] eqn:Ep; [|done]. apply bool_decide_eq_true in Ho.
  unfold repeats in Hr. rewrite Ep in Hr. cbn in Hr. destruct (pt_ToolCall p) as [tc|] eqn:Etc; [|done].
  destruct (Hb _ _ _ Ep Ho Etc) as (B1 & B2 & B3). apply andb_true_iff in Hr as [_ Hname%orb_true_iff].
  rewrite !String.eqb_eq in Hname. rewrite B1 in Ea. cbn [from_option id] in Ea.
  split; [|split].
  - intros i q tq H1 H2 H3. rewrite Ea, En. destruct (decide (i = tcd_Index td)) as [->|Hne].
    + rewrite Ep in H1. injection H1 as <-. rewrite Etc in H3. injection H3 as <-.
      rewrite calls_app, calls_one, Htouch, callAt_app_same. cbn zeta. cbn [at_Arguments at_Name].
      destruct (String.eqb_spec (tcd_Name td) "") as [E|E]; rewrite !lookup_insert_eq; [done|].
      destruct Hname as [|Hname]; [done|]. by rewrite Hname.
    + rewrite callAt_untouched by (rewrite Htouch; congruence).
      destruct (String.eqb_spec (tcd_Name td) ""); rewrite !lookup_insert_ne by congruence; by apply (Hb i q tq).
  - intros i t. rewrite calls_app, calls_one, Htouch. intros [Hi%Hl|Hi%list_elem_of_singleton]%elem_of_app; [lia|].
    injection Hi as -> ->. by eapply Hl'.
  - done.
Qed.

Lemma buffered_step s s' e e' evs ev b :
  buffered s e evs -> below s evs -> ge_done e = p_done s -> accept true s ev = Some s' -> event e ev = (e', Ok b) ->
  (buffered s' e' (evs ++ [ev]) /\ below s' (evs ++ [ev])) /\ ge_done e' = p_done s'.
Proof.
  intros Hb Hl Hd Hacc He. pose proof (accept_done _ _ _ _ Hacc) as Hd'. apply accept_inv in Hacc as [Hds H].
  unfold event in He. rewrite Hd, Hds in He.
  destruct ev as [[x|]|[cs|]|[td|]|[td|]|[td|]|[i|]|[u|]|[f|]|[x|]|]; try done; cbn [isDone] in Hd'; rewrite Hd'.
  - subst s'. destruct (String.eqb (st_ID x) ""), (String.eqb (st_Model x) ""); injection He as <- _; (split; [|cbn; congruence]);
      (eapply buffered_other; [exact Hb|exact Hl|done|done|]; intros i p Hi; split; [by eapply Hl|done]).
  - destruct H as (Hs & Hn & Hp & ->). destruct cs as [i p]. cbn [cs_Index cs_Part] in *. subst i.
    destruct (bool_decide (pt_Type p = PartTypeToolCall)) eqn:Ety.
    + apply bool_decide_eq_true in Ety. unfold opens in Hp. rewrite Ety in Hp.
      destruct (pt_ToolCall p) as [tc|] eqn:Etc; [|done]. apply String.eqb_eq in Hp. injection He as <- _.
      split; [|cbn; congruence]. by apply buffered_tool.
    + apply bool_decide_eq_false in Ety. injection He as <- _. split; [|cbn; congruence].
      assert (pt_ToolCall p = None) as Hnone.
      { unfold opens in Hp. destruct (pt_Type p); try done; apply andb_true_iff in Hp as [_ Hp]; by apply bool_decide_eq_true in Hp. }
      eapply buffered_other; [exact Hb|exact Hl|cbn; by rewrite Hnone|cbn; lia|].
      intros i q. cbn. destruct (decide (i = p_next s)) as [->|Hne].
      * rewrite lookup_insert_eq. intros [= <-]. split; [lia|done].
      * rewrite lookup_insert_ne by congruence. intros Hq. split; [|done]. apply Hl in Hq. lia.
  - destruct H as (_ & Ho & Hx & ->). destruct (String.eqb _ _); injection He as <- _; (split; [by apply (buffered_same s e)|congruence]).
  - destruct H as (_ & Ho & Hx & Hr & ->). specialize (Hr eq_refl).
    split; [eapply (buffered_args s e); eauto|]; destruct (String.eqb (tcd_Name td) ""); injection He as <- _; cbn; unfold const; congruence || reflexivity.
  - destruct H as (_ & Ho & Hx & ->). destruct (String.eqb _ _); injection He as <- _; (split; [by apply (buffered_same s e)|congruence]).
  - destruct H as [Hi ->].
    assert (forall e1, (forall j, j <> i -> argBuf e1 !! j = argBuf e !! j /\ names e1 !! j = names e !! j) ->
      buffered (mkProtocol (p_started s) (p_next s) (delete i (p_open s)) false) e1 (evs ++ [StreamEventContentEnd (Some i)])
      /\ below (mkProtocol (p_started s) (p_next s) (delete i (p_open s)) false) (evs ++ [StreamEventContentEnd (Some i)])) as Hend.
    { intros e1 He1. eapply buffered_other; [exact Hb|exact Hl|done|done|]. cbn. intros j p [Hj1 Hj2]%lookup_delete_Some.
      split; [by eapply Hl|]. intros _. split; [done|]. apply He1. congruence. }
    destruct (argBuf e !! i) as [buf|].
    + injection He as <- _. split; [|cbn; congruence]. apply Hend. intros j Hj. cbn. unfold const.
      by rewrite !lookup_delete_ne by congruence.
    + injection He as <- _. split; [by apply Hend|congruence].
  - subst s'. injection He as <- _. split; [by apply (buffered_same s e)|cbn; congruence].
  - destruct H as [Ho ->]. injection He as <- _. split; [by apply (buffered_same s e)|cbn; congruence].
  - subst s'. injection He as <- _. split; [by apply (buffered_same s e)|congruence].
  - destruct H as [Ho ->]. injection He as <- _. split; [|done].
    eapply buffered_other; [exact Hb|exact Hl|done|done|]. cbn. intros i p Hi. by rewrite lookup_empty in Hi.
Qed.

(** A tool call reaches a Gemini client whole.  When a block of a stream ends, the
    encoder writes one function call with the name the block opened with and all the
    argument bytes sent for it, compacted; if they are no JSON it fails. *)
Theorem gemini_call_whole req evs s e b i p tc :
  run true opening evs = Some s -> Encode (NewStreamEncoder req) evs = (e, Ok b) ->
  p_open s !! i = Some p -> pt_Type p = PartTypeToolCall -> pt_ToolCall p = Some tc ->
  let e' := e <| argBuf := delete i (argBuf e) |> <| names := delete i (names e) |> in
  event e (StreamEventContentEnd (Some i))
  = (e', let! args := endArgs (tc_Name tc) (at_Arguments (callAt (calls evs) i)) in
         frame e' [OutCall (tc_Name tc) args] "" false).
Proof.
  intros Hrun Henc Hi Hty Htc.
  assert (((buffered s e evs /\ below s evs) /\ ge_done e = p_done s)) as [[Hbuf _] Hd].
  { clear Hi. revert s e b Hrun Henc. induction evs as [|ev evs IH] using rev_ind; intros s e b Hrun Henc.
    - cbn in Hrun, Henc. injection Hrun as <-. injection Henc as <- <-. split; [split; [|split]|done].
      + intros j q tq H. cbn in H. by rewrite lookup_empty in H.
      + by intros j t H%not_elem_of_nil.
      + intros j q H. cbn in H. by rewrite lookup_empty in H.
    - rewrite run_app in Hrun. destruct (run true opening evs) as [s1|] eqn:E1; [|done]. cbn in Hrun.
      destruct (accept true s1 ev) as [s2|] eqn:E2; [|done]. injection Hrun as <-.
      apply encodeFrom_snoc in Henc as (e1 & b1 & b2 & H1 & H2 & ->).
      destruct (IH _ _ _ eq_refl H1) as [[Hb Hl] Hd]. by eapply buffered_step. }
  destruct (Hbuf i p tc Hi Hty Htc) as (B1 & B2 & B3).
  assert (p_done s = false) as Hds.
  { destruct (p_done s) eqn:E; [|done]. exfalso. clear -Hrun E Hi.
    destruct evs as [|ev evs _] using rev_ind; [cbn in Hrun; by injection Hrun as <-|].
    rewrite run_app in Hrun. destruct (run true opening evs) as [s1|]; [|done]. cbn in Hrun.
    destruct (accept true s1 ev) as [s2|] eqn:E2; [|done]. injection Hrun as <-.
    rewrite (accept_done _ _ _ _ E2) in E. destruct ev; try done. apply accept_inv in E2 as [_ [_ ->]]. cbn in Hi. by rewrite lookup_empty in Hi. }
  cbv zeta. unfold event. rewrite Hd, Hds, B1, B2. cbn [from_option id]. by rewrite B3.
Qed.

End Apart.

(** ** What a chunk says *)
Section Said.
Context {GJ : GeminiJson}.

Definition partSays (p : gemPart) : said :=
  if negb (String.eqb (gp_FunctionCall p) "")
  then match unmarshalCall (gp_FunctionCall p) with Some fc => mkSaid "" "" (callArgs fc) [] | None => nothing end
  else let t := default "" (gp_Text p) in
       if gp_Thought p then mkSaid "" t "" [] else mkSaid t "" "" [].

Definition candidateSays (c : gemCandidate) : said :=
  if negb (gc_Index c =? 0) then nothing
  else join (joinAll (List.map partSays (gc_Parts c)))
         (mkSaid "" "" "" (if String.eqb (gc_FinishReason c) "" then [] else [canonicalFinish (gc_FinishReason c)])).

Definition geminiSays (data : string) : said :=
  match unmarshalChunk data with
  | inl _ => nothing
  | inr ch => if negb (String.eqb (gk_Error ch) "") && negb (String.eqb (gk_Error ch) "null") then nothing
              else joinAll (List.map candidateSays (gk_Candidates ch))
  end.

Lemma gem_andThen_says {A} (f : streamDecoder -> A -> streamDecoder * list StreamEvent) g l acc :
  (forall d a, says (f d a).2 = g a /\ done (f d a).1 = done d) ->
  says (fold_left (andThen f) l acc).2 = join (says acc.2) (joinAll (List.map g l))
  /\ done (fold_left (andThen f) l acc).1 = done acc.1.
Proof. exact (fold_says f g done l acc). Qed.

Lemma part_says d p : says (part d p).2 = partSays p /\ done (part d p).1 = done d.
Proof.
  unfold part, partSays, functionCall. destruct (negb _); [destruct (unmarshalCall (gp_FunctionCall p)) as [fc|]; [|done]; split; [|done]; apply (f_equal (fun x => mkSaid "" "" x [])), str_app_nil_r|].
  destruct (gp_Text p) as [t|]; [|by destruct (gp_Thought p)]. cbn [default].
  destruct (String.eqb_spec t "") as [->|]; [by destruct (gp_Thought p)|].
  destruct (gp_Thought p); [destruct (reasIdx d <? 0)|destruct (textIdx d <? 0)]; done.
Qed.

Lemma candidate_says d c : says (candidate d c).2 = candidateSays c /\ done (candidate d c).1 = done d.
Proof.
  unfold candidate, candidateSays. destruct (negb _); [done|].
  pose proof (gem_andThen_says part partSays (gc_Parts c) (d, []) part_says) as [Hs Ho].
  destruct (fold_left _ _ _) as [d1 o]. cbn [fst snd] in Hs, Ho. change (says []) with nothing in Hs. rewrite nothing_join in Hs.
  destruct (String.eqb _ _); cbn [fst snd closeOpen].
  - by rewrite Hs, join_nothing.
  - by rewrite !says_app, says_ends, Hs.
Qed.

#[export] Program Instance GeminiReads : Reads streamDecoder := {
  over := done;
  saidIn := geminiSays;
  lastIn := fun _ => false;
}.
Next Obligation. intros d. cbn. unfold init. by destruct (inited d). Qed.
Next Obligation. done. Qed.
Next Obligation.
  intros d data d' es H. cbn [payload GeminiDecoder]. unfold geminiPayload, geminiSays. rewrite H.
  destruct (unmarshalChunk data) as [err|ch]; [done|]. destruct (_ && _); [by intros [= <- <-]|]. unfold chunkEvents.
  match goal with |- context [fold_left (andThen candidate) ?l ?acc] =>
    pose proof (gem_andThen_says candidate candidateSays l acc candidate_says) as [Hs Ho]; destruct (fold_left (andThen candidate) l acc) as [d1 o] end.
  cbn [fst snd] in Hs, Ho. intros [= <- <-]. rewrite says_app, Hs, Ho.
  assert (says (if started d then (d, []) else (d <| started := true |>, [StreamEventStart (Some (mkStart (gk_ResponseID ch) (gk_ModelVersion ch)))])).2 = nothing) as ->
    by (by destruct (started d)).
  rewrite nothing_join. split; [|by destruct (started d)].
  destruct (gk_UsageMetadata ch) as [[i u]|]; by rewrite join_nothing.
Qed.
Next Obligation. intros d data H. cbn in *. unfold geminiPayload. by rewrite H. Qed.
Next Obligation. intros d. cbn. unfold finish. destruct (done d); [done|]. cbn. by rewrite says_app, says_ends. Qed.

End Said.

End GeminiStream.
