(* ===== verification/StreamTranslate.v ===== *)
(** * Streams across schemas

    The stream codecs together: what every decoder promises about its events, that
    the cut of the bytes is invisible, and that the content of a stream survives the
    way from a backend of one schema to a client of another.  The JSON engines are
    instantiated by a toy that writes a payload as the bits of its encoding, to show
    that the laws assumed of them can hold. *)

From Stdlib Require Import ZArith Lia NArith Ascii String List.
From stdpp Require Import base strings list gmap countable.
From S2P Require Import Prelude GoStrings GoStd Registry LlmCall Sse StreamCodec StreamContent ChatStream MessagesStream GeminiStream.
Import GoStrings GoStd LlmCall Sse StreamCodec StreamContent.
Import (hints) ChatStream.
Import (hints) MessagesStream.
Import (hints) GeminiStream.

#[local] Open Scope string_scope.
#[local] Open Scope Z_scope.
#[local] Open Scope list_scope.

Module StreamTranslate.

(** A stream that names each call where it opens is also one that may not. *)
Lemma accept_lenient s ev s' : accept true s ev = Some s' -> accept false s ev = Some s'.
Proof.
  destruct s as [st n o dn]. unfold accept. destruct dn; [done|].
  destruct ev as [|?|?|[td|]|?|?|?|?|?|]; try done. intros H.
  destruct (st && openAs _ _ _ && negb _); [|done]. cbn [negb orb andb] in *. by destruct (repeats _ td).
Qed.

Lemma run_lenient s evs s' : run true s evs = Some s' -> run false s evs = Some s'.
Proof.
  revert s. induction evs as [|ev evs IH]; intros s; cbn; [done|].
  destruct (accept true s ev) as [s1|] eqn:E; [|done]. rewrite (accept_lenient _ _ _ E). apply IH.
Qed.

(** C9: decoders keep the contract of their interface.  Whatever bytes a backend
    sends and however they are cut, the events of the Chat Completions and Gemini
    decoders open blocks densely from 0 after the start, name only open blocks in
    deltas, and deltas are never empty; finish and terminator come when no block is
    open, and nothing follows the terminator, which a stream that ends without an
    error always gets. *)
Theorem decoders_keep_contract {CJ : ChatStream.ChatJson} {GJ : GeminiStream.GeminiJson}
    {GL : GeminiStream.GeminiJsonLaws} (name : string) (chunks : list (string * bool)) :
  (exists s, let '(evs, err, _) := decodeAll (ChatStream.NewStreamDecoder name) chunks in
     run false opening evs = Some s /\ (err = None -> ended chunks -> p_done s = true))
  /\ (exists s, let '(evs, err, _) := decodeAll GeminiStream.NewStreamDecoder chunks in
     run false opening evs = Some s /\ (err = None -> ended chunks -> p_done s = true)).
Proof.
  split.
  - destruct (decodeAll _ chunks) as [[evs err] d] eqn:E.
    destruct (decodeAll_contract _ _ _ _ _ _ (ChatStream.chat_announced name) E) as (s & Hr & _ & Hd). by exists s.
  - destruct (decodeAll _ chunks) as [[evs err] d] eqn:E.
    destruct (decodeAll_contract _ _ _ _ _ _ GeminiStream.gemini_announced E) as (s & Hr & _ & Hd). by exists s.
Qed.

(** C39: the cut of the bytes is invisible.  Two deliveries of the same bytes give
    the same events and the same error, for each of the three stream decoders. *)
Theorem cut_is_invisible {CJ : ChatStream.ChatJson} {MJ : MessagesStream.MessagesJson} {GJ : GeminiStream.GeminiJson}
    (name : string) (cs cs' : list string) (c c' : string) :
  (String.concat "" cs ++ c)%string = (String.concat "" cs' ++ c')%string ->
  (decodeAll (ChatStream.NewStreamDecoder name) (delivery cs c)).1
    = (decodeAll (ChatStream.NewStreamDecoder name) (delivery cs' c')).1
  /\ (decodeAll MessagesStream.NewStreamDecoder (delivery cs c)).1
    = (decodeAll MessagesStream.NewStreamDecoder (delivery cs' c')).1
  /\ (decodeAll GeminiStream.NewStreamDecoder (delivery cs c)).1
    = (decodeAll GeminiStream.NewStreamDecoder (delivery cs' c')).1.
Proof. intros H. rewrite !decodeAll_chunking, H. done. Qed.

(** What a client of each schema reads when [evs], decoded from bytes that say [src],
    is rendered for it: what was said, and the tool calls and the usage of [evs]. *)
Record readAs (src : said) (evs evs' : list StreamEvent) : Prop := {
  ra_text : c_text (contentOf evs') = sd_text src;
  ra_reasoning : c_reasoning (contentOf evs') = sd_reasoning src;
  ra_finish : default FinishReasonStop (c_finish (contentOf evs')) = plainFinish (lastFinish src);
  ra_calls : Forall2 sameCall (c_calls (contentOf evs)) (c_calls (contentOf evs'));
  ra_usage : default (0, 0) (c_usage (contentOf evs')) = default (0, 0) (c_usage (contentOf evs));
}.

Definition readByChat {CJ : ChatStream.ChatJson} (now : Z) (req : option Request) (src : said) (evs : list StreamEvent) : Prop :=
  exists e b, Encode (EE := ChatStream.ChatEncoder now) (ChatStream.NewStreamEncoder req) evs = (e, Ok b)
    /\ forall name cs c, (String.concat "" cs ++ c)%string = b ->
       exists evs', (decodeAll (ChatStream.NewStreamDecoder name) (delivery cs c)).1 = (evs', None) /\ readAs src evs evs'.

Definition readByMessages {MJ : MessagesStream.MessagesJson} (req : option Request) (src : said) (evs : list StreamEvent) : Prop :=
  exists e b, Encode (MessagesStream.NewStreamEncoder req) evs = (e, Ok b)
    /\ forall cs c, (String.concat "" cs ++ c)%string = b ->
       exists evs', (decodeAll MessagesStream.NewStreamDecoder (delivery cs c)).1 = (evs', None) /\ readAs src evs evs'.

(** What is carried is what was said. *)
Lemma carries_said evs evs' : carries evs evs' -> readAs (says evs) evs evs'.
Proof. by intros [Ht Hr Hc Hf Hu]. Qed.

Lemma chat_reads {CJ : ChatStream.ChatJson} {CL : ChatStream.ChatJsonLaws} now req evs s :
  run true opening evs = Some s -> p_done s = true ->
  forallb noError evs = true -> forallb validEvent evs = true -> Forall countsOK evs ->
  ValidString (match req with Some r => rq_Model r | None => "" end) = true ->
  readByChat now req (says evs) evs.
Proof.
  intros Hrun Hd Hne Hval Hcnt Hmod.
  destruct (render_back (RR := ChatStream.ChatRenders now) (ChatStream.NewStreamEncoder req) (ChatStream.NewStreamDecoder "") evs s
    (ChatStream.chat_sim_start req "" Hmod) eq_refl Hrun Hd Hne Hval Hcnt) as (e & b & He & _).
  exists e, b. split; [done|]. intros name cs c Hcut.
  destruct (render_back (RR := ChatStream.ChatRenders now) (ChatStream.NewStreamEncoder req) (ChatStream.NewStreamDecoder name) evs s
    (ChatStream.chat_sim_start req name Hmod) eq_refl Hrun Hd Hne Hval Hcnt) as (e' & b' & He' & Hread).
  rewrite He in He'. injection He' as <- <-. destruct (Hread cs c Hcut) as (evs' & Hdec & Hc).
  exists evs'. split; [done|]. by apply carries_said.
Qed.

Lemma messages_reads {MJ : MessagesStream.MessagesJson} {ML : MessagesStream.MessagesJsonLaws} req evs s :
  run true opening evs = Some s -> p_done s = true ->
  forallb noError evs = true -> forallb validEvent evs = true -> Forall countsOK evs ->
  ValidString (match req with Some r => rq_Model r | None => "" end) = true ->
  readByMessages req (says evs) evs.
Proof.
  intros Hrun Hd Hne Hval Hcnt Hmod.
  destruct (render_back (RR := MessagesStream.MessagesRenders) (MessagesStream.NewStreamEncoder req) MessagesStream.NewStreamDecoder evs s
    (MessagesStream.messages_sim_start req Hmod) eq_refl Hrun Hd Hne Hval Hcnt) as (e & b & He & Hread).
  exists e, b. split; [done|]. intros cs c Hcut. destruct (Hread cs c Hcut) as (evs' & Hdec & Hc).
  exists evs'. split; [done|]. by apply carries_said.
Qed.

(** A backend sends bytes, cut as they may be: the events its decoder makes of them
    and what the payloads say. *)
Section Backend.
Context {CJ : ChatStream.ChatJson} {MJ : MessagesStream.MessagesJson} {GJ : GeminiStream.GeminiJson}.

Inductive backendSends (bytes : string) : list StreamEvent -> said -> Prop :=
| SendsChat name cs c evs : (String.concat "" cs ++ c)%string = bytes ->
    (decodeAll (ChatStream.NewStreamDecoder name) (delivery cs c)).1 = (evs, None) ->
    backendSends bytes evs (saidBy (D := ChatStream.chatStreamDecoder) bytes)
| SendsMessages cs c evs : (String.concat "" cs ++ c)%string = bytes ->
    (decodeAll MessagesStream.NewStreamDecoder (delivery cs c)).1 = (evs, None) ->
    backendSends bytes evs (saidBy (D := MessagesStream.streamDecoder) bytes)
| SendsGemini cs c evs : (String.concat "" cs ++ c)%string = bytes ->
    (decodeAll GeminiStream.NewStreamDecoder (delivery cs c)).1 = (evs, None) -> forallb validEvent evs = true ->
    backendSends bytes evs (saidBy (D := GeminiStream.streamDecoder) bytes).

Lemma backend_says bytes evs src : backendSends bytes evs src -> says evs = src.
Proof.
  intros [name cs c es <- H|cs c es <- H|cs c es <- H _].
  - exact (decodeAll_says (ChatStream.NewStreamDecoder name) cs c es eq_refl eq_refl H).
  - exact (decodeAll_says MessagesStream.NewStreamDecoder cs c es eq_refl eq_refl H).
  - exact (decodeAll_says GeminiStream.NewStreamDecoder cs c es eq_refl eq_refl H).
Qed.

Lemma backend_valid {CL : ChatStream.ChatJsonLaws} {ML : MessagesStream.MessagesJsonLaws} bytes evs src :
  backendSends bytes evs src -> forallb validEvent evs = true.
Proof.
  intros [name cs c es <- H|cs c es <- H|cs c es <- _ H]; [| |exact H];
    destruct (decodeAll _ (delivery cs c)) as [[es' err] d] eqn:E; cbn in H; injection H as -> ->.
  - exact (decodeAll_valid (UD := ChatStream.ChatUtf8) _ _ _ _ _ E).
  - exact (decodeAll_valid (UD := MessagesStream.MessagesUtf8) _ _ _ _ _ E).
Qed.

End Backend.

(** C6: the content of a stream survives the change of schema.  A backend sends bytes,
    in whatever pieces, that decode without an error (from a Gemini backend, whose raw
    arguments JSON does not check, to UTF-8); the events follow the stream protocol to
    its end ([run]: blocks are opened in order and empty, and a fragment of a tool call
    names no other call than its block does), report no error and count tokens from 0.
    Then the events say exactly what the payloads up to the last one say (text,
    reasoning, argument bytes, finish reasons), and they are rendered without an error
    for an OpenAI and for an Anthropic client; each of them, however the rendering
    reaches it, reads the text and the reasoning the backend's payloads say, the
    finish reason where its schema has it (length, tool calls, content filter) and the
    normal stop otherwise, the decoded tool calls in the same order, with their names
    and whole arguments (identifiers made up only where there were none), and the
    decoded usage.  A text that an Anthropic block opens with is outside: the encoders
    drop it, as [opening_text_dropped] shows. *)
Theorem translated_stream_carries {CJ : ChatStream.ChatJson} {CL : ChatStream.ChatJsonLaws}
    {MJ : MessagesStream.MessagesJson} {ML : MessagesStream.MessagesJsonLaws} {GJ : GeminiStream.GeminiJson}
    (now : Z) (req : option Request) (bytes : string) (evs : list StreamEvent) (src : said) (s : protocol) :
  backendSends bytes evs src ->
  run true opening evs = Some s -> p_done s = true ->
  forallb noError evs = true -> Forall countsOK evs ->
  ValidString (match req with Some r => rq_Model r | None => "" end) = true ->
  says evs = src /\ readByChat now req src evs /\ readByMessages req src evs.
Proof.
  intros Hsent Hrun Hd Hne Hcnt Hmod. pose proof (backend_valid _ _ _ Hsent) as Hval.
  rewrite <- (backend_says _ _ _ Hsent). split; [done|]. split; [by eapply chat_reads|by eapply messages_reads].
Qed.

(** A text that a block opens with is decoded (and counted as said), and then dropped by both encoders: neither
    rendering of the opening depends on it. *)
Lemma opening_text_dropped {CJ : ChatStream.ChatJson} {MJ : MessagesStream.MessagesJson} d index raw now :
  MessagesStream.bk_Type (MessagesStream.unmarshalBlock raw) = "text" ->
  let text := MessagesStream.bk_Text (MessagesStream.unmarshalBlock raw) in
  let opening t := StreamEventContentStart (Some (mkContentStart index (textPart t))) in
  (MessagesStream.blockStart d index raw).2 = [opening text] /\ sd_text (says [opening text]) = text
  /\ (forall e, encodeEvent (Encoder := ChatStream.ChatEncoder now) e (opening text)
                = encodeEvent (Encoder := ChatStream.ChatEncoder now) e (opening ""))
  /\ forall e : MessagesStream.streamEncoder, encodeEvent e (opening text) = encodeEvent e (opening "").
Proof.
  intros Hb text op. unfold MessagesStream.blockStart. rewrite Hb. by repeat split.
Qed.

(** ** Where the Messages decoder leaves the interface *)

(** A block the decoder does not model is skipped where it opens, but the first
    argument fragment of a server-side tool block opens a tool call with no name and
    no identifier at that index. *)
Lemma skipped_block_revives {MJ : MessagesStream.MessagesJson} d index raw raw' frag :
  MessagesStream.bk_Type (MessagesStream.unmarshalBlock raw) = "server_tool_use" ->
  MessagesStream.unmarshalDelta raw' = MessagesStream.mkBlockDelta "input_json_delta" "" frag "" -> frag <> "" ->
  MessagesStream.sd_open d !! index = None ->
  let '(d', evs) := MessagesStream.blockStart d index raw in
  evs = [] /\ (MessagesStream.blockDelta d' index raw').2
    = [StreamEventContentStart (Some (mkContentStart index (toolPart "" "")));
       StreamEventToolCallDelta (Some (mkToolCallDelta index "" "" frag))].
Proof.
  intros Hb Hd Hf Ho. unfold MessagesStream.blockStart. rewrite Hb. cbn. split; [done|].
  unfold MessagesStream.blockDelta. rewrite Hd, Ho. cbn. by destruct (String.eqb_spec frag "").
Qed.

(** The indexes of the Messages decoder are the backend's: when it skipped a block,
    the next one opens past the next free index, which the interface excludes. *)
Lemma skipped_block_leaves_gap {MJ : MessagesStream.MessagesJson} d index raw s :
  MessagesStream.bk_Type (MessagesStream.unmarshalBlock raw) = "text" -> index <> p_next s ->
  run false s (MessagesStream.blockStart d index raw).2 = None.
Proof.
  intros Hb Hi. unfold MessagesStream.blockStart. rewrite Hb. cbn. destruct s as [st n o dn]. cbn in *.
  destruct dn; [done|]. destruct st; [|done]. by destruct (Z.eqb_spec index n).
Qed.

(** ** A toy JSON engine *)

Fixpoint bitsOf (p : positive) : string :=
  match p with xH => "" | xO p => String "0" (bitsOf p) | xI p => String "1" (bitsOf p) end.

Fixpoint ofBits (s : string) : option positive :=
  match s with
  | EmptyString => Some xH
  | String "0" s => xO <$> ofBits s
  | String "1" s => xI <$> ofBits s
  | _ => None
  end.

Lemma ofBits_bitsOf p : ofBits (bitsOf p) = Some p.
Proof. induction p; cbn; by rewrite ?IHp. Qed.

Lemma bits_line p : oneLine (bitsOf p).
Proof.
  split.
  - induction p; cbn; by rewrite ?IHp.
  - unfold no_cr. induction p; [|done..]; cbn in *; by rewrite IHp.
Qed.

Fixpoint bitsOnly (s : string) : bool :=
  match s with EmptyString => true | String a t => (Ascii.eqb a "0" || Ascii.eqb a "1") && bitsOnly t end.

Lemma bitsOf_bits p : bitsOnly (bitsOf p) = true.
Proof. by induction p. Qed.

Lemma trimLeft_bits s : bitsOnly s = true -> TrimLeftSpace s = s.
Proof.
  destruct s as [|a s]; [done|]. cbn. intros [Ha _]%andb_true_iff. apply orb_true_iff in Ha.
  by destruct Ha as [Ha|Ha]; apply Ascii.eqb_eq in Ha as ->.
Qed.

Lemma str_rev_bits s acc : bitsOnly s = true -> bitsOnly acc = true -> bitsOnly (str_rev s acc) = true.
Proof.
  revert acc. induction s as [|a s IH]; intros acc; [done|]. cbn. intros [Ha Hs]%andb_true_iff Hacc.
  apply IH; [done|]. cbn. by rewrite Ha, Hacc.
Qed.

Lemma TrimSpace_bits s : bitsOnly s = true -> bitsOnly (TrimSpace s) = true.
Proof.
  intros H. unfold TrimSpace. rewrite (trimLeft_bits s) by done. rewrite trimLeft_bits by (by apply str_rev_bits).
  apply str_rev_bits; [|done]. by apply str_rev_bits.
Qed.

(** A value of a countable type, on one line. *)
Definition pack `{Countable A} (a : A) : string := bitsOf (encode a).
Definition unpack `{Countable A} (s : string) : option A := ofBits s ≫= decode.

Lemma unpack_pack `{Countable A} (a : A) : unpack (pack a) = Some a.
Proof. unfold unpack, pack. rewrite ofBits_bitsOf. cbn. apply decode_encode. Qed.

Section ToyChat.
Import ChatStream.

#[local] Instance outFunction_dec : EqDecision oaiOutFunction.
Proof. solve_decision. Defined.
#[local] Instance outTool_dec : EqDecision oaiOutTool.
Proof. solve_decision. Defined.
#[local] Instance outDelta_dec : EqDecision oaiOutDelta.
Proof. solve_decision. Defined.
#[local] Instance outChoice_dec : EqDecision oaiOutChoice.
Proof. solve_decision. Defined.
#[local] Instance outUsage_dec : EqDecision oaiOutUsage.
Proof. solve_decision. Defined.
#[local] Instance outChunk_dec : EqDecision oaiOutChunk.
Proof. solve_decision. Defined.

#[local] Instance outFunction_countable : Countable oaiOutFunction.
Proof. by refine (inj_countable' (fun f => (of_Name f, of_Arguments f)) (fun '(a, b) => mkOutFunction a b) _); intros []. Defined.
#[local] Instance outTool_countable : Countable oaiOutTool.
Proof.
  by refine (inj_countable' (fun t => (ot_Index t, ot_ID t, ot_Type t, ot_Function t))
    (fun '(a, b, c, d) => mkOutTool a b c d) _); intros [].
Defined.
#[local] Instance outDelta_countable : Countable oaiOutDelta.
Proof.
  by refine (inj_countable' (fun d => (od_Role d, od_Content d, od_ReasoningContent d, od_ToolCalls d))
    (fun '(a, b, c, d) => mkOutDelta a b c d) _); intros [].
Defined.
#[local] Instance outChoice_countable : Countable oaiOutChoice.
Proof.
  by refine (inj_countable' (fun c => (oc_Index c, oc_Delta c, oc_FinishReason c))
    (fun '(a, b, c) => mkOutChoice a b c) _); intros [].
Defined.
#[local] Instance outUsage_countable : Countable oaiOutUsage.
Proof.
  by refine (inj_countable' (fun u => (ou_PromptTokens u, ou_CompletionTokens u, ou_TotalTokens u))
    (fun '(a, b, c) => mkOutUsage a b c) _); intros [].
Defined.
#[local] Instance outChunk_countable : Countable oaiOutChunk.
Proof.
  by refine (inj_countable' (fun c => (ok_ID c, ok_Object c, ok_Created c, ok_Model c, ok_Choices c, ok_Usage c))
    (fun '(a, b, c, d, e, f) => mkOutChunk a b c d e f) _); intros [].
Defined.

(** The chunks of a backend's stream, by the name of each: the start and a text
    delta, a tool call with its arguments, and the finish with the usage. *)
Definition demoChunk (data : string) : option oaiChunk :=
  let one d fr u := Some (mkChunk "c1" "m1" [mkChunkChoice 0 d fr] u "") in
  if String.eqb data "text" then one (mkDelta "assistant" (Some "hi") None None []) None None
  else if String.eqb data "call" then one (mkDelta "" None None None [mkToolDelta 0 "t1" "function" "f" "{}"]) None None
  else if String.eqb data "stop" then one (mkDelta "" None None None []) (Some "tool_calls") (Some (mkOaiUsage 3 5))
  else None.

#[local] Instance toyChat : ChatJson := {
  unmarshalChunk data :=
    match demoChunk data with
    | Some ch => inr ch
    | None => match unpack data with
              | Some c => if validOut c then inr (readChunk c) else inl "invalid"
              | None => inl "syntax"
              end
    end;
  unmarshalError _ := mkOaiError "" "" "";
  marshalChunk c := inr (pack c);
  JSONString s := s;
}.

Lemma demoChunk_pack (c : oaiOutChunk) : demoChunk (pack c) = None.
Proof.
  assert (bitsOnly (pack c) = true) as H by apply bitsOf_bits. unfold demoChunk.
  by repeat (match goal with |- context [String.eqb ?a ?b] => destruct (String.eqb_spec a b) as [E|]; [by rewrite E in H|] end).
Qed.

Lemma readTool_valid t : validTool t = true -> validReadTool (readTool t) = true.
Proof.
  unfold validTool, validReadTool, readTool. destruct t as [i d ty [[n [a|]]|]]; cbn [ot_ID ot_Type ot_Function of_Name of_Arguments validOpt]; cbn;
    intros H; by repeat (apply andb_true_iff in H as [H ?]; rewrite ?H; try match goal with K : ?x = true |- context [?x] => rewrite K end).
Qed.

Lemma readChunk_valid c : validOut c = true -> validRead (readChunk c) = true.
Proof.
  unfold validOut, validRead. intros [[[Hi _]%andb_true_iff Hm]%andb_true_iff Hc]%andb_true_iff. cbn [readChunk ck_ID ck_Model ck_Choices].
  rewrite Hi, Hm. cbn [andb]. rewrite forallb_forall in Hc. apply forallb_forall. intros ? (ch & <- & Hin)%in_map_iff.
  specialize (Hc _ Hin). destruct ch as [i [[r ct rs ts]|] fr]; [|done]. cbn in Hc |- *.
  apply andb_true_iff in Hc as [[[[_ Hct]%andb_true_iff Hrs]%andb_true_iff Hts]%andb_true_iff _].
  cbn in Hct, Hrs, Hts. rewrite Hct, Hrs. cbn.
  rewrite forallb_forall in Hts. apply forallb_forall. intros ? (t & <- & Ht)%in_map_iff. by apply readTool_valid, Hts.
Qed.

#[local] Instance toyChatLaws : ChatJsonLaws.
Proof.
  split.
  - intros c Hv. exists (pack c). split; [done|]. split; [apply bits_line|]. split.
    + intros H. pose proof (TrimSpace_bits (pack c) (bitsOf_bits _)) as Hb. by rewrite H in Hb.
    + cbn [unmarshalChunk toyChat]. by rewrite demoChunk_pack, unpack_pack, Hv.
  - intros data ch. cbn [unmarshalChunk toyChat]. destruct (demoChunk data) as [ch'|] eqn:E.
    + intros [= <-]. unfold demoChunk in E.
      repeat (destruct (String.eqb data _); [injection E as <-; vm_compute; reflexivity|]). done.
    + destruct (unpack data) as [c|]; [|done]. destruct (validOut c) eqn:Hv; [|done]. intros [= <-]. by apply readChunk_valid.
Qed.

End ToyChat.

Section ToyMessages.
Import MessagesStream.

#[local] Instance outBlock_dec : EqDecision outBlock.
Proof. solve_decision. Defined.
#[local] Instance outBlockDelta_dec : EqDecision outDelta.
Proof. solve_decision. Defined.
#[local] Instance outFrame_dec : EqDecision outFrame.
Proof. solve_decision. Defined.

#[local] Instance outBlock_countable : Countable outBlock.
Proof.
  by refine (inj_countable'
    (fun b => match b with OutText => (0, "", "") | OutToolUse a b => (1, a, b) | OutThinking => (2, "", "") end)
    (fun '(k, a, b) => if k =? 0 then OutText else if k =? 1 then OutToolUse a b else OutThinking) _); intros [].
Defined.
#[local] Instance outBlockDelta_countable : Countable outDelta.
Proof.
  by refine (inj_countable'
    (fun d => match d with OutTextDelta a => (0, a) | OutInputJSON a => (1, a) | OutThinkingDelta a => (2, a) end)
    (fun '(k, a) => if k =? 0 then OutTextDelta a else if k =? 1 then OutInputJSON a else OutThinkingDelta a) _); intros [].
Defined.
#[local] Instance outFrame_countable : Countable outFrame.
Proof.
  by refine (inj_countable'
    (fun f => match f with
              | OutMessageStart a b => inl (inl (a, b))
              | OutBlockStart i b => inl (inr (inl (i, b)))
              | OutBlockDelta i d => inl (inr (inr (i, d)))
              | OutBlockStop i => inr (inl (inl i))
              | OutMessageDelta s o i => inr (inl (inr (s, o, i)))
              | OutMessageStop => inr (inr (inl tt))
              | OutError a b => inr (inr (inr (a, b)))
              end)
    (fun x => match x with
              | inl (inl (a, b)) => OutMessageStart a b
              | inl (inr (inl (i, b))) => OutBlockStart i b
              | inl (inr (inr (i, d))) => OutBlockDelta i d
              | inr (inl (inl i)) => OutBlockStop i
              | inr (inl (inr (s, o, i))) => OutMessageDelta s o i
              | inr (inr (inl _)) => OutMessageStop
              | inr (inr (inr (a, b))) => OutError a b
              end) _); intros [].
Defined.

(** A valid frame of these bits; the member that is read later is the frame's own
    bits. *)
Definition validUnpack (data : string) : option outFrame :=
  match unpack data with Some f => if validFrame f then Some f else None | None => None end.

#[local] Instance toyMessages : MessagesJson := {
  unmarshalPayload data := match validUnpack data with Some f => inr (payloadOf f data) | None => inl "syntax" end;
  unmarshalBlock raw := match validUnpack raw with Some (OutBlockStart _ b) => blockFields b | _ => mkBlock "" "" "" "" end;
  unmarshalDelta raw := match validUnpack raw with Some (OutBlockDelta _ d) => deltaFields d | _ => mkBlockDelta "" "" "" "" end;
  unmarshalStop raw := match validUnpack raw with Some (OutMessageDelta s _ _) => s | _ => "" end;
  marshalFrame f := inr (pack f);
}.

Lemma validUnpack_valid data f : validUnpack data = Some f -> validFrame f = true.
Proof. unfold validUnpack. destruct (unpack data) as [g|]; [|done]. destruct (validFrame g) eqn:E; [|done]. by intros [= <-]. Qed.

#[local] Instance toyMessagesLaws : MessagesJsonLaws.
Proof.
  split.
  - intros f Hv. exists (pack f), (pack f). split; [done|]. split; [apply bits_line|].
    assert (validUnpack (pack f) = Some f) as Hu by (unfold validUnpack; by rewrite unpack_pack, Hv).
    cbn [unmarshalPayload unmarshalBlock unmarshalDelta unmarshalStop toyMessages]. rewrite Hu. split; [done|]. by destruct f.
  - intros data p. cbn [unmarshalPayload toyMessages]. destruct (validUnpack data) as [f|] eqn:E; [|done]. intros [= <-].
    apply validUnpack_valid in E. destruct f; try done. by apply andb_true_iff in E.
  - intros raw. cbn [unmarshalBlock toyMessages]. destruct (validUnpack raw) as [f|] eqn:E; [|done].
    apply validUnpack_valid in E. destruct f as [|? [| |]| | | | |]; try done. by apply andb_true_iff in E as [].
  - intros raw. cbn [unmarshalDelta toyMessages]. destruct (validUnpack raw) as [f|] eqn:E; [|done].
    apply validUnpack_valid in E. by destruct f as [| |? []| | | |].
Qed.

End ToyMessages.

#[local] Instance toyGemini : GeminiStream.GeminiJson := {
  GeminiStream.quote s := s;
  GeminiStream.unmarshalChunk _ := inl "syntax";
  GeminiStream.unmarshalError _ := GeminiStream.mkGemError "" "";
  GeminiStream.unmarshalCall _ := None;
  GeminiStream.CompactRaw s := if String.eqb s "" then inl "empty" else inr s;
  GeminiStream.marshalFrame _ := inl "unused";
}.

#[local] Instance toyGeminiLaws : GeminiStream.GeminiJsonLaws.
Proof. split. intros raw c. cbn. destruct (String.eqb_spec raw ""); [done|]. by intros [= <-]. Qed.

(** A backend's stream: text, a tool call, the finish with the usage, the
    terminator, cut inside the second payload. *)
Definition demoStream : string :=
  AppendSSE (AppendSSE (AppendSSE (AppendSSE "" "" "text") "" "call") "" "stop") "" "[DONE]".
Definition demoCut : list (string * bool) := delivery [AppendSSE "" "" "text" ++ "data: ca"]%string
  (AppendSSE (AppendSSE ("ll" ++ String nl (String nl ""))%string "" "stop") "" "[DONE]").

#[local] Existing Instance toyChat.
#[local] Existing Instance toyChatLaws.
#[local] Existing Instance toyMessages.
#[local] Existing Instance toyMessagesLaws.

Definition demoEvents : list StreamEvent := Eval vm_compute in (decodeAll (ChatStream.NewStreamDecoder "openai") demoCut).1.1.

Lemma demo_decodes : (decodeAll (ChatStream.NewStreamDecoder "openai") demoCut).1 = (demoEvents, None).
Proof. vm_compute. reflexivity. Qed.

Lemma decoders_keep_contract_witness : exists s, run false opening demoEvents = Some s /\ p_done s = true.
Proof.
  destruct (decoders_keep_contract "openai" demoCut) as [(s & H) _]. exists s. pose proof demo_decodes as E.
  destruct (decodeAll _ demoCut) as [[evs err] d]. cbn in E. injection E as -> ->. destruct H as [Hr Hd].
  split; [exact Hr|]. apply Hd; [done|]. unfold demoCut, delivery, ended. by rewrite last_snoc.
Defined.

Lemma cut_is_invisible_witness :
  (decodeAll (ChatStream.NewStreamDecoder "openai") demoCut).1
  = (decodeAll (ChatStream.NewStreamDecoder "openai") (delivery [] demoStream)).1.
Proof.
  refine (proj1 (cut_is_invisible "openai" [AppendSSE "" "" "text" ++ "data: ca"]%string []
    (AppendSSE (AppendSSE ("ll" ++ String nl (String nl ""))%string "" "stop") "" "[DONE]") demoStream _)).
  vm_compute. reflexivity.
Defined.

Definition demoSaid : said := mkSaid "hi" "" "{}" [FinishReasonToolCalls].

Lemma translated_stream_carries_witness :
  says demoEvents = demoSaid /\ readByChat 7 None demoSaid demoEvents /\ readByMessages None demoSaid demoEvents.
Proof.
  refine (translated_stream_carries 7 None demoStream demoEvents demoSaid _ _ _ _ _ _ _).
  - replace demoSaid with (saidBy (D := ChatStream.chatStreamDecoder) demoStream) by (vm_compute; reflexivity).
    refine (SendsChat demoStream "openai" [AppendSSE "" "" "text" ++ "data: ca"]%string
      (AppendSSE (AppendSSE ("ll" ++ String nl (String nl ""))%string "" "stop") "" "[DONE]") demoEvents _ _).
    + vm_compute. reflexivity.
    + exact demo_decodes.
  - vm_compute. reflexivity.
  - reflexivity.
  - vm_compute. reflexivity.
  - repeat constructor; cbn; lia.
  - vm_compute. reflexivity.
Defined.

End StreamTranslate.
