(* ===== verification/SandboxManager.v ===== *)
(** * The sandbox manager

    [src/internal/worker/sandbox/manager.go] with [instance.go], [labels.go],
    [trust.go] and [state.go]: the table of tenant instances and the egress state
    the bridge reads.  The container runtime below it (image pulls, runsc) is a
    parameter: what it answers, and that it refuses an identifier it already has.

    [Create] and [Delete] take the lock more than once, so each is a sequence of
    atomic stages; the invariants hold whatever stages of other calls run in
    between. *)

From Stdlib Require Import ZArith Lia NArith Ascii String List.
From Stdlib Require Import Sorting.Permutation.
From Stdlib.Strings Require Import Byte.
From stdpp Require Import base strings list gmap pretty.
From coqutil Require Import Datatypes.RecordSettersUsingExistingGetters.
From S2P Require Import Prelude GoStrings GoPath ApiTypes Netip ProxyProto StateMount Egress EgressShape Bridge.
Import GoStrings ApiTypes Netip ProxyProto.

#[local] Open Scope string_scope.
#[local] Open Scope Z_scope.
#[local] Open Scope list_scope.

Module SandboxManager.

(** ** Addresses as text ([netip]) *)

Definition hexDigitOf (n : Z) : ascii :=
  if n <? 10 then ascii_of_N (Z.to_N (48 + n)) else ascii_of_N (Z.to_N (87 + n)).

(** [appendHex]: no leading zeros. *)
Definition hex16 (x : Z) : string :=
  let d k := hexDigitOf (Z.land (Z.shiftr x k) 15) in
  (if 4096 <=? x then String (d 12) "" else "") ++ (if 256 <=? x then String (d 8) "" else "")
  ++ (if 16 <=? x then String (d 4) "" else "") ++ String (d 0) "".

Definition group (v : Z) (i : nat) : Z := Z.land (Z.shiftr v (16 * (7 - Z.of_nat i))) 65535.

(** The end of the run of zero groups that starts at [i]. *)
Fixpoint zeroRun (v : Z) (fuel i : nat) : nat :=
  match fuel with
  | O => i
  | S f => if Nat.ltb i 8 && (group v i =? 0) then zeroRun v f (S i) else i
  end.

(** The first longest run of at least two zero groups. *)
Definition zeroSpan (v : Z) : option (nat * nat) :=
  fold_left (fun best i =>
    let j := zeroRun v 8 i in
    let len := (j - i)%nat in
    if Nat.leb 2 len && match best with Some (a, b) => Nat.ltb (b - a) len | None => true end
    then Some (i, j) else best) (seq 0 8) None.

Fixpoint groups6 (v : Z) (span : option (nat * nat)) (fuel i : nat) : string :=
  match fuel with
  | O => ""
  | S f =>
      if Nat.leb 8 i then ""
      else match span with
           | Some (a, b) =>
               if Nat.eqb i a then
                 "::" ++ (if Nat.leb 8 b then "" else hex16 (group v b) ++ groups6 v span f (S b))
               else (if Nat.eqb i 0 then "" else ":") ++ hex16 (group v i) ++ groups6 v span f (S i)
           | None => (if Nat.eqb i 0 then "" else ":") ++ hex16 (group v i) ++ groups6 v span f (S i)
           end
  end.

Definition dotted (v : Z) : string :=
  let o k := pretty (Z.land (Z.shiftr v k) 255) in
  (o 24 ++ "." ++ o 16 ++ "." ++ o 8 ++ "." ++ o 0)%string.

Definition zoned (zone : string) : string := if String.eqb zone "" then "" else ("%" ++ zone)%string.

(** [Addr.String] and [AddrPort.String]. *)
Definition AddrString (a : Addr) : string :=
  match a with
  | AddrInvalid => "invalid IP"
  | Addr4 v => dotted v
  | Addr6 v zone =>
      if Is4In6 a then ("::ffff:" ++ dotted (Z.land v 4294967295) ++ zoned zone)%string
      else (groups6 v (zeroSpan v) 8 0 ++ zoned zone)%string
  end.

Definition AddrPortString (p : AddrPort) : string :=
  match ap_addr p with
  | AddrInvalid => "invalid AddrPort"
  | Addr4 _ => (AddrString (ap_addr p) ++ ":" ++ pretty (ap_port p))%string
  | Addr6 _ _ => ("[" ++ AddrString (ap_addr p) ++ "]:" ++ pretty (ap_port p))%string
  end.

Example addrport4 : AddrPortString (mkAddrPort (Addr4 2130706443) 53) = "127.0.0.11:53".
Proof. vm_compute. reflexivity. Qed.
Example addrport6 : AddrPortString (mkAddrPort (Addr6 (Z.shiftl 64768 112 + Z.shiftl 60610 64 + 596) "") 53) = "[fd00:0:0:ecc2::254]:53".
Proof. vm_compute. reflexivity. Qed.

(** ** Lineage labels ([labels.go]) *)

Definition LabelAgentKind : string := "clrk.apoxy.dev/agent-kind".
Definition LabelAgentName : string := "clrk.apoxy.dev/agent-name".
Definition LabelAgentUID : string := "clrk.apoxy.dev/agent-uid".
Definition LabelNamespace : string := "clrk.apoxy.dev/namespace".
Definition LabelRevisionName : string := "clrk.apoxy.dev/revision-name".
Definition LabelInvocationID : string := "clrk.apoxy.dev/invocation-id".
Definition LabelAttempt : string := "clrk.apoxy.dev/attempt".
Definition LabelPodName : string := "clrk.apoxy.dev/worker-pod".
Definition LabelCreatedAt : string := "clrk.apoxy.dev/created-at".

Definition kindString (k : byte) : string :=
  match k with x00 => "DaemonAgent" | x01 => "TaskAgent" | _ => "Unknown" end.

(** [if v != "" { m[k] = v }] *)
Definition setNonEmpty (k v : string) (m : gmap string string) : gmap string string :=
  if String.eqb v "" then m else <[k := v]> m.

(** [now] is the time of the call, in RFC 3339. *)
Definition buildSandboxLabelMap (now : string) (identity : AgentIdentity) (podName : string) (attempt : Z)
    : gmap string string :=
  let m := <[LabelCreatedAt := now]> (<[LabelNamespace := ProxyProto.Namespace identity]>
             (<[LabelAgentName := ProxyProto.Name identity]> {[LabelAgentKind := kindString (Kind identity)]})) in
  let m := setNonEmpty LabelAgentUID (UID identity) m in
  let m := setNonEmpty LabelRevisionName (Revision identity) m in
  let m := setNonEmpty LabelInvocationID (InvocationID identity) m in
  let m := if 0 <? attempt then <[LabelAttempt := pretty attempt]> m else m in
  setNonEmpty LabelPodName podName m.

Definition buildSandboxAnnotations := buildSandboxLabelMap.

(** [range] is the order in which the map is walked. *)
Definition BuildLabels (range : list (string * string)) : list string :=
  List.map (fun kv => (fst kv ++ "=" ++ snd kv)%string) range.

(** ** The process environment *)

Record EnvVar := mkEnvVar { ev_Name : string; ev_Value : string }.

Definition trustEnvVars : list string :=
  ["SSL_CERT_FILE"; "REQUESTS_CA_BUNDLE"; "CURL_CA_BUNDLE"; "GIT_SSL_CAINFO"; "NODE_EXTRA_CA_CERTS"].

Definition trustEnv (sandboxPath : string) : list string :=
  List.map (fun name => (name ++ "=" ++ sandboxPath)%string) trustEnvVars.

Definition envVarsToStrings (envVars : list EnvVar) : list string :=
  List.map (fun ev => (ev_Name ev ++ "=" ++ ev_Value ev)%string) envVars.

Definition MetadataAddrV4 : string := "169.254.169.254".
Definition MetadataAddrV6 : string := "fd00:ec2::254".
Definition MetadataPort : Z := 80.

Definition defaultPath : string := "PATH=/usr/local/sbin:/usr/local/bin:/usr/sbin:/usr/bin:/sbin:/bin".

Definition hasPath (env : list string) : bool := existsb (fun e => HasPrefix e "PATH=") env.

Definition buildProcessEnv (userEnv : list EnvVar) : list string :=
  let env := trustEnv "/etc/ssl/certs/ca-certificates.crt"
             ++ [("CLRK_METADATA_URL=http://" ++ MetadataAddrV4 ++ "/v1")%string;
                 ("CLRK_METADATA_URL_V6=http://[" ++ MetadataAddrV6 ++ "]/v1")%string]
             ++ envVarsToStrings userEnv in
  if hasPath env then env else env ++ [defaultPath].

(** [None] is a nil slice. *)
Definition resolverStrings (resolvers : list AddrPort) : option (list string) :=
  match resolvers with [] => None | _ => Some (List.map AddrPortString resolvers) end.

(** ** The persistent state directory ([state.go]) *)

Definition clrkStateHostRoot : string := "/var/lib/clrk/state".

(** [filepath.Join] of non-empty elements. *)
Definition Join (elems : list string) : string :=
  GoPath.Clean (String.concat "/" (List.filter (fun e => negb (String.eqb e "")) elems)).

Definition stateHostPath (ns agent : string) : string := Join [clrkStateHostRoot; ns; agent].

(** What [filepath.WalkDir] reports at one path: an error of the walk, an entry
    that is no regular file, one whose [Info] fails, or a file with its size.  An
    error is that the path is gone, or another. *)
Inductive walkErr := NotExist | WalkFailed (e : string).
Inductive walkEntry := EntryErr (e : walkErr) | NotRegular | InfoErr (e : walkErr) | File (size : Z).

(** The callback, over the entries in order: the sum so far, and the error the walk
    ends with. *)
Fixpoint dirBytes (entries : list walkEntry) (cap total : Z) : Z * option string :=
  match entries with
  | [] => (total, None)
  | EntryErr NotExist :: rest | NotRegular :: rest | InfoErr NotExist :: rest => dirBytes rest cap total
  | EntryErr (WalkFailed e) :: _ | InfoErr (WalkFailed e) :: _ => (total, Some e)
  | File size :: rest =>
      let total := int64 (total + size) in
      if cap <=? total then (total, None) else dirBytes rest cap total
  end.

Definition dirBytesUpTo (entries : list walkEntry) (cap : Z) : Z * option string := dirBytes entries cap 0.

(** The errors of [Create]. *)
Inductive CreateError :=
| ErrAlreadyExists
| ErrEnsureImage (e : string)
| ErrStageCA (e : string)
| ErrMkdirState (path e : string)
| ErrMeasure (path e : string)
| ErrStateOverLimit (used cap : Z)
| ErrCore (e : string).

(** The worker's file system, as the manager meets it. *)
Class Host := {
  lstat : string -> StateMount.file_kind;         (* of a path of a rootfs *)
  mkdirAll : string -> option string;
  writeFile : string -> option string;
  walk : string -> list walkEntry;
}.

Section Manager.
Context {HH : Host}.

Definition ensureStateDir (ns agent : string) (sizeLimitMB : Z) : CreateError + string :=
  let host := stateHostPath ns agent in
  match mkdirAll host with
  | Some e => inl (ErrMkdirState host e)
  | None =>
      if sizeLimitMB <=? 0 then inr host
      else
        let cap := sizeLimitMB * 1024 * 1024 in
        match dirBytesUpTo (walk host) cap with
        | (_, Some e) => inl (ErrMeasure host e)
        | (used, None) => if cap <=? used then inl (ErrStateOverLimit used cap) else inr host
        end
  end.

(** ** Requests, instances, and the runtime below *)

(** [corev1] quantities, by what is read of them. *)
Record Quantity := mkQuantity { IsZero : bool; MilliValue : Z; Value : Z }.
Record ExecutionResources := mkResources { CPU : Quantity; Memory : Quantity }.

(** The sandbox template with its environment. *)
Record SandboxTemplate := mkTemplate { sb : AgentSandbox; Env : list EnvVar }.

Record CreateRequest := mkCreateRequest {
  rq_ID : string;
  rq_AgentRef : string;
  rq_Identity : AgentIdentity;
  CAPEM : string;
  rq_Sandbox : SandboxTemplate;
  rq_Resources : ExecutionResources;
  State : option AgentState;
  Stdio : bool;
  Attempt : Z;
}.

Record EgressInit := mkEgressInit {
  IMDSHostAddr : string;
  EgressHostAddr : string;
  IMDSV4 : string;
  IMDSV6 : string;
  DNSResolvers : option (list string);
}.

(** [sandboxcore.Spec]. *)
Record Spec := mkSpec {
  sp_ID : string;
  sp_Image : string;
  sp_Command : list string;
  sp_Args : list string;
  sp_Env : list string;
  CPUMillis : Z;
  MemBytes : Z;
  Mounts : list StateMount.Mount;
  Annotations : gmap string string;
  sp_Stdio : bool;
  sp_Egress : EgressInit;
}.

(** [sandboxcore.Manager]: its state, what it answers, and which identifiers it
    has. *)
Class Core := {
  CoreState : Type;
  CoreInstance : Type;
  coreEnsureImage : CoreState -> string -> CoreState * (string + string);
  coreCreate : CoreState -> Spec -> CoreState * (CreateError + CoreInstance);
  coreDelete : CoreState -> string -> CoreState * option string;
  coreStatus : CoreState -> string -> CoreState * option string;
}.
Context {CC : Core}.

Record Instance_ := mkInstance {
  in_Core : CoreInstance;
  in_AgentRef : string;
  in_Namespace : string;
  in_Sandbox : SandboxTemplate;
  in_Resources : ExecutionResources;
  in_Identity : AgentIdentity;
}.

(** The fixed fields of the manager. *)
Record Manager := mkManager {
  rootDir : string;
  podName : string;
  imdsHostAddr : string;
  egressHostAddr : string;
  workerResolvers : list AddrPort;
}.

(** What the calls share: the heap of instances, which callers hold pointers to, the
    two tables, the trust files on the host, and the runtime. *)
Record world := mkWorld {
  heap : gmap nat Instance_;
  nextLoc : nat;
  instances : gmap string nat;
  egressStates : gmap string Bridge.EgressState;
  trust : gmap string string;
  core : CoreState;
}.

Definition zeroIdentity : AgentIdentity := mkIdentity x00 "" "" "" "" "" "".

(** [&EgressState{}] *)
Definition zeroEgress : Bridge.EgressState := Bridge.mkEgressState zeroIdentity [] None.

(** [egressStateLocked]: the record of [id], created on first use. *)
Definition egressStateLocked (w : world) (id : string) : Bridge.EgressState := default zeroEgress (egressStates w !! id).

(** A write through the pointer [egressStateLocked] returns. *)
Definition updateEgress (w : world) (id : string) (f : Bridge.EgressState -> Bridge.EgressState) : world :=
  w <| egressStates := <[id := f (egressStateLocked w id)]> (egressStates w) |>.

Definition LookupEgressState (w : world) (sandboxID : string) : option Bridge.EgressState := egressStates w !! sandboxID.

(** [m.instances[id]], through the pointer. *)
Definition instanceOf (w : world) (id : string) : option Instance_ :=
  match instances w !! id with Some l => heap w !! l | None => None end.

Definition trustPath (m : Manager) (id : string) : string := Join [rootDir m; (id ++ "-trust")%string; "ca.crt"].

(** [writeAgentCA]; a failed write leaves the directory. *)
Definition writeAgentCA (m : Manager) (w : world) (id caPEM : string) : world * (string + string) :=
  match mkdirAll (Join [rootDir m; (id ++ "-trust")%string]) with
  | Some e => (w, inl ("creating trust dir: " ++ e)%string)
  | None =>
      match writeFile (trustPath m id) with
      | Some e => (w, inl ("writing ca.crt: " ++ e)%string)
      | None => (w <| trust := <[id := caPEM]> (trust w) |>, inr (trustPath m id))
      end
  end.

Definition removeAgentCA (w : world) (id : string) : world := w <| trust := delete id (trust w) |>.

(** [buildTrustMounts], below the given root file system. *)
Definition trustMounts (rootfs caPath : string) : list StateMount.Mount :=
  StateMount.buildTrustMounts (fun target => lstat (Join [rootfs; target])) caPath.

(** ** Create, stage by stage

    Between two stages other calls may run. *)

Inductive creating :=
| CCheck (req : CreateRequest)
| CImage (req : CreateRequest)
| CStage (req : CreateRequest) (rootfs : string)
| CState (req : CreateRequest) (caWritten : bool) (mounts : list StateMount.Mount)
| CCore (req : CreateRequest) (caWritten : bool) (mounts : list StateMount.Mount)
| CCommit (req : CreateRequest) (inst : CoreInstance)
| CDone (r : CreateError + nat).

(** [m.removeAgentCA(req.ID)] when the CA was written. *)
Definition cleanupCA (w : world) (req : CreateRequest) (caWritten : bool) : world :=
  if caWritten then removeAgentCA w (rq_ID req) else w.

Definition specOf (m : Manager) (now : string) (req : CreateRequest) (mounts : list StateMount.Mount) : Spec :=
  mkSpec (rq_ID req) (Image (sb (rq_Sandbox req))) (Command (sb (rq_Sandbox req))) (Args (sb (rq_Sandbox req)))
    (buildProcessEnv (Env (rq_Sandbox req)))
    (if IsZero (CPU (rq_Resources req)) then 0 else MilliValue (CPU (rq_Resources req)))
    (if IsZero (Memory (rq_Resources req)) then 0 else Value (Memory (rq_Resources req)))
    mounts (buildSandboxAnnotations now (rq_Identity req) (podName m) (Attempt req)) (Stdio req)
    (mkEgressInit (imdsHostAddr m) (egressHostAddr m)
       (MetadataAddrV4 ++ ":" ++ pretty MetadataPort)%string
       ("[" ++ MetadataAddrV6 ++ "]:" ++ pretty MetadataPort)%string
       (resolverStrings (workerResolvers m))).

(** The locked section that ends a successful call. *)
Definition commitCreate (w : world) (req : CreateRequest) (ci : CoreInstance) : world * nat :=
  let l := nextLoc w in
  let inst := mkInstance ci (rq_AgentRef req) (ProxyProto.Namespace (rq_Identity req)) (rq_Sandbox req)
                (rq_Resources req) (rq_Identity req) in
  let w := w <| heap := <[l := inst]> (heap w) |> <| nextLoc := S l |> <| instances := <[rq_ID req := l]> (instances w) |> in
  (updateEgress w (rq_ID req) (fun st => Bridge.mkEgressState (rq_Identity req) (Bridge.st_backends st) (Bridge.st_policy st)), l).

Definition createStage (m : Manager) (now : string) (w : world) (c : creating) : world * creating :=
  match c with
  | CCheck req =>
      match instances w !! rq_ID req with
      | Some _ => (w, CDone (inl ErrAlreadyExists))
      | None => (w, CImage req)
      end
  | CImage req =>
      match coreEnsureImage (core w) (Image (sb (rq_Sandbox req))) with
      | (c, inl e) => (w <| core := c |>, CDone (inl (ErrEnsureImage e)))
      | (c, inr rootfs) => (w <| core := c |>, CStage req rootfs)
      end
  | CStage req rootfs =>
      if String.eqb (CAPEM req) "" then (w, CState req false [])
      else match writeAgentCA m w (rq_ID req) (CAPEM req) with
           | (w, inl e) => (w, CDone (inl (ErrStageCA e)))
           | (w, inr caPath) => (w, CState req true (trustMounts rootfs caPath))
           end
  | CState req caWritten mounts =>
      match State req with
      | None => (w, CCore req caWritten mounts)
      | Some st =>
          match ensureStateDir (ProxyProto.Namespace (rq_Identity req)) (rq_AgentRef req) (SizeLimitMB st) with
          | inl e => (cleanupCA w req caWritten, CDone (inl e))
          | inr hostPath => (w, CCore req caWritten (mounts ++ [StateMount.buildStateMount hostPath (State req)]))
          end
      end
  | CCore req caWritten mounts =>
      match coreCreate (core w) (specOf m now req mounts) with
      | (c, inl e) => (cleanupCA (w <| core := c |>) req caWritten, CDone (inl e))
      | (c, inr ci) => (w <| core := c |>, CCommit req ci)
      end
  | CCommit req ci => let '(w, l) := commitCreate w req ci in (w, CDone (inr l))
  | CDone r => (w, CDone r)
  end.

(** [Create], undisturbed. *)
Fixpoint runCreate (m : Manager) (now : string) (fuel : nat) (w : world) (c : creating) : world * creating :=
  match fuel with
  | O => (w, c)
  | S f => let '(w, c) := createStage m now w c in runCreate m now f w c
  end.
Definition Create (m : Manager) (now : string) (w : world) (req : CreateRequest) : world * creating :=
  runCreate m now 6 w (CCheck req).

(** ** Delete: the runtime, the trust directory, the tables *)

Inductive deleting := DCore (id : string) | DTrust (id : string) (r : option string) | DTables (id : string) (r : option string)
| DDone (r : option string).

Definition deleteStage (w : world) (d : deleting) : world * deleting :=
  match d with
  | DCore id => let '(c, r) := coreDelete (core w) id in (w <| core := c |>, DTrust id r)
  | DTrust id r => (removeAgentCA w id, DTables id r)
  | DTables id r => (w <| instances := delete id (instances w) |> <| egressStates := delete id (egressStates w) |>, DDone r)
  | DDone r => (w, DDone r)
  end.

Definition Delete (w : world) (id : string) : world * deleting :=
  let '(w, d) := deleteStage w (DCore id) in
  let '(w, d) := deleteStage w d in
  deleteStage w d.

(** ** The calls of one locked section *)

(** [None] is [ErrNotFound]. *)
Definition SetEgressBackends (w : world) (id : string) (backends : list EgressShape.BackendListener) : option world :=
  match instances w !! id with
  | None => None
  | Some _ => Some (updateEgress w id (fun st => Bridge.mkEgressState (Bridge.st_identity st) backends (Bridge.st_policy st)))
  end.

Definition SetEgressPolicy (w : world) (id : string) (policy : option Egress.handle) : option world :=
  match instances w !! id with
  | None => None
  | Some _ => Some (updateEgress w id (fun st => Bridge.mkEgressState (Bridge.st_identity st) (Bridge.st_backends st) policy))
  end.

(** [identity.InvocationID = invocationID] *)
Definition withInvocation (invocationID : string) (i : AgentIdentity) : AgentIdentity :=
  mkIdentity (Kind i) (ProxyProto.Namespace i) (ProxyProto.Name i) (UID i) (Revision i) invocationID (SandboxID i).

Definition SetInvocationID (w : world) (id invocationID : string) : option world :=
  match instances w !! id with
  | None => None
  | Some l =>
      let w := w <| heap := alter (fun inst => inst <| in_Identity := withInvocation invocationID (in_Identity inst) |>) l (heap w) |> in
      Some (updateEgress w id (fun st => Bridge.mkEgressState (withInvocation invocationID (Bridge.st_identity st))
              (Bridge.st_backends st) (Bridge.st_policy st)))
  end.

(** [Status]: the runtime's error, or not found, or the instance. *)
Definition Status (w : world) (id : string) : world * ((option string) + Instance_) :=
  match coreStatus (core w) id with
  | (c, Some e) => (w <| core := c |>, inl (Some e))
  | (c, None) => (w <| core := c |>, match instanceOf w id with Some inst => inr inst | None => inl None end)
  end.

Definition List_ (w : world) : list Instance_ := omap (fun kl => heap w !! snd kl) (map_to_list (instances w)).

(** ** Interleaving

    The calls in flight, each at its stage, and the steps they take one at a time. *)

Inductive call := Creating (c : creating) | Deleting (d : deleting).

Record system := mkSystem { shared : world; calls : gmap nat call }.

(** What a step means to an observer of the tables. *)
Inductive action := Registered (req : CreateRequest) | Removed (id : string) | Invoked (id inv : string) | Internal.

Definition createAction (c : creating) : action := match c with CCommit req _ => Registered req | _ => Internal end.
Definition deleteAction (d : deleting) : action := match d with DTables id _ => Removed id | _ => Internal end.

Inductive step (m : Manager) : system -> action -> system -> Prop :=
| step_create t req s : calls s !! t = None ->
    step m s Internal (s <| calls := <[t := Creating (CCheck req)]> (calls s) |>)
| step_delete t id s : calls s !! t = None ->
    step m s Internal (s <| calls := <[t := Deleting (DCore id)]> (calls s) |>)
| step_creating t now c w c' s : calls s !! t = Some (Creating c) -> createStage m now (shared s) c = (w, c') ->
    step m s (createAction c) (mkSystem w (<[t := Creating c']> (calls s)))
| step_deleting t d w d' s : calls s !! t = Some (Deleting d) -> deleteStage (shared s) d = (w, d') ->
    step m s (deleteAction d) (mkSystem w (<[t := Deleting d']> (calls s)))
| step_backends id backends w s : SetEgressBackends (shared s) id backends = Some w -> step m s Internal (s <| shared := w |>)
| step_policy id policy w s : SetEgressPolicy (shared s) id policy = Some w -> step m s Internal (s <| shared := w |>)
| step_invocation id inv w s : SetInvocationID (shared s) id inv = Some w -> step m s (Invoked id inv) (s <| shared := w |>)
| step_status id s : step m s Internal (s <| shared := (Status (shared s) id).1 |>).

Definition initial (c : CoreState) : system := mkSystem (mkWorld ∅ 0 ∅ ∅ ∅ c) ∅.

(** A run, with its actions. *)
Inductive runs (m : Manager) (c : CoreState) : list action -> system -> Prop :=
| runs_initial : runs m c [] (initial c)
| runs_step tr s a s' : runs m c tr s -> step m s a s' -> runs m c (tr ++ [a]) s'.

(** The registry the manager is for: the identity of every live sandbox, set when it
    is registered, stamped with each invocation, dropped with the sandbox. *)
Definition act (r : gmap string AgentIdentity) (a : action) : gmap string AgentIdentity :=
  match a with
  | Registered req => <[rq_ID req := rq_Identity req]> r
  | Removed id => delete id r
  | Invoked id inv => alter (withInvocation inv) id r
  | Internal => r
  end.
Definition identityRegistry (tr : list action) : gmap string AgentIdentity := fold_left act tr ∅.

(** ** The tables agree

    Every tracked sandbox has an instance and an egress state, which agree on the
    identity; pointers are not shared between sandboxes; and nothing else has an
    egress state. *)

Record tables (w : world) : Prop := {
  tb_dom id : is_Some (instances w !! id) <-> is_Some (egressStates w !! id);
  tb_agree id l st : instances w !! id = Some l -> egressStates w !! id = Some st ->
    exists inst, heap w !! l = Some inst /\ Bridge.st_identity st = in_Identity inst
      /\ in_Namespace inst = ProxyProto.Namespace (in_Identity inst);
  tb_inj id id' l : instances w !! id = Some l -> instances w !! id' = Some l -> id = id';
  tb_below l : is_Some (heap w !! l) -> (l < nextLoc w)%nat;
}.

(** Computes the fields of an updated record. *)
#[local] Ltac fields := cbn; unfold const; cbn.

(** A write to the runtime or to the trust files does not touch them. *)
Lemma tables_frame w w' :
  heap w' = heap w -> nextLoc w' = nextLoc w -> instances w' = instances w -> egressStates w' = egressStates w ->
  tables w -> tables w'.
Proof. intros H1 H2 H3 H4 [T1 T2 T3 T4]. split; rewrite ?H1, ?H2, ?H3, ?H4; auto. Qed.

Lemma tables_commit w req ci : tables w -> tables (commitCreate w req ci).1.
Proof.
  intros [T1 T2 T3 T4]. unfold commitCreate, updateEgress, egressStateLocked. fields.
  assert (heap w !! nextLoc w = None) as Hfresh.
  { destruct (heap w !! nextLoc w) eqn:E; [|done]. assert (nextLoc w < nextLoc w)%nat by (by apply T4; eauto). lia. }
  assert (forall id l, instances w !! id = Some l -> l <> nextLoc w) as Hold.
  { intros id l Hi ->. assert (is_Some (egressStates w !! id)) as [st Hs] by (apply T1; eauto).
    destruct (T2 _ _ _ Hi Hs) as (inst & H & _). congruence. }
  split; fields.
  - intros id. destruct (decide (id = rq_ID req)) as [->|Hne]; [rewrite !lookup_insert_eq; split; eauto|].
    by rewrite !lookup_insert_ne by done.
  - intros id l st. destruct (decide (id = rq_ID req)) as [->|Hne].
    + rewrite !lookup_insert_eq. intros [= <-] [= <-]. eexists. rewrite lookup_insert_eq. by repeat split.
    + rewrite !lookup_insert_ne by done. intros Hi Hs. destruct (T2 _ _ _ Hi Hs) as (inst & H & H').
      exists inst. rewrite lookup_insert_ne; [done|]. apply not_eq_sym. by eapply Hold.
  - intros id id' l. destruct (decide (id = rq_ID req)) as [->|Hne], (decide (id' = rq_ID req)) as [->|Hne'];
      rewrite ?lookup_insert_eq, ?lookup_insert_ne by done; [done| | |by apply T3].
    + intros [= <-] H. by edestruct Hold.
    + intros H [= <-]. by edestruct Hold.
  - intros l. destruct (decide (l = nextLoc w)) as [->|Hne]; [lia|]. rewrite lookup_insert_ne by done.
    intros H%T4. lia.
Qed.

Lemma tables_update w id f :
  is_Some (instances w !! id) -> (forall st, Bridge.st_identity (f st) = Bridge.st_identity st) ->
  tables w -> tables (updateEgress w id f).
Proof.
  intros Hi Hf [T1 T2 T3 T4]. unfold updateEgress, egressStateLocked. split; fields; auto.
  - intros i. destruct (decide (i = id)) as [->|Hne]; [rewrite lookup_insert_eq; split; eauto|].
    by rewrite lookup_insert_ne by done.
  - intros i l st Hl. destruct (decide (i = id)) as [->|Hne].
    + rewrite lookup_insert_eq. intros [= <-]. rewrite Hf. destruct (proj1 (T1 id) Hi) as [st Hs]. rewrite Hs. cbn. eauto.
    + rewrite lookup_insert_ne by done. eauto.
Qed.

Lemma tables_invocation w id inv w' : SetInvocationID w id inv = Some w' -> tables w -> tables w'.
Proof.
  unfold SetInvocationID. destruct (instances w !! id) as [l|] eqn:El; [|done]. intros [= <-] [T1 T2 T3 T4].
  unfold updateEgress, egressStateLocked. split; fields; auto.
  - intros i. destruct (decide (i = id)) as [->|Hne]; [rewrite lookup_insert_eq; rewrite El; split; eauto|].
    by rewrite lookup_insert_ne by done.
  - intros i l' st Hl. destruct (decide (i = id)) as [->|Hne].
    + rewrite lookup_insert_eq. intros [= <-]. assert (is_Some (egressStates w !! id)) as [st Hs] by (apply T1; eauto).
      rewrite El in Hl. injection Hl as <-. destruct (T2 _ _ _ El Hs) as (inst & Hh & Ha & Hn). rewrite Hs. cbn.
      rewrite lookup_alter_eq, Hh. cbn. eexists. split; [done|]. cbn. by rewrite Ha.
    + rewrite lookup_insert_ne by done. intros Hs. destruct (T2 _ _ _ Hl Hs) as (inst & Hh & H').
      exists inst. rewrite lookup_alter_ne; [done|]. intros ->. by apply Hne, (T3 i id l').
  - intros l'. rewrite lookup_alter. case_decide; [|apply T4]. subst. intros H%fmap_is_Some. by apply T4.
Qed.

Lemma tables_create m now w c : tables w -> tables (createStage m now w c).1.
Proof.
  intros T. destruct c as [req|req|req rootfs|req b ms|req b ms|req ci|r]; cbn; [..|done].
  - by destruct (instances w !! rq_ID req).
  - destruct (coreEnsureImage _ _) as [c [e|r]]; by apply (tables_frame w).
  - destruct (String.eqb _ _); [done|]. unfold writeAgentCA. destruct (mkdirAll _); [done|]. destruct (writeFile _); [done|].
    by apply (tables_frame w).
  - destruct (State req); [|done]. destruct (ensureStateDir _ _ _); [|done]. destruct b; [|done]. by apply (tables_frame w).
  - destruct (coreCreate _ _) as [c [e|ci]]; [|by apply (tables_frame w)]. destruct b; by apply (tables_frame w).
  - exact (tables_commit w req ci T).
Qed.

Lemma tables_delete w d : tables w -> tables (deleteStage w d).1.
Proof.
  intros T. destruct d as [id|id r|id r|r]; cbn; [| | |done].
  - destruct (coreDelete _ _). by apply (tables_frame w).
  - by apply (tables_frame w).
  - destruct T as [T1 T2 T3 T4]. split; fields; auto.
    + intros i. destruct (decide (i = id)) as [->|Hne]; [by rewrite !lookup_delete_eq|]. by rewrite !lookup_delete_ne.
    + intros i l st. rewrite !lookup_delete_Some. intros [_ H1] [_ H2]. eauto.
    + intros i j l. rewrite !lookup_delete_Some. intros [_ H1] [_ H2]. eauto.
Qed.

Lemma tables_step m s a s' : step m s a s' -> tables (shared s) -> tables (shared s').
Proof.
  intros H T. destruct H as [t req s H|t id s H|t now c w c' s _ H|t d w d' s _ H|id b w s H|id p w s H|id i w s H|id s]; try done.
  - pose proof (tables_create m now (shared s) c T) as Hc. by rewrite H in Hc.
  - pose proof (tables_delete (shared s) d T) as Hc. by rewrite H in Hc.
  - unfold SetEgressBackends in H. destruct (instances _ !! id) eqn:E; [|done]. injection H as <-. cbn. apply tables_update; eauto.
  - unfold SetEgressPolicy in H. destruct (instances _ !! id) eqn:E; [|done]. injection H as <-. cbn. apply tables_update; eauto.
  - cbn. by eapply tables_invocation.
  - cbn. unfold Status. destruct (coreStatus _ _) as [c [e|]]; cbn; by apply (tables_frame (shared s)).
Qed.

Lemma tables_runs m c tr s : runs m c tr s -> tables (shared s).
Proof.
  induction 1 as [|tr s a s' _ IH Hs]; [|by eapply tables_step].
  split; cbn; intros *; rewrite ?lookup_empty; intros; try done.
Qed.

(** What the bridge is told of the identities. *)
Definition identities (w : world) : gmap string AgentIdentity := Bridge.st_identity <$> egressStates w.

Lemma identities_update w id f g : is_Some (egressStates w !! id) -> (forall st, Bridge.st_identity (f st) = g (Bridge.st_identity st)) ->
  identities (updateEgress w id f) = alter g id (identities w).
Proof.
  intros [st Hs] Hf. unfold identities, updateEgress, egressStateLocked. fields. rewrite Hs. cbn. apply map_eq. intros i.
  destruct (decide (i = id)) as [->|Hne].
  - by rewrite lookup_fmap, lookup_insert_eq, lookup_alter_eq, lookup_fmap, Hs; cbn; rewrite Hf.
  - by rewrite lookup_fmap, lookup_insert_ne, lookup_alter_ne, lookup_fmap.
Qed.

Lemma identities_create m now w c : identities (createStage m now w c).1 = act (identities w) (createAction c).
Proof.
  destruct c as [req|req|req rootfs|req b ms|req b ms|req ci|r]; cbn; [..|done].
  - by destruct (instances w !! rq_ID req).
  - by destruct (coreEnsureImage _ _) as [c [e|r]].
  - destruct (String.eqb _ _); [done|]. unfold writeAgentCA. destruct (mkdirAll _); [done|]. by destruct (writeFile _).
  - destruct (State req); [|done]. destruct (ensureStateDir _ _ _); [|done]. by destruct b.
  - destruct (coreCreate _ _) as [c [e|ci]]; [|done]. by destruct b.
  - unfold identities, updateEgress. fields. by rewrite fmap_insert.
Qed.

Lemma identities_step m s a s' : tables (shared s) -> step m s a s' -> identities (shared s') = act (identities (shared s)) a.
Proof.
  intros T H. destruct H as [t req s H|t id s H|t now c w c' s _ H|t d w d' s _ H|id b w s H|id p w s H|id i w s H|id s]; try done.
  - rewrite <- (identities_create m now), H. done.
  - destruct d as [id|id r|id r|r]; cbn in H; [destruct (coreDelete _ _)| | |]; injection H as <- <-; try done.
    unfold identities. fields. apply fmap_delete.
  - unfold SetEgressBackends in H. destruct (instances _ !! id) eqn:E; [|done]. injection H as H.
    change (identities w = identities (shared s)). rewrite <- H, (identities_update _ _ _ (fun x => x)); [|by apply T; eauto|done].
    by apply alter_id.
  - unfold SetEgressPolicy in H. destruct (instances _ !! id) eqn:E; [|done]. injection H as H.
    change (identities w = identities (shared s)). rewrite <- H, (identities_update _ _ _ (fun x => x)); [|by apply T; eauto|done].
    by apply alter_id.
  - unfold SetInvocationID in H. destruct (instances _ !! id) eqn:E; [|done]. injection H as H.
    change (identities w = alter (withInvocation i) id (identities (shared s))). rewrite <- H.
    erewrite identities_update; [done| |done]. by apply T; eauto.
  - cbn. unfold Status. by destruct (coreStatus _ _) as [c [e|]].
Qed.

(** C24: the bridge is told the identity of the sandbox, and the invocation it runs.
    However the stages of concurrent calls interleave, the egress state of an
    identifier exists exactly while the registry has the sandbox: from the
    registration of a request to its removal.  Its identity is the one of the
    request, stamped with the last invocation that was set since; the instance
    callers hold has the same one, and its own copy of the namespace agrees. *)
Theorem egress_identity_registered (m : Manager) (c : CoreState) (tr : list action) (s : system) :
  runs m c tr s ->
  forall id, Bridge.st_identity <$> LookupEgressState (shared s) id = identityRegistry tr !! id
    /\ in_Identity <$> instanceOf (shared s) id = identityRegistry tr !! id
    /\ (forall inst, instanceOf (shared s) id = Some inst -> in_Namespace inst = ProxyProto.Namespace (in_Identity inst)).
Proof.
  intros H id. pose proof (tables_runs _ _ _ _ H) as T.
  assert (identities (shared s) = identityRegistry tr) as Hreg.
  { clear T. induction H as [|tr s a s' H IH Hs]; [done|]. rewrite (identities_step _ _ _ _ (tables_runs _ _ _ _ H) Hs), IH.
    unfold identityRegistry. by rewrite fold_left_app. }
  rewrite <- Hreg. unfold identities. rewrite lookup_fmap. split; [done|]. unfold LookupEgressState, instanceOf.
  destruct (instances (shared s) !! id) as [l|] eqn:El, (egressStates (shared s) !! id) as [st|] eqn:Es.
  - destruct (tb_agree _ T _ _ _ El Es) as (inst & Hh & Hi & Hn). rewrite Hh. cbn. rewrite Hi.
    split; [done|]. by intros ? [= <-].
  - assert (is_Some (egressStates (shared s) !! id)) as [? ?] by (apply T; eauto). congruence.
  - assert (is_Some (instances (shared s) !! id)) as [? ?] by (apply T; eauto). congruence.
  - done.
Qed.

(** ** An undisturbed Create *)

Lemma commit_lookup w req ci :
  let '(w', l) := commitCreate w req ci in
  instances w' !! rq_ID req = Some l /\ LookupEgressState w' (rq_ID req)
    = Some (Bridge.mkEgressState (rq_Identity req) (Bridge.st_backends (egressStateLocked w (rq_ID req)))
              (Bridge.st_policy (egressStateLocked w (rq_ID req)))).
Proof. unfold commitCreate, LookupEgressState, updateEgress. fields. by rewrite !lookup_insert_eq. Qed.

(** [Create] as one case analysis: what it staged, and what came of it. *)
Definition staged (m : Manager) (w : world) (req : CreateRequest) (rootfs : string)
    : world * (CreateError + bool * list StateMount.Mount) :=
  if String.eqb (CAPEM req) "" then (w, inr (false, []))
  else match writeAgentCA m w (rq_ID req) (CAPEM req) with
       | (w, inl e) => (w, inl (ErrStageCA e))
       | (w, inr caPath) => (w, inr (true, trustMounts rootfs caPath))
       end.

Definition withState (req : CreateRequest) (mounts : list StateMount.Mount) : CreateError + list StateMount.Mount :=
  match State req with
  | None => inr mounts
  | Some st =>
      match ensureStateDir (ProxyProto.Namespace (rq_Identity req)) (rq_AgentRef req) (SizeLimitMB st) with
      | inl e => inl e
      | inr hostPath => inr (mounts ++ [StateMount.buildStateMount hostPath (State req)])
      end
  end.

Lemma Create_eq m now w req :
  Create m now w req =
  match instances w !! rq_ID req with
  | Some _ => (w, CDone (inl ErrAlreadyExists))
  | None =>
      match coreEnsureImage (core w) (Image (sb (rq_Sandbox req))) with
      | (c, inl e) => (w <| core := c |>, CDone (inl (ErrEnsureImage e)))
      | (c, inr rootfs) =>
          match staged m (w <| core := c |>) req rootfs with
          | (w, inl e) => (w, CDone (inl e))
          | (w, inr (ca, mounts)) =>
              match withState req mounts with
              | inl e => (cleanupCA w req ca, CDone (inl e))
              | inr mounts =>
                  match coreCreate (core w) (specOf m now req mounts) with
                  | (c, inl e) => (cleanupCA (w <| core := c |>) req ca, CDone (inl e))
                  | (c, inr ci) => let '(w, l) := commitCreate (w <| core := c |>) req ci in (w, CDone (inr l))
                  end
              end
          end
      end
  end.
Proof.
  unfold Create. cbn [runCreate createStage]. destruct (instances w !! rq_ID req); [done|]. cbn [runCreate createStage].
  destruct (coreEnsureImage (core w) (Image (sb (rq_Sandbox req)))) as [c [e|rootfs]]; [done|]. cbn [runCreate createStage].
  unfold staged. set (w1 := w <| core := c |>). clearbody w1.
  destruct (String.eqb (CAPEM req) ""); [|destruct (writeAgentCA m w1 (rq_ID req) (CAPEM req)) as [w2 [e|caPath]]; [done|]].
  all: cbn [runCreate createStage]; unfold withState; destruct (State req) as [st|];
    [destruct (ensureStateDir (ProxyProto.Namespace (rq_Identity req)) (rq_AgentRef req) (SizeLimitMB st)) as [e|hp]; [done|]|];
    cbn [runCreate createStage];
    match goal with |- context [coreCreate ?c ?sp] => destruct (coreCreate c sp) as [c' [e'|ci]] end; try done;
    cbn [runCreate createStage]; by destruct (commitCreate _ _ _).
Qed.

(** Staging touches only the trust file of the request. *)
Lemma staged_spec m w req rootfs w' r : staged m w req rootfs = (w', r) ->
  instances w' = instances w /\ egressStates w' = egressStates w /\ heap w' = heap w
  /\ match r with
     | inr (true, _) => CAPEM req <> "" /\ trust w' = <[rq_ID req := CAPEM req]> (trust w)
     | inr (false, _) => CAPEM req = "" /\ trust w' = trust w
     | inl _ => trust w' = trust w
     end.
Proof.
  unfold staged. destruct (String.eqb_spec (CAPEM req) ""); [by intros [= <- <-]|]. unfold writeAgentCA.
  destruct (mkdirAll _); [by intros [= <- <-]|]. destruct (writeFile _); by intros [= <- <-].
Qed.

(** A failed call leaves the tables as they were, and of the trust files at most its
    own removed. *)
Lemma failed_create_leaves_nothing m now w req w' e :
  Create m now w req = (w', CDone (inl e)) ->
  instances w' = instances w /\ egressStates w' = egressStates w /\ heap w' = heap w
  /\ (trust w' = trust w \/ (trust w' = delete (rq_ID req) (trust w) /\ CAPEM req <> "")).
Proof.
  rewrite Create_eq. destruct (instances w !! rq_ID req); [intros [= <- _]; auto|].
  destruct (coreEnsureImage _ _) as [c [e1|rootfs]]; [intros [= <- _]; auto|].
  destruct (staged _ _ _ _) as [w1 r] eqn:Es. apply staged_spec in Es as (H1 & H2 & H3 & H4). cbn in H1, H2, H3, H4.
  assert (forall ca w2, instances w2 = instances w1 -> egressStates w2 = egressStates w1 -> heap w2 = heap w1 -> trust w2 = trust w1 ->
    match ca with true => CAPEM req <> "" /\ trust w1 = <[rq_ID req := CAPEM req]> (trust w) | false => CAPEM req = "" /\ trust w1 = trust w end ->
    w' = cleanupCA w2 req ca ->
    instances w' = instances w /\ egressStates w' = egressStates w /\ heap w' = heap w
    /\ (trust w' = trust w \/ (trust w' = delete (rq_ID req) (trust w) /\ CAPEM req <> ""))) as Hclean.
  { intros ca w2 E1 E2 E3 E4 Hca ->. destruct ca; destruct Hca as [Hca Ht]; unfold cleanupCA, removeAgentCA; fields;
      rewrite E1, E2, E3, E4, H1, H2, H3, Ht; split_and!; try done.
    - right. split; [|done]. apply delete_insert_eq.
    - by left. }
  destruct r as [e1|[ca ms]]; [intros [= <- _]; auto|]. specialize (Hclean ca).
  destruct (withState req ms) as [e2|ms']; [intros [= <- _]; by apply (Hclean w1)|].
  destruct (coreCreate _ _) as [c' [e3|ci]]; [intros [= <- _]; by apply (Hclean (w1 <| core := c' |>))|].
  by destruct (commitCreate _ _ _).
Qed.

(** A sandbox starts with no egress configuration: it inherits nothing from an earlier one of
    its identifier. *)
Lemma created_starts_bare m now w req w' l : tables w -> Create m now w req = (w', CDone (inr l)) ->
  instances w !! rq_ID req = None
  /\ LookupEgressState w' (rq_ID req) = Some (Bridge.mkEgressState (rq_Identity req) [] None)
  /\ (CAPEM req <> "" -> trust w' !! rq_ID req = Some (CAPEM req)).
Proof.
  intros T. rewrite Create_eq. destruct (instances w !! rq_ID req) eqn:Ei; [done|].
  assert (egressStates w !! rq_ID req = None) as Hes.
  { apply eq_None_not_Some. intros H%T. rewrite Ei in H. by destruct H. }
  destruct (coreEnsureImage _ _) as [c [e1|rootfs]]; [done|].
  destruct (staged _ _ _ _) as [w1 r] eqn:Es. apply staged_spec in Es as (H1 & H2 & H3 & H4). cbn in H1, H2, H3, H4.
  destruct r as [e1|[ca ms]]; [done|]. destruct (withState req ms) as [e2|ms']; [done|].
  destruct (coreCreate _ _) as [c' [e3|ci]]; [done|].
  pose proof (commit_lookup (w1 <| core := c' |>) req ci) as H. destruct (commitCreate _ _ _) as [w2 l2] eqn:E.
  intros [= <- <-]. destruct H as [_ ->]. unfold egressStateLocked. cbn. rewrite H2, Hes. split; [done|]. split; [done|].
  intros Hne. unfold commitCreate in E. injection E as <- _. fields. destruct ca; destruct H4 as [H4 ->]; [apply lookup_insert_eq|done].
Qed.

(** ** The state directory's cap *)

Lemma dirBytes_spec entries cap total : 0 <= total < cap -> cap < 2 ^ 62 ->
  Forall (fun e => match e with File size => 0 <= size < 2 ^ 62 | EntryErr (WalkFailed _) | InfoErr (WalkFailed _) => False | _ => True end) entries ->
  let sum := fold_right (fun e acc => match e with File size => size | _ => 0 end + acc) 0 entries in
  exists used, dirBytes entries cap total = (used, None) /\ (used < cap <-> total + sum < cap) /\ (used < cap -> used = total + sum).
Proof.
  intros Ht Hcap H. revert total Ht. induction H as [|e entries He H IH]; intros total Ht; cbn [fold_right dirBytes].
  - exists total. split; [done|]. split; lia.
  - assert (forall l, 0 <= fold_right (fun e acc => match e with File size => size | _ => 0 end + acc) 0 l
              \/ ~ Forall (fun e => match e with File size => 0 <= size < 2 ^ 62 | EntryErr (WalkFailed _) | InfoErr (WalkFailed _) => False | _ => True end) l) as Hpos.
    { induction l as [|x l IHl]; [left; done|]. destruct IHl as [IHl|IHl]; [|right; by intros ?%Forall_inv_tail].
      destruct x as [[|?]| |[|?]|size]; cbn [fold_right]; try (by left); try (right; by intros ?%Forall_inv).
      destruct (decide (0 <= size)); [left; lia|right; intros ?%Forall_inv; lia]. }
    destruct (Hpos entries) as [Hs|Hs]; [|done].
    destruct e as [[|?]| |[|?]|size]; try done; try (destruct (IH total Ht) as (used & -> & H1 & H2); exists used; split; [done|]; split; lia).
    rewrite int64_id by lia. destruct (Z.leb_spec cap (total + size)).
    + exists (total + size). split; [done|]. split; lia.
    + destruct (IH (total + size)) as (used & -> & H1 & H2); [lia|]. exists used. split; [done|]. split; lia.
Qed.

(** The cap of a state directory.  If the walk meets no error, [ensureStateDir] accepts the
    directory exactly when its files take less than the limit, however many the walk
    skipped once the cap was reached. *)
Lemma ensureStateDir_capped ns agent limit : 0 < limit < 2 ^ 31 -> mkdirAll (stateHostPath ns agent) = None ->
  Forall (fun e => match e with File size => 0 <= size < 2 ^ 62 | EntryErr (WalkFailed _) | InfoErr (WalkFailed _) => False | _ => True end)
    (walk (stateHostPath ns agent)) ->
  let sum := fold_right (fun e acc => match e with File size => size | _ => 0 end + acc) 0 (walk (stateHostPath ns agent)) in
  (ensureStateDir ns agent limit = inr (stateHostPath ns agent) <-> sum < limit * 1024 * 1024).
Proof.
  intros Hl Hm Hw sum. unfold ensureStateDir. rewrite Hm. destruct (Z.leb_spec limit 0); [lia|].
  destruct (dirBytes_spec _ (limit * 1024 * 1024) 0 ltac:(lia) ltac:(lia) Hw) as (used & He & H1 & _).
  unfold dirBytesUpTo. rewrite He. fold sum in H1. rewrite Z.add_0_l in H1. rewrite <- H1.
  destruct (Z.leb_spec (limit * 1024 * 1024) used); split; intros; try done; lia.
Qed.

(** ** Schedules *)

(** The next stage of a call. *)
Definition advance (m : Manager) (now : string) (s : system) (t : nat) : system :=
  match calls s !! t with
  | Some (Creating c) => let '(w, c) := createStage m now (shared s) c in mkSystem w (<[t := Creating c]> (calls s))
  | Some (Deleting d) => let '(w, d) := deleteStage (shared s) d in mkSystem w (<[t := Deleting d]> (calls s))
  | None => s
  end.

Definition actionOf (s : system) (t : nat) : list action :=
  match calls s !! t with
  | Some (Creating c) => [createAction c]
  | Some (Deleting d) => [deleteAction d]
  | None => []
  end.

Fixpoint schedule (m : Manager) (now : string) (s : system) (ts : list nat) : list action * system :=
  match ts with
  | [] => ([], s)
  | t :: ts => let '(tr, s') := schedule m now (advance m now s t) ts in (actionOf s t ++ tr, s')
  end.

Lemma schedule_runs m c now ts : forall tr s, runs m c tr s ->
  runs m c (tr ++ (schedule m now s ts).1) (schedule m now s ts).2.
Proof.
  induction ts as [|t ts IH]; intros tr s H; cbn; [by rewrite app_nil_r|].
  assert (runs m c (tr ++ actionOf s t) (advance m now s t)) as H'.
  { unfold actionOf, advance. destruct (calls s !! t) as [[cr|d]|] eqn:E; [| |by rewrite app_nil_r].
    - destruct (createStage m now (shared s) cr) as [w c'] eqn:Ec. eapply runs_step; [exact H|]. by eapply step_creating.
    - destruct (deleteStage (shared s) d) as [w d'] eqn:Ec. eapply runs_step; [exact H|]. by eapply step_deleting. }
  specialize (IH _ _ H'). destruct (schedule m now (advance m now s t) ts) as [tr' s']. cbn in *. by rewrite app_assoc.
Qed.

(** What a call of [Create] returned. *)
Definition resultOf (s : system) (t : nat) : option (CreateError + nat) :=
  match calls s !! t with Some (Creating (CDone r)) => Some r | _ => None end.

(** Two calls of [Create], spawned. *)
Definition spawnTwo (c : CoreState) (r1 r2 : CreateRequest) : system :=
  mkSystem (shared (initial c)) (<[2%nat := Creating (CCheck r2)]> (<[1%nat := Creating (CCheck r1)]> ∅)).

Lemma spawnTwo_runs m c r1 r2 : runs m c [Internal; Internal] (spawnTwo c r1 r2).
Proof.
  apply (runs_step m c [Internal] (mkSystem (shared (initial c)) (<[1%nat := Creating (CCheck r1)]> ∅))).
  - apply (runs_step m c [] (initial c)); [constructor|]. by apply (step_create m 1 r1 (initial c)).
  - unfold spawnTwo. exact (step_create m 2 r2 (mkSystem (shared (initial c)) (<[1%nat := Creating (CCheck r1)]> ∅)) eq_refl).
Qed.

End Manager.

(** ** A runtime to run it on *)

#[local] Instance demoHost : Host := {
  lstat _ := StateMount.RegularOrDir;
  mkdirAll _ := None;
  writeFile _ := None;
  walk _ := [File 10; NotRegular; EntryErr NotExist; File 5];
}.

(** A runtime that keeps the identifiers it has. *)
#[local] Instance demoCore : Core := {
  CoreState := gset string;
  CoreInstance := string;
  coreEnsureImage c _ := (c, inr "/images/a");
  coreCreate c sp := if bool_decide (sp_ID sp ∈ c) then (c, inl ErrAlreadyExists) else ({[sp_ID sp]} ∪ c, inr (sp_ID sp));
  coreDelete c id := (c ∖ {[id]}, None);
  coreStatus c id := (c, if bool_decide (id ∈ c) then None else Some "not found");
}.

Definition demoManager : Manager := mkManager "/run/clrk" "worker-0" "10.0.0.1:80" "10.0.0.1:15001" [].
Definition demoReq : CreateRequest :=
  mkCreateRequest "sb1" "agent" (mkIdentity x01 "ns" "inv" "u1" "agent-00001" "" "") "PEM" (mkTemplate (mkAgentSandbox "img" [] []) [])
    (mkResources (mkQuantity true 0 0) (mkQuantity false 0 1024)) (Some (mkAgentState "local" 1 "")) false 0.

(** The first call runs to its end after both passed the check; then the second
    runs. *)
Definition raced : list action * system :=
  schedule demoManager "now" (spawnTwo ∅ demoReq demoReq) [1; 2; 1; 1; 1; 1; 1; 2; 2; 2; 2]%nat.

Lemma raced_runs : runs demoManager ∅ ([Internal; Internal] ++ raced.1) raced.2.
Proof. apply schedule_runs, spawnTwo_runs. Qed.

(** Two calls of [Create] for one identifier: the second fails because the runtime
    has the sandbox, and removes the trust file the first one's sandbox mounts. *)
Lemma losing_create_removes_ca :
  runs demoManager ∅ ([Internal; Internal] ++ raced.1) raced.2
  /\ resultOf raced.2 1 = Some (inr 0%nat)
  /\ resultOf raced.2 2 = Some (inl ErrAlreadyExists)
  /\ is_Some (instances (shared raced.2) !! "sb1") /\ trust (shared raced.2) !! "sb1" = None.
Proof.
  split; [apply raced_runs|]. split; [vm_compute; reflexivity|]. split; [vm_compute; reflexivity|].
  split; [exists 0%nat|]; vm_compute; reflexivity.
Qed.

Lemma egress_identity_registered_witness :
  Bridge.st_identity <$> LookupEgressState (shared raced.2) "sb1" = Some (rq_Identity demoReq).
Proof.
  destruct (egress_identity_registered demoManager ∅ _ _ raced_runs "sb1") as (H & _). rewrite H. vm_compute. reflexivity.
Defined.

End SandboxManager.
