(* ===== verification/SandboxLog.v ===== *)
(** * Sandbox output

    [src/internal/worker/sandbox/log.go] and [src/internal/workerlog/path.go]: the
    writer that splits a sandbox's output into lines, whatever the writes it arrives
    in, and the names of the files it is teed to. *)

From Stdlib Require Import ZArith Lia NArith Ascii String List.
From Stdlib.Strings Require Import Byte.
From stdpp Require Import base strings list pretty.
From S2P Require Import Prelude GoStrings GoPath GoStd Netip ProxyProto Sse StreamCodec Delivery StateMount EgressShape Bridge SandboxManager.
Import GoStrings GoStd ProxyProto Sse StreamCodec.

#[local] Open Scope string_scope.
#[local] Open Scope Z_scope.
#[local] Open Scope list_scope.

Module SandboxLog.

(** ** The line writer *)

Definition sandboxLineMaxBytes : Z := 64 * 1024.

Definition strlen (s : string) : Z := Z.of_nat (String.length s).

(** [strings.TrimRight(s, "\r")] *)
Fixpoint trimRightCR (s : string) : string :=
  match s with
  | EmptyString => EmptyString
  | String a t =>
      match trimRightCR t with
      | EmptyString => if Ascii.eqb a "013" then EmptyString else String a EmptyString
      | t => String a t
      end
  end.

(** A line that is not empty is emitted. *)
Definition line (raw : string) : list string :=
  let l := trimRightCR raw in if String.eqb l "" then [] else [l].

(** What is emitted of a piece of a line that was too long for the buffer. *)
Definition truncated (piece : string) : string := (take_str (Z.to_nat sandboxLineMaxBytes) piece ++ " ...[truncated]")%string.

(** The loop of [Write] on the buffer: the lines emitted and the buffer left.  [fuel] is one
    more than its length. *)
Fixpoint writeLoop (fuel : nat) (buf : string) : list string * string :=
  match fuel with
  | O => ([], buf)
  | S f =>
      match Cut buf nl with
      | (_, _, false) =>
          if sandboxLineMaxBytes <? strlen buf
          then ([truncated buf], "")
          else ([], buf)
      | (raw, rest, true) => let '(out, buf) := writeLoop f rest in (line raw ++ out, buf)
      end
  end.

Definition Write (buf p : string) : list string * string :=
  let b := (buf ++ p)%string in writeLoop (S (String.length b)) b.

Definition Flush (buf : string) : list string * string := (line buf, "").

(** Writes, then the flush of teardown: what was emitted. *)
Fixpoint writeAll (buf : string) (ps : list string) : list string * string :=
  match ps with
  | [] => ([], buf)
  | p :: ps => let '(o1, buf) := Write buf p in let '(o2, buf) := writeAll buf ps in (o1 ++ o2, buf)
  end.
Definition output (ps : list string) : list string := let '(o, buf) := writeAll "" ps in o ++ fst (Flush buf).

(** Where a line goes: the file, with the stream before it, and the record. *)
Definition fileLine (stream l : string) : string := ("[" ++ stream ++ "] " ++ l ++ String nl "")%string.

(** The severity of a stream's records, and their attributes. *)
Inductive severity := SeverityInfo | SeverityError.
Definition IoStreamStderr : string := "stderr".
Definition severityOf (stream : string) : severity := if String.eqb stream IoStreamStderr then SeverityError else SeverityInfo.

Definition nonEmptyAttr (k v : string) : list (string * string) := if String.eqb v "" then [] else [(k, v)].

(** [AgentKind.String]; any other kind is its number. *)
Definition kindName (k : byte) : string :=
  match k with x00 => "DaemonAgent" | x01 => "TaskAgent" | _ => pretty (Z.of_N (Byte.to_N k)) end.

Definition sandboxLogAttrs (id : AgentIdentity) (stream : string) : list (string * string) :=
  [("agent.kind", kindName (Kind id)); ("agent.namespace", ProxyProto.Namespace id); ("agent.name", ProxyProto.Name id)]
  ++ nonEmptyAttr "agent.uid" (UID id) ++ nonEmptyAttr "agent.revision" (Revision id)
  ++ nonEmptyAttr "invocation.id" (InvocationID id) ++ [("log.iostream", stream)].

(** ** File names *)

(** The bytes of the first rune: an invalid byte is a rune of its own. *)
Definition runeLen (s : string) : nat :=
  match s with
  | EmptyString => 0
  | String a EmptyString => 1
  | String a (String b s2) =>
      let n := N_of_ascii a in
      if ((194 <=? n) && (n <=? 223))%N && cont 128 191 b then 2
      else match s2 with
           | EmptyString => 1
           | String c s3 =>
               if ((224 <=? n) && (n <=? 239))%N
                  && cont (if (n =? 224)%N then 160 else 128) (if (n =? 237)%N then 159 else 191) b && cont 128 191 c then 3
               else match s3 with
                    | EmptyString => 1
                    | String d _ =>
                        if ((240 <=? n) && (n <=? 244))%N
                           && cont (if (n =? 240)%N then 144 else 128) (if (n =? 244)%N then 143 else 191) b
                           && cont 128 191 c && cont 128 191 d then 4 else 1
                    end
           end
  end%nat.

Definition unreserved (c : ascii) : bool :=
  let n := N_of_ascii c in
  (((97 <=? n) && (n <=? 122)) || ((65 <=? n) && (n <=? 90)) || ((48 <=? n) && (n <=? 57)) || (n =? 45) || (n =? 95))%N.

(** [strings.Map] of the fold, rune by rune. *)
Fixpoint mapRunes (fuel : nat) (s : string) : string :=
  match fuel, s with
  | S f, String a t => if unreserved a then String a (mapRunes f t) else String "_" (mapRunes f (drop_str (runeLen s) s))
  | _, _ => EmptyString
  end.
Definition safeToken (s : string) : string := mapRunes (String.length s) s.

Definition orDefault (namespace : string) : string := if String.eqb namespace "" then "default" else namespace.

Definition AgentPath (rootDir namespace name : string) : string :=
  SandboxManager.Join [rootDir; (safeToken (orDefault namespace) ++ "__" ++ safeToken name ++ ".log")%string].

Definition InvocationPath (rootDir namespace name invocationID : string) : string :=
  SandboxManager.Join [rootDir; (safeToken (orDefault namespace) ++ "__" ++ safeToken name ++ "__" ++ safeToken invocationID ++ ".log")%string].

(** The file [openAgentLogFile] opens, if a directory is configured. *)
Definition agentLogFile (rootDir namespace name invocationID : string) : option string :=
  if String.eqb rootDir "" then None
  else if String.eqb invocationID "" then Some (AgentPath rootDir namespace name)
  else Some (InvocationPath rootDir namespace name invocationID).

(** ** Lines *)

Lemma Split_found a b : Count a nl = 0%nat -> Split nl (a ++ String nl b)%string = a :: Split nl b.
Proof. intros H. by rewrite Split_app, Split_plain. Qed.

Lemma not_In_Count a c : ~ In c (list_ascii_of_string a) -> Count a c = 0%nat.
Proof.
  induction a as [|d a IH]; [done|]. cbn -[Ascii.eqb]. intros H. destruct (Ascii.eqb_spec d c) as [->|]; [by destruct H; left|].
  apply IH. tauto.
Qed.

#[local] Opaque truncated.

(** The loop is the lines of the buffer, but for the cut of what is left. *)
Lemma writeLoop_spec fuel buf : (String.length buf < fuel)%nat ->
  let rest := List.last (Split nl buf) "" in
  writeLoop fuel buf
  = (flat_map line (removelast (Split nl buf))
       ++ (if sandboxLineMaxBytes <? strlen rest
           then [truncated rest] else []),
     if sandboxLineMaxBytes <? strlen rest then "" else rest).
Proof.
  revert buf. induction fuel as [|f IH]; intros buf Hf; [lia|]. cbn [writeLoop].
  destruct (Cut buf nl) as [[raw rest] ok] eqn:E. destruct ok.
  - apply Cut_found in E as [-> Hn]. apply not_In_Count in Hn. rewrite Split_found by done.
    rewrite IH.
    2:{ rewrite str_length_app in Hf. cbn in Hf. lia. }
    pose proof (Split_nonempty nl rest). destruct (Split nl rest) as [|x l]; [done|]. cbn [removelast List.last flat_map].
    by rewrite app_assoc.
  - apply Cut_not_found in E as (-> & -> & Hn). apply not_In_Count in Hn. rewrite Split_plain by done. cbn [removelast List.last flat_map app].
    by destruct (_ <? _).
Qed.

(** Text without a line feed starts the first line of what it begins. *)
Lemma Split_head x y z l : Count x nl = 0%nat -> Split nl y = z :: l -> Split nl (x ++ y)%string = (x ++ z)%string :: l.
Proof.
  intros H E. induction x as [|c x IH]; [done|]. change (String c x ++ y)%string with (String c (x ++ y)%string).
  cbn -[Ascii.eqb nl] in *. destruct (Ascii.eqb c nl); [lia|]. by rewrite IH.
Qed.

Lemma last_Count buf : Count (List.last (Split nl buf) "") nl = 0%nat.
Proof.
  pose proof (Split_plain_all nl buf) as H. pose proof (Split_nonempty nl buf) as Hn.
  destruct (Split nl buf) as [|x l] using rev_ind; [done|]. rewrite List.last_last. by apply Forall_app in H as [_ H%Forall_inv].
Qed.

(** What may be emitted for a line: pieces of more than 64 KiB that a write left in the
    buffer, cut there, and what is left of it. *)
Definition rendered (l : string) (out : list string) : Prop :=
  exists pieces rest, l = (String.concat "" pieces ++ rest)%string
    /\ Forall (fun p => sandboxLineMaxBytes < strlen p) pieces
    /\ out = List.map truncated pieces ++ line rest.

Lemma rendered_whole l : rendered l (line l).
Proof. by exists [], l. Qed.

Lemma rendered_piece r l out : sandboxLineMaxBytes < strlen r -> rendered l out -> rendered (r ++ l)%string (truncated r :: out).
Proof.
  intros Hr (ps & rest & -> & Hp & ->). exists (r :: ps), rest. rewrite str_concat_cons, str_app_assoc.
  split; [done|]. split; [by constructor|done].
Qed.

(** A line that fits is emitted as it is. *)
Lemma rendered_short l out : strlen l <= sandboxLineMaxBytes -> rendered l out -> out = line l.
Proof.
  intros Hl ([|p ps] & rest & -> & Hp & ->); [done|]. exfalso. apply Forall_inv in Hp.
  rewrite str_concat_cons in Hl. unfold strlen in *. rewrite !str_length_app in Hl. lia.
Qed.

(** Writes, from a buffer without a line feed: the lines before the last one are
    rendered, and of the last one all but the buffer. *)
Lemma writeAll_spec ps : forall buf, Count buf nl = 0%nat ->
  exists ls l outs pieces, Split nl (buf ++ String.concat "" ps)%string = ls ++ [l] /\ Forall2 rendered ls outs
    /\ Forall (fun p => sandboxLineMaxBytes < strlen p) pieces
    /\ l = (String.concat "" pieces ++ snd (writeAll buf ps))%string
    /\ fst (writeAll buf ps) = concat outs ++ List.map truncated pieces.
Proof.
  induction ps as [|p ps IH]; intros buf Hb.
  - exists [], buf, [], []. cbn [writeAll String.concat fst snd]. rewrite str_app_nil_r, Split_plain by done. done.
  - rewrite str_concat_cons. cbn [writeAll]. unfold Write. rewrite writeLoop_spec by lia.
    set (b := (buf ++ p)%string) in *. rewrite <- str_app_assoc. fold b. rewrite Split_app_last.
    set (L := removelast (Split nl b)). set (r := List.last (Split nl b) "") in *.
    assert (Count r nl = 0%nat) as Hr by apply last_Count.
    assert (Forall2 rendered L (List.map line L)) as HL by (clear; induction L; constructor; [apply rendered_whole|done]).
    assert (flat_map line L = concat (List.map line L)) as EL by (by rewrite flat_map_concat_map).
    destruct (Z.ltb_spec sandboxLineMaxBytes (strlen r)) as [Hlong|Hfit].
    + destruct (IH "" eq_refl) as (ls & l & outs & pieces & E & Ho & Hp & El & Ef).
      change ("" ++ String.concat "" ps)%string with (String.concat "" ps) in E.
      destruct (writeAll "" ps) as [o2 b2]. cbn [fst snd] in *. destruct ls as [|h ls].
      * exists L, (r ++ l)%string, (List.map line L), (r :: pieces). apply Forall2_nil_inv_l in Ho as ->.
        rewrite (Split_head r _ l [] Hr E), str_concat_cons, El, str_app_assoc, Ef, EL. cbn [concat app List.map].
        split; [done|]. split; [done|]. split; [by constructor|]. split; [done|]. by rewrite <- app_assoc.
      * apply Forall2_cons_inv_l in Ho as (oh & outs' & Hh & Ho & ->).
        exists (L ++ (r ++ h)%string :: ls), l, (List.map line L ++ (truncated r :: oh) :: outs'), pieces.
        rewrite (Split_head r _ h (ls ++ [l]) Hr E), Ef, EL, concat_app. cbn [concat].
        split; [by rewrite <- app_assoc|]. split; [apply Forall2_app; [done|]; constructor; [by apply rendered_piece|done]|].
        split; [done|]. split; [done|]. rewrite <- !app_assoc. done.
    + destruct (IH r Hr) as (ls & l & outs & pieces & E & Ho & Hp & El & Ef).
      destruct (writeAll r ps) as [o2 b2]. cbn [fst snd] in *.
      exists (L ++ ls), l, (List.map line L ++ outs), pieces. rewrite E, Ef, EL, concat_app, app_nil_r, <- !app_assoc.
      split; [done|]. split; [by apply Forall2_app|]. done.
Qed.

(** C38: the lines of a sandbox's output.  However the output is cut into writes, what
    is emitted, once the writer is flushed, is for each line of the whole, in order, a
    rendering of it: a line of at most 64 KiB is emitted as it is, without the carriage
    returns it ends with, and not at all if it is then empty; of a longer line each
    piece that outgrew the buffer before its end arrived is emitted as its first 64 KiB
    with a marker, and what is left as a line.  So when no line is longer than 64 KiB
    the lines emitted do not depend on the writes. *)
Theorem output_lines (ps : list string) :
  (exists outs, Forall2 rendered (Split nl (String.concat "" ps)) outs /\ output ps = concat outs)
  /\ (forall l out, strlen l <= sandboxLineMaxBytes -> rendered l out -> out = line l)
  /\ (Forall (fun l => strlen l <= sandboxLineMaxBytes) (Split nl (String.concat "" ps)) ->
        output ps = flat_map line (Split nl (String.concat "" ps))).
Proof.
  assert (exists outs, Forall2 rendered (Split nl (String.concat "" ps)) outs /\ output ps = concat outs) as H.
  { destruct (writeAll_spec ps "" eq_refl) as (ls & l & outs & pieces & E & Ho & Hp & El & Ef).
    change ("" ++ String.concat "" ps)%string with (String.concat "" ps) in E. unfold output.
    destruct (writeAll "" ps) as [o b]. cbn [fst snd Flush] in *.
    exists (outs ++ [List.map truncated pieces ++ line b]). rewrite E, Ef, concat_app. cbn [concat].
    split; [|by rewrite app_nil_r, <- app_assoc]. apply Forall2_app; [done|]. constructor; [by exists pieces, b|constructor]. }
  split; [done|]. split; [apply rendered_short|]. destruct H as (outs & Ho & ->). intros Hs.
  induction Ho as [|l out ls outs Hl Ho IH]; [done|]. cbn [concat flat_map]. inversion_clear Hs as [|? ? H1 H2].
  by rewrite (rendered_short l out H1 Hl), IH.
Qed.

(** The buffer never keeps more than the cap between two writes. *)
Lemma buffer_bounded buf p : strlen (snd (Write buf p)) <= sandboxLineMaxBytes.
Proof.
  unfold Write. rewrite writeLoop_spec by lia. cbn [snd]. destruct (Z.ltb_spec sandboxLineMaxBytes (strlen (List.last (Split nl (buf ++ p)) ""))); [done|lia].
Qed.

Lemma output_lines_witness : output ["hel"; "lo"; String "013" (String nl "wor"); ("ld" ++ String nl (String nl "bye"))%string] = ["hello"; "world"; "bye"].
Proof.
  refine (proj2 (proj2 (output_lines ["hel"; "lo"; String "013" (String nl "wor"); ("ld" ++ String nl (String nl "bye"))%string])) _).
  repeat constructor; unfold strlen, sandboxLineMaxBytes; cbn; lia.
Defined.

(** ** The files *)

(** No byte of a token leaves the directory. *)
Lemma safeToken_unreserved s : Forall (fun c => unreserved c = true) (list_ascii_of_string (safeToken s)).
Proof.
  unfold safeToken. generalize (String.length s) at 1. intros n. revert s. induction n as [|n IH]; intros [|a s]; cbn [mapRunes]; try constructor.
  destruct (unreserved a) eqn:E; constructor; try done; apply IH.
Qed.

(** Identifiers of letters, digits and dashes, as Kubernetes names and UUIDs are, pass
    through. *)
Lemma safeToken_id s : Forall (fun c => unreserved c = true) (list_ascii_of_string s) -> safeToken s = s.
Proof.
  unfold safeToken. induction s as [|a s IH]; intros H; [done|]. cbn [String.length mapRunes list_ascii_of_string] in *.
  inversion_clear H as [|? ? Ha Hs]. by rewrite Ha, IH.
Qed.

(** Two identifiers that differ in a folded byte share a file. *)
Example folded_collide : safeToken "a.b" = safeToken "a/b".
Proof. reflexivity. Qed.

End SandboxLog.
