(* ===== verification/KubeStatus.v ===== *)
(** * Status of Kubernetes objects

    What the reconcilers of [src/internal/controller] share: conditions, the merge
    patch a status is written with, and the constants of [labels.go].  The condition
    helpers of apimachinery are a parameter with their documented laws. *)

From Stdlib Require Import ZArith Lia NArith Ascii String List.
From stdpp Require Import base strings list gmap.
From S2P Require Import Prelude GoStrings ApiTypes.
Import GoStrings ApiTypes.

#[local] Open Scope string_scope.
#[local] Open Scope Z_scope.
#[local] Open Scope list_scope.

Module KubeStatus.

(** [metav1.Condition]. *)
Record Condition := mkCondition {
  c_Type : string;
  c_Status : string;
  c_ObservedGeneration : Z;
  c_LastTransitionTime : Z;
  c_Reason : string;
  c_Message : string;
}.
#[export] Instance Condition_eq_dec : EqDecision Condition.
Proof. solve_decision. Defined.

Definition ConditionTrue : string := "True".
Definition ConditionFalse : string := "False".
Definition ConditionUnknown : string := "Unknown".

(** What a condition says, apart from when it last changed. *)
Definition says (c : Condition) : string * string * Z * string * string :=
  (c_Type c, c_Status c, c_ObservedGeneration c, c_Reason c, c_Message c).

(** [meta.SetStatusCondition] and [meta.FindStatusCondition]: one condition per
    type; the transition time moves only with the status. *)
Class ConditionHelpers := {
  SetStatusCondition : list Condition -> Condition -> list Condition;
  FindStatusCondition : list Condition -> string -> option Condition;
}.

Class ConditionLaws {H : ConditionHelpers} := {
  find_set cs c : exists c', FindStatusCondition (SetStatusCondition cs c) (c_Type c) = Some c' /\ says c' = says c;
  find_set_other cs c ty : ty <> c_Type c -> FindStatusCondition (SetStatusCondition cs c) ty = FindStatusCondition cs ty;
}.

(** A field of a JSON merge patch made with [client.MergeFrom(base)]: the server's value
    is replaced when the object differs from the base there. *)
Definition patchField {A} `{EqDecision A} (base new server : A) : A := if decide (base = new) then server else new.

Lemma patchField_same {A} `{EqDecision A} (base server : A) : patchField base base server = server.
Proof. unfold patchField. by rewrite decide_True. Qed.

(** On an object nobody else wrote, the patch stores the new value. *)
Lemma patchField_fresh {A} `{EqDecision A} (base new : A) : patchField base new base = new.
Proof. unfold patchField. by destruct (decide (base = new)). Qed.

(** ** Constants ([labels.go]) *)

Definition labelAgent : string := "clrk.apoxy.dev/agent".
Definition labelAgentKind : string := "clrk.apoxy.dev/agent-kind".
Definition labelGeneration : string := "clrk.apoxy.dev/generation".
Definition labelWorkerPool : string := "clrk.apoxy.dev/worker-pool".

Definition maxRevisionHistory : Z := 10.

Definition condWorkerPoolReady : string := "WorkerPoolReady".
Definition condEgressConfigured : string := "EgressConfigured".
Definition condRevisionReady : string := "RevisionReady".
Definition condAccepted : string := "Accepted".
Definition condScheduled : string := "Scheduled".

Definition reasonScheduleRegistered : string := "ScheduleRegistered".
Definition reasonNotScheduled : string := "NotScheduled".
Definition reasonParseError : string := "ParseError".
Definition reasonLastFireFailed : string := "LastFireFailed".

(** ** A plain implementation of the helpers *)

Fixpoint setCondition (cs : list Condition) (c : Condition) : list Condition :=
  match cs with
  | [] => [c]
  | d :: cs =>
      if String.eqb (c_Type d) (c_Type c) then
        mkCondition (c_Type c) (c_Status c) (c_ObservedGeneration c)
          (if String.eqb (c_Status d) (c_Status c) then c_LastTransitionTime d else c_LastTransitionTime c)
          (c_Reason c) (c_Message c) :: cs
      else d :: setCondition cs c
  end.

#[export] Instance plainConditions : ConditionHelpers := {
  SetStatusCondition := setCondition;
  FindStatusCondition cs ty := List.find (fun c => String.eqb (c_Type c) ty) cs;
}.

#[export] Instance plainConditionLaws : ConditionLaws.
Proof.
  split; cbn.
  - intros cs c. induction cs as [|d cs IH]; cbn; [rewrite String.eqb_refl; eauto|].
    destruct (String.eqb_spec (c_Type d) (c_Type c)) as [E|E]; cbn; [rewrite String.eqb_refl; eauto|].
    by destruct (String.eqb_spec (c_Type d) (c_Type c)).
  - intros cs c ty Hne. induction cs as [|d cs IH]; cbn; [by destruct (String.eqb_spec (c_Type c) ty)|].
    destruct (String.eqb_spec (c_Type d) (c_Type c)) as [E|E]; cbn.
    + destruct (String.eqb_spec (c_Type c) ty); [congruence|]. by destruct (String.eqb_spec (c_Type d) ty); [congruence|].
    + by rewrite IH.
Qed.

End KubeStatus.
