(* ===== verification/Cron.v ===== *)
(** * Scheduled agents

    [src/internal/controller/taskagent_cron_controller.go]: the table of cron
    entries, the tick that fires the due ones, and the reconciler that keeps the
    table in step with the TaskAgents.

    The cron library, the invoker and the condition helpers are parameters.  Times
    are in nanoseconds, 0 is the zero time.  The fires of a tick are concurrent, and
    so are the reconciler and other writers of the API objects; a tick waits for its
    fires. *)

From Stdlib Require Import ZArith Lia NArith Ascii String List.
From Stdlib Require Import Sorting.Sorted.
From stdpp Require Import base strings list gmap.
From coqutil Require Import Datatypes.RecordSettersUsingExistingGetters.
From S2P Require Import Prelude GoStrings ApiTypes KubeStatus.
Import GoStrings ApiTypes KubeStatus.

#[local] Open Scope string_scope.
#[local] Open Scope Z_scope.
#[local] Open Scope list_scope.

Module Cron.

(** [robfig/cron]: a schedule is parsed, and gives the next activation after a time,
    or the zero time.  [quote] is [%q], [rfc3339] the text of a time. *)
Class CronLib := {
  Schedule : Type;
  ParseStandard : string -> string + Schedule;
  Next : Schedule -> Z -> Z;
  quote : string -> string;
  rfc3339 : Z -> string;
}.

(** The documented behaviour: the next activation is later than the given time. *)
Class CronLaws {L : CronLib} := { next_later s t : Next s t = 0 \/ t < Next s t }.

Definition second : Z := 1000000000.
Definition tickInterval : Z := second.
Definition invokeTimeoutCap : Z := 5 * 60 * second.

(** The fields of a TaskAgent the reconciler reads and writes. *)
Record TaskAgent := mkTaskAgent {
  ta_Generation : Z;
  ta_Schedule : option string;
  ta_ScheduleInput : option string;
  ta_Timeout : option Z;
  ta_Conditions : list Condition;
  ta_LastScheduleTime : option Z;
  ta_NextScheduleTime : option Z;
}.

Section Cron.
Context {L : CronLib} {H : ConditionHelpers}.

Record cronEntry := mkEntry { specSchedule : string; schedule : Schedule; nextFire : Z; lastFire : Z }.

(** [r.entries]. *)
Notation table := (gmap NamespacedName cronEntry).

Definition entryMatches (t : table) (key : NamespacedName) (specSched : string) : bool :=
  match t !! key with Some e => String.eqb (specSchedule e) specSched | None => false end.

Definition upsertEntry (now : Z) (t : table) (key : NamespacedName) (specSched : string) (sched : Schedule) : table :=
  <[key := mkEntry specSched sched (Next sched now) 0]> t.

Definition dropEntry (t : table) (key : NamespacedName) : table := delete key t.

Definition nonZero (t : Z) : option Z := if t =? 0 then None else Some t.

Definition timing (t : table) (key : NamespacedName) : option Z * option Z :=
  match t !! key with
  | Some e => (nonZero (lastFire e), nonZero (nextFire e))
  | None => (None, None)
  end.

Definition recordFire (t : table) (key : NamespacedName) (fireTime : Z) : table :=
  alter (fun e => e <| lastFire := fireTime |>) key t.

(** ** Status writes

    The patch is the difference between the object that was read and what became of
    it, applied to whatever the server has by then. *)

Definition patch (base new server : TaskAgent) : TaskAgent :=
  server <| ta_Conditions := patchField (ta_Conditions base) (ta_Conditions new) (ta_Conditions server) |>
         <| ta_LastScheduleTime := patchField (ta_LastScheduleTime base) (ta_LastScheduleTime new) (ta_LastScheduleTime server) |>
         <| ta_NextScheduleTime := patchField (ta_NextScheduleTime base) (ta_NextScheduleTime new) (ta_NextScheduleTime server) |>.

Definition withTiming (t : table) (key : NamespacedName) (ta : TaskAgent) : TaskAgent :=
  ta <| ta_LastScheduleTime := fst (timing t key) |> <| ta_NextScheduleTime := snd (timing t key) |>.

(** [patchTiming] and [patchScheduled]: what the object becomes before the patch.  [clock] is
    the transition time. *)
Definition patchTiming (t : table) (key : NamespacedName) (ta : TaskAgent) : TaskAgent := withTiming t key ta.

Definition patchScheduled (clock : Z) (t : table) (key : NamespacedName) (ta : TaskAgent) (status reason message : string) : TaskAgent :=
  withTiming t key
    (ta <| ta_Conditions := SetStatusCondition (ta_Conditions ta)
             (mkCondition condScheduled status (ta_Generation ta) clock reason message) |>).

(** ** Reconcile

    What the reconciler does with the object it read: the table, and the object to
    patch with. *)

Definition registered (specSched : string) : string := ("Cron entry registered for " ++ quote specSched)%string.

Definition reconcileFound (now : Z) (t : table) (key : NamespacedName) (ta : TaskAgent) : table * TaskAgent :=
  match ta_Schedule ta with
  | None | Some EmptyString =>
      let t := dropEntry t key in
      (t, patchScheduled now t key ta ConditionFalse reasonNotScheduled "spec.schedule is empty")
  | Some specSched =>
      if entryMatches t key specSched then
        match FindStatusCondition (ta_Conditions ta) condScheduled with
        | None => (t, patchScheduled now t key ta ConditionTrue reasonScheduleRegistered (registered specSched))
        | Some _ => (t, patchTiming t key ta)
        end
      else
        match ParseStandard specSched with
        | inl err =>
            let t := dropEntry t key in
            (t, patchScheduled now t key ta ConditionFalse reasonParseError err)
        | inr sched =>
            let t := upsertEntry now t key specSched sched in
            (t, patchScheduled now t key ta ConditionTrue reasonScheduleRegistered (registered specSched))
        end
  end.

(** A read that fails changes nothing; a missing object drops its entry. *)
Inductive got := Found (ta : TaskAgent) | NotFound | GetFailed.

Definition Reconcile (now : Z) (t : table) (key : NamespacedName) (g : got) : table * option TaskAgent :=
  match g with
  | NotFound => (dropEntry t key, None)
  | GetFailed => (t, None)
  | Found ta => let '(t, new) := reconcileFound now t key ta in (t, Some new)
  end.

(** ** Tick *)

Definition due (now : Z) (e : cronEntry) : bool := negb (nextFire e =? 0) && (nextFire e <=? now).

(** The locked section of [Tick]: the fires it starts, and the table rolled
    forward. *)
Definition ready (now : Z) (t : table) : gmap NamespacedName Z := nextFire <$> filter (fun ke => due now ke.2 = true) t.
Definition rollForward (now : Z) (e : cronEntry) : cronEntry :=
  if due now e then e <| nextFire := Next (schedule e) now |> else e.
Definition Tick (now : Z) (t : table) : gmap NamespacedName Z * table := (ready now t, rollForward now <$> t).

(** ** A fire, stage by stage *)

(** [ctx]'s timeout. *)
Definition invokeTimeout (ta : TaskAgent) : Z :=
  match ta_Timeout ta with
  | Some d => if (0 <? d) && (d <? invokeTimeoutCap) then d else invokeTimeoutCap
  | None => invokeTimeoutCap
  end.

Definition fireBody (ta : TaskAgent) : string :=
  match ta_ScheduleInput ta with
  | Some raw => if String.eqb raw "" then "{}" else raw
  | None => "{}"
  end.

Inductive fireStage :=
| FGet
| FInvoke (ta : TaskAgent)
| FRecord (ta : option TaskAgent) (err : option string)
| FPatch (ta : TaskAgent) (err : option string).

(** The condition a fire reports. *)
Definition fired (fireTime : Z) (err : option string) : string * string * string :=
  match err with
  | None => (ConditionTrue, reasonScheduleRegistered, ("Last fire at " ++ rfc3339 fireTime ++ " succeeded")%string)
  | Some e => (ConditionFalse, reasonLastFireFailed, ("Last fire at " ++ rfc3339 fireTime ++ " failed: " ++ e)%string)
  end.

Definition firePatch (clock : Z) (t : table) (key : NamespacedName) (fireTime : Z) (ta : TaskAgent) (err : option string) : TaskAgent :=
  let '(status, reason, msg) := fired fireTime err in patchScheduled clock t key ta status reason msg.

(** ** The system *)

Record system := mkSystem {
  clock : Z;
  entries : table;
  server : gmap NamespacedName TaskAgent;
  fires : gmap NamespacedName (Z * fireStage);
  pending : list (NamespacedName * TaskAgent * TaskAgent);
  invoked : list (NamespacedName * Z);
}.

Definition applyPatch (key : NamespacedName) (base new : TaskAgent) (s : system) : system :=
  s <| server := alter (patch base new) key (server s) |>.

(** One stage of the fire of [key] at [fireTime].  What a read returns and what an
    invocation returns are the environment's. *)
Inductive stage (key : NamespacedName) (fireTime : Z) : system -> fireStage -> system -> Prop :=
| stage_get s ta : stage key fireTime s FGet (s <| fires := <[key := (fireTime, FInvoke ta)]> (fires s) |>)
| stage_get_failed s : stage key fireTime s FGet (s <| fires := <[key := (fireTime, FRecord None None)]> (fires s) |>)
| stage_invoke s ta err : stage key fireTime s (FInvoke ta)
    (s <| invoked := (key, fireTime) :: invoked s |> <| fires := <[key := (fireTime, FRecord (Some ta) err)]> (fires s) |>)
| stage_record s ta err : stage key fireTime s (FRecord ta err)
    (s <| entries := recordFire (entries s) key fireTime |>
       <| fires := match ta with
                   | Some ta => <[key := (fireTime, FPatch ta err)]> (fires s)
                   | None => delete key (fires s)
                   end |>)
| stage_patch s ta err : stage key fireTime s (FPatch ta err)
    (applyPatch key ta (firePatch (clock s) (entries s) key fireTime ta err) (s <| fires := delete key (fires s) |>)).

Inductive step : system -> system -> Prop :=
| step_clock s now : clock s <= now -> step s (s <| clock := now |>)
| step_api s objs : step s (s <| server := objs |>)
| step_reconcile s key g :
    let r := Reconcile (clock s) (entries s) key g in
    step s (s <| entries := r.1 |>
              <| pending := match g, r.2 with Found ta, Some new => (key, ta, new) :: pending s | _, _ => pending s end |>)
| step_patch s key base new ps qs : pending s = ps ++ (key, base, new) :: qs ->
    step s (applyPatch key base new (s <| pending := ps ++ qs |>))
| step_tick s : fires s = ∅ ->
    let r := Tick (clock s) (entries s) in
    step s (s <| entries := r.2 |> <| fires := (fun t => (t, FGet)) <$> r.1 |>)
| step_stage s key fireTime st s' : fires s !! key = Some (fireTime, st) -> stage key fireTime s st s' -> step s s'.

Definition initial (now : Z) : system := mkSystem now ∅ ∅ ∅ [] [].

Inductive reachable (now : Z) : system -> Prop :=
| reachable_initial : reachable now (initial now)
| reachable_step s s' : reachable now s -> step s s' -> reachable now s'.

(** The fire times of [key], the latest first. *)
Definition times (s : system) (key : NamespacedName) : list Z :=
  omap (fun kt => if decide (kt.1 = key) then Some kt.2 else None) (invoked s).

(** ** No slot is fired twice *)

Context {CL : CronLaws}.

(** A fire that has not invoked yet. *)
Definition waiting (st : fireStage) : Prop := match st with FGet | FInvoke _ => True | _ => False end.

Record inv (s : system) : Prop := {
  iv_sorted key : StronglySorted Z.gt (times s key);
  iv_past key t : t ∈ times s key -> t <= clock s;
  iv_entry key e : entries s !! key = Some e -> nextFire e = 0
    \/ (forall t, t ∈ times s key -> t < nextFire e) /\ (forall t st, fires s !! key = Some (t, st) -> t < nextFire e);
  iv_fire key t st : fires s !! key = Some (t, st) -> t <= clock s /\ (waiting st -> forall u, u ∈ times s key -> u < t);
}.

(** Computes the fields of an updated record. *)
#[local] Ltac fields := cbn; unfold const; cbn.

(** Steps that leave the fires and the invocations alone, and the entries of a key as they
    were or freshly registered. *)
Lemma inv_entries s s' :
  invoked s' = invoked s -> fires s' = fires s -> clock s <= clock s' ->
  (forall key e', entries s' !! key = Some e' ->
     (exists e, entries s !! key = Some e /\ nextFire e' = nextFire e) \/ nextFire e' = 0 \/ clock s < nextFire e') ->
  inv s -> inv s'.
Proof.
  intros Hi Hf Hc He [V1 V2 V3 V4]. assert (forall key, times s' key = times s key) as Ht by (intros; unfold times; by rewrite Hi).
  split; intros *; rewrite ?Ht, ?Hf; auto.
  - intros Hin. specialize (V2 _ _ Hin). lia.
  - intros E. destruct (He _ _ E) as [(e0 & E0 & ->)|[Hz|Hlt]]; [by apply V3|by left|]. right. split.
    + intros u Hu%V2. lia.
    + intros u st Hu%V4. lia.
  - intros E. destruct (V4 _ _ _ E) as [Hle Hw]. split; [lia|done].
Qed.

Lemma Reconcile_entries now t key g key' e' : (Reconcile now t key g).1 !! key' = Some e' ->
  (exists e, t !! key' = Some e /\ nextFire e' = nextFire e) \/ nextFire e' = 0 \/ now < nextFire e'.
Proof.
  assert (delete key t !! key' = Some e' -> exists e, t !! key' = Some e /\ nextFire e' = nextFire e) as Hdel.
  { intros [_ E]%lookup_delete_Some. eauto. }
  destruct g as [ta| |]; cbn; [|by left; apply Hdel|left; eauto].
  unfold reconcileFound. destruct (ta_Schedule ta) as [[|c spec]|]; cbn; [by left; apply Hdel| |by left; apply Hdel].
  destruct (entryMatches _ _ _); [destruct (FindStatusCondition _ _); cbn; left; eauto|].
  destruct (ParseStandard _) as [err|sched]; cbn; [by left; apply Hdel|].
  unfold upsertEntry. destruct (decide (key' = key)) as [->|Hne].
  - rewrite lookup_insert_eq. intros [= <-]. right. apply next_later.
  - rewrite lookup_insert_ne by done. left. eauto.
Qed.

Lemma ready_spec now t key u : ready now t !! key = Some u <-> exists e, t !! key = Some e /\ due now e = true /\ u = nextFire e.
Proof.
  unfold ready. rewrite lookup_fmap, fmap_Some. setoid_rewrite map_lookup_filter_Some. cbn. naive_solver.
Qed.

Lemma due_spec now e : due now e = true <-> nextFire e <> 0 /\ nextFire e <= now.
Proof. unfold due. rewrite andb_true_iff, negb_true_iff, Z.eqb_neq, Z.leb_le. done. Qed.

Lemma inv_tick s : fires s = ∅ -> inv s ->
  inv (s <| entries := (Tick (clock s) (entries s)).2 |> <| fires := (fun t => (t, FGet)) <$> (Tick (clock s) (entries s)).1 |>).
Proof.
  intros Hf [V1 V2 V3 V4]. split; intros *; [exact (V1 _)|exact (V2 _ _)|fields..].
  - rewrite lookup_fmap, fmap_Some. intros (e0 & E0 & ->). unfold rollForward.
    destruct (due (clock s) e0) eqn:Ed; fields.
    + destruct (next_later (schedule e0) (clock s)) as [Hz|Hlt]; [by left|]. right. split.
      * intros u Hu%V2. lia.
      * intros u st. rewrite lookup_fmap, fmap_Some. intros (? & (e & E & Hd & ->)%ready_spec & [= -> ->]).
        apply due_spec in Hd. lia.
    + destruct (V3 _ _ E0) as [Hz|[Hb _]]; [by left|]. right. split; [done|].
      intros u st. rewrite lookup_fmap, fmap_Some. intros (? & (e & E & Hd & ->)%ready_spec & _).
      rewrite E0 in E. injection E as <-. congruence.
  - rewrite lookup_fmap, fmap_Some. intros (? & (e & E & Hd & ->)%ready_spec & [= -> ->]). apply due_spec in Hd. split; [lia|].
    intros _. destruct (V3 _ _ E) as [Hz|[Hb _]]; [lia|done].
Qed.

Lemma times_cons s key fireTime key' l : invoked s = l ->
  times (s <| invoked := (key, fireTime) :: l |>) key' = if decide (key = key') then fireTime :: times s key' else times s key'.
Proof. intros <-. unfold times. fields. by destruct (decide (key = key')). Qed.

Lemma inv_stage s key fireTime st s' : fires s !! key = Some (fireTime, st) -> stage key fireTime s st s' -> inv s -> inv s'.
Proof.
  intros Hk Hst [V1 V2 V3 V4]. destruct (V4 _ _ _ Hk) as [Hle Hw].
  assert (forall es, es = entries s \/ es = recordFire (entries s) key fireTime ->
    forall k e, es !! k = Some e -> exists e0, entries s !! k = Some e0 /\ nextFire e = nextFire e0) as Hent.
  { intros es [-> | ->] k e; [eauto|]. unfold recordFire. intros [(-> & e0 & E0 & ->)|[_ E]]%lookup_alter_Some; eauto. }
  (* the fire moves to a stage that waits only if it did *)
  assert (forall st' s1, invoked s1 = invoked s -> clock s1 = clock s -> fires s1 = <[key := (fireTime, st')]> (fires s) ->
    entries s1 = entries s \/ entries s1 = recordFire (entries s) key fireTime -> (waiting st' -> waiting st) -> inv s1) as Hmove.
  { intros st' s1 E1 E2 E3 E4 Hwait.
    assert (forall k, times s1 k = times s k) as Ht by (intros; unfold times; by rewrite E1).
    assert (forall k t0 st0, fires s1 !! k = Some (t0, st0) -> exists st1, fires s !! k = Some (t0, st1) /\ (waiting st0 -> waiting st1)) as Hfi.
    { intros k t0 st0. rewrite E3. destruct (decide (k = key)) as [->|Hne].
      - rewrite lookup_insert_eq. intros [= <- <-]. eauto.
      - rewrite lookup_insert_ne by done. eauto. }
    split; [intros k|intros k t|intros k e|intros k t st0]; rewrite ?Ht, ?E2; [apply V1|apply V2|intros E|].
    - destruct (Hent _ E4 _ _ E) as (e0 & E0 & ->).
      destruct (V3 _ _ E0) as [Hz|[Hb1 Hb2]]; [by left|]. right. split; [done|]. intros u st0 (st1 & Hu & _)%Hfi. eauto.
    - intros (st1 & Hu & Hw')%Hfi. destruct (V4 _ _ _ Hu) as [Hl Hww]. split; [done|]. intros Hwx. by apply Hww, Hw'. }
  (* or it ends *)
  assert (forall s1, invoked s1 = invoked s -> clock s1 = clock s -> fires s1 = delete key (fires s) ->
    entries s1 = entries s \/ entries s1 = recordFire (entries s) key fireTime -> inv s1) as Hend.
  { intros s1 E1 E2 E3 E4. assert (forall k, times s1 k = times s k) as Ht by (intros; unfold times; by rewrite E1).
    split; [intros k|intros k t|intros k e|intros k t st0]; rewrite ?Ht, ?E2, ?E3; [apply V1|apply V2|intros E|].
    - destruct (Hent _ E4 _ _ E) as (e0 & E0 & ->).
      destruct (V3 _ _ E0) as [Hz|[Hb1 Hb2]]; [by left|]. right. split; [done|]. intros u st0 [_ Hu]%lookup_delete_Some. eauto.
    - intros [_ Hu]%lookup_delete_Some. by eapply V4. }
  destruct Hst as [s ta|s|s ta err|s ta err|s ta err].
  - eapply Hmove; try done. by left.
  - eapply Hmove; try done. by left.
  - assert (forall k, times (s <| invoked := (key, fireTime) :: invoked s |> <| fires := <[key := (fireTime, FRecord (Some ta) err)]> (fires s) |>) k
      = if decide (key = k) then fireTime :: times s k else times s k) as Ht.
    { intros k. unfold times. fields. by destruct (decide (key = k)). }
    split; [intros key0|intros key0 t|intros key0 e|intros key0 t st0]; rewrite ?Ht; fields.
    + destruct (decide (key = key0)) as [<-|Hne]; [|done]. constructor; [done|]. apply List.Forall_forall.
      intros u Hu%list_elem_of_In%(Hw I). lia.
    + destruct (decide (key = key0)) as [<-|Hne]; [|apply V2]. rewrite elem_of_cons. intros [->|Hu]; [done|by eapply V2].
    + intros E. destruct (V3 _ _ E) as [Hz|[Hb1 Hb2]]; [by left|]. right. split.
      * destruct (decide (key = key0)) as [<-|Hne]; [|done]. intros u. rewrite elem_of_cons. intros [->|Hu]; eauto.
      * intros u st0. destruct (decide (key0 = key)) as [->|Hne]; [rewrite lookup_insert_eq; intros [= <- _]; eauto|].
        rewrite lookup_insert_ne by done. apply Hb2.
    + destruct (decide (key0 = key)) as [->|Hne]; [rewrite lookup_insert_eq; by intros [= <- <-]|].
      rewrite lookup_insert_ne by done. rewrite decide_False by done. apply V4.
  - destruct ta as [ta|]; [eapply Hmove|eapply Hend]; try done; by right.
  - eapply Hend; try done. by left.
Qed.

Lemma cron_inv_step s s' : step s s' -> inv s -> inv s'.
Proof.
  intros Hs Hi. destruct Hs as [s now Hc|s objs|s key g|s key base new ps qs E|s Hf|s key fireTime st s' Hk Hst].
  - eapply (inv_entries s); try done. intros key e' E. fields. left. exists e'. by split.
  - eapply (inv_entries s); try done. intros key e' E. left. exists e'. by split.
  - eapply (inv_entries s); try done. intros key' e'. fields. apply Reconcile_entries.
  - eapply (inv_entries s); try done. intros key' e' E'. left. exists e'. by split.
  - by apply inv_tick.
  - by eapply inv_stage.
Qed.

Lemma inv_reachable now s : reachable now s -> inv s.
Proof.
  induction 1 as [|s s' _ IH Hs]; [|by eapply cron_inv_step].
  split; cbn; [intros k; constructor|intros k t Hn; by apply not_elem_of_nil in Hn|intros k e|intros k t st]; by rewrite lookup_empty.
Qed.

(** C18: no activation is fired twice.  However ticks, reconciliations, registrations
    and the stages of concurrent fires interleave, with a clock that does not go
    back, the invocations of an agent are for strictly increasing activation times,
    none later than the clock. *)
Theorem no_activation_twice (now : Z) (s : system) (key : NamespacedName) :
  reachable now s -> StronglySorted Z.gt (times s key) /\ Forall (fun t => t <= clock s) (times s key).
Proof.
  intros Hr%inv_reachable. split; [apply Hr|]. apply Forall_forall. intros t. apply Hr.
Qed.

(** ** An entry that is due fires, once *)

(** Tick, functionally: it fires the due entries at the activation they wait for, one
    each, however many activations have passed; nothing is due afterwards, and the
    other entries wait on. *)
Lemma Tick_spec now t key :
  (forall u, (Tick now t).1 !! key = Some u <-> exists e, t !! key = Some e /\ nextFire e <> 0 /\ nextFire e <= now /\ u = nextFire e)
  /\ (forall e', (Tick now t).2 !! key = Some e' -> due now e' = false)
  /\ (forall e, t !! key = Some e -> due now e = false -> (Tick now t).2 !! key = Some e).
Proof.
  split; [|split]; cbn.
  - intros u. rewrite ready_spec. setoid_rewrite due_spec. naive_solver.
  - intros e'. rewrite lookup_fmap, fmap_Some. intros (e & E & ->). unfold rollForward. destruct (due now e) eqn:Ed; [|done].
    apply not_true_is_false. rewrite due_spec. fields. destruct (next_later (schedule e) now); lia.
  - intros e E Hd. rewrite lookup_fmap, E. cbn. unfold rollForward. by rewrite Hd.
Qed.

(** The ticks at [nows], one after another, nothing else touching the table: the fires of
    each. *)
Fixpoint ticks (nows : list Z) (t : table) : list (gmap NamespacedName Z) :=
  match nows with [] => [] | now :: nows => (Tick now t).1 :: ticks nows (Tick now t).2 end.

(** C37: a registered schedule fires.  An entry that waits for an activation fires at it
    in the first tick that is not before it, and in none earlier. *)
Theorem waiting_entry_fires (t : table) (key : NamespacedName) (e : cronEntry) (early : list Z) (now : Z) (later : list Z) :
  t !! key = Some e -> nextFire e <> 0 -> Forall (fun n => n < nextFire e) early -> nextFire e <= now ->
  exists fires, ticks (early ++ now :: later) t !! length early = Some fires /\ fires !! key = Some (nextFire e)
    /\ forall i fs, (i < length early)%nat -> ticks (early ++ now :: later) t !! i = Some fs -> fs !! key = None.
Proof.
  intros E Hne Hearly Hnow. revert t E. induction Hearly as [|n early Hn Hearly IH]; intros t E; cbn [app ticks length].
  - exists (Tick now t).1. split; [done|]. split; [|intros; lia]. apply (proj1 (Tick_spec now t key)). eauto.
  - destruct (Tick_spec n t key) as (H1 & _ & H3).
    assert (due n e = false) as Hd by (apply not_true_is_false; rewrite due_spec; lia).
    destruct (IH _ (H3 e E Hd)) as (fs & Hfs & Hk & Hbefore). exists fs. split; [done|]. split; [done|].
    intros [|i] f Hi; cbn.
    + intros [= <-]. apply eq_None_not_Some. intros [u Hu]. apply H1 in Hu as (e' & E' & _ & Hle & _).
      rewrite E in E'. injection E' as <-. lia.
    + apply Hbefore. lia.
Qed.

(** ** Status *)

Context {HL : ConditionLaws}.

Lemma withTiming_conditions t key ta : ta_Conditions (withTiming t key ta) = ta_Conditions ta.
Proof. done. Qed.

(** The patch a fire ends with is made from the object as it was before the
    invocation, which may take minutes.  The conditions are one field: any condition
    another reconciler wrote in between is put back to what it was. *)
Lemma late_patch_reverts_sibling clock t key fireTime ta err (srv : TaskAgent) ty :
  ta_Conditions (firePatch clock t key fireTime ta err) <> ta_Conditions ta -> ty <> condScheduled ->
  FindStatusCondition (ta_Conditions (patch ta (firePatch clock t key fireTime ta err) srv)) ty
  = FindStatusCondition (ta_Conditions ta) ty.
Proof.
  intros Hne Hty. unfold patch. fields. unfold patchField. rewrite decide_False by done.
  unfold firePatch in *. destruct (fired fireTime err) as [[status reason] msg]. unfold patchScheduled.
  change (FindStatusCondition (SetStatusCondition (ta_Conditions ta)
    (mkCondition condScheduled status (ta_Generation ta) clock reason msg)) ty = FindStatusCondition (ta_Conditions ta) ty).
  by apply find_set_other.
Qed.

(** Registering a schedule, at a restart or when it changes, forgets that it ever
    fired. *)
Lemma registering_forgets_last_fire now t key ta spec sched : ta_Schedule ta = Some spec -> spec <> "" ->
  entryMatches t key spec = false -> ParseStandard spec = inr sched ->
  ta_LastScheduleTime (reconcileFound now t key ta).2 = None.
Proof.
  intros Hs Hne Hm Hp. unfold reconcileFound. rewrite Hs. destruct spec; [done|]. rewrite Hm, Hp. cbn. unfold const.
  unfold timing, upsertEntry. by rewrite lookup_insert_eq.
Qed.

(** After a reconciliation the table has an entry exactly for a schedule that parses,
    and the condition says so. *)
Lemma Reconcile_registered now t key ta :
  let '(t', new) := reconcileFound now t key ta in
  (forall k, k <> key -> t' !! k = t !! k)
  /\ match ta_Schedule ta with
     | None | Some EmptyString => t' !! key = None
     | Some spec =>
         match t' !! key with
         | Some e => specSchedule e = spec
         | None => exists err, ParseStandard spec = inl err
         end
     end.
Proof.
  unfold reconcileFound. destruct (ta_Schedule ta) as [[|c spec]|]; cbn;
    [split; [intros k Hk; by apply lookup_delete_ne|by apply lookup_delete_eq]| |split; [intros k Hk; by apply lookup_delete_ne|by apply lookup_delete_eq]].
  destruct (entryMatches t key (String c spec)) eqn:Em.
  - unfold entryMatches in Em. destruct (t !! key) as [e|] eqn:E; [|done]. apply String.eqb_eq in Em.
    destruct (FindStatusCondition _ _); cbn; split; try done; by rewrite E.
  - destruct (ParseStandard (String c spec)) as [err|sched]; cbn.
    + split; [intros k Hk; by apply lookup_delete_ne|]. unfold dropEntry. rewrite lookup_delete_eq. eauto.
    + unfold upsertEntry. split; [intros k Hk; by apply lookup_insert_ne|]. by rewrite lookup_insert_eq.
Qed.

(** The invocation of a fire is bounded. *)
Lemma invokeTimeout_bounds ta : 0 < invokeTimeout ta <= invokeTimeoutCap.
Proof.
  unfold invokeTimeout, invokeTimeoutCap, second. destruct (ta_Timeout ta) as [d|]; [|lia].
  destruct (Z.ltb_spec 0 d), (Z.ltb_spec d (5 * 60 * 1000000000)); cbn [andb]; lia.
Qed.

End Cron.

(** ** A minute schedule *)

#[local] Instance minutely : CronLib := {
  Schedule := Z;
  ParseStandard _ := inr (60 * second);
  Next every t := if 0 <? every then (t / every + 1) * every else 0;
  quote s := s;
  rfc3339 _ := "";
}.

#[local] Instance minutelyLaws : CronLaws.
Proof.
  split. intros every t. cbn. destruct (Z.ltb_spec 0 every); [right|by left].
  pose proof (Z.div_mod t every ltac:(lia)). pose proof (Z.mod_pos_bound t every ltac:(lia)). nia.
Qed.

Definition demoKey : NamespacedName := mkNN "ns" "agent".
Definition demoAgent : TaskAgent := mkTaskAgent 1 (Some "* * * * *") None None [] None None.
Definition demoEntry : cronEntry := mkEntry "* * * * *" (60 * second) (60 * second) 0.

Lemma waiting_entry_fires_witness :
  exists fires, ticks [59 * second; 90 * second; 200 * second] {[demoKey := demoEntry]} !! 1%nat = Some fires
    /\ fires !! demoKey = Some (60 * second).
Proof.
  destruct (waiting_entry_fires {[demoKey := demoEntry]} demoKey demoEntry [59 * second] (90 * second) [200 * second])
    as (fs & H1 & H2 & _); [reflexivity|done|by repeat constructor|done|].
  exists fs. by split.
Defined.

(** The agent is registered, the clock passes the minute, a tick fires it. *)
Definition registeredAt0 : system :=
  mkSystem 0 (Reconcile 0 ∅ demoKey (Found demoAgent)).1 ∅ ∅ [(demoKey, demoAgent, default demoAgent (Reconcile 0 ∅ demoKey (Found demoAgent)).2)] [].

Definition tickedAt90 : system :=
  let s := registeredAt0 <| clock := 90 * second |> in
  s <| entries := (Tick (clock s) (entries s)).2 |> <| fires := (fun t => (t, FGet)) <$> (Tick (clock s) (entries s)).1 |>.

Definition invokedOnce : system :=
  let s := tickedAt90 <| fires := <[demoKey := (60 * second, FInvoke demoAgent)]> (fires tickedAt90) |> in
  s <| invoked := (demoKey, 60 * second) :: invoked s |> <| fires := <[demoKey := (60 * second, FRecord (Some demoAgent) None)]> (fires s) |>.

Lemma invokedOnce_reachable : reachable 0 invokedOnce.
Proof.
  assert (reachable 0 tickedAt90) as H.
  { eapply reachable_step; [eapply reachable_step; [eapply reachable_step; [constructor|apply (step_reconcile (initial 0) demoKey (Found demoAgent))]|
      apply (step_clock registeredAt0 (90 * second)); done]|].
    apply (step_tick (registeredAt0 <| clock := 90 * second |>)). done. }
  eapply reachable_step; [eapply reachable_step; [exact H|]|].
  - eapply (step_stage tickedAt90 demoKey (60 * second) FGet); [vm_compute; reflexivity|]. apply (stage_get demoKey (60 * second) tickedAt90 demoAgent).
  - eapply (step_stage _ demoKey (60 * second) (FInvoke demoAgent)); [|apply stage_invoke]. vm_compute. reflexivity.
Qed.

Lemma no_activation_twice_witness : StronglySorted Z.gt (times invokedOnce demoKey) /\ times invokedOnce demoKey = [60 * second].
Proof.
  split; [exact (proj1 (no_activation_twice 0 invokedOnce demoKey invokedOnce_reachable))|vm_compute; reflexivity].
Defined.

End Cron.
