(* ===== verification/Revisions.v ===== *)
(** * Agent revisions

    [src/internal/controller/taskagent_revision_controller.go],
    [daemonagent_revision_controller.go] and [revision_helpers.go]: the snapshot of
    an agent's template at each generation, the status rolled up from it, and the
    collection of old snapshots.

    The two reconcilers are one definition over the agent's kind; the counting of
    executions is the TaskAgent's alone.  The API server is a store of revisions, what
    it answers for the other objects, and the writes it refuses. *)

From Stdlib Require Import ZArith Lia NArith Ascii String List.
From Stdlib Require Import Sorting.Permutation Sorting.Sorted.
From stdpp Require Import base strings list gmap pretty sorting.
From coqutil Require Import Datatypes.RecordSettersUsingExistingGetters.
From S2P Require Import Prelude GoStrings GoStd ApiTypes Upstream LlmXds KubeStatus.
Import GoStrings GoStd ApiTypes KubeStatus.

#[local] Open Scope string_scope.
#[local] Open Scope Z_scope.
#[local] Open Scope list_scope.

Module Revisions.

(** ** Names *)

Fixpoint zeros (n : nat) : string := match n with O => "" | S n => String "0" (zeros n) end.

(** [%05d] *)
Definition pad5 (n : Z) : string :=
  if n <? 0 then ("-" ++ zeros (4 - String.length (pretty (- n))) ++ pretty (- n))%string
  else (zeros (5 - String.length (pretty n)) ++ pretty n)%string.

Definition revisionName (agent : string) (generation : Z) : string := (agent ++ "-" ++ pad5 generation)%string.

(** ** The name determines the agent and the generation *)

Lemma digitsFrom_dash x y : forall acc, Upstream.digitsFrom (x ++ "-" ++ y)%string acc = None.
Proof.
  induction x as [|c x IH]; intros acc; [done|]. change ((String c x ++ "-" ++ y)%string) with (String c (x ++ "-" ++ y)%string).
  cbn [Upstream.digitsFrom]. destruct (_ && _); [apply IH|done].
Qed.

Lemma dash_inj a a' d d' n n' : Upstream.digitsFrom d 0 = Some n -> Upstream.digitsFrom d' 0 = Some n' ->
  (a ++ "-" ++ d)%string = (a' ++ "-" ++ d')%string -> a = a' /\ d = d'.
Proof.
  intros Hd Hd'. revert a'. induction a as [|c a IH]; intros [|c' a'].
  - intros H. by injection H as H.
  - change ((String c' a' ++ "-" ++ d')%string) with (String c' (a' ++ "-" ++ d')%string). intros H.
    injection H as _ H. change (d = (a' ++ "-" ++ d')%string) in H. subst d. by rewrite digitsFrom_dash in Hd.
  - change ((String c a ++ "-" ++ d)%string) with (String c (a ++ "-" ++ d)%string). intros H.
    injection H as _ H. change ((a ++ "-" ++ d)%string = d') in H. subst d'. by rewrite digitsFrom_dash in Hd'.
  - intros [= -> E]. by destruct (IH _ E) as [-> ->].
Qed.

Lemma digitsFrom_zeros n s : Upstream.digitsFrom (zeros n ++ s)%string 0 = Upstream.digitsFrom s 0.
Proof. by induction n. Qed.

Lemma digitsFrom_pad5 n : 0 <= n -> Upstream.digitsFrom (pad5 n) 0 = Some n.
Proof.
  intros Hn. unfold pad5. destruct (Z.ltb_spec n 0); [lia|]. rewrite digitsFrom_zeros. destruct n as [|p|p]; [done| |lia].
  unfold pretty, pretty_Z, pretty, pretty_positive, pretty, pretty_N. rewrite decide_False by done. by rewrite LlmXds.digitsFrom_pretty.
Qed.

Lemma revisionName_inj a a' g g' : 0 <= g -> 0 <= g' -> revisionName a g = revisionName a' g' -> a = a' /\ g = g'.
Proof.
  intros Hg Hg' H. destruct (dash_inj _ _ _ _ _ _ (digitsFrom_pad5 g Hg) (digitsFrom_pad5 g' Hg') H) as [-> E].
  split; [done|]. pose proof (digitsFrom_pad5 g Hg) as H1. rewrite E, (digitsFrom_pad5 g' Hg') in H1. congruence.
Qed.

(** ** Objects *)

Inductive AgentKind := Task | Daemon.
#[export] Instance AgentKind_eq_dec : EqDecision AgentKind.
Proof. solve_decision. Defined.

Definition kindLabel (k : AgentKind) : string := match k with Task => "TaskAgent" | Daemon => "DaemonAgent" end.

(** The template of a sandbox, kept whole. *)
Section Revisions.
Context {Template : Type}.

Record AgentSandboxRevision := mkRevision {
  rv_Namespace : string;
  rv_Name : string;
  rv_Labels : gmap string string;
  rv_Annotations : gmap string string;
  rv_Owner : string;                        (* the UID of the controller reference *)
  CreationTimestamp : Z;
  rv_Spec : Template;
  ReadyWorkers : Z;
  Workers : list (Z * Z);                   (* ActiveExecutions and WarmCount of each *)
}.

Record Agent := mkAgent {
  ag_Namespace : string;
  ag_Name : string;
  ag_UID : string;
  Generation : Z;
  WorkerPoolRef : string;
  EgressRefs : list string;
  TemplateAnnotations : gmap string string;
  TemplateSpec : Template;
  Conditions : list Condition;
  LatestCreatedRevisionName : string;
  LatestReadyRevisionName : string;
  ActiveExecutions : Z;
  WarmSandboxes : Z;
  ObservedGeneration : Z;
}.

Notation store := (gmap NamespacedName AgentSandboxRevision).

(** What the API server answers: a read of a pool or a gateway finds it, does not, or fails;
    reads of revisions, lists, writes and patches may fail; and the invocation read
    model, when one is wired, counts the executions of a TaskAgent or fails. *)
Inductive got := Found | NotFound | Failed (err : string).

Class Api := {
  getPool : NamespacedName -> got;
  getGateway : NamespacedName -> got;
  revisionErr : NamespacedName -> option string;
  ownerErr : option string;
  createErr : NamespacedName -> option string;
  listErr : option string;
  deleteErr : NamespacedName -> got;        (* [Found] is a delete that succeeds *)
  countActive : option (NamespacedName -> string + Z);
  quote : string -> string;
}.

Context {AA : Api} {CH : ConditionHelpers}.

(** ** Reconcile *)

Fixpoint resolveEgressRefs (namespace : string) (refs : list string) : string + list string :=
  match refs with
  | [] => inr []
  | ref :: refs =>
      match getGateway (mkNN namespace ref) with
      | Found => resolveEgressRefs namespace refs
      | NotFound =>
          match resolveEgressRefs namespace refs with
          | inr missing => inr (ref :: missing)
          | inl e => inl e
          end
      | Failed err => inl ("looking up EgressGateway " ++ quote ref ++ ": " ++ err)%string
      end
  end.

Definition setCondition (now : Z) (ty status reason message : string) (ag : Agent) : Agent :=
  ag <| Conditions := SetStatusCondition (Conditions ag) (mkCondition ty status (Generation ag) now reason message) |>.

Definition poolCondition (now : Z) (ag : Agent) : string + Agent :=
  match getPool (mkNN (ag_Namespace ag) (WorkerPoolRef ag)) with
  | Failed err => inl ("looking up WorkerPool: " ++ err)%string
  | NotFound => inr (setCondition now condWorkerPoolReady ConditionFalse "WorkerPoolNotFound"
                       ("WorkerPool " ++ quote (WorkerPoolRef ag) ++ " not found")%string ag)
  | Found => inr (setCondition now condWorkerPoolReady ConditionTrue "WorkerPoolFound"
                    ("WorkerPool " ++ quote (WorkerPoolRef ag) ++ " exists")%string ag)
  end.

Definition egressCondition (now : Z) (ag : Agent) : string + Agent :=
  match EgressRefs ag with
  | [] => inr (setCondition now condEgressConfigured ConditionTrue "NoEgressRefs" "No egress refs configured" ag)
  | _ =>
      match resolveEgressRefs (ag_Namespace ag) (EgressRefs ag) with
      | inl err => inl err
      | inr [] => inr (setCondition now condEgressConfigured ConditionTrue "AllEgressRefsFound" "All egress gateway refs resolved" ag)
      | inr missing => inr (setCondition now condEgressConfigured ConditionFalse "EgressRefsNotFound"
                              ("Missing EgressGateway(s): [" ++ String.concat " " missing ++ "]")%string ag)
      end
  end.

(** The revision an agent of kind [K] would create at [clock]. *)
Definition newRevision (K : AgentKind) (clock : Z) (ag : Agent) : AgentSandboxRevision :=
  mkRevision (ag_Namespace ag) (revisionName (ag_Name ag) (Generation ag))
    (<[labelAgent := ag_Name ag]> (<[labelAgentKind := kindLabel K]>
      (<[labelGeneration := pretty (Generation ag)]> {[labelWorkerPool := WorkerPoolRef ag]})))
    (TemplateAnnotations ag) (ag_UID ag) clock (TemplateSpec ag) 0 [].

(** The revision of the current generation, found or created. *)
Definition ensureRevision (K : AgentKind) (clock : Z) (st : store) (ag : Agent) : string + store * AgentSandboxRevision * bool :=
  let key := mkNN (ag_Namespace ag) (revisionName (ag_Name ag) (Generation ag)) in
  match revisionErr key with
  | Some err => inl ("getting AgentSandboxRevision: " ++ err)%string
  | None =>
      match st !! key with
      | Some rev => inr (st, rev, false)
      | None =>
          match ownerErr with
          | Some err => inl ("setting AgentSandboxRevision owner reference: " ++ err)%string
          | None =>
              match createErr key with
              | Some err => inl ("creating AgentSandboxRevision: " ++ err)%string
              | None => let rev := newRevision K clock ag in inr (<[key := rev]> st, rev, true)
              end
          end
      end
  end.

Definition isReady (rev : AgentSandboxRevision) : bool := 1 <=? ReadyWorkers rev.

Definition readyCondition (now : Z) (rev : AgentSandboxRevision) (ag : Agent) : Agent :=
  let revName := revisionName (ag_Name ag) (Generation ag) in
  let ag := ag <| LatestCreatedRevisionName := revName |> in
  if isReady rev then
    setCondition now condRevisionReady ConditionTrue "RevisionReady"
      ("Revision " ++ quote revName ++ " has " ++ pretty (ReadyWorkers rev) ++ " ready worker(s)")%string
      (ag <| LatestReadyRevisionName := revName |>)
  else setCondition now condRevisionReady ConditionFalse "NoWorkersReady"
         ("Revision " ++ quote revName ++ " has no ready workers")%string ag.

(** The sums over the workers of a revision; a missing one is zero. *)
Definition int32sum (xs : list Z) : Z := fold_left (fun acc x => int32 (acc + x)) xs 0.

Definition revisionWorkerSums (st : store) (namespace revName : string) : string + Z * Z :=
  let key := mkNN namespace revName in
  match revisionErr key with
  | Some err => inl err
  | None =>
      match st !! key with
      | None => inr (0, 0)
      | Some rev => inr (int32sum (List.map fst (Workers rev)), int32sum (List.map snd (Workers rev)))
      end
  end.

(** TaskAgents only. *)
Definition rollup (st : store) (ag : Agent) : string + Agent :=
  if String.eqb (LatestReadyRevisionName ag) "" then inr (ag <| ActiveExecutions := 0 |> <| WarmSandboxes := 0 |>)
  else
    match revisionWorkerSums st (ag_Namespace ag) (LatestReadyRevisionName ag) with
    | inl err => inl ("revision worker sums: " ++ err)%string
    | inr (active, warm) =>
        let active := match countActive with
                      | Some count => match count (mkNN (ag_Namespace ag) (ag_Name ag)) with inr n => n | inl _ => active end
                      | None => active
                      end in
        inr (ag <| ActiveExecutions := active |> <| WarmSandboxes := warm |>)
    end.

(** ** Collection *)

Definition olderFirst (a b : AgentSandboxRevision) : Prop := CreationTimestamp a <= CreationTimestamp b.

(** The loop of [gcRevisions] over the sorted list. *)
Fixpoint gcLoop (items : list AgentSandboxRevision) (keep : list string) (excess : Z) (st : store) : store * option string :=
  match items with
  | [] => (st, None)
  | rev :: items =>
      if excess <=? 0 then (st, None)
      else if bool_decide (rv_Name rev ∈ keep) then gcLoop items keep excess st
      else
        let key := mkNN (rv_Namespace rev) (rv_Name rev) in
        match deleteErr key with
        | Failed err => (st, Some ("deleting revision " ++ quote (rv_Name rev) ++ ": " ++ err)%string)
        | NotFound => gcLoop items keep (excess - 1) st
        | Found => gcLoop items keep (excess - 1) (delete key st)
        end
  end.

(** The revisions an agent's selector matches. *)
Definition selected (st : store) (ag : Agent) : list AgentSandboxRevision :=
  List.filter (fun rev => String.eqb (rv_Namespace rev) (ag_Namespace ag)
                          && bool_decide (rv_Labels rev !! labelAgent = Some (ag_Name ag))) (List.map snd (map_to_list st)).

(** [sorted] is the list, sorted by age as [sort.Slice] leaves it. *)
Definition gcRevisions (st : store) (ag : Agent) (sorted : list AgentSandboxRevision) : store * option string :=
  match listErr with
  | Some err => (st, Some ("listing revisions: " ++ err)%string)
  | None =>
      gcLoop sorted [LatestCreatedRevisionName ag; LatestReadyRevisionName ag]
        (Z.of_nat (length sorted) - maxRevisionHistory) st
  end.

(** A result of sorting the list by age. *)
Definition sortedByAge (l sorted : list AgentSandboxRevision) : Prop := Permutation l sorted /\ StronglySorted olderFirst sorted.

(** The whole reconciliation, up to the patch: the store and the object to patch
    with and whether its revision is ready, or the error; [sort] is the order [sort.Slice] leaves. *)
Definition Reconcile (K : AgentKind) (now clock : Z) (sort : list AgentSandboxRevision -> list AgentSandboxRevision)
    (st : store) (ag : Agent) : store * (string + Agent * bool) :=
  match poolCondition now ag with
  | inl err => (st, inl err)
  | inr ag =>
      match egressCondition now ag with
      | inl err => (st, inl err)
      | inr ag =>
          match ensureRevision K clock st ag with
          | inl err => (st, inl err)
          | inr (st, rev, created) =>
              let ag := readyCondition now rev ag in
              match (match K with Task => rollup st ag | Daemon => inr ag end) with
              | inl err => (st, inl err)
              | inr ag =>
                  let ag := setCondition now condAccepted ConditionTrue "SpecValid" "Spec is structurally valid" ag in
                  let st := if created && (maxRevisionHistory <? Generation ag)
                            then fst (gcRevisions st ag (sort (selected st ag))) else st in
                  (st, inr (ag <| ObservedGeneration := Generation ag |>, isReady rev))
              end
          end
      end
  end.

(** The notification of a rollout, after the patch: [ready] is the status just written. *)
Definition notifies (base : Agent) (ready : bool) : bool :=
  ready && match FindStatusCondition (Conditions base) condRevisionReady with
           | Some old => negb (String.eqb (c_Status old) ConditionTrue)
           | None => true
           end.

(** ** The store and the collection *)

Definition keyOf (rev : AgentSandboxRevision) : NamespacedName := mkNN (rv_Namespace rev) (rv_Name rev).

(** Objects are stored under their names. *)
Definition stored (st : store) : Prop := forall k rev, st !! k = Some rev -> k = keyOf rev.

Lemma selected_spec st ag rev : stored st -> In rev (selected st ag) ->
  st !! keyOf rev = Some rev /\ rv_Namespace rev = ag_Namespace ag /\ rv_Labels rev !! labelAgent = Some (ag_Name ag).
Proof.
  intros Hst. unfold selected. rewrite filter_In, in_map_iff. intros [([k r] & Hr & Hin) Hb]. cbn in Hr. subst r.
  apply list_elem_of_In, elem_of_map_to_list in Hin. apply andb_true_iff in Hb as [Hn%String.eqb_eq Hl%bool_decide_eq_true].
  rewrite <- (Hst _ _ Hin). done.
Qed.

(** Whatever fails, the loop only removes listed revisions that are not kept. *)
Lemma gcLoop_removes items keep excess st k :
  (gcLoop items keep excess st).1 !! k = st !! k
  \/ (gcLoop items keep excess st).1 !! k = None /\ exists rev, In rev items /\ k = keyOf rev /\ rv_Name rev ∉ keep.
Proof.
  revert excess st. induction items as [|rev items IH]; intros excess st; cbn; [by left|].
  destruct (excess <=? 0); [by left|]. destruct (bool_decide_reflect (rv_Name rev ∈ keep)) as [Hk|Hk].
  { destruct (IH excess st) as [H|(H & r & Hr & Hrest)]; [by left|right; eauto]. }
  assert (forall st', (gcLoop items keep (excess - 1) st').1 !! k = st' !! k \/ (gcLoop items keep (excess - 1) st').1 !! k = None
    /\ exists r, In r (rev :: items) /\ k = keyOf r /\ rv_Name r ∉ keep) as IH'.
  { intros st'. destruct (IH (excess - 1) st') as [H|(H & r & Hr & Hrest)]; [by left|right; split; [done|]; exists r; split; [by right|done]]. }
  destruct (deleteErr _); [|by apply IH'|by left]. destruct (IH' (delete (keyOf rev) st)) as [H|H]; [|by right].
  destruct (decide (k = keyOf rev)) as [->|Hne].
  - right. rewrite lookup_delete_eq in H. split; [done|]. exists rev. split; [by left|done].
  - left. by rewrite lookup_delete_ne in H.
Qed.

(** The revisions the loop deletes when deletes succeed. *)
Definition victims (items : list AgentSandboxRevision) (keep : list string) (excess : Z) : list AgentSandboxRevision :=
  take (Z.to_nat excess) (List.filter (fun rev => negb (bool_decide (rv_Name rev ∈ keep))) items).

Lemma gcLoop_victims items keep excess st : (forall rev, In rev items -> deleteErr (keyOf rev) = Found) ->
  gcLoop items keep excess st = (fold_left (fun st rev => delete (keyOf rev) st) (victims items keep excess) st, None).
Proof.
  revert excess st. induction items as [|rev items IH]; intros excess st Hd; cbn [gcLoop victims List.filter].
  - unfold victims. cbn. by rewrite take_nil.
  - assert (forall r, In r items -> deleteErr (keyOf r) = Found) as Hd' by (intros r Hr; apply Hd; by right).
    unfold victims. cbn [List.filter]. destruct (Z.leb_spec excess 0).
    + assert (Z.to_nat excess = 0%nat) as -> by lia. done.
    + destruct (bool_decide (rv_Name rev ∈ keep)); cbn [negb]; [by rewrite IH|].
      specialize (Hd rev (or_introl eq_refl)). unfold keyOf in Hd at 1. rewrite Hd, IH by done.
      assert (Z.to_nat excess = S (Z.to_nat (excess - 1))) as -> by lia. done.
Qed.

(** Names within the selection are distinct. *)
Lemma selected_nodup st ag : stored st -> NoDup (List.map rv_Name (selected st ag)).
Proof.
  intros Hst. assert (NoDup (List.map keyOf (List.map snd (map_to_list st)))) as Hn.
  { assert (List.map keyOf (List.map snd (map_to_list st)) = List.map fst (map_to_list st)) as ->.
    { rewrite List.map_map. apply List.map_ext_in. intros [k r] Hin%list_elem_of_In%elem_of_map_to_list. symmetry. by apply Hst. }
    apply NoDup_fst_map_to_list. }
  unfold selected. revert Hn. generalize (List.map snd (map_to_list st)) as l. intros l. induction l as [|r l IH]; cbn; [constructor|].
  intros Hn. apply NoDup_cons in Hn as [Hr Hn]. specialize (IH Hn).
  destruct (String.eqb_spec (rv_Namespace r) (ag_Namespace ag)) as [E|]; [|done]. destruct (bool_decide _); [|done]. cbn.
  apply NoDup_cons. split; [|done]. intros Hin. apply Hr. apply list_elem_of_In in Hin. apply list_elem_of_In.
  apply in_map_iff in Hin as (r' & Hr' & Hin). apply filter_In in Hin as [Hin Hb]. apply andb_true_iff in Hb as [Hn'%String.eqb_eq _].
  apply in_map_iff. exists r'. split; [|done]. unfold keyOf. congruence.
Qed.

(** At most two of a list of distinct names are among two. *)
Lemma kept_at_most_two (l : list AgentSandboxRevision) (a b : string) : NoDup (List.map rv_Name l) ->
  (length l <= 2 + length (List.filter (fun rev => negb (bool_decide (rv_Name rev ∈ [a; b]))) l))%nat.
Proof.
  intros Hn.
  assert (length l = length (List.filter (fun rev => bool_decide (rv_Name rev ∈ [a; b])) l)
    + length (List.filter (fun rev => negb (bool_decide (rv_Name rev ∈ [a; b]))) l))%nat as ->.
  { clear Hn. induction l as [|x l IH]; [done|]. cbn [List.filter length]. destruct (bool_decide _); cbn [negb length]; lia. }
  assert (NoDup (List.map rv_Name (List.filter (fun rev => bool_decide (rv_Name rev ∈ [a; b])) l))) as Hn'.
  { induction l as [|x l IH]; cbn; [constructor|]. apply NoDup_cons in Hn as [Hx Hn]. destruct (bool_decide _); [|by apply IH]. cbn.
    apply NoDup_cons. split; [|by apply IH]. intros Hin. apply Hx. apply list_elem_of_In in Hin. apply list_elem_of_In.
    apply in_map_iff in Hin as (r & Hr & Hin). apply filter_In in Hin as [Hin _]. apply in_map_iff. eauto. }
  apply (NoDup_submseteq _ [a; b]) in Hn'.
  - apply submseteq_length in Hn'. rewrite List.length_map in Hn'. cbn in Hn'. lia.
  - intros x Hx. apply list_elem_of_In in Hx. apply in_map_iff in Hx as (r & <- & Hin). apply filter_In in Hin as [_ Hb].
    by apply bool_decide_eq_true in Hb.
Qed.

(** C31: the collection keeps ten revisions, among them the two in use.  If its deletes
    succeed, what it deletes are the oldest of the agent's revisions that are
    neither the latest created nor the latest ready one, as many as there are more than
    ten; the others, and the revisions of other agents, stay. *)
Theorem gc_keeps_ten (st : store) (ag : Agent) (sorted : list AgentSandboxRevision) :
  stored st -> sortedByAge (selected st ag) sorted -> listErr = None -> (forall rev, In rev sorted -> deleteErr (keyOf rev) = Found) ->
  exists gone rest, Permutation sorted (gone ++ rest)
    /\ Z.of_nat (length rest) = Z.min (Z.of_nat (length sorted)) maxRevisionHistory
    /\ (forall rev, In rev gone -> rv_Name rev <> LatestCreatedRevisionName ag /\ rv_Name rev <> LatestReadyRevisionName ag)
    /\ (forall old young, In old gone -> In young rest -> rv_Name young <> LatestCreatedRevisionName ag ->
          rv_Name young <> LatestReadyRevisionName ag -> olderFirst old young)
    /\ forall k, (gcRevisions st ag sorted).1 !! k = if bool_decide (k ∈ List.map keyOf gone) then None else st !! k.
Proof.
  intros Hst [Hperm Hsorted] Hl Hd. set (keep := [LatestCreatedRevisionName ag; LatestReadyRevisionName ag]).
  set (excess := Z.of_nat (length sorted) - maxRevisionHistory).
  set (old := List.filter (fun rev => negb (bool_decide (rv_Name rev ∈ keep))) sorted).
  set (kept := List.filter (fun rev => bool_decide (rv_Name rev ∈ keep)) sorted).
  assert (Permutation sorted (old ++ kept)) as Hsplit.
  { subst old kept. clear Hsorted Hd Hperm excess. induction sorted as [|x l IH]; [done|]. cbn [List.filter]. destruct (bool_decide _); cbn [negb app].
    - rewrite IH at 1. apply Permutation_middle.
    - by constructor. }
  assert (length sorted <= 2 + length old)%nat as Htwo.
  { apply kept_at_most_two. rewrite <- Hperm. by apply selected_nodup. }
  exists (victims sorted keep excess), (drop (Z.to_nat excess) old ++ kept).
  assert (StronglySorted olderFirst old) as Hold.
  { subst old. clear -Hsorted. induction Hsorted as [|x l Hs IH Hx]; cbn; [constructor|]. destruct (bool_decide _); [done|]. cbn.
    constructor; [done|]. apply List.Forall_forall. intros y Hy. apply filter_In in Hy as [Hy _]. rewrite List.Forall_forall in Hx. auto. }
  split_and!.
  - rewrite app_assoc. unfold victims. fold old. by rewrite take_drop.
  - rewrite length_app, length_drop. apply Permutation_length in Hsplit. rewrite length_app in Hsplit.
    unfold excess, maxRevisionHistory in *. lia.
  - intros rev Hin. unfold victims in Hin. fold old in Hin.
    assert (In rev old) as Hin' by (rewrite <- (take_drop (Z.to_nat excess) old); apply in_or_app; by left).
    apply filter_In in Hin' as [_ Hb]. apply negb_true_iff, bool_decide_eq_false in Hb. unfold keep in Hb. set_solver.
  - intros o y Ho Hy Hy1 Hy2. apply in_app_or in Hy as [Hy|Hy].
    + unfold victims in Ho. fold old in Ho. clear -Hold Ho Hy. revert Ho Hy. generalize (Z.to_nat excess) as n. intros n.
      revert n. induction Hold as [|x l Hs IH Hx]; intros [|n]; cbn; try done. intros [<-|Ho] Hy; [|by eapply IH].
      rewrite List.Forall_forall in Hx. apply Hx. rewrite <- (take_drop n l). apply in_or_app. by right.
    + apply filter_In in Hy as [_ Hb%bool_decide_eq_true]. unfold keep in Hb. set_solver.
  - intros k. unfold gcRevisions. rewrite Hl. rewrite gcLoop_victims by done. cbn [fst]. fold keep excess.
    generalize (victims sorted keep excess) as vs. intros vs. revert st Hst Hperm Hd. clear. intros st _ _ _.
    revert st. induction vs as [|v vs IH]; intros st; [by rewrite bool_decide_eq_false_2 by (by apply not_elem_of_nil)|].
    cbn [fold_left List.map]. rewrite IH. destruct (bool_decide_reflect (k ∈ List.map keyOf vs)) as [Hin|Hin].
    + rewrite bool_decide_eq_true_2 by (by right). done.
    + destruct (decide (k = keyOf v)) as [->|Hne].
      * rewrite lookup_delete_eq, bool_decide_eq_true_2 by (by left). done.
      * rewrite lookup_delete_ne, bool_decide_eq_false_2; [done| |done]. rewrite elem_of_cons. by intros [?|?].
Qed.

(** ** What a reconciliation does *)

(** The identity and the template of an agent are not the reconciler's. *)
Definition sameSpec (a b : Agent) : Prop :=
  ag_Namespace a = ag_Namespace b /\ ag_Name a = ag_Name b /\ ag_UID a = ag_UID b /\ Generation a = Generation b
  /\ WorkerPoolRef a = WorkerPoolRef b /\ TemplateAnnotations a = TemplateAnnotations b /\ TemplateSpec a = TemplateSpec b.

Lemma poolCondition_spec now ag ag' : poolCondition now ag = inr ag' -> sameSpec ag' ag
  /\ LatestReadyRevisionName ag' = LatestReadyRevisionName ag.
Proof. unfold poolCondition. destruct (getPool _); intros [= <-]; done. Qed.

Lemma egressCondition_spec now ag ag' : egressCondition now ag = inr ag' -> sameSpec ag' ag
  /\ LatestReadyRevisionName ag' = LatestReadyRevisionName ag.
Proof.
  unfold egressCondition. destruct (EgressRefs ag); [by intros [= <-]|].
  destruct (resolveEgressRefs _ _) as [|[|]]; by intros [= <-].
Qed.

Lemma newRevision_same K clock a b : sameSpec a b -> newRevision K clock a = newRevision K clock b.
Proof. intros (H1 & H2 & H3 & H4 & H5 & H6 & H7). unfold newRevision. by rewrite H1, H2, H3, H4, H5, H6, H7. Qed.

Lemma ensureRevision_spec K clock st ag st' rev created : ensureRevision K clock st ag = inr (st', rev, created) ->
  let key := mkNN (ag_Namespace ag) (revisionName (ag_Name ag) (Generation ag)) in
  st' !! key = Some rev /\ (forall k, k <> key -> st' !! k = st !! k)
  /\ (st !! key = Some rev /\ created = false \/ st !! key = None /\ created = true /\ rev = newRevision K clock ag).
Proof.
  unfold ensureRevision. destruct (revisionErr _); [done|]. destruct (st !! _) as [r|] eqn:E.
  - intros [= <- <- <-]. split; [done|]. split; [done|]. by left.
  - destruct ownerErr; [done|]. destruct (createErr _); [done|]. intros [= <- <- <-]. rewrite lookup_insert_eq.
    split; [done|]. split; [|by right]. intros k Hk. by rewrite lookup_insert_ne.
Qed.

Lemma rollup_spec st ag ag' : rollup st ag = inr ag' -> sameSpec ag' ag
  /\ LatestReadyRevisionName ag' = LatestReadyRevisionName ag /\ LatestCreatedRevisionName ag' = LatestCreatedRevisionName ag
  /\ Conditions ag' = Conditions ag.
Proof.
  unfold rollup. destruct (String.eqb _ _); [by intros [= <-]|]. destruct (revisionWorkerSums _ _ _) as [|[active warm]]; [done|].
  by intros [= <-].
Qed.

(** What both paths through the tail of [Reconcile] have in common. *)
Lemma Reconcile_shape K now clock sort st ag st' new ready :
  Reconcile K now clock sort st ag = (st', inr (new, ready)) ->
  exists st1 rev created base, ensureRevision K clock st base = inr (st1, rev, created) /\ sameSpec base ag
    /\ LatestReadyRevisionName base = LatestReadyRevisionName ag
    /\ ready = isReady rev /\ sameSpec new ag
    /\ LatestCreatedRevisionName new = revisionName (ag_Name ag) (Generation ag)
    /\ LatestReadyRevisionName new = (if isReady rev then revisionName (ag_Name ag) (Generation ag) else LatestReadyRevisionName ag)
    /\ (st' = st1 \/ created = true /\ maxRevisionHistory < Generation ag
        /\ exists gcAg, sameSpec gcAg ag /\ LatestCreatedRevisionName gcAg = LatestCreatedRevisionName new
           /\ LatestReadyRevisionName gcAg = LatestReadyRevisionName new
           /\ st' = (gcRevisions st1 gcAg (sort (selected st1 gcAg))).1)
    /\ exists mid, Conditions new = SetStatusCondition (SetStatusCondition mid
          (mkCondition condRevisionReady (if isReady rev then ConditionTrue else ConditionFalse) (Generation ag) now
             (if isReady rev then "RevisionReady" else "NoWorkersReady")
             (if isReady rev then "Revision " ++ quote (revisionName (ag_Name ag) (Generation ag)) ++ " has " ++ pretty (ReadyWorkers rev) ++ " ready worker(s)"
              else "Revision " ++ quote (revisionName (ag_Name ag) (Generation ag)) ++ " has no ready workers")%string))
          (mkCondition condAccepted ConditionTrue (Generation ag) now "SpecValid" "Spec is structurally valid").
Proof.
  unfold Reconcile. destruct (poolCondition now ag) as [|ag1] eqn:E1; [done|]. apply poolCondition_spec in E1 as [S1 R1].
  destruct (egressCondition now ag1) as [|ag2] eqn:E2; [done|]. apply egressCondition_spec in E2 as [S2 R2].
  destruct (ensureRevision K clock st ag2) as [|[[st1 rev] created]] eqn:E3; [done|].
  assert (sameSpec ag2 ag) as S by (unfold sameSpec in *; intuition congruence).
  assert (LatestReadyRevisionName ag2 = LatestReadyRevisionName ag) as R by congruence.
  set (ag3 := readyCondition now rev ag2).
  assert (sameSpec ag3 ag /\ LatestCreatedRevisionName ag3 = revisionName (ag_Name ag) (Generation ag)
    /\ LatestReadyRevisionName ag3 = (if isReady rev then revisionName (ag_Name ag) (Generation ag) else LatestReadyRevisionName ag)
    /\ Conditions ag3 = SetStatusCondition (Conditions ag2)
         (mkCondition condRevisionReady (if isReady rev then ConditionTrue else ConditionFalse) (Generation ag) now
             (if isReady rev then "RevisionReady" else "NoWorkersReady")
             (if isReady rev then "Revision " ++ quote (revisionName (ag_Name ag) (Generation ag)) ++ " has " ++ pretty (ReadyWorkers rev) ++ " ready worker(s)"
              else "Revision " ++ quote (revisionName (ag_Name ag) (Generation ag)) ++ " has no ready workers")%string)) as (S3 & C3 & R3 & Q3).
  { subst ag3. destruct S as (H1 & H2 & H3 & H4 & H5 & H6 & H7). rewrite <- H2, <- H4, <- R. unfold readyCondition, setCondition.
    destruct (isReady rev); (split; [unfold sameSpec; cbn; unfold const; split_and!; congruence|]); cbn; unfold const; split_and!; congruence. }
  destruct (match K with Task => rollup st1 ag3 | Daemon => inr ag3 end) as [|ag4] eqn:E4; [done|].
  assert (sameSpec ag4 ag3 /\ LatestReadyRevisionName ag4 = LatestReadyRevisionName ag3
    /\ LatestCreatedRevisionName ag4 = LatestCreatedRevisionName ag3 /\ Conditions ag4 = Conditions ag3) as (S4 & R4 & C4 & Q4).
  { destruct K; [by apply rollup_spec in E4|]. injection E4 as <-. done. }
  assert (sameSpec ag4 ag) as S5 by (unfold sameSpec in *; intuition congruence).
  set (ag5 := setCondition now condAccepted ConditionTrue "SpecValid" "Spec is structurally valid" ag4).
  assert (Generation ag5 = Generation ag) as Hgen by apply S5.
  intros [= <- <- <-]. exists st1, rev, created, ag2. split; [done|]. split; [done|]. split; [done|]. split; [done|].
  split; [exact S5|]. split; [by cbn; rewrite C4|]. split; [by cbn; rewrite R4|]. split.
  - change (Generation ag5) with (Generation ag4) in *. destruct (created && (maxRevisionHistory <? Generation ag4)) eqn:Eg; [|by left].
    apply andb_true_iff in Eg as [-> Eg%Z.ltb_lt]. right. split; [done|]. split; [lia|]. exists ag5. done.
  - exists (Conditions ag2). cbn. unfold const. rewrite Q4, Q3. destruct S5 as (_ & _ & _ & -> & _). done.
Qed.

(** C25: revisions are snapshots.  A reconciliation changes no revision it finds.  The
    status names the revision of the current generation, which is stored when it
    ends: the one that was there, or else a copy of the agent's template.  The ready
    revision moves only to one that a worker is ready for, and it is not
    collected; only when a revision was created beyond the tenth generation are
    others of the agent's name removed. *)
Theorem revisions_are_snapshots (K : AgentKind) (now clock : Z) sort (st st' : store) (ag new : Agent) (ready : bool) :
  stored st -> (forall l, sortedByAge l (sort l)) ->
  Reconcile K now clock sort st ag = (st', inr (new, ready)) ->
  let key := mkNN (ag_Namespace ag) (revisionName (ag_Name ag) (Generation ag)) in
  LatestCreatedRevisionName new = nn_name key
  /\ (exists rev, st' !! key = Some rev /\ (st !! key = Some rev \/ st !! key = None /\ rev = newRevision K clock ag)
      /\ ready = isReady rev)
  /\ LatestReadyRevisionName new = (if ready then nn_name key else LatestReadyRevisionName ag)
  /\ (forall k rev, st !! k = Some rev -> st' !! k = Some rev
      \/ st' !! k = None /\ st !! key = None /\ maxRevisionHistory < Generation ag
         /\ rv_Labels rev !! labelAgent = Some (ag_Name ag) /\ k <> mkNN (ag_Namespace ag) (LatestReadyRevisionName new)).
Proof.
  intros Hst Hsort Hrec key. apply Reconcile_shape in Hrec as (st1 & rev & created & base & He & Sb & Rb & -> & Sn & Cn & Rn & Hgc & _).
  apply ensureRevision_spec in He as (E1 & E2 & E3). rewrite (newRevision_same K clock base ag Sb) in E3.
  destruct Sb as (Sb1 & Sb2 & _ & Sb4 & _). rewrite Sb1, Sb2, Sb4 in E1, E2, E3. fold key in E1, E2, E3.
  assert (stored st1) as Hst1.
  { intros k r Hk. destruct (decide (k = key)) as [->|Hne]; [|rewrite E2 in Hk by done; by apply Hst].
    rewrite E1 in Hk. injection Hk as <-. destruct E3 as [[E3 _]|(_ & _ & ->)]; [by apply Hst|done]. }
  (* what the collection leaves *)
  assert (forall k, st' !! k = st1 !! k \/ st' !! k = None /\ created = true /\ maxRevisionHistory < Generation ag
    /\ exists r, st1 !! k = Some r /\ rv_Labels r !! labelAgent = Some (ag_Name ag) /\ k <> key
       /\ k <> mkNN (ag_Namespace ag) (LatestReadyRevisionName new)) as Hleft.
  { intros k. destruct Hgc as [->|(Hc & Hg & gcAg & Sg & Cg & Rg & ->)]; [by left|]. unfold gcRevisions. destruct listErr; [by left|].
    destruct (gcLoop_removes (sort (selected st1 gcAg)) [LatestCreatedRevisionName gcAg; LatestReadyRevisionName gcAg]
      (Z.of_nat (length (sort (selected st1 gcAg))) - maxRevisionHistory) st1 k) as [H|(H & r & Hr & -> & Hk)]; [by left|].
    right. split; [done|]. split; [done|]. split; [done|]. exists r.
    assert (In r (selected st1 gcAg)) as Hin by (eapply Permutation_in; [symmetry; apply Hsort|done]).
    apply selected_spec in Hin as (Hs & Hns & Hlab); [|done]. destruct Sg as (G1 & G2 & _). rewrite G2 in Hlab. split; [done|]. split; [done|].
    rewrite Cg, Cn, Rg in Hk. split; intros Heq; apply Hk; unfold keyOf, key in Heq; injection Heq as _ ->; [by left|by right; left]. }
  split; [exact Cn|]. split.
  { exists rev. split; [|split; [|done]].
    - destruct (Hleft key) as [->|(_ & _ & _ & r & _ & _ & Hne & _)]; done.
    - destruct E3 as [[E3 _]|(E3 & _ & E4)]; [by left|by right]. }
  split; [exact Rn|]. intros k r Hk.
  assert (st1 !! k = Some r) as Hk1.
  { destruct (decide (k = key)) as [->|Hne]; [|by rewrite E2]. destruct E3 as [[E3 _]|(E3 & _)]; congruence. }
  destruct (Hleft k) as [->|(H & Hc & Hg & r' & Hr' & Hlab & _ & Hready)]; [by left|]. right. split; [done|].
  assert (r' = r) as -> by congruence. split; [|done]. destruct E3 as [[_ E3]|(E3 & _)]; [congruence|done].
Qed.

(** ** Notifications *)

Context {CL : ConditionLaws}.

(** A rollout is notified once: what was written makes the next reconciliation
    silent. *)
Lemma rollout_notified_once K now clock sort st ag st' new ready :
  Reconcile K now clock sort st ag = (st', inr (new, ready)) -> notifies new ready = false.
Proof.
  intros H. apply Reconcile_shape in H as (st1 & rev & created & base & _ & _ & _ & -> & _ & _ & _ & _ & mid & Hc).
  unfold notifies. destruct (isReady rev) eqn:Er; [|done]. rewrite Hc. rewrite find_set_other by done.
  destruct (find_set mid (mkCondition condRevisionReady ConditionTrue (Generation ag) now "RevisionReady"
    ("Revision " ++ quote (revisionName (ag_Name ag) (Generation ag)) ++ " has " ++ pretty (ReadyWorkers rev) ++ " ready worker(s)")%string))
    as (c & Hf & Hs). cbn [c_Type] in Hf. rewrite Hf. unfold says in Hs. injection Hs as _ Hs _ _ _. rewrite Hs. done.
Qed.

(** ** Two kinds, one name *)

(** The name of a revision leaves the kind of its agent out, and a found revision is
    not checked: the DaemonAgent of a TaskAgent's name runs, at the same generation,
    the TaskAgent's template. *)
Lemma kinds_share_revisions clock clock' st st1 rev ta da :
  ensureRevision Task clock st ta = inr (st1, rev, true) ->
  ag_Namespace da = ag_Namespace ta -> ag_Name da = ag_Name ta -> Generation da = Generation ta ->
  ensureRevision Daemon clock' st1 da = inr (st1, rev, false)
  /\ rv_Owner rev = ag_UID ta /\ rv_Spec rev = TemplateSpec ta /\ rv_Labels rev !! labelAgentKind = Some "TaskAgent".
Proof.
  intros H Hns Hn Hg. pose proof H as H0. apply ensureRevision_spec in H as (E1 & _ & E3). destruct E3 as [[_ ?]|(_ & _ & ->)]; [done|].
  split; [|done]. unfold ensureRevision in *. rewrite Hns, Hn, Hg.
  destruct (revisionErr _); [done|]. by rewrite E1.
Qed.

End Revisions.

(** ** Witnesses *)

(** Any sort by age will do; the insertion and the merge sort of a library keep ties in place. *)
#[local] Instance olderFirst_dec {T} : RelDecision (olderFirst (Template := T)).
Proof. intros a b. unfold olderFirst, Decision. destruct (Z_le_dec (CreationTimestamp a) (CreationTimestamp b)); [by left|by right]. Defined.
#[local] Instance olderFirst_total {T} : Total (olderFirst (Template := T)).
Proof. intros a b. unfold olderFirst. lia. Qed.
#[local] Instance olderFirst_trans {T} : Transitive (olderFirst (Template := T)).
Proof. intros a b c. unfold olderFirst. lia. Qed.

Definition byAge {T} (l : list (AgentSandboxRevision (Template := T))) : list (AgentSandboxRevision (Template := T)) :=
  merge_sort olderFirst l.

Lemma byAge_sorted {T} (l : list (AgentSandboxRevision (Template := T))) : sortedByAge l (byAge l).
Proof.
  split; [symmetry; apply merge_sort_Permutation|]. apply (StronglySorted_merge_sort olderFirst l).
Qed.

Section Witnesses.
#[local] Instance quietApi : Api := {|
  getPool := fun _ => Found; getGateway := fun _ => Found; revisionErr := fun _ => None; ownerErr := None;
  createErr := fun _ => None; listErr := None; deleteErr := fun _ => Found; countActive := None; quote := fun s => s |}.
#[local] Existing Instance plainConditions.

(** A TaskAgent at its thirteenth generation whose first is still the ready one. *)
Definition toyAgent (generation : Z) : Agent (Template := string) :=
  mkAgent "default" "crawler" "uid" generation "pool" [] ∅ "template" [] (revisionName "crawler" (generation - 1))
    (revisionName "crawler" 1) 0 0 (generation - 1).

Definition toyStore (n : nat) : gmap NamespacedName (AgentSandboxRevision (Template := string)) :=
  list_to_map (List.map (fun i => let rev := newRevision Task (Z.of_nat i) (toyAgent (Z.of_nat i)) in (keyOf rev, rev)) (seq 1 n)).

Lemma toyStore_stored n : stored (toyStore n).
Proof.
  intros k rev H. unfold toyStore in H. apply elem_of_list_to_map_2 in H. apply list_elem_of_In in H.
  apply in_map_iff in H as (i & [= <- <-] & _). done.
Qed.

Lemma gc_keeps_ten_witness :
  List.map CreationTimestamp (List.filter (fun rev => bool_decide (is_Some ((gcRevisions (AA := quietApi) (toyStore 13) (toyAgent 14)
    (byAge (selected (toyStore 13) (toyAgent 14)))).1 !! keyOf rev))) (byAge (selected (toyStore 13) (toyAgent 14))))
    = [1; 5; 6; 7; 8; 9; 10; 11; 12; 13]
  /\ exists gone rest, Permutation (byAge (selected (toyStore 13) (toyAgent 14))) (gone ++ rest)
    /\ Z.of_nat (length rest) = Z.min (Z.of_nat (length (byAge (selected (toyStore 13) (toyAgent 14))))) maxRevisionHistory.
Proof.
  split; [vm_compute; reflexivity|].
  destruct (gc_keeps_ten (AA := quietApi) (toyStore 13) (toyAgent 14) _ (toyStore_stored 13) (byAge_sorted _) eq_refl (fun _ _ => eq_refl))
    as (gone & rest & H1 & H2 & _). exists gone, rest. split; [exact H1|exact H2].
Defined.

Lemma revisions_are_snapshots_witness :
  let r := Reconcile (AA := quietApi) Task 100 90 byAge (toyStore 13) (toyAgent 14) in
  option_map CreationTimestamp (fst r !! mkNN "default" "crawler-00014") = Some 90
  /\ option_map CreationTimestamp (fst r !! mkNN "default" "crawler-00001") = Some 1
  /\ option_map CreationTimestamp (fst r !! mkNN "default" "crawler-00002") = None
  /\ (match snd r with inr (new, ready) => LatestCreatedRevisionName new = "crawler-00014" | inl _ => False end).
Proof.
  split_and!; [vm_compute; reflexivity|vm_compute; reflexivity|vm_compute; reflexivity|].
  destruct (Reconcile (AA := quietApi) Task 100 90 byAge (toyStore 13) (toyAgent 14)) as [st' [e|[new ready]]] eqn:E.
  - apply (f_equal (fun x => match snd x with inl _ => true | inr _ => false end)) in E. vm_compute in E. discriminate E.
  - exact (proj1 (revisions_are_snapshots (AA := quietApi) Task 100 90 byAge (toyStore 13) st' (toyAgent 14) new ready
      (toyStore_stored 13) byAge_sorted E)).
Defined.

End Witnesses.

End Revisions.
