(* ===== verification/JsonText.v ===== *)
(** * JSON texts

    What the translation uses of [encoding/json]: the scanner, which finds the value at the
    head of a text, the compaction of a text ([json.Compact]), and the walk of the
    members of an object that [llmcall.DecodeObject] makes with a [Decoder].

    A value is kept as it is written: numbers and strings are their literals, members
    stay in order and may repeat; only the white space is gone.  [maxNestingDepth] is
    the scanner's own limit. *)

From Stdlib Require Import ZArith Lia Ascii String List.
From stdpp Require Import base strings list.
From S2P Require Import Prelude GoStrings.
Import GoStrings.

#[local] Open Scope string_scope.
#[local] Open Scope Z_scope.
#[local] Open Scope list_scope.

Module JsonText.

(** ** Values as written *)

(** The literals of strings and of keys have their quotes. *)
Inductive json :=
| JNull
| JBool (b : bool)
| JNum (lit : string)
| JStr (lit : string)
| JArr (l : list json)
| JObj (ms : list (string * json)).

Definition dq : ascii := "034"%char.
Definition bslash : ascii := "092"%char.

Definition member (text : json -> string) (kv : string * json) : string := (fst kv ++ ":" ++ text (snd kv))%string.

Fixpoint print (v : json) : string :=
  match v with
  | JNull => "null"
  | JBool true => "true"
  | JBool false => "false"
  | JNum lit => lit
  | JStr lit => lit
  | JArr l => ("[" ++ String.concat "," (List.map print l) ++ "]")%string
  | JObj ms => ("{" ++ String.concat "," (List.map (fun kv => fst kv ++ ":" ++ print (snd kv))%string ms) ++ "}")%string
  end.

(** ** The scanner *)

Definition isSpace (c : ascii) : bool :=
  Ascii.eqb c " " || Ascii.eqb c "009" || Ascii.eqb c "010" || Ascii.eqb c "013".

Fixpoint skipSpace (s : string) : string :=
  match s with
  | String c t => if isSpace c then skipSpace t else s
  | EmptyString => ""
  end.

Definition isDigit (c : ascii) : bool := let n := Z.of_N (N_of_ascii c) in (48 <=? n) && (n <=? 57).
Definition isHex (c : ascii) : bool :=
  let n := Z.of_N (N_of_ascii c) in isDigit c || (97 <=? n) && (n <=? 102) || (65 <=? n) && (n <=? 70).

Definition consTo (c : ascii) (r : option (string * string)) : option (string * string) :=
  match r with Some (a, b) => Some (String c a, b) | None => None end.

(** The rest of a string literal after its opening quote, and what follows it. *)
Fixpoint stringBody (s : string) : option (string * string) :=
  match s with
  | EmptyString => None
  | String c t =>
      if Ascii.eqb c dq then Some (String dq "", t)
      else if Ascii.eqb c bslash then
        match t with
        | EmptyString => None
        | String e t =>
            if Ascii.eqb e "u" then
              match t with
              | String a (String b (String x (String y t))) =>
                  if isHex a && isHex b && isHex x && isHex y
                  then consTo c (consTo e (consTo a (consTo b (consTo x (consTo y (stringBody t))))))
                  else None
              | _ => None
              end
            else if existsb (Ascii.eqb e) [dq; bslash; "/"; "b"; "f"; "n"; "r"; "t"]%char
            then consTo c (consTo e (stringBody t))
            else None
        end
      else if Z.of_N (N_of_ascii c) <? 32 then None
      else consTo c (stringBody t)
  end.

(** The states of a number in the scanner. *)
Inductive numState := NNeg | NZero | NInt | NDot | NFrac | NE | NESign | NExp.

Definition numStep (st : numState) (c : ascii) : option numState :=
  let exponent := if Ascii.eqb c "e" || Ascii.eqb c "E" then Some NE else None in
  let fraction := if Ascii.eqb c "." then Some NDot else exponent in
  match st with
  | NNeg => if Ascii.eqb c "0" then Some NZero else if isDigit c then Some NInt else None
  | NZero => fraction
  | NInt => if isDigit c then Some NInt else fraction
  | NDot => if isDigit c then Some NFrac else None
  | NFrac => if isDigit c then Some NFrac else exponent
  | NE => if Ascii.eqb c "+" || Ascii.eqb c "-" then Some NESign else if isDigit c then Some NExp else None
  | NESign => if isDigit c then Some NExp else None
  | NExp => if isDigit c then Some NExp else None
  end.

Definition accepting (st : numState) : bool := match st with NZero | NInt | NFrac | NExp => true | _ => false end.

Fixpoint numRun (st : numState) (s : string) : option (string * string) :=
  match s with
  | EmptyString => if accepting st then Some ("", "") else None
  | String c t =>
      match numStep st c with
      | Some st => consTo c (numRun st t)
      | None => if accepting st then Some ("", s) else None
      end
  end.

Definition number (s : string) : option (string * string) :=
  match s with
  | String c t => if Ascii.eqb c "-" then consTo c (numRun NNeg t) else numRun NNeg s
  | EmptyString => None
  end.

Definition literal (word : string) (v : json) (s : string) : option (json * string) :=
  if HasPrefix s word then Some (v, drop_str (String.length word) s) else None.

Section Nested.
Context (val : string -> option (json * string)).

(** The elements of an array from the first on. *)
Fixpoint elements (fuel : nat) (s : string) : option (list json * string) :=
  match fuel with
  | O => None
  | S f =>
      match val s with
      | None => None
      | Some (v, r) =>
          match skipSpace r with
          | String c t =>
              if Ascii.eqb c "," then match elements f t with Some (l, r) => Some (v :: l, r) | None => None end
              else if Ascii.eqb c "]" then Some ([v], t) else None
          | EmptyString => None
          end
      end
  end.

(** The members of an object from a key on: those that are whole, and what follows
    the object unless its text breaks off. *)
Fixpoint members (fuel : nat) (s : string) : list (string * json) * option string :=
  match fuel with
  | O => ([], None)
  | S f =>
      match skipSpace s with
      | String c t =>
          if Ascii.eqb c dq then
            match stringBody t with
            | None => ([], None)
            | Some (k, r) =>
                match skipSpace r with
                | String c t =>
                    if Ascii.eqb c ":" then
                      match val t with
                      | None => ([], None)
                      | Some (v, r) =>
                          let kv := (String dq k, v) in
                          match skipSpace r with
                          | String c t =>
                              if Ascii.eqb c "," then let '(ms, r) := members f t in (kv :: ms, r)
                              else if Ascii.eqb c "}" then ([kv], Some t) else ([kv], None)
                          | EmptyString => ([kv], None)
                          end
                      end
                    else ([], None)
                | EmptyString => ([], None)
                end
            end
          else ([], None)
      | EmptyString => ([], None)
      end
  end.

(** After the opening bracket. *)
Definition arrayBody (s : string) : option (json * string) :=
  match skipSpace s with
  | String c t =>
      if Ascii.eqb c "]" then Some (JArr [], t)
      else match elements (String.length s) s with Some (l, r) => Some (JArr l, r) | None => None end
  | EmptyString => None
  end.

Definition objectBody (s : string) : list (string * json) * option string :=
  match skipSpace s with
  | String c t => if Ascii.eqb c "}" then ([], Some t) else members (String.length s) s
  | EmptyString => ([], None)
  end.

End Nested.

(** The value at the head of a text, nested at most [d] deep, and what follows it. *)
Fixpoint value (d : nat) (s : string) : option (json * string) :=
  match skipSpace s with
  | EmptyString => None
  | String c t =>
      if Ascii.eqb c dq then match stringBody t with Some (b, r) => Some (JStr (String dq b), r) | None => None end
      else if Ascii.eqb c "[" then match d with O => None | S d => arrayBody (value d) t end
      else if Ascii.eqb c "{" then
        match d with
        | O => None
        | S d => match objectBody (value d) t with (ms, Some r) => Some (JObj ms, r) | (_, None) => None end
        end
      else if Ascii.eqb c "n" then literal "null" JNull (String c t)
      else if Ascii.eqb c "t" then literal "true" (JBool true) (String c t)
      else if Ascii.eqb c "f" then literal "false" (JBool false) (String c t)
      else match number (String c t) with Some (lit, r) => Some (JNum lit, r) | None => None end
  end.

Definition maxNestingDepth : nat := Z.to_nat 10000.

(** A whole text. *)
Definition parse (s : string) : option json :=
  match value maxNestingDepth s with
  | Some (v, r) => if String.eqb (skipSpace r) "" then Some v else None
  | None => None
  end.

(** [json.Compact]. *)
Definition Compact (s : string) : option string := option_map print (parse s).

(** ** Well-formed values *)

Fixpoint allOf {A} (P : A -> Prop) (l : list A) : Prop := match l with [] => True | x :: l => P x /\ allOf P l end.

Definition isString (lit : string) : Prop := exists b, lit = String dq b /\ stringBody b = Some (b, "").
Definition isNumber (lit : string) : Prop := number lit = Some (lit, "").

(** The literals are literals. *)
Fixpoint wf (v : json) : Prop :=
  match v with
  | JNull | JBool _ => True
  | JNum lit => isNumber lit
  | JStr lit => isString lit
  | JArr l => allOf wf l
  | JObj ms => allOf (fun kv => isString (fst kv) /\ wf (snd kv)) ms
  end.

Fixpoint depth (v : json) : nat :=
  match v with
  | JArr l => S (list_max (List.map depth l))
  | JObj ms => S (list_max (List.map (fun kv => depth (snd kv)) ms))
  | _ => O
  end.

Lemma allOf_Forall {A} (P : A -> Prop) l : allOf P l <-> Forall P l.
Proof. induction l as [|x l IH]; cbn; [done|]. rewrite List.Forall_cons_iff. by rewrite IH. Qed.

Section JsonInd.
Context (P : json -> Prop).
Hypothesis Hnull : P JNull.
Hypothesis Hbool : forall b, P (JBool b).
Hypothesis Hnum : forall lit, P (JNum lit).
Hypothesis Hstr : forall lit, P (JStr lit).
Hypothesis Harr : forall l, Forall P l -> P (JArr l).
Hypothesis Hobj : forall ms, Forall (fun kv => P (snd kv)) ms -> P (JObj ms).

Fixpoint json_ind' (v : json) : P v :=
  match v with
  | JNull => Hnull
  | JBool b => Hbool b
  | JNum lit => Hnum lit
  | JStr lit => Hstr lit
  | JArr l => Harr l ((fix all l : Forall P l := match l with [] => @List.Forall_nil _ _ | x :: l => @List.Forall_cons _ _ _ _ (json_ind' x) (all l) end) l)
  | JObj ms =>
      Hobj ms ((fix all ms : Forall (fun kv => P (snd kv)) ms :=
        match ms with [] => @List.Forall_nil _ _ | kv :: ms => @List.Forall_cons _ _ _ _ (json_ind' (snd kv)) (all ms) end) ms)
  end.
End JsonInd.

(** ** Literals and what follows them *)

(** What may follow a value. *)
Definition stops (s : string) : Prop :=
  match s with
  | EmptyString => True
  | String c _ => isSpace c = true \/ c = ","%char \/ c = "]"%char \/ c = "}"%char
  end.

Lemma consTo_Some c r a b : consTo c r = Some (a, b) <-> exists a', r = Some (a', b) /\ a = String c a'.
Proof.
  destruct r as [[a' b']|]; cbn; [|split; [done|by intros (? & ? & _)]].
  split; [intros [= <- <-]; eauto|]. intros (? & [= -> ->] & ->). done.
Qed.

Lemma stringBody_app s b r x : stringBody s = Some (b, r) -> stringBody (s ++ x)%string = Some (b, (r ++ x)%string).
Proof.
  remember (String.length s) as n eqn:Hn. assert (String.length s <= n)%nat as Hle by lia. clear Hn.
  revert s b Hle. induction n as [|n IH]; intros [|c s] b Hle; cbn in Hle; try lia; try discriminate.
  rewrite str_cons_app. cbn [stringBody]. destruct (Ascii.eqb c dq); [by intros [= <- <-]|].
  destruct (Ascii.eqb c bslash).
  - destruct s as [|e s]; [done|]. rewrite str_cons_app. cbn [String.length] in Hle.
    destruct (Ascii.eqb e "u").
    + destruct s as [|a [|b0 [|x0 [|y s]]]]; try done. rewrite !str_cons_app. cbn [String.length] in Hle. destruct (_ && _); [|done].
      intros H.
      repeat (apply consTo_Some in H as (? & H & ->)). apply IH in H; [|lia]. by rewrite H.
    + destruct (existsb _ _); [|done]. intros H. repeat (apply consTo_Some in H as (? & H & ->)). apply IH in H; [|lia]. by rewrite H.
  - destruct (_ <? _); [done|]. intros H. apply consTo_Some in H as (? & H & ->). apply IH in H; [|lia]. by rewrite H.
Qed.

Lemma numStep_stop st s : stops s -> match s with String c _ => numStep st c = None | EmptyString => True end.
Proof.
  destruct s as [|c s]; [done|]. cbn [stops]. intros Hc.
  assert (c = " "%char \/ c = "009"%char \/ c = "010"%char \/ c = "013"%char \/ c = ","%char \/ c = "]"%char \/ c = "}"%char) as H.
  { destruct Hc as [H|H]; [|tauto]. unfold isSpace in H. rewrite !orb_true_iff, !Ascii.eqb_eq in H. tauto. }
  destruct H as [-> | [-> | [-> | [-> | [-> | [-> | ->]]]]]]; by destruct st.
Qed.

Lemma numRun_app s : forall st a x, numRun st s = Some (a, "") -> stops x -> numRun st (s ++ x)%string = Some (a, x).
Proof.
  induction s as [|c s IH]; intros st a x.
  - cbn [numRun]. destruct (accepting st) eqn:E; [|done]. intros [= <-] Hx. pose proof (numStep_stop st x Hx) as Hs.
    change ("" ++ x)%string with x. destruct x as [|c x]; cbn [numRun]; [by rewrite E|]. by rewrite Hs, E.
  - rewrite str_cons_app. cbn [numRun]. destruct (numStep st c) as [st'|].
    + intros H Hx. apply consTo_Some in H as (a' & H & ->). by rewrite (IH _ _ _ H Hx).
    + destruct (accepting st); [|done]. by intros [= <- ].
Qed.

Lemma number_app s x : isNumber s -> stops x -> number (s ++ x)%string = Some (s, x).
Proof.
  unfold isNumber, number. destruct s as [|c s]; [done|]. rewrite str_cons_app.
  destruct (Ascii.eqb c "-").
  - intros H Hx. apply consTo_Some in H as (a & H & E). injection E as ->. by rewrite (numRun_app _ _ _ _ H Hx).
  - intros H Hx. exact (numRun_app _ _ _ _ H Hx).
Qed.

(** A number starts with a digit or a minus. *)
Lemma isNumber_head s : isNumber s -> exists c t, s = String c t /\ (c = "-"%char \/ isDigit c = true).
Proof.
  unfold isNumber, number. destruct s as [|c s]; [done|]. destruct (Ascii.eqb_spec c "-") as [->|]; [eauto|].
  cbn [numRun numStep]. destruct (Ascii.eqb_spec c "0") as [->|]; [by eauto|]. destruct (isDigit c) eqn:E; [by eauto|done].
Qed.

Lemma isDigit_cases (c : ascii) : isDigit c = true -> In c (list_ascii_of_string "0123456789").
Proof. destruct c as [[] [] [] [] [] [] [] []]; cbn; intros H; try discriminate H; tauto. Qed.

(** ** Printing and reading *)

Lemma str_app_nil_l (s : string) : ("" ++ s)%string = s.
Proof. reflexivity. Qed.

Lemma skipSpace_head c t : isSpace c = false -> skipSpace (String c t) = String c t.
Proof. intros H. cbn [skipSpace]. by rewrite H. Qed.

(** A value starts with a character that is not white space and closes nothing. *)
Definition opens (c : ascii) : bool := negb (isSpace c) && negb (Ascii.eqb c "]") && negb (Ascii.eqb c "}").

Lemma print_head v : wf v -> exists c t, print v = String c t /\ opens c = true.
Proof.
  destruct v as [|[]|lit|lit|l|ms]; cbn [print wf]; intros Hw; try (by eexists _, _; split; [reflexivity|]).
  - destruct (isNumber_head _ Hw) as (c & t & -> & [-> | H]); [by eauto|]. exists c, t. split; [done|].
    apply isDigit_cases in H. cbn in H. by repeat destruct H as [<- | H].
  - destruct Hw as (b & -> & _). by eauto.
Qed.

Lemma opens_spec c t : opens c = true -> skipSpace (String c t) = String c t /\ Ascii.eqb c "]" = false /\ Ascii.eqb c "}" = false.
Proof.
  unfold opens. rewrite !andb_true_iff, !negb_true_iff. intros [[H1 H2] H3]. by rewrite skipSpace_head.
Qed.

Lemma concat_cons2 sep x y l : String.concat sep (x :: y :: l) = (x ++ sep ++ String.concat sep (y :: l))%string.
Proof. reflexivity. Qed.

Section Nested.
Context (val : string -> option (json * string)).

(** What is read back of a value at any place. *)
Definition reads (v : json) : Prop := forall x, stops x -> val (print v ++ x)%string = Some (v, x).

Lemma elements_print l : forall fuel v x, (length l < fuel)%nat -> Forall reads (v :: l) ->
  elements val fuel (String.concat "," (List.map print (v :: l)) ++ String "]" x)%string = Some (v :: l, x).
Proof.
  induction l as [|w l IH]; intros [|fuel] v x Hf Hr; cbn [length] in Hf; try lia; cbn [elements].
  - apply List.Forall_cons_iff in Hr as [Hv _]. cbn [List.map String.concat].
    rewrite Hv; [done|]. cbn. auto.
  - apply List.Forall_cons_iff in Hr as [Hv Hr]. cbn [List.map]. rewrite concat_cons2, !str_app_assoc.
    rewrite str_cons_app, str_app_nil_l, Hv; [|cbn; auto]. cbn -[elements String.concat List.map String.append].
    change (print w :: List.map print l) with (List.map print (w :: l)). rewrite IH; [done|lia|done].
Qed.

Lemma members_print ms : forall fuel kv x, (length ms < fuel)%nat ->
  Forall (fun kv => isString (fst kv) /\ reads (snd kv)) (kv :: ms) ->
  members val fuel (String.concat "," (List.map (member print) (kv :: ms)) ++ String "}" x)%string
    = (kv :: ms, Some x).
Proof.
  induction ms as [|kv' ms IH]; intros [|fuel] [k v] x Hf Hr; cbn [length] in Hf; try lia;
    apply List.Forall_cons_iff in Hr as [[(b & Hk & Hb) Hv] Hr]; cbn [fst snd] in *; subst k; cbn [List.map];
    unfold member at 1; cbn [fst snd].
  - cbn [String.concat]. rewrite !str_app_assoc, !str_cons_app. cbn [members]. rewrite skipSpace_head by done.
    rewrite Ascii.eqb_refl. rewrite (stringBody_app _ _ _ _ Hb), !str_app_nil_l. cbn [skipSpace isSpace Ascii.eqb].
    cbn -[print]. rewrite Hv; [done|]. cbn. auto.
  - rewrite concat_cons2, !str_app_assoc, !str_cons_app. cbn [members]. rewrite skipSpace_head by done.
    rewrite Ascii.eqb_refl. rewrite (stringBody_app _ _ _ _ Hb), !str_app_nil_l.
    cbn -[print members String.concat List.map String.append]. rewrite Hv; [|cbn; auto].
    cbn -[print members String.concat List.map String.append].
    change (member print kv' :: List.map (member print) ms) with (List.map (member print) (kv' :: ms)). rewrite IH; [done|lia|done].
Qed.
End Nested.

Lemma print_arr l : print (JArr l) = ("[" ++ String.concat "," (List.map print l) ++ "]")%string.
Proof. reflexivity. Qed.
Lemma print_obj ms : print (JObj ms) = ("{" ++ String.concat "," (List.map (member print) ms) ++ "}")%string.
Proof. reflexivity. Qed.

Lemma literal_app word v x : literal word v (word ++ x)%string = Some (v, x).
Proof. unfold literal. by rewrite (proj2 (HasPrefix_spec _ _) (ex_intro _ x eq_refl)), drop_str_app. Qed.

Lemma value_str d b x : stringBody b = Some (b, "") -> value d (String dq b ++ x)%string = Some (JStr (String dq b), x).
Proof.
  intros Hb. rewrite str_cons_app. destruct d; cbn [value]; rewrite skipSpace_head by done; rewrite Ascii.eqb_refl;
    by rewrite (stringBody_app _ _ _ _ Hb).
Qed.

Lemma value_num d lit x : isNumber lit -> stops x -> value d (lit ++ x)%string = Some (JNum lit, x).
Proof.
  intros Hn Hx. pose proof (number_app _ _ Hn Hx) as H. destruct (isNumber_head _ Hn) as (c & t & -> & Hc). rewrite str_cons_app in *.
  assert (In c (list_ascii_of_string "-0123456789")) as Hin.
  { destruct Hc as [-> | Hc]; [by left|right; by apply isDigit_cases]. }
  clear Hc Hn. cbn [list_ascii_of_string In] in Hin.
  destruct d; cbn [value]; repeat (destruct Hin as [<- | Hin]; [rewrite skipSpace_head by done; cbn -[number]; by rewrite H|]); destruct Hin.
Qed.

Lemma length_concat_print l : Forall wf l -> (length l <= S (String.length (String.concat "," (List.map print l))))%nat.
Proof.
  induction l as [|v [|w l] IH]; intros H; [cbn; lia..|]. apply List.Forall_cons_iff in H as [_ H]. specialize (IH H).
  cbn [List.map]. rewrite concat_cons2, !str_length_app. cbn [List.map] in IH. cbn [length String.length] in *. lia.
Qed.

Lemma length_concat_members ms : (length ms <= S (String.length (String.concat "," (List.map (member print) ms))))%nat.
Proof.
  induction ms as [|v [|w l] IH]; [cbn; lia..|]. cbn [List.map]. rewrite concat_cons2, !str_length_app.
  cbn [List.map length String.length] in *. lia.
Qed.

Lemma concat_head (f : json -> string) v l c t : f v = String c t -> exists t', String.concat "," (List.map f (v :: l)) = String c t'.
Proof. intros H. cbn [List.map]. destruct l as [|w l]; cbn [List.map]; [by eexists|]. rewrite concat_cons2, H, str_cons_app. eauto. Qed.

Lemma depth_members_le ms d : (list_max (List.map (fun kv => depth (snd kv)) ms) <= d)%nat ->
  forall kv : string * json, In kv ms -> (depth (snd kv) <= d)%nat.
Proof.
  intros H kv Hin. apply list_max_le in H. rewrite List.Forall_forall in H. apply H. by apply (in_map (fun kv => depth (snd kv))).
Qed.

Lemma depth_elements_le l d : (list_max (List.map depth l) <= d)%nat -> forall v, In v l -> (depth v <= d)%nat.
Proof. intros H v Hin. apply list_max_le in H. rewrite List.Forall_forall in H. apply H. by apply in_map. Qed.

Lemma objectBody_reads val ms x : Forall (fun kv => isString (fst kv) /\ reads val (snd kv)) ms ->
  objectBody val (String.concat "," (List.map (member print) ms) ++ String "}" x)%string = (ms, Some x).
Proof.
  intros Hw. unfold objectBody. destruct ms as [|kv ms]; [done|].
  pose proof (length_concat_members (kv :: ms)) as Hlen.
  assert (exists t', String.concat "," (List.map (member print) (kv :: ms)) = String dq t') as [t' Ht].
  { apply List.Forall_inv in Hw as [(b & Hb & _) _]. cbn [List.map].
    assert (member print kv = String dq (b ++ ":" ++ print (snd kv))) as -> by (unfold member; by rewrite Hb).
    destruct ms; cbn [List.map]; [|rewrite concat_cons2, str_cons_app]; eauto. }
  rewrite Ht, str_cons_app. rewrite skipSpace_head by done. cbn -[members String.append print value String.length].
  rewrite <- str_cons_app, <- Ht. rewrite members_print; [done| |done].
  rewrite str_length_app. cbn [String.length length] in *. lia.
Qed.

(** Any well-formed value is read back from its text, whatever follows. *)
Lemma value_print v : wf v -> forall d x, (depth v <= d)%nat -> stops x -> value d (print v ++ x)%string = Some (v, x).
Proof.
  induction v as [|[]|lit|lit|l IH|ms IH] using json_ind'; intros Hw d x Hd Hx.
  - destruct d; exact (literal_app "null" JNull x).
  - destruct d; exact (literal_app "true" (JBool true) x).
  - destruct d; exact (literal_app "false" (JBool false) x).
  - by apply value_num.
  - destruct Hw as (b & -> & Hb). by apply value_str.
  - cbn [depth] in Hd. destruct d as [|d]; [lia|]. rewrite print_arr, !str_app_assoc, !str_cons_app, !str_app_nil_l.
    cbn [value]. rewrite skipSpace_head by done. cbn -[arrayBody value String.append print]. unfold arrayBody.
    cbn [wf] in Hw. apply allOf_Forall in Hw. destruct l as [|v l]; [done|].
    destruct (print_head v) as (c & t & Hc & Ho); [by apply List.Forall_inv in Hw|].
    destruct (concat_head print v l c t Hc) as [t' Ht].
    pose proof (length_concat_print (v :: l) Hw) as Hlen.
    rewrite Ht, str_cons_app. destruct (opens_spec c (t' ++ String "]" x)%string Ho) as (E1 & E2 & _). rewrite E1, E2.
    rewrite <- str_cons_app, <- Ht. rewrite elements_print; [done| |].
    + rewrite str_length_app. cbn [String.length length] in *. lia.
    + rewrite List.Forall_forall in *. intros w Hin y Hy. apply IH; [done|by apply Hw| |done].
      apply (depth_elements_le (v :: l)); [lia|done].
  - cbn [depth] in Hd. destruct d as [|d]; [lia|]. rewrite print_obj, !str_app_assoc, !str_cons_app, !str_app_nil_l.
    cbn [value]. rewrite skipSpace_head by done. cbn -[objectBody value String.append print].
    cbn [wf] in Hw. apply allOf_Forall in Hw.
    rewrite objectBody_reads; [done|]. rewrite List.Forall_forall in *. intros w Hin. split; [by apply Hw|].
    intros y Hy. apply IH; [done|by apply Hw| |done]. apply (depth_members_le ms); [lia|done].
Qed.

(** ** What is read is well-formed *)

Lemma stringBody_self s b r : stringBody s = Some (b, r) -> stringBody b = Some (b, "").
Proof.
  remember (String.length s) as n eqn:Hn. assert (String.length s <= n)%nat as Hle by lia. clear Hn.
  revert s b Hle. induction n as [|n IH]; intros [|c s] b Hle; cbn in Hle; try lia; try discriminate.
  cbn [stringBody]. destruct (Ascii.eqb c dq) eqn:E1; [by intros [= <- <-]|].
  destruct (Ascii.eqb c bslash) eqn:E2.
  - destruct s as [|e s]; [done|]. cbn [String.length] in Hle. destruct (Ascii.eqb e "u") eqn:E3.
    + destruct s as [|a [|b0 [|x0 [|y s]]]]; try done. cbn [String.length] in Hle. destruct (_ && _) eqn:E4; [|done]. intros H.
      repeat (apply consTo_Some in H as (? & H & ->)). apply IH in H; [|lia]. cbn [stringBody]. by rewrite E1, E2, E3, E4, H.
    + destruct (existsb _ _) eqn:E4; [|done]. intros H. repeat (apply consTo_Some in H as (? & H & ->)). apply IH in H; [|lia].
      cbn [stringBody]. by rewrite E1, E2, E3, E4, H.
  - destruct (_ <? _) eqn:E3; [done|]. intros H. apply consTo_Some in H as (? & H & ->). apply IH in H; [|lia].
    cbn [stringBody]. by rewrite E1, E2, E3, H.
Qed.

Lemma numRun_self s : forall st a r, numRun st s = Some (a, r) -> numRun st a = Some (a, "").
Proof.
  induction s as [|c s IH]; intros st a r; cbn [numRun].
  - destruct (accepting st) eqn:E; [|done]. intros [= <- <-]. cbn [numRun]. by rewrite E.
  - destruct (numStep st c) as [st'|] eqn:E.
    + intros H. apply consTo_Some in H as (a' & H & ->). cbn [numRun]. by rewrite E, (IH _ _ _ H).
    + destruct (accepting st) eqn:E'; [|done]. intros [= <- <-]. cbn [numRun]. by rewrite E'.
Qed.

Lemma number_self s a r : number s = Some (a, r) -> isNumber a.
Proof.
  unfold isNumber, number. destruct s as [|c s]; [done|]. destruct (Ascii.eqb c "-") eqn:E.
  - intros H. apply consTo_Some in H as (a' & H & ->). by rewrite E, (numRun_self _ _ _ _ H).
  - intros H. pose proof (numRun_self _ _ _ _ H) as H'. destruct a as [|c' a]; [done|].
    assert (c' = c) as ->; [|by rewrite E]. cbn [numRun] in H. destruct (numStep NNeg c); [|done].
    apply consTo_Some in H as (? & _ & H). by injection H.
Qed.

Lemma numRun_text s : forall st a r, numRun st s = Some (a, r) -> s = (a ++ r)%string.
Proof.
  induction s as [|c s IH]; intros st a r; cbn [numRun].
  - destruct (accepting st); [|done]. by intros [= <- <-].
  - destruct (numStep st c) as [st'|].
    + intros H. apply consTo_Some in H as (a' & H & ->). by rewrite str_cons_app, <- (IH _ _ _ H).
    + destruct (accepting st); [|done]. by intros [= <- <-].
Qed.

Lemma number_text s a r : number s = Some (a, r) -> s = (a ++ r)%string.
Proof.
  unfold number. destruct s as [|c s]; [done|]. destruct (Ascii.eqb c "-").
  - intros H. apply consTo_Some in H as (a' & H & ->). by rewrite str_cons_app, <- (numRun_text _ _ _ _ H).
  - apply numRun_text.
Qed.

(** What a reader of values promises of what it reads. *)
Definition good (d : nat) (v : json) : Prop := wf v /\ (depth v <= d)%nat.

Section Read.
Context (d : nat) (val : string -> option (json * string)).
Hypothesis val_good : forall s v r, val s = Some (v, r) -> good d v.

Lemma elements_good fuel : forall s l r, elements val fuel s = Some (l, r) -> Forall (good d) l.
Proof.
  induction fuel as [|fuel IH]; intros s l r; cbn [elements]; [done|]. destruct (val s) as [[v r']|] eqn:E; [|done].
  apply val_good in E. destruct (skipSpace r') as [|c t]; [done|]. destruct (Ascii.eqb c ",").
  - destruct (elements val fuel t) as [[l' r'']|] eqn:E'; [|done]. intros [= <- <-]. constructor; [done|by eapply IH].
  - destruct (Ascii.eqb c "]"); [|done]. intros [= <- <-]. by constructor.
Qed.

Lemma members_good fuel : forall s, Forall (fun kv => isString (fst kv) /\ good d (snd kv)) (fst (members val fuel s)).
Proof.
  induction fuel as [|fuel IH]; intros s; cbn [members]; [constructor|]. destruct (skipSpace s) as [|c t]; [constructor|].
  destruct (Ascii.eqb c dq); [|constructor]. destruct (stringBody t) as [[k r]|] eqn:E; [|constructor]. apply stringBody_self in E.
  destruct (skipSpace r) as [|c' t']; [constructor|]. destruct (Ascii.eqb c' ":"); [|constructor].
  destruct (val t') as [[v r']|] eqn:E'; [|constructor]. apply val_good in E'.
  assert (isString (fst (String dq k, v)) /\ good d (snd (String dq k, v))) as H by (split; [by exists k|done]).
  assert (Forall (fun kv => isString (fst kv) /\ good d (snd kv)) [(String dq k, v)]) as H1 by (constructor; [exact H|constructor]).
  destruct (skipSpace r') as [|c'' t'']; [exact H1|]. destruct (Ascii.eqb c'' ",").
  - specialize (IH t''). destruct (members val fuel t''). by constructor.
  - by destruct (Ascii.eqb c'' "}").
Qed.

Lemma objectBody_good s : Forall (fun kv => isString (fst kv) /\ good d (snd kv)) (fst (objectBody val s)).
Proof. unfold objectBody. destruct (skipSpace s) as [|c t]; [constructor|]. destruct (Ascii.eqb c "}"); [constructor|]. apply members_good. Qed.
End Read.

Lemma list_max_map_le {A} (f : A -> nat) l d : Forall (fun x => f x <= d)%nat l -> (list_max (List.map f l) <= d)%nat.
Proof. intros H. apply list_max_le. by apply List.Forall_map. Qed.

Lemma scalar_good d v : wf v -> depth v = 0%nat -> good d v.
Proof. intros Hw Hd. split; [done|lia]. Qed.

Lemma literal_good d w u s v r : wf u -> depth u = 0%nat -> literal w u s = Some (v, r) -> good d v.
Proof. intros Hw Hd. unfold literal. destruct (HasPrefix s w); [|done]. intros [= <- <-]. by apply scalar_good. Qed.

Lemma number_good d s v r : match number s with Some (lit, r) => Some (JNum lit, r) | None => None end = Some (v, r) -> good d v.
Proof.
  destruct (number s) as [[lit r']|] eqn:E; [|done]. intros [= <- <-]. apply scalar_good; [|done]. by eapply number_self.
Qed.

Lemma string_good d s v r : match stringBody s with Some (b, r) => Some (JStr (String dq b), r) | None => None end = Some (v, r) -> good d v.
Proof.
  destruct (stringBody s) as [[b r']|] eqn:E; [|done]. intros [= <- <-]. apply scalar_good; [|done].
  exists b. split; [done|]. by eapply stringBody_self.
Qed.

Lemma value_good d : forall s v r, value d s = Some (v, r) -> good d v.
Proof.
  induction d as [|d IH]; intros s v r; cbn [value]; destruct (skipSpace s) as [|c t]; try done;
    (destruct (Ascii.eqb c dq); [by apply string_good|]); destruct (Ascii.eqb c "["); try done.
  2: { unfold arrayBody. destruct (skipSpace t) as [|c' t'] eqn:Et; [done|]. destruct (Ascii.eqb c' "]"); [intros [= <- <-]; by split; [|cbn; lia]|].
    destruct (elements _ _ _) as [[l r']|] eqn:E; [|done]. intros [= <- <-]. apply (elements_good d) in E; [|exact IH]. split.
    - cbn [wf]. apply allOf_Forall. eapply List.Forall_impl; [|exact E]. by intros ? [? _].
    - cbn [depth]. apply le_n_S, list_max_map_le. eapply List.Forall_impl; [|exact E]. by intros ? [_ ?]. }
  all: destruct (Ascii.eqb c "{"); try done.
  2: { pose proof (objectBody_good d (value d) IH t) as H. destruct (objectBody (value d) t) as [ms [r'|]]; [|done]. intros [= <- <-]. split.
    - cbn [wf]. apply allOf_Forall. eapply List.Forall_impl; [|exact H]. by intros ? [? [? _]].
    - cbn [depth]. apply le_n_S, list_max_map_le. eapply List.Forall_impl; [|exact H]. by intros ? [_ [_ ?]]. }
  all: destruct (Ascii.eqb c "n"); [by apply literal_good|]; destruct (Ascii.eqb c "t"); [by apply literal_good|];
    destruct (Ascii.eqb c "f"); [by apply literal_good|]; apply number_good.
Qed.

(** ** Whole texts *)

Lemma parse_print v : good maxNestingDepth v -> parse (print v) = Some v.
Proof.
  intros [Hw Hd]. unfold parse. pose proof (value_print v Hw maxNestingDepth "" Hd I) as H. rewrite str_app_nil_r in H. by rewrite H.
Qed.

Lemma parse_good s v : parse s = Some v -> good maxNestingDepth v.
Proof.
  unfold parse. destruct (value maxNestingDepth s) as [[v' r]|] eqn:E; [|done]. destruct (String.eqb _ _); [|done].
  intros [= <-]. by apply value_good in E.
Qed.

(** Compaction reaches its result in one step, and the result reads as the text did. *)
Lemma Compact_parse s c : Compact s = Some c -> exists v, parse s = Some v /\ c = print v /\ parse c = Some v.
Proof.
  unfold Compact. destruct (parse s) as [v|] eqn:E; [|done]. intros [= <-]. exists v. split; [done|]. split; [done|].
  apply parse_print. by apply parse_good in E.
Qed.

Lemma Compact_idem s c : Compact s = Some c -> Compact c = Some c.
Proof. intros H. apply Compact_parse in H as (v & _ & -> & H). unfold Compact. by rewrite H. Qed.

(** ** Sanity *)

Example compact_ex : Compact (" { " ++ String dq "a" ++ String dq " : [ 1.50 , -2e+3, null ] } ")%string
  = Some ("{" ++ String dq "a" ++ String dq ":[1.50,-2e+3,null]}")%string.
Proof. vm_compute. reflexivity. Qed.

Example compact_bad : Compact "[01]" = None /\ Compact "[1,]" = None /\ Compact "{1:2}" = None /\ Compact "-" = None.
Proof. vm_compute. done. Qed.

End JsonText.
