(* ===== verification/LlmJson.v ===== *)
(** * The JSON layer of the codecs

    [src/internal/extproc/llmcall/wire.go] and [codecutil.go]: the walk that sorts the
    members of an object into modeled fields and extras, the shadows of literals,
    the encoder that lays out an object by its recorded or canonical key order, and
    the gate that gives the original bytes back.

    The engine behind [jsonx] is third-party code with [encoding/json] semantics: how
    it quotes and unquotes strings is a parameter with its laws; how values are
    taken into Go structures is written out.  The texts of errors are the engine's.
    A nil dereference of the encoders is a panic.  A nil slice and an empty one are one
    list, and a member of a structure that is repeated replaces a list. *)

From Stdlib Require Import ZArith Lia Ascii String List.
From stdpp Require Import base strings list gmap pretty.
From S2P Require Import Prelude GoStrings GoStd LlmCall Upstream JsonText.
Import GoStrings GoStd LlmCall JsonText.

#[local] Open Scope string_scope.
#[local] Open Scope Z_scope.
#[local] Open Scope list_scope.

Module LlmJson.

(** [MarshalWire] and [Unmarshal] of strings, the other texts of the engine, and the
    reading of a number that is no integer literal. *)
Class Jsonx := {
  Quote : string -> string;
  Unquote : string -> string;
  validUTF8 : string -> Prop;
  foldName : string -> string -> bool;           (* case-insensitive match of a field *)
  typeError : string -> json -> string;          (* the Go type and the value *)
  syntaxError : string -> string;                (* of a text *)
  numberError : string -> string;                (* an invalid [json.Number] *)
  truncFloat : string -> outcome string Z;       (* [Float64], then [int64] *)
}.

Class JsonxLaws {J : Jsonx} := {
  quote_string s : isString (Quote s);
  unquote_quote s : validUTF8 s -> Unquote (Quote s) = s;
  unquote_valid lit : validUTF8 (Unquote lit);
  valid_app a b : validUTF8 a -> validUTF8 b -> validUTF8 (a ++ b)%string;
  valid_cut a c b : (N_of_ascii c < 128)%N -> validUTF8 (a ++ String c b)%string -> validUTF8 a /\ validUTF8 b;
  ascii_valid s : Forall (fun c => (N_of_ascii c < 128)%N) (list_ascii_of_string s) -> validUTF8 s;
}.

Inductive Mode := ModePreserve | ModeStrip.

(** ** Walking a list of elements *)

Fixpoint omapM {A B} (f : A -> outcome string B) (l : list A) : outcome string (list B) :=
  match l with
  | [] => Ok []
  | x :: l => let! y := f x in let! ys := omapM f l in Ok (y :: ys)
  end.

(** A Go map literal of functions. *)
Fixpoint assoc {A} (tbl : list (string * A)) (key : string) : option A :=
  match tbl with
  | [] => None
  | (k, x) :: tbl => if String.eqb k key then Some x else assoc tbl key
  end.

(** Something that carries wire bookkeeping. *)
Class HasWire (S : Type) := { wireOf : S -> Wire; setWire : Wire -> S -> S }.

#[export] Instance wire_text : HasWire TextPart := {| wireOf := tx_Wire; setWire w t := mkText (tx_Text t) w |}.
#[export] Instance wire_media : HasWire MediaPart :=
  {| wireOf := md_Wire; setWire w i := mkMedia (md_MIMEType i) (md_DataB64 i) (md_URL i) w |}.
#[export] Instance wire_call : HasWire ToolCallPart :=
  {| wireOf := tc_Wire; setWire w c := mkToolCall (tc_ID c) (tc_Name c) (tc_Arguments c) w |}.
#[export] Instance wire_result : HasWire ToolCallResponsePart :=
  {| wireOf := tr_Wire; setWire w r := mkResponsePart (tr_ToolCallID r) (tr_Parts r) (tr_IsError r) w |}.
#[export] Instance wire_reasoning : HasWire ReasoningPart :=
  {| wireOf := re_Wire; setWire w r := mkReasoning (re_Text r) (re_Signature r) w |}.
#[export] Instance wire_message : HasWire Message := {| wireOf := ms_Wire; setWire w m := mkMessage (ms_Role m) (ms_Parts m) w |}.
#[export] Instance wire_tool : HasWire ToolDefinition :=
  {| wireOf := td_Wire; setWire w t := mkTool (td_Name t) (td_Description t) (td_Parameters t) w |}.
#[export] Instance wire_toolChoice : HasWire ToolChoice := {| wireOf := ch_Wire; setWire w c := mkChoice (ch_Mode c) (ch_Name c) w |}.
#[export] Instance wire_usage : HasWire Usage := {| wireOf := us_Wire; setWire w u := mkUsage (InputTokens u) (OutputTokens u) w |}.
#[export] Instance wire_choice : HasWire Choice :=
  {| wireOf := co_Wire; setWire w c := mkCompletion (co_Message c) (co_FinishReason c) (co_FinishReasonRaw c) w |}.
#[export] Instance wire_request : HasWire Request :=
  {| wireOf := rq_Wire;
     setWire w r := mkRequest (rq_Provider r) (rq_Operation r) (rq_Model r) (rq_System r) (rq_Messages r) (rq_Tools r)
                      (rq_ToolChoice r) (rq_Generation r) (rq_Stream r) w |}.
#[export] Instance wire_response : HasWire Response :=
  {| wireOf := rs_Wire; setWire w r := mkResponse (rs_Provider r) (rs_ID r) (rs_Model r) (rs_Choices r) (rs_Usage r) w |}.

#[export] Instance wire_file : HasWire FilePart :=
  {| wireOf := fl_Wire; setWire w f := mkFile (fl_MIMEType f) (fl_DataB64 f) (fl_URL f) (fl_Name f) w |}.
#[export] Instance wire_generation : HasWire GenerationConfig :=
  {| wireOf := ge_Wire; setWire w g := mkGeneration (MaxTokens g) (Temperature g) (TopP g) (TopK g) (StopSequences g) w |}.
(** A wire alone, while the members of a node are walked. *)
#[export] Instance wire_wire : HasWire Wire := {| wireOf w := w; setWire w _ := w |}.

(** ** Parts and roles *)

Definition partText (t : TextPart) : Part := mkPart PartTypeText (Some t) None None None None None None None None zeroWire.
Definition partImage (i : MediaPart) : Part := mkPart PartTypeImage None (Some i) None None None None None None None zeroWire.
Definition partAudio (a : MediaPart) : Part := mkPart PartTypeAudio None None (Some a) None None None None None None zeroWire.
Definition partFile (f : FilePart) : Part := mkPart PartTypeFile None None None (Some f) None None None None None zeroWire.
Definition partCall (c : ToolCallPart) : Part := mkPart PartTypeToolCall None None None None (Some c) None None None None zeroWire.
Definition partResult (r : ToolCallResponsePart) : Part :=
  mkPart PartTypeToolCallResponse None None None None None (Some r) None None None zeroWire.
Definition partReasoning (r : ReasoningPart) : Part := mkPart PartTypeReasoning None None None None None None (Some r) None None zeroWire.
Definition partRefusal (r : RefusalPart) : Part := mkPart PartTypeRefusal None None None None None None None (Some r) None zeroWire.

(** [textPart] of each codec. *)
Definition textPart (s : string) : Part := partText (mkText s zeroWire).

Definition roleString (r : Role) : string :=
  match r with
  | RoleSystem => "system" | RoleUser => "user" | RoleAssistant => "assistant" | RoleTool => "tool" | RoleOther s => s
  end.

Definition roleOf (s : string) : Role :=
  if String.eqb s "system" then RoleSystem else if String.eqb s "user" then RoleUser
  else if String.eqb s "assistant" then RoleAssistant else if String.eqb s "tool" then RoleTool else RoleOther s.

(** [HasContentTypePrefix] ([telemetry.go]). *)
Definition HasContentTypePrefix (headers : gmap string string) (prefix : string) : bool :=
  let ct := default "" (headers !! "content-type") in
  negb (String.eqb ct "") && HasPrefix (ToLower ct) prefix.

Definition modeString (m : ToolChoiceMode) : string :=
  match m with
  | ToolChoiceAuto => "auto" | ToolChoiceNone => "none" | ToolChoiceRequired => "required" | ToolChoiceNamed => "named"
  | ToolChoiceOther s => s
  end.

(** A conversion of a string. *)
Definition modeOf (s : string) : ToolChoiceMode :=
  if String.eqb s "auto" then ToolChoiceAuto else if String.eqb s "none" then ToolChoiceNone
  else if String.eqb s "required" then ToolChoiceRequired else if String.eqb s "named" then ToolChoiceNamed else ToolChoiceOther s.

Lemma modeOf_string s : modeString (modeOf s) = s.
Proof. unfold modeOf. repeat (case_match; [by match goal with H : String.eqb _ _ = true |- _ => apply String.eqb_eq in H as -> end|]). done. Qed.

Section Json.
Context {J : Jsonx}.

(** ** [jsonx.Unmarshal] into Go values

    A null leaves the value as it was. *)

Definition unmarshalString (cur : string) (v : json) : outcome string string :=
  match v with
  | JStr lit => Ok (Unquote lit)
  | JNull => Ok cur
  | _ => Err (typeError "string" v)
  end.

Definition unmarshalBool (cur : bool) (v : json) : outcome string bool :=
  match v with
  | JBool b => Ok b
  | JNull => Ok cur
  | _ => Err (typeError "bool" v)
  end.

Definition unmarshalList {A} (f : json -> outcome string A) (v : json) : outcome string (list A) :=
  match v with
  | JArr l => omapM f l
  | JNull => Ok []
  | _ => Err (typeError "slice" v)
  end.

(** Into [[]json.RawMessage]. *)
Definition unmarshalElements (v : json) : outcome string (list json) := unmarshalList (fun x => Ok x) v.

(** The field a key selects: the exact name, or else the first that matches when the case is ignored. *)
Definition selects (names : list string) (key : string) : option string :=
  if existsb (String.eqb key) names then Some key else List.find (foldName key) names.

(** Into a struct: each member in turn; [set] handles the selected field. *)
Fixpoint unmarshalMembers {A} (names : list string) (set : string -> json -> A -> outcome string A)
    (ms : list (string * json)) (a : A) : outcome string A :=
  match ms with
  | [] => Ok a
  | (k, v) :: ms =>
      let! a := match selects names (Unquote k) with Some f => set f v a | None => Ok a end in
      unmarshalMembers names set ms a
  end.

Definition unmarshalStruct {A} (names : list string) (set : string -> json -> A -> outcome string A)
    (cur : A) (v : json) : outcome string A :=
  match v with
  | JObj ms => unmarshalMembers names set ms cur
  | JNull => Ok cur
  | _ => Err (typeError "struct" v)
  end.

(** Into [json.Number]: a quoted number will do. *)
Definition DecodeNumber (v : json) : outcome string string :=
  match v with
  | JNum lit => Ok lit
  | JStr lit => match number (Unquote lit) with Some (_, EmptyString) => Ok (Unquote lit) | _ => Err (typeError "number" v) end
  | JNull => Ok ""
  | _ => Err (typeError "number" v)
  end.

(** ** [DecodeObject]

    The members up to the first that is not whole, and the error that ends the walk. *)

Definition notObject : string := "llmcall: not a JSON object".

Definition objectOfText (raw : string) : list (string * json) * option string :=
  match skipSpace raw with
  | String c t =>
      if Ascii.eqb c "{" then
        let '(ms, r) := objectBody (value maxNestingDepth) t in
        (ms, match r with Some _ => None | None => Some (syntaxError raw) end)
      else if Ascii.eqb c "[" then ([], Some notObject)
      else ([], Some (match value maxNestingDepth raw with Some _ => notObject | None => syntaxError raw end))
  | EmptyString => ([], Some (syntaxError raw))
  end.

(** The same for a value already scanned. *)
Definition objectOf (v : json) : list (string * json) * option string :=
  match v with
  | JObj ms => (ms, None)
  | _ => ([], Some notObject)
  end.

(** ** [DecodeKnown] *)

Definition onWire {S} `{HasWire S} (f : Wire -> Wire) (s : S) : S := setWire (f (wireOf s)) s.

Definition addKey (key : string) (w : Wire) : Wire :=
  mkWire (KeyOrder w ++ [key]) (Extras w) (wi_Shadow w) (Hints w) (Raw w) (wi_Path w) (wi_Headers w).

Section Known.
Context {S : Type} `{HasWire S} (known : string -> option (json -> S -> outcome string S)).

Fixpoint knownMembers (ms : list (string * json)) (s : S) : outcome string S :=
  match ms with
  | [] => Ok s
  | (k, v) :: ms =>
      let key := Unquote k in
      let s := onWire (addKey key) s in
      let! s := match known key with
                | Some fn => fn v s
                | None => Ok (onWire (AddExtra key (print v)) s)
                end in
      knownMembers ms s
  end.

Definition DecodeKnown (o : list (string * json) * option string) (s : S) : outcome string S :=
  let! s := knownMembers (fst o) s in
  match snd o with Some e => Err e | None => Ok s end.

End Known.

(** ** Shadows *)

Section Shadows.
Context {S : Type} `{HasWire S}.

Definition DecodeShadowString (v : json) (key : string) (s : S) : outcome string (string * S) :=
  let! str := unmarshalString "" v in
  Ok (str, if String.eqb (Quote str) (print v) then s else onWire (RecordShadow key (print v) (SVString str)) s).

(** [n.Int64()]: an integer literal in range. *)
Definition asInt64 (lit : string) : option Z :=
  let '(neg, ds) := match lit with String c t => if Ascii.eqb c "-" then (true, t) else (false, lit) | EmptyString => (false, "") end in
  match ds with
  | EmptyString => None
  | _ =>
      match Upstream.digitsFrom ds 0 with
      | Some m => let z := if neg then - m else m in if (- 2 ^ 63 <=? z) && (z <? 2 ^ 63) then Some z else None
      | None => None
      end
  end.

Definition DecodeShadowInt64 (v : json) (key : string) (s : S) : outcome string (Z * S) :=
  let! n := DecodeNumber v in
  let! i := match asInt64 n with Some i => Ok i | None => truncFloat n end in
  Ok (i, if String.eqb n (pretty i) then s else onWire (RecordShadow key n (SVInt64 i)) s).

Definition StringSliceShadowVal (ss : list string) : string := String.concat (String "000" "") ss.

Definition DecodeShadowStringSlice (v : json) (key : string) (s : S) : outcome string (list string * S) :=
  let! ss := unmarshalList (unmarshalString "") v in
  Ok (ss, onWire (RecordShadow key (print v) (SVString (StringSliceShadowVal ss))) s).

End Shadows.

(** [DecodeTypedBlock]: the last value of the field. *)
Definition lastMember (field : string) (ms : list (string * json)) : option json :=
  fold_left (fun acc kv => if String.eqb (Unquote (fst kv)) field then Some (snd kv) else acc) ms None.

Definition DecodeTypedBlock (v : json) (field : string) : outcome string string :=
  match v with
  | JObj ms => match lastMember field ms with Some tv => unmarshalString "" tv | None => Ok "" end
  | JNull => Ok ""
  | _ => Err (typeError "map" v)
  end.

Definition withRaw (raw : string) (w : Wire) : Wire :=
  mkWire (KeyOrder w) (Extras w) (wi_Shadow w) (Hints w) raw (wi_Path w) (wi_Headers w).

Definition UnknownPart (v : json) : Part :=
  mkPart PartTypeUnknown None None None None None None None None None (withRaw (print v) zeroWire).

Definition CollectText (parts : list Part) : string :=
  fold_left (fun b p => match pt_Type p, pt_Text p with PartTypeText, Some t => (b ++ tx_Text t)%string | _, _ => b end) parts "".

(** ** [ObjectEncoder] *)

Record ObjectEncoder := mkEnc { buf : string; n : Z; err : option string }.

Definition NewObjectEncoder : ObjectEncoder := mkEnc "{" 0 None.

(** [e.key] *)
Definition key (k : string) (e : ObjectEncoder) : ObjectEncoder :=
  mkEnc (buf e ++ (if (0 <? n e)%Z then "," else "") ++ Quote k ++ ":")%string (n e + 1) (err e).

Definition write (s : string) (e : ObjectEncoder) : ObjectEncoder := mkEnc (buf e ++ s)%string (n e) (err e).

(** [e.Raw] *)
Definition RawField (k v : string) (e : ObjectEncoder) : ObjectEncoder :=
  match err e with Some _ => e | None => write v (key k e) end.

Definition Fail (x : string) (e : ObjectEncoder) : ObjectEncoder :=
  match err e with Some _ => e | None => mkEnc (buf e) (n e) (Some x) end.

(** The Go values the codecs marshal. *)
Inductive goval := GString (s : string) | GNumber (lit : string) | GInt (z : Z) | GBool (b : bool) | GStrings (ss : list string).

Definition MarshalCompact (v : goval) : outcome string string :=
  match v with
  | GString s => Ok (Quote s)
  | GNumber lit =>
      if String.eqb lit "" then Ok "0"
      else match number lit with Some (_, EmptyString) => Ok lit | _ => Err (numberError lit) end
  | GInt z => Ok (pretty z)
  | GBool b => Ok (if b then "true" else "false")
  | GStrings ss => Ok ("[" ++ String.concat "," (List.map Quote ss) ++ "]")%string
  end.

(** [e.Field] *)
Definition Field (k : string) (v : goval) (e : ObjectEncoder) : ObjectEncoder :=
  match err e with
  | Some _ => e
  | None => match MarshalCompact v with Ok b => write b (key k e) | Err x => mkEnc (buf e) (n e) (Some x) | Panic => e end
  end.

Definition Bytes (e : ObjectEncoder) : outcome string string :=
  match err e with Some x => Err x | None => Ok (buf e ++ "}")%string end.

(** ** [EncodeOrderedObject]

    An emitter writes its members to the encoder and counts into [dropped]; the maps of
    emitters are functions. *)

Definition FieldEmitter : Type := ObjectEncoder * Z -> outcome string (ObjectEncoder * Z).

Definition emitter (f : ObjectEncoder -> ObjectEncoder) : FieldEmitter := fun st => Ok (f (fst st), snd st).

(** What an emitter does with a nested encoding that may fail. *)
Definition nested (k : string) (m : Z -> outcome string (string * Z)) : FieldEmitter := fun st =>
  match m (snd st) with
  | Ok (raw, d) => Ok (RawField k raw (fst st), d)
  | Err x => Ok (Fail x (fst st), snd st)
  | Panic => Panic
  end.

Section Ordered.
Context (emit : string -> option FieldEmitter).

Fixpoint emitCanonical (canonical : list string) (emitted : list string) (st : ObjectEncoder * Z) : outcome string (ObjectEncoder * Z) :=
  match canonical with
  | [] => Ok st
  | k :: canonical =>
      if existsb (String.eqb k) emitted then emitCanonical canonical emitted st
      else match emit k with
           | Some fn => let! st := fn st in emitCanonical canonical (k :: emitted) st
           | None => emitCanonical canonical emitted st
           end
  end.

(** The walk over [KeyOrder]. *)
Fixpoint emitRecorded (w : Wire) (order : list string) (emitted : list string) (st : ObjectEncoder * Z)
    : outcome string (list string * (ObjectEncoder * Z)) :=
  match order with
  | [] => Ok (emitted, st)
  | k :: order =>
      if existsb (String.eqb k) emitted then emitRecorded w order emitted st
      else match emit k with
           | Some fn => let! st := fn st in emitRecorded w order (k :: emitted) st
           | None =>
               match Extra w k with
               | Some v => emitRecorded w order (k :: emitted) (RawField k v (fst st), snd st)
               | None => emitRecorded w order emitted st
               end
           end
  end.

Definition EncodeOrderedObject (w : Wire) (mode : Mode) (canonical : list string) (dropped : Z) : outcome string (string * Z) :=
  let! (emitted, st) := match mode with
                        | ModePreserve => emitRecorded w (KeyOrder w) [] (NewObjectEncoder, dropped)
                        | ModeStrip => Ok ([], (NewObjectEncoder, dropped))
                        end in
  let! st := emitCanonical canonical emitted st in
  let! b := Bytes (fst st) in
  Ok (b, match mode with ModeStrip => snd st + Z.of_nat (length (Extras w)) | ModePreserve => snd st end).

End Ordered.

Definition EmitShadowString (w : Wire) (k val : string) (e : ObjectEncoder) : ObjectEncoder :=
  match ShadowRaw w k (SVString val) with
  | Some raw => RawField k raw e
  | None => Field k (GString val) e
  end.

Definition EmitShadowInt64 (w : Wire) (k : string) (val : Z) (e : ObjectEncoder) : ObjectEncoder :=
  match ShadowRaw w k (SVInt64 val) with
  | Some raw => RawField k raw e
  | None => Field k (GInt val) e
  end.

Definition EncodeArray (elems : list string) : string := ("[" ++ String.concat "," elems ++ "]")%string.

(** [EncodeRaw]: the gate of preserve mode. *)
Definition EncodeRaw (fresh raw : string) : string * bool :=
  if String.eqb raw "" then (fresh, false)
  else match Compact raw with
       | Some c => if String.eqb fresh c then (raw, true) else (fresh, false)
       | None => (fresh, false)
       end.

(** Encoding a list of nodes, the count threaded through. *)
Section All.
Context {A : Type} (enc : A -> Z -> outcome string (list string * Z)).

Fixpoint encodeAll (l : list A) (dropped : Z) : outcome string (list string * Z) :=
  match l with
  | [] => Ok ([], dropped)
  | x :: l =>
      let! (b, dropped) := enc x dropped in
      let! (bs, dropped) := encodeAll l dropped in
      Ok (b ++ bs, dropped)
  end.
End All.

End Json.

(** ** Objects as the encoders lay them out *)

Section Facts.
Context {J : Jsonx} {JL : JsonxLaws}.

(** An object with the given members, under keys quoted by the engine. *)
Definition obj (kts : list (string * json)) : json := JObj (List.map (fun kt => (Quote (fst kt), snd kt)) kts).

Definition str (s : string) : json := JStr (Quote s).

Definition addFields (kts : list (string * json)) (e : ObjectEncoder) : ObjectEncoder :=
  fold_left (fun e kt => RawField (fst kt) (print (snd kt)) e) kts e.

(** An emitter that writes the members [kts] and counts [dz] drops. *)
Definition emits (f : FieldEmitter) (kts : list (string * json)) (dz : Z) : Prop :=
  forall e d, err e = None -> f (e, d) = Ok (addFields kts e, d + dz).

Lemma emits_nothing : emits (emitter (fun e => e)) [] 0.
Proof. intros e d _. unfold emitter. cbn. by rewrite Z.add_0_r. Qed.

Lemma emits_raw k t : emits (emitter (RawField k (print t))) [(k, t)] 0.
Proof. intros e d _. unfold emitter. cbn. by rewrite Z.add_0_r. Qed.

Lemma emits_field k v t : MarshalCompact v = Ok (print t) -> emits (emitter (Field k v)) [(k, t)] 0.
Proof. intros H e d He. unfold emitter, Field, addFields. cbn. unfold RawField. rewrite He, H. by rewrite Z.add_0_r. Qed.

Lemma emits_string k s : emits (emitter (Field k (GString s))) [(k, str s)] 0.
Proof. by apply emits_field. Qed.

Lemma emits_nested k m t dz : (forall d, m d = Ok (print t, d + dz)) -> emits (nested k m) [(k, t)] dz.
Proof. intros H e d _. unfold nested. cbn [snd fst]. by rewrite H. Qed.

Lemma emits_shadowless w k s : wi_Shadow w = ∅ -> emits (emitter (EmitShadowString w k s)) [(k, str s)] 0.
Proof.
  intros Hw e d He. unfold emitter, EmitShadowString, ShadowRaw. cbn [fst snd]. rewrite Hw, lookup_empty.
  by apply (emits_string k s).
Qed.

Lemma addFields_app a b e : addFields (a ++ b) e = addFields b (addFields a e).
Proof. unfold addFields. by rewrite fold_left_app. Qed.

Lemma addFields_err kts e : err e = None -> err (addFields kts e) = None.
Proof. revert e. induction kts as [|[k t] kts IH]; intros e He; [done|]. apply IH. unfold RawField. by rewrite He. Qed.

Lemma addFields_buf kts : forall e, err e = None -> 0 <= n e ->
  buf (addFields kts e) = match kts with
                          | [] => buf e
                          | _ => (buf e ++ (if (0 <? n e)%Z then "," else "")
                                  ++ String.concat "," (List.map (member print) (List.map (fun kt => (Quote (fst kt), snd kt)) kts)))%string
                          end.
Proof.
  induction kts as [|[k t] kts IH]; intros e He Hn; [done|]. cbn [addFields fold_left]. fold (addFields kts (RawField k (print t) e)).
  assert (RawField k (print t) e = write (print t) (key k e)) as Hr by (unfold RawField; by rewrite He). cbn [fst snd].
  rewrite Hr, IH by (cbn; (done || lia)). unfold write, key. cbn [buf n]. destruct (Z.ltb_spec 0 (n e + 1)); [|lia].
  destruct kts as [|kt kts]; cbn [List.map String.concat]; unfold member; cbn [fst snd]; by rewrite !str_app_assoc.
Qed.

Lemma Bytes_addFields kts : Bytes (addFields kts NewObjectEncoder) = Ok (print (obj kts)).
Proof.
  unfold Bytes. rewrite addFields_err by done. unfold obj. rewrite print_obj. f_equal.
  rewrite addFields_buf by (cbn; (done || lia)). destruct kts as [|kt kts]; [done|]. cbn [buf n NewObjectEncoder].
  destruct (Z.ltb_spec 0 0); [lia|]. by rewrite !str_app_assoc.
Qed.

(** Strip mode: the members in canonical order. *)
Definition emitsAll (emit : string -> option FieldEmitter) (canonical : list string) (fields : list (list (string * json) * Z)) : Prop :=
  Forall2 (fun k f => exists fn, emit k = Some fn /\ emits fn (fst f) (snd f)) canonical fields.

Definition fieldsOf (fields : list (list (string * json) * Z)) : list (string * json) := List.concat (List.map fst fields).
Definition dropsOf (fields : list (list (string * json) * Z)) : Z := sumZ (List.map snd fields).

Lemma emitCanonical_spec emit canonical fields : emitsAll emit canonical fields -> NoDup canonical ->
  forall emitted e d, Forall (fun k => k ∉ emitted) canonical -> err e = None ->
  emitCanonical emit canonical emitted (e, d) = Ok (addFields (fieldsOf fields) e, d + dropsOf fields).
Proof.
  induction 1 as [|k f canonical fields (fn & Hk & Hfn) _ IH]; intros Hnd emitted e d Hem He; cbn [emitCanonical].
  - unfold dropsOf. cbn. by rewrite Z.add_0_r.
  - apply NoDup_cons in Hnd as [Hkc Hnd]. apply List.Forall_cons_iff in Hem as [Hke Hem].
    destruct (existsb (String.eqb k) emitted) eqn:E.
    { apply existsb_exists in E as (x & Hx & E%String.eqb_eq). subst x. by apply list_elem_of_In in Hx. }
    rewrite Hk, (Hfn e d He). cbn [obind]. rewrite IH; [|done| |by apply addFields_err].
    + unfold fieldsOf, dropsOf. cbn. rewrite addFields_app. by rewrite Z.add_assoc.
    + rewrite List.Forall_forall in *. intros x Hx. rewrite elem_of_cons. intros [->|]; [|by apply (Hem x)].
      apply Hkc. by apply list_elem_of_In.
Qed.

Lemma strip_object emit w canonical fields d : NoDup canonical -> emitsAll emit canonical fields ->
  EncodeOrderedObject emit w ModeStrip canonical d
  = Ok (print (obj (fieldsOf fields)), d + dropsOf fields + Z.of_nat (length (Extras w))).
Proof.
  intros Hnd H. unfold EncodeOrderedObject. cbn [obind]. rewrite (emitCanonical_spec _ _ _ H Hnd); [|by apply List.Forall_forall; set_solver|done].
  cbn [obind fst snd]. by rewrite Bytes_addFields.
Qed.

Lemma EncodeArray_print l : EncodeArray (List.map print l) = print (JArr l).
Proof. done. Qed.

(** The members of one key, with or without. *)
Definition unless (b : bool) (kt : string * json) : list (string * json) := if b then [] else [kt].

Lemma emits_unless (b : bool) f kt : (b = false -> emits f [kt] 0) ->
  emits (if b then emitter (fun e => e) else f) (unless b kt) 0.
Proof. destruct b; intros H; [apply emits_nothing|by apply H]. Qed.

(** The concatenated outputs of the encoders of the elements. *)
Lemma encodeAll_spec {A} (enc : A -> Z -> outcome string (list string * Z)) (tree : A -> list json) (drops : A -> Z) l :
  Forall (fun x => forall d, enc x d = Ok (List.map print (tree x), d + drops x)) l ->
  forall d, encodeAll enc l d = Ok (List.map print (flat_map tree l), d + sumZ (List.map drops l)).
Proof.
  induction 1 as [|x l Hx _ IH]; intros d; cbn [encodeAll].
  - cbn. by rewrite Z.add_0_r.
  - rewrite Hx. cbn [obind]. rewrite IH. cbn [obind flat_map List.map sumZ foldr]. rewrite List.map_app. by rewrite Z.add_assoc.
Qed.

(** ** Reading back *)

Lemma knownMembers_app {S} `{HasWire S} (known : string -> option (json -> S -> outcome string S)) a b s :
  knownMembers known (a ++ b) s = obind (knownMembers known a s) (knownMembers known b).
Proof.
  revert s. induction a as [|[k v] a IH]; intros s; [done|]. cbn [app knownMembers].
  destruct (known (Unquote k)) as [fn|]; cbn [obind]; [|apply IH].
  destruct (fn v _); cbn [obind]; [apply IH|done..].
Qed.

(** A key the codecs use. *)
Lemma unquote_ascii s : forallb (fun c => (N_of_ascii c <? 128)%N) (list_ascii_of_string s) = true -> Unquote (Quote s) = s.
Proof.
  intros H. apply unquote_quote, ascii_valid, List.Forall_forall. intros c Hc. rewrite forallb_forall in H. apply N.ltb_lt. by apply H.
Qed.

Definition quoted (kts : list (string * json)) : list (string * json) := List.map (fun kt => (Quote (fst kt), snd kt)) kts.

Lemma quoted_app a b : quoted (a ++ b) = quoted a ++ quoted b.
Proof. apply List.map_app. Qed.

Lemma knownMembers_one {S} `{HasWire S} (known : string -> option (json -> S -> outcome string S)) k v s fn :
  Unquote (Quote k) = k -> known k = Some fn ->
  knownMembers known (quoted [(k, v)]) s = fn v (onWire (addKey k) s).
Proof. intros Hk Hf. cbn. rewrite Hk, Hf. by destruct (fn v _). Qed.

Lemma readString {S} `{HasWire S} s key (st : S) : validUTF8 s -> DecodeShadowString (str s) key st = Ok (s, st).
Proof. intros Hs. unfold DecodeShadowString. cbn. rewrite unquote_quote by done. cbn. by rewrite String.eqb_refl. Qed.

Lemma readStrings ss : Forall validUTF8 ss -> unmarshalList (unmarshalString "") (JArr (List.map str ss)) = Ok ss.
Proof.
  cbn. induction 1 as [|s ss Hs _ IH]; [done|]. cbn. rewrite unquote_quote by done. cbn. by rewrite IH.
Qed.

Lemma elements_id (l : list json) : unmarshalElements (JArr l) = Ok l.
Proof. unfold unmarshalElements. cbn. induction l as [|x l IH]; [done|]. cbn. by rewrite IH. Qed.

Lemma omapM_map {A B C} (f : B -> outcome string C) (g : A -> B) (h : A -> C) l :
  Forall (fun x => f (g x) = Ok (h x)) l -> omapM f (List.map g l) = Ok (List.map h l).
Proof. induction 1 as [|x l Hx _ IH]; [done|]. cbn. rewrite Hx. cbn. by rewrite IH. Qed.

(** An object text is walked member by member. *)
Lemma objectOfText_print kts : Forall (fun kt => good maxNestingDepth (snd kt)) kts ->
  objectOfText (print (obj kts)) = (quoted kts, None).
Proof.
  intros Hg. unfold obj, objectOfText. rewrite print_obj, str_cons_app, str_app_nil_l, skipSpace_head by done.
  rewrite Ascii.eqb_refl. change (("}")%string) with (String "}" ""). fold (quoted kts).
  rewrite objectBody_reads; [done|]. unfold quoted. apply List.Forall_map. eapply List.Forall_impl; [|exact Hg].
  intros [k t] [Hw Hd]. cbn [fst snd]. split; [apply quote_string|]. intros x Hx. by apply value_print.
Qed.

(** A reader of members, up to what an erasure [E] of the bookkeeping leaves. *)
Section Reads.
Context {S T : Type} `{HasWire S} (known : string -> option (json -> S -> outcome string S)) (E : S -> T).
Hypothesis E_wire : forall w s, E (setWire w s) = E s.

(** Reading the members [f] does [upd]. *)
Definition does (f : list (string * json)) (upd : T -> T) : Prop :=
  forall s, exists s', knownMembers known (quoted f) s = Ok s' /\ E s' = upd (E s).

Lemma does_nothing upd : (forall t, upd t = t) -> does [] upd.
Proof. intros Hu s. exists s. by rewrite Hu. Qed.

Lemma does_one k v fn upd : Unquote (Quote k) = k -> known k = Some fn ->
  (forall s, exists s', fn v s = Ok s' /\ E s' = upd (E s)) -> does [(k, v)] upd.
Proof.
  intros Hk Hf Hfn s. rewrite (knownMembers_one known k v s fn Hk Hf). destruct (Hfn (onWire (addKey k) s)) as (s' & -> & Hs').
  exists s'. split; [done|]. rewrite Hs'. unfold onWire. by rewrite E_wire.
Qed.

Lemma does_all fs upds : Forall2 does fs upds -> does (List.concat fs) (fun t => fold_left (fun t u => u t) upds t).
Proof.
  induction 1 as [|f upd fs upds Hf _ IH]; intros s; [by exists s|]. cbn [List.concat]. rewrite quoted_app, knownMembers_app.
  destruct (Hf s) as (s1 & -> & H1). cbn [obind]. destruct (IH s1) as (s2 & -> & H2). exists s2. by rewrite H2, H1.
Qed.

Lemma DecodeKnown_does kts upd s : does kts upd -> exists s', DecodeKnown known (objectOf (obj kts)) s = Ok s' /\ E s' = upd (E s).
Proof. intros Hd. destruct (Hd s) as (s' & Hs' & HE). exists s'. unfold DecodeKnown, obj. cbn [objectOf fst snd]. fold (quoted kts). by rewrite Hs'. Qed.

Lemma decode_object fs upds s : Forall2 does fs upds ->
  exists s', DecodeKnown known (objectOf (obj (List.concat fs))) s = Ok s' /\ E s' = fold_left (fun t u => u t) upds (E s).
Proof. intros Hf. by apply (DecodeKnown_does _ _ s (does_all _ _ Hf)). Qed.

End Reads.

Lemma lastMember_head field v kts : Unquote (Quote field) = field -> Forall (fun kt => Unquote (Quote (fst kt)) = fst kt /\ fst kt <> field) kts ->
  lastMember field (quoted ((field, v) :: kts)) = Some v.
Proof.
  intros Hf Hk. unfold lastMember. cbn. rewrite Hf, String.eqb_refl. induction Hk as [|[k t] kts [Hk Hne] _ IH]; [done|].
  cbn in *. rewrite Hk. by rewrite (proj2 (String.eqb_neq _ _) Hne).
Qed.

(** The discriminator of a block. *)
Lemma typedBlock ty kts : validUTF8 ty ->
  forallb (fun kt => forallb (fun c => (N_of_ascii c <? 128)%N) (list_ascii_of_string (fst kt)) && negb (String.eqb (fst kt) "type")) kts = true ->
  DecodeTypedBlock (obj (("type", str ty) :: kts)) "type" = Ok ty.
Proof.
  intros Hty Hk. unfold DecodeTypedBlock, obj. fold (quoted (("type", str ty) :: kts)). rewrite lastMember_head.
  - cbn. by rewrite unquote_quote.
  - by apply unquote_ascii.
  - apply List.Forall_forall. intros kt Hin. rewrite forallb_forall in Hk. apply Hk in Hin. apply andb_true_iff in Hin as [H1 H2].
    split; [by apply unquote_ascii|]. apply negb_true_iff, String.eqb_neq in H2. done.
Qed.

Lemma valid_ascii s : forallb (fun c => (N_of_ascii c <? 128)%N) (list_ascii_of_string s) = true -> validUTF8 s.
Proof.
  intros H. apply ascii_valid, List.Forall_forall. intros c Hc. rewrite forallb_forall in H. apply N.ltb_lt. by apply H.
Qed.

Lemma does_unless {S T} `{HasWire S} (known : string -> option (json -> S -> outcome string S)) (E : S -> T) (b : bool) kt upd :
  (b = true -> forall t, upd t = t) -> (b = false -> does known E [kt] upd) -> does known E (unless b kt) upd.
Proof. destruct b; intros H1 H2; [apply does_nothing; by apply H1|by apply H2]. Qed.

Lemma wf_obj kts : wf (obj kts) <-> Forall (fun kt => wf (snd kt)) kts.
Proof.
  unfold obj. cbn [wf]. rewrite allOf_Forall, List.Forall_map. split; apply List.Forall_impl; intros [k t]; cbn; [tauto|].
  intros H. split; [apply quote_string|done].
Qed.

Lemma wf_str s : wf (str s).
Proof. apply quote_string. Qed.

End Facts.

Create HintDb emits.
#[export] Hint Resolve emits_nothing emits_raw emits_string : emits.
#[export] Hint Extern 1 (emits (emitter (EmitShadowString _ _ _)) _ _) => (apply emits_shadowless; done) : emits.

(** The fields of an object, one by one. *)
Ltac fields :=
  repeat (apply List.Forall2_cons; [eexists; split; [reflexivity|cbn [fst snd]; auto with emits]|]); try apply List.Forall2_nil.

Ltac distinct := apply (bool_decide_eq_true_1 _); vm_compute; reflexivity.

(** Encoding an object whose members are known. *)
Ltac encode_object fs :=
  rewrite (strip_object _ _ _ fs); [|distinct|fields].

(** One member read by its handler, and all of them: the goals left are the handlers'. *)
Ltac reads_member := eapply does_one; [done|by apply unquote_ascii|reflexivity|].
Ltac reads_members :=
  repeat (apply List.Forall2_cons;
    [first [reads_member; intros ?; cbn -[DecodeShadowString]; rewrite ?readString by done; cbn; solve [eauto] | idtac]|]);
  try apply List.Forall2_nil.

End LlmJson.
