(* ===== verification/JsonEngine.v ===== *)
(** * A bytewise JSON engine

    An instance of the engine of [LlmJson] with its laws, for the examples: the bytes
    that a string literal may not hold are escaped and every other byte is itself. *)

From Stdlib Require Import ZArith Lia Ascii String List.
From stdpp Require Import base strings list.
From S2P Require Import Prelude GoStrings GoStd LlmCall JsonText LlmJson.
Import GoStrings GoStd JsonText LlmJson.

#[local] Open Scope string_scope.
#[local] Open Scope Z_scope.
#[local] Open Scope list_scope.

Module JsonEngine.

Definition hexDigit (n : N) : ascii := ascii_of_N (if N.ltb n 10 then n + 48 else n + 87).
Definition hexValue (c : ascii) : N := let n := N_of_ascii c in if N.ltb n 58 then n - 48 else n - 87.

Definition escape (c : ascii) (t : string) : string :=
  let n := N_of_ascii c in
  if Ascii.eqb c dq || Ascii.eqb c bslash then String bslash (String c t)
  else if N.ltb n 32 then
    String bslash (String "u" (String "0" (String "0" (String (hexDigit (n / 16)) (String (hexDigit (n mod 16)) t)))))
  else String c t.

Fixpoint quoteBody (s : string) : string :=
  match s with EmptyString => String dq "" | String c t => escape c (quoteBody t) end.

Definition unescape (e : ascii) : ascii :=
  if Ascii.eqb e "b" then "008"%char else if Ascii.eqb e "f" then "012"%char else if Ascii.eqb e "n" then "010"%char
  else if Ascii.eqb e "r" then "013"%char else if Ascii.eqb e "t" then "009"%char else e.

Fixpoint unquoteBody (s : string) : string :=
  match s with
  | EmptyString => ""
  | String c t =>
      if Ascii.eqb c dq then ""
      else if Ascii.eqb c bslash then
        match t with
        | String e t =>
            if Ascii.eqb e "u" then
              match t with
              | String _ (String _ (String x (String y t))) => String (ascii_of_N (hexValue x * 16 + hexValue y)) (unquoteBody t)
              | _ => ""
              end
            else String (unescape e) (unquoteBody t)
        | EmptyString => ""
        end
      else String c (unquoteBody t)
  end.

#[export] Instance engine : Jsonx := {|
  Quote s := String dq (quoteBody s);
  Unquote lit := match lit with String _ t => unquoteBody t | EmptyString => "" end;
  validUTF8 _ := True;
  foldName a b := String.eqb (ToLower a) (ToLower b);
  typeError t v := ("json: cannot unmarshal " ++ print v ++ " into Go value of type " ++ t)%string;
  syntaxError _ := "json: invalid character";
  numberError lit := ("json: invalid number literal " ++ lit)%string;
  truncFloat _ := Err "json: invalid number";
|}.

Lemma hexDigit_hex n : (n < 16)%N -> isHex (hexDigit n) = true /\ hexValue (hexDigit n) = n.
Proof.
  intros H. assert (n ∈ List.map N.of_nat (seq 0 16)) as Hn.
  { apply list_elem_of_In, in_map_iff. exists (N.to_nat n). split; [lia|]. apply in_seq. lia. }
  cbn in Hn. apply list_elem_of_In in Hn. repeat destruct Hn as [<-|Hn]; done.
Qed.

Lemma stringBody_escape c t : stringBody (escape c t) = match stringBody t with Some (a, b) => Some (escape c a, b) | None => None end.
Proof.
  unfold escape. destruct (Ascii.eqb_spec c dq) as [->|Hq]; cbn [orb]; [by cbn; destruct (stringBody t) as [[]|]|].
  destruct (Ascii.eqb_spec c bslash) as [->|Hb]; [by cbn; destruct (stringBody t) as [[]|]|].
  destruct (N.ltb_spec (N_of_ascii c) 32) as [Hc|Hc]; cbn [stringBody].
  - rewrite !Ascii.eqb_refl. destruct (Ascii.eqb_spec bslash dq); [done|].
    rewrite (proj1 (hexDigit_hex (N_of_ascii c / 16) ltac:(apply N.Div0.div_lt_upper_bound; lia))), (proj1 (hexDigit_hex (N_of_ascii c mod 16) ltac:(by apply N.mod_lt))).
    change (isHex "0") with true. cbn [andb]. by destruct (stringBody t) as [[]|].
  - rewrite (proj2 (Ascii.eqb_neq _ _) Hq), (proj2 (Ascii.eqb_neq _ _) Hb). destruct (Z.ltb_spec (Z.of_N (N_of_ascii c)) 32); [lia|].
    by destruct (stringBody t) as [[]|].
Qed.

Lemma quoteBody_string s : stringBody (quoteBody s) = Some (quoteBody s, "").
Proof. induction s as [|c s IH]; [done|]. cbn [quoteBody]. by rewrite stringBody_escape, IH. Qed.

Lemma unquoteBody_escape c t : unquoteBody (escape c t) = String c (unquoteBody t).
Proof.
  unfold escape. destruct (Ascii.eqb_spec c dq) as [->|Hq]; [done|]. destruct (Ascii.eqb_spec c bslash) as [->|Hb]; [done|]. cbn [orb].
  destruct (N.ltb_spec (N_of_ascii c) 32) as [Hc|Hc]; cbn [unquoteBody].
  - rewrite !Ascii.eqb_refl. destruct (Ascii.eqb_spec bslash dq); [done|].
    rewrite (proj2 (hexDigit_hex (N_of_ascii c / 16) ltac:(apply N.Div0.div_lt_upper_bound; lia))), (proj2 (hexDigit_hex (N_of_ascii c mod 16) ltac:(by apply N.mod_lt))).
    replace (N_of_ascii c / 16 * 16 + N_of_ascii c mod 16)%N with (N_of_ascii c) by (pose proof (N.div_mod' (N_of_ascii c) 16); lia). by rewrite ascii_N_embedding.
  - by rewrite (proj2 (Ascii.eqb_neq _ _) Hq), (proj2 (Ascii.eqb_neq _ _) Hb).
Qed.

Lemma unquote_quoteBody s : unquoteBody (quoteBody s) = s.
Proof. induction s as [|c s IH]; [done|]. cbn [quoteBody]. by rewrite unquoteBody_escape, IH. Qed.

#[export] Instance engine_laws : JsonxLaws.
Proof.
  split; try done.
  - intros s. exists (quoteBody s). split; [done|apply quoteBody_string].
  - intros s _. apply unquote_quoteBody.
Qed.

End JsonEngine.
