(* ===== verification/ChatCodec.v ===== *)
(** * The Chat Completions codec

    [src/internal/extproc/llmcall/providers/openai/codec.go]: how a request and a response
    body of the OpenAI schema are read into the neutral model and written from it.

    The closures that mutate the request are handlers from a value and the state to the
    state.  A value that was scanned is kept compacted, so the errors of
    [CompactJSON] on it do not occur.  [ErrUnsupported] stands for every error that
    wraps it. *)

From Stdlib Require Import ZArith Lia Ascii String List.
From stdpp Require Import base strings list gmap pretty.
From coqutil Require Import Datatypes.RecordSettersUsingExistingGetters.
From S2P Require Import Prelude GoStrings GoStd LlmCall ChatStream JsonText LlmJson.
Import GoStrings GoStd LlmCall JsonText LlmJson.

#[local] Open Scope string_scope.
#[local] Open Scope Z_scope.
#[local] Open Scope list_scope.

Module ChatCodec.

Definition nul : string := String "000" "".
Definition soh : string := String "001" "".

(** [path[:strings.IndexAny(path, "?#")]] *)
Fixpoint barePath (path : string) : string :=
  match path with
  | String c t => if Ascii.eqb c "?" || Ascii.eqb c "#" then "" else String c (barePath t)
  | EmptyString => ""
  end.

Definition malformed {A} (provider detail : string) (m : outcome string A) : outcome CodecError A :=
  match m with Ok a => Ok a | Err e => Err (MalformedError provider detail (Some e)) | Panic => Panic end.

Definition other {A} (m : outcome string A) : outcome CodecError A :=
  match m with Ok a => Ok a | Err e => Err (OtherError e) | Panic => Panic end.

Section Codec.
Context {J : Jsonx}.

(** ** Tool calls *)

Definition callVal (p : Part) : string :=
  match pt_Type p, pt_ToolCall p with
  | PartTypeToolCall, Some tc => (tc_ID tc ++ nul ++ tc_Name tc ++ nul ++ tc_Arguments tc ++ soh)%string
  | _, _ => ""
  end.

Definition toolCallShadowVal (parts : list Part) : string := String.concat "" (List.map callVal parts).

Record callElem := mkCallElem { ce_ID : string; ce_Type : string; ce_Name : string; ce_Arguments : string }.

Definition setCallFunction (f : string) (v : json) (c : callElem) : outcome string callElem :=
  if String.eqb f "name" then let! s := unmarshalString (ce_Name c) v in Ok (c <| ce_Name := s |>)
  else let! s := unmarshalString (ce_Arguments c) v in Ok (c <| ce_Arguments := s |>).

Definition setCall (f : string) (v : json) (c : callElem) : outcome string callElem :=
  if String.eqb f "id" then let! s := unmarshalString (ce_ID c) v in Ok (c <| ce_ID := s |>)
  else if String.eqb f "type" then let! s := unmarshalString (ce_Type c) v in Ok (c <| ce_Type := s |>)
  else unmarshalStruct ["name"; "arguments"] setCallFunction c v.

(** The arguments ride as a JSON text in a string; those that are no JSON are dropped. *)
Definition callPart (c : callElem) : Part :=
  let args := TrimSpace (ce_Arguments c) in
  partCall (mkToolCall (ce_ID c) (ce_Name c) (if String.eqb args "" then "" else default "" (Compact args)) zeroWire).

Definition decodeToolCalls {S} `{HasWire S} (v : json) (s : S) : outcome string (list Part * S) :=
  let! elems := unmarshalList (unmarshalStruct ["id"; "type"; "function"] setCall (mkCallElem "" "" "" "")) v in
  let parts := List.map callPart elems in
  Ok (parts, onWire (RecordShadow "tool_calls" (print v) (SVString (toolCallShadowVal parts))) s).

(** ** Content parts *)

Definition textHandlers : list (string * (json -> TextPart -> outcome string TextPart)) :=
  [("type", fun _ t => Ok t);
   ("text", fun v t => let! (s, t) := DecodeShadowString v "text" t in Ok (t <| tx_Text := s |>))].

Definition imageHandlers : list (string * (json -> MediaPart -> outcome string MediaPart)) :=
  [("type", fun _ i => Ok i);
   ("image_url", fun v i =>
      let! url := unmarshalStruct ["url"] (fun _ v cur => unmarshalString cur v) "" v in
      let i := i <| md_URL := url |> in
      Ok (onWire (RecordShadow "image_url" (print v) (SVString url)) i))].

Definition decodeContentPart (el : json) : outcome string Part :=
  let! t := DecodeTypedBlock el "type" in
  if String.eqb t "text" then
    let! p := DecodeKnown (assoc textHandlers) (objectOf el) (mkText "" zeroWire) in Ok (partText p)
  else if String.eqb t "image_url" then
    let! p := DecodeKnown (assoc imageHandlers) (objectOf el) (mkMedia "" "" "" zeroWire) in Ok (partImage p)
  else Ok (UnknownPart el).

Definition decodeContentParts (v : json) : outcome string (list Part) :=
  let! elems := unmarshalElements v in omapM decodeContentPart elems.

(** ** Messages *)

(** The variables of [decodeMessage]. *)
Record decoding := mkDecoding { dm_Msg : Message; dm_Content : list Part; dm_ToolCallID : string }.

#[local] Instance wire_decoding : HasWire decoding :=
  {| wireOf d := ms_Wire (dm_Msg d); setWire w d := mkDecoding (setWire w (dm_Msg d)) (dm_Content d) (dm_ToolCallID d) |}.

Definition withRole (r : Role) (d : decoding) : decoding :=
  mkDecoding (mkMessage r (ms_Parts (dm_Msg d)) (ms_Wire (dm_Msg d))) (dm_Content d) (dm_ToolCallID d).
Definition addParts (ps : list Part) (d : decoding) : decoding :=
  mkDecoding (mkMessage (ms_Role (dm_Msg d)) (ms_Parts (dm_Msg d) ++ ps) (ms_Wire (dm_Msg d))) (dm_Content d) (dm_ToolCallID d).
Definition withContent (ps : list Part) (d : decoding) : decoding := mkDecoding (dm_Msg d) ps (dm_ToolCallID d).

Definition messageHandlers : list (string * (json -> decoding -> outcome string decoding)) :=
  [("role", fun v d =>
      let! s := unmarshalString "" v in
      if String.eqb s "developer" then Ok (withRole RoleSystem (onWire (SetHint "role" "developer") d))
      else Ok (withRole (roleOf s) d));
   ("content", fun v d =>
      match v with
      | JNull => Ok (onWire (SetHint "content" "null") d)
      | JStr _ =>
          let! (s, d) := DecodeShadowString v "content" d in
          Ok (withContent [textPart s] (onWire (SetHint "content" "string") d))
      | _ => let! parts := decodeContentParts v in Ok (withContent parts d)
      end);
   ("tool_calls", fun v d => let! (parts, d) := decodeToolCalls v d in Ok (addParts parts d));
   ("tool_call_id", fun v d =>
      let! (s, d) := DecodeShadowString v "tool_call_id" d in Ok (mkDecoding (dm_Msg d) (dm_Content d) s));
   ("refusal", fun v d =>
      match v with
      | JNull => Ok (onWire (SetHint "refusal" "null") d)
      | _ => let! (s, d) := DecodeShadowString v "refusal" d in Ok (addParts [partRefusal (mkRefusal s zeroWire)] d)
      end)].

(** The tail of [decodeMessage]: the content of a tool message is folded into a result. *)
Definition finishMessage (d : decoding) : Message :=
  let m := dm_Msg d in
  match ms_Role m with
  | RoleTool => mkMessage RoleTool (partResult (mkResponsePart (dm_ToolCallID d) (dm_Content d) false zeroWire) :: ms_Parts m) (ms_Wire m)
  | r => mkMessage r (dm_Content d ++ ms_Parts m) (ms_Wire m)
  end.

Definition decodeMessage (el : json) : outcome string Message :=
  let! d := DecodeKnown (assoc messageHandlers) (objectOf el) (mkDecoding (mkMessage (RoleOther "") [] zeroWire) [] "") in
  Ok (finishMessage d).

Definition decodeMessages (v : json) : outcome string (list Message) :=
  let! elems := unmarshalElements v in omapM decodeMessage elems.

(** ** Tools *)

Definition toolVal (t : ToolDefinition) : string := (td_Name t ++ nul ++ td_Description t ++ nul ++ td_Parameters t ++ soh)%string.
Definition toolDefShadowVal (tools : list ToolDefinition) : string := String.concat "" (List.map toolVal tools).

(** [Parameters] is the text of the value that was there. *)
Record toolElem := mkToolElem { te_Type : string; te_Name : string; te_Description : string; te_Parameters : string }.

Definition setToolFunction (f : string) (v : json) (t : toolElem) : outcome string toolElem :=
  if String.eqb f "name" then let! s := unmarshalString (te_Name t) v in Ok (t <| te_Name := s |>)
  else if String.eqb f "description" then let! s := unmarshalString (te_Description t) v in Ok (t <| te_Description := s |>)
  else Ok (t <| te_Parameters := print v |>).

Definition setTool (f : string) (v : json) (t : toolElem) : outcome string toolElem :=
  if String.eqb f "type" then let! s := unmarshalString (te_Type t) v in Ok (t <| te_Type := s |>)
  else unmarshalStruct ["name"; "description"; "parameters"] setToolFunction t v.

Definition toolDefinition (t : toolElem) : ToolDefinition := mkTool (te_Name t) (te_Description t) (te_Parameters t) zeroWire.

Definition decodeTools (v : json) (req : Request) : outcome string Request :=
  let! elems := unmarshalList (unmarshalStruct ["type"; "function"] setTool (mkToolElem "" "" "" "")) v in
  let req := req <| rq_Tools := rq_Tools req ++ List.map toolDefinition elems |> in
  Ok (onWire (RecordShadow "tools" (print v) (SVString (toolDefShadowVal (rq_Tools req)))) req).

Definition toolChoiceShadowVal (tc : option ToolChoice) : string :=
  match tc with None => "" | Some tc => (modeString (ch_Mode tc) ++ nul ++ ch_Name tc)%string end.

Definition decodeToolChoice (v : json) (req : Request) : outcome string Request :=
  let! tc := match v with
             | JStr _ => let! s := unmarshalString "" v in Ok (mkChoice (modeOf s) "" zeroWire)
             | _ =>
                 let! name := unmarshalStruct ["function"]
                   (fun _ v cur => unmarshalStruct ["name"] (fun _ v cur => unmarshalString cur v) cur v) "" v in
                 Ok (mkChoice ToolChoiceNamed name zeroWire)
             end in
  Ok ((onWire (RecordShadow "tool_choice" (print v) (SVString (toolChoiceShadowVal (Some tc)))) req) <| rq_ToolChoice := Some tc |>).

(** ** Requests *)

Definition onGeneration (f : GenerationConfig -> GenerationConfig) (r : Request) : Request := r <| rq_Generation := f (rq_Generation r) |>.

Definition decodeStop (v : json) (req : Request) : outcome string Request :=
  match v with
  | JStr _ =>
      let! (s, req) := DecodeShadowString v "stop" req in
      Ok (onGeneration (fun g => g <| StopSequences := [s] |>) (onWire (SetHint "stop" "string") req))
  | _ =>
      let! (ss, req) := DecodeShadowStringSlice v "stop" req in
      Ok (onGeneration (fun g => g <| StopSequences := ss |>) req)
  end.

Definition numberHandler (f : string -> GenerationConfig -> GenerationConfig) (v : json) (req : Request) : outcome string Request :=
  let! n := DecodeNumber v in Ok (onGeneration (f n) req).

Definition requestHandlers : list (string * (json -> Request -> outcome string Request)) :=
  [("model", fun v r => let! (s, r) := DecodeShadowString v "model" r in Ok (r <| rq_Model := s |>));
   ("messages", fun v r => let! ms := decodeMessages v in Ok (r <| rq_Messages := ms |>));
   ("tools", decodeTools);
   ("tool_choice", decodeToolChoice);
   ("temperature", numberHandler (fun n g => g <| Temperature := n |>));
   ("top_p", numberHandler (fun n g => g <| TopP := n |>));
   ("max_tokens", numberHandler (fun n g => g <| MaxTokens := n |>));
   ("max_completion_tokens", numberHandler (fun n g => g <| MaxTokens := n |>));
   ("stop", decodeStop);
   ("stream", fun v r => let! b := unmarshalBool (rq_Stream r) v in Ok (r <| rq_Stream := b |>))].

Definition zeroGeneration : GenerationConfig := mkGeneration "" "" "" "" [] zeroWire.

Definition DecodeRequest (provider : string) (inp : RequestInput) : outcome CodecError Request :=
  if String.eqb (barePath (in_Path inp)) "/v1/chat/completions" then
    let w := mkWire [] [] ∅ ∅ (in_Body inp) (in_Path inp) ∅ in
    malformed provider "request body"
      (DecodeKnown (assoc requestHandlers) (objectOfText (in_Body inp))
        (mkRequest provider "chat" "" [] [] [] None zeroGeneration false w))
  else Err ErrUnsupported.

(** ** Encoding a message *)

Definition split (st : list Part * list Part * option ToolCallResponsePart) (p : Part)
    : list Part * list Part * option ToolCallResponsePart :=
  let '(content, toolCalls, toolResp) := st in
  match pt_Type p with
  | PartTypeToolCall => (content, toolCalls ++ [p], toolResp)
  | PartTypeToolCallResponse => (content, toolCalls, match toolResp with None => pt_ToolCallResponse p | Some r => Some r end)
  | _ => (content ++ [p], toolCalls, toolResp)
  end.

Definition splitMessageParts (m : Message) : list Part * list Part * option ToolCallResponsePart :=
  fold_left split (ms_Parts m) ([], [], None).

Definition isAllText (parts : list Part) : bool :=
  forallb (fun p => bool_decide (pt_Type p = PartTypeText)) parts && negb (bool_decide (parts = [])).

(** The [image_url] envelope of an image that is not as it was read. *)
Definition imageEnvelope (img : MediaPart) : outcome string string :=
  let url := if String.eqb (md_URL img) "" && negb (String.eqb (md_DataB64 img) "")
             then DataURL (md_MIMEType img) (md_DataB64 img) else md_URL img in
  Bytes (Field "url" (GString url) NewObjectEncoder).

Definition textEmitters (t : TextPart) : list (string * FieldEmitter) :=
  [("type", emitter (Field "type" (GString "text")));
   ("text", emitter (EmitShadowString (tx_Wire t) "text" (tx_Text t)))].

Definition imageEmitters (img : MediaPart) : list (string * FieldEmitter) :=
  [("type", emitter (Field "type" (GString "image_url")));
   ("image_url", match ShadowRaw (md_Wire img) "image_url" (SVString (md_URL img)) with
                 | Some raw => emitter (RawField "image_url" raw)
                 | None => nested "image_url" (fun d => let! raw := imageEnvelope img in Ok (raw, d))
                 end)].

Definition encodeContentPart (mode : Mode) (p : Part) (dropped : Z) : outcome string (list string * Z) :=
  match pt_Type p with
  | PartTypeText =>
      match pt_Text p with
      | None => Panic
      | Some t =>
          let! (b, d) := EncodeOrderedObject (assoc (textEmitters t)) (tx_Wire t) mode ["type"; "text"] dropped in Ok ([b], d)
      end
  | PartTypeImage =>
      match pt_Image p with
      | None => Panic
      | Some img =>
          let! (b, d) := EncodeOrderedObject (assoc (imageEmitters img)) (md_Wire img) mode ["type"; "image_url"] dropped in Ok ([b], d)
      end
  | PartTypeUnknown =>
      match mode with
      | ModePreserve => if String.eqb (Raw (pt_Wire p)) "" then Ok ([], dropped + 1) else Ok ([Raw (pt_Wire p)], dropped)
      | ModeStrip => Ok ([], dropped + 1)
      end
  | _ => Ok ([], dropped + 1)
  end.

Definition encodeContentParts (mode : Mode) (parts : list Part) (dropped : Z) : outcome string (string * Z) :=
  let! (elems, d) := encodeAll (encodeContentPart mode) parts dropped in Ok (EncodeArray elems, d).

Definition callObject (tc : ToolCallPart) : outcome string string :=
  let args := if String.eqb (tc_Arguments tc) "" then "{}" else tc_Arguments tc in
  let! fnRaw := Bytes (Field "arguments" (GString args) (Field "name" (GString (tc_Name tc)) NewObjectEncoder)) in
  Bytes (RawField "function" fnRaw (Field "type" (GString "function") (Field "id" (GString (tc_ID tc)) NewObjectEncoder))).

Definition encodeToolCalls (parts : list Part) (dropped : Z) : outcome string (string * Z) :=
  let! elems := omapM callObject (omap pt_ToolCall parts) in Ok (EncodeArray elems, dropped).

Definition contentEmitter (mode : Mode) (mw : Wire) (content toolCalls : list Part) : FieldEmitter :=
  if String.eqb (Hint mw "content") "null" then emitter (RawField "content" "null")
  else if String.eqb (Hint mw "content") "string" then emitter (EmitShadowString mw "content" (CollectText content))
  else if bool_decide (content = []) && negb (HasKey mw "content") then
    match toolCalls with
    | _ :: _ => emitter (fun e => e)
    | [] => emitter (Field "content" (GString ""))
    end
  else if isAllText content && negb (HasKey mw "content") then emitter (Field "content" (GString (CollectText content)))
  else nested "content" (encodeContentParts mode content).

Definition refusalOf (m : Message) : option RefusalPart :=
  head (omap (fun p => match pt_Type p with PartTypeRefusal => pt_Refusal p | _ => None end) (ms_Parts m)).

Definition messageEmitters (mode : Mode) (m : Message) : list (string * FieldEmitter) :=
  let mw := ms_Wire m in
  let '(content, toolCalls, toolResp) := splitMessageParts m in
  let content := match toolResp, content with Some r, [] => tr_Parts r | _, _ => content end in
  [("role", emitter (Field "role" (GString
      (if bool_decide (is_Some toolResp) then "tool"
       else if String.eqb (Hint mw "role") "developer" then "developer" else roleString (ms_Role m)))));
   ("content", contentEmitter mode mw content toolCalls);
   ("tool_calls",
      match toolCalls with
      | [] => emitter (fun e => e)
      | _ =>
          match ShadowRaw mw "tool_calls" (SVString (toolCallShadowVal toolCalls)), mode with
          | Some raw, ModePreserve => emitter (RawField "tool_calls" raw)
          | _, _ => nested "tool_calls" (encodeToolCalls toolCalls)
          end
      end);
   ("tool_call_id",
      match toolResp with
      | None => emitter (fun e => e)
      | Some r => emitter (EmitShadowString mw "tool_call_id" (tr_ToolCallID r))
      end);
   ("refusal",
      if String.eqb (Hint mw "refusal") "null" then emitter (RawField "refusal" "null")
      else match refusalOf m with
           | Some r => emitter (EmitShadowString mw "refusal" (rf_Text r))
           | None => emitter (fun e => e)
           end)].

Definition encodeMessage (mode : Mode) (m : Message) (dropped : Z) : outcome string (string * Z) :=
  EncodeOrderedObject (assoc (messageEmitters mode m)) (ms_Wire m) mode ["role"; "content"; "tool_call_id"; "tool_calls"] dropped.

Definition encodeMessages (mode : Mode) (req : Request) (dropped : Z) : outcome string (string * Z) :=
  let sys := match rq_System req with [] => [] | parts => [mkMessage RoleSystem parts zeroWire] end in
  let! (elems, d) := encodeAll (fun m d => let! (b, d) := encodeMessage mode m d in Ok ([b], d)) (sys ++ rq_Messages req) dropped in
  Ok (EncodeArray elems, d).

(** ** Encoding a request *)

Definition objectSchema : string := ("{" ++ String dq "type" ++ String dq ":" ++ String dq "object" ++ String dq "}")%string.

Definition toolObject (t : ToolDefinition) : outcome string string :=
  let e := Field "name" (GString (td_Name t)) NewObjectEncoder in
  let e := if String.eqb (td_Description t) "" then e else Field "description" (GString (td_Description t)) e in
  let! fnRaw := Bytes (RawField "parameters" (if String.eqb (td_Parameters t) "" then objectSchema else td_Parameters t) e) in
  Bytes (RawField "function" fnRaw (Field "type" (GString "function") NewObjectEncoder)).

Definition encodeTools (tools : list ToolDefinition) (dropped : Z) : outcome string (string * Z) :=
  let! elems := omapM toolObject tools in Ok (EncodeArray elems, dropped).

Definition encodeToolChoice (tc : ToolChoice) : FieldEmitter :=
  match ch_Mode tc with
  | ToolChoiceNamed =>
      nested "tool_choice" (fun d =>
        let! fnRaw := Bytes (Field "name" (GString (ch_Name tc)) NewObjectEncoder) in
        let! raw := Bytes (RawField "function" fnRaw (Field "type" (GString "function") NewObjectEncoder)) in Ok (raw, d))
  | m => emitter (Field "tool_choice" (GString (modeString m)))
  end.

Definition numberEmitter (k n : string) : FieldEmitter :=
  if String.eqb n "" then emitter (fun e => e) else emitter (Field k (GNumber n)).

Definition requestEmitters (mode : Mode) (req : Request) : list (string * FieldEmitter) :=
  let w := rq_Wire req in
  let g := rq_Generation req in
  [("model", if String.eqb (rq_Model req) "" && negb (HasKey w "model") then emitter (fun e => e)
             else emitter (EmitShadowString w "model" (rq_Model req)));
   ("messages", nested "messages" (encodeMessages mode req));
   ("tools",
      match rq_Tools req with
      | [] => emitter (fun e => e)
      | tools =>
          match ShadowRaw w "tools" (SVString (toolDefShadowVal tools)), mode with
          | Some raw, ModePreserve => emitter (RawField "tools" raw)
          | _, _ => nested "tools" (encodeTools tools)
          end
      end);
   ("tool_choice",
      match rq_ToolChoice req with
      | None => emitter (fun e => e)
      | Some tc =>
          match ShadowRaw w "tool_choice" (SVString (toolChoiceShadowVal (Some tc))), mode with
          | Some raw, ModePreserve => emitter (RawField "tool_choice" raw)
          | _, _ => encodeToolChoice tc
          end
      end);
   ("temperature", numberEmitter "temperature" (Temperature g));
   ("top_p", numberEmitter "top_p" (TopP g));
   ("max_tokens", if String.eqb (MaxTokens g) "" || HasKey w "max_completion_tokens" then emitter (fun e => e)
                  else emitter (Field "max_tokens" (GNumber (MaxTokens g))));
   ("max_completion_tokens", if String.eqb (MaxTokens g) "" || negb (HasKey w "max_completion_tokens") then emitter (fun e => e)
                             else emitter (Field "max_completion_tokens" (GNumber (MaxTokens g))));
   ("stop",
      match StopSequences g with
      | [] => emitter (fun e => e)
      | ss =>
          match String.eqb (Hint w "stop") "string", ss with
          | true, [s] => emitter (EmitShadowString w "stop" s)
          | _, _ =>
              match ShadowRaw w "stop" (SVString (StringSliceShadowVal ss)) with
              | Some raw => emitter (RawField "stop" raw)
              | None => emitter (Field "stop" (GStrings ss))
              end
          end
      end);
   ("stream", if negb (rq_Stream req) && negb (HasKey w "stream") then emitter (fun e => e)
              else emitter (Field "stream" (GBool (rq_Stream req))))].

Definition canonicalRequest : list string :=
  ["model"; "messages"; "tools"; "tool_choice"; "temperature"; "top_p"; "max_tokens"; "max_completion_tokens"; "stop"; "stream"].

(** The encoded request, and whether its body is the one that was read. *)
Definition EncodeRequest (mode : Mode) (req : Request) : outcome CodecError (EncodedRequest * bool) :=
  let! (fresh, dropped) := other (EncodeOrderedObject (assoc (requestEmitters mode req)) (rq_Wire req) mode canonicalRequest 0) in
  let '(body, exact) := match mode with ModePreserve => EncodeRaw fresh (Raw (rq_Wire req)) | ModeStrip => (fresh, false) end in
  let path := match mode with
              | ModePreserve => if String.eqb (wi_Path (rq_Wire req)) "" then "/v1/chat/completions" else wi_Path (rq_Wire req)
              | ModeStrip => "/v1/chat/completions"
              end in
  Ok (mkEncodedRequest body path {["content-type" := "application/json"]} [] dropped, exact).

(** ** Responses *)

Definition refusedFraming (headers : gmap string string) : bool :=
  HasContentTypePrefix headers "text/event-stream" || HasContentTypePrefix headers "application/x-ndjson".

Definition choiceHandlers : list (string * (json -> Choice -> outcome string Choice)) :=
  [("index", fun _ c => Ok c);
   ("message", fun v c => let! m := decodeMessage v in Ok (c <| co_Message := m |>));
   ("finish_reason", fun v c =>
      match v with
      | JNull => Ok (onWire (SetHint "finish_reason" "null") c)
      | _ =>
          let! s := unmarshalString "" v in
          Ok (c <| co_FinishReasonRaw := s |> <| co_FinishReason := ChatStream.canonicalFinish s |>)
      end)].

Definition zeroMessage : Message := mkMessage (RoleOther "") [] zeroWire.

Definition decodeChoice (el : json) : outcome string Choice :=
  DecodeKnown (assoc choiceHandlers) (objectOf el) (mkCompletion zeroMessage FinishReasonUnset "" zeroWire).

Definition decodeChoices (v : json) : outcome string (list Choice) :=
  let! elems := unmarshalElements v in omapM decodeChoice elems.

Definition usageHandlers : list (string * (json -> Usage -> outcome string Usage)) :=
  [("prompt_tokens", fun v u => let! (n, u) := DecodeShadowInt64 v "prompt_tokens" u in Ok (u <| InputTokens := n |>));
   ("completion_tokens", fun v u => let! (n, u) := DecodeShadowInt64 v "completion_tokens" u in Ok (u <| OutputTokens := n |>));
   ("total_tokens", fun v u => Ok (onWire (SetHint "total_tokens" (print v)) u))].

Definition decodeUsage (v : json) (u : Usage) : outcome string Usage := DecodeKnown (assoc usageHandlers) (objectOf v) u.

Definition responseHandlers : list (string * (json -> Response -> outcome string Response)) :=
  [("id", fun v r => let! (s, r) := DecodeShadowString v "id" r in Ok (r <| rs_ID := s |>));
   ("object", fun _ r => Ok r);
   ("model", fun v r => let! (s, r) := DecodeShadowString v "model" r in Ok (r <| rs_Model := s |>));
   ("choices", fun v r => let! cs := decodeChoices v in Ok (r <| rs_Choices := cs |>));
   ("usage", fun v r => let! u := decodeUsage v (rs_Usage r) in Ok (r <| rs_Usage := u |>))].

Definition DecodeResponse (provider : string) (status : Z) (headers : gmap string string) (body : string) (req : Request)
    : outcome CodecError Response :=
  if negb (status =? 0) && negb (status =? 200) then Err ErrUnsupported
  else if refusedFraming headers then Err ErrUnsupported
  else
    malformed provider "response body"
      (DecodeKnown (assoc responseHandlers) (objectOfText body)
        (mkResponse provider "" "" [] (mkUsage 0 0 zeroWire) (withRaw body zeroWire))).

Definition openaiFinish (c : Choice) : string :=
  if String.eqb (co_FinishReasonRaw c) "" then ChatStream.openaiFinishCanonical (co_FinishReason c) else co_FinishReasonRaw c.

Definition choiceEmitters (mode : Mode) (idx : Z) (c : Choice) : list (string * FieldEmitter) :=
  [("index", emitter (Field "index" (GInt idx)));
   ("message", nested "message" (encodeMessage mode (co_Message c)));
   ("finish_reason",
      if String.eqb (Hint (co_Wire c) "finish_reason") "null" then emitter (RawField "finish_reason" "null")
      else emitter (Field "finish_reason" (GString (openaiFinish c))))].

Definition encodeChoice (mode : Mode) (ic : nat * Choice) (dropped : Z) : outcome string (list string * Z) :=
  let! (b, d) := EncodeOrderedObject (assoc (choiceEmitters mode (Z.of_nat (fst ic)) (snd ic))) (co_Wire (snd ic)) mode
                   ["index"; "message"; "finish_reason"] dropped in Ok ([b], d).

Definition encodeChoices (mode : Mode) (cs : list Choice) (dropped : Z) : outcome string (string * Z) :=
  let! (elems, d) := encodeAll (encodeChoice mode) (imap (fun i c => (i, c)) cs) dropped in Ok (EncodeArray elems, d).

Definition usageEmitters (mode : Mode) (u : Usage) : list (string * FieldEmitter) :=
  let uw := us_Wire u in
  [("prompt_tokens", emitter (EmitShadowInt64 uw "prompt_tokens" (InputTokens u)));
   ("completion_tokens", emitter (EmitShadowInt64 uw "completion_tokens" (OutputTokens u)));
   ("total_tokens",
      let sum := emitter (Field "total_tokens" (GInt (int64 (InputTokens u + OutputTokens u)))) in
      match mode with
      | ModePreserve => if String.eqb (Hint uw "total_tokens") "" then sum else emitter (RawField "total_tokens" (Hint uw "total_tokens"))
      | ModeStrip => sum
      end)].

Definition encodeUsage (mode : Mode) (u : Usage) (dropped : Z) : outcome string (string * Z) :=
  EncodeOrderedObject (assoc (usageEmitters mode u)) (us_Wire u) mode ["prompt_tokens"; "completion_tokens"; "total_tokens"] dropped.

Definition responseEmitters (mode : Mode) (r : Response) : list (string * FieldEmitter) :=
  let w := rs_Wire r in
  [("id", emitter (EmitShadowString w "id" (rs_ID r)));
   ("object", emitter (Field "object" (GString "chat.completion")));
   ("model", emitter (EmitShadowString w "model" (rs_Model r)));
   ("choices", nested "choices" (encodeChoices mode (rs_Choices r)));
   ("usage", nested "usage" (encodeUsage mode (rs_Usage r)))].

Definition EncodeResponse (mode : Mode) (r : Response) : outcome CodecError (EncodedResponse * bool) :=
  let! (fresh, dropped) := other (EncodeOrderedObject (assoc (responseEmitters mode r)) (rs_Wire r) mode
                                    ["id"; "object"; "model"; "choices"; "usage"] 0) in
  let '(body, exact) := match mode with ModePreserve => EncodeRaw fresh (Raw (rs_Wire r)) | ModeStrip => (fresh, false) end in
  Ok (mkEncodedResponse body {["content-type" := "application/json"]} dropped, exact).

End Codec.

End ChatCodec.
