(* ===== verification/MessagesCodec.v ===== *)
(** * The Messages codec

    [src/internal/extproc/llmcall/providers/anthropic/codec.go]: how a request and a
    response body of the Anthropic schema are read into the neutral model and written
    from it.

    Content blocks nest through tool results, so their decoder runs on fuel; the depth
    of the value is enough ([decodeParts_fuel]). *)

From Stdlib Require Import ZArith Lia Ascii String List.
From stdpp Require Import base strings list gmap pretty.
From coqutil Require Import Datatypes.RecordSettersUsingExistingGetters.
From S2P Require Import Prelude GoStrings GoStd LlmCall MessagesStream JsonText LlmJson ChatCodec.
Import GoStrings GoStd LlmCall JsonText LlmJson.
Import ChatCodec(nul, barePath, malformed, other, onGeneration, numberHandler, numberEmitter, objectSchema, zeroGeneration, refusedFraming).

#[local] Open Scope string_scope.
#[local] Open Scope Z_scope.
#[local] Open Scope list_scope.

Module MessagesCodec.

Definition defaultVersion : string := "2023-06-01".
Definition defaultMaxTokens : string := "4096".

Section Codec.
Context {J : Jsonx}.

(** ** Blocks *)

Definition consumeType {S} (_ : json) (s : S) : outcome string S := Ok s.

Definition textHandlers : list (string * (json -> TextPart -> outcome string TextPart)) :=
  [("type", consumeType);
   ("text", fun v t => let! (s, t) := DecodeShadowString v "text" t in Ok (t <| tx_Text := s |>))].

Definition callHandlers : list (string * (json -> ToolCallPart -> outcome string ToolCallPart)) :=
  [("type", consumeType);
   ("id", fun v c => let! (s, c) := DecodeShadowString v "id" c in Ok (c <| tc_ID := s |>));
   ("name", fun v c => let! (s, c) := DecodeShadowString v "name" c in Ok (c <| tc_Name := s |>));
   ("input", fun v c => Ok (c <| tc_Arguments := print v |>))].

Definition reasoningHandlers : list (string * (json -> ReasoningPart -> outcome string ReasoningPart)) :=
  [("type", consumeType);
   ("thinking", fun v r => let! (s, r) := DecodeShadowString v "thinking" r in Ok (r <| re_Text := s |>));
   ("signature", fun v r => let! (s, r) := DecodeShadowString v "signature" r in Ok (r <| re_Signature := s |>))].

Record imageSource := mkSource { so_Type : string; so_MediaType : string; so_Data : string; so_URL : string }.

Definition setSource (f : string) (v : json) (x : imageSource) : outcome string imageSource :=
  if String.eqb f "type" then let! s := unmarshalString (so_Type x) v in Ok (x <| so_Type := s |>)
  else if String.eqb f "media_type" then let! s := unmarshalString (so_MediaType x) v in Ok (x <| so_MediaType := s |>)
  else if String.eqb f "data" then let! s := unmarshalString (so_Data x) v in Ok (x <| so_Data := s |>)
  else let! s := unmarshalString (so_URL x) v in Ok (x <| so_URL := s |>).

Definition decodeImageSource (v : json) (img : MediaPart) : outcome string MediaPart :=
  let! src := unmarshalStruct ["type"; "media_type"; "data"; "url"] setSource (mkSource "" "" "" "") v in
  Ok (mkMedia (so_MediaType src) (so_Data src) (so_URL src) (md_Wire img)).

Definition imageShadowVal (img : MediaPart) : string := (md_MIMEType img ++ nul ++ md_DataB64 img ++ nul ++ md_URL img)%string.

Definition imageHandlers : list (string * (json -> MediaPart -> outcome string MediaPart)) :=
  [("type", consumeType);
   ("source", fun v i =>
      let! i := decodeImageSource v i in
      Ok (onWire (RecordShadow "source" (print v) (SVString (imageShadowVal i))) i))].

Section Blocks.
(** The decoder of nested contents. *)
Context (decodeNested : json -> outcome string (list Part)).

Definition resultHandlers : list (string * (json -> ToolCallResponsePart -> outcome string ToolCallResponsePart)) :=
  [("type", consumeType);
   ("tool_use_id", fun v r =>
      let! (s, r) := DecodeShadowString v "tool_use_id" r in Ok (mkResponsePart s (tr_Parts r) (tr_IsError r) (tr_Wire r)));
   ("is_error", fun v r =>
      let! b := unmarshalBool (tr_IsError r) v in Ok (mkResponsePart (tr_ToolCallID r) (tr_Parts r) b (tr_Wire r)));
   ("content", fun v r =>
      match v with
      | JStr _ =>
          let! (s, r) := DecodeShadowString v "content" r in
          let r := onWire (SetHint "content" "string") r in
          Ok (mkResponsePart (tr_ToolCallID r) [textPart s] (tr_IsError r) (tr_Wire r))
      | _ => let! parts := decodeNested v in Ok (mkResponsePart (tr_ToolCallID r) parts (tr_IsError r) (tr_Wire r))
      end)].

Definition decodeBlock (el : json) : outcome string Part :=
  let! t := DecodeTypedBlock el "type" in
  if String.eqb t "text" then
    let! p := DecodeKnown (assoc textHandlers) (objectOf el) (mkText "" zeroWire) in Ok (partText p)
  else if String.eqb t "tool_use" then
    let! p := DecodeKnown (assoc callHandlers) (objectOf el) (mkToolCall "" "" "" zeroWire) in Ok (partCall p)
  else if String.eqb t "tool_result" then
    let! p := DecodeKnown (assoc resultHandlers) (objectOf el) (mkResponsePart "" [] false zeroWire) in Ok (partResult p)
  else if String.eqb t "thinking" then
    let! p := DecodeKnown (assoc reasoningHandlers) (objectOf el) (mkReasoning "" "" zeroWire) in Ok (partReasoning p)
  else if String.eqb t "image" then
    let! p := DecodeKnown (assoc imageHandlers) (objectOf el) (mkMedia "" "" "" zeroWire) in Ok (partImage p)
  else Ok (UnknownPart el).

Definition decodeBlocks (v : json) : outcome string (list Part) :=
  let! elems := unmarshalElements v in omapM decodeBlock elems.
End Blocks.

Fixpoint decodePartsN (fuel : nat) (v : json) : outcome string (list Part) :=
  match fuel with
  | O => decodeBlocks (fun v => Err (typeError "depth" v)) v
  | S f => decodeBlocks (decodePartsN f) v
  end.

Definition decodeParts (v : json) : outcome string (list Part) := decodePartsN (depth v) v.

(** ** Messages, tools and the choice of a tool *)

Definition messageHandlers : list (string * (json -> Message -> outcome string Message)) :=
  [("role", fun v m => let! s := unmarshalString "" v in Ok (m <| ms_Role := roleOf s |>));
   ("content", fun v m =>
      match v with
      | JStr _ =>
          let! (s, m) := DecodeShadowString v "content" m in
          Ok ((onWire (SetHint "content" "string") m) <| ms_Parts := [textPart s] |>)
      | _ => let! parts := decodeParts v in Ok (m <| ms_Parts := parts |>)
      end)].

Definition decodeMessage (el : json) : outcome string Message :=
  DecodeKnown (assoc messageHandlers) (objectOf el) (mkMessage (RoleOther "") [] zeroWire).

Definition decodeMessages (v : json) : outcome string (list Message) :=
  let! elems := unmarshalElements v in omapM decodeMessage elems.

Definition toolHandlers : list (string * (json -> ToolDefinition -> outcome string ToolDefinition)) :=
  [("name", fun v t => let! (s, t) := DecodeShadowString v "name" t in Ok (t <| td_Name := s |>));
   ("description", fun v t => let! (s, t) := DecodeShadowString v "description" t in Ok (t <| td_Description := s |>));
   ("input_schema", fun v t => Ok (t <| td_Parameters := print v |>))].

Definition decodeTool (el : json) : outcome string ToolDefinition :=
  DecodeKnown (assoc toolHandlers) (objectOf el) (mkTool "" "" "" zeroWire).

Definition decodeTools (v : json) : outcome string (list ToolDefinition) :=
  let! elems := unmarshalElements v in omapM decodeTool elems.

Definition choiceMode (s : string) : ToolChoiceMode :=
  if String.eqb s "auto" then ToolChoiceAuto else if String.eqb s "any" then ToolChoiceRequired
  else if String.eqb s "tool" then ToolChoiceNamed else if String.eqb s "none" then ToolChoiceNone else modeOf s.

Definition toolChoiceHandlers : list (string * (json -> ToolChoice -> outcome string ToolChoice)) :=
  [("type", fun v c => let! s := unmarshalString "" v in Ok (c <| ch_Mode := choiceMode s |>));
   ("name", fun v c => let! (s, c) := DecodeShadowString v "name" c in Ok (c <| ch_Name := s |>))].

Definition decodeToolChoice (v : json) : outcome string ToolChoice :=
  DecodeKnown (assoc toolChoiceHandlers) (objectOf v) (mkChoice (ToolChoiceOther "") "" zeroWire).

(** ** Requests *)

Definition requestHandlers : list (string * (json -> Request -> outcome string Request)) :=
  [("model", fun v r => let! (s, r) := DecodeShadowString v "model" r in Ok (r <| rq_Model := s |>));
   ("max_tokens", numberHandler (fun n g => g <| MaxTokens := n |>));
   ("temperature", numberHandler (fun n g => g <| Temperature := n |>));
   ("top_p", numberHandler (fun n g => g <| TopP := n |>));
   ("top_k", numberHandler (fun n g => g <| TopK := n |>));
   ("stop_sequences", fun v r =>
      let! (ss, r) := DecodeShadowStringSlice v "stop_sequences" r in Ok (onGeneration (fun g => g <| StopSequences := ss |>) r));
   ("stream", fun v r => let! b := unmarshalBool (rq_Stream r) v in Ok (r <| rq_Stream := b |>));
   ("system", fun v r =>
      match v with
      | JStr _ =>
          let! (s, r) := DecodeShadowString v "system" r in
          Ok ((onWire (SetHint "system" "string") r) <| rq_System := [textPart s] |>)
      | _ => let! parts := decodeParts v in Ok (r <| rq_System := parts |>)
      end);
   ("messages", fun v r => let! ms := decodeMessages v in Ok (r <| rq_Messages := ms |>));
   ("tools", fun v r => let! ts := decodeTools v in Ok (r <| rq_Tools := ts |>));
   ("tool_choice", fun v r => let! tc := decodeToolChoice v in Ok (r <| rq_ToolChoice := Some tc |>))].

Definition DecodeRequest (inp : RequestInput) : outcome CodecError Request :=
  if String.eqb (barePath (in_Path inp)) "/v1/messages" then
    let hs := match in_Headers inp !! "anthropic-version" with
              | Some v => if String.eqb v "" then ∅ else {["anthropic-version" := v]}
              | None => ∅
              end in
    let w := mkWire [] [] ∅ ∅ (in_Body inp) (in_Path inp) hs in
    malformed "anthropic" "request body"
      (DecodeKnown (assoc requestHandlers) (objectOfText (in_Body inp))
        (mkRequest "anthropic" "chat" "" [] [] [] None zeroGeneration false w))
  else Err ErrUnsupported.

(** ** Encoding blocks *)

Definition textEmitters (t : TextPart) : list (string * FieldEmitter) :=
  [("type", emitter (Field "type" (GString "text")));
   ("text", emitter (EmitShadowString (tx_Wire t) "text" (tx_Text t)))].

Definition callEmitters (c : ToolCallPart) : list (string * FieldEmitter) :=
  [("type", emitter (Field "type" (GString "tool_use")));
   ("id", emitter (EmitShadowString (tc_Wire c) "id" (tc_ID c)));
   ("name", emitter (EmitShadowString (tc_Wire c) "name" (tc_Name c)));
   ("input", emitter (RawField "input" (if String.eqb (tc_Arguments c) "" then "{}" else tc_Arguments c)))].

Definition reasoningEmitters (r : ReasoningPart) : list (string * FieldEmitter) :=
  let rw := re_Wire r in
  [("type", emitter (Field "type" (GString "thinking")));
   ("thinking", emitter (EmitShadowString rw "thinking" (re_Text r)));
   ("signature", if String.eqb (re_Signature r) "" && negb (HasKey rw "signature") then emitter (fun e => e)
                 else emitter (EmitShadowString rw "signature" (re_Signature r)))].

Definition base64Source (mime data : string) : outcome string string :=
  Bytes (Field "data" (GString data) (Field "media_type" (GString mime) (Field "type" (GString "base64") NewObjectEncoder))).

Definition encodeImageSource (img : MediaPart) : outcome string string :=
  if String.eqb (md_URL img) "" then base64Source (md_MIMEType img) (md_DataB64 img)
  else match SplitDataURL (md_URL img) with
       | (mime, data, true) => base64Source mime data
       | _ => Bytes (Field "url" (GString (md_URL img)) (Field "type" (GString "url") NewObjectEncoder))
       end.

Definition imageEmitters (img : MediaPart) : list (string * FieldEmitter) :=
  [("type", emitter (Field "type" (GString "image")));
   ("source", match ShadowRaw (md_Wire img) "source" (SVString (imageShadowVal img)) with
              | Some raw => emitter (RawField "source" raw)
              | None => nested "source" (fun d => let! raw := encodeImageSource img in Ok (raw, d))
              end)].

(** [parts] encodes the parts of the result. *)
Definition resultEmitters (r : ToolCallResponsePart) (parts : Z -> outcome string (string * Z)) : list (string * FieldEmitter) :=
  let tw := tr_Wire r in
  [("type", emitter (Field "type" (GString "tool_result")));
   ("tool_use_id", emitter (EmitShadowString tw "tool_use_id" (tr_ToolCallID r)));
   ("is_error", if negb (tr_IsError r) && negb (HasKey tw "is_error") then emitter (fun e => e)
                else emitter (Field "is_error" (GBool (tr_IsError r))));
   ("content", if String.eqb (Hint tw "content") "string" then emitter (EmitShadowString tw "content" (CollectText (tr_Parts r)))
               else if bool_decide (tr_Parts r = []) && negb (HasKey tw "content") then emitter (fun e => e)
               else nested "content" parts)].

Definition joined (m : outcome string (list string * Z)) : outcome string (string * Z) :=
  let! (elems, d) := m in Ok (EncodeArray elems, d).

Definition one (m : outcome string (string * Z)) : outcome string (list string * Z) := let! (b, d) := m in Ok ([b], d).

Definition block {A} (x : option A) (enc : A -> outcome string (string * Z)) : outcome string (list string * Z) :=
  match x with Some a => one (enc a) | None => Panic end.

Fixpoint encodeBlock (mode : Mode) (p : Part) (dropped : Z) : outcome string (list string * Z) :=
  match pt_Type p with
  | PartTypeText => block (pt_Text p) (fun t => EncodeOrderedObject (assoc (textEmitters t)) (tx_Wire t) mode ["type"; "text"] dropped)
  | PartTypeToolCall =>
      block (pt_ToolCall p) (fun c => EncodeOrderedObject (assoc (callEmitters c)) (tc_Wire c) mode ["type"; "id"; "name"; "input"] dropped)
  | PartTypeToolCallResponse =>
      match pt_ToolCallResponse p with
      | None => Panic
      | Some r =>
          one (EncodeOrderedObject (assoc (resultEmitters r (fun d => joined (encodeAll (encodeBlock mode) (tr_Parts r) d)))) (tr_Wire r) mode
                 ["type"; "tool_use_id"; "content"; "is_error"] dropped)
      end
  | PartTypeReasoning =>
      block (pt_Reasoning p)
        (fun r => EncodeOrderedObject (assoc (reasoningEmitters r)) (re_Wire r) mode ["type"; "thinking"; "signature"] dropped)
  | PartTypeImage =>
      block (pt_Image p) (fun i => EncodeOrderedObject (assoc (imageEmitters i)) (md_Wire i) mode ["type"; "source"] dropped)
  | PartTypeUnknown =>
      match mode with
      | ModePreserve => if String.eqb (Raw (pt_Wire p)) "" then Ok ([], dropped + 1) else Ok ([Raw (pt_Wire p)], dropped)
      | ModeStrip => Ok ([], dropped + 1)
      end
  | _ => Ok ([], dropped + 1)
  end.

Definition encodeParts (mode : Mode) (parts : list Part) (dropped : Z) : outcome string (string * Z) :=
  joined (encodeAll (encodeBlock mode) parts dropped).

(** ** Encoding a request *)

Definition messageEmitters (mode : Mode) (m : Message) : list (string * FieldEmitter) :=
  let mw := ms_Wire m in
  [("role", emitter (Field "role" (GString (match ms_Role m with RoleTool => "user" | r => roleString r end))));
   ("content", if String.eqb (Hint mw "content") "string" then emitter (EmitShadowString mw "content" (CollectText (ms_Parts m)))
               else nested "content" (encodeParts mode (ms_Parts m)))].

Definition encodeMessage (mode : Mode) (m : Message) (dropped : Z) : outcome string (list string * Z) :=
  one (EncodeOrderedObject (assoc (messageEmitters mode m)) (ms_Wire m) mode ["role"; "content"] dropped).

Definition encodeMessages (mode : Mode) (ms : list Message) (dropped : Z) : outcome string (string * Z) :=
  joined (encodeAll (encodeMessage mode) ms dropped).

Definition toolEmitters (t : ToolDefinition) : list (string * FieldEmitter) :=
  let tw := td_Wire t in
  [("name", emitter (EmitShadowString tw "name" (td_Name t)));
   ("description", if String.eqb (td_Description t) "" && negb (HasKey tw "description") then emitter (fun e => e)
                   else emitter (EmitShadowString tw "description" (td_Description t)));
   ("input_schema", emitter (RawField "input_schema" (if String.eqb (td_Parameters t) "" then objectSchema else td_Parameters t)))].

Definition encodeTool (mode : Mode) (t : ToolDefinition) (dropped : Z) : outcome string (list string * Z) :=
  one (EncodeOrderedObject (assoc (toolEmitters t)) (td_Wire t) mode ["name"; "description"; "input_schema"] dropped).

Definition encodeTools (mode : Mode) (ts : list ToolDefinition) (dropped : Z) : outcome string (string * Z) :=
  joined (encodeAll (encodeTool mode) ts dropped).

Definition choiceType (m : ToolChoiceMode) : string :=
  match m with
  | ToolChoiceAuto => "auto" | ToolChoiceRequired => "any" | ToolChoiceNamed => "tool" | ToolChoiceNone => "none"
  | ToolChoiceOther s => s
  end.

Definition toolChoiceEmitters (c : ToolChoice) : list (string * FieldEmitter) :=
  let tw := ch_Wire c in
  [("type", emitter (Field "type" (GString (choiceType (ch_Mode c)))));
   ("name", if String.eqb (ch_Name c) "" && negb (HasKey tw "name") then emitter (fun e => e)
            else emitter (EmitShadowString tw "name" (ch_Name c)))].

Definition encodeToolChoice (mode : Mode) (c : ToolChoice) (dropped : Z) : outcome string (string * Z) :=
  EncodeOrderedObject (assoc (toolChoiceEmitters c)) (ch_Wire c) mode ["type"; "name"] dropped.

Definition requestEmitters (mode : Mode) (req : Request) : list (string * FieldEmitter) :=
  let w := rq_Wire req in
  let g := rq_Generation req in
  [("model", if String.eqb (rq_Model req) "" && negb (HasKey w "model") then emitter (fun e => e)
             else emitter (EmitShadowString w "model" (rq_Model req)));
   ("max_tokens",
      if String.eqb (MaxTokens g) "" then
        match mode with ModeStrip => emitter (Field "max_tokens" (GNumber defaultMaxTokens)) | ModePreserve => emitter (fun e => e) end
      else numberEmitter "max_tokens" (MaxTokens g));
   ("temperature", numberEmitter "temperature" (Temperature g));
   ("top_p", numberEmitter "top_p" (TopP g));
   ("top_k", numberEmitter "top_k" (TopK g));
   ("stop_sequences",
      if bool_decide (StopSequences g = []) && negb (HasKey w "stop_sequences") then emitter (fun e => e)
      else match ShadowRaw w "stop_sequences" (SVString (StringSliceShadowVal (StopSequences g))) with
           | Some raw => emitter (RawField "stop_sequences" raw)
           | None => emitter (Field "stop_sequences" (GStrings (StopSequences g)))
           end);
   ("stream", if negb (rq_Stream req) && negb (HasKey w "stream") then emitter (fun e => e)
              else emitter (Field "stream" (GBool (rq_Stream req))));
   ("system",
      match rq_System req with
      | [] => emitter (fun e => e)
      | parts => if String.eqb (Hint w "system") "string" then emitter (EmitShadowString w "system" (CollectText parts))
                 else nested "system" (encodeParts mode parts)
      end);
   ("messages", nested "messages" (encodeMessages mode (rq_Messages req)));
   ("tools", match rq_Tools req with [] => emitter (fun e => e) | ts => nested "tools" (encodeTools mode ts) end);
   ("tool_choice", match rq_ToolChoice req with None => emitter (fun e => e) | Some c => nested "tool_choice" (encodeToolChoice mode c) end)].

Definition canonicalRequest : list string :=
  ["model"; "max_tokens"; "messages"; "system"; "tools"; "tool_choice"; "temperature"; "top_p"; "top_k"; "stop_sequences"; "stream"].

Definition EncodeRequest (mode : Mode) (req : Request) : outcome CodecError (EncodedRequest * bool) :=
  let w := rq_Wire req in
  let! (fresh, dropped) := other (EncodeOrderedObject (assoc (requestEmitters mode req)) w mode canonicalRequest 0) in
  let '(body, exact) := match mode with ModePreserve => EncodeRaw fresh (Raw w) | ModeStrip => (fresh, false) end in
  let path := match mode with
              | ModePreserve => if String.eqb (wi_Path w) "" then "/v1/messages" else wi_Path w
              | ModeStrip => "/v1/messages"
              end in
  let version := match wi_Headers w !! "anthropic-version" with
                 | Some v => if String.eqb v "" then defaultVersion else v
                 | None => defaultVersion
                 end in
  Ok (mkEncodedRequest body path {["anthropic-version" := version]} [] dropped, exact).

(** ** Responses *)

(** The variables of [DecodeResponse]. *)
Record decoding := mkDecoding { dr_Resp : Response; dr_Choice : Choice; dr_TypeErr : bool }.

#[local] Instance wire_decoding : HasWire decoding :=
  {| wireOf d := rs_Wire (dr_Resp d); setWire w d := mkDecoding (setWire w (dr_Resp d)) (dr_Choice d) (dr_TypeErr d) |}.

Definition usageHandlers : list (string * (json -> Usage -> outcome string Usage)) :=
  [("input_tokens", fun v u => let! (n, u) := DecodeShadowInt64 v "input_tokens" u in Ok (u <| InputTokens := n |>));
   ("output_tokens", fun v u => let! (n, u) := DecodeShadowInt64 v "output_tokens" u in Ok (u <| OutputTokens := n |>))].

Definition decodeUsage (v : json) (u : Usage) : outcome string Usage := DecodeKnown (assoc usageHandlers) (objectOf v) u.

Definition onResp (f : Response -> Response) (d : decoding) : decoding := d <| dr_Resp := f (dr_Resp d) |>.
Definition onChoice (f : Choice -> Choice) (d : decoding) : decoding := d <| dr_Choice := f (dr_Choice d) |>.
Definition onMessage (f : Message -> Message) (c : Choice) : Choice := c <| co_Message := f (co_Message c) |>.

Definition responseHandlers : list (string * (json -> decoding -> outcome string decoding)) :=
  [("id", fun v d => let! (s, d) := DecodeShadowString v "id" d in Ok (onResp (fun r => r <| rs_ID := s |>) d));
   ("type", fun v d =>
      let! s := unmarshalString "" v in
      Ok (if String.eqb s "message" then d else mkDecoding (dr_Resp d) (dr_Choice d) true));
   ("role", fun v d =>
      let! s := unmarshalString "" v in Ok (onChoice (onMessage (fun m => m <| ms_Role := roleOf s |>)) d));
   ("model", fun v d => let! (s, d) := DecodeShadowString v "model" d in Ok (onResp (fun r => r <| rs_Model := s |>) d));
   ("content", fun v d =>
      let! parts := decodeParts v in Ok (onChoice (onMessage (fun m => m <| ms_Parts := parts |>)) d));
   ("stop_reason", fun v d =>
      match v with
      | JNull => Ok (onWire (SetHint "stop_reason" "null") d)
      | _ =>
          let! s := unmarshalString "" v in
          Ok (onChoice (fun c => c <| co_FinishReasonRaw := s |> <| co_FinishReason := MessagesStream.canonicalFinish s |>) d)
      end);
   ("usage", fun v d => let! u := decodeUsage v (rs_Usage (dr_Resp d)) in Ok (onResp (fun r => r <| rs_Usage := u |>) d))].

Definition DecodeResponse (status : Z) (headers : gmap string string) (body : string) (req : Request) : outcome CodecError Response :=
  if negb (status =? 0) && negb (status =? 200) then Err ErrUnsupported
  else if refusedFraming headers then Err ErrUnsupported
  else
    let! d := malformed "anthropic" "response body"
      (DecodeKnown (assoc responseHandlers) (objectOfText body)
        (mkDecoding (mkResponse "anthropic" "" "" [] (mkUsage 0 0 zeroWire) (withRaw body zeroWire))
           (mkCompletion (mkMessage RoleAssistant [] zeroWire) FinishReasonUnset "" zeroWire) false)) in
    if dr_TypeErr d then Err ErrUnsupported else Ok ((dr_Resp d) <| rs_Choices := [dr_Choice d] |>).

Definition anthropicFinish (c : Choice) : string :=
  if String.eqb (co_FinishReasonRaw c) "" then MessagesStream.anthropicFinishCanonical (co_FinishReason c) else co_FinishReasonRaw c.

Definition usageEmitters (u : Usage) : list (string * FieldEmitter) :=
  [("input_tokens", emitter (EmitShadowInt64 (us_Wire u) "input_tokens" (InputTokens u)));
   ("output_tokens", emitter (EmitShadowInt64 (us_Wire u) "output_tokens" (OutputTokens u)))].

Definition encodeUsage (mode : Mode) (u : Usage) (dropped : Z) : outcome string (string * Z) :=
  EncodeOrderedObject (assoc (usageEmitters u)) (us_Wire u) mode ["input_tokens"; "output_tokens"] dropped.

Definition zeroChoice : Choice := mkCompletion (mkMessage (RoleOther "") [] zeroWire) FinishReasonUnset "" zeroWire.

Definition responseEmitters (mode : Mode) (r : Response) : list (string * FieldEmitter) :=
  let w := rs_Wire r in
  let choice := default zeroChoice (head (rs_Choices r)) in
  [("id", emitter (EmitShadowString w "id" (rs_ID r)));
   ("type", emitter (Field "type" (GString "message")));
   ("role", emitter (Field "role" (GString
      (let role := roleString (ms_Role (co_Message choice)) in if String.eqb role "" then "assistant" else role))));
   ("model", emitter (EmitShadowString w "model" (rs_Model r)));
   ("content", nested "content" (encodeParts mode (ms_Parts (co_Message choice))));
   ("stop_reason", if String.eqb (Hint w "stop_reason") "null" then emitter (RawField "stop_reason" "null")
                   else emitter (Field "stop_reason" (GString (anthropicFinish choice))));
   ("usage", nested "usage" (encodeUsage mode (rs_Usage r)))].

Definition EncodeResponse (mode : Mode) (r : Response) : outcome CodecError (EncodedResponse * bool) :=
  let! (fresh, dropped) := other (EncodeOrderedObject (assoc (responseEmitters mode r)) (rs_Wire r) mode
                                    ["id"; "type"; "role"; "model"; "content"; "stop_reason"; "usage"] 0) in
  let '(body, exact) := match mode with ModePreserve => EncodeRaw fresh (Raw (rs_Wire r)) | ModeStrip => (fresh, false) end in
  Ok (mkEncodedResponse body {["content-type" := "application/json"]} dropped, exact).

End Codec.

(** ** The fuel is enough *)

Section Fuel.
Context {J : Jsonx}.

Lemma knownMembers_ext {S} `{HasWire S} (f g : string -> option (json -> S -> outcome string S)) ms :
  Forall (fun kv => forall key, match f key, g key with
                                | Some x, Some y => forall s, x (snd kv) s = y (snd kv) s
                                | None, None => True
                                | _, _ => False
                                end) ms ->
  forall s, knownMembers f ms s = knownMembers g ms s.
Proof.
  induction 1 as [|[k v] ms Hkv _ IH]; intros s; [done|]. cbn [knownMembers]. specialize (Hkv (Unquote k)). cbn [snd] in Hkv.
  destruct (f (Unquote k)) as [x|], (g (Unquote k)) as [y|]; try done; [|apply IH].
  rewrite Hkv. destruct (y v _); cbn; [apply IH|done..].
Qed.

Lemma decodeBlock_ext d1 d2 el : (forall v, (depth v < depth el)%nat -> d1 v = d2 v) -> decodeBlock d1 el = decodeBlock d2 el.
Proof.
  intros Hd. unfold decodeBlock. destruct (DecodeTypedBlock el "type") as [t| |]; cbn [obind]; [|done..].
  do 2 (destruct (String.eqb _ _); [done|]). destruct (String.eqb _ _); [|done]. f_equal.
  unfold DecodeKnown. f_equal. apply knownMembers_ext. destruct el; cbn [objectOf fst]; try constructor.
  apply List.Forall_forall. intros [k v] Hin key. cbn [resultHandlers assoc snd].
  repeat (destruct (String.eqb _ _); [done|]). destruct (String.eqb _ _); [|done]. intros s.
  rewrite Hd; [done|]. cbn [depth]. apply Nat.lt_succ_r. by apply (depth_members_le ms _ (le_n _) (k, v)).
Qed.

Lemma decodeBlocks_ext d1 d2 v : (forall w, (S (depth w) < depth v)%nat -> d1 w = d2 w) -> decodeBlocks d1 v = decodeBlocks d2 v.
Proof.
  intros Hd. unfold decodeBlocks. destruct v; cbn; try done. assert (forall l0, incl l0 l -> omapM (decodeBlock d1) l0 = omapM (decodeBlock d2) l0) as H.
  { induction l0 as [|x l0 IH]; intros Hi; [done|]. cbn [omapM]. rewrite IH by (intros y Hy; apply Hi; by right).
    rewrite (decodeBlock_ext d1 d2 x); [done|]. intros w Hw. apply Hd. cbn [depth].
    assert (depth x <= list_max (List.map depth l))%nat; [|lia]. apply (depth_elements_le l _ (le_n _)). apply Hi. by left. }
  destruct (omapM (fun x => Ok x) l) as [l1| |] eqn:E; cbn [obind]; try done.
  assert (l1 = l) as ->; [|apply H, List.incl_refl]. clear H Hd. revert l1 E. induction l as [|x l IH]; intros l1; cbn; [by intros [= <-]|].
  destruct (omapM _ l) as [l2| |]; cbn; try done. intros [= <-]. by rewrite (IH l2).
Qed.

(** More fuel than the value is deep changes nothing. *)
Lemma decodeParts_fuel fuel v : (depth v <= fuel)%nat -> decodePartsN fuel v = decodeParts v.
Proof.
  assert (forall f v, (depth v <= f)%nat -> decodePartsN (S f) v = decodePartsN f v) as Hstep.
  { induction f as [|f IH]; intros w Hw.
    - cbn [decodePartsN]. apply decodeBlocks_ext. intros; lia.
    - cbn [decodePartsN]. apply decodeBlocks_ext. intros u Hu. apply IH. lia. }
  unfold decodeParts. induction 1 as [|fuel Hle IH]; [done|]. by rewrite Hstep.
Qed.

End Fuel.

End MessagesCodec.
