(* ===== verification/GeminiCodec.v ===== *)
(** * The Gemini codec

    [src/internal/extproc/llmcall/providers/google/codec.go]: how a request and a response
    body of [generateContent] are read into the neutral model and written from it.  The model and
    the streaming flag ride in the path.

    The conventions are those of [ChatCodec]. *)

From Stdlib Require Import ZArith Lia Ascii String List.
From stdpp Require Import base strings list gmap pretty.
From coqutil Require Import Datatypes.RecordSettersUsingExistingGetters.
From S2P Require Import Prelude GoStrings GoStd LlmCall GeminiStream JsonText LlmJson ChatCodec MessagesCodec.
Import GoStrings GoStd LlmCall JsonText LlmJson.
Import ChatCodec(nul, barePath, malformed, other, onGeneration, numberEmitter, zeroGeneration, refusedFraming, toolDefShadowVal, toolChoiceShadowVal).
Import MessagesCodec(joined, one, block).

#[local] Open Scope string_scope.
#[local] Open Scope Z_scope.
#[local] Open Scope list_scope.

Module GeminiCodec.

(** [strings.Cut] at a string. *)
Fixpoint CutString (s sep : string) : string * string * bool :=
  if HasPrefix s sep then ("", drop_str (String.length sep) s, true)
  else match s with
       | String c t => let '(a, b, ok) := CutString t sep in (String c a, b, ok)
       | EmptyString => ("", "", false)
       end.

Definition isGoogleOpenAICompatPath (path : string) : bool := Contains path "/openai/".

Definition googlePathModelMethod (path : string) : string * string :=
  match CutString (barePath path) "/models/" with
  | (_, after, true) => match Cut after ":" with (model, method, true) => (model, method) | (model, _, _) => (model, "") end
  | _ => ("", "")
  end.

Section Codec.
Context {J : Jsonx}.

(** ** Parts *)

(** The probe of a part: its last value of a member. *)
Definition probe (v : json) : outcome string (string -> option json) :=
  match v with
  | JObj ms => Ok (fun k => lastMember k ms)
  | JNull => Ok (fun _ => None)
  | _ => Err (typeError "map" v)
  end.

Definition boolTrue (v : option json) : bool :=
  match v with Some v => match unmarshalBool false v with Ok b => b | _ => false end | None => false end.

Definition reasoningHandlers : list (string * (json -> ReasoningPart -> outcome string ReasoningPart)) :=
  [("text", fun v r => let! (s, r) := DecodeShadowString v "text" r in Ok (r <| re_Text := s |>));
   ("thought", fun _ r => Ok r);
   ("thoughtSignature", fun v r => let! (s, r) := DecodeShadowString v "thoughtSignature" r in Ok (r <| re_Signature := s |>))].

Definition textHandlers : list (string * (json -> TextPart -> outcome string TextPart)) :=
  [("text", fun v t => let! (s, t) := DecodeShadowString v "text" t in Ok (t <| tx_Text := s |>))].

Definition functionCallShadowVal (c : ToolCallPart) : string := (tc_Name c ++ nul ++ tc_Arguments c)%string.

(** The name and the text of the value beside it. *)
Definition setNamed (f : string) (v : json) (x : string * string) : outcome string (string * string) :=
  if String.eqb f "name" then let! s := unmarshalString (fst x) v in Ok (s, snd x) else Ok (fst x, print v).

Definition callHandlers : list (string * (json -> ToolCallPart -> outcome string ToolCallPart)) :=
  [("functionCall", fun v c =>
      let! (name, args) := unmarshalStruct ["name"; "args"] setNamed ("", "") v in
      let c := c <| tc_Name := name |> in
      let c := if String.eqb args "" then c else c <| tc_Arguments := args |> in
      Ok (onWire (RecordShadow "functionCall" (print v) (SVString (functionCallShadowVal c))) c))].

(** The payload of a result rides in a hint. *)
Definition resultHandlers : list (string * (json -> ToolCallResponsePart -> outcome string ToolCallResponsePart)) :=
  [("functionResponse", fun v r =>
      let! (name, response) := unmarshalStruct ["name"; "response"] setNamed ("", "") v in
      let r := mkResponsePart name (tr_Parts r) (tr_IsError r) (tr_Wire r) in
      let r := if String.eqb response "" then r else onWire (SetHint "response" response) r in
      Ok (onWire (RecordShadow "functionResponse" (print v) (SVString (name ++ nul ++ Hint (tr_Wire r) "response")%string)) r))].

(** ** Media *)

Definition inlineShadowVal (mime data url : string) : string := (mime ++ nul ++ data ++ nul ++ url)%string.

(** [mediaPart] with the fields that [setMediaFields] sets, and the wire [partMediaWire] points at. *)
Definition mediaPart (mime data url : string) (w : Wire) : Part :=
  if HasPrefix mime "image/" then partImage (mkMedia mime data url w)
  else if HasPrefix mime "audio/" then partAudio (mkMedia mime data url w)
  else partFile (mkFile mime data url "" w).

(** One envelope: the MIME type and the member beside it. *)
Definition setMedia (f : string) (v : json) (x : string * string) : outcome string (string * string) :=
  if String.eqb f "mimeType" then let! s := unmarshalString (fst x) v in Ok (s, snd x)
  else let! s := unmarshalString (snd x) v in Ok (fst x, s).

Definition mediaEnvelope (k field : string) (v : json) : outcome string (string * string) :=
  unmarshalStruct [k] (fun _ v x => unmarshalStruct ["mimeType"; field] setMedia x v) ("", "") v.

Definition mediaHandlers (k val : string) : list (string * (json -> Wire -> outcome string Wire)) :=
  [(k, fun v w => Ok (RecordShadow k (print v) (SVString val) w))].

Definition decodeInlineData (v : json) : outcome string Part :=
  let! (mime, data) := mediaEnvelope "inlineData" "data" v in
  let! w := DecodeKnown (assoc (mediaHandlers "inlineData" (inlineShadowVal mime data ""))) (objectOf v) zeroWire in
  Ok (mediaPart mime data "" w).

Definition decodeFileData (v : json) : outcome string Part :=
  let! (mime, uri) := mediaEnvelope "fileData" "fileUri" v in
  let! w := DecodeKnown (assoc (mediaHandlers "fileData" (inlineShadowVal mime "" uri))) (objectOf v) zeroWire in
  Ok (mediaPart mime "" uri w).

Definition decodePart (v : json) : outcome string Part :=
  let! has := probe v in
  let present k := bool_decide (is_Some (has k)) in
  if boolTrue (has "thought") && present "text" then
    let! p := DecodeKnown (assoc reasoningHandlers) (objectOf v) (mkReasoning "" "" zeroWire) in Ok (partReasoning p)
  else if present "text" then
    let! p := DecodeKnown (assoc textHandlers) (objectOf v) (mkText "" zeroWire) in Ok (partText p)
  else if present "inlineData" then decodeInlineData v
  else if present "fileData" then decodeFileData v
  else if present "functionCall" then
    let! p := DecodeKnown (assoc callHandlers) (objectOf v) (mkToolCall "" "" "" zeroWire) in Ok (partCall p)
  else if present "functionResponse" then
    let! p := DecodeKnown (assoc resultHandlers) (objectOf v) (mkResponsePart "" [] false zeroWire) in Ok (partResult p)
  else Ok (UnknownPart v).

(** ** Contents *)

Definition geminiRole (s : string) : Role := if String.eqb s "model" then RoleAssistant else roleOf s.

Definition contentHandlers : list (string * (json -> Message -> outcome string Message)) :=
  [("role", fun v m => let! s := unmarshalString "" v in Ok (m <| ms_Role := geminiRole s |>));
   ("parts", fun v m =>
      let! elems := unmarshalElements v in
      let! parts := omapM decodePart elems in Ok (m <| ms_Parts := ms_Parts m ++ parts |>))].

Definition zeroMessage : Message := mkMessage (RoleOther "") [] zeroWire.

Definition decodeContent (el : json) : outcome string Message := DecodeKnown (assoc contentHandlers) (objectOf el) zeroMessage.

Definition decodeContents (v : json) : outcome string (list Message) :=
  let! elems := unmarshalElements v in omapM decodeContent elems.

(** ** Requests *)

Definition generationNumber (f : string -> GenerationConfig -> GenerationConfig) (v : json) (g : GenerationConfig) : outcome string GenerationConfig :=
  let! n := DecodeNumber v in Ok (f n g).

Definition generationHandlers : list (string * (json -> GenerationConfig -> outcome string GenerationConfig)) :=
  [("temperature", generationNumber (fun n g => g <| Temperature := n |>));
   ("topP", generationNumber (fun n g => g <| TopP := n |>));
   ("topK", generationNumber (fun n g => g <| TopK := n |>));
   ("maxOutputTokens", generationNumber (fun n g => g <| MaxTokens := n |>));
   ("stopSequences", fun v g => let! (ss, g) := DecodeShadowStringSlice v "stopSequences" g in Ok (g <| StopSequences := ss |>))].

Definition decodeGenerationConfig (v : json) (g : GenerationConfig) : outcome string GenerationConfig :=
  DecodeKnown (assoc generationHandlers) (objectOf v) g.

Definition setDeclaration (f : string) (v : json) (t : ToolDefinition) : outcome string ToolDefinition :=
  if String.eqb f "name" then let! s := unmarshalString (td_Name t) v in Ok (t <| td_Name := s |>)
  else if String.eqb f "description" then let! s := unmarshalString (td_Description t) v in Ok (t <| td_Description := s |>)
  else Ok (t <| td_Parameters := print v |>).

Definition declarations (v : json) : outcome string (list ToolDefinition) :=
  unmarshalList (unmarshalStruct ["name"; "description"; "parameters"] setDeclaration (mkTool "" "" "" zeroWire)) v.

(** The tools that are no functions are in the shadow only. *)
Definition decodeTools (v : json) (req : Request) : outcome string Request :=
  let! elems := unmarshalList (unmarshalStruct ["functionDeclarations"] (fun _ v _ => declarations v) []) v in
  let req := req <| rq_Tools := rq_Tools req ++ List.concat elems |> in
  Ok (onWire (RecordShadow "tools" (print v) (SVString (toolDefShadowVal (rq_Tools req)))) req).

Definition setCalling (f : string) (v : json) (x : string * list string) : outcome string (string * list string) :=
  if String.eqb f "mode" then let! s := unmarshalString (fst x) v in Ok (s, snd x)
  else let! l := unmarshalList (unmarshalString "") v in Ok (fst x, l).

Definition choiceOf (mode : string) (allowed : list string) : ToolChoice :=
  if String.eqb mode "AUTO" || String.eqb mode "" then mkChoice ToolChoiceAuto "" zeroWire
  else if String.eqb mode "NONE" then mkChoice ToolChoiceNone "" zeroWire
  else if String.eqb mode "ANY" then
    match allowed with [name] => mkChoice ToolChoiceNamed name zeroWire | _ => mkChoice ToolChoiceRequired "" zeroWire end
  else mkChoice (modeOf mode) "" zeroWire.

Definition decodeToolConfig (v : json) (req : Request) : outcome string Request :=
  let! (mode, allowed) := unmarshalStruct ["functionCallingConfig"]
    (fun _ v x => unmarshalStruct ["mode"; "allowedFunctionNames"] setCalling x v) ("", []) v in
  let tc := choiceOf mode allowed in
  Ok ((onWire (RecordShadow "toolConfig" (print v) (SVString (toolChoiceShadowVal (Some tc)))) req) <| rq_ToolChoice := Some tc |>).

Definition decodeSystem (v : json) (req : Request) : outcome string Request :=
  let! elems := unmarshalStruct ["parts"] (fun _ v _ => unmarshalElements v) [] v in
  let! parts := omapM decodePart elems in
  let req := req <| rq_System := rq_System req ++ parts |> in
  Ok (onWire (RecordShadow "systemInstruction" (print v) (SVString (CollectText (rq_System req)))) req).

Definition requestHandlers : list (string * (json -> Request -> outcome string Request)) :=
  [("contents", fun v r => let! ms := decodeContents v in Ok (r <| rq_Messages := ms |>));
   ("systemInstruction", decodeSystem);
   ("generationConfig", fun v r => let! g := decodeGenerationConfig v (rq_Generation r) in Ok (r <| rq_Generation := g |>));
   ("tools", decodeTools);
   ("toolConfig", decodeToolConfig)].

Definition DecodeRequest (inp : RequestInput) : outcome CodecError Request :=
  let body model stream :=
    let w := mkWire [] [] ∅ ∅ (in_Body inp) (in_Path inp) ∅ in
    malformed "google_genai" "request body"
      (DecodeKnown (assoc requestHandlers) (objectOfText (in_Body inp))
        (mkRequest "google_genai" "chat" model [] [] [] None zeroGeneration stream w)) in
  if isGoogleOpenAICompatPath (in_Path inp) then Err ErrUnsupported
  else
    let '(model, method) := googlePathModelMethod (in_Path inp) in
    if String.eqb method "generateContent" then body model false
    else if String.eqb method "streamGenerateContent" then
      if Contains (in_Path inp) "alt=sse" then body model true else Err ErrUnsupported
    else Err ErrUnsupported.

(** ** Encoding parts *)

Definition textEmitters (t : TextPart) : list (string * FieldEmitter) :=
  [("text", emitter (EmitShadowString (tx_Wire t) "text" (tx_Text t)))].

Definition reasoningEmitters (r : ReasoningPart) : list (string * FieldEmitter) :=
  let rw := re_Wire r in
  [("text", emitter (EmitShadowString rw "text" (re_Text r)));
   ("thought", emitter (Field "thought" (GBool true)));
   ("thoughtSignature", if String.eqb (re_Signature r) "" && negb (HasKey rw "thoughtSignature") then emitter (fun e => e)
                        else emitter (EmitShadowString rw "thoughtSignature" (re_Signature r)))].

(** The shadow of a member, or the object built for it. *)
Definition shadowOr (w : Wire) (k val : string) (inner : ObjectEncoder) : FieldEmitter :=
  match ShadowRaw w k (SVString val) with
  | Some raw => emitter (RawField k raw)
  | None => nested k (fun d => let! raw := Bytes inner in Ok (raw, d))
  end.

Definition callEmitters (c : ToolCallPart) : list (string * FieldEmitter) :=
  [("functionCall", shadowOr (tc_Wire c) "functionCall" (functionCallShadowVal c)
      (RawField "args" (if String.eqb (tc_Arguments c) "" then "{}" else tc_Arguments c)
        (Field "name" (GString (tc_Name c)) NewObjectEncoder)))].

Definition resultEmitters (r : ToolCallResponsePart) : list (string * FieldEmitter) :=
  let response := Hint (tr_Wire r) "response" in
  [("functionResponse", shadowOr (tr_Wire r) "functionResponse" (tr_ToolCallID r ++ nul ++ response)
      (RawField "response" (if String.eqb response "" then "{}" else response)
        (Field "name" (GString (tr_ToolCallID r)) NewObjectEncoder)))].

Record mediaFields := mkMediaFields { mf_MIME : string; mf_Data : string; mf_URL : string }.

(** A data URL is unpacked. *)
Definition unpacked (m : mediaFields) : mediaFields :=
  if negb (String.eqb (mf_URL m) "") && String.eqb (mf_Data m) "" then
    match SplitDataURL (mf_URL m) with (mime, data, true) => mkMediaFields mime data "" | _ => m end
  else m.

Definition mediaEmitters (pw : Wire) (m : mediaFields) : list (string * FieldEmitter) :=
  let pair k v := Field k (GString v) (Field "mimeType" (GString (mf_MIME m)) NewObjectEncoder) in
  [("inlineData", if negb (String.eqb (mf_URL m) "") && String.eqb (mf_Data m) "" then emitter (fun e => e)
                  else shadowOr pw "inlineData" (inlineShadowVal (mf_MIME m) (mf_Data m) "") (pair "data" (mf_Data m)));
   ("fileData", if String.eqb (mf_URL m) "" then emitter (fun e => e)
                else shadowOr pw "fileData" (inlineShadowVal (mf_MIME m) "" (mf_URL m)) (pair "fileUri" (mf_URL m)))].

Definition encodeMediaPart (pw : Wire) (m : mediaFields) (mode : Mode) (dropped : Z) : outcome string (string * Z) :=
  EncodeOrderedObject (assoc (mediaEmitters pw (unpacked m))) pw mode ["inlineData"; "fileData"] dropped.

Definition ofMedia (i : MediaPart) : mediaFields := mkMediaFields (md_MIMEType i) (md_DataB64 i) (md_URL i).
Definition ofFile (f : FilePart) : mediaFields := mkMediaFields (fl_MIMEType f) (fl_DataB64 f) (fl_URL f).

Definition encodePart (mode : Mode) (p : Part) (dropped : Z) : outcome string (list string * Z) :=
  match pt_Type p with
  | PartTypeText => block (pt_Text p) (fun t => EncodeOrderedObject (assoc (textEmitters t)) (tx_Wire t) mode ["text"] dropped)
  | PartTypeReasoning =>
      block (pt_Reasoning p)
        (fun r => EncodeOrderedObject (assoc (reasoningEmitters r)) (re_Wire r) mode ["text"; "thought"; "thoughtSignature"] dropped)
  | PartTypeToolCall =>
      block (pt_ToolCall p) (fun c => EncodeOrderedObject (assoc (callEmitters c)) (tc_Wire c) mode ["functionCall"] dropped)
  | PartTypeToolCallResponse =>
      block (pt_ToolCallResponse p) (fun r => EncodeOrderedObject (assoc (resultEmitters r)) (tr_Wire r) mode ["functionResponse"] dropped)
  | PartTypeImage => block (pt_Image p) (fun i => encodeMediaPart (md_Wire i) (ofMedia i) mode dropped)
  | PartTypeAudio => block (pt_Audio p) (fun i => encodeMediaPart (md_Wire i) (ofMedia i) mode dropped)
  | PartTypeFile => block (pt_File p) (fun f => encodeMediaPart (fl_Wire f) (ofFile f) mode dropped)
  | PartTypeUnknown =>
      match mode with
      | ModePreserve => if String.eqb (Raw (pt_Wire p)) "" then Ok ([], dropped + 1) else Ok ([Raw (pt_Wire p)], dropped)
      | ModeStrip => Ok ([], dropped + 1)
      end
  | _ => Ok ([], dropped + 1)
  end.

Definition encodeParts (mode : Mode) (parts : list Part) (dropped : Z) : outcome string (string * Z) :=
  joined (encodeAll (encodePart mode) parts dropped).

(** ** Encoding a request *)

Definition contentEmitters (mode : Mode) (m : Message) : list (string * FieldEmitter) :=
  [("role", emitter (Field "role" (GString (match ms_Role m with RoleAssistant => "model" | r => roleString r end))));
   ("parts", nested "parts" (encodeParts mode (ms_Parts m)))].

Definition encodeContent (mode : Mode) (m : Message) (dropped : Z) : outcome string (string * Z) :=
  EncodeOrderedObject (assoc (contentEmitters mode m)) (ms_Wire m) mode ["role"; "parts"] dropped.

Definition encodeContents (mode : Mode) (ms : list Message) (dropped : Z) : outcome string (string * Z) :=
  joined (encodeAll (fun m d => one (encodeContent mode m d)) ms dropped).

Definition generationEmitters (g : GenerationConfig) : list (string * FieldEmitter) :=
  [("temperature", numberEmitter "temperature" (Temperature g));
   ("topP", numberEmitter "topP" (TopP g));
   ("topK", numberEmitter "topK" (TopK g));
   ("maxOutputTokens", numberEmitter "maxOutputTokens" (MaxTokens g));
   ("stopSequences",
      match StopSequences g with
      | [] => emitter (fun e => e)
      | ss =>
          match ShadowRaw (ge_Wire g) "stopSequences" (SVString (StringSliceShadowVal ss)) with
          | Some raw => emitter (RawField "stopSequences" raw)
          | None => emitter (Field "stopSequences" (GStrings ss))
          end
      end)].

Definition generationPresent (g : GenerationConfig) : bool :=
  negb (String.eqb (Temperature g) "") || negb (String.eqb (TopP g) "") || negb (String.eqb (TopK g) "")
  || negb (String.eqb (MaxTokens g) "") || negb (bool_decide (StopSequences g = [])) || negb (bool_decide (KeyOrder (ge_Wire g) = [])).

Definition encodeGenerationConfig (mode : Mode) (g : GenerationConfig) (dropped : Z) : outcome string (string * Z) :=
  EncodeOrderedObject (assoc (generationEmitters g)) (ge_Wire g) mode ["temperature"; "topP"; "topK"; "maxOutputTokens"; "stopSequences"] dropped.

Definition toolObject (t : ToolDefinition) : outcome string string :=
  let e := Field "name" (GString (td_Name t)) NewObjectEncoder in
  let e := if String.eqb (td_Description t) "" then e else Field "description" (GString (td_Description t)) e in
  Bytes (if String.eqb (td_Parameters t) "" then e else RawField "parameters" (td_Parameters t) e).

Definition encodeTools (tools : list ToolDefinition) (dropped : Z) : outcome string (string * Z) :=
  let! decls := omapM toolObject tools in
  let! b := Bytes (RawField "functionDeclarations" (EncodeArray decls) NewObjectEncoder) in
  Ok (EncodeArray [b], dropped).

Definition callingConfig (tc : ToolChoice) : ObjectEncoder :=
  let mode s := Field "mode" (GString s) NewObjectEncoder in
  match ch_Mode tc with
  | ToolChoiceAuto => mode "AUTO"
  | ToolChoiceNone => mode "NONE"
  | ToolChoiceRequired => mode "ANY"
  | ToolChoiceNamed => Field "allowedFunctionNames" (GStrings [ch_Name tc]) (mode "ANY")
  | ToolChoiceOther s => mode s
  end.

Definition encodeToolConfig (tc : ToolChoice) (dropped : Z) : outcome string (string * Z) :=
  let! fcc := Bytes (callingConfig tc) in
  let! b := Bytes (RawField "functionCallingConfig" fcc NewObjectEncoder) in
  Ok (b, dropped).

(** The encoding is made, and counted, whether or not it is written. *)
Definition generationEmitter (mode : Mode) (w : Wire) (g : GenerationConfig) : FieldEmitter := fun st =>
  match encodeGenerationConfig mode g (snd st) with
  | Ok (raw, d) =>
      if negb (generationPresent g) && negb (HasKey w "generationConfig") then Ok (fst st, d)
      else Ok (RawField "generationConfig" raw (fst st), d)
  | Err x => Ok (Fail x (fst st), snd st)
  | Panic => Panic
  end.

Definition requestEmitters (mode : Mode) (req : Request) : list (string * FieldEmitter) :=
  let w := rq_Wire req in
  [("contents", nested "contents" (encodeContents mode (rq_Messages req)));
   ("systemInstruction",
      match rq_System req with
      | [] => emitter (fun e => e)
      | parts =>
          match ShadowRaw w "systemInstruction" (SVString (CollectText parts)) with
          | Some raw => emitter (RawField "systemInstruction" raw)
          | None => nested "systemInstruction" (fun d =>
              let! (partsRaw, d) := encodeParts mode parts d in
              let! raw := Bytes (RawField "parts" partsRaw NewObjectEncoder) in Ok (raw, d))
          end
      end);
   ("generationConfig", generationEmitter mode w (rq_Generation req));
   ("tools",
      match rq_Tools req with
      | [] => emitter (fun e => e)
      | tools =>
          match ShadowRaw w "tools" (SVString (toolDefShadowVal tools)), mode with
          | Some raw, ModePreserve => emitter (RawField "tools" raw)
          | _, _ => nested "tools" (encodeTools tools)
          end
      end);
   ("toolConfig",
      match rq_ToolChoice req with
      | None => emitter (fun e => e)
      | Some tc =>
          match ShadowRaw w "toolConfig" (SVString (toolChoiceShadowVal (Some tc))), mode with
          | Some raw, ModePreserve => emitter (RawField "toolConfig" raw)
          | _, _ => nested "toolConfig" (encodeToolConfig tc)
          end
      end)].

Definition canonicalRequest : list string := ["contents"; "systemInstruction"; "tools"; "toolConfig"; "generationConfig"].

Definition modelPath (req : Request) : string :=
  ("/v1beta/models/" ++ rq_Model req ++ (if rq_Stream req then ":streamGenerateContent?alt=sse" else ":generateContent"))%string.

Definition EncodeRequest (mode : Mode) (req : Request) : outcome CodecError (EncodedRequest * bool) :=
  let w := rq_Wire req in
  let! (fresh, dropped) := other (EncodeOrderedObject (assoc (requestEmitters mode req)) w mode canonicalRequest 0) in
  let '(body, exact) := match mode with ModePreserve => EncodeRaw fresh (Raw w) | ModeStrip => (fresh, false) end in
  let path := match mode with
              | ModePreserve => if String.eqb (wi_Path w) "" then modelPath req else wi_Path w
              | ModeStrip => modelPath req
              end in
  Ok (mkEncodedRequest body path {["content-type" := "application/json"]} [] dropped, exact).

(** ** Responses *)

Definition candidateHandlers : list (string * (json -> Choice -> outcome string Choice)) :=
  [("content", fun v c => let! m := decodeContent v in Ok (c <| co_Message := m |>));
   ("finishReason", fun v c =>
      let! s := unmarshalString "" v in
      Ok (c <| co_FinishReasonRaw := s |> <| co_FinishReason := GeminiStream.canonicalFinish s |>));
   ("index", fun _ c => Ok c)].

Definition decodeCandidate (el : json) : outcome string Choice :=
  DecodeKnown (assoc candidateHandlers) (objectOf el) (mkCompletion zeroMessage FinishReasonUnset "" zeroWire).

Definition decodeCandidates (v : json) : outcome string (list Choice) :=
  let! elems := unmarshalElements v in omapM decodeCandidate elems.

Definition usageHandlers : list (string * (json -> Usage -> outcome string Usage)) :=
  [("promptTokenCount", fun v u => let! (n, u) := DecodeShadowInt64 v "promptTokenCount" u in Ok (u <| InputTokens := n |>));
   ("candidatesTokenCount", fun v u => let! (n, u) := DecodeShadowInt64 v "candidatesTokenCount" u in Ok (u <| OutputTokens := n |>));
   ("totalTokenCount", fun v u => Ok (onWire (SetHint "totalTokenCount" (print v)) u))].

Definition decodeUsageMetadata (v : json) (u : Usage) : outcome string Usage := DecodeKnown (assoc usageHandlers) (objectOf v) u.

Definition responseHandlers : list (string * (json -> Response -> outcome string Response)) :=
  [("candidates", fun v r => let! cs := decodeCandidates v in Ok (r <| rs_Choices := cs |>));
   ("usageMetadata", fun v r => let! u := decodeUsageMetadata v (rs_Usage r) in Ok (r <| rs_Usage := u |>));
   ("modelVersion", fun v r => let! (s, r) := DecodeShadowString v "modelVersion" r in Ok (r <| rs_Model := s |>));
   ("responseId", fun v r => let! (s, r) := DecodeShadowString v "responseId" r in Ok (r <| rs_ID := s |>))].

Definition DecodeResponse (status : Z) (headers : gmap string string) (body : string) (req : Request) : outcome CodecError Response :=
  if negb (status =? 0) && negb (status =? 200) then Err ErrUnsupported
  else if refusedFraming headers then Err ErrUnsupported
  else
    malformed "google_genai" "response body"
      (DecodeKnown (assoc responseHandlers) (objectOfText body)
        (mkResponse "google_genai" "" "" [] (mkUsage 0 0 zeroWire) (withRaw body zeroWire))).

Definition googleFinish (c : Choice) : string :=
  if String.eqb (co_FinishReasonRaw c) "" then GeminiStream.googleFinishCanonical (co_FinishReason c) else co_FinishReasonRaw c.

Definition candidateEmitters (mode : Mode) (idx : Z) (c : Choice) : list (string * FieldEmitter) :=
  [("content", nested "content" (encodeContent mode (co_Message c)));
   ("finishReason", emitter (Field "finishReason" (GString (googleFinish c))));
   ("index",
      match mode with
      | ModePreserve => if HasKey (co_Wire c) "index" then emitter (Field "index" (GInt idx)) else emitter (fun e => e)
      | ModeStrip => emitter (Field "index" (GInt idx))
      end)].

Definition encodeCandidate (mode : Mode) (ic : nat * Choice) (dropped : Z) : outcome string (list string * Z) :=
  one (EncodeOrderedObject (assoc (candidateEmitters mode (Z.of_nat (fst ic)) (snd ic))) (co_Wire (snd ic)) mode
         ["content"; "finishReason"; "index"] dropped).

Definition encodeCandidates (mode : Mode) (cs : list Choice) (dropped : Z) : outcome string (string * Z) :=
  joined (encodeAll (encodeCandidate mode) (imap (fun i c => (i, c)) cs) dropped).

Definition usageEmitters (mode : Mode) (u : Usage) : list (string * FieldEmitter) :=
  let uw := us_Wire u in
  [("promptTokenCount", emitter (EmitShadowInt64 uw "promptTokenCount" (InputTokens u)));
   ("candidatesTokenCount", emitter (EmitShadowInt64 uw "candidatesTokenCount" (OutputTokens u)));
   ("totalTokenCount",
      let sum := emitter (Field "totalTokenCount" (GInt (int64 (InputTokens u + OutputTokens u)))) in
      match mode with
      | ModePreserve => if String.eqb (Hint uw "totalTokenCount") "" then sum else emitter (RawField "totalTokenCount" (Hint uw "totalTokenCount"))
      | ModeStrip => sum
      end)].

Definition encodeUsageMetadata (mode : Mode) (u : Usage) (dropped : Z) : outcome string (string * Z) :=
  EncodeOrderedObject (assoc (usageEmitters mode u)) (us_Wire u) mode ["promptTokenCount"; "candidatesTokenCount"; "totalTokenCount"] dropped.

Definition responseEmitters (mode : Mode) (r : Response) : list (string * FieldEmitter) :=
  let w := rs_Wire r in
  let optional k v := if String.eqb v "" && negb (HasKey w k) then emitter (fun e => e) else emitter (EmitShadowString w k v) in
  [("candidates", nested "candidates" (encodeCandidates mode (rs_Choices r)));
   ("usageMetadata", nested "usageMetadata" (encodeUsageMetadata mode (rs_Usage r)));
   ("modelVersion", optional "modelVersion" (rs_Model r));
   ("responseId", optional "responseId" (rs_ID r))].

Definition EncodeResponse (mode : Mode) (r : Response) : outcome CodecError (EncodedResponse * bool) :=
  let! (fresh, dropped) := other (EncodeOrderedObject (assoc (responseEmitters mode r)) (rs_Wire r) mode
                                    ["candidates"; "usageMetadata"; "modelVersion"; "responseId"] 0) in
  let '(body, exact) := match mode with ModePreserve => EncodeRaw fresh (Raw (rs_Wire r)) | ModeStrip => (fresh, false) end in
  Ok (mkEncodedResponse body {["content-type" := "application/json"]} dropped, exact).

End Codec.

End GeminiCodec.
