(* ===== verification/BedrockCodec.v ===== *)
(** * The Converse codec

    [src/internal/extproc/llmcall/providers/bedrock/codec.go]: how a request and a response
    body of Amazon Bedrock's Converse are read into the neutral model and written from it.
    Blocks are unions of a single member; the model and the streaming flag ride in the path, whose
    escaping is [net/url]'s.

    The conventions are those of [ChatCodec] and [MessagesCodec]. *)

From Stdlib Require Import ZArith Lia Ascii String List.
From stdpp Require Import base strings list gmap pretty.
From coqutil Require Import Datatypes.RecordSettersUsingExistingGetters.
From S2P Require Import Prelude GoStrings GoStd LlmCall Upstream JsonText LlmJson ChatCodec MessagesCodec GeminiCodec.
Import GoStrings GoStd LlmCall JsonText LlmJson.
Import ChatCodec(nul, soh, barePath, malformed, other, numberEmitter, zeroGeneration, toolVal, objectSchema).
Import MessagesCodec(joined, one, block).
Import GeminiCodec(generationNumber).

#[local] Open Scope string_scope.
#[local] Open Scope Z_scope.
#[local] Open Scope list_scope.

Module BedrockCodec.

(** ** [net/url] *)

Definition hexDigit (n : N) : ascii := ascii_of_N (if N.ltb n 10 then n + 48 else n + 55).

(** [shouldEscape] in a path segment. *)
Definition shouldEscape (c : ascii) : bool :=
  let n := N_of_ascii c in
  let between a b := N.leb a n && N.leb n b in
  negb (between 48 57 || between 65 90 || between 97 122
        || existsb (Ascii.eqb c) ["-"; "_"; "."; "~"; "$"; "&"; "+"; ":"; "="; "@"]%char)%N.

Fixpoint PathEscape (s : string) : string :=
  match s with
  | EmptyString => ""
  | String c t =>
      if shouldEscape c
      then String "%" (String (hexDigit (N_of_ascii c / 16)) (String (hexDigit (N_of_ascii c mod 16)) (PathEscape t)))
      else String c (PathEscape t)
  end.

Definition hexValue (c : ascii) : option N :=
  let n := N_of_ascii c in
  let between a b := N.leb a n && N.leb n b in
  (if between 48 57 then Some (n - 48) else if between 97 102 then Some (n - 87) else if between 65 70 then Some (n - 55) else None)%N.

(** [None] is an error. *)
Fixpoint PathUnescape (s : string) : option string :=
  match s with
  | EmptyString => Some ""
  | String c t =>
      if Ascii.eqb c "%" then
        match t with
        | String x (String y t) =>
            match hexValue x, hexValue y, PathUnescape t with
            | Some a, Some b, Some r => Some (String (ascii_of_N (a * 16 + b)) r)
            | _, _, _ => None
            end
        | _ => None
        end
      else match PathUnescape t with Some r => Some (String c r) | None => None end
  end.

(** [None] is [!ok]. *)
Definition bedrockPath (path : string) : option (string * string) :=
  let path := barePath path in
  if HasPrefix path "/model/" then
    let rest := TrimPrefix path "/model/" in
    match LastIndex rest "/" with
    | Some i =>
        if Nat.eqb i 0 || Nat.eqb i (String.length rest - 1) then None
        else
          let escaped := take_str i rest in
          Some (default escaped (PathUnescape escaped), drop_str (i + 1) rest)
    | None => None
    end
  else None.

Section Codec.
Context {J : Jsonx}.

(** ** Unions *)

(** The last member, whether it is the only one, and the error of the walk. *)
Definition peelUnionMember (v : json) : outcome string (string * json * bool) :=
  match objectOf v with
  | (ms, None) =>
      match last ms with
      | Some (k, x) => Ok (Unquote k, x, Nat.eqb (length ms) 1)
      | None => Ok ("", JNull, false)
      end
  | (_, Some e) => Err e
  end.

Definition decodeSystemBlock (el : json) : outcome string Part :=
  let! (k, v, single) := peelUnionMember el in
  if negb single || negb (String.eqb k "text") then Ok (UnknownPart el)
  else let! (s, t) := DecodeShadowString v "text" (mkText "" zeroWire) in Ok (partText (t <| tx_Text := s |>)).

Definition decodeSystem (v : json) : outcome string (list Part) :=
  let! elems := unmarshalElements v in omapM decodeSystemBlock elems.

(** ** Blocks *)

Definition callHandlers : list (string * (json -> ToolCallPart -> outcome string ToolCallPart)) :=
  [("toolUseId", fun v c => let! (s, c) := DecodeShadowString v "toolUseId" c in Ok (c <| tc_ID := s |>));
   ("name", fun v c => let! (s, c) := DecodeShadowString v "name" c in Ok (c <| tc_Name := s |>));
   ("input", fun v c => Ok (c <| tc_Arguments := print v |>))].

Record mediaBlock := mkMediaBlock { mb_Format : string; mb_Name : string; mb_Bytes : string }.

Definition setMediaBlock (f : string) (v : json) (b : mediaBlock) : outcome string mediaBlock :=
  if String.eqb f "format" then let! s := unmarshalString (mb_Format b) v in Ok (b <| mb_Format := s |>)
  else if String.eqb f "name" then let! s := unmarshalString (mb_Name b) v in Ok (b <| mb_Name := s |>)
  else let! s := unmarshalStruct ["bytes"] (fun _ v cur => unmarshalString cur v) (mb_Bytes b) v in Ok (b <| mb_Bytes := s |>).

Definition decodeMediaBlock (v : json) : outcome string mediaBlock :=
  unmarshalStruct ["format"; "name"; "source"] setMediaBlock (mkMediaBlock "" "" "") v.

Definition imageShadowVal (i : MediaPart) : string := (md_MIMEType i ++ nul ++ md_DataB64 i ++ nul ++ md_URL i)%string.
Definition fileShadowVal (f : FilePart) : string :=
  (fl_MIMEType f ++ nul ++ fl_Name f ++ nul ++ fl_DataB64 f ++ nul ++ fl_URL f)%string.

Definition documentMIMEs : list (string * string) :=
  [("pdf", "application/pdf"); ("csv", "text/csv"); ("doc", "application/msword");
   ("docx", "application/vnd.openxmlformats-officedocument.wordprocessingml.document");
   ("xls", "application/vnd.ms-excel"); ("xlsx", "application/vnd.openxmlformats-officedocument.spreadsheetml.sheet");
   ("html", "text/html"); ("txt", "text/plain"); ("md", "text/markdown")].

Definition documentMIME (format : string) : string := default "application/octet-stream" (assoc documentMIMEs format).

(** The types are distinct, so the order of the map does not matter. *)
Definition documentFormat (mime : string) : string :=
  match List.find (fun fm => String.eqb (snd fm) mime) documentMIMEs with Some (f, _) => f | None => "" end.

Definition setReasoning (f : string) (v : json) (r : ReasoningPart) : outcome string ReasoningPart :=
  if String.eqb f "text" then let! s := unmarshalString (re_Text r) v in Ok (r <| re_Text := s |>)
  else let! s := unmarshalString (re_Signature r) v in Ok (r <| re_Signature := s |>).

Definition reasoningShadowVal (r : ReasoningPart) : string := (re_Text r ++ nul ++ re_Signature r)%string.

Definition decodeImage (el v : json) : outcome string Part :=
  let! b := decodeMediaBlock v in
  if String.eqb (mb_Bytes b) "" then Ok (UnknownPart el)
  else
    let i := mkMedia ("image/" ++ mb_Format b)%string (mb_Bytes b) "" zeroWire in
    Ok (partImage (onWire (RecordShadow "image" (print v) (SVString (imageShadowVal i))) i)).

Definition decodeDocument (el v : json) : outcome string Part :=
  let! b := decodeMediaBlock v in
  if String.eqb (mb_Bytes b) "" then Ok (UnknownPart el)
  else
    let f := mkFile (documentMIME (mb_Format b)) (mb_Bytes b) "" (mb_Name b) zeroWire in
    Ok (partFile (onWire (RecordShadow "document" (print v) (SVString (fileShadowVal f))) f)).

Definition decodeReasoning (el v : json) : outcome string Part :=
  let! (k, rv, single) := peelUnionMember v in
  if negb single || negb (String.eqb k "reasoningText") then Ok (UnknownPart el)
  else
    let! r := unmarshalStruct ["text"; "signature"] setReasoning (mkReasoning "" "" zeroWire) rv in
    Ok (partReasoning (onWire (RecordShadow "reasoningContent" (print v) (SVString (reasoningShadowVal r))) r)).

Section Blocks.
(** The decoder of the contents of a result. *)
Context (decodeNested : json -> outcome string (list Part)).

Definition resultHandlers : list (string * (json -> ToolCallResponsePart -> outcome string ToolCallResponsePart)) :=
  [("toolUseId", fun v r =>
      let! (s, r) := DecodeShadowString v "toolUseId" r in Ok (mkResponsePart s (tr_Parts r) (tr_IsError r) (tr_Wire r)));
   ("status", fun v r =>
      let! s := unmarshalString "" v in Ok (mkResponsePart (tr_ToolCallID r) (tr_Parts r) (String.eqb s "error") (tr_Wire r)));
   ("content", fun v r =>
      let! parts := decodeNested v in Ok (mkResponsePart (tr_ToolCallID r) parts (tr_IsError r) (tr_Wire r)))].

Definition decodeBlock (inToolResult : bool) (el : json) : outcome string Part :=
  let! (k, v, single) := peelUnionMember el in
  if negb single then Ok (UnknownPart el)
  else if String.eqb k "text" then
    let! (s, t) := DecodeShadowString v "text" (mkText "" zeroWire) in Ok (partText (t <| tx_Text := s |>))
  else if String.eqb k "json" then
    if inToolResult then Ok (partText (onWire (SetHint "bedrock" "json") (mkText (print v) zeroWire))) else Ok (UnknownPart el)
  else if String.eqb k "toolUse" then
    let! p := DecodeKnown (assoc callHandlers) (objectOf v) (mkToolCall "" "" "" zeroWire) in Ok (partCall p)
  else if String.eqb k "toolResult" then
    let! p := DecodeKnown (assoc resultHandlers) (objectOf v) (mkResponsePart "" [] false zeroWire) in Ok (partResult p)
  else if String.eqb k "image" then decodeImage el v
  else if String.eqb k "document" then decodeDocument el v
  else if String.eqb k "reasoningContent" then decodeReasoning el v
  else Ok (UnknownPart el).

Definition decodeBlocks (inToolResult : bool) (v : json) : outcome string (list Part) :=
  let! elems := unmarshalElements v in omapM (decodeBlock inToolResult) elems.
End Blocks.

Fixpoint decodePartsN (fuel : nat) (inToolResult : bool) (v : json) : outcome string (list Part) :=
  match fuel with
  | O => decodeBlocks (fun v => Err (typeError "depth" v)) inToolResult v
  | S f => decodeBlocks (decodePartsN f true) inToolResult v
  end.

Definition decodeParts (v : json) (inToolResult : bool) : outcome string (list Part) := decodePartsN (depth v) inToolResult v.

(** ** Messages, tools and parameters *)

Definition messageHandlers : list (string * (json -> Message -> outcome string Message)) :=
  [("role", fun v m => let! s := unmarshalString "" v in Ok (m <| ms_Role := roleOf s |>));
   ("content", fun v m => let! parts := decodeParts v false in Ok (m <| ms_Parts := parts |>))].

Definition decodeMessage (v : json) (m : Message) : outcome string Message := DecodeKnown (assoc messageHandlers) (objectOf v) m.

Definition zeroMessage : Message := mkMessage (RoleOther "") [] zeroWire.

Definition decodeMessages (v : json) : outcome string (list Message) :=
  let! elems := unmarshalElements v in omapM (fun el => decodeMessage el zeroMessage) elems.

Definition inferenceHandlers : list (string * (json -> GenerationConfig -> outcome string GenerationConfig)) :=
  [("maxTokens", generationNumber (fun n g => g <| MaxTokens := n |>));
   ("temperature", generationNumber (fun n g => g <| Temperature := n |>));
   ("topP", generationNumber (fun n g => g <| TopP := n |>));
   ("stopSequences", fun v g => let! (ss, g) := DecodeShadowStringSlice v "stopSequences" g in Ok (g <| StopSequences := ss |>))].

Definition decodeInferenceConfig (v : json) (g : GenerationConfig) : outcome string GenerationConfig :=
  DecodeKnown (assoc inferenceHandlers) (objectOf v) g.

(** The schema, a union whose member is ["json"], and the shadow of the whole. *)
Definition decodeInputSchema (v : json) (t : ToolDefinition) : outcome string ToolDefinition :=
  let! schema := match v with
                 | JObj ms => Ok (lastMember "json" ms)
                 | JNull => Ok None
                 | _ => Err (typeError "map" v)
                 end in
  let t := match schema with Some jv => t <| td_Parameters := print jv |> | None => t end in
  Ok (onWire (RecordShadow "inputSchema" (print v) (SVString (td_Parameters t))) t).

Definition toolSpecHandlers : list (string * (json -> ToolDefinition -> outcome string ToolDefinition)) :=
  [("name", fun v t => let! (s, t) := DecodeShadowString v "name" t in Ok (t <| td_Name := s |>));
   ("description", fun v t => let! (s, t) := DecodeShadowString v "description" t in Ok (t <| td_Description := s |>));
   ("inputSchema", decodeInputSchema)].

Definition decodeToolSpec (v : json) : outcome string ToolDefinition :=
  DecodeKnown (assoc toolSpecHandlers) (objectOf v) (mkTool "" "" "" zeroWire).

(** [Mode] unset. *)
Definition unsetChoice : ToolChoice := mkChoice (ToolChoiceOther "") "" zeroWire.

Definition unknownChoice (v : json) : ToolChoice := onWire (withRaw (print v)) unsetChoice.

Definition choiceNameHandlers : list (string * (json -> ToolChoice -> outcome string ToolChoice)) :=
  [("name", fun v c => let! (s, c) := DecodeShadowString v "name" c in Ok (c <| ch_Name := s |>))].

Definition decodeToolChoice (v : json) : outcome string ToolChoice :=
  let! (k, x, single) := peelUnionMember v in
  if negb single then Ok (unknownChoice v)
  else if String.eqb k "auto" then Ok (mkChoice ToolChoiceAuto "" zeroWire)
  else if String.eqb k "any" then Ok (mkChoice ToolChoiceRequired "" zeroWire)
  else if String.eqb k "tool" then DecodeKnown (assoc choiceNameHandlers) (objectOf x) (mkChoice ToolChoiceNamed "" zeroWire)
  else Ok (unknownChoice v).

Definition choiceVal (tc : option ToolChoice) : string :=
  match tc with Some tc => (modeString (ch_Mode tc) ++ nul ++ ch_Name tc)%string | None => "" end.

Definition toolConfigShadowVal (tools : list ToolDefinition) (tc : option ToolChoice) : string :=
  (String.concat "" (List.map toolVal tools) ++ choiceVal tc)%string.

(** The variables of [decodeToolConfig]: the discarded wire, the tools it does not model, the request. *)
Record configuring := mkConfiguring { cf_Wire : Wire; cf_Unknown : Z; cf_Req : Request }.

#[local] Instance wire_configuring : HasWire configuring :=
  {| wireOf := cf_Wire; setWire w c := mkConfiguring w (cf_Unknown c) (cf_Req c) |}.

Definition addTool (c : configuring) (el : json) : outcome string configuring :=
  let! (k, v, single) := peelUnionMember el in
  if negb single || negb (String.eqb k "toolSpec") then Ok (c <| cf_Unknown := cf_Unknown c + 1 |>)
  else
    let! td := decodeToolSpec v in
    let r := cf_Req c in Ok (c <| cf_Req := r <| rq_Tools := rq_Tools r ++ [td] |> |>).

Fixpoint addTools (c : configuring) (elems : list json) : outcome string configuring :=
  match elems with
  | [] => Ok c
  | el :: elems => let! c := addTool c el in addTools c elems
  end.

Definition configHandlers : list (string * (json -> configuring -> outcome string configuring)) :=
  [("tools", fun v c => let! elems := unmarshalElements v in addTools c elems);
   ("toolChoice", fun v c =>
      let! tc := decodeToolChoice v in let r := cf_Req c in Ok (c <| cf_Req := r <| rq_ToolChoice := Some tc |> |>))].

Definition decodeToolConfig (v : json) (req : Request) : outcome string Request :=
  let! c := DecodeKnown (assoc configHandlers) (objectOf v) (mkConfiguring zeroWire 0 req) in
  let req := cf_Req c in
  let req := onWire (RecordShadow "toolConfig" (print v) (SVString (toolConfigShadowVal (rq_Tools req) (rq_ToolChoice req)))) req in
  let n := cf_Unknown c + Z.of_nat (length (Extras (cf_Wire c))) in
  Ok (if 0 <? n then onWire (SetHint "toolConfigUnmodeled" (pretty n)) req else req).

Definition requestHandlers : list (string * (json -> Request -> outcome string Request)) :=
  [("messages", fun v r => let! ms := decodeMessages v in Ok (r <| rq_Messages := ms |>));
   ("system", fun v r => let! parts := decodeSystem v in Ok (r <| rq_System := parts |>));
   ("inferenceConfig", fun v r => let! g := decodeInferenceConfig v (rq_Generation r) in Ok (r <| rq_Generation := g |>));
   ("toolConfig", decodeToolConfig)].

Definition DecodeRequest (inp : RequestInput) : outcome CodecError Request :=
  match bedrockPath (in_Path inp) with
  | Some (modelID, op) =>
      if String.eqb op "converse" || String.eqb op "converse-stream" then
        let w := mkWire [] [] ∅ ∅ (in_Body inp) (in_Path inp) ∅ in
        malformed "aws_bedrock" "request body"
          (DecodeKnown (assoc requestHandlers) (objectOfText (in_Body inp))
            (mkRequest "aws_bedrock" "chat" modelID [] [] [] None zeroGeneration (String.eqb op "converse-stream") w))
      else Err ErrUnsupported
  | None => Err ErrUnsupported
  end.

(** ** Encoding blocks *)

Definition wrapUnion (k inner : string) : outcome string string := Bytes (RawField k inner NewObjectEncoder).

Definition encodeMediaBlock (format name dataB64 : string) : outcome string string :=
  let e := Field "format" (GString format) NewObjectEncoder in
  let e := if String.eqb name "" then e else Field "name" (GString name) e in
  let! src := Bytes (Field "bytes" (GString dataB64) NewObjectEncoder) in
  Bytes (RawField "source" src e).

(** [json.Valid]. *)
Definition Valid (s : string) : bool := bool_decide (is_Some (parse s)).

Definition encodeText (inToolResult : bool) (t : TextPart) : outcome string string :=
  if inToolResult && String.eqb (Hint (tx_Wire t) "bedrock") "json" && Valid (tx_Text t)
  then Bytes (RawField "json" (tx_Text t) NewObjectEncoder)
  else Bytes (EmitShadowString (tx_Wire t) "text" (tx_Text t) NewObjectEncoder).

Definition callEmitters (c : ToolCallPart) : list (string * FieldEmitter) :=
  [("toolUseId", emitter (EmitShadowString (tc_Wire c) "toolUseId" (tc_ID c)));
   ("name", emitter (EmitShadowString (tc_Wire c) "name" (tc_Name c)));
   ("input", emitter (RawField "input" (if String.eqb (tc_Arguments c) "" then "{}" else tc_Arguments c)))].

(** [parts] encodes the parts of the result. *)
Definition resultEmitters (r : ToolCallResponsePart) (parts : Z -> outcome string (string * Z)) : list (string * FieldEmitter) :=
  let tw := tr_Wire r in
  [("toolUseId", emitter (EmitShadowString tw "toolUseId" (tr_ToolCallID r)));
   ("status", if negb (tr_IsError r) && negb (HasKey tw "status") then emitter (fun e => e)
              else emitter (Field "status" (GString (if tr_IsError r then "error" else "success"))));
   ("content", nested "content" parts)].

(** One element under a union member. *)
Definition wrapped (k : string) (m : outcome string (string * Z)) : outcome string (list string * Z) :=
  let! (inner, d) := m in let! b := wrapUnion k inner in Ok ([b], d).

(** The MIME type and the data of a medium, a data URL unpacked; [None] when there is no data to send. *)
Definition inlineOf (mime data url : string) : option (string * string) :=
  if String.eqb data "" then
    if String.eqb url "" then None
    else match SplitDataURL url with
         | (m, d, true) => if String.eqb d "" then None else Some (m, d)
         | _ => None
         end
  else Some (mime, data).

Definition encodeImage (i : MediaPart) (dropped : Z) : outcome string (list string * Z) :=
  match ShadowRaw (md_Wire i) "image" (SVString (imageShadowVal i)) with
  | Some raw => wrapped "image" (Ok (raw, dropped))
  | None =>
      match inlineOf (md_MIMEType i) (md_DataB64 i) (md_URL i) with
      | None => Ok ([], dropped + 1)
      | Some (mime, data) => wrapped "image" (let! b := encodeMediaBlock (TrimPrefix mime "image/") "" data in Ok (b, dropped))
      end
  end.

Definition encodeDocument (f : FilePart) (dropped : Z) : outcome string (list string * Z) :=
  match ShadowRaw (fl_Wire f) "document" (SVString (fileShadowVal f)) with
  | Some raw => wrapped "document" (Ok (raw, dropped))
  | None =>
      match inlineOf (fl_MIMEType f) (fl_DataB64 f) (fl_URL f) with
      | None => Ok ([], dropped + 1)
      | Some (mime, data) =>
          if String.eqb (documentFormat mime) "" then Ok ([], dropped + 1)
          else
            let name := if String.eqb (fl_Name f) "" then "document" else fl_Name f in
            wrapped "document" (let! b := encodeMediaBlock (documentFormat mime) name data in Ok (b, dropped))
      end
  end.

Definition encodeReasoning (r : ReasoningPart) (dropped : Z) : outcome string (list string * Z) :=
  match ShadowRaw (re_Wire r) "reasoningContent" (SVString (reasoningShadowVal r)) with
  | Some raw => wrapped "reasoningContent" (Ok (raw, dropped))
  | None =>
      let e := Field "text" (GString (re_Text r)) NewObjectEncoder in
      let! rb := Bytes (if String.eqb (re_Signature r) "" then e else Field "signature" (GString (re_Signature r)) e) in
      let! inner := wrapUnion "reasoningText" rb in
      wrapped "reasoningContent" (Ok (inner, dropped))
  end.

Definition present {A} (x : option A) (enc : A -> outcome string (list string * Z)) : outcome string (list string * Z) :=
  match x with Some a => enc a | None => Panic end.

Fixpoint encodeBlock (mode : Mode) (inToolResult : bool) (p : Part) (dropped : Z) : outcome string (list string * Z) :=
  match pt_Type p with
  | PartTypeText => block (pt_Text p) (fun t => let! b := encodeText inToolResult t in Ok (b, dropped))
  | PartTypeToolCall =>
      present (pt_ToolCall p) (fun c =>
        wrapped "toolUse" (EncodeOrderedObject (assoc (callEmitters c)) (tc_Wire c) mode ["toolUseId"; "name"; "input"] dropped))
  | PartTypeToolCallResponse =>
      match pt_ToolCallResponse p with
      | None => Panic
      | Some r =>
          wrapped "toolResult"
            (EncodeOrderedObject (assoc (resultEmitters r (fun d => joined (encodeAll (encodeBlock mode true) (tr_Parts r) d)))) (tr_Wire r) mode
               ["toolUseId"; "content"; "status"] dropped)
      end
  | PartTypeImage => present (pt_Image p) (fun i => encodeImage i dropped)
  | PartTypeFile => present (pt_File p) (fun f => encodeDocument f dropped)
  | PartTypeReasoning => present (pt_Reasoning p) (fun r => encodeReasoning r dropped)
  | PartTypeUnknown =>
      match mode with
      | ModePreserve => if String.eqb (Raw (pt_Wire p)) "" then Ok ([], dropped + 1) else Ok ([Raw (pt_Wire p)], dropped)
      | ModeStrip => Ok ([], dropped + 1)
      end
  | _ => Ok ([], dropped + 1)
  end.

Definition encodeParts (mode : Mode) (parts : list Part) (inToolResult : bool) (dropped : Z) : outcome string (string * Z) :=
  joined (encodeAll (encodeBlock mode inToolResult) parts dropped).

Definition encodeSystemBlock (mode : Mode) (p : Part) (dropped : Z) : outcome string (list string * Z) :=
  match pt_Type p with
  | PartTypeText => block (pt_Text p) (fun t => let! b := Bytes (EmitShadowString (tx_Wire t) "text" (tx_Text t) NewObjectEncoder) in Ok (b, dropped))
  | PartTypeUnknown =>
      match mode with
      | ModePreserve => if String.eqb (Raw (pt_Wire p)) "" then Ok ([], dropped + 1) else Ok ([Raw (pt_Wire p)], dropped)
      | ModeStrip => Ok ([], dropped + 1)
      end
  | _ => Ok ([], dropped + 1)
  end.

Definition encodeSystem (mode : Mode) (parts : list Part) (dropped : Z) : outcome string (string * Z) :=
  joined (encodeAll (encodeSystemBlock mode) parts dropped).

(** ** Encoding a request *)

Definition messageEmitters (mode : Mode) (m : Message) : list (string * FieldEmitter) :=
  let role := match ms_Role m with RoleTool => "user" | r => if String.eqb (roleString r) "" then "user" else roleString r end in
  [("role", emitter (Field "role" (GString role)));
   ("content", nested "content" (encodeParts mode (ms_Parts m) false))].

Definition encodeMessage (mode : Mode) (m : Message) (dropped : Z) : outcome string (string * Z) :=
  EncodeOrderedObject (assoc (messageEmitters mode m)) (ms_Wire m) mode ["role"; "content"] dropped.

Definition encodeMessages (mode : Mode) (ms : list Message) (dropped : Z) : outcome string (string * Z) :=
  joined (encodeAll (fun m d => one (encodeMessage mode m d)) ms dropped).

Definition toolSpecEmitters (t : ToolDefinition) : list (string * FieldEmitter) :=
  let tw := td_Wire t in
  [("name", emitter (EmitShadowString tw "name" (td_Name t)));
   ("description", if String.eqb (td_Description t) "" && negb (HasKey tw "description") then emitter (fun e => e)
                   else emitter (EmitShadowString tw "description" (td_Description t)));
   ("inputSchema",
      match ShadowRaw tw "inputSchema" (SVString (td_Parameters t)) with
      | Some raw => emitter (RawField "inputSchema" raw)
      | None => nested "inputSchema" (fun d =>
          let! raw := wrapUnion "json" (if String.eqb (td_Parameters t) "" then objectSchema else td_Parameters t) in Ok (raw, d))
      end)].

Definition encodeToolSpec (mode : Mode) (t : ToolDefinition) (dropped : Z) : outcome string (list string * Z) :=
  wrapped "toolSpec" (EncodeOrderedObject (assoc (toolSpecEmitters t)) (td_Wire t) mode ["name"; "description"; "inputSchema"] dropped).

(** [None] when nothing is sent. *)
Definition encodeToolChoice (mode : Mode) (tc : ToolChoice) (dropped : Z) : outcome string (option string * Z) :=
  match ch_Mode tc with
  | ToolChoiceAuto => let! b := wrapUnion "auto" "{}" in Ok (Some b, dropped)
  | ToolChoiceRequired => let! b := wrapUnion "any" "{}" in Ok (Some b, dropped)
  | ToolChoiceNamed =>
      let! (inner, d) := EncodeOrderedObject (assoc [("name", emitter (EmitShadowString (ch_Wire tc) "name" (ch_Name tc)))]) (ch_Wire tc) mode
                           ["name"] dropped in
      let! b := wrapUnion "tool" inner in Ok (Some b, d)
  | ToolChoiceNone => Ok (None, dropped + 1)
  | ToolChoiceOther _ =>
      match mode with
      | ModePreserve => if String.eqb (Raw (ch_Wire tc)) "" then Ok (None, dropped + 1) else Ok (Some (Raw (ch_Wire tc)), dropped)
      | ModeStrip => Ok (None, dropped + 1)
      end
  end.

Definition encodeToolConfig (mode : Mode) (req : Request) (dropped : Z) : outcome string (string * Z) :=
  let! (e, dropped) := match rq_Tools req with
                       | [] => Ok (NewObjectEncoder, dropped)
                       | tools => let! (raw, d) := joined (encodeAll (encodeToolSpec mode) tools dropped) in
                                  Ok (RawField "tools" raw NewObjectEncoder, d)
                       end in
  let! (e, dropped) := match rq_ToolChoice req with
                       | None => Ok (e, dropped)
                       | Some tc => let! (raw, d) := encodeToolChoice mode tc dropped in
                                    Ok (match raw with Some raw => RawField "toolChoice" raw e | None => e end, d)
                       end in
  let! b := Bytes e in Ok (b, dropped).

(** The count that rode in the hint, added after the nested encoding. *)
Definition unmodeled (mode : Mode) (w : Wire) : Z :=
  match mode with ModeStrip => Upstream.Atoi (Hint w "toolConfigUnmodeled") | ModePreserve => 0 end.

Definition toolConfigEmitter (mode : Mode) (req : Request) : FieldEmitter :=
  let w := rq_Wire req in
  let fresh :=
    match rq_Tools req, rq_ToolChoice req with
    | [], None => emitter (fun e => e)
    | _, _ => nested "toolConfig" (fun d => let! (raw, d) := encodeToolConfig mode req d in Ok (raw, d + unmodeled mode w))
    end in
  match mode, ShadowRaw w "toolConfig" (SVString (toolConfigShadowVal (rq_Tools req) (rq_ToolChoice req))) with
  | ModePreserve, Some raw => emitter (RawField "toolConfig" raw)
  | _, _ => fresh
  end.

Definition inferenceEmitters (g : GenerationConfig) : list (string * FieldEmitter) :=
  [("maxTokens", numberEmitter "maxTokens" (MaxTokens g));
   ("temperature", numberEmitter "temperature" (Temperature g));
   ("topP", numberEmitter "topP" (TopP g));
   ("stopSequences",
      if bool_decide (StopSequences g = []) && negb (HasKey (ge_Wire g) "stopSequences") then emitter (fun e => e)
      else match ShadowRaw (ge_Wire g) "stopSequences" (SVString (StringSliceShadowVal (StopSequences g))) with
           | Some raw => emitter (RawField "stopSequences" raw)
           | None => emitter (Field "stopSequences" (GStrings (StopSequences g)))
           end)].

Definition encodeInferenceConfig (mode : Mode) (g : GenerationConfig) (dropped : Z) : outcome string (string * Z) :=
  EncodeOrderedObject (assoc (inferenceEmitters g)) (ge_Wire g) mode ["maxTokens"; "temperature"; "topP"; "stopSequences"] dropped.

Definition hasValues (g : GenerationConfig) : bool :=
  negb (String.eqb (MaxTokens g) "") || negb (String.eqb (Temperature g) "") || negb (String.eqb (TopP g) "")
  || negb (bool_decide (StopSequences g = [])).

Definition requestEmitters (mode : Mode) (req : Request) : list (string * FieldEmitter) :=
  let w := rq_Wire req in
  [("messages", nested "messages" (encodeMessages mode (rq_Messages req)));
   ("system", if bool_decide (rq_System req = []) && negb (HasKey w "system") then emitter (fun e => e)
              else nested "system" (encodeSystem mode (rq_System req)));
   ("toolConfig", toolConfigEmitter mode req);
   ("inferenceConfig", if negb (hasValues (rq_Generation req)) && negb (HasKey w "inferenceConfig") then emitter (fun e => e)
                       else nested "inferenceConfig" (encodeInferenceConfig mode (rq_Generation req)))].

Definition modelPath (req : Request) : string :=
  ("/model/" ++ PathEscape (rq_Model req) ++ "/" ++ (if rq_Stream req then "converse-stream" else "converse"))%string.

Definition EncodeRequest (mode : Mode) (req : Request) : outcome CodecError (EncodedRequest * bool) :=
  let w := rq_Wire req in
  let topK := match mode with ModeStrip => if String.eqb (TopK (rq_Generation req)) "" then 0 else 1 | ModePreserve => 0 end in
  let! (fresh, dropped) := other (EncodeOrderedObject (assoc (requestEmitters mode req)) w mode ["messages"; "system"; "toolConfig"; "inferenceConfig"] topK) in
  let '(body, exact) := match mode with ModePreserve => EncodeRaw fresh (Raw w) | ModeStrip => (fresh, false) end in
  let path := match mode with
              | ModePreserve => if String.eqb (wi_Path w) "" then modelPath req else wi_Path w
              | ModeStrip => modelPath req
              end in
  Ok (mkEncodedRequest body path {["content-type" := "application/json"]} [] dropped, exact).

(** ** Responses *)

Definition canonicalFinish (s : string) : FinishReason :=
  if String.eqb s "end_turn" || String.eqb s "stop_sequence" then FinishReasonStop
  else if String.eqb s "max_tokens" then FinishReasonLength
  else if String.eqb s "tool_use" then FinishReasonToolCalls
  else if String.eqb s "guardrail_intervened" || String.eqb s "content_filtered" then FinishReasonContentFilter
  else FinishReasonUnset.

Definition bedrockFinish (c : Choice) : string :=
  if String.eqb (co_FinishReasonRaw c) "" then
    match co_FinishReason c with
    | FinishReasonLength => "max_tokens"
    | FinishReasonToolCalls => "tool_use"
    | FinishReasonContentFilter => "content_filtered"
    | _ => "end_turn"
    end
  else co_FinishReasonRaw c.

Definition usageHandlers : list (string * (json -> Usage -> outcome string Usage)) :=
  [("inputTokens", fun v u => let! (n, u) := DecodeShadowInt64 v "inputTokens" u in Ok (u <| InputTokens := n |>));
   ("outputTokens", fun v u => let! (n, u) := DecodeShadowInt64 v "outputTokens" u in Ok (u <| OutputTokens := n |>));
   ("totalTokens", fun v u => Ok (onWire (RecordShadow "totalTokens" (print v) (SVString "")) u))].

Definition decodeUsage (v : json) (u : Usage) : outcome string Usage := DecodeKnown (assoc usageHandlers) (objectOf v) u.

(** The variables of [DecodeResponse]. *)
Record decoding := mkDecoding { dr_Resp : Response; dr_Choice : Choice }.

#[local] Instance wire_decoding : HasWire decoding :=
  {| wireOf d := rs_Wire (dr_Resp d); setWire w d := mkDecoding (setWire w (dr_Resp d)) (dr_Choice d) |}.

Definition outputHandlers : list (string * (json -> Choice -> outcome string Choice)) :=
  [("message", fun v c => let! m := decodeMessage v (co_Message c) in Ok (c <| co_Message := m |>))].

Definition responseHandlers : list (string * (json -> decoding -> outcome string decoding)) :=
  [("output", fun v d => let! c := DecodeKnown (assoc outputHandlers) (objectOf v) (dr_Choice d) in Ok (d <| dr_Choice := c |>));
   ("stopReason", fun v d =>
      let! s := unmarshalString "" v in
      let c := dr_Choice d in Ok (d <| dr_Choice := c <| co_FinishReasonRaw := s |> <| co_FinishReason := canonicalFinish s |> |>));
   ("usage", fun v d =>
      let r := dr_Resp d in let! u := decodeUsage v (rs_Usage r) in Ok (d <| dr_Resp := r <| rs_Usage := u |> |>))].

(** The model is not in the response; a nil request is [None]. *)
Definition DecodeResponse (status : Z) (headers : gmap string string) (body : string) (req : option Request) : outcome CodecError Response :=
  if negb (status =? 0) && negb (status =? 200) then Err ErrUnsupported
  else if HasContentTypePrefix headers "application/vnd.amazon.eventstream" then Err ErrUnsupported
  else
    let model := match req with Some r => rq_Model r | None => "" end in
    let! d := malformed "aws_bedrock" "response body"
      (DecodeKnown (assoc responseHandlers) (objectOfText body)
        (mkDecoding (mkResponse "aws_bedrock" "" model [] (mkUsage 0 0 zeroWire) (withRaw body zeroWire))
           (mkCompletion (mkMessage RoleAssistant [] zeroWire) FinishReasonUnset "" zeroWire))) in
    Ok ((dr_Resp d) <| rs_Choices := [dr_Choice d] |>).

Definition usageEmitters (u : Usage) : list (string * FieldEmitter) :=
  let uw := us_Wire u in
  [("inputTokens", emitter (EmitShadowInt64 uw "inputTokens" (InputTokens u)));
   ("outputTokens", emitter (EmitShadowInt64 uw "outputTokens" (OutputTokens u)));
   ("totalTokens",
      match ShadowRaw uw "totalTokens" (SVString "") with
      | Some raw => emitter (RawField "totalTokens" raw)
      | None => emitter (Field "totalTokens" (GInt (int64 (InputTokens u + OutputTokens u))))
      end)].

Definition encodeUsage (mode : Mode) (u : Usage) (dropped : Z) : outcome string (string * Z) :=
  EncodeOrderedObject (assoc (usageEmitters u)) (us_Wire u) mode ["inputTokens"; "outputTokens"; "totalTokens"] dropped.

Definition zeroChoice : Choice := mkCompletion zeroMessage FinishReasonUnset "" zeroWire.

Definition encodeOutput (mode : Mode) (c : Choice) (dropped : Z) : outcome string (string * Z) :=
  EncodeOrderedObject (assoc [("message", nested "message" (encodeMessage mode (co_Message c)))]) (co_Wire c) mode ["message"] dropped.

Definition responseEmitters (mode : Mode) (r : Response) : list (string * FieldEmitter) :=
  let choice := default zeroChoice (head (rs_Choices r)) in
  [("output", nested "output" (encodeOutput mode choice));
   ("stopReason", emitter (Field "stopReason" (GString (bedrockFinish choice))));
   ("usage", nested "usage" (encodeUsage mode (rs_Usage r)))].

Definition EncodeResponse (mode : Mode) (r : Response) : outcome CodecError (EncodedResponse * bool) :=
  let! (fresh, dropped) := other (EncodeOrderedObject (assoc (responseEmitters mode r)) (rs_Wire r) mode ["output"; "stopReason"; "usage"] 0) in
  let '(body, exact) := match mode with ModePreserve => EncodeRaw fresh (Raw (rs_Wire r)) | ModeStrip => (fresh, false) end in
  Ok (mkEncodedResponse body {["content-type" := "application/json"]} dropped, exact).

End Codec.

(** ** The model in the path *)

Lemma hexValue_digit n : (n < 16)%N -> hexValue (hexDigit n) = Some n.
Proof.
  intros H. assert (In n (List.map N.of_nat (seq 0 16))) as Hn.
  { apply in_map_iff. exists (N.to_nat n). split; [lia|]. apply in_seq. lia. }
  cbn in Hn. by repeat destruct Hn as [<-|Hn].
Qed.

Lemma escaped_byte c : hexValue (hexDigit (N_of_ascii c / 16)) = Some (N_of_ascii c / 16)%N
  /\ hexValue (hexDigit (N_of_ascii c mod 16)) = Some (N_of_ascii c mod 16)%N
  /\ ascii_of_N (N_of_ascii c / 16 * 16 + N_of_ascii c mod 16) = c.
Proof.
  pose proof (N_ascii_bounded c) as Hc. split; [|split].
  - apply hexValue_digit, N.Div0.div_lt_upper_bound. lia.
  - apply hexValue_digit. by apply N.mod_lt.
  - replace (N_of_ascii c / 16 * 16 + N_of_ascii c mod 16)%N with (N_of_ascii c) by (pose proof (N.div_mod' (N_of_ascii c) 16); lia).
    apply ascii_N_embedding.
Qed.

Lemma PathUnescape_escape s : PathUnescape (PathEscape s) = Some s.
Proof.
  induction s as [|c s IH]; [done|]. cbn [PathEscape]. destruct (shouldEscape c) eqn:E.
  - destruct (escaped_byte c) as (H1 & H2 & H3). cbn [PathUnescape]. rewrite Ascii.eqb_refl, H1, H2, IH, H3. done.
  - cbn [PathUnescape]. destruct (Ascii.eqb_spec c "%") as [->|]; [done|]. by rewrite IH.
Qed.

(** The bytes that delimit a path do not occur in an escaped segment. *)
Definition delimits (c : ascii) : bool := existsb (Ascii.eqb c) ["/"; "?"; "#"]%char.

Fixpoint undelimited (s : string) : bool :=
  match s with EmptyString => true | String c t => negb (delimits c) && undelimited t end.

Lemma hexDigit_undelimited n : (n < 16)%N -> delimits (hexDigit n) = false.
Proof.
  intros H. assert (In n (List.map N.of_nat (seq 0 16))) as Hn.
  { apply in_map_iff. exists (N.to_nat n). split; [lia|]. apply in_seq. lia. }
  cbn in Hn. by repeat destruct Hn as [<-|Hn].
Qed.

Lemma delimits_escaped c : delimits c = true -> shouldEscape c = true.
Proof. unfold delimits. cbn. rewrite !orb_true_iff, !Ascii.eqb_eq. by intros [->|[->|[->|]]]. Qed.

Lemma PathEscape_undelimited s : undelimited (PathEscape s) = true.
Proof.
  induction s as [|c s IH]; [done|]. cbn [PathEscape]. destruct (shouldEscape c) eqn:E; cbn [undelimited].
  - pose proof (N_ascii_bounded c). rewrite !hexDigit_undelimited, IH; [done|by apply N.mod_lt|apply N.Div0.div_lt_upper_bound; lia].
  - rewrite IH. destruct (delimits c) eqn:Ed; [|done]. apply delimits_escaped in Ed. by rewrite Ed in E.
Qed.

Lemma barePath_undelimited s t : undelimited s = true -> barePath (s ++ t)%string = (s ++ barePath t)%string.
Proof.
  induction s as [|c s IH]; [done|]. cbn [undelimited]. intros [H1 H2]%andb_true_iff. rewrite !str_cons_app. cbn [barePath].
  apply negb_true_iff in H1. unfold delimits in H1. cbn in H1. apply orb_false_iff in H1 as [_ H1].
  apply orb_false_iff in H1 as [Hq [Hh _]%orb_false_iff]. by rewrite Hq, Hh, IH.
Qed.

Lemma PathEscape_nonempty s : s <> "" -> String.length (PathEscape s) <> 0%nat.
Proof. destruct s as [|c s]; [done|]. intros _. cbn. by destruct (shouldEscape c). Qed.

(** The path that is written names the model and the operation, whatever the model is
    called. *)
Theorem modelPath_read (r : Request) : rq_Model r <> "" ->
  bedrockPath (modelPath r) = Some (rq_Model r, if rq_Stream r then "converse-stream" else "converse").
Proof.
  intros Hm. unfold bedrockPath, modelPath. set (op := if rq_Stream r then "converse-stream" else "converse").
  assert (barePath ("/model/" ++ PathEscape (rq_Model r) ++ "/" ++ op) = "/model/" ++ PathEscape (rq_Model r) ++ "/" ++ op)%string as ->.
  { change ("/model/" ++ PathEscape (rq_Model r) ++ "/" ++ op)%string
      with (String "/" (String "m" (String "o" (String "d" (String "e" (String "l" (String "/" (PathEscape (rq_Model r) ++ "/" ++ op)%string))))))).
    cbn [barePath Ascii.eqb Bool.eqb orb]. rewrite barePath_undelimited by apply PathEscape_undelimited. by subst op; destruct (rq_Stream r). }
  assert (HasPrefix ("/model/" ++ PathEscape (rq_Model r) ++ "/" ++ op)%string "/model/" = true) as Hp by (apply HasPrefix_spec; by eexists). rewrite Hp.
  unfold TrimPrefix. rewrite Hp, (drop_str_app "/model/").
  assert (LastIndex (PathEscape (rq_Model r) ++ String "/" op) "/" = Some (String.length (PathEscape (rq_Model r)))) as Hi.
  { apply LastIndex_char. exists (PathEscape (rq_Model r)), op. split; [done|]. split; [done|]. by subst op; destruct (rq_Stream r). }
  change ("/" ++ op)%string with (String "/" op). rewrite Hi.
  pose proof (PathEscape_nonempty _ Hm) as Hn. destruct (Nat.eqb_spec (String.length (PathEscape (rq_Model r))) 0); [done|].
  rewrite str_length_app. destruct (Nat.eqb_spec (String.length (PathEscape (rq_Model r)))
    (String.length (PathEscape (rq_Model r)) + String.length (String "/" op) - 1)) as [He|_].
  { exfalso. subst op. destruct (rq_Stream r); cbn [String.length] in He; lia. }
  cbn [orb]. rewrite take_str_app, PathUnescape_escape. cbn [default]. do 2 f_equal.
  replace (PathEscape (rq_Model r) ++ String "/" op)%string with ((PathEscape (rq_Model r) ++ "/") ++ op)%string by (by rewrite str_app_assoc).
  replace (String.length (PathEscape (rq_Model r)) + 1)%nat with (String.length (PathEscape (rq_Model r) ++ "/")%string) by (by rewrite str_length_app).
  by rewrite drop_str_app.
Qed.

End BedrockCodec.
