(* ===== verification/MessagesRoundtrip.v ===== *)
(** * What an Anthropic backend reads

    The request that [MessagesCodec.EncodeRequest] writes in strip mode is read by the
    decoder of the same schema as the request that was encoded, up to the explicit
    normal form of the schema ([messagesForm]): the parts it has no block for are
    gone and counted, tool results ride in user messages, a call without arguments
    has an empty object, a data URL is unpacked, and [max_tokens] has a default. *)

From Stdlib Require Import ZArith Lia Ascii String List.
From stdpp Require Import base strings list gmap pretty.
From coqutil Require Import Datatypes.RecordSettersUsingExistingGetters.
From S2P Require Import Prelude GoStrings GoStd LlmCall JsonText LlmJson ChatCodec MessagesCodec.
Import GoStrings GoStd LlmCall JsonText LlmJson.

#[local] Open Scope string_scope.
#[local] Open Scope Z_scope.
#[local] Open Scope list_scope.

(** ** Requests that can be written *)

Module CleanRequest.

Section Clean.
Context {J : Jsonx}.

(** Compacted JSON, or nothing. *)
Definition compacted (s : string) : Prop := s = "" \/ Compact s = Some s.

(** A number literal, or nothing. *)
Definition numeral (s : string) : Prop := s = "" \/ isNumber s.

(** Parts with no bookkeeping, the one variant their type names, and valid strings. *)
Fixpoint cleanPart (p : Part) : Prop :=
  match pt_Type p with
  | PartTypeText => exists s, p = textPart s /\ validUTF8 s
  | PartTypeImage => exists m d u, p = partImage (mkMedia m d u zeroWire) /\ validUTF8 m /\ validUTF8 d /\ validUTF8 u
  | PartTypeToolCall =>
      exists id name args, p = partCall (mkToolCall id name args zeroWire) /\ validUTF8 id /\ validUTF8 name /\ compacted args
  | PartTypeToolCallResponse =>
      match pt_ToolCallResponse p with
      | Some r => p = partResult (mkResponsePart (tr_ToolCallID r) (tr_Parts r) (tr_IsError r) zeroWire)
                  /\ validUTF8 (tr_ToolCallID r) /\ allOf cleanPart (tr_Parts r)
      | None => False
      end
  | PartTypeReasoning => exists t s, p = partReasoning (mkReasoning t s zeroWire) /\ validUTF8 t /\ validUTF8 s
  | _ => True
  end.

Definition cleanMessage (m : Message) : Prop :=
  Forall cleanPart (ms_Parts m) /\ ms_Wire m = zeroWire /\ validUTF8 (roleString (ms_Role m)) /\ roleOf (roleString (ms_Role m)) = ms_Role m.

Definition cleanTool (t : ToolDefinition) : Prop :=
  td_Wire t = zeroWire /\ validUTF8 (td_Name t) /\ validUTF8 (td_Description t) /\ compacted (td_Parameters t).

Definition cleanChoice (c : ToolChoice) : Prop := ch_Wire c = zeroWire /\ validUTF8 (modeString (ch_Mode c)) /\ validUTF8 (ch_Name c).

Record cleanRequest (r : Request) : Prop := {
  clean_model : validUTF8 (rq_Model r);
  clean_system : Forall cleanPart (rq_System r);
  clean_messages : Forall cleanMessage (rq_Messages r);
  clean_tools : Forall cleanTool (rq_Tools r);
  clean_choice : match rq_ToolChoice r with Some c => cleanChoice c | None => True end;
  clean_maxTokens : numeral (MaxTokens (rq_Generation r));
  clean_temperature : numeral (Temperature (rq_Generation r));
  clean_topP : numeral (TopP (rq_Generation r));
  clean_topK : numeral (TopK (rq_Generation r));
  clean_stops : Forall validUTF8 (StopSequences (rq_Generation r));
  clean_generation : ge_Wire (rq_Generation r) = zeroWire;
  clean_wire : rq_Wire r = zeroWire;
}.

(** The value a compacted text stands for. *)
Definition treeOf (s : string) : json := default JNull (parse s).

Lemma compacted_tree s : s <> "" -> compacted s -> print (treeOf s) = s /\ wf (treeOf s) /\ parse s = Some (treeOf s).
Proof.
  intros Hne [?|H]; [done|]. apply Compact_parse in H as (v & Hv & Hp & _). unfold treeOf. rewrite Hv. cbn. split; [done|].
  split; [|done]. by apply parse_good in Hv as [? _].
Qed.

Lemma numeral_field k s : s <> "" -> numeral s -> emits (emitter (Field k (GNumber s))) [(k, JNum s)] 0.
Proof.
  intros Hne [?|H]; [done|]. apply emits_field. cbn. destruct (String.eqb_spec s ""); [done|]. by rewrite H.
Qed.

End Clean.
End CleanRequest.
Import CleanRequest.

Module MessagesRoundtrip.

Section Roundtrip.
Context {J : Jsonx} {JL : JsonxLaws}.

(** ** The tree that is written *)

Definition argsTree (a : string) : json := if String.eqb a "" then JObj [] else treeOf a.
Definition schemaTree (a : string) : json := if String.eqb a "" then treeOf ChatCodec.objectSchema else treeOf a.

Definition base64Tree (mime data : string) : json :=
  obj [("type", str "base64"); ("media_type", str mime); ("data", str data)].

Definition sourceTree (i : MediaPart) : json :=
  if String.eqb (md_URL i) "" then base64Tree (md_MIMEType i) (md_DataB64 i)
  else match SplitDataURL (md_URL i) with
       | (mime, data, true) => base64Tree mime data
       | _ => obj [("type", str "url"); ("url", str (md_URL i))]
       end.

Fixpoint blockTree (p : Part) : list json :=
  match pt_Type p with
  | PartTypeText =>
      match pt_Text p with Some t => [obj [("type", str "text"); ("text", str (tx_Text t))]] | None => [] end
  | PartTypeToolCall =>
      match pt_ToolCall p with
      | Some c => [obj [("type", str "tool_use"); ("id", str (tc_ID c)); ("name", str (tc_Name c)); ("input", argsTree (tc_Arguments c))]]
      | None => []
      end
  | PartTypeToolCallResponse =>
      match pt_ToolCallResponse p with
      | Some r =>
          [obj ([("type", str "tool_result"); ("tool_use_id", str (tr_ToolCallID r))]
                ++ unless (bool_decide (tr_Parts r = [])) ("content", JArr (flat_map blockTree (tr_Parts r)))
                ++ unless (negb (tr_IsError r)) ("is_error", JBool true))]
      | None => []
      end
  | PartTypeReasoning =>
      match pt_Reasoning p with
      | Some r => [obj ([("type", str "thinking"); ("thinking", str (re_Text r))]
                        ++ unless (String.eqb (re_Signature r) "") ("signature", str (re_Signature r)))]
      | None => []
      end
  | PartTypeImage =>
      match pt_Image p with Some i => [obj [("type", str "image"); ("source", sourceTree i)]] | None => [] end
  | _ => []
  end.

(** The parts that have no block. *)
Fixpoint blockDrops (p : Part) : Z :=
  match pt_Type p with
  | PartTypeText | PartTypeToolCall | PartTypeReasoning | PartTypeImage => 0
  | PartTypeToolCallResponse =>
      match pt_ToolCallResponse p with
      | Some r => sumZ (List.map blockDrops (tr_Parts r))
      | None => 0
      end
  | _ => 1
  end.

(** ** What is read of it *)

Definition imageForm (i : MediaPart) : MediaPart :=
  if String.eqb (md_URL i) "" then i
  else match SplitDataURL (md_URL i) with
       | (mime, data, true) => mkMedia mime data "" zeroWire
       | _ => mkMedia "" "" (md_URL i) zeroWire
       end.

Definition argsForm (a : string) : string := if String.eqb a "" then "{}" else a.

Fixpoint partForm (p : Part) : list Part :=
  match pt_Type p with
  | PartTypeText | PartTypeReasoning => [p]
  | PartTypeToolCall =>
      match pt_ToolCall p with Some c => [partCall (mkToolCall (tc_ID c) (tc_Name c) (argsForm (tc_Arguments c)) zeroWire)] | None => [] end
  | PartTypeToolCallResponse =>
      match pt_ToolCallResponse p with
      | Some r => [partResult (mkResponsePart (tr_ToolCallID r) (flat_map partForm (tr_Parts r)) (tr_IsError r) zeroWire)]
      | None => []
      end
  | PartTypeImage => match pt_Image p with Some i => [partImage (imageForm i)] | None => [] end
  | _ => []
  end.

Definition roleForm (r : Role) : Role := match r with RoleTool => RoleUser | r => r end.

Definition messageForm (m : Message) : Message := mkMessage (roleForm (ms_Role m)) (flat_map partForm (ms_Parts m)) zeroWire.

Definition toolForm (t : ToolDefinition) : ToolDefinition :=
  mkTool (td_Name t) (td_Description t) (if String.eqb (td_Parameters t) "" then ChatCodec.objectSchema else td_Parameters t) zeroWire.

Definition choiceForm (c : ToolChoice) : ToolChoice :=
  mkChoice (match ch_Mode c with ToolChoiceOther s => MessagesCodec.choiceMode s | m => m end) (ch_Name c) zeroWire.

Definition messagesForm (r : Request) : Request :=
  let g := rq_Generation r in
  mkRequest "anthropic" "chat" (rq_Model r) (flat_map partForm (rq_System r)) (List.map messageForm (rq_Messages r))
    (List.map toolForm (rq_Tools r)) (choiceForm <$> rq_ToolChoice r)
    (mkGeneration (if String.eqb (MaxTokens g) "" then MessagesCodec.defaultMaxTokens else MaxTokens g)
       (Temperature g) (TopP g) (TopK g) (StopSequences g) zeroWire)
    (rq_Stream r) zeroWire.

(** ** Writing *)

Lemma base64_encodes mime data : MessagesCodec.base64Source mime data = Ok (print (base64Tree mime data)).
Proof. exact (Bytes_addFields [("type", str "base64"); ("media_type", str mime); ("data", str data)]). Qed.

Lemma source_encodes i : md_Wire i = zeroWire -> MessagesCodec.encodeImageSource i = Ok (print (sourceTree i)).
Proof.
  intros _. unfold MessagesCodec.encodeImageSource, sourceTree. destruct (String.eqb _ _); [apply base64_encodes|].
  destruct (SplitDataURL _) as [[mime data] []]; [apply base64_encodes|].
  exact (Bytes_addFields [("type", str "url"); ("url", str (md_URL i))]).
Qed.

Lemma text_encodes s d :
  EncodeOrderedObject (assoc (MessagesCodec.textEmitters (mkText s zeroWire))) zeroWire ModeStrip ["type"; "text"] d
  = Ok (print (obj [("type", str "text"); ("text", str s)]), d).
Proof. encode_object [([("type", str "text")], 0); ([("text", str s)], 0)]. unfold dropsOf. cbn. by rewrite !Z.add_0_r. Qed.

Lemma argsTree_print a : compacted a -> print (argsTree a) = argsForm a.
Proof.
  intros Ha. unfold argsTree, argsForm. destruct (String.eqb_spec a ""); [done|]. by apply compacted_tree.
Qed.

Lemma call_encodes id name args d : compacted args ->
  EncodeOrderedObject (assoc (MessagesCodec.callEmitters (mkToolCall id name args zeroWire))) zeroWire ModeStrip ["type"; "id"; "name"; "input"] d
  = Ok (print (obj [("type", str "tool_use"); ("id", str id); ("name", str name); ("input", argsTree args)]), d).
Proof.
  intros Ha. encode_object [([("type", str "tool_use")], 0); ([("id", str id)], 0); ([("name", str name)], 0); ([("input", argsTree args)], 0)].
  - unfold dropsOf. cbn. by rewrite !Z.add_0_r.
  - cbn [tc_Arguments]. fold (argsForm args). rewrite <- (argsTree_print args Ha). auto with emits.
Qed.

Lemma reasoning_encodes t s d :
  EncodeOrderedObject (assoc (MessagesCodec.reasoningEmitters (mkReasoning t s zeroWire))) zeroWire ModeStrip ["type"; "thinking"; "signature"] d
  = Ok (print (obj ([("type", str "thinking"); ("thinking", str t)] ++ unless (String.eqb s "") ("signature", str s))), d).
Proof.
  encode_object [([("type", str "thinking")], 0); ([("thinking", str t)], 0); (unless (String.eqb s "") ("signature", str s), 0)].
  - unfold dropsOf, fieldsOf. cbn. by rewrite !Z.add_0_r, app_nil_r.
  - cbn. rewrite andb_true_r. apply emits_unless. intros _. auto with emits.
Qed.

Lemma image_encodes i d : md_Wire i = zeroWire ->
  EncodeOrderedObject (assoc (MessagesCodec.imageEmitters i)) (md_Wire i) ModeStrip ["type"; "source"] d
  = Ok (print (obj [("type", str "image"); ("source", sourceTree i)]), d).
Proof.
  intros Hw. encode_object [([("type", str "image")], 0); ([("source", sourceTree i)], 0)].
  - unfold dropsOf. rewrite Hw. cbn. by rewrite !Z.add_0_r.
  - unfold ShadowRaw. rewrite Hw. cbn [wi_Shadow zeroWire]. rewrite lookup_empty. apply emits_nested. intros d'.
    by rewrite source_encodes, Z.add_0_r.
Qed.

Lemma joined_spec (enc : Part -> Z -> outcome string (list string * Z)) (tree : Part -> list json) drops l :
  Forall (fun x => forall d, enc x d = Ok (List.map print (tree x), d + drops x)) l ->
  forall d, MessagesCodec.joined (encodeAll enc l d) = Ok (print (JArr (flat_map tree l)), d + sumZ (List.map drops l)).
Proof. intros H d. unfold MessagesCodec.joined. rewrite (encodeAll_spec enc tree drops l H). cbn [obind]. by rewrite EncodeArray_print. Qed.

Lemma block_encodes p : cleanPart p -> forall d,
  MessagesCodec.encodeBlock ModeStrip p d = Ok (List.map print (blockTree p), d + blockDrops p).
Proof.
  induction p as [p IH] using Part_ind'. intros Hc d. destruct p as [ty tx im au fi tc tr re rf ci w].
  cbn [pt_ToolCallResponse] in IH. cbn [cleanPart pt_Type pt_ToolCallResponse] in Hc.
  destruct ty; cbn [MessagesCodec.encodeBlock pt_Type pt_Text pt_Image pt_ToolCall pt_ToolCallResponse pt_Reasoning blockDrops]; try done.
  - destruct Hc as (s & [= -> -> -> -> -> -> -> -> -> ->] & _). cbn [MessagesCodec.block].
    unfold MessagesCodec.one. cbn [tx_Wire]. rewrite text_encodes. cbn. by rewrite Z.add_0_r.
  - destruct Hc as (m & dt & u & [= -> -> -> -> -> -> -> -> -> ->] & _). cbn [MessagesCodec.block].
    unfold MessagesCodec.one. rewrite image_encodes by done. cbn -[sourceTree]. by rewrite Z.add_0_r.
  - destruct Hc as (id & name & args & [= -> -> -> -> -> -> -> -> -> ->] & _ & _ & Ha). cbn [MessagesCodec.block].
    unfold MessagesCodec.one. cbn [tc_Wire]. rewrite call_encodes by done. cbn -[argsTree]. by rewrite Z.add_0_r.
  - destruct tr as [[id ps e tw]|]; [|done]. destruct Hc as ([= -> -> -> -> -> -> -> -> -> ->] & _ & Hps).
    specialize (IH _ eq_refl). cbn [tr_Parts tr_ToolCallID tr_IsError] in *. apply allOf_Forall in Hps.
    assert (Forall (fun x => forall d, MessagesCodec.encodeBlock ModeStrip x d = Ok (List.map print (blockTree x), d + blockDrops x)) ps) as Hall.
    { rewrite List.Forall_forall in *. intros x Hx. by apply IH; [|apply Hps]. }
    unfold MessagesCodec.one.
    encode_object [([("type", str "tool_result")], 0); ([("tool_use_id", str id)], 0);
      (unless (bool_decide (ps = [])) ("content", JArr (flat_map blockTree ps)), sumZ (List.map blockDrops ps));
      (unless (negb e) ("is_error", JBool true), 0)].
    + cbn [obind List.map blockTree]. unfold dropsOf, fieldsOf. cbn. rewrite app_nil_r, !Z.add_0_r. done.
    + cbn. rewrite andb_true_r. case_bool_decide as Hn; [subst ps; apply emits_nothing|]. cbn [unless].
      apply emits_nested. by apply joined_spec.
    + cbn. rewrite andb_true_r. apply emits_unless. intros ->%negb_false_iff. by apply emits_field.
  - destruct Hc as (t & s & [= -> -> -> -> -> -> -> -> -> ->] & _). cbn [MessagesCodec.block].
    unfold MessagesCodec.one. cbn [re_Wire]. rewrite reasoning_encodes. cbn -[unless]. by rewrite Z.add_0_r.
Qed.

Lemma parts_encode ps : Forall cleanPart ps -> forall d,
  MessagesCodec.encodeParts ModeStrip ps d = Ok (print (JArr (flat_map blockTree ps)), d + sumZ (List.map blockDrops ps)).
Proof. intros H. apply joined_spec. eapply List.Forall_impl; [|exact H]. apply block_encodes. Qed.

Definition messageTree (m : Message) : json :=
  obj [("role", str (roleString (roleForm (ms_Role m)))); ("content", JArr (flat_map blockTree (ms_Parts m)))].

Definition messageDrops (m : Message) : Z := sumZ (List.map blockDrops (ms_Parts m)).

Lemma message_encodes m : cleanMessage m -> forall d,
  MessagesCodec.encodeMessage ModeStrip m d = Ok ([print (messageTree m)], d + messageDrops m).
Proof.
  intros (Hps & Hw & _) d. unfold MessagesCodec.encodeMessage, MessagesCodec.one.
  encode_object [([("role", str (roleString (roleForm (ms_Role m))))], 0);
    ([("content", JArr (flat_map blockTree (ms_Parts m)))], messageDrops m)].
  - rewrite Hw. unfold dropsOf. cbn. by rewrite !Z.add_0_r.
  - replace (match ms_Role m with RoleTool => "user" | r => roleString r end) with (roleString (roleForm (ms_Role m))) by (by destruct (ms_Role m)).
    auto with emits.
  - rewrite Hw. apply emits_nested. by apply parts_encode.
Qed.

Definition toolTree (t : ToolDefinition) : json :=
  obj ([("name", str (td_Name t))] ++ unless (String.eqb (td_Description t) "") ("description", str (td_Description t))
       ++ [("input_schema", schemaTree (td_Parameters t))]).

Lemma schemaTree_print a : compacted a -> print (schemaTree a) = (if String.eqb a "" then ChatCodec.objectSchema else a).
Proof.
  intros Ha. unfold schemaTree. destruct (String.eqb_spec a ""); [by vm_compute|]. by apply compacted_tree.
Qed.

Lemma tool_encodes t : cleanTool t -> forall d, MessagesCodec.encodeTool ModeStrip t d = Ok ([print (toolTree t)], d + 0).
Proof.
  intros (Hw & _ & _ & Hp) d. unfold MessagesCodec.encodeTool, MessagesCodec.one.
  encode_object [([("name", str (td_Name t))], 0); (unless (String.eqb (td_Description t) "") ("description", str (td_Description t)), 0);
    ([("input_schema", schemaTree (td_Parameters t))], 0)].
  - rewrite Hw. unfold dropsOf, fieldsOf. cbn. by rewrite !Z.add_0_r.
  - rewrite Hw. auto with emits.
  - rewrite Hw. cbn. rewrite andb_true_r. apply emits_unless. intros _. auto with emits.
  - cbn [fst snd]. rewrite <- schemaTree_print by done. auto with emits.
Qed.

Definition choiceTree (c : ToolChoice) : json :=
  obj ([("type", str (MessagesCodec.choiceType (ch_Mode c)))] ++ unless (String.eqb (ch_Name c) "") ("name", str (ch_Name c))).

Lemma choice_encodes c d : ch_Wire c = zeroWire -> MessagesCodec.encodeToolChoice ModeStrip c d = Ok (print (choiceTree c), d + 0).
Proof.
  intros Hw. unfold MessagesCodec.encodeToolChoice.
  encode_object [([("type", str (MessagesCodec.choiceType (ch_Mode c)))], 0); (unless (String.eqb (ch_Name c) "") ("name", str (ch_Name c)), 0)].
  - rewrite Hw. unfold dropsOf, fieldsOf. cbn. by rewrite !Z.add_0_r, app_nil_r.
  - rewrite Hw. cbn. rewrite andb_true_r. apply emits_unless. intros _. auto with emits.
Qed.

Definition isNil {A} (l : list A) : bool := match l with [] => true | _ => false end.

Definition numeralField (k n : string) : list (string * json) := unless (String.eqb n "") (k, JNum n).

Definition choiceField (c : option ToolChoice) : list (string * json) :=
  match c with None => [] | Some c => [("tool_choice", choiceTree c)] end.

(** The members of the body, in canonical order, and what each drops. *)
Definition requestFields (r : Request) : list (list (string * json) * Z) :=
  let g := rq_Generation r in
  [(unless (String.eqb (rq_Model r) "") ("model", str (rq_Model r)), 0);
   ([("max_tokens", JNum (if String.eqb (MaxTokens g) "" then MessagesCodec.defaultMaxTokens else MaxTokens g))], 0);
   ([("messages", JArr (List.map messageTree (rq_Messages r)))], sumZ (List.map messageDrops (rq_Messages r)));
   (unless (isNil (rq_System r)) ("system", JArr (flat_map blockTree (rq_System r))), sumZ (List.map blockDrops (rq_System r)));
   (unless (isNil (rq_Tools r)) ("tools", JArr (List.map toolTree (rq_Tools r))), 0);
   (choiceField (rq_ToolChoice r), 0);
   (numeralField "temperature" (Temperature g), 0); (numeralField "top_p" (TopP g), 0); (numeralField "top_k" (TopK g), 0);
   (unless (isNil (StopSequences g)) ("stop_sequences", JArr (List.map str (StopSequences g))), 0);
   (unless (negb (rq_Stream r)) ("stream", JBool true), 0)].

Lemma numeral_encodes k n : numeral n -> emits (ChatCodec.numberEmitter k n) (numeralField k n) 0.
Proof.
  intros Hn. unfold ChatCodec.numberEmitter, numeralField. apply emits_unless. intros Hne%String.eqb_neq. by apply numeral_field.
Qed.

Lemma flat_map_single {A B} (f : A -> B) l : flat_map (fun x => [f x]) l = List.map f l.
Proof. induction l as [|x l IH]; [done|]. cbn. by rewrite IH. Qed.

Lemma sumZ_zeros {A} (l : list A) : sumZ (List.map (fun _ => 0) l) = 0.
Proof. by induction l. Qed.

Lemma requestFields_spec r : cleanRequest r ->
  emitsAll (assoc (MessagesCodec.requestEmitters ModeStrip r)) MessagesCodec.canonicalRequest (requestFields r).
Proof.
  intros [Hm Hs Hms Ht Hc H1 H2 H3 H4 Hst Hg Hw]. unfold MessagesCodec.canonicalRequest, requestFields. fields.
  - rewrite Hw. cbn. rewrite andb_true_r. apply emits_unless. intros _. auto with emits.
  - unfold ChatCodec.numberEmitter. destruct (String.eqb_spec (MaxTokens (rq_Generation r)) ""); [by apply emits_field|].
    by apply numeral_field.
  - apply emits_nested. intros d. unfold MessagesCodec.encodeMessages, MessagesCodec.joined.
    rewrite (encodeAll_spec _ (fun m => [messageTree m]) messageDrops).
    + cbn [obind]. by rewrite EncodeArray_print, flat_map_single.
    + eapply List.Forall_impl; [|exact Hms]. intros m Hcm d'. by rewrite message_encodes.
  - rewrite Hw. destruct (rq_System r) as [|p ps] eqn:E; [apply emits_nothing|]. cbn [isNil unless].
    apply emits_nested. rewrite <- E in *. by apply parts_encode.
  - destruct (rq_Tools r) as [|t ts] eqn:E; [apply emits_nothing|]. cbn [isNil unless]. apply emits_nested. rewrite <- E in *. intros d.
    unfold MessagesCodec.encodeTools, MessagesCodec.joined. rewrite (encodeAll_spec _ (fun t => [toolTree t]) (fun _ => 0)).
    + cbn [obind]. by rewrite EncodeArray_print, flat_map_single, sumZ_zeros.
    + eapply List.Forall_impl; [|exact Ht]. intros t' Hct d'. by rewrite tool_encodes.
  - destruct (rq_ToolChoice r) as [c|]; [|apply emits_nothing]. cbn [choiceField]. apply emits_nested. intros d. apply choice_encodes. apply Hc.
  - by apply numeral_encodes.
  - by apply numeral_encodes.
  - by apply numeral_encodes.
  - rewrite Hw. destruct (StopSequences (rq_Generation r)) as [|x xs] eqn:E; [apply emits_nothing|]. cbn [isNil unless].
    unfold ShadowRaw. cbn [wi_Shadow zeroWire]. rewrite lookup_empty, bool_decide_eq_false_2 by done. cbn [andb]. apply emits_field.
    cbn [MarshalCompact]. rewrite print_arr, List.map_map. done.
  - rewrite Hw. cbn. rewrite andb_true_r. apply emits_unless. intros ->%negb_false_iff. by apply emits_field.
Qed.

Definition requestTree (r : Request) : json := obj (fieldsOf (requestFields r)).
Definition requestDrops (r : Request) : Z := sumZ (List.map messageDrops (rq_Messages r)) + sumZ (List.map blockDrops (rq_System r)).

Lemma request_encodes r : cleanRequest r ->
  exists en, MessagesCodec.EncodeRequest ModeStrip r = Ok (en, false) /\ en_Body en = print (requestTree r)
    /\ en_DroppedExtras en = requestDrops r /\ en_Path en = "/v1/messages".
Proof.
  intros Hr. unfold MessagesCodec.EncodeRequest. rewrite (strip_object _ _ _ (requestFields r)); [|distinct|by apply requestFields_spec].
  cbn [ChatCodec.other obind]. eexists. split; [done|]. split; [done|]. split; [|done]. cbn [en_DroppedExtras].
  destruct Hr. rewrite clean_wire0. unfold dropsOf, requestFields, requestDrops. cbn. lia.
Qed.

(** ** Reading *)

(** A value read as a part, at any sufficient fuel. *)
Definition readsAs (t : json) (q : Part) : Prop :=
  forall f, (depth t <= f)%nat -> exists q', MessagesCodec.decodeBlock (MessagesCodec.decodePartsN f) t = Ok q' /\ erasePart q' = q.

Ltac block_type := unfold MessagesCodec.decodeBlock; rewrite typedBlock by (done || by apply valid_ascii); cbn [obind String.eqb Ascii.eqb Bool.eqb].

Lemma text_read nest s : validUTF8 s ->
  exists q', MessagesCodec.decodeBlock nest (obj [("type", str "text"); ("text", str s)]) = Ok q' /\ erasePart q' = textPart s.
Proof.
  intros Hs. block_type.
  destruct (decode_object (assoc MessagesCodec.textHandlers) tx_Text [[("type", str "text")]; [("text", str s)]]
    [fun t => t; fun _ => s] (mkText "" zeroWire)) as (t & Ht & HE); [reads_members|].
  cbn [List.concat app] in Ht. rewrite Ht. cbn [obind]. eexists. split; [done|]. cbn in HE |- *. by rewrite HE.
Qed.

Lemma call_read nest id name args : validUTF8 id -> validUTF8 name -> compacted args ->
  exists q', MessagesCodec.decodeBlock nest (obj [("type", str "tool_use"); ("id", str id); ("name", str name); ("input", argsTree args)]) = Ok q'
    /\ erasePart q' = partCall (mkToolCall id name (argsForm args) zeroWire).
Proof.
  intros Hid Hname Ha. block_type.
  destruct (decode_object (assoc MessagesCodec.callHandlers) (fun c => mkToolCall (tc_ID c) (tc_Name c) (tc_Arguments c) zeroWire)
    [[("type", str "tool_use")]; [("id", str id)]; [("name", str name)]; [("input", argsTree args)]]
    [fun t => t; fun c => mkToolCall id (tc_Name c) (tc_Arguments c) zeroWire; fun c => mkToolCall (tc_ID c) name (tc_Arguments c) zeroWire;
     fun c => mkToolCall (tc_ID c) (tc_Name c) (argsForm args) zeroWire] (mkToolCall "" "" "" zeroWire)) as (c & Hc & HE).
  { reads_members. reads_member. intros st. cbn. rewrite argsTree_print by done. eauto. }
  cbn [List.concat app] in Hc. rewrite Hc. cbn [obind]. eexists. split; [done|]. cbn in HE |- *. by injection HE as -> -> ->.
Qed.

Lemma reasoning_read nest t s : validUTF8 t -> validUTF8 s ->
  exists q', MessagesCodec.decodeBlock nest
      (obj ([("type", str "thinking"); ("thinking", str t)] ++ unless (String.eqb s "") ("signature", str s))) = Ok q'
    /\ erasePart q' = partReasoning (mkReasoning t s zeroWire).
Proof.
  intros Ht Hs. unfold MessagesCodec.decodeBlock. cbn [app].
  rewrite typedBlock by (first [by apply valid_ascii | by destruct (String.eqb s "")]). cbn [obind String.eqb Ascii.eqb Bool.eqb].
  destruct (decode_object (assoc MessagesCodec.reasoningHandlers) (fun r => mkReasoning (re_Text r) (re_Signature r) zeroWire)
    [[("type", str "thinking")]; [("thinking", str t)]; unless (String.eqb s "") ("signature", str s)]
    [fun t => t; fun r => mkReasoning t (re_Signature r) zeroWire; fun r => if String.eqb s "" then r else mkReasoning (re_Text r) s zeroWire]
    (mkReasoning "" "" zeroWire)) as (r & Hr & HE).
  { reads_members. apply does_unless; [by intros ->|]. intros ->. reads_member. intros st. cbn -[DecodeShadowString].
    rewrite readString by done. cbn. eauto. }
  cbn [List.concat app] in Hr. rewrite app_nil_r in Hr. rewrite Hr. cbn [obind]. eexists. split; [done|]. cbn in HE |- *.
  destruct (String.eqb_spec s "") as [->|]; by injection HE as -> ->.
Qed.

Lemma selects_name names k : existsb (String.eqb k) names = true -> selects names k = Some k.
Proof. intros H. unfold selects. by rewrite H. Qed.

(** Strings of a data URL. *)
Lemma TrimPrefix_valid s p : forallb (fun c => (N_of_ascii c <? 128)%N) (list_ascii_of_string p) = true -> p <> "" -> validUTF8 s -> validUTF8 (TrimPrefix s p).
Proof.
  intros Hp Hne Hs. unfold TrimPrefix. destruct (HasPrefix s p) eqn:E; [|done]. apply HasPrefix_spec in E as [t ->]. rewrite drop_str_app.
  assert (exists a c, p = (a ++ String c "")%string /\ (N_of_ascii c < 128)%N) as (a & c & -> & Hc).
  { clear Hs. induction p as [|c p IH]; [done|]. cbn in Hp. apply andb_true_iff in Hp as [Hc Hp]. destruct p as [|d p].
    - exists "", c. split; [done|]. by apply N.ltb_lt.
    - destruct (IH Hp) as (a & e & E & He); [done|]. exists (String c a), e. by rewrite E. }
  rewrite str_app_assoc, str_cons_app, str_app_nil_l in Hs. by apply (valid_cut a c t Hc) in Hs as [_ ?].
Qed.

Lemma split_valid url mime data : validUTF8 url -> SplitDataURL url = (mime, data, true) -> validUTF8 mime /\ validUTF8 data.
Proof.
  intros Hu. unfold SplitDataURL. destruct (HasPrefix url "data:"); [|done]. cbn [negb].
  destruct (Cut (TrimPrefix url "data:") ",") as [[meta payload] found] eqn:E. destruct found; [|done]. cbn [negb].
  destruct (HasSuffix meta ";base64") eqn:Es; [|done]. intros [= <- <-].
  apply (TrimPrefix_valid url "data:") in Hu; [|done..]. apply Cut_found in E as [E _]. rewrite E in Hu.
  apply valid_cut in Hu as [Hm Hp]; [|done]. split; [|done]. apply HasSuffix_spec in Es as [t ->]. rewrite TrimSuffix_app.
  change (";base64")%string with (String ";" "base64") in Hm. by apply valid_cut in Hm as [? _].
Qed.

Lemma base64_source mime data i : validUTF8 mime -> validUTF8 data ->
  MessagesCodec.decodeImageSource (base64Tree mime data) i = Ok (mkMedia mime data "" (md_Wire i)).
Proof.
  intros Hm Hd. unfold MessagesCodec.decodeImageSource, base64Tree, obj. cbn -[Quote].
  rewrite !unquote_ascii by done. rewrite !selects_name by done. cbn -[Quote]. rewrite !unquote_quote by (done || by apply valid_ascii). done.
Qed.

Lemma source_read i : md_Wire i = zeroWire -> validUTF8 (md_MIMEType i) -> validUTF8 (md_DataB64 i) -> validUTF8 (md_URL i) ->
  forall i', exists i'', MessagesCodec.decodeImageSource (sourceTree i) i' = Ok i'' /\ md_Wire i'' = md_Wire i'
    /\ mkMedia (md_MIMEType i'') (md_DataB64 i'') (md_URL i'') zeroWire = imageForm i.
Proof.
  intros Hw Hm Hd Hu i'. unfold sourceTree, imageForm. destruct (String.eqb_spec (md_URL i) "") as [E|E].
  - rewrite base64_source by done. eexists. split; [done|]. split; [done|]. cbn. destruct i. cbn in *. by subst.
  - destruct (SplitDataURL (md_URL i)) as [[mime data] []] eqn:Es.
    + apply split_valid in Es as [H1 H2]; [|done]. rewrite base64_source by done. by eexists.
    + exists (mkMedia "" "" (md_URL i) (md_Wire i')). split; [|done].
      unfold MessagesCodec.decodeImageSource, obj. cbn -[Quote]. rewrite !unquote_ascii by done. rewrite !selects_name by done.
      cbn -[Quote]. rewrite !unquote_quote by (done || by apply valid_ascii). reflexivity.
Qed.

Lemma image_read nest i : md_Wire i = zeroWire -> validUTF8 (md_MIMEType i) -> validUTF8 (md_DataB64 i) -> validUTF8 (md_URL i) ->
  exists q', MessagesCodec.decodeBlock nest (obj [("type", str "image"); ("source", sourceTree i)]) = Ok q'
    /\ erasePart q' = partImage (imageForm i).
Proof.
  intros Hw Hm Hd Hu. block_type.
  destruct (decode_object (assoc MessagesCodec.imageHandlers) (fun i => mkMedia (md_MIMEType i) (md_DataB64 i) (md_URL i) zeroWire)
    [[("type", str "image")]; [("source", sourceTree i)]] [fun t => t; fun _ => imageForm i] (mkMedia "" "" "" zeroWire)) as (j & Hj & HE).
  { reads_members. reads_member. intros st. destruct (source_read i Hw Hm Hd Hu st) as (j & Hj & _ & Hf). cbn -[MessagesCodec.decodeImageSource].
    rewrite Hj. cbn. eauto. }
  cbn [List.concat app] in Hj. rewrite Hj. cbn [obind]. eexists. split; [done|]. cbn in HE |- *. by rewrite HE.
Qed.

Lemma flat_map_Forall2 {A B C} (R : B -> C -> Prop) (f : A -> list B) (g : A -> list C) l :
  Forall (fun x => Forall2 R (f x) (g x)) l -> Forall2 R (flat_map f l) (flat_map g l).
Proof. induction 1 as [|x l Hx _ IH]; cbn; [constructor|]. by apply Forall2_app. Qed.

Lemma blocks_read f ts qs : Forall2 readsAs ts qs -> Forall (fun t => depth t <= f)%nat ts ->
  exists qs', MessagesCodec.decodeBlocks (MessagesCodec.decodePartsN f) (JArr ts) = Ok qs' /\ List.map erasePart qs' = qs.
Proof.
  intros H Hd. unfold MessagesCodec.decodeBlocks. rewrite elements_id. cbn [obind]. revert Hd.
  induction H as [|t q ts qs Ht _ IH]; intros Hd; [by exists []|]. apply List.Forall_cons_iff in Hd as [Hd1 Hd].
  destruct (Ht f Hd1) as (q' & Hq & Eq). destruct (IH Hd) as (qs' & Hqs & Eqs). exists (q' :: qs').
  cbn [omapM]. rewrite Hq. cbn [obind]. rewrite Hqs. cbn [obind List.map]. by rewrite Eq, Eqs.
Qed.

Lemma depth_obj kts kt : In kt kts -> (S (depth (snd kt)) <= depth (obj kts))%nat.
Proof.
  intros Hin. unfold obj. cbn [depth]. apply le_n_S. rewrite List.map_map. cbn [snd].
  apply (depth_members_le kts _ (Nat.le_refl _) kt Hin).
Qed.

Lemma depth_elements l : Forall (fun t => depth t <= list_max (List.map depth l))%nat l.
Proof. apply List.Forall_forall. by apply depth_elements_le. Qed.

Lemma result_reads id ps e : validUTF8 id -> Forall2 readsAs (flat_map blockTree ps) (flat_map partForm ps) ->
  readsAs (obj ([("type", str "tool_result"); ("tool_use_id", str id)]
                ++ unless (bool_decide (ps = [])) ("content", JArr (flat_map blockTree ps)) ++ unless (negb e) ("is_error", JBool true)))
    (partResult (mkResponsePart id (flat_map partForm ps) e zeroWire)).
Proof.
  intros Hid Hps f Hf. unfold MessagesCodec.decodeBlock. cbn [app].
  rewrite typedBlock by (first [by apply valid_ascii | by case_bool_decide; destruct e]). cbn [obind String.eqb Ascii.eqb Bool.eqb].
  destruct (decode_object (assoc (MessagesCodec.resultHandlers (MessagesCodec.decodePartsN f)))
    (fun r => mkResponsePart (tr_ToolCallID r) (List.map erasePart (tr_Parts r)) (tr_IsError r) zeroWire)
    [[("type", str "tool_result")]; [("tool_use_id", str id)];
     unless (bool_decide (ps = [])) ("content", JArr (flat_map blockTree ps)); unless (negb e) ("is_error", JBool true)]
    [fun t => t; fun r => mkResponsePart id (tr_Parts r) (tr_IsError r) zeroWire;
     fun r => if bool_decide (ps = []) then r else mkResponsePart (tr_ToolCallID r) (flat_map partForm ps) (tr_IsError r) zeroWire;
     fun r => if e then mkResponsePart (tr_ToolCallID r) (tr_Parts r) true zeroWire else r]
    (mkResponsePart "" [] false zeroWire)) as (r & Hr & HE).
  { reads_members.
    - apply does_unless; [by intros ->|]. intros Hb. rewrite Hb in Hf |- *. reads_member. intros st. cbn.
      assert (S (depth (JArr (flat_map blockTree ps))) <= f)%nat as Hd.
      { etransitivity; [|exact Hf]. apply (depth_obj _ ("content", JArr (flat_map blockTree ps))). cbn. tauto. }
      cbn [depth] in Hd. destruct f as [|f]; [lia|]. cbn [MessagesCodec.decodePartsN].
      destruct (blocks_read f _ _ Hps) as (qs' & Hq & Eq).
      { apply List.Forall_forall. apply depth_elements_le. lia. }
      rewrite Hq. cbn [obind]. eexists. split; [done|]. cbn. by rewrite Eq.
    - apply does_unless; [by intros ->%negb_true_iff|]. intros ->%negb_false_iff. reads_member. intros st. cbn. eauto. }
  cbn [List.concat app] in Hr. rewrite app_nil_r in Hr. rewrite Hr. cbn [obind]. eexists. split; [done|]. destruct r as [rid rps re rw].
  cbn in HE |- *. case_bool_decide; [subst ps|]; destruct e; cbn in HE |- *; by injection HE as -> -> ->.
Qed.

Lemma block_reads p : cleanPart p -> Forall2 readsAs (blockTree p) (partForm p).
Proof.
  induction p as [p IH] using Part_ind'. intros Hc. destruct p as [ty tx im au fi tc tr re rf ci w].
  cbn [pt_ToolCallResponse] in IH. cbn [cleanPart pt_Type pt_ToolCallResponse] in Hc.
  destruct ty; cbn [blockTree partForm pt_Type pt_Text pt_Image pt_ToolCall pt_ToolCallResponse pt_Reasoning]; try (by constructor).
  - destruct Hc as (s & [= -> -> -> -> -> -> -> -> -> ->] & Hs). constructor; [|constructor]. intros f _. by apply text_read.
  - destruct Hc as (m & dt & u & [= -> -> -> -> -> -> -> -> -> ->] & ? & ? & ?). constructor; [|constructor]. intros f _. by apply image_read.
  - destruct Hc as (id & name & args & [= -> -> -> -> -> -> -> -> -> ->] & ? & ? & ?). constructor; [|constructor]. intros f _. by apply call_read.
  - destruct tr as [[id ps e tw]|]; [|done]. destruct Hc as ([= -> -> -> -> -> -> -> -> -> ->] & Hid & Hps).
    cbn [tr_Parts tr_ToolCallID tr_IsError] in *. constructor; [|constructor]. apply result_reads; [done|]. apply flat_map_Forall2.
    specialize (IH _ eq_refl). apply allOf_Forall in Hps. cbn [tr_Parts] in IH. rewrite List.Forall_forall in *. intros x Hx. by apply IH; [|apply Hps].
  - destruct Hc as (t & s & [= -> -> -> -> -> -> -> -> -> ->] & ? & ?). constructor; [|constructor]. intros f _. by apply reasoning_read.
Qed.

Lemma parts_read ps : Forall cleanPart ps ->
  exists qs, MessagesCodec.decodeParts (JArr (flat_map blockTree ps)) = Ok qs /\ List.map erasePart qs = flat_map partForm ps.
Proof.
  intros H. unfold MessagesCodec.decodeParts. cbn [depth MessagesCodec.decodePartsN]. apply blocks_read; [|apply depth_elements].
  apply flat_map_Forall2. eapply List.Forall_impl; [|exact H]. apply block_reads.
Qed.

Lemma message_read m : cleanMessage m ->
  exists m', MessagesCodec.decodeMessage (messageTree m) = Ok m' /\ eraseMessage m' = messageForm m.
Proof.
  intros (Hps & _ & Hv & Hr). unfold MessagesCodec.decodeMessage.
  assert (validUTF8 (roleString (roleForm (ms_Role m))) /\ roleOf (roleString (roleForm (ms_Role m))) = roleForm (ms_Role m)) as [Hv' Hr'].
  { destruct (ms_Role m); cbn [roleForm]; try (by split; [apply valid_ascii|]). by split. }
  destruct (parts_read _ Hps) as (qs & Hq & Eq).
  destruct (decode_object (assoc MessagesCodec.messageHandlers) eraseMessage
    [[("role", str (roleString (roleForm (ms_Role m))))]; [("content", JArr (flat_map blockTree (ms_Parts m)))]]
    [fun t => mkMessage (roleForm (ms_Role m)) (ms_Parts t) zeroWire; fun t => mkMessage (ms_Role t) (flat_map partForm (ms_Parts m)) zeroWire]
    (mkMessage (RoleOther "") [] zeroWire)) as (m' & Hm & HE).
  { reads_members; reads_member; intros st; cbn -[MessagesCodec.decodeParts].
    - rewrite unquote_quote by done. cbn. rewrite Hr'. eauto.
    - rewrite Hq. cbn. eexists. split; [done|]. cbn. by rewrite <- Eq. }
  exists m'. by split.
Qed.

Lemma tool_read t : cleanTool t -> exists t', MessagesCodec.decodeTool (toolTree t) = Ok t' /\ stripTool t' = toolForm t.
Proof.
  intros (Hw & Hn & Hd & Hp). unfold MessagesCodec.decodeTool.
  destruct (decode_object (assoc MessagesCodec.toolHandlers) stripTool
    [[("name", str (td_Name t))]; unless (String.eqb (td_Description t) "") ("description", str (td_Description t));
     [("input_schema", schemaTree (td_Parameters t))]]
    [fun u => mkTool (td_Name t) (td_Description u) (td_Parameters u) zeroWire;
     fun u => mkTool (td_Name u) (if String.eqb (td_Description t) "" then td_Description u else td_Description t) (td_Parameters u) (td_Wire u);
     fun u => mkTool (td_Name u) (td_Description u) (td_Parameters (toolForm t)) zeroWire]
    (mkTool "" "" "" zeroWire)) as (t' & Ht & HE).
  { reads_members.
    - apply does_unless; [by intros -> []|]. intros ->. reads_member. intros st. cbn -[DecodeShadowString]. rewrite readString by done.
      cbn. eauto.
    - reads_member. intros st. cbn. rewrite schemaTree_print by done. eauto. }
  exists t'. split; [exact Ht|]. rewrite HE. cbn. unfold toolForm. f_equal. by destruct (String.eqb_spec (td_Description t) "") as [->|].
Qed.

Lemma choice_read c : cleanChoice c -> exists c', MessagesCodec.decodeToolChoice (choiceTree c) = Ok c' /\ stripChoice c' = choiceForm c.
Proof.
  intros (Hw & Hm & Hn). unfold MessagesCodec.decodeToolChoice.
  assert (validUTF8 (MessagesCodec.choiceType (ch_Mode c))) as Hv by (destruct (ch_Mode c); first [done | by apply valid_ascii]).
  assert (MessagesCodec.choiceMode (MessagesCodec.choiceType (ch_Mode c)) = ch_Mode (choiceForm c)) as Hf by (by destruct (ch_Mode c) eqn:E; cbn; rewrite ?E).
  destruct (decode_object (assoc MessagesCodec.toolChoiceHandlers) stripChoice
    [[("type", str (MessagesCodec.choiceType (ch_Mode c)))]; unless (String.eqb (ch_Name c) "") ("name", str (ch_Name c))]
    [fun u => mkChoice (ch_Mode (choiceForm c)) (ch_Name u) zeroWire;
     fun u => mkChoice (ch_Mode u) (if String.eqb (ch_Name c) "" then ch_Name u else ch_Name c) (ch_Wire u)]
    (mkChoice (ToolChoiceOther "") "" zeroWire)) as (c' & Hc & HE).
  { reads_members.
    - reads_member. intros st. cbn -[MessagesCodec.choiceMode]. rewrite unquote_quote by done. cbn -[MessagesCodec.choiceMode]. rewrite Hf. eauto.
    - apply does_unless; [by intros -> []|]. intros ->. reads_member. intros st. cbn -[DecodeShadowString]. rewrite readString by done. cbn. eauto. }
  exists c'. split; [|].
  - rewrite <- Hc. unfold choiceTree. cbn [List.concat]. by rewrite app_nil_r.
  - rewrite HE. cbn. unfold choiceForm. f_equal. by destruct (String.eqb_spec (ch_Name c) "") as [->|].
Qed.

Lemma omapM_erase {A B} (f : json -> outcome string A) (erase : A -> B) (tree : B -> json) (form : B -> B) (l : list B) :
  Forall (fun x => exists y, f (tree x) = Ok y /\ erase y = form x) l ->
  exists ys, omapM f (List.map tree l) = Ok ys /\ List.map erase ys = List.map form l.
Proof.
  induction 1 as [|x l (y & Hy & Ey) _ (ys & Hys & Eys)]; [by exists []|]. exists (y :: ys). cbn. rewrite Hy. cbn. rewrite Hys. cbn. by rewrite Ey, Eys.
Qed.

Lemma numeral_reads k f n (upd : Request -> Request) :
  Unquote (Quote k) = k -> assoc MessagesCodec.requestHandlers k = Some (ChatCodec.numberHandler f) -> numeral n ->
  (n = "" -> forall t, upd t = t) -> (n <> "" -> forall s, eraseRequest (ChatCodec.onGeneration (f n) s) = upd (eraseRequest s)) ->
  does (assoc MessagesCodec.requestHandlers) eraseRequest (numeralField k n) upd.
Proof.
  intros Hk Hf Hn Hu Hs. unfold numeralField. apply does_unless; [intros H%String.eqb_eq; by apply Hu|]. intros Hne%String.eqb_neq.
  eapply does_one; [done|done|exact Hf|]. intros s. unfold ChatCodec.numberHandler. cbn. eauto.
Qed.

(** What each member of the body does to the request being read. *)
Definition requestUpdates (r : Request) : list (Request -> Request) :=
  let g := rq_Generation r in
  let f := messagesForm r in
  let gen t mt te tp tk ss := t <| rq_Generation := mkGeneration mt te tp tk ss zeroWire |> in
  [fun t => t <| rq_Model := if String.eqb (rq_Model r) "" then rq_Model t else rq_Model r |>;
   fun t => t <| rq_Generation := (rq_Generation t) <| MaxTokens := MaxTokens (rq_Generation f) |> |>;
   fun t => t <| rq_Messages := rq_Messages f |>;
   fun t => t <| rq_System := if isNil (rq_System r) then rq_System t else rq_System f |>;
   fun t => t <| rq_Tools := if isNil (rq_Tools r) then rq_Tools t else rq_Tools f |>;
   fun t => t <| rq_ToolChoice := match rq_ToolChoice r with None => rq_ToolChoice t | Some c => Some (choiceForm c) end |>;
   fun t => t <| rq_Generation := (rq_Generation t)
                   <| Temperature := if String.eqb (Temperature g) "" then Temperature (rq_Generation t) else Temperature g |> |>;
   fun t => t <| rq_Generation := (rq_Generation t) <| TopP := if String.eqb (TopP g) "" then TopP (rq_Generation t) else TopP g |> |>;
   fun t => t <| rq_Generation := (rq_Generation t) <| TopK := if String.eqb (TopK g) "" then TopK (rq_Generation t) else TopK g |> |>;
   fun t => t <| rq_Generation := (rq_Generation t)
                   <| StopSequences := if isNil (StopSequences g) then StopSequences (rq_Generation t) else StopSequences g |> |>;
   fun t => t <| rq_Stream := if negb (rq_Stream r) then rq_Stream t else true |>].

Lemma requestUpdates_form r : fold_left (fun t u => u t) (requestUpdates r)
  (mkRequest "anthropic" "chat" "" [] [] [] None ChatCodec.zeroGeneration false zeroWire) = messagesForm r.
Proof.
  unfold requestUpdates, messagesForm. cbv [set const]. cbn. f_equal.
  - by destruct (String.eqb_spec (rq_Model r) "") as [->|].
  - by destruct (rq_System r).
  - by destruct (rq_Tools r).
  - f_equal.
    + by destruct (String.eqb_spec (Temperature (rq_Generation r)) "") as [->|].
    + by destruct (String.eqb_spec (TopP (rq_Generation r)) "") as [->|].
    + by destruct (String.eqb_spec (TopK (rq_Generation r)) "") as [->|].
    + by destruct (StopSequences (rq_Generation r)).
  - by destruct (rq_Stream r).
Qed.

Ltac untouched := let t := fresh in intros t; destruct t as [? ? ? ? ? ? ? [] ? ?]; reflexivity.

Lemma request_members r : cleanRequest r ->
  Forall2 (does (assoc MessagesCodec.requestHandlers) eraseRequest) (List.map fst (requestFields r)) (requestUpdates r).
Proof.
  intros [Hm Hs Hms Ht Hc H1 H2 H3 H4 Hst Hg Hw].
  destruct (parts_read _ Hs) as (sys & Hsys & Esys).
  destruct (omapM_erase MessagesCodec.decodeMessage eraseMessage messageTree messageForm (rq_Messages r)) as (ms & Hmsg & Emsg).
  { eapply List.Forall_impl; [|exact Hms]. intros m Hcm. by apply message_read. }
  destruct (omapM_erase MessagesCodec.decodeTool stripTool toolTree toolForm (rq_Tools r)) as (ts & Htool & Etool).
  { eapply List.Forall_impl; [|exact Ht]. intros t Hct. by apply tool_read. }
  unfold requestFields, requestUpdates. cbn [List.map fst].
  repeat (apply List.Forall2_cons || apply List.Forall2_nil).
  - apply does_unless; [intros ->; untouched|]. intros ->. reads_member. intros st. cbn -[DecodeShadowString]. rewrite readString by done.
    cbn. eauto.
  - reads_member. intros st. unfold ChatCodec.numberHandler. cbn. eauto.
  - reads_member. intros st. cbn -[MessagesCodec.decodeMessages]. unfold MessagesCodec.decodeMessages. rewrite elements_id. cbn [obind].
    rewrite Hmsg. cbn. eexists. split; [done|]. unfold eraseRequest. cbv [set const]. cbn. by rewrite Emsg.
  - apply does_unless; [intros ->; untouched|]. intros Hb. rewrite Hb. reads_member. intros st. cbn -[MessagesCodec.decodeParts]. rewrite Hsys. cbn.
    eexists. split; [done|]. unfold eraseRequest. cbv [set const]. cbn. by rewrite Esys.
  - apply does_unless; [intros ->; untouched|]. intros Hb. rewrite Hb. reads_member. intros st. cbn -[MessagesCodec.decodeTools].
    unfold MessagesCodec.decodeTools. rewrite elements_id. cbn [obind]. rewrite Htool. cbn.
    eexists. split; [done|]. unfold eraseRequest. cbv [set const]. cbn. by rewrite Etool.
  - destruct (rq_ToolChoice r) as [c|]; cbn [choiceField]; [|apply does_nothing; untouched]. reads_member. intros st.
    destruct (choice_read c Hc) as (c' & Hc' & Ec'). cbn -[MessagesCodec.decodeToolChoice choiceTree]. rewrite Hc'. cbn.
    eexists. split; [done|]. unfold eraseRequest. cbv [set const]. cbn. by rewrite Ec'.
  - eapply numeral_reads; [by apply unquote_ascii|reflexivity|done|intros ->; untouched|]. intros Hne s.
    rewrite (proj2 (String.eqb_neq _ _) Hne). done.
  - eapply numeral_reads; [by apply unquote_ascii|reflexivity|done|intros ->; untouched|]. intros Hne s.
    rewrite (proj2 (String.eqb_neq _ _) Hne). done.
  - eapply numeral_reads; [by apply unquote_ascii|reflexivity|done|intros ->; untouched|]. intros Hne s.
    rewrite (proj2 (String.eqb_neq _ _) Hne). done.
  - apply does_unless; [intros ->; untouched|]. intros Hb. rewrite Hb. reads_member. intros st. cbn -[DecodeShadowStringSlice].
    unfold DecodeShadowStringSlice. rewrite readStrings by done. cbn. eauto.
  - apply does_unless; [intros ->; untouched|]. intros ->%negb_false_iff. reads_member. intros st. cbn. eauto.
Qed.

(** Everything the request writes is read back: the normal form of the request. *)
Lemma request_reads r hs : cleanRequest r ->
  Forall (fun kt => good maxNestingDepth (snd kt)) (fieldsOf (requestFields r)) ->
  exists r', MessagesCodec.DecodeRequest (mkRequestInput "POST" "/v1/messages" hs (print (requestTree r))) = Ok r'
    /\ eraseRequest r' = messagesForm r.
Proof.
  intros Hr Hg. unfold MessagesCodec.DecodeRequest. cbn [in_Path in_Body in_Headers ChatCodec.barePath].
  rewrite (proj2 (String.eqb_eq _ _)) by done. unfold requestTree. rewrite objectOfText_print by done.
  match goal with |- context [DecodeKnown _ _ ?s0] => destruct (does_all _ eraseRequest _ _ (request_members r Hr) s0) as (r' & Hr' & HE) end.
  unfold DecodeKnown. cbn [fst snd]. unfold fieldsOf at 1. rewrite Hr'. cbn [obind ChatCodec.malformed]. exists r'. split; [done|].
  rewrite HE. rewrite <- requestUpdates_form. done.
Qed.

(** ** The trees are well-formed *)

Lemma wf_arr l : wf (JArr l) <-> Forall wf l.
Proof. apply allOf_Forall. Qed.

Lemma wf_unless b kt : wf (snd kt) -> Forall (fun kt : string * json => wf (snd kt)) (unless b kt).
Proof. destruct b; [constructor|]. by constructor. Qed.

Lemma wf_numeral k n : numeral n -> Forall (fun kt : string * json => wf (snd kt)) (numeralField k n).
Proof.
  intros Hn. unfold numeralField. destruct (String.eqb_spec n ""); [constructor|]. cbn. constructor; [|constructor].
  by destruct Hn.
Qed.

Lemma argsTree_wf a : compacted a -> wf (argsTree a).
Proof. intros Ha. unfold argsTree. destruct (String.eqb_spec a ""); [done|]. by apply compacted_tree. Qed.

Lemma schemaTree_wf a : compacted a -> wf (schemaTree a).
Proof.
  intros Ha. unfold schemaTree. destruct (String.eqb_spec a ""); [|by apply compacted_tree].
  apply compacted_tree; [done|]. right. by vm_compute.
Qed.


Lemma sourceTree_wf i : wf (sourceTree i).
Proof.
  unfold sourceTree. destruct (String.eqb _ _); [|destruct (SplitDataURL _) as [[mime data] []]]; apply wf_obj;
    repeat (apply List.Forall_cons; [apply wf_str|]); apply List.Forall_nil.
Qed.

Lemma blockTree_wf p : cleanPart p -> Forall wf (blockTree p).
Proof.
  induction p as [p IH] using Part_ind'. intros Hc. destruct p as [ty tx im au fi tc tr re rf ci w].
  cbn [pt_ToolCallResponse] in IH. cbn [cleanPart pt_Type pt_ToolCallResponse] in Hc.
  destruct ty; cbn [blockTree pt_Type pt_Text pt_Image pt_ToolCall pt_ToolCallResponse pt_Reasoning]; try (by constructor).
  - destruct tx; constructor; [|constructor]. apply wf_obj. repeat (apply List.Forall_cons; [apply wf_str|]). apply List.Forall_nil.
  - destruct im; constructor; [|constructor]. apply wf_obj. apply List.Forall_cons; [apply wf_str|]. apply List.Forall_cons; [apply sourceTree_wf|].
    apply List.Forall_nil.
  - destruct Hc as (id & name & args & [= -> -> -> -> -> -> -> -> -> ->] & _ & _ & Ha). constructor; [|constructor]. apply wf_obj.
    repeat (apply List.Forall_cons; [apply wf_str|]). apply List.Forall_cons; [by apply argsTree_wf|]. apply List.Forall_nil.
  - destruct tr as [[id ps e tw]|]; [|constructor]. destruct Hc as (_ & _ & Hps). constructor; [|constructor]. apply wf_obj.
    cbn [tr_Parts tr_ToolCallID tr_IsError app]. repeat (apply List.Forall_cons; [apply wf_str|]). apply List.Forall_app. split; apply wf_unless; [|done].
    cbn [snd]. apply wf_arr. apply List.Forall_flat_map. specialize (IH _ eq_refl). cbn [tr_Parts] in *. apply allOf_Forall in Hps.
    rewrite List.Forall_forall in *. intros x Hx. by apply IH; [|apply Hps].
  - destruct re; constructor; [|constructor]. apply wf_obj. cbn [app]. repeat (apply List.Forall_cons; [apply wf_str|]). apply wf_unless, wf_str.
Qed.

Lemma blocks_wf ps : Forall cleanPart ps -> wf (JArr (flat_map blockTree ps)).
Proof. intros H. apply wf_arr, List.Forall_flat_map. eapply List.Forall_impl; [|exact H]. apply blockTree_wf. Qed.

Lemma wf_map {A} (f : A -> json) (P : A -> Prop) l : (forall x, P x -> wf (f x)) -> Forall P l -> wf (JArr (List.map f l)).
Proof. intros Hf H. apply wf_arr, List.Forall_map. eapply List.Forall_impl; [|exact H]. done. Qed.

Lemma requestFields_wf r : cleanRequest r -> Forall (fun kt => wf (snd kt)) (fieldsOf (requestFields r)).
Proof.
  intros [Hm Hs Hms Ht Hc H1 H2 H3 H4 Hst Hg Hw]. unfold fieldsOf, requestFields. cbn [List.map fst List.concat].
  repeat (apply List.Forall_app; split).
  - apply wf_unless, wf_str.
  - constructor; [|constructor]. cbn. destruct (String.eqb_spec (MaxTokens (rq_Generation r)) ""); [done|]. by destruct H1.
  - constructor; [|constructor]. cbn [snd]. eapply wf_map; [|exact Hms]. intros m (Hps & _). apply wf_obj.
    apply List.Forall_cons; [apply wf_str|]. apply List.Forall_cons; [by apply blocks_wf|]. apply List.Forall_nil.
  - apply wf_unless. by apply blocks_wf.
  - apply wf_unless. cbn [snd]. eapply wf_map; [|exact Ht]. intros t (_ & _ & _ & Hp). apply wf_obj. cbn [app].
    apply List.Forall_cons; [apply wf_str|]. apply List.Forall_app. split; [apply wf_unless, wf_str|].
    apply List.Forall_cons; [by apply schemaTree_wf|]. apply List.Forall_nil.
  - destruct (rq_ToolChoice r); [|constructor]. constructor; [|constructor]. apply wf_obj. cbn [app].
    apply List.Forall_cons; [apply wf_str|]. apply wf_unless, wf_str.
  - by apply wf_numeral.
  - by apply wf_numeral.
  - by apply wf_numeral.
  - apply wf_unless. cbn [snd]. eapply (wf_map str); [|exact Hst]. intros x _. apply wf_str.
  - by apply wf_unless.
  - constructor.
Qed.

(** The nesting the scanner accepts. *)
Definition fits (r : Request) : Prop := Forall (fun kt => depth (snd kt) <= maxNestingDepth)%nat (fieldsOf (requestFields r)).

Lemma shallow_depth (kts : list (string * json)) : forallb (fun kt => Nat.leb (depth (snd kt)) maxNestingDepth) kts = true ->
  Forall (fun kt => depth (snd kt) <= maxNestingDepth)%nat kts.
Proof. intros H. apply List.Forall_forall. intros kt Hin. rewrite forallb_forall in H. by apply Nat.leb_le, H. Qed.

(** Every clean request is written, in strip mode, as a body that the decoder of the
    schema reads as the normal form of the request; what is dropped is counted. *)
Lemma written_and_read (r : Request) (hs : gmap string string) : cleanRequest r -> fits r ->
  exists en r', MessagesCodec.EncodeRequest ModeStrip r = Ok (en, false)
    /\ MessagesCodec.DecodeRequest (mkRequestInput "POST" (en_Path en) hs (en_Body en)) = Ok r'
    /\ eraseRequest r' = messagesForm r /\ en_DroppedExtras en = requestDrops r.
Proof.
  intros Hr Hf. destruct (request_encodes r Hr) as (en & He & Hb & Hd & Hp). destruct (request_reads r hs Hr) as (r' & Hr' & HE).
  { pose proof (requestFields_wf r Hr) as Hw. unfold fits in Hf. rewrite List.Forall_forall in *. intros kt Hin. split; [by apply Hw|by apply Hf]. }
  exists en, r'. rewrite Hb, Hp. done.
Qed.

End Roundtrip.

End MessagesRoundtrip.
