(* ===== verification/Decoded.v ===== *)
(** * What the decoders promise the encoders

    The invariant of a decoded request: each part has the one variant its type names,
    every text is valid UTF-8, arguments and schemas are compacted JSON and the
    generation parameters are number literals.  Both schemas' decoders establish it, and the
    normalization of a translation turns it into the precondition of the encoders
    ([cleanRequest]). *)

From Stdlib Require Import ZArith Lia Ascii String List.
From stdpp Require Import base strings list gmap pretty.
From coqutil Require Import Datatypes.RecordSettersUsingExistingGetters.
From S2P Require Import Prelude GoStrings GoStd LlmCall StreamCodec JsonText LlmJson ChatCodec MessagesCodec GeminiCodec MessagesRoundtrip.
Import GoStrings GoStd LlmCall JsonText LlmJson CleanRequest.

#[local] Open Scope string_scope.
#[local] Open Scope Z_scope.
#[local] Open Scope list_scope.

Module Decoded.

Section Decoded.
Context {J : Jsonx} {JL : JsonxLaws}.

(** ** The invariant *)

Fixpoint soundPart (p : Part) : Prop :=
  match pt_Type p with
  | PartTypeText => exists t, p = partText t /\ validUTF8 (tx_Text t)
  | PartTypeImage => exists i, p = partImage i /\ validUTF8 (md_MIMEType i) /\ validUTF8 (md_DataB64 i) /\ validUTF8 (md_URL i)
  | PartTypeToolCall => exists c, p = partCall c /\ validUTF8 (tc_ID c) /\ validUTF8 (tc_Name c) /\ compacted (tc_Arguments c)
  | PartTypeToolCallResponse =>
      match pt_ToolCallResponse p with
      | Some r => p = partResult r /\ validUTF8 (tr_ToolCallID r) /\ allOf soundPart (tr_Parts r)
      | None => False
      end
  | PartTypeReasoning => exists r, p = partReasoning r /\ validUTF8 (re_Text r) /\ validUTF8 (re_Signature r)
  | PartTypeRefusal => exists r, p = partRefusal r /\ validUTF8 (rf_Text r)
  | PartTypeAudio => exists a, p = partAudio a
  | PartTypeFile => exists f, p = partFile f
  | PartTypeUnknown => variants p = []
  | PartTypeCitation => False
  end.

Definition namedRole (r : Role) : Prop := validUTF8 (roleString r) /\ roleOf (roleString r) = r.

Definition soundMessage (m : Message) : Prop := Forall soundPart (ms_Parts m) /\ namedRole (ms_Role m).

Definition soundTool (t : ToolDefinition) : Prop :=
  validUTF8 (td_Name t) /\ validUTF8 (td_Description t) /\ compacted (td_Parameters t).

Definition soundChoice (c : ToolChoice) : Prop := validUTF8 (modeString (ch_Mode c)) /\ validUTF8 (ch_Name c).

Record soundRequest (r : Request) : Prop := {
  sound_system : Forall soundPart (rq_System r);
  sound_messages : Forall soundMessage (rq_Messages r);
  sound_tools : Forall soundTool (rq_Tools r);
  sound_choice : match rq_ToolChoice r with Some c => soundChoice c | None => True end;
  sound_maxTokens : numeral (MaxTokens (rq_Generation r));
  sound_temperature : numeral (Temperature (rq_Generation r));
  sound_topP : numeral (TopP (rq_Generation r));
  sound_topK : numeral (TopK (rq_Generation r));
  sound_stops : Forall validUTF8 (StopSequences (rq_Generation r));
}.

(** ** From decoded to clean *)

Lemma strip_clean p : soundPart p -> match fst (stripPart p) with Some q => cleanPart q | None => True end.
Proof.
  induction p as [p IH] using Part_ind'. intros Hs. destruct p as [ty tx im au fi tc tr re rf ci w].
  cbn [pt_ToolCallResponse] in IH. cbn [soundPart pt_Type pt_ToolCallResponse] in Hs. destruct ty; try done.
  - destruct Hs as (t & [= -> -> -> -> -> -> -> -> -> ->] & Hv). cbn. eauto.
  - destruct Hs as (i & [= -> -> -> -> -> -> -> -> -> ->] & ? & ? & ?). cbn. eauto 10.
  - by destruct Hs as (a & [= -> -> -> -> -> -> -> -> -> ->]).
  - by destruct Hs as (f & [= -> -> -> -> -> -> -> -> -> ->]).
  - destruct Hs as (c & [= -> -> -> -> -> -> -> -> -> ->] & ? & ? & ?). cbn. eauto 10.
  - destruct tr as [[id ps e w']|]; [|done]. destruct Hs as ([= -> -> -> -> -> -> -> -> ->] & Hid & Hps).
    specialize (IH _ eq_refl). cbn [tr_ToolCallID tr_Parts] in *. cbn. split; [done|]. split; [done|].
    apply allOf_Forall. apply allOf_Forall in Hps. rewrite List.Forall_forall in *. intros q Hq.
    apply list_elem_of_In, list_elem_of_omap in Hq as (o & Ho & Hq). apply list_elem_of_In, in_map_iff in Ho as (x & <- & Hx).
    specialize (IH x Hx (Hps x Hx)). by rewrite Hq in IH.
  - destruct Hs as (r & [= -> -> -> -> -> -> -> -> -> ->] & ? & ?). cbn. eauto 10.
  - by destruct Hs as (r & [= -> -> -> -> -> -> -> -> -> ->] & ?).
Qed.

Lemma strips_clean ps : Forall soundPart ps -> Forall cleanPart (fst (stripParts ps)).
Proof.
  intros H. unfold stripParts. cbn [fst]. rewrite omap_map. rewrite List.Forall_forall in *. intros q Hq.
  apply list_elem_of_In, list_elem_of_omap in Hq as (p & Hp & Hq). apply list_elem_of_In in Hp.
  pose proof (strip_clean p (H p Hp)) as Hc. by rewrite Hq in Hc.
Qed.

Lemma stripMessage_clean m : soundMessage m -> cleanMessage (fst (stripMessage m)).
Proof.
  intros (Hp & Hr & Hf). unfold stripMessage. pose proof (strips_clean _ Hp) as Hc. destruct (stripParts (ms_Parts m)). by repeat split.
Qed.

Lemma ascii7_valid s : StreamCodec.ascii7 s = true -> validUTF8 s.
Proof.
  intros H. apply valid_ascii. induction s as [|c s IH]; [done|]. cbn in *. apply andb_true_iff in H as [H1 H2]. by rewrite H1, IH.
Qed.

Lemma callID_utf8 n : validUTF8 (callID n).
Proof. apply ascii7_valid. unfold callID. by rewrite StreamCodec.ascii7_app, StreamCodec.pretty_Z_ascii7. Qed.

Lemma ensureParts_sound ps : forall n, Forall soundPart ps -> Forall soundPart (snd (ensureParts n ps)).
Proof.
  induction ps as [|p ps IH]; intros n H; [done|]. apply List.Forall_cons_iff in H as [Hp H]. cbn [ensureParts].
  unfold needsID. destruct (pt_Type p) eqn:Ety; try (specialize (IH n H); destruct (ensureParts n ps); by constructor).
  destruct (pt_ToolCall p) as [tc|] eqn:Etc; [|specialize (IH n H); destruct (ensureParts n ps); by constructor].
  destruct (String.eqb (tc_ID tc) "").
  - specialize (IH (n + 1) H). destruct (ensureParts (n + 1) ps). constructor; [|done].
    destruct p as [ty tx im au fi tc0 tr re rf ci w]. cbn in Ety, Etc. subst. destruct Hp as (c & [= -> -> -> -> -> -> -> -> -> ->] & _ & ? & ?).
    cbn. eexists. split; [done|]. cbn. split; [apply callID_utf8|done].
  - specialize (IH n H). destruct (ensureParts n ps). by constructor.
Qed.

Lemma ensureMessages_sound ms : forall n, Forall soundMessage ms -> Forall soundMessage (snd (ensureMessages n ms)).
Proof.
  induction ms as [|m ms IH]; intros n H; [done|]. apply List.Forall_cons_iff in H as [[Hm Hr] H]. cbn [ensureMessages].
  pose proof (ensureParts_sound (ms_Parts m) n Hm) as Hp. destruct (ensureParts n (ms_Parts m)) as [n1 ps].
  specialize (IH n1 H). destruct (ensureMessages n1 ms). by constructor.
Qed.

Lemma Lift_sound r : soundRequest r -> soundRequest (LiftSystemMessages r).
Proof.
  intros []. split; cbn; try done.
  - apply List.Forall_app. split; [done|]. apply List.Forall_flat_map. apply List.Forall_forall. intros m Hm. apply filter_In in Hm as [Hm _].
    rewrite List.Forall_forall in sound_messages0. by apply sound_messages0.
  - destruct (existsb _ _); [|done]. apply List.Forall_forall. intros m Hm. apply filter_In in Hm as [Hm _].
    rewrite List.Forall_forall in sound_messages0. by apply sound_messages0.
Qed.

Lemma Ensure_sound r : soundRequest r -> soundRequest (EnsureToolCallIDs r).
Proof. intros []. split; cbn; try done. by apply ensureMessages_sound. Qed.

(** What the normalization of a decoded request yields can be written, for any model. *)
Lemma normalize_clean r m : soundRequest r -> validUTF8 m -> cleanRequest ((fst (normalize r)) <| rq_Model := m |>).
Proof.
  intros H Hmodel. apply Lift_sound, Ensure_sound in H. unfold normalize. destruct H. revert sound_system0 sound_messages0 sound_tools0 sound_choice0.
  set (q := EnsureToolCallIDs (LiftSystemMessages r)) in *. intros Hs Hm Ht Hc. unfold StripRequestForTranslation.
  pose proof (strips_clean _ Hs) as Hs'. destruct (stripParts (rq_System q)). split; cbv [set const]; cbn; try done.
  - rewrite map_map. apply List.Forall_map. eapply List.Forall_impl; [|exact Hm]. apply stripMessage_clean.
  - apply List.Forall_map. eapply List.Forall_impl; [|exact Ht]. by intros t (? & ? & ?).
  - subst q. revert Hc. cbn. destruct (rq_ToolChoice r); cbn; [|done]. intros [? ?]. by repeat split.
Qed.

(** ** Reading keeps an invariant *)

Definition scanned (v : json) : Prop := good maxNestingDepth v.

Lemma scanned_elements l : scanned (JArr l) -> Forall scanned l.
Proof.
  intros [Hw Hd]. cbn in Hw, Hd. apply allOf_Forall in Hw. rewrite List.Forall_forall in *. intros v Hv. split; [by apply Hw|].
  apply (depth_elements_le l); [lia|done].
Qed.

Lemma scanned_members ms : scanned (JObj ms) -> Forall (fun kv => scanned (snd kv)) ms.
Proof.
  intros [Hw Hd]. cbn in Hw, Hd. apply allOf_Forall in Hw. rewrite List.Forall_forall in *. intros v Hv. split; [by apply Hw|].
  apply (depth_members_le ms); [lia|done].
Qed.

Lemma objectOf_scanned v : scanned v -> Forall (fun kv => scanned (snd kv)) (fst (objectOf v)).
Proof. destruct v; try (intros; by constructor). apply scanned_members. Qed.

Lemma objectOfText_scanned raw : Forall (fun kv => scanned (snd kv)) (fst (objectOfText raw)).
Proof.
  unfold objectOfText. destruct (skipSpace raw) as [|c t]; [by constructor|]. destruct (Ascii.eqb c "{").
  - pose proof (objectBody_good maxNestingDepth (value maxNestingDepth) (value_good maxNestingDepth) t) as H.
    destruct (objectBody _ t) as [ms r]. cbn in *. eapply List.Forall_impl; [|exact H]. by intros kv [_ ?].
  - destruct (Ascii.eqb c "["); by constructor.
Qed.

Lemma scanned_compacted v : scanned v -> compacted (print v).
Proof. intros H. right. unfold Compact. by rewrite parse_print. Qed.

Section Keeps.
Context {S : Type} `{HasWire S} (I : S -> Prop).
Hypothesis I_wire : forall w s, I s -> I (setWire w s).

(** A handler that preserves [I]. *)
Definition keeps (fn : json -> S -> outcome string S) : Prop := forall v s s', scanned v -> I s -> fn v s = Ok s' -> I s'.

Lemma assoc_keeps tbl k fn : Forall (fun kf => keeps (snd kf)) tbl -> assoc tbl k = Some fn -> keeps fn.
Proof.
  induction 1 as [|[k' f] tbl Hf _ IH]; cbn; [done|]. destruct (String.eqb k' k); [by intros [= <-]|done].
Qed.

Lemma knownMembers_keeps tbl ms : Forall (fun kf => keeps (snd kf)) tbl -> Forall (fun kv => scanned (snd kv)) ms ->
  forall s s', I s -> knownMembers (assoc tbl) ms s = Ok s' -> I s'.
Proof.
  intros Ht. induction 1 as [|[k v] ms Hv _ IH]; intros s s' Hs; cbn [knownMembers]; [by intros [= <-]|]. intros H1. inv_ok.
  assert (I (onWire (addKey (Unquote k)) s)) as Hs1 by (by apply I_wire).
  refine (IH _ _ _ H1). destruct (assoc tbl (Unquote k)) as [fn|] eqn:E.
  - eapply (assoc_keeps _ _ _ Ht E); [exact Hv|exact Hs1|done].
  - inv_ok. by apply I_wire.
Qed.

Lemma DecodeKnown_keeps tbl o s s' : Forall (fun kf => keeps (snd kf)) tbl -> Forall (fun kv => scanned (snd kv)) (fst o) ->
  I s -> DecodeKnown (assoc tbl) o s = Ok s' -> I s'.
Proof.
  intros Ht Ho Hs Hd. unfold DecodeKnown in Hd. inv_ok. destruct (snd o); [done|]. inv_ok. by eapply knownMembers_keeps.
Qed.

Lemma onWire_keeps f s : I s -> I (onWire f s).
Proof. apply I_wire. Qed.

End Keeps.

Lemma unmarshalString_valid cur v s : validUTF8 cur -> unmarshalString cur v = Ok s -> validUTF8 s.
Proof. destruct v; cbn; try done; intros Hc [= <-]; [done|apply unquote_valid]. Qed.

Lemma empty_valid : validUTF8 "".
Proof. by apply valid_ascii. Qed.

(** The texts read with a shadow. *)
Lemma shadow_reads {S} `{HasWire S} (I : S -> Prop) (v : json) key (st : S) s st' :
  (forall w s, I s -> I (setWire w s)) -> I st -> DecodeShadowString v key st = Ok (s, st') -> validUTF8 s /\ I st'.
Proof.
  unfold DecodeShadowString. intros Hw HI Hd. inv_ok. split; [eapply unmarshalString_valid; [apply empty_valid|done]|].
  destruct (String.eqb _ _); [done|by apply Hw].
Qed.

Lemma omapM_all {A B} (f : A -> outcome string B) (P : A -> Prop) (Q : B -> Prop) l :
  (forall x y, P x -> f x = Ok y -> Q y) -> Forall P l -> forall ys, omapM f l = Ok ys -> Forall Q ys.
Proof.
  intros Hf. induction 1 as [|x l Hx _ IH]; intros ys; cbn [omapM]; [by intros [= <-]|]. intros H1. inv_ok.
  constructor; [by eapply Hf|by apply IH].
Qed.

Lemma unmarshalList_all {B} (f : json -> outcome string B) (Q : B -> Prop) v :
  (forall x y, scanned x -> f x = Ok y -> Q y) -> scanned v -> forall ys, unmarshalList f v = Ok ys -> Forall Q ys.
Proof.
  intros Hf Hv ys. destruct v; cbn; try done; [by intros [= <-]|]. by apply (omapM_all f scanned), scanned_elements.
Qed.

Lemma elements_all {B} (f : json -> outcome string B) (Q : B -> Prop) v l ys :
  (forall x y, scanned x -> f x = Ok y -> Q y) -> scanned v -> unmarshalElements v = Ok l -> omapM f l = Ok ys -> Forall Q ys.
Proof.
  intros Hf Hv Hl. apply (omapM_all f scanned); [done|]. refine (unmarshalList_all _ scanned v _ Hv l Hl). by intros x y Hx [= <-].
Qed.

Lemma DecodeNumber_numeral v n : scanned v -> DecodeNumber v = Ok n -> numeral n.
Proof.
  intros [Hw _]. destruct v; cbn; try done.
  - intros [= <-]. by left.
  - intros [= <-]. by right.
  - destruct (number (Unquote lit)) as [[a []]|] eqn:E; try done. intros [= <-]. right.
    unfold isNumber. pose proof (number_text _ _ _ E) as Ht. rewrite str_app_nil_r in Ht. by rewrite E, <- Ht.
Qed.

Lemma unmarshalStruct_keeps {A} names (set : string -> json -> A -> outcome string A) (I : A -> Prop) cur v a :
  (forall f v a a', scanned v -> I a -> set f v a = Ok a' -> I a') -> I cur -> scanned v -> unmarshalStruct names set cur v = Ok a -> I a.
Proof.
  intros Hset Hc Hv. destruct v; cbn [unmarshalStruct]; try done; [by intros [= <-]|]. apply scanned_members in Hv.
  revert cur Hc. induction Hv as [|[k v] ms Hv _ IH]; intros cur Hc; cbn [unmarshalMembers]; [by intros [= <-]|]. intros H1. inv_ok.
  refine (IH _ _ H1). destruct (selects names (Unquote k)); [by eapply Hset|by inv_ok].
Qed.

End Decoded.

(** The members of a table, one after the other. *)
Ltac handlers := repeat (apply List.Forall_cons || apply List.Forall_nil); intros ?v ?s ?s' ?Hv ?Hs ?H; cbn [snd] in *.
(** One text read, without and with a shadow. *)
Ltac reads_text := eapply unmarshalString_valid; [|eassumption]; (assumption || apply empty_valid).
Ltac shadowed I :=
  match goal with
  | H : DecodeShadowString _ _ _ = Ok (_, _) |- _ => eapply (shadow_reads I) in H; [destruct H as [? ?]| |]
  end.

(** Unpack the pairs of the binds. *)
Ltac unbind :=
  repeat (inv_ok; match goal with H : (let '(_, _) := ?p in _) = Ok _ |- _ => destruct p end); inv_ok.

(** A handler that does nothing, and one that reads a text into a field. *)
Ltac consumed := try unfold MessagesCodec.consumeType in *; by inv_ok.
Ltac text_field I :=
  unbind; shadowed I; [|done|done];
  match goal with Hi : I _ |- _ => let H := fresh in pose proof Hi as H; cbv beta in H; clear Hi; hnf in H end;
  hnf; cbv [set const]; cbn; intuition.

(** ** Chat Completions *)

Section Chat.
Context {J : Jsonx} {JL : JsonxLaws}.

Lemma callPart_sound c : validUTF8 (ChatCodec.ce_ID c) -> validUTF8 (ChatCodec.ce_Name c) -> soundPart (ChatCodec.callPart c).
Proof.
  intros Hi Hn. unfold ChatCodec.callPart. eexists. split; [done|]. cbn. split; [done|]. split; [done|].
  destruct (String.eqb _ ""); [by left|]. destruct (Compact _) as [a|] eqn:E; [|by left]. right. by eapply Compact_idem.
Qed.

Definition soundCall (c : ChatCodec.callElem) : Prop := validUTF8 (ChatCodec.ce_ID c) /\ validUTF8 (ChatCodec.ce_Name c).

Lemma setCall_sound f v c c' : scanned v -> soundCall c -> ChatCodec.setCall f v c = Ok c' -> soundCall c'.
Proof.
  intros Hv [Hi Hn] Hc. unfold ChatCodec.setCall in Hc. repeat destruct (String.eqb _ _); inv_ok.
  - split; cbv [set const]; cbn; [reads_text|done].
  - done.
  - refine (unmarshalStruct_keeps _ _ soundCall _ _ _ _ _ Hv Hc); [|done]. clear -J JL. intros f v a a' Hv [Hi Hn] Ha.
    unfold ChatCodec.setCallFunction in Ha. destruct (String.eqb _ _); inv_ok; [|done].
    split; cbv [set const]; cbn; [done|reads_text].
Qed.

Lemma toolCalls_sound {S} `{HasWire S} (I : S -> Prop) v (st : S) parts st' : (forall w s, I s -> I (setWire w s)) -> scanned v -> I st ->
  ChatCodec.decodeToolCalls v st = Ok (parts, st') -> Forall soundPart parts /\ I st'.
Proof.
  intros Hw Hv Hs Hd. unfold ChatCodec.decodeToolCalls in Hd. inv_ok. split; [|by apply Hw].
  assert (Forall soundCall x) as Hx.
  { refine (unmarshalList_all _ soundCall v _ Hv x ltac:(done)). intros v0 y Hv0 Hc.
    refine (unmarshalStruct_keeps _ _ soundCall _ _ _ setCall_sound _ Hv0 Hc). by split; apply empty_valid. }
  apply List.Forall_map. eapply List.Forall_impl; [|exact Hx]. intros c [? ?]. by apply callPart_sound.
Qed.

Lemma text_handlers_keep : Forall (fun kf => keeps (fun t => validUTF8 (tx_Text t)) (snd kf)) ChatCodec.textHandlers.
Proof.
  handlers; unbind; [done|]. shadowed (fun t => validUTF8 (tx_Text t)); [|done|done]. done.
Qed.

Definition soundImage (i : MediaPart) : Prop := validUTF8 (md_MIMEType i) /\ validUTF8 (md_DataB64 i) /\ validUTF8 (md_URL i).

Lemma image_handlers_keep : Forall (fun kf => keeps soundImage (snd kf)) ChatCodec.imageHandlers.
Proof.
  handlers; unbind; [done|]. destruct Hs as (? & ? & Hu). unfold soundImage. cbv [set const onWire setWire wire_media]. cbn.
  split; [done|]. split; [done|].
  refine (unmarshalStruct_keeps _ _ validUTF8 _ _ _ _ empty_valid Hv ltac:(eassumption)).
  intros f u a a' _ Ha Hset. reads_text.
Qed.

Lemma contentPart_sound el p : scanned el -> ChatCodec.decodeContentPart el = Ok p -> soundPart p.
Proof.
  intros Hel Hd. apply objectOf_scanned in Hel. unfold ChatCodec.decodeContentPart in Hd. inv_ok.
  destruct (String.eqb x "text"); [|destruct (String.eqb x "image_url")]; inv_ok.
  - exists x0. split; [done|].
    refine (DecodeKnown_keeps (fun t => validUTF8 (tx_Text t)) _ _ _ _ _ text_handlers_keep Hel _ ltac:(eassumption)); [done|apply empty_valid].
  - exists x0. split; [done|].
    refine (DecodeKnown_keeps soundImage _ _ _ _ _ image_handlers_keep Hel _ ltac:(eassumption)); [done|repeat split; apply empty_valid].
  - done.
Qed.

Lemma textPart_sound s : validUTF8 s -> soundPart (textPart s).
Proof. intros Hs. by eexists. Qed.

Definition soundDecoding (d : ChatCodec.decoding) : Prop :=
  soundMessage (ChatCodec.dm_Msg d) /\ Forall soundPart (ChatCodec.dm_Content d) /\ validUTF8 (ChatCodec.dm_ToolCallID d).

Lemma roleOf_named s : validUTF8 s -> namedRole (roleOf s).
Proof.
  intros Hs. unfold roleOf. repeat (case_match; [by split; [apply valid_ascii|]|]). split; [done|].
  unfold roleOf, roleString. by rewrite H, H0, H1, H2.
Qed.

#[local] Existing Instance ChatCodec.wire_decoding.

Lemma decoding_wire w d : soundDecoding d -> soundDecoding (setWire w d).
Proof. done. Qed.

Lemma content_string_sound v d s d' : soundDecoding d -> DecodeShadowString v "content" d = Ok (s, d') ->
  soundDecoding (ChatCodec.withContent [textPart s] (onWire (SetHint "content" "string") d')).
Proof.
  intros Hd H. apply (shadow_reads soundDecoding) in H as [Hs (Hm & Hc & Hi)]; [|done|done]. split; [done|]. split; [|done].
  constructor; [by apply textPart_sound|constructor].
Qed.

Lemma addParts_sound ps d : Forall soundPart ps -> soundDecoding d -> soundDecoding (ChatCodec.addParts ps d).
Proof. intros Hps ((Hp & Hr) & Hc & Hi). split; [|done]. split; [|done]. by apply List.Forall_app. Qed.

Lemma contentParts_sound v l : scanned v -> ChatCodec.decodeContentParts v = Ok l -> Forall soundPart l.
Proof. intros Hv H. unfold ChatCodec.decodeContentParts in H. inv_ok. by eapply (elements_all _ soundPart v); [apply contentPart_sound|..]. Qed.

Lemma message_handlers_keep : Forall (fun kf => keeps soundDecoding (snd kf)) ChatCodec.messageHandlers.
Proof.
  handlers.
  - unbind. destruct Hs as ((Hp & Hr) & Hc & Hi). destruct (String.eqb x "developer"); inv_ok; (split; [|done]); (split; [done|]).
    + by split; [apply valid_ascii|].
    + apply roleOf_named. reads_text.
  - destruct v; unbind; try done; try (by eapply content_string_sound);
      (split; [by destruct Hs|]; split; [by eapply contentParts_sound|by destruct Hs as (? & ? & ?)]).
  - unbind. eapply (toolCalls_sound soundDecoding) in H0 as [? ?]; [|done..]. by apply addParts_sound.
  - unbind. shadowed soundDecoding; [|done|done]. match goal with Hd : soundDecoding _ |- _ => destruct Hd as (? & ? & ?) end. done.
  - destruct v; unbind; try done; (shadowed soundDecoding; [|done|done]); apply addParts_sound; try done;
      (constructor; [|constructor]); by eexists.
Qed.

Lemma message_sound el m : scanned el -> ChatCodec.decodeMessage el = Ok m -> soundMessage m.
Proof.
  intros Hel Hd. unfold ChatCodec.decodeMessage in Hd. inv_ok.
  assert (soundDecoding x) as ((Hp & Hr) & Hc & Hi).
  { refine (DecodeKnown_keeps soundDecoding decoding_wire _ _ _ _ message_handlers_keep (objectOf_scanned _ Hel) _ ltac:(eassumption)).
    split; [split; [constructor|by split; [apply empty_valid|]]|split; [constructor|apply empty_valid]]. }
  unfold ChatCodec.finishMessage. destruct (ms_Role (ChatCodec.dm_Msg x)); split; cbn; try done; try (by apply List.Forall_app).
  constructor; [|done]. cbn. split; [done|]. split; [done|]. by apply allOf_Forall.
Qed.

Definition soundElem (t : ChatCodec.toolElem) : Prop :=
  validUTF8 (ChatCodec.te_Name t) /\ validUTF8 (ChatCodec.te_Description t) /\ compacted (ChatCodec.te_Parameters t).

Lemma setTool_sound f v t t' : scanned v -> soundElem t -> ChatCodec.setTool f v t = Ok t' -> soundElem t'.
Proof.
  intros Hv Ht H. unfold ChatCodec.setTool in H. destruct (String.eqb _ _); [by inv_ok|].
  refine (unmarshalStruct_keeps _ _ soundElem _ _ _ _ Ht Hv H). clear -J JL. intros f v a a' Hv (? & ? & ?) Ha.
  unfold ChatCodec.setToolFunction in Ha. unfold soundElem. repeat destruct (String.eqb _ _); inv_ok; cbv [set const]; cbn.
  - split; [reads_text|done].
  - split; [done|]. split; [reads_text|done].
  - split; [done|]. split; [done|by apply scanned_compacted].
Qed.

(** What a handler of the request leaves sound. *)
Lemma request_wire w r : soundRequest r -> soundRequest (setWire w r).
Proof. by intros []. Qed.

Lemma decodeTools_sound v r r' : scanned v -> soundRequest r -> ChatCodec.decodeTools v r = Ok r' -> soundRequest r'.
Proof.
  intros Hv Hr H. unfold ChatCodec.decodeTools in H. inv_ok. destruct Hr. split; cbv [set const]; cbn; try done.
  apply List.Forall_app. split; [done|]. apply List.Forall_map.
  refine (unmarshalList_all _ soundElem v _ Hv x ltac:(done)). intros v0 y Hv0 Hy.
  refine (unmarshalStruct_keeps _ _ soundElem _ _ _ setTool_sound _ Hv0 Hy).
  split; [apply empty_valid|]. split; [apply empty_valid|by left].
Qed.

Lemma modeOf_valid s : validUTF8 s -> validUTF8 (modeString (modeOf s)).
Proof. by rewrite modeOf_string. Qed.

Lemma toolChoice_value_sound v c :
  (match v with
   | JStr _ => let! s := unmarshalString "" v in Ok (mkChoice (modeOf s) "" zeroWire)
   | _ =>
       let! name := unmarshalStruct ["function"]
         (fun _ v cur => unmarshalStruct ["name"] (fun _ v cur => unmarshalString cur v) cur v) "" v in
       Ok (mkChoice ToolChoiceNamed name zeroWire)
   end) = Ok c -> scanned v -> soundChoice c.
Proof.
  intros H Hv.
  assert (forall name, unmarshalStruct ["function"]
         (fun _ v cur => unmarshalStruct ["name"] (fun _ v cur => unmarshalString cur v) cur v) "" v = Ok name -> validUTF8 name) as Hn.
  { intros name Hname. refine (unmarshalStruct_keeps _ _ validUTF8 _ _ _ _ empty_valid Hv Hname). intros _ u a a' Hu Ha Hs.
    refine (unmarshalStruct_keeps _ _ validUTF8 _ _ _ _ Ha Hu Hs). intros _ w b b' _ Hb Hw. reads_text. }
  destruct v; inv_ok; (split; [|first [apply empty_valid | by apply Hn]]); try (by apply valid_ascii).
  apply modeOf_valid. reads_text.
Qed.

Lemma decodeToolChoice_sound v r r' : scanned v -> soundRequest r -> ChatCodec.decodeToolChoice v r = Ok r' -> soundRequest r'.
Proof.
  intros Hv Hr H. unfold ChatCodec.decodeToolChoice in H. inv_ok. apply toolChoice_value_sound in H0; [|done].
  destruct Hr. by split; cbv [set const]; cbn.
Qed.

Lemma sound_generation f r : soundRequest r ->
  (let g := f (rq_Generation r) in
   numeral (MaxTokens g) /\ numeral (Temperature g) /\ numeral (TopP g) /\ numeral (TopK g) /\ Forall validUTF8 (StopSequences g)) ->
  soundRequest (ChatCodec.onGeneration f r).
Proof. intros [] (? & ? & ? & ? & ?). by split; cbv [ChatCodec.onGeneration set const]; cbn. Qed.

Lemma numberHandler_sound f v r r' : scanned v -> soundRequest r -> ChatCodec.numberHandler f v r = Ok r' ->
  (forall n, numeral n ->
    let g := f n (rq_Generation r) in
    numeral (MaxTokens g) /\ numeral (Temperature g) /\ numeral (TopP g) /\ numeral (TopK g) /\ Forall validUTF8 (StopSequences g)) ->
  soundRequest r'.
Proof.
  intros Hv Hr H Hf. unfold ChatCodec.numberHandler in H. inv_ok. apply sound_generation; [done|]. apply Hf. by eapply DecodeNumber_numeral.
Qed.

Lemma strings_valid v l : scanned v -> unmarshalList (unmarshalString "") v = Ok l -> Forall validUTF8 l.
Proof. intros Hv. apply (unmarshalList_all _ validUTF8); [|done]. intros x y _ H. reads_text. Qed.

End Chat.

Ltac numbers := eapply numberHandler_sound; [done|done|done|]; match goal with Hr : soundRequest _ |- _ => destruct Hr end;
  intros; cbv [set const]; cbn; by repeat split.

Section ChatRequest.
Context {J : Jsonx} {JL : JsonxLaws}.

Lemma with_model m r : soundRequest r -> soundRequest (r <| rq_Model := m |>).
Proof. intros []. by split; cbv [set const]; cbn. Qed.

Lemma with_messages ms r : Forall soundMessage ms -> soundRequest r -> soundRequest (r <| rq_Messages := ms |>).
Proof. intros Hm []. by split; cbv [set const]; cbn. Qed.

Lemma with_stream b r : soundRequest r -> soundRequest (r <| rq_Stream := b |>).
Proof. intros []. by split; cbv [set const]; cbn. Qed.

Lemma with_stops ss r : Forall validUTF8 ss -> soundRequest r ->
  soundRequest (ChatCodec.onGeneration (fun g => g <| StopSequences := ss |>) r).
Proof. intros Hs Hr. apply sound_generation; [done|]. destruct Hr. cbv [set const]; cbn. by repeat split. Qed.

Lemma slice_sound v key r ss r' : scanned v -> soundRequest r -> DecodeShadowStringSlice v key r = Ok (ss, r') ->
  Forall validUTF8 ss /\ soundRequest r'.
Proof.
  intros Hv Hr H. unfold DecodeShadowStringSlice in H. inv_ok. split; [by eapply strings_valid|by apply request_wire].
Qed.

Lemma decodeStop_sound v r r' : scanned v -> soundRequest r -> ChatCodec.decodeStop v r = Ok r' -> soundRequest r'.
Proof.
  intros Hv Hr H. unfold ChatCodec.decodeStop in H. destruct v; unbind;
    try (match goal with Hs : DecodeShadowStringSlice _ _ _ = _ |- _ => apply slice_sound in Hs as [? ?]; [by apply with_stops|done..] end).
  eapply (shadow_reads soundRequest) in H0 as [Hs Hr1]; [|apply request_wire|done]. apply with_stops; [by constructor|by apply request_wire].
Qed.

Lemma chat_request_handlers_keep : Forall (fun kf => keeps soundRequest (snd kf)) ChatCodec.requestHandlers.
Proof.
  handlers.
  - unbind. shadowed soundRequest; [by apply with_model|apply request_wire|done].
  - unbind. apply with_messages; [|done]. unfold ChatCodec.decodeMessages in *. inv_ok.
    by eapply (elements_all _ soundMessage v); [apply message_sound|..].
  - by eapply decodeTools_sound.
  - by eapply decodeToolChoice_sound.
  - numbers.
  - numbers.
  - numbers.
  - numbers.
  - by eapply decodeStop_sound.
  - unbind. by apply with_stream.
Qed.

Lemma zeroRequest_sound provider w : soundRequest (mkRequest provider "chat" "" [] [] [] None ChatCodec.zeroGeneration false w).
Proof. split; cbn; try constructor; try done; apply empty_valid. Qed.

(** What the decoder of Chat Completions accepts is sound. *)
Lemma chat_sound provider inp r : ChatCodec.DecodeRequest provider inp = Ok r -> soundRequest r.
Proof.
  unfold ChatCodec.DecodeRequest. destruct (String.eqb _ _); [|done]. intros H.
  destruct (DecodeKnown _ _ _) as [r'| |] eqn:E; try done. injection H as ->.
  refine (DecodeKnown_keeps soundRequest request_wire _ _ _ _ chat_request_handlers_keep (objectOfText_scanned _) _ E).
  apply zeroRequest_sound.
Qed.

End ChatRequest.
(** ** Messages *)

Section Messages.
Context {J : Jsonx} {JL : JsonxLaws}.

Definition soundCallPart (c : ToolCallPart) : Prop := validUTF8 (tc_ID c) /\ validUTF8 (tc_Name c) /\ compacted (tc_Arguments c).
Definition soundReasoning (r : ReasoningPart) : Prop := validUTF8 (re_Text r) /\ validUTF8 (re_Signature r).
Definition soundResult (r : ToolCallResponsePart) : Prop := validUTF8 (tr_ToolCallID r) /\ Forall soundPart (tr_Parts r).

Lemma block_text_keep : Forall (fun kf => keeps (fun t => validUTF8 (tx_Text t)) (snd kf)) MessagesCodec.textHandlers.
Proof. handlers; [consumed|]. unbind. shadowed (fun t => validUTF8 (tx_Text t)); [|done|done]. done. Qed.

Lemma block_call_keep : Forall (fun kf => keeps soundCallPart (snd kf)) MessagesCodec.callHandlers.
Proof.
  handlers; [consumed|text_field soundCallPart|text_field soundCallPart|].
  inv_ok. destruct Hs as (? & ? & ?). unfold soundCallPart. cbv [set const]. cbn. split; [done|]. split; [done|by apply scanned_compacted].
Qed.

Lemma block_reasoning_keep : Forall (fun kf => keeps soundReasoning (snd kf)) MessagesCodec.reasoningHandlers.
Proof. handlers; [consumed|text_field soundReasoning|text_field soundReasoning]. Qed.

Definition soundSource (x : MessagesCodec.imageSource) : Prop :=
  validUTF8 (MessagesCodec.so_MediaType x) /\ validUTF8 (MessagesCodec.so_Data x) /\ validUTF8 (MessagesCodec.so_URL x).

Lemma setSource_sound f v x x' : scanned v -> soundSource x -> MessagesCodec.setSource f v x = Ok x' -> soundSource x'.
Proof.
  intros Hv (? & ? & ?) Hx. unfold MessagesCodec.setSource in Hx. unfold soundSource.
  repeat destruct (String.eqb _ _); inv_ok; cbv [set const]; cbn; repeat split; try done; reads_text.
Qed.

Lemma block_image_keep : Forall (fun kf => keeps soundImage (snd kf)) MessagesCodec.imageHandlers.
Proof.
  handlers; [consumed|]. unbind. unfold MessagesCodec.decodeImageSource in *. inv_ok.
  match goal with Hx : unmarshalStruct _ _ _ _ = Ok ?x |- _ => assert (soundSource x) as (? & ? & ?); [|done];
    refine (unmarshalStruct_keeps _ _ soundSource _ _ _ setSource_sound _ Hv Hx) end.
  repeat split; apply empty_valid.
Qed.

Section Nested.
Context (decodeNested : json -> outcome string (list Part)).
Hypothesis nested_sound : forall v l, scanned v -> decodeNested v = Ok l -> Forall soundPart l.

Lemma block_result_keep : Forall (fun kf => keeps soundResult (snd kf)) (MessagesCodec.resultHandlers decodeNested).
Proof.
  handlers; [consumed| | |].
  - unbind. shadowed soundResult; [|done|done]. match goal with Hr : soundResult _ |- _ => destruct Hr end. done.
  - by inv_ok.
  - assert (forall l, decodeNested v = Ok l -> soundResult (mkResponsePart (tr_ToolCallID s) l (tr_IsError s) (tr_Wire s))) as Hn.
    { intros l Hl. split; [by destruct Hs|by eapply nested_sound]. }
    destruct v; unbind; try (by apply Hn). shadowed soundResult; [|done|done]. match goal with Hr : soundResult _ |- _ => destruct Hr end.
    split; [done|]. constructor; [by apply textPart_sound|constructor].
Qed.

(** A block whose members are read by a table that keeps the part sound. *)
Lemma known_sound {S} `{HasWire S} (I : S -> Prop) tbl el st s : (forall w s, I s -> I (setWire w s)) -> Forall (fun kf => keeps I (snd kf)) tbl ->
  scanned el -> I st -> DecodeKnown (assoc tbl) (objectOf el) st = Ok s -> I s.
Proof. intros Hw Ht Hel Hst Hd. by refine (DecodeKnown_keeps I Hw _ _ _ _ Ht (objectOf_scanned _ Hel) Hst Hd). Qed.

Lemma block_sound el p : scanned el -> MessagesCodec.decodeBlock decodeNested el = Ok p -> soundPart p.
Proof.
  intros Hel Hd. unfold MessagesCodec.decodeBlock in Hd. inv_ok.
  repeat match goal with H : (if String.eqb _ ?s then _ else _) = _ |- _ => destruct (String.eqb x s) end; inv_ok; try done.
  - eexists. split; [done|]. refine (known_sound (fun t => validUTF8 (tx_Text t)) _ el _ _ _ block_text_keep Hel _ H0); [done|].
    apply empty_valid.
  - eexists. split; [done|]. refine (known_sound soundCallPart _ el _ _ _ block_call_keep Hel _ H0); [done|].
    split; [apply empty_valid|]. split; [apply empty_valid|by left].
  - cbn. split; [done|]. rewrite allOf_Forall. refine (known_sound soundResult _ el _ _ _ block_result_keep Hel _ H0); [done|].
    split; [apply empty_valid|constructor].
  - eexists. split; [done|]. refine (known_sound soundReasoning _ el _ _ _ block_reasoning_keep Hel _ H0); [done|].
    split; apply empty_valid.
  - eexists. split; [done|]. refine (known_sound soundImage _ el _ _ _ block_image_keep Hel _ H0); [done|].
    repeat split; apply empty_valid.
Qed.

Lemma decodeBlocks_sound v l : scanned v -> MessagesCodec.decodeBlocks decodeNested v = Ok l -> Forall soundPart l.
Proof. intros Hv H. unfold MessagesCodec.decodeBlocks in H. inv_ok. by eapply (elements_all _ soundPart v); [apply block_sound|..]. Qed.
End Nested.

Lemma decodePartsN_sound fuel : forall v l, scanned v -> MessagesCodec.decodePartsN fuel v = Ok l -> Forall soundPart l.
Proof. induction fuel as [|fuel IH]; cbn [MessagesCodec.decodePartsN]; by apply decodeBlocks_sound. Qed.

Lemma parts_sound v l : scanned v -> MessagesCodec.decodeParts v = Ok l -> Forall soundPart l.
Proof. apply decodePartsN_sound. Qed.

Lemma message_keep : Forall (fun kf => keeps soundMessage (snd kf)) MessagesCodec.messageHandlers.
Proof.
  handlers.
  - inv_ok. destruct Hs as (Hp & Hr). split; [done|]. apply roleOf_named. reads_text.
  - assert (forall l, MessagesCodec.decodeParts v = Ok l -> soundMessage (s <| ms_Parts := l |>)) as Hn.
    { intros l Hl. split; [by eapply parts_sound|by destruct Hs]. }
    destruct v; unbind; try (by apply Hn). shadowed soundMessage; [|done|done]. match goal with Hr : soundMessage _ |- _ => destruct Hr end.
    split; [|done]. constructor; [by apply textPart_sound|constructor].
Qed.

Lemma tool_keep : Forall (fun kf => keeps soundTool (snd kf)) MessagesCodec.toolHandlers.
Proof.
  handlers; [text_field soundTool|text_field soundTool|]. inv_ok. destruct Hs as (? & ? & ?). unfold soundTool. cbv [set const]. cbn.
  split; [done|]. split; [done|by apply scanned_compacted].
Qed.

Lemma messages_choiceMode_valid s : validUTF8 s -> validUTF8 (modeString (MessagesCodec.choiceMode s)).
Proof. intros Hs. unfold MessagesCodec.choiceMode. repeat (case_match; [by apply valid_ascii|]). by rewrite modeOf_string. Qed.

Lemma choice_keep : Forall (fun kf => keeps soundChoice (snd kf)) MessagesCodec.toolChoiceHandlers.
Proof.
  handlers; [|text_field soundChoice]. inv_ok. destruct Hs. split; [|done]. apply messages_choiceMode_valid. reads_text.
Qed.

Lemma with_system ps r : Forall soundPart ps -> soundRequest r -> soundRequest (r <| rq_System := ps |>).
Proof. intros Hm []. by split; cbv [set const]; cbn. Qed.

Lemma with_tools ts r : Forall soundTool ts -> soundRequest r -> soundRequest (r <| rq_Tools := ts |>).
Proof. intros Hm []. by split; cbv [set const]; cbn. Qed.

Lemma with_choice c r : soundChoice c -> soundRequest r -> soundRequest (r <| rq_ToolChoice := Some c |>).
Proof. intros Hm []. by split; cbv [set const]; cbn. Qed.

Lemma messages_request_handlers_keep : Forall (fun kf => keeps soundRequest (snd kf)) MessagesCodec.requestHandlers.
Proof.
  handlers.
  - unbind. shadowed soundRequest; [by apply with_model|apply request_wire|done].
  - numbers.
  - numbers.
  - numbers.
  - numbers.
  - unbind. match goal with Hs : DecodeShadowStringSlice _ _ _ = _ |- _ => apply slice_sound in Hs as [? ?]; [by apply with_stops|done..] end.
  - unbind. by apply with_stream.
  - assert (forall l, MessagesCodec.decodeParts v = Ok l -> soundRequest (s <| rq_System := l |>)) as Hn.
    { intros l Hl. apply with_system; [by eapply parts_sound|done]. }
    destruct v; unbind; try (by apply Hn). shadowed soundRequest; [|apply request_wire|done].
    apply with_system; [|by apply request_wire]. constructor; [by apply textPart_sound|constructor].
  - unbind. unfold MessagesCodec.decodeMessages in *. inv_ok. apply with_messages; [|done].
    eapply (elements_all _ soundMessage v); [|done..]. intros el m Hel Hd.
    refine (known_sound soundMessage _ el _ _ _ message_keep Hel _ Hd); [done|]. split; [constructor|by split; [apply empty_valid|]].
  - unbind. unfold MessagesCodec.decodeTools in *. inv_ok. apply with_tools; [|done].
    eapply (elements_all _ soundTool v); [|done..]. intros el m Hel Hd.
    refine (known_sound soundTool _ el _ _ _ tool_keep Hel _ Hd); [done|]. split; [apply empty_valid|]. split; [apply empty_valid|by left].
  - unbind. apply with_choice; [|done].
    refine (known_sound soundChoice _ v _ _ _ choice_keep Hv _ ltac:(eassumption)); [done|]. split; apply empty_valid.
Qed.

(** What the decoder of Messages accepts is sound. *)
Lemma messages_sound inp r : MessagesCodec.DecodeRequest inp = Ok r -> soundRequest r.
Proof.
  unfold MessagesCodec.DecodeRequest. destruct (String.eqb _ _); [|done]. intros H.
  destruct (DecodeKnown _ _ _) as [r'| |] eqn:E; try done. injection H as ->.
  refine (DecodeKnown_keeps soundRequest request_wire _ _ _ _ messages_request_handlers_keep (objectOfText_scanned _) _ E).
  apply zeroRequest_sound.
Qed.

End Messages.
(** ** Gemini *)

Section Gemini.
Context {J : Jsonx} {JL : JsonxLaws}.

Lemma setNamed_sound f v x x' : scanned v -> validUTF8 (fst x) /\ compacted (snd x) -> GeminiCodec.setNamed f v x = Ok x' ->
  validUTF8 (fst x') /\ compacted (snd x').
Proof.
  intros Hv [H1 H2] Hx. unfold GeminiCodec.setNamed in Hx. destruct (String.eqb _ _); inv_ok; cbn.
  - split; [reads_text|done].
  - split; [done|by apply scanned_compacted].
Qed.

Lemma named_sound names v x : scanned v -> unmarshalStruct names GeminiCodec.setNamed ("", "") v = Ok x ->
  validUTF8 (fst x) /\ compacted (snd x).
Proof.
  intros Hv Hx. refine (unmarshalStruct_keeps names GeminiCodec.setNamed (fun x => validUTF8 (fst x) /\ compacted (snd x)) _ _ _ setNamed_sound _ Hv Hx).
  split; [apply empty_valid|by left].
Qed.

Lemma gemini_text_keep : Forall (fun kf => keeps (fun t => validUTF8 (tx_Text t)) (snd kf)) GeminiCodec.textHandlers.
Proof. handlers. unbind. shadowed (fun t => validUTF8 (tx_Text t)); [|done|done]. done. Qed.

Lemma gemini_reasoning_keep : Forall (fun kf => keeps soundReasoning (snd kf)) GeminiCodec.reasoningHandlers.
Proof. handlers; [text_field soundReasoning|by inv_ok|text_field soundReasoning]. Qed.

Lemma gemini_call_keep : Forall (fun kf => keeps soundCallPart (snd kf)) GeminiCodec.callHandlers.
Proof.
  handlers. unbind. apply named_sound in H0 as [Hn Ha]; [|done]. destruct Hs as (Hi & _ & Hc). cbn in Hn, Ha.
  destruct (String.eqb _ ""); repeat split; done.
Qed.

Lemma gemini_result_keep : Forall (fun kf => keeps soundResult (snd kf)) GeminiCodec.resultHandlers.
Proof.
  handlers. unbind. apply named_sound in H0 as [Hn Ha]; [|done]. destruct Hs as (Hi & Hc). cbn in Hn, Ha.
  destruct (String.eqb _ ""); by split.
Qed.

Lemma setMedia_sound f v x x' : scanned v -> validUTF8 (fst x) /\ validUTF8 (snd x) -> GeminiCodec.setMedia f v x = Ok x' ->
  validUTF8 (fst x') /\ validUTF8 (snd x').
Proof.
  intros Hv [H1 H2] Hx. unfold GeminiCodec.setMedia in Hx. destruct (String.eqb _ _); inv_ok; cbn; (split; [|]); try done; reads_text.
Qed.

Lemma mediaEnvelope_sound k field v x : scanned v -> GeminiCodec.mediaEnvelope k field v = Ok x -> validUTF8 (fst x) /\ validUTF8 (snd x).
Proof.
  intros Hv Hx. refine (unmarshalStruct_keeps _ _ (fun x => validUTF8 (fst x) /\ validUTF8 (snd x)) _ _ _ _ _ Hv Hx).
  - intros _ u a a' Hu Ha Hs. by refine (unmarshalStruct_keeps _ _ (fun x => validUTF8 (fst x) /\ validUTF8 (snd x)) _ _ _ setMedia_sound Ha Hu Hs).
  - split; apply empty_valid.
Qed.

Lemma mediaPart_sound mime data url w : validUTF8 mime -> validUTF8 data -> validUTF8 url -> soundPart (GeminiCodec.mediaPart mime data url w).
Proof. intros H1 H2 H3. unfold GeminiCodec.mediaPart. repeat destruct (HasPrefix _ _); by eexists. Qed.

Lemma gemini_part_sound v p : scanned v -> GeminiCodec.decodePart v = Ok p -> soundPart p.
Proof.
  intros Hv Hd. unfold GeminiCodec.decodePart in Hd. inv_ok.
  repeat match goal with H : (if ?b then _ else _) = _ |- _ => destruct b end; try (injection Hd as <-); unbind; try done.
  - eexists. split; [done|]. refine (known_sound soundReasoning _ v _ _ _ gemini_reasoning_keep Hv _ H0); [done|]. split; apply empty_valid.
  - eexists. split; [done|]. refine (known_sound (fun t => validUTF8 (tx_Text t)) _ v _ _ _ gemini_text_keep Hv _ H0); [done|].
    apply empty_valid.
  - unfold GeminiCodec.decodeInlineData in Hd. unbind. apply mediaEnvelope_sound in H0 as [? ?]; [|done]. by apply mediaPart_sound; try apply empty_valid.
  - unfold GeminiCodec.decodeFileData in Hd. unbind. apply mediaEnvelope_sound in H0 as [? ?]; [|done]. by apply mediaPart_sound; try apply empty_valid.
  - eexists. split; [done|]. refine (known_sound soundCallPart _ v _ _ _ gemini_call_keep Hv _ H0); [done|].
    split; [apply empty_valid|]. split; [apply empty_valid|by left].
  - cbn. split; [done|]. rewrite allOf_Forall. refine (known_sound soundResult _ v _ _ _ gemini_result_keep Hv _ H0); [done|].
    split; [apply empty_valid|constructor].
Qed.

Lemma gemini_parts_sound v elems l : scanned v -> unmarshalElements v = Ok elems -> omapM GeminiCodec.decodePart elems = Ok l -> Forall soundPart l.
Proof. intros Hv He Hl. by eapply (elements_all _ soundPart v); [apply gemini_part_sound|..]. Qed.

Lemma gemini_content_keep : Forall (fun kf => keeps soundMessage (snd kf)) GeminiCodec.contentHandlers.
Proof.
  handlers; unbind; destruct Hs as (Hp & Hr).
  - split; [done|]. unfold GeminiCodec.geminiRole. cbv [set const]. cbn. destruct (String.eqb _ _); [by split; [apply valid_ascii|]|].
    apply roleOf_named. reads_text.
  - split; [|done]. apply List.Forall_app. split; [done|]. by eapply gemini_parts_sound.
Qed.

Lemma gemini_content_sound el m : scanned el -> GeminiCodec.decodeContent el = Ok m -> soundMessage m.
Proof.
  intros Hel Hd. refine (known_sound soundMessage _ el _ _ _ gemini_content_keep Hel _ Hd); [done|].
  split; [constructor|by split; [apply empty_valid|]].
Qed.

Definition soundGeneration (g : GenerationConfig) : Prop :=
  numeral (MaxTokens g) /\ numeral (Temperature g) /\ numeral (TopP g) /\ numeral (TopK g) /\ Forall validUTF8 (StopSequences g).

Lemma generationNumber_sound f v g g' : scanned v -> soundGeneration g -> GeminiCodec.generationNumber f v g = Ok g' ->
  (forall n, numeral n -> soundGeneration (f n g)) -> soundGeneration g'.
Proof. intros Hv Hg H Hf. unfold GeminiCodec.generationNumber in H. inv_ok. apply Hf. by eapply DecodeNumber_numeral. Qed.

Lemma gemini_generation_keep : Forall (fun kf => keeps soundGeneration (snd kf)) GeminiCodec.generationHandlers.
Proof.
  handlers; try (eapply generationNumber_sound; [done|done|done|]; destruct Hs as (? & ? & ? & ? & ?); intros n Hn; by repeat split).
  unbind. unfold DecodeShadowStringSlice in *. inv_ok. destruct Hs as (? & ? & ? & ? & ?). repeat split; try done. by eapply strings_valid.
Qed.

Lemma setDeclaration_sound f v t t' : scanned v -> soundTool t -> GeminiCodec.setDeclaration f v t = Ok t' -> soundTool t'.
Proof.
  intros Hv (? & ? & ?) Ha. unfold GeminiCodec.setDeclaration in Ha. unfold soundTool. repeat destruct (String.eqb _ _); inv_ok; cbv [set const]; cbn.
  - split; [reads_text|done].
  - split; [done|]. split; [reads_text|done].
  - split; [done|]. split; [done|by apply scanned_compacted].
Qed.

Lemma declarations_sound v l : scanned v -> GeminiCodec.declarations v = Ok l -> Forall soundTool l.
Proof.
  intros Hv. apply (unmarshalList_all _ soundTool); [|done]. intros x y Hx Hy.
  refine (unmarshalStruct_keeps _ _ soundTool _ _ _ setDeclaration_sound _ Hx Hy).
  split; [apply empty_valid|]. split; [apply empty_valid|by left].
Qed.

Lemma gemini_tools_sound v r r' : scanned v -> soundRequest r -> GeminiCodec.decodeTools v r = Ok r' -> soundRequest r'.
Proof.
  intros Hv Hr H. unfold GeminiCodec.decodeTools in H. inv_ok. assert (soundRequest (r <| rq_Tools := rq_Tools r ++ List.concat x |>)) as Ht; [|destruct Ht; by split].
  apply with_tools; [|done]. apply List.Forall_app. split; [by destruct Hr|]. apply List.Forall_concat.
  refine (unmarshalList_all _ (Forall soundTool) v _ Hv x ltac:(done)). intros u y Hu Hy.
  refine (unmarshalStruct_keeps _ _ (Forall soundTool) _ _ _ _ _ Hu Hy); [|constructor]. intros _ w a a' Hw _ Ha. by eapply declarations_sound.
Qed.

Definition soundCalling (x : string * list string) : Prop := validUTF8 (fst x) /\ Forall validUTF8 (snd x).

Lemma choiceOf_sound mode allowed : validUTF8 mode -> Forall validUTF8 allowed -> soundChoice (GeminiCodec.choiceOf mode allowed).
Proof.
  intros Hm Ha. unfold GeminiCodec.choiceOf.
  assert (forall m, validUTF8 (modeString m) -> soundChoice (mkChoice m "" zeroWire)) as Hc by (intros; by split; [|apply empty_valid]).
  repeat destruct (_ || _); repeat destruct (String.eqb _ _); try (apply Hc; by apply valid_ascii); [|apply Hc; by rewrite modeOf_string].
  destruct Ha as [|name l Hn Hl]; [apply Hc; by apply valid_ascii|]. destruct l; [|apply Hc; by apply valid_ascii].
  split; [by apply valid_ascii|done].
Qed.

Lemma gemini_config_sound v r r' : scanned v -> soundRequest r -> GeminiCodec.decodeToolConfig v r = Ok r' -> soundRequest r'.
Proof.
  intros Hv Hr H. unfold GeminiCodec.decodeToolConfig in H. unbind.
  match goal with Hx : unmarshalStruct _ _ _ _ = Ok (?m, ?l) |- _ => assert (soundCalling (m, l)) as [Hm Hl] end.
  { refine (unmarshalStruct_keeps _ _ soundCalling _ _ _ _ _ Hv ltac:(eassumption)); [|by split; [apply empty_valid|constructor]].
    intros _ u a a' Hu Ha Hs. refine (unmarshalStruct_keeps _ _ soundCalling _ _ _ _ Ha Hu Hs). clear -J JL.
    intros f w b b' Hw [Hb1 Hb2] Hset. unfold GeminiCodec.setCalling in Hset. destruct (String.eqb _ _); inv_ok.
    - split; [cbn; reads_text|done].
    - split; [done|]. cbn. by eapply strings_valid. }
  assert (soundRequest (r <| rq_ToolChoice := Some (GeminiCodec.choiceOf s l) |>)) as Ht; [|destruct Ht; by split]. apply with_choice; [|done]. by apply choiceOf_sound.
Qed.

Lemma gemini_system_sound v r r' : scanned v -> soundRequest r -> GeminiCodec.decodeSystem v r = Ok r' -> soundRequest r'.
Proof.
  intros Hv Hr H. unfold GeminiCodec.decodeSystem in H. inv_ok.
  assert (soundRequest (r <| rq_System := rq_System r ++ x0 |>)) as Ht; [|destruct Ht; by split]. apply with_system; [|done]. apply List.Forall_app. split; [by destruct Hr|].
  refine (omapM_all _ scanned soundPart _ gemini_part_sound _ _ ltac:(eassumption)).
  refine (unmarshalStruct_keeps _ _ (Forall scanned) _ _ _ _ _ Hv ltac:(eassumption)); [|constructor]. intros _ u a a' Hu _ Ha.
  refine (unmarshalList_all _ scanned u _ Hu a' Ha). by intros y z Hy [= <-].
Qed.

Lemma gemini_handlers_keep : Forall (fun kf => keeps soundRequest (snd kf)) GeminiCodec.requestHandlers.
Proof.
  handlers.
  - unbind. apply with_messages; [|done]. unfold GeminiCodec.decodeContents in *. inv_ok.
    by eapply (elements_all _ soundMessage v); [apply gemini_content_sound|..].
  - by eapply gemini_system_sound.
  - unbind. unfold GeminiCodec.decodeGenerationConfig in *.
    assert (soundGeneration x) as (? & ? & ? & ? & ?); [|destruct Hs; split; cbv [set const]; cbn; done].
    refine (known_sound soundGeneration _ v _ _ _ gemini_generation_keep Hv _ ltac:(eassumption)); [done|]. by destruct Hs.
  - by eapply gemini_tools_sound.
  - by eapply gemini_config_sound.
Qed.

(** What the decoder of Gemini accepts is sound. *)
Lemma gemini_sound inp r : GeminiCodec.DecodeRequest inp = Ok r -> soundRequest r.
Proof.
  unfold GeminiCodec.DecodeRequest. intros H.
  assert (forall model stream w, ChatCodec.malformed "google_genai" "request body" (DecodeKnown (assoc GeminiCodec.requestHandlers) (objectOfText (in_Body inp))
            (mkRequest "google_genai" "chat" model [] [] [] None ChatCodec.zeroGeneration stream w)) = Ok r -> soundRequest r) as Hb.
  { intros model stream w Hd. destruct (DecodeKnown _ _ _) as [r'| |] eqn:E; try done. injection Hd as ->.
    refine (DecodeKnown_keeps soundRequest request_wire _ _ _ _ gemini_handlers_keep (objectOfText_scanned _) _ E).
    split; cbn; try constructor; try done; by left. }
  destruct (GeminiCodec.isGoogleOpenAICompatPath _); [done|]. destruct (GeminiCodec.googlePathModelMethod _) as [model method].
  repeat destruct (String.eqb _ _); try done; [by eapply Hb|]. destruct (Contains _ _); [by eapply Hb|done].
Qed.

End Gemini.
End Decoded.
