(* ===== verification/Translation.v ===== *)
(** * A request through two schemas

    [translateRequest] of [extproc/translate.go] with the codecs of the two schemas: what a
    client writes in one is what a backend of the other reads, up to the normal form
    of its schema, and what is lost is counted. *)

From Stdlib Require Import ZArith Lia Ascii String List.
From stdpp Require Import base strings list gmap.
From S2P Require Import Prelude GoStrings GoStd Registry LlmCall ExtMut JsonText LlmJson JsonEngine ChatCodec MessagesCodec GeminiCodec BedrockCodec MessagesRoundtrip Decoded.
Import GoStrings GoStd LlmCall JsonText LlmJson CleanRequest Decoded.

#[local] Open Scope string_scope.
#[local] Open Scope Z_scope.
#[local] Open Scope list_scope.

Module Translation.

Section Translation.
Context {J : Jsonx} {JL : JsonxLaws}.

(** The codecs as the translator calls them, in strip mode. *)
Definition chatCodec (provider : string) : LlmCall.Codec := {|
  LlmCall.DecodeRequest := ChatCodec.DecodeRequest provider;
  LlmCall.EncodeRequest r := let! (en, _) := ChatCodec.EncodeRequest ModeStrip r in Ok en;
  LlmCall.DecodeResponse := ChatCodec.DecodeResponse provider;
  LlmCall.EncodeResponse r := let! (en, _) := ChatCodec.EncodeResponse ModeStrip r in Ok en;
|}.

Definition messagesCodec : LlmCall.Codec := {|
  LlmCall.DecodeRequest := MessagesCodec.DecodeRequest;
  LlmCall.EncodeRequest r := let! (en, _) := MessagesCodec.EncodeRequest ModeStrip r in Ok en;
  LlmCall.DecodeResponse := MessagesCodec.DecodeResponse;
  LlmCall.EncodeResponse r := let! (en, _) := MessagesCodec.EncodeResponse ModeStrip r in Ok en;
|}.

Definition geminiCodec : LlmCall.Codec := {|
  LlmCall.DecodeRequest := GeminiCodec.DecodeRequest;
  LlmCall.EncodeRequest r := let! (en, _) := GeminiCodec.EncodeRequest ModeStrip r in Ok en;
  LlmCall.DecodeResponse := GeminiCodec.DecodeResponse;
  LlmCall.EncodeResponse r := let! (en, _) := GeminiCodec.EncodeResponse ModeStrip r in Ok en;
|}.

Definition bedrockCodec : LlmCall.Codec := {|
  LlmCall.DecodeRequest := BedrockCodec.DecodeRequest;
  LlmCall.EncodeRequest r := let! (en, _) := BedrockCodec.EncodeRequest ModeStrip r in Ok en;
  LlmCall.DecodeResponse st hs body r := BedrockCodec.DecodeResponse st hs body (Some r);
  LlmCall.EncodeResponse r := let! (en, _) := BedrockCodec.EncodeResponse ModeStrip r in Ok en;
|}.

(** ** What a client's codec promises the translation

    Whatever the decoder accepts is sound. *)
Class SoundDecoder (C : LlmCall.Codec) := decodes_sound : forall inp r, @LlmCall.DecodeRequest C inp = Ok r -> soundRequest r.

#[export] Instance chat_decodes provider : SoundDecoder (chatCodec provider) := chat_sound provider.
#[export] Instance messages_decodes : SoundDecoder messagesCodec := messages_sound.
#[export] Instance gemini_decodes : SoundDecoder geminiCodec := gemini_sound.

(** The request handed to the encoder: normalized, for the provider and model of the backend. *)
Definition outgoing (tgt : Registry.Provider) (r : Request) (model : string) : Request :=
  let cp := fst (normalize r) in
  mkRequest (Registry.p_Name tgt) (rq_Operation cp) model (rq_System cp) (rq_Messages cp) (rq_Tools cp) (rq_ToolChoice cp)
    (rq_Generation cp) (rq_Stream cp) (rq_Wire cp).

Lemma outgoing_clean tgt r model : soundRequest r -> validUTF8 model -> cleanRequest (outgoing tgt r model).
Proof. intros Hr Hm. by destruct (normalize_clean r model Hr Hm). Qed.

Lemma translateRequest_eq {HK : ExtMut.Hooks} tgt r model :
  ExtMut.translateRequest tgt r model
  = let! enc := @LlmCall.EncodeRequest (ExtMut.codecOf tgt) (outgoing tgt r model) in
    Ok (mkEncodedRequest (en_Body enc) (en_Path enc) (en_SetHeaders enc) (en_RemoveHeaders enc) (en_DroppedExtras enc + snd (normalize r)),
        outgoing tgt r model).
Proof. unfold ExtMut.translateRequest, outgoing. by destruct (normalize r). Qed.

(** C23: an Anthropic backend reads what a client of another schema wrote.  Whatever body
    the decoder of the client's schema accepts, the translation writes a body that the
    decoder of the Messages schema accepts, and it reads there the normal form of the
    client's request: the normalized messages, tools and parameters under the backend's
    model.  The one condition besides is that no field of the body nests deeper than the
    10000 levels Go's scanner accepts ([fits]).  The dropped extras reported are exactly
    the unknown members the normalization strips and the parts the encoder has no block
    for; they are not all that can be lost: what a decoder keeps only in its bookkeeping,
    to write it back to its own schema, is gone without being counted, see
    [gemini_payload_uncounted]. *)
Theorem client_request_reaches_messages {HK : ExtMut.Hooks} (src : LlmCall.Codec) {SD : SoundDecoder src} (inp : RequestInput) (r : Request)
    (tgt : Registry.Provider) (model : string) (hs : gmap string string) :
  @LlmCall.DecodeRequest src inp = Ok r -> ExtMut.codecOf tgt = messagesCodec -> validUTF8 model ->
  MessagesRoundtrip.fits (outgoing tgt r model) ->
  exists en r', ExtMut.translateRequest tgt r model = Ok (en, outgoing tgt r model)
    /\ MessagesCodec.DecodeRequest (mkRequestInput "POST" (en_Path en) hs (en_Body en)) = Ok r'
    /\ eraseRequest r' = MessagesRoundtrip.messagesForm (outgoing tgt r model)
    /\ en_DroppedExtras en = MessagesRoundtrip.requestDrops (outgoing tgt r model) + snd (normalize r).
Proof.
  intros Hr Hc Hm Hf. pose proof (outgoing_clean tgt r model (decodes_sound _ _ Hr) Hm) as Hclean.
  destruct (MessagesRoundtrip.written_and_read _ hs Hclean Hf) as (en & r' & He & Hd & HE & Hn).
  rewrite translateRequest_eq, Hc. cbn [LlmCall.EncodeRequest messagesCodec]. rewrite He. cbn [obind].
  eexists _, r'. split; [done|]. cbn. by rewrite Hn.
Qed.

End Translation.

(** ** A turn of tools, from an OpenAI client to an Anthropic backend *)

(** Single quotes for double ones. *)
Fixpoint quoted (s : string) : string :=
  match s with EmptyString => "" | String c t => String (if Ascii.eqb c "'" then dq else c) (quoted t) end.

Definition clientBody : string := quoted "{'model':'gpt-4o','messages':[{'role':'system','content':'be brief'},
  {'role':'user','content':[{'type':'text','text':'look'},{'type':'image_url','image_url':{'url':'data:image/png;base64,AA=='}}]},
  {'role':'assistant','content':null,'tool_calls':[{'id':'c1','type':'function','function':{'name':'find','arguments':'{ }'}}]},
  {'role':'tool','tool_call_id':'c1','content':'42'}],'max_completion_tokens':64,'stop':'END','stream':true,'seed':7}".

Definition clientInput : RequestInput := mkRequestInput "POST" "/v1/chat/completions?v=1" ∅ clientBody.

Definition emptyRequest : Request := mkRequest "" "" "" [] [] [] None ChatCodec.zeroGeneration false zeroWire.

Definition clientRequest : Request :=
  match @ChatCodec.DecodeRequest JsonEngine.engine "openai" clientInput with Ok r => r | _ => emptyRequest end.

Definition backend : Registry.Provider :=
  Registry.mkProvider "anthropic" [] [] None true true (Registry.mkCaps ["chat"] true true true false false true false true true) true ["x-api-key"].

#[local] Instance hooks : ExtMut.Hooks := {|
  ExtMut.codecOf _ := @messagesCodec JsonEngine.engine;
  ExtMut.ensureStreamUsage _ := None;
  ExtMut.errorBody _ := None;
  ExtMut.decodedModel _ := None;
  ExtMut.replacedModel _ _ := None;
  ExtMut.marshalString s := s;
|}.

Lemma client_request_reaches_messages_witness :
  exists en r', ExtMut.translateRequest backend clientRequest "claude" = Ok (en, outgoing backend clientRequest "claude")
    /\ @MessagesCodec.DecodeRequest JsonEngine.engine (mkRequestInput "POST" (en_Path en) ∅ (en_Body en)) = Ok r'
    /\ eraseRequest r' = MessagesRoundtrip.messagesForm (outgoing backend clientRequest "claude")
    /\ en_DroppedExtras en = 1.
Proof.
  apply (@client_request_reaches_messages JsonEngine.engine JsonEngine.engine_laws hooks (@chatCodec JsonEngine.engine "openai")
           (@chat_decodes JsonEngine.engine JsonEngine.engine_laws "openai") clientInput clientRequest backend "claude" ∅).
  - vm_compute. reflexivity.
  - reflexivity.
  - exact I.
  - unfold MessagesRoundtrip.fits. apply MessagesRoundtrip.shallow_depth. vm_compute. reflexivity.
Defined.

(** ** Where the codecs lose more than they say *)

Section Lost.
Context {J : Jsonx}.

(** Of two tool results in one turn, which is how an Anthropic client answers parallel
    calls, the Chat Completions encoder writes the first; the second is neither written nor
    counted. *)
Lemma second_result_lost mode role r1 r2 ps w d :
  ChatCodec.encodeMessage mode (mkMessage role (partResult r1 :: partResult r2 :: ps) w) d
  = ChatCodec.encodeMessage mode (mkMessage role (partResult r1 :: ps) w) d.
Proof. reflexivity. Qed.

(** A null choice is decoded as the choice of a function with no name. *)
Lemma null_choice_is_named r : exists r', ChatCodec.decodeToolChoice JNull r = Ok r'
  /\ rq_ToolChoice r' = Some (mkChoice ToolChoiceNamed "" zeroWire).
Proof. eexists. by split. Qed.

(** The tools a Bedrock client sends that are no functions are counted in a hint, which the
    normalization of a translation throws away before any encoder could report it. *)
Lemma unmodeled_tools_uncounted r : BedrockCodec.unmodeled ModeStrip (rq_Wire (fst (normalize r))) = 0.
Proof. unfold normalize, StripRequestForTranslation. by destruct (stripParts _). Qed.

End Lost.

(** A cache point among the tools vanishes from the request and from the count. *)
Example cache_point_uncounted :
  let body := quoted "{'messages':[],'toolConfig':{'tools':[{'cachePoint':{'type':'default'}}]}}" in
  (let! r := @BedrockCodec.DecodeRequest JsonEngine.engine (mkRequestInput "POST" "/model/nova/converse" ∅ body) in
   Ok (Hint (rq_Wire r) "toolConfigUnmodeled", snd (normalize r)))
  = Ok ("1", 0).
Proof. vm_compute. reflexivity. Qed.

(** What a Gemini client answers a call with, and its tools that are no functions, are kept
    in a hint and a shadow only: an Anthropic backend is sent an empty result and no tool,
    the same body as without them, and nothing is counted. *)
Example gemini_payload_uncounted :
  let sent := fun (response tools : string) =>
    let body := quoted ("{'contents':[{'role':'user','parts':[{'functionResponse':{'name':'find'" ++ response ++ "}}]}]" ++ tools ++ "}")%string in
    let! r := @GeminiCodec.DecodeRequest JsonEngine.engine (mkRequestInput "POST" "/v1beta/models/gemini-2:generateContent" ∅ body) in
    let! (en, _) := ExtMut.translateRequest backend r "claude" in Ok (en_Body en, en_DroppedExtras en) in
  sent ",'response':{'result':42}" ",'tools':[{'googleSearch':{}}]" = sent "" ""
  /\ (let! (body, dropped) := sent "" "" in Ok dropped) = Ok 0.
Proof. split; vm_compute; reflexivity. Qed.

(** A null parameter does not survive a round trip in preserve mode. *)
Example null_temperature_lost :
  let body := quoted "{'model':'m','messages':[],'temperature':null}" in
  (let! r := @ChatCodec.DecodeRequest JsonEngine.engine "openai" (mkRequestInput "POST" "/v1/chat/completions" ∅ body) in
   let! (en, exact) := @ChatCodec.EncodeRequest JsonEngine.engine ModePreserve r in Ok (en_Body en, exact))
  = Ok (quoted "{'model':'m','messages':[]}", false).
Proof. vm_compute. reflexivity. Qed.

End Translation.
